(* ===== verification/_CoqProject ===== *)
-Q . S2P
Prelude.v
StoreLogic.v
PyStr.v
PyTime.v
PyDecimal.v
PyText.v
PyIp.v
PyUrl.v
TenantLifecycle.v
PlatformAuthority.v
PlatformService.v
PlatformProofs.v
PlatformSafety.v
TenantHierarchy.v
HierarchyProofs.v
HierarchySafety.v
HierarchyReads.v
RbacDecision.v
RbacProofs.v
RbacAdministrators.v
RbacService.v
RbacIntegrity.v
RbacAuthority.v
RbacGuard.v
Identity.v
ApiKeys.v
UserAuthority.v
IdentityProofs.v
IdentityHistory.v
IdentitySafety.v
KeyLimit.v
IdentityGuard.v
IdentityDemo.v
Idempotency.v
IdempotencyProofs.v
Usage.v
UsageProofs.v
OutboxModel.v
OutboxText.v
Outbox.v
OutboxClaim.v
OutboxTrace.v
OutboxSafety.v
Redis.v
RateLimit.v
LeaseProofs.v
LimiterProofs.v
BillingModel.v
Billing.v
BillingService.v
BillingCommercial.v
BillingEvents.v
BillingProofs.v
BillingSteps.v
BillingSafety.v
BillingEntitlements.v
BillingDemo.v
Egress.v
EgressClient.v
EgressProofs.v
EgressSafety.v
Crypto.v
Webhooks.v
WebhookService.v
WebhookDelivery.v
WebhookProofs.v
WebhookHistory.v
WebhookFanout.v
WebhookDemo.v
GrantModel.v
GrantApply.v
GrantRegister.v
GrantApproval.v
GrantProofs.v
GrantSafety.v
GrantUpgrade.v
GrantDemo.v
AuditDigest.v
DigestProofs.v
DigestHistory.v
