(* ===== verification/Prelude.v ===== *)
(** * Verification of the SaaS OS platform core

    The program is a multi-tenant platform (Python, PostgreSQL).  Its core
    components live under [src/saas_os/core]; they share one database and call
    each other inside one transaction.  This development models the components
    that decide whether work happens, happens once, and who may cause it:

    - the _transactional outbox_ ([core/outbox]): events written in the
      transaction of the change they report, claimed by dispatchers under a
      lease, executed, retried or dead-lettered, and consumed at most once;
    - _platform authority_ ([core/platform_authority]): who may operate the
      installation, how that authority is given, taken, bootstrapped and
      recovered, and what is recorded about it;
    - the _tenant registry_ ([core/tenancy]): the lifecycle of a tenant and the
      tenant hierarchy, whose closure every permission check reads;
    - _authorization_ ([core/rbac]): whether a person or a service account may
      act on a tenant, how roles, delegations, denies and support access are
      administered, and the guard that keeps every tenant an administrator;
    - _identity_ ([core/identity], [core/api_keys]): people, their memberships,
      invitations, sessions and keys, service accounts, and how access is taken
      away from a person everywhere at once;
    - _idempotency keys_ ([core/idempotency]): a request that is repeated runs
      once;
    - _usage and quotas_ ([core/usage]): metered consumption under a limit;
    - _rate limits_ ([infra/ratelimit]): counters, leases and circuit breakers in
      Redis, shared by all instances;
    - _billing_ ([core/billing]): plans and who may buy them, subscriptions with
      their payer and merchant, what they entitle a tenant to, the payment
      provider behind them and the events it sends;
    - _egress_ ([infra/egress]): which addresses an outbound request may reach, the
      client that reaches only those, and the tunnel through a proxy;
    - _encrypted fields_ ([core/crypto]): envelopes, key versions, encryption;
    - _webhooks_ ([core/webhooks]): subscriptions and their secrets, signatures and
      the replay ledger, the fan-out of an event through the outbox, and its
      delivery;
    - _permission grants_ ([core/permission_grants]): the permissions an upgrade
      grants to the roles of tenants, the ledger that is the evidence of it, the
      register of those who may approve the deletion of ledger rows, legal holds,
      retention, and the chain of acts a deletion needs.

    The outbox asks the registry whether a tenant is open; the registry asks
    platform authority whether a caller may create, move or transition a tenant
    and RBAC whether the change leaves an administrator; a decision reads the
    registry's closure and the memberships identity maintains, and identity asks
    the decision and the guard before it changes them; a keyed consumption and a
    purchase run under an idempotency key; billing asks the decision, reads the
    registry, and announces its changes through the outbox; a webhook is fanned out
    into outbox events, whose handler decrypts the secret of the subscription and
    sends to addresses the egress policy accepts; a permission grant run is a
    platform operation that locks open tenants of the registry and grants through
    RBAC, and retention reads the purge of a tenant from the platform's audit rows.

    ** How the code is modelled

    A component's tables are a record of finite maps ([outbox_store],
    [platform_store], [tenancy_store], [rbac_rows], ...).  An operation is a function on that
    record in the monad [M]: it reads and writes the store and returns or raises.
    [transaction] rolls the store back on an exception, as [session_scope()]
    does; what the code does after the rollback (recording a refusal) is outside
    it in the model as well.  Constraints of the tables (primary and foreign
    keys, checks, column widths) are exceptions of the insert that violates them.
    Times are microseconds, identifiers the integers UUIDs are.  The clock, the
    random generator and [uuid4] are arguments: theorems that need distinct
    random ids say so.  A row lock is modelled by its effect: an operation runs
    on the store its transaction sees, rows another transaction holds are an
    argument where the code skips them ([FOR UPDATE SKIP LOCKED]), and a history
    is the sequence of committed operations.  Where an operation reads in one
    session and writes in a later one, the store it read is an argument (the
    tenants a claim of the outbox lists), what commits in between is ([env],
    [between]), or the operation is a process that takes one transaction at a time
    ([worker_step], [begin_step]).

    ** The files

    - [Prelude]: results, the store monad, shared tactics and lemmas.
      [StoreLogic]: what a computation keeps ([keeps], [commits], [upholds]) and
      the rules that follow the structure of its code.
    - [PyStr], [PyTime], [PyDecimal]: Python strings, integers, ISO dates and
      decimals as the code formats, parses and computes them.  [PyText]:
      splitting, numbers in a base, base64 and UTF-8.  [PyIp], [PyUrl]: the parts of
      [ipaddress] and [urllib.parse] the code relies on, and that addresses and
      URLs read back as they were written.
    - [TenantLifecycle] (core/tenancy/lifecycle.py and the guards of service.py):
      the status graph, its fences, the class [HasTenants] through which other
      components read tenants.
    - [PlatformAuthority] (permissions.py, operations.py, models.py, owners.py,
      authorization.py): the tables and the authorization decision.
      [PlatformService] (service.py, bootstrap.py, audit.py, changes.py): every
      operation that changes authority.  [PlatformProofs]: each operation is a
      sequence of primitive changes [pchange], each with the rule it obeyed.
      [PlatformSafety]: the theorems over all histories.
    - [TenantHierarchy] (core/tenancy/service.py, authority.py): creation, move,
      transition and the reads of the closure table.  [HierarchyProofs]: the
      closure table as the closure of the parent relation, and that creation and
      move keep it.  [HierarchySafety]: all histories, and who may transition.
      [HierarchyReads]: the derived reads, that no constraint is ever violated,
      and that a move that breaks no rule happens.
    - [RbacDecision] (core/rbac/authorization.py, administrators.py): the rows,
      [can] and the administrator guard.  [RbacProofs]: the decision is the rule
      [allowed], stated over rows and parents, and what follows.
      [RbacAdministrators]: the guard around the operations of the registry.
      [RbacService] (service.py, support_status.py): every administrative
      operation.  [RbacIntegrity]: the invariant of the rows over all histories.
      [RbacAuthority]: what a handout gives.  [RbacGuard]: the guard around the
      administrative operations, and the gaps of the administration.
    - [Identity] (core/identity: service.py, sessions.py, session_retention.py,
      login_transactions.py, invitation_status.py), [ApiKeys]
      (core/api_keys/service.py) and [UserAuthority] (user_authority.py): every
      operation that changes state.  [IdentityProofs]: the relation [evolves]
      between rows before and after; [IdentityHistory]: the operations as commands,
      histories, and that they keep it.  [IdentitySafety]: revocation, deactivation
      and single use over all histories.  [KeyLimit]: the limit of keys, the scan and
      the cleanup loops.  [IdentityGuard]: administrators and
      the owner.  [IdentityDemo]: a deployment the theorems are applied to, and a
      purge that another tenant blocks.
    - [Redis]: the interface the rate limiter uses, its laws and an instance.
      [RateLimit] (infra/ratelimit): the scripts and the operations around them.
      [LeaseProofs], [LimiterProofs]: their theorems, against the interface.
    - [Idempotency] (core/idempotency/service.py) and [IdempotencyProofs]: the
      primitives, concurrent reservations as interleaved steps, and runs.
    - [Usage] (core/usage/service.py) and [UsageProofs]: validation, windows,
      sums and consumption.
    - [BillingModel] (core/billing: models.py, lifecycle.py, provider.py, errors.py),
      [Billing] (authorization.py, parties.py, catalog.py, provider_refs.py,
      projections.py), [BillingService] (service.py), [BillingCommercial]
      (commercial.py, inheritance.py) and [BillingEvents] (provider_events.py): every
      operation.  [BillingProofs]: the relation [evolves] between stores, the
      invariant [billing_ok] and the steps [step_under]; [BillingSteps]: that each
      operation is a step.  [BillingSafety]: histories, and what lookups and the event
      inbox do.  [BillingEntitlements]: entitlements, eligibility and charging.
      [BillingDemo]: the repository's in-memory provider and a purchase.
    - [Egress] (infra/egress: addresses.py, errors.py, deadline.py, compat.py,
      policy.py, proxy.py) and [EgressClient] (client.py): every operation.
      [EgressProofs]: the address policy is the registry's; the pinned URL.
      [EgressSafety]: the requests and reports of the client, and a call.
    - [Crypto] (core/crypto: envelope.py, keys.py, service.py).
    - [Webhooks] (core/webhooks: config.py, models.py, errors.py, the URL, UUID and
      JSON texts of service.py), [WebhookService] (service.py, reencryption.py) and
      [WebhookDelivery] (the delivery handler of service.py): every operation.
      [WebhookProofs]: what a delivery does.  [WebhookHistory]: the
      operations as commands.  [WebhookFanout]: the outbox rows of an event;
      replays, secrets and their re-encryption over histories.
      [WebhookDemo]: a deployment, with a cipher that has the laws of AES-GCM.
    - [GrantModel] (core/permission_grants: models.py, errors.py, the data of
      declarations.py, approval_support.py; platform_authority/retention_evidence.py
      and purge_evidence.py), [GrantApply] (declarations.py, apply.py),
      [GrantRegister] (register.py) and [GrantApproval] (retention.py, approvals.py,
      expiry.py), with the triggers and constraints of the tables: every operation
      that changes state.  [GrantProofs]: the operations as commands, and the
      interface [TableSteps] through which they change the tables.  [GrantSafety]:
      the register, the ledger, retention and the chain of a deletion over all
      histories.  [GrantUpgrade]: what a run of migrations does.  [GrantDemo]: an
      upgrade, a purge and the deletion of its evidence.
    - [AuditDigest] (core/audit_digest: service.py, config.py, models.py;
      platform_authority/digest_source.py): the digests of the audit tables, the job
      that writes them and the verification.  [DigestProofs]: the digested texts
      determine the rows, and what a clean verification proves.  [DigestHistory]:
      runs of the job, interleaved, and what the verification says of them.
    - [OutboxModel] (models.py, config.py, errors.py, the text functions of
      dispatch.py), [OutboxText] (their theorems: the deadline kept in an error
      text, the backoff), [Outbox] (dispatch.py, service.py, consumption.py,
      replay.py: every operation), [OutboxClaim] (the claim transaction),
      [OutboxTrace] (the documented state machine [astep] and the refinement),
      [OutboxSafety] (what follows over all histories).

    ** What the theorems show

    - Outbox: every operation follows the documented machine; a claim takes rows of
      tenants that were open when they were listed, an execution begins only in an
      open one; a claim starts an external effect at most once; no execution of a
      started event begins under another claim without somebody's explicit consent,
      except through [release_claim], for which the resend is shown; delivery is bounded by the configured attempts; a lost
      claim can do nothing; the idempotency window is kept; terminal rows stay;
      a consumption is recorded at most once.
    - Identity: a revoked session or key is dead for good; deactivating or
      reactivating a person ends every credential they have, under interference;
      invitations and login transactions are used once; a person has no more keys
      than the limit; no sequence of operations and deactivations takes a tenant's
      last administrator (purges apart), no deactivation the installation's owner,
      and the rows stay consistent, through the purges too; the paged scan and the batched cleanup terminate with
      their whole work done.
    - Rate limits: no more leases than the limit, however instances interleave;
      several scopes are leased together or not at all; a window admits at most its
      limit and recovers; a circuit opens only after its failures and at them.
    - Platform authority: authorization accepts exactly the documented callers;
      the installation keeps an owner; nobody changes their own authority or
      creates a permission nobody holds; a revoked operator stays powerless;
      bootstrap happens once.
    - Registry: the closure table is exact, acyclic and bounded after every
      history; reads agree with walking the parents; operations raise documented
      errors only; a transition follows the graph with the authority of its edge
      and tells an unauthorised caller nothing.
    - Authorization: a decision is exactly the documented rule; it depends on no
      tenant outside the ancestor chain; support access never carries authority;
      neither a registry operation nor an administrative one takes a tenant's
      last administrator; nobody hands out by assignment or delegation what they
      do not reach by a role; rows stay consistent; a support request is never both
      approved and denied, nor approved by its requester.  Two gaps are shown on a concrete deployment.
    - Billing: whatever other transactions do between the transactions and provider
      calls of an operation, the tables stay consistent; a subscription follows its
      status graph and its versions name its content; nobody is billed twice or
      charged without leave; a provider's reference leads back to its subscription;
      the read models converge; entitlements and eligibility are what the plans and
      the catalog say; an event of the provider is settled once, as long as its row
      is not pruned.
    - Egress: an address passes exactly if the registry calls it globally routable,
      and the addresses no trust entry may reach are exactly the listed ones, with
      the IPv4 addresses inside mapped, NAT64 and 6to4 ones; every request of the client
      goes over https to a judged address; what it reports as not sent was not sent.
    - Encrypted fields: a ciphertext survives the rotation of keys and is refused
      under other associated data, or a collision of the cipher's tag is at hand.
    - Webhooks: a delivery reaches public addresses only, signed with the
      subscription's own secret, and reports and records the truth; an event becomes
      one outbox row per subscription, read back as it was written; an accepted
      delivery is not accepted again, given the retention keeps twice the tolerance
      (a replay is shown for the retention the code documents); a subscription
      keeps its tenant, URL and secret; the re-encryption leaves no plaintext, and
      is shown to be stuck beyond one batch.
    - Permission grants: a run, whichever tenants fail, adds what is declared and
      nothing that changes authority, and records truthfully what it did; the
      ledger only grows as long as deletion is disabled; if it is enabled, a row goes
      only with two eligible, different and unlinked approvers, none of them with
      authority, after two years and without a hold, and the records of the chain
      are used once; the register stays well-formed under every history; the
      retention decision is the calendar's.
    - Audit digests: if the verification reports nothing, the rows of every window
      that was recorded are what they were, and no row lies outside the windows, or a
      collision of the digest is at hand; and it reports nothing for any log that
      runs of the job leave, interleaved transaction by transaction and crashing
      anywhere, over tables that only grow by rows committed within the settle
      time.
    - Idempotency: an operation that ran under a key never runs again; a new key
      is given to one of any number of concurrent callers, a failed one to two.
    - Usage: a window's sum exceeds the limit only by what was not checked against
      it, within the 28 digits Python computes with; two inputs beyond them, and a
      consumption across the end of a month that takes the next one over the limit,
      are shown; a key consumes once.

    ** Bounds and parameters

    Only the paged scan of [UserAuthority] has fuel, one more than the tenants it
    visits, which [scan_complete] shows to be enough; every other recursion is
    structural.  Parameters without hypotheses are the digest of a token, the case
    folding of Python, and what other transactions commit between the two scans of
    a deactivation; Redis is a parameter with the laws of [RedisLaws], which the
    instance in [Redis] satisfies.  The RBAC component's two
    answers to the registry (may a member suspend their own tenant, does the
    administrator guard accept) are parameters of [TenantHierarchy] without
    hypotheses, except that [move_accepted] asks the guard to accept;
    [RbacAdministrators] instantiates them with the modelled ones.

    A function of billing that opens several sessions or calls a provider is not one
    transaction: before each of them the rest of the system acts, by a parameter
    [env].  The theorems ask of it that it is a step of the kind the operations are
    shown to make ([every_operation_steps]; for the event ledger [ledger_le], which
    lets retention delete the rows older than a horizon); the
    reads are stated for the [quiet] one.  A payment provider is an [Adapter], any
    function of the instant and the calls so far; the id derived from an operation
    ([uuid5]) and the digest of a payload are parameters without hypotheses.

    For egress and webhooks the world is a parameter without hypotheses: the [n]-th
    reading of the clock, the answer of the resolver, what becomes of the [n]-th
    request; only the reports of the client ask that the HTTP library raises its
    connection errors while connecting.  Python's case folding and Unicode
    normalisation are parameters, of which the folding is asked to be the usual one
    on ASCII; [int] of a text is a parameter, asked to be the number on digits;
    AES-GCM is a parameter with the laws [aes_gcm]: decryption is the partial inverse
    of encryption, and no associated data is empty associated data; that a ciphertext
    is not valid under two associated data is not assumed, the theorems name such a
    collision.  The HMAC has no law.

    For permission grants SHA-256 and the creation times of tenants are parameters
    without hypotheses.  Each command of a history has three times: that of its
    transaction, that of the clock it reads, and that of the clock its row triggers
    read; nothing relates them, nor the times of two commands, and between two
    commands the other components change their tables in any way.  PostgreSQL's
    [interval '12 months'] is taken to be the calendar addition of the service.

    For the audit digests SHA-256 is a parameter without hypotheses: the theorems name
    the two texts that would collide.  That a row is committed within the settle time
    of its date, which the configuration asks for, is part of the histories; a run is
    a process that takes one transaction or one log line at a time.

    ** Not modelled

    The content of audit metadata, log lines other than the digest records (and the
    reading of these from their text), statement timeouts, the reference
    that stands for an erased user, reading configuration from the environment,
    and the rewrite of stored error texts by an operator; and the components
    listed as such in the manifest (notifications, feature flags, the audit log, the
    AI control plane, jobs, the HTTP layer); of permission grants, the paged reads.
    The steps of the purge of a tenant and of the erasure of an identity are
    modelled with their components; the orchestration of the steps is not. *)

From stdpp Require Export base tactics option list gmap fin_maps sets.
From stdpp Require Export strings sorting relations.
From Stdlib Require Export ZArith Lia.

#[global] Open Scope Z_scope.

(** ** Identifiers and time

    A [uuid.UUID] is its 128-bit integer value: equality, the ordering
    PostgreSQL sorts the [uuid] type by and the ordering of [str(uuid)] all
    coincide with the numeric ones.  A timezone-aware [datetime] is the number
    of microseconds since [datetime.min] in UTC, a [timedelta] a signed number
    of microseconds. *)
Abbreviation uuid := N.
Abbreviation datetime := Z.
Abbreviation timedelta := Z.

(** ** Results of fallible code *)

(** A computation returns or raises; [E] is the type of the exceptions. *)
Inductive result (E A : Type) : Type :=
| Ok (a : A)
| Raise (e : E).
Arguments Ok {E A} a.
Arguments Raise {E A} e.

Definition result_bind {E A B : Type} (m : result E A) (k : A → result E B) : result E B :=
  match m with
  | Ok a => k a
  | Raise e => Raise e
  end.

(** [if c: raise e] *)
Definition raise_if {E : Type} (c : bool) (e : E) : result E unit :=
  if c then Raise e else Ok tt.

Declare Scope result_scope.
Delimit Scope result_scope with result.
Notation "'let*' x ':=' m 'in' k" := (result_bind m (λ x, k))
  (at level 10, x pattern, m at level 100, k at level 200) : result_scope.
Notation "'guard*' c 'else' e 'in' k" := (result_bind (raise_if (negb c) e) (λ _, k))
  (at level 10, c at level 100, e at level 100, k at level 200) : result_scope.
#[global] Open Scope result_scope.

(** ** Computations over a store

    [M S E A]: a computation that reads and writes a store [S] and returns or
    raises.  Writes made before an exception persist unless they were made
    inside [transaction], which models [tenant_session_scope()] and
    [session_scope()]: commit on return, roll back on an exception. *)
Definition M (S E A : Type) : Type := S → result E A * S.

Definition ret {S E A : Type} (a : A) : M S E A := λ s, (Ok a, s).
Definition throw {S E A : Type} (e : E) : M S E A := λ s, (Raise e, s).
Definition bind {S E A B : Type} (m : M S E A) (k : A → M S E B) : M S E B :=
  λ s, match m s with
       | (Ok a, s') => k a s'
       | (Raise e, s') => (Raise e, s')
       end.
Definition get {S E : Type} : M S E S := λ s, (Ok s, s).
Definition put {S E : Type} (s : S) : M S E unit := λ _, (Ok tt, s).
Definition lift {S E A : Type} (r : result E A) : M S E A := λ s, (r, s).
Definition transaction {S E A : Type} (m : M S E A) : M S E A :=
  λ s, match m s with
       | (Ok a, s') => (Ok a, s')
       | (Raise e, _) => (Raise e, s)
       end.

Declare Scope store_scope.
Delimit Scope store_scope with store.
Notation "'do*' x ':=' m 'in' k" := (bind m (λ x, k))
  (at level 10, x pattern, m at level 100, k at level 200) : store_scope.
#[global] Open Scope store_scope.

(** [list(dict.fromkeys(l))]: the first occurrence of each element, in order. *)
Fixpoint fromkeys {A : Type} `{!EqDecision A} (l : list A) : list A :=
  match l with
  | [] => []
  | x :: l => x :: filter (λ y, y ≠ x) (fromkeys l)
  end.

(** ** Automation *)

Create HintDb saas.
Create HintDb saas_simpl.

(** Turn boolean tests in the hypotheses and the goal into propositions. *)
Ltac reflect_bools :=
  repeat match goal with
  | H : (_ && _)%bool = true |- _ => apply andb_prop in H as [? ?]
  | H : (_ && _)%bool = false |- _ => apply andb_false_iff in H as [?|?]
  | H : (_ || _)%bool = true |- _ => apply orb_prop in H as [?|?]
  | H : (_ || _)%bool = false |- _ => apply orb_false_elim in H as [? ?]
  | H : negb _ = true |- _ => apply negb_true_iff in H
  | H : negb _ = false |- _ => apply negb_false_iff in H
  | H : bool_decide _ = true |- _ => apply bool_decide_eq_true_1 in H
  | H : bool_decide _ = false |- _ => apply bool_decide_eq_false_1 in H
  | H : (_ <? _)%Z = true |- _ => apply Z.ltb_lt in H
  | H : (_ <? _)%Z = false |- _ => apply Z.ltb_ge in H
  | H : (_ <=? _)%Z = true |- _ => apply Z.leb_le in H
  | H : (_ <=? _)%Z = false |- _ => apply Z.leb_gt in H
  | H : (_ =? _)%Z = true |- _ => apply Z.eqb_eq in H
  | H : (_ =? _)%Z = false |- _ => apply Z.eqb_neq in H
  end.

(** Case analysis on every [match] of the hypothesis [H]. *)
Ltac case_in H :=
  repeat (match type of H with
          | context [match ?x with _ => _ end] => destruct x eqn:?
          end; simplify_eq/=).

(** Unfold the monads. *)
Ltac unfold_store :=
  unfold transaction, bind, ret, throw, get, put, lift, result_bind, raise_if in *; simpl in *.

(** ** Shared lemmas *)

(** A transaction that raises leaves the store as it was. *)
Lemma transaction_raise {S E A : Type} (m : M S E A) s e s' :
  transaction m s = (Raise e, s') → s' = s.
Proof. unfold transaction. destruct (m s) as [[a|e'] s'']; naive_solver. Qed.

(** A sequence that returns: both parts do. *)
Lemma bind_Ok {S E A B : Type} (m : M S E A) (k : A → M S E B) s b s' :
  bind m k s = (Ok b, s') → ∃ a s1, m s = (Ok a, s1) ∧ k a s1 = (Ok b, s').
Proof. unfold bind. destruct (m s) as [[a|] s1]; [by eauto|done]. Qed.
