(* ===== verification/StoreLogic.v ===== *)
(** * Reasoning about computations over a store

    [keeps R m]: whatever happens, the store after [m] is [R]-related to the one
    before; [commits R m]: so it is when [m] returns.  For a preorder [R] both
    are closed under sequencing, and a transaction turns [commits] into [keeps].
    Invariants are the preorder [upholds]. *)

From S2P Require Import Prelude.

Section Keeps.
Context {S E : Type} (R : relation S).

Definition keeps {A : Type} (m : M S E A) : Prop := ∀ s, R s (m s).2.
Definition commits {A : Type} (m : M S E A) : Prop := ∀ s a s', m s = (Ok a, s') → R s s'.

Lemma keeps_commits {A} (m : M S E A) : keeps m → commits m.
Proof. intros H s a s' Hm. specialize (H s). by rewrite Hm in H. Qed.

Context `{!PreOrder R}.

Lemma keeps_ret {A} (a : A) : keeps (ret a).
Proof. intros s. reflexivity. Qed.
Lemma keeps_throw {A} (e : E) : keeps (A := A) (throw e).
Proof. intros s. reflexivity. Qed.
Lemma keeps_get : keeps get.
Proof. intros s. reflexivity. Qed.
Lemma keeps_lift {A} (r : result E A) : keeps (lift r).
Proof. intros s. reflexivity. Qed.
Lemma keeps_bind {A B} (m : M S E A) (k : A → M S E B) : keeps m → (∀ a, keeps (k a)) → keeps (bind m k).
Proof.
  intros Hm Hk s. unfold bind. specialize (Hm s). destruct (m s) as [[a|e] s']; simpl in *; [|done].
  etrans; [done|apply Hk].
Qed.
Lemma keeps_transaction {A} (m : M S E A) : commits m → keeps (transaction m).
Proof. intros Hm s. unfold transaction. destruct (m s) as [[a|e] s'] eqn:Em; simpl; [by eapply Hm|reflexivity]. Qed.
Lemma keeps_read {A} (f : S → result E A) : keeps (λ s, (f s, s)).
Proof. intros s. reflexivity. Qed.

Lemma commits_ret {A} (a : A) : commits (ret a).
Proof. apply keeps_commits, keeps_ret. Qed.
Lemma commits_throw {A} (e : E) : commits (A := A) (throw e).
Proof. by intros s a s'. Qed.
Lemma commits_bind {A B} (m : M S E A) (k : A → M S E B) : commits m → (∀ a, commits (k a)) → commits (bind m k).
Proof. intros Hm Hk s b s' (a & s1 & H1 & H2)%bind_Ok. etrans; [by eapply Hm|by eapply Hk]. Qed.
End Keeps.

#[export] Hint Resolve keeps_ret keeps_throw keeps_get keeps_lift keeps_read commits_ret commits_throw : saas.

(** ** Invariants *)

Definition upholds {S : Type} (I : S → Prop) : relation S := λ s s', I s → I s'.
#[export] Instance upholds_preorder {S} (I : S → Prop) : PreOrder (upholds I).
Proof. split; unfold upholds; [by intros s|intros s1 s2 s3; tauto]. Qed.

(** Follow the structure of a computation; what is left are its primitives. *)
Ltac keeps_step :=
  first
    [ apply keeps_ret; apply _ | apply keeps_throw; apply _ | apply keeps_get; apply _ | apply keeps_lift; apply _
    | apply keeps_bind; [apply _| |intros ?] | apply keeps_transaction; [apply _|apply keeps_commits]
    | match goal with
      | |- keeps _ (if ?b then _ else _) => destruct b
      | |- keeps _ (match ?x with _ => _ end) => destruct x
      end ].
Ltac keeps_steps := repeat keeps_step.
