(* ===== verification/PyStr.v ===== *)
(** * Python strings

    A [str] is the list of its code points.  This file defines the string
    operations the modelled code uses ([find]/[rfind], [replace], slices,
    [startswith], fixed-width decimal numbers) and proves the facts the
    components rely on: where [rfind] lands, and that [replace] leaves no
    occurrence of what it replaces. *)

From Stdlib Require Import Ascii.
From S2P Require Import Prelude.

Abbreviation pystr := (list N).

(** A literal of the source, as code points. *)
Definition lit (s : string) : pystr := N_of_ascii <$> String.list_ascii_of_string s.

(** [s.startswith(p)] *)
Definition startswith (p s : pystr) : bool := bool_decide (p `prefix_of` s).

(** [s.rfind(p)]; [None] is Python's [-1]. *)
Fixpoint rfind (p s : pystr) : option nat :=
  match s with
  | [] => if startswith p [] then Some 0%nat else None
  | c :: s' =>
      match rfind p s' with
      | Some i => Some (S i)
      | None => if startswith p (c :: s') then Some 0%nat else None
      end
  end.

(** [p in s] *)
Definition occurs (p s : pystr) : Prop := ∃ a b, s = a ++ p ++ b.

(** [s.replace(old, new)] for a non-empty [old]: leftmost, non-overlapping;
    [skip] counts the characters of a match still to be dropped. *)
Fixpoint replace_from (old new s : pystr) (skip : nat) : pystr :=
  match s with
  | [] => []
  | c :: s' =>
      match skip with
      | S k => replace_from old new s' k
      | O =>
          if startswith old (c :: s')
          then new ++ replace_from old new s' (pred (length old))
          else c :: replace_from old new s' 0
      end
  end.
Definition replace (old new s : pystr) : pystr := replace_from old new s 0.

(** [$] also matches before one trailing newline: the text a pattern that ends
    in [$] is about. *)
Definition chomp (s : pystr) : pystr :=
  match last s with
  | Some c => if (c =? 10)%N then take (length s - 1) s else s
  | None => s
  end.

(** [f"{n:0<w>d}"] for [0 <= n < 10^w]: the last [w] decimal digits. *)
Fixpoint digits (w : nat) (n : Z) : pystr :=
  match w with
  | O => []
  | S w' => digits w' (n / 10) ++ [Z.to_N (48 + n mod 10)]
  end.

Definition is_digit (c : N) : bool := ((48 <=? c) && (c <=? 57))%N.

(** The value of a string of ASCII digits; [None] if another character occurs. *)
Definition parse_digit (acc : option Z) (c : N) : option Z :=
  match acc with
  | Some n => if is_digit c then Some (10 * n + (Z.of_N c - 48)) else None
  | None => None
  end.
Definition parse_digits (s : pystr) : option Z := foldl parse_digit (Some 0) s.

(** ** Lemmas *)

Lemma startswith_spec p s : startswith p s = true ↔ p `prefix_of` s.
Proof. unfold startswith. by rewrite bool_decide_eq_true. Qed.

Lemma startswith_false p s : startswith p s = false ↔ ¬ p `prefix_of` s.
Proof. unfold startswith. by rewrite bool_decide_eq_false. Qed.

Lemma startswith_app p s : startswith p (p ++ s) = true.
Proof. apply startswith_spec. by apply prefix_app_r. Qed.

Lemma prefix_occurs p s : p `prefix_of` s → occurs p s.
Proof. intros [k ->]. by exists [], k. Qed.

Lemma occurs_cons p c s : occurs p (c :: s) ↔ p `prefix_of` c :: s ∨ occurs p s.
Proof.
  split.
  - intros [[|a l] [b Hb]]; simplify_list_eq; [left; by exists b | right; by exists l, b].
  - intros [[k ->]|(a & b & ->)]; [by exists [], k | by exists (c :: a), b].
Qed.

(** An occurrence starts with the first character of the pattern. *)
Lemma occurs_head c p s : occurs (c :: p) s → c ∈ s.
Proof. intros (a & b & ->). set_solver. Qed.

Lemma occurs_take p n s : occurs p (take n s) → occurs p s.
Proof.
  intros (a & b & Hs). exists a, (b ++ drop n s).
  rewrite <-(take_drop n s) at 1. by rewrite Hs, <-!app_assoc.
Qed.

(** A text without the pattern's first character in front of [r] adds no
    occurrence. *)
Lemma occurs_app_free c p l r : c ∉ l → occurs (c :: p) (l ++ r) → occurs (c :: p) r.
Proof.
  induction l as [|y l IH]; simpl; [done|].
  intros [Hy Hl]%not_elem_of_cons. rewrite occurs_cons. intros [H|H]; [|by auto].
  by apply prefix_cons_inv_1 in H.
Qed.

Lemma rfind_None p s : rfind p s = None ↔ ¬ occurs p s.
Proof.
  induction s as [|c s IH]; simpl.
  - destruct (startswith p []) eqn:E; split; try done.
    + intros H. destruct H. apply prefix_occurs. by apply startswith_spec.
    + intros _ (a & b & Hb). apply startswith_false in E. apply E.
      symmetry in Hb. apply app_eq_nil in Hb as [_ Hb]. apply app_eq_nil in Hb as [-> _].
      done.
  - rewrite occurs_cons. destruct (rfind p s) as [i|].
    + split; [done|]. intros H. destruct IH as [_ IH]. discriminate IH. tauto.
    + destruct (startswith p (c :: s)) eqn:E;
        [apply startswith_spec in E | apply startswith_false in E]; [|tauto].
      split; [done|]. intros H. destruct H. by left.
Qed.

(** What is not after the last occurrence does not matter. *)
Lemma rfind_app p a s i : rfind p s = Some i → rfind p (a ++ s) = Some (length a + i)%nat.
Proof. intros H. induction a as [|x a IH]; simpl; [done|]. by rewrite IH. Qed.

(** ** [replace] *)

Lemma replace_from_skip old new s k : replace_from old new s k = replace_from old new (drop k s) 0.
Proof. revert k. induction s as [|c s IH]; intros [|k]; simpl; auto. Qed.

Section Replace.
  Context (c : N) (old : pystr) (n : N) (new : pystr).
  Context (Hc : c ∉ old) (Hn : n ≠ c) (Hnold : n ∉ old) (Hcnew : c ∉ new).

  (** A piece of the output without the replacement's first character is a
      piece of the input. *)
Lemma replace_prefix t s :
    n ∉ t → t `prefix_of` replace_from (c :: old) (n :: new) s 0 → t `prefix_of` s.
  Proof.
    revert s. induction t as [|a t IH]; intros s Hnt Ht; [apply prefix_nil|].
    destruct s as [|x s]; simpl in Ht; [by apply prefix_nil_not in Ht|].
    destruct (startswith (c :: old) (x :: s)).
    - apply prefix_cons_inv_1 in Ht. set_solver.
    - pose proof (prefix_cons_inv_1 _ _ _ _ Ht) as ->.
      apply prefix_cons_inv_2 in Ht. apply prefix_cons, IH; set_solver.
  Qed.

  (** Nothing is left of a pattern after replacing it. *)
Lemma replace_not_occurs s : ¬ occurs (c :: old) (replace (c :: old) (n :: new) s).
  Proof.
    unfold replace. remember (length s) as len eqn:Hlen.
    assert (length s ≤ len)%nat as Hle by lia. clear Hlen.
    revert s Hle. induction len as [|len IH]; intros [|x s] Hle; simpl in Hle |- *; try lia.
    1,2: intros H%occurs_head; by apply elem_of_nil in H.
    destruct (startswith (c :: old) (x :: s)) eqn:E.
    - rewrite replace_from_skip. set (rest := drop _ _).
      assert (¬ occurs (c :: old) (replace_from (c :: old) (n :: new) rest 0)) as Hrest.
      { apply IH. subst rest. rewrite length_drop. lia. }
      intros H. apply Hrest. revert H.
      apply (occurs_app_free c old (n :: new)). by apply not_elem_of_cons.
    - rewrite occurs_cons. intros [H|H].
      + pose proof (prefix_cons_inv_1 _ _ _ _ H) as Hx. subst x.
        apply prefix_cons_inv_2, replace_prefix in H; [|done].
        apply startswith_false in E. apply E. by apply prefix_cons.
      + apply (IH s); [lia|done].
  Qed.
End Replace.

(** ** Decimal numbers *)

Lemma length_digits w n : length (digits w n) = w.
Proof. revert n. induction w as [|w IH]; intros n; simpl; [done|]. rewrite length_app, IH. simpl. lia. Qed.

Lemma digits_is_digit w n c : c ∈ digits w n → is_digit c = true.
Proof.
  revert n. induction w as [|w IH]; intros n; simpl; [set_solver|].
  rewrite elem_of_app, list_elem_of_singleton. intros [H| ->]; [by eapply IH|].
  unfold is_digit. assert (0 ≤ n mod 10 < 10) by (apply Z.mod_pos_bound; lia).
  apply andb_true_intro. split; apply N.leb_le; lia.
Qed.

(** Reading back what was printed. *)
Lemma parse_digits_digits w n : 0 ≤ n < 10 ^ Z.of_nat w → parse_digits (digits w n) = Some n.
Proof.
  unfold parse_digits. revert n. induction w as [|w IH]; intros n Hn; simpl.
  - simpl in Hn. f_equal. lia.
  - rewrite Nat2Z.inj_succ, Z.pow_succ_r in Hn by lia.
    rewrite foldl_app, IH by (split; [apply Z.div_pos; lia | apply Z.div_lt_upper_bound; lia]).
    simpl. assert (0 ≤ n mod 10 < 10) by (apply Z.mod_pos_bound; lia).
    assert (is_digit (Z.to_N (48 + n mod 10)) = true) as ->.
    { unfold is_digit. apply andb_true_intro. split; apply N.leb_le; lia. }
    f_equal. rewrite Z2N.id by lia. pose proof (Z.div_mod n 10). lia.
Qed.
