(* ===== verification/PyTime.v ===== *)
(** * Python datetimes

    The part of the [datetime] module the outbox uses: UTC datetimes, their
    addition with a [timedelta] (which overflows outside the years 1..9999),
    [isoformat(timespec='seconds')] and [fromisoformat], with the proleptic
    Gregorian calendar computed as the library computes it ([_ord2ymd],
    [_ymd2ord]).  The main lemma is that reading back a printed UTC datetime
    gives it truncated to whole seconds. *)

From S2P Require Import Prelude PyStr.

(** ** The calendar *)

Definition is_leap (y : Z) : bool :=
  (y mod 4 =? 0) && (negb (y mod 100 =? 0) || (y mod 400 =? 0)).

(** Days before January 1st of [y], counted from the year 1. *)
Definition days_before_year (y : Z) : Z :=
  (y - 1) * 365 + (y - 1) / 4 - (y - 1) / 100 + (y - 1) / 400.

Definition month_table (m : Z) : Z * Z :=   (* days before, days in, non-leap *)
  match m with
  | 1 => (0, 31) | 2 => (31, 28) | 3 => (59, 31) | 4 => (90, 30)
  | 5 => (120, 31) | 6 => (151, 30) | 7 => (181, 31) | 8 => (212, 31)
  | 9 => (243, 30) | 10 => (273, 31) | 11 => (304, 30) | 12 => (334, 31)
  | _ => (0, 0)
  end.

Definition days_before_month (y m : Z) : Z :=
  fst (month_table m) + (if (2 <? m) && is_leap y then 1 else 0).
Definition days_in_month (y m : Z) : Z :=
  snd (month_table m) + (if (m =? 2) && is_leap y then 1 else 0).

(** [date.toordinal() - 1] *)
Definition ymd2ord (y m d : Z) : Z := days_before_year y + days_before_month y m + (d - 1).

(** The inverse, as [_ord2ymd] computes it, from the 0-based day number. *)
Definition ord2ymd (n : Z) : Z * Z * Z :=
  let n400 := n / 146097 in let n := n mod 146097 in
  let n100 := n / 36524 in let n := n mod 36524 in
  let n4 := n / 1461 in let n := n mod 1461 in
  let n1 := n / 365 in let n := n mod 365 in
  let y := n400 * 400 + 1 + n100 * 100 + n4 * 4 + n1 in
  if (n1 =? 4) || (n100 =? 4) then (y - 1, 12, 31)
  else
    let m := (n + 50) / 32 in
    let m := if n <? days_before_month y m then m - 1 else m in
    (y, m, n - days_before_month y m + 1).

(** ** Datetimes *)

Definition us_per_second : Z := 1000000.
Definition us_per_day : Z := 86400 * us_per_second.
(** The first instant past [datetime.max] (9999-12-31T23:59:59.999999). *)
Definition datetime_end : datetime := 3652059 * us_per_day.

(** [d + td]; [None] is [OverflowError: date value out of range]. *)
Definition dt_add (d : datetime) (td : timedelta) : option datetime :=
  if (0 <=? d + td) && (d + td <? datetime_end) then Some (d + td) else None.

Definition iso_text (y mo d h mi s : Z) : pystr :=
  digits 4 y ++ lit "-" ++ digits 2 mo ++ lit "-" ++ digits 2 d ++ lit "T" ++
  digits 2 h ++ lit ":" ++ digits 2 mi ++ lit ":" ++ digits 2 s ++ lit "+00:00".

(** [t.astimezone(UTC).isoformat(timespec='seconds')] *)
Definition isoformat_seconds (t : datetime) : pystr :=
  let '(y, mo, d) := ord2ymd (t / us_per_day) in
  let sec := t mod us_per_day / us_per_second in
  iso_text y mo d (sec / 3600) (sec / 60 mod 60) (sec mod 60).

Definition sub (s : pystr) (i n : nat) : pystr := take n (drop i s).

(** The shape [\d{4}-\d{2}-\d{2}T\d{2}:\d{2}:\d{2}\+00:00]. *)
Definition iso_shape (s : pystr) : bool :=
  bool_decide (length s = 25%nat) &&
  forallb is_digit (sub s 0 4 ++ sub s 5 2 ++ sub s 8 2 ++ sub s 11 2 ++ sub s 14 2 ++ sub s 17 2) &&
  bool_decide (sub s 4 1 = lit "-") && bool_decide (sub s 7 1 = lit "-") &&
  bool_decide (sub s 10 1 = lit "T") && bool_decide (sub s 13 1 = lit ":") &&
  bool_decide (sub s 16 1 = lit ":") && bool_decide (sub s 19 6 = lit "+00:00").

(** [datetime.fromisoformat(s)] on a text of that shape; [None] is
    [ValueError] (a field out of range). *)
Definition fromisoformat (s : pystr) : option datetime :=
  match parse_digits (sub s 0 4), parse_digits (sub s 5 2), parse_digits (sub s 8 2),
        parse_digits (sub s 11 2), parse_digits (sub s 14 2), parse_digits (sub s 17 2) with
  | Some y, Some mo, Some d, Some h, Some mi, Some sec =>
      if (1 <=? y) && (y <=? 9999) && (1 <=? mo) && (mo <=? 12) && (1 <=? d) &&
         (d <=? days_in_month y mo) && (h <? 24) && (mi <? 60) && (sec <? 60)
      then Some (ymd2ord y mo d * us_per_day + (h * 3600 + mi * 60 + sec) * us_per_second)
      else None
  | _, _, _, _, _, _ => None
  end.

(** ** Lemmas *)

Ltac Zify.zify_post_hook ::= Z.div_mod_to_equations.

(** The year [400a + 100b + 4c + d + 1] of a day number. *)
Lemma days_before_year_split a b c d :
  0 ≤ b < 4 → 0 ≤ c < 25 → 0 ≤ d < 4 →
  days_before_year (a * 400 + 1 + b * 100 + c * 4 + d) =
    146097 * a + 36524 * b + 1461 * c + 365 * d.
Proof. intros. unfold days_before_year. lia. Qed.

Lemma is_leap_split a b c d :
  0 ≤ b < 4 → 0 ≤ c < 25 → 0 ≤ d < 4 →
  is_leap (a * 400 + 1 + b * 100 + c * 4 + d) =
    (d =? 3) && (negb (c =? 24) || (b =? 3)).
Proof.
  intros. unfold is_leap. apply eq_true_iff_eq.
  rewrite !andb_true_iff, !orb_true_iff, !negb_true_iff, !Z.eqb_eq, !Z.eqb_neq. lia.
Qed.

Definition month_of_day (y n : Z) : Z :=
  let m := (n + 50) / 32 in if n <? days_before_month y m then m - 1 else m.

Lemma month_of_day_spec y n :
  0 ≤ n < 365 + (if is_leap y then 1 else 0) →
  1 ≤ month_of_day y n ≤ 12 ∧
  days_before_month y (month_of_day y n) ≤ n <
    days_before_month y (month_of_day y n) + days_in_month y (month_of_day y n).
Proof.
  unfold month_of_day, days_before_month, days_in_month. intros Hn.
  assert ((n + 50) / 32 ∈ [1; 2; 3; 4; 5; 6; 7; 8; 9; 10; 11; 12]) as Hm.
  { rewrite !elem_of_cons. destruct (is_leap y); lia. }
  rewrite !elem_of_cons, elem_of_nil in Hm. destruct_or! Hm; try done.
  all: pose proof Hm as Hd; rewrite Hm; revert Hd; clear Hm; intros Hd.
  all: destruct (is_leap y); simpl; case_match eqn:E; reflect_bools; simpl; lia.
Qed.

(** The calendar date of a day number is a valid date with that number. *)
Lemma ord2ymd_spec n : 0 ≤ n < 3652059 →
  let '(y, m, d) := ord2ymd n in
  1 ≤ y ≤ 9999 ∧ 1 ≤ m ≤ 12 ∧ 1 ≤ d ≤ days_in_month y m ∧ ymd2ord y m d = n.
Proof.
  intros Hn. unfold ord2ymd.
  set (a := n / 146097). set (r := n mod 146097).
  set (b := r / 36524). set (r' := r mod 36524).
  set (c := r' / 1461). set (r'' := r' mod 1461).
  set (d := r'' / 365). set (e := r'' mod 365).
  assert (0 ≤ a ≤ 24 ∧ 0 ≤ b ≤ 4 ∧ 0 ≤ c < 25 ∧ 0 ≤ d ≤ 4 ∧ 0 ≤ e < 365 ∧
    n = 146097 * a + 36524 * b + 1461 * c + 365 * d + e ∧
    (b = 4 → c = 0 ∧ d = 0 ∧ e = 0) ∧ (d = 4 → e = 0) ∧ (d = 4 → c = 24 → b = 3)) as Hs
    by (subst a b c d e r r' r''; lia).
  clearbody a b c d e. clear r r' r''. destruct Hs as (Ha & Hb & Hc & Hd & He & -> & Hb4 & Hd4 & Hcd).
  destruct ((d =? 4) || (b =? 4)) eqn:E.
  - assert (b = 4 ∧ c = 0 ∧ d = 0 ∧ e = 0 ∨ b < 4 ∧ d = 4 ∧ e = 0) as [(->&->&->&->)|(?&->&->)]
      by (reflect_bools; lia).
    + replace (a * 400 + 1 + 4 * 100 + 0 * 4 + 0 - 1) with (a * 400 + 1 + 3 * 100 + 24 * 4 + 3) by lia.
      unfold ymd2ord, days_in_month, days_before_month.
      rewrite is_leap_split, days_before_year_split by lia. simpl. lia.
    + replace (a * 400 + 1 + b * 100 + c * 4 + 4 - 1) with (a * 400 + 1 + b * 100 + c * 4 + 3) by lia.
      unfold ymd2ord, days_in_month, days_before_month.
      rewrite is_leap_split, days_before_year_split by lia.
      replace ((3 =? 3) && (negb (c =? 24) || (b =? 3)))%bool with true by lia. simpl. lia.
  - reflect_bools. set (y := a * 400 + 1 + b * 100 + c * 4 + d).
    destruct (month_of_day_spec y e) as [Hm Hdm].
    { destruct (is_leap y); lia. }
    fold (month_of_day y e). split; [subst y; lia|]. split; [done|]. split; [lia|].
    unfold ymd2ord. subst y. rewrite days_before_year_split by lia. lia.
Qed.

Lemma iso_text_length y mo d h mi s : length (iso_text y mo d h mi s) = 25%nat.
Proof. reflexivity. Qed.

(** The characters of a printed datetime: digits and separators. *)
Definition iso_char (c : N) : bool := is_digit c || bool_decide (c ∈ lit "-T:+").

Lemma iso_text_chars y mo d h mi s : forallb iso_char (iso_text y mo d h mi s) = true.
Proof.
  assert (∀ w n, forallb iso_char (digits w n) = true) as Hd.
  { intros w n. apply forallb_forall. intros c Hc%list_elem_of_In%digits_is_digit.
    unfold iso_char. by rewrite Hc. }
  unfold iso_text. by rewrite !forallb_app, !Hd.
Qed.

Lemma iso_shape_text y mo d h mi s : iso_shape (iso_text y mo d h mi s) = true.
Proof.
  unfold iso_shape. rewrite !andb_true_iff, !bool_decide_eq_true. split_and!; try reflexivity.
  apply forallb_forall. intros c Hc. apply list_elem_of_In in Hc.
  change (c ∈ digits 4 y ++ digits 2 mo ++ digits 2 d ++ digits 2 h ++ digits 2 mi ++ digits 2 s) in Hc.
  rewrite !elem_of_app in Hc. destruct_or! Hc; by eapply digits_is_digit.
Qed.

Lemma fromisoformat_text y mo d h mi s :
  1 ≤ y ≤ 9999 → 1 ≤ mo ≤ 12 → 1 ≤ d ≤ days_in_month y mo →
  0 ≤ h < 24 → 0 ≤ mi < 60 → 0 ≤ s < 60 →
  fromisoformat (iso_text y mo d h mi s) =
    Some (ymd2ord y mo d * us_per_day + (h * 3600 + mi * 60 + s) * us_per_second).
Proof.
  intros Hy Hmo Hd Hh Hmi Hs.
  assert (days_in_month y mo ≤ 31) as Hdim.
  { unfold days_in_month. assert (mo ∈ [1; 2; 3; 4; 5; 6; 7; 8; 9; 10; 11; 12]) as Hm
      by (rewrite !elem_of_cons; lia).
    rewrite !elem_of_cons, elem_of_nil in Hm. destruct_or! Hm; subst; try done.
    all: destruct (is_leap y); simpl; lia. }
  unfold fromisoformat.
  change (sub (iso_text y mo d h mi s) 0 4) with (digits 4 y).
  change (sub (iso_text y mo d h mi s) 5 2) with (digits 2 mo).
  change (sub (iso_text y mo d h mi s) 8 2) with (digits 2 d).
  change (sub (iso_text y mo d h mi s) 11 2) with (digits 2 h).
  change (sub (iso_text y mo d h mi s) 14 2) with (digits 2 mi).
  change (sub (iso_text y mo d h mi s) 17 2) with (digits 2 s).
  rewrite !parse_digits_digits by (simpl; lia).
  rewrite (proj2 (Z.leb_le 1 y)), (proj2 (Z.leb_le y 9999)), (proj2 (Z.leb_le 1 mo)),
    (proj2 (Z.leb_le mo 12)), (proj2 (Z.leb_le 1 d)), (proj2 (Z.leb_le d (days_in_month y mo))),
    (proj2 (Z.ltb_lt h 24)), (proj2 (Z.ltb_lt mi 60)), (proj2 (Z.ltb_lt s 60)) by lia.
  done.
Qed.

(** Printing to whole seconds and reading back truncates to whole seconds. *)
Lemma isoformat_roundtrip t : 0 ≤ t < datetime_end →
  fromisoformat (isoformat_seconds t) = Some (t - t mod us_per_second).
Proof.
  intros Ht. unfold isoformat_seconds. unfold datetime_end, us_per_day, us_per_second in *.
  pose proof (ord2ymd_spec (t / (86400 * 1000000))) as Hord.
  destruct (ord2ymd (t / (86400 * 1000000))) as [[y mo] d].
  destruct Hord as (Hy & Hmo & Hd & Hn); [lia|].
  rewrite fromisoformat_text by (try done; lia).
  rewrite Hn. unfold us_per_day, us_per_second. f_equal. lia.
Qed.

Lemma isoformat_is_text t : ∃ y mo d h mi s, isoformat_seconds t = iso_text y mo d h mi s.
Proof. unfold isoformat_seconds. destruct (ord2ymd _) as [[y mo] d]. eauto 10. Qed.

Lemma isoformat_epoch : isoformat_seconds 0 = lit "0001-01-01T00:00:00+00:00".
Proof. reflexivity. Qed.

