(* ===== verification/PyDecimal.v ===== *)
(** * Python decimals

    The part of the [decimal] module the usage component uses, in the default
    context: a finite [Decimal] is [coef * 10^expo]; comparison is exact, addition
    and [normalize] round the exact result to 28 significant digits, half to
    even.  (Exponents are far from the limits of the context.) *)

From S2P Require Import Prelude.

Record dec : Type := mkDec {
  coef : Z;
  expo : Z;
}.
#[export] Instance dec_eq_dec : EqDecision dec.
Proof. solve_decision. Defined.

Inductive decimal : Type :=
| Finite (d : dec)
| Infinite
| NaN.

(** The coefficient at a smaller exponent. *)
Definition scale (e : Z) (d : dec) : Z := coef d * 10 ^ (expo d - e).
Definition dec_leb (a b : dec) : bool :=
  let e := Z.min (expo a) (expo b) in scale e a <=? scale e b.
Definition dec_ltb (a b : dec) : bool := negb (dec_leb b a).

Definition add_exact (a b : dec) : dec :=
  let e := Z.min (expo a) (expo b) in mkDec (scale e a + scale e b) e.

(** The number of decimal digits of a natural number. *)
Fixpoint ndigits_from (fuel : nat) (n : Z) : Z :=
  match fuel with
  | O => 1
  | S fuel => if n <? 10 then 1 else 1 + ndigits_from fuel (n / 10)
  end.
Definition ndigits (n : Z) : Z := ndigits_from (Z.to_nat (Z.log2 n)) n.

(** [c / m] to the nearest integer, half to even; [0 <= c], [0 < m]. *)
Definition div_half_even (c m : Z) : Z :=
  let q := c / m in
  let r := c mod m in
  if 2 * r <? m then q else if m <? 2 * r then q + 1 else if Z.even q then q else q + 1.

Definition PREC : Z := 28.
Definition round_dec (d : dec) : dec :=
  let n := ndigits (Z.abs (coef d)) in
  if n <=? PREC then d
  else mkDec (Z.sgn (coef d) * div_half_even (Z.abs (coef d)) (10 ^ (n - PREC))) (expo d + (n - PREC)).

(** [a + b] *)
Definition dec_add (a b : dec) : dec := round_dec (add_exact a b).

Fixpoint strip_zeros (fuel : nat) (d : dec) : dec :=
  match fuel with
  | O => d
  | S fuel => if coef d mod 10 =? 0 then strip_zeros fuel (mkDec (coef d / 10) (expo d + 1)) else d
  end.
(** [d.normalize()] *)
Definition normalize (d : dec) : dec :=
  let d := round_dec d in
  if coef d =? 0 then mkDec 0 0 else strip_zeros (Z.to_nat (ndigits (Z.abs (coef d)))) d.

Definition zero : dec := mkDec 0 0.
(** [sum] in the database, which is exact. *)
Definition dec_sum (l : list dec) : dec := foldr add_exact zero l.

(** ** Values in units of [10^-k] *)

Definition units (k : Z) (d : dec) : Z := scale (- k) d.
Definition fits_units (k : Z) (d : dec) : Prop := - k ≤ expo d.

Lemma scale_scale e e' d : e' ≤ e ≤ expo d → scale e' d = scale e d * 10 ^ (e - e').
Proof.
  intros H. unfold scale. replace (expo d - e') with ((expo d - e) + (e - e')) by lia.
  rewrite Z.pow_add_r by lia. ring.
Qed.

Lemma dec_leb_units k a b : fits_units k a → fits_units k b → dec_leb a b = true ↔ units k a ≤ units k b.
Proof.
  unfold fits_units, units, dec_leb. intros Ha Hb. set (e := Z.min (expo a) (expo b)).
  rewrite (scale_scale e (- k) a), (scale_scale e (- k) b) by lia. rewrite Z.leb_le.
  assert (0 < 10 ^ (e - - k)) by (apply Z.pow_pos_nonneg; lia). nia.
Qed.

Lemma add_exact_units k a b : fits_units k a → fits_units k b →
  fits_units k (add_exact a b) ∧ units k (add_exact a b) = units k a + units k b.
Proof.
  unfold fits_units, units. intros Ha Hb. unfold add_exact. set (e := Z.min (expo a) (expo b)). simpl.
  split; [lia|]. rewrite (scale_scale e (- k) a), (scale_scale e (- k) b) by lia. unfold scale at 1. simpl. ring.
Qed.

Lemma dec_sum_units k l : Forall (fits_units k) l → 0 ≤ k →
  fits_units k (dec_sum l) ∧ units k (dec_sum l) = foldr Z.add 0 (units k <$> l).
Proof.
  intros Hl Hk. induction Hl as [|d l Hd Hl [IH1 IH2]]; [split; [unfold fits_units; simpl; lia|done]|].
  cbn [dec_sum foldr fmap list_fmap]. destruct (add_exact_units k d (dec_sum l) Hd IH1) as [H1 H2].
  split; [done|]. fold (dec_sum l). by rewrite H2, IH2.
Qed.

(** ** Digits and rounding *)

Lemma ndigits_spec n : 0 < n → 10 ^ (ndigits n - 1) ≤ n < 10 ^ ndigits n ∧ 1 ≤ ndigits n.
Proof.
  unfold ndigits. assert (∀ fuel n, 0 < n → n < 2 ^ (Z.of_nat fuel + 1) →
    10 ^ (ndigits_from fuel n - 1) ≤ n < 10 ^ ndigits_from fuel n ∧ 1 ≤ ndigits_from fuel n) as H.
  { intros fuel. induction fuel as [|fuel IH]; intros m Hm Hlt; simpl.
    - assert (m = 1) as -> by (simpl in Hlt; lia). split; [|lia]. simpl. lia.
    - destruct (m <? 10) eqn:E; reflect_bools; [split; [|lia]; simpl; lia|].
      destruct (IH (m / 10)) as [[H1 H2] H3].
      + apply Z.div_str_pos. lia.
      + apply Z.div_lt_upper_bound; [lia|]. replace (Z.of_nat (S fuel) + 1) with (Z.of_nat fuel + 1 + 1) in Hlt by lia.
        rewrite Z.pow_add_r in Hlt by lia. change (2 ^ 1) with 2 in Hlt.
        assert (0 < 2 ^ (Z.of_nat fuel + 1)) by (apply Z.pow_pos_nonneg; lia). lia.
      + split; [|lia]. set (k := ndigits_from fuel (m / 10)) in *.
        replace (1 + k - 1) with (k - 1 + 1) by lia. rewrite (Z.add_comm 1 k), !Z.pow_add_r by lia.
        change (10 ^ 1) with 10. pose proof (Z.div_mod m 10). pose proof (Z.mod_pos_bound m 10). nia. }
  intros Hn. apply H; [done|]. rewrite Z2Nat.id by apply Z.log2_nonneg.
  destruct (Z.log2_spec n Hn) as [_ ?]. by rewrite Z.add_1_r.
Qed.

Lemma div_half_even_ge c m x : 0 < m → x ≤ c / m → x ≤ div_half_even c m.
Proof. intros Hm Hx. unfold div_half_even. repeat case_match; lia. Qed.

(** Rounding keeps a number of at most 28 digits, and never takes a larger one
    below [10^28] units of its exponent. *)
Lemma round_dec_small d : 0 ≤ coef d < 10 ^ PREC → round_dec d = d.
Proof.
  intros H. unfold round_dec. rewrite Z.abs_eq by lia. destruct (decide (coef d = 0)) as [->|Hne]; [done|].
  destruct (ndigits_spec (coef d)) as [[H1 _] Hge]; [lia|].
  destruct (ndigits (coef d) <=? PREC) eqn:E; [done|]. reflect_bools. exfalso.
  assert (10 ^ PREC ≤ 10 ^ (ndigits (coef d) - 1)) by (apply Z.pow_le_mono_r; lia). lia.
Qed.

Lemma round_dec_large k d : fits_units k d → 10 ^ PREC ≤ coef d →
  fits_units k (round_dec d) ∧ 10 ^ PREC * 10 ^ (expo d + k) ≤ units k (round_dec d).
Proof.
  intros Hk H. unfold round_dec. assert (0 < 10 ^ PREC) by (by apply Z.pow_pos_nonneg).
  rewrite Z.abs_eq, Z.sgn_pos by lia. destruct (ndigits_spec (coef d)) as [[H1 H2] Hge]; [lia|].
  set (n := ndigits (coef d)) in *. destruct (n <=? PREC) eqn:E; reflect_bools.
  { exfalso. assert (10 ^ n ≤ 10 ^ PREC) by (apply Z.pow_le_mono_r; lia). lia. }
  unfold fits_units, units, scale in *. simpl. split; [lia|]. rewrite Z.mul_1_l.
  assert (10 ^ (PREC - 1) ≤ div_half_even (coef d) (10 ^ (n - PREC))) as Hq.
  { apply div_half_even_ge; [apply Z.pow_pos_nonneg; lia|]. apply Z.div_le_lower_bound; [apply Z.pow_pos_nonneg; lia|].
    rewrite <-Z.pow_add_r by (unfold PREC in *; lia). by replace (n - PREC + (PREC - 1)) with (n - 1) by lia. }
  replace (expo d + (n - PREC) - - k) with ((n - PREC) + (expo d + k)) by lia. rewrite (Z.pow_add_r 10 (n - PREC) (expo d + k)) by lia.
  assert (10 ^ 1 ≤ 10 ^ (n - PREC)) by (apply Z.pow_le_mono_r; lia). change (10 ^ 1) with 10 in *.
  assert (0 < 10 ^ (expo d + k)) by (apply Z.pow_pos_nonneg; lia).
  assert (10 ^ PREC = 10 ^ (PREC - 1) * 10) as -> by done.
  set (a := 10 ^ (PREC - 1)) in *. set (b := 10 ^ (n - PREC)) in *. set (x := 10 ^ (expo d + k)) in *.
  assert (0 < a) by (by apply Z.pow_pos_nonneg). set (q := div_half_even _ _) in *.
  clearbody a b x q. assert (a * 10 ≤ q * b) by nia. nia.
Qed.
