(* ===== verification/PyText.v ===== *)
(** * Python strings: splitting, joining and numbers

    [str.split], [str.join], [str.partition], [str.rpartition], [str.isascii]
    and the printing and reading of numbers in a base, with the round trips the
    address and URL components rely on. *)

From Stdlib Require Import ZifyN.
From S2P Require Import Prelude PyStr.

(** [s.split(c)] for a single character: never empty. *)
Fixpoint split_on (c : N) (s : pystr) : list pystr :=
  match s with
  | [] => [[]]
  | x :: s' =>
      if (x =? c)%N then [] :: split_on c s'
      else match split_on c s' with
           | p :: ps => (x :: p) :: ps
           | [] => [[x]]
           end
  end.

(** [sep.join(parts)] *)
Fixpoint join (sep : pystr) (parts : list pystr) : pystr :=
  match parts with
  | [] => []
  | [p] => p
  | p :: ps => p ++ sep ++ join sep ps
  end.

(** [s.partition(c)]: what is before the first [c], whether there is one, what
    is after it. *)
Fixpoint partition (c : N) (s : pystr) : pystr * bool * pystr :=
  match s with
  | [] => ([], false, [])
  | x :: s' =>
      if (x =? c)%N then ([], true, s')
      else let '(before, found, after) := partition c s' in (x :: before, found, after)
  end.

(** [s.rpartition(c)]: around the last [c]; without one everything is after. *)
Definition rpartition (c : N) (s : pystr) : pystr * bool * pystr :=
  let '(before, found, after) := partition c (reverse s) in
  if found then (reverse after, true, reverse before) else ([], false, s).

Definition contains (c : N) (s : pystr) : bool := existsb (λ x, (x =? c)%N) s.

(** [s.isascii()], and [s.isdigit() and s.isascii()]. *)
Definition ascii_only (s : pystr) : bool := forallb (λ c, (c <? 128)%N) s.
Definition ascii_digits (s : pystr) : bool := negb (bool_decide (s = [])) && forallb is_digit s.

(** [s.lower()] of an ASCII text. *)
Definition ascii_lower (s : pystr) : pystr :=
  (λ c, if ((65 <=? c) && (c <=? 90))%N then (c + 32)%N else c) <$> s.

(** ** Numbers in a base *)

Definition digit_char (d : Z) : N := Z.to_N (if d <? 10 then 48 + d else 87 + d).
Definition digit_value (c : N) : option Z :=
  let v := Z.of_N c in
  if (48 <=? v) && (v <=? 57) then Some (v - 48)
  else if (97 <=? v) && (v <=? 102) then Some (v - 87)
  else if (65 <=? v) && (v <=? 70) then Some (v - 55)
  else None.

Fixpoint radix (b : Z) (fuel : nat) (n : Z) : pystr :=
  match fuel with
  | O => []
  | S fuel => if n <? b then [digit_char n] else radix b fuel (n / b) ++ [digit_char (n mod b)]
  end.

(** [str(n)] and ['%x' % n] for [0 <= n]. *)
Definition enough (n : Z) : nat := S (Z.to_nat (Z.log2 n)).
Definition str_int (n : Z) : pystr := radix 10 (enough n) n.
Definition hex_int (n : Z) : pystr := radix 16 (enough n) n.

(** [int(s, 16)] of hexadecimal digits. *)
Definition hex_step (acc : option Z) (c : N) : option Z :=
  match acc, digit_value c with
  | Some n, Some d => Some (16 * n + d)
  | _, _ => None
  end.
Definition parse_hex (s : pystr) : option Z := foldl hex_step (Some 0) s.

(** ** Lemmas: splitting and joining *)

Lemma split_on_no c s : c ∉ s → split_on c s = [s].
Proof.
  induction s as [|x s IH]; simpl; [done|]. intros [Hx Hs]%not_elem_of_cons.
  destruct (N.eqb_spec x c) as [->|]; [done|]. by rewrite IH.
Qed.

Lemma split_on_app c p s : c ∉ p → split_on c (p ++ c :: s) = p :: split_on c s.
Proof.
  induction p as [|x p IH]; simpl; [by rewrite N.eqb_refl|]. intros [Hx Hp]%not_elem_of_cons.
  destruct (N.eqb_spec x c) as [->|]; [done|]. by rewrite IH.
Qed.

(** Splitting what was joined. *)
Lemma split_join c parts : parts ≠ [] → Forall (λ p, c ∉ p) parts → split_on c (join [c] parts) = parts.
Proof.
  intros Hne H. induction H as [|p ps Hp Hps IH]; [done|]. destruct ps as [|q ps]; simpl; [by apply split_on_no|].
  simpl in IH. rewrite split_on_app by done. by rewrite IH.
Qed.

Lemma split_on_parts c s : Forall (λ p, c ∉ p) (split_on c s).
Proof.
  induction s as [|x s IH]; simpl; [repeat constructor; set_solver|].
  destruct (N.eqb_spec x c) as [->|]; [constructor; [set_solver|done]|].
  destruct (split_on c s); [repeat constructor; set_solver|].
  inversion IH; subst. constructor; [set_solver|done].
Qed.

Lemma split_on_elem c s x : x ∈ s → x ≠ c → ∃ p, p ∈ split_on c s ∧ x ∈ p.
Proof.
  induction s as [|y s IH]; simpl; [set_solver|]. intros [->|H]%elem_of_cons Hc.
  - destruct (N.eqb_spec y c) as [->|]; [done|].
    destruct (split_on c s) as [|p ps]; [exists [y]; set_solver|exists (y :: p); set_solver].
  - destruct (IH H Hc) as (p & Hp & Hx).
    destruct (N.eqb_spec y c) as [->|]; [exists p; set_solver|].
    destruct (split_on c s) as [|q ps]; [set_solver|].
    apply elem_of_cons in Hp as [->|Hp]; [exists (y :: q)|exists p]; set_solver.
Qed.

Lemma partition_no c s : c ∉ s → partition c s = (s, false, []).
Proof.
  induction s as [|x s IH]; simpl; [done|]. intros [Hx Hs]%not_elem_of_cons.
  destruct (N.eqb_spec x c) as [->|]; [done|]. by rewrite IH.
Qed.

Lemma partition_app c p s : c ∉ p → partition c (p ++ c :: s) = (p, true, s).
Proof.
  induction p as [|x p IH]; simpl; [by rewrite N.eqb_refl|]. intros [Hx Hp]%not_elem_of_cons.
  destruct (N.eqb_spec x c) as [->|]; [done|]. by rewrite IH.
Qed.

Lemma rpartition_no c s : c ∉ s → rpartition c s = ([], false, s).
Proof. intros H. unfold rpartition. by rewrite partition_no by (by rewrite elem_of_reverse). Qed.

(** What a partition gives back is the text. *)
Lemma partition_spec c s before found after : partition c s = (before, found, after) →
  c ∉ before ∧ s = before ++ (if found then c :: after else after) ∧ (found = false → after = []).
Proof.
  revert before found after. induction s as [|x s IH]; simpl; intros b f a; [intros [= <- <- <-]; set_solver|].
  destruct (N.eqb_spec x c) as [->|Hx]; [intros [= <- <- <-]; set_solver|].
  destruct (partition c s) as [[b' f'] a'] eqn:E. intros [= <- <- <-].
  destruct (IH _ _ _ eq_refl) as (Hb & -> & Hf). set_solver.
Qed.

Lemma contains_true c s : contains c s = true ↔ c ∈ s.
Proof.
  unfold contains. rewrite existsb_exists. split.
  - intros (x & Hx & <-%N.eqb_eq). by apply list_elem_of_In.
  - intros H. exists c. by rewrite N.eqb_refl, <-list_elem_of_In.
Qed.
Lemma contains_false c s : contains c s = false ↔ c ∉ s.
Proof. rewrite <-contains_true. by destruct (contains c s). Qed.

(** ** Lemmas: numbers *)

Lemma digit_value_char d : 0 ≤ d < 16 → digit_value (digit_char d) = Some d.
Proof.
  intros H. unfold digit_value, digit_char. destruct (Z.ltb_spec d 10); rewrite !Z2N.id by lia;
    repeat case_match; reflect_bools; try lia; f_equal; lia.
Qed.
Lemma digit_char_decimal d : 0 ≤ d < 10 → is_digit (digit_char d) = true ∧ Z.of_N (digit_char d) = 48 + d.
Proof.
  intros H. unfold digit_char, is_digit. destruct (Z.ltb_spec d 10); [|lia]. rewrite Z2N.id by lia. split; [|lia].
  apply andb_true_intro. split; apply N.leb_le; lia.
Qed.
(** The characters of a number: [0-9a-f]. *)
Lemma digit_char_range d : 0 ≤ d < 16 → (48 ≤ digit_char d ≤ 57 ∨ 97 ≤ digit_char d ≤ 102)%N.
Proof. intros H. unfold digit_char. destruct (Z.ltb_spec d 10); lia. Qed.

Lemma radix_length b fuel n : 1 < b → 0 ≤ n < b ^ Z.of_nat fuel → (length (radix b fuel n) ≤ fuel)%nat.
Proof.
  intros Hb. revert n. induction fuel as [|fuel IH]; intros n Hn; simpl; [lia|].
  destruct (Z.ltb_spec n b); simpl; [lia|]. rewrite length_app; simpl.
  rewrite Nat2Z.inj_succ, Z.pow_succ_r in Hn by lia.
  specialize (IH (n / b)). assert (0 ≤ n / b < b ^ Z.of_nat fuel); [|lia].
  split; [apply Z.div_pos; lia|apply Z.div_lt_upper_bound; lia].
Qed.

Lemma radix_chars b fuel n c : 1 < b ≤ 16 → 0 ≤ n → c ∈ radix b fuel n → ∃ d, 0 ≤ d < b ∧ c = digit_char d.
Proof.
  intros Hb. revert n. induction fuel as [|fuel IH]; intros n Hn; simpl; [set_solver|].
  destruct (Z.ltb_spec n b); [intros ->%list_elem_of_singleton; exists n; split; [lia|done]|].
  rewrite elem_of_app, list_elem_of_singleton. intros [Hc| ->]; [apply (IH (n / b)); [apply Z.div_pos; lia|done]|].
  exists (n mod b). split; [apply Z.mod_pos_bound; lia|done].
Qed.

Lemma radix_ne b fuel n : radix b (S fuel) n ≠ [].
Proof. simpl. destruct (n <? b); [done|]. by destruct (radix b fuel (n / b)). Qed.

Lemma enough_spec n b : 0 ≤ n → 2 ≤ b → n < b ^ Z.of_nat (enough n).
Proof.
  intros Hn Hb. unfold enough. rewrite Nat2Z.inj_succ, Z2Nat.id by apply Z.log2_nonneg.
  apply Z.lt_le_trans with (2 ^ Z.succ (Z.log2 n)).
  - destruct (decide (n = 0)) as [->|]; [done|]. apply Z.log2_spec. lia.
  - apply Z.pow_le_mono_l. lia.
Qed.

(** Fuel beyond the digits of the number changes nothing. *)
Lemma radix_fuel b k k' n : 1 < b → 0 ≤ n → n < b ^ Z.of_nat (S k) → n < b ^ Z.of_nat (S k') →
  radix b (S k) n = radix b (S k') n.
Proof.
  intros Hb. revert k' n. induction k as [|k IH]; intros [|k'] n Hn Hk Hk'.
  1-3: change (Z.of_nat 1) with 1 in *; rewrite Z.pow_1_r in *; cbn [radix]; destruct (Z.ltb_spec n b); [done|lia].
  rewrite Nat2Z.inj_succ, Z.pow_succ_r in Hk, Hk' by lia.
  change (radix b (S (S k)) n) with (if n <? b then [digit_char n] else radix b (S k) (n / b) ++ [digit_char (n mod b)]).
  change (radix b (S (S k')) n) with (if n <? b then [digit_char n] else radix b (S k') (n / b) ++ [digit_char (n mod b)]).
  destruct (n <? b); [done|]. f_equal. apply IH; [apply Z.div_pos; lia|apply Z.div_lt_upper_bound; lia..].
Qed.

Section Reading.
  Context (b : Z) (step : option Z → N → option Z) (Hb : 1 < b).
  Context (Hstep : ∀ acc d, 0 ≤ d < b → step (Some acc) (digit_char d) = Some (b * acc + d)).

Lemma read_radix fuel n : 0 ≤ n < b ^ Z.of_nat fuel → foldl step (Some 0) (radix b fuel n) = Some n.
Proof.
  revert n. induction fuel as [|fuel IH]; intros n Hn; simpl; [simpl in Hn; f_equal; lia|].
  destruct (Z.ltb_spec n b); simpl; [rewrite Hstep by lia; f_equal; lia|].
  rewrite Nat2Z.inj_succ, Z.pow_succ_r in Hn by lia.
  rewrite foldl_app, IH by (split; [apply Z.div_pos; lia|apply Z.div_lt_upper_bound; lia]). simpl.
  pose proof (Z.mod_pos_bound n b). rewrite Hstep by lia. f_equal. pose proof (Z.div_mod n b). lia.
Qed.
End Reading.

(** Reading back a printed number. *)
Lemma parse_str_int n : 0 ≤ n → parse_digits (str_int n) = Some n.
Proof.
  intros Hn. apply read_radix; [lia| |split; [lia|by apply enough_spec]].
  intros acc d Hd. unfold parse_digit. destruct (digit_char_decimal d Hd) as [-> ->]. f_equal. lia.
Qed.
Lemma parse_hex_int n : 0 ≤ n → parse_hex (hex_int n) = Some n.
Proof.
  intros Hn. apply read_radix; [lia| |split; [lia|by apply enough_spec]].
  intros acc d Hd. unfold hex_step. by rewrite digit_value_char.
Qed.

Lemma str_int_digits n : 0 ≤ n → ascii_digits (str_int n) = true.
Proof.
  intros Hn. unfold ascii_digits. rewrite bool_decide_eq_false_2 by apply radix_ne. simpl.
  apply forallb_forall. intros c Hc%list_elem_of_In. apply radix_chars in Hc as (d & Hd & ->); [|lia|done].
  by apply digit_char_decimal.
Qed.
Lemma hex_int_chars n c : 0 ≤ n → c ∈ hex_int n → (48 ≤ c ≤ 57 ∨ 97 ≤ c ≤ 102)%N.
Proof. intros Hn Hc. apply radix_chars in Hc as (d & Hd & ->); [|lia|done]. by apply digit_char_range. Qed.
Lemma str_int_chars n c : 0 ≤ n → c ∈ str_int n → (48 ≤ c ≤ 57)%N.
Proof.
  intros Hn Hc. apply radix_chars in Hc as (d & Hd & ->); [|lia|done].
  destruct (digit_char_decimal d Hd) as [_ H]. lia.
Qed.

Lemma parse_digits_nonneg s n : parse_digits s = Some n → 0 ≤ n.
Proof.
  unfold parse_digits. assert (∀ acc, 0 ≤ acc → foldl parse_digit (Some acc) s = Some n → 0 ≤ n) as H; [|by apply H].
  induction s as [|c s IH]; simpl; intros acc Hacc; [by intros [= <-]|].
  destruct (is_digit c) eqn:E; [|intros H; exfalso; clear -H; induction s; simpl in *; [done|auto]].
  apply IH. unfold is_digit in E. apply andb_prop in E as [E%N.leb_le _]. lia.
Qed.

(** * Python bytes: base64 and UTF-8

    Byte strings are lists of numbers below 256.  [base64.urlsafe_b64encode],
    [base64.b64decode(_, validate=True)] and the UTF-8 codec, with their round
    trips. *)

Definition is_bytes (b : pystr) : Prop := Forall (λ c, (c < 256)%N) b.

(** ** base64 *)

(** The URL-safe alphabet. *)
Definition b64_char (v : N) : N :=
  (if v <? 26 then v + 65 else if v <? 52 then v + 71 else if v <? 62 then v - 4 else if v =? 62 then 45 else 95)%N.

(** The value of a character: the standard alphabet, with [-] and [_] for [+]
    and [/] when they are the alternative characters. *)
Definition b64_value (urlsafe : bool) (c : N) : option N :=
  (if (65 <=? c) && (c <=? 90) then Some (c - 65)
   else if (97 <=? c) && (c <=? 122) then Some (c - 71)
   else if (48 <=? c) && (c <=? 57) then Some (c + 4)
   else if c =? 43 then Some 62
   else if c =? 47 then Some 63
   else if urlsafe && (c =? 45) then Some 62
   else if urlsafe && (c =? 95) then Some 63
   else None)%N.

Fixpoint b64_encode (b : pystr) : pystr :=
  match b with
  | [] => []
  | [x] => [b64_char (x / 4); b64_char (x mod 4 * 16); 61]%N
           ++ [61%N]
  | [x; y] => [b64_char (x / 4); b64_char (x mod 4 * 16 + y / 16); b64_char (y mod 16 * 4); 61]%N
  | x :: y :: z :: b =>
      [b64_char (x / 4); b64_char (x mod 4 * 16 + y / 16); b64_char (y mod 16 * 4 + z / 64); b64_char (z mod 64)]%N
      ++ b64_encode b
  end.

(** In strict mode: whole groups of four, padding only at the end; [None] is
    [binascii.Error]. *)
Fixpoint b64_decode (urlsafe : bool) (s : pystr) : option pystr :=
  match s with
  | [] => Some []
  | a :: b :: c :: d :: rest =>
      match b64_value urlsafe a, b64_value urlsafe b with
      | Some va, Some vb =>
          match b64_value urlsafe c, b64_value urlsafe d with
          | Some vc, Some vd =>
              (λ bytes, [va * 4 + vb / 16; vb mod 16 * 16 + vc / 4; vc mod 4 * 64 + vd]%N ++ bytes) <$> b64_decode urlsafe rest
          | Some vc, None =>
              if bool_decide (d = 61%N) && bool_decide (rest = [])
              then Some [va * 4 + vb / 16; vb mod 16 * 16 + vc / 4]%N else None
          | None, _ =>
              if bool_decide (c = 61%N) && bool_decide (d = 61%N) && bool_decide (rest = [])
              then Some [va * 4 + vb / 16]%N else None
          end
      | _, _ => None
      end
  | _ => None
  end.

Lemma b64_value_char v : (v < 64)%N → b64_value true (b64_char v) = Some v.
Proof.
  intros Hv. assert (forallb (λ k, bool_decide (b64_value true (b64_char (N.of_nat k)) = Some (N.of_nat k))) (seq 0 64) = true)
    as H by (vm_compute; reflexivity).
  rewrite forallb_forall in H. specialize (H (N.to_nat v) ltac:(apply in_seq; lia)). rewrite N2Nat.id in H.
  by apply bool_decide_eq_true in H.
Qed.
Lemma b64_value_pad u : b64_value u 61 = None.
Proof. by destruct u. Qed.

Ltac Zify.zify_post_hook ::= Z.div_mod_to_equations.

Lemma b64_roundtrip b : is_bytes b → b64_decode true (b64_encode b) = Some b.
Proof.
  unfold is_bytes. remember (length b) as n eqn:Hn. assert (length b ≤ n)%nat as Hle by lia. clear Hn. revert b Hle.
  induction n as [|n IH]; intros [|x [|y [|z b]]] Hle Hb; simpl in Hle; try lia; try done;
    repeat match goal with H : Forall _ (_ :: _) |- _ => apply Forall_cons in H as [? ?] end; cbn [b64_encode b64_decode app].
  - rewrite !b64_value_char, !b64_value_pad by lia. simpl. do 2 f_equal. lia.
  - rewrite !b64_value_char, !b64_value_pad by lia. simpl. f_equal. f_equal; [lia|]. f_equal. lia.
  - rewrite !b64_value_char by lia. rewrite IH by (done || lia). simpl. f_equal. f_equal; [lia|]. f_equal; [lia|]. f_equal. lia.
Qed.

Lemma b64_encode_ne b : b ≠ [] → b64_encode b ≠ [].
Proof. by destruct b as [|x [|y [|z b]]]. Qed.

Lemma b64_char_range v : (v < 64)%N → (48 ≤ b64_char v ≤ 57 ∨ 65 ≤ b64_char v ≤ 90 ∨ b64_char v = 95 ∨ 97 ≤ b64_char v ≤ 122 ∨ b64_char v = 45)%N.
Proof.
  intros Hv. unfold b64_char. destruct (N.ltb_spec v 26); [lia|]. destruct (N.ltb_spec v 52); [lia|].
  destruct (N.ltb_spec v 62); [lia|]. destruct (N.eqb_spec v 62); lia.
Qed.

(** No colon in base64. *)
Lemma b64_encode_colon b : is_bytes b → 58%N ∉ b64_encode b.
Proof.
  unfold is_bytes. remember (length b) as n eqn:Hn. assert (length b ≤ n)%nat as Hle by lia. clear Hn. revert b Hle.
  induction n as [|n IH]; intros [|x [|y [|z b]]] Hle Hb; simpl in Hle; try lia; cbn [b64_encode app];
    try (apply not_elem_of_nil);
    repeat match goal with H : Forall _ (_ :: _) |- _ => apply Forall_cons in H as [? ?] end.
  all: assert (∀ v, (v < 64)%N → 58%N ≠ b64_char v) as Hc by (intros v Hv; pose proof (b64_char_range v Hv); lia).
  all: rewrite !not_elem_of_cons; split_and!; try (apply not_elem_of_nil); try done; try (apply Hc; lia).
  apply IH; [lia|done].
Qed.

(** ** UTF-8 *)

Definition surrogate (c : N) : bool := ((0xD800 <=? c) && (c <=? 0xDFFF))%N.
(** The bytes of a character; [None] is [UnicodeEncodeError]. *)
Definition utf8_char (c : N) : option pystr :=
  (if c <? 128 then Some [c]
   else if c <? 2048 then Some [192 + c / 64; 128 + c mod 64]
   else if surrogate c then None
   else if c <? 65536 then Some [224 + c / 4096; 128 + c / 64 mod 64; 128 + c mod 64]
   else if c <? 0x110000 then Some [240 + c / 262144; 128 + c / 4096 mod 64; 128 + c / 64 mod 64; 128 + c mod 64]
   else None)%N.
Definition utf8_encode (s : pystr) : option pystr := mjoin <$> mapM utf8_char s.

Definition continuation (c : N) : option N := (if (128 <=? c) && (c <? 192) then Some (c - 128) else None)%N.

(** [bytes.decode('utf-8')]: shortest forms only, no surrogates; [None] is
    [UnicodeDecodeError]. *)
Fixpoint utf8_decode (b : pystr) : option pystr :=
  match b with
  | [] => Some []
  | b0 :: r0 =>
      if (b0 <? 128)%N then cons b0 <$> utf8_decode r0
      else match r0 with
      | [] => None
      | b1 :: r1 =>
          match continuation b1 with
          | None => None
          | Some c1 =>
              if ((194 <=? b0) && (b0 <? 224))%N then cons ((b0 - 192) * 64 + c1)%N <$> utf8_decode r1
              else match r1 with
              | [] => None
              | b2 :: r2 =>
                  match continuation b2 with
                  | None => None
                  | Some c2 =>
                      if ((224 <=? b0) && (b0 <? 240))%N then
                        let c := ((b0 - 224) * 4096 + c1 * 64 + c2)%N in
                        if (c <? 2048)%N || surrogate c then None else cons c <$> utf8_decode r2
                      else match r2 with
                      | [] => None
                      | b3 :: r3 =>
                          match continuation b3 with
                          | None => None
                          | Some c3 =>
                              let c := ((b0 - 240) * 262144 + c1 * 4096 + c2 * 64 + c3)%N in
                              if ((240 <=? b0) && (b0 <? 245))%N && (65536 <=? c)%N && (c <? 0x110000)%N
                              then cons c <$> utf8_decode r3 else None
                          end
                      end
                  end
              end
          end
      end
  end.

Lemma continuation_low c : (c < 64)%N → continuation (128 + c) = Some c.
Proof.
  intros H. unfold continuation. destruct (N.leb_spec 128 (128 + c)); [|lia]. destruct (N.ltb_spec (128 + c) 192); [|lia].
  simpl. f_equal. lia.
Qed.

Lemma utf8_decode_char c bytes rest : utf8_char c = Some bytes → utf8_decode (bytes ++ rest) = cons c <$> utf8_decode rest.
Proof.
  unfold utf8_char. destruct (N.ltb_spec c 128) as [H|H].
  { intros [= <-]. cbn [app utf8_decode]. destruct (N.ltb_spec c 128); [done|lia]. }
  destruct (N.ltb_spec c 2048) as [H1|H1].
  { intros [= <-]. cbn [app utf8_decode]. destruct (N.ltb_spec (192 + c / 64) 128); [lia|].
    rewrite continuation_low by lia. destruct (N.leb_spec 194 (192 + c / 64)); [|lia]. destruct (N.ltb_spec (192 + c / 64) 224); [|lia].
    simpl. do 2 f_equal. lia. }
  destruct (surrogate c) eqn:Es; [done|]. destruct (N.ltb_spec c 65536) as [H2|H2].
  { intros [= <-]. cbn [app utf8_decode]. destruct (N.ltb_spec (224 + c / 4096) 128); [lia|].
    rewrite !continuation_low by lia. destruct (N.leb_spec 194 (224 + c / 4096)); [|lia].
    destruct (N.ltb_spec (224 + c / 4096) 224); [lia|]. destruct (N.leb_spec 224 (224 + c / 4096)); [|lia].
    destruct (N.ltb_spec (224 + c / 4096) 240); [|lia]. cbn [andb].
    replace ((224 + c / 4096 - 224) * 4096 + c / 64 mod 64 * 64 + c mod 64)%N with c by lia.
    destruct (N.ltb_spec c 2048); [lia|]. by rewrite Es. }
  destruct (N.ltb_spec c 0x110000) as [H3|H3]; [|done].
  intros [= <-]. cbn [app utf8_decode]. destruct (N.ltb_spec (240 + c / 262144) 128); [lia|].
  rewrite !continuation_low by lia. destruct (N.leb_spec 194 (240 + c / 262144)); [|lia].
  destruct (N.ltb_spec (240 + c / 262144) 224); [lia|]. destruct (N.leb_spec 224 (240 + c / 262144)); [|lia].
  destruct (N.ltb_spec (240 + c / 262144) 240); [lia|]. cbn [andb].
  replace ((240 + c / 262144 - 240) * 262144 + c / 4096 mod 64 * 4096 + c / 64 mod 64 * 64 + c mod 64)%N with c by lia.
  destruct (N.leb_spec 240 (240 + c / 262144)); [|lia]. destruct (N.ltb_spec (240 + c / 262144) 245); [|lia].
  destruct (N.leb_spec 65536 c); [|lia]. destruct (N.ltb_spec c 0x110000); [done|lia].
Qed.

Lemma utf8_char_bytes c bytes : utf8_char c = Some bytes → is_bytes bytes.
Proof.
  unfold utf8_char, is_bytes. destruct (N.ltb_spec c 128) as [H|H]; [intros [= <-]; repeat constructor; lia|].
  destruct (N.ltb_spec c 2048) as [H1|H1]; [intros [= <-]; repeat constructor; lia|]. destruct (surrogate c); [done|].
  destruct (N.ltb_spec c 65536) as [H2|H2]; [intros [= <-]; repeat constructor; lia|].
  destruct (N.ltb_spec c 0x110000); [|done]. intros [= <-]; repeat constructor; lia.
Qed.

Lemma utf8_roundtrip s b : utf8_encode s = Some b → utf8_decode b = Some s.
Proof.
  unfold utf8_encode. destruct (mapM utf8_char s) as [l|] eqn:E; [|done]. intros [= <-]. apply mapM_Some in E.
  induction E as [|c bytes s l Hc _ IH]; [done|]. change (mjoin (bytes :: l)) with (bytes ++ mjoin l). rewrite (utf8_decode_char c) by done. by rewrite IH.
Qed.

Lemma utf8_ascii s : ascii_only s = true → utf8_encode s = Some s.
Proof.
  unfold utf8_encode. intros H. assert (mapM utf8_char s = Some ((λ c, [c]) <$> s)) as ->.
  { apply mapM_Some. rewrite Forall2_fmap_r. apply Forall_Forall2_diag, Forall_forall. intros c Hc. simpl. unfold utf8_char.
    unfold ascii_only in H. rewrite forallb_forall in H. apply list_elem_of_In in Hc. by rewrite (H c Hc). }
  simpl. f_equal. clear H. induction s as [|c s IH]; [done|]. change (c :: mjoin ((λ c, [c]) <$> s) = c :: s). by f_equal.
Qed.
