(* ===== verification/PyIp.v ===== *)
(** * Python's [ipaddress]

    Addresses and networks as the module represents them (an integer of 32 or
    128 bits, and a scope id for IPv6), the membership test on the netmask, the
    classification properties with the tables of Python 3.13, and the reading
    and printing of addresses.  The lemmas: membership is an interval of
    integers, and an address that is printed reads back as itself. *)

From S2P Require Import Prelude PyStr PyText.

Inductive IPAddress : Type :=
| IPv4Address (ip : Z)
| IPv6Address (ip : Z) (scope_id : option pystr).
#[export] Instance IPAddress_eq_dec : EqDecision IPAddress.
Proof. solve_decision. Defined.

Definition version (a : IPAddress) : Z := match a with IPv4Address _ => 4 | IPv6Address _ _ => 6 end.
Definition ip_int (a : IPAddress) : Z := match a with IPv4Address ip => ip | IPv6Address ip _ => ip end.
Definition width (v : Z) : Z := if v =? 4 then 32 else 128.
Definition all_ones (v : Z) : Z := 2 ^ width v - 1.

Record IPNetwork : Type := mkNetwork {
  nt_version : Z;
  network_address : Z;
  prefixlen : Z;
}.
#[export] Instance IPNetwork_eq_dec : EqDecision IPNetwork.
Proof. solve_decision. Defined.

(** [_ip_int_from_prefix] *)
Definition netmask (n : IPNetwork) : Z :=
  Z.lxor (all_ones n.(nt_version)) (Z.shiftr (all_ones n.(nt_version)) n.(prefixlen)).

(** [address in network] *)
Definition in_network (a : IPAddress) (n : IPNetwork) : bool :=
  (version a =? n.(nt_version)) && (Z.land (ip_int a) (netmask n) =? n.(network_address)).

(** [broadcast_address], and [overlaps] of two networks of one version. *)
Definition broadcast_address (n : IPNetwork) : Z :=
  Z.lor n.(network_address) (Z.lxor (netmask n) (all_ones n.(nt_version))).
Definition address_of (v ip : Z) : IPAddress := if v =? 4 then IPv4Address ip else IPv6Address ip None.
Definition overlaps (m n : IPNetwork) : bool :=
  in_network (address_of m.(nt_version) m.(network_address)) n ||
  in_network (address_of m.(nt_version) (broadcast_address m)) n ||
  in_network (address_of n.(nt_version) n.(network_address)) m ||
  in_network (address_of n.(nt_version) (broadcast_address n)) m.

(** ** Networks written in the source *)

Definition v4 (a b c d p : Z) : IPNetwork := mkNetwork 4 (((a * 256 + b) * 256 + c) * 256 + d) p.
(** The first hextets of an IPv6 network, the rest being zero. *)
Fixpoint hextets_value (acc : Z) (n : nat) (hs : list Z) : Z :=
  match n with
  | O => acc
  | S n => match hs with
           | [] => hextets_value (acc * 65536) n []
           | h :: hs => hextets_value (acc * 65536 + h) n hs
           end
  end.
Definition v6 (hs : list Z) (p : Z) : IPNetwork := mkNetwork 6 (hextets_value 0 8 hs) p.

(** ** The tables *)

Definition private_networks4 : list IPNetwork :=
  [v4 0 0 0 0 8; v4 10 0 0 0 8; v4 127 0 0 0 8; v4 169 254 0 0 16; v4 172 16 0 0 12; v4 192 0 0 0 24;
   v4 192 0 0 170 31; v4 192 0 2 0 24; v4 192 168 0 0 16; v4 198 18 0 0 15; v4 198 51 100 0 24;
   v4 203 0 113 0 24; v4 240 0 0 0 4; v4 255 255 255 255 32].
Definition private_exceptions4 : list IPNetwork := [v4 192 0 0 9 32; v4 192 0 0 10 32].
Definition public_network4 : IPNetwork := v4 100 64 0 0 10.
Definition loopback_network4 : IPNetwork := v4 127 0 0 0 8.
Definition linklocal_network4 : IPNetwork := v4 169 254 0 0 16.
Definition multicast_network4 : IPNetwork := v4 224 0 0 0 4.
Definition reserved_network4 : IPNetwork := v4 240 0 0 0 4.

Definition private_networks6 : list IPNetwork :=
  [v6 [0; 0; 0; 0; 0; 0; 0; 1] 128; v6 [] 128; v6 [0; 0; 0; 0; 0; 0xffff] 96; v6 [0x64; 0xff9b; 1] 48;
   v6 [0x100] 64; v6 [0x2001] 23; v6 [0x2001; 0xdb8] 32; v6 [0x2002] 16; v6 [0x3fff] 20; v6 [0xfc00] 7;
   v6 [0xfe80] 10].
Definition private_exceptions6 : list IPNetwork :=
  [v6 [0x2001; 1; 0; 0; 0; 0; 0; 1] 128; v6 [0x2001; 1; 0; 0; 0; 0; 0; 2] 128; v6 [0x2001; 3] 32;
   v6 [0x2001; 4; 0x112] 48; v6 [0x2001; 0x20] 28; v6 [0x2001; 0x30] 28].
Definition reserved_networks6 : list IPNetwork :=
  [v6 [] 8; v6 [0x100] 8; v6 [0x200] 7; v6 [0x400] 6; v6 [0x800] 5; v6 [0x1000] 4; v6 [0x4000] 3; v6 [0x6000] 3;
   v6 [0x8000] 3; v6 [0xa000] 3; v6 [0xc000] 3; v6 [0xe000] 4; v6 [0xf000] 5; v6 [0xf800] 6; v6 [0xfe00] 9].
Definition linklocal_network6 : IPNetwork := v6 [0xfe80] 10.
Definition multicast_network6 : IPNetwork := v6 [0xff00] 8.
Definition sitelocal_network6 : IPNetwork := v6 [0xfec0] 10.

(** ** Embedded IPv4 addresses *)

Definition ipv4_mapped (a : IPAddress) : option IPAddress :=
  match a with
  | IPv6Address ip _ => if Z.shiftr ip 32 =? 0xffff then Some (IPv4Address (Z.land ip 0xffffffff)) else None
  | IPv4Address _ => None
  end.
Definition sixtofour (a : IPAddress) : option IPAddress :=
  match a with
  | IPv6Address ip _ =>
      if Z.shiftr ip 112 =? 0x2002 then Some (IPv4Address (Z.land (Z.shiftr ip 80) 0xffffffff)) else None
  | IPv4Address _ => None
  end.

(** ** Properties of an address; of an IPv4-mapped one, those of the IPv4
    address ([is_site_local] apart). *)

Definition within (ns : list IPNetwork) (a : IPAddress) : bool := existsb (in_network a) ns.
Definition judged (f4 f6 : IPAddress → bool) (a : IPAddress) : bool :=
  match a with
  | IPv4Address _ => f4 a
  | IPv6Address _ _ => match ipv4_mapped a with Some m => f4 m | None => f6 a end
  end.

Definition is_private : IPAddress → bool :=
  judged (λ a, within private_networks4 a && negb (within private_exceptions4 a))
         (λ a, within private_networks6 a && negb (within private_exceptions6 a)).
Definition is_global : IPAddress → bool :=
  judged (λ a, negb (in_network a public_network4) && negb (is_private a)) (λ a, negb (is_private a)).
Definition is_loopback : IPAddress → bool :=
  judged (λ a, in_network a loopback_network4) (λ a, ip_int a =? 1).
Definition is_link_local : IPAddress → bool :=
  judged (λ a, in_network a linklocal_network4) (λ a, in_network a linklocal_network6).
Definition is_unspecified : IPAddress → bool := judged (λ a, ip_int a =? 0) (λ a, ip_int a =? 0).
Definition is_reserved : IPAddress → bool :=
  judged (λ a, in_network a reserved_network4) (within reserved_networks6).
Definition is_multicast : IPAddress → bool :=
  judged (λ a, in_network a multicast_network4) (λ a, in_network a multicast_network6).
Definition is_site_local (a : IPAddress) : bool := in_network a sitelocal_network6.

(** ** Printing *)

(** The four octets, the eight hextets of an integer. *)
Fixpoint chunks (b : Z) (n : nat) (ip : Z) : list Z :=
  match n with
  | O => []
  | S n => chunks b n (ip / b) ++ [ip mod b]
  end.

Definition str_ipv4 (ip : Z) : pystr := join (lit ".") (str_int <$> chunks 256 4 ip).

(** [_compress_hextets]: the loop keeps the index, the start and length of the
    current run of zeros and of the longest one. *)
Definition run_state : Type := nat * (nat * nat) * (nat * nat).
Definition run_step (st : run_state) (zero : bool) : run_state :=
  let '(index, (start, len), (best_start, best_len)) := st in
  if zero then
    let start := if (len =? 0)%nat then index else start in
    let len := S len in
    (S index, (start, len), if (best_len <? len)%nat then (start, len) else (best_start, best_len))
  else (S index, (index, 0%nat), (best_start, best_len)).
Definition best_run (zeros : list bool) : nat * nat := (foldl run_step (0, (0, 0), (0, 0))%nat zeros).2.

Definition compress_hextets (hextets : list pystr) : list pystr :=
  let '(start, len) := best_run ((λ h, bool_decide (h = lit "0")) <$> hextets) in
  if (1 <? len)%nat then
    let hextets' := if (start + len =? length hextets)%nat then hextets ++ [[]] else hextets in
    let hextets'' := take start hextets' ++ [[]] ++ drop (start + len) hextets' in
    if (start =? 0)%nat then [] :: hextets'' else hextets''
  else hextets.
Definition string_from_ip_int (ip : Z) : pystr :=
  join (lit ":") (compress_hextets (hex_int <$> chunks 65536 8 ip)).

Definition str_ipv6 (ip : Z) : pystr :=
  match ipv4_mapped (IPv6Address ip None) with
  | Some m => string_from_ip_int (Z.shiftr ip 32) ++ lit ":" ++ str_ipv4 (ip_int m)
  | None => string_from_ip_int ip
  end.

(** [str(address)] *)
Definition str_address (a : IPAddress) : pystr :=
  match a with
  | IPv4Address ip => str_ipv4 ip
  | IPv6Address ip None => str_ipv6 ip
  | IPv6Address ip (Some scope_id) => str_ipv6 ip ++ lit "%" ++ scope_id
  end.

(** ** Reading; [None] is [ValueError] *)

Definition parse_octet (s : pystr) : option Z :=
  if negb (ascii_digits s) || (3 <? length s)%nat then None
  else if negb (bool_decide (s = lit "0")) && bool_decide (head s = Some 48%N) then None
  else match parse_digits s with
       | Some n => if n <=? 255 then Some n else None
       | None => None
       end.
Definition from_chunks (b : Z) (l : list Z) : Z := foldl (λ acc x, acc * b + x) 0 l.
Definition ipv4_from_string (s : pystr) : option Z :=
  if contains 47 s then None
  else let octets := split_on 46 s in
       if (length octets =? 4)%nat then from_chunks 256 <$> mapM parse_octet octets else None.

Definition parse_hextet (s : pystr) : option Z :=
  if (4 <? length s)%nat || bool_decide (s = []) then None else parse_hex s.

(** The position of the one empty part between the ends, if any; two of them
    are an error. *)
Definition skip_step (st : nat * option (option nat)) (p : pystr) : nat * option (option nat) :=
  (S st.1, match st.2 with
           | None => None
           | Some skip => if bool_decide (p = []) then match skip with None => Some (Some st.1) | Some _ => None end
                          else Some skip
           end).
Definition skip_index (parts : list pystr) : option (option nat) :=
  (foldl skip_step (1%nat, Some None) (take (length parts - 2) (drop 1 parts))).2.

Definition read_hextets (acc : Z) (parts : list pystr) : option Z :=
  foldl (λ acc x, Z.lor (Z.shiftl acc 16) x) acc <$> mapM parse_hextet parts.

Definition ipv6_from_parts (parts : list pystr) : option Z :=
  if (9 <? length parts)%nat then None
  else match skip_index parts with
       | None => None
       | Some (Some i) =>
           let lo := (length parts - i - 1)%nat in
           let first_empty := bool_decide (head parts = Some []) in
           let last_empty := bool_decide (last parts = Some []) in
           let hi' := if first_empty then (i - 1)%nat else i in
           let lo' := if last_empty then (lo - 1)%nat else lo in
           if (first_empty && negb (hi' =? 0)%nat) || (last_empty && negb (lo' =? 0)%nat) then None
           else if (8 <=? hi' + lo')%nat then None
           else match read_hextets 0 (take hi' parts) with
                | None => None
                | Some high =>
                    read_hextets (Z.shiftl high (16 * Z.of_nat (8 - (hi' + lo')))) (drop (length parts - lo') parts)
                end
       | Some None =>
           if negb (length parts =? 8)%nat then None
           else if bool_decide (head parts = Some []) || bool_decide (last parts = Some []) then None
           else read_hextets 0 parts
       end.
Definition ipv6_from_string (s : pystr) : option Z :=
  let parts := split_on 58 s in
  if (length parts <? 3)%nat then None
  else
    let final := default [] (last parts) in
    if contains 46 final then
      match ipv4_from_string final with
      | None => None
      | Some ip =>
          ipv6_from_parts (take (length parts - 1) parts ++
                           [hex_int (Z.land (Z.shiftr ip 16) 0xffff); hex_int (Z.land ip 0xffff)])
      end
    else ipv6_from_parts parts.

(** [ipaddress.ip_address(s)] *)
Definition ip_address (s : pystr) : option IPAddress :=
  match ipv4_from_string s with
  | Some ip => Some (IPv4Address ip)
  | None =>
      if contains 47 s then None
      else
        let '(addr, sep, scope_id) := partition 37 s in
        if sep && (bool_decide (scope_id = []) || contains 37 scope_id) then None
        else (λ ip, IPv6Address ip (if sep then Some scope_id else None)) <$> ipv6_from_string addr
  end.

Example ip_reads :
  ip_address (lit "127.0.0.1") = Some (IPv4Address 2130706433) ∧
  ip_address (lit "::1") = Some (IPv6Address 1 None) ∧
  ip_address (lit "::ffff:10.0.0.1%eth0") = Some (IPv6Address 0xffff0a000001 (Some (lit "eth0"))) ∧
  ip_address (lit "2001:db8::ff00:42:8329") = Some (IPv6Address 0x20010db8000000000000ff0000428329 None) ∧
  ip_address (lit "1.2.3.04") = None ∧ ip_address (lit "1::2::3") = None ∧ ip_address (lit "host") = None.
Proof. vm_compute. repeat split; reflexivity. Qed.
Example ip_prints :
  str_address (IPv6Address 0x20010db8000000000000ff0000428329 None) = lit "2001:db8::ff00:42:8329" ∧
  str_address (IPv6Address 0 None) = lit "::" ∧ str_address (IPv6Address 0xffff0a000001 None) = lit "::ffff:10.0.0.1" ∧
  str_address (IPv4Address 2130706433) = lit "127.0.0.1".
Proof. vm_compute. repeat split; reflexivity. Qed.

(** * Facts about addresses

    Membership in a network is an interval of integers; the IPv4 address an
    IPv6 one carries, by arithmetic; an address reads back from what is printed. *)

Definition wf_address (a : IPAddress) : Prop :=
  match a with
  | IPv4Address ip => 0 ≤ ip < 2 ^ 32
  | IPv6Address ip scope_id =>
      0 ≤ ip < 2 ^ 128 ∧
      match scope_id with Some s => s ≠ [] ∧ 37%N ∉ s ∧ 47%N ∉ s | None => True end
  end.

(** A network whose host bits are zero, as the constructor insists. *)
Definition wf_network (n : IPNetwork) : Prop :=
  (n.(nt_version) = 4 ∨ n.(nt_version) = 6) ∧ 0 ≤ n.(prefixlen) ≤ width n.(nt_version) ∧
  0 ≤ n.(network_address) < 2 ^ width n.(nt_version) ∧
  n.(network_address) mod 2 ^ (width n.(nt_version) - n.(prefixlen)) = 0.
#[export] Instance wf_network_dec n : Decision (wf_network n).
Proof. unfold wf_network. apply _. Defined.

Definition host_size (n : IPNetwork) : Z := 2 ^ (width n.(nt_version) - n.(prefixlen)).

(** ** Masks *)

Lemma ones_bits w i : 0 ≤ w → 0 ≤ i → Z.testbit (2 ^ w - 1) i = (i <? w).
Proof.
  intros Hw Hi. replace (2 ^ w - 1) with (Z.ones w) by (rewrite Z.ones_equiv; lia).
  destruct (Z.ltb_spec i w); [by apply Z.ones_spec_low|by apply Z.ones_spec_high].
Qed.

Lemma above_bits ip w i : 0 ≤ ip < 2 ^ w → 0 ≤ w → w ≤ i → Z.testbit ip i = false.
Proof. intros Hip Hw Hi. rewrite <-(Z.mod_small ip (2 ^ w)) by done. by apply Z.mod_pow2_bits_high. Qed.

(** Masking keeps the network's part. *)
Lemma land_mask ip w p : 0 ≤ p ≤ w → 0 ≤ ip < 2 ^ w →
  Z.land ip (Z.lxor (2 ^ w - 1) (Z.shiftr (2 ^ w - 1) p)) = ip - ip mod 2 ^ (w - p).
Proof.
  intros Hp Hip. replace (ip - ip mod 2 ^ (w - p)) with (Z.shiftl (Z.shiftr ip (w - p)) (w - p)).
  2: { rewrite Z.shiftl_mul_pow2, Z.shiftr_div_pow2 by lia. pose proof (Z.div_mod ip (2 ^ (w - p))). lia. }
  apply Z.bits_inj'. intros i Hi. rewrite Z.land_spec, Z.lxor_spec, Z.shiftr_spec by lia.
  rewrite !ones_bits by lia. destruct (Z.ltb_spec i (w - p)).
  - rewrite Z.shiftl_spec_low by lia. destruct (Z.ltb_spec i w), (Z.ltb_spec (i + p) w); try lia. by rewrite andb_false_r.
  - rewrite Z.shiftl_spec, Z.shiftr_spec by lia. replace (i - (w - p) + (w - p)) with i by lia.
    destruct (Z.ltb_spec i w), (Z.ltb_spec (i + p) w); try lia; simpl; [by rewrite andb_true_r|].
    rewrite (above_bits ip w) by lia. done.
Qed.

Lemma width_pos v : 0 < width v.
Proof. unfold width. destruct (v =? 4); lia. Qed.

Lemma ip_range a : wf_address a → 0 ≤ ip_int a < 2 ^ width (version a).
Proof. destruct a; simpl; [done|by intros [? _]]. Qed.

Lemma aligned_floor ip net size : 0 < size → net mod size = 0 → (ip - ip mod size = net ↔ net ≤ ip < net + size).
Proof.
  intros Hs Hn. pose proof (Z.mod_pos_bound ip size Hs). pose proof (Z.div_mod ip size). pose proof (Z.div_mod net size).
  split; [lia|]. intros Hr.
  assert (ip / size = net / size) as Hq by (symmetry; apply (Z.div_unique _ _ _ (ip - net)); lia). lia.
Qed.

(** [address in network]: the same version, and an interval. *)
Lemma in_network_spec a n : wf_network n → wf_address a →
  in_network a n = true ↔
  version a = n.(nt_version) ∧ n.(network_address) ≤ ip_int a < n.(network_address) + host_size n.
Proof.
  intros (Hv & Hp & Hn & Hal) Ha%ip_range. unfold in_network, host_size.
  rewrite andb_true_iff, !Z.eqb_eq. split; intros [Hver H]; (split; [done|]).
  - unfold netmask, all_ones in H. rewrite Hver in Ha. rewrite land_mask in H by done.
    apply aligned_floor; [apply Z.pow_pos_nonneg; lia|done..].
  - unfold netmask, all_ones. rewrite Hver in Ha. rewrite land_mask by done.
    apply aligned_floor; [apply Z.pow_pos_nonneg; lia|done..].
Qed.

(** ** Embedded addresses *)

Lemma land_low ip k : 0 ≤ k → Z.land ip (2 ^ k - 1) = ip mod 2 ^ k.
Proof. intros Hk. rewrite <-Z.land_ones by done. by rewrite Z.ones_equiv, Z.sub_1_r. Qed.

Lemma ipv4_mapped_spec ip sc : 0 ≤ ip →
  ipv4_mapped (IPv6Address ip sc) =
    if decide (0xffff00000000 ≤ ip < 0xffff00000000 + 2 ^ 32) then Some (IPv4Address (ip - 0xffff00000000)) else None.
Proof.
  intros Hip. unfold ipv4_mapped. rewrite Z.shiftr_div_pow2 by lia.
  change 0xffffffff with (2 ^ 32 - 1). rewrite land_low by lia.
  pose proof (Z.div_mod ip (2 ^ 32)) as Hd. pose proof (Z.mod_pos_bound ip (2 ^ 32)) as Hm.
  destruct (Z.eqb_spec (ip / 2 ^ 32) 0xffff) as [E|E]; case_decide; try lia.
  - do 2 f_equal. lia.
  - done.
Qed.

Lemma ipv4_mapped_wf a m : wf_address a → ipv4_mapped a = Some m → wf_address m ∧ version m = 4.
Proof.
  destruct a as [|ip sc]; [done|]. intros [Hip _]. rewrite ipv4_mapped_spec by lia. case_decide; [|done].
  intros [= <-]. simpl. lia.
Qed.

(** ** Chunks of an integer *)

Lemma chunks_length b n ip : length (chunks b n ip) = n.
Proof. revert ip. induction n as [|n IH]; intros ip; simpl; [done|]. rewrite length_app, IH; simpl; lia. Qed.

Lemma chunks_bound b n ip : 0 < b → Forall (λ x, 0 ≤ x < b) (chunks b n ip).
Proof.
  intros Hb. revert ip. induction n as [|n IH]; intros ip; simpl; [constructor|].
  apply Forall_app. split; [done|]. repeat constructor; apply Z.mod_pos_bound; lia.
Qed.

Lemma from_chunks_chunks b n ip : 1 < b → 0 ≤ ip < b ^ Z.of_nat n → from_chunks b (chunks b n ip) = ip.
Proof.
  unfold from_chunks. intros Hb. revert ip. induction n as [|n IH]; intros ip Hip; simpl; [simpl in Hip; lia|].
  rewrite Nat2Z.inj_succ, Z.pow_succ_r in Hip by lia.
  rewrite foldl_app, IH by (split; [apply Z.div_pos; lia|apply Z.div_lt_upper_bound; lia]). simpl.
  pose proof (Z.div_mod ip b). lia.
Qed.

(** ** Reading back an IPv4 address *)

Lemma str_int_small n : 0 ≤ n < 256 → (length (str_int n) ≤ 3)%nat ∧
  (str_int n ≠ lit "0" → head (str_int n) ≠ Some 48%N).
Proof.
  intros Hn. assert (forallb (λ k, let s := str_int (Z.of_nat k) in
    (length s <=? 3)%nat && (bool_decide (s = lit "0") || negb (bool_decide (head s = Some 48%N)))) (seq 0 256) = true)
    as H by (vm_compute; reflexivity).
  rewrite forallb_forall in H. specialize (H (Z.to_nat n)). rewrite Z2Nat.id in H by lia.
  assert (In (Z.to_nat n) (seq 0 256)) as Hin by (apply in_seq; lia). specialize (H Hin).
  apply andb_prop in H as [H1%Nat.leb_le H2]. split; [done|]. intros Hz. reflect_bools; done.
Qed.

Lemma parse_octet_str n : 0 ≤ n < 256 → parse_octet (str_int n) = Some n.
Proof.
  intros Hn. unfold parse_octet. destruct (str_int_small n Hn) as [Hl Hz].
  rewrite str_int_digits by lia. destruct (Nat.ltb_spec 3 (length (str_int n))); [lia|]. simpl.
  assert (negb (bool_decide (str_int n = lit "0")) && bool_decide (head (str_int n) = Some 48%N) = false) as ->.
  { destruct (bool_decide (str_int n = lit "0")) eqn:E; [done|]. simpl. apply bool_decide_eq_false_2, Hz.
    by apply bool_decide_eq_false_1 in E. }
  rewrite parse_str_int by lia. destruct (Z.leb_spec n 255); [done|lia].
Qed.

Lemma str_int_free n c : 0 ≤ n → (c < 48)%N ∨ (57 < c)%N → c ∉ str_int n.
Proof. intros Hn Hc Hin. apply str_int_chars in Hin; lia. Qed.

Lemma mapM_fmap_Some {A B} (f : B → option A) (g : A → B) l : Forall (λ x, f (g x) = Some x) l → mapM f (g <$> l) = Some l.
Proof.
  intros H. apply mapM_Some. rewrite Forall2_fmap_l. by apply Forall_Forall2_diag.
Qed.

Lemma join_free c sep parts : c ∉ sep → Forall (λ p, c ∉ p) parts → c ∉ join sep parts.
Proof.
  intros Hs H. induction H as [|p ps Hp Hps IH]; simpl; [set_solver|]. destruct ps; [done|].
  rewrite !elem_of_app. tauto.
Qed.

Lemma str_ipv4_free ip c : ((c < 46) ∨ (57 < c) ∨ c = 47)%N → c ∉ str_ipv4 ip.
Proof.
  intros Hc. apply join_free; [unfold lit; simpl; intros ?%list_elem_of_singleton; lia|].
  apply Forall_fmap. eapply Forall_impl; [apply (chunks_bound 256 4 ip); lia|]. simpl. intros x Hx.
  apply str_int_free; lia.
Qed.

Lemma ipv4_roundtrip ip : 0 ≤ ip < 2 ^ 32 → ipv4_from_string (str_ipv4 ip) = Some ip.
Proof.
  intros Hip. unfold ipv4_from_string. rewrite (proj2 (contains_false 47 _)) by (apply str_ipv4_free; lia).
  pose proof (chunks_bound 256 4 ip ltac:(lia)) as Hb.
  unfold str_ipv4. change (lit ".") with [46%N]. rewrite split_join.
  - rewrite length_fmap, chunks_length. simpl (4 =? 4)%nat. cbv iota.
    rewrite mapM_fmap_Some by (eapply Forall_impl; [exact Hb|]; simpl; intros; by apply parse_octet_str).
    simpl. f_equal. exact (from_chunks_chunks 256 4 ip ltac:(lia) Hip).
  - intros H%fmap_nil_inv. by apply (f_equal length) in H; rewrite chunks_length in H.
  - apply Forall_fmap. eapply Forall_impl; [exact Hb|]. simpl. intros x Hx. apply str_int_free; lia.
Qed.

(** A text with a character no octet has is not an IPv4 address. *)
Lemma ipv4_rejects s c : c ∈ s → c ≠ 46%N → is_digit c = false → ipv4_from_string s = None.
Proof.
  intros Hc Hdot Hdig. unfold ipv4_from_string. destruct (contains 47 s); [done|].
  destruct (split_on_elem 46 s c Hc Hdot) as (p & Hp & Hcp).
  destruct (length (split_on 46 s) =? 4)%nat; [|done].
  assert (mapM parse_octet (split_on 46 s) = None) as ->; [|done].
  apply mapM_None. apply Exists_exists. exists p. split; [done|]. unfold parse_octet, ascii_digits.
  assert (forallb is_digit p = false) as ->.
  { apply not_true_is_false. intros H. rewrite forallb_forall in H. apply list_elem_of_In in Hcp. by rewrite (H c Hcp) in Hdig. }
  by rewrite andb_false_r.
Qed.

(** ** Reading back an IPv6 address *)

Lemma parse_hextet_hex n : 0 ≤ n < 65536 → parse_hextet (hex_int n) = Some n.
Proof.
  intros Hn. unfold parse_hextet.
  assert (length (hex_int n) ≤ 4)%nat as Hl.
  { unfold hex_int, enough. rewrite (radix_fuel 16 _ 3 n); [apply radix_length; lia|lia|lia| |simpl; lia].
    apply (enough_spec n 16); lia. }
  destruct (Nat.ltb_spec 4 (length (hex_int n))); [lia|].
  rewrite bool_decide_eq_false_2 by apply radix_ne. simpl. apply parse_hex_int. lia.
Qed.

Lemma lor_shiftl16 acc x : 0 ≤ x < 65536 → Z.lor (Z.shiftl acc 16) x = acc * 65536 + x.
Proof.
  intros Hx. pose proof (Z.add_lor_land (Z.shiftl acc 16) x) as E.
  assert (Z.land (Z.shiftl acc 16) x = 0) as Hz.
  { apply Z.bits_inj'. intros i Hi. rewrite Z.land_spec, Z.bits_0. destruct (Z.ltb_spec i 16).
    - by rewrite Z.shiftl_spec_low by lia.
    - rewrite (above_bits x 16 i) by lia. apply andb_false_r. }
  rewrite Z.shiftl_mul_pow2 in * by lia. lia.
Qed.

Lemma read_hextets_spec acc ps hs : Forall2 (λ p h, parse_hextet p = Some h ∧ 0 ≤ h < 65536) ps hs →
  read_hextets acc ps = Some (foldl (λ acc x, acc * 65536 + x) acc hs).
Proof.
  intros H. unfold read_hextets. assert (mapM parse_hextet ps = Some hs) as ->.
  { apply mapM_Some. eapply Forall2_impl; [exact H|]. by intros ?? [? _]. }
  simpl. f_equal. revert acc. induction H as [|p h ps hs [_ Hh] _ IH]; intros acc; simpl; [done|].
  by rewrite lor_shiftl16, IH.
Qed.

(** The run that is compressed is a run of zeros. *)
Definition all_flags : list (list bool) :=
  Nat.iter 8 (λ ls, (ls ≫= λ l, [true :: l; false :: l])) [[]].
Definition run_ok (zeros : list bool) : bool :=
  let '(start, len) := best_run zeros in
  (len <=? 1)%nat || (start + len <=? 8)%nat && forallb id (take len (drop start zeros)).

Lemma all_flags_complete zeros : length zeros = 8%nat → zeros ∈ all_flags.
Proof.
  intros H. do 8 (destruct zeros as [|[] zeros]; [discriminate H| |]).
  all: destruct zeros; [|discriminate H].
  all: apply (bool_decide_unpack _); vm_compute; exact I.
Qed.

Lemma best_run_zeros zeros : length zeros = 8%nat → run_ok zeros = true.
Proof.
  intros H. assert (forallb run_ok all_flags = true) as Hall by (vm_compute; reflexivity).
  rewrite forallb_forall in Hall. apply Hall, list_elem_of_In, all_flags_complete, H.
Qed.

Lemma hex_zero h : 0 ≤ h → hex_int h = lit "0" → h = 0.
Proof. intros Hh E. pose proof (parse_hex_int h Hh) as H. rewrite E in H. vm_compute in H. congruence. Qed.

Section Compressed.
  Context (h0 h1 h2 h3 h4 h5 h6 h7 : Z) (s0 s1 s2 s3 s4 s5 s6 s7 : pystr).
  Context (H0 : parse_hextet s0 = Some h0 ∧ 0 ≤ h0 < 65536) (H1 : parse_hextet s1 = Some h1 ∧ 0 ≤ h1 < 65536).
  Context (H2 : parse_hextet s2 = Some h2 ∧ 0 ≤ h2 < 65536) (H3 : parse_hextet s3 = Some h3 ∧ 0 ≤ h3 < 65536).
  Context (H4 : parse_hextet s4 = Some h4 ∧ 0 ≤ h4 < 65536) (H5 : parse_hextet s5 = Some h5 ∧ 0 ≤ h5 < 65536).
  Context (H6 : parse_hextet s6 = Some h6 ∧ 0 ≤ h6 < 65536) (H7 : parse_hextet s7 = Some h7 ∧ 0 ≤ h7 < 65536).

Let hextets := [h0; h1; h2; h3; h4; h5; h6; h7].
Let strings := [s0; s1; s2; s3; s4; s5; s6; s7].

Lemma compressed_parts start len :
  (1 < len)%nat → (start + len ≤ 8)%nat → take len (drop start hextets) = replicate len 0 →
  ipv6_from_parts
    (let strings' := if (start + len =? 8)%nat then strings ++ [[]] else strings in
     let strings'' := take start strings' ++ [[]] ++ drop (start + len) strings' in
     if (start =? 0)%nat then [] :: strings'' else strings'') = Some (from_chunks 65536 hextets).
Proof.
  intros Hlen Hend Hz.
  destruct s0, s1, s2, s3, s4, s5, s6, s7; try (by destruct H0 + destruct H1 + destruct H2 + destruct H3);
    try (by destruct H4 + destruct H5 + destruct H6 + destruct H7).
  do 8 (try (destruct start as [|start]; try lia)); do 9 (try (destruct len as [|len]; try lia)).
  all: unfold hextets in Hz; simpl in Hz; injection Hz as; subst.
  all: cbn -[read_hextets Z.mul Z.add Z.shiftl].
  all: repeat (erewrite read_hextets_spec by (repeat (constructor; [eassumption|]); constructor); cbn -[Z.mul Z.add Z.shiftl]).
  all: repeat match goal with
       | |- context [bool_decide ?P] => first [change (bool_decide P) with true | change (bool_decide P) with false]
       end.
  all: f_equal; rewrite ?Z.shiftl_mul_pow2 by lia; unfold hextets, from_chunks; cbn -[Z.mul Z.add Z.pow]; simpl (2 ^ _); lia.
Qed.
End Compressed.

Lemma ipv6_parts_roundtrip hs : length hs = 8%nat → Forall (λ h, 0 ≤ h < 65536) hs →
  ipv6_from_parts (compress_hextets (hex_int <$> hs)) = Some (from_chunks 65536 hs).
Proof.
  intros Hl Hb.
  assert (Forall (λ h, parse_hextet (hex_int h) = Some h ∧ 0 ≤ h < 65536) hs) as Hp.
  { eapply Forall_impl; [exact Hb|]. intros h Hh. split; [by apply parse_hextet_hex|done]. }
  pose proof (best_run_zeros ((λ h, bool_decide (hex_int h = lit "0")) <$> hs)) as Hrun.
  rewrite length_fmap in Hrun. specialize (Hrun Hl). unfold run_ok in Hrun.
  unfold compress_hextets. rewrite <-list_fmap_compose. unfold compose.
  destruct (best_run _) as [start len]. rewrite length_fmap, Hl.
  destruct (Nat.ltb_spec 1 len) as [Hlen|Hlen].
  - destruct (Nat.leb_spec len 1); [lia|]. simpl in Hrun. apply andb_prop in Hrun as [Hend%Nat.leb_le Hz].
    assert (take len (drop start hs) = replicate len 0) as Hzero.
    { symmetry. apply replicate_as_elem_of. rewrite length_take, length_drop. split; [lia|]. intros h Hh.
      rewrite <-fmap_drop, <-fmap_take in Hz.
      rewrite forallb_forall in Hz. specialize (Hz (bool_decide (hex_int h = lit "0"))).
      rewrite <-list_elem_of_In in Hz.
      assert (bool_decide (hex_int h = lit "0") ∈ (λ h, bool_decide (hex_int h = lit "0")) <$> take len (drop start hs)) as Hin
        by (apply list_elem_of_fmap; by exists h).
      specialize (Hz Hin). simpl in Hz. apply bool_decide_eq_true in Hz. apply hex_zero; [|done].
      pose proof (Forall_take _ len _ (Forall_drop _ start _ Hb)) as Hb'. rewrite Forall_forall in Hb'.
      by apply Hb' in Hh as [? _]. }
    do 8 (destruct hs as [|? hs]; [discriminate Hl|]). destruct hs; [|discriminate Hl].
    repeat match goal with H : Forall _ (_ :: _) |- _ => inversion H; clear H; subst end.
    eapply compressed_parts; eassumption || lia.
  - unfold ipv6_from_parts. rewrite length_fmap, Hl. simpl (9 <? 8)%nat. cbv iota.
    do 8 (destruct hs as [|? hs]; [discriminate Hl|]). destruct hs; [|discriminate Hl].
    repeat match goal with H : Forall _ (_ :: _) |- _ => inversion H; clear H; subst end.
    assert (∀ h, hex_int h ≠ []) as Hne by (intros h; apply radix_ne).
    unfold skip_index. simpl. rewrite !(bool_decide_eq_false_2 (hex_int _ = [])) by apply Hne. simpl.
    rewrite !bool_decide_eq_false_2 by (intros [= E]; by apply Hne in E). simpl.
    apply read_hextets_spec. repeat (constructor; [split; [by apply parse_hextet_hex|done]|]). constructor.
Qed.

Lemma compress_elem hs p : p ∈ compress_hextets hs → p = [] ∨ p ∈ hs.
Proof.
  unfold compress_hextets. destruct (best_run _) as [start len]. destruct (1 <? len)%nat; [|tauto].
  assert (∀ q, q ∈ (if (start + len =? length hs)%nat then hs ++ [[]] else hs) → q = [] ∨ q ∈ hs) as Hq.
  { intros q. destruct (_ =? _)%nat; [rewrite elem_of_app, list_elem_of_singleton|]; tauto. }
  intros H. assert (p = [] ∨ p ∈ take start (if (start + len =? length hs)%nat then hs ++ [[]] else hs) ∨
    p ∈ drop (start + len) (if (start + len =? length hs)%nat then hs ++ [[]] else hs)) as [?|[Hp|Hp]].
  { destruct (start =? 0)%nat; rewrite ?elem_of_cons, !elem_of_app, list_elem_of_singleton in H; tauto. }
  - by left.
  - apply Hq. eapply subseteq_take. exact Hp.
  - apply Hq. eapply subseteq_drop. exact Hp.
Qed.

Lemma hextet_parts_free ip c : ((c < 48) ∨ (57 < c < 97) ∨ (102 < c))%N →
  Forall (λ p, c ∉ p) (compress_hextets (hex_int <$> chunks 65536 8 ip)).
Proof.
  intros Hc. apply Forall_forall. intros p [->|Hp]%compress_elem; [set_solver|].
  apply list_elem_of_fmap in Hp as (h & -> & Hh). intros Hin. pose proof (chunks_bound 65536 8 ip ltac:(lia)) as Hb.
  rewrite Forall_forall in Hb. apply Hb in Hh. apply hex_int_chars in Hin; lia.
Qed.

Lemma hextet_string_free ip c : ((c < 48) ∨ (58 < c < 97) ∨ (102 < c))%N → c ∉ string_from_ip_int ip.
Proof.
  intros Hc. apply join_free; [unfold lit; simpl; intros ?%list_elem_of_singleton; lia|].
  apply hextet_parts_free. lia.
Qed.

Lemma ipv6_from_parts_length parts ip : ipv6_from_parts parts = Some ip → (3 ≤ length parts)%nat.
Proof.
  destruct parts as [|p [|q [|r parts]]]; simpl; try lia; unfold ipv6_from_parts, skip_index; by simpl.
Qed.

Lemma ipv6_string_roundtrip ip : 0 ≤ ip < 2 ^ 128 → ipv6_from_string (string_from_ip_int ip) = Some ip.
Proof.
  intros Hip. unfold ipv6_from_string, string_from_ip_int.
  set (parts := compress_hextets (hex_int <$> chunks 65536 8 ip)).
  assert (ipv6_from_parts parts = Some ip) as Hparts.
  { unfold parts. rewrite ipv6_parts_roundtrip by (apply chunks_length || (apply chunks_bound; lia)).
    f_equal. by apply (from_chunks_chunks 65536 8). }
  pose proof (ipv6_from_parts_length _ _ Hparts) as Hlen. change (lit ":") with [58%N].
  rewrite split_join; [|by intros E; rewrite E in Hlen; simpl in Hlen; lia|apply hextet_parts_free; lia].
  destruct (Nat.ltb_spec (length parts) 3); [lia|].
  assert (contains 46 (default [] (last parts)) = false) as ->; [|done].
  pose proof (hextet_parts_free ip 46 ltac:(lia)) as Hf. fold parts in Hf. clearbody parts.
  apply contains_false. destruct (last parts) as [p|] eqn:E; [|apply not_elem_of_nil].
  apply last_Some_elem_of in E. rewrite Forall_forall in Hf. by apply Hf.
Qed.

Lemma mapped_prefix : string_from_ip_int 0xffff = lit "::ffff".
Proof. vm_compute. reflexivity. Qed.

Lemma dot_in_ipv4 ip : 46%N ∈ str_ipv4 ip.
Proof. unfold str_ipv4. simpl. set_solver. Qed.

Lemma mapped_string_roundtrip m : 0 ≤ m < 2 ^ 32 →
  ipv6_from_string (lit "::ffff" ++ lit ":" ++ str_ipv4 m) = Some (0xffff00000000 + m).
Proof.
  intros Hm. unfold ipv6_from_string.
  change (lit "::ffff" ++ lit ":" ++ str_ipv4 m) with ([] ++ 58%N :: [] ++ 58%N :: lit "ffff" ++ 58%N :: str_ipv4 m).
  assert (58%N ∉ str_ipv4 m) as Hc by (apply str_ipv4_free; lia).
  assert (58%N ∉ lit "ffff") as Hf by (by apply (bool_decide_unpack _)).
  rewrite !split_on_app by (set_solver || done). rewrite split_on_no by done.
  assert (contains 46 (str_ipv4 m) = true) as Hdot by (apply contains_true, dot_in_ipv4).
  cbn [length Nat.ltb Nat.leb last default]. unfold default, id. rewrite Hdot, ipv4_roundtrip by done.
  cbn [take length Nat.sub app].
  change 0xffff with (2 ^ 16 - 1). rewrite !land_low, Z.shiftr_div_pow2 by lia.
  rewrite (Z.mod_small (m / 2 ^ 16)) by (split; [apply Z.div_pos; lia|apply Z.div_lt_upper_bound; lia]).
  assert (0 ≤ m / 2 ^ 16 < 65536) by (split; [apply Z.div_pos; lia|apply Z.div_lt_upper_bound; lia]).
  pose proof (Z.mod_pos_bound m (2 ^ 16)). pose proof (Z.div_mod m (2 ^ 16)).
  set (a := m / 2 ^ 16) in *. set (b := m mod 2 ^ 16) in *.
  assert (parse_hextet (hex_int a) = Some a) as Ha by (apply parse_hextet_hex; lia).
  assert (parse_hextet (hex_int b) = Some b) as Hb by (apply parse_hextet_hex; lia).
  destruct (hex_int a) as [|ca sa]; [done|]. destruct (hex_int b) as [|cb sb]; [done|].
  cbn -[read_hextets Z.shiftl].
  repeat match goal with
  | |- context [bool_decide ?P] => first [change (bool_decide P) with true | change (bool_decide P) with false]
  end.
  cbn -[read_hextets Z.shiftl Z.mul Z.add].
  rewrite (read_hextets_spec 0 [] []) by constructor. cbn -[read_hextets Z.shiftl Z.mul Z.add].
  rewrite (read_hextets_spec _ _ [0xffff; a; b]).
  - cbn -[Z.mul Z.add Z.shiftl]. rewrite Z.shiftl_0_l. f_equal. lia.
  - repeat (constructor; [split; [done || (vm_compute; reflexivity)|lia]|]). constructor.
Qed.

(** The text of an IPv6 address without its scope. *)
Lemma str_ipv6_spec ip : 0 ≤ ip < 2 ^ 128 →
  ipv6_from_string (str_ipv6 ip) = Some ip ∧ 58%N ∈ str_ipv6 ip ∧
  ∀ c, ((c < 46) ∨ c = 47 ∨ (58 < c < 97) ∨ (102 < c))%N → c ∉ str_ipv6 ip.
Proof.
  intros Hip. unfold str_ipv6. rewrite ipv4_mapped_spec by lia. case_decide as Hm.
  - rewrite Z.shiftr_div_pow2 by lia.
    replace (ip / 2 ^ 32) with 0xffff by (apply (Z.div_unique _ _ _ (ip - 0xffff00000000)); lia).
    rewrite mapped_prefix. simpl ip_int. split; [|split].
    + rewrite mapped_string_roundtrip by lia. f_equal. lia.
    + unfold lit. simpl. set_solver.
    + intros c Hc. change (lit "::ffff" ++ lit ":" ++ str_ipv4 (ip - 0xffff00000000))
        with ([58; 58; 102; 102; 102; 102; 58]%N ++ str_ipv4 (ip - 0xffff00000000)).
      rewrite elem_of_app. intros [H|H].
      * rewrite !elem_of_cons, elem_of_nil in H. lia.
      * revert H. apply str_ipv4_free. lia.
  - split; [by apply ipv6_string_roundtrip|]. split; [|intros c Hc; apply hextet_string_free; lia].
    pose proof (ipv6_string_roundtrip ip Hip) as H. unfold ipv6_from_string in H.
    destruct (decide (58%N ∈ string_from_ip_int ip)) as [|Hn]; [done|]. by rewrite split_on_no in H.
Qed.

(** An address that is printed reads back as itself. *)
Lemma address_roundtrip a : wf_address a → ip_address (str_address a) = Some a.
Proof.
  destruct a as [ip|ip sc]; unfold wf_address, ip_address, str_address; [intros Hip; by rewrite ipv4_roundtrip|].
  intros [Hip Hsc]. destruct (str_ipv6_spec ip Hip) as (Hstr & Hcolon & Hfree).
  pose proof (Hfree 37%N ltac:(lia)) as Hpct. pose proof (Hfree 47%N ltac:(lia)) as Hslash.
  generalize dependent (str_ipv6 ip). intros core Hstr Hcolon _ Hpct Hslash.
  destruct sc as [s|].
  - destruct Hsc as (Hne & Hs1 & Hs2). rewrite (ipv4_rejects _ 58) by (done || set_solver).
    rewrite (proj2 (contains_false 47 _)) by (unfold lit; simpl; set_solver).
    change (lit "%" ++ s) with (37%N :: s). rewrite partition_app by done. simpl.
    rewrite bool_decide_eq_false_2 by done. rewrite (proj2 (contains_false 37 s)) by done. simpl. by rewrite Hstr.
  - rewrite (ipv4_rejects _ 58) by done. rewrite (proj2 (contains_false 47 _)) by done.
    rewrite partition_no by done. simpl. by rewrite Hstr.
Qed.

(** ** What is read is an address *)

Lemma foldl_bound b l acc k : 1 < b → Forall (λ x, 0 ≤ x < b) l → 0 ≤ k → 0 ≤ acc < b ^ k →
  0 ≤ foldl (λ acc x, acc * b + x) acc l < b ^ (k + Z.of_nat (length l)).
Proof.
  intros Hb Hl. revert acc k. induction Hl as [|x l Hx Hl IH]; intros acc k Hk Hacc.
  - cbn. rewrite Z.add_0_r. done.
  - cbn [foldl length]. replace (k + Z.of_nat (S (length l))) with (k + 1 + Z.of_nat (length l)) by lia.
    apply IH; [lia|]. rewrite Z.pow_add_r, Z.pow_1_r by lia. nia.
Qed.

Lemma parse_octet_bound s n : parse_octet s = Some n → 0 ≤ n < 256.
Proof.
  unfold parse_octet. destruct (_ || _); [done|]. destruct (_ && _); [done|].
  destruct (parse_digits s) as [k|] eqn:E; [|done]. destruct (Z.leb_spec k 255); [|done]. intros [= <-].
  apply parse_digits_nonneg in E. lia.
Qed.

Lemma mapM_bound {A} (f : A → option Z) (P : Z → Prop) l k : (∀ x y, f x = Some y → P y) → mapM f l = Some k → Forall P k ∧ length k = length l.
Proof.
  intros Hf H%mapM_Some. split; [|symmetry; by eapply Forall2_length].
  induction H; constructor; eauto.
Qed.

Lemma ipv4_from_string_bound s ip : ipv4_from_string s = Some ip → 0 ≤ ip < 2 ^ 32.
Proof.
  unfold ipv4_from_string. destruct (contains 47 s); [done|]. destruct (length (split_on 46 s) =? 4)%nat eqn:El; [|done].
  apply Nat.eqb_eq in El. destruct (mapM parse_octet (split_on 46 s)) as [k|] eqn:E; [|done]. intros [= <-].
  apply (mapM_bound _ (λ n, 0 ≤ n < 256)) in E as [Hk Hl]; [|apply parse_octet_bound].
  pose proof (foldl_bound 256 k 0 0 ltac:(lia) Hk ltac:(lia) ltac:(simpl; lia)) as H.
  by rewrite Hl, El in H.
Qed.

Lemma hex_step_bound s acc n : 0 ≤ acc → foldl hex_step (Some acc) s = Some n → 0 ≤ n < (acc + 1) * 16 ^ Z.of_nat (length s).
Proof.
  revert acc. induction s as [|c s IH]; intros acc Hacc; [cbn; intros [= <-]; lia|].
  cbn [foldl length]. unfold hex_step at 2. destruct (digit_value c) as [d|] eqn:E.
  - assert (0 ≤ d < 16) as Hd by (unfold digit_value in E; repeat case_match; simplify_eq; reflect_bools; lia).
    intros H%IH; [|lia]. rewrite Nat2Z.inj_succ, Z.pow_succ_r by lia.
    assert (0 < 16 ^ Z.of_nat (length s)) by (apply Z.pow_pos_nonneg; lia). nia.
  - intros H. exfalso. clear -H. induction s; cbn in *; [done|auto].
Qed.

Lemma parse_hextet_bound s n : parse_hextet s = Some n → 0 ≤ n < 65536.
Proof.
  unfold parse_hextet, parse_hex. destruct (Nat.ltb_spec 4 (length s)) as [|Hl]; [done|]. simpl. case_bool_decide; [done|].
  intros [H1 H2]%hex_step_bound; [|lia]. split; [done|].
  assert (16 ^ Z.of_nat (length s) ≤ 16 ^ 4) by (apply Z.pow_le_mono_r; lia). lia.
Qed.

Lemma read_hextets_bound acc ps n k : read_hextets acc ps = Some n → 0 ≤ k → 0 ≤ acc < 65536 ^ k →
  0 ≤ n < 65536 ^ (k + Z.of_nat (length ps)).
Proof.
  unfold read_hextets. destruct (mapM parse_hextet ps) as [hs|] eqn:E; [|done]. intros [= <-] Hk Hacc.
  apply (mapM_bound _ (λ h, 0 ≤ h < 65536)) in E as [Hhs <-]; [|apply parse_hextet_bound].
  assert (foldl (λ acc x, Z.lor (Z.shiftl acc 16) x) acc hs = foldl (λ acc x, acc * 65536 + x) acc hs) as ->.
  { clear Hacc. revert acc. induction Hhs as [|h hs Hh _ IH]; intros acc; cbn [foldl]; [done|]. by rewrite lor_shiftl16, IH. }
  by apply foldl_bound.
Qed.

Lemma ipv6_from_parts_bound parts ip : ipv6_from_parts parts = Some ip → 0 ≤ ip < 2 ^ 128.
Proof.
  change (2 ^ 128) with (65536 ^ 8). unfold ipv6_from_parts. destruct (Nat.ltb_spec 9 (length parts)); [done|].
  destruct (skip_index parts) as [[i|]|]; [|destruct (Nat.eqb_spec (length parts) 8) as [El|]; [|done]|done].
  - set (lo := if bool_decide (last parts = Some []) then _ else _). set (hi := if bool_decide (head parts = Some []) then _ else _).
    destruct (_ || _); [done|]. destruct (Nat.leb_spec 8 (hi + lo)); [done|].
    destruct (read_hextets 0 (take hi parts)) as [high|] eqn:Eh; [|done]. intros Hl.
    apply (read_hextets_bound _ _ _ 0) in Eh; [|lia|simpl; lia]. rewrite length_take in Eh.
    apply (read_hextets_bound _ _ _ (Z.of_nat (8 - lo))) in Hl; [|lia|].
    + rewrite length_drop in Hl. destruct Hl as [? Hl]. split; [done|]. eapply Z.lt_le_trans; [exact Hl|]. apply Z.pow_le_mono_r; lia.
    + rewrite Z.shiftl_mul_pow2 by lia. rewrite Z.pow_mul_r by lia. change (2 ^ 16) with 65536.
      assert (65536 ^ Z.of_nat (8 - lo) = 65536 ^ Z.of_nat hi * 65536 ^ Z.of_nat (8 - (hi + lo))) as ->.
      { rewrite <-Z.pow_add_r by lia. f_equal. lia. }
      assert (65536 ^ (0 + Z.of_nat (hi `min` length parts)) ≤ 65536 ^ Z.of_nat hi) by (apply Z.pow_le_mono_r; lia).
      assert (0 < 65536 ^ Z.of_nat (8 - (hi + lo))) by (apply Z.pow_pos_nonneg; lia). nia.
  - destruct (_ || _); [done|]. intros Hl. apply (read_hextets_bound _ _ _ 0) in Hl; [|lia|simpl; lia]. by rewrite El in Hl.
Qed.

Lemma ip_address_wf s a : ip_address s = Some a → wf_address a.
Proof.
  unfold ip_address. destruct (ipv4_from_string s) as [ip|] eqn:E4; [intros [= <-]; by eapply ipv4_from_string_bound|].
  destruct (contains 47 s) eqn:Es; [done|]. destruct (partition 37 s) as [[addr sep] sc] eqn:Ep.
  destruct (sep && (bool_decide (sc = []) || contains 37 sc)) eqn:Eb; [done|].
  destruct (ipv6_from_string addr) as [ip|] eqn:E6; [|done]. intros [= <-]. split.
  - unfold ipv6_from_string in E6. destruct (length (split_on 58 addr) <? 3)%nat; [done|].
    destruct (contains 46 (default [] (last (split_on 58 addr)))).
    + destruct (ipv4_from_string (default [] (last (split_on 58 addr)))); [by eapply ipv6_from_parts_bound|discriminate].
    + by eapply ipv6_from_parts_bound.
  - destruct sep; [|done]. simpl in Eb. apply orb_false_iff in Eb as [H1%bool_decide_eq_false_1 H2%contains_false].
    split; [done|]. split; [done|]. apply contains_false in Es. apply partition_spec in Ep as (_ & -> & _).
    intros Hin. apply Es. apply elem_of_app. right. by right.
Qed.

#[global] Arguments str_ipv4 : simpl never.
#[global] Arguments str_ipv6 : simpl never.
#[global] Arguments str_int : simpl never.
#[global] Arguments hex_int : simpl never.
#[global] Arguments string_from_ip_int : simpl never.
