(* ===== verification/PyUrl.v ===== *)
(** * Python's [urllib.parse]

    [urlsplit], [urlparse], the properties of their results and putting a URL
    with a network location back together, as Python 3.13 does.  [lower] is
    [str.lower] and [nfkc] is [unicodedata.normalize('NFKC', _)], both on any
    text.  The main lemma: replacing the network location of a URL and splitting
    the result gives the new location and leaves the other parts. *)

From S2P Require Import Prelude PyStr PyText PyIp.

Record SplitResult : Type := mkSplit {
  scheme : pystr;
  netloc : pystr;
  path : pystr;
  query : pystr;
  fragment : pystr;
}.
#[export] Instance SplitResult_eq_dec : EqDecision SplitResult.
Proof. solve_decision. Defined.

(** The leading C0 controls and spaces are dropped; then every tab, carriage
    return and newline. *)
Fixpoint lstrip_c0 (s : pystr) : pystr :=
  match s with
  | c :: s' => if (c <=? 32)%N then lstrip_c0 s' else s
  | [] => []
  end.
Definition unsafe_byte (c : N) : bool := ((c =? 9) || (c =? 13) || (c =? 10))%N.
Definition clean_url (s : pystr) : pystr := filter (λ c, unsafe_byte c = false) (lstrip_c0 s).

Definition is_alpha (c : N) : bool := (((65 <=? c) && (c <=? 90)) || ((97 <=? c) && (c <=? 122)))%N.
Definition scheme_char (c : N) : bool := is_alpha c || is_digit c || bool_decide (c ∈ [43; 45; 46]%N).

(** The scheme, if the text before the first colon is one, and the rest. *)
Definition split_scheme (url : pystr) : pystr * pystr :=
  let '(before, found, after) := partition 58 url in
  match before with
  | c :: _ => if found && is_alpha c && forallb scheme_char before then (ascii_lower before, after) else ([], url)
  | [] => ([], url)
  end.

(** Up to the first character of [stops]. *)
Fixpoint span_until (stops : list N) (s : pystr) : pystr * pystr :=
  match s with
  | [] => ([], [])
  | c :: s' => if bool_decide (c ∈ stops) then ([], s) else let '(a, b) := span_until stops s' in (c :: a, b)
  end.

Definition hex_digits (s : pystr) : bool := negb (bool_decide (s = [])) && forallb (λ c, bool_decide (is_Some (digit_value c))) s.

(** [_check_bracketed_host]; [false] is [ValueError]. *)
Definition bracketed_host_ok (hostname : pystr) : bool :=
  match hostname with
  | 118%N :: rest =>
      let '(version, found, address) := partition 46 rest in
      hex_digits version && found && negb (bool_decide (address = []))
  | _ => match ip_address hostname with Some (IPv6Address _ _) => true | _ => false end
  end.

(** [_check_bracketed_netloc] *)
Definition bracketed_netloc_ok (n : pystr) : bool :=
  let hostname_and_port := (rpartition 64 n).2 in
  let '(before_bracket, have_open_br, bracketed) := partition 91 hostname_and_port in
  if have_open_br then
    let '(hostname, _, port) := partition 93 bracketed in
    bool_decide (before_bracket = []) &&
    (bool_decide (port = []) || bool_decide (head port = Some 58%N)) && bracketed_host_ok hostname
  else bracketed_host_ok (partition 58 hostname_and_port).1.1.

Definition netloc_brackets_ok (n : pystr) : bool :=
  if negb (Bool.eqb (contains 91 n) (contains 93 n)) then false
  else if contains 91 n then bracketed_netloc_ok n else true.

Section Url.
Context (lower nfkc : pystr → pystr).

(** [_checknetloc] *)
Definition netloc_nfkc_ok (n : pystr) : bool :=
  if ascii_only n then true
  else let plain := filter (λ c, c ∉ [64; 58; 35; 63]%N) n in
       bool_decide (nfkc plain = plain) || negb (existsb (λ c, bool_decide (c ∈ [47; 63; 35; 64; 58]%N)) (nfkc plain)).

(** The network location of a text that starts with [//], and the rest. *)
Definition split_netloc (rest : pystr) : pystr * pystr :=
  match rest with
  | 47%N :: 47%N :: rest' => span_until [47; 63; 35]%N rest'
  | _ => ([], rest)
  end.

(** [urlsplit(url)]; [None] is [ValueError]. *)
Definition urlsplit (url : pystr) : option SplitResult :=
  let '(sch, rest) := split_scheme (clean_url url) in
  let '(n, rest) := split_netloc rest in
  if negb (netloc_brackets_ok n) then None
  else
    let '(rest, _, frag) := partition 35 rest in
    let '(pth, _, qry) := partition 63 rest in
    if netloc_nfkc_ok n then Some (mkSplit sch n pth qry frag) else None.

(** [_hostinfo]: the host and the text of the port. *)
Definition hostinfo (n : pystr) : pystr * pystr :=
  let hostinfo := (rpartition 64 n).2 in
  let '(_, have_open_br, bracketed) := partition 91 hostinfo in
  if have_open_br then
    let '(hostname, _, port) := partition 93 bracketed in (hostname, (partition 58 port).2)
  else let '(hostname, _, port) := partition 58 hostinfo in (hostname, port).

(** [parts.hostname]; [None] for an empty host. *)
Definition hostname (p : SplitResult) : option pystr :=
  let host := (hostinfo p.(netloc)).1 in
  if bool_decide (host = []) then None
  else let '(name, percent, zone) := partition 37 host in
       Some (lower name ++ (if percent then 37%N :: zone else [])).

(** [parts.port]: [Ok None] without one, [Raise tt] for [ValueError]. *)
Definition port (p : SplitResult) : result unit (option Z) :=
  let text := (hostinfo p.(netloc)).2 in
  if bool_decide (text = []) then Ok None
  else if negb (ascii_digits text) then Raise tt
  else match parse_digits text with
       | Some n => if n <=? 65535 then Ok (Some n) else Raise tt
       | None => Raise tt
       end.

(** [parts.username is not None or parts.password is not None] *)
Definition has_userinfo (p : SplitResult) : bool := contains 64 p.(netloc).

(** [urlunsplit] of parts with a network location. *)
Definition urlunsplit (p : SplitResult) : pystr :=
  let url := match p.(path) with
             | [] => []
             | 47%N :: _ => p.(path)
             | _ => 47%N :: p.(path)
             end in
  let url := lit "//" ++ p.(netloc) ++ url in
  let url := if bool_decide (p.(scheme) = []) then url else p.(scheme) ++ lit ":" ++ url in
  let url := if bool_decide (p.(query) = []) then url else url ++ lit "?" ++ p.(query) in
  if bool_decide (p.(fragment) = []) then url else url ++ lit "#" ++ p.(fragment).

(** The parameters [urlparse] takes out of the last segment of the path, for
    the schemes that have them. *)
Definition uses_params (s : pystr) : bool :=
  bool_decide (s ∈ lit <$> [""; "ftp"; "hdl"; "prospero"; "http"; "imap"; "https"; "shttp"; "rtsp"; "rtspu"; "sip"; "sips";
                            "mms"; "sftp"; "tel"]%string).
Definition split_params (url : pystr) : pystr * pystr :=
  let '(before, found, segment) := rpartition 47 url in
  let '(name, semi, params) := partition 59 segment in
  if semi then ((if found then before ++ [47%N] else []) ++ name, params) else (url, []).

(** [urlparse(url)._replace(netloc=n).geturl()], from the parts. *)
Definition with_netloc (p : SplitResult) (n : pystr) : SplitResult :=
  let '(pth, params) :=
    if uses_params p.(scheme) && contains 59 p.(path) then split_params p.(path) else (p.(path), []) in
  mkSplit p.(scheme) n (if bool_decide (params = []) then pth else pth ++ lit ";" ++ params) p.(query) p.(fragment).
End Url.

Example url_parts :
  let p := urlsplit id (lit " https://user:pw@Example.com:8443/a/b;x?q=1#frag") in
  (λ p, (scheme p, hostname ascii_lower p, port p, path p, query p, fragment p)) <$> p =
    Some (lit "https", Some (lit "example.com"), Ok (Some 8443), lit "/a/b;x", lit "q=1", lit "frag") ∧
  urlsplit id (lit "http://[::1") = None ∧ urlsplit id (lit "http://[1.2.3.4]/") = None ∧
  (hostname ascii_lower <$> urlsplit id (lit "http://[FE80::1%Eth0]:80/")) = Some (Some (lit "fe80::1%Eth0")).
Proof. vm_compute. repeat split; reflexivity. Qed.

(** * Replacing the network location of a URL *)

(** What the parts of a split URL with a scheme and a network location are. *)
Definition rooted (s : pystr) : Prop := s = [] ∨ head s = Some 47%N.
Record split_ok (p : SplitResult) : Prop := {
  so_scheme : ∃ c s, scheme p = c :: s ∧ is_alpha c = true;
  so_scheme_chars : Forall (λ c, scheme_char c = true) (scheme p);
  so_scheme_lower : ascii_lower (scheme p) = scheme p;
  so_path : rooted (path p) ∧ 63%N ∉ path p ∧ 35%N ∉ path p;
  so_query : 35%N ∉ query p;
  so_safe : Forall (λ c, unsafe_byte c = false) (path p ++ query p ++ fragment p);
}.

(** A location a URL can be given. *)
Record netloc_ok (n : pystr) : Prop := {
  no_delims : 47%N ∉ n ∧ 63%N ∉ n ∧ 35%N ∉ n;
  no_unsafe : Forall (λ c, unsafe_byte c = false) n;
  no_nonascii : ascii_only n = true;
  no_brackets : netloc_brackets_ok n = true;
}.

Lemma ascii_lower_idem s : ascii_lower (ascii_lower s) = ascii_lower s.
Proof.
  unfold ascii_lower. rewrite <-list_fmap_compose. apply list_fmap_ext. intros i c _. unfold compose.
  destruct ((65 <=? c)%N && (c <=? 90)%N) eqn:E; [|by rewrite E].
  apply andb_prop in E as [?%N.leb_le ?%N.leb_le].
  destruct ((65 <=? c + 32)%N && (c + 32 <=? 90)%N) eqn:E'; [|done]. apply andb_prop in E' as [_ ?%N.leb_le]. lia.
Qed.

Lemma lower_alpha c : is_alpha c = true → is_alpha (if ((65 <=? c) && (c <=? 90))%N then (c + 32)%N else c) = true.
Proof.
  intros H. destruct ((65 <=? c) && (c <=? 90))%N eqn:E; [|done]. apply andb_prop in E as [?%N.leb_le ?%N.leb_le].
  unfold is_alpha. apply orb_true_iff. right. apply andb_true_iff. rewrite !N.leb_le. lia.
Qed.
Lemma lower_scheme_char c : scheme_char c = true →
  scheme_char (if ((65 <=? c) && (c <=? 90))%N then (c + 32)%N else c) = true.
Proof.
  intros H. destruct ((65 <=? c) && (c <=? 90))%N eqn:E; [|done]. unfold scheme_char. apply orb_true_iff. left.
  apply orb_true_iff. left. pose proof (lower_alpha c) as Hl. rewrite E in Hl. apply Hl. unfold is_alpha. by rewrite E.
Qed.

Lemma lower_scheme l : forallb scheme_char l = true → Forall (λ c, scheme_char c = true) (ascii_lower l).
Proof.
  intros H. apply Forall_fmap, Forall_forall. intros d Hd. apply lower_scheme_char.
  rewrite forallb_forall in H. by apply H, list_elem_of_In.
Qed.

Lemma span_until_spec stops s a b : span_until stops s = (a, b) →
  s = a ++ b ∧ (∀ c, c ∈ stops → c ∉ a) ∧ (b = [] ∨ ∃ c b', b = c :: b' ∧ c ∈ stops).
Proof.
  revert a b. induction s as [|c s IH]; simpl; intros a b; [intros [= <- <-]; set_solver|].
  case_bool_decide as Hc; [intros [= <- <-]; set_solver|].
  destruct (span_until stops s) as [a' b'] eqn:E. intros [= <- <-].
  destruct (IH _ _ eq_refl) as (-> & Hno & Hb). split; [done|]. split; [set_solver|done].
Qed.

Lemma span_until_app stops a b : (∀ c, c ∈ stops → c ∉ a) → (b = [] ∨ ∃ c b', b = c :: b' ∧ c ∈ stops) →
  span_until stops (a ++ b) = (a, b).
Proof.
  intros Ha Hb. induction a as [|c a IH]; simpl.
  - destruct Hb as [->|(c & b' & -> & Hc)]; simpl; [done|]. by rewrite bool_decide_eq_true_2.
  - rewrite bool_decide_eq_false_2 by set_solver. rewrite IH by set_solver. done.
Qed.

Lemma split_netloc_spec after n rest : split_netloc after = (n, rest) → n ≠ [] →
  ∃ x, after = x ++ rest ∧ (rest = [] ∨ ∃ c b, rest = c :: b ∧ c ∈ [47; 63; 35]%N).
Proof.
  intros E Hn. destruct (decide (take 2 after = [47; 47]%N)) as [Ht|Ht].
  - destruct after as [|a [|b after]]; simplify_eq/=. apply span_until_spec in E as (-> & _ & Hb).
    exists ([47%N; 47%N] ++ n). split; [by rewrite <-app_assoc|done].
  - unfold split_netloc in E. repeat case_match; simplify_eq/=; done.
Qed.

Lemma split_netloc_app n rest : (47%N ∉ n ∧ 63%N ∉ n ∧ 35%N ∉ n) →
  (rest = [] ∨ ∃ c b, rest = c :: b ∧ c ∈ [47; 63; 35]%N) → split_netloc (47%N :: 47%N :: n ++ rest) = (n, rest).
Proof. intros Hn Hr. simpl. apply span_until_app; [|done]. set_solver. Qed.

Lemma filter_id {A} (P : A → Prop) `{!∀ x, Decision (P x)} l : Forall P l → filter P l = l.
Proof. induction 1; [done|]. rewrite filter_cons_True by done. by f_equal. Qed.

(** The parts of what [urlsplit] returns. *)
Lemma urlsplit_ok nfkc url p : urlsplit nfkc url = Some p → scheme p ≠ [] → netloc p ≠ [] → split_ok p.
Proof.
  unfold urlsplit. destruct (split_scheme (clean_url url)) as [sch rest] eqn:Es.
  destruct (split_netloc rest) as [n rest'] eqn:En.
  destruct (negb (netloc_brackets_ok n)); [done|].
  destruct (partition 35 rest') as [[rest'' b1] frag] eqn:Ef. destruct (partition 63 rest'') as [[pth b2] qry] eqn:Eq.
  destruct (netloc_nfkc_ok nfkc n); [|done]. intros [= <-]; simpl. intros Hsch Hn.
  assert (Forall (λ c, unsafe_byte c = false) (clean_url url)) as Hclean
    by (apply Forall_forall; intros c Hc; by apply list_elem_of_filter in Hc as [? _]).
  unfold split_scheme in Es. destruct (partition 58 (clean_url url)) as [[before found] after] eqn:Ep.
  destruct before as [|c before]; [by simplify_eq|].
  destruct (found && is_alpha c && forallb scheme_char (c :: before)) eqn:Eb; [|by simplify_eq].
  apply andb_prop in Eb as [[-> Hal]%andb_prop Hchars]. injection Es as <- <-.
  apply partition_spec in Ep as (_ & Hurl & _).
  assert (Forall (λ c, unsafe_byte c = false) after) as Hafter.
  { rewrite Hurl in Hclean. apply Forall_app in Hclean as [_ H]. by inversion H. }
  destruct (split_netloc_spec _ _ _ En Hn) as (x & Hx & Hroot).
  clear En. rewrite Hx in Hafter. apply Forall_app in Hafter as [_ Hrest].
  apply partition_spec in Ef as (H35 & Hr1 & Hf1). apply partition_spec in Eq as (H63 & Hr2 & Hf2). subst rest''.
  split; simpl.
  - eexists _, _. split; [done|]. by apply lower_alpha.
  - exact (lower_scheme (c :: before) Hchars).
  - apply (ascii_lower_idem (c :: before)).
  - split; [|set_solver]. destruct pth as [|d pth]; [by left|right]. simpl.
    destruct Hroot as [->|(d' & b & Hd & Hin)]; [done|]. rewrite Hr1 in Hd. injection Hd as -> _. set_solver.
  - destruct b2; [set_solver|]. by rewrite Hf2; [set_solver|].
  - subst rest'. destruct b1, b2; try (rewrite (Hf1 eq_refl) in *); try (rewrite (Hf2 eq_refl) in *);
      repeat (rewrite ?Forall_app, ?Forall_cons in * ); rewrite ?Forall_nil; intuition.
Qed.

(** Splitting what was put together. *)
Lemma urlsplit_urlunsplit nfkc p : split_ok p → netloc_ok (netloc p) → urlsplit nfkc (urlunsplit p) = Some p.
Proof.
  intros [(c & s & Hs & Hal) Hchars Hlow (Hroot & H63 & H35) Hq Hsafe] [(N1 & N2 & N3) Nsafe Nascii Nbr].
  destruct p as [sch n pth qry frag]; simpl in *. subst sch.
  set (tail := pth ++ (if bool_decide (qry = []) then [] else 63%N :: qry) ++ (if bool_decide (frag = []) then [] else 35%N :: frag)).
  assert (urlunsplit (mkSplit (c :: s) n pth qry frag) = (c :: s) ++ 58%N :: 47%N :: 47%N :: n ++ tail) as ->.
  { unfold urlunsplit, tail; simpl.
    assert (match pth with [] => [] | 47%N :: _ => pth | _ => 47%N :: pth end = pth) as ->.
    { destruct Hroot as [->|Hh]; [done|]. destruct pth; [done|]. by injection Hh as ->. }
    do 2 case_bool_decide; simpl; repeat (rewrite <-!app_assoc; simpl); rewrite ?app_nil_r; done. }
  unfold urlsplit.
  assert (clean_url ((c :: s) ++ 58%N :: 47%N :: 47%N :: n ++ tail) = (c :: s) ++ 58%N :: 47%N :: 47%N :: n ++ tail) as ->.
  { unfold clean_url. cbn [app lstrip_c0]. assert ((c <=? 32)%N = false) as ->.
    { apply N.leb_gt. unfold is_alpha in Hal. repeat match goal with H : _ || _ = true |- _ => apply orb_true_iff in H as [?|?]
        | H : _ && _ = true |- _ => apply andb_true_iff in H as [? ?] | H : (_ <=? _)%N = true |- _ => apply N.leb_le in H end; lia. }
    apply (filter_id (λ c, unsafe_byte c = false)).
    assert (Forall (λ c, unsafe_byte c = false) tail) as Ht.
    { unfold tail. rewrite !Forall_app in *. destruct Hsafe as (? & ? & ?). split; [done|].
      split; case_bool_decide; try (by constructor); by repeat constructor. }
    change (Forall (λ c, unsafe_byte c = false) ((c :: s) ++ 58%N :: 47%N :: 47%N :: n ++ tail)).
    apply Forall_app. split; [|repeat (constructor; [done|]); by apply Forall_app].
    eapply Forall_impl; [exact Hchars|]. intros d Hd. simpl in Hd. destruct (unsafe_byte d) eqn:E; [|done].
    unfold unsafe_byte in E. rewrite !orb_true_iff, !N.eqb_eq in E. by destruct E as [[->| ->]| ->]. }
  assert (58%N ∉ c :: s) as Hcolon by (intros Hin; rewrite Forall_forall in Hchars; by apply Hchars in Hin).
  unfold split_scheme. rewrite partition_app by done. rewrite Hal.
  assert (forallb scheme_char (c :: s) = true) as ->.
  { apply forallb_forall. intros d Hd%list_elem_of_In. rewrite Forall_forall in Hchars. by apply Hchars. }
  cbn [andb]. rewrite Hlow, split_netloc_app; [|done|].
  2: { unfold tail. destruct Hroot as [->|Hh]; [|right; destruct pth; [done|injection Hh as ->; eexists _, _; split; [done|set_solver]]].
       simpl. do 2 case_bool_decide; simpl; eauto; right; eexists _, _; (split; [done|set_solver]). }
  rewrite Nbr. simpl negb. cbv iota.
  assert (partition 35 tail = (pth ++ (if bool_decide (qry = []) then [] else 63%N :: qry), negb (bool_decide (frag = [])), frag)) as ->.
  { assert (35%N ∉ pth ++ (if bool_decide (qry = []) then [] else 63%N :: qry)) as Hno.
    { rewrite not_elem_of_app. split; [done|]. case_bool_decide; [apply not_elem_of_nil|by apply not_elem_of_cons]. }
    unfold tail. rewrite app_assoc. destruct (bool_decide (frag = [])) eqn:Hf; simpl.
    - apply bool_decide_eq_true in Hf. subst frag. by rewrite app_nil_r, partition_no.
    - by rewrite partition_app. }
  assert (partition 63 (pth ++ (if bool_decide (qry = []) then [] else 63%N :: qry)) = (pth, negb (bool_decide (qry = [])), qry)) as ->.
  { case_bool_decide as Hf; simpl; [subst qry; by rewrite app_nil_r, partition_no|by rewrite partition_app]. }
  unfold netloc_nfkc_ok. by rewrite Nascii.
Qed.

(** The path keeps its shape without the parameters of its last segment. *)
Lemma split_params_spec s pth params : split_params s = (pth, params) → rooted s →
  (rooted pth ∧ s = pth ++ (59%N :: params)) ∨ (pth = s ∧ params = []).
Proof.
  unfold split_params, rpartition. destruct (partition 47 (reverse s)) as [[b found] a] eqn:Ep.
  destruct (partition_spec _ _ _ _ _ Ep) as (Hb & Hs & Hnf). apply (f_equal reverse) in Hs. rewrite reverse_involutive in Hs.
  destruct found.
  - rewrite reverse_app, reverse_cons, <-app_assoc in Hs. simpl in Hs.
    destruct (partition 59 (reverse b)) as [[name semi] prm] eqn:Eq. apply partition_spec in Eq as (_ & Hn & _).
    destruct semi; intros [= <- <-] Hr; [left|by right]. split.
    + right. destruct Hr as [->|Hh]; [by destruct (reverse a)|]. rewrite Hs in Hh. by destruct (reverse a).
    + rewrite Hs, Hn. by rewrite <-!app_assoc.
  - rewrite (Hnf eq_refl), app_nil_r in Hs.
    assert (47%N ∉ s) as Hno by (rewrite Hs; by rewrite elem_of_reverse).
    destruct (partition 59 s) as [[name semi] prm] eqn:Eq. apply partition_spec in Eq as (_ & Hn & _).
    destruct semi; intros [= <- <-] Hr; [|by right]. left. split; [|done]. destruct Hr as [->|Hh]; [by destruct name|].
    destruct s; [done|]. injection Hh as ->. destruct Hno. left.
Qed.

(** Replacing the network location keeps the other parts (an empty parameter of
    the last segment is dropped). *)
Definition same_path (s t : pystr) : Prop := s = t ∨ s = t ++ lit ";".

Lemma with_netloc_spec p n : split_ok p →
  let p' := with_netloc p n in
  split_ok p' ∧ scheme p' = scheme p ∧ netloc p' = n ∧ same_path (path p) (path p') ∧ query p' = query p ∧ fragment p' = fragment p.
Proof.
  intros Hok. destruct Hok as [Hs1 Hs2 Hs3 (Hroot & H63 & H35) Hq Hsafe]. unfold with_netloc.
  destruct (if uses_params (scheme p) && contains 59 (path p) then split_params (path p) else (path p, [])) as [pth params] eqn:E.
  assert ((rooted pth ∧ path p = pth ++ (59%N :: params)) ∨ (pth = path p ∧ params = [])) as Hp.
  { destruct (uses_params (scheme p) && contains 59 (path p)); [by apply split_params_spec|]. injection E as <- <-. by right. }
  clear E. assert (rooted (path p) ∧ same_path (path p) (if bool_decide (params = []) then pth else pth ++ lit ";" ++ params) ∧
    rooted (if bool_decide (params = []) then pth else pth ++ lit ";" ++ params) ∧
    ∀ c, c ∈ (if bool_decide (params = []) then pth else pth ++ lit ";" ++ params) → c ∈ path p) as (_ & Hsame & Hr & Hsub).
  { split; [done|]. destruct Hp as [[Hr Hp]|[-> ->]]; [|split; [by left|done]]. rewrite Hp in *. case_bool_decide as Hb.
    - subst params. split; [by right|]. split; [done|]. intros c Hc. apply elem_of_app. by left.
    - change (lit ";" ++ params) with (59%N :: params). split; [by left|]. done. }
  simpl. split; [|done]. split; simpl; try done.
  - split; [done|]. split; intros Hin%Hsub; done.
  - apply Forall_app in Hsafe as [Hsp Hsr]. apply Forall_app. split; [|done]. rewrite Forall_forall in *. intros c Hc. by apply Hsp, Hsub.
Qed.

(** The network location of a split URL has no delimiter and no unsafe byte. *)
Lemma urlsplit_netloc nfkc url p : urlsplit nfkc url = Some p → 
  (47%N ∉ netloc p ∧ 63%N ∉ netloc p ∧ 35%N ∉ netloc p) ∧ Forall (λ c, unsafe_byte c = false) (netloc p) ∧
  (∀ c, c ∈ netloc p → c ∈ url) ∧ netloc_brackets_ok (netloc p) = true.
Proof.
  unfold urlsplit. destruct (split_scheme (clean_url url)) as [sch rest] eqn:Es.
  destruct (split_netloc rest) as [n rest'] eqn:En. destruct (netloc_brackets_ok n) eqn:Eb; [|done]. simpl.
  destruct (partition 35 rest') as [[rest'' b1] frag]. destruct (partition 63 rest'') as [[pth b2] qry].
  destruct (netloc_nfkc_ok nfkc n); [|done]. intros [= <-]; simpl.
  assert (∀ c, c ∈ rest → c ∈ clean_url url) as Hrest.
  { unfold split_scheme in Es. destruct (partition 58 (clean_url url)) as [[before found] after] eqn:Ep.
    destruct before as [|x before]; [by simplify_eq|]. destruct (found && is_alpha x && _) eqn:Ef; [|by simplify_eq].
    injection Es as <- <-. apply andb_prop in Ef as [[-> _]%andb_prop _]. apply partition_spec in Ep as (_ & -> & _).
    intros c Hc. apply elem_of_app. right. by right. }
  assert (∀ c, c ∈ n → c ∈ rest ∧ c ∉ [47; 63; 35]%N) as Hn.
  { destruct (decide (n = [])) as [->|Hne]; [intros c Hc; by apply elem_of_nil in Hc|].
    destruct (decide (take 2 rest = [47; 47]%N)) as [Ht|Ht].
    - destruct rest as [|a [|b rest]]; simplify_eq/=. apply span_until_spec in En as (-> & Hno & _). intros c Hc.
      split; [right; right; apply elem_of_app; by left|]. intros Hin. by apply (Hno c).
    - unfold split_netloc in En. repeat case_match; simplify_eq/=; done. }
  assert (∀ c, c ∈ clean_url url → c ∈ url ∧ unsafe_byte c = false) as Hclean.
  { intros c Hc. unfold clean_url in Hc. apply list_elem_of_filter in Hc as [Hs Hc]. split; [|done].
    clear -Hc. induction url as [|x url IH]; simpl in *; [done|]. destruct (x <=? 32)%N; [right; auto|done]. }
  split; [split_and!; intros Hin%Hn; destruct Hin as [_ Hin]; apply Hin; set_solver|].
  split; [apply Forall_forall; intros c Hc; apply Hn in Hc as [Hc _]; by apply Hclean, Hrest|].
  split; [|done]. intros c Hc. apply Hn in Hc as [Hc _]. by apply Hclean, Hrest.
Qed.

Lemma rpartition_sub c s x : x ∈ (rpartition c s).2 → x ∈ s.
Proof.
  unfold rpartition. destruct (partition c (reverse s)) as [[b f] a] eqn:E. destruct f; simpl; [|done].
  apply partition_spec in E as (_ & E & _). intros H. rewrite elem_of_reverse in H. rewrite <-elem_of_reverse, E. apply elem_of_app. by left.
Qed.

(** The host is a piece of the network location, without a closing bracket or
    without a colon. *)
Lemma hostinfo_host n host text : hostinfo n = (host, text) → (∀ c, c ∈ host → c ∈ n) ∧ (93%N ∉ host ∨ 58%N ∉ host).
Proof.
  unfold hostinfo. destruct (partition 91 (rpartition 64 n).2) as [[b f] br] eqn:E.
  assert (∀ c, c ∈ br → c ∈ n) as Hbr.
  { apply partition_spec in E as (_ & E & Hf). intros c Hc. apply (rpartition_sub 64). rewrite E. apply elem_of_app. right.
    destruct f; [by right|done]. }
  destruct f.
  - destruct (partition 93 br) as [[h f'] t] eqn:E'. intros [= <- _]. apply partition_spec in E' as (H & -> & _).
    split; [|by left]. intros c Hc. apply Hbr, elem_of_app. by left.
  - destruct (partition 58 (rpartition 64 n).2) as [[h f'] t] eqn:E'. intros [= <- _].
    apply partition_spec in E' as (H & E' & _). split; [|by right]. intros c Hc. apply (rpartition_sub 64). rewrite E'. apply elem_of_app. by left.
Qed.
