(* ===== verification/TenantLifecycle.v ===== *)
(** * Tenant lifecycle (saas_os/core/tenancy/lifecycle.py, models.py, and the
    lifecycle guards of service.py)

    The status graph of a tenant with its fences ([is_closed],
    [is_accessible_to_principals]), the [Tenant] row, and the guards the other
    components call before they act for a tenant.  A component that keeps the
    tenant registry in its store declares it through [HasTenants]; the guards
    are defined against that interface. *)

From S2P Require Import Prelude PyStr.

(** ** lifecycle.py *)

Inductive TenantStatus : Type :=
| PENDING | ACTIVE | SUSPENDED | DELETED | PURGING | PURGED.

#[export] Instance TenantStatus_eq_dec : EqDecision TenantStatus.
Proof. solve_decision. Defined.

Definition all_statuses : list TenantStatus :=
  [PENDING; ACTIVE; SUSPENDED; DELETED; PURGING; PURGED].

Definition ALLOWED_TRANSITIONS (s : TenantStatus) : list TenantStatus :=
  match s with
  | PENDING => [ACTIVE; DELETED]
  | ACTIVE => [SUSPENDED; DELETED]
  | SUSPENDED => [ACTIVE; DELETED]
  | DELETED => [PURGING]
  | PURGING => [PURGED]
  | PURGED => []
  end.

Definition CLOSED_STATUSES : list TenantStatus := [DELETED; PURGING; PURGED].

Definition is_closed (s : TenantStatus) : bool := bool_decide (s ∈ CLOSED_STATUSES).

Definition PRINCIPAL_INACCESSIBLE_STATUSES : list TenantStatus := CLOSED_STATUSES ++ [SUSPENDED].

Definition is_accessible_to_principals (s : TenantStatus) : bool :=
  negb (bool_decide (s ∈ PRINCIPAL_INACCESSIBLE_STATUSES)).

(** ** errors.py: the errors the lifecycle raises *)

Inductive tenant_error : Type :=
| InvalidTenantTransitionError (current target : TenantStatus)
| TenantNotFoundError (tenant_id : uuid)
| TenantClosedError (tenant_id : uuid) (status : TenantStatus)
| TenantInaccessibleError (tenant_id : uuid) (status : TenantStatus)
| TenantNotPurgingError (tenant_id : uuid) (status : TenantStatus).

Definition validate_transition (current target : TenantStatus) : result tenant_error unit :=
  if bool_decide (target ∈ ALLOWED_TRANSITIONS current) then Ok tt
  else Raise (InvalidTenantTransitionError current target).

(** ** models.py *)

Record Tenant : Type := mkTenant {
  t_name : pystr;
  t_status : TenantStatus;
  t_parent_id : option uuid;
  t_inherits_billing : bool;
}.

#[export] Instance Tenant_eq_dec : EqDecision Tenant.
Proof. solve_decision. Defined.

(** What a store must offer for the guards: the [core.tenants] table. *)
Class HasTenants (S : Type) : Type := tenants_of : S → gmap uuid Tenant.

(** ** service.py: the guards *)

Section Guards.
  Context {S : Type} `{!HasTenants S}.
  Implicit Types (s : S) (tenant_id : uuid).

Definition get_tenant s tenant_id : result tenant_error Tenant :=
    match tenants_of s !! tenant_id with
    | Some t => Ok t
    | None => Raise (TenantNotFoundError tenant_id)
    end.

Definition require_open_tenant s tenant_id : result tenant_error Tenant :=
    let* tenant := get_tenant s tenant_id in
    let status := t_status tenant in
    if is_closed status then Raise (TenantClosedError tenant_id status) else Ok tenant.

  (** [require_open_tenant] under a share lock of the tenant row. *)
Definition lock_open_tenant s tenant_id : result tenant_error Tenant :=
    match tenants_of s !! tenant_id with
    | None => Raise (TenantNotFoundError tenant_id)
    | Some tenant =>
        let status := t_status tenant in
        if is_closed status then Raise (TenantClosedError tenant_id status) else Ok tenant
    end.

Definition lock_accessible_tenant s tenant_id : result tenant_error Tenant :=
    match tenants_of s !! tenant_id with
    | None => Raise (TenantNotFoundError tenant_id)
    | Some tenant =>
        let status := t_status tenant in
        if negb (is_accessible_to_principals status)
        then Raise (TenantInaccessibleError tenant_id status) else Ok tenant
    end.

Definition require_purging_tenant s tenant_id : result tenant_error Tenant :=
    let* tenant := get_tenant s tenant_id in
    let status := t_status tenant in
    if negb (bool_decide (status ∈ [PURGING; PURGED]))
    then Raise (TenantNotPurgingError tenant_id status) else Ok tenant.

  (** [ORDER BY id] *)
Definition sorted_ids (l : list uuid) : list uuid := merge_sort N.le l.

Definition list_open_tenant_ids s : list uuid :=
    sorted_ids ((filter (λ p : uuid * Tenant, is_closed (t_status p.2) = false)
                   (map_to_list (tenants_of s))).*1).

Definition list_tenant_ids s : list uuid := sorted_ids ((map_to_list (tenants_of s)).*1).

  (** The tenant exists and is open. *)
Definition tenant_open s tenant_id : Prop :=
    ∃ t, tenants_of s !! tenant_id = Some t ∧ is_closed (t_status t) = false.

  (** The tenant exists and is closed. *)
Definition tenant_closed s tenant_id : Prop :=
    ∃ t, tenants_of s !! tenant_id = Some t ∧ is_closed (t_status t) = true.

  (** *** Lemmas *)

Lemma lock_open_tenant_Ok s i t :
    lock_open_tenant s i = Ok t ↔ tenants_of s !! i = Some t ∧ is_closed (t_status t) = false.
  Proof.
    unfold lock_open_tenant. destruct (tenants_of s !! i) as [t'|]; [|split; naive_solver].
    destruct (is_closed (t_status t')) eqn:?; split; intros; simplify_eq; try done.
    - destruct_and!. congruence.
    - destruct_and!. congruence.
  Qed.

Lemma lock_open_tenant_Raise s i e :
    lock_open_tenant s i = Raise e → ¬ tenant_open s i.
  Proof.
    intros H (t & Ht & Ho). assert (lock_open_tenant s i = Ok t) as H' by (by apply lock_open_tenant_Ok).
    congruence.
  Qed.

Lemma require_open_is_lock_open s i : require_open_tenant s i = lock_open_tenant s i.
  Proof. unfold require_open_tenant, lock_open_tenant, get_tenant. by destruct (_ !! i). Qed.

Lemma elem_of_open_ids s i : i ∈ list_open_tenant_ids s ↔ tenant_open s i.
  Proof.
    unfold list_open_tenant_ids, sorted_ids, tenant_open.
    rewrite merge_sort_Permutation, list_elem_of_fmap. split.
    - intros ([j t] & -> & [Hc Ht]%list_elem_of_filter). apply elem_of_map_to_list in Ht. eauto.
    - intros (t & Ht & Hc). exists (i, t). split; [done|].
      apply list_elem_of_filter. split; [done|]. by apply elem_of_map_to_list.
  Qed.

Lemma tenant_open_not_closed s i : tenant_open s i → ¬ tenant_closed s i.
  Proof. intros (t & Ht & Hc) (t' & Ht' & Hc'). congruence. Qed.
End Guards.

(** ** The lifecycle as a step relation *)

Definition lifecycle_step (s s' : TenantStatus) : Prop := validate_transition s s' = Ok tt.

Lemma lifecycle_step_spec s s' : lifecycle_step s s' ↔ s' ∈ ALLOWED_TRANSITIONS s.
Proof. unfold lifecycle_step, validate_transition. case_bool_decide; naive_solver. Qed.

(** How far a tenant is on its way to the tombstone. *)
Definition closing_rank (s : TenantStatus) : Z :=
  match s with PENDING => 0 | ACTIVE | SUSPENDED => 1 | DELETED => 2 | PURGING => 3 | PURGED => 4 end.

Lemma lifecycle_step_rank s s' : lifecycle_step s s' →
  closing_rank s ≤ closing_rank s' ∧
  (is_closed s = true → closing_rank s' = closing_rank s + 1) ∧
  (is_closed s = false → s' ≠ PURGING ∧ s' ≠ PURGED).
Proof.
  rewrite lifecycle_step_spec. destruct s; simpl; rewrite ?elem_of_cons, ?elem_of_nil;
    intros H; destruct_or? H; subst; try done; vm_compute; naive_solver.
Qed.

Lemma lifecycle_step_closed s s' : lifecycle_step s s' → is_closed s = true → is_closed s' = true.
Proof.
  rewrite lifecycle_step_spec. destruct s; simpl; rewrite ?elem_of_cons, ?elem_of_nil;
    intros H; destruct_or? H; by subst.
Qed.

Lemma lifecycle_closed_forever s s' : rtc lifecycle_step s s' → is_closed s = true → is_closed s' = true.
Proof. induction 1; eauto using lifecycle_step_closed. Qed.
#[export] Hint Resolve lifecycle_step_closed lifecycle_closed_forever : saas.

(** The tombstone is reached only through [DELETED] and then [PURGING]:
    a path of lifecycle transitions from an open status to [PURGED] is a path
    to [DELETED] followed by exactly the two purge transitions, and a closed
    status never becomes open again. *)
Theorem purge_path s s' : rtc lifecycle_step s s' →
  (is_closed s = true → is_closed s' = true ∧ closing_rank s ≤ closing_rank s') ∧
  (is_closed s = false → s' = PURGED →
     rtc lifecycle_step s DELETED ∧ lifecycle_step DELETED PURGING ∧ lifecycle_step PURGING PURGED).
Proof.
  intros Hpath. split.
  - intros Hc. split; [by eauto with saas|].
    induction Hpath as [|x y z Hxy _ IH]; [lia|].
    pose proof (lifecycle_step_rank _ _ Hxy) as [? _].
    specialize (IH (lifecycle_step_closed _ _ Hxy Hc)). lia.
  - intros Ho ->. split; [|by split].
    revert Ho. remember PURGED as p eqn:Hp. induction Hpath as [|x y z Hxy _ IH]; intros Ho; [by subst|].
    destruct (is_closed y) eqn:Hy; [|eapply rtc_l; eauto].
    apply rtc_once. pose proof (lifecycle_step_rank _ _ Hxy) as (_ & _ & Hne).
    specialize (Hne Ho) as [? ?]. by destruct y.
Qed.

Lemma purge_path_witness :
  rtc lifecycle_step ACTIVE PURGED ∧ rtc lifecycle_step ACTIVE DELETED.
Proof.
  assert (rtc lifecycle_step ACTIVE PURGED) as H.
  { apply (rtc_l _ ACTIVE DELETED PURGED); [reflexivity|].
    apply (rtc_l _ DELETED PURGING PURGED); [reflexivity|].
    apply (rtc_l _ PURGING PURGED PURGED); [reflexivity|]. apply rtc_refl. }
  split; [exact H|]. by apply (purge_path ACTIVE PURGED H).
Defined.
