(* ===== verification/PlatformAuthority.v ===== *)
(** * Platform authority (saas_os/core/platform_authority, core/authority/caller.py)

    Installation-wide authority: operators are users enrolled to administer the
    deployment, and hold named permissions by grants.  Every change runs in one
    transaction under the platform-owners lock: the caller is authorized, the
    change is made, and the transaction is rolled back if it would leave the
    deployment without an owner.  Bootstrap and recovery are composites of the
    same changes for a system purpose.

    The store holds the users and identity links, the operators, the grants and
    the platform audit log.  An audit row records actor, action, target, outcome
    and reason; its metadata and correlation id are not modelled. *)

From S2P Require Import Prelude PyStr.

(** ** Callers (core/authority/caller.py) *)

Inductive SystemAuthority : Type :=
| PROVISIONING | TENANT_PURGE | BILLING_OPERATIONS | PLATFORM_BOOTSTRAP | PERMISSION_UPGRADE.
#[export] Instance SystemAuthority_eq_dec : EqDecision SystemAuthority.
Proof. solve_decision. Defined.

Inductive caller : Type :=
| UserCaller (user_id : uuid)
| ServiceAccountCaller (service_account_id tenant_id : uuid)
| SystemCaller (authority : SystemAuthority).
#[export] Instance caller_eq_dec : EqDecision caller.
Proof. solve_decision. Defined.

(** ** permissions.py and operations.py *)

Inductive PlatformPermission : Type :=
| P_TENANT_READ | P_USER_READ | P_OPERATOR_READ | P_AUDIT_READ | P_BILLING_READ |
P_FEATURE_FLAG_READ | P_AI_CONFIG_READ | P_AI_USAGE_READ | P_TENANT_CREATE | P_TENANT_SUSPEND |
P_TENANT_REACTIVATE | P_TENANT_MOVE | P_TENANT_DELETE | P_USER_DEACTIVATE | P_USER_REACTIVATE |
P_SESSION_REVOKE | P_API_KEY_REVOKE | P_FEATURE_FLAG_DEFINE | P_FEATURE_FLAG_OVERRIDE |
P_AI_PROVIDER_MANAGE | P_AI_ENDPOINT_TRUST_MANAGE | P_AI_POLICY_MANAGE | P_OUTBOX_REPLAY |
P_WEBHOOK_SECRET_REENCRYPT | P_PERMISSION_GRANT_APPLY | P_SECURITY_RETENTION_REPORT |
P_SECURITY_RETENTION_HOLD_MANAGE | P_AUTHORITY_MANAGE.

#[export] Instance PlatformPermission_eq_dec : EqDecision PlatformPermission.
Proof. solve_decision. Defined.

Definition OWNER_PERMISSION : PlatformPermission := P_AUTHORITY_MANAGE.

Record PlatformOperation : Type := mkOp {
  op_permission : option PlatformPermission;
  op_system_authorities : list SystemAuthority;
  op_audit_action : string;
}.

Inductive operation : Type :=
| TENANT_READ | USER_READ | OPERATOR_READ | AUDIT_READ | BILLING_READ | FEATURE_FLAG_READ |
TENANT_CREATE_ROOT | TENANT_CREATE_CHILD | TENANT_ACTIVATE | TENANT_SUSPEND | TENANT_REACTIVATE |
TENANT_MOVE | TENANT_DELETE | TENANT_PURGE_TRANSITION | USER_DEACTIVATE | USER_REACTIVATE |
SESSION_REVOKE | API_KEY_REVOKE | FEATURE_FLAG_DEFINE | FEATURE_FLAG_OVERRIDE | AI_CONFIG_READ |
AI_USAGE_READ | OUTBOX_REPLAY | WEBHOOK_SECRET_REENCRYPT | PERMISSION_GRANT_APPLY |
PERMISSION_GRANT_LEDGER_RETENTION_REPORT | PERMISSION_GRANT_LEDGER_HOLD_PLACE |
PERMISSION_GRANT_LEDGER_HOLD_RELEASE | PERMISSION_GRANT_LEDGER_EXPIRED_DELETE |
PERMISSION_GRANT_LEDGER_HOLD_READ | PERMISSION_GRANT_LEDGER_DELETION_READ |
PERMISSION_GRANT_LEDGER_DELETION_REQUEST | PERMISSION_GRANT_LEDGER_DELETION_APPROVE |
PERMISSION_GRANT_LEDGER_DELETION_EXECUTION_AUTHORIZE |
PERMISSION_GRANT_LEDGER_APPROVER_REGISTER_READ | PERMISSION_GRANT_LEDGER_APPROVER_ELIGIBILITY_READ |
PERMISSION_GRANT_LEDGER_REPRESENTATIVE_PROPOSE | PERMISSION_GRANT_LEDGER_REPRESENTATIVE_CONFIRM |
PERMISSION_GRANT_LEDGER_REPRESENTATIVE_REVOKE_BY_OWNER |
PERMISSION_GRANT_LEDGER_REPRESENTATIVE_REVOKE_BY_SECURITY | PERMISSION_GRANT_LEDGER_APPROVER_ENROL |
PERMISSION_GRANT_LEDGER_APPROVER_REVOKE_BY_REPRESENTATIVE |
PERMISSION_GRANT_LEDGER_APPROVER_REVOKE_BY_SECURITY | AI_PROVIDER_CONFIGURE |
AI_ENDPOINT_TRUST_CONFIGURE | AI_POLICY_CONFIGURE | OPERATOR_ENROLL | OPERATOR_SUSPEND |
OPERATOR_REACTIVATE | OPERATOR_REVOKE | GRANT_CREATE | GRANT_REVOKE.

(** The operation's key. *)
Definition key (op : operation) : string :=
  match op with
  | TENANT_READ => "tenant.read"
  | USER_READ => "user.read"
  | OPERATOR_READ => "operator.read"
  | AUDIT_READ => "audit.read"
  | BILLING_READ => "billing.read"
  | FEATURE_FLAG_READ => "feature_flag.read"
  | TENANT_CREATE_ROOT => "tenant.create_root"
  | TENANT_CREATE_CHILD => "tenant.create_child"
  | TENANT_ACTIVATE => "tenant.activate"
  | TENANT_SUSPEND => "tenant.suspend"
  | TENANT_REACTIVATE => "tenant.reactivate"
  | TENANT_MOVE => "tenant.move"
  | TENANT_DELETE => "tenant.delete"
  | TENANT_PURGE_TRANSITION => "tenant.purge_transition"
  | USER_DEACTIVATE => "user.deactivate"
  | USER_REACTIVATE => "user.reactivate"
  | SESSION_REVOKE => "session.revoke"
  | API_KEY_REVOKE => "api_key.revoke"
  | FEATURE_FLAG_DEFINE => "feature_flag.define"
  | FEATURE_FLAG_OVERRIDE => "feature_flag.override"
  | AI_CONFIG_READ => "ai_config.read"
  | AI_USAGE_READ => "ai_usage.read"
  | OUTBOX_REPLAY => "outbox.replay"
  | WEBHOOK_SECRET_REENCRYPT => "webhook_secret.reencrypt"
  | PERMISSION_GRANT_APPLY => "permission_grant.apply"
  | PERMISSION_GRANT_LEDGER_RETENTION_REPORT => "permission_grant_ledger.retention_report"
  | PERMISSION_GRANT_LEDGER_HOLD_PLACE => "permission_grant_ledger.hold_place"
  | PERMISSION_GRANT_LEDGER_HOLD_RELEASE => "permission_grant_ledger.hold_release"
  | PERMISSION_GRANT_LEDGER_EXPIRED_DELETE => "permission_grant_ledger.expired_delete"
  | PERMISSION_GRANT_LEDGER_HOLD_READ => "permission_grant_ledger.hold_read"
  | PERMISSION_GRANT_LEDGER_DELETION_READ => "permission_grant_ledger.deletion_read"
  | PERMISSION_GRANT_LEDGER_DELETION_REQUEST => "permission_grant_ledger.deletion_request"
  | PERMISSION_GRANT_LEDGER_DELETION_APPROVE => "permission_grant_ledger.deletion_approve"
  | PERMISSION_GRANT_LEDGER_DELETION_EXECUTION_AUTHORIZE => "permission_grant_ledger.deletion_execution_authorize"
  | PERMISSION_GRANT_LEDGER_APPROVER_REGISTER_READ => "permission_grant_ledger.approver_register_read"
  | PERMISSION_GRANT_LEDGER_APPROVER_ELIGIBILITY_READ => "permission_grant_ledger.approver_eligibility_read"
  | PERMISSION_GRANT_LEDGER_REPRESENTATIVE_PROPOSE => "permission_grant_ledger.representative_propose"
  | PERMISSION_GRANT_LEDGER_REPRESENTATIVE_CONFIRM => "permission_grant_ledger.representative_confirm"
  | PERMISSION_GRANT_LEDGER_REPRESENTATIVE_REVOKE_BY_OWNER => "permission_grant_ledger.representative_revoke_by_owner"
  | PERMISSION_GRANT_LEDGER_REPRESENTATIVE_REVOKE_BY_SECURITY => "permission_grant_ledger.representative_revoke_by_security"
  | PERMISSION_GRANT_LEDGER_APPROVER_ENROL => "permission_grant_ledger.approver_enrol"
  | PERMISSION_GRANT_LEDGER_APPROVER_REVOKE_BY_REPRESENTATIVE => "permission_grant_ledger.approver_revoke_by_representative"
  | PERMISSION_GRANT_LEDGER_APPROVER_REVOKE_BY_SECURITY => "permission_grant_ledger.approver_revoke_by_security"
  | AI_PROVIDER_CONFIGURE => "ai_provider.configure"
  | AI_ENDPOINT_TRUST_CONFIGURE => "ai_endpoint_trust.configure"
  | AI_POLICY_CONFIGURE => "ai_policy.configure"
  | OPERATOR_ENROLL => "operator.enroll"
  | OPERATOR_SUSPEND => "operator.suspend"
  | OPERATOR_REACTIVATE => "operator.reactivate"
  | OPERATOR_REVOKE => "operator.revoke"
  | GRANT_CREATE => "grant.create"
  | GRANT_REVOKE => "grant.revoke"
  end.

(** One row of the table: the permission a person needs, the system purposes
    accepted, the audit action. *)
Definition platform_operation (op : operation) : PlatformOperation :=
  match op with
  | TENANT_READ => mkOp (Some P_TENANT_READ) [] "platform.tenant.read"
  | USER_READ => mkOp (Some P_USER_READ) [] "platform.user.read"
  | OPERATOR_READ => mkOp (Some P_OPERATOR_READ) [] "platform.operator.read"
  | AUDIT_READ => mkOp (Some P_AUDIT_READ) [] "platform.audit.read"
  | BILLING_READ => mkOp (Some P_BILLING_READ) [] "platform.billing.read"
  | FEATURE_FLAG_READ => mkOp (Some P_FEATURE_FLAG_READ) [] "platform.feature_flag.read"
  | TENANT_CREATE_ROOT => mkOp (Some P_TENANT_CREATE) [PROVISIONING] "platform.tenant.create"
  | TENANT_CREATE_CHILD => mkOp (Some P_TENANT_CREATE) [PROVISIONING] "platform.tenant.create"
  | TENANT_ACTIVATE => mkOp (Some P_TENANT_CREATE) [PROVISIONING] "platform.tenant.activate"
  | TENANT_SUSPEND => mkOp (Some P_TENANT_SUSPEND) [] "platform.tenant.suspend"
  | TENANT_REACTIVATE => mkOp (Some P_TENANT_REACTIVATE) [] "platform.tenant.reactivate"
  | TENANT_MOVE => mkOp (Some P_TENANT_MOVE) [] "platform.tenant.move"
  | TENANT_DELETE => mkOp (Some P_TENANT_DELETE) [] "platform.tenant.delete"
  | TENANT_PURGE_TRANSITION => mkOp None [TENANT_PURGE] "platform.tenant.purge_transition"
  | USER_DEACTIVATE => mkOp (Some P_USER_DEACTIVATE) [] "platform.user.deactivate"
  | USER_REACTIVATE => mkOp (Some P_USER_REACTIVATE) [] "platform.user.reactivate"
  | SESSION_REVOKE => mkOp (Some P_SESSION_REVOKE) [] "platform.session.revoke"
  | API_KEY_REVOKE => mkOp (Some P_API_KEY_REVOKE) [] "platform.api_key.revoke"
  | FEATURE_FLAG_DEFINE => mkOp (Some P_FEATURE_FLAG_DEFINE) [PROVISIONING] "platform.feature_flag.define"
  | FEATURE_FLAG_OVERRIDE => mkOp (Some P_FEATURE_FLAG_OVERRIDE) [] "platform.feature_flag.override"
  | AI_CONFIG_READ => mkOp (Some P_AI_CONFIG_READ) [] "platform.ai_config.read"
  | AI_USAGE_READ => mkOp (Some P_AI_USAGE_READ) [] "platform.ai_usage.read"
  | OUTBOX_REPLAY => mkOp (Some P_OUTBOX_REPLAY) [] "platform.outbox.replay"
  | WEBHOOK_SECRET_REENCRYPT => mkOp (Some P_WEBHOOK_SECRET_REENCRYPT) [] "platform.webhook_secret.reencrypt"
  | PERMISSION_GRANT_APPLY => mkOp (Some P_PERMISSION_GRANT_APPLY) [] "platform.permission_grant.apply"
  | PERMISSION_GRANT_LEDGER_RETENTION_REPORT => mkOp (Some P_SECURITY_RETENTION_REPORT) [] "platform.permission_grant_ledger.retention_report"
  | PERMISSION_GRANT_LEDGER_HOLD_PLACE => mkOp (Some P_SECURITY_RETENTION_HOLD_MANAGE) [] "platform.permission_grant_ledger.hold_place"
  | PERMISSION_GRANT_LEDGER_HOLD_RELEASE => mkOp (Some P_SECURITY_RETENTION_HOLD_MANAGE) [] "platform.permission_grant_ledger.hold_release"
  | PERMISSION_GRANT_LEDGER_EXPIRED_DELETE => mkOp (Some P_SECURITY_RETENTION_REPORT) [] "platform.permission_grant_ledger.expired_delete"
  | PERMISSION_GRANT_LEDGER_HOLD_READ => mkOp (Some P_SECURITY_RETENTION_HOLD_MANAGE) [] "platform.permission_grant_ledger.hold_read"
  | PERMISSION_GRANT_LEDGER_DELETION_READ => mkOp (Some P_SECURITY_RETENTION_REPORT) [] "platform.permission_grant_ledger.deletion_read"
  | PERMISSION_GRANT_LEDGER_DELETION_REQUEST => mkOp (Some P_SECURITY_RETENTION_REPORT) [] "platform.permission_grant_ledger.deletion_request"
  | PERMISSION_GRANT_LEDGER_DELETION_APPROVE => mkOp (Some P_SECURITY_RETENTION_REPORT) [] "platform.permission_grant_ledger.deletion_approve"
  | PERMISSION_GRANT_LEDGER_DELETION_EXECUTION_AUTHORIZE => mkOp (Some P_SECURITY_RETENTION_REPORT) [] "platform.permission_grant_ledger.deletion_execution_authorize"
  | PERMISSION_GRANT_LEDGER_APPROVER_REGISTER_READ => mkOp (Some P_AUDIT_READ) [] "platform.permission_grant_ledger.approver_register_read"
  | PERMISSION_GRANT_LEDGER_APPROVER_ELIGIBILITY_READ => mkOp (Some P_AUDIT_READ) [] "platform.permission_grant_ledger.approver_eligibility_read"
  | PERMISSION_GRANT_LEDGER_REPRESENTATIVE_PROPOSE => mkOp (Some P_AUTHORITY_MANAGE) [] "platform.permission_grant_ledger.representative_propose"
  | PERMISSION_GRANT_LEDGER_REPRESENTATIVE_CONFIRM => mkOp (Some P_SECURITY_RETENTION_HOLD_MANAGE) [] "platform.permission_grant_ledger.representative_confirm"
  | PERMISSION_GRANT_LEDGER_REPRESENTATIVE_REVOKE_BY_OWNER => mkOp (Some P_AUTHORITY_MANAGE) [] "platform.permission_grant_ledger.representative_revoke_by_owner"
  | PERMISSION_GRANT_LEDGER_REPRESENTATIVE_REVOKE_BY_SECURITY => mkOp (Some P_SECURITY_RETENTION_HOLD_MANAGE) [] "platform.permission_grant_ledger.representative_revoke_by_security"
  | PERMISSION_GRANT_LEDGER_APPROVER_ENROL => mkOp (Some P_SECURITY_RETENTION_REPORT) [] "platform.permission_grant_ledger.approver_enrol"
  | PERMISSION_GRANT_LEDGER_APPROVER_REVOKE_BY_REPRESENTATIVE => mkOp (Some P_SECURITY_RETENTION_REPORT) [] "platform.permission_grant_ledger.approver_revoke_by_representative"
  | PERMISSION_GRANT_LEDGER_APPROVER_REVOKE_BY_SECURITY => mkOp (Some P_SECURITY_RETENTION_HOLD_MANAGE) [] "platform.permission_grant_ledger.approver_revoke_by_security"
  | AI_PROVIDER_CONFIGURE => mkOp (Some P_AI_PROVIDER_MANAGE) [] "platform.ai_provider.configure"
  | AI_ENDPOINT_TRUST_CONFIGURE => mkOp (Some P_AI_ENDPOINT_TRUST_MANAGE) [] "platform.ai_endpoint_trust.configure"
  | AI_POLICY_CONFIGURE => mkOp (Some P_AI_POLICY_MANAGE) [] "platform.ai_policy.configure"
  | OPERATOR_ENROLL => mkOp (Some P_AUTHORITY_MANAGE) [PLATFORM_BOOTSTRAP] "platform.operator.enroll"
  | OPERATOR_SUSPEND => mkOp (Some P_AUTHORITY_MANAGE) [PLATFORM_BOOTSTRAP] "platform.operator.suspend"
  | OPERATOR_REACTIVATE => mkOp (Some P_AUTHORITY_MANAGE) [] "platform.operator.reactivate"
  | OPERATOR_REVOKE => mkOp (Some P_AUTHORITY_MANAGE) [] "platform.operator.revoke"
  | GRANT_CREATE => mkOp (Some P_AUTHORITY_MANAGE) [PLATFORM_BOOTSTRAP] "platform.grant.create"
  | GRANT_REVOKE => mkOp (Some P_AUTHORITY_MANAGE) [] "platform.grant.revoke"
  end.

#[export] Instance operation_eq_dec : EqDecision operation.
Proof. solve_decision. Defined.

(** The labels of refusals that are not operations. *)
Definition TENANT_TRANSITION : string := "tenant.transition".
Definition PLATFORM_BOOTSTRAP_COMPOSITE : string := "platform.bootstrap".
Definition PLATFORM_RECOVER_COMPOSITE : string := "platform.recover".

(** ** models.py *)

Inductive OperatorStatus : Type := OP_ACTIVE | OP_SUSPENDED | OP_REVOKED.
#[export] Instance OperatorStatus_eq_dec : EqDecision OperatorStatus.
Proof. solve_decision. Defined.

Record PlatformOperator : Type := mkOperator {
  po_user_id : uuid;
  po_status : OperatorStatus;
  po_enrolled_by : option uuid;
  po_status_changed_at : datetime;
  po_status_changed_by : option uuid;
}.

Record PlatformGrant : Type := mkGrant {
  pg_operator_id : uuid;
  pg_permission : PlatformPermission;
  pg_granted_by : option uuid;
  pg_granted_at : datetime;
  pg_revoked_at : option datetime;
  pg_revoked_by : option uuid;
}.

Inductive audit_outcome : Type := SUCCESS | FAILURE | DENIED.

Inductive audit_target : Type :=
| TargetOperator (id : option uuid)
| TargetUser (user_id : option uuid)          (* the user's reference *)
| TargetTenant (id : option uuid)
| TargetOther (target_type : string) (id : option string).

Record PlatformAuditEntry : Type := mkPAudit {
  pa_actor : caller;
  pa_action : string;
  pa_target : audit_target;
  pa_outcome : audit_outcome;
  pa_reason : option pystr;
}.

Record platform_store : Type := mkPlatform {
  ps_users : gmap uuid bool;                    (* core.users: is_active *)
  ps_identities : gmap (string * string) uuid;  (* core.external_identities *)
  ps_operators : gmap uuid PlatformOperator;
  ps_grants : gmap uuid PlatformGrant;
  ps_audit : list PlatformAuditEntry;           (* latest first *)
  ps_drawn : nat;
}.

Definition set_operator (id : uuid) (o : PlatformOperator) (s : platform_store) : platform_store :=
  mkPlatform s.(ps_users) s.(ps_identities) (<[id := o]> s.(ps_operators)) s.(ps_grants) s.(ps_audit)
    s.(ps_drawn).
Definition set_grants (gs : gmap uuid PlatformGrant) (s : platform_store) : platform_store :=
  mkPlatform s.(ps_users) s.(ps_identities) s.(ps_operators) gs s.(ps_audit) s.(ps_drawn).
Definition add_paudit (a : PlatformAuditEntry) (s : platform_store) : platform_store :=
  mkPlatform s.(ps_users) s.(ps_identities) s.(ps_operators) s.(ps_grants) (a :: s.(ps_audit)) s.(ps_drawn).
Definition add_user (id : uuid) (link : string * string) (s : platform_store) : platform_store :=
  mkPlatform (<[id := true]> s.(ps_users)) (<[link := id]> s.(ps_identities)) s.(ps_operators) s.(ps_grants)
    s.(ps_audit) s.(ps_drawn).
Definition pdraw (s : platform_store) : platform_store :=
  mkPlatform s.(ps_users) s.(ps_identities) s.(ps_operators) s.(ps_grants) s.(ps_audit) (S s.(ps_drawn)).

(** ** errors.py *)

Inductive platform_error : Type :=
| PlatformNotAuthorizedError (operation : string)
| SelfAuthorityChangeError (op : operation)
| PlatformAmplificationError (op : operation) (permission : PlatformPermission)
| LastPlatformOwnerError (op : operation)
| PlatformSubjectNotLinkedError (op : operation) (user_id : uuid)
| TenantParentRuleError (op : operation) (parent_id : uuid) (code : string)
| MoveIntoCallerHierarchyError (new_parent_id : uuid)
| CallerTypeError (operation : string)
| InvalidPlatformRequestError (message : string)
| PlatformSubjectNotFoundError (user_id : uuid)
| InactivePlatformSubjectError (user_id : uuid)
| PlatformOperatorNotFoundError (operator_id : uuid)
| PlatformOperatorAlreadyEnrolledError (user_id : uuid)
| InvalidPlatformOperatorStateError (operator_id : uuid) (status : OperatorStatus) (op : operation)
| PlatformGrantNotFoundError (operator_id : uuid) (permission : PlatformPermission)
| DuplicatePlatformGrantError (operator_id : uuid) (permission : PlatformPermission)
| PlatformAlreadyBootstrappedError
| PlatformIntegrityError                       (* a primary key is taken *)
| MultipleResultsFound.                        (* more than one row for [one_or_none] *)

(** The code of a [PlatformRefusalError]; the other errors are none. *)
Definition refusal_code (e : platform_error) : option string :=
  match e with
  | PlatformNotAuthorizedError _ => Some "not_authorized"
  | SelfAuthorityChangeError _ => Some "self_authority_change"
  | PlatformAmplificationError _ _ => Some "amplification"
  | LastPlatformOwnerError _ => Some "last_platform_owner"
  | PlatformSubjectNotLinkedError _ _ => Some "subject_not_linked"
  | TenantParentRuleError _ _ code => Some code
  | MoveIntoCallerHierarchyError _ => Some "caller_in_new_parent_chain"
  | _ => None
  end.

(** ** Reading the store *)

(** [one_or_none()] *)
Definition one_or_none {A : Type} (l : list A) : result platform_error (option A) :=
  match l with
  | [] => Ok None
  | [x] => Ok (Some x)
  | _ => Raise MultipleResultsFound
  end.

Definition is_active_user (s : platform_store) (user_id : uuid) : bool :=
  bool_decide (s.(ps_users) !! user_id = Some true).

Definition unrevoked_operators (s : platform_store) (user_id : uuid) : list (uuid * PlatformOperator) :=
  filter (λ p : uuid * PlatformOperator, p.2.(po_user_id) = user_id ∧ p.2.(po_status) ≠ OP_REVOKED)
    (map_to_list s.(ps_operators)).

Definition is_live (operator_id : uuid) (g : PlatformGrant) : Prop :=
  g.(pg_operator_id) = operator_id ∧ g.(pg_revoked_at) = None.

(** The live grants of an operator. *)
Definition live_grants (s : platform_store) (operator_id : uuid) : list (uuid * PlatformGrant) :=
  filter (λ p : uuid * PlatformGrant, p.2.(pg_operator_id) = operator_id ∧ p.2.(pg_revoked_at) = None)
    (map_to_list s.(ps_grants)).
Definition live_permissions (s : platform_store) (operator_id : uuid) : list PlatformPermission :=
  (λ p : uuid * PlatformGrant, p.2.(pg_permission)) <$> live_grants s operator_id.

Definition lock_external_identity_exists (s : platform_store) (user_id : uuid) : bool :=
  bool_decide (user_id ∈ (map_to_list s.(ps_identities)).*2).

(** owners.py *)
Definition is_owner (s : platform_store) (id : uuid) (o : PlatformOperator) : bool :=
  bool_decide (o.(po_status) = OP_ACTIVE) && is_active_user s o.(po_user_id) &&
  bool_decide (OWNER_PERMISSION ∈ live_permissions s id).
Definition platform_owner_exists (s : platform_store) : bool :=
  existsb (λ p, is_owner s p.1 p.2) (map_to_list s.(ps_operators)).
Definition unrevoked_operator_exists (s : platform_store) (user_id : uuid) : bool :=
  negb (bool_decide (unrevoked_operators s user_id = [])).

(** ** authorization.py *)

(** [_decide], and [platform_can], which runs it in the caller's session. *)
Definition decide_platform (s : platform_store) (user_id : uuid) (permission : PlatformPermission) :
    result platform_error bool :=
  if negb (is_active_user s user_id) then Ok false
  else
    let* op := one_or_none (unrevoked_operators s user_id) in
    match op with
    | None => Ok false
    | Some (operator_id, o) =>
        if negb (bool_decide (o.(po_status) = OP_ACTIVE)) then Ok false
        else Ok (bool_decide (permission ∈ live_permissions s operator_id))
    end.
Definition platform_can := decide_platform.

Definition is_active_platform_operator (s : platform_store) (user_id : uuid) : result platform_error bool :=
  if negb (is_active_user s user_id) then Ok false
  else
    let* op := one_or_none (unrevoked_operators s user_id) in
    Ok (match op with Some (_, o) => bool_decide (o.(po_status) = OP_ACTIVE) | None => false end).

Definition authorize_platform_caller (s : platform_store) (c : caller) (op : operation) :
    result platform_error unit :=
  let spec := platform_operation op in
  match c with
  | SystemCaller authority =>
      raise_if (negb (bool_decide (authority ∈ spec.(op_system_authorities)))) (PlatformNotAuthorizedError (key op))
  | ServiceAccountCaller _ _ => Raise (PlatformNotAuthorizedError (key op))
  | UserCaller user_id =>
      match spec.(op_permission) with
      | None => Raise (PlatformNotAuthorizedError (key op))
      | Some permission =>
          let* allowed := platform_can s user_id permission in
          raise_if (negb allowed) (PlatformNotAuthorizedError (key op))
      end
  end.

(** [any(platform_can(...))], left to right. *)
Fixpoint any_can (s : platform_store) (user_id : uuid) (permissions : list PlatformPermission) :
    result platform_error bool :=
  match permissions with
  | [] => Ok false
  | p :: permissions =>
      let* b := platform_can s user_id p in
      if b then Ok true else any_can s user_id permissions
  end.

(** The permissions are visited in the order given rather than sorted by
    value: the answer does not depend on it. *)
Definition platform_caller_could_hold_any (s : platform_store) (c : caller) (operations : list operation) :
    result platform_error bool :=
  match c with
  | SystemCaller authority =>
      Ok (existsb (λ op, bool_decide (authority ∈ op_system_authorities (platform_operation op))) operations)
  | ServiceAccountCaller _ _ => Ok false
  | UserCaller user_id =>
      any_can s user_id (remove_dups (omap (λ op, op_permission (platform_operation op)) operations))
  end.
