(* ===== verification/PlatformService.v ===== *)
(** * Changes to platform authority (platform_authority/service.py, bootstrap.py,
    changes.py, and the recording functions of audit.py)

    Every public operation is a computation over [platform_store].  [now] is the
    time the operation reads, [uuid4 n] the [n]-th random id drawn.  The database
    refuses a row whose primary key is taken ([PlatformIntegrityError]). *)

From S2P Require Import Prelude PyStr PlatformAuthority.

Abbreviation PM := (M platform_store platform_error).

(** ** audit.py *)

Definition MAX_REASON_LENGTH : nat := 500.

(** The characters [str.strip] removes. *)
Definition is_space (c : N) : bool :=
  bool_decide (c ∈ [9; 10; 11; 12; 13; 28; 29; 30; 31; 32; 133; 160; 5760; 8192; 8193; 8194; 8195; 8196;
                    8197; 8198; 8199; 8200; 8201; 8202; 8232; 8233; 8239; 8287; 12288]%N).
Fixpoint lstrip (s : pystr) : pystr :=
  match s with
  | c :: s' => if is_space c then lstrip s' else s
  | [] => []
  end.
Definition strip (s : pystr) : pystr := reverse (lstrip (reverse (lstrip s))).

(** [\x00-\x1f\x7f] *)
Definition is_control (c : N) : bool := ((c <=? 31) || (c =? 127))%N.

Definition validate_reason (reason : pystr) : result platform_error pystr :=
  let value := strip reason in
  if bool_decide (value = []) then Raise (InvalidPlatformRequestError "reason must not be empty.")
  else if bool_decide (MAX_REASON_LENGTH < length value)%nat
  then Raise (InvalidPlatformRequestError "reason exceeds 500 characters.")
  else if existsb is_control value
  then Raise (InvalidPlatformRequestError "reason must not contain control characters.")
  else Ok value.

(** The check [_entry] makes of the reason it is given. *)
Definition reason_too_long (reason : option pystr) : bool :=
  match reason with Some r => bool_decide (MAX_REASON_LENGTH < length r)%nat | None => false end.

(** [record_platform_event_in_transaction]; the insert of a row for a user that
    does not exist violates the foreign key. *)
Definition record_platform_event (c : caller) (action : string) (target : audit_target)
    (reason : option pystr) : PM unit :=
  λ s,
    match c with
    | ServiceAccountCaller _ _ => (Raise (CallerTypeError "record_platform_event_in_transaction"), s)
    | UserCaller _ | SystemCaller _ =>
        if reason_too_long reason then (Raise (InvalidPlatformRequestError "reason exceeds 500 characters."), s)
        else if match c with UserCaller u => bool_decide (s.(ps_users) !! u = None) | _ => false end
        then (Raise PlatformIntegrityError, s)
        else (Ok tt, add_paudit (mkPAudit c action target SUCCESS reason) s)
    end.

(** [record_platform_refusal]: best effort; nothing is written for a service
    account or for a user that does not exist (the foreign key). *)
Definition record_platform_refusal (c : caller) (action : string) (target : audit_target) (code : string)
    (s : platform_store) : platform_store :=
  let entry := mkPAudit c action target DENIED (Some (lit code)) in
  match c with
  | ServiceAccountCaller _ _ => s
  | UserCaller u => if bool_decide (s.(ps_users) !! u = None) then s else add_paudit entry s
  | SystemCaller _ => add_paudit entry s
  end.

(** A user target is recorded only if the id names somebody. *)
Definition user_audit_target (s : platform_store) (user_id : uuid) : audit_target :=
  TargetUser (if bool_decide (s.(ps_users) !! user_id = None) then None else Some user_id).

(** [recording_platform_refusal]: a refusal raised inside is recorded, after
    the transaction inside was rolled back, and raised again. *)
Definition recording_platform_refusal {A : Type} (c : caller) (action : string)
    (target : platform_store → audit_target) (m : PM A) : PM A :=
  λ s,
    match m s with
    | (Raise e, s') =>
        match refusal_code e with
        | Some code => (Raise e, record_platform_refusal c action (target s') code s')
        | None => (Raise e, s')
        end
    | ok => ok
    end.

(** ** changes.py *)

(** [run_platform_change]: one configuration change of another component,
    authorized, made and recorded in one transaction. *)
Definition run_platform_change {A : Type} (c : caller) (op : operation) (target_type : string)
    (change : PM (A * option string)) (reason : option pystr) : PM A :=
  λ s,
    match c with
    | ServiceAccountCaller _ _ => (Raise (PlatformNotAuthorizedError (key op)), s)
    | _ =>
        match match reason with Some r => let* _ := validate_reason r in Ok tt | None => Ok tt end with
        | Raise e => (Raise e, s)
        | Ok _ =>
            recording_platform_refusal c (op_audit_action (platform_operation op)) (λ _, TargetOther target_type None)
              (transaction
                 (do* _ := (λ s, (authorize_platform_caller s c op, s)) in
                  do* outcome := change in
                  let '(value, target_id) := outcome in
                  do* _ := record_platform_event c (op_audit_action (platform_operation op))
                             (TargetOther target_type target_id) reason in
                  ret value)) s
        end
    end.

Section WithRandomIds.
Context (uuid4 : nat → uuid).

(** ** service.py: the transaction *)

Fixpoint authorize_all (ops : list operation) (c : caller) (s : platform_store) : result platform_error unit :=
  match ops with
  | [] => Ok tt
  | op :: ops => let* _ := authorize_platform_caller s c op in authorize_all ops c s
  end.

(** [authority_transaction]: [last] is the last of [ops]. *)
Definition authority_transaction {A : Type} (ops : list operation) (last : operation) (c : caller) (body : PM A) :
    PM A :=
  transaction
    (do* _ := (λ s, (authorize_all ops c s, s)) in
     do* s0 := get in
     let had_owner := platform_owner_exists s0 in
     do* a := body in
     do* s1 := get in
     if had_owner && negb (platform_owner_exists s1) then throw (LastPlatformOwnerError last) else ret a).

(** [_run] *)
Definition run_authority {A : Type} (op : operation) (c : caller) (target : platform_store → audit_target)
    (body : PM A) : PM A :=
  recording_platform_refusal c (op_audit_action (platform_operation op)) target
    (authority_transaction [op] op c body).

(** ** service.py: the changes *)

Definition acting_user_id (c : caller) : option uuid :=
  match c with UserCaller u => Some u | _ => None end.

Definition refuse_self (op : operation) (c : caller) (subject : uuid) : PM unit :=
  if bool_decide (acting_user_id c = Some subject) then throw (SelfAuthorityChangeError op) else ret tt.

Definition require_active_subject (user_id : uuid) : PM unit :=
  λ s, (match s.(ps_users) !! user_id with
        | None => Raise (PlatformSubjectNotFoundError user_id)
        | Some false => Raise (InactivePlatformSubjectError user_id)
        | Some true => Ok tt
        end, s).

Definition lock_operator (operator_id : uuid) : PM PlatformOperator :=
  λ s, (match s.(ps_operators) !! operator_id with
        | None => Raise (PlatformOperatorNotFoundError operator_id)
        | Some o => Ok o
        end, s).

Definition insert_operator (o : PlatformOperator) : PM uuid :=
  λ s, let id := uuid4 s.(ps_drawn) in
       if bool_decide (s.(ps_operators) !! id = None) then (Ok id, set_operator id o (pdraw s))
       else (Raise PlatformIntegrityError, pdraw s).

Definition insert_grant (g : PlatformGrant) : PM uuid :=
  λ s, let id := uuid4 s.(ps_drawn) in
       if bool_decide (s.(ps_grants) !! id = None) then (Ok id, set_grants (<[id := g]> s.(ps_grants)) (pdraw s))
       else (Raise PlatformIntegrityError, pdraw s).

Definition enroll_in_transaction (c : caller) (user_id : uuid) (reason : pystr) (now : datetime) : PM uuid :=
  do* _ := refuse_self OPERATOR_ENROLL c user_id in
  do* _ := require_active_subject user_id in
  do* s := get in
  if negb (lock_external_identity_exists s user_id)
  then throw (PlatformSubjectNotLinkedError OPERATOR_ENROLL user_id)
  else if unrevoked_operator_exists s user_id then throw (PlatformOperatorAlreadyEnrolledError user_id)
  else
    let actor := acting_user_id c in
    do* id := insert_operator (mkOperator user_id OP_ACTIVE actor now actor) in
    do* _ := record_platform_event c (op_audit_action (platform_operation OPERATOR_ENROLL))
               (TargetOperator (Some id)) (Some reason) in
    ret id.

(** [_set_status] *)
Definition set_status_in_transaction (op : operation) (c : caller) (operator_id : uuid)
    (expected new : OperatorStatus) (reason : pystr) (now : datetime) : PM uuid :=
  do* o := lock_operator operator_id in
  do* _ := refuse_self op c o.(po_user_id) in
  if negb (bool_decide (o.(po_status) = expected))
  then throw (InvalidPlatformOperatorStateError operator_id o.(po_status) op)
  else
    do* s := get in
    do* _ := put (set_operator operator_id
                    (mkOperator o.(po_user_id) new o.(po_enrolled_by) now (acting_user_id c)) s) in
    do* _ := record_platform_event c (op_audit_action (platform_operation op)) (TargetOperator (Some operator_id))
               (Some reason) in
    ret operator_id.

Definition suspend_in_transaction (c : caller) (operator_id : uuid) (reason : pystr) (now : datetime) : PM uuid :=
  set_status_in_transaction OPERATOR_SUSPEND c operator_id OP_ACTIVE OP_SUSPENDED reason now.

(** Anti-amplification: a person grants only what they hold. *)
Definition require_held (c : caller) (permission : PlatformPermission) : PM unit :=
  λ s, (match acting_user_id c with
        | None => Ok tt
        | Some u =>
            let* held := platform_can s u permission in
            raise_if (negb held) (PlatformAmplificationError GRANT_CREATE permission)
        end, s).

Definition grant_in_transaction (c : caller) (operator_id : uuid) (permission : PlatformPermission)
    (reason : pystr) (now : datetime) : PM uuid :=
  do* o := lock_operator operator_id in
  do* _ := refuse_self GRANT_CREATE c o.(po_user_id) in
  if bool_decide (o.(po_status) = OP_REVOKED)
  then throw (InvalidPlatformOperatorStateError operator_id o.(po_status) GRANT_CREATE)
  else
    do* _ := require_active_subject o.(po_user_id) in
    do* _ := require_held c permission in
    do* s := get in
    if bool_decide (permission ∈ live_permissions s operator_id)
    then throw (DuplicatePlatformGrantError operator_id permission)
    else
      do* id := insert_grant (mkGrant operator_id permission (acting_user_id c) now None None) in
      do* _ := record_platform_event c (op_audit_action (platform_operation GRANT_CREATE))
                 (TargetOperator (Some operator_id)) (Some reason) in
      ret id.

(** A live grant with its revocation written. *)
Definition revoked_grant (now : datetime) (actor : option uuid) (g : PlatformGrant) : PlatformGrant :=
  mkGrant g.(pg_operator_id) g.(pg_permission) g.(pg_granted_by) g.(pg_granted_at) (Some now) actor.

Definition revoke_live_grants (now : datetime) (actor : option uuid) (operator_id : uuid) (g : PlatformGrant) :
    PlatformGrant :=
  if bool_decide (g.(pg_operator_id) = operator_id) && bool_decide (g.(pg_revoked_at) = None)
  then revoked_grant now actor g else g.

Definition revoke_body (c : caller) (operator_id : uuid) (reason : pystr) (now : datetime) : PM uuid :=
  do* o := lock_operator operator_id in
  do* _ := refuse_self OPERATOR_REVOKE c o.(po_user_id) in
  if bool_decide (o.(po_status) = OP_REVOKED)
  then throw (InvalidPlatformOperatorStateError operator_id o.(po_status) OPERATOR_REVOKE)
  else
    let actor := acting_user_id c in
    do* s := get in
    do* _ := put (set_operator operator_id (mkOperator o.(po_user_id) OP_REVOKED o.(po_enrolled_by) now actor)
                    (set_grants (revoke_live_grants now actor operator_id <$> s.(ps_grants)) s)) in
    do* _ := record_platform_event c (op_audit_action (platform_operation OPERATOR_REVOKE))
               (TargetOperator (Some operator_id)) (Some reason) in
    ret operator_id.

Definition revoke_grant_body (c : caller) (operator_id : uuid) (permission : PlatformPermission)
    (reason : pystr) (now : datetime) : PM uuid :=
  do* o := lock_operator operator_id in
  do* _ := refuse_self GRANT_REVOKE c o.(po_user_id) in
  do* s := get in
  do* grant := lift (one_or_none
    (filter (λ p : uuid * PlatformGrant, p.2.(pg_permission) = permission) (live_grants s operator_id))) in
  match grant with
  | None => throw (PlatformGrantNotFoundError operator_id permission)
  | Some (id, g) =>
      do* _ := put (set_grants (<[id := revoked_grant now (acting_user_id c) g]> s.(ps_grants)) s) in
      do* _ := record_platform_event c (op_audit_action (platform_operation GRANT_REVOKE))
                 (TargetOperator (Some operator_id)) (Some reason) in
      ret id
  end.

(** ** service.py: the public operations *)

Definition with_reason {A : Type} (reason : pystr) (k : pystr → PM A) : PM A :=
  do* r := lift (validate_reason reason) in k r.

Definition enroll_operator (user_id : uuid) (c : caller) (reason : pystr) (now : datetime) : PM uuid :=
  with_reason reason (λ r,
    run_authority OPERATOR_ENROLL c (λ s, user_audit_target s user_id) (enroll_in_transaction c user_id r now)).
Definition suspend_operator (operator_id : uuid) (c : caller) (reason : pystr) (now : datetime) : PM uuid :=
  with_reason reason (λ r,
    run_authority OPERATOR_SUSPEND c (λ _, TargetOperator (Some operator_id))
      (suspend_in_transaction c operator_id r now)).
Definition reactivate_operator (operator_id : uuid) (c : caller) (reason : pystr) (now : datetime) : PM uuid :=
  with_reason reason (λ r,
    run_authority OPERATOR_REACTIVATE c (λ _, TargetOperator (Some operator_id))
      (set_status_in_transaction OPERATOR_REACTIVATE c operator_id OP_SUSPENDED OP_ACTIVE r now)).
Definition revoke_operator (operator_id : uuid) (c : caller) (reason : pystr) (now : datetime) : PM uuid :=
  with_reason reason (λ r,
    run_authority OPERATOR_REVOKE c (λ _, TargetOperator (Some operator_id)) (revoke_body c operator_id r now)).
Definition grant_platform_permission (operator_id : uuid) (permission : PlatformPermission) (c : caller)
    (reason : pystr) (now : datetime) : PM uuid :=
  with_reason reason (λ r,
    run_authority GRANT_CREATE c (λ _, TargetOperator (Some operator_id))
      (grant_in_transaction c operator_id permission r now)).
Definition revoke_platform_permission (operator_id : uuid) (permission : PlatformPermission) (c : caller)
    (reason : pystr) (now : datetime) : PM uuid :=
  with_reason reason (λ r,
    run_authority GRANT_REVOKE c (λ _, TargetOperator (Some operator_id))
      (revoke_grant_body c operator_id permission r now)).

(** ** bootstrap.py *)

Inductive subject : Type :=
| ById (user_id : uuid)
| ByIdentity (issuer subject : string).       (* [OperatorIdentity] *)

Definition find_user (s : platform_store) (who : subject) : option uuid :=
  match who with
  | ById u => Some u
  | ByIdentity i sub => s.(ps_identities) !! (i, sub)
  end.

(** [_resolve_user]: an identity nobody is linked to yet gets a new user. *)
Definition resolve_user (who : subject) : PM uuid :=
  λ s,
    match who with
    | ById u => (Ok u, s)
    | ByIdentity i sub =>
        match s.(ps_identities) !! (i, sub) with
        | Some u => (Ok u, s)
        | None => let id := uuid4 s.(ps_drawn) in
                  if bool_decide (s.(ps_users) !! id = None) then (Ok id, add_user id (i, sub) (pdraw s))
                  else (Raise PlatformIntegrityError, pdraw s)
        end
    end.

(** [_require_bootstrap_caller]: a refused purpose is recorded. *)
Definition require_bootstrap_caller (label : string) (refused : operation) (c : caller) : PM unit :=
  λ s,
    match c with
    | SystemCaller authority =>
        if bool_decide (authority = PLATFORM_BOOTSTRAP) then (Ok tt, s)
        else (Raise (PlatformNotAuthorizedError label),
              record_platform_refusal c (op_audit_action (platform_operation refused)) (TargetOperator None)
                "not_authorized" s)
    | _ => (Raise (CallerTypeError label), s)
    end.

Definition validated_permissions (permissions : list PlatformPermission) (require_owner : bool) :
    result platform_error (list PlatformPermission) :=
  if negb (bool_decide (NoDup permissions))
  then Raise (InvalidPlatformRequestError "permissions must not contain duplicates.")
  else if require_owner && negb (bool_decide (OWNER_PERMISSION ∈ permissions))
  then Raise (InvalidPlatformRequestError "the bootstrap permission list must include the owner permission.")
  else Ok permissions.

Record PlatformBootstrapResult : Type := mkBootstrap {
  br_operator_id : uuid;
  br_user_id : uuid;
  br_permissions : list PlatformPermission;
  br_created : bool;
}.

Fixpoint grant_each (c : caller) (operator_id : uuid) (permissions : list PlatformPermission)
    (reason : pystr) (now : datetime) : PM unit :=
  match permissions with
  | [] => ret tt
  | p :: permissions =>
      do* _ := grant_in_transaction c operator_id p reason now in grant_each c operator_id permissions reason now
  end.

(** The operator there is already, if it is the one that was asked for. *)
Definition same_bootstrap (s : platform_store) (owner : subject) (requested : list PlatformPermission)
    (existing : list (uuid * PlatformOperator)) : option PlatformBootstrapResult :=
  match existing, find_user s owner with
  | [(id, o)], Some u =>
      if bool_decide (o.(po_user_id) = u) && bool_decide (o.(po_status) = OP_ACTIVE) &&
         bool_decide (Forall (λ p, p ∈ requested) (live_permissions s id)) &&
         bool_decide (Forall (λ p, p ∈ live_permissions s id) requested)
      then Some (mkBootstrap id u requested false) else None
  | _, _ => None
  end.

Definition bootstrap_body (c : caller) (owner : subject) (requested : list PlatformPermission) (reason : pystr)
    (now : datetime) : PM PlatformBootstrapResult :=
  do* s := get in
  match map_to_list s.(ps_operators) with
  | [] =>
      do* user_id := resolve_user owner in
      do* operator_id := enroll_in_transaction c user_id reason now in
      do* _ := grant_each c operator_id requested reason now in
      ret (mkBootstrap operator_id user_id requested true)
  | existing =>
      match same_bootstrap s owner requested existing with
      | Some r => ret r
      | None => throw PlatformAlreadyBootstrappedError
      end
  end.

Definition bootstrap_platform_owner (owner : subject) (permissions : list PlatformPermission) (c : caller)
    (reason : pystr) (now : datetime) : PM PlatformBootstrapResult :=
  do* _ := require_bootstrap_caller PLATFORM_BOOTSTRAP_COMPOSITE OPERATOR_ENROLL c in
  do* requested := lift (validated_permissions permissions true) in
  do* r := lift (validate_reason reason) in
  recording_platform_refusal c (op_audit_action (platform_operation OPERATOR_ENROLL)) (λ _, TargetOperator None)
    (authority_transaction [OPERATOR_ENROLL; GRANT_CREATE] GRANT_CREATE c
       (bootstrap_body c owner requested r now)).

Record PlatformRecoveryResult : Type := mkRecovery {
  rr_operator_id : option uuid;
  rr_user_id : option uuid;
  rr_enrolled : bool;
  rr_granted : list PlatformPermission;
  rr_suspended : option uuid;
}.

(** The permissions asked for that are not held yet, granted in turn. *)
Definition recover_grants (c : caller) (operator_id : uuid) (requested : list PlatformPermission)
    (reason : pystr) (now : datetime) : PM (list PlatformPermission) :=
  do* s := get in
  let missing := filter (λ p, p ∉ live_permissions s operator_id) requested in
  do* _ := grant_each c operator_id missing reason now in ret missing.

Definition recover_enroll (c : caller) (who : subject) (requested : list PlatformPermission)
    (reason : pystr) (now : datetime) : PM PlatformRecoveryResult :=
  do* user_id := resolve_user who in
  do* s := get in
  do* current := lift (one_or_none (unrevoked_operators s user_id)) in
  do* target :=
    match current with
    | None => do* id := enroll_in_transaction c user_id reason now in ret (id, true)
    | Some (id, o) =>
        if bool_decide (o.(po_status) = OP_ACTIVE)
        then if lock_external_identity_exists s user_id then ret (id, false)
             else throw (PlatformSubjectNotLinkedError OPERATOR_ENROLL user_id)
        else throw (InvalidPlatformOperatorStateError id o.(po_status) OPERATOR_ENROLL)
    end in
  let '(operator_id, enrolled) := target in
  do* granted := recover_grants c operator_id requested reason now in
  ret (mkRecovery (Some operator_id) (Some user_id) enrolled granted None).

Definition recover_body (c : caller) (enroll : option subject) (requested : list PlatformPermission)
    (suspend : option uuid) (reason : pystr) (now : datetime) : PM PlatformRecoveryResult :=
  do* r := match enroll with
           | Some who => recover_enroll c who requested reason now
           | None => ret (mkRecovery None None false [] None)
           end in
  match suspend with
  | None => ret r
  | Some id =>
      do* s := get in
      if bool_decide (po_status <$> s.(ps_operators) !! id = Some OP_SUSPENDED) then ret r
      else
        do* _ := suspend_in_transaction c id reason now in
        ret (mkRecovery r.(rr_operator_id) r.(rr_user_id) r.(rr_enrolled) r.(rr_granted) (Some id))
  end.

Definition recover_operations (enroll : option subject) (requested : list PlatformPermission)
    (suspend : option uuid) : list operation :=
  match enroll with Some _ => [OPERATOR_ENROLL] | None => [] end ++
  match requested with [] => [] | _ => [GRANT_CREATE] end ++
  match suspend with Some _ => [OPERATOR_SUSPEND] | None => [] end.

Definition recover_platform_authority (c : caller) (reason : pystr) (enroll : option subject)
    (grant_permissions : list PlatformPermission) (suspend : option uuid) (now : datetime) :
    PM PlatformRecoveryResult :=
  let first_requested :=
    match enroll, suspend with
    | Some _, _ => OPERATOR_ENROLL
    | None, Some _ => OPERATOR_SUSPEND
    | None, None => match grant_permissions with [] => OPERATOR_ENROLL | _ => GRANT_CREATE end
    end in
  do* _ := require_bootstrap_caller PLATFORM_RECOVER_COMPOSITE first_requested c in
  do* r := lift (validate_reason reason) in
  do* requested := lift (validated_permissions grant_permissions false) in
  if negb (bool_decide (is_Some enroll)) && negb (bool_decide (is_Some suspend))
  then throw (InvalidPlatformRequestError "recovery must enroll an operator, suspend an operator, or both.")
  else if negb (bool_decide (requested = [])) && negb (bool_decide (is_Some enroll))
  then throw (InvalidPlatformRequestError "grant_permissions requires a person to enroll.")
  else
    let ops := recover_operations enroll requested suspend in
    let last_op := default OPERATOR_ENROLL (last ops) in
    recording_platform_refusal c (op_audit_action (platform_operation last_op)) (λ _, TargetOperator suspend)
      (authority_transaction ops last_op c (recover_body c enroll requested suspend r now)).
End WithRandomIds.
