(* ===== verification/PlatformProofs.v ===== *)
(** * Platform authority: what every history of changes guarantees

    [pchange] is the abstract machine of platform authority: the elementary
    changes to operators and grants with the conditions each needs.  Every
    public operation takes the store along it ([pexec_steps]); the guarantees
    are proved over it: the deployment keeps an owner, nobody changes their own
    authority, people never create a permission nobody holds, and revocation is
    final. *)

From S2P Require Import Prelude PyStr PlatformAuthority PlatformService.

(** ** The abstract machine *)

Inductive pchange (c : caller) : platform_store → platform_store → Prop :=
| Ch_audit a s : pchange c s (add_paudit a s)
| Ch_user id link s : s.(ps_users) !! id = None → s.(ps_identities) !! link = None →
    pchange c s (add_user id link (pdraw s))
| Ch_enroll id u now s :
    acting_user_id c ≠ Some u → is_active_user s u = true → lock_external_identity_exists s u = true →
    unrevoked_operators s u = [] → s.(ps_operators) !! id = None →
    pchange c s (set_operator id (mkOperator u OP_ACTIVE (acting_user_id c) now (acting_user_id c)) (pdraw s))
| Ch_status id o new now s :
    s.(ps_operators) !! id = Some o → acting_user_id c ≠ Some o.(po_user_id) →
    (o.(po_status) = OP_ACTIVE ∧ new = OP_SUSPENDED ∨ o.(po_status) = OP_SUSPENDED ∧ new = OP_ACTIVE) →
    pchange c s (set_operator id (mkOperator o.(po_user_id) new o.(po_enrolled_by) now (acting_user_id c)) s)
| Ch_revoke id o now s :
    s.(ps_operators) !! id = Some o → acting_user_id c ≠ Some o.(po_user_id) → o.(po_status) ≠ OP_REVOKED →
    pchange c s (set_operator id (mkOperator o.(po_user_id) OP_REVOKED o.(po_enrolled_by) now (acting_user_id c))
                   (set_grants (revoke_live_grants now (acting_user_id c) id <$> s.(ps_grants)) s))
| Ch_grant gid id o p now s :
    s.(ps_operators) !! id = Some o → acting_user_id c ≠ Some o.(po_user_id) → o.(po_status) ≠ OP_REVOKED →
    is_active_user s o.(po_user_id) = true →
    (∀ u, acting_user_id c = Some u → platform_can s u p = Ok true) →
    p ∉ live_permissions s id → s.(ps_grants) !! gid = None →
    pchange c s (set_grants (<[gid := mkGrant id p (acting_user_id c) now None None]> s.(ps_grants)) (pdraw s))
| Ch_ungrant gid g o now s :
    s.(ps_grants) !! gid = Some g → g.(pg_revoked_at) = None →
    s.(ps_operators) !! g.(pg_operator_id) = Some o → acting_user_id c ≠ Some o.(po_user_id) →
    pchange c s (set_grants (<[gid := revoked_grant now (acting_user_id c) g]> s.(ps_grants)) s).

(** ** Every body follows it *)

Ltac run_body H := unfold_store; repeat (case_in H; simplify_eq/=).

Lemma elem_of_live_permissions s id p :
  p ∈ live_permissions s id ↔ ∃ gid g, s.(ps_grants) !! gid = Some g ∧
    g.(pg_operator_id) = id ∧ g.(pg_revoked_at) = None ∧ g.(pg_permission) = p.
Proof.
  unfold live_permissions, live_grants. rewrite list_elem_of_fmap. split.
  - intros ([gid g] & -> & [[H1 H2] Hg]%list_elem_of_filter). apply elem_of_map_to_list in Hg. eauto 8.
  - intros (gid & g & Hg & H1 & H2 & <-). exists (gid, g). split; [done|].
    apply list_elem_of_filter. split; [done|]. by apply elem_of_map_to_list.
Qed.

Lemma elem_of_unrevoked s u id o :
  (id, o) ∈ unrevoked_operators s u ↔ s.(ps_operators) !! id = Some o ∧ o.(po_user_id) = u ∧ o.(po_status) ≠ OP_REVOKED.
Proof.
  unfold unrevoked_operators. rewrite list_elem_of_filter, elem_of_map_to_list. simpl. naive_solver.
Qed.

Section Steps.
Context (uuid4 : nat → uuid) (c : caller).
Abbreviation steps := (rtc (pchange c)).

Lemma record_event_Ok action target r s u s' :
  record_platform_event c action target r s = (Ok u, s') → s' = add_paudit (mkPAudit c action target SUCCESS r) s.
Proof.
  unfold record_platform_event. intros H. destruct c; destruct (reason_too_long r); try case_bool_decide; by simplify_eq.
Qed.

Lemma record_event_steps action target r s u s' :
  record_platform_event c action target r s = (Ok u, s') → steps s s'.
Proof. intros ->%record_event_Ok. apply rtc_once. constructor. Qed.

Lemma refuse_self_Ok op u s x s' : refuse_self op c u s = (Ok x, s') → s' = s ∧ acting_user_id c ≠ Some u.
Proof. unfold refuse_self. case_bool_decide; unfold_store; naive_solver. Qed.

Lemma active_subject_Ok u s x s' : require_active_subject u s = (Ok x, s') → s' = s ∧ is_active_user s u = true.
Proof.
  unfold require_active_subject, is_active_user. destruct (ps_users s !! u) as [[]|] eqn:E; intros H; simplify_eq.
  split; [done|]. by rewrite bool_decide_eq_true_2.
Qed.

Lemma lock_operator_Ok id s o s' : lock_operator id s = (Ok o, s') → s' = s ∧ s.(ps_operators) !! id = Some o.
Proof. unfold lock_operator. destruct (_ !! id); intros; simplify_eq; done. Qed.

Lemma enroll_steps u r now s id s' :
  enroll_in_transaction uuid4 c u r now s = (Ok id, s') →
  steps s s' ∧ ∃ o, s'.(ps_operators) = <[id := o]> s.(ps_operators) ∧ o.(po_user_id) = u ∧
    o.(po_status) = OP_ACTIVE ∧ s'.(ps_users) = s.(ps_users) ∧ s'.(ps_identities) = s.(ps_identities) ∧
    s'.(ps_grants) = s.(ps_grants) ∧ is_active_user s u = true.
Proof.
  unfold enroll_in_transaction. intros H.
  apply bind_Ok in H as ([] & s1 & H1 & H). apply refuse_self_Ok in H1 as [-> Hself].
  apply bind_Ok in H as ([] & s1 & H1 & H). apply active_subject_Ok in H1 as [-> Hact].
  apply bind_Ok in H as (s0 & s1 & [= <- <-] & H).
  destruct (negb (lock_external_identity_exists s u)) eqn:Hlink; [done|].
  destruct (unrevoked_operator_exists s u) eqn:Hex; [done|].
  apply bind_Ok in H as (id' & s1 & H1 & H). unfold insert_operator in H1.
  case_bool_decide as Hfresh; [|done]. injection H1 as <- <-.
  apply bind_Ok in H as ([] & s2 & H1 & [= <- <-]).
  pose proof (record_event_steps _ _ _ _ _ _ H1) as Hrec.
  apply negb_false_iff in Hlink. unfold unrevoked_operator_exists in Hex.
  apply negb_false_iff, bool_decide_eq_true_1 in Hex. split.
  - eapply rtc_l; [by apply Ch_enroll|]. done.
  - apply record_event_Ok in H1 as ->. simpl. eauto 10.
Qed.

Lemma set_status_steps op id expected new r now s x s' :
  expected = OP_ACTIVE ∧ new = OP_SUSPENDED ∨ expected = OP_SUSPENDED ∧ new = OP_ACTIVE →
  set_status_in_transaction op c id expected new r now s = (Ok x, s') → steps s s'.
Proof.
  intros Hst H. unfold set_status_in_transaction in H.
  apply bind_Ok in H as (o & s1 & H1 & H). apply lock_operator_Ok in H1 as [-> Ho].
  apply bind_Ok in H as ([] & s1 & H1 & H). apply refuse_self_Ok in H1 as [-> Hself].
  destruct (negb _) eqn:Hn; [done|]. reflect_bools.
  apply bind_Ok in H as (s0 & s1 & [= <- <-] & H). apply bind_Ok in H as ([] & s1 & [= <-] & H).
  apply bind_Ok in H as ([] & s2 & H1 & [= <- <-]).
  eapply rtc_l; [eapply (Ch_status c id o new now s Ho Hself); by subst expected|].
  by eapply record_event_steps.
Qed.

Lemma grant_steps id p r now s x s' : grant_in_transaction uuid4 c id p r now s = (Ok x, s') →
  steps s s' ∧ s'.(ps_operators) = s.(ps_operators) ∧
  s'.(ps_users) = s.(ps_users) ∧ s'.(ps_identities) = s.(ps_identities) ∧
  (∀ q, q ∈ live_permissions s' id ↔ q = p ∨ q ∈ live_permissions s id).
Proof.
  unfold grant_in_transaction. intros H.
  apply bind_Ok in H as (o & s1 & H1 & H). apply lock_operator_Ok in H1 as [-> Ho].
  apply bind_Ok in H as ([] & s1 & H1 & H). apply refuse_self_Ok in H1 as [-> Hself].
  case_bool_decide as Hrev; [done|].
  apply bind_Ok in H as ([] & s1 & H1 & H). apply active_subject_Ok in H1 as [-> Hact].
  apply bind_Ok in H as ([] & s1 & H1 & H).
  assert (s1 = s ∧ ∀ u, acting_user_id c = Some u → platform_can s u p = Ok true) as [-> Hheld].
  { unfold require_held in H1. injection H1 as H1 <-. split; [done|]. intros u Hu. rewrite Hu in H1.
    unfold result_bind, raise_if in H1. by destruct (platform_can s u p) as [[]|]. }
  apply bind_Ok in H as (s0 & s1 & [= <- <-] & H).
  case_bool_decide as Hlive; [done|].
  apply bind_Ok in H as (gid & s1 & H2 & H). unfold insert_grant in H2.
  case_bool_decide as Hfresh; [|done]. injection H2 as <- <-.
  apply bind_Ok in H as ([] & s2 & H2 & [= <- <-]).
  split.
  { eapply rtc_l; [by eapply Ch_grant|]. by eapply record_event_steps. }
  assert (s2.(ps_grants) = <[uuid4 (ps_drawn s) := mkGrant id p (acting_user_id c) now None None]> (ps_grants s) ∧
          s2.(ps_operators) = ps_operators s ∧ s2.(ps_users) = ps_users s ∧
          s2.(ps_identities) = ps_identities s) as (Hg & -> & -> & ->).
  { by apply record_event_Ok in H2 as ->. }
  split_and!; try done.
  intros q. rewrite !elem_of_live_permissions, Hg. split.
  - intros (i & g & Hi & Hop & Hl & <-). destruct (decide (i = uuid4 (ps_drawn s))) as [->|Hne].
    + rewrite lookup_insert_eq in Hi. injection Hi as <-. left. done.
    + rewrite lookup_insert_ne in Hi by congruence. right. eauto 8.
  - intros [->|(i & g & Hi & ?)]; [|].
    { exists (uuid4 (ps_drawn s)), (mkGrant id p (acting_user_id c) now None None). by rewrite lookup_insert_eq. }
    exists i, g. rewrite lookup_insert_ne; [done|]. congruence.
Qed.

Lemma grant_each_steps id ps r now s x s' : grant_each uuid4 c id ps r now s = (Ok x, s') →
  steps s s' ∧ s'.(ps_operators) = s.(ps_operators) ∧ s'.(ps_users) = s.(ps_users) ∧
  s'.(ps_identities) = s.(ps_identities) ∧
  ∀ q, q ∈ live_permissions s' id ↔ q ∈ ps ∨ q ∈ live_permissions s id.
Proof.
  revert s. induction ps as [|p ps IH]; intros s H; simpl in H.
  { injection H as _ <-. split_and!; try done. intros q. rewrite elem_of_nil. naive_solver. }
  apply bind_Ok in H as (gid & s1 & H1 & H). apply grant_steps in H1 as (Hst & Ho & Hu & Hi & Hp).
  apply IH in H as (Hst' & Ho' & Hu' & Hi' & Hq). split_and!; [by etransitivity|congruence..|].
  intros q. rewrite Hq, Hp, elem_of_cons. naive_solver.
Qed.

Lemma revoke_steps id r now s x s' : revoke_body c id r now s = (Ok x, s') → steps s s'.
Proof.
  unfold revoke_body. intros H.
  apply bind_Ok in H as (o & s1 & H1 & H). apply lock_operator_Ok in H1 as [-> Ho].
  apply bind_Ok in H as ([] & s1 & H1 & H). apply refuse_self_Ok in H1 as [-> Hself].
  case_bool_decide as Hrev; [done|].
  apply bind_Ok in H as (s0 & s1 & [= <- <-] & H). apply bind_Ok in H as ([] & s1 & [= <-] & H).
  apply bind_Ok in H as ([] & s2 & H1 & [= <- <-]).
  eapply rtc_l; [by eapply (Ch_revoke c id o now)|]. by eapply record_event_steps.
Qed.

Lemma revoke_grant_steps id p r now s x s' : revoke_grant_body c id p r now s = (Ok x, s') → steps s s'.
Proof.
  unfold revoke_grant_body. intros H.
  apply bind_Ok in H as (o & s1 & H1 & H). apply lock_operator_Ok in H1 as [-> Ho].
  apply bind_Ok in H as ([] & s1 & H1 & H). apply refuse_self_Ok in H1 as [-> Hself].
  apply bind_Ok in H as (s0 & s1 & [= <- <-] & H).
  apply bind_Ok in H as (og & s1 & H1 & H). unfold lift in H1. injection H1 as Hone <-.
  destruct og as [[gid g]|]; [|done].
  assert ((gid, g) ∈ live_grants s id) as Hin.
  { destruct (filter _ _) as [|y [|]] eqn:E; simplify_eq/=.
    eapply list_elem_of_filter with (P := λ p0 : uuid * PlatformGrant, pg_permission p0.2 = p).
    rewrite E. by apply list_elem_of_singleton. }
  unfold live_grants in Hin. apply list_elem_of_filter in Hin as [[Hop Hrev] Hg].
  apply elem_of_map_to_list in Hg. simpl in *. subst id.
  apply bind_Ok in H as ([] & s1 & [= <-] & H). apply bind_Ok in H as ([] & s2 & H1 & [= <- <-]).
  eapply rtc_l; [by eapply (Ch_ungrant c gid g o now)|]. by eapply record_event_steps.
Qed.

Lemma resolve_steps who s u s' : resolve_user uuid4 who s = (Ok u, s') → steps s s' ∧
  s'.(ps_operators) = s.(ps_operators) ∧ s'.(ps_grants) = s.(ps_grants) ∧ find_user s' who = Some u.
Proof.
  unfold resolve_user. intros H. destruct who as [u0|i sub]; simplify_eq; [done|].
  destruct (ps_identities s !! (i, sub)) eqn:E; simplify_eq; [done|].
  case_bool_decide as Hf; simplify_eq. split; [|simpl; by rewrite lookup_insert_eq]. apply rtc_once. by constructor.
Qed.

Lemma bootstrap_steps owner ps r now s x s' : bootstrap_body uuid4 c owner ps r now s = (Ok x, s') → steps s s'.
Proof.
  unfold bootstrap_body. intros H. apply bind_Ok in H as (s0 & s1 & [= <- <-] & H).
  destruct (map_to_list (ps_operators s)) as [|e l].
  - apply bind_Ok in H as (u & s1 & H1 & H). apply resolve_steps in H1 as [Hst1 _].
    apply bind_Ok in H as (id & s2 & H2 & H). apply enroll_steps in H2 as [Hst2 _].
    apply bind_Ok in H as ([] & s3 & H3 & [= <- <-]). apply grant_each_steps in H3 as [Hst3 _].
    by repeat (etransitivity; [done|]).
  - destruct (same_bootstrap _ _ _ _); [|done]. injection H as <- <-. done.
Qed.

Lemma recover_steps enroll ps susp r now s x s' :
  recover_body uuid4 c enroll ps susp r now s = (Ok x, s') → steps s s'.
Proof.
  unfold recover_body. intros H. apply bind_Ok in H as (res & s1 & H1 & H).
  assert (steps s s1) as Hst1.
  { destruct enroll as [who|]; [|by injection H1 as <- <-]. unfold recover_enroll in H1.
    apply bind_Ok in H1 as (u & s2 & H2 & H1). apply resolve_steps in H2 as [Hst _].
    apply bind_Ok in H1 as (s0 & s3 & [= <- <-] & H1).
    apply bind_Ok in H1 as (cur & s3 & H3 & H1). unfold lift in H3. injection H3 as _ <-.
    apply bind_Ok in H1 as ([id enrolled] & s3 & H3 & H1).
    assert (steps s2 s3) as Hst2.
    { destruct cur as [[id0 o]|].
      - destruct (bool_decide _); [|done]. destruct (lock_external_identity_exists _ _); [|done].
        by injection H3 as <- <- <-.
      - apply bind_Ok in H3 as (id0 & s4 & H4 & [= <- <- <-]). by apply enroll_steps in H4 as [? _]. }
    apply bind_Ok in H1 as (granted & s4 & H4 & [= <- <-]). unfold recover_grants in H4.
    apply bind_Ok in H4 as (s0 & s5 & [= <- <-] & H4). apply bind_Ok in H4 as ([] & s5 & H5 & [= <- <-]).
    apply grant_each_steps in H5 as [Hst3 _]. by repeat (etransitivity; [done|]). }
  destruct susp as [id|]; [|by injection H as <- <-].
  apply bind_Ok in H as (s0 & s2 & [= <- <-] & H). case_bool_decide; [by injection H as <- <-|].
  apply bind_Ok in H as (y & s2 & H2 & [= <- <-]). etransitivity; [done|].
  eapply set_status_steps; [by left|]. done.
Qed.
End Steps.

(** ** Commands and histories *)

Inductive paction : Type :=
| PEnroll (user_id : uuid)
| PSuspend (operator_id : uuid)
| PReactivate (operator_id : uuid)
| PRevoke (operator_id : uuid)
| PGrant (operator_id : uuid) (permission : PlatformPermission)
| PUngrant (operator_id : uuid) (permission : PlatformPermission)
| PBootstrap (owner : subject) (permissions : list PlatformPermission)
| PRecover (enroll : option subject) (permissions : list PlatformPermission) (suspend : option uuid).

Record pcommand : Type := mkPCommand {
  pc_caller : caller;
  pc_reason : pystr;
  pc_now : datetime;
  pc_action : paction;
}.

Definition discard {S E A : Type} (m : M S E A) : M S E unit := do* _ := m in ret tt.

Section Histories.
Context (uuid4 : nat → uuid).

Definition prun (cmd : pcommand) : PM unit :=
  let '(mkPCommand c reason now a) := cmd in
  match a with
  | PEnroll u => discard (enroll_operator uuid4 u c reason now)
  | PSuspend id => discard (suspend_operator id c reason now)
  | PReactivate id => discard (reactivate_operator id c reason now)
  | PRevoke id => discard (revoke_operator id c reason now)
  | PGrant id p => discard (grant_platform_permission uuid4 id p c reason now)
  | PUngrant id p => discard (revoke_platform_permission id p c reason now)
  | PBootstrap owner ps => discard (bootstrap_platform_owner uuid4 owner ps c reason now)
  | PRecover enroll ps susp => discard (recover_platform_authority uuid4 c reason enroll ps susp now)
  end.

Definition pexec (cmd : pcommand) (s : platform_store) : platform_store := (prun cmd s).2.
Definition phistory (cmds : list pcommand) (s : platform_store) : platform_store := foldl (λ s cmd, pexec cmd s) s cmds.

Lemma phistory_invariant (P : platform_store → Prop) (ok : pcommand → Prop) cmds s :
  (∀ cmd s, ok cmd → P s → P (pexec cmd s)) → Forall ok cmds → P s → P (phistory cmds s).
Proof.
  intros Hstep Hok. revert s. induction Hok as [|cmd cmds Hc Hcs IH]; intros s HP; [done|].
  apply IH, Hstep; done.
Qed.

(** What a computation [m] by [c] may do to the store: along the machine, and
    never losing the last owner. *)
Definition guarded {A : Type} (c : caller) (m : PM A) : Prop :=
  ∀ s, rtc (pchange c) s (m s).2 ∧ (platform_owner_exists s = true → platform_owner_exists (m s).2 = true).

Lemma owner_add_audit a s : platform_owner_exists (add_paudit a s) = platform_owner_exists s.
Proof. done. Qed.

Lemma guarded_refusal c action target code s :
  rtc (pchange c) s (record_platform_refusal c action target code s) ∧
  platform_owner_exists (record_platform_refusal c action target code s) = platform_owner_exists s.
Proof.
  unfold record_platform_refusal. destruct c; [case_bool_decide| |]; rewrite ?owner_add_audit;
    (split; [|done]); try done; apply rtc_once; constructor.
Qed.

Lemma guarded_recording {A} c action target (m : PM A) :
  guarded c m → guarded c (recording_platform_refusal c action target m).
Proof.
  intros Hm s. specialize (Hm s). unfold recording_platform_refusal.
  destruct (m s) as [[a|e] s'] eqn:E; [done|]. destruct (refusal_code e) as [code|]; [|done]. simpl in *.
  destruct (guarded_refusal c action (target s') code s') as [Hst Ho]. destruct Hm as [Hst' Ho'].
  split; [by etransitivity|]. rewrite Ho. done.
Qed.

Lemma guarded_transaction {A} ops last_op c (body : PM A) :
  (∀ s a s', body s = (Ok a, s') → rtc (pchange c) s s') → guarded c (authority_transaction ops last_op c body).
Proof.
  intros Hb s. unfold authority_transaction, transaction, bind, get, throw, ret.
  destruct (authorize_all ops c s) as [[]|e]; [|done].
  destruct (body s) as [[a|e] s'] eqn:E; [|done].
  destruct (platform_owner_exists s) eqn:Ho; simpl; [|by split; [eapply Hb|]].
  destruct (platform_owner_exists s') eqn:Ho'; simpl; [|by rewrite Ho].
  split; [by eapply Hb|done].
Qed.

Lemma guarded_bind {A B} c (m : PM A) (k : A → PM B) :
  (∀ s, (m s).2 = s ∨ guarded c m) → (∀ a, guarded c (k a)) → guarded c (bind m k).
Proof.
  intros Hm Hk s. unfold bind. destruct (Hm s) as [Hs|Hg].
  - destruct (m s) as [[a|e] s'] eqn:E; simpl in Hs; subst s'; [apply Hk|done].
  - destruct (Hg s) as [Hst Ho]. destruct (m s) as [[a|e] s'] eqn:E; [|done]. simpl in *.
    destruct (Hk a s') as [Hst' Ho']. split; [by etransitivity|auto].
Qed.

Lemma guarded_discard {A} c (m : PM A) : guarded c m → guarded c (discard m).
Proof. intros Hm. apply guarded_bind; [by right|]. intros _ s. done. Qed.

Lemma guarded_with_reason {A} c reason (k : pystr → PM A) :
  (∀ r, guarded c (k r)) → guarded c (with_reason reason k).
Proof. intros Hk. apply guarded_bind; [by left|done]. Qed.

Lemma guarded_bootstrap_caller c label op : guarded c (require_bootstrap_caller label op c).
Proof.
  intros s. unfold require_bootstrap_caller. destruct c as [u|sa t|a]; [done|done|].
  case_bool_decide; [done|]. simpl.
  destruct (guarded_refusal (SystemCaller a) (op_audit_action (platform_operation op)) (TargetOperator None)
              "not_authorized" s) as [Hst Ho]. split; [done|]. simpl in Ho. by rewrite Ho.
Qed.

Lemma prun_guarded cmd : guarded (pc_caller cmd) (prun cmd).
Proof.
  destruct cmd as [c reason now a]. simpl.
  destruct a; apply guarded_discard;
    [unfold enroll_operator|unfold suspend_operator|unfold reactivate_operator|unfold revoke_operator
    |unfold grant_platform_permission|unfold revoke_platform_permission
    |unfold bootstrap_platform_owner|unfold recover_platform_authority];
    try (apply guarded_with_reason; intros r; apply guarded_recording, guarded_transaction; intros s x s' H).
  - by apply enroll_steps in H as [? _].
  - eapply set_status_steps; [by left|]. exact H.
  - eapply set_status_steps; [by right|]. exact H.
  - by eapply revoke_steps.
  - by apply grant_steps in H as [? _].
  - by eapply revoke_grant_steps.
  - apply guarded_bind; [right; apply guarded_bootstrap_caller|intros _].
    apply guarded_bind; [by left|intros requested]. apply guarded_bind; [by left|intros r].
    apply guarded_recording, guarded_transaction. intros s x s' H. by eapply bootstrap_steps.
  - apply guarded_bind; [right; apply guarded_bootstrap_caller|intros _].
    apply guarded_bind; [by left|intros r]. apply guarded_bind; [by left|intros requested].
    destruct (_ && _)%bool; [done|]. destruct (_ && _)%bool; [done|].
    apply guarded_recording, guarded_transaction. intros s x s' H. by eapply recover_steps.
Qed.

Lemma pexec_steps cmd s : rtc (pchange (pc_caller cmd)) s (pexec cmd s).
Proof. apply prun_guarded. Qed.
End Histories.
