(* ===== verification/PlatformSafety.v ===== *)
(** * The guarantees of platform authority

    Proved over arbitrary histories of the operations of [PlatformService], from
    the abstract machine [pchange] of [PlatformProofs]. *)

From S2P Require Import Prelude PyStr PlatformAuthority PlatformService PlatformProofs.

(** ** The invariant of the tables

    What the two partial unique indexes and the foreign key promise, kept by the
    checks of the operations themselves. *)
Definition live (g : PlatformGrant) : Prop := g.(pg_revoked_at) = None.

Record pwf (s : platform_store) : Prop := {
  one_operator : ∀ i j o o', s.(ps_operators) !! i = Some o → s.(ps_operators) !! j = Some o' →
    o.(po_user_id) = o'.(po_user_id) → o.(po_status) ≠ OP_REVOKED → o'.(po_status) ≠ OP_REVOKED → i = j;
  one_live_grant : ∀ i j g g', s.(ps_grants) !! i = Some g → s.(ps_grants) !! j = Some g' → live g → live g' →
    g.(pg_operator_id) = g'.(pg_operator_id) → g.(pg_permission) = g'.(pg_permission) → i = j;
  grant_operator : ∀ i g, s.(ps_grants) !! i = Some g → live g →
    ∃ o, s.(ps_operators) !! g.(pg_operator_id) = Some o ∧ o.(po_status) ≠ OP_REVOKED;
}.

Lemma pwf_empty us ids a n : pwf (mkPlatform us ids ∅ ∅ a n).
Proof. split; simpl; intros; by rewrite lookup_empty in *. Qed.

Lemma unrevoked_nil s u i o : unrevoked_operators s u = [] →
  s.(ps_operators) !! i = Some o → o.(po_user_id) = u → o.(po_status) = OP_REVOKED.
Proof.
  intros Hn Ho Hu. destruct (decide (po_status o = OP_REVOKED)) as [|Hr]; [done|].
  assert ((i, o) ∈ unrevoked_operators s u) as Hin by (by apply elem_of_unrevoked).
  rewrite Hn in Hin. by apply elem_of_nil in Hin.
Qed.

(** A change of one operator row that keeps its user. *)
Lemma pwf_set_operator s id o new : pwf s → s.(ps_operators) !! id = Some o →
  new.(po_user_id) = o.(po_user_id) → o.(po_status) ≠ OP_REVOKED → new.(po_status) ≠ OP_REVOKED →
  pwf (set_operator id new s).
Proof.
  intros [H1 H2 H3] Ho Hu Hr Hr'. split; simpl.
  - intros i j a b Ha Hb Hab Hra Hrb.
    destruct (decide (i = id)) as [->|Hi], (decide (j = id)) as [->|Hj]; [done| | |];
      rewrite ?lookup_insert_eq, ?lookup_insert_ne in Ha by done;
      rewrite ?lookup_insert_eq, ?lookup_insert_ne in Hb by done; simplify_eq.
    + eapply (H1 id j o b); eauto; congruence.
    + eapply (H1 i id a o); eauto; congruence.
    + by eapply (H1 i j a b).
  - done.
  - intros i g Hg Hl. destruct (H3 i g Hg Hl) as (o' & Ho' & Hr'').
    destruct (decide (pg_operator_id g = id)) as [->|Hne]; [rewrite lookup_insert_eq; eauto|].
    rewrite lookup_insert_ne by done. eauto.
Qed.

Lemma pchange_pwf c s s' : pchange c s s' → pwf s → pwf s'.
Proof.
  intros Hch Hwf. destruct Hch as [a s|id link s|id u now s Hself Hact Hlink Hnil Hfresh|id o new now s Ho Hself Hst
    |id o now s Ho Hself Hst|gid id o p now s Ho Hself Hst Hact Hheld Hnew Hfresh|gid g o now s Hg Hl Ho Hself].
  - by destruct Hwf.
  - by destruct Hwf.
  - destruct Hwf as [H1 H2 H3]. split; simpl; [|done|].
    + intros i j a b Ha Hb Hab Hra Hrb.
      destruct (decide (i = id)) as [->|Hi], (decide (j = id)) as [->|Hj]; [done| | |];
        rewrite ?lookup_insert_eq, ?lookup_insert_ne in Ha by done;
        rewrite ?lookup_insert_eq, ?lookup_insert_ne in Hb by done; simplify_eq/=.
      * by destruct Hrb; eapply unrevoked_nil.
      * by destruct Hra; eapply unrevoked_nil.
      * by eapply (H1 i j a b).
    + intros i g Hg Hl. destruct (H3 i g Hg Hl) as (o' & Ho' & Hr''). exists o'. split; [|done].
      rewrite lookup_insert_ne; [done|]. congruence.
  - apply (pwf_set_operator _ _ o); try done;
      destruct Hst as [[Hs ->]|[Hs ->]]; rewrite ?Hs; done.
  - destruct Hwf as [H1 H2 H3]. split; simpl.
    + intros i j a b Ha Hb Hab Hra Hrb.
      destruct (decide (i = id)) as [->|Hi], (decide (j = id)) as [->|Hj]; [done| | |];
        rewrite ?lookup_insert_eq, ?lookup_insert_ne in Ha by done;
        rewrite ?lookup_insert_eq, ?lookup_insert_ne in Hb by done; simplify_eq/=; try done.
      by eapply (H1 i j a b).
    + intros i j g g' Hg Hg' Hl Hl'. rewrite lookup_fmap in Hg, Hg'.
      apply fmap_Some in Hg as (g0 & Hg & ->). apply fmap_Some in Hg' as (g0' & Hg' & ->).
      unfold revoke_live_grants in *. destruct (_ && _)%bool; [done|]. destruct (_ && _)%bool; [done|].
      by eapply H2.
    + intros i g Hg Hl. rewrite lookup_fmap in Hg. apply fmap_Some in Hg as (g0 & Hg & ->).
      unfold revoke_live_grants in *. destruct (_ && _)%bool eqn:E; [done|].
      destruct (H3 i g0 Hg Hl) as (o' & Ho' & Hr'). exists o'. split; [|done].
      rewrite lookup_insert_ne; [done|]. intros Heq.
      rewrite (bool_decide_eq_true_2 (pg_operator_id g0 = id)), (bool_decide_eq_true_2 (pg_revoked_at g0 = None)) in E
        by done. done.
  - destruct Hwf as [H1 H2 H3]. split; simpl; [done| |].
    + assert (∀ j g', ps_grants s !! j = Some g' → live g' → pg_operator_id g' = id → pg_permission g' ≠ p) as Hno.
      { intros j g' Hg' Hl' Hop Hp. apply Hnew, elem_of_live_permissions. eauto 8. }
      intros i j g g' Hg Hg' Hl Hl' Hop Hp.
      destruct (decide (i = gid)) as [->|Hi], (decide (j = gid)) as [->|Hj]; [done| | |];
        rewrite ?lookup_insert_eq, ?lookup_insert_ne in Hg by done;
        rewrite ?lookup_insert_eq, ?lookup_insert_ne in Hg' by done; simplify_eq/=.
      * by destruct (Hno j g' Hg' Hl').
      * by destruct (Hno i g Hg Hl).
      * by eapply H2.
    + intros i g Hg Hl. destruct (decide (i = gid)) as [->|Hi].
      * rewrite lookup_insert_eq in Hg. simplify_eq/=. eauto.
      * rewrite lookup_insert_ne in Hg by done. eauto.
  - destruct Hwf as [H1 H2 H3].
    assert (∀ i g', <[gid := revoked_grant now (acting_user_id c) g]> (ps_grants s) !! i = Some g' → live g' →
              ps_grants s !! i = Some g') as Hold.
    { intros i g' Hg' Hl'. destruct (decide (i = gid)) as [->|Hi].
      - rewrite lookup_insert_eq in Hg'. by simplify_eq.
      - by rewrite lookup_insert_ne in Hg'. }
    split; simpl; [done| |]; eauto.
Qed.

Lemma psteps_pwf c s s' : rtc (pchange c) s s' → pwf s → pwf s'.
Proof. induction 1; eauto using pchange_pwf. Qed.

Lemma phistory_pwf uuid4 cmds s : pwf s → pwf (phistory uuid4 cmds s).
Proof.
  apply (phistory_invariant uuid4 pwf (λ _, True)); [|by apply Forall_true].
  intros cmd s' _. eapply psteps_pwf, pexec_steps.
Qed.

(** ** Authorization *)

Lemma unrevoked_singleton s u : pwf s →
  unrevoked_operators s u = [] ∨
  ∃ id o, unrevoked_operators s u = [(id, o)] ∧ s.(ps_operators) !! id = Some o ∧ o.(po_user_id) = u ∧
    o.(po_status) ≠ OP_REVOKED.
Proof.
  intros Hwf. assert (NoDup (unrevoked_operators s u)) as Hnd by apply NoDup_filter, NoDup_map_to_list.
  assert (∀ id o, (id, o) ∈ unrevoked_operators s u → s.(ps_operators) !! id = Some o ∧ o.(po_user_id) = u ∧
    o.(po_status) ≠ OP_REVOKED) as Hin by (intros; by apply elem_of_unrevoked).
  destruct (unrevoked_operators s u) as [|[i o] [|[j o'] l]]; [by left|right|exfalso].
  - exists i, o. split; [done|]. apply Hin, list_elem_of_here.
  - destruct (Hin i o) as (Hi & Hui & Hri); [apply list_elem_of_here|].
    destruct (Hin j o') as (Hj & Huj & Hrj); [apply list_elem_of_further, list_elem_of_here|].
    assert (i = j) as <- by (eapply (one_operator s Hwf i j o o'); eauto; congruence).
    assert (o = o') as <- by congruence. apply NoDup_cons in Hnd as [Hnd _]. apply Hnd, list_elem_of_here.
Qed.

(** [u] holds [p]: through an active operator of an active user. *)
Definition holds_permission (s : platform_store) (u : uuid) (p : PlatformPermission) : Prop :=
  is_active_user s u = true ∧
  ∃ id o, s.(ps_operators) !! id = Some o ∧ o.(po_user_id) = u ∧ o.(po_status) = OP_ACTIVE ∧
    p ∈ live_permissions s id.

Lemma platform_can_spec s u p : pwf s →
  ∃ b, platform_can s u p = Ok b ∧ (b = true ↔ holds_permission s u p).
Proof.
  intros Hwf. unfold platform_can, decide_platform, holds_permission.
  destruct (is_active_user s u) eqn:Ha; simpl; [|exists false; naive_solver].
  destruct (unrevoked_singleton s u Hwf) as [Hn|(id & o & -> & Ho & Hu & Hr)]; simpl.
  - rewrite Hn. exists false. split; [done|]. split; [done|]. intros [_ (id & o & Ho & Hu & Hs & _)].
    by rewrite (unrevoked_nil s u id o Hn Ho Hu) in Hs.
  - destruct (decide (po_status o = OP_ACTIVE)) as [Hs|Hs].
    + rewrite bool_decide_eq_true_2 by done. simpl. eexists. split; [done|]. rewrite bool_decide_eq_true.
      split; [by eauto 8|]. intros [_ (id' & o' & Ho' & Hu' & Hs' & Hp)].
      assert (id' = id) as ->; [|done]. eapply (one_operator s Hwf id' id o' o); eauto; congruence.
    + rewrite bool_decide_eq_false_2 by done. exists false. split; [done|]. split; [done|].
      intros [_ (id' & o' & Ho' & Hu' & Hs' & Hp)].
      assert (id' = id) as -> by (eapply (one_operator s Hwf id' id o' o); eauto; congruence).
      congruence.
Qed.

(** Who may perform an operation. *)
Definition may_perform (s : platform_store) (c : caller) (op : operation) : Prop :=
  match c with
  | SystemCaller a => a ∈ op_system_authorities (platform_operation op)
  | ServiceAccountCaller _ _ => False
  | UserCaller u => ∃ p, op_permission (platform_operation op) = Some p ∧ holds_permission s u p
  end.

Lemma authorize_spec s c op : pwf s →
  authorize_platform_caller s c op = Ok tt ∧ may_perform s c op ∨
  authorize_platform_caller s c op = Raise (PlatformNotAuthorizedError (key op)) ∧ ¬ may_perform s c op.
Proof.
  intros Hwf. destruct c as [u|sa t|a]; simpl; [|right; split; [done|by intros []]|].
  - destruct (op_permission (platform_operation op)) as [p|]; [|right; naive_solver].
    destruct (platform_can_spec s u p Hwf) as (b & -> & Hb). unfold result_bind, raise_if.
    destruct b; [left|right]; simpl; (split; [done|]); [naive_solver|].
    intros (p' & [= <-] & Hp). by apply Hb in Hp.
  - unfold raise_if. case_bool_decide; simpl; [by left|by right].
Qed.

(** Authorization is exactly the documented rule.  In every store a
    history of authority changes can reach, the decision is total and grants an
    operation exactly to: a system purpose the operation table lists, or an
    active user with an active operator that holds the operation's permission by
    a live grant; never to a service account; everyone else gets the one error
    that does not say why. *)
Theorem authorization_exact (uuid4 : nat → uuid) (us : gmap uuid bool) (ids : gmap (string * string) uuid)
    (cmds : list pcommand) (c : caller) (op : operation) :
  let s := phistory uuid4 cmds (mkPlatform us ids ∅ ∅ [] 0) in
  (authorize_platform_caller s c op = Ok tt ↔ may_perform s c op) ∧
  (authorize_platform_caller s c op = Raise (PlatformNotAuthorizedError (key op)) ↔ ¬ may_perform s c op).
Proof.
  intros s. assert (pwf s) as Hwf by apply phistory_pwf, pwf_empty.
  destruct (authorize_spec s c op Hwf) as [[-> H]|[-> H]]; naive_solver.
Qed.

(** ** The last owner *)

Lemma owner_exists_spec s : pwf s → platform_owner_exists s = true →
  ∃ u, holds_permission s u OWNER_PERMISSION.
Proof.
  intros Hwf. unfold platform_owner_exists. rewrite existsb_exists. intros ([id o] & Hin & Ho).
  apply list_elem_of_In, elem_of_map_to_list in Hin. unfold is_owner in Ho. simpl in *. reflect_bools.
  exists (po_user_id o). split; [done|]. eauto 8.
Qed.

(** C21: the deployment keeps an owner.  Once there is a platform owner, then
    after every history of authority changes, by whomever, refused or accepted,
    composite or not, there still is one, and that person is authorized to
    change platform authority. *)
Theorem owner_kept (uuid4 : nat → uuid) (cmds : list pcommand) (s : platform_store) :
  pwf s → platform_owner_exists s = true →
  platform_owner_exists (phistory uuid4 cmds s) = true ∧
  ∃ u, authorize_platform_caller (phistory uuid4 cmds s) (UserCaller u) GRANT_CREATE = Ok tt.
Proof.
  intros Hwf Ho. assert (platform_owner_exists (phistory uuid4 cmds s) = true) as Ho'.
  { apply (phistory_invariant uuid4 (λ s, platform_owner_exists s = true) (λ _, True)); [|by apply Forall_true|done].
    intros cmd s' _. apply prun_guarded. }
  split; [done|]. pose proof (phistory_pwf uuid4 cmds s Hwf) as Hwf'.
  destruct (owner_exists_spec _ Hwf' Ho') as [u Hu]. exists u.
  destruct (authorize_spec _ (UserCaller u) GRANT_CREATE Hwf') as [[-> _]|[_ Hn]]; [done|].
  destruct Hn. exists OWNER_PERMISSION. done.
Qed.

(** ** No self-service *)

(** The operators of [u] and the grants of those operators. *)
Definition authority_of (u : uuid) (s : platform_store) : gmap uuid PlatformOperator * gmap uuid PlatformGrant :=
  (filter (λ p : uuid * PlatformOperator, p.2.(po_user_id) = u) s.(ps_operators),
   filter (λ p : uuid * PlatformGrant, po_user_id <$> s.(ps_operators) !! p.2.(pg_operator_id) = Some u)
     s.(ps_grants)).

Lemma filter_insert_other {A} (P : uuid * A → Prop) `{!∀ x, Decision (P x)} (m : gmap uuid A) i x :
  ¬ P (i, x) → (∀ y, m !! i = Some y → ¬ P (i, y)) → filter P (<[i := x]> m) = filter P m.
Proof.
  intros Hx Hy. rewrite map_filter_insert_False by done. apply map_filter_delete_not. done.
Qed.

Lemma pchange_self u s s' : pchange (UserCaller u) s s' → authority_of u s' = authority_of u s.
Proof.
  intros Hch. destruct Hch as [a s|id link s|id u' now s Hself Hact Hlink Hnil Hfresh|id o new now s Ho Hself Hst
    |id o now s Ho Hself Hst|gid id o p now s Ho Hself Hst Hact Hheld Hnew Hfresh|gid g o now s Hg Hl Ho Hself];
    try simpl in Hself; unfold authority_of; simpl; [done|done| | | | |].
  - f_equal.
    + apply filter_insert_other; simpl; [congruence|]. intros y Hy. congruence.
    + apply map_filter_ext. intros i g Hg. simpl. destruct (decide (pg_operator_id g = id)) as [->|Hne].
      * rewrite lookup_insert_eq, Hfresh. simpl. split; intros; simplify_eq; congruence.
      * by rewrite lookup_insert_ne.
  - f_equal.
    + apply filter_insert_other; simpl; [congruence|]. intros y Hy. simplify_eq. congruence.
    + apply map_filter_ext. intros i g Hg. simpl. destruct (decide (pg_operator_id g = id)) as [->|Hne].
      * by rewrite lookup_insert_eq, Ho.
      * by rewrite lookup_insert_ne.
  - f_equal.
    + apply filter_insert_other; simpl; [congruence|]. intros y Hy. simplify_eq. congruence.
    + apply map_eq. intros i. apply option_eq. intros g. rewrite !map_lookup_filter_Some, lookup_fmap. simpl.
      assert (∀ j, po_user_id <$> <[id := mkOperator (po_user_id o) OP_REVOKED (po_enrolled_by o) now (Some u)]>
                (ps_operators s) !! j = po_user_id <$> ps_operators s !! j) as Hsame.
      { intros j. destruct (decide (j = id)) as [->|Hne]; [by rewrite lookup_insert_eq, Ho|by rewrite lookup_insert_ne]. }
      rewrite Hsame. unfold revoke_live_grants. split.
      * intros [Hg Hu]. apply fmap_Some in Hg as (g0 & Hg & ->).
        destruct (bool_decide (pg_operator_id g0 = id)) eqn:E; [|done]. reflect_bools.
        destruct (bool_decide _); simpl in *; rewrite E, Ho in Hu; simpl in Hu; congruence.
      * intros [Hg Hu]. split; [|done]. rewrite Hg. simpl.
        rewrite (bool_decide_eq_false_2 (pg_operator_id g = id)); [done|]. intros E. rewrite E, Ho in Hu.
        simpl in Hu. congruence.
  - f_equal. apply filter_insert_other; simpl; [rewrite Ho; simpl; congruence|]. intros y Hy. congruence.
  - f_equal. apply filter_insert_other; simpl; [rewrite Ho; simpl; congruence|]. intros y Hy. simplify_eq.
    rewrite Ho. simpl. congruence.
Qed.

(** No self-service.  Whatever a person does, in any number of calls, to
    enroll, suspend, reactivate, revoke, grant or ungrant, their own operators
    and the grants of those operators are exactly as before: nobody gives
    themselves authority, and nobody takes it from themselves. *)
Theorem no_self_service (uuid4 : nat → uuid) (u : uuid) (cmds : list pcommand) (s : platform_store) :
  Forall (λ cmd, pc_caller cmd = UserCaller u) cmds →
  authority_of u (phistory uuid4 cmds s) = authority_of u s.
Proof.
  intros Hc. apply (phistory_invariant uuid4 (λ s', authority_of u s' = authority_of u s)
    (λ cmd, pc_caller cmd = UserCaller u)); [|done|done].
  intros cmd s' Hcmd <-. pose proof (pexec_steps uuid4 cmd s') as Hst. rewrite Hcmd in Hst.
  induction Hst as [|x y z Hxy _ IH]; [done|]. by rewrite IH, (pchange_self u x y).
Qed.

(** ** No amplification *)

(** Some operator holds a live grant of [p]. *)
Definition held_somewhere (p : PlatformPermission) (s : platform_store) : Prop :=
  ∃ gid g, s.(ps_grants) !! gid = Some g ∧ live g ∧ g.(pg_permission) = p.

Lemma can_held s u p : platform_can s u p = Ok true → held_somewhere p s.
Proof.
  unfold platform_can, decide_platform, result_bind. destruct (negb _); [done|].
  destruct (one_or_none _) as [[[id o]|]|]; [|done|done]. destruct (negb _); [done|].
  intros [= H]. reflect_bools. apply elem_of_live_permissions in H as (gid & g & Hg & _ & Hl & Hp).
  by exists gid, g.
Qed.

Lemma pchange_held u s s' p : pchange (UserCaller u) s s' → held_somewhere p s' → held_somewhere p s.
Proof.
  intros Hch (i & g' & Hg' & Hl' & Hp'). destruct Hch as [| | | | id o now s Ho Hself Hst
    |gid id o q now s Ho Hself Hst Hact Hheld Hnew Hfresh|gid g o now s Hg Hl Ho Hself]; simpl in Hg'; try by exists i, g'.
  - rewrite lookup_fmap in Hg'. apply fmap_Some in Hg' as (g0 & Hg0 & ->). unfold revoke_live_grants in *.
    destruct (_ && _)%bool; [done|]. by exists i, g0.
  - destruct (decide (i = gid)) as [->|Hne].
    + rewrite lookup_insert_eq in Hg'. simplify_eq/=. eapply can_held. by apply Hheld.
    + rewrite lookup_insert_ne in Hg' by done. by exists i, g'.
  - destruct (decide (i = gid)) as [->|Hne].
    + rewrite lookup_insert_eq in Hg'. by simplify_eq.
    + rewrite lookup_insert_ne in Hg' by done. by exists i, g'.
Qed.

(** C5: no amplification.  People, however many of them act together and in
    whatever order, never bring a permission into existence: if no operator
    holds a live grant of [p], then after every history of changes made by users
    nobody does, and nobody is authorized for an operation that needs it.  Only
    the bootstrap and recovery purpose can introduce one. *)
Theorem no_amplification (uuid4 : nat → uuid) (cmds : list pcommand) (s : platform_store) (p : PlatformPermission) :
  Forall (λ cmd, ∃ u, pc_caller cmd = UserCaller u) cmds → ¬ held_somewhere p s →
  ¬ held_somewhere p (phistory uuid4 cmds s) ∧
  ∀ u op, op_permission (platform_operation op) = Some p →
    authorize_platform_caller (phistory uuid4 cmds s) (UserCaller u) op ≠ Ok tt.
Proof.
  intros Hc Hn. assert (¬ held_somewhere p (phistory uuid4 cmds s)) as Hn'.
  { apply (phistory_invariant uuid4 (λ s, ¬ held_somewhere p s) (λ cmd, ∃ u, pc_caller cmd = UserCaller u)); [|done|done].
    intros cmd s' [u Hu] Hs'. pose proof (pexec_steps uuid4 cmd s') as Hst. rewrite Hu in Hst.
    induction Hst as [|x y z Hxy _ IH]; [done|]. apply IH. intros Hy. by eapply Hs', pchange_held. }
  split; [done|]. intros u op Hop. simpl. rewrite Hop. unfold result_bind, raise_if.
  destruct (platform_can _ u p) as [[]|] eqn:E; [|done|done]. by apply can_held in E.
Qed.

(** ** Revocation is final *)

Definition is_revoked (id : uuid) (o : PlatformOperator) (s : platform_store) : Prop :=
  pwf s ∧ s.(ps_operators) !! id = Some o ∧ o.(po_status) = OP_REVOKED.

Lemma pchange_revoked c id o s s' : pchange c s s' → is_revoked id o s → is_revoked id o s'.
Proof.
  intros Hch (Hwf & Ho & Hr). split; [by eapply pchange_pwf|]. split; [|done].
  destruct Hch; simpl; try done; rewrite lookup_insert_ne; try done; intros <-;
    destruct_or?; destruct_and?; congruence.
Qed.

Lemma revoked_no_grants id o s : is_revoked id o s → live_permissions s id = [].
Proof.
  intros (Hwf & Ho & Hr). apply elem_of_nil_inv. intros p (gid & g & Hg & Hop & Hl & _)%elem_of_live_permissions.
  destruct (grant_operator s Hwf gid g Hg Hl) as (o' & Ho' & Hr'). rewrite Hop in Ho'. congruence.
Qed.

(** Revocation is final.  A revoked operator is never changed again, by
    anyone, recovery included, and holds no live grant ever after; a
    re-enrolled user starts from an operator of their own with no grants. *)
Theorem revocation_final (uuid4 : nat → uuid) (cmds : list pcommand) (s : platform_store) (id : uuid)
    (o : PlatformOperator) :
  pwf s → s.(ps_operators) !! id = Some o → o.(po_status) = OP_REVOKED →
  (phistory uuid4 cmds s).(ps_operators) !! id = Some o ∧ live_permissions (phistory uuid4 cmds s) id = [].
Proof.
  intros Hwf Ho Hr. assert (is_revoked id o (phistory uuid4 cmds s)) as Hrev.
  { apply (phistory_invariant uuid4 (is_revoked id o) (λ _, True)); [|by apply Forall_true|done].
    intros cmd s' _ Hs'. pose proof (pexec_steps uuid4 cmd s') as Hst.
    induction Hst as [|x y z Hxy _ IH]; [done|]. by eapply IH, pchange_revoked. }
  split; [apply Hrev|]. by eapply revoked_no_grants.
Qed.

(** ** Bootstrap *)

Lemma authority_transaction_Ok {A} ops last_op c (body : PM A) s a s' :
  authority_transaction ops last_op c body s = (Ok a, s') →
  authorize_all ops c s = Ok tt ∧ body s = (Ok a, s').
Proof.
  unfold authority_transaction, transaction, bind, get, throw, ret.
  destruct (authorize_all ops c s) as [[]|]; [|done]. destruct (body s) as [[b|] s1]; [|done].
  destruct (_ && _)%bool; [done|]. intros [= -> ->]. done.
Qed.

Lemma recording_Ok {A} c action target (m : PM A) s a s' :
  recording_platform_refusal c action target m s = (Ok a, s') → m s = (Ok a, s').
Proof.
  unfold recording_platform_refusal. destruct (m s) as [[b|e] s1]; [done|]. by destruct (refusal_code e).
Qed.

Lemma bootstrap_Ok uuid4 owner ps c reason now s res s' :
  bootstrap_platform_owner uuid4 owner ps c reason now s = (Ok res, s') →
  c = SystemCaller PLATFORM_BOOTSTRAP ∧ validated_permissions ps true = Ok ps ∧
  (∃ r, validate_reason reason = Ok r ∧ bootstrap_body uuid4 c owner ps r now s = (Ok res, s')).
Proof.
  unfold bootstrap_platform_owner. intros H.
  apply bind_Ok in H as ([] & s1 & H1 & H). unfold require_bootstrap_caller in H1.
  destruct c as [| |a]; [done|done|]. case_bool_decide; [|done]. subst a. injection H1 as <-.
  apply bind_Ok in H as (ps' & s1 & H1 & H). unfold lift in H1. injection H1 as Hps <-.
  apply bind_Ok in H as (r & s1 & H1 & H). unfold lift in H1. injection H1 as Hr <-.
  apply recording_Ok, authority_transaction_Ok in H as [_ H].
  assert (ps' = ps) as -> by (unfold validated_permissions in Hps; case_in Hps; congruence).
  eauto.
Qed.

Lemma same_bootstrap_spec s owner ps id o u :
  s.(ps_operators) = {[ id := o ]} → o.(po_user_id) = u → o.(po_status) = OP_ACTIVE → find_user s owner = Some u →
  (∀ p, p ∈ live_permissions s id ↔ p ∈ ps) →
  same_bootstrap s owner ps (map_to_list s.(ps_operators)) = Some (mkBootstrap id u ps false).
Proof.
  intros Ho Hu Hs Hf Hp. rewrite Ho, map_to_list_singleton. unfold same_bootstrap. rewrite Hf.
  rewrite !bool_decide_eq_true_2; try done; apply Forall_forall; naive_solver.
Qed.

Lemma bootstrap_body_Ok uuid4 owner ps r now s s' res :
  pwf s → OWNER_PERMISSION ∈ ps →
  bootstrap_body uuid4 (SystemCaller PLATFORM_BOOTSTRAP) owner ps r now s = (Ok res, s') →
  same_bootstrap s' owner ps (map_to_list (ps_operators s')) =
    Some (mkBootstrap (br_operator_id res) (br_user_id res) ps false) ∧
  (br_created res = true → platform_owner_exists s' = true) ∧ map_to_list (ps_operators s') ≠ [].
Proof.
  intros Hwf Howner H. unfold bootstrap_body in H. apply bind_Ok in H as (s0 & s1 & [= <- <-] & H).
  destruct (map_to_list (ps_operators s)) as [|e l] eqn:El.
  - apply map_to_list_empty_iff in El.
    apply bind_Ok in H as (u & s1 & H1 & H).
    apply (resolve_steps uuid4 (SystemCaller PLATFORM_BOOTSTRAP)) in H1 as (_ & Ho1 & Hg1 & Hf1).
    apply bind_Ok in H as (id & s2 & H2 & H). apply enroll_steps in H2 as (_ & o & Ho2 & Hu2 & Hs2 & Hus2 & Hi2 & Hg2 & Ha2).
    apply bind_Ok in H as ([] & s3 & H3 & [= <- <-]). apply grant_each_steps in H3 as (_ & Ho3 & Hus3 & Hi3 & Hp3).
    assert (s3.(ps_operators) = {[ id := o ]}) as Hops by (by rewrite Ho3, Ho2, Ho1, El, insert_empty).
    assert (∀ q, q ∈ live_permissions s3 id ↔ q ∈ ps) as Hperms.
    { intros q. rewrite Hp3. split; [|by left]. intros [?|Hq]; [done|].
      apply elem_of_live_permissions in Hq as (gid & g & Hg & Hop & Hl & _). rewrite Hg2, Hg1 in Hg.
      destruct (grant_operator s Hwf gid g Hg Hl) as (o' & Ho' & _). by rewrite El, lookup_empty in Ho'. }
    simpl. split_and!.
    + apply (same_bootstrap_spec s3 owner ps id o u); try done. unfold find_user in *. by rewrite Hi3, Hi2.
    + intros _. unfold platform_owner_exists. rewrite Hops, map_to_list_singleton. simpl. unfold is_owner.
      rewrite Hs2, Hu2. rewrite (bool_decide_eq_true_2 (OWNER_PERMISSION ∈ _)) by (by apply Hperms).
      unfold is_active_user in *. by rewrite Hus3, Hus2, Ha2.
    + rewrite Hops, map_to_list_singleton. done.
  - destruct (same_bootstrap s owner ps (e :: l)) as [res'|] eqn:E; [|done]. injection H as -> <-.
    rewrite El. unfold same_bootstrap in *. destruct e as [id o]. destruct l; [|done].
    destruct (find_user s owner); [|done]. destruct (_ && _)%bool; [|done]. by injection E as <-.
Qed.

(** Bootstrap creates an owner, once.  A successful bootstrap that created
    an operator leaves a platform owner; and after any successful bootstrap, the
    same request again, with any valid reason and at any time, returns the same
    operator with [created = False] and changes nothing at all. *)
Theorem bootstrap_idempotent (uuid4 : nat → uuid) (owner : subject) (ps : list PlatformPermission) (c : caller)
    (reason : pystr) (now : datetime) (s s' : platform_store) (res : PlatformBootstrapResult) :
  pwf s → bootstrap_platform_owner uuid4 owner ps c reason now s = (Ok res, s') →
  (br_created res = true → platform_owner_exists s' = true) ∧
  ∀ reason' now' r', validate_reason reason' = Ok r' →
    bootstrap_platform_owner uuid4 owner ps c reason' now' s' =
      (Ok (mkBootstrap (br_operator_id res) (br_user_id res) ps false), s').
Proof.
  intros Hwf H. apply bootstrap_Ok in H as (-> & Hps & r & Hr & H).
  assert (OWNER_PERMISSION ∈ ps) as Howner.
  { unfold validated_permissions in Hps. destruct (negb _); [done|]. simpl in Hps.
    destruct (bool_decide (OWNER_PERMISSION ∈ ps)) eqn:E; [by reflect_bools|done]. }
  apply bootstrap_body_Ok in H as (Hsame & Howns & Hne); [|done|done].
  split; [done|]. intros reason' now' r' Hr'.
  assert (bootstrap_body uuid4 (SystemCaller PLATFORM_BOOTSTRAP) owner ps r' now' s' =
            (Ok (mkBootstrap (br_operator_id res) (br_user_id res) ps false), s')) as Hbody.
  { unfold bootstrap_body, bind, get. destruct (map_to_list (ps_operators s')) as [|e l]; [done|]. by rewrite Hsame. }
  unfold bootstrap_platform_owner, bind, lift. simpl. rewrite Hps, Hr'.
  unfold recording_platform_refusal, authority_transaction, transaction, bind, get, throw, ret. simpl.
  rewrite Hbody. by destruct (platform_owner_exists s').
Qed.

(** ** A concrete deployment *)

Definition pdemo_uuid (n : nat) : uuid := (N.of_nat n + 1000)%N.
Definition pdemo_start : platform_store :=
  mkPlatform {[ 1%N := true; 2%N := true ]} {[ ("idp", "ann") := 1%N; ("idp", "bob") := 2%N ]} ∅ ∅ [] 0.
Definition pdemo_reason : pystr := lit "initial setup".
Definition pdemo_permissions : list PlatformPermission := [P_AUTHORITY_MANAGE; P_TENANT_READ].

(** Ann is bootstrapped as owner (operator [1000], grants [1001] and [1002]). *)
Definition pdemo_bootstrap : pcommand :=
  mkPCommand (SystemCaller PLATFORM_BOOTSTRAP) pdemo_reason 5 (PBootstrap (ByIdentity "idp" "ann") pdemo_permissions).
Definition pdemo : platform_store := pexec pdemo_uuid pdemo_bootstrap pdemo_start.

Lemma pdemo_pwf : pwf pdemo.
Proof. apply (phistory_pwf pdemo_uuid [pdemo_bootstrap] pdemo_start), pwf_empty. Defined.

(** Ann enrolls Bob and tries to suspend herself. *)
Definition pdemo_history : list pcommand :=
  [mkPCommand (UserCaller 1) pdemo_reason 6 (PEnroll 2); mkPCommand (UserCaller 1) pdemo_reason 7 (PSuspend 1000)].

Lemma owner_kept_witness : platform_owner_exists (phistory pdemo_uuid pdemo_history pdemo) = true.
Proof. apply (owner_kept pdemo_uuid pdemo_history pdemo pdemo_pwf). vm_compute. reflexivity. Defined.

Lemma no_self_service_witness : authority_of 1 (phistory pdemo_uuid pdemo_history pdemo) = authority_of 1 pdemo.
Proof. apply (no_self_service pdemo_uuid 1 pdemo_history pdemo). repeat constructor. Defined.

Lemma no_amplification_witness :
  ¬ held_somewhere P_TENANT_MOVE
      (phistory pdemo_uuid (pdemo_history ++ [mkPCommand (UserCaller 1) pdemo_reason 8 (PGrant 1003 P_TENANT_MOVE)]) pdemo).
Proof.
  apply (no_amplification pdemo_uuid
    (pdemo_history ++ [mkPCommand (UserCaller 1) pdemo_reason 8 (PGrant 1003 P_TENANT_MOVE)]) pdemo P_TENANT_MOVE).
  - repeat constructor; by eexists.
  - intros (i & g & Hg & _ & Hp).
    assert (map_Forall (λ _ g, pg_permission g ≠ P_TENANT_MOVE) (ps_grants pdemo)) as Hall.
    { apply (bool_decide_unpack _). vm_compute. exact I. }
    exact (Hall i g Hg Hp).
Defined.

(** Bob is revoked by Ann, then enrolled again. *)
Definition pdemo_revoked : platform_store :=
  phistory pdemo_uuid (pdemo_history ++ [mkPCommand (UserCaller 1) pdemo_reason 8 (PRevoke 1003)]) pdemo.
Lemma revocation_final_witness :
  live_permissions (phistory pdemo_uuid [mkPCommand (UserCaller 1) pdemo_reason 9 (PEnroll 2)] pdemo_revoked) 1003 = [].
Proof.
  eapply (revocation_final pdemo_uuid [mkPCommand (UserCaller 1) pdemo_reason 9 (PEnroll 2)] pdemo_revoked 1003).
  - apply (phistory_pwf pdemo_uuid _ pdemo), pdemo_pwf.
  - vm_compute. reflexivity.
  - reflexivity.
Defined.

Lemma bootstrap_idempotent_witness :
  ∃ res s', bootstrap_platform_owner pdemo_uuid (ByIdentity "idp" "ann") pdemo_permissions
              (SystemCaller PLATFORM_BOOTSTRAP) pdemo_reason 5 pdemo_start = (Ok res, s') ∧
    br_created res = true ∧ platform_owner_exists s' = true ∧
    bootstrap_platform_owner pdemo_uuid (ByIdentity "idp" "ann") pdemo_permissions
      (SystemCaller PLATFORM_BOOTSTRAP) (lit "again") 99 s' =
      (Ok (mkBootstrap (br_operator_id res) (br_user_id res) pdemo_permissions false), s').
Proof.
  eexists _, _. split; [vm_compute; reflexivity|]. split; [reflexivity|].
  edestruct (bootstrap_idempotent pdemo_uuid (ByIdentity "idp" "ann") pdemo_permissions
    (SystemCaller PLATFORM_BOOTSTRAP) pdemo_reason 5 pdemo_start) as [H1 H2]; [apply pwf_empty|vm_compute; reflexivity|].
  split; [by apply H1|]. eapply H2. vm_compute. reflexivity.
Defined.
