(* ===== verification/TenantHierarchy.v ===== *)
(** * The tenant hierarchy (saas_os/core/tenancy/service.py, authority.py)

    A tenant has at most one parent; [core.tenant_ancestry] is the closure of
    that relation with distances, kept by [create_tenant] and [move_tenant].
    [transition_tenant_status] moves a tenant along the lifecycle graph under
    the authority of the edge it selects.

    Authority is decided by [PlatformAuthority]; two answers of the RBAC
    component are parameters: whether a caller may suspend their own tenant
    ([holds_self_suspend]) and whether the administrator guard accepts the
    change ([administrators_ok], for the tenants it guards). *)

From S2P Require Import Prelude PyStr TenantLifecycle PlatformAuthority PlatformService.

(** ** The store *)

Record tenant_event : Type := mkTenantEvent {
  te_tenant : uuid;               (* whose audit trail *)
  te_caller : caller;
  te_action : string;
  te_subject : uuid;
}.

Record tenancy_store : Type := mkTenancy {
  ts_tenants : gmap uuid Tenant;
  ts_ancestry : gmap (uuid * uuid) Z;   (* core.tenant_ancestry: (tenant_id, ancestor_id) -> depth *)
  ts_members : gset (uuid * uuid);      (* (tenant, user) with a membership that is not revoked *)
  ts_platform : platform_store;
  ts_events : list tenant_event;        (* core.audit_log, latest first *)
  ts_drawn : nat;
}.
#[export] Instance tenancy_store_tenants : HasTenants tenancy_store := ts_tenants.

Definition set_tenant (id : uuid) (t : Tenant) (s : tenancy_store) : tenancy_store :=
  mkTenancy (<[id := t]> s.(ts_tenants)) s.(ts_ancestry) s.(ts_members) s.(ts_platform) s.(ts_events) s.(ts_drawn).
Definition set_ancestry (m : gmap (uuid * uuid) Z) (s : tenancy_store) : tenancy_store :=
  mkTenancy s.(ts_tenants) m s.(ts_members) s.(ts_platform) s.(ts_events) s.(ts_drawn).
Definition set_platform (p : platform_store) (s : tenancy_store) : tenancy_store :=
  mkTenancy s.(ts_tenants) s.(ts_ancestry) s.(ts_members) p s.(ts_events) s.(ts_drawn).
Definition add_tenant_event (e : tenant_event) (s : tenancy_store) : tenancy_store :=
  mkTenancy s.(ts_tenants) s.(ts_ancestry) s.(ts_members) s.(ts_platform) (e :: s.(ts_events)) s.(ts_drawn).
Definition tdraw (s : tenancy_store) : tenancy_store :=
  mkTenancy s.(ts_tenants) s.(ts_ancestry) s.(ts_members) s.(ts_platform) s.(ts_events) (S s.(ts_drawn)).

Inductive hierarchy_error : Type :=
| HTenant (e : tenant_error)
| HPlatform (e : platform_error)
| TenantCycleError (tenant_id new_parent_id : uuid)
| TenantHierarchyDepthExceededError (tenant_id : uuid) (resulting_depth max_depth : Z)
| LastAdministratorError
| HIntegrityError                  (* a primary key is taken, or a CHECK fails *)
| HDataError                       (* a value too long for its column *)
| HValueError.                     (* [max()] of nothing *)

Abbreviation HM := (M tenancy_store hierarchy_error).

Definition of_tenant {A : Type} (r : result tenant_error A) : result hierarchy_error A :=
  match r with Ok a => Ok a | Raise e => Raise (HTenant e) end.
Definition of_platform {A : Type} (r : result platform_error A) : result hierarchy_error A :=
  match r with Ok a => Ok a | Raise e => Raise (HPlatform e) end.

(** ** Reading the closure *)

(** The rows of one tenant: its ancestors with their distances. *)
Definition ancestry_of (s : tenancy_store) (tenant_id : uuid) : list (uuid * Z) :=
  (λ p : uuid * uuid * Z, (p.1.2, p.2)) <$>
    filter (λ p : uuid * uuid * Z, p.1.1 = tenant_id) (map_to_list s.(ts_ancestry)).
(** The rows that name a tenant as ancestor: its subtree. *)
Definition subtree_of (s : tenancy_store) (tenant_id : uuid) : list (uuid * Z) :=
  (λ p : uuid * uuid * Z, (p.1.1, p.2)) <$>
    filter (λ p : uuid * uuid * Z, p.1.2 = tenant_id) (map_to_list s.(ts_ancestry)).

(** [get_ancestor_ids], and [lock_ancestor_ids] under a share lock. *)
Definition get_ancestor_ids (s : tenancy_store) (tenant_id : uuid) : gset uuid :=
  list_to_set (ancestry_of s tenant_id).*1.
Definition lock_ancestor_ids := get_ancestor_ids.

(** [ORDER BY depth] *)
Definition nearer (p q : uuid * Z) : Prop := p.2 ≤ q.2.
#[export] Instance nearer_dec : RelDecision nearer.
Proof. intros p q. unfold nearer. apply _. Defined.
Definition get_ancestor_chain (s : tenancy_store) (tenant_id : uuid) : list uuid :=
  (merge_sort nearer (filter (λ p : uuid * Z, 0 < p.2) (ancestry_of s tenant_id))).*1.

Definition get_descendant_ids (s : tenancy_store) (tenant_id : uuid) : gset uuid :=
  list_to_set (subtree_of s tenant_id).*1.

(** [key=lambda r: (r.depth, str(r.tenant_id))] *)
Definition nearest_first (p q : uuid * Z) : Prop := p.2 < q.2 ∨ p.2 = q.2 ∧ (p.1 ≤ q.1)%N.
#[export] Instance nearest_first_dec : RelDecision nearest_first.
Proof. intros p q. unfold nearest_first. apply _. Defined.
Definition descendant_ids_by_depth (s : tenancy_store) (tenant_id : uuid) : list uuid :=
  (merge_sort nearest_first (filter (λ p : uuid * Z, p.1 ≠ tenant_id) (subtree_of s tenant_id))).*1.

(** Python's [max()] of a sequence. *)
Definition py_max (l : list Z) : result hierarchy_error Z :=
  match l with
  | [] => Raise HValueError
  | d :: l => Ok (foldl Z.max d l)
  end.

(** [session.add(TenantAncestry(...))] for each row: the primary key and the
    CHECK constraint of the table. *)
Definition add_ancestry_row (m : gmap (uuid * uuid) Z) (row : uuid * uuid * Z) :
    result hierarchy_error (gmap (uuid * uuid) Z) :=
  let '(t, a, d) := row in
  if bool_decide (is_Some (m !! (t, a))) || negb (bool_decide (t = a ∧ d = 0 ∨ t ≠ a ∧ 0 < d))
  then Raise HIntegrityError else Ok (<[(t, a) := d]> m).
Fixpoint add_ancestry_rows (m : gmap (uuid * uuid) Z) (rows : list (uuid * uuid * Z)) :
    result hierarchy_error (gmap (uuid * uuid) Z) :=
  match rows with
  | [] => Ok m
  | row :: rows => let* m := add_ancestry_row m row in add_ancestry_rows m rows
  end.

(** ** authority.py *)

(** [require_lifecycle_caller] *)
Definition require_lifecycle_caller (label : string) (c : caller) : result hierarchy_error unit :=
  match c with
  | ServiceAccountCaller _ _ => Raise (HPlatform (PlatformNotAuthorizedError label))
  | _ => Ok tt
  end.

Definition authorize (s : tenancy_store) (c : caller) (op : operation) : result hierarchy_error unit :=
  of_platform (authorize_platform_caller s.(ts_platform) c op).

Definition record_refusal (c : caller) (op : operation) (tenant_id : option uuid) (code : string)
    (s : tenancy_store) : tenancy_store :=
  set_platform (record_platform_refusal c (op_audit_action (platform_operation op)) (TargetTenant tenant_id) code
                  s.(ts_platform)) s.

(** [refusal_recorded] *)
Definition refusal_recorded {A : Type} (c : caller) (op : operation) (tenant_id : option uuid) (m : HM A) : HM A :=
  λ s,
    match m s with
    | (Raise (HPlatform e), s') =>
        match refusal_code e with
        | Some code => (Raise (HPlatform e), record_refusal c op tenant_id code s')
        | None => (Raise (HPlatform e), s')
        end
    | other => other
    end.

(** [record_platform] *)
Definition record_platform (c : caller) (op : operation) (tenant_id : uuid) (reason : option pystr) : HM unit :=
  λ s,
    match record_platform_event c (op_audit_action (platform_operation op)) (TargetTenant (Some tenant_id)) reason
            s.(ts_platform) with
    | (r, p) => (of_platform r, set_platform p s)
    end.

(** [record_tenant]; the audit log's own contract is not modelled. *)
Definition record_tenant (c : caller) (tenant_id : uuid) (action : string) (subject_id : uuid) : HM unit :=
  λ s, (Ok tt, add_tenant_event (mkTenantEvent tenant_id c action subject_id) s).

Definition caller_is_member_of_any (s : tenancy_store) (c : caller) (tenant_ids : list uuid) : bool :=
  match c with
  | UserCaller u => existsb (λ t, bool_decide ((t, u) ∈ s.(ts_members))) tenant_ids
  | _ => false
  end.

(** A validated reason, when one is given. *)
Definition validated_reason (reason : option pystr) : result hierarchy_error (option pystr) :=
  match reason with
  | None => Ok None
  | Some r => let* v := of_platform (validate_reason r) in Ok (Some v)
  end.

(** ** create_tenant *)

(** [_apply_parent_rule] *)
Definition apply_parent_rule (op : operation) (c : caller) (parent_id : uuid) (status : TenantStatus) :
    result hierarchy_error unit :=
  if is_closed status then Raise (HTenant (TenantClosedError parent_id status))
  else match status with
       | PENDING => Ok tt
       | SUSPENDED => Raise (HPlatform (TenantParentRuleError op parent_id "parent_suspended"))
       | ACTIVE =>
           match c with
           | SystemCaller _ =>
               Raise (HPlatform (TenantParentRuleError op parent_id "parent_active_requires_operator"))
           | _ => Ok tt
           end
       | _ => Raise (HPlatform (TenantParentRuleError op parent_id "parent_closed"))
       end.

Record TenancyConfig : Type := mkTenancyConfig {
  max_hierarchy_depth : Z;
  platform_tenant_id : option uuid;
}.

(** [__post_init__] *)
Definition valid_tenancy_config (cfg : TenancyConfig) : bool := 1 <=? max_hierarchy_depth cfg.

Section Hierarchy.
Context (uuid4 : nat → uuid) (cfg : TenancyConfig).
Context (holds_self_suspend : tenancy_store → caller → uuid → bool).
Context (administrators_ok : list uuid → tenancy_store → tenancy_store → bool).

(** The insert of a tenant row; [String(255)]. *)
Definition insert_tenant (t : Tenant) : HM uuid :=
  λ s, let id := uuid4 s.(ts_drawn) in
       if bool_decide (255 < length t.(t_name))%nat then (Raise HDataError, tdraw s)
       else if bool_decide (is_Some (s.(ts_tenants) !! id)) || bool_decide (t.(t_parent_id) = Some id)
       then (Raise HIntegrityError, tdraw s)
       else (Ok id, set_tenant id t (tdraw s)).

Definition put_ancestry_rows (rows : list (uuid * uuid * Z)) : HM unit :=
  λ s, match add_ancestry_rows s.(ts_ancestry) rows with
       | Ok m => (Ok tt, set_ancestry m s)
       | Raise e => (Raise e, s)
       end.

(** The parent under its share lock: its id and the status read. *)
Definition lock_parent (parent_id : option uuid) : HM (option (uuid * TenantStatus)) :=
  λ s, match parent_id with
       | None => (Ok None, s)
       | Some p => (let* t := of_tenant (get_tenant s p) in Ok (Some (p, t_status t)), s)
       end.

Definition create_body (name : pystr) (c : caller) (op : operation) (parent : option (uuid * TenantStatus)) :
    HM uuid :=
  do* parent_ancestry :=
    match parent with
    | None => ret []
    | Some (p, status) =>
        do* _ := lift (apply_parent_rule op c p status) in
        do* s := get in ret (ancestry_of s p)
    end in
  do* id := insert_tenant (mkTenant name PENDING (fst <$> parent) false) in
  do* _ := put_ancestry_rows [(id, id, 0)] in
  do* _ :=
    match parent with
    | None => ret tt
    | Some _ =>
        do* deepest := lift (py_max parent_ancestry.*2) in
        if max_hierarchy_depth cfg <? deepest + 1
        then throw (TenantHierarchyDepthExceededError id (deepest + 1) (max_hierarchy_depth cfg))
        else put_ancestry_rows ((λ p : uuid * Z, (id, p.1, p.2 + 1)) <$> parent_ancestry)
    end in
  do* _ := record_platform c op id None in
  do* _ := record_tenant c id "tenant.create" id in
  do* _ := match parent with
           | None => ret tt
           | Some (p, _) => record_tenant c p "tenant.child_attach" id
           end in
  ret id.

Definition has_control_characters (name : pystr) : bool := existsb is_control name.

Definition create_tenant (name : pystr) (parent_id : option uuid) (c : caller) : HM uuid :=
  let op := match parent_id with None => TENANT_CREATE_ROOT | Some _ => TENANT_CREATE_CHILD end in
  do* _ := lift (require_lifecycle_caller (key op) c) in
  if has_control_characters name
  then throw (HPlatform (InvalidPlatformRequestError "name must not contain control characters."))
  else
    λ s,
      match refusal_recorded c op parent_id
              (transaction
                 (do* parent := lock_parent parent_id in
                  do* _ := (λ s, (authorize s c op, s)) in
                  create_body name c op parent)) s with
      | (Raise (HTenant (TenantClosedError p st)), s') =>
          (Raise (HTenant (TenantClosedError p st)), record_refusal c op parent_id "parent_closed" s')
      | other => other
      end.

(** ** move_tenant *)

(** The ids of the moved subtree with their distances from its top. *)
Definition in_subtree (subtree : list (uuid * Z)) (t : uuid) : bool := bool_decide (t ∈ subtree.*1).

(** The rows that link the subtree to the ancestors it leaves. *)
Definition is_bridge (subtree : list (uuid * Z)) (k : uuid * uuid) : bool :=
  in_subtree subtree k.1 && negb (in_subtree subtree k.2).

Definition without_bridges (subtree : list (uuid * Z)) (m : gmap (uuid * uuid) Z) : gmap (uuid * uuid) Z :=
  filter (λ p : uuid * uuid * Z, is_bridge subtree p.1 = false) m.

(** The rows that link it to the new ancestors. *)
Definition new_bridges (subtree new_parent_ancestry : list (uuid * Z)) : list (uuid * uuid * Z) :=
  new_parent_ancestry ≫= λ pa, (λ n : uuid * Z, (n.1, pa.1, pa.2 + 1 + n.2)) <$> subtree.

Definition audited (tenant_id : uuid) (old_parent new_parent : option uuid) : list uuid :=
  fromkeys (tenant_id :: option_list old_parent ++ option_list new_parent).

Fixpoint record_each (c : caller) (action : string) (subject_id : uuid) (tenants : list uuid) : HM unit :=
  match tenants with
  | [] => ret tt
  | t :: tenants => do* _ := record_tenant c t action subject_id in record_each c action subject_id tenants
  end.

(** The checks on the new parent, before anything is written: its status. *)
Definition check_new_parent (c : caller) (tenant_id p : uuid) : HM TenantStatus :=
  λ s, (let* parent := of_tenant (lock_open_tenant s p) in
        if bool_decide (is_Some (s.(ts_ancestry) !! (p, tenant_id))) then Raise (TenantCycleError tenant_id p)
        else if caller_is_member_of_any s c (elements (lock_ancestor_ids s p))
        then Raise (HPlatform (MoveIntoCallerHierarchyError p))
        else Ok (t_status parent), s).

Definition with_parent (parent : option uuid) (t : Tenant) : Tenant :=
  mkTenant t.(t_name) t.(t_status) parent t.(t_inherits_billing).

(** [UPDATE core.tenants SET parent_id]: the CHECK that it is not the row's own id. *)
Definition set_parent (tenant_id : uuid) (new_parent : option uuid) (t : Tenant) : HM unit :=
  λ s, if bool_decide (new_parent = Some tenant_id) then (Raise HIntegrityError, s)
       else (Ok tt, set_tenant tenant_id (with_parent new_parent t) s).

Definition move_subtree (c : caller) (tenant_id : uuid) (new_parent : option uuid) (t : Tenant)
    (reason : option pystr) : HM uuid :=
  do* s0 := get in
  let subtree := subtree_of s0 tenant_id in
  let new_ancestry := match new_parent with None => [] | Some p => ancestry_of s0 p end in
  do* parent_depth := lift (match new_parent with None => Ok (-1) | Some _ => py_max new_ancestry.*2 end) in
  do* deepest := lift (py_max subtree.*2) in
  if max_hierarchy_depth cfg <? parent_depth + 1 + deepest
  then throw (TenantHierarchyDepthExceededError tenant_id (parent_depth + 1 + deepest) (max_hierarchy_depth cfg))
  else
    do* _ := put (set_ancestry (without_bridges subtree s0.(ts_ancestry)) s0) in
    do* _ := put_ancestry_rows (new_bridges subtree new_ancestry) in
    do* _ := set_parent tenant_id new_parent t in
    do* s1 := get in
    if negb (administrators_ok (merge_sort nearest_first subtree).*1 s0 s1) then throw LastAdministratorError
    else
      do* _ := record_platform c TENANT_MOVE tenant_id reason in
      do* _ := record_each c "tenant.move" tenant_id (audited tenant_id t.(t_parent_id) new_parent) in
      ret tenant_id.

Definition move_body (tenant_id : uuid) (new_parent : option uuid) (c : caller) (reason : option pystr) : HM uuid :=
  do* _ := (λ s, (authorize s c TENANT_MOVE, s)) in
  match c with
  | UserCaller _ =>
      do* t := (λ s, (of_tenant (lock_open_tenant s tenant_id), s)) in
      do* status := match new_parent with
                    | None => ret None
                    | Some p => do* st := check_new_parent c tenant_id p in ret (Some (p, st))
                    end in
      if bool_decide (t.(t_parent_id) = new_parent) then ret tenant_id
      else match status with
           | Some (p, SUSPENDED) => throw (HPlatform (TenantParentRuleError TENANT_MOVE p "parent_suspended"))
           | _ => move_subtree c tenant_id new_parent t reason
           end
  | _ => throw (HPlatform (CallerTypeError (key TENANT_MOVE)))
  end.

Definition move_tenant (tenant_id : uuid) (new_parent : option uuid) (c : caller) (reason : option pystr) : HM uuid :=
  do* _ := lift (require_lifecycle_caller (key TENANT_MOVE) c) in
  do* reason := lift (validated_reason reason) in
  refusal_recorded c TENANT_MOVE (Some tenant_id) (transaction (move_body tenant_id new_parent c reason)).

(** ** transition_tenant_status *)

(** [_lifecycle_edges]: each edge with its operation and tenant audit action. *)
Definition lifecycle_edges : list (TenantStatus * TenantStatus * (operation * option string)) :=
  [(PENDING, ACTIVE, (TENANT_ACTIVATE, Some "tenant.activate"));
   (SUSPENDED, ACTIVE, (TENANT_REACTIVATE, Some "tenant.reactivate"));
   (ACTIVE, SUSPENDED, (TENANT_SUSPEND, Some "tenant.suspend"));
   (PENDING, DELETED, (TENANT_DELETE, Some "tenant.delete_requested"));
   (ACTIVE, DELETED, (TENANT_DELETE, Some "tenant.delete_requested"));
   (SUSPENDED, DELETED, (TENANT_DELETE, Some "tenant.delete_requested"));
   (DELETED, PURGING, (TENANT_PURGE_TRANSITION, None));
   (PURGING, PURGED, (TENANT_PURGE_TRANSITION, None))].

(** [_transition_operation] *)
Definition transition_operation (current target : TenantStatus) : result tenant_error (operation * option string) :=
  match find (λ e, bool_decide (e.1 = (current, target))) lifecycle_edges with
  | Some e => Ok e.2
  | None => Raise (InvalidTenantTransitionError current target)
  end.

(** [_candidate_operations] *)
Definition candidate_operations (target : TenantStatus) : list operation :=
  fromkeys ((λ e : TenantStatus * TenantStatus * (operation * option string), e.2.1) <$>
    filter (λ e : TenantStatus * TenantStatus * (operation * option string), e.1.2 = target) lifecycle_edges).

(** [passes_transition_gate] *)
Definition passes_transition_gate (s : tenancy_store) (c : caller) (operations : list operation) (tenant_id : uuid)
    (self_service_only : bool) : result hierarchy_error bool :=
  let* held := if self_service_only then Ok false
               else of_platform (platform_caller_could_hold_any s.(ts_platform) c operations) in
  if held then Ok true
  else match c with
       | UserCaller _ =>
           if bool_decide (TENANT_SUSPEND ∈ operations) then Ok (caller_is_member_of_any s c [tenant_id])
           else Ok false
       | _ => Ok false
       end.

(** [_require_some_candidate] *)
Fixpoint some_candidate (s : tenancy_store) (c : caller) (candidates : list operation) :
    result hierarchy_error bool :=
  match candidates with
  | [] => Ok false
  | op :: candidates =>
      match authorize s c op with
      | Ok _ => Ok true
      | Raise (HPlatform (PlatformNotAuthorizedError _)) => some_candidate s c candidates
      | Raise e => Raise e
      end
  end.
Definition require_some_candidate (s : tenancy_store) (c : caller) (first : operation) (candidates : list operation) :
    result hierarchy_error unit :=
  let* b := some_candidate s c candidates in
  raise_if (negb b) (HPlatform (PlatformNotAuthorizedError (key first))).

(** [_authorize_transition]: whether the caller is admitted by the
    self-service rule. *)
Definition authorize_transition (s : tenancy_store) (c : caller) (op : operation) (tenant_id : uuid)
    (reason : option pystr) (self_service_only : bool) : result hierarchy_error bool :=
  let refused := Raise (HPlatform (PlatformNotAuthorizedError (key op))) in
  let self_service :=
    if negb (bool_decide (op = TENANT_SUSPEND)) || negb (holds_self_suspend s c tenant_id) then refused
    else if bool_decide (platform_tenant_id cfg = Some tenant_id) then refused
    else match reason with
         | None => Raise (HPlatform (InvalidPlatformRequestError "reason is required to suspend one's own tenant."))
         | Some _ => Ok true
         end in
  if self_service_only then self_service
  else match authorize s c op with
       | Ok _ => Ok false
       | Raise (HPlatform (PlatformNotAuthorizedError _)) => self_service
       | Raise e => Raise e
       end.

(** The decision under the locks: the tenant, the operation and action its
    edge selects, and whether the self-service rule admits the caller.  An
    error carries the operation it is recorded under. *)
Definition decide_transition (s : tenancy_store) (c : caller) (first : operation) (candidates : list operation)
    (tenant_id : uuid) (target : TenantStatus) (reason : option pystr) (expected : option operation)
    (self_service : bool) : result (operation * hierarchy_error) (Tenant * operation * option string * bool) :=
  let under {A : Type} (op : operation) (r : result hierarchy_error A) : result (operation * hierarchy_error) A :=
    match r with Ok a => Ok a | Raise e => Raise (op, e) end in
  let* early :=
    if bool_decide (length candidates = 1%nat)
    then let* b := under first (authorize_transition s c first tenant_id reason self_service) in Ok (Some b)
    else Ok None in
  let disclosed {A : Type} (e : hierarchy_error) : result (operation * hierarchy_error) A :=
    match early with
    | Some _ => Raise (first, e)
    | None => let* _ := under first (require_some_candidate s c first candidates) in Raise (first, e)
    end in
  match s.(ts_tenants) !! tenant_id with
  | None => disclosed (HTenant (TenantNotFoundError tenant_id))
  | Some t =>
      let current := t_status t in
      match validate_transition current target with
      | Raise e => disclosed (HTenant e)
      | Ok _ =>
          let* selected := under first (of_tenant (transition_operation current target)) in
          let '(op, action) := selected in
          if bool_decide (is_Some expected) && negb (bool_decide (expected = Some op))
          then Raise (first, HTenant (InvalidTenantTransitionError current target))
          else
            let* by_self := match early with
                            | Some b => Ok b
                            | None => under op (authorize_transition s c op tenant_id reason false)
                            end in
            Ok (t, op, action, by_self)
      end
  end.

Definition with_status (status : TenantStatus) (t : Tenant) : Tenant :=
  mkTenant t.(t_name) status t.(t_parent_id) t.(t_inherits_billing).

(** The change and its evidence. *)
Definition apply_transition (c : caller) (tenant_id : uuid) (target : TenantStatus) (reason : option pystr)
    (decided : Tenant * operation * option string * bool) : HM uuid :=
  let '(t, op, action, by_self) := decided in
  do* s0 := get in
  do* _ := put (set_tenant tenant_id (with_status target t) s0) in
  do* s1 := get in
  if negb (is_accessible_to_principals target) && negb (administrators_ok (descendant_ids_by_depth s0 tenant_id) s0 s1)
  then throw LastAdministratorError
  else
    do* _ := if by_self then ret tt else record_platform c op tenant_id reason in
    do* _ := match action with None => ret tt | Some a => record_tenant c tenant_id a tenant_id end in
    ret tenant_id.

Definition transition_session (tenant_id : uuid) (target : TenantStatus) (c : caller) (reason : option pystr)
    (expected : option operation) (self_service : bool) (first : operation) (candidates : list operation) : HM uuid :=
  λ s,
    match decide_transition s c first candidates tenant_id target reason expected self_service with
    | Raise (op, e) =>
        match e with
        | HPlatform (PlatformNotAuthorizedError _) => (Raise e, record_refusal c op (Some tenant_id) "not_authorized" s)
        | _ => (Raise e, s)
        end
    | Ok decided => transaction (apply_transition c tenant_id target reason decided) s
    end.

Definition transition_tenant_status (tenant_id : uuid) (target : TenantStatus) (c : caller) (reason : option pystr)
    (expected : option operation) (self_service : bool) : HM uuid :=
  do* _ := lift (require_lifecycle_caller TENANT_TRANSITION c) in
  do* reason := lift (validated_reason reason) in
  match candidate_operations target with
  | [] => throw (HPlatform (InvalidPlatformRequestError "No tenant transition leads there."))
  | first :: rest =>
      if bool_decide (is_Some expected) && negb (bool_decide (default first expected ∈ first :: rest))
      then throw (HPlatform (InvalidPlatformRequestError "expected_operation is not a candidate."))
      else
        let candidates := match expected with Some op => [op] | None => first :: rest end in
        let first := default first expected in
        if self_service && negb (bool_decide (candidates = [TENANT_SUSPEND]))
        then throw (HPlatform (InvalidPlatformRequestError "The self-service rule applies to suspension only."))
        else
          λ s,
            match passes_transition_gate s c candidates tenant_id self_service with
            | Raise e => (Raise e, s)
            | Ok false => (Raise (HPlatform (PlatformNotAuthorizedError (key first))),
                           record_refusal c first (Some tenant_id) "not_authorized" s)
            | Ok true => transition_session tenant_id target c reason expected self_service first candidates s
            end
  end.
End Hierarchy.
