(* ===== verification/HierarchyProofs.v ===== *)
(** * The closure table is the closure of the parent relation

    [hops n t] is the tenant [n] parent steps above [t].  The invariant [hwf]
    says that [core.tenant_ancestry] holds exactly the pairs [hops] relates,
    with their distances (so no tenant is its own strict ancestor), and that no
    tenant is deeper than the configured maximum.  Creation and move preserve
    it, and are the only writers. *)

From S2P Require Import Prelude PyStr TenantLifecycle PlatformAuthority PlatformService PlatformProofs TenantHierarchy.

(** ** The parent relation *)

Definition parent_of (ts : gmap uuid Tenant) (t : uuid) : option uuid := ts !! t ≫= t_parent_id.

Fixpoint hops (ts : gmap uuid Tenant) (n : nat) (t : uuid) : option uuid :=
  match n with
  | O => if decide (is_Some (ts !! t)) then Some t else None
  | S n => parent_of ts t ≫= hops ts n
  end.

Lemma hops_exists ts n t a : hops ts n t = Some a → is_Some (ts !! t).
Proof.
  destruct n; simpl; [case_decide; naive_solver|].
  unfold parent_of. destruct (ts !! t); [by eauto|done].
Qed.

Lemma hops_target ts n t a : hops ts n t = Some a → is_Some (ts !! a).
Proof.
  revert t. induction n as [|n IH]; intros t; simpl; [case_decide; naive_solver|].
  destruct (parent_of ts t); simpl; [apply IH|done].
Qed.

Lemma hops_zero ts t : is_Some (ts !! t) → hops ts 0 t = Some t.
Proof. intros H. simpl. by rewrite decide_True. Qed.

Lemma hops_add ts m n t : hops ts (m + n) t = hops ts m t ≫= hops ts n.
Proof.
  revert t. induction m as [|m IH]; intros t; simpl.
  - case_decide as H; [done|]. destruct (hops ts n t) eqn:E; [|done]. by apply hops_exists in E.
  - destruct (parent_of ts t); simpl; [apply IH|done].
Qed.

(** Paths that never meet a changed tenant are as before. *)
Lemma hops_avoid ts ts' n t :
  (∀ m u, (m < n)%nat → hops ts m t = Some u → parent_of ts' u = parent_of ts u) →
  (∀ u, is_Some (ts' !! u) ↔ is_Some (ts !! u)) →
  hops ts' n t = hops ts n t.
Proof.
  intros Hsame Hdom. revert t Hsame. induction n as [|n IH]; intros t Hsame; simpl.
  - destruct (decide (is_Some (ts !! t))) as [H|H].
    + rewrite decide_True; [done|]. by apply Hdom.
    + rewrite decide_False; [done|]. by rewrite Hdom.
  - destruct (decide (is_Some (ts !! t))) as [Ht|Ht].
    + rewrite (Hsame 0%nat t) by (lia || by apply hops_zero).
      destruct (parent_of ts t) as [p|] eqn:Ep; simpl; [|done].
      apply IH. intros m u Hm Hu. apply (Hsame (S m) u); [lia|]. simpl. by rewrite Ep.
    + unfold parent_of. apply eq_None_not_Some in Ht as Hn. rewrite Hn.
      destruct (ts' !! t) eqn:E; [|done]. destruct Ht. apply Hdom. by rewrite E.
Qed.

(** ** The table's rows *)

Lemma elem_of_ancestry_of s t a d : (a, d) ∈ ancestry_of s t ↔ s.(ts_ancestry) !! (t, a) = Some d.
Proof.
  unfold ancestry_of. rewrite list_elem_of_fmap. split.
  - intros ([[t' a'] d'] & [= -> ->] & [Ht Hm]%list_elem_of_filter). simpl in *. subst.
    by apply elem_of_map_to_list in Hm.
  - intros H. exists ((t, a), d). split; [done|]. apply list_elem_of_filter. split; [done|].
    by apply elem_of_map_to_list.
Qed.

Lemma elem_of_subtree_of s t x d : (x, d) ∈ subtree_of s t ↔ s.(ts_ancestry) !! (x, t) = Some d.
Proof.
  unfold subtree_of. rewrite list_elem_of_fmap. split.
  - intros ([[t' a'] d'] & [= -> ->] & [Ht Hm]%list_elem_of_filter). simpl in *. subst.
    by apply elem_of_map_to_list in Hm.
  - intros H. exists ((x, t), d). split; [done|]. apply list_elem_of_filter. split; [done|].
    by apply elem_of_map_to_list.
Qed.

Lemma add_ancestry_rows_spec rows m m' : add_ancestry_rows m rows = Ok m' →
  ∀ t a d, m' !! (t, a) = Some d ↔ m !! (t, a) = Some d ∨ (t, a, d) ∈ rows.
Proof.
  revert m. induction rows as [|[[t0 a0] d0] rows IH]; intros m H t a d; cbn [add_ancestry_rows] in H.
  - injection H as <-. rewrite elem_of_nil. naive_solver.
  - unfold result_bind in H. destruct (add_ancestry_row m (t0, a0, d0)) as [m1|] eqn:E; [|done].
    rewrite (IH m1 H). unfold add_ancestry_row in E. destruct (_ || _)%bool eqn:Eg; [done|].
    injection E as <-. apply orb_false_elim in Eg as [Hn _]. apply bool_decide_eq_false_1, eq_None_not_Some in Hn.
    rewrite elem_of_cons. destruct (decide ((t0, a0) = (t, a))) as [Heq|Hne].
    + simplify_eq. rewrite lookup_insert_eq, Hn. naive_solver.
    + rewrite lookup_insert_ne by done. naive_solver.
Qed.

Lemma put_rows_Ok rows s x s' : put_ancestry_rows rows s = (Ok x, s') →
  ∃ m, s' = set_ancestry m s ∧
    ∀ t a d, m !! (t, a) = Some d ↔ s.(ts_ancestry) !! (t, a) = Some d ∨ (t, a, d) ∈ rows.
Proof.
  unfold put_ancestry_rows. destruct (add_ancestry_rows _ _) as [m|] eqn:E; [|done].
  intros [= <- <-]. exists m. split; [done|]. by apply add_ancestry_rows_spec.
Qed.

Lemma py_max_spec l x : py_max l = Ok x → x ∈ l ∧ ∀ y, y ∈ l → y ≤ x.
Proof.
  destruct l as [|d l]; [done|]. simpl. intros [= <-]. revert d.
  induction l as [|e l IH] using rev_ind; intros d.
  - split; [apply list_elem_of_here|]. intros y [->|Hy%elem_of_nil]%elem_of_cons; [simpl; lia|done].
  - rewrite foldl_app. simpl. destruct (IH d) as [Hin Hle]. split.
    + destruct (Z.max_spec (foldl Z.max d l) e) as [[_ ->]|[_ ->]].
      * apply list_elem_of_further, elem_of_app. right. by apply list_elem_of_singleton.
      * apply elem_of_cons in Hin as [Heq|Hin]; [|apply list_elem_of_further, elem_of_app; by left].
        rewrite Heq. apply list_elem_of_here.
    + intros y [->|[Hy|Hy%list_elem_of_singleton]%elem_of_app]%elem_of_cons.
      * specialize (Hle d (list_elem_of_here _ _)). lia.
      * specialize (Hle y (list_elem_of_further _ _ _ Hy)). lia.
      * subst. lia.
Qed.

(** ** The invariant *)

Section Invariant.
Context (cfg : TenancyConfig).

Record hwf (ts : gmap uuid Tenant) (anc : gmap (uuid * uuid) Z) : Prop := {
  closure : ∀ t a d, anc !! (t, a) = Some d ↔ ∃ n, d = Z.of_nat n ∧ hops ts n t = Some a;
  parent_exists : ∀ t p, parent_of ts t = Some p → is_Some (ts !! p);
  depth_bound : ∀ k d, anc !! k = Some d → d ≤ max_hierarchy_depth cfg;
}.

Lemma hwf_functional ts anc m n t a : hwf ts anc → hops ts m t = Some a → hops ts n t = Some a → m = n.
Proof.
  intros Hwf Hm Hn. assert (anc !! (t, a) = Some (Z.of_nat m)) as H1 by (apply (closure _ _ Hwf); eauto).
  assert (anc !! (t, a) = Some (Z.of_nat n)) as H2 by (apply (closure _ _ Hwf); eauto).
  rewrite H1 in H2. injection H2. lia.
Qed.

Lemma hwf_row ts anc n t a : hwf ts anc → hops ts n t = Some a → anc !! (t, a) = Some (Z.of_nat n).
Proof. intros Hwf H. apply (closure _ _ Hwf). eauto. Qed.

(** *** Creation *)

Lemma hops_new ts id t p n x : ts !! id = None → (∀ t p, parent_of ts t = Some p → is_Some (ts !! p)) →
  t.(t_parent_id) = p → p ≠ Some id →
  hops (<[id := t]> ts) n x =
    if decide (x = id) then match n with O => Some id | S n => p ≫= hops ts n end else hops ts n x.
Proof.
  intros Hid Hfk Hp Hpid. revert x.
  assert (∀ n x, x ≠ id → hops (<[id := t]> ts) n x = hops ts n x) as Hold.
  { intros k. induction k as [|k IH]; intros x Hx; simpl.
    - by rewrite lookup_insert_ne.
    - unfold parent_of. rewrite lookup_insert_ne by done. destruct (ts !! x ≫= t_parent_id) as [q|] eqn:Eq; [|done].
      simpl. apply IH. intros ->. destruct (Hfk x id Eq) as [? Hs]. congruence. }
  intros x. case_decide as Hx; [subst x|by apply Hold]. destruct n as [|n]; simpl.
  - by rewrite lookup_insert_eq, decide_True.
  - unfold parent_of. rewrite lookup_insert_eq. simpl. rewrite Hp. destruct p as [q|]; [|done]. simpl.
    apply Hold. congruence.
Qed.

Lemma create_closure ts anc anc' id t :
  hwf ts anc → ts !! id = None → t.(t_parent_id) ≠ Some id →
  (∀ p, t.(t_parent_id) = Some p → is_Some (ts !! p)) →
  (∀ x a d, anc' !! (x, a) = Some d ↔ anc !! (x, a) = Some d ∨ (x = id ∧ a = id ∧ d = 0) ∨
     ∃ p e, t.(t_parent_id) = Some p ∧ x = id ∧ anc !! (p, a) = Some e ∧ d = e + 1) →
  0 ≤ max_hierarchy_depth cfg →
  (∀ p e a, t.(t_parent_id) = Some p → anc !! (p, a) = Some e → e + 1 ≤ max_hierarchy_depth cfg) →
  hwf (<[id := t]> ts) anc'.
Proof.
  intros Hwf Hid Hpid Hpe Hrows Hmax Hdeep. split.
  - intros x a d. rewrite Hrows.
    setoid_rewrite (λ n, hops_new ts id t (t_parent_id t) n x Hid (parent_exists _ _ Hwf) eq_refl Hpid).
    assert (∀ a d, anc !! (id, a) = Some d → False) as Hno.
    { intros a' d' (n & _ & Hn)%(closure _ _ Hwf). apply hops_exists in Hn as [? ?]. congruence. }
    case_decide as Hx.
    + subst x. split.
      * intros [H|[(_ & -> & ->)|(p & e & Hp & _ & He & ->)]]; [by destruct (Hno a d)|by exists 0%nat|].
        apply (closure _ _ Hwf) in He as (n & -> & Hn). exists (S n). rewrite Hp. split; [lia|done].
      * intros ([|n] & -> & Hn); right; [left; by injection Hn|right].
        destruct (t_parent_id t) as [p|] eqn:Ep; [|done]. exists p, (Z.of_nat n). split_and!; try done; [|lia].
        by eapply hwf_row.
    + rewrite (closure _ _ Hwf). split; [|by left]. intros [?|[(? & _)|(? & ? & ? & ? & _)]]; done.
  - intros x p Hp. unfold parent_of in Hp. destruct (decide (x = id)) as [->|Hx].
    + rewrite lookup_insert_eq in Hp. simpl in Hp. rewrite lookup_insert_ne; [by apply Hpe|]. congruence.
    + rewrite lookup_insert_ne in Hp by done. destruct (parent_exists _ _ Hwf x p Hp) as [q Hq].
      rewrite lookup_insert_ne; [by rewrite Hq|]. congruence.
  - intros [x a] d Hd. apply Hrows in Hd as [H|[(-> & -> & ->)|(p & e & Hp & _ & He & ->)]]; [|done|].
    + by eapply (depth_bound _ _ Hwf).
    + by eapply Hdeep.
Qed.

(** *** Move *)

Section Move.
Context (ts : gmap uuid Tenant) (anc : gmap (uuid * uuid) Z) (Hwf : hwf ts anc).
Context (T : uuid) (t : Tenant) (HT : ts !! T = Some t) (np : option uuid).
Context (Hnp : ∀ p, np = Some p → is_Some (ts !! p) ∧ anc !! (p, T) = None).

Definition below (x : uuid) : Prop := is_Some (anc !! (x, T)).
Definition moved : gmap uuid Tenant := <[T := with_parent np t]> ts.

Lemma moved_dom u : is_Some (moved !! u) ↔ is_Some (ts !! u).
Proof.
  unfold moved. destruct (decide (u = T)) as [->|Hne].
  - rewrite lookup_insert_eq, HT. naive_solver.
  - by rewrite lookup_insert_ne.
Qed.

Lemma moved_parent u : u ≠ T → parent_of moved u = parent_of ts u.
Proof. intros Hu. unfold parent_of, moved. by rewrite lookup_insert_ne. Qed.

Lemma moved_parent_T : parent_of moved T = np.
Proof. unfold parent_of, moved. by rewrite lookup_insert_eq. Qed.

Lemma below_hops x : below x ↔ ∃ k, hops ts k x = Some T.
Proof.
  unfold below. split.
  - intros [d (n & _ & Hn)%(closure _ _ Hwf)]. eauto.
  - intros [k Hk]. eexists. by eapply hwf_row.
Qed.

Lemma hops_outside n x : ¬ below x → hops moved n x = hops ts n x.
Proof.
  intros Hx. apply hops_avoid; [|apply moved_dom]. intros m u _ Hu. apply moved_parent. intros ->.
  apply Hx, below_hops. eauto.
Qed.

Lemma hops_inside n k x : hops ts k x = Some T → (n ≤ k)%nat → hops moved n x = hops ts n x.
Proof.
  intros Hk Hn. apply hops_avoid; [|apply moved_dom]. intros m u Hm Hu. apply moved_parent. intros ->.
  pose proof (hwf_functional _ _ _ _ _ _ Hwf Hu Hk). lia.
Qed.

Lemma hops_beyond m k x : hops ts k x = Some T → hops moved (k + S m) x = np ≫= hops ts m.
Proof.
  intros Hk. rewrite hops_add, (hops_inside k k x Hk) by lia. rewrite Hk. simpl. rewrite moved_parent_T.
  assert (∀ p, np = Some p → hops moved m p = hops ts m p) as Hsame.
  { intros p Hp. apply hops_outside. destruct (Hnp p Hp) as [_ Hnone]. unfold below. rewrite Hnone. by intros []. }
  revert Hsame. generalize (hops moved m). intros f Hsame. destruct np as [p|]; [by apply Hsame|done].
Qed.

Lemma below_iff n k x a : hops ts k x = Some T → hops ts n x = Some a → below a ↔ (n ≤ k)%nat.
Proof.
  intros Hk Hn. rewrite below_hops. split.
  - intros [j Hj]. assert (hops ts (n + j) x = Some T) as H by (by rewrite hops_add, Hn).
    pose proof (hwf_functional _ _ _ _ _ _ Hwf H Hk). lia.
  - intros Hle. exists (k - n)%nat. replace k with (n + (k - n))%nat in Hk by lia.
    by rewrite hops_add, Hn in Hk.
Qed.

(** The ancestry the move writes. *)
Definition moved_rows (anc' : gmap (uuid * uuid) Z) : Prop :=
  ∀ x a d, anc' !! (x, a) = Some d ↔
    anc !! (x, a) = Some d ∧ ¬ (below x ∧ ¬ below a) ∨
    ∃ p e r, np = Some p ∧ anc !! (p, a) = Some e ∧ anc !! (x, T) = Some r ∧ d = e + 1 + r.

Lemma move_rows_closure anc' x a d : moved_rows anc' →
  anc' !! (x, a) = Some d ↔ ∃ n, d = Z.of_nat n ∧ hops moved n x = Some a.
Proof.
  intros Hrows. rewrite (Hrows x a d). destruct (anc !! (x, T)) as [r|] eqn:Er.
  - assert (below x) as Hx by (unfold below; by rewrite Er).
    apply (closure _ _ Hwf) in Er as (k & -> & Hk). split.
    + intros [[Hd Hbr]|(p & e & r & Hp & He & [= <-] & ->)].
      * apply (closure _ _ Hwf) in Hd as (n & -> & Hn). exists n. split; [done|].
        rewrite (hops_inside n k x Hk); [done|]. apply (below_iff n k x a Hk Hn).
        destruct (decide (is_Some (anc !! (a, T)))) as [?|?]; [done|]. by destruct Hbr.
      * apply (closure _ _ Hwf) in He as (m & -> & Hm). exists (k + S m)%nat. split; [lia|].
        rewrite (hops_beyond m k x Hk), Hp. done.
    + intros (n & -> & Hn). destruct (decide (n ≤ k)%nat) as [Hle|Hgt].
      * left. rewrite (hops_inside n k x Hk Hle) in Hn. split; [by eapply hwf_row|].
        intros [_ Ha]. apply Ha. by apply (below_iff n k x a Hk Hn).
      * right. replace n with (k + S (n - k - 1))%nat in Hn by lia. rewrite (hops_beyond _ k x Hk) in Hn.
        destruct np as [p|]; [|done]. simpl in Hn. exists p, (Z.of_nat (n - k - 1)), (Z.of_nat k).
        split_and!; try done; [by eapply hwf_row|lia].
  - assert (¬ below x) as Hx by (unfold below; rewrite Er; by intros []).
    setoid_rewrite (λ n, hops_outside n x Hx). rewrite (closure _ _ Hwf). split.
    + intros [[H _]|(p & e & r & _ & _ & [=] & _)]. done.
    + intros H. left. split; [done|]. by intros [? _].
Qed.

Lemma move_closure anc' : moved_rows anc' →
  (∀ p e r a x, np = Some p → anc !! (p, a) = Some e → anc !! (x, T) = Some r →
     e + 1 + r ≤ max_hierarchy_depth cfg) →
  hwf moved anc'.
Proof.
  intros Hrows Hdeep. split.
  - intros x a d. by apply move_rows_closure.
  - intros x p Hp. apply moved_dom. destruct (decide (x = T)) as [->|Hx].
    + rewrite moved_parent_T in Hp. by apply Hnp.
    + rewrite moved_parent in Hp by done. by eapply (parent_exists _ _ Hwf).
  - intros [x a] d Hd. apply Hrows in Hd as [[Hd _]|(p & e & r & Hp & He & Hr & ->)].
    + by eapply (depth_bound _ _ Hwf).
    + by eapply Hdeep.
Qed.
End Move.
End Invariant.
