(* ===== verification/HierarchySafety.v ===== *)
(** * The tenant hierarchy over all histories of its operations

    The closure invariant holds after every sequence of creations, moves and
    lifecycle transitions; moves fail only in the documented ways; the derived
    reads agree with walking the parents; and a lifecycle transition happens only
    along the graph and only with the authority its edge asks for. *)

From S2P Require Import Prelude PyStr TenantLifecycle PlatformAuthority PlatformService PlatformProofs PlatformSafety TenantHierarchy HierarchyProofs.

Inductive hcommand : Type :=
| HCreate (name : pystr) (parent_id : option uuid) (c : caller)
| HMove (tenant_id : uuid) (new_parent : option uuid) (c : caller) (reason : option pystr)
| HTransition (tenant_id : uuid) (target : TenantStatus) (c : caller) (reason : option pystr)
    (expected : option operation) (self_service : bool).

Section Safety.
Context (uuid4 : nat → uuid) (cfg : TenancyConfig).
Context (holds_self_suspend : tenancy_store → caller → uuid → bool).
Context (administrators_ok : list uuid → tenancy_store → tenancy_store → bool).

Definition hrun (cmd : hcommand) : HM uuid :=
  match cmd with
  | HCreate name p c => create_tenant uuid4 cfg name p c
  | HMove t np c reason => move_tenant cfg administrators_ok t np c reason
  | HTransition t target c reason expected ss =>
      transition_tenant_status cfg holds_self_suspend administrators_ok t target c reason expected ss
  end.
Definition hexec (cmd : hcommand) (s : tenancy_store) : tenancy_store := (hrun cmd s).2.
Definition hhistory (cmds : list hcommand) (s : tenancy_store) : tenancy_store := foldl (λ s cmd, hexec cmd s) s cmds.

(** ** What the operations leave of the registry *)

Definition same_registry (s s' : tenancy_store) : Prop :=
  s'.(ts_tenants) = s.(ts_tenants) ∧ s'.(ts_ancestry) = s.(ts_ancestry).

Lemma record_refusal_registry c op t code s : same_registry s (record_refusal c op t code s).
Proof. done. Qed.

Lemma record_platform_registry c op t r s : same_registry s (record_platform c op t r s).2.
Proof. unfold record_platform. by destruct (record_platform_event _ _ _ _ _). Qed.

Lemma record_each_registry c a subj l s : same_registry s (record_each c a subj l s).2.
Proof. revert s. induction l as [|t l IH]; intros s; [done|]. simpl. destruct (IH (add_tenant_event (mkTenantEvent t c a subj) s)) as [H1 H2]. done. Qed.

(** A refused or failed transaction changes nothing of the registry. *)
Lemma refusal_recorded_cases {A} c op t (m : HM A) s :
  (∃ a s', m s = (Ok a, s') ∧ refusal_recorded c op t m s = (Ok a, s')) ∨
  ∃ e s', m s = (Raise e, s') ∧ (refusal_recorded c op t m s).1 = Raise e ∧
    same_registry s' (refusal_recorded c op t m s).2.
Proof.
  unfold refusal_recorded. destruct (m s) as [[a|e] s'] eqn:E; [left; by eauto|right].
  destruct e as [?|e| | | | | |]; try by eexists _, _. destruct (refusal_code e); by eexists _, _.
Qed.

Lemma transaction_cases {A} (m : HM A) s :
  (∃ a s', m s = (Ok a, s') ∧ transaction m s = (Ok a, s')) ∨ ∃ e, transaction m s = (Raise e, s).
Proof. unfold transaction. destruct (m s) as [[a|e] s']; eauto 6. Qed.

Lemma refused_transaction {A} c op t (m : HM A) s :
  (∃ a s', m s = (Ok a, s') ∧ refusal_recorded c op t (transaction m) s = (Ok a, s')) ∨
  same_registry s (refusal_recorded c op t (transaction m) s).2.
Proof.
  destruct (refusal_recorded_cases c op t (transaction m) s) as [(a & s' & H & ->)|(e & s' & H & _ & Hr)].
  - left. destruct (transaction_cases m s) as [(a' & s'' & Hm & Ht)|[e He]]; [|congruence].
    rewrite Ht in H. injection H as -> ->. eauto.
  - right. destruct (transaction_cases m s) as [(a' & s'' & Hm & Ht)|[e' He]]; [congruence|].
    rewrite He in H. by injection H as -> <-.
Qed.

(** ** Creation keeps the closure *)

Abbreviation wf := (λ s : tenancy_store, hwf cfg s.(ts_tenants) s.(ts_ancestry)).

Lemma create_body_wf name c op parent s id s' :
  0 ≤ max_hierarchy_depth cfg → wf s →
  (∀ p st, parent = Some (p, st) → is_Some (s.(ts_tenants) !! p)) →
  create_body uuid4 cfg name c op parent s = (Ok id, s') → wf s'.
Proof.
  intros Hmax Hwf Hpar H. unfold create_body in H.
  apply bind_Ok in H as (pa & s1 & H1 & H).
  assert (s1 = s ∧ ∀ p st, parent = Some (p, st) → pa = ancestry_of s p) as [-> Hpa].
  { destruct parent as [[p st]|]; [|by injection H1 as <- <-].
    apply bind_Ok in H1 as ([] & s2 & H2 & H1). unfold lift in H2. injection H2 as _ <-.
    apply bind_Ok in H1 as (s0 & s2 & [= <- <-] & [= <- <-]). split; [done|]. by intros ? ? [= <- <-]. }
  apply bind_Ok in H as (id' & s1 & H1' & H). unfold insert_tenant in H1'.
  destruct (bool_decide (255 < _)%nat); [done|]. destruct (_ || _)%bool eqn:Efresh; [done|].
  injection H1' as <- <-. apply orb_false_elim in Efresh as [Hfresh Hself].
  apply bool_decide_eq_false_1, eq_None_not_Some in Hfresh. apply bool_decide_eq_false_1 in Hself.
  set (id' := uuid4 (ts_drawn s)) in *. set (t := mkTenant name PENDING (fst <$> parent) false) in *.
  apply bind_Ok in H as ([] & s1 & H2 & H). apply put_rows_Ok in H2 as (m1 & -> & Hm1). simpl in Hm1.
  apply bind_Ok in H as ([] & s2 & H2 & H).
  assert (s2.(ts_tenants) = <[id' := t]> s.(ts_tenants) ∧
    (∀ x a d, s2.(ts_ancestry) !! (x, a) = Some d ↔ m1 !! (x, a) = Some d ∨
       ∃ p st e, parent = Some (p, st) ∧ x = id' ∧ s.(ts_ancestry) !! (p, a) = Some e ∧ d = e + 1) ∧
    (∀ p st e a, parent = Some (p, st) → s.(ts_ancestry) !! (p, a) = Some e → e + 1 ≤ max_hierarchy_depth cfg))
    as (Hts & Hanc & Hdeep).
  { destruct parent as [[p st]|].
    - apply bind_Ok in H2 as (deepest & s3 & H3 & H2). unfold lift in H3. injection H3 as Hdp <-.
      destruct (_ <? _) eqn:Elt; [done|]. apply Z.ltb_ge in Elt.
      apply put_rows_Ok in H2 as (m2 & -> & Hm2). simpl in *. rewrite (Hpa p st eq_refl) in *.
      split_and!; [done| |].
      + intros x a d. rewrite Hm2. apply or_iff_compat_l. rewrite list_elem_of_fmap. split.
        * intros ([a' e] & [= -> -> ->] & Hin%elem_of_ancestry_of). eauto 8.
        * intros (p' & st' & e & [= <- <-] & -> & He & ->). exists (a, e). split; [done|]. by apply elem_of_ancestry_of.
      + intros p' st' e a [= <- <-] He. apply py_max_spec in Hdp as [_ Hle].
        specialize (Hle e). rewrite list_elem_of_fmap in Hle.
        assert (e ≤ deepest); [|lia]. apply Hle. exists (a, e). split; [done|]. by apply elem_of_ancestry_of.
    - injection H2 as <-. split_and!; [done| |done]. intros x a d. simpl. naive_solver. }
  assert (same_registry s2 s') as [-> ->].
  { apply bind_Ok in H as ([] & s3 & H3 & H). apply bind_Ok in H as ([] & s4 & [= <-] & H).
    pose proof (record_platform_registry c op id' None s2) as [Ht Ha]. rewrite H3 in Ht, Ha. simpl in *.
    apply bind_Ok in H as ([] & s5 & H5 & [= <- <-]).
    destruct parent as [[p st]|]; injection H5 as <-; done. }
  rewrite Hts. apply (create_closure cfg s.(ts_tenants) s.(ts_ancestry)); try done.
  - intros p Hp. destruct parent as [[q st]|]; [|done]. injection Hp as ->. by eapply Hpar.
  - intros x a d. rewrite Hanc, Hm1, list_elem_of_singleton. split.
    + intros [[?|[= -> -> ->]]|(p & st & e & -> & -> & He & ->)]; eauto 8.
    + intros [?|[(-> & -> & ->)|(p & e & Hp & -> & He & ->)]]; eauto.
      destruct parent as [[q st]|]; [|done]. injection Hp as ->. right. eauto 8.
  - intros p e a Hp He. destruct parent as [[q st]|]; [|done]. injection Hp as ->. by eapply Hdeep.
Qed.

Lemma create_wf name p c s : 0 ≤ max_hierarchy_depth cfg → wf s → wf (hexec (HCreate name p c) s).
Proof.
  intros Hmax Hwf. unfold hexec. simpl. unfold create_tenant, bind, lift.
  destruct (require_lifecycle_caller _ c) as [[]|]; [|done].
  destruct (has_control_characters name); [done|]. set (op := match p with None => _ | Some _ => _ end).
  match goal with |- context [refusal_recorded c op p (transaction ?b) s] => set (body := b) end.
  destruct (refused_transaction c op p body s) as [(id & s' & Hb & ->)|Hsame].
  - simpl. subst body. unfold bind in Hb. destruct (lock_parent p s) as [[parent|] s1] eqn:Ep; [|done].
    assert (s1 = s ∧ ∀ q st, parent = Some (q, st) → is_Some (ts_tenants s !! q)) as [-> Hpar].
    { unfold lock_parent in Ep. destruct p as [q|]; [|injection Ep as <- <-; by split].
      unfold result_bind, of_tenant, get_tenant in Ep.
      unfold tenants_of, tenancy_store_tenants in Ep. destruct (ts_tenants s !! q) as [t|] eqn:Et; [|done].
      injection Ep as <- <-. split; [done|]. intros ? ? [= <- <-]. by rewrite Et. }
    destruct (authorize s c op) as [[]|]; [|done]. by eapply (create_body_wf name c op parent s id s').
  - destruct (refusal_recorded c op p (transaction body) s) as [[a|e] s'] eqn:E; simpl in Hsame; destruct Hsame as [H1 H2];
      [simpl; by rewrite H1, H2|].
    destruct e as [[]| | | | | | |]; simpl; by rewrite H1, H2.
Qed.

(** ** A move keeps the closure *)

Lemma in_subtree_spec s T x : in_subtree (subtree_of s T) x = true ↔ is_Some (s.(ts_ancestry) !! (x, T)).
Proof.
  unfold in_subtree. rewrite bool_decide_eq_true, list_elem_of_fmap. split.
  - intros ([y d] & -> & H%elem_of_subtree_of). eauto.
  - intros [d H]. exists (x, d). split; [done|]. by apply elem_of_subtree_of.
Qed.

Lemma elem_of_new_bridges s T np x a d :
  (x, a, d) ∈ new_bridges (subtree_of s T) (match np with None => [] | Some p => ancestry_of s p end) ↔
  ∃ p e r, np = Some p ∧ s.(ts_ancestry) !! (p, a) = Some e ∧ s.(ts_ancestry) !! (x, T) = Some r ∧ d = e + 1 + r.
Proof.
  unfold new_bridges. rewrite list_elem_of_bind. split.
  - intros ([a' e] & H & Hin). destruct np as [p|]; [|by apply elem_of_nil in Hin].
    apply elem_of_ancestry_of in Hin. apply list_elem_of_fmap in H as ([x' r] & [= -> -> ->] & Hr%elem_of_subtree_of).
    simpl. eauto 10.
  - intros (p & e & r & -> & He & Hr & ->). exists (a, e). split; [|by apply elem_of_ancestry_of].
    apply list_elem_of_fmap. exists (x, r). split; [done|]. by apply elem_of_subtree_of.
Qed.

Lemma move_rows s T np m :
  (∀ x a d, m !! (x, a) = Some d ↔
     without_bridges (subtree_of s T) s.(ts_ancestry) !! (x, a) = Some d ∨
     (x, a, d) ∈ new_bridges (subtree_of s T) (match np with None => [] | Some p => ancestry_of s p end)) →
  moved_rows s.(ts_ancestry) T np m.
Proof.
  intros Hm x a d. rewrite Hm, elem_of_new_bridges. apply or_iff_compat_r.
  unfold without_bridges. rewrite map_lookup_filter_Some. simpl. apply and_iff_compat_l.
  unfold is_bridge, below. simpl. rewrite andb_false_iff, negb_false_iff.
  rewrite <-not_true_iff_false, !in_subtree_spec.
  destruct (decide (is_Some (ts_ancestry s !! (x, T)))), (decide (is_Some (ts_ancestry s !! (a, T)))); naive_solver.
Qed.

Lemma move_depth s T np pd deepest :
  match np with
  | None => Ok (-1)
  | Some _ => py_max (match np with None => [] | Some p => ancestry_of s p end).*2
  end = Ok pd →
  py_max (subtree_of s T).*2 = Ok deepest → pd + 1 + deepest ≤ max_hierarchy_depth cfg →
  ∀ p e r a x, np = Some p → s.(ts_ancestry) !! (p, a) = Some e → s.(ts_ancestry) !! (x, T) = Some r →
    e + 1 + r ≤ max_hierarchy_depth cfg.
Proof.
  intros Hpd Hd Hle p e r a x -> He Hr.
  apply py_max_spec in Hpd as [_ Hpd], Hd as [_ Hd].
  assert (e ≤ pd) by (apply Hpd, list_elem_of_fmap; exists (a, e); split; [done|]; by apply elem_of_ancestry_of).
  assert (r ≤ deepest) by (apply Hd, list_elem_of_fmap; exists (x, r); split; [done|]; by apply elem_of_subtree_of).
  lia.
Qed.

Lemma move_subtree_wf c T np t reason s id s' :
  wf s → s.(ts_tenants) !! T = Some t →
  (∀ p, np = Some p → is_Some (s.(ts_tenants) !! p) ∧ s.(ts_ancestry) !! (p, T) = None) →
  move_subtree cfg administrators_ok c T np t reason s = (Ok id, s') → wf s'.
Proof.
  intros Hwf HT Hnp H. unfold move_subtree in H. apply bind_Ok in H as (s0 & s1 & [= <- <-] & H).
  apply bind_Ok in H as (pd & s1 & H1 & H). unfold lift in H1. injection H1 as Hpd <-.
  apply bind_Ok in H as (deepest & s1 & H1 & H). unfold lift in H1. injection H1 as Hdp <-.
  destruct (_ <? _) eqn:Elt; [done|]. apply Z.ltb_ge in Elt.
  apply bind_Ok in H as ([] & s1 & [= <-] & H).
  apply bind_Ok in H as ([] & s1 & H1 & H). apply put_rows_Ok in H1 as (m & -> & Hm). simpl in Hm.
  apply bind_Ok in H as ([] & s1 & H1 & H). unfold set_parent in H1. case_bool_decide; [done|]. injection H1 as <-.
  apply bind_Ok in H as (s1 & s2 & [= <- <-] & H). destruct (negb _); [done|].
  apply bind_Ok in H as ([] & s2 & H1 & H). apply bind_Ok in H as ([] & s3 & H2 & [= <- <-]).
  pose proof (record_platform_registry c TENANT_MOVE T reason (set_tenant T (with_parent np t)
    (set_ancestry m (set_ancestry (without_bridges (subtree_of s T) (ts_ancestry s)) s)))) as [Ht Ha].
  rewrite H1 in Ht, Ha. simpl in Ht, Ha.
  pose proof (record_each_registry c "tenant.move" T (audited T (t_parent_id t) np) s2) as [Ht' Ha'].
  rewrite H2 in Ht', Ha'. simpl in Ht', Ha'. rewrite Ht', Ha', Ht, Ha.
  apply (move_closure cfg s.(ts_tenants) s.(ts_ancestry) Hwf T t HT np Hnp).
  - by apply move_rows.
  - exact (move_depth s T np pd deepest Hpd Hdp Elt).
Qed.

Lemma move_body_wf T np c reason s id s' :
  wf s → move_body cfg administrators_ok T np c reason s = (Ok id, s') → wf s'.
Proof.
  intros Hwf H. unfold move_body in H. apply bind_Ok in H as ([] & s1 & H1 & H). injection H1 as _ <-.
  destruct c as [u| |]; [|done|done].
  apply bind_Ok in H as (t & s1 & H1 & H). injection H1 as Ht <-.
  assert (s.(ts_tenants) !! T = Some t) as HT.
  { unfold of_tenant in Ht. destruct (lock_open_tenant s T) eqn:E; [|done]. injection Ht as ->.
    by apply lock_open_tenant_Ok in E as [? _]. }
  apply bind_Ok in H as (st & s1 & H1 & H).
  assert (s1 = s ∧ ∀ p, np = Some p → is_Some (s.(ts_tenants) !! p) ∧ s.(ts_ancestry) !! (p, T) = None) as [-> Hnp].
  { destruct np as [p|]; [|by injection H1 as <- <-]. apply bind_Ok in H1 as (st' & s2 & H2 & [= <- <-]).
    unfold check_new_parent in H2. injection H2 as H2 <-. split; [done|]. intros ? [= <-].
    unfold result_bind, of_tenant in H2. destruct (lock_open_tenant s p) eqn:E; [|done].
    apply lock_open_tenant_Ok in E as [Hp _]. split; [eexists; exact Hp|].
    destruct (bool_decide (is_Some (ts_ancestry s !! (p, T)))) eqn:Hc; [done|]. reflect_bools. by apply eq_None_not_Some. }
  case_bool_decide; [by injection H as <- <-|].
  assert (move_subtree cfg administrators_ok (UserCaller u) T np t reason s = (Ok id, s')) as Hm
    by (destruct st as [[p []]|]; done).
  by eapply (move_subtree_wf (UserCaller u) T np t reason s id s').
Qed.

Lemma move_wf T np c reason s : wf s → wf (hexec (HMove T np c reason) s).
Proof.
  intros Hwf. unfold hexec. simpl. unfold move_tenant, bind, lift.
  destruct (require_lifecycle_caller _ c) as [[]|]; [|done].
  destruct (validated_reason reason) as [r|]; [|done].
  destruct (refused_transaction c TENANT_MOVE (Some T) (move_body cfg administrators_ok T np c r) s)
    as [(id & s' & Hb & ->)|[H1 H2]]; simpl; [|by rewrite H1, H2].
  by eapply (move_body_wf T np c r s id s').
Qed.

(** ** A transition changes a status, nothing else *)

Lemma hops_status ts T t st n x : ts !! T = Some t → hops (<[T := with_status st t]> ts) n x = hops ts n x.
Proof.
  intros HT. apply hops_avoid.
  - intros _ u _ _. unfold parent_of. destruct (decide (u = T)) as [->|Hne].
    + by rewrite lookup_insert_eq, HT.
    + by rewrite lookup_insert_ne.
  - intros u. destruct (decide (u = T)) as [->|Hne].
    + rewrite lookup_insert_eq, HT. naive_solver.
    + by rewrite lookup_insert_ne.
Qed.

Lemma status_wf ts anc T t st : hwf cfg ts anc → ts !! T = Some t → hwf cfg (<[T := with_status st t]> ts) anc.
Proof.
  intros Hwf HT. split.
  - intros x a d. rewrite (closure _ _ _ Hwf). setoid_rewrite (λ n, hops_status ts T t st n x HT). done.
  - intros x p Hp. assert (parent_of ts x = Some p) as Hp'.
    { unfold parent_of in *. destruct (decide (x = T)) as [->|Hne].
      - rewrite lookup_insert_eq in Hp. by rewrite HT.
      - by rewrite lookup_insert_ne in Hp. }
    destruct (parent_exists _ _ _ Hwf x p Hp') as [q Hq]. destruct (decide (p = T)) as [->|Hne].
    + rewrite lookup_insert_eq. eauto.
    + rewrite lookup_insert_ne by done. eauto.
  - apply (depth_bound _ _ _ Hwf).
Qed.

(** The outcomes of the decision: the edge it found and the authority it used. *)
Lemma authorize_transition_Ok s c op T reason ss b :
  authorize_transition cfg holds_self_suspend s c op T reason ss = Ok b →
  b = false ∧ ss = false ∧ authorize s c op = Ok tt ∨
  b = true ∧ op = TENANT_SUSPEND ∧ holds_self_suspend s c T = true ∧ platform_tenant_id cfg ≠ Some T ∧ is_Some reason.
Proof.
  unfold authorize_transition. cbv zeta. match goal with |- context [if ss then ?r else _] => set (rule := r) end.
  assert (rule = Ok b → b = true ∧ op = TENANT_SUSPEND ∧ holds_self_suspend s c T = true ∧
            platform_tenant_id cfg ≠ Some T ∧ is_Some reason) as Hrule.
  { subst rule. destruct (_ || _)%bool eqn:E; [done|]. destruct (bool_decide (platform_tenant_id cfg = Some T)) eqn:E2; [done|]. reflect_bools.
    destruct reason; [|done]. intros [= <-]. eauto. }
  destruct ss; [by right; apply Hrule|].
  destruct (authorize s c op) as [[]|e] eqn:E; [intros [= <-]; by left|].
  destruct e as [|[]| | | | | |]; try done. by right; apply Hrule.
Qed.

Lemma decide_transition_Ok s c first cs T target reason expected ss t op action b :
  decide_transition cfg holds_self_suspend s c first cs T target reason expected ss = Ok (t, op, action, b) →
  s.(ts_tenants) !! T = Some t ∧ lifecycle_step (t_status t) target ∧
  transition_operation (t_status t) target = Ok (op, action) ∧
  (∀ o, expected = Some o → o = op) ∧
  ((length cs = 1%nat ∧ authorize_transition cfg holds_self_suspend s c first T reason ss = Ok b) ∨
   (length cs ≠ 1%nat ∧ authorize_transition cfg holds_self_suspend s c op T reason false = Ok b)).
Proof.
  unfold decide_transition, result_bind. intros H.
  destruct (bool_decide (length cs = 1%nat)) eqn:Elen; reflect_bools.
  - destruct (authorize_transition _ _ s c first T reason ss) as [b0|] eqn:Ea; [|done].
    destruct (ts_tenants s !! T) as [t0|]; [|done].
    destruct (validate_transition (t_status t0) target) as [[]|] eqn:Ev; [|done].
    destruct (transition_operation (t_status t0) target) as [[op0 a0]|] eqn:Eo; cbn [of_tenant] in H; [|done].
    destruct (bool_decide (is_Some expected) && _)%bool eqn:Eexp; [done|]. injection H as -> -> -> ->.
    split_and!; try done; [|by left]. intros o ->. reflect_bools; naive_solver.
  - destruct (ts_tenants s !! T) as [t0|].
    2:{ destruct (require_some_candidate s c first cs); done. }
    destruct (validate_transition (t_status t0) target) as [[]|] eqn:Ev.
    2:{ destruct (require_some_candidate s c first cs); done. }
    destruct (transition_operation (t_status t0) target) as [[op0 a0]|] eqn:Eo; cbn [of_tenant] in H; [|done].
    destruct (bool_decide (is_Some expected) && _)%bool eqn:Eexp; [done|].
    destruct (authorize_transition _ _ s c op0 T reason false) as [b0|] eqn:Ea; [|done]. injection H as -> -> -> ->.
    split_and!; try done; [|by right]. intros o ->. reflect_bools; naive_solver.
Qed.

Lemma apply_transition_registry c T target reason t op action b s id s' :
  apply_transition administrators_ok c T target reason (t, op, action, b) s = (Ok id, s') →
  s'.(ts_tenants) = <[T := with_status target t]> s.(ts_tenants) ∧ s'.(ts_ancestry) = s.(ts_ancestry).
Proof.
  unfold apply_transition. intros H. apply bind_Ok in H as (s0 & s1 & [= <- <-] & H).
  apply bind_Ok in H as ([] & s1 & [= <-] & H). apply bind_Ok in H as (s1 & s2 & [= <- <-] & H).
  destruct (_ && _)%bool; [done|].
  apply bind_Ok in H as ([] & s2 & H1 & H). apply bind_Ok in H as ([] & s3 & H2 & [= <- <-]).
  assert (same_registry s2 s3) as [-> ->] by (destruct action; by injection H2 as <-).
  assert (same_registry (set_tenant T (with_status target t) s) s2) as [-> ->].
  { destruct b; [by injection H1 as <-|].
    pose proof (record_platform_registry c op T reason (set_tenant T (with_status target t) s)) as Hr.
    by rewrite H1 in Hr. }
  done.
Qed.

(** A transition either leaves the registry as it was or sets one status. *)
Lemma transition_cases T target c reason expected ss s :
  (∃ e, (hrun (HTransition T target c reason expected ss) s).1 = Raise e ∧
     same_registry s (hexec (HTransition T target c reason expected ss) s)) ∨
  ∃ t op action b first cs r id s',
    decide_transition cfg holds_self_suspend s c first cs T target r expected ss = Ok (t, op, action, b) ∧
    hrun (HTransition T target c reason expected ss) s = (Ok id, s') ∧
    s'.(ts_tenants) = <[T := with_status target t]> s.(ts_tenants) ∧ s'.(ts_ancestry) = s.(ts_ancestry) ∧
    cs = match expected with Some op => [op] | None => candidate_operations target end ∧
    head cs = Some first ∧ (is_Some r → is_Some reason) ∧ (ss = true → cs = [TENANT_SUSPEND]).
Proof.
  unfold hexec. simpl. unfold transition_tenant_status, bind, lift.
  destruct (require_lifecycle_caller _ c) as [[]|]; [|by left; eexists].
  destruct (validated_reason reason) as [r|] eqn:Er; [|by left; eexists].
  destruct (candidate_operations target) as [|f rest] eqn:Ecs; [by left; eexists|].
  destruct (bool_decide (is_Some expected) && _)%bool eqn:Eexp; [by left; eexists|].
  set (cs := match expected with Some op => [op] | None => f :: rest end).
  destruct (ss && _)%bool eqn:Ess; [by left; eexists|].
  destruct (passes_transition_gate s c cs T ss) as [[]|]; [|by left; eexists|by left; eexists].
  unfold transition_session.
  destruct (decide_transition cfg holds_self_suspend s c (default f expected) cs T target r expected ss)
    as [[[[t op] action] b]|[op e]] eqn:Ed.
  2:{ left. exists e. destruct e as [|[]| | | | | |]; done. }
  destruct (transaction_cases (apply_transition administrators_ok c T target r (t, op, action, b)) s)
    as [(id & s' & Ha & ->)|[e ->]]; [right|by left; eexists].
  exists t, op, action, b, (default f expected), cs, r, id, s'.
  apply apply_transition_registry in Ha as [Ht Han].
  split_and!; try done.
  - by destruct expected.
  - destruct reason; [done|]. simpl in Er. injection Er as <-. by intros [].
  - intros ->. simpl in Ess. by reflect_bools.
Qed.

Lemma transition_wf T target c reason expected ss s :
  wf s → wf (hexec (HTransition T target c reason expected ss) s).
Proof.
  intros Hwf. destruct (transition_cases T target c reason expected ss s)
    as [(e & _ & H1 & H2)|(t & op & action & b & first & cs & r & id & s' & Hd & Hrun & Ht & Ha & _)].
  - by rewrite H1, H2.
  - unfold hexec. rewrite Hrun. simpl. rewrite Ht, Ha. apply status_wf; [done|].
    by apply decide_transition_Ok in Hd as [? _].
Qed.

Lemma hexec_wf cmd s : 0 ≤ max_hierarchy_depth cfg → wf s → wf (hexec cmd s).
Proof. intros Hmax. destruct cmd; [by apply create_wf|apply move_wf|apply transition_wf]. Qed.

Lemma hhistory_wf cmds s : 0 ≤ max_hierarchy_depth cfg → wf s → wf (hhistory cmds s).
Proof.
  intros Hmax. revert s. induction cmds as [|cmd cmds IH]; intros s Hwf; [done|].
  simpl. apply IH. by apply hexec_wf.
Qed.

Lemma empty_wf s : s.(ts_tenants) = ∅ → s.(ts_ancestry) = ∅ → wf s.
Proof.
  intros Ht Ha. simpl. rewrite Ht, Ha. split.
  - intros t a d. rewrite lookup_empty. split; [done|]. intros (n & _ & [? Hx]%hops_exists). by rewrite lookup_empty in Hx.
  - intros t p Hp. unfold parent_of in Hp. by rewrite lookup_empty in Hp.
  - intros k d. by rewrite lookup_empty.
Qed.

(** C3: the closure table is the closure.  After every history of creations,
    moves and lifecycle transitions, accepted or refused, of an installation
    that started with no tenants: [tenant_ancestry] holds a row for [(t, a)]
    exactly when [a] is reached from [t] by parent steps, with their number as
    depth; no tenant is its own strict ancestor; and no tenant is deeper than
    the configured maximum. *)
Theorem ancestry_is_closure (cmds : list hcommand) (s0 : tenancy_store) :
  valid_tenancy_config cfg = true → s0.(ts_tenants) = ∅ → s0.(ts_ancestry) = ∅ →
  let s := hhistory cmds s0 in
  (∀ t a d, s.(ts_ancestry) !! (t, a) = Some d ↔ ∃ n, d = Z.of_nat n ∧ hops s.(ts_tenants) n t = Some a) ∧
  (∀ n t, hops s.(ts_tenants) (S n) t ≠ Some t) ∧
  (∀ k d, s.(ts_ancestry) !! k = Some d → d ≤ max_hierarchy_depth cfg).
Proof.
  intros Hcfg Ht Ha s. unfold valid_tenancy_config in Hcfg. apply Z.leb_le in Hcfg.
  assert (wf s) as Hwf by (apply hhistory_wf; [lia|by apply empty_wf]).
  split_and!; [apply (closure _ _ _ Hwf)| |apply (depth_bound _ _ _ Hwf)].
  intros n t Hn. pose proof (hops_exists _ _ _ _ Hn) as Hex.
  by pose proof (hwf_functional _ _ _ _ _ _ _ Hwf Hn (hops_zero _ _ Hex)).
Qed.

(** ** Who may change a tenant's status *)

Lemma transition_operation_candidate current target op action :
  transition_operation current target = Ok (op, action) → op ∈ candidate_operations target.
Proof.
  destruct current, target; vm_compute; intros H; simplify_eq; repeat constructor.
Qed.

Lemma authorize_Ok s c op : pwf s.(ts_platform) → authorize s c op = Ok tt → may_perform s.(ts_platform) c op.
Proof.
  intros Hwf H. unfold authorize in H.
  destruct (authorize_spec _ c op Hwf) as [[_ ?]|[E _]]; [done|]. by rewrite E in H.
Qed.

(** A status changes only along the graph and with authority.  If a
    transition succeeds, the tenant existed, its status as read under the lock
    had an edge to the target, the operation of that edge is the one expected
    (if the caller named one), and the caller held the platform authority for
    exactly that operation, or suspended their own active tenant under the
    self-service rule, with a reason, the tenant not being the platform's own.
    Nothing else of the registry changed. *)
Theorem transition_authorized (T : uuid) (target : TenantStatus) (c : caller) (reason : option pystr)
    (expected : option operation) (ss : bool) (s s' : tenancy_store) (id : uuid) :
  pwf s.(ts_platform) → hrun (HTransition T target c reason expected ss) s = (Ok id, s') →
  ∃ t op action,
    s.(ts_tenants) !! T = Some t ∧ lifecycle_step (t_status t) target ∧
    transition_operation (t_status t) target = Ok (op, action) ∧ (∀ o, expected = Some o → o = op) ∧
    s'.(ts_tenants) = <[T := with_status target t]> s.(ts_tenants) ∧ s'.(ts_ancestry) = s.(ts_ancestry) ∧
    (ss = false ∧ may_perform s.(ts_platform) c op ∨
     op = TENANT_SUSPEND ∧ holds_self_suspend s c T = true ∧ platform_tenant_id cfg ≠ Some T ∧ is_Some reason).
Proof.
  intros Hwf Hrun. destruct (transition_cases T target c reason expected ss s)
    as [(e & He & _)|(t & op & action & b & first & cs & r & id' & s'' & Hd & Hrun' & Ht & Ha & Hcs & Hhd & Hreason & Hself1)].
  { by rewrite Hrun in He. }
  rewrite Hrun in Hrun'. injection Hrun' as -> ->. exists t, op, action.
  apply decide_transition_Ok in Hd as (HT & Hstep & Hop & Hexp & Hauth). split_and!; try done.
  assert (∃ ss', authorize_transition cfg holds_self_suspend s c op T r ss' = Ok b ∧ (ss' = false → ss = false))
    as (ss' & Hb & Hss).
  { destruct Hauth as [[Hlen Hb]|[Hlen Hb]].
    - exists ss. split; [|done]. assert (first = op) as <-; [|done].
      destruct expected as [o|]; [subst cs; simpl in Hhd; rewrite <-(Hexp o eq_refl); congruence|].
      apply transition_operation_candidate in Hop. rewrite <-Hcs in Hop. destruct cs as [|x [|]]; simplify_eq/=.
      by apply list_elem_of_singleton in Hop.
    - exists false. split; [done|]. intros _. destruct ss; [|done]. by rewrite (Hself1 eq_refl) in Hlen. }
  destruct (authorize_transition_Ok _ _ _ _ _ _ _ Hb) as [(_ & -> & Ha')|(_ & -> & Hself & Hpt & Hr)].
  - left. split; [by apply Hss|by apply authorize_Ok].
  - right. eauto.
Qed.

(** *** Nothing is disclosed *)

Lemma any_can_false s u ps : pwf s → (∀ p, p ∈ ps → ¬ holds_permission s u p) → any_can s u ps = Ok false.
Proof.
  intros Hwf. induction ps as [|p ps IH]; intros Hno; [done|]. simpl.
  destruct (platform_can_spec s u p Hwf) as (b & -> & Hb). simpl. destruct b.
  - by destruct (Hno p (list_elem_of_here _ _)); apply Hb.
  - apply IH. intros q Hq. by apply Hno, list_elem_of_further.
Qed.

Lemma gate_refuses s c ops : pwf s → (∀ op, op ∈ ops → ¬ may_perform s c op) →
  platform_caller_could_hold_any s c ops = Ok false.
Proof.
  intros Hwf Hno. destruct c as [u|sa t|a]; simpl; [|done|].
  - apply any_can_false; [done|]. intros p Hp Hh. apply elem_of_remove_dups, list_elem_of_omap in Hp as (op & Hop & Hperm).
    apply (Hno op Hop). exists p. done.
  - f_equal. apply not_true_is_false. rewrite existsb_exists. intros (op & Hin%list_elem_of_In & Ha).
    apply bool_decide_eq_true in Ha. by apply (Hno op Hin).
Qed.

Lemma authorize_refuses s c op : pwf s.(ts_platform) → ¬ may_perform s.(ts_platform) c op →
  authorize s c op = Raise (HPlatform (PlatformNotAuthorizedError (key op))).
Proof.
  intros Hwf Hno. unfold authorize. destruct (authorize_spec _ c op Hwf) as [[_ ?]|[-> _]]; done.
Qed.

Lemma suspend_candidate target : TENANT_SUSPEND ∈ candidate_operations target →
  candidate_operations target = [TENANT_SUSPEND].
Proof.
  destruct target; vm_compute; intros H; try done; exfalso;
    repeat (apply elem_of_cons in H as [H|H]; [done|]); by apply elem_of_nil in H.
Qed.

Lemma session_refuses T target c r first s :
  pwf s.(ts_platform) → ¬ may_perform s.(ts_platform) c first → holds_self_suspend s c T = false →
  let m := transition_session cfg holds_self_suspend administrators_ok T target c r None false first [first] s in
  m.1 = Raise (HPlatform (PlatformNotAuthorizedError (key first))) ∧ same_registry s m.2.
Proof.
  intros Hwf Hno Hself. unfold transition_session, decide_transition, authorize_transition. simpl.
  rewrite (authorize_refuses s c first) by done. rewrite Hself, orb_true_r. done.
Qed.

(** Nothing is disclosed to a caller without authority.  A person or
    system purpose that may perform none of the operations the target status
    can select, and may not suspend the tenant themselves, gets the same error,
    whether the tenant exists or not and whatever its status, its parent or its
    children are; and the registry is not touched. *)
Theorem transition_discloses_nothing (T : uuid) (target : TenantStatus) (c : caller) (reason : option pystr)
    (first : operation) (rest : list operation) (r : option pystr) (s : tenancy_store) :
  pwf s.(ts_platform) → validated_reason reason = Ok r → (∀ sa t, c ≠ ServiceAccountCaller sa t) →
  candidate_operations target = first :: rest →
  (∀ op, op ∈ first :: rest → ¬ may_perform s.(ts_platform) c op) → holds_self_suspend s c T = false →
  (hrun (HTransition T target c reason None false) s).1 = Raise (HPlatform (PlatformNotAuthorizedError (key first))) ∧
  same_registry s (hexec (HTransition T target c reason None false) s).
Proof.
  intros Hwf Hr Hsa Hcs Hno Hself. unfold hexec. simpl. unfold transition_tenant_status, bind, lift.
  assert (require_lifecycle_caller TENANT_TRANSITION c = Ok tt) as -> by (destruct c; naive_solver).
  rewrite Hr, Hcs. simpl. unfold passes_transition_gate. simpl. rewrite (gate_refuses _ c (first :: rest)) by done.
  simpl. destruct (bool_decide (TENANT_SUSPEND ∈ first :: rest)) eqn:Es.
  - reflect_bools. rewrite <-Hcs in Es. apply suspend_candidate in Es. rewrite Hcs in Es. injection Es as -> ->.
    assert (¬ may_perform s.(ts_platform) c TENANT_SUSPEND) as Hns by apply Hno, list_elem_of_here.
    pose proof (session_refuses T target c r TENANT_SUSPEND s Hwf Hns Hself) as Hses.
    destruct c as [u| |]; [|done|done]. by destruct (caller_is_member_of_any s (UserCaller u) [T]).
  - by destruct c.
Qed.
End Safety.

(** ** A concrete deployment

    Ann is a platform owner who may create, move and suspend tenants; Bob has
    no authority.  Tenants [2000] and [2002] are roots, [2001] is a child of
    [2000]. *)

Definition hdemo_uuid (n : nat) : uuid := (N.of_nat n + 2000)%N.
Definition hdemo_cfg : TenancyConfig := mkTenancyConfig 6 None.
Definition hdemo_self (s : tenancy_store) (c : caller) (t : uuid) : bool := false.
Definition hdemo_admins (l : list uuid) (s s' : tenancy_store) : bool := true.
Definition hdemo_bootstrap : pcommand :=
  mkPCommand (SystemCaller PLATFORM_BOOTSTRAP) pdemo_reason 5
    (PBootstrap (ByIdentity "idp" "ann") [P_AUTHORITY_MANAGE; P_TENANT_CREATE; P_TENANT_MOVE; P_TENANT_SUSPEND]).
Definition hdemo_start : tenancy_store :=
  mkTenancy ∅ ∅ ∅ (pexec pdemo_uuid hdemo_bootstrap pdemo_start) [] 0.
Definition hdemo_setup : list hcommand :=
  [HCreate (lit "acme") None (UserCaller 1); HCreate (lit "acme-eu") (Some 2000%N) (UserCaller 1);
   HCreate (lit "globex") None (UserCaller 1); HTransition 2000 ACTIVE (UserCaller 1) None None false].
Definition hdemo : tenancy_store := hhistory hdemo_uuid hdemo_cfg hdemo_self hdemo_admins hdemo_setup hdemo_start.

Lemma hdemo_start_pwf : pwf (ts_platform hdemo_start).
Proof. apply (phistory_pwf pdemo_uuid [hdemo_bootstrap] pdemo_start), pwf_empty. Defined.

Lemma hdemo_pwf : pwf (ts_platform hdemo).
Proof.
  assert (ps_operators (ts_platform hdemo) = ps_operators (ts_platform hdemo_start)) as Ho by (vm_compute; reflexivity).
  assert (ps_grants (ts_platform hdemo) = ps_grants (ts_platform hdemo_start)) as Hg by (vm_compute; reflexivity).
  destruct hdemo_start_pwf as [H1 H2 H3]. split; rewrite ?Ho, ?Hg; assumption.
Defined.

Lemma ancestry_is_closure_witness :
  let s := hhistory hdemo_uuid hdemo_cfg hdemo_self hdemo_admins
             (hdemo_setup ++ [HMove 2001 (Some 2002%N) (UserCaller 1) None]) hdemo_start in
  s.(ts_ancestry) !! (2001%N, 2002%N) = Some 1 ∧ s.(ts_ancestry) !! (2001%N, 2000%N) = None ∧
  hops s.(ts_tenants) 1 2001 = Some 2002%N ∧ ∀ n t, hops s.(ts_tenants) (S n) t ≠ Some t.
Proof.
  edestruct (ancestry_is_closure hdemo_uuid hdemo_cfg hdemo_self hdemo_admins
    (hdemo_setup ++ [HMove 2001 (Some 2002%N) (UserCaller 1) None]) hdemo_start) as (_ & H & _);
    [reflexivity|reflexivity|reflexivity|].
  split_and!; [vm_compute; reflexivity|vm_compute; reflexivity|vm_compute; reflexivity|exact H].
Defined.

Lemma transition_authorized_witness :
  ∃ t op action, hdemo.(ts_tenants) !! 2000%N = Some t ∧ lifecycle_step (t_status t) SUSPENDED ∧
    transition_operation (t_status t) SUSPENDED = Ok (op, action).
Proof.
  edestruct (transition_authorized hdemo_uuid hdemo_cfg hdemo_self hdemo_admins 2000 SUSPENDED (UserCaller 1)
    (Some pdemo_reason) None false hdemo) as (t & op & action & H1 & H2 & H3 & _).
  - exact hdemo_pwf.
  - vm_compute. reflexivity.
  - exists t, op, action. split_and!; assumption.
Defined.

Lemma transition_discloses_nothing_witness :
  (hrun hdemo_uuid hdemo_cfg hdemo_self hdemo_admins (HTransition 7 DELETED (UserCaller 2) None None false) hdemo).1 =
  (hrun hdemo_uuid hdemo_cfg hdemo_self hdemo_admins (HTransition 2000 DELETED (UserCaller 2) None None false) hdemo).1.
Proof.
  assert (∀ T, (hrun hdemo_uuid hdemo_cfg hdemo_self hdemo_admins (HTransition T DELETED (UserCaller 2) None None false) hdemo).1 =
    Raise (HPlatform (PlatformNotAuthorizedError (key TENANT_DELETE)))) as H; [|by rewrite !H].
  intros T. apply (transition_discloses_nothing hdemo_uuid hdemo_cfg hdemo_self hdemo_admins T DELETED (UserCaller 2)
    None TENANT_DELETE [] None hdemo); try reflexivity; try discriminate.
  - exact hdemo_pwf.
  - intros op ->%list_elem_of_singleton Hp.
    destruct (authorize_spec (ts_platform hdemo) (UserCaller 2) TENANT_DELETE) as [[H _]|[_ H]]; [| |by apply H].
    + exact hdemo_pwf.
    + vm_compute in H. discriminate H.
Defined.
