(* ===== verification/HierarchyReads.v ===== *)
(** * Reads of the closure, and the totality of a move

    Under the closure invariant the derived reads agree with walking the
    parents, and a move that passes its checks never violates a constraint of
    the tables. *)

From S2P Require Import Prelude PyStr TenantLifecycle PlatformAuthority PlatformService PlatformProofs PlatformSafety TenantHierarchy HierarchyProofs HierarchySafety.

(** ** Lists of defined values *)

Lemma omap_seq_lookup {A} (g : nat → option A) k m i :
  (∀ n, is_Some (g (S n)) → is_Some (g n)) →
  omap g (seq k m) !! i = if decide (i < m)%nat then g (k + i)%nat else None.
Proof.
  intros Hg. revert k i. induction m as [|m IH]; intros k i.
  { destruct (decide (i < 0)%nat); [lia|done]. }
  change (omap g (seq k (S m))) with
    (match g k with Some y => y :: omap g (seq (S k) m) | None => omap g (seq (S k) m) end).
  destruct (g k) as [x|] eqn:Ek.
  - destruct i as [|i]; simpl.
    + by rewrite Nat.add_0_r, Ek.
    + change (omap g (seq (S k) m) !! i = if decide (S i < S m)%nat then g (k + S i)%nat else None).
      rewrite (IH (S k) i). replace (S k + i)%nat with (k + S i)%nat by lia.
      by repeat case_decide; try lia.
  - assert (∀ j, g (k + j)%nat = None) as Hnone.
    { intros j. induction j as [|j IHj]; [by rewrite Nat.add_0_r|].
      destruct (g (k + S j)%nat) eqn:E; [|done]. rewrite Nat.add_succ_r in E.
      destruct (Hg (k + j)%nat) as [y Hy]; [by rewrite E|]. congruence. }
    rewrite (IH (S k) i). replace (S k + i)%nat with (k + S i)%nat by lia. rewrite !Hnone. by repeat case_decide.
Qed.

#[export] Instance nearer_total : Total nearer.
Proof. intros p q. unfold nearer. lia. Qed.
#[export] Instance nearer_trans : Transitive nearer.
Proof. intros p q r. unfold nearer. lia. Qed.

(** ** The ancestor chain *)

Section Reads.
Context (cfg : TenancyConfig) (s : tenancy_store) (Hwf : hwf cfg s.(ts_tenants) s.(ts_ancestry)).

Lemma hops_prefix n t : is_Some (hops s.(ts_tenants) (S n) t) → is_Some (hops s.(ts_tenants) n t).
Proof.
  intros [a Ha]. replace (S n) with (n + 1)%nat in Ha by lia. rewrite hops_add in Ha.
  destruct (hops (ts_tenants s) n t); [by eauto|done].
Qed.

Lemma hops_bounded n t a : hops s.(ts_tenants) n t = Some a → Z.of_nat n ≤ max_hierarchy_depth cfg.
Proof. intros H. eapply (depth_bound _ _ _ Hwf (t, a)). by eapply hwf_row. Qed.

(** The strict ancestors of [t] with their distances, nearest first. *)
Definition chain_rows (t : uuid) : list (uuid * Z) :=
  omap (λ n, (λ a, (a, Z.of_nat n)) <$> hops s.(ts_tenants) n t) (seq 1 (Z.to_nat (max_hierarchy_depth cfg))).

Lemma elem_of_chain_rows t a d : (a, d) ∈ chain_rows t ↔ 0 < d ∧ s.(ts_ancestry) !! (t, a) = Some d.
Proof.
  unfold chain_rows. rewrite list_elem_of_omap. split.
  - intros (n & Hn%list_elem_of_In%in_seq & H). apply fmap_Some in H as (a' & Ha & [= -> ->]).
    split; [lia|]. by eapply hwf_row.
  - intros [Hd Hrow]. apply (closure _ _ _ Hwf) in Hrow as (n & -> & Hn). exists n.
    pose proof (hops_bounded _ _ _ Hn). split; [apply list_elem_of_In, in_seq; lia|]. by rewrite Hn.
Qed.

Lemma same_depth t a a' d : s.(ts_ancestry) !! (t, a) = Some d → s.(ts_ancestry) !! (t, a') = Some d → a = a'.
Proof.
  intros (n & -> & Hn)%(closure _ _ _ Hwf) (n' & Heq & Hn')%(closure _ _ _ Hwf).
  assert (n' = n) as -> by lia. congruence.
Qed.

Lemma NoDup_ancestry_of t : NoDup (ancestry_of s t).
Proof.
  unfold ancestry_of. apply NoDup_fmap_2_strong; [|apply NoDup_filter, NoDup_map_to_list].
  intros [[x a] d] [[x' a'] d'] [Hx _]%list_elem_of_filter [Hx' _]%list_elem_of_filter Heq. simpl in *. congruence.
Qed.

Lemma NoDup_subtree_of t : NoDup (subtree_of s t).
Proof.
  unfold subtree_of. apply NoDup_fmap_2_strong; [|apply NoDup_filter, NoDup_map_to_list].
  intros [[x a] d] [[x' a'] d'] [Hx _]%list_elem_of_filter [Hx' _]%list_elem_of_filter Heq. simpl in *. congruence.
Qed.

Lemma elem_of_fst (l : list (uuid * Z)) x : x ∈ l.*1 ↔ ∃ d, (x, d) ∈ l.
Proof.
  rewrite list_elem_of_fmap. split; [intros ([y d] & -> & ?); eauto|intros [d ?]; by exists (x, d)].
Qed.

Lemma row_iff t a : (∃ d, s.(ts_ancestry) !! (t, a) = Some d) ↔ ∃ n, hops s.(ts_tenants) n t = Some a.
Proof.
  split; [intros (d & (n & _ & Hn)%(closure _ _ _ Hwf)); eauto|intros [n Hn]; eexists; by eapply hwf_row].
Qed.

Lemma seq_chain_sorted g k m : Sorted nearer (omap (λ n, (λ a : uuid, (a, Z.of_nat n)) <$> g n) (seq k m)) ∧
  NoDup (omap (λ n, (λ a : uuid, (a, Z.of_nat n)) <$> g n) (seq k m)).
Proof.
  revert k. induction m as [|m IH]; intros k; [split; constructor|]. destruct (IH (S k)) as [Hs Hnd].
  assert (∀ a d, (a, d) ∈ omap (λ n, (λ a : uuid, (a, Z.of_nat n)) <$> g n) (seq (S k) m) → Z.of_nat k < d) as Hgt.
  { intros a d (n & Hn%list_elem_of_In%in_seq & H)%list_elem_of_omap. apply fmap_Some in H as (a' & _ & [= _ ->]). lia. }
  set (f := λ n, (λ a : uuid, (a, Z.of_nat n)) <$> g n) in *.
  change (omap f (seq k (S m))) with
    (match f k with Some y => y :: omap f (seq (S k) m) | None => omap f (seq (S k) m) end).
  assert (f k = (λ a : uuid, (a, Z.of_nat k)) <$> g k) as -> by done.
  destruct (g k) as [a|]; cbn [fmap option_fmap option_map]; [|done]. split.
  - constructor; [done|]. destruct (omap f (seq (S k) m)) as [|[b d] l] eqn:E; constructor. unfold nearer. simpl.
    specialize (Hgt b d (list_elem_of_here _ _)). lia.
  - constructor; [|done]. intros Hin. specialize (Hgt _ _ Hin). lia.
Qed.

Lemma chain_lookup t i : get_ancestor_chain s t !! i = hops s.(ts_tenants) (S i) t.
Proof.
  assert (merge_sort nearer (filter (λ p : uuid * Z, 0 < p.2) (ancestry_of s t)) = chain_rows t) as Heq.
  { destruct (seq_chain_sorted (λ n, hops s.(ts_tenants) n t) 1 (Z.to_nat (max_hierarchy_depth cfg))) as [Hsort Hnd].
    assert (∀ a d, (a, d) ∈ merge_sort nearer (filter (λ p : uuid * Z, 0 < p.2) (ancestry_of s t)) ↔
              0 < d ∧ s.(ts_ancestry) !! (t, a) = Some d) as Hel.
    { intros a d. rewrite merge_sort_Permutation, list_elem_of_filter, elem_of_ancestry_of. done. }
    apply (Sorted_unique_strong nearer).
    - intros [a d] [a' d'] [_ Ha]%Hel [_ Ha']%elem_of_chain_rows H1 H2. unfold nearer in *. simpl in *.
      assert (d = d') as <- by lia. f_equal. by eapply same_depth.
    - apply Sorted_merge_sort. apply _.
    - done.
    - apply NoDup_Permutation; [|done|intros [a d]; by rewrite Hel, elem_of_chain_rows].
      rewrite merge_sort_Permutation. apply NoDup_filter, NoDup_ancestry_of. }
  unfold get_ancestor_chain. rewrite Heq, list_lookup_fmap. unfold chain_rows.
  rewrite (omap_seq_lookup (λ n, (λ a, (a, Z.of_nat n)) <$> hops s.(ts_tenants) n t)).
  2:{ intros n. rewrite !fmap_is_Some. apply hops_prefix. }
  simpl (1 + i)%nat. case_decide as Hi.
  - by destruct (hops (ts_tenants s) (S i) t).
  - destruct (hops (ts_tenants s) (S i) t) as [a|] eqn:E; [|done]. apply hops_bounded in E. lia.
Qed.

(** The derived reads are the walk up the parents.  The [i]-th entry of
    [get_ancestor_chain] is the tenant [i + 1] parent steps above, for every
    [i], so the list ends exactly at the root; the ancestor ids are the tenants
    the walk meets, itself included; and the descendants of a tenant, as a set
    and in order of depth, are exactly the tenants whose walk meets it, each
    once. *)
Theorem reads_follow_parents (t : uuid) :
  (∀ i, get_ancestor_chain s t !! i = hops s.(ts_tenants) (S i) t) ∧
  (∀ a, a ∈ get_ancestor_ids s t ↔ ∃ n, hops s.(ts_tenants) n t = Some a) ∧
  (∀ x, x ∈ get_descendant_ids s t ↔ ∃ n, hops s.(ts_tenants) n x = Some t) ∧
  NoDup (descendant_ids_by_depth s t) ∧
  (∀ x, x ∈ descendant_ids_by_depth s t ↔ ∃ n, hops s.(ts_tenants) (S n) x = Some t).
Proof.
  split_and!.
  - apply chain_lookup.
  - intros a. unfold get_ancestor_ids. rewrite elem_of_list_to_set, elem_of_fst. setoid_rewrite elem_of_ancestry_of.
    apply row_iff.
  - intros x. unfold get_descendant_ids. rewrite elem_of_list_to_set, elem_of_fst. setoid_rewrite elem_of_subtree_of.
    apply row_iff.
  - unfold descendant_ids_by_depth. rewrite merge_sort_Permutation. apply NoDup_fmap_fst.
    + intros x d d' [_ H%elem_of_subtree_of]%list_elem_of_filter [_ H'%elem_of_subtree_of]%list_elem_of_filter. congruence.
    + apply NoDup_filter, NoDup_subtree_of.
  - intros x. unfold descendant_ids_by_depth. rewrite merge_sort_Permutation, elem_of_fst.
    setoid_rewrite list_elem_of_filter. setoid_rewrite elem_of_subtree_of. simpl. split.
    + intros (d & Hne & ([|n] & -> & Hn)%(closure _ _ _ Hwf)); [|by eauto].
      simpl in Hn. case_decide; [injection Hn as ->; by destruct Hne|done].
    + intros [n Hn]. exists (Z.of_nat (S n)). split; [|by apply (hwf_row cfg _ _ (S n) _ _ Hwf)]. intros ->.
      pose proof (hops_exists _ (S n) _ _ Hn) as Hex.
      by pose proof (hwf_functional _ _ _ (S n) 0 _ _ Hwf Hn (hops_zero _ _ Hex)).
Qed.
End Reads.

(** ** What can go wrong *)

(** The errors no caller is told about: a constraint of the tables violated, a
    value too long, [max()] of nothing. *)
Definition store_fault (e : hierarchy_error) : bool :=
  match e with
  | HIntegrityError | HDataError | HValueError | HPlatform PlatformIntegrityError | HPlatform MultipleResultsFound => true
  | _ => false
  end.
Definition faultless {A : Type} (r : result hierarchy_error A) : Prop := ∀ e, r = Raise e → store_fault e = false.

(** What the database is given that it did not choose: a fresh random id and a
    name that fits its column. *)
Definition input_fits (uuid4 : nat → uuid) (cmd : hcommand) (s : tenancy_store) : Prop :=
  match cmd with
  | HCreate name _ _ => (length name ≤ 255)%nat ∧ s.(ts_tenants) !! uuid4 s.(ts_drawn) = None
  | _ => True
  end.

Lemma add_rows_total rows m :
  NoDup rows.*1 →
  (∀ t a d, (t, a, d) ∈ rows → m !! (t, a) = None ∧ (t = a ∧ d = 0 ∨ t ≠ a ∧ 0 < d)) →
  ∃ m', add_ancestry_rows m rows = Ok m'.
Proof.
  revert m. induction rows as [|[[t a] d] rows IH]; intros m Hnd Hok; [by eexists|].
  rewrite fmap_cons in Hnd. apply NoDup_cons in Hnd as [Hnot Hnd].
  destruct (Hok t a d (list_elem_of_here _ _)) as [Hn Hc]. cbn [add_ancestry_rows]. unfold add_ancestry_row.
  rewrite bool_decide_eq_false_2 by (by rewrite Hn; intros []). rewrite bool_decide_eq_true_2 by done. simpl.
  apply IH; [done|]. intros t' a' d' Hin. destruct (Hok t' a' d') as [Hn' ?]; [by right|]. split; [|done].
  rewrite lookup_insert_ne; [done|]. intros Heq. apply Hnot. rewrite Heq. apply list_elem_of_fmap. by exists (t', a', d').
Qed.

Lemma put_rows_total rows s :
  NoDup rows.*1 →
  (∀ t a d, (t, a, d) ∈ rows → s.(ts_ancestry) !! (t, a) = None ∧ (t = a ∧ d = 0 ∨ t ≠ a ∧ 0 < d)) →
  ∃ m, put_ancestry_rows rows s = (Ok tt, set_ancestry m s).
Proof.
  intros Hnd Hok. destruct (add_rows_total rows _ Hnd Hok) as [m Hm]. exists m.
  unfold put_ancestry_rows. by rewrite Hm.
Qed.

Lemma py_max_total l x : x ∈ l → ∃ d, py_max l = Ok d.
Proof. destruct l; [by intros ?%elem_of_nil|by eexists]. Qed.

(** Somebody whose authority was accepted can be recorded. *)
Lemma validated_reason_fits reason r : validated_reason reason = Ok r → reason_too_long r = false.
Proof.
  unfold validated_reason, validate_reason, result_bind. destruct reason as [v|]; [|by intros [= <-]].
  repeat case_match; intros; simplify_eq/=. done.
Qed.

Lemma record_platform_total c op op' t r s : may_perform s.(ts_platform) c op → reason_too_long r = false →
  ∃ s', record_platform c op' t r s = (Ok tt, s') ∧ same_registry s s' ∧ s'.(ts_members) = s.(ts_members).
Proof.
  intros Hmay Hr. unfold record_platform, record_platform_event. rewrite Hr.
  destruct c as [u|sa ti|a]; [|done|by eexists].
  destruct Hmay as (p & _ & Ha & _). unfold is_active_user in Ha. apply bool_decide_eq_true in Ha.
  rewrite Ha. by eexists.
Qed.

Section Totality.
Context (uuid4 : nat → uuid) (cfg : TenancyConfig).
Context (holds_self_suspend : tenancy_store → caller → uuid → bool).
Context (administrators_ok : list uuid → tenancy_store → tenancy_store → bool).

Abbreviation wf := (λ s : tenancy_store, hwf cfg s.(ts_tenants) s.(ts_ancestry)).

Lemma self_row s t : wf s → is_Some (s.(ts_tenants) !! t) → s.(ts_ancestry) !! (t, t) = Some 0.
Proof. intros Hwf Ht. apply (closure _ _ _ Hwf). exists 0%nat. split; [done|]. by apply hops_zero. Qed.

Lemma row_nonneg s k d : wf s → s.(ts_ancestry) !! k = Some d → 0 ≤ d.
Proof. destruct k as [x a]. intros Hwf (n & -> & _)%(closure _ _ _ Hwf). lia. Qed.

Lemma row_trans s x t a d e : wf s → s.(ts_ancestry) !! (x, t) = Some d → s.(ts_ancestry) !! (t, a) = Some e →
  s.(ts_ancestry) !! (x, a) = Some (d + e).
Proof.
  intros Hwf (n & -> & Hn)%(closure _ _ _ Hwf) (m & -> & Hm)%(closure _ _ _ Hwf). apply (closure _ _ _ Hwf).
  exists (n + m)%nat. split; [lia|]. by rewrite hops_add, Hn.
Qed.

(** The rows a move adds are new, distinct and within the CHECK. *)
Lemma new_bridges_fit s T np :
  wf s → (∀ p, np = Some p → is_Some (s.(ts_tenants) !! p) ∧ s.(ts_ancestry) !! (p, T) = None) →
  let rows := new_bridges (subtree_of s T) (match np with None => [] | Some p => ancestry_of s p end) in
  NoDup rows.*1 ∧
  ∀ x a d, (x, a, d) ∈ rows →
    without_bridges (subtree_of s T) s.(ts_ancestry) !! (x, a) = None ∧ (x = a ∧ d = 0 ∨ x ≠ a ∧ 0 < d).
Proof.
  intros Hwf Hnp rows. split.
  - apply NoDup_fmap_fst.
    + intros [x a] d d' (p & e & r & Hp & He & Hr & ->)%elem_of_new_bridges
        (p' & e' & r' & Hp' & He' & Hr' & ->)%elem_of_new_bridges.
      congruence.
    + subst rows. unfold new_bridges. apply NoDup_bind.
      * intros [a e] [a' e'] y Ha Ha' ([x r] & -> & _)%list_elem_of_fmap ([x' r'] & Heq & _)%list_elem_of_fmap.
        injection Heq as _ <-. destruct np as [p|]; [|by apply elem_of_nil in Ha].
        apply elem_of_ancestry_of in Ha, Ha'. congruence.
      * intros [a e] _. apply NoDup_fmap_2_strong; [|apply NoDup_subtree_of].
        intros [x r] [x' r'] Hx Hx' [= -> Hd]. f_equal. lia.
      * destruct np as [p|]; [apply NoDup_ancestry_of|constructor].
  - intros x a d (p & e & r & -> & He & Hr & ->)%elem_of_new_bridges. destruct (Hnp p eq_refl) as [_ Hno].
    assert (s.(ts_ancestry) !! (a, T) = None) as Ha.
    { destruct (ts_ancestry s !! (a, T)) as [f|] eqn:E; [|done]. by rewrite (row_trans _ _ _ _ _ _ Hwf He E) in Hno. }
    split.
    + apply map_lookup_filter_None. right. intros d' _. simpl. unfold is_bridge. simpl.
      assert (in_subtree (subtree_of s T) x = true) as -> by (apply in_subtree_spec; eauto).
      assert (in_subtree (subtree_of s T) a = false) as ->; [|done].
      apply not_true_is_false. rewrite in_subtree_spec, Ha. by intros [].
    + right. split; [|apply (row_nonneg _ _ _ Hwf) in He, Hr; lia]. intros ->. congruence.
Qed.

Lemma record_each_run c a subj l s : ∃ s', record_each c a subj l s = (Ok tt, s') ∧ same_registry s s'.
Proof.
  pose proof (record_each_registry c a subj l s) as Hr. destruct (record_each c a subj l s) as [[[]|e] s'] eqn:E; [by eauto|].
  exfalso. clear Hr. revert s E. induction l as [|t l IH]; intros s E; [done|]. by apply (IH _ E).
Qed.

(** A move whose checks passed fails only on the depth or on the
    administrators it would leave. *)
Lemma move_subtree_run c T np t reason s :
  wf s → s.(ts_tenants) !! T = Some t → may_perform s.(ts_platform) c TENANT_MOVE → reason_too_long reason = false →
  (∀ p, np = Some p → is_Some (s.(ts_tenants) !! p) ∧ s.(ts_ancestry) !! (p, T) = None) →
  ∃ pd deepest,
    match np with
    | None => Ok (-1)
    | Some _ => py_max (match np with None => [] | Some p => ancestry_of s p end).*2
    end = Ok pd ∧
    py_max (subtree_of s T).*2 = Ok deepest ∧
    ((max_hierarchy_depth cfg < pd + 1 + deepest ∧
      (move_subtree cfg administrators_ok c T np t reason s).1 =
        Raise (TenantHierarchyDepthExceededError T (pd + 1 + deepest) (max_hierarchy_depth cfg))) ∨
     (∃ l s0 s1, administrators_ok l s0 s1 = false ∧
      (move_subtree cfg administrators_ok c T np t reason s).1 = Raise LastAdministratorError) ∨
     ∃ s', move_subtree cfg administrators_ok c T np t reason s = (Ok T, s') ∧
       s'.(ts_tenants) = <[T := with_parent np t]> s.(ts_tenants)).
Proof.
  intros Hwf HT Hmay Hlen Hnp.
  assert (is_Some (s.(ts_tenants) !! T)) as HTs by eauto.
  destruct (py_max_total (subtree_of s T).*2 0) as [deepest Hdp].
  { apply list_elem_of_fmap. exists (T, 0). split; [done|]. by apply elem_of_subtree_of, self_row. }
  assert (∃ pd, match np with
    | None => Ok (-1)
    | Some _ => py_max (match np with None => [] | Some p => ancestry_of s p end).*2
    end = Ok pd) as [pd Hpd].
  { destruct np as [p|]; [|by eexists]. apply (py_max_total _ 0), list_elem_of_fmap.
    exists (p, 0). split; [done|]. apply elem_of_ancestry_of, self_row; [done|]. by apply Hnp. }
  exists pd, deepest. split; [done|]. split; [done|].
  unfold move_subtree, bind, get, lift, put. rewrite Hpd, Hdp.
  destruct (_ <? _) eqn:Elt; [left; split; [by apply Z.ltb_lt|done]|right].
  destruct (new_bridges_fit s T np Hwf Hnp) as [Hnd Hfit].
  destruct (put_rows_total _ (set_ancestry (without_bridges (subtree_of s T) (ts_ancestry s)) s) Hnd Hfit) as [m ->].
  unfold set_parent. rewrite bool_decide_eq_false_2.
  2:{ intros ->. destruct (Hnp T eq_refl) as [_ Hno]. by rewrite (self_row s T Hwf HTs) in Hno. }
  match goal with |- context [administrators_ok ?l ?s0 ?s1] => destruct (administrators_ok l s0 s1) eqn:Eadm end;
    [right|left; by eexists _, _, _].
  cbn [negb]. match goal with |- context [record_platform c TENANT_MOVE T reason ?s1] =>
    destruct (record_platform_total c TENANT_MOVE TENANT_MOVE T reason s1) as (s2 & -> & [Ht _] & _) end; [done..|].
  destruct (record_each_run c "tenant.move" T (audited T (t_parent_id t) np) s2) as (s3 & -> & [Ht' _]).
  eexists. split; [reflexivity|]. by rewrite Ht', Ht.
Qed.

(** *** Faults, operation by operation *)

Lemma recorded_result {A} c op t (m : HM A) s : (refusal_recorded c op t (transaction m) s).1 = (m s).1.
Proof.
  unfold refusal_recorded, transaction. destruct (m s) as [[a|e] s']; [done|].
  destruct e as [|e| | | | | |]; try done. by destruct (refusal_code e).
Qed.

Lemma faultless_Ok {A} (a : A) : faultless (Ok a).
Proof. by intros e [=]. Qed.
Lemma faultless_Raise {A} e : store_fault e = false → faultless (Raise e : result hierarchy_error A).
Proof. by intros H e' [= <-]. Qed.

Lemma faultless_carry {A B} e : faultless (Raise e : result hierarchy_error A) → faultless (Raise e : result hierarchy_error B).
Proof. intros H. by apply faultless_Raise, H. Qed.

Lemma faultless_bind {A B} (m : HM A) (k : A → HM B) s :
  faultless (m s).1 → (∀ a s', m s = (Ok a, s') → faultless (k a s').1) → faultless (bind m k s).1.
Proof.
  intros Hm Hk. unfold bind. destruct (m s) as [[a|e] s']; [by apply Hk|]. exact (faultless_carry _ Hm).
Qed.

Lemma authorize_faultless s c op : pwf s.(ts_platform) → faultless (authorize s c op).
Proof.
  intros Hwf. unfold authorize. destruct (authorize_spec _ c op Hwf) as [[-> _]|[-> _]];
    [apply faultless_Ok|by apply faultless_Raise].
Qed.

Lemma validated_reason_faultless r : faultless (validated_reason r).
Proof.
  unfold validated_reason, validate_reason, result_bind. destruct r as [r|]; [|apply faultless_Ok].
  repeat case_match; simplify_eq/=; try apply faultless_Ok; by apply faultless_Raise.
Qed.

Lemma check_new_parent_faultless c T p s : faultless (check_new_parent c T p s).1.
Proof.
  unfold check_new_parent, lock_open_tenant, result_bind. simpl.
  destruct (tenants_of s !! p); simpl; [|by apply faultless_Raise].
  repeat case_match; simplify_eq/=; try apply faultless_Ok; by apply faultless_Raise.
Qed.

Lemma check_new_parent_Ok c T p s st s' : check_new_parent c T p s = (Ok st, s') →
  s' = s ∧ is_Some (s.(ts_tenants) !! p) ∧ s.(ts_ancestry) !! (p, T) = None.
Proof.
  unfold check_new_parent, result_bind, of_tenant. intros [= H <-]. destruct (lock_open_tenant s p) eqn:E; [|done].
  apply lock_open_tenant_Ok in E as [Hp _]. split; [done|]. split; [eexists; exact Hp|].
  destruct (bool_decide (is_Some (ts_ancestry s !! (p, T)))) eqn:Hc; [done|]. reflect_bools. by apply eq_None_not_Some.
Qed.

Lemma move_faultless T np c reason s : pwf s.(ts_platform) → wf s →
  faultless (hrun uuid4 cfg holds_self_suspend administrators_ok (HMove T np c reason) s).1.
Proof.
  intros Hp Hwf. simpl. unfold move_tenant, bind at 1 2, lift.
  destruct (require_lifecycle_caller _ c) as [[]|e] eqn:Ec; [|destruct c; simplify_eq/=; by apply faultless_Raise].
  pose proof (validated_reason_faultless reason) as Hr. destruct (validated_reason reason) as [r|e] eqn:Er; [|exact (faultless_carry _ Hr)].
  apply validated_reason_fits in Er.
  rewrite recorded_result. unfold move_body, bind at 1.
  pose proof (authorize_faultless s c TENANT_MOVE Hp) as Ha. destruct (authorize s c TENANT_MOVE) as [[]|e] eqn:Eau; [|exact (faultless_carry _ Ha)].
  apply authorize_Ok in Eau; [|done]. destruct c as [u| |]; [|by apply faultless_Raise|by apply faultless_Raise].
  unfold bind at 1. destruct (lock_open_tenant s T) as [t|e] eqn:Et.
  2:{ unfold lock_open_tenant in Et. repeat case_match; simplify_eq/=; by apply faultless_Raise. }
  simpl. apply lock_open_tenant_Ok in Et as [HT _]. unfold bind at 1.
  match goal with |- context [(match np with None => _ | Some _ => _ end) s] =>
    destruct ((match np with None => ret None | Some p => do* st := check_new_parent (UserCaller u) T p in ret (Some (p, st)) end) s)
      as [[st|e] s1] eqn:E end.
  - assert (s1 = s ∧ ∀ p, np = Some p → is_Some (s.(ts_tenants) !! p) ∧ s.(ts_ancestry) !! (p, T) = None) as [-> Hnp].
    { destruct np as [p|]; [|by injection E as <- <-]. apply bind_Ok in E as (st' & s2 & H2 & [= <- <-]).
      apply check_new_parent_Ok in H2 as [-> ?]. split; [done|]. by intros ? [= <-]. }
    case_bool_decide; [apply faultless_Ok|].
    destruct (move_subtree_run (UserCaller u) T np t r s Hwf HT Eau Er Hnp)
      as (pd & dp & _ & _ & [[_ Hm]|[(l & s0 & s1 & _ & Hm)|(s' & Hm & _)]]);
      destruct st as [[p []]|]; (by apply faultless_Raise) || (rewrite Hm; (by apply faultless_Raise) || apply faultless_Ok).
  - destruct np as [p|]; [|done]. pose proof (check_new_parent_faultless (UserCaller u) T p s) as Hc.
    unfold bind in E. destruct (check_new_parent (UserCaller u) T p s) as [[st'|e'] s2]; [done|]. injection E as -> _. exact (faultless_carry _ Hc).
Qed.

Lemma create_body_faultless name c op parent s :
  wf s → may_perform s.(ts_platform) c op → (length name ≤ 255)%nat → s.(ts_tenants) !! uuid4 s.(ts_drawn) = None →
  (∀ p st, parent = Some (p, st) → is_Some (s.(ts_tenants) !! p)) →
  faultless (create_body uuid4 cfg name c op parent s).1.
Proof.
  intros Hwf Hmay Hlen Hfresh Hpar. set (id := uuid4 s.(ts_drawn)) in *.
  assert (∀ a, s.(ts_ancestry) !! (id, a) = None) as Hnone.
  { intros a. destruct (ts_ancestry s !! (id, a)) eqn:E; [|done].
    apply (closure _ _ _ Hwf) in E as (n & _ & [? ?]%hops_exists). congruence. }
  assert (∀ a d, s.(ts_ancestry) !! (a, id) = Some d → False) as Hnone'.
  { intros a d (n & _ & [? ?]%hops_target)%(closure _ _ _ Hwf). congruence. }
  apply faultless_bind.
  { destruct parent as [[p st]|]; [|apply faultless_Ok]. apply faultless_bind; [|intros; apply faultless_Ok].
    unfold lift. simpl. destruct st, c; (apply faultless_Ok || by apply faultless_Raise). }
  intros pa s1 H1.
  assert (s1 = s ∧ ∀ p st, parent = Some (p, st) → pa = ancestry_of s p) as [-> Hpa].
  { destruct parent as [[p st]|]; [|by injection H1 as <- <-].
    apply bind_Ok in H1 as ([] & s2 & H2 & H1). unfold lift in H2. injection H2 as _ <-.
    apply bind_Ok in H1 as (s0 & s2 & [= <- <-] & [= <- <-]). split; [done|]. by intros ? ? [= <- <-]. }
  unfold bind at 1, insert_tenant. fold id. rewrite bool_decide_eq_false_2 by (simpl; lia).
  rewrite Hfresh, bool_decide_eq_false_2 by (by intros []). rewrite bool_decide_eq_false_2.
  2:{ destruct parent as [[p st]|]; [|done]. simpl. intros [= ->]. destruct (Hpar _ _ eq_refl). congruence. }
  simpl. unfold bind at 1.
  destruct (put_rows_total [(id, id, 0)] (set_tenant id (mkTenant name PENDING (fst <$> parent) false) (tdraw s)))
    as [m1 Hm1]; [repeat constructor; by apply not_elem_of_nil| |].
  { intros t a d [= -> -> ->]%list_elem_of_singleton. simpl. split; [apply Hnone|by left]. }
  rewrite Hm1. apply put_rows_Ok in Hm1 as (m1' & Heq & Hrow). apply (f_equal ts_ancestry) in Heq. simpl in Heq, Hrow. subst m1'.
  apply faultless_bind.
  { destruct parent as [[p st]|]; [|apply faultless_Ok]. rewrite (Hpa p st eq_refl).
    assert (is_Some (ts_tenants s !! p)) as Hp by by eapply Hpar.
    unfold bind, lift. destruct (py_max_total (ancestry_of s p).*2 0) as [dp ->].
    { apply list_elem_of_fmap. exists (p, 0). split; [done|]. by apply elem_of_ancestry_of, self_row. }
    destruct (_ <? _); [by apply faultless_Raise|].
    match goal with |- context [put_ancestry_rows ?r ?s1] => destruct (put_rows_total r s1) as [m2 Hm2] end.
    - rewrite <-list_fmap_compose. apply (NoDup_fmap_2_strong _ (ancestry_of s p)); [|apply NoDup_ancestry_of].
      intros [a d] [a' d'] Ha%elem_of_ancestry_of Ha'%elem_of_ancestry_of [= ->]. congruence.
    - intros t b d ([a e] & [= -> -> ->] & Hin%elem_of_ancestry_of)%list_elem_of_fmap. simpl.
      assert (a ≠ id) as Hne by (intros ->; by eapply Hnone').
      split; [|right; split; [done|apply (row_nonneg _ _ _ Hwf) in Hin; lia]].
      destruct (m1 !! (id, a)) as [d|] eqn:E; [|done]. apply Hrow in E as [E|E%list_elem_of_singleton].
      + by rewrite Hnone in E.
      + by injection E as ->.
    - rewrite Hm2. apply faultless_Ok. }
  intros [] s2 H2.
  assert (ts_platform s2 = ts_platform s) as Hpl.
  { destruct parent as [[p st]|]; [|by injection H2 as <-].
    apply bind_Ok in H2 as (dp & s3 & H3 & H2). unfold lift in H3. injection H3 as _ <-.
    destruct (_ <? _); [done|]. by apply put_rows_Ok in H2 as (m2 & -> & _). }
  apply faultless_bind.
  - destruct (record_platform_total c op op id None s2) as (s3 & -> & _); [by rewrite Hpl|done|apply faultless_Ok].
  - intros [] s3 _. by destruct parent as [[p st]|]; apply faultless_Ok.
Qed.

Lemma create_faultless name p c s : pwf s.(ts_platform) → wf s → input_fits uuid4 (HCreate name p c) s →
  faultless (hrun uuid4 cfg holds_self_suspend administrators_ok (HCreate name p c) s).1.
Proof.
  intros Hp Hwf [Hlen Hfresh]. simpl. unfold create_tenant. apply faultless_bind.
  { unfold lift. simpl. destruct c; (apply faultless_Ok || by apply faultless_Raise). }
  intros [] s1 [= _ <-]. destruct (has_control_characters name); [by apply faultless_Raise|].
  set (op := match p with None => _ | Some _ => _ end).
  match goal with |- context [refusal_recorded c op p (transaction ?b) s] =>
    assert (faultless (refusal_recorded c op p (transaction b) s).1) as Hf; [rewrite recorded_result|] end.
  - apply faultless_bind.
    { unfold lock_parent, get_tenant. destruct p as [q|]; [|apply faultless_Ok]. simpl.
      destruct (tenants_of s !! q); (apply faultless_Ok || by apply faultless_Raise). }
    intros parent s1 Hpar. unfold lock_parent in Hpar.
    assert (s1 = s ∧ ∀ q st, parent = Some (q, st) → is_Some (ts_tenants s !! q)) as [-> Hex].
    { destruct p as [q|]; [|injection Hpar as <- <-; by split]. unfold result_bind, of_tenant, get_tenant in Hpar.
      unfold tenants_of, tenancy_store_tenants in Hpar. destruct (ts_tenants s !! q) as [t|] eqn:Et; [|done].
      injection Hpar as <- <-. split; [done|]. intros ? ? [= <- <-]. by rewrite Et. }
    apply faultless_bind; [by apply authorize_faultless|]. intros [] s1 [= Hau <-].
    apply create_body_faultless; try done. by apply authorize_Ok.
  - destruct (refusal_recorded _ _ _ _ s) as [[a|e] s']; [apply faultless_Ok|]. by destruct e as [[]| | | | | | |].
Qed.

Lemma any_can_total s u ps : pwf s → ∃ b, any_can s u ps = Ok b.
Proof.
  intros Hwf. induction ps as [|p ps [b IH]]; [by eexists|]. simpl.
  destruct (platform_can_spec s u p Hwf) as ([] & -> & _); simpl; eauto.
Qed.

Lemma gate_faultless s c ops T ss : pwf s.(ts_platform) → faultless (passes_transition_gate s c ops T ss).
Proof.
  intros Hwf. unfold passes_transition_gate, result_bind.
  assert (∃ b, platform_caller_could_hold_any s.(ts_platform) c ops = Ok b) as [b ->].
  { destruct c; simpl; [by apply any_can_total|by eexists|by eexists]. }
  destruct ss, b, c; simpl; try case_bool_decide; apply faultless_Ok.
Qed.

Lemma some_candidate_faultless s c ops : pwf s.(ts_platform) → faultless (some_candidate s c ops).
Proof.
  intros Hwf. induction ops as [|op ops IH]; [apply faultless_Ok|]. simpl.
  pose proof (authorize_faultless s c op Hwf) as Ha. destruct (authorize s c op) as [|e]; [apply faultless_Ok|].
  destruct e as [|[]| | | | | |]; try exact (faultless_carry _ Ha). exact IH.
Qed.

Lemma authorize_transition_faultless s c op T r ss : pwf s.(ts_platform) →
  faultless (authorize_transition cfg holds_self_suspend s c op T r ss).
Proof.
  intros Hwf. unfold authorize_transition. cbv zeta. match goal with |- context [if ss then ?x else _] => set (rule := x) end.
  assert (faultless rule) as Hr.
  { subst rule. repeat case_match; (apply faultless_Ok || by apply faultless_Raise). }
  destruct ss; [done|]. pose proof (authorize_faultless s c op Hwf) as Ha.
  destruct (authorize s c op) as [|e]; [apply faultless_Ok|].
  destruct e as [|[]| | | | | |]; (exact Hr || exact (faultless_carry _ Ha)).
Qed.

Lemma transition_operation_total current target x :
  validate_transition current target = Ok x → ∃ sel, transition_operation current target = Ok sel.
Proof. destruct current, target; vm_compute; intros H; simplify_eq; by eexists. Qed.

Lemma decide_transition_faultless s c first cs T target r expected ss op e : pwf s.(ts_platform) →
  decide_transition cfg holds_self_suspend s c first cs T target r expected ss = Raise (op, e) → store_fault e = false.
Proof.
  intros Hwf. unfold decide_transition, require_some_candidate, result_bind, raise_if.
  pose proof (authorize_transition_faultless s c first T r ss Hwf) as Ha.
  pose proof (some_candidate_faultless s c cs Hwf) as Hs.
  destruct (bool_decide (length cs = 1%nat)).
  - destruct (authorize_transition _ _ s c first T r ss) as [b|e'] eqn:E; [|intros [= _ <-]; by apply Ha].
    destruct (ts_tenants s !! T) as [t|]; [|by intros [= _ <-]].
    destruct (validate_transition (t_status t) target) eqn:Ev; [|by intros [= _ <-]].
    apply transition_operation_total in Ev as [[o act] ->]. simpl. by destruct (_ && _)%bool; intros [= _ <-].
  - assert (∀ A e0, store_fault e0 = false →
      match match match some_candidate s c cs with
              | Ok a => if negb a then Raise (HPlatform (PlatformNotAuthorizedError (key first))) else Ok ()
              | Raise e => Raise e
              end with Ok a => Ok a | Raise e => Raise (first, e) end with
      | Ok _ => Raise (first, e0) | Raise e => Raise e end = (Raise (op, e) : result _ A) → store_fault e = false) as Hd.
    { intros A e0 He0. destruct (some_candidate s c cs) as [[]|e'] eqn:E; simpl; intros [= _ <-]; try done. by apply Hs. }
    destruct (ts_tenants s !! T) as [t|]; [|by apply Hd].
    destruct (validate_transition (t_status t) target) eqn:Ev; [|by apply Hd].
    apply transition_operation_total in Ev as [[o act] ->]. cbn [of_tenant]. destruct (_ && _)%bool; [by intros [= _ <-]|].
    pose proof (authorize_transition_faultless s c o T r false Hwf) as Ho.
    destruct (authorize_transition _ _ s c o T r false); [done|]. intros [= _ <-]. by apply Ho.
Qed.

Lemma apply_transition_faultless c T target r t op action b s :
  (b = false → may_perform s.(ts_platform) c op) → reason_too_long r = false →
  faultless (apply_transition administrators_ok c T target r (t, op, action, b) s).1.
Proof.
  intros Hmay Hlen. unfold apply_transition, bind at 1 2 3, get, put.
  destruct (_ && _)%bool; [by apply faultless_Raise|]. apply faultless_bind.
  - destruct b; [apply faultless_Ok|].
    destruct (record_platform_total c op op T r (set_tenant T (with_status target t) s)) as (s2 & -> & _);
      [by apply Hmay|done|apply faultless_Ok].
  - intros [] s2 _. destruct action; apply faultless_Ok.
Qed.

Lemma transition_faultless T target c reason expected ss s : pwf s.(ts_platform) →
  faultless (hrun uuid4 cfg holds_self_suspend administrators_ok (HTransition T target c reason expected ss) s).1.
Proof.
  intros Hwf. simpl. unfold transition_tenant_status. apply faultless_bind.
  { unfold lift. simpl. destruct c; (apply faultless_Ok || by apply faultless_Raise). }
  intros [] s1 [= _ <-]. apply faultless_bind; [apply validated_reason_faultless|]. intros r s1 [= Hr <-].
  apply validated_reason_fits in Hr.
  destruct (candidate_operations target) as [|f rest] eqn:Ecs; [by apply faultless_Raise|].
  destruct (bool_decide (is_Some expected) && _)%bool; [by apply faultless_Raise|].
  set (cs := match expected with Some op => [op] | None => f :: rest end).
  destruct (ss && _)%bool; [by apply faultless_Raise|].
  pose proof (gate_faultless s c cs T ss Hwf) as Hg.
  destruct (passes_transition_gate s c cs T ss) as [[]|e]; [|by apply faultless_Raise|exact (faultless_carry _ Hg)].
  unfold transition_session.
  destruct (decide_transition cfg holds_self_suspend s c (default f expected) cs T target r expected ss)
    as [[[[t op] action] b]|[op e]] eqn:Ed.
  - unfold transaction. apply decide_transition_Ok in Ed as (_ & _ & Hop & Hexp & Hauth).
    assert (faultless (apply_transition administrators_ok c T target r (t, op, action, b) s).1) as Ha.
    { apply apply_transition_faultless; [|done]. intros ->. apply authorize_Ok; [done|].
      assert (∃ ss', authorize_transition cfg holds_self_suspend s c op T r ss' = Ok false) as [ss' Hb].
      { destruct Hauth as [[Hlen Hb]|[_ Hb]]; [|by eauto]. exists ss. assert (default f expected = op) as <-; [|done].
        subst cs. destruct expected as [o|]; [by rewrite (Hexp o)|]. apply transition_operation_candidate in Hop.
        rewrite Ecs in Hop. destruct rest; [|done]. by apply list_elem_of_singleton in Hop. }
      by apply authorize_transition_Ok in Hb as [(_ & _ & ?)|[? _]]. }
    by destruct (apply_transition _ _ _ _ _ _ _) as [[]].
  - apply decide_transition_faultless in Ed; [|done].
    destruct e as [|[]| | | | | |]; (by apply faultless_Raise) || done.
Qed.

(** The registry never trips over its own constraints.  On a store whose
    closure table is the closure, every creation, move and transition returns
    or raises one of the errors the service documents: no primary key or CHECK
    of [core.tenants], [core.tenant_ancestry] or the audit tables is violated,
    no maximum of an empty list is taken, no query that expects one row finds
    two.  A creation needs a fresh random id and a name that fits its column. *)
Theorem registry_never_faults (cmd : hcommand) (s : tenancy_store) :
  pwf s.(ts_platform) → hwf cfg s.(ts_tenants) s.(ts_ancestry) → input_fits uuid4 cmd s →
  faultless (hrun uuid4 cfg holds_self_suspend administrators_ok cmd s).1.
Proof.
  intros Hp Hwf Hfit. destruct cmd.
  - by apply create_faultless.
  - by apply move_faultless.
  - by apply transition_faultless.
Qed.

Lemma recorded_Ok {A} c op t (m : HM A) s a s' :
  m s = (Ok a, s') → refusal_recorded c op t (transaction m) s = (Ok a, s').
Proof. intros H. unfold refusal_recorded, transaction. by rewrite H. Qed.

Lemma authorize_accepts s c op : pwf s.(ts_platform) → may_perform s.(ts_platform) c op → authorize s c op = Ok tt.
Proof. intros Hwf Hm. unfold authorize. destruct (authorize_spec _ c op Hwf) as [[-> _]|[_ ?]]; done. Qed.

Lemma check_new_parent_accepts u T p tp s :
  wf s → s.(ts_tenants) !! p = Some tp → is_closed (t_status tp) = false → s.(ts_ancestry) !! (p, T) = None →
  (∀ n a, hops s.(ts_tenants) n p = Some a → (a, u) ∉ s.(ts_members)) →
  check_new_parent (UserCaller u) T p s = (Ok (t_status tp), s).
Proof.
  intros Hwf Hp Hop Hno Hmem. unfold check_new_parent.
  assert (lock_open_tenant s p = Ok tp) as -> by (by apply lock_open_tenant_Ok). simpl.
  rewrite bool_decide_eq_false_2 by (rewrite Hno; by intros []).
  match goal with |- context [existsb ?f ?l] => destruct (existsb f l) eqn:E end; [|done]. exfalso.
  apply existsb_exists in E as (a & Ha%list_elem_of_In & Hin). apply bool_decide_eq_true in Hin.
  apply elem_of_elements in Ha. unfold lock_ancestor_ids, get_ancestor_ids in Ha.
  rewrite elem_of_list_to_set, elem_of_fst in Ha. destruct Ha as [d Ha%elem_of_ancestry_of].
  apply (closure _ _ _ Hwf) in Ha as (n & _ & Hn). by eapply Hmem.
Qed.

Lemma move_depth_fits s T np pd deepest : wf s →
  match np with
  | None => Ok (-1)
  | Some _ => py_max (match np with None => [] | Some p => ancestry_of s p end).*2
  end = Ok pd →
  py_max (subtree_of s T).*2 = Ok deepest →
  (∀ p m a n x, np = Some p → hops s.(ts_tenants) m p = Some a → hops s.(ts_tenants) n x = Some T →
     Z.of_nat (m + 1 + n) ≤ max_hierarchy_depth cfg) →
  ¬ max_hierarchy_depth cfg < pd + 1 + deepest.
Proof.
  intros Hwf Hpd Hdp Hfit. apply py_max_spec in Hdp as [([x d] & -> & Hx%elem_of_subtree_of)%list_elem_of_fmap _].
  simpl. pose proof Hx as (n & -> & Hn)%(closure _ _ _ Hwf). destruct np as [p|].
  - apply py_max_spec in Hpd as [([a e] & -> & (m & -> & Hm)%elem_of_ancestry_of%(closure _ _ _ Hwf))%list_elem_of_fmap _].
    simpl. pose proof (Hfit p m a n x eq_refl Hm Hn). lia.
  - injection Hpd as <-. apply (depth_bound _ _ _ Hwf) in Hx. lia.
Qed.

(** A move that breaks no rule happens.  If a user with the move
    permission moves an open tenant to another parent, or to the root, and the
    new parent exists, is open and not suspended, is not below the tenant, has
    no ancestor the caller is a member of, leaves no tenant of the subtree
    deeper than the maximum, and the administrator guard accepts, then the move
    succeeds, and the tenant's parent is the new one. *)
Theorem move_accepted (T : uuid) (np : option uuid) (u : uuid) (reason r : option pystr) (t : Tenant)
    (s : tenancy_store) :
  hwf cfg s.(ts_tenants) s.(ts_ancestry) → pwf s.(ts_platform) →
  validated_reason reason = Ok r → may_perform s.(ts_platform) (UserCaller u) TENANT_MOVE →
  s.(ts_tenants) !! T = Some t → is_closed (t_status t) = false → t_parent_id t ≠ np →
  (∀ p, np = Some p → ∃ tp, s.(ts_tenants) !! p = Some tp ∧ is_closed (t_status tp) = false ∧
     t_status tp ≠ SUSPENDED ∧ (∀ n, hops s.(ts_tenants) n p ≠ Some T) ∧
     (∀ n a, hops s.(ts_tenants) n p = Some a → (a, u) ∉ s.(ts_members))) →
  (∀ p m a n x, np = Some p → hops s.(ts_tenants) m p = Some a → hops s.(ts_tenants) n x = Some T →
     Z.of_nat (m + 1 + n) ≤ max_hierarchy_depth cfg) →
  (∀ l s0 s1, administrators_ok l s0 s1 = true) →
  ∃ s', hrun uuid4 cfg holds_self_suspend administrators_ok (HMove T np (UserCaller u) reason) s = (Ok T, s') ∧
    parent_of s'.(ts_tenants) T = np.
Proof.
  intros Hwf Hpw Hr Hmay HT Hopen Hne Hnp Hdepth Hadm.
  assert (∀ p, np = Some p → is_Some (s.(ts_tenants) !! p) ∧ s.(ts_ancestry) !! (p, T) = None) as Hnp'.
  { intros p Hp. destruct (Hnp p Hp) as (tp & Htp & _ & _ & Hno & _). split; [eauto|].
    destruct (ts_ancestry s !! (p, T)) eqn:E; [|done]. apply (closure _ _ _ Hwf) in E as (n & _ & Hn). by destruct (Hno n). }
  destruct (move_subtree_run (UserCaller u) T np t r s Hwf HT Hmay (validated_reason_fits _ _ Hr) Hnp')
    as (pd & dp & Hpd & Hdp & [[Hlt _]|[(l & s0 & s1 & Hf & _)|(s' & Hm & Hts)]]); [|by rewrite Hadm in Hf|].
  { exfalso. by eapply (move_depth_fits s T np). }
  exists s'. split; [|rewrite Hts; unfold parent_of; by rewrite lookup_insert_eq].
  simpl. unfold move_tenant, bind at 1 2, lift. simpl. rewrite Hr. apply recorded_Ok.
  unfold move_body, bind at 1. rewrite (authorize_accepts s (UserCaller u) TENANT_MOVE) by done.
  unfold bind at 1. assert (lock_open_tenant s T = Ok t) as -> by (by apply lock_open_tenant_Ok). simpl.
  destruct np as [p|].
  - destruct (Hnp p eq_refl) as (tp & Htp & Hop & Hsus & _ & Hmem). unfold bind.
    rewrite (check_new_parent_accepts u T p tp s) by naive_solver. simpl.
    rewrite bool_decide_eq_false_2 by done. by destruct (t_status tp).
  - unfold bind. simpl. by rewrite bool_decide_eq_false_2.
Qed.
End Totality.

(** ** A concrete deployment *)

Lemma hdemo_hwf : hwf hdemo_cfg hdemo.(ts_tenants) hdemo.(ts_ancestry).
Proof. apply hhistory_wf; [done|]. by apply empty_wf. Defined.

Lemma reads_follow_parents_witness :
  get_ancestor_chain hdemo 2001 !! 0%nat = Some 2000%N ∧ get_ancestor_chain hdemo 2001 !! 1%nat = None ∧
  2001%N ∈ get_descendant_ids hdemo 2000.
Proof.
  edestruct (reads_follow_parents hdemo_cfg hdemo hdemo_hwf 2001) as (Hc & _).
  edestruct (reads_follow_parents hdemo_cfg hdemo hdemo_hwf 2000) as (_ & _ & Hd & _).
  rewrite !Hc. split_and!; [vm_compute; reflexivity|vm_compute; reflexivity|].
  apply Hd. exists 1%nat. vm_compute. reflexivity.
Defined.

Lemma registry_never_faults_witness :
  faultless (hrun hdemo_uuid hdemo_cfg hdemo_self hdemo_admins
    (HCreate (lit "acme-us") (Some 2001%N) (UserCaller 1)) hdemo).1.
Proof.
  apply (registry_never_faults hdemo_uuid hdemo_cfg hdemo_self hdemo_admins); [exact hdemo_pwf|exact hdemo_hwf|].
  split; [simpl; lia|vm_compute; reflexivity].
Defined.

Lemma move_accepted_witness :
  ∃ s', hrun hdemo_uuid hdemo_cfg hdemo_self hdemo_admins (HMove 2001 (Some 2002%N) (UserCaller 1) None) hdemo =
      (Ok 2001%N, s') ∧ parent_of s'.(ts_tenants) 2001 = Some 2002%N.
Proof.
  assert (map_Forall (λ (k : uuid * uuid) (d : Z), k.1 = 2002%N → k.2 = 2002%N ∧ d = 0) (ts_ancestry hdemo)) as Hp.
  { apply (bool_decide_eq_true_1 _). vm_compute. reflexivity. }
  assert (map_Forall (λ (k : uuid * uuid) (d : Z), k.2 = 2001%N → d = 0) (ts_ancestry hdemo)) as Hx.
  { apply (bool_decide_eq_true_1 _). vm_compute. reflexivity. }
  pose proof hdemo_hwf as Hwf.
  eapply (move_accepted hdemo_uuid hdemo_cfg hdemo_self hdemo_admins 2001 (Some 2002%N) 1 None None
    (mkTenant (lit "acme-eu") PENDING (Some 2000%N) false) hdemo Hwf hdemo_pwf).
  - reflexivity.
  - apply authorize_Ok; [exact hdemo_pwf|vm_compute; reflexivity].
  - vm_compute. reflexivity.
  - reflexivity.
  - discriminate.
  - intros p [= <-]. eexists. split_and!; [vm_compute; reflexivity|reflexivity|discriminate| |].
    + intros n Hn. apply (hwf_row _ _ _ _ _ _ Hwf) in Hn. destruct (Hp _ _ Hn eq_refl) as [? _]. discriminate.
    + intros n a _. vm_compute (ts_members hdemo). apply not_elem_of_empty.
  - intros p m a n x [= <-] Hm%(hwf_row _ _ _ _ _ _ Hwf) Hn%(hwf_row _ _ _ _ _ _ Hwf).
    destruct (Hp _ _ Hm eq_refl) as [_ Hm']. pose proof (Hx _ _ Hn eq_refl) as Hn'. simpl. lia.
  - reflexivity.
Defined.
