(* ===== verification/RbacDecision.v ===== *)
(** * Authorization decisions (saas_os/core/rbac/authorization.py,
    administrators.py)

    [can] decides whether a person or a service account may perform an action on
    a resource of a tenant: a deny along the tenant's ancestor chain is final;
    otherwise a role of a membership, a role of a service account or a delegation
    allows it, at the tenant itself or, with SUBTREE scope, at an ancestor; and,
    for a person, an approved support-access request, except for what changes
    authority.  [find_administrator] and the guard keep a tenant from losing its
    last administrator.

    The decision reads the tenant registry (a [tenancy_store]: statuses, the
    closure table, the users) and the rows below; a decision is made at one
    instant [now].  Every query of a candidate tenant's rows is restricted to
    that tenant, by its condition as by row-level security. *)

From S2P Require Import Prelude PyStr TenantLifecycle PlatformAuthority PlatformService TenantHierarchy.

(** ** Data *)

Inductive PrincipalType : Type := PT_USER | PT_SYSTEM | PT_SERVICE_ACCOUNT.
#[export] Instance PrincipalType_eq_dec : EqDecision PrincipalType.
Proof. solve_decision. Defined.

Inductive RoleScope : Type := SELF | SUBTREE.
#[export] Instance RoleScope_eq_dec : EqDecision RoleScope.
Proof. solve_decision. Defined.

Inductive MembershipStatus : Type := M_ACTIVE | M_SUSPENDED | M_REVOKED.
#[export] Instance MembershipStatus_eq_dec : EqDecision MembershipStatus.
Proof. solve_decision. Defined.

Inductive ServiceAccountStatus : Type := SA_ACTIVE | SA_DISABLED.
#[export] Instance ServiceAccountStatus_eq_dec : EqDecision ServiceAccountStatus.
Proof. solve_decision. Defined.

(** The row of a membership; its tenant and user are its key. *)
Record TenantMembership : Type := mkMembership {
  tm_id : uuid;
  tm_status : MembershipStatus;
  tm_created_at : datetime;
}.

(** A role assigned to a membership, or to a service account. *)
Record RoleAssignment : Type := mkAssignment {
  ra_tenant_id : uuid;
  ra_holder_id : uuid;           (* membership_id, service_account_id *)
  ra_role_id : uuid;
  ra_scope : RoleScope;
}.

Record RolePermission : Type := mkRolePermission {
  rp_tenant_id : uuid;
  rp_role_id : uuid;
  rp_permission_id : uuid;
}.

Record DelegationGrant : Type := mkDelegation {
  dg_tenant_id : uuid;
  dg_delegator_id : option uuid;                 (* delegator_principal_id; NULL of the system *)
  dg_delegate_type : PrincipalType;
  dg_delegate_principal_id : option uuid;        (* set for a user *)
  dg_delegate_service_account_id : option uuid;  (* set for a service account *)
  dg_scope_mode : RoleScope;
  dg_permission_id : uuid;
  dg_starts_at : datetime;
  dg_expires_at : option datetime;
  dg_revoked_at : option datetime;
  dg_allow_redelegate : bool;
}.

Record DenyGrant : Type := mkDeny {
  dn_tenant_id : uuid;
  dn_principal_type : PrincipalType;
  dn_principal_id : option uuid;
  dn_principal_service_account_id : option uuid;
  dn_scope_mode : RoleScope;
  dn_permission_id : uuid;
  dn_revoked_at : option datetime;
}.

Record SupportAccessRequest : Type := mkSupport {
  sr_tenant_id : uuid;
  sr_requester_user_id : uuid;
  sr_scope_mode : RoleScope;
  sr_starts_at : datetime;
  sr_expires_at : datetime;
  sr_approved_at : option datetime;
  sr_denied_at : option datetime;
  sr_revoked_at : option datetime;
  sr_reason : pystr;
  sr_approved_by_user_id : option uuid;
  sr_denied_by_user_id : option uuid;
  sr_revoked_by_user_id : option uuid;
}.

(** [delegate_id_column] and [principal_id_column], by the actor's type. *)
Definition delegate_id_column (ty : PrincipalType) (d : DelegationGrant) : option uuid :=
  if bool_decide (ty = PT_USER) then d.(dg_delegate_principal_id) else d.(dg_delegate_service_account_id).
Definition principal_id_column (ty : PrincipalType) (d : DenyGrant) : option uuid :=
  if bool_decide (ty = PT_USER) then d.(dn_principal_id) else d.(dn_principal_service_account_id).

Record rbac_rows : Type := mkRbac {
  rb_memberships : gmap (uuid * uuid) TenantMembership;      (* unique (tenant_id, user_id) *)
  rb_service_accounts : gmap uuid (uuid * ServiceAccountStatus);
  rb_permissions : gmap uuid (string * string);              (* resource, action *)
  rb_role_permissions : gmap uuid RolePermission;
  rb_membership_roles : gmap uuid RoleAssignment;
  rb_service_account_roles : gmap uuid RoleAssignment;
  rb_delegations : gmap uuid DelegationGrant;
  rb_denies : gmap uuid DenyGrant;
  rb_support : gmap uuid SupportAccessRequest;
}.

(** [SELECT ... WHERE p LIMIT 1] finds a row. *)
Definition exists_row {A : Type} (rows : gmap uuid A) (p : A → bool) : bool := existsb (λ r, p r.2) (map_to_list rows).

(** ** Fixed sets *)

Definition TARGET_TENANT_SCOPES : list RoleScope := [SELF; SUBTREE].
Definition ANCESTOR_TENANT_SCOPES : list RoleScope := [SUBTREE].

Definition AUTHORITY_RESOURCES : list string :=
  ["delegation_grant"; "deny_grant"; "service_account_role"; "support_access_request"; "api_key"; "service_account";
   "role"; "role_permission"; "membership"; "membership_role"; "invitation"; "webhook_subscription"].
Definition BILLING_MUTATION_ACTIONS : list (string * string) :=
  [("billing.subscription", "create"); ("billing.subscription", "change"); ("billing.subscription", "cancel");
   ("billing.subscription", "reactivate"); ("billing.account", "charge"); ("billing.account", "manage");
   ("billing.catalog", "manage"); ("billing.merchant", "manage")].
Definition TENANT_SELF_SUSPEND_ACTION : string * string := ("tenant", "suspend").
Definition SUPPORT_ACCESS_EXCLUDED_ACTIONS : list (string * string) :=
  BILLING_MUTATION_ACTIONS ++ [TENANT_SELF_SUSPEND_ACTION].
Definition AI_SUPPORT_ACCESS_EXCLUDED_ACTIONS : list (string * string) :=
  [("ai.inference", "run"); ("ai.policy", "manage"); ("ai.credential", "manage")].

Definition is_authority_changing (resource action : string) : bool :=
  bool_decide (resource ∈ AUTHORITY_RESOURCES) || bool_decide ((resource, action) ∈ SUPPORT_ACCESS_EXCLUDED_ACTIONS).

(** ** The decision *)

Section Decision.
Context (rb : rbac_rows) (now : datetime).
Implicit Types (s : tenancy_store) (candidate actor tenant_id : uuid) (resource action : string).

(** [lock_membership], [lock_service_account_status] *)
Definition lock_membership (tenant_id user_id : uuid) : option TenantMembership := rb.(rb_memberships) !! (tenant_id, user_id).
Definition lock_service_account_status (tenant_id service_account_id : uuid) : option ServiceAccountStatus :=
  match rb.(rb_service_accounts) !! service_account_id with
  | Some (t, status) => if bool_decide (t = tenant_id) then Some status else None
  | None => None
  end.

(** [lock_accessible_tenant], [lock_open_tenant] in a [try] whose errors are a
    refusal. *)
Definition accessible (s : tenancy_store) (t : uuid) : bool :=
  match lock_accessible_tenant s t with Ok _ => true | Raise _ => false end.
Definition open (s : tenancy_store) (t : uuid) : bool :=
  match lock_open_tenant s t with Ok _ => true | Raise _ => false end.

Definition names_permission (permission_id : uuid) (resource action : string) : bool :=
  bool_decide (rb.(rb_permissions) !! permission_id = Some (resource, action)).

(** A role of the tenant that grants the permission. *)
Definition role_grants (candidate role_id : uuid) (resource action : string) : bool :=
  exists_row rb.(rb_role_permissions) (λ rp,
    bool_decide (rp.(rp_role_id) = role_id) && bool_decide (rp.(rp_tenant_id) = candidate) &&
    names_permission rp.(rp_permission_id) resource action).

Definition assignment_grants (candidate holder_id : uuid) (scopes : list RoleScope) (resource action : string)
    (a : RoleAssignment) : bool :=
  bool_decide (a.(ra_tenant_id) = candidate) && bool_decide (a.(ra_holder_id) = holder_id) &&
  bool_decide (a.(ra_scope) ∈ scopes) && role_grants candidate a.(ra_role_id) resource action.

(** [_tenant_grants_permission] *)
Definition tenant_grants_permission (s : tenancy_store) (candidate actor : uuid) (action resource : string)
    (scopes : list RoleScope) : bool :=
  match lock_membership candidate actor with
  | None => false
  | Some m =>
      if negb (bool_decide (m.(tm_status) = M_ACTIVE)) then false
      else if negb (accessible s candidate) then false
      else exists_row rb.(rb_membership_roles) (assignment_grants candidate m.(tm_id) scopes resource action)
  end.

(** [_tenant_grants_permission_for_service_account] *)
Definition tenant_grants_permission_for_service_account (s : tenancy_store) (candidate actor : uuid)
    (action resource : string) (scopes : list RoleScope) : bool :=
  if negb (accessible s candidate) then false
  else exists_row rb.(rb_service_account_roles) (assignment_grants candidate actor scopes resource action).

(** [_actor_grants_permission] *)
Definition actor_grants_permission (s : tenancy_store) (candidate actor : uuid) (actor_type : PrincipalType)
    (action resource : string) (scopes : list RoleScope) : bool :=
  if bool_decide (actor_type = PT_USER) then tenant_grants_permission s candidate actor action resource scopes
  else tenant_grants_permission_for_service_account s candidate actor action resource scopes.

(** [_delegate_user_membership_permits_authorization] *)
Definition delegate_membership_permits (candidate actor : uuid) : bool :=
  match lock_membership candidate actor with
  | None => true
  | Some m => bool_decide (m.(tm_status) = M_ACTIVE)
  end.

(** [_tenant_grants_permission_via_delegation] *)
Definition tenant_grants_permission_via_delegation (s : tenancy_store) (candidate actor : uuid)
    (actor_type : PrincipalType) (action resource : string) (scopes : list RoleScope) (ignore_expiring : bool) : bool :=
  if bool_decide (actor_type = PT_USER) && negb (delegate_membership_permits candidate actor) then false
  else if negb (accessible s candidate) then false
  else exists_row rb.(rb_delegations) (λ d,
    bool_decide (d.(dg_tenant_id) = candidate) && bool_decide (d.(dg_delegate_type) = actor_type) &&
    bool_decide (delegate_id_column actor_type d = Some actor) && bool_decide (d.(dg_scope_mode) ∈ scopes) &&
    bool_decide (d.(dg_revoked_at) = None) && (d.(dg_starts_at) <=? now) &&
    match d.(dg_expires_at) with
    | None => true
    | Some e => negb ignore_expiring && (now <? e)
    end && names_permission d.(dg_permission_id) resource action).

(** [_tenant_denies_permission] *)
Definition tenant_denies_permission (candidate actor : uuid) (actor_type : PrincipalType) (action resource : string)
    (scopes : list RoleScope) : bool :=
  exists_row rb.(rb_denies) (λ d,
    bool_decide (d.(dn_tenant_id) = candidate) && bool_decide (d.(dn_principal_type) = actor_type) &&
    bool_decide (principal_id_column actor_type d = Some actor) && bool_decide (d.(dn_scope_mode) ∈ scopes) &&
    bool_decide (d.(dn_revoked_at) = None) && names_permission d.(dn_permission_id) resource action).

(** The loops over the strict ancestors. *)
Definition any_ancestor (s : tenancy_store) (tenant_id : uuid) (p : uuid → bool) : bool :=
  existsb (λ a, if bool_decide (a = tenant_id) then false else p a) (elements (lock_ancestor_ids s tenant_id)).

(** [_actor_is_denied] *)
Definition actor_is_denied (s : tenancy_store) (actor : uuid) (actor_type : PrincipalType) (tenant_id : uuid)
    (action resource : string) : bool :=
  tenant_denies_permission tenant_id actor actor_type action resource TARGET_TENANT_SCOPES ||
  any_ancestor s tenant_id (λ a,
    tenant_denies_permission a actor actor_type action resource ANCESTOR_TENANT_SCOPES).

(** [_ancestor_grants_subtree_permission] and [_actor_reaches_tenant_at_scope] *)
Definition ancestor_grants_subtree_permission (s : tenancy_store) (tenant_id actor : uuid) (action resource : string) : bool :=
  any_ancestor s tenant_id (λ a, tenant_grants_permission s a actor action resource ANCESTOR_TENANT_SCOPES).
Definition actor_reaches_tenant_at_scope (s : tenancy_store) (actor tenant_id : uuid) (action resource : string)
    (required_scope : RoleScope) : bool :=
  let target_scopes := match required_scope with SELF => TARGET_TENANT_SCOPES | SUBTREE => ANCESTOR_TENANT_SCOPES end in
  tenant_grants_permission s tenant_id actor action resource target_scopes ||
  ancestor_grants_subtree_permission s tenant_id actor action resource.

(** [_tenant_grants_support_access] *)
Definition tenant_grants_support_access (s : tenancy_store) (candidate actor : uuid) (resource action : string)
    (scopes : list RoleScope) : bool :=
  if bool_decide (resource ∈ AUTHORITY_RESOURCES) then false
  else if bool_decide ((resource, action) ∈ SUPPORT_ACCESS_EXCLUDED_ACTIONS) then false
  else if bool_decide ((resource, action) ∈ AI_SUPPORT_ACCESS_EXCLUDED_ACTIONS) then false
  else if negb (open s candidate) then false
  else exists_row rb.(rb_support) (λ r,
    bool_decide (r.(sr_tenant_id) = candidate) && bool_decide (r.(sr_requester_user_id) = actor) &&
    bool_decide (r.(sr_scope_mode) ∈ scopes) && bool_decide (is_Some r.(sr_approved_at)) &&
    bool_decide (r.(sr_denied_at) = None) && bool_decide (r.(sr_revoked_at) = None) &&
    (r.(sr_starts_at) <=? now) && (now <? r.(sr_expires_at))).

(** [_actor_has_support_access] *)
Definition actor_has_support_access (s : tenancy_store) (actor tenant_id : uuid) (resource action : string) : bool :=
  tenant_grants_support_access s tenant_id actor resource action TARGET_TENANT_SCOPES ||
  any_ancestor s tenant_id (λ a, tenant_grants_support_access s a actor resource action ANCESTOR_TENANT_SCOPES).

Definition lock_user_is_active (s : tenancy_store) (user_id : uuid) : bool := is_active_user s.(ts_platform) user_id.

Definition holds_through_own_membership (s : tenancy_store) (user_id tenant_id : uuid) (action resource : string) : bool :=
  if negb (accessible s tenant_id) then false
  else if negb (lock_user_is_active s user_id) then false
  else if actor_is_denied s user_id PT_USER tenant_id action resource then false
  else tenant_grants_permission s tenant_id user_id action resource TARGET_TENANT_SCOPES.

(** Whether the actor exists and is live, by its type. *)
Definition actor_is_live (s : tenancy_store) (actor : uuid) (actor_type : PrincipalType) (actor_tenant_id : option uuid) : bool :=
  match actor_type with
  | PT_USER => lock_user_is_active s actor
  | PT_SERVICE_ACCOUNT =>
      match actor_tenant_id with
      | None => false
      | Some t => bool_decide (lock_service_account_status t actor = Some SA_ACTIVE)
      end
  | PT_SYSTEM => false
  end.

(** One candidate tenant's two allow paths. *)
Definition candidate_allows (s : tenancy_store) (candidate actor : uuid) (actor_type : PrincipalType)
    (action resource : string) (scopes : list RoleScope) (ignore_expiring : bool) : bool :=
  actor_grants_permission s candidate actor actor_type action resource scopes ||
  tenant_grants_permission_via_delegation s candidate actor actor_type action resource scopes ignore_expiring.

(** [can] and [_decide] *)
Definition can (s : tenancy_store) (actor tenant_id : uuid) (action resource : string) (actor_type : PrincipalType)
    (actor_tenant_id : option uuid) (ignore_expiring : bool) : bool :=
  match lock_accessible_tenant s tenant_id with
  | Raise (TenantInaccessibleError _ status) =>
      if is_closed status then false
      else if negb (actor_is_live s actor actor_type actor_tenant_id) then false
      else if actor_is_denied s actor actor_type tenant_id action resource then false
      else bool_decide (actor_type = PT_USER) && actor_has_support_access s actor tenant_id resource action
  | Raise _ => false
  | Ok _ =>
      if negb (actor_is_live s actor actor_type actor_tenant_id) then false
      else if actor_is_denied s actor actor_type tenant_id action resource then false
      else if candidate_allows s tenant_id actor actor_type action resource TARGET_TENANT_SCOPES ignore_expiring then true
      else if any_ancestor s tenant_id (λ a,
                candidate_allows s a actor actor_type action resource ANCESTOR_TENANT_SCOPES ignore_expiring) then true
      else bool_decide (actor_type = PT_USER) && actor_has_support_access s actor tenant_id resource action
  end.

(** ** administrators.py *)

Definition ADMINISTRATOR_RESOURCE : string := "membership_role".
Definition ADMINISTRATOR_ACTION : string := "create".

Definition is_administrator (s : tenancy_store) (tenant_id user_id : uuid) : bool :=
  can s user_id tenant_id ADMINISTRATOR_ACTION ADMINISTRATOR_RESOURCE PT_USER None true.

(** [_is_active_member] of one user *)
Definition is_active_member (tenant_id user_id : uuid) : bool :=
  match rb.(rb_memberships) !! (tenant_id, user_id) with
  | Some m => bool_decide (m.(tm_status) = M_ACTIVE)
  | None => false
  end.

(** [ORDER BY created_at, id] *)
Definition older (p q : uuid * TenantMembership) : Prop :=
  p.2.(tm_created_at) < q.2.(tm_created_at) ∨
  p.2.(tm_created_at) = q.2.(tm_created_at) ∧ (p.2.(tm_id) ≤ q.2.(tm_id))%N.
#[export] Instance older_dec : RelDecision older.
Proof. intros p q. unfold older. apply _. Defined.

Definition active_members (tenant_id : uuid) : list uuid :=
  (merge_sort older
     ((λ p : uuid * uuid * TenantMembership, (p.1.2, p.2)) <$>
        filter (λ p : uuid * uuid * TenantMembership, p.1.1 = tenant_id ∧ p.2.(tm_status) = M_ACTIVE)
          (map_to_list rb.(rb_memberships)))).*1.

Definition find_administrator (s : tenancy_store) (tenant_id : uuid) (try_first excluding : option uuid) : option uuid :=
  let rest := find (λ u, negb (bool_decide (Some u = try_first)) && negb (bool_decide (Some u = excluding)) &&
                         is_administrator s tenant_id u) (active_members tenant_id) in
  match try_first with
  | Some u =>
      if negb (bool_decide (try_first = excluding)) && is_active_member tenant_id u && is_administrator s tenant_id u
      then Some u else rest
  | None => rest
  end.

(** [guard_tenants]: one administrator of each tenant before the change. *)
Definition guard_tenants (s : tenancy_store) (tenant_ids : list uuid) : list (uuid * option uuid) :=
  (λ t, (t, find_administrator s t None None)) <$> tenant_ids.

(** [AdministratorGuard.verify]: the first tenant that lost its administrators. *)
Definition verify (s : tenancy_store) (before : list (uuid * option uuid)) : option uuid :=
  fst <$> find (λ p : uuid * option uuid,
                  match p.2 with
                  | None => false
                  | Some a => bool_decide (find_administrator s p.1 (Some a) None = None)
                  end) before.

(** [_is_active_member] of any of several users *)
Definition any_active_member (tenant_id : uuid) (user_ids : list uuid) : bool := existsb (is_active_member tenant_id) user_ids.

(** [guard_last_administrator]: the tenant, and its descendants an affected user
    is an active member of. *)
Definition guard_last_administrator (s : tenancy_store) (tenant_id : uuid) (affected_users : list uuid) :
    list (uuid * option uuid) :=
  let users := fromkeys affected_users in
  let reached := filter (λ d, any_active_member d users = true) (descendant_ids_by_depth s tenant_id) in
  (λ t, (t, find_administrator s t None None)) <$> tenant_id :: reached.

(** ** What the tenant registry asks *)

(** [holds_self_suspend] of core/tenancy/authority.py.  The code first registers
    the permission it asks for in the catalogue; a permission that was not
    registered is named by no role, so the answer is the same. *)
Definition rbac_holds_self_suspend (s : tenancy_store) (c : caller) (tenant_id : uuid) : bool :=
  match c with
  | UserCaller u => holds_through_own_membership s u tenant_id "suspend" "tenant"
  | _ => false
  end.

(** The guard around a change of the registry from [s0] to [s1]. *)
Definition rbac_administrators_ok (tenant_ids : list uuid) (s0 s1 : tenancy_store) : bool :=
  bool_decide (verify s1 (guard_tenants s0 tenant_ids) = None).
End Decision.
