(* ===== verification/RbacProofs.v ===== *)
(** * What a decision means

    [can] is exactly the documented rule, stated over rows and the parent
    relation; it depends on nothing outside the tenant's own ancestor chain; and
    support access never carries authority. *)

From S2P Require Import Prelude PyStr TenantLifecycle PlatformAuthority PlatformService PlatformProofs PlatformSafety TenantHierarchy HierarchyProofs HierarchySafety HierarchyReads RbacDecision.

Lemma exists_row_spec {A} (rows : gmap uuid A) p : exists_row rows p = true ↔ ∃ i r, rows !! i = Some r ∧ p r = true.
Proof.
  unfold exists_row. rewrite existsb_exists. split.
  - intros ([i r] & Hin%list_elem_of_In%elem_of_map_to_list & Hp). eauto.
  - intros (i & r & Hi & Hp). exists (i, r). split; [by apply list_elem_of_In, elem_of_map_to_list|done].
Qed.

(** ** The rule, declaratively *)

(** A row of the tenant [a] with the scope [sc] reaches the tenant [t]. *)
Definition row_reaches (ts : gmap uuid Tenant) (a : uuid) (sc : RoleScope) (t : uuid) : Prop :=
  a = t ∨ sc = SUBTREE ∧ ∃ n, hops ts (S n) t = Some a.

Section Rule.
Context (rb : rbac_rows) (now : datetime) (s : tenancy_store).
Context (actor : uuid) (actor_type : PrincipalType) (t : uuid) (action resource : string).
Abbreviation ts := (ts_tenants s).
Abbreviation names pid := (rb.(rb_permissions) !! pid = Some (resource, action)).

Definition is_denied : Prop := ∃ i d, rb.(rb_denies) !! i = Some d ∧
  row_reaches ts d.(dn_tenant_id) d.(dn_scope_mode) t ∧ d.(dn_principal_type) = actor_type ∧
  principal_id_column actor_type d = Some actor ∧ d.(dn_revoked_at) = None ∧ names d.(dn_permission_id).

(** An assigned role of the row's own tenant, which admits its principals. *)
Definition assignment_reaches (holder : uuid) (a : RoleAssignment) : Prop :=
  a.(ra_holder_id) = holder ∧ row_reaches ts a.(ra_tenant_id) a.(ra_scope) t ∧
  accessible s a.(ra_tenant_id) = true ∧
  ∃ j rp, rb.(rb_role_permissions) !! j = Some rp ∧ rp.(rp_role_id) = a.(ra_role_id) ∧
    rp.(rp_tenant_id) = a.(ra_tenant_id) ∧ names rp.(rp_permission_id).

(** A role of a person's active membership, or of the service account. *)
Definition has_role : Prop :=
  if decide (actor_type = PT_USER)
  then ∃ i a m, rb.(rb_membership_roles) !! i = Some a ∧ rb.(rb_memberships) !! (a.(ra_tenant_id), actor) = Some m ∧
         m.(tm_status) = M_ACTIVE ∧ assignment_reaches m.(tm_id) a
  else ∃ i a, rb.(rb_service_account_roles) !! i = Some a ∧ assignment_reaches actor a.

Definition has_delegation (ignore_expiring : bool) : Prop := ∃ i d, rb.(rb_delegations) !! i = Some d ∧
  d.(dg_delegate_type) = actor_type ∧ delegate_id_column actor_type d = Some actor ∧
  row_reaches ts d.(dg_tenant_id) d.(dg_scope_mode) t ∧ accessible s d.(dg_tenant_id) = true ∧
  d.(dg_revoked_at) = None ∧ d.(dg_starts_at) ≤ now ∧
  (∀ e, d.(dg_expires_at) = Some e → ignore_expiring = false ∧ now < e) ∧ names d.(dg_permission_id) ∧
  (actor_type = PT_USER → ∀ m, rb.(rb_memberships) !! (d.(dg_tenant_id), actor) = Some m → m.(tm_status) = M_ACTIVE).

Definition has_support : Prop :=
  actor_type = PT_USER ∧ resource ∉ AUTHORITY_RESOURCES ∧ (resource, action) ∉ SUPPORT_ACCESS_EXCLUDED_ACTIONS ∧
  (resource, action) ∉ AI_SUPPORT_ACCESS_EXCLUDED_ACTIONS ∧
  ∃ i r, rb.(rb_support) !! i = Some r ∧ r.(sr_requester_user_id) = actor ∧
    row_reaches ts r.(sr_tenant_id) r.(sr_scope_mode) t ∧ open s r.(sr_tenant_id) = true ∧
    is_Some r.(sr_approved_at) ∧ r.(sr_denied_at) = None ∧ r.(sr_revoked_at) = None ∧
    r.(sr_starts_at) ≤ now < r.(sr_expires_at).

Definition allowed (actor_tenant_id : option uuid) (ignore_expiring : bool) : Prop :=
  open s t = true ∧ actor_is_live rb s actor actor_type actor_tenant_id = true ∧ ¬ is_denied ∧
  (accessible s t = true ∧ (has_role ∨ has_delegation ignore_expiring) ∨ has_support).
End Rule.

(** ** The decision is the rule *)

Section Exact.
Context (cfg : TenancyConfig) (rb : rbac_rows) (now : datetime) (s : tenancy_store).
Context (Hwf : hwf cfg s.(ts_tenants) s.(ts_ancestry)).

Lemma any_ancestor_spec t p : any_ancestor s t p = true ↔ ∃ a, (∃ n, hops s.(ts_tenants) (S n) t = Some a) ∧ p a = true.
Proof.
  unfold any_ancestor. rewrite existsb_exists. split.
  - intros (a & Ha%list_elem_of_In%elem_of_elements & Hp). destruct (bool_decide (a = t)) eqn:E; [done|]. reflect_bools.
    exists a. split; [|done]. unfold lock_ancestor_ids, get_ancestor_ids in Ha.
    apply elem_of_list_to_set, elem_of_fst in Ha as [d Hd%elem_of_ancestry_of].
    apply (closure _ _ _ Hwf) in Hd as ([|n] & _ & Hn); [|by eauto]. simpl in Hn. case_decide; [|done]. congruence.
  - intros (a & (n & Hn) & Hp). exists a. split.
    + apply list_elem_of_In, elem_of_elements. unfold lock_ancestor_ids, get_ancestor_ids.
      apply elem_of_list_to_set, elem_of_fst. exists (Z.of_nat (S n)). apply elem_of_ancestry_of.
      exact (hwf_row cfg s.(ts_tenants) s.(ts_ancestry) (S n) t a Hwf Hn).
    + rewrite bool_decide_eq_false_2; [done|]. intros ->. pose proof (hops_exists _ (S n) _ _ Hn) as Hex.
      by pose proof (hwf_functional _ _ _ (S n) 0 _ _ Hwf Hn (hops_zero _ _ Hex)).
Qed.

(** The shape every path shares: at the tenant with either scope, or at a strict
    ancestor with SUBTREE. *)
Lemma chain_spec {A} t (p : uuid → list RoleScope → bool) (rows : A → Prop) (tenant : A → uuid) (scope : A → RoleScope)
    (Q : A → Prop) :
  (∀ a scopes, p a scopes = true ↔ ∃ r, rows r ∧ tenant r = a ∧ scope r ∈ scopes ∧ Q r) →
  (p t TARGET_TENANT_SCOPES || any_ancestor s t (λ a, p a ANCESTOR_TENANT_SCOPES))%bool = true ↔
  ∃ r, rows r ∧ row_reaches s.(ts_tenants) (tenant r) (scope r) t ∧ Q r.
Proof.
  intros Hp. rewrite orb_true_iff, any_ancestor_spec, Hp. setoid_rewrite Hp. unfold row_reaches. split.
  - intros [(r & Hr & Ht & _ & HQ)|(a & Hn & r & Hr & <- & Hs%list_elem_of_singleton & HQ)]; eauto 8.
  - intros (r & Hr & [Ht|[Hs Hn]] & HQ); [left|right].
    + exists r. split_and!; try done. destruct (scope r); repeat constructor.
    + exists (tenant r). split; [done|]. exists r. split_and!; try done. rewrite Hs. by apply list_elem_of_singleton.
Qed.

Lemma names_permission_spec pid resource action :
  names_permission rb pid resource action = true ↔ rb.(rb_permissions) !! pid = Some (resource, action).
Proof. apply bool_decide_eq_true. Qed.

Lemma role_grants_spec a role resource action : role_grants rb a role resource action = true ↔
  ∃ j rp, rb.(rb_role_permissions) !! j = Some rp ∧ rp.(rp_role_id) = role ∧ rp.(rp_tenant_id) = a ∧
    rb.(rb_permissions) !! rp.(rp_permission_id) = Some (resource, action).
Proof.
  unfold role_grants. rewrite exists_row_spec. split; intros (j & rp & Hj & H); exists j, rp;
    rewrite !andb_true_iff, !bool_decide_eq_true, names_permission_spec in *; tauto.
Qed.

Lemma assignment_grants_spec a holder scopes resource action r :
  assignment_grants rb a holder scopes resource action r = true ↔
  r.(ra_tenant_id) = a ∧ r.(ra_scope) ∈ scopes ∧ r.(ra_holder_id) = holder ∧
  ∃ j rp, rb.(rb_role_permissions) !! j = Some rp ∧ rp.(rp_role_id) = r.(ra_role_id) ∧
    rp.(rp_tenant_id) = r.(ra_tenant_id) ∧ rb.(rb_permissions) !! rp.(rp_permission_id) = Some (resource, action).
Proof.
  unfold assignment_grants. rewrite !andb_true_iff, !bool_decide_eq_true, role_grants_spec. naive_solver.
Qed.

Lemma denied_spec actor ty t action resource :
  actor_is_denied rb s actor ty t action resource = true ↔ is_denied rb s actor ty t action resource.
Proof.
  unfold actor_is_denied, is_denied.
  rewrite (chain_spec t (λ a, tenant_denies_permission rb a actor ty action resource)
    (λ r : uuid * DenyGrant, rb.(rb_denies) !! r.1 = Some r.2) (λ r, r.2.(dn_tenant_id)) (λ r, r.2.(dn_scope_mode))
    (λ r, r.2.(dn_principal_type) = ty ∧ principal_id_column ty r.2 = Some actor ∧ r.2.(dn_revoked_at) = None ∧
          rb.(rb_permissions) !! r.2.(dn_permission_id) = Some (resource, action))).
  - split; [intros ([i d] & ?); exists i, d|intros (i & d & ?); exists (i, d)]; naive_solver.
  - intros a scopes. unfold tenant_denies_permission. rewrite exists_row_spec.
    split; [intros (i & d & Hi & H); exists (i, d)|intros ([i d] & Hi & H); exists i, d];
      rewrite !andb_true_iff, !bool_decide_eq_true, names_permission_spec in *; simpl in *; tauto.
Qed.

Lemma tenant_grants_spec a actor action resource scopes :
  tenant_grants_permission rb s a actor action resource scopes = true ↔
  ∃ i r m, rb.(rb_membership_roles) !! i = Some r ∧ r.(ra_tenant_id) = a ∧ r.(ra_scope) ∈ scopes ∧
    rb.(rb_memberships) !! (a, actor) = Some m ∧ m.(tm_status) = M_ACTIVE ∧ r.(ra_holder_id) = m.(tm_id) ∧
    accessible s a = true ∧
    ∃ j rp, rb.(rb_role_permissions) !! j = Some rp ∧ rp.(rp_role_id) = r.(ra_role_id) ∧
      rp.(rp_tenant_id) = r.(ra_tenant_id) ∧ rb.(rb_permissions) !! rp.(rp_permission_id) = Some (resource, action).
Proof.
  unfold tenant_grants_permission, lock_membership. split.
  - destruct (_ !! _) as [m|] eqn:Hm; [|done]. destruct (negb _) eqn:Ha; [done|]. reflect_bools.
    destruct (accessible s a) eqn:Hacc; [|done]. intros (i & r & Hi & H)%exists_row_spec.
    apply assignment_grants_spec in H. exists i, r, m. naive_solver.
  - intros (i & r & m & Hi & <- & Hsc & Hm & Hact & Hh & Hacc & Hrp).
    rewrite Hm, bool_decide_eq_true_2, Hacc by done. apply exists_row_spec. exists i, r. split; [done|].
    apply assignment_grants_spec. tauto.
Qed.

Lemma roles_spec actor ty t action resource :
  (actor_grants_permission rb s t actor ty action resource TARGET_TENANT_SCOPES ||
   any_ancestor s t (λ a, actor_grants_permission rb s a actor ty action resource ANCESTOR_TENANT_SCOPES))%bool = true ↔
  has_role rb s actor ty t action resource.
Proof.
  unfold has_role, actor_grants_permission. case_decide as Hty.
  - rewrite (bool_decide_eq_true_2 _ Hty).
    rewrite (chain_spec t (λ a, tenant_grants_permission rb s a actor action resource)
      (λ r : uuid * RoleAssignment * TenantMembership, rb.(rb_membership_roles) !! r.1.1 = Some r.1.2 ∧
         rb.(rb_memberships) !! (r.1.2.(ra_tenant_id), actor) = Some r.2 ∧ r.2.(tm_status) = M_ACTIVE)
      (λ r, r.1.2.(ra_tenant_id)) (λ r, r.1.2.(ra_scope))
      (λ r, r.1.2.(ra_holder_id) = r.2.(tm_id) ∧ accessible s r.1.2.(ra_tenant_id) = true ∧
         ∃ j rp, rb.(rb_role_permissions) !! j = Some rp ∧ rp.(rp_role_id) = r.1.2.(ra_role_id) ∧
           rp.(rp_tenant_id) = r.1.2.(ra_tenant_id) ∧ rb.(rb_permissions) !! rp.(rp_permission_id) = Some (resource, action))).
    + unfold assignment_reaches.
      split; [intros ([[i a] m] & H); exists i, a, m|intros (i & a & m & H); exists (i, a, m)]; simpl in *; tauto.
    + intros a scopes. rewrite tenant_grants_spec.
      split; [intros (i & r & m & H); exists (i, r, m)|intros ([[i r] m] & H); exists i, r, m]; simpl in *; naive_solver.
  - rewrite (bool_decide_eq_false_2 _ Hty).
    rewrite (chain_spec t (λ a, tenant_grants_permission_for_service_account rb s a actor action resource)
      (λ r : uuid * RoleAssignment, rb.(rb_service_account_roles) !! r.1 = Some r.2)
      (λ r, r.2.(ra_tenant_id)) (λ r, r.2.(ra_scope))
      (λ r, r.2.(ra_holder_id) = actor ∧ accessible s r.2.(ra_tenant_id) = true ∧
         ∃ j rp, rb.(rb_role_permissions) !! j = Some rp ∧ rp.(rp_role_id) = r.2.(ra_role_id) ∧
           rp.(rp_tenant_id) = r.2.(ra_tenant_id) ∧ rb.(rb_permissions) !! rp.(rp_permission_id) = Some (resource, action))).
    + unfold assignment_reaches.
      split; [intros ([i a] & H); exists i, a|intros (i & a & H); exists (i, a)]; simpl in *; tauto.
    + intros a scopes. unfold tenant_grants_permission_for_service_account. split.
      * destruct (accessible s a) eqn:Hacc; [|done]. intros (i & r & Hi & H)%exists_row_spec.
        apply assignment_grants_spec in H. exists (i, r). simpl. naive_solver.
      * intros ([i r] & Hi & <- & Hsc & Hh & Hacc & Hrp). simpl in *. rewrite Hacc.
        apply exists_row_spec. exists i, r. split; [done|]. apply assignment_grants_spec. tauto.
Qed.

(** The expiry condition of the query, of each of the two modes. *)
Lemma unexpired_spec (ignore_expiring : bool) (e : option datetime) :
  match e with None => true | Some e => negb ignore_expiring && (now <? e) end = true ↔
  ∀ x, e = Some x → ignore_expiring = false ∧ now < x.
Proof.
  destruct e as [e|]; [|naive_solver]. rewrite andb_true_iff, negb_true_iff, Z.ltb_lt. naive_solver.
Qed.

Lemma delegate_membership_spec a actor :
  delegate_membership_permits rb a actor = true ↔
  ∀ m, rb.(rb_memberships) !! (a, actor) = Some m → m.(tm_status) = M_ACTIVE.
Proof.
  unfold delegate_membership_permits, lock_membership. destruct (_ !! _) as [m|]; [|naive_solver].
  rewrite bool_decide_eq_true. naive_solver.
Qed.

Lemma delegation_spec actor ty t action resource ign :
  (tenant_grants_permission_via_delegation rb now s t actor ty action resource TARGET_TENANT_SCOPES ign ||
   any_ancestor s t (λ a,
     tenant_grants_permission_via_delegation rb now s a actor ty action resource ANCESTOR_TENANT_SCOPES ign))%bool = true ↔
  has_delegation rb now s actor ty t action resource ign.
Proof.
  unfold has_delegation.
  rewrite (chain_spec t (λ a sc, tenant_grants_permission_via_delegation rb now s a actor ty action resource sc ign)
    (λ r : uuid * DelegationGrant, rb.(rb_delegations) !! r.1 = Some r.2) (λ r, r.2.(dg_tenant_id)) (λ r, r.2.(dg_scope_mode))
    (λ r, r.2.(dg_delegate_type) = ty ∧ delegate_id_column ty r.2 = Some actor ∧ accessible s r.2.(dg_tenant_id) = true ∧
       r.2.(dg_revoked_at) = None ∧ r.2.(dg_starts_at) ≤ now ∧
       (∀ e, r.2.(dg_expires_at) = Some e → ign = false ∧ now < e) ∧
       rb.(rb_permissions) !! r.2.(dg_permission_id) = Some (resource, action) ∧
       (ty = PT_USER → ∀ m, rb.(rb_memberships) !! (r.2.(dg_tenant_id), actor) = Some m → m.(tm_status) = M_ACTIVE))).
  - split; [intros ([i d] & H); exists i, d|intros (i & d & H); exists (i, d)]; simpl in *; tauto.
  - intros a scopes. unfold tenant_grants_permission_via_delegation. split.
    + destruct (bool_decide (ty = PT_USER) && _) eqn:Hd; [done|]. apply andb_false_iff in Hd.
      rewrite bool_decide_eq_false, negb_false_iff, delegate_membership_spec in Hd.
      destruct (accessible s a) eqn:Hacc; [|done]. intros (i & d & Hi & H)%exists_row_spec. exists (i, d). simpl.
      rewrite !andb_true_iff, !bool_decide_eq_true, names_permission_spec, unexpired_spec, Z.leb_le in H.
      destruct_and!. subst. tauto.
    + intros ([i d] & Hi & <- & Hsc & Hty & Hid & Hacc & Hrev & Hst & Hexp & Hn & Hm). simpl in *.
      rewrite (proj2 (andb_false_iff (bool_decide (ty = PT_USER)) _)), Hacc.
      * apply exists_row_spec. exists i, d. split; [done|].
        rewrite !andb_true_iff, !bool_decide_eq_true, names_permission_spec, unexpired_spec, Z.leb_le. tauto.
      * rewrite bool_decide_eq_false, negb_false_iff, delegate_membership_spec.
        destruct (decide (ty = PT_USER)); tauto.
Qed.

Lemma support_spec actor t resource action :
  actor_has_support_access rb now s actor t resource action = true ↔
  has_support rb now s actor PT_USER t action resource.
Proof.
  unfold actor_has_support_access, has_support.
  rewrite (chain_spec t (λ a, tenant_grants_support_access rb now s a actor resource action)
    (λ r : uuid * SupportAccessRequest, rb.(rb_support) !! r.1 = Some r.2) (λ r, r.2.(sr_tenant_id)) (λ r, r.2.(sr_scope_mode))
    (λ r, resource ∉ AUTHORITY_RESOURCES ∧ (resource, action) ∉ SUPPORT_ACCESS_EXCLUDED_ACTIONS ∧
       (resource, action) ∉ AI_SUPPORT_ACCESS_EXCLUDED_ACTIONS ∧
       r.2.(sr_requester_user_id) = actor ∧ open s r.2.(sr_tenant_id) = true ∧
       is_Some r.2.(sr_approved_at) ∧ r.2.(sr_denied_at) = None ∧ r.2.(sr_revoked_at) = None ∧
       r.2.(sr_starts_at) ≤ now < r.2.(sr_expires_at))).
  - split.
    + intros ([i r] & H). simpl in H. destruct_and!. split_and!; try done. exists i, r. tauto.
    + intros (_ & Ha & Hb & Hc & i & r & H). exists (i, r). simpl. tauto.
  - intros a scopes. unfold tenant_grants_support_access. split.
    + case_bool_decide as H1; [done|]. case_bool_decide as H2; [done|]. case_bool_decide as H3; [done|]. destruct (open s a) eqn:Ho; [|done].
      intros (i & r & Hi & H)%exists_row_spec. exists (i, r). simpl.
      rewrite !andb_true_iff, !bool_decide_eq_true, Z.leb_le, Z.ltb_lt in H. destruct_and!. subst. tauto.
    + intros ([i r] & Hi & <- & Hsc & Ha & Hb & Hc & Hact & Ho & H). simpl in *.
      rewrite !bool_decide_eq_false_2, Ho by done. apply exists_row_spec. exists i, r. split; [done|].
      rewrite !andb_true_iff, !bool_decide_eq_true, Z.leb_le, Z.ltb_lt. tauto.
Qed.

Lemma any_ancestor_or t p q :
  any_ancestor s t (λ a, p a || q a) = any_ancestor s t p || any_ancestor s t q.
Proof.
  unfold any_ancestor. induction (elements _) as [|a l IH]; simpl; [done|]. rewrite IH.
  destruct (bool_decide (a = t)), (p a), (q a); simpl; by rewrite ?orb_true_r.
Qed.

Lemma allow_spec actor ty t action resource ign :
  (candidate_allows rb now s t actor ty action resource TARGET_TENANT_SCOPES ign ||
   any_ancestor s t (λ a, candidate_allows rb now s a actor ty action resource ANCESTOR_TENANT_SCOPES ign))%bool = true ↔
  has_role rb s actor ty t action resource ∨ has_delegation rb now s actor ty t action resource ign.
Proof.
  unfold candidate_allows. rewrite any_ancestor_or, <-roles_spec, <-delegation_spec, !orb_true_iff. tauto.
Qed.

Lemma can_spec actor ty t action resource atid ign :
  can rb now s actor t action resource ty atid ign = true ↔ allowed rb now s actor ty t action resource atid ign.
Proof.
  unfold can, allowed, accessible, open, lock_accessible_tenant, lock_open_tenant.
  destruct (tenants_of s !! t) as [tn|] eqn:Ht; [|naive_solver].
  pose proof (allow_spec actor ty t action resource ign) as Hallow.
  pose proof (denied_spec actor ty t action resource) as Hden.
  pose proof (support_spec actor t resource action) as Hsup.
  assert (is_accessible_to_principals (t_status tn) = true → is_closed (t_status tn) = false) as Hopen.
  { destruct (t_status tn); done. }
  assert (bool_decide (ty = PT_USER) && actor_has_support_access rb now s actor t resource action = true ↔
          has_support rb now s actor ty t action resource) as Hs.
  { rewrite andb_true_iff, bool_decide_eq_true, Hsup. unfold has_support. naive_solver. }
  destruct (is_accessible_to_principals _); simpl.
  - rewrite Hopen by done. destruct (actor_is_live _ _ _ _ _); simpl; [|naive_solver].
    destruct (actor_is_denied _ _ _ _ _ _ _); [naive_solver|].
    assert (¬ is_denied rb s actor ty t action resource) by (intros ?%Hden; done).
    destruct (candidate_allows _ _ _ _ _ _ _ _ _ _), (any_ancestor _ _ _); simpl in *; rewrite ?Hs; tauto.
  - destruct (is_closed _); [naive_solver|]. destruct (actor_is_live _ _ _ _ _); simpl; [|naive_solver].
    destruct (actor_is_denied _ _ _ _ _ _ _); [naive_solver|].
    assert (¬ is_denied rb s actor ty t action resource) by (intros ?%Hden; done). rewrite Hs. naive_solver.
Qed.
End Exact.

(** * What the authorization decision guarantees

    The decision is the documented rule; it reads nothing outside the tenant's
    own ancestor chain; support access never changes authority; and no accepted
    operation of the tenant registry takes the last administrator from a tenant,
    except from the tenant it closes. *)

Section Rule.
Context (cfg : TenancyConfig).

(** C4: a decision is exactly the documented rule.  In a well-formed registry
    [can] answers yes if and only if the tenant is open, the actor is a live
    user or an active service account, no unrevoked deny for the permission
    reaches the tenant, and either the tenant admits principals and a role or a
    current delegation of it reaches the tenant (from the tenant itself or, with
    SUBTREE scope, from any of its strict ancestors, the granting tenant itself
    admitting principals), or the actor is a user with a current, approved
    support-access request and the action is not excluded from support access. *)
Theorem can_exact (rb : rbac_rows) (now : datetime) (s : tenancy_store) (actor : uuid) (ty : PrincipalType) (t : uuid)
    (action resource : string) (actor_tenant_id : option uuid) (ignore_expiring : bool) :
  hwf cfg s.(ts_tenants) s.(ts_ancestry) →
  can rb now s actor t action resource ty actor_tenant_id ignore_expiring = true ↔
  allowed rb now s actor ty t action resource actor_tenant_id ignore_expiring.
Proof. intros Hwf. by apply (can_spec cfg). Qed.

(** ** Isolation *)

(** Two tables hold the same rows of the tenants [P]. *)
Definition agree {A} (tenant : A → uuid) (P : uuid → Prop) (m m' : gmap uuid A) : Prop :=
  ∀ i r, P (tenant r) → m !! i = Some r ↔ m' !! i = Some r.

Definition agree_on (P : uuid → Prop) (rb rb' : rbac_rows) : Prop :=
  rb'.(rb_permissions) = rb.(rb_permissions) ∧
  (∀ t u, P t → rb'.(rb_memberships) !! (t, u) = rb.(rb_memberships) !! (t, u)) ∧
  agree rp_tenant_id P rb.(rb_role_permissions) rb'.(rb_role_permissions) ∧
  agree ra_tenant_id P rb.(rb_membership_roles) rb'.(rb_membership_roles) ∧
  agree ra_tenant_id P rb.(rb_service_account_roles) rb'.(rb_service_account_roles) ∧
  agree dg_tenant_id P rb.(rb_delegations) rb'.(rb_delegations) ∧
  agree dn_tenant_id P rb.(rb_denies) rb'.(rb_denies) ∧
  agree sr_tenant_id P rb.(rb_support) rb'.(rb_support).

(** The tenant and its ancestors. *)
Definition in_chain (s : tenancy_store) (t a : uuid) : Prop := a = t ∨ ∃ n, hops s.(ts_tenants) n t = Some a.

Lemma agree_on_sym P rb rb' : agree_on P rb rb' → agree_on P rb' rb.
Proof. unfold agree_on, agree. intros H. destruct_and!. split_and!; naive_solver. Qed.

Lemma reaches_in_chain s a sc t : row_reaches s.(ts_tenants) a sc t → in_chain s t a.
Proof. intros [->|[_ [n Hn]]]; [by left|right; eauto]. Qed.

Lemma reaches_same s s' a sc t : (∀ n, hops s'.(ts_tenants) n t = hops s.(ts_tenants) n t) →
  row_reaches s.(ts_tenants) a sc t → row_reaches s'.(ts_tenants) a sc t.
Proof. intros Hh [->|[Hs [n Hn]]]; [by left|right]. split; [done|]. exists n. by rewrite Hh. Qed.

(** The transfer of a decision to another state: the rows of the chain and the
    chain itself are the same, and no tenant of the chain admits less. *)
Section Transfer.
Context (rb rb' : rbac_rows) (now : datetime) (s s' : tenancy_store) (t : uuid).
Context (Hrows : agree_on (in_chain s t) rb rb').
Context (Hhops : ∀ n, hops s'.(ts_tenants) n t = hops s.(ts_tenants) n t).
Context (Hacc : ∀ a, in_chain s t a → accessible s a = true → accessible s' a = true).
Context (Hopen : ∀ a, in_chain s t a → open s a = true → open s' a = true).

Lemma denied_transfer actor ty action resource :
  is_denied rb' s' actor ty t action resource → is_denied rb s actor ty t action resource.
Proof.
  destruct Hrows as (Hp & _ & _ & _ & _ & _ & Hd & _). intros (i & d & Hi & Hr & H). rewrite Hp in H.
  apply (reaches_same s' s) in Hr; [|by intros; rewrite Hhops]. exists i, d. split; [|tauto].
  by apply Hd; [eapply reaches_in_chain|].
Qed.

Lemma assignment_transfer actor action resource a :
  assignment_reaches rb s t action resource actor a → assignment_reaches rb' s' t action resource actor a.
Proof.
  destruct Hrows as (Hp & _ & Hrp & _). intros (Hh & Hr & Ha & j & rp & Hj & H1 & H2 & H3).
  pose proof (reaches_in_chain _ _ _ _ Hr) as Hc.
  split_and!; [done|by eapply reaches_same|by apply Hacc|]. exists j, rp. rewrite Hp. split_and!; try done.
  apply Hrp; [by rewrite H2|done].
Qed.

Lemma role_transfer actor ty action resource :
  has_role rb s actor ty t action resource → has_role rb' s' actor ty t action resource.
Proof.
  pose proof Hrows as (_ & Hm & _ & Hmr & Hsr & _). unfold has_role. case_decide.
  - intros (i & a & m & Hi & Hma & Hact & Har). pose proof Har as (_ & Hc%reaches_in_chain & _).
    exists i, a, m. split_and!; [by apply Hmr|by rewrite Hm|done|by apply assignment_transfer].
  - intros (i & a & Hi & Har). pose proof Har as (_ & Hc%reaches_in_chain & _).
    exists i, a. split; [by apply Hsr|by apply assignment_transfer].
Qed.

Lemma delegation_transfer actor ty action resource ign :
  has_delegation rb now s actor ty t action resource ign → has_delegation rb' now s' actor ty t action resource ign.
Proof.
  destruct Hrows as (Hp & Hm & _ & _ & _ & Hd & _). intros (i & d & Hi & H1 & H2 & Hr & Ha & H3 & H4 & H5 & H6 & H7).
  pose proof (reaches_in_chain _ _ _ _ Hr) as Hc. exists i, d. rewrite Hp.
  split_and!; try done; [by apply Hd|by eapply reaches_same|by apply Hacc|]. intros Hty m. rewrite Hm by done. by apply H7.
Qed.

Lemma support_transfer actor ty action resource :
  has_support rb now s actor ty t action resource → has_support rb' now s' actor ty t action resource.
Proof.
  destruct Hrows as (_ & _ & _ & _ & _ & _ & _ & Hs). intros (H1 & H2 & H3 & H4 & i & r & Hi & H5 & Hr & Ho & H6).
  pose proof (reaches_in_chain _ _ _ _ Hr) as Hc. split_and!; try done. exists i, r.
  split_and!; try tauto; [by apply Hs|by eapply reaches_same|by apply Hopen].
Qed.

Lemma allowed_transfer actor ty action resource atid ign :
  actor_is_live rb' s' actor ty atid = actor_is_live rb s actor ty atid →
  allowed rb now s actor ty t action resource atid ign → allowed rb' now s' actor ty t action resource atid ign.
Proof.
  intros Hlive (Ho & Hl & Hd & Hw). split_and!; [by apply Hopen; [left|]|by rewrite Hlive| |].
  - intros H. by apply Hd, denied_transfer.
  - destruct Hw as [[Ha [Hw|Hw]]|Hw]; [left|left|right; by apply support_transfer];
      (split; [by apply Hacc; [left|]|]); [left; by apply role_transfer|right; by apply delegation_transfer].
Qed.
End Transfer.

Lemma chain_hops s s' : hwf cfg s.(ts_tenants) s.(ts_ancestry) → ∀ n t,
  (∀ a, in_chain s t a → s'.(ts_tenants) !! a = s.(ts_tenants) !! a) →
  hops s'.(ts_tenants) n t = hops s.(ts_tenants) n t.
Proof.
  intros Hwf n. induction n as [|n IH]; intros t Hsame; simpl; [by rewrite Hsame by by left|].
  unfold parent_of. rewrite Hsame by by left. destruct (ts_tenants s !! t ≫= t_parent_id) as [p|] eqn:Ep; [|done].
  simpl. apply IH. intros a Ha. apply Hsame. right. destruct Ha as [->|[m Hm]].
  - exists 1%nat. simpl. unfold parent_of. rewrite Ep. simpl.
    rewrite decide_True; [done|]. by eapply (parent_exists _ _ _ Hwf t).
  - exists (S m). simpl. unfold parent_of. by rewrite Ep.
Qed.

Lemma accessible_same s s' a : s'.(ts_tenants) !! a = s.(ts_tenants) !! a → accessible s' a = accessible s a.
Proof. intros H. unfold accessible, lock_accessible_tenant, tenants_of, tenancy_store_tenants. by rewrite H. Qed.
Lemma open_same s s' a : s'.(ts_tenants) !! a = s.(ts_tenants) !! a → open s' a = open s a.
Proof. intros H. unfold open, lock_open_tenant, tenants_of, tenancy_store_tenants. by rewrite H. Qed.

(** Tenants are isolated.  A decision about a tenant depends only on the
    registry rows and the authorization rows of that tenant and its ancestors,
    on the permission catalogue and on the actor's own account: whatever rows
    every other tenant (a sibling, a descendant, an unrelated customer) holds,
    the answer is the same. *)
Theorem can_isolated (rb rb' : rbac_rows) (now : datetime) (s s' : tenancy_store) (t actor : uuid) (ty : PrincipalType)
    (action resource : string) (actor_tenant_id : option uuid) (ignore_expiring : bool) :
  hwf cfg s.(ts_tenants) s.(ts_ancestry) → hwf cfg s'.(ts_tenants) s'.(ts_ancestry) →
  (∀ a, in_chain s t a → s'.(ts_tenants) !! a = s.(ts_tenants) !! a) → agree_on (in_chain s t) rb rb' →
  s'.(ts_platform).(ps_users) !! actor = s.(ts_platform).(ps_users) !! actor →
  rb'.(rb_service_accounts) !! actor = rb.(rb_service_accounts) !! actor →
  can rb' now s' actor t action resource ty actor_tenant_id ignore_expiring =
  can rb now s actor t action resource ty actor_tenant_id ignore_expiring.
Proof.
  intros Hwf Hwf' Hts Hrows Hu Hsa. pose proof (λ n, chain_hops s s' Hwf n t Hts) as Hh.
  assert (∀ a, in_chain s' t a ↔ in_chain s t a) as Hc.
  { intros a. unfold in_chain. by setoid_rewrite Hh. }
  assert (actor_is_live rb' s' actor ty actor_tenant_id = actor_is_live rb s actor ty actor_tenant_id) as Hlive.
  { unfold actor_is_live, lock_user_is_active, is_active_user, lock_service_account_status. by rewrite Hu, Hsa. }
  apply eq_true_iff_eq. rewrite !(can_spec cfg) by done. split.
  - apply (allowed_transfer rb' rb now s' s t); [|by intros; rewrite Hh| | |].
    + apply agree_on_sym. unfold agree_on, agree. setoid_rewrite Hc. exact Hrows.
    + intros a Ha%Hc. by rewrite (accessible_same s s') by auto.
    + intros a Ha%Hc. by rewrite (open_same s s') by auto.
    + done.
  - apply (allowed_transfer rb rb' now s s' t); [done|done| | |done].
    + intros a Ha. by rewrite (accessible_same s s') by auto.
    + intros a Ha. by rewrite (open_same s s') by auto.
Qed.

(** Support access never carries authority.  A yes for an action that
    changes authority, billing or the tenant's own suspension comes, at a tenant
    that admits principals, from a role or a delegation; and a yes at a tenant
    that does not admit principals (a suspended one) comes from
    support access of a person, for an action that is not one of those nor an
    AI action. *)
Theorem support_never_authority (rb : rbac_rows) (now : datetime) (s : tenancy_store) (actor : uuid)
    (ty : PrincipalType) (t : uuid) (action resource : string) (actor_tenant_id : option uuid) (ignore_expiring : bool) :
  hwf cfg s.(ts_tenants) s.(ts_ancestry) →
  can rb now s actor t action resource ty actor_tenant_id ignore_expiring = true →
  (is_authority_changing resource action = true →
     accessible s t = true ∧
     (has_role rb s actor ty t action resource ∨ has_delegation rb now s actor ty t action resource ignore_expiring)) ∧
  (accessible s t = false →
     ty = PT_USER ∧ is_authority_changing resource action = false ∧
     (resource, action) ∉ AI_SUPPORT_ACCESS_EXCLUDED_ACTIONS ∧ has_support rb now s actor ty t action resource).
Proof.
  intros Hwf (_ & _ & _ & Hw)%(can_spec cfg _ _ _ Hwf). unfold is_authority_changing. split.
  - rewrite orb_true_iff, !bool_decide_eq_true. intros Hch. destruct Hw as [Hw|(_ & Ha & Hb & _)]; [done|tauto].
  - intros Hno. destruct Hw as [[Hyes _]|Hw]; [congruence|]. pose proof Hw as (Hty & Ha & Hb & Hc & _).
    rewrite orb_false_iff, !bool_decide_eq_false. tauto.
Qed.
End Rule.
