(* ===== verification/RbacAdministrators.v ===== *)
(** * No tenant loses its last administrator

    The guard of core/rbac/administrators.py around the operations of the tenant
    registry: an accepted creation, move or transition leaves every tenant that
    had an administrator with one, except the tenant it closes. *)

From S2P Require Import Prelude PyStr TenantLifecycle PlatformAuthority PlatformService PlatformProofs PlatformSafety TenantHierarchy HierarchyProofs HierarchySafety HierarchyReads RbacDecision RbacProofs.

Section Find.
Context (rb : rbac_rows) (now : datetime).

Definition has_administrator (s : tenancy_store) (t : uuid) : Prop :=
  ∃ u, is_active_member rb t u = true ∧ is_administrator rb now s t u = true.

Lemma elem_of_active_members t u : u ∈ active_members rb t ↔ is_active_member rb t u = true.
Proof.
  unfold active_members, is_active_member. rewrite list_elem_of_fmap. split.
  - intros ([u' m] & -> & Hin). rewrite merge_sort_Permutation in Hin.
    apply list_elem_of_fmap in Hin as ([[t' u''] m'] & [= -> ->] & [[Ht Hs] Hm]%list_elem_of_filter).
    simpl in *. subst. apply elem_of_map_to_list in Hm. rewrite Hm. by apply bool_decide_eq_true.
  - destruct (_ !! _) as [m|] eqn:Hm; [|done]. intros Hs%bool_decide_eq_true. exists (u, m). split; [done|].
    rewrite merge_sort_Permutation. apply list_elem_of_fmap. exists ((t, u), m). split; [done|].
    apply list_elem_of_filter. split; [done|]. by apply elem_of_map_to_list.
Qed.

(** The search finds an administrator whenever there is one, whoever is tried
    first. *)
Lemma find_administrator_spec s t try_first :
  is_Some (find_administrator rb now s t try_first None) ↔ has_administrator s t.
Proof.
  unfold find_administrator. set (p := λ u, _). split.
  - assert (∀ x, find p (active_members rb t) = Some x → has_administrator s t) as Hrest.
    { intros x Hx. apply find_some in Hx as [Hin%list_elem_of_In%elem_of_active_members Hp]. subst p. simpl in Hp.
      apply andb_true_iff in Hp as [_ Hp]. by exists x. }
    destruct try_first as [u|]; [|intros [x Hx]; by eapply Hrest].
    destruct (_ && _)%bool eqn:E; [|intros [x Hx]; by eapply Hrest]. intros _. exists u.
    apply andb_true_iff in E as [[_ ?]%andb_true_iff ?]. done.
  - intros (u & Hm & Ha).
    assert (Some u ≠ try_first → is_Some (find p (active_members rb t))) as Hrest.
    { intros Hne. destruct (find p (active_members rb t)) eqn:E; [done|].
      pose proof (find_none _ _ E u) as Hn. specialize (Hn (proj1 (list_elem_of_In _ _) (proj2 (elem_of_active_members t u) Hm))).
      subst p. simpl in Hn. by rewrite Ha, bool_decide_eq_false_2 in Hn. }
    destruct try_first as [v|]; [|by apply Hrest].
    destruct (_ && _)%bool eqn:E; [done|]. apply Hrest. intros [= ->]. by rewrite Hm, Ha in E.
Qed.

(** What a passed guard says. *)
Lemma guard_keeps l s0 s1 t :
  rbac_administrators_ok rb now l s0 s1 = true → t ∈ l → has_administrator s0 t → has_administrator s1 t.
Proof.
  unfold rbac_administrators_ok, verify, guard_tenants. rewrite bool_decide_eq_true. intros H Hin Hadm.
  apply (find_administrator_spec s0 t None) in Hadm as [a Ha].
  destruct (find _ _) eqn:E in H; [done|].
  pose proof (find_none _ _ E (t, Some a)) as Hn. cbn [fst snd] in Hn. rewrite bool_decide_eq_false in Hn.
  apply (find_administrator_spec s1 t (Some a)), not_eq_None_Some, Hn.
  apply list_elem_of_In, list_elem_of_fmap. exists t. split; [|done]. by rewrite <-Ha.
Qed.
End Find.

(** ** What an accepted operation leaves of the registry *)

Definition alike (s s' : tenancy_store) : Prop :=
  same_registry s s' ∧ s'.(ts_platform).(ps_users) = s.(ts_platform).(ps_users).

Lemma alike_trans s1 s2 s3 : alike s1 s2 → alike s2 s3 → alike s1 s3.
Proof. unfold alike, same_registry. intros. destruct_and!. split_and!; congruence. Qed.

Lemma record_platform_alike c op t r s x s' : record_platform c op t r s = (x, s') → alike s s'.
Proof.
  unfold record_platform, record_platform_event. destruct c; repeat case_match; intros; simplify_eq; done.
Qed.

Lemma record_each_alike c a subj l s x s' : record_each c a subj l s = (x, s') → alike s s'.
Proof.
  revert s. induction l as [|t l IH]; intros s; [by intros [= _ <-]|]. intros H.
  apply (IH (add_tenant_event (mkTenantEvent t c a subj) s)) in H. eapply alike_trans; [|done]. done.
Qed.

Section Outcomes.
Context (uuid4 : nat → uuid) (cfg : TenancyConfig).
Context (holds_self_suspend : tenancy_store → caller → uuid → bool).
Context (administrators_ok : list uuid → tenancy_store → tenancy_store → bool).

(** The four ways an accepted operation changes the registry. *)
Inductive registry_step (s s' : tenancy_store) : hcommand → Prop :=
| step_create name p c id t :
    s.(ts_tenants) !! id = None → t.(t_parent_id) ≠ Some id →
    s'.(ts_tenants) = <[id := t]> s.(ts_tenants) → s'.(ts_platform).(ps_users) = s.(ts_platform).(ps_users) →
    registry_step s s' (HCreate name p c)
| step_unmoved T np c reason : alike s s' → registry_step s s' (HMove T np c reason)
| step_moved T np c reason t s1 :
    s.(ts_tenants) !! T = Some t → s1.(ts_tenants) = <[T := with_parent np t]> s.(ts_tenants) →
    s1.(ts_platform) = s.(ts_platform) →
    administrators_ok (merge_sort nearest_first (subtree_of s T)).*1 s s1 = true → alike s1 s' →
    registry_step s s' (HMove T np c reason)
| step_status T target c reason expected ss t s1 :
    s.(ts_tenants) !! T = Some t → s1.(ts_tenants) = <[T := with_status target t]> s.(ts_tenants) →
    s1.(ts_platform) = s.(ts_platform) →
    (is_accessible_to_principals target = true ∨ administrators_ok (descendant_ids_by_depth s T) s s1 = true) →
    alike s1 s' → registry_step s s' (HTransition T target c reason expected ss).

Lemma recorded_Ok_inv {A} c op t (m : HM A) s a s' :
  refusal_recorded c op t (transaction m) s = (Ok a, s') → m s = (Ok a, s').
Proof.
  unfold refusal_recorded, transaction. destruct (m s) as [[b|e] s1]; [done|].
  destruct e as [|e| | | | | |]; try done. by destruct (refusal_code e).
Qed.

Lemma create_step name p c s id s' :
  hrun uuid4 cfg holds_self_suspend administrators_ok (HCreate name p c) s = (Ok id, s') →
  registry_step s s' (HCreate name p c).
Proof.
  simpl. unfold create_tenant. intros H. apply bind_Ok in H as ([] & s0 & [= _ <-] & H).
  destruct (has_control_characters name); [done|].
  match type of H with context [refusal_recorded c ?op p (transaction ?b) s] =>
    destruct (refusal_recorded c op p (transaction b) s) as [[a|e] s1] eqn:E end.
  2:{ by destruct e as [[]| | | | | | |]. }
  injection H as -> ->. apply recorded_Ok_inv in E.
  apply bind_Ok in E as (parent & s1 & H1 & E). assert (s1 = s) as ->.
  { unfold lock_parent in H1. destruct p; by injection H1 as _ <-. }
  apply bind_Ok in E as ([] & s1 & [= _ <-] & E). unfold create_body in E.
  apply bind_Ok in E as (pa & s1 & H1' & E). assert (s1 = s) as ->.
  { destruct parent as [[q st]|]; [|by injection H1' as _ <-]. apply bind_Ok in H1' as ([] & s2 & [= _ <-] & H2).
    apply bind_Ok in H2 as (s0 & s2 & [= <- <-] & [= _ <-]). done. }
  apply bind_Ok in E as (id' & s1 & H2 & E). unfold insert_tenant in H2.
  destruct (bool_decide (255 < _)%nat); [done|]. destruct (_ || _)%bool eqn:Ef; [done|]. injection H2 as <- <-.
  apply orb_false_elim in Ef as [Hf%bool_decide_eq_false_1%eq_None_not_Some Hself%bool_decide_eq_false_1].
  apply bind_Ok in E as ([] & s1 & H3 & E). apply put_rows_Ok in H3 as (m1 & -> & _).
  apply bind_Ok in E as ([] & s2 & H4 & E).
  assert (∃ m, s2 = set_ancestry m (set_ancestry m1 (set_tenant (uuid4 (ts_drawn s))
            (mkTenant name PENDING (fst <$> parent) false) (tdraw s)))) as [m2 ->].
  { destruct parent as [[q st]|]; [|injection H4 as <-; by eexists m1].
    apply bind_Ok in H4 as (dp & s3 & [= _ <-] & H4). destruct (_ <? _); [done|].
    apply put_rows_Ok in H4 as (m2 & -> & _). eauto. }
  apply bind_Ok in E as ([] & s3 & H5 & E). apply record_platform_alike in H5.
  apply bind_Ok in E as ([] & s4 & [= <-] & E). apply bind_Ok in E as ([] & s5 & H6 & [= _ <-]).
  assert (alike s3 s5) as H7 by (destruct parent as [[q st]|]; injection H6 as <-; done).
  destruct (alike_trans _ _ _ H5 H7) as [[Ht _] Hu].
  apply (step_create s s5 name p c (uuid4 (ts_drawn s)) (mkTenant name PENDING (fst <$> parent) false)); done.
Qed.

Lemma move_step T np c reason s id s' :
  hrun uuid4 cfg holds_self_suspend administrators_ok (HMove T np c reason) s = (Ok id, s') →
  registry_step s s' (HMove T np c reason).
Proof.
  simpl. unfold move_tenant. intros H. apply bind_Ok in H as ([] & s0 & [= _ <-] & H).
  apply bind_Ok in H as (r & s0 & [= _ <-] & H). apply recorded_Ok_inv in H. unfold move_body in H.
  apply bind_Ok in H as ([] & s0 & [= _ <-] & H). destruct c as [u| |]; [|done|done].
  apply bind_Ok in H as (t & s0 & H1 & H). injection H1 as Ht <-.
  assert (s.(ts_tenants) !! T = Some t) as HT.
  { unfold of_tenant in Ht. destruct (lock_open_tenant s T) eqn:E; [|done]. injection Ht as ->.
    by apply lock_open_tenant_Ok in E as [? _]. }
  apply bind_Ok in H as (st & s0 & H1 & H). assert (s0 = s) as ->.
  { destruct np as [p|]; [|by injection H1 as _ <-]. by apply bind_Ok in H1 as (st' & s2 & [= _ <-] & [= _ <-]). }
  case_bool_decide; [injection H as _ <-; by apply step_unmoved|].
  assert (move_subtree cfg administrators_ok (UserCaller u) T np t r s = (Ok id, s')) as Hm
    by (destruct st as [[p []]|]; done).
  clear H. unfold move_subtree in Hm. apply bind_Ok in Hm as (s0 & s1 & [= <- <-] & H).
  apply bind_Ok in H as (pd & s1 & [= _ <-] & H). apply bind_Ok in H as (deepest & s1 & [= _ <-] & H).
  destruct (_ <? _); [done|]. apply bind_Ok in H as ([] & s1 & [= <-] & H).
  apply bind_Ok in H as ([] & s1 & H2 & H). apply put_rows_Ok in H2 as (m & -> & _).
  apply bind_Ok in H as ([] & s1 & H2 & H). unfold set_parent in H2. case_bool_decide; [done|]. injection H2 as <-.
  apply bind_Ok in H as (s1 & s2 & [= <- <-] & H). destruct (negb _) eqn:Eadm; [done|].
  apply negb_false_iff in Eadm. apply bind_Ok in H as ([] & s2 & H2%record_platform_alike & H).
  apply bind_Ok in H as ([] & s3 & Hre%record_each_alike & [= _ <-]).
  by eapply step_moved; [exact HT| | |exact Eadm|by eapply alike_trans].
Qed.

Lemma apply_transition_step c T target reason r t op action b expected ss s id s' :
  s.(ts_tenants) !! T = Some t →
  apply_transition administrators_ok c T target r (t, op, action, b) s = (Ok id, s') →
  registry_step s s' (HTransition T target c reason expected ss).
Proof.
  unfold apply_transition. intros HT H. apply bind_Ok in H as (s0 & s1 & [= <- <-] & H).
  apply bind_Ok in H as ([] & s1 & [= <-] & H). apply bind_Ok in H as (s1 & s2 & [= <- <-] & H).
  destruct (_ && _)%bool eqn:Eadm; [done|]. apply andb_false_iff in Eadm. rewrite !negb_false_iff in Eadm.
  apply bind_Ok in H as ([] & s2 & H1 & H). apply bind_Ok in H as ([] & s3 & H2 & [= _ <-]).
  eapply step_status; [exact HT| | |exact Eadm|]; [done..|]. eapply (alike_trans _ s2).
  - destruct b; [by injection H1 as <-|by eapply record_platform_alike].
  - by destruct action; injection H2 as <-.
Qed.

Lemma transition_step T target c reason expected ss s id s' :
  hrun uuid4 cfg holds_self_suspend administrators_ok (HTransition T target c reason expected ss) s = (Ok id, s') →
  registry_step s s' (HTransition T target c reason expected ss).
Proof.
  simpl. unfold transition_tenant_status. intros H. apply bind_Ok in H as ([] & s0 & [= _ <-] & H).
  apply bind_Ok in H as (r & s0 & [= _ <-] & H). destruct (candidate_operations target) as [|f rest]; [done|].
  destruct (bool_decide (is_Some expected) && _)%bool; [done|]. destruct (ss && _)%bool; [done|].
  destruct (passes_transition_gate _ _ _ _ _) as [[]|]; [|done|done]. unfold transition_session in H.
  destruct (decide_transition _ _ _ _ _ _ _ _ _ _ _) as [[[[t op] action] b]|[op e]] eqn:Ed.
  2:{ by destruct e as [|[]| | | | | |]. }
  apply decide_transition_Ok in Ed as [HT _].
  unfold transaction in H.
  destruct (apply_transition administrators_ok c T target r (t, op, action, b) s) as [[x|e] s1] eqn:Ea; [|done].
  injection H as -> ->. by eapply apply_transition_step.
Qed.

Lemma hrun_step cmd s id s' :
  hrun uuid4 cfg holds_self_suspend administrators_ok cmd s = (Ok id, s') → registry_step s s' cmd.
Proof. destruct cmd; [apply create_step|apply move_step|apply transition_step]. Qed.
End Outcomes.

(** ** Every tenant keeps one *)

Lemma agree_on_refl P rb : agree_on P rb rb.
Proof. by unfold agree_on, agree. Qed.

Section Kept.
Context (uuid4 : nat → uuid) (cfg : TenancyConfig) (rb : rbac_rows) (now : datetime).
Abbreviation wf := (λ s : tenancy_store, hwf cfg s.(ts_tenants) s.(ts_ancestry)).

Lemma administrator_transfer s s' t :
  wf s → wf s' → s'.(ts_platform).(ps_users) = s.(ts_platform).(ps_users) →
  (∀ n, hops s'.(ts_tenants) n t = hops s.(ts_tenants) n t) →
  (∀ a, in_chain s t a → accessible s a = true → accessible s' a = true) →
  (∀ a, in_chain s t a → open s a = true → open s' a = true) →
  has_administrator rb now s t → has_administrator rb now s' t.
Proof.
  intros Hwf Hwf' Hu Hh Ha Ho (u & Hm & Hadm). exists u. split; [done|]. unfold is_administrator in *.
  apply (can_spec cfg) in Hadm; [|done]. apply (can_spec cfg); [done|]. revert Hadm.
  apply (allowed_transfer rb rb now s s' t); [apply agree_on_refl|done|done|done|].
  simpl. unfold lock_user_is_active, is_active_user. by rewrite Hu.
Qed.

(** The rows of the chain are the same. *)
Lemma administrator_same s s' t :
  wf s → wf s' → s'.(ts_platform).(ps_users) = s.(ts_platform).(ps_users) →
  (∀ a, in_chain s t a → s'.(ts_tenants) !! a = s.(ts_tenants) !! a) →
  has_administrator rb now s t → has_administrator rb now s' t.
Proof.
  intros Hwf Hwf' Hu Hts. apply administrator_transfer; try done.
  - intros n. by apply (chain_hops cfg).
  - intros a Ha. by rewrite (accessible_same s s') by auto.
  - intros a Ha. by rewrite (open_same s s') by auto.
Qed.

Lemma administrator_alike s s' t : wf s → alike s s' → has_administrator rb now s t → has_administrator rb now s' t.
Proof.
  intros Hwf [[Ht Ha] Hu]. apply administrator_same; [done|by rewrite Ht, Ha|done|]. intros a _. by rewrite Ht.
Qed.

Lemma elem_of_guarded s T x : wf s → is_Some (s.(ts_ancestry) !! (x, T)) →
  x ∈ (merge_sort nearest_first (subtree_of s T)).*1 ∧ (x ≠ T → x ∈ descendant_ids_by_depth s T).
Proof.
  intros Hwf [d Hd]. split.
  - apply elem_of_fst. exists d. rewrite merge_sort_Permutation. by apply elem_of_subtree_of.
  - intros Hne. unfold descendant_ids_by_depth. apply elem_of_fst. exists d.
    rewrite merge_sort_Permutation, list_elem_of_filter. split; [done|by apply elem_of_subtree_of].
Qed.

(** A tenant outside a changed one's subtree has none of its rows changed. *)
Lemma outside_same s T tT t : wf s → s.(ts_ancestry) !! (t, T) = None → is_Some (s.(ts_tenants) !! t) →
  ∀ a, in_chain s t a → (<[T := tT]> s.(ts_tenants)) !! a = s.(ts_tenants) !! a.
Proof.
  intros Hwf Hout Ht a Ha. apply lookup_insert_ne. intros <-.
  assert (∃ n, hops s.(ts_tenants) n t = Some T) as [n Hn].
  { destruct Ha as [->|Ha]; [|done]. exists 0%nat. by apply hops_zero. }
  apply (hwf_row cfg _ _ _ _ _ Hwf) in Hn. congruence.
Qed.

Lemma administrator_tenant s t : wf s → has_administrator rb now s t → is_Some (s.(ts_tenants) !! t).
Proof.
  intros Hwf (u & _ & (Ho & _)%(can_spec cfg _ _ _ Hwf)). unfold open in Ho.
  destruct (lock_open_tenant s t) as [tn|] eqn:E; [|done]. apply lock_open_tenant_Ok in E as [E _]. eexists. exact E.
Qed.

(** A status that admits principals takes nothing away. *)
Lemma administrator_reopened s s1 T target tT t :
  wf s → wf s1 → s.(ts_tenants) !! T = Some tT → s1.(ts_tenants) = <[T := with_status target tT]> s.(ts_tenants) →
  s1.(ts_platform) = s.(ts_platform) → is_accessible_to_principals target = true →
  has_administrator rb now s t → has_administrator rb now s1 t.
Proof.
  intros Hwf Hwf1 HT Hts Hp Hin. apply administrator_transfer; [done|done|by rewrite Hp| | |].
  - intros n. rewrite Hts. by apply hops_status.
  - intros a _. destruct (decide (a = T)) as [->|Hne].
    + intros _. unfold accessible, lock_accessible_tenant, tenants_of, tenancy_store_tenants.
      rewrite Hts, lookup_insert_eq. simpl. by rewrite Hin.
    + rewrite (accessible_same s s1); [done|]. by rewrite Hts, lookup_insert_ne.
  - intros a _. destruct (decide (a = T)) as [->|Hne].
    + intros _. unfold open, lock_open_tenant, tenants_of, tenancy_store_tenants.
      rewrite Hts, lookup_insert_eq. simpl. by destruct target.
    + rewrite (open_same s s1); [done|]. by rewrite Hts, lookup_insert_ne.
Qed.

Lemma step_keeps s s' cmd t :
  wf s → wf s' → registry_step (rbac_administrators_ok rb now) s s' cmd →
  (∀ target c reason expected ss, cmd = HTransition t target c reason expected ss →
     is_accessible_to_principals target = true) →
  has_administrator rb now s t → has_administrator rb now s' t.
Proof.
  intros Hwf Hwf' Hstep Hself Hadm. pose proof (administrator_tenant s t Hwf Hadm) as Hex.
  destruct Hstep as [name p c id tn Hid Hpid Hts Hu|T np c reason Hal|T np c reason tT s1 HT Hts Hp Hok Hal
                    |T target c reason expected ss tT s1 HT Hts Hp Hok Hal].
  - revert Hadm. apply administrator_same; try done. intros a Ha. rewrite Hts, lookup_insert_ne; [done|].
    intros <-. destruct Ha as [->|[n [? Hn]%hops_target]]; [by destruct Hex as [? ?]; congruence|congruence].
  - by apply (administrator_alike s s').
  - assert (wf s1) as Hwf1. { destruct Hal as [[E1 E2] _]. simpl in Hwf'. by rewrite E1, E2 in Hwf'. }
    apply (administrator_alike s1 s'); [done|done|].
    destruct (s.(ts_ancestry) !! (t, T)) as [d|] eqn:E.
    + eapply guard_keeps; [exact Hok| |done]. by eapply elem_of_guarded.
    + revert Hadm. apply administrator_same; [done|done|by rewrite Hp|]. rewrite Hts. by apply outside_same.
  - assert (wf s1) as Hwf1. { destruct Hal as [[E1 E2] _]. simpl in Hwf'. by rewrite E1, E2 in Hwf'. }
    apply (administrator_alike s1 s'); [done|done|].
    destruct (s.(ts_ancestry) !! (t, T)) as [d|] eqn:E.
    + destruct (decide (is_accessible_to_principals target = true)) as [Hin|Hno].
      * revert Hadm. by eapply administrator_reopened.
      * destruct Hok as [?|Hok]; [done|]. eapply guard_keeps; [exact Hok| |done].
        eapply elem_of_guarded; [done|by eexists|]. intros ->. by eapply Hno, Hself.
    + revert Hadm. apply administrator_same; [done|done|by rewrite Hp|]. rewrite Hts. by apply outside_same.
Qed.

(** No tenant loses its last administrator.  When the registry runs with
    the administrator guard of [core.rbac], every tenant that had an
    administrator (an active member allowed to create membership roles, not
    counting delegations that expire) still has one after any accepted creation,
    move or lifecycle transition, the search finds it, and the only tenant
    excepted is the one whose own transition takes it from its principals. *)
Theorem administrators_kept (cmd : hcommand) (s s' : tenancy_store) (id t : uuid) :
  valid_tenancy_config cfg = true → wf s →
  hrun uuid4 cfg (rbac_holds_self_suspend rb) (rbac_administrators_ok rb now) cmd s = (Ok id, s') →
  (∀ target c reason expected ss, cmd = HTransition t target c reason expected ss →
     is_accessible_to_principals target = true) →
  is_Some (find_administrator rb now s t None None) → is_Some (find_administrator rb now s' t None None).
Proof.
  intros Hcfg%Z.leb_le Hwf Hrun Hself. rewrite !find_administrator_spec.
  assert (wf s') as Hwf'.
  { pose proof (hexec_wf uuid4 cfg (rbac_holds_self_suspend rb) (rbac_administrators_ok rb now) cmd s) as H.
    unfold hexec in H. rewrite Hrun in H. apply H; [lia|done]. }
  by eapply step_keeps, Hself; [| |eapply hrun_step].
Qed.
End Kept.

(** ** A concrete deployment *)

(** Two users of acme (2000) and acme-eu (2001): user 2 administers acme with
    SUBTREE scope, user 1 administers acme-eu; user 1 also has support access to
    acme. *)
Definition rdemo (local : bool) : rbac_rows :=
  mkRbac
    (<[(2000, 2) := mkMembership 60 M_ACTIVE 1]> (<[(2001, 2) := mkMembership 61 M_ACTIVE 2]>
       (<[(2001, 1) := mkMembership 62 M_ACTIVE 3]> ∅)))%N
    ∅
    (<[50 := ("membership_role", "create")]> (<[51 := ("project", "read")]> ∅))%N
    (<[90 := mkRolePermission 2000 70 50]> (<[91 := mkRolePermission 2001 71 50]> ∅))%N
    (<[80 := mkAssignment 2000 60 70 SUBTREE]> (if local then {[81 := mkAssignment 2001 62 71 SELF]} else ∅))%N
    ∅ ∅ ∅
    {[85%N := mkSupport 2000 1 SELF 0 100 (Some 5) None None (lit "incident") (Some 2%N) None None]}.

(** The same rows, with a deny that another customer (2002) holds. *)
Definition rdemo_other : rbac_rows :=
  let r := rdemo true in
  mkRbac r.(rb_memberships) r.(rb_service_accounts) r.(rb_permissions) r.(rb_role_permissions) r.(rb_membership_roles)
    r.(rb_service_account_roles) r.(rb_delegations)
    {[95%N := mkDeny 2002 PT_USER (Some 2%N) None SUBTREE 50 None]} r.(rb_support).

Abbreviation rdemo_run local := (hrun hdemo_uuid hdemo_cfg (rbac_holds_self_suspend (rdemo local)) (rbac_administrators_ok (rdemo local) 10)).

(** Without an administrator of its own, acme-eu cannot leave acme; and acme
    cannot be suspended. *)
Example rdemo_guard :
  (rdemo_run false (HMove 2001 (Some 2002%N) (UserCaller 1) None) hdemo).1 = Raise LastAdministratorError ∧
  (rdemo_run false (HTransition 2000 SUSPENDED (UserCaller 1) (Some pdemo_reason) None false) hdemo).1 =
    Raise LastAdministratorError ∧
  find_administrator (rdemo true) 10 hdemo 2001 None None = Some 2%N.
Proof. vm_compute. split_and!; reflexivity. Qed.

Lemma administrators_kept_witness :
  is_Some (find_administrator (rdemo true) 10
    (rdemo_run true (HMove 2001 (Some 2002%N) (UserCaller 1) None) hdemo).2 2001 None None).
Proof.
  apply (administrators_kept hdemo_uuid hdemo_cfg (rdemo true) 10 (HMove 2001 (Some 2002%N) (UserCaller 1) None) hdemo
    _ 2001 2001).
  - reflexivity.
  - exact hdemo_hwf.
  - vm_compute. reflexivity.
  - discriminate.
  - exists 2%N. vm_compute. reflexivity.
Defined.

Lemma can_exact_witness : allowed (rdemo true) 10 hdemo 2 PT_USER 2001 "create" "membership_role" None false.
Proof.
  apply (can_exact hdemo_cfg (rdemo true) 10 hdemo 2 PT_USER 2001 "create" "membership_role" None false hdemo_hwf).
  vm_compute. reflexivity.
Defined.

Lemma rdemo_chain a : in_chain hdemo 2001 a → a = 2001%N ∨ a = 2000%N.
Proof.
  intros [->|[n Hn]]; [by left|]. apply (hwf_row hdemo_cfg _ _ _ _ _ hdemo_hwf) in Hn.
  assert (map_Forall (λ (k : uuid * uuid) (d : Z), k.1 = 2001%N → k.2 = 2001%N ∨ k.2 = 2000%N) (ts_ancestry hdemo)) as H.
  { apply (bool_decide_eq_true_1 _). vm_compute. reflexivity. }
  exact (H _ _ Hn eq_refl).
Defined.

Lemma can_isolated_witness :
  can rdemo_other 10 hdemo 2 2001 "create" "membership_role" PT_USER None false =
  can (rdemo true) 10 hdemo 2 2001 "create" "membership_role" PT_USER None false.
Proof.
  apply (can_isolated hdemo_cfg (rdemo true) rdemo_other 10 hdemo hdemo 2001 2); try reflexivity; [exact hdemo_hwf..|].
  split_and!; try done. intros i r Hc. simpl. split; [intros H; by rewrite lookup_empty in H|].
  intros [<- <-]%lookup_singleton_Some. by apply rdemo_chain in Hc as [|].
Defined.

Lemma support_never_authority_witness :
  has_role (rdemo true) hdemo 2 PT_USER 2001 "create" "membership_role" ∨
  has_delegation (rdemo true) 10 hdemo 2 PT_USER 2001 "create" "membership_role" false.
Proof.
  edestruct (support_never_authority hdemo_cfg (rdemo true) 10 hdemo 2 PT_USER 2001 "create" "membership_role" None false
    hdemo_hwf) as [H _]; [vm_compute; reflexivity|].
  apply H. reflexivity.
Defined.

(** Support access reads, and does not administer. *)
Example rdemo_support :
  can (rdemo true) 10 hdemo 1 2000 "read" "project" PT_USER None false = true ∧
  can (rdemo true) 10 hdemo 1 2000 "create" "membership_role" PT_USER None false = false.
Proof. vm_compute. split; reflexivity. Qed.
