(* ===== verification/RbacService.v ===== *)
(** * The administration of authorization (saas_os/core/rbac/service.py)

    Roles, permissions, assignments, delegations, denies and support-access
    requests: every operation that changes them.  An operation checks its
    caller, then makes its change and its audit entry in one transaction, in
    which it is authorized by [can]; who hands out a permission must hold it
    through a role of their own; and what takes authority away is guarded by the
    administrator rule.

    The tenant registry and the users are read only ([s]); [now] is the instant
    of the operation; the checks before a transaction see the state it starts
    from. *)

From S2P Require Import Prelude PyStr TenantLifecycle PlatformAuthority PlatformService TenantHierarchy RbacDecision.

(** ** The store *)

Record Role : Type := mkRole {
  ro_tenant_id : uuid;
  ro_name : pystr;
}.

(** An entry of the tenant's audit trail. *)
Record rbac_event : Type := mkRbacEvent {
  re_tenant : uuid;
  re_caller : caller;
  re_action : string;
  re_resource_id : uuid;
}.

Record rbac_store : Type := mkRbacStore {
  rs_rows : rbac_rows;
  rs_roles : gmap uuid Role;
  rs_events : list rbac_event;   (* latest first *)
  rs_drawn : nat;
}.

(** errors.py *)
Inductive rbac_error : Type :=
| RTenant (e : tenant_error)
| RCallerTypeError (operation : string)
| AuthorityNotAuthorizedError (operation : string) (tenant_id : uuid)
| RoleNotFoundError (tenant_id role_id : uuid)
| DuplicateRoleNameError (tenant_id : uuid) (name : pystr)
| InvalidRoleNameError
| PermissionNotFoundError (permission_id : uuid)
| DuplicatePermissionError (resource action : string)
| InvalidPermissionNameError
| DuplicatePermissionGrantError (role_id permission_id : uuid)
| MembershipNotFoundError (tenant_id membership_id : uuid)
| DuplicateRoleAssignmentError (membership_id role_id : uuid)
| RoleAssignmentNotAuthorizedError (actor_id tenant_id : uuid)
| InvalidPrincipalError (principal_type : PrincipalType) (principal_id : uuid)
| DuplicateServiceAccountRoleAssignmentError (service_account_id role_id : uuid)
| ServiceAccountRoleNotAuthorizedError (actor_id tenant_id : uuid)
| InvalidDelegationTimeRangeError (starts_at expires_at : datetime)
| DelegationNotAuthorizedError (actor_id tenant_id : uuid)
| DelegationNotFoundError (tenant_id delegation_grant_id : uuid)
| DenyNotAuthorizedError (actor_id tenant_id : uuid)
| DenyNotFoundError (tenant_id deny_grant_id : uuid)
| InvalidSupportAccessTimeRangeError (message : string)
| SupportAccessNotAuthorizedError (actor_id tenant_id : uuid)
| SupportAccessSelfApprovalError (user_id request_id : uuid)
| SupportAccessAlreadyDecidedError (request_id : uuid)
| SupportAccessNotApprovedError (request_id : uuid)
| DuplicateSupportAccessRequestError (tenant_id requester_user_id : uuid)
| SupportAccessNotFoundError (tenant_id request_id : uuid)
| LastTenantAdministratorError (tenant_id : uuid)
| RIntegrityError                (* a constraint of a table *)
| RDataError                     (* a value the column cannot hold *)
| RNoResultFound.                (* [scalar_one()] of nothing *)

Abbreviation RM := (M rbac_store rbac_error).

Definition of_registry {A : Type} (r : result tenant_error A) : result rbac_error A :=
  match r with Ok a => Ok a | Raise e => Raise (RTenant e) end.

(** ** Writing the tables *)

Definition with_permissions (m : gmap uuid (string * string)) (r : rbac_rows) : rbac_rows :=
  mkRbac r.(rb_memberships) r.(rb_service_accounts) m r.(rb_role_permissions) r.(rb_membership_roles)
    r.(rb_service_account_roles) r.(rb_delegations) r.(rb_denies) r.(rb_support).
Definition with_role_permissions (m : gmap uuid RolePermission) (r : rbac_rows) : rbac_rows :=
  mkRbac r.(rb_memberships) r.(rb_service_accounts) r.(rb_permissions) m r.(rb_membership_roles)
    r.(rb_service_account_roles) r.(rb_delegations) r.(rb_denies) r.(rb_support).
Definition with_membership_roles (m : gmap uuid RoleAssignment) (r : rbac_rows) : rbac_rows :=
  mkRbac r.(rb_memberships) r.(rb_service_accounts) r.(rb_permissions) r.(rb_role_permissions) m
    r.(rb_service_account_roles) r.(rb_delegations) r.(rb_denies) r.(rb_support).
Definition with_service_account_roles (m : gmap uuid RoleAssignment) (r : rbac_rows) : rbac_rows :=
  mkRbac r.(rb_memberships) r.(rb_service_accounts) r.(rb_permissions) r.(rb_role_permissions) r.(rb_membership_roles)
    m r.(rb_delegations) r.(rb_denies) r.(rb_support).
Definition with_delegations (m : gmap uuid DelegationGrant) (r : rbac_rows) : rbac_rows :=
  mkRbac r.(rb_memberships) r.(rb_service_accounts) r.(rb_permissions) r.(rb_role_permissions) r.(rb_membership_roles)
    r.(rb_service_account_roles) m r.(rb_denies) r.(rb_support).
Definition with_denies (m : gmap uuid DenyGrant) (r : rbac_rows) : rbac_rows :=
  mkRbac r.(rb_memberships) r.(rb_service_accounts) r.(rb_permissions) r.(rb_role_permissions) r.(rb_membership_roles)
    r.(rb_service_account_roles) r.(rb_delegations) m r.(rb_support).
Definition with_support (m : gmap uuid SupportAccessRequest) (r : rbac_rows) : rbac_rows :=
  mkRbac r.(rb_memberships) r.(rb_service_accounts) r.(rb_permissions) r.(rb_role_permissions) r.(rb_membership_roles)
    r.(rb_service_account_roles) r.(rb_delegations) r.(rb_denies) m.

Definition put_rows (r : rbac_rows) (st : rbac_store) : rbac_store :=
  mkRbacStore r st.(rs_roles) st.(rs_events) st.(rs_drawn).
Definition put_roles (m : gmap uuid Role) (st : rbac_store) : rbac_store :=
  mkRbacStore st.(rs_rows) m st.(rs_events) st.(rs_drawn).
Definition rdraw (st : rbac_store) : rbac_store :=
  mkRbacStore st.(rs_rows) st.(rs_roles) st.(rs_events) (S st.(rs_drawn)).
Definition update_rows (f : rbac_rows → rbac_rows) : RM unit := λ st, (Ok tt, put_rows (f st.(rs_rows)) st).

(** [record_in_transaction] *)
Definition record (c : caller) (tenant_id : uuid) (action : string) (resource_id : uuid) : RM unit :=
  λ st, (Ok tt, mkRbacStore st.(rs_rows) st.(rs_roles) (mkRbacEvent tenant_id c action resource_id :: st.(rs_events))
                  st.(rs_drawn)).

(** [try: ... except IntegrityError: ...] around a transaction. *)
Definition on_integrity_error {A : Type} (m handler : RM A) : RM A :=
  λ st, match m st with
        | (Raise RIntegrityError, st') => handler st'
        | other => other
        end.

(** The id of the first row with a property ([scalar_one_or_none()]). *)
Definition find_row {A : Type} (rows : gmap uuid A) (p : A → bool) : option uuid :=
  fst <$> find (λ r : uuid * A, p r.2) (map_to_list rows).

(** Equality of two columns in a unique index: NULL equals nothing. *)
Definition sql_eq {A : Type} `{!EqDecision A} (a b : option A) : bool :=
  match a, b with Some x, Some y => bool_decide (x = y) | _, _ => false end.

Section Service.
Context (uuid4 : nat → uuid) (now : datetime) (s : tenancy_store).

(** The insert of a row under a new id, with the constraints of its table. *)
Definition insert_row {A : Type} (table : rbac_rows → gmap uuid A) (with_table : gmap uuid A → rbac_rows → rbac_rows)
    (violates : rbac_store → bool) (row : A) : RM uuid :=
  λ st, let id := uuid4 st.(rs_drawn) in
        if bool_decide (is_Some (table st.(rs_rows) !! id)) || violates st then (Raise RIntegrityError, rdraw st)
        else (Ok id, put_rows (with_table (<[id := row]> (table st.(rs_rows))) st.(rs_rows)) (rdraw st)).

Definition in_rows {A : Type} (f : rbac_rows → A) : RM A := λ st, (Ok (f st.(rs_rows)), st).
Definition require_rows (f : rbac_rows → bool) (e : rbac_error) : RM unit :=
  λ st, if f st.(rs_rows) then (Ok tt, st) else (Raise e, st).

(** Foreign keys. *)
Definition role_exists (st : rbac_store) (tenant_id role_id : uuid) : bool :=
  match st.(rs_roles) !! role_id with Some r => bool_decide (r.(ro_tenant_id) = tenant_id) | None => false end.
Definition permission_exists (st : rbac_store) (permission_id : uuid) : bool :=
  bool_decide (is_Some (st.(rs_rows).(rb_permissions) !! permission_id)).
Definition membership_users (r : rbac_rows) (tenant_id membership_id : uuid) : list uuid :=
  (λ p : uuid * uuid * TenantMembership, p.1.2) <$>
    filter (λ p : uuid * uuid * TenantMembership, p.1.1 = tenant_id ∧ p.2.(tm_id) = membership_id)
      (map_to_list r.(rb_memberships)).
Definition service_account_exists (r : rbac_rows) (tenant_id service_account_id : uuid) : bool :=
  bool_decide (is_Some (lock_service_account_status r tenant_id service_account_id)).

(** [get_user(...) is not None] *)
Definition user_exists (user_id : uuid) : bool := bool_decide (is_Some (s.(ts_platform).(ps_users) !! user_id)).

(** ** Permissions *)

Definition is_permission (resource action : string) (p : string * string) : bool := bool_decide (p = (resource, action)).

(** [_register_permission_in] *)
Definition register_permission_in (resource action : string) : RM uuid :=
  λ st,
    match find_row st.(rs_rows).(rb_permissions) (is_permission resource action) with
    | Some id => (Ok id, st)
    | None =>
        match insert_row rb_permissions with_permissions (λ _, false) (resource, action) st with
        | (Raise RIntegrityError, st') => (Raise RNoResultFound, st')
        | other => other
        end
    end.

Definition has_control (name : string) : bool := existsb is_control (lit name).

(** [register_permission] outside a transaction; [String(100)]. *)
Definition register_permission (resource action : string) : RM uuid :=
  if has_control resource || has_control action then throw InvalidPermissionNameError
  else λ st,
    match find_row st.(rs_rows).(rb_permissions) (is_permission resource action) with
    | Some id => (Ok id, st)
    | None =>
        on_integrity_error
          (transaction
             (if bool_decide (100 < String.length resource)%nat || bool_decide (100 < String.length action)%nat
              then throw RDataError
              else insert_row rb_permissions with_permissions (λ _, false) (resource, action)))
          (throw (DuplicatePermissionError resource action)) st
    end.

(** ** Authorization *)

(** [_principal] *)
Definition principal (c : caller) : option (uuid * PrincipalType * option uuid) :=
  match c with
  | UserCaller u => Some (u, PT_USER, None)
  | ServiceAccountCaller a t => Some (a, PT_SERVICE_ACCOUNT, Some t)
  | SystemCaller _ => None
  end.

(** A registered permission, held by [can()]. *)
Definition require_can (actor : uuid) (ty : PrincipalType) (actor_tenant_id : option uuid) (tenant_id : uuid)
    (resource action : string) (e : rbac_error) : RM unit :=
  do* _ := register_permission_in resource action in
  require_rows (λ r, can r now s actor tenant_id action resource ty actor_tenant_id false) e.
Definition require_user_can (user_id tenant_id : uuid) (resource action : string) (e : rbac_error) : RM unit :=
  require_can user_id PT_USER None tenant_id resource action e.

Definition authorize_caller (c : caller) (operation : string) (tenant_id : uuid) (resource action : string)
    (system_authorities : list SystemAuthority) : RM unit :=
  let refused := AuthorityNotAuthorizedError operation tenant_id in
  match c with
  | SystemCaller authority => lift (raise_if (negb (bool_decide (authority ∈ system_authorities))) refused)
  | UserCaller u => require_can u PT_USER None tenant_id resource action refused
  | ServiceAccountCaller a t => require_can a PT_SERVICE_ACCOUNT (Some t) tenant_id resource action refused
  end.

Definition require_active_user (user_id : uuid) (operation : string) (tenant_id : uuid) : RM unit :=
  lift (match s.(ts_platform).(ps_users) !! user_id with
        | None => Raise (InvalidPrincipalError PT_USER user_id)
        | Some active => raise_if (negb active) (AuthorityNotAuthorizedError operation tenant_id)
        end).

(** The permissions are held through roles, at the scope. *)
Definition reaches_all (r : rbac_rows) (user_id tenant_id : uuid) (permissions : list (string * string))
    (scope : RoleScope) : bool :=
  forallb (λ p : string * string, actor_reaches_tenant_at_scope r s user_id tenant_id p.2 p.1 scope) permissions.

(** [_require_no_amplification] *)
Definition require_no_amplification (c : caller) (operation : string) (tenant_id : uuid)
    (permissions : list (string * string)) (scope : RoleScope) : RM unit :=
  let refused := AuthorityNotAuthorizedError operation tenant_id in
  match c with
  | SystemCaller _ => ret tt
  | ServiceAccountCaller _ _ => throw refused
  | UserCaller u => require_rows (λ r, reaches_all r u tenant_id permissions scope) refused
  end.

(** [require_caller] with [(UserCaller,)] *)
Definition user_of (operation : string) (c : caller) : RM uuid :=
  match c with UserCaller u => ret u | _ => throw (RCallerTypeError operation) end.
Definition require_open (tenant_id : uuid) : RM unit :=
  lift (let* _ := of_registry (require_open_tenant s tenant_id) in Ok tt).

(** [guard.verify(session)] *)
Definition verify_guard (before : list (uuid * option uuid)) : RM unit :=
  λ st, match verify st.(rs_rows) now s before with
        | Some t => (Raise (LastTenantAdministratorError t), st)
        | None => (Ok tt, st)
        end.

(** ** Roles *)

Definition insert_role (tenant_id : uuid) (name : pystr) : RM uuid :=
  λ st, let id := uuid4 st.(rs_drawn) in
        if bool_decide (100 < length name)%nat then (Raise RDataError, rdraw st)
        else if bool_decide (is_Some (st.(rs_roles) !! id)) ||
                exists_row st.(rs_roles) (λ r, bool_decide (r.(ro_tenant_id) = tenant_id) && bool_decide (r.(ro_name) = name))
        then (Raise RIntegrityError, rdraw st)
        else (Ok id, put_roles (<[id := mkRole tenant_id name]> st.(rs_roles)) (rdraw st)).

Definition create_role (tenant_id : uuid) (name : pystr) (c : caller) : RM uuid :=
  if has_control_characters name then throw InvalidRoleNameError
  else
    do* _ := require_open tenant_id in
    on_integrity_error
      (transaction
         (do* _ := authorize_caller c "create_role" tenant_id "role" "create" [PROVISIONING] in
          do* id := insert_role tenant_id name in
          do* _ := record c tenant_id "role.create" id in
          ret id))
      (throw (DuplicateRoleNameError tenant_id name)).

Definition get_role (tenant_id role_id : uuid) : RM unit :=
  λ st, if role_exists st tenant_id role_id then (Ok tt, st) else (Raise (RoleNotFoundError tenant_id role_id), st).

(** The delete of a role, restricted by the rows that name it. *)
Definition role_is_named (r : rbac_rows) (tenant_id role_id : uuid) : bool :=
  exists_row r.(rb_role_permissions) (λ rp, bool_decide (rp.(rp_tenant_id) = tenant_id) && bool_decide (rp.(rp_role_id) = role_id)) ||
  exists_row r.(rb_membership_roles) (λ a, bool_decide (a.(ra_tenant_id) = tenant_id) && bool_decide (a.(ra_role_id) = role_id)) ||
  exists_row r.(rb_service_account_roles) (λ a, bool_decide (a.(ra_tenant_id) = tenant_id) && bool_decide (a.(ra_role_id) = role_id)).

Definition delete_role (tenant_id role_id : uuid) (c : caller) : RM unit :=
  transaction
    (do* _ := authorize_caller c "delete_role" tenant_id "role" "delete" [] in
     do* _ := get_role tenant_id role_id in
     do* _ := require_rows (λ r, negb (role_is_named r tenant_id role_id)) RIntegrityError in
     do* st := get in
     do* _ := put (put_roles (delete role_id st.(rs_roles)) st) in
     record c tenant_id "role.delete" role_id).

(** ** The permissions of a role *)

Definition is_grant (tenant_id role_id permission_id : uuid) (rp : RolePermission) : bool :=
  bool_decide (rp.(rp_tenant_id) = tenant_id) && bool_decide (rp.(rp_role_id) = role_id) &&
  bool_decide (rp.(rp_permission_id) = permission_id).

Definition insert_role_permission (tenant_id role_id permission_id : uuid) : RM uuid :=
  insert_row rb_role_permissions with_role_permissions
    (λ st, exists_row st.(rs_rows).(rb_role_permissions)
             (λ rp, bool_decide (rp.(rp_role_id) = role_id) && bool_decide (rp.(rp_permission_id) = permission_id)) ||
           negb (role_exists st tenant_id role_id) || negb (permission_exists st permission_id))
    (mkRolePermission tenant_id role_id permission_id).

(** [get_permission_by_id] *)
Definition get_permission_by_id (permission_id : uuid) : RM (string * string) :=
  λ st, match st.(rs_rows).(rb_permissions) !! permission_id with
        | Some p => (Ok p, st)
        | None => (Raise (PermissionNotFoundError permission_id), st)
        end.

Definition grant_permission (tenant_id role_id permission_id : uuid) (c : caller) : RM uuid :=
  do* _ := require_open tenant_id in
  do* permission := get_permission_by_id permission_id in
  on_integrity_error
    (transaction
       (do* _ := authorize_caller c "grant_permission" tenant_id "role_permission" "grant" [PROVISIONING] in
        do* _ := require_no_amplification c "grant_permission" tenant_id [permission] SELF in
        do* id := insert_role_permission tenant_id role_id permission_id in
        do* _ := record c tenant_id "role_permission.grant" role_id in
        ret id))
    (do* existing := in_rows (λ r, find_row r.(rb_role_permissions) (is_grant tenant_id role_id permission_id)) in
     throw (if existing then DuplicatePermissionGrantError role_id permission_id else RoleNotFoundError tenant_id role_id)).

(** In the transaction of its caller, the permission upgrade. *)
Definition grant_registered_permission_to_role (tenant_id role_id permission_id : uuid) (c : caller) : RM bool :=
  let refused := AuthorityNotAuthorizedError "grant_registered_permission_to_role" tenant_id in
  if negb (bool_decide (c = SystemCaller PERMISSION_UPGRADE)) then throw refused
  else
    do* permission := get_permission_by_id permission_id in
    if is_authority_changing permission.1 permission.2 then throw refused
    else
      do* _ := get_role tenant_id role_id in
      do* existing := in_rows (λ r, find_row r.(rb_role_permissions) (is_grant tenant_id role_id permission_id)) in
      match existing with
      | Some _ => ret false
      | None =>
          do* _ := insert_role_permission tenant_id role_id permission_id in
          do* _ := record c tenant_id "role_permission.grant" role_id in
          ret true
      end.

(** The users who hold the role in the tenant. *)
Definition role_holders (r : rbac_rows) (tenant_id role_id : uuid) : list uuid :=
  filter (λ p : uuid * RoleAssignment, p.2.(ra_tenant_id) = tenant_id ∧ p.2.(ra_role_id) = role_id)
      (map_to_list r.(rb_membership_roles)) ≫=
    λ p, membership_users r tenant_id p.2.(ra_holder_id).

(** A change that takes authority from users, under the administrator guard. *)
Definition with_administrator_guard (tenant_id : uuid) (affected : rbac_rows → list uuid) (change : RM unit) : RM unit :=
  do* before := in_rows (λ r, guard_last_administrator r now s tenant_id (affected r)) in
  do* _ := change in
  verify_guard before.

Definition revoke_permission (tenant_id role_id permission_id : uuid) (c : caller) : RM unit :=
  transaction
    (do* _ := authorize_caller c "revoke_permission" tenant_id "role_permission" "revoke" [] in
     do* existing := in_rows (λ r, find_row r.(rb_role_permissions) (is_grant tenant_id role_id permission_id)) in
     match existing with
     | None => ret tt
     | Some id =>
         do* _ := with_administrator_guard tenant_id (λ r, role_holders r tenant_id role_id)
                    (update_rows (λ r, with_role_permissions (delete id r.(rb_role_permissions)) r)) in
         record c tenant_id "role_permission.revoke" role_id
     end).

(** [_list_role_permissions] *)
Definition list_role_permissions (r : rbac_rows) (tenant_id role_id : uuid) : list (string * string) :=
  omap (λ p : uuid * RolePermission, r.(rb_permissions) !! p.2.(rp_permission_id))
    (filter (λ p : uuid * RolePermission, p.2.(rp_tenant_id) = tenant_id ∧ p.2.(rp_role_id) = role_id)
       (map_to_list r.(rb_role_permissions))).

(** ** Assignments *)

Definition is_assignment (tenant_id holder_id role_id : uuid) (a : RoleAssignment) : bool :=
  bool_decide (a.(ra_tenant_id) = tenant_id) && bool_decide (a.(ra_holder_id) = holder_id) &&
  bool_decide (a.(ra_role_id) = role_id).
Definition same_assignment (holder_id role_id : uuid) (a : RoleAssignment) : bool :=
  bool_decide (a.(ra_holder_id) = holder_id) && bool_decide (a.(ra_role_id) = role_id).

Definition insert_assignment (tenant_id membership_id role_id : uuid) (scope : RoleScope) : RM uuid :=
  insert_row rb_membership_roles with_membership_roles
    (λ st, exists_row st.(rs_rows).(rb_membership_roles) (same_assignment membership_id role_id) ||
           bool_decide (membership_users st.(rs_rows) tenant_id membership_id = []) ||
           negb (role_exists st tenant_id role_id))
    (mkAssignment tenant_id membership_id role_id scope).
Definition insert_account_assignment (tenant_id service_account_id role_id : uuid) (scope : RoleScope) : RM uuid :=
  insert_row rb_service_account_roles with_service_account_roles
    (λ st, exists_row st.(rs_rows).(rb_service_account_roles) (same_assignment service_account_id role_id) ||
           negb (service_account_exists st.(rs_rows) tenant_id service_account_id) ||
           negb (role_exists st tenant_id role_id))
    (mkAssignment tenant_id service_account_id role_id scope).

(** [_insert_membership_role] *)
Definition insert_membership_role (tenant_id membership_id role_id : uuid) (scope : RoleScope) (c : caller)
    (authorize : RM unit) : RM uuid :=
  on_integrity_error
    (transaction
       (do* _ := authorize in
        do* id := insert_assignment tenant_id membership_id role_id scope in
        do* _ := record c tenant_id "membership_role.create" membership_id in
        ret id))
    (do* existing := in_rows (λ r, find_row r.(rb_membership_roles) (is_assignment tenant_id membership_id role_id)) in
     match existing with
     | Some _ => throw (DuplicateRoleAssignmentError membership_id role_id)
     | None => do* _ := get_role tenant_id role_id in throw (MembershipNotFoundError tenant_id membership_id)
     end).

Definition assign_role (tenant_id membership_id role_id : uuid) (scope : RoleScope) (c : caller) : RM uuid :=
  do* u := user_of "assign_role" c in
  do* _ := require_open tenant_id in
  let refused := RoleAssignmentNotAuthorizedError u tenant_id in
  insert_membership_role tenant_id membership_id role_id scope c
    (do* _ := require_user_can u tenant_id "membership_role" "create" refused in
     require_rows (λ r, reaches_all r u tenant_id (list_role_permissions r tenant_id role_id) scope) refused).

Definition assign_first_role_for_new_tenant (tenant_id membership_id role_id : uuid) (scope : RoleScope) (c : caller) :
    RM uuid :=
  match c with
  | SystemCaller PROVISIONING =>
      do* _ := require_open tenant_id in
      insert_membership_role tenant_id membership_id role_id scope c (ret tt)
  | SystemCaller _ => throw (AuthorityNotAuthorizedError "assign_first_role_for_new_tenant" tenant_id)
  | _ => throw (RCallerTypeError "assign_first_role_for_new_tenant")
  end.

Definition remove_role (tenant_id membership_id role_id : uuid) (c : caller) : RM unit :=
  transaction
    (do* _ := authorize_caller c "remove_role" tenant_id "membership_role" "delete" [] in
     do* existing := in_rows (λ r, find_row r.(rb_membership_roles) (is_assignment tenant_id membership_id role_id)) in
     match existing with
     | None => ret tt
     | Some id =>
         do* _ := with_administrator_guard tenant_id (λ r, membership_users r tenant_id membership_id)
                    (update_rows (λ r, with_membership_roles (delete id r.(rb_membership_roles)) r)) in
         record c tenant_id "membership_role.delete" membership_id
     end).

Definition assign_service_account_role (tenant_id service_account_id role_id : uuid) (scope : RoleScope) (c : caller) :
    RM uuid :=
  do* u := user_of "assign_service_account_role" c in
  do* _ := require_open tenant_id in
  do* _ := require_rows (λ r, service_account_exists r tenant_id service_account_id)
             (InvalidPrincipalError PT_SERVICE_ACCOUNT service_account_id) in
  do* _ := get_role tenant_id role_id in
  let refused := ServiceAccountRoleNotAuthorizedError u tenant_id in
  on_integrity_error
    (transaction
       (do* _ := require_user_can u tenant_id "service_account_role" "create" refused in
        do* _ := require_rows (λ r, reaches_all r u tenant_id (list_role_permissions r tenant_id role_id) scope) refused in
        do* id := insert_account_assignment tenant_id service_account_id role_id scope in
        do* _ := record c tenant_id "service_account_role.create" id in
        ret id))
    (throw (DuplicateServiceAccountRoleAssignmentError service_account_id role_id)).

Definition remove_service_account_role (tenant_id service_account_id role_id : uuid) (c : caller) : RM unit :=
  transaction
    (do* _ := authorize_caller c "remove_service_account_role" tenant_id "service_account_role" "delete" [] in
     do* existing := in_rows (λ r, find_row r.(rb_service_account_roles) (is_assignment tenant_id service_account_id role_id)) in
     match existing with
     | None => ret tt
     | Some id =>
         do* _ := update_rows (λ r, with_service_account_roles (delete id r.(rb_service_account_roles)) r) in
         record c tenant_id "service_account_role.delete" id
     end).

(** ** Delegations *)

(** [uq_delegation_grants_active_unique]: the two delegate columns are part of
    the key, and one of them is always NULL. *)
Definition delegation_conflicts (d d' : DelegationGrant) : bool :=
  bool_decide (d.(dg_tenant_id) = d'.(dg_tenant_id)) && bool_decide (d.(dg_delegate_type) = d'.(dg_delegate_type)) &&
  sql_eq d.(dg_delegate_principal_id) d'.(dg_delegate_principal_id) &&
  sql_eq d.(dg_delegate_service_account_id) d'.(dg_delegate_service_account_id) &&
  bool_decide (d.(dg_scope_mode) = d'.(dg_scope_mode)) && bool_decide (d.(dg_permission_id) = d'.(dg_permission_id)) &&
  bool_decide (d.(dg_revoked_at) = None) && bool_decide (d'.(dg_revoked_at) = None).

Definition insert_delegation_row (d : DelegationGrant) : RM uuid :=
  insert_row rb_delegations with_delegations
    (λ st, exists_row st.(rs_rows).(rb_delegations) (delegation_conflicts d) ||
           negb (permission_exists st d.(dg_permission_id))) d.

(** The authorization and the insert both kinds of delegation share. *)
Definition insert_delegation (u : uuid) (permission : string * string) (d : DelegationGrant) (c : caller) : RM uuid :=
  let refused := DelegationNotAuthorizedError u d.(dg_tenant_id) in
  transaction
    (do* _ := require_user_can u d.(dg_tenant_id) "delegation_grant" "create" refused in
     do* _ := require_rows (λ r, actor_reaches_tenant_at_scope r s u d.(dg_tenant_id) permission.2 permission.1
                                   d.(dg_scope_mode)) refused in
     do* id := insert_delegation_row d in
     do* _ := record c d.(dg_tenant_id) "delegation.create" id in
     ret id).

Definition check_time_range (starts_at : datetime) (expires_at : option datetime) : RM unit :=
  lift (match expires_at with
        | Some e => raise_if (e <=? starts_at) (InvalidDelegationTimeRangeError starts_at e)
        | None => Ok tt
        end).

Definition create_delegation (c : caller) (delegate_user_id tenant_id : uuid) (scope_mode : RoleScope)
    (permission_id : uuid) (starts_at expires_at : option datetime) (allow_redelegate : bool) : RM uuid :=
  do* u := user_of "create_delegation" c in
  do* _ := require_open tenant_id in
  do* _ := lift (raise_if (negb (user_exists u)) (InvalidPrincipalError PT_USER u)) in
  do* _ := lift (raise_if (negb (user_exists delegate_user_id)) (InvalidPrincipalError PT_USER delegate_user_id)) in
  do* permission := get_permission_by_id permission_id in
  let resolved_starts_at := default now starts_at in
  do* _ := check_time_range resolved_starts_at expires_at in
  insert_delegation u permission
    (mkDelegation tenant_id (Some u) PT_USER (Some delegate_user_id) None scope_mode permission_id resolved_starts_at
       expires_at None allow_redelegate) c.

Definition create_delegation_to_service_account (c : caller) (service_account_id service_account_tenant_id tenant_id : uuid)
    (scope_mode : RoleScope) (permission_id : uuid) (starts_at expires_at : option datetime) : RM uuid :=
  do* u := user_of "create_delegation_to_service_account" c in
  do* _ := require_open tenant_id in
  do* _ := lift (raise_if (negb (user_exists u)) (InvalidPrincipalError PT_USER u)) in
  do* _ := require_rows (λ r, service_account_exists r service_account_tenant_id service_account_id)
             (InvalidPrincipalError PT_SERVICE_ACCOUNT service_account_id) in
  do* permission := get_permission_by_id permission_id in
  let resolved_starts_at := default now starts_at in
  do* _ := check_time_range resolved_starts_at expires_at in
  insert_delegation u permission
    (mkDelegation tenant_id (Some u) PT_SERVICE_ACCOUNT None (Some service_account_id) scope_mode permission_id
       resolved_starts_at expires_at None false) c.

Definition revoked_delegation (d : DelegationGrant) : DelegationGrant :=
  mkDelegation d.(dg_tenant_id) d.(dg_delegator_id) d.(dg_delegate_type) d.(dg_delegate_principal_id)
    d.(dg_delegate_service_account_id) d.(dg_scope_mode) d.(dg_permission_id) d.(dg_starts_at) d.(dg_expires_at)
    (Some now) d.(dg_allow_redelegate).

(** The row, if it is the tenant's; [session.get] under row-level security. *)
Definition tenant_row {A : Type} (table : rbac_rows → gmap uuid A) (tenant : A → uuid) (tenant_id id : uuid)
    (e : rbac_error) : RM A :=
  λ st, match table st.(rs_rows) !! id with
        | Some row => if bool_decide (tenant row = tenant_id) then (Ok row, st) else (Raise e, st)
        | None => (Raise e, st)
        end.

Definition revoke_delegation (c : caller) (tenant_id delegation_grant_id : uuid) : RM DelegationGrant :=
  do* u := user_of "revoke_delegation" c in
  transaction
    (do* row := tenant_row rb_delegations dg_tenant_id tenant_id delegation_grant_id
                  (DelegationNotFoundError tenant_id delegation_grant_id) in
     do* _ := if bool_decide (row.(dg_delegator_id) = Some u) then ret tt
              else require_user_can u tenant_id "delegation_grant" "revoke" (DelegationNotAuthorizedError u tenant_id) in
     if bool_decide (is_Some row.(dg_revoked_at)) then ret row
     else
       let delegate := if bool_decide (row.(dg_delegate_type) = PT_USER) then option_list row.(dg_delegate_principal_id) else [] in
       do* _ := with_administrator_guard tenant_id (λ _, delegate)
                  (update_rows (λ r, with_delegations
                     (<[delegation_grant_id := revoked_delegation row]> r.(rb_delegations)) r)) in
       do* _ := record c tenant_id "delegation.revoke" delegation_grant_id in
       ret (revoked_delegation row)).

(** ** Denies *)

(** [uq_deny_grants_active_unique] *)
Definition deny_conflicts (d d' : DenyGrant) : bool :=
  bool_decide (d.(dn_tenant_id) = d'.(dn_tenant_id)) && bool_decide (d.(dn_principal_type) = d'.(dn_principal_type)) &&
  sql_eq d.(dn_principal_id) d'.(dn_principal_id) &&
  sql_eq d.(dn_principal_service_account_id) d'.(dn_principal_service_account_id) &&
  bool_decide (d.(dn_scope_mode) = d'.(dn_scope_mode)) && bool_decide (d.(dn_permission_id) = d'.(dn_permission_id)) &&
  bool_decide (d.(dn_revoked_at) = None) && bool_decide (d'.(dn_revoked_at) = None).

Definition insert_deny (d : DenyGrant) : RM uuid :=
  insert_row rb_denies with_denies
    (λ st, exists_row st.(rs_rows).(rb_denies) (deny_conflicts d) || negb (permission_exists st d.(dn_permission_id))) d.

Definition create_deny (c : caller) (principal_user_id tenant_id : uuid) (scope_mode : RoleScope) (permission_id : uuid) :
    RM uuid :=
  do* u := user_of "create_deny" c in
  do* _ := require_open tenant_id in
  do* _ := lift (raise_if (negb (user_exists principal_user_id)) (InvalidPrincipalError PT_USER principal_user_id)) in
  do* _ := get_permission_by_id permission_id in
  transaction
    (do* _ := require_user_can u tenant_id "deny_grant" "create" (DenyNotAuthorizedError u tenant_id) in
     do* before := in_rows (λ r, guard_last_administrator r now s tenant_id [principal_user_id]) in
     do* _ := lift (raise_if (negb (user_exists principal_user_id)) (InvalidPrincipalError PT_USER principal_user_id)) in
     do* id := insert_deny (mkDeny tenant_id PT_USER (Some principal_user_id) None scope_mode permission_id None) in
     do* _ := verify_guard before in
     do* _ := record c tenant_id "deny.create" id in
     ret id).

Definition create_deny_for_service_account (c : caller) (service_account_id service_account_tenant_id tenant_id : uuid)
    (scope_mode : RoleScope) (permission_id : uuid) : RM uuid :=
  let invalid := InvalidPrincipalError PT_SERVICE_ACCOUNT service_account_id in
  do* u := user_of "create_deny_for_service_account" c in
  do* _ := require_open tenant_id in
  do* _ := require_rows (λ r, service_account_exists r service_account_tenant_id service_account_id) invalid in
  do* _ := get_permission_by_id permission_id in
  transaction
    (do* _ := require_user_can u tenant_id "deny_grant" "create" (DenyNotAuthorizedError u tenant_id) in
     do* _ := require_rows (λ r, service_account_exists r service_account_tenant_id service_account_id) invalid in
     do* id := insert_deny (mkDeny tenant_id PT_SERVICE_ACCOUNT None (Some service_account_id) scope_mode permission_id None) in
     do* _ := record c tenant_id "deny.create" id in
     ret id).

Definition revoked_deny (d : DenyGrant) : DenyGrant :=
  mkDeny d.(dn_tenant_id) d.(dn_principal_type) d.(dn_principal_id) d.(dn_principal_service_account_id)
    d.(dn_scope_mode) d.(dn_permission_id) (Some now).

Definition revoke_deny (c : caller) (tenant_id deny_grant_id : uuid) : RM DenyGrant :=
  do* u := user_of "revoke_deny" c in
  transaction
    (do* row := tenant_row rb_denies dn_tenant_id tenant_id deny_grant_id (DenyNotFoundError tenant_id deny_grant_id) in
     do* _ := require_user_can u tenant_id "deny_grant" "revoke" (DenyNotAuthorizedError u tenant_id) in
     if bool_decide (is_Some row.(dn_revoked_at)) then ret row
     else
       do* _ := update_rows (λ r, with_denies (<[deny_grant_id := revoked_deny row]> r.(rb_denies)) r) in
       do* _ := record c tenant_id "deny.revoke" deny_grant_id in
       ret (revoked_deny row)).

(** ** Support access *)

Definition MAX_SUPPORT_ACCESS_DURATION : timedelta := 24 * 3600 * 1000000.
Definition MAX_SUPPORT_ACCESS_REASON_LENGTH : nat := 1000.

(** [uq_support_access_requests_live_unique] *)
Definition support_conflicts (d d' : SupportAccessRequest) : bool :=
  bool_decide (d.(sr_tenant_id) = d'.(sr_tenant_id)) && bool_decide (d.(sr_requester_user_id) = d'.(sr_requester_user_id)) &&
  bool_decide (d.(sr_scope_mode) = d'.(sr_scope_mode)) &&
  bool_decide (d'.(sr_denied_at) = None) && bool_decide (d'.(sr_revoked_at) = None).

Definition create_support_access_request (c : caller) (tenant_id : uuid) (reason : pystr) (requested_expires_at : datetime)
    (scope_mode : RoleScope) (requested_starts_at : option datetime) : RM uuid :=
  do* u := user_of "create_support_access_request" c in
  do* _ := require_open tenant_id in
  if bool_decide (strip reason = [])
  then throw (InvalidSupportAccessTimeRangeError "reason must be a non-empty string.")
  else if bool_decide (MAX_SUPPORT_ACCESS_REASON_LENGTH < length reason)%nat
  then throw (InvalidSupportAccessTimeRangeError "reason exceeds 1000 characters.")
  else
    let starts := default now requested_starts_at in
    if requested_expires_at <=? starts
    then throw (InvalidSupportAccessTimeRangeError "requested_expires_at must be after requested_starts_at.")
    else if MAX_SUPPORT_ACCESS_DURATION <? requested_expires_at - starts
    then throw (InvalidSupportAccessTimeRangeError "requested support access window exceeds the maximum allowed duration.")
    else
      let request := mkSupport tenant_id u scope_mode starts requested_expires_at None None None reason None None None in
      on_integrity_error
        (transaction
           (do* _ := require_active_user u "create_support_access_request" tenant_id in
            do* id := if bool_decide (0%N ∈ reason) then throw RDataError
                      else insert_row rb_support with_support
                             (λ st, exists_row st.(rs_rows).(rb_support) (support_conflicts request)) request in
            do* _ := record c tenant_id "support_access.request" id in
            ret id))
        (throw (DuplicateSupportAccessRequestError tenant_id u)).

Definition decided (r : SupportAccessRequest) : bool :=
  bool_decide (is_Some r.(sr_approved_at)) || bool_decide (is_Some r.(sr_denied_at)).

Definition approved (u : uuid) (r : SupportAccessRequest) : SupportAccessRequest :=
  mkSupport r.(sr_tenant_id) r.(sr_requester_user_id) r.(sr_scope_mode) r.(sr_starts_at) r.(sr_expires_at)
    (Some now) r.(sr_denied_at) r.(sr_revoked_at) r.(sr_reason) (Some u) r.(sr_denied_by_user_id) r.(sr_revoked_by_user_id).
Definition denied (u : uuid) (r : SupportAccessRequest) : SupportAccessRequest :=
  mkSupport r.(sr_tenant_id) r.(sr_requester_user_id) r.(sr_scope_mode) r.(sr_starts_at) r.(sr_expires_at)
    r.(sr_approved_at) (Some now) r.(sr_revoked_at) r.(sr_reason) r.(sr_approved_by_user_id) (Some u) r.(sr_revoked_by_user_id).
Definition revoked_support (by_user : option uuid) (r : SupportAccessRequest) : SupportAccessRequest :=
  mkSupport r.(sr_tenant_id) r.(sr_requester_user_id) r.(sr_scope_mode) r.(sr_starts_at) r.(sr_expires_at)
    r.(sr_approved_at) r.(sr_denied_at) (Some now) r.(sr_reason) r.(sr_approved_by_user_id) r.(sr_denied_by_user_id) by_user.

(** [get_support_access_request], [_lock_support_access_request] *)
Definition get_support_access_request (tenant_id request_id : uuid) : RM SupportAccessRequest :=
  tenant_row rb_support sr_tenant_id tenant_id request_id (SupportAccessNotFoundError tenant_id request_id).
Definition put_support (request_id : uuid) (row : SupportAccessRequest) : RM unit :=
  update_rows (λ r, with_support (<[request_id := row]> r.(rb_support)) r).

(** Approval and denial: both refuse a decided request, before and under the lock. *)
Definition approve_support_access (c : caller) (tenant_id request_id : uuid) : RM SupportAccessRequest :=
  do* u := user_of "approve_support_access" c in
  do* _ := require_open tenant_id in
  do* request := get_support_access_request tenant_id request_id in
  do* _ := lift (raise_if (decided request) (SupportAccessAlreadyDecidedError request_id)) in
  do* _ := lift (raise_if (bool_decide (u = request.(sr_requester_user_id))) (SupportAccessSelfApprovalError u request_id)) in
  transaction
    (do* _ := require_user_can u tenant_id "support_access_request" "approve" (SupportAccessNotAuthorizedError u tenant_id) in
     do* row := get_support_access_request tenant_id request_id in
     do* _ := lift (raise_if (decided row) (SupportAccessAlreadyDecidedError request_id)) in
     do* _ := put_support request_id (approved u row) in
     do* _ := record c tenant_id "support_access.approve" request_id in
     ret (approved u row)).

Definition deny_support_access (c : caller) (tenant_id request_id : uuid) : RM SupportAccessRequest :=
  do* u := user_of "deny_support_access" c in
  do* request := get_support_access_request tenant_id request_id in
  do* _ := lift (raise_if (decided request) (SupportAccessAlreadyDecidedError request_id)) in
  transaction
    (do* _ := require_user_can u tenant_id "support_access_request" "deny" (SupportAccessNotAuthorizedError u tenant_id) in
     do* row := get_support_access_request tenant_id request_id in
     do* _ := lift (raise_if (decided row) (SupportAccessAlreadyDecidedError request_id)) in
     do* _ := put_support request_id (denied u row) in
     do* _ := record c tenant_id "support_access.deny" request_id in
     ret (denied u row)).

Definition revoke_support_access (c : caller) (tenant_id request_id : uuid) : RM SupportAccessRequest :=
  do* u := user_of "revoke_support_access" c in
  do* request := get_support_access_request tenant_id request_id in
  do* _ := lift (raise_if (bool_decide (request.(sr_approved_at) = None)) (SupportAccessNotApprovedError request_id)) in
  transaction
    (do* _ := require_user_can u tenant_id "support_access_request" "revoke" (SupportAccessNotAuthorizedError u tenant_id) in
     do* row := get_support_access_request tenant_id request_id in
     if bool_decide (is_Some row.(sr_revoked_at)) then ret row
     else
       do* _ := put_support request_id (revoked_support (Some u) row) in
       do* _ := record c tenant_id "support_access.revoke" request_id in
       ret (revoked_support (Some u) row)).

(** support_status.py: the status a request's timestamps stand for. *)
Inductive SupportAccessStatus : Type := S_REQUESTED | S_APPROVED | S_ACTIVE | S_EXPIRED | S_REVOKED | S_DENIED.
#[export] Instance SupportAccessStatus_eq_dec : EqDecision SupportAccessStatus.
Proof. solve_decision. Defined.

Definition compute_support_access_status (r : SupportAccessRequest) : SupportAccessStatus :=
  if bool_decide (is_Some r.(sr_revoked_at)) then S_REVOKED
  else if bool_decide (is_Some r.(sr_denied_at)) then S_DENIED
  else if bool_decide (r.(sr_approved_at) = None) then S_REQUESTED
  else if r.(sr_expires_at) <=? now then S_EXPIRED
  else if r.(sr_starts_at) <=? now then S_ACTIVE
  else S_APPROVED.

(** ** Purge *)

Definition require_purging (tenant_id : uuid) : RM unit :=
  lift (let* _ := of_registry (require_purging_tenant s tenant_id) in Ok tt).

(** The requests of the tenant that give access. *)
Definition live_support (tenant_id : uuid) (r : SupportAccessRequest) : bool :=
  bool_decide (r.(sr_tenant_id) = tenant_id) && bool_decide (is_Some r.(sr_approved_at)) &&
  bool_decide (r.(sr_denied_at) = None) && bool_decide (r.(sr_revoked_at) = None).

Fixpoint record_all (c : caller) (tenant_id : uuid) (action : string) (ids : list uuid) : RM unit :=
  match ids with
  | [] => ret tt
  | id :: ids => do* _ := record c tenant_id action id in record_all c tenant_id action ids
  end.

Definition revoke_tenant_support_access (tenant_id : uuid) (c : caller) : RM (gset uuid) :=
  do* by_user := match c with
                 | UserCaller u => ret (Some u)
                 | SystemCaller TENANT_PURGE => ret None
                 | SystemCaller _ => throw (AuthorityNotAuthorizedError "revoke_tenant_support_access" tenant_id)
                 | ServiceAccountCaller _ _ => throw (RCallerTypeError "revoke_tenant_support_access")
                 end in
  do* _ := require_purging tenant_id in
  transaction
    (do* ids := in_rows (λ r, (filter (λ p : uuid * SupportAccessRequest, live_support tenant_id p.2 = true)
                                 (map_to_list r.(rb_support))).*1) in
     do* _ := update_rows (λ r, with_support
                ((λ q, if live_support tenant_id q then revoked_support by_user q else q) <$> r.(rb_support)) r) in
     do* _ := record_all c tenant_id "support_access.revoke" (merge_sort N.le ids) in
     ret (list_to_set ids)).

Record RbacPurgeResult : Type := mkPurgeResult {
  pr_membership_roles : nat; pr_role_permissions : nat; pr_service_account_roles : nat;
  pr_deny_grants : nat; pr_delegation_grants : nat; pr_roles : nat;
  pr_retained_delegation_grant_ids : gset uuid;
  pr_retained_delegate_service_account_ids : gset uuid;
}.

Definition of_tenant_rows {A : Type} (tenant : A → uuid) (tenant_id : uuid) (m : gmap uuid A) : gmap uuid A :=
  filter (λ p : uuid * A, tenant p.2 = tenant_id) m.
Definition not_of_tenant {A : Type} (tenant : A → uuid) (tenant_id : uuid) (m : gmap uuid A) : gmap uuid A :=
  filter (λ p : uuid * A, tenant p.2 ≠ tenant_id) m.

(** A delegation of the purged tenant: revoked and, unless the audit trail names
    it, deleted. *)
Definition purge_delegations (tenant_id : uuid) (retained : gset uuid) (m : gmap uuid DelegationGrant) : gmap uuid DelegationGrant :=
  map_imap (λ id d,
    if bool_decide (d.(dg_tenant_id) = tenant_id)
    then if bool_decide (id ∈ retained)
         then Some (if bool_decide (d.(dg_revoked_at) = None) then revoked_delegation d else d)
         else None
    else Some d) m.

(** [retained]: the delegations the tenant's audit entries name
    ([referenced_delegation_grant_ids]). *)
Definition purge_tenant_authorization (tenant_id : uuid) (retained : gset uuid) : RM RbacPurgeResult :=
  do* _ := require_purging tenant_id in
  transaction
    (λ st,
       let r := st.(rs_rows) in
       let grants := of_tenant_rows dg_tenant_id tenant_id r.(rb_delegations) in
       let kept := filter (λ p : uuid * DelegationGrant, p.1 ∈ retained) grants in
       let result := mkPurgeResult
         (size (of_tenant_rows ra_tenant_id tenant_id r.(rb_membership_roles)))
         (size (of_tenant_rows rp_tenant_id tenant_id r.(rb_role_permissions)))
         (size (of_tenant_rows ra_tenant_id tenant_id r.(rb_service_account_roles)))
         (size (of_tenant_rows dn_tenant_id tenant_id r.(rb_denies)))
         (size grants - size kept)
         (size (of_tenant_rows ro_tenant_id tenant_id st.(rs_roles)))
         retained
         (list_to_set (omap (λ p : uuid * DelegationGrant, p.2.(dg_delegate_service_account_id)) (map_to_list kept))) in
       let r' := mkRbac r.(rb_memberships) r.(rb_service_accounts) r.(rb_permissions)
         (not_of_tenant rp_tenant_id tenant_id r.(rb_role_permissions))
         (not_of_tenant ra_tenant_id tenant_id r.(rb_membership_roles))
         (not_of_tenant ra_tenant_id tenant_id r.(rb_service_account_roles))
         (purge_delegations tenant_id retained r.(rb_delegations))
         (not_of_tenant dn_tenant_id tenant_id r.(rb_denies)) r.(rb_support) in
       (Ok result, put_roles (not_of_tenant ro_tenant_id tenant_id st.(rs_roles)) (put_rows r' st))).

Definition purge_user_membership_roles_in_tenant (tenant_id membership_id : uuid) : RM nat :=
  transaction
    (λ st,
       let mine (a : RoleAssignment) := bool_decide (a.(ra_tenant_id) = tenant_id) && bool_decide (a.(ra_holder_id) = membership_id) in
       let m := st.(rs_rows).(rb_membership_roles) in
       (Ok (size (filter (λ p : uuid * RoleAssignment, mine p.2 = true) m)),
        put_rows (with_membership_roles (filter (λ p : uuid * RoleAssignment, mine p.2 = false) m) st.(rs_rows)) st)).
End Service.
