(* ===== verification/RbacIntegrity.v ===== *)
(** * The rows of authorization stay consistent

    Every row names a role and a permission that exist, a role's rows are of the
    role's own tenant, the permission catalogue has no duplicates, and a
    support-access request is never both approved and denied, is approved only by
    somebody other than its requester (who may deny it), and lasts at most a day:
    [rwf], kept by every operation. *)

From S2P Require Import Prelude StoreLogic PyStr TenantLifecycle PlatformAuthority PlatformService PlatformProofs TenantHierarchy RbacDecision RbacProofs RbacService.

(** ** The invariant *)

Definition role_of (roles : gmap uuid Role) (tenant_id role_id : uuid) : Prop :=
  ∃ r, roles !! role_id = Some r ∧ r.(ro_tenant_id) = tenant_id.

(** Exactly the id column of the principal's type is set. *)
Definition paired (ty : PrincipalType) (user_id service_account_id : option uuid) : Prop :=
  match ty with
  | PT_USER => is_Some user_id ∧ service_account_id = None
  | PT_SERVICE_ACCOUNT => user_id = None ∧ is_Some service_account_id
  | PT_SYSTEM => user_id = None ∧ service_account_id = None
  end.

Record support_ok (r : SupportAccessRequest) : Prop := {
  so_approved : is_Some r.(sr_approved_at) ↔ is_Some r.(sr_approved_by_user_id);
  so_denied : is_Some r.(sr_denied_at) ↔ is_Some r.(sr_denied_by_user_id);
  so_once : r.(sr_approved_at) = None ∨ r.(sr_denied_at) = None;
  so_revoked : is_Some r.(sr_revoked_at) → is_Some r.(sr_approved_at);
  so_other : r.(sr_approved_by_user_id) ≠ Some r.(sr_requester_user_id);
  so_window : r.(sr_starts_at) < r.(sr_expires_at) ≤ r.(sr_starts_at) + MAX_SUPPORT_ACCESS_DURATION;
}.

Record rwf (r : rbac_rows) (roles : gmap uuid Role) : Prop := {
  rw_role_permission : ∀ i rp, r.(rb_role_permissions) !! i = Some rp →
    role_of roles rp.(rp_tenant_id) rp.(rp_role_id) ∧ is_Some (r.(rb_permissions) !! rp.(rp_permission_id));
  rw_membership_role : ∀ i a, r.(rb_membership_roles) !! i = Some a →
    role_of roles a.(ra_tenant_id) a.(ra_role_id) ∧ membership_users r a.(ra_tenant_id) a.(ra_holder_id) ≠ [];
  rw_service_account_role : ∀ i a, r.(rb_service_account_roles) !! i = Some a →
    role_of roles a.(ra_tenant_id) a.(ra_role_id) ∧ service_account_exists r a.(ra_tenant_id) a.(ra_holder_id) = true;
  rw_delegation : ∀ i d, r.(rb_delegations) !! i = Some d →
    is_Some (r.(rb_permissions) !! d.(dg_permission_id)) ∧
    paired d.(dg_delegate_type) d.(dg_delegate_principal_id) d.(dg_delegate_service_account_id);
  rw_deny : ∀ i d, r.(rb_denies) !! i = Some d →
    is_Some (r.(rb_permissions) !! d.(dn_permission_id)) ∧
    paired d.(dn_principal_type) d.(dn_principal_id) d.(dn_principal_service_account_id);
  rw_catalogue : ∀ i j p, r.(rb_permissions) !! i = Some p → r.(rb_permissions) !! j = Some p → i = j;
  rw_support : ∀ i q, r.(rb_support) !! i = Some q → support_ok q;
}.

Definition sound (st : rbac_store) : Prop := rwf st.(rs_rows) st.(rs_roles).

(** ** The primitives *)

Lemma role_exists_spec st t r : role_exists st t r = true ↔ role_of st.(rs_roles) t r.
Proof. unfold role_exists, role_of. destruct (_ !! r); [rewrite bool_decide_eq_true|]; naive_solver. Qed.

Lemma find_row_None {A} (m : gmap uuid A) p i x : find_row m p = None → m !! i = Some x → p x = false.
Proof.
  unfold find_row. intros H%fmap_None Hi. apply (find_none _ _ H (i, x)).
  by apply list_elem_of_In, elem_of_map_to_list.
Qed.
Lemma find_row_Some {A} (m : gmap uuid A) p i : find_row m p = Some i → ∃ x, m !! i = Some x ∧ p x = true.
Proof.
  unfold find_row. intros ([j x] & Hj & ->)%fmap_Some. apply find_some in Hj as [Hin%list_elem_of_In%elem_of_map_to_list Hp].
  by exists x.
Qed.

Lemma paired_dec_None ty u sa : paired ty u sa → u = None ∨ sa = None.
Proof. destruct ty; simpl; tauto. Qed.

(** Authorization registers the permission it asks for, and changes nothing else. *)
Definition registers (st st' : rbac_store) : Prop :=
  ∃ m n, st.(rs_rows).(rb_permissions) ⊆ m ∧
    st' = mkRbacStore (with_permissions m st.(rs_rows)) st.(rs_roles) st.(rs_events) n.
#[export] Instance registers_preorder : PreOrder registers.
Proof.
  split.
  - intros st. exists st.(rs_rows).(rb_permissions), st.(rs_drawn). split; [done|]. by destruct st as [[] ? ?].
  - intros st1 st2 st3 (m & n & Hm & ->) (m' & n' & Hm' & ->). exists m', n'. simpl in *. split; [|done]. by etrans.
Qed.

Lemma register_registers uuid4 re ac : keeps (E := rbac_error) registers (register_permission_in uuid4 re ac).
Proof.
  intros st. unfold register_permission_in. destruct (find_row _ _); [reflexivity|].
  assert (∀ n, registers st (mkRbacStore st.(rs_rows) st.(rs_roles) st.(rs_events) n)) as Hn.
  { intros n. exists st.(rs_rows).(rb_permissions), n. split; [done|]. by destruct st as [[] ? ?]. }
  unfold insert_row. destruct (_ || _)%bool eqn:E; [apply Hn|]. reflect_bools. apply eq_None_not_Some in H.
  eexists _, _. split; [|reflexivity]. by apply insert_subseteq.
Qed.
Lemma require_rows_registers f e : keeps (E := rbac_error) registers (require_rows f e).
Proof. intros st. unfold require_rows. by destruct (f _). Qed.
Lemma require_can_registers uuid4 now s a ty at_ t re ac e : keeps registers (require_can uuid4 now s a ty at_ t re ac e).
Proof. unfold require_can. keeps_steps; [apply register_registers|apply require_rows_registers]. Qed.
Lemma authorize_registers uuid4 now s c op t re ac sys : keeps registers (authorize_caller uuid4 now s c op t re ac sys).
Proof. destruct c; simpl; [apply require_can_registers..|]. keeps_steps. Qed.

(** An accepted authorization: the rows it decided on. *)
Lemma require_can_Ok uuid4 now s a ty at_ t re ac e st x st' :
  require_can uuid4 now s a ty at_ t re ac e st = (Ok x, st') →
  registers st st' ∧ can st'.(rs_rows) now s a t ac re ty at_ false = true.
Proof.
  intros H. split; [pose proof (require_can_registers uuid4 now s a ty at_ t re ac e st) as Hr; by rewrite H in Hr|].
  apply bind_Ok in H as (i & s1 & _ & H). unfold require_rows in H. destruct (can _ _ _ _ _ _ _ _ _ _) eqn:E; [|done].
  by injection H as _ <-.
Qed.

Lemma tenant_row_Ok {A} (table : rbac_rows → gmap uuid A) tn t i e st row st' :
  tenant_row table tn t i e st = (Ok row, st') → st' = st ∧ table st.(rs_rows) !! i = Some row ∧ tn row = t.
Proof.
  unfold tenant_row. destruct (table _ !! i) as [x|]; [|done]. destruct (bool_decide (tn x = t)) eqn:E; [|done].
  intros [= -> <-]. by reflect_bools.
Qed.

Lemma guarded_Ok now s t af f st x st' :
  with_administrator_guard now s t af (update_rows f) st = (Ok x, st') →
  st' = put_rows (f st.(rs_rows)) st ∧
  verify (f st.(rs_rows)) now s (guard_last_administrator st.(rs_rows) now s t (af st.(rs_rows))) = None.
Proof.
  intros H. apply bind_Ok in H as (b & s1 & [= <- <-] & H). apply bind_Ok in H as ([] & s1 & [= <-] & H).
  unfold verify_guard in H. simpl in H. destruct (verify _ _ _ _) eqn:E; [done|]. by injection H as _ <-.
Qed.

Section Keep.
Context (uuid4 : nat → uuid) (now : datetime) (s : tenancy_store).
Abbreviation holds := (keeps (E := rbac_error) (upholds sound)).

Lemma sound_insert_row {A} table with_table violates (row : A) :
  (∀ r roles st id, rwf r roles → st.(rs_rows) = r → st.(rs_roles) = roles → table r !! id = None → violates st = false →
     rwf (with_table (<[id := row]> (table r)) r) roles) →
  holds (insert_row uuid4 table with_table violates row).
Proof.
  intros H st Hst. unfold insert_row. destruct (_ || _)%bool eqn:E; [done|]. reflect_bools.
  apply (H st.(rs_rows) st.(rs_roles) st); try done. by apply eq_None_not_Some.
Qed.

Lemma sound_record c t a i : holds (record c t a i).
Proof. by intros st Hst. Qed.
Lemma sound_in_rows {A} (f : rbac_rows → A) : holds (in_rows f).
Proof. by intros st Hst. Qed.
Lemma sound_require f e : holds (require_rows f e).
Proof. intros st Hst. unfold require_rows. by destruct (f _). Qed.
Lemma sound_verify b : holds (verify_guard now s b).
Proof. intros st Hst. unfold verify_guard. by destruct (verify _ _ _ _). Qed.
Lemma sound_get_role t r : holds (get_role t r).
Proof. intros st Hst. unfold get_role. by destruct (role_exists _ _ _). Qed.
Lemma sound_get_permission p : holds (get_permission_by_id p).
Proof. intros st Hst. unfold get_permission_by_id. by destruct (_ !! p). Qed.
Lemma sound_user_of o c : holds (user_of o c).
Proof. by destruct c; intros st Hst. Qed.
Lemma sound_on_integrity {A} (m h : RM A) : holds m → holds h → holds (on_integrity_error m h).
Proof.
  intros Hm Hh st Hst. unfold on_integrity_error. specialize (Hm st Hst).
  destruct (m st) as [[a|[]] st']; try done. by apply Hh.
Qed.
Lemma sound_tenant_row {A} (table : rbac_rows → gmap uuid A) tn t i e : holds (tenant_row table tn t i e).
Proof. intros st Hst. unfold tenant_row. destruct (_ !! i); [|done]. by destruct (bool_decide _). Qed.

(** Rows that are only taken away. *)
Lemma rwf_fewer r roles rps mrs srs :
  (∀ i x, rps !! i = Some x → r.(rb_role_permissions) !! i = Some x) →
  (∀ i x, mrs !! i = Some x → r.(rb_membership_roles) !! i = Some x) →
  (∀ i x, srs !! i = Some x → r.(rb_service_account_roles) !! i = Some x) →
  rwf r roles →
  rwf (mkRbac r.(rb_memberships) r.(rb_service_accounts) r.(rb_permissions) rps mrs srs r.(rb_delegations) r.(rb_denies)
         r.(rb_support)) roles.
Proof. intros H1 H2 H3 []. split; simpl; eauto. Qed.

Lemma sound_update f : (∀ r roles, rwf r roles → rwf (f r) roles) → holds (update_rows f).
Proof. intros H st Hst. by apply H. Qed.

Lemma sound_register re ac : holds (register_permission_in uuid4 re ac).
Proof.
  intros st Hst. unfold register_permission_in. destruct (find_row _ _) eqn:E; [done|].
  unfold insert_row. destruct (_ || _)%bool eqn:Eo; [done|]. reflect_bools.
  apply eq_None_not_Some in H. set (id := uuid4 _) in *. destruct Hst. split; simpl; try done.
  - intros i rp Hi. destruct (rw_role_permission0 i rp Hi) as [? ?]. split; [done|]. by apply lookup_insert_is_Some'; right.
  - intros i d Hi. destruct (rw_delegation0 i d Hi) as [? ?]. split; [|done]. by apply lookup_insert_is_Some'; right.
  - intros i d Hi. destruct (rw_deny0 i d Hi) as [? ?]. split; [|done]. by apply lookup_insert_is_Some'; right.
  - assert (∀ i, ¬ rb_permissions (rs_rows st) !! i = Some (re, ac)) as Hno.
    { intros i Hi. pose proof (find_row_None _ _ _ _ E Hi) as Hf. unfold is_permission in Hf. by reflect_bools. }
    intros i j p Hi Hj. apply lookup_insert_Some in Hi as [[<- Hp]|[? Hi]], Hj as [[<- Hq]|[? Hj]]; [done| | |by eauto].
    + subst p. by destruct (Hno j).
    + subst p. by destruct (Hno i).
Qed.

(** ** Inserts: the constraints are what the invariant asks *)

Lemma sound_grant t ro pe : holds (insert_role_permission uuid4 t ro pe).
Proof.
  apply sound_insert_row. intros r roles st id Hr <- <- Hid
    [[_ Hro%negb_false_iff%role_exists_spec]%orb_false_elim Hpe%negb_false_iff%bool_decide_eq_true]%orb_false_elim. destruct Hr. split; simpl; try done.
  intros i rp [[<- <-]|[? Hi]]%lookup_insert_Some; [done|by eauto].
Qed.

Lemma sound_insert_assignment t m ro sc : holds (insert_assignment uuid4 t m ro sc).
Proof.
  apply sound_insert_row. intros r roles st id Hr <- <- Hid
    [[_ Hm%bool_decide_eq_false]%orb_false_elim Hro%negb_false_iff%role_exists_spec]%orb_false_elim. destruct Hr. split; simpl; try done.
  intros i x [[<- <-]|[? Hi]]%lookup_insert_Some; [done|by eauto].
Qed.
Lemma sound_insert_account_assignment t a ro sc : holds (insert_account_assignment uuid4 t a ro sc).
Proof.
  apply sound_insert_row. intros r roles st id Hr <- <- Hid
    [[_ Hsa%negb_false_iff]%orb_false_elim Hro%negb_false_iff%role_exists_spec]%orb_false_elim. destruct Hr. split; simpl; try done.
  intros i x [[<- <-]|[? Hi]]%lookup_insert_Some; [done|by eauto].
Qed.
Lemma sound_insert_delegation d :
  paired d.(dg_delegate_type) d.(dg_delegate_principal_id) d.(dg_delegate_service_account_id) →
  holds (insert_delegation_row uuid4 d).
Proof.
  intros Hp. apply sound_insert_row. intros r roles st id Hr <- <- Hid [_ Hpe%negb_false_iff%bool_decide_eq_true]%orb_false_elim.
  destruct Hr. split; simpl; try done. intros i d' [[<- <-]|[? Hi]]%lookup_insert_Some; [done|by eauto].
Qed.

Lemma sound_assign t m ro sc c au : holds au → holds (insert_membership_role uuid4 t m ro sc c au).
Proof.
  intros Hau. unfold insert_membership_role. apply sound_on_integrity.
  - keeps_steps; [done|apply sound_insert_assignment|apply sound_record].
  - apply keeps_bind; [apply _|apply sound_in_rows|]. intros []; keeps_steps. apply sound_get_role.
Qed.

Lemma sound_delegate u pe d c :
  paired d.(dg_delegate_type) d.(dg_delegate_principal_id) d.(dg_delegate_service_account_id) →
  holds (insert_delegation uuid4 now s u pe d c).
Proof.
  intros Hp. unfold insert_delegation, require_user_can, require_can.
  keeps_steps; [apply sound_register|apply sound_require..|by apply sound_insert_delegation|apply sound_record].
Qed.

Lemma sound_deny d : paired d.(dn_principal_type) d.(dn_principal_id) d.(dn_principal_service_account_id) →
  holds (insert_deny uuid4 d).
Proof.
  intros Hp. apply sound_insert_row. intros r roles st id Hr <- <- Hid [_ Hpe%negb_false_iff%bool_decide_eq_true]%orb_false_elim.
  destruct Hr. split; simpl; try done.
  intros i d' [[<- <-]|[? Hi]]%lookup_insert_Some; [done|by eauto].
Qed.

Lemma sound_insert_role t n : holds (insert_role uuid4 t n).
Proof.
  intros st Hst. unfold insert_role. destruct (bool_decide _); [done|]. destruct (_ || _)%bool eqn:E; [done|]. reflect_bools.
  apply eq_None_not_Some in H. set (id := uuid4 _) in *. destruct Hst.
  assert (∀ t' r, role_of st.(rs_roles) t' r → role_of (<[id := mkRole t n]> st.(rs_roles)) t' r) as Hro.
  { intros t' r (x & Hx & <-). exists x. split; [|done]. rewrite lookup_insert_ne; [done|]. intros <-. congruence. }
  split; simpl; try done.
  - intros i x Hi. destruct (rw_role_permission0 i x Hi). split; [by apply Hro|done].
  - intros i x Hi. destruct (rw_membership_role0 i x Hi). split; [by apply Hro|done].
  - intros i x Hi. destruct (rw_service_account_role0 i x Hi). split; [by apply Hro|done].
Qed.

Lemma sound_require_can a ty at_ t re ac e : holds (require_can uuid4 now s a ty at_ t re ac e).
Proof. unfold require_can. keeps_steps; [apply sound_register|apply sound_require]. Qed.
Lemma sound_authorize c op t re ac sys : holds (authorize_caller uuid4 now s c op t re ac sys).
Proof. destruct c; simpl; [apply sound_require_can..|by intros st Hst]. Qed.
Lemma sound_no_amplification c op t ps sc : holds (require_no_amplification s c op t ps sc).
Proof. destruct c; simpl; [apply sound_require|by intros st Hst..]. Qed.
Lemma sound_guarded t af ch : holds ch → holds (with_administrator_guard now s t af ch).
Proof. intros H. unfold with_administrator_guard. keeps_steps; [apply sound_in_rows|done|apply sound_verify]. Qed.
Lemma sound_record_all c t a ids : holds (record_all c t a ids).
Proof. induction ids; simpl; keeps_steps; [apply sound_record|done]. Qed.

(** A computation over [keeps_steps] and the primitives above. *)
Ltac sound_steps :=
  repeat (keeps_steps; try first
    [ apply sound_record | apply sound_in_rows | apply sound_require | apply sound_verify | apply sound_get_role
    | apply sound_get_permission | apply sound_user_of | apply sound_tenant_row | apply sound_register | apply sound_require_can
    | apply sound_authorize | apply sound_no_amplification | apply sound_grant | apply sound_insert_role
    | apply sound_on_integrity | apply sound_guarded | apply sound_record_all ]).

Lemma sound_create_role t n c : holds (create_role uuid4 now s t n c).
Proof. unfold create_role. sound_steps. Qed.
Lemma sound_register_permission re ac : holds (register_permission uuid4 re ac).
Proof.
  unfold register_permission. destruct (_ || _)%bool; [by intros st Hst|]. intros st Hst.
  destruct (find_row _ _) eqn:E; [done|]. unfold on_integrity_error, transaction.
  destruct (_ || _)%bool; [done|]. pose proof (sound_register re ac st Hst) as H. unfold register_permission_in in H.
  rewrite E in H. destruct (insert_row _ _ _ _ _ st) as [[a|[]] st'] eqn:Ei; done.
Qed.

Lemma exists_row_false {A} (m : gmap uuid A) p i x : exists_row m p = false → m !! i = Some x → p x = false.
Proof.
  intros Hf Hi. destruct (p x) eqn:Ep; [|done]. apply not_true_iff_false in Hf. destruct Hf. apply exists_row_spec. eauto.
Qed.

(** A role that no row names is not missed. *)
Lemma rwf_delete_role r roles t ro : role_of roles t ro → role_is_named r t ro = false → rwf r roles → rwf r (delete ro roles).
Proof.
  intros (x & Hx & <-) [[E1 E2]%orb_false_elim E3]%orb_false_elim [].
  assert (∀ t' r', role_of roles t' r' → ¬ (t' = x.(ro_tenant_id) ∧ r' = ro) → role_of (delete ro roles) t' r') as Hro.
  { intros t' r' (y & Hy & <-) Hne. exists y. split; [|done]. rewrite lookup_delete_ne; [done|]. intros <-.
    apply Hne. split; [|done]. congruence. }
  split; try done; intros i y Hi.
  - destruct (rw_role_permission0 i y Hi) as [H ?]. split; [|done]. apply Hro; [done|]. intros [Ht Hr].
    pose proof (exists_row_false _ _ _ _ E1 Hi) as Hf. simpl in Hf. by rewrite Ht, Hr, !bool_decide_eq_true_2 in Hf.
  - destruct (rw_membership_role0 i y Hi) as [H ?]. split; [|done]. apply Hro; [done|]. intros [Ht Hr].
    pose proof (exists_row_false _ _ _ _ E2 Hi) as Hf. simpl in Hf. by rewrite Ht, Hr, !bool_decide_eq_true_2 in Hf.
  - destruct (rw_service_account_role0 i y Hi) as [H ?]. split; [|done]. apply Hro; [done|]. intros [Ht Hr].
    pose proof (exists_row_false _ _ _ _ E3 Hi) as Hf. simpl in Hf. by rewrite Ht, Hr, !bool_decide_eq_true_2 in Hf.
Qed.

Lemma sound_delete_role t ro c : holds (delete_role uuid4 now s t ro c).
Proof.
  unfold delete_role. apply keeps_transaction; [apply _|].
  apply commits_bind; [apply _|apply keeps_commits, sound_authorize|intros []].
  intros st x st' H Hst. apply bind_Ok in H as ([] & s1 & H1 & H). unfold get_role in H1.
  destruct (role_exists _ _ _) eqn:Er; [|done]. injection H1 as <-. apply role_exists_spec in Er.
  apply bind_Ok in H as ([] & s1 & H1 & H). unfold require_rows in H1.
  destruct (negb _) eqn:En; [|done]. injection H1 as <-. apply negb_true_iff in En.
  apply bind_Ok in H as (s2 & s3 & [= <- <-] & H). apply bind_Ok in H as ([] & s3 & [= <-] & [= _ <-]).
  by eapply rwf_delete_role.
Qed.

Lemma sound_grant_permission t ro pe c : holds (grant_permission uuid4 now s t ro pe c).
Proof. unfold grant_permission. sound_steps. Qed.
Lemma sound_grant_registered t ro pe c : holds (grant_registered_permission_to_role uuid4 t ro pe c).
Proof. unfold grant_registered_permission_to_role. sound_steps. Qed.
Lemma sound_revoke_permission t ro pe c : holds (revoke_permission uuid4 now s t ro pe c).
Proof.
  unfold revoke_permission. sound_steps. apply sound_update. intros r roles. apply (rwf_fewer r); try done.
  intros i x. rewrite lookup_delete_Some. tauto.
Qed.
Lemma sound_assign_role t m ro sc c : holds (assign_role uuid4 now s t m ro sc c).
Proof. unfold assign_role. do 2 (apply keeps_bind; [apply _|sound_steps|intros ?]). apply sound_assign. sound_steps. Qed.
Lemma sound_assign_first t m ro sc c : holds (assign_first_role_for_new_tenant uuid4 s t m ro sc c).
Proof.
  unfold assign_first_role_for_new_tenant. destruct c as [| |[]]; try by intros st Hst.
  apply keeps_bind; [apply _|sound_steps|intros ?]. apply sound_assign. sound_steps.
Qed.
Lemma sound_remove_role t m ro c : holds (remove_role uuid4 now s t m ro c).
Proof.
  unfold remove_role. sound_steps. apply sound_update. intros r roles. apply (rwf_fewer r); try done.
  intros i x. rewrite lookup_delete_Some. tauto.
Qed.
Lemma sound_assign_sa t a ro sc c : holds (assign_service_account_role uuid4 now s t a ro sc c).
Proof.
  unfold assign_service_account_role. sound_steps. apply sound_insert_account_assignment.
Qed.
Lemma sound_remove_sa t a ro c : holds (remove_service_account_role uuid4 now s t a ro c).
Proof.
  unfold remove_service_account_role. sound_steps. apply sound_update. intros r roles. apply (rwf_fewer r); try done.
  intros i x. rewrite lookup_delete_Some. tauto.
Qed.
Lemma sound_create_delegation c de t sc pe st_ ex al : holds (create_delegation uuid4 now s c de t sc pe st_ ex al).
Proof. unfold create_delegation. do 6 (apply keeps_bind; [apply _|sound_steps|intros ?]). apply sound_delegate; by simpl; eauto. Qed.
Lemma sound_create_delegation_sa c sa sat t sc pe st_ ex :
  holds (create_delegation_to_service_account uuid4 now s c sa sat t sc pe st_ ex).
Proof. unfold create_delegation_to_service_account. do 6 (apply keeps_bind; [apply _|sound_steps|intros ?]). apply sound_delegate; by simpl; eauto. Qed.

(** The row of a delegation, a deny or a request is replaced. *)
Lemma rwf_put_delegation r roles i d :
  is_Some (r.(rb_permissions) !! d.(dg_permission_id)) →
  paired d.(dg_delegate_type) d.(dg_delegate_principal_id) d.(dg_delegate_service_account_id) →
  rwf r roles → rwf (with_delegations (<[i := d]> r.(rb_delegations)) r) roles.
Proof. intros H1 H2 []. split; simpl; try done. intros j x [[<- <-]|[? Hj]]%lookup_insert_Some; [done|by eauto]. Qed.
Lemma rwf_put_deny r roles i d :
  is_Some (r.(rb_permissions) !! d.(dn_permission_id)) →
  paired d.(dn_principal_type) d.(dn_principal_id) d.(dn_principal_service_account_id) →
  rwf r roles → rwf (with_denies (<[i := d]> r.(rb_denies)) r) roles.
Proof. intros H1 H2 []. split; simpl; try done. intros j x [[<- <-]|[? Hj]]%lookup_insert_Some; [done|by eauto]. Qed.
Lemma rwf_put_support r roles i q : support_ok q → rwf r roles → rwf (with_support (<[i := q]> r.(rb_support)) r) roles.
Proof. intros H1 []. split; simpl; try done. intros j x [[<- <-]|[? Hj]]%lookup_insert_Some; [done|by eauto]. Qed.

Lemma sound_user_can u t re ac e st st' :
  require_user_can uuid4 now s u t re ac e st = (Ok tt, st') → sound st → sound st'.
Proof. intros H. exact (keeps_commits _ _ (sound_require_can u PT_USER None t re ac e) st tt st' H). Qed.

Lemma sound_revoke_delegation c t i : holds (revoke_delegation uuid4 now s c t i).
Proof.
  unfold revoke_delegation. apply keeps_bind; [apply _|apply sound_user_of|intros u].
  apply keeps_transaction; [apply _|]. intros st x st' H Hst.
  apply bind_Ok in H as (row & s1 & (-> & Hrow & _)%tenant_row_Ok & H).
  apply bind_Ok in H as ([] & s1 & H1 & H).
  assert (sound s1 ∧ rb_delegations s1.(rs_rows) !! i = Some row) as [Hs1 Hrow1].
  { destruct (bool_decide _); [by injection H1 as <-|]. split; [by eapply sound_user_can|].
    by apply require_can_Ok in H1 as [(m & n & _ & ->) _]. }
  destruct (bool_decide (is_Some _)); [by injection H as _ <-|].
  apply bind_Ok in H as ([] & s2 & [-> _]%guarded_Ok & H). apply bind_Ok in H as ([] & s3 & [= <-] & [= _ <-]).
  destruct (rw_delegation _ _ Hs1 i row Hrow1). by apply rwf_put_delegation.
Qed.

Lemma sound_create_deny c pu t sc pe : holds (create_deny uuid4 now s c pu t sc pe).
Proof. unfold create_deny. sound_steps. apply sound_deny. by simpl; eauto. Qed.
Lemma sound_create_deny_sa c sa sat t sc pe : holds (create_deny_for_service_account uuid4 now s c sa sat t sc pe).
Proof. unfold create_deny_for_service_account. sound_steps. apply sound_deny. by simpl; eauto. Qed.

Lemma sound_revoke_deny c t i : holds (revoke_deny uuid4 now s c t i).
Proof.
  unfold revoke_deny. apply keeps_bind; [apply _|apply sound_user_of|intros u].
  apply keeps_transaction; [apply _|]. intros st x st' H Hst.
  apply bind_Ok in H as (row & s1 & (-> & Hrow & _)%tenant_row_Ok & H). apply bind_Ok in H as ([] & s1 & H1 & H).
  pose proof (sound_user_can _ _ _ _ _ _ _ H1 Hst) as Hs1.
  assert (rb_denies s1.(rs_rows) !! i = Some row) as Hrow1 by by apply require_can_Ok in H1 as [(m & n & _ & ->) _].
  destruct (bool_decide (is_Some _)); [by injection H as _ <-|].
  apply bind_Ok in H as ([] & s2 & [= <-] & H). apply bind_Ok in H as ([] & s3 & [= <-] & [= _ <-]).
  destruct (rw_deny _ _ Hs1 i row Hrow1). by apply rwf_put_deny.
Qed.

(** ** Support access *)

Lemma sound_request c t re ex sc st_ : holds (create_support_access_request uuid4 now s c t re ex sc st_).
Proof.
  unfold create_support_access_request. apply keeps_bind; [apply _|apply sound_user_of|intros u].
  apply keeps_bind; [apply _|sound_steps|intros []]. destruct (bool_decide _); [by intros st Hst|].
  destruct (bool_decide _); [by intros st Hst|]. destruct (_ <=? _) eqn:E1; [by intros st Hst|].
  destruct (_ <? _) eqn:E2; [by intros st Hst|]. apply Z.leb_gt in E1. apply Z.ltb_ge in E2. sound_steps.
  apply sound_insert_row. intros r roles st id Hr <- <- Hid Hv. apply rwf_put_support; [|done].
  split; simpl; try done; [by left|lia].
Qed.

(** A locked request is replaced by one of its decisions. *)
Lemma sound_decide {A} u t i ac e (f : SupportAccessRequest → RM A) :
  (∀ row, support_ok row → commits (upholds sound) (f row)) →
  holds (transaction (do* _ := require_user_can uuid4 now s u t "support_access_request" ac e in
                      do* row := get_support_access_request t i in f row)).
Proof.
  intros Hf. apply keeps_transaction; [apply _|]. intros st x st' H Hst. apply bind_Ok in H as ([] & s1 & H1 & H).
  pose proof (sound_user_can _ _ _ _ _ _ _ H1 Hst) as Hs1. apply bind_Ok in H as (row & s2 & (-> & Hrow & _)%tenant_row_Ok & H).
  eapply Hf; [|exact H|done]. by apply (rw_support _ _ Hs1 i).
Qed.

Lemma sound_put_support {A} i q c t a (x : A) : support_ok q →
  holds (do* _ := put_support i q in do* _ := record c t a i in ret x).
Proof. intros Hq. sound_steps. apply sound_update. intros r roles. by apply rwf_put_support. Qed.

Lemma decided_false r : decided r = false → r.(sr_approved_at) = None ∧ r.(sr_denied_at) = None.
Proof. unfold decided. intros [H1%bool_decide_eq_false H2%bool_decide_eq_false]%orb_false_elim. by rewrite !eq_None_not_Some. Qed.

(** The request as it was first read: approval checks its requester there. *)
Lemma sound_read_request {A} t i (k : SupportAccessRequest → RM A) :
  (∀ req, holds (k req)) → holds (do* req := get_support_access_request t i in k req).
Proof. intros H. apply keeps_bind; [apply _|apply sound_tenant_row|done]. Qed.

Lemma sound_approve c t i : holds (approve_support_access uuid4 now s c t i).
Proof.
  unfold approve_support_access. apply keeps_bind; [apply _|apply sound_user_of|intros u].
  apply keeps_bind; [apply _|sound_steps|intros []].
  intros st Hst. unfold bind at 1. destruct (get_support_access_request t i st) as [[req|] s1] eqn:E.
  2:{ unfold get_support_access_request, tenant_row in E. by case_in E. }
  apply tenant_row_Ok in E as (-> & Hreq & _). unfold bind at 1, lift at 1.
  destruct (raise_if (decided req) _) as [[]|]; [|done]. unfold bind at 1, lift at 1.
  destruct (raise_if (bool_decide (u = _)) _) as [[]|] eqn:Eu; [|done].
  assert (u ≠ req.(sr_requester_user_id)) as Hu. { unfold raise_if in Eu. by case_bool_decide. }
  unfold transaction. destruct (bind _ _ _) as [[x|] st'] eqn:H; [|done]. simpl.
  apply bind_Ok in H as ([] & s1 & H1 & H). pose proof (sound_user_can _ _ _ _ _ _ _ H1 Hst) as Hs1.
  apply bind_Ok in H as (row & s2 & (-> & Hrow & _)%tenant_row_Ok & H).
  assert (row = req) as ->. { apply require_can_Ok in H1 as [(m & n & _ & ->) _]. simpl in Hrow. congruence. }
  apply bind_Ok in H as ([] & s2 & H2 & H). unfold lift, raise_if in H2. destruct (decided req) eqn:Ed; [done|].
  injection H2 as <-. apply decided_false in Ed as [Ha Hd]. pose proof (rw_support _ _ Hs1 i req Hrow) as [H1' H2' H3 H4 H5 H6].
  refine (keeps_commits _ _ (sound_put_support i (approved now u req) c t _ _ _) _ _ _ H Hs1).
  split; simpl; [by split; eauto|done|by right|by eauto|congruence|done].
Qed.

Lemma sound_deny_support c t i : holds (deny_support_access uuid4 now s c t i).
Proof.
  unfold deny_support_access. apply keeps_bind; [apply _|apply sound_user_of|intros u]. apply sound_read_request. intros req.
  apply keeps_bind; [apply _|sound_steps|intros []]. apply sound_decide. intros row [H1 H2 H3 H4 H5 H6] st x st' H.
  apply bind_Ok in H as ([] & s1 & H' & H). unfold lift, raise_if in H'. destruct (decided row) eqn:Ed; [done|].
  injection H' as <-. apply decided_false in Ed as [Ha Hd].
  refine (keeps_commits _ _ (sound_put_support i (denied now u row) c t _ _ _) _ _ _ H). split; simpl; [done|by split; eauto|by left|done..].
Qed.

Lemma sound_revoke_support c t i : holds (revoke_support_access uuid4 now s c t i).
Proof.
  unfold revoke_support_access. apply keeps_bind; [apply _|apply sound_user_of|intros u].
  intros st Hst. unfold bind at 1. destruct (get_support_access_request t i st) as [[req|] s1] eqn:E.
  2:{ unfold get_support_access_request, tenant_row in E. by case_in E. }
  apply tenant_row_Ok in E as (-> & Hreq & _). unfold bind at 1, lift at 1.
  destruct (raise_if (bool_decide _) _) as [[]|] eqn:Eu; [|done].
  assert (is_Some req.(sr_approved_at)) as Hap. { unfold raise_if in Eu. case_bool_decide; [done|]. by apply not_eq_None_Some. }
  unfold transaction. destruct (bind _ _ _) as [[x|] st'] eqn:H; [|done]. simpl.
  apply bind_Ok in H as ([] & s1 & H1 & H). pose proof (sound_user_can _ _ _ _ _ _ _ H1 Hst) as Hs1.
  apply bind_Ok in H as (row & s2 & (-> & Hrow & _)%tenant_row_Ok & H).
  assert (row = req) as ->. { apply require_can_Ok in H1 as [(m & n & _ & ->) _]. simpl in Hrow. congruence. }
  destruct (bool_decide (is_Some _)); [by injection H as _ <-|].
  pose proof (rw_support _ _ Hs1 i req Hrow) as [H1' H2' H3 H4 H5 H6].
  refine (keeps_commits _ _ (sound_put_support i (revoked_support now (Some u) req) c t _ _ _) _ _ _ H Hs1). by split.
Qed.

Lemma sound_revoke_tenant t c : holds (revoke_tenant_support_access now s t c).
Proof.
  unfold revoke_tenant_support_access. sound_steps; (apply sound_update; intros r roles []; split; simpl; try done);
    intros i q; rewrite lookup_fmap; intros (q' & Hq & ->)%fmap_Some; specialize (rw_support0 i q' Hq);
    destruct (live_support t q') eqn:El; try done; unfold live_support in El; reflect_bools; by destruct rw_support0.
Qed.

(** ** Purge *)

Lemma lookup_not_of_tenant {A} (tn : A → uuid) t (m : gmap uuid A) i x :
  not_of_tenant tn t m !! i = Some x ↔ m !! i = Some x ∧ tn x ≠ t.
Proof. unfold not_of_tenant. by rewrite map_lookup_filter_Some. Qed.

Lemma sound_purge t ret_ : holds (purge_tenant_authorization now s t ret_).
Proof.
  unfold purge_tenant_authorization. apply keeps_bind; [apply _|sound_steps|intros []]. intros st [].
  assert (∀ t' r, role_of st.(rs_roles) t' r → t' ≠ t → role_of (not_of_tenant ro_tenant_id t st.(rs_roles)) t' r) as Hro.
  { intros t' r (x & Hx & <-) Hne. exists x. split; [|done]. by apply lookup_not_of_tenant. }
  split; simpl; try done.
  - intros i x [Hi Hx]%lookup_not_of_tenant. destruct (rw_role_permission0 i x Hi). eauto.
  - intros i x [Hi Hx]%lookup_not_of_tenant. destruct (rw_membership_role0 i x Hi). eauto.
  - intros i x [Hi Hx]%lookup_not_of_tenant. destruct (rw_service_account_role0 i x Hi). eauto.
  - intros i x. unfold purge_delegations. rewrite map_lookup_imap. destruct (rb_delegations _ !! i) as [d|] eqn:Ed; [|done].
    specialize (rw_delegation0 i d Ed). simpl. repeat (destruct (bool_decide _)); intros; simplify_eq; done.
  - intros i x [Hi Hx]%lookup_not_of_tenant. by apply (rw_deny0 i).
Qed.

Lemma sound_purge_user t m : holds (purge_user_membership_roles_in_tenant t m).
Proof.
  intros st Hst. apply (rwf_fewer st.(rs_rows)); try done. intros i x. rewrite map_lookup_filter_Some. tauto.
Qed.
End Keep.

(** ** The derived status *)

Lemma exists_row_ext {A} (m : gmap uuid A) p q : (∀ x, p x = q x) → exists_row m p = exists_row m q.
Proof. intros H. unfold exists_row. induction (map_to_list m) as [|x l IH]; [done|]. simpl. by rewrite H, IH. Qed.

(** A request gives access exactly while its derived status is ACTIVE: the query
    of the decision and the projection shown to people agree. *)
Lemma support_status_is_decision now r s candidate actor resource action scopes :
  tenant_grants_support_access r now s candidate actor resource action scopes =
  negb (bool_decide (resource ∈ AUTHORITY_RESOURCES)) &&
  negb (bool_decide ((resource, action) ∈ SUPPORT_ACCESS_EXCLUDED_ACTIONS)) &&
  negb (bool_decide ((resource, action) ∈ AI_SUPPORT_ACCESS_EXCLUDED_ACTIONS)) && open s candidate &&
  exists_row r.(rb_support) (λ q,
    bool_decide (q.(sr_tenant_id) = candidate) && bool_decide (q.(sr_requester_user_id) = actor) &&
    bool_decide (q.(sr_scope_mode) ∈ scopes) && bool_decide (compute_support_access_status now q = S_ACTIVE)).
Proof.
  unfold tenant_grants_support_access. do 3 (destruct (bool_decide _); [done|]). destruct (open s candidate); [simpl|done].
  apply exists_row_ext. intros q. rewrite <- !andb_assoc. do 3 f_equal.
  unfold compute_support_access_status.
  destruct (sr_revoked_at q), (sr_denied_at q), (sr_approved_at q); try done.
  rewrite Z.ltb_antisym. simpl. by destruct (sr_expires_at q <=? now), (sr_starts_at q <=? now).
Qed.

(** ** Histories *)

Inductive rcommand : Type :=
| RCreateRole (tenant_id : uuid) (name : pystr) (c : caller)
| RDeleteRole (tenant_id role_id : uuid) (c : caller)
| RRegister (resource action : string)
| RGrant (tenant_id role_id permission_id : uuid) (c : caller)
| RUpgrade (tenant_id role_id permission_id : uuid) (c : caller)
| RRevokePermission (tenant_id role_id permission_id : uuid) (c : caller)
| RAssign (tenant_id membership_id role_id : uuid) (scope : RoleScope) (c : caller)
| RAssignFirst (tenant_id membership_id role_id : uuid) (scope : RoleScope) (c : caller)
| RRemove (tenant_id membership_id role_id : uuid) (c : caller)
| RAssignSA (tenant_id service_account_id role_id : uuid) (scope : RoleScope) (c : caller)
| RRemoveSA (tenant_id service_account_id role_id : uuid) (c : caller)
| RDelegate (c : caller) (delegate tenant_id : uuid) (scope : RoleScope) (permission_id : uuid)
    (starts_at expires_at : option datetime) (allow_redelegate : bool)
| RDelegateSA (c : caller) (service_account_id service_account_tenant_id tenant_id : uuid) (scope : RoleScope)
    (permission_id : uuid) (starts_at expires_at : option datetime)
| RRevokeDelegation (c : caller) (tenant_id delegation_grant_id : uuid)
| RDeny (c : caller) (principal_user_id tenant_id : uuid) (scope : RoleScope) (permission_id : uuid)
| RDenySA (c : caller) (service_account_id service_account_tenant_id tenant_id : uuid) (scope : RoleScope) (permission_id : uuid)
| RRevokeDeny (c : caller) (tenant_id deny_grant_id : uuid)
| RRequestSupport (c : caller) (tenant_id : uuid) (reason : pystr) (expires_at : datetime) (scope : RoleScope)
    (starts_at : option datetime)
| RApproveSupport (c : caller) (tenant_id request_id : uuid)
| RDenySupport (c : caller) (tenant_id request_id : uuid)
| RRevokeSupport (c : caller) (tenant_id request_id : uuid)
| RRevokeTenantSupport (tenant_id : uuid) (c : caller)
| RPurge (tenant_id : uuid) (retained : gset uuid)
| RPurgeUser (tenant_id membership_id : uuid).

Definition void {A : Type} (m : RM A) : RM unit := do* _ := m in ret tt.

Definition rrun (uuid4 : nat → uuid) (now : datetime) (s : tenancy_store) (cmd : rcommand) : RM unit :=
  match cmd with
  | RCreateRole t n c => void (create_role uuid4 now s t n c)
  | RDeleteRole t r c => delete_role uuid4 now s t r c
  | RRegister re ac => void (register_permission uuid4 re ac)
  | RGrant t r p c => void (grant_permission uuid4 now s t r p c)
  | RUpgrade t r p c => void (transaction (grant_registered_permission_to_role uuid4 t r p c))
  | RRevokePermission t r p c => revoke_permission uuid4 now s t r p c
  | RAssign t m r sc c => void (assign_role uuid4 now s t m r sc c)
  | RAssignFirst t m r sc c => void (assign_first_role_for_new_tenant uuid4 s t m r sc c)
  | RRemove t m r c => remove_role uuid4 now s t m r c
  | RAssignSA t a r sc c => void (assign_service_account_role uuid4 now s t a r sc c)
  | RRemoveSA t a r c => remove_service_account_role uuid4 now s t a r c
  | RDelegate c d t sc p st ex al => void (create_delegation uuid4 now s c d t sc p st ex al)
  | RDelegateSA c a at_ t sc p st ex => void (create_delegation_to_service_account uuid4 now s c a at_ t sc p st ex)
  | RRevokeDelegation c t i => void (revoke_delegation uuid4 now s c t i)
  | RDeny c u t sc p => void (create_deny uuid4 now s c u t sc p)
  | RDenySA c a at_ t sc p => void (create_deny_for_service_account uuid4 now s c a at_ t sc p)
  | RRevokeDeny c t i => void (revoke_deny uuid4 now s c t i)
  | RRequestSupport c t re ex sc st => void (create_support_access_request uuid4 now s c t re ex sc st)
  | RApproveSupport c t i => void (approve_support_access uuid4 now s c t i)
  | RDenySupport c t i => void (deny_support_access uuid4 now s c t i)
  | RRevokeSupport c t i => void (revoke_support_access uuid4 now s c t i)
  | RRevokeTenantSupport t c => void (revoke_tenant_support_access now s t c)
  | RPurge t ret_ => void (purge_tenant_authorization now s t ret_)
  | RPurgeUser t m => void (purge_user_membership_roles_in_tenant t m)
  end.

(** One operation, with the instant it happens at and the registry it sees. *)
Definition rhistory (uuid4 : nat → uuid) (h : list (datetime * tenancy_store * rcommand)) (st : rbac_store) : rbac_store :=
  foldl (λ st p, (rrun uuid4 p.1.1 p.1.2 p.2 st).2) st h.

Lemma keeps_void {A} R `{!PreOrder R} (m : RM A) : keeps R m → keeps R (void m).
Proof. intros H. apply keeps_bind; [apply _|done|]. intros _. by apply keeps_ret. Qed.

Lemma rrun_sound uuid4 now s cmd : keeps (upholds sound) (rrun uuid4 now s cmd).
Proof.
  destruct cmd; simpl; try (apply keeps_void; [apply _|]); 
    try match goal with |- keeps _ (transaction _) => apply keeps_transaction; [apply _|apply keeps_commits] end;
    eauto using sound_create_role, sound_delete_role, sound_register_permission, sound_grant_permission,
      sound_grant_registered, sound_revoke_permission, sound_assign_role, sound_assign_first, sound_remove_role,
      sound_assign_sa, sound_remove_sa, sound_create_delegation, sound_create_delegation_sa, sound_revoke_delegation,
      sound_create_deny, sound_create_deny_sa, sound_revoke_deny, sound_request, sound_approve, sound_deny_support,
      sound_revoke_support, sound_revoke_tenant, sound_purge, sound_purge_user.
Qed.

Lemma rhistory_sound uuid4 h st : sound st → sound (rhistory uuid4 h st).
Proof. revert st. induction h as [|p h IH]; intros st Hst; [done|]. simpl. apply IH. by apply rrun_sound. Qed.

(** The store of an installation without roles, permissions or grants; its
    memberships and service accounts are another component's. *)
Definition no_authority (memberships : gmap (uuid * uuid) TenantMembership)
    (service_accounts : gmap uuid (uuid * ServiceAccountStatus)) : rbac_store :=
  mkRbacStore (mkRbac memberships service_accounts ∅ ∅ ∅ ∅ ∅ ∅ ∅) ∅ [] 0.

(** C26: the rows of authorization stay consistent.  After every history of
    administrative operations, accepted or refused, of an installation that
    started without any: every grant and assignment names an existing role of
    its own tenant, every grant, delegation and deny an existing permission, the
    permission catalogue has one row per permission, and every support-access
    request is approved by somebody other than its requester or not at all, never
    both approved and denied (a denial may be the requester's own), revoked only if
    approved, and for a window of at most a day. *)
Theorem rbac_integrity (uuid4 : nat → uuid) (memberships : gmap (uuid * uuid) TenantMembership)
    (service_accounts : gmap uuid (uuid * ServiceAccountStatus)) (h : list (datetime * tenancy_store * rcommand)) :
  sound (rhistory uuid4 h (no_authority memberships service_accounts)).
Proof. apply rhistory_sound. by split. Qed.
