(* ===== verification/RbacAuthority.v ===== *)
(** * Handing out authority

    Whoever assigns a role or delegates a permission extends nobody's reach
    beyond their own; taking authority away never takes a tenant's last
    administrator; and two gaps, shown on a concrete deployment. *)

From S2P Require Import Prelude StoreLogic PyStr TenantLifecycle PlatformAuthority PlatformService PlatformProofs PlatformSafety TenantHierarchy HierarchyProofs HierarchySafety HierarchyReads RbacDecision RbacProofs RbacAdministrators RbacService RbacIntegrity.

(** ** The permission catalogue only grows *)

Lemma names_same r roles m pid x :
  rwf r roles → r.(rb_permissions) ⊆ m → is_Some (r.(rb_permissions) !! pid) →
  m !! pid = Some x ↔ r.(rb_permissions) !! pid = Some x.
Proof.
  intros _ Hm [y Hy]. pose proof (lookup_weaken _ _ _ _ Hy Hm) as Hy'. rewrite Hy, Hy'. done.
Qed.

Lemma registered_role r roles m s a ty t ac re :
  rwf r roles → r.(rb_permissions) ⊆ m →
  has_role (with_permissions m r) s a ty t ac re → has_role r s a ty t ac re.
Proof.
  intros Hr Hm. unfold has_role, assignment_reaches. case_decide; simpl.
  - intros (i & x & mb & Hi & Hmb & Hact & Hh & Hreach & Hacc & j & rp & Hj & H1 & H2 & H3).
    exists i, x, mb. split_and!; try done. exists j, rp. split_and!; try done.
    apply (names_same r roles m); try done. by apply (rw_role_permission _ _ Hr j).
  - intros (i & x & Hi & Hh & Hreach & Hacc & j & rp & Hj & H1 & H2 & H3).
    exists i, x. split_and!; try done. exists j, rp. split_and!; try done.
    apply (names_same r roles m); try done. by apply (rw_role_permission _ _ Hr j).
Qed.

Lemma registered_delegation r roles m now s a ty t ac re ign :
  rwf r roles → r.(rb_permissions) ⊆ m →
  has_delegation (with_permissions m r) now s a ty t ac re ign → has_delegation r now s a ty t ac re ign.
Proof.
  intros Hr Hm (i & d & Hi & H1 & H2 & H3 & H4 & H5 & H6 & H7 & H8 & H9). exists i, d. split_and!; try done.
  apply (names_same r roles m); try done. by apply (rw_delegation _ _ Hr i).
Qed.

(** ** The reach of a role holder *)

Section Reach.
Context (cfg : TenancyConfig) (s : tenancy_store) (Hwf : hwf cfg s.(ts_tenants) s.(ts_ancestry)).

(** Who reaches a tenant at a scope through roles reaches whatever a row of that
    tenant with that scope reaches. *)
Lemma reaches_has_role r u T ac re sc t :
  actor_reaches_tenant_at_scope r s u T ac re sc = true → row_reaches s.(ts_tenants) T sc t → is_Some (s.(ts_tenants) !! T) →
  has_role r s u PT_USER t ac re.
Proof.
  intros H Ht HT. unfold has_role. rewrite decide_True by done. unfold actor_reaches_tenant_at_scope in H.
  apply orb_true_iff in H as [(i & a & m & Hi & <- & Hsc & Hm & Hact & Hh & Hacc & Hrp)%tenant_grants_spec|H].
  - exists i, a, m. split_and!; try done. split_and!; try done. destruct Ht as [->|[-> Ht]]; [by left|].
    apply list_elem_of_singleton in Hsc. rewrite Hsc. by right.
  - unfold ancestor_grants_subtree_permission in H. apply (any_ancestor_spec cfg _ Hwf) in H as (b & [n Hn] & H).
    apply tenant_grants_spec in H as (i & a & m & Hi & <- & Hsc%list_elem_of_singleton & Hm & Hact & Hh & Hacc & Hrp).
    exists i, a, m. split_and!; try done. split_and!; try done. right. split; [done|].
    destruct Ht as [->|[_ [k Hk]]]; [by eauto|]. exists (k + S n)%nat.
    change (S (k + S n)) with (S k + S n)%nat. by rewrite hops_add, Hk.
Qed.
End Reach.

Lemma reaches_all_elem r s u T ps sc p : reaches_all s r u T ps sc = true → p ∈ ps →
  actor_reaches_tenant_at_scope r s u T p.2 p.1 sc = true.
Proof. unfold reaches_all. rewrite forallb_forall. intros H Hp. by apply H, list_elem_of_In. Qed.

Lemma elem_of_role_permissions r t ro j rp p :
  r.(rb_role_permissions) !! j = Some rp → rp.(rp_tenant_id) = t → rp.(rp_role_id) = ro →
  r.(rb_permissions) !! rp.(rp_permission_id) = Some p → p ∈ list_role_permissions r t ro.
Proof.
  intros Hj Ht Hr Hp. apply list_elem_of_omap. exists (j, rp). split; [|done]. apply list_elem_of_filter.
  split; [done|]. by apply elem_of_map_to_list.
Qed.

Lemma require_rows_Ok f e st x st' : require_rows f e st = (Ok x, st') → st' = st ∧ f st.(rs_rows) = true.
Proof. unfold require_rows. destruct (f _) eqn:E; [|done]. by intros [= _ <-]. Qed.

Lemma insert_row_Ok {A} uuid4 (table : rbac_rows → gmap uuid A) with_table violates row st id st' :
  insert_row uuid4 table with_table violates row st = (Ok id, st') →
  table st.(rs_rows) !! id = None ∧ violates st = false ∧
  st' = put_rows (with_table (<[id := row]> (table st.(rs_rows))) st.(rs_rows)) (rdraw st).
Proof.
  unfold insert_row. destruct (_ || _)%bool eqn:E; [done|]. intros [= <- <-]. reflect_bools.
  split_and!; [by apply eq_None_not_Some|done|done].
Qed.

Lemma on_integrity_Ok {A} (m h : RM A) st a st' :
  on_integrity_error (transaction m) h st = (Ok a, st') → m st = (Ok a, st') ∨ h st = (Ok a, st').
Proof.
  unfold on_integrity_error, transaction. destruct (m st) as [[b|[]] s1]; simpl; try done; [by left|by right].
Qed.

(** ** What an accepted handout leaves *)

Definition open_tenant_row (s : tenancy_store) (T : uuid) : Prop := is_Some (s.(ts_tenants) !! T).

(** The new row, and that the user reaches everything it gives. *)
Inductive handed (s : tenancy_store) (u : uuid) (r1 r' : rbac_rows) : Prop :=
| handed_role T m ro sc id :
    open_tenant_row s T → reaches_all s r1 u T (list_role_permissions r1 T ro) sc = true →
    r' = with_membership_roles (<[id := mkAssignment T m ro sc]> r1.(rb_membership_roles)) r1 → handed s u r1 r'
| handed_account_role T a ro sc id :
    open_tenant_row s T → reaches_all s r1 u T (list_role_permissions r1 T ro) sc = true →
    r' = with_service_account_roles (<[id := mkAssignment T a ro sc]> r1.(rb_service_account_roles)) r1 → handed s u r1 r'
| handed_delegation d re ac id :
    open_tenant_row s d.(dg_tenant_id) → r1.(rb_permissions) !! d.(dg_permission_id) = Some (re, ac) →
    actor_reaches_tenant_at_scope r1 s u d.(dg_tenant_id) ac re d.(dg_scope_mode) = true →
    r' = with_delegations (<[id := d]> r1.(rb_delegations)) r1 → handed s u r1 r'.

Definition hands_out (cmd : rcommand) : option caller :=
  match cmd with
  | RAssign _ _ _ _ c | RAssignSA _ _ _ _ c | RDelegate c _ _ _ _ _ _ _ | RDelegateSA c _ _ _ _ _ _ _ => Some c
  | _ => None
  end.

Section Outcome.
Context (uuid4 : nat → uuid) (now : datetime) (s : tenancy_store).

Lemma require_open_Ok t st x st' : require_open s t st = (Ok x, st') → st' = st ∧ open_tenant_row s t.
Proof.
  unfold require_open, lift, open_tenant_row. destruct (require_open_tenant s t) eqn:E; [|done]. intros [= _ <-]. split; [done|].
  rewrite require_open_is_lock_open in E. apply lock_open_tenant_Ok in E as [E _]. eexists. exact E.
Qed.

Lemma user_of_Ok o c st u st' : user_of o c st = (Ok u, st') → st' = st ∧ c = UserCaller u.
Proof. destruct c; [|done|done]. by intros [= <- <-]. Qed.

Lemma void_Ok {A} (m : RM A) st x st' : void m st = (Ok x, st') → ∃ a, m st = (Ok a, st').
Proof. intros H. apply bind_Ok in H as (a & s1 & H & [= _ <-]). eauto. Qed.

Lemma assign_role_handed t m ro sc c st id st' :
  assign_role uuid4 now s t m ro sc c st = (Ok id, st') →
  ∃ u st1, c = UserCaller u ∧ registers st st1 ∧ handed s u st1.(rs_rows) st'.(rs_rows).
Proof.
  intros H. apply bind_Ok in H as (u & s1 & [-> ->]%user_of_Ok & H). apply bind_Ok in H as ([] & s1 & [-> Hop]%require_open_Ok & H).
  apply on_integrity_Ok in H as [H|H].
  2:{ apply bind_Ok in H as (e & s1 & [= <- <-] & H). destruct (find_row _ _); [done|]. by apply bind_Ok in H as ([] & ? & ? & ?). }
  apply bind_Ok in H as ([] & s1 & H1 & H). apply bind_Ok in H1 as ([] & s2 & [Hreg _]%require_can_Ok & H1).
  apply require_rows_Ok in H1 as [-> Hall]. apply bind_Ok in H as (id' & s3 & (_ & _ & ->)%insert_row_Ok & H).
  apply bind_Ok in H as ([] & s3 & [= <-] & [= _ <-]). exists u, s2. split_and!; try done. by eapply handed_role.
Qed.

Lemma assign_account_handed t a ro sc c st id st' :
  assign_service_account_role uuid4 now s t a ro sc c st = (Ok id, st') →
  ∃ u st1, c = UserCaller u ∧ registers st st1 ∧ handed s u st1.(rs_rows) st'.(rs_rows).
Proof.
  intros H. apply bind_Ok in H as (u & s1 & [-> ->]%user_of_Ok & H). apply bind_Ok in H as ([] & s1 & [-> Hop]%require_open_Ok & H).
  apply bind_Ok in H as ([] & s1 & [-> _]%require_rows_Ok & H). apply bind_Ok in H as ([] & s1 & H1 & H).
  unfold get_role in H1. destruct (role_exists _ _ _); [|done]. injection H1 as <-.
  apply on_integrity_Ok in H as [H|H]; [|done].
  apply bind_Ok in H as ([] & s2 & [Hreg _]%require_can_Ok & H). apply bind_Ok in H as ([] & s3 & [-> Hall]%require_rows_Ok & H).
  apply bind_Ok in H as (id' & s3 & (_ & _ & ->)%insert_row_Ok & H).
  apply bind_Ok in H as ([] & s3 & [= <-] & [= _ <-]). exists u, s2. split_and!; try done. by eapply handed_account_role.
Qed.

Lemma delegation_handed u re ac d c st id st' :
  open_tenant_row s d.(dg_tenant_id) → st.(rs_rows).(rb_permissions) !! d.(dg_permission_id) = Some (re, ac) →
  insert_delegation uuid4 now s u (re, ac) d c st = (Ok id, st') →
  ∃ st1, registers st st1 ∧ handed s u st1.(rs_rows) st'.(rs_rows).
Proof.
  intros Hop Hp H. unfold insert_delegation, transaction in H. destruct (bind _ _ _) as [[x|] s0] eqn:E; [|done].
  injection H as -> ->. apply bind_Ok in E as ([] & s2 & [Hreg _]%require_can_Ok & H).
  apply bind_Ok in H as ([] & s3 & [-> Hall]%require_rows_Ok & H).
  apply bind_Ok in H as (id' & s3 & (_ & _ & ->)%insert_row_Ok & H). apply bind_Ok in H as ([] & s3 & [= <-] & [= _ <-]).
  exists s2. split; [done|]. eapply handed_delegation; try done.
  destruct Hreg as (m & n & Hm & ->). simpl. by eapply lookup_weaken.
Qed.

Lemma create_delegation_handed c de t sc pe st_ ex al st id st' :
  create_delegation uuid4 now s c de t sc pe st_ ex al st = (Ok id, st') →
  ∃ u st1, c = UserCaller u ∧ registers st st1 ∧ handed s u st1.(rs_rows) st'.(rs_rows).
Proof.
  intros H. apply bind_Ok in H as (u & s1 & [-> ->]%user_of_Ok & H). apply bind_Ok in H as ([] & s1 & [-> Hop]%require_open_Ok & H).
  apply bind_Ok in H as ([] & s1 & [= _ <-] & H). apply bind_Ok in H as ([] & s1 & [= _ <-] & H).
  apply bind_Ok in H as ([re ac] & s1 & H1 & H). unfold get_permission_by_id in H1.
  destruct (_ !! pe) as [p|] eqn:Ep; [|done]. injection H1 as -> <-. apply bind_Ok in H as ([] & s1 & [= _ <-] & H).
  apply delegation_handed in H as (st1 & ? & ?); [by exists u, st1|done|done].
Qed.

Lemma create_delegation_account_handed c sa sat t sc pe st_ ex st id st' :
  create_delegation_to_service_account uuid4 now s c sa sat t sc pe st_ ex st = (Ok id, st') →
  ∃ u st1, c = UserCaller u ∧ registers st st1 ∧ handed s u st1.(rs_rows) st'.(rs_rows).
Proof.
  intros H. apply bind_Ok in H as (u & s1 & [-> ->]%user_of_Ok & H). apply bind_Ok in H as ([] & s1 & [-> Hop]%require_open_Ok & H).
  apply bind_Ok in H as ([] & s1 & [= _ <-] & H). apply bind_Ok in H as ([] & s1 & [-> _]%require_rows_Ok & H).
  apply bind_Ok in H as ([re ac] & s1 & H1 & H). unfold get_permission_by_id in H1.
  destruct (_ !! pe) as [p|] eqn:Ep; [|done]. injection H1 as -> <-. apply bind_Ok in H as ([] & s1 & [= _ <-] & H).
  apply delegation_handed in H as (st1 & ? & ?); [by exists u, st1|done|done].
Qed.

Lemma rrun_handed cmd c st st' : hands_out cmd = Some c → rrun uuid4 now s cmd st = (Ok tt, st') →
  ∃ u st1, c = UserCaller u ∧ registers st st1 ∧ handed s u st1.(rs_rows) st'.(rs_rows).
Proof.
  destruct cmd; try done; intros [= <-] [id H]%void_Ok;
    eauto using assign_role_handed, assign_account_handed, create_delegation_handed, create_delegation_account_handed.
Qed.
End Outcome.

(** ** Nobody hands out more than they reach *)

Section Amplification.
Context (cfg : TenancyConfig) (s : tenancy_store) (Hwf : hwf cfg s.(ts_tenants) s.(ts_ancestry)).

(** A role or a delegation reaches the tenant. *)
Definition reaches (r : rbac_rows) (now : datetime) (actor : uuid) (ty : PrincipalType) (t : uuid) (ac re : string) (ign : bool) : Prop :=
  has_role r s actor ty t ac re ∨ has_delegation r now s actor ty t ac re ign.

(** A new assignment of a role whose permissions the user reaches. *)
Lemma assignment_reached r u T ro sc t ac re a :
  open_tenant_row s T → reaches_all s r u T (list_role_permissions r T ro) sc = true →
  a.(ra_tenant_id) = T → a.(ra_role_id) = ro → a.(ra_scope) = sc →
  row_reaches s.(ts_tenants) a.(ra_tenant_id) a.(ra_scope) t →
  (∃ j rp, r.(rb_role_permissions) !! j = Some rp ∧ rp.(rp_role_id) = a.(ra_role_id) ∧
     rp.(rp_tenant_id) = a.(ra_tenant_id) ∧ r.(rb_permissions) !! rp.(rp_permission_id) = Some (re, ac)) →
  has_role r s u PT_USER t ac re.
Proof.
  intros HT Hall <- <- <- Hr (j & rp & Hj & H1 & H2 & H3).
  eapply (reaches_has_role cfg s Hwf); [|exact Hr|exact HT].
  by eapply (reaches_all_elem _ _ _ _ _ _ (re, ac)), elem_of_role_permissions.
Qed.

Lemma handed_reach u r1 r' now actor ty t ac re ign : handed s u r1 r' →
  reaches r' now actor ty t ac re ign → reaches r1 now actor ty t ac re ign ∨ has_role r1 s u PT_USER t ac re.
Proof.
  intros [T m ro sc id HT Hall ->|T a ro sc id HT Hall ->|d re0 ac0 id HT Hp Hreach ->] [Hrole|Hdel];
    try (by left; right); try (by left; left).
  - unfold has_role in Hrole. case_decide as Hty.
    + destruct Hrole as (i & a & mb & Hi & Hmb & Hact & Hh & Hr & Hacc & Hrp).
      simpl in Hi. apply lookup_insert_Some in Hi as [[<- <-]|[_ Hi]].
      * right. by eapply (assignment_reached r1 u T ro sc t ac re (mkAssignment T m ro sc)).
      * left. left. unfold has_role. rewrite decide_True by done. by exists i, a, mb.
    + left. left. unfold has_role. by rewrite decide_False by done.
  - unfold has_role in Hrole. case_decide as Hty.
    + left. left. unfold has_role. by rewrite decide_True by done.
    + destruct Hrole as (i & a' & Hi & Hh & Hr & Hacc & Hrp).
      simpl in Hi. apply lookup_insert_Some in Hi as [[<- <-]|[_ Hi]].
      * right. by eapply (assignment_reached r1 u T ro sc t ac re (mkAssignment T a ro sc)).
      * left. left. unfold has_role. rewrite decide_False by done. by exists i, a'.
  - destruct Hdel as (i & d' & Hi & H1 & H2 & H3 & H4 & H5 & H6 & H7 & H8 & H9).
    simpl in Hi. apply lookup_insert_Some in Hi as [[<- <-]|[_ Hi]].
    + right. simpl in H8. rewrite Hp in H8. injection H8 as -> ->. by eapply (reaches_has_role cfg s Hwf).
    + left. right. by exists i, d'.
Qed.

(** C25: nobody hands out more than they reach.  When a person assigns a role to
    a member or a service account, or delegates a permission to a person or a
    service account, every permission that anyone newly reaches at any tenant
    through a role or a delegation, at any later time, is one the person who
    handed it out reached at that tenant through a role of their own. *)
Theorem handout_never_amplifies (uuid4 : nat → uuid) (now later : datetime) (cmd : rcommand) (c : caller)
    (st st' : rbac_store) (actor : uuid) (ty : PrincipalType) (t : uuid) (action resource : string) (ignore_expiring : bool) :
  sound st → hands_out cmd = Some c → rrun uuid4 now s cmd st = (Ok tt, st') →
  reaches st'.(rs_rows) later actor ty t action resource ignore_expiring →
  ∃ u, c = UserCaller u ∧
    (reaches st.(rs_rows) later actor ty t action resource ignore_expiring ∨
     has_role st.(rs_rows) s u PT_USER t action resource).
Proof.
  intros Hst Hc Hrun Hr. destruct (rrun_handed _ _ _ _ _ _ _ Hc Hrun) as (u & st1 & -> & (m & n & Hm & ->) & Hh).
  exists u. split; [done|]. simpl in Hh. eapply handed_reach in Hr; [|exact Hh].
  destruct Hr as [[Hr|Hr]|Hr]; [left; left|left; right|right];
    eauto using registered_role, registered_delegation.
Qed.
End Amplification.
