(* ===== verification/RbacGuard.v ===== *)
(** * Taking authority away leaves an administrator

    The administrator guard around the operations of core/rbac/service.py: every
    tenant that had an administrator has one after any of them, the purges of a
    tenant or of a user apart. *)

From S2P Require Import Prelude StoreLogic PyStr TenantLifecycle PlatformAuthority PlatformService PlatformProofs PlatformSafety TenantHierarchy HierarchyProofs HierarchySafety HierarchyReads RbacDecision RbacProofs RbacAdministrators RbacService RbacIntegrity RbacAuthority.

Section Guard.
Context (cfg : TenancyConfig) (s : tenancy_store) (Hwf : hwf cfg s.(ts_tenants) s.(ts_ancestry)) (now : datetime).

Abbreviation adm := (λ r t u, is_administrator r now s t u = true).
Abbreviation held r u t := (has_role r s u PT_USER t ADMINISTRATOR_ACTION ADMINISTRATOR_RESOURCE ∨
  has_delegation r now s u PT_USER t ADMINISTRATOR_ACTION ADMINISTRATOR_RESOURCE true).
Abbreviation barred r u t := (is_denied r s u PT_USER t ADMINISTRATOR_ACTION ADMINISTRATOR_RESOURCE).

(** An administrator holds the permission through a role or a delegation. *)
Lemma administrator_spec r t u : adm r t u ↔
  accessible s t = true ∧ lock_user_is_active s u = true ∧ ¬ barred r u t ∧ held r u t.
Proof.
  unfold is_administrator. rewrite (can_spec cfg _ _ _ Hwf). unfold allowed. simpl. split.
  - intros (_ & Hl & Hd & [[Ha Hw]|(_ & Hno & _)]); [done|]. destruct Hno. vm_compute. repeat constructor.
  - intros (Ha & Hl & Hd & Hw). split_and!; try done; [|by left].
    unfold accessible, open, lock_accessible_tenant, lock_open_tenant in *. destruct (tenants_of s !! t) as [tn|]; [|done].
    by destruct (t_status tn).
Qed.

Lemma administrator_kept r r' t u :
  (barred r' u t → barred r u t) → (held r u t → held r' u t) → adm r t u → adm r' t u.
Proof. intros Hb Hh. rewrite !administrator_spec. tauto. Qed.

(** ** What a passed guard says *)

Lemma descendant_chain T t : is_Some (s.(ts_tenants) !! t) → in_chain s t T → t = T ∨ t ∈ descendant_ids_by_depth s T.
Proof.
  intros Ht Hc. destruct (decide (t = T)) as [->|Hne]; [by left|right].
  assert (is_Some (s.(ts_ancestry) !! (t, T))) as Ha.
  { destruct Hc as [->|[n Hn]]; [done|]. eexists. by eapply hwf_row. }
  by apply (elem_of_guarded cfg s T t Hwf Ha).
Qed.

Lemma fromkeys_elem (l : list uuid) x : x ∈ fromkeys l ↔ x ∈ l.
Proof.
  induction l as [|y l IH]; simpl; [done|]. rewrite !elem_of_cons, list_elem_of_filter, IH.
  destruct (decide (x = y)); naive_solver.
Qed.

(** The guard sees every tenant that an affected user may administer; nobody
    else, and nothing outside the subtree, is affected. *)
Lemma guard_covers_members r r' T affected :
  (∀ v t, v ∉ affected ∨ ¬ in_chain s t T → is_active_member r t v = true → is_active_member r' t v = true) →
  (∀ v t, v ∉ affected → adm r t v → adm r' t v) → (∀ v t, ¬ in_chain s t T → adm r t v → adm r' t v) →
  verify r' now s (guard_last_administrator r now s T affected) = None →
  ∀ t, has_administrator r now s t → has_administrator r' now s t.
Proof.
  intros Hm Hother Hout Hver t Hadm. pose proof (administrator_tenant cfg r now s t Hwf Hadm) as Ht.
  destruct (decide (t ∈ T :: filter (λ d, any_active_member r d (fromkeys affected) = true) (descendant_ids_by_depth s T)))
    as [Hin|Hnot].
  - unfold guard_last_administrator, verify in Hver. destruct (find _ _) eqn:E in Hver; [done|].
    apply (find_administrator_spec r now s t None) in Hadm as [a Ha].
    pose proof (find_none _ _ E (t, Some a)) as Hn. cbn [fst snd] in Hn. rewrite bool_decide_eq_false in Hn.
    apply (find_administrator_spec r' now s t (Some a)), not_eq_None_Some, Hn.
    apply list_elem_of_In, list_elem_of_fmap. exists t. split; [by rewrite <-Ha|done].
  - destruct Hadm as (v & Hv & Ha). exists v.
    destruct (decide (s.(ts_ancestry) !! (t, T) = None)) as [Hn|Hn].
    + assert (¬ in_chain s t T) as Hc; [|by auto]. intros [->|[n Hc]].
      * by apply Hnot, list_elem_of_here.
      * apply (hwf_row cfg _ _ _ _ _ Hwf) in Hc. congruence.
    + assert (v ∉ affected) as Hva; [|by auto]. intros Hvin. apply Hnot. rewrite elem_of_cons.
      apply not_eq_None_Some in Hn as [d Hd]. apply (closure _ _ _ Hwf) in Hd as (n & _ & Hd).
      destruct (descendant_chain T t Ht (or_intror (ex_intro _ n Hd))) as [?|Hdesc]; [by left|right].
      apply list_elem_of_filter. split; [|done]. unfold any_active_member. apply existsb_exists. exists v.
      split; [by apply list_elem_of_In, fromkeys_elem|done].
Qed.
Lemma guard_covers r r' T affected :
  r'.(rb_memberships) = r.(rb_memberships) →
  (∀ v t, v ∉ affected → adm r t v → adm r' t v) → (∀ v t, ¬ in_chain s t T → adm r t v → adm r' t v) →
  verify r' now s (guard_last_administrator r now s T affected) = None →
  ∀ t, has_administrator r now s t → has_administrator r' now s t.
Proof. intros Hm. apply guard_covers_members. intros v t _. unfold is_active_member. by rewrite Hm. Qed.

(** Rows of a tenant outside the chain do not matter. *)
Lemma outside_kept r r' T t v : ¬ in_chain s t T → agree_on (λ a, a ≠ T) r r' → adm r t v → adm r' t v.
Proof.
  intros Hno Hag. unfold is_administrator. rewrite !(can_spec cfg) by done.
  apply (allowed_transfer r r' now s s t); try done. unfold agree_on, agree in *. destruct_and!.
  assert (∀ a, in_chain s t a → a ≠ T) by (by intros a Ha ->). split_and!; eauto.
Qed.

(** ** The relation every operation keeps *)

Definition keeps_administrators (r r' : rbac_rows) : Prop :=
  ∀ t, has_administrator r now s t → has_administrator r' now s t.
Definition safe (st st' : rbac_store) : Prop :=
  sound st → sound st' ∧ keeps_administrators st.(rs_rows) st'.(rs_rows).
#[local] Instance safe_preorder : PreOrder safe.
Proof.
  split; [by intros st Hst; split; [|intros t]|]. intros s1 s2 s3 H1 H2 Hs. destruct (H1 Hs) as [Hs2 Ha]. destruct (H2 Hs2) as [Hs3 Hb].
  split; [done|]. intros t. by intros ?%Ha%Hb.
Qed.

Lemma safe_of {A} (m : RM A) : keeps (upholds sound) m →
  (∀ st, sound st → keeps_administrators st.(rs_rows) (m st).2.(rs_rows)) → keeps safe m.
Proof. intros Hs Ha st Hst. split; [by apply Hs|by apply Ha]. Qed.
Lemma safe_rows {A} (m : RM A) : keeps (upholds sound) m → (∀ st, (m st).2.(rs_rows) = st.(rs_rows)) → keeps safe m.
Proof. intros Hs Ha. apply safe_of; [done|]. intros st _ t. by rewrite Ha. Qed.

Lemma administrators_mono r r' : r'.(rb_memberships) = r.(rb_memberships) →
  (∀ u t, barred r' u t → barred r u t) → (∀ u t, held r u t → held r' u t) → keeps_administrators r r'.
Proof.
  intros Hm Hb Hh t (u & Hu & Ha). exists u. unfold is_active_member in *. rewrite Hm. split; [done|].
  by apply (administrator_kept r); [apply Hb|apply Hh|].
Qed.

(** More rows that allow, the same denies. *)
Lemma administrators_grow r roles r' : rwf r roles → r'.(rb_memberships) = r.(rb_memberships) →
  r'.(rb_denies) = r.(rb_denies) → r.(rb_permissions) ⊆ r'.(rb_permissions) →
  r.(rb_role_permissions) ⊆ r'.(rb_role_permissions) → r.(rb_membership_roles) ⊆ r'.(rb_membership_roles) →
  r.(rb_delegations) ⊆ r'.(rb_delegations) → keeps_administrators r r'.
Proof.
  intros Hr Hm Hd Hp Hrp Hmr Hdg. apply administrators_mono; [done| |].
  - intros u t (i & d & Hi & H1 & H2 & H3 & H4 & H5). rewrite Hd in Hi. exists i, d. split_and!; try done.
    by apply (names_same r roles r'.(rb_permissions)); [done|done|apply (rw_deny _ _ Hr i)|].
  - intros u t [H|H]; [left|right].
    + unfold has_role, assignment_reaches in *. rewrite decide_True in * by done.
      destruct H as (i & a & m & Hi & Hmm & Hact & Hh & Hreach & Hacc & j & rp & Hj & H1 & H2 & H3).
      exists i, a, m. split_and!; try done; [by eapply lookup_weaken|by rewrite Hm|].
      exists j, rp. split_and!; try done; by eapply lookup_weaken.
    + destruct H as (i & d & Hi & H1 & H2 & H3 & H4 & H5 & H6 & H7 & H8 & H9). exists i, d.
      split_and!; try done; [by eapply lookup_weaken|by eapply lookup_weaken|by rewrite Hm].
Qed.

Context (uuid4 : nat → uuid).

Lemma safe_insert {A} table with_table violates (row : A) :
  keeps (upholds sound) (insert_row uuid4 table with_table violates row) →
  (∀ r roles id, rwf r roles → table r !! id = None → keeps_administrators r (with_table (<[id := row]> (table r)) r)) →
  keeps safe (insert_row uuid4 table with_table violates row).
Proof.
  intros Hs Ha. apply safe_of; [done|]. intros st Hst. unfold insert_row.
  destruct (_ || _)%bool eqn:E; [by intros t|]. reflect_bools. eapply Ha; [exact Hst|]. by apply eq_None_not_Some.
Qed.

Lemma safe_record c t a i : keeps safe (record c t a i).
Proof. by apply safe_rows; [apply sound_record|]. Qed.
Lemma safe_in_rows {A} (f : rbac_rows → A) : keeps safe (in_rows f).
Proof. by apply safe_rows; [apply sound_in_rows|]. Qed.
Lemma safe_require f e : keeps safe (require_rows f e).
Proof. apply safe_rows; [apply sound_require|]. intros st. unfold require_rows. by destruct (f _). Qed.
Lemma safe_get_role t r : keeps safe (get_role t r).
Proof. apply safe_rows; [apply sound_get_role|]. intros st. unfold get_role. by destruct (role_exists _ _ _). Qed.
Lemma safe_get_permission p : keeps safe (get_permission_by_id p).
Proof. apply safe_rows; [apply sound_get_permission|]. intros st. unfold get_permission_by_id. by destruct (_ !! p). Qed.
Lemma safe_user_of o c : keeps safe (user_of o c).
Proof. apply safe_rows; [apply sound_user_of|]. by destruct c. Qed.
Lemma safe_tenant_row {A} (table : rbac_rows → gmap uuid A) tn t i e : keeps safe (tenant_row table tn t i e).
Proof.
  apply safe_rows; [apply sound_tenant_row|]. intros st. unfold tenant_row. destruct (_ !! i); [|done]. by destruct (bool_decide _).
Qed.
Lemma safe_on_integrity {A} (m h : RM A) : keeps safe m → keeps safe h → keeps safe (on_integrity_error m h).
Proof.
  intros Hm Hh st. unfold on_integrity_error. specialize (Hm st). destruct (m st) as [[a|[]] st']; try done.
  simpl in *. etrans; [done|apply Hh].
Qed.
Lemma safe_registers st st' : sound st' → registers st st' → safe st st'.
Proof.
  intros Hs (m & n & Hm & ->) Hst. split; [done|]. by eapply (administrators_grow _ st.(rs_roles)).
Qed.
Lemma safe_require_can a ty at_ t re ac e : keeps safe (require_can uuid4 now s a ty at_ t re ac e).
Proof.
  intros st Hst. apply safe_registers; [|apply require_can_registers|done]. by apply sound_require_can.
Qed.
Lemma safe_register re ac : keeps safe (register_permission_in uuid4 re ac).
Proof. intros st Hst. apply safe_registers; [|apply register_registers|done]. by apply sound_register. Qed.
Lemma safe_authorize c op t re ac sys : keeps safe (authorize_caller uuid4 now s c op t re ac sys).
Proof. destruct c; simpl; [apply safe_require_can..|]. keeps_steps. Qed.
Lemma safe_no_amplification c op t ps sc : keeps safe (require_no_amplification s c op t ps sc).
Proof. destruct c; simpl; [apply safe_require|keeps_steps..]. Qed.
Lemma safe_record_all c t a ids : keeps safe (record_all c t a ids).
Proof. induction ids; simpl; keeps_steps; [apply safe_record|done]. Qed.
Lemma safe_insert_role t n : keeps safe (insert_role uuid4 t n).
Proof.
  apply safe_rows; [apply sound_insert_role|]. intros st. unfold insert_role.
  destruct (bool_decide _); [done|]. by destruct (_ || _)%bool.
Qed.
Lemma safe_grant t ro pe : keeps safe (insert_role_permission uuid4 t ro pe).
Proof.
  apply safe_insert; [apply sound_grant|]. intros r roles id Hr Hid. eapply administrators_grow; try done.
  simpl. by apply insert_subseteq.
Qed.

(** ** Guarded changes *)

Lemma verified_safe st T affected r' : (sound st → rwf r' st.(rs_roles)) → r'.(rb_memberships) = st.(rs_rows).(rb_memberships) →
  (∀ v t, v ∉ affected → adm st.(rs_rows) t v → adm r' t v) → agree_on (λ a, a ≠ T) st.(rs_rows) r' →
  verify r' now s (guard_last_administrator st.(rs_rows) now s T affected) = None →
  safe st (put_rows r' st).
Proof.
  intros Hr Hm Hv Hag Hver Hst. split; [by apply Hr|]. intros t. apply (guard_covers _ _ T affected); try done.
  intros v t' Hno. by apply (outside_kept _ _ T).
Qed.

Lemma elem_of_membership_users r t m v mb : r.(rb_memberships) !! (t, v) = Some mb → mb.(tm_id) = m → v ∈ membership_users r t m.
Proof.
  intros Hm Hid. unfold membership_users. apply list_elem_of_fmap. exists ((t, v), mb). split; [done|].
  apply list_elem_of_filter. split; [done|]. by apply elem_of_map_to_list.
Qed.

(** The rows of one table, all but one of the tenant [T]. *)
Lemma agree_delete {A} (tn : A → uuid) T (m : gmap uuid A) id x : m !! id = Some x → tn x = T →
  agree tn (λ a, a ≠ T) m (delete id m).
Proof.
  intros Hx <- i r Hr. rewrite lookup_delete_Some. split; [|tauto]. intros Hi. split; [|done]. intros <-. congruence.
Qed.
Lemma agree_insert {A} (tn : A → uuid) T (m : gmap uuid A) id y : tn y = T → (∀ x, m !! id = Some x → tn x = T) →
  agree tn (λ a, a ≠ T) m (<[id := y]> m).
Proof.
  intros <- Hx i r Hr. rewrite lookup_insert_Some. split; [|by intros [[-> ->]|[_ ?]]].
  intros Hi. right. split; [|done]. intros <-. by apply Hr, Hx.
Qed.

Lemma safe_revoke_permission t ro pe c : keeps safe (revoke_permission uuid4 now s t ro pe c).
Proof.
  unfold revoke_permission. apply keeps_transaction; [apply _|].
  apply commits_bind; [apply _|apply keeps_commits, safe_authorize|intros []]. intros st x st' H.
  apply bind_Ok in H as (e & s1 & [= <- <-] & H). destruct (find_row _ _) as [id|] eqn:Ef; [|by injection H as _ <-].
  apply find_row_Some in Ef as (rp & Hrp & Hg). unfold is_grant in Hg.
  apply andb_true_iff in Hg as [[Ht%bool_decide_eq_true Hro%bool_decide_eq_true]%andb_true_iff _].
  apply bind_Ok in H as ([] & s1 & [-> Hver]%guarded_Ok & [= _ <-]).
  change (safe st (put_rows (with_role_permissions (delete id (rb_role_permissions (rs_rows st))) (rs_rows st)) st)).
  eapply verified_safe; [| | | |exact Hver]; try done.
  - intros Hst. apply (rwf_fewer st.(rs_rows)); try done. intros i y. rewrite lookup_delete_Some. tauto.
  - intros v t' Hv. apply administrator_kept; [done|]. intros [Hh|Hh]; [left|by right].
    unfold has_role, assignment_reaches in *. rewrite decide_True in * by done.
    destruct Hh as (i & a & m & Hi & Hmm & Hact & Hh & Hreach & Hacc & j & rp' & Hj & H3 & H4 & H5).
    exists i, a, m. split_and!; try done. exists j, rp'. split_and!; try done. simpl. apply lookup_delete_Some.
    split; [|done]. intros <-. assert (rp' = rp) as -> by congruence. apply Hv. unfold role_holders.
    apply list_elem_of_bind. exists (i, a). split; [|apply list_elem_of_filter; split; [|by apply elem_of_map_to_list]];
      simpl; [|split; congruence]. eapply elem_of_membership_users; [|by symmetry]. by rewrite <-Ht, H4.
  - split_and!; try done. by eapply agree_delete.
Qed.

Lemma safe_remove_role t m ro c : keeps safe (remove_role uuid4 now s t m ro c).
Proof.
  unfold remove_role. apply keeps_transaction; [apply _|].
  apply commits_bind; [apply _|apply keeps_commits, safe_authorize|intros []]. intros st x st' H.
  apply bind_Ok in H as (e & s1 & [= <- <-] & H). destruct (find_row _ _) as [id|] eqn:Ef; [|by injection H as _ <-].
  apply find_row_Some in Ef as (a & Ha & Hg). unfold is_assignment in Hg.
  apply andb_true_iff in Hg as [[Ht%bool_decide_eq_true Hho%bool_decide_eq_true]%andb_true_iff _].
  apply bind_Ok in H as ([] & s1 & [-> Hver]%guarded_Ok & [= _ <-]).
  change (safe st (put_rows (with_membership_roles (delete id (rb_membership_roles (rs_rows st))) (rs_rows st)) st)).
  eapply verified_safe; [| | | |exact Hver]; try done.
  - intros Hst. apply (rwf_fewer st.(rs_rows)); try done. intros i y. rewrite lookup_delete_Some. tauto.
  - intros v t' Hv. apply administrator_kept; [done|]. intros [Hh|Hh]; [left|by right].
    unfold has_role, assignment_reaches in *. rewrite decide_True in * by done.
    destruct Hh as (i & a' & mb & Hi & Hmm & Hact & Hh & Hreach). exists i, a', mb. split; [|exact (conj Hmm (conj Hact (conj Hh Hreach)))]. simpl.
    apply lookup_delete_Some. split; [|done]. intros <-. assert (a' = a) as -> by congruence. apply Hv.
    eapply elem_of_membership_users; [rewrite <-Ht; exact Hmm|congruence].
  - split_and!; try done. by eapply agree_delete.
Qed.

Lemma safe_revoke_delegation c t i : keeps safe (revoke_delegation uuid4 now s c t i).
Proof.
  unfold revoke_delegation. apply keeps_bind; [apply _|apply safe_user_of|intros u].
  apply keeps_transaction; [apply _|]. intros st x st' H.
  apply bind_Ok in H as (row & s1 & (-> & Hrow & Ht)%tenant_row_Ok & H). apply bind_Ok in H as ([] & s1 & H1 & H).
  assert (safe st s1 ∧ rb_delegations s1.(rs_rows) !! i = Some row) as [Hs1 Hrow1].
  { destruct (bool_decide _); [by injection H1 as <-|]. split.
    - exact (keeps_commits _ _ (safe_require_can _ _ _ _ _ _ _) _ _ _ H1).
    - by apply require_can_Ok in H1 as [(m & n & _ & ->) _]. }
  etrans; [exact Hs1|]. destruct (bool_decide (is_Some _)); [by injection H as _ <-|].
  apply bind_Ok in H as ([] & s2 & [-> Hver]%guarded_Ok & H). apply bind_Ok in H as ([] & s3 & [= <-] & [= _ <-]).
  change (safe s1 (put_rows (with_delegations (<[i := revoked_delegation now row]> (rb_delegations (rs_rows s1))) (rs_rows s1)) s1)).
  eapply verified_safe; [| | | |exact Hver]; try done.
  - intros Hst. destruct (rw_delegation _ _ Hst i row Hrow1). by apply rwf_put_delegation.
  - intros v t' Hv. apply administrator_kept; [done|]. intros [Hh|Hh]; [by left|right].
    destruct Hh as (j & d & Hj & Hty & Hde & Hrest). exists j, d. split; [|exact (conj Hty (conj Hde Hrest))]. simpl.
    rewrite lookup_insert_ne; [done|]. intros <-. assert (d = row) as -> by congruence. apply Hv.
    rewrite bool_decide_eq_true_2 by done. unfold delegate_id_column in Hde.
    rewrite bool_decide_eq_true_2 in Hde by done. rewrite Hde. by apply list_elem_of_singleton.
  - split_and!; try done. apply agree_insert; [done|]. intros y Hy. congruence.
Qed.

Lemma safe_create_deny c pu t sc pe : keeps safe (create_deny uuid4 now s c pu t sc pe).
Proof.
  unfold create_deny. apply keeps_bind; [apply _|apply safe_user_of|intros u]. 
  do 2 (apply keeps_bind; [apply _|keeps_steps|intros []]). apply keeps_bind; [apply _|apply safe_get_permission|intros _].
  apply keeps_transaction; [apply _|].
  apply commits_bind; [apply _|apply keeps_commits, safe_require_can|intros []]. intros st x st' H.
  apply bind_Ok in H as (b & s1 & [= <- <-] & H). apply bind_Ok in H as ([] & s1 & [= _ <-] & H).
  apply bind_Ok in H as (id & s1 & (Hid & Hvi & ->)%insert_row_Ok & H). apply bind_Ok in H as ([] & s2 & H1 & H).
  unfold verify_guard in H1. destruct (verify _ _ _ _) eqn:Hver; [done|]. injection H1 as <-.
  apply bind_Ok in H as ([] & s2 & [= <-] & [= _ <-]). set (d := mkDeny t PT_USER (Some pu) None sc pe None) in *.
  change (safe st (put_rows (with_denies (<[id := d]> (rb_denies (rs_rows st))) (rs_rows st)) st)).
  eapply verified_safe; [| | | |exact Hver]; try done.
  - intros Hst. apply rwf_put_deny; [|by simpl; eauto|done].
    apply orb_false_elim in Hvi as [_ Hp%negb_false_iff%bool_decide_eq_true]. done.
  - intros v t' Hv. apply administrator_kept; [|done]. intros (j & d' & Hj & Hr & Hty & Hpr & Hrest). simpl in Hj.
    apply lookup_insert_Some in Hj as [[<- <-]|[_ Hj]]; [|by exists j, d']. exfalso. apply Hv.
    unfold principal_id_column in Hpr. rewrite bool_decide_eq_true_2 in Hpr by done. injection Hpr as <-. by apply list_elem_of_singleton.
  - split_and!; try done. apply agree_insert; [done|]. intros y Hy. congruence.
Qed.

(** ** The rest take nothing from a user *)

Ltac safe_steps :=
  repeat (keeps_steps; try first
    [ apply safe_record | apply safe_in_rows | apply safe_require | apply safe_get_role | apply safe_get_permission
    | apply safe_user_of | apply safe_tenant_row | apply safe_register | apply safe_require_can | apply safe_authorize
    | apply safe_no_amplification | apply safe_grant | apply safe_insert_role | apply safe_on_integrity
    | apply safe_record_all ]).

Lemma safe_create_role t n c : keeps safe (create_role uuid4 now s t n c).
Proof. unfold create_role. safe_steps. Qed.
Lemma safe_register_permission re ac : keeps safe (register_permission uuid4 re ac).
Proof.
  apply safe_of; [apply sound_register_permission|]. intros st Hst. unfold register_permission.
  destruct (_ || _)%bool; [by intros t|]. destruct (find_row _ _) eqn:E; [by intros t|].
  unfold on_integrity_error, transaction. destruct (_ || _)%bool; [by intros t|].
  pose proof (register_registers uuid4 re ac st) as H. unfold register_permission_in in H. rewrite E in H.
  destruct (insert_row _ _ _ _ _ st) as [[a|[]] st'] eqn:Ei; try by intros t.
  destruct H as (m & n & Hm & Heq). simpl in Heq. subst st'. by eapply (administrators_grow _ st.(rs_roles)).
Qed.
Lemma safe_delete_role t ro c : keeps safe (delete_role uuid4 now s t ro c).
Proof.
  intros st Hst. split; [by apply sound_delete_role|]. unfold delete_role, transaction.
  destruct (bind _ _ _) as [[x|] st'] eqn:H; [|by intros t']. apply bind_Ok in H as ([] & s1 & H1 & H).
  destruct (keeps_commits _ _ (safe_authorize _ _ _ _ _ _) _ _ _ H1 Hst) as [_ Ha].
  apply bind_Ok in H as ([] & s2 & H2 & H). unfold get_role in H2. destruct (role_exists _ _ _); [|done].
  injection H2 as <-. apply bind_Ok in H as ([] & s2 & [-> _]%require_rows_Ok & H).
  apply bind_Ok in H as (s3 & s4 & [= <- <-] & H). apply bind_Ok in H as ([] & s4 & [= <-] & [= _ <-]). done.
Qed.
Lemma safe_grant_permission t ro pe c : keeps safe (grant_permission uuid4 now s t ro pe c).
Proof. unfold grant_permission. safe_steps. Qed.
Lemma safe_grant_registered t ro pe c : keeps safe (grant_registered_permission_to_role uuid4 t ro pe c).
Proof. unfold grant_registered_permission_to_role. safe_steps. Qed.


Lemma safe_insert_assignment t m ro sc : keeps safe (insert_assignment uuid4 t m ro sc).
Proof.
  apply safe_insert; [apply sound_insert_assignment|]. intros r roles id Hr Hid. eapply administrators_grow; try done.
  simpl. by apply insert_subseteq.
Qed.
Lemma safe_insert_account_assignment t a ro sc : keeps safe (insert_account_assignment uuid4 t a ro sc).
Proof. apply safe_insert; [apply sound_insert_account_assignment|]. intros r roles id Hr Hid. by eapply administrators_grow. Qed.
Lemma safe_insert_delegation d :
  paired d.(dg_delegate_type) d.(dg_delegate_principal_id) d.(dg_delegate_service_account_id) →
  keeps safe (insert_delegation_row uuid4 d).
Proof.
  intros Hp. apply safe_insert; [by apply sound_insert_delegation|]. intros r roles id Hr Hid.
  eapply administrators_grow; try done. simpl. by apply insert_subseteq.
Qed.

Lemma safe_assign t m ro sc c au : keeps safe au → keeps safe (insert_membership_role uuid4 t m ro sc c au).
Proof. intros Hau. unfold insert_membership_role. safe_steps; [done|apply safe_insert_assignment]. Qed.
Lemma safe_assign_role t m ro sc c : keeps safe (assign_role uuid4 now s t m ro sc c).
Proof. unfold assign_role. do 2 (apply keeps_bind; [apply _|safe_steps|intros ?]). apply safe_assign. safe_steps. Qed.
Lemma safe_assign_first t m ro sc c : keeps safe (assign_first_role_for_new_tenant uuid4 s t m ro sc c).
Proof.
  unfold assign_first_role_for_new_tenant. destruct c as [| |[]]; try (apply keeps_throw; apply _).
  apply keeps_bind; [apply _|safe_steps|intros ?]. apply safe_assign. safe_steps.
Qed.
Lemma safe_assign_sa t a ro sc c : keeps safe (assign_service_account_role uuid4 now s t a ro sc c).
Proof. unfold assign_service_account_role. safe_steps. apply safe_insert_account_assignment. Qed.
Lemma safe_remove_sa t a ro c : keeps safe (remove_service_account_role uuid4 now s t a ro c).
Proof.
  unfold remove_service_account_role. safe_steps. apply safe_of.
  - apply sound_update. intros r roles. apply (rwf_fewer r); try done. intros i x. rewrite lookup_delete_Some. tauto.
  - intros st Hst. by eapply (administrators_grow _ st.(rs_roles)).
Qed.
Lemma safe_delegate u pe d c :
  paired d.(dg_delegate_type) d.(dg_delegate_principal_id) d.(dg_delegate_service_account_id) →
  keeps safe (insert_delegation uuid4 now s u pe d c).
Proof. intros Hp. unfold insert_delegation, require_user_can. safe_steps. by apply safe_insert_delegation. Qed.
Lemma safe_create_delegation c de t sc pe st_ ex al : keeps safe (create_delegation uuid4 now s c de t sc pe st_ ex al).
Proof. unfold create_delegation. do 6 (apply keeps_bind; [apply _|safe_steps|intros ?]). apply safe_delegate; by simpl; eauto. Qed.
Lemma safe_create_delegation_sa c sa sat t sc pe st_ ex :
  keeps safe (create_delegation_to_service_account uuid4 now s c sa sat t sc pe st_ ex).
Proof.
  unfold create_delegation_to_service_account. do 6 (apply keeps_bind; [apply _|safe_steps|intros ?]).
  apply safe_delegate; by simpl; eauto.
Qed.

Lemma safe_create_deny_sa c sa sat t sc pe : keeps safe (create_deny_for_service_account uuid4 now s c sa sat t sc pe).
Proof.
  unfold create_deny_for_service_account. safe_steps. apply safe_insert; [apply sound_deny; by simpl; eauto|].
  intros r roles id Hr Hid. apply administrators_mono; [done| |done].
  intros u t' (i & d & Hi & Hreach & Hty & Hrest). simpl in Hi.
  apply lookup_insert_Some in Hi as [[<- <-]|[_ Hi]]; [done|by exists i, d].
Qed.

Lemma safe_revoke_deny c t i : keeps safe (revoke_deny uuid4 now s c t i).
Proof.
  apply safe_of; [apply sound_revoke_deny|]. intros st Hst. unfold revoke_deny, bind at 1.
  destruct (user_of "revoke_deny" c st) as [[u|] s0] eqn:Eu; [|intros t'; destruct c; [done|injection Eu as _ <-; exact id..]].
  apply user_of_Ok in Eu as [-> ->]. unfold transaction. destruct (bind _ _ _) as [[x|] st'] eqn:H; [|by intros t'].
  apply bind_Ok in H as (row & s1 & (-> & Hrow & Ht)%tenant_row_Ok & H). apply bind_Ok in H as ([] & s1 & H1 & H).
  destruct (keeps_commits _ _ (safe_require_can _ _ _ _ _ _ _) _ _ _ H1 Hst) as [_ Ha]. intros t' Ht'%Ha. revert t' Ht'.
  destruct (bool_decide (is_Some _)); [by injection H as _ <-|].
  apply bind_Ok in H as ([] & s2 & [= <-] & H). apply bind_Ok in H as ([] & s3 & [= <-] & [= _ <-]).
  apply administrators_mono; [done| |done]. intros v t' (j & d & Hj & Hr & Hty & Hpr & Hlive & Hn). simpl in Hj.
  apply lookup_insert_Some in Hj as [[<- <-]|[_ Hj]]; [done|by exists j, d].
Qed.

(** Support-access requests administer nothing. *)
Lemma safe_update_support f : (∀ r roles, rwf r roles → rwf (with_support (f r) r) roles) →
  keeps safe (update_rows (λ r, with_support (f r) r)).
Proof.
  intros Hf. apply safe_of; [by apply sound_update|]. intros st Hst. by eapply (administrators_grow _ st.(rs_roles)).
Qed.

(** An operation whose only rows are requests and registered permissions. *)
Definition supports (st st' : rbac_store) : Prop :=
  ∃ p q, st.(rs_rows).(rb_permissions) ⊆ p ∧ st'.(rs_rows) = with_support q (with_permissions p st.(rs_rows)).
#[local] Instance supports_preorder : PreOrder supports.
Proof.
  split.
  - intros st. exists st.(rs_rows).(rb_permissions), st.(rs_rows).(rb_support). split; [done|]. by destruct st as [[] ? ?].
  - intros st1 st2 st3 (p & q & Hp & E) (p' & q' & Hp' & E'). exists p', q'. rewrite E', E. rewrite E in Hp'. simpl in *.
    split; [by etrans|done].
Qed.
Lemma safe_supports {A} (m : RM A) : keeps (upholds sound) m → keeps supports m → keeps safe m.
Proof.
  intros Hs Hm. apply safe_of; [done|]. intros st Hst. destruct (Hm st) as (p & q & Hp & ->).
  by eapply (administrators_grow _ st.(rs_roles)).
Qed.
Lemma supports_rows {A} (m : RM A) : (∀ st, (m st).2.(rs_rows) = st.(rs_rows)) → keeps supports m.
Proof.
  intros H st. exists st.(rs_rows).(rb_permissions), st.(rs_rows).(rb_support). split; [done|]. rewrite H. by destruct st as [[] ? ?].
Qed.
Lemma supports_can a ty at_ t re ac e : keeps supports (require_can uuid4 now s a ty at_ t re ac e).
Proof.
  intros st. destruct (require_can_registers uuid4 now s a ty at_ t re ac e st) as (m & n & Hm & ->).
  exists m, st.(rs_rows).(rb_support). split; [done|]. by destruct st as [[] ? ?].
Qed.
Lemma supports_register re ac : keeps supports (register_permission_in uuid4 re ac).
Proof.
  intros st. destruct (register_registers uuid4 re ac st) as (m & n & Hm & ->).
  exists m, st.(rs_rows).(rb_support). split; [done|]. by destruct st as [[] ? ?].
Qed.
Lemma supports_require f e : keeps supports (require_rows f e).
Proof. apply supports_rows. intros st. unfold require_rows. by destruct (f _). Qed.
Lemma supports_update f : keeps (E := rbac_error) supports (update_rows (λ r, with_support (f r) r)).
Proof. intros st. exists st.(rs_rows).(rb_permissions), (f st.(rs_rows)). split; [done|]. by destruct st as [[] ? ?]. Qed.
Lemma supports_tenant_row {A} (table : rbac_rows → gmap uuid A) tn t i e : keeps supports (tenant_row table tn t i e).
Proof. apply supports_rows. intros st. unfold tenant_row. destruct (_ !! i); [|done]. by destruct (bool_decide _). Qed.
Lemma supports_insert v row : keeps supports (insert_row uuid4 rb_support with_support v row).
Proof.
  intros st. unfold insert_row. destruct (_ || _)%bool.
  - exists st.(rs_rows).(rb_permissions), st.(rs_rows).(rb_support). split; [done|]. by destruct st as [[] ? ?].
  - eexists st.(rs_rows).(rb_permissions), _. split; [done|]. by destruct st as [[] ? ?].
Qed.
Lemma supports_on_integrity {A} (m h : RM A) : keeps supports m → keeps supports h → keeps supports (on_integrity_error m h).
Proof.
  intros Hm Hh st. unfold on_integrity_error. specialize (Hm st). destruct (m st) as [[a|[]] st']; try done.
  simpl in *. etrans; [done|apply Hh].
Qed.
Lemma supports_record_all c t a ids : keeps supports (record_all c t a ids).
Proof. induction ids; simpl; keeps_steps; [by apply supports_rows|done]. Qed.

Ltac supports_steps :=
  repeat (keeps_steps; try first
    [ apply supports_can | apply supports_tenant_row | apply supports_update | apply supports_insert
    | apply supports_on_integrity | apply supports_record_all | apply supports_register | apply supports_require | by apply supports_rows ]).

Lemma safe_request c t re ex sc st_ : keeps safe (create_support_access_request uuid4 now s c t re ex sc st_).
Proof.
  apply safe_supports; [apply sound_request|]. destruct c as [u| |]; [|by apply supports_rows..].
  unfold create_support_access_request. supports_steps.
Qed.
Lemma safe_approve c t i : keeps safe (approve_support_access uuid4 now s c t i).
Proof.
  apply safe_supports; [apply sound_approve|]. destruct c as [u| |]; [|by apply supports_rows..].
  unfold approve_support_access, require_user_can. supports_steps.
Qed.
Lemma safe_deny_support c t i : keeps safe (deny_support_access uuid4 now s c t i).
Proof.
  apply safe_supports; [apply sound_deny_support|]. destruct c as [u| |]; [|by apply supports_rows..].
  unfold deny_support_access, require_user_can. supports_steps.
Qed.
Lemma safe_revoke_support c t i : keeps safe (revoke_support_access uuid4 now s c t i).
Proof.
  apply safe_supports; [apply sound_revoke_support|]. destruct c as [u| |]; [|by apply supports_rows..].
  unfold revoke_support_access, require_user_can. supports_steps.
Qed.
Lemma safe_revoke_tenant t c : keeps safe (revoke_tenant_support_access now s t c).
Proof. apply safe_supports; [apply sound_revoke_tenant|]. unfold revoke_tenant_support_access. supports_steps. Qed.

(** The operations that dispose of a tenant's or a user's rows. *)
Definition purges (cmd : rcommand) : bool := match cmd with RPurge _ _ | RPurgeUser _ _ => true | _ => false end.

Lemma rrun_safe cmd : purges cmd = false → keeps safe (rrun uuid4 now s cmd).
Proof.
  intros Hp. destruct cmd; try done; simpl; try (apply keeps_void; [apply _|]);
    try match goal with |- keeps _ (transaction _) => apply keeps_transaction; [apply _|apply keeps_commits] end;
    eauto using safe_create_role, safe_delete_role, safe_register_permission, safe_grant_permission, safe_grant_registered,
      safe_revoke_permission, safe_assign_role, safe_assign_first, safe_remove_role, safe_assign_sa, safe_remove_sa,
      safe_create_delegation, safe_create_delegation_sa, safe_revoke_delegation, safe_create_deny, safe_create_deny_sa,
      safe_revoke_deny, safe_request, safe_approve, safe_deny_support, safe_revoke_support, safe_revoke_tenant.
Qed.

(** C22: administering roles never takes a tenant's last administrator.  Every
    tenant that had an administrator (an active member allowed to create
    membership roles, not counting delegations that expire) has one after any
    administrative operation, accepted or refused: removing a role, revoking a
    permission or a delegation, and denying a permission are refused when a
    tenant, the operation's own or one below it, would be left without. *)
Theorem administration_keeps_administrators (cmd : rcommand) (st : rbac_store) (t : uuid) :
  sound st → purges cmd = false →
  is_Some (find_administrator st.(rs_rows) now s t None None) →
  is_Some (find_administrator (rrun uuid4 now s cmd st).2.(rs_rows) now s t None None).
Proof. intros Hst Hp. rewrite !find_administrator_spec. by apply rrun_safe. Qed.
End Guard.

(** ** A concrete deployment, and two gaps *)

Definition gdemo_uuid (n : nat) : uuid := (N.of_nat n + 5000)%N.
Abbreviation prov := (SystemCaller PROVISIONING).

(** User 1 is a member of acme (2000) with the role "ops" over its subtree and
    the role "reader" at acme itself; user 2 is an active member of both. *)
Definition gdemo_memberships : gmap (uuid * uuid) TenantMembership :=
  <[(2000%N, 1%N) := mkMembership 60 M_ACTIVE 1]> (<[(2001%N, 2%N) := mkMembership 61 M_ACTIVE 2]>
    (<[(2000%N, 2%N) := mkMembership 62 M_ACTIVE 3]> ∅)).
Definition gdemo_setup : list rcommand :=
  [RRegister "role_permission" "grant"; RRegister "project" "read"; RRegister "delegation_grant" "create";
   RRegister "membership_role" "create"; RRegister "membership_role" "delete";
   RCreateRole 2000 (lit "ops") prov; RCreateRole 2000 (lit "reader") prov;
   RGrant 2000 5005 5000 prov; RGrant 2000 5005 5002 prov; RGrant 2000 5005 5003 prov; RGrant 2000 5005 5004 prov;
   RGrant 2000 5006 5001 prov;
   RAssignFirst 2000 60 5005 SUBTREE prov; RAssignFirst 2000 60 5006 SELF prov].
Definition gdemo : rbac_store :=
  rhistory gdemo_uuid ((λ c, (10, hdemo, c)) <$> gdemo_setup) (no_authority gdemo_memberships ∅).

Lemma gdemo_sound : sound gdemo.
Proof. apply rhistory_sound. by split. Defined.

Abbreviation gdemo_run := (rrun gdemo_uuid 10 hdemo).
Definition gdemo_can (st : rbac_store) (u t : uuid) (resource action : string) : bool :=
  can st.(rs_rows) 10 hdemo u t action resource PT_USER None false.

(** Two gaps of the administration, on a concrete deployment.  First,
    [grant_permission] compares at SELF scope whatever the scope of the role's
    assignments: a person who may read projects at their own tenant only, and
    holds a role there with SUBTREE scope, grants the permission to that role
    and reads the projects of the tenants below.  Second, the unique index on
    active delegations has a NULL column in every row, so it never refuses: the
    same delegation is made twice, and after the first is revoked the delegate is
    still allowed. *)
Theorem administration_gaps :
  (let after := gdemo_run (RGrant 2000 5005 5001 (UserCaller 1)) gdemo in
   gdemo_can gdemo 1 2000 "project" "read" = true ∧ gdemo_can gdemo 1 2001 "project" "read" = false ∧
   after.1 = Ok tt ∧ gdemo_can after.2 1 2001 "project" "read" = true) ∧
  (let delegate := gdemo_run (RDelegate (UserCaller 1) 2 2000 SELF 5001 None None false) in
   let once := delegate gdemo in
   let twice := delegate once.2 in
   let revoked := gdemo_run (RRevokeDelegation (UserCaller 1) 2000 5014) twice.2 in
   gdemo_can gdemo 2 2000 "project" "read" = false ∧ once.1 = Ok tt ∧ twice.1 = Ok tt ∧ revoked.1 = Ok tt ∧
   gdemo_can revoked.2 2 2000 "project" "read" = true).
Proof. vm_compute. split_and!; reflexivity. Qed.

(** User 1 makes user 2 an administrator, and only then may resign. *)
Definition gdemo_shared : rbac_store := (gdemo_run (RAssign 2000 62 5005 SUBTREE (UserCaller 1)) gdemo).2.

Example gdemo_guard :
  (gdemo_run (RRemove 2000 60 5005 (UserCaller 1)) gdemo).1 = Raise (LastTenantAdministratorError 2000) ∧
  (gdemo_run (RRemove 2000 60 5005 (UserCaller 1)) gdemo_shared).1 = Ok tt.
Proof. split; vm_compute; reflexivity. Qed.

Lemma administration_keeps_administrators_witness :
  is_Some (find_administrator (gdemo_run (RRemove 2000 60 5005 (UserCaller 1)) gdemo_shared).2.(rs_rows) 10 hdemo 2000 None None).
Proof.
  apply (administration_keeps_administrators hdemo_cfg hdemo hdemo_hwf 10 gdemo_uuid (RRemove 2000 60 5005 (UserCaller 1))
    gdemo_shared 2000).
  - apply rrun_sound, gdemo_sound.
  - reflexivity.
  - exists 1%N. vm_compute. reflexivity.
Defined.

Lemma handout_never_amplifies_witness :
  ∃ u, UserCaller 1 = UserCaller u ∧
    (reaches hdemo gdemo.(rs_rows) 10 2 PT_USER 2001 "create" "membership_role" false ∨
     has_role gdemo.(rs_rows) hdemo u PT_USER 2001 "create" "membership_role").
Proof.
  apply (handout_never_amplifies hdemo_cfg hdemo hdemo_hwf gdemo_uuid 10 10 (RAssign 2000 62 5005 SUBTREE (UserCaller 1))
    (UserCaller 1) gdemo gdemo_shared 2 PT_USER 2001 "create" "membership_role" false).
  - exact gdemo_sound.
  - reflexivity.
  - vm_compute. reflexivity.
  - left. apply (roles_spec hdemo_cfg _ _ hdemo_hwf). vm_compute. reflexivity.
Defined.
