(* ===== verification/Identity.v ===== *)
(** * Identity (saas_os/core/identity: service.py, sessions.py,
    login_transactions.py, session_retention.py, invitation_status.py)

    Users and their external identities, memberships, service accounts,
    invitations, sessions and login transactions.  The registry (with the users),
    the rows of authorization (with memberships and service accounts) and the
    tenant audit trail are the stores of the other components; the store of this
    one holds them and its own tables.

    [now] is the instant of an operation, [uuid4] the random ids, [hash] the
    digest of a token ([hashlib.sha256], whose properties nothing here needs) and
    [casefold] Python's on whole strings; a fresh token is an argument of the
    operation that draws it. *)

From S2P Require Import Prelude PyStr TenantLifecycle PlatformAuthority PlatformService TenantHierarchy RbacDecision RbacService.

(** ** The store *)

Record Invitation : Type := mkInvitation {
  in_tenant_id : uuid;
  in_invited_email : pystr;
  in_token_hash : pystr;
  in_inviter_user_id : uuid;
  in_expires_at : datetime;
  in_accepted_at : option datetime;
  in_accepted_by_user_id : option uuid;
  in_revoked_at : option datetime;
  in_revoked_by_user_id : option uuid;
}.

Record Session : Type := mkSession {
  se_user_id : uuid;
  se_token_hash : pystr;
  se_expires_at : datetime;
  se_revoked_at : option datetime;
  se_verified_email : option pystr;
  se_multi_factor : bool;
  se_provider_authenticated_at : option datetime;
}.

Record LoginTransaction : Type := mkLogin {
  lt_state : pystr;
  lt_nonce : pystr;
  lt_code_verifier : pystr;
  lt_expires_at : datetime;
}.

(** core/api_keys/models.py *)
Record ApiKey : Type := mkApiKey {
  ak_tenant_id : uuid;
  ak_user_id : option uuid;
  ak_service_account_id : option uuid;
  ak_name : pystr;
  ak_key_hash : pystr;
  ak_created_at : datetime;
  ak_expires_at : option datetime;
  ak_revoked_at : option datetime;
}.

Record identity_store : Type := mkIdentity {
  is_tenancy : tenancy_store;                 (* tenants, users, external identities, operators *)
  is_rbac : rbac_store;                       (* memberships, service accounts, authorization, audit trail *)
  is_account_names : gmap uuid pystr;         (* core.service_accounts: name *)
  is_invitations : gmap uuid Invitation;
  is_sessions : gmap uuid Session;
  is_logins : gmap uuid LoginTransaction;
  is_keys : gmap uuid ApiKey;
}.

(** errors.py of identity and of api_keys *)
Inductive identity_error : Type :=
| IRbac (e : rbac_error)
| IPlatform (e : platform_error)
| UserNotFoundError (user_id : uuid)
| SessionNotFoundError
| SessionExpiredError (session_id : uuid)
| SessionRevokedError (session_id : uuid)
| InactiveUserError (user_id : uuid)
| LoginTransactionInvalidError
| DuplicateExternalIdentityError (issuer subject : string)
| InvalidExternalIdentityError
| ServiceAccountNotFoundError (tenant_id service_account_id : uuid)
| DuplicateServiceAccountNameError (tenant_id : uuid) (name : pystr)
| InvalidServiceAccountNameError
| InvalidInvitationEmailError
| DuplicateInvitationError (tenant_id : uuid) (email : pystr)
| InvitationNotFoundError (tenant_id invitation_id : uuid)
| InvitationAlreadyAcceptedError (invitation_id : uuid)
| InvitationNotAuthorizedError (actor_id tenant_id : uuid)
| InvitationInvalidError
| IMembershipNotFoundError (tenant_id membership_id : uuid)
| InvalidMembershipTransitionError (membership_id : uuid) (from to : MembershipStatus)
| InvalidUserStateError (user_id : uuid) (state : string)
| DeactivationRetryError (user_id : uuid)
| PlatformSelfTargetError (op : operation)
| DeactivationScanLimitError (op : operation) (ceiling : nat)
| EnrolledOperatorErasureError
| InvalidApiKeyNameError
| ApiKeyNotFoundError (tenant_id key_id : uuid)
| InvalidApiKeyError
| RevokedApiKeyError (key_id : uuid)
| TenantMembershipRequiredError (tenant_id user_id : uuid)
| ServiceAccountRequiredError (tenant_id service_account_id : uuid)
| ExpiredApiKeyError (key_id : uuid)
| InactiveServiceAccountError (key_id service_account_id : uuid)
| ApiKeyNotAuthorizedError (actor_id tenant_id : uuid)
| ApiKeyLimitExceededError (user_id : uuid) (limit : nat)
| IIntegrityError
| IDataError.

Abbreviation IM := (M identity_store identity_error).

(** ** Working on the stores of the other components *)

Definition put_rbac (rb : rbac_store) (st : identity_store) : identity_store :=
  mkIdentity st.(is_tenancy) rb st.(is_account_names) st.(is_invitations) st.(is_sessions) st.(is_logins) st.(is_keys).
Definition put_tenancy (s : tenancy_store) (st : identity_store) : identity_store :=
  mkIdentity s st.(is_rbac) st.(is_account_names) st.(is_invitations) st.(is_sessions) st.(is_logins) st.(is_keys).
Definition put_account_names (m : gmap uuid pystr) (st : identity_store) : identity_store :=
  mkIdentity st.(is_tenancy) st.(is_rbac) m st.(is_invitations) st.(is_sessions) st.(is_logins) st.(is_keys).
Definition put_invitations (m : gmap uuid Invitation) (st : identity_store) : identity_store :=
  mkIdentity st.(is_tenancy) st.(is_rbac) st.(is_account_names) m st.(is_sessions) st.(is_logins) st.(is_keys).
Definition put_sessions (m : gmap uuid Session) (st : identity_store) : identity_store :=
  mkIdentity st.(is_tenancy) st.(is_rbac) st.(is_account_names) st.(is_invitations) m st.(is_logins) st.(is_keys).
Definition put_logins (m : gmap uuid LoginTransaction) (st : identity_store) : identity_store :=
  mkIdentity st.(is_tenancy) st.(is_rbac) st.(is_account_names) st.(is_invitations) st.(is_sessions) m st.(is_keys).
Definition put_keys (m : gmap uuid ApiKey) (st : identity_store) : identity_store :=
  mkIdentity st.(is_tenancy) st.(is_rbac) st.(is_account_names) st.(is_invitations) st.(is_sessions) st.(is_logins) m.

Definition of_rbac_error (e : rbac_error) : identity_error :=
  match e with RIntegrityError => IIntegrityError | RDataError => IDataError | e => IRbac e end.

(** A computation of the authorization component in the same transaction. *)
Definition in_rbac {A : Type} (m : tenancy_store → RM A) : IM A :=
  λ st, match m st.(is_tenancy) st.(is_rbac) with
        | (Ok a, rb) => (Ok a, put_rbac rb st)
        | (Raise e, rb) => (Raise (of_rbac_error e), put_rbac rb st)
        end.
Definition in_platform {A : Type} (m : PM A) : IM A :=
  λ st, match m st.(is_tenancy).(ts_platform) with
        | (Ok a, p) => (Ok a, put_tenancy (set_platform p st.(is_tenancy)) st)
        | (Raise e, p) => (Raise (IPlatform e), put_tenancy (set_platform p st.(is_tenancy)) st)
        end.
Definition of_tenant {A : Type} (r : tenancy_store → result tenant_error A) : IM unit :=
  λ st, (match r st.(is_tenancy) with Ok _ => Ok tt | Raise e => Raise (IRbac (RTenant e)) end, st).

Definition require_open_tenant' (tenant_id : uuid) : IM unit := of_tenant (λ s, require_open_tenant s tenant_id).
Definition lock_accessible (tenant_id : uuid) : IM unit := of_tenant (λ s, lock_accessible_tenant s tenant_id).
Definition require_purging' (tenant_id : uuid) : IM unit := of_tenant (λ s, require_purging_tenant s tenant_id).
Definition irecord (c : caller) (tenant_id : uuid) (action : string) (resource_id : uuid) : IM unit :=
  in_rbac (λ _, record c tenant_id action resource_id).

Definition on_identity_integrity {A : Type} (m handler : IM A) : IM A :=
  λ st, match m st with
        | (Raise IIntegrityError, st') => handler st'
        | other => other
        end.
Definition modify (f : identity_store → identity_store) : IM unit := λ st, (Ok tt, f st).
Definition reads {A : Type} (f : identity_store → A) : IM A := λ st, (Ok (f st), st).
Definition refuse_if (p : identity_store → bool) (e : identity_error) : IM unit :=
  λ st, (if p st then Raise e else Ok tt, st).

Definition users (st : identity_store) : gmap uuid bool := st.(is_tenancy).(ts_platform).(ps_users).
Definition identities (st : identity_store) : gmap (string * string) uuid := st.(is_tenancy).(ts_platform).(ps_identities).
Definition memberships (st : identity_store) : gmap (uuid * uuid) TenantMembership := st.(is_rbac).(rs_rows).(rb_memberships).
Definition service_accounts (st : identity_store) : gmap uuid (uuid * ServiceAccountStatus) :=
  st.(is_rbac).(rs_rows).(rb_service_accounts).

Definition set_users (m : gmap uuid bool) (st : identity_store) : identity_store :=
  let p := st.(is_tenancy).(ts_platform) in
  put_tenancy (set_platform (mkPlatform m p.(ps_identities) p.(ps_operators) p.(ps_grants) p.(ps_audit) p.(ps_drawn))
                 st.(is_tenancy)) st.
Definition set_identities (m : gmap (string * string) uuid) (st : identity_store) : identity_store :=
  let p := st.(is_tenancy).(ts_platform) in
  put_tenancy (set_platform (mkPlatform p.(ps_users) m p.(ps_operators) p.(ps_grants) p.(ps_audit) p.(ps_drawn))
                 st.(is_tenancy)) st.
Definition set_memberships (m : gmap (uuid * uuid) TenantMembership) (st : identity_store) : identity_store :=
  let r := st.(is_rbac).(rs_rows) in
  put_rbac (put_rows (mkRbac m r.(rb_service_accounts) r.(rb_permissions) r.(rb_role_permissions) r.(rb_membership_roles)
    r.(rb_service_account_roles) r.(rb_delegations) r.(rb_denies) r.(rb_support)) st.(is_rbac)) st.
Definition set_service_accounts (m : gmap uuid (uuid * ServiceAccountStatus)) (st : identity_store) : identity_store :=
  let r := st.(is_rbac).(rs_rows) in
  put_rbac (put_rows (mkRbac r.(rb_memberships) m r.(rb_permissions) r.(rb_role_permissions) r.(rb_membership_roles)
    r.(rb_service_account_roles) r.(rb_delegations) r.(rb_denies) r.(rb_support)) st.(is_rbac)) st.

Section Operations.
Context (uuid4 : nat → uuid) (hash casefold : pystr → pystr) (now : datetime).

(** [uuid.uuid4()]: the next random id. *)
Definition fresh : IM uuid := λ st, (Ok (uuid4 st.(is_rbac).(rs_drawn)), put_rbac (rdraw st.(is_rbac)) st).

(** The insert of a row under a fresh id, with the constraints of its table. *)
Definition insert_fresh (violates : uuid → identity_store → bool) (write : uuid → identity_store → identity_store) : IM uuid :=
  do* id := fresh in
  do* _ := refuse_if (violates id) IIntegrityError in
  do* _ := modify (write id) in
  ret id.

(** ** Users and external identities *)

Definition create_user : IM uuid :=
  transaction (insert_fresh (λ id st, bool_decide (is_Some (users st !! id))) (λ id st, set_users (<[id := true]> (users st)) st)).

Definition get_user_or_raise (user_id : uuid) : IM uuid :=
  λ st, (if bool_decide (is_Some (users st !! user_id)) then Ok user_id else Raise (UserNotFoundError user_id), st).

Definition validate_external_identity (issuer subject : string) : IM unit :=
  lift (raise_if (has_control issuer || has_control subject) InvalidExternalIdentityError).

(** The insert of a link: unique, of an existing user, within the columns. *)
Definition insert_identity (user_id : uuid) (issuer subject : string) : IM unit :=
  do* _ := refuse_if (λ _, bool_decide (2048 < String.length issuer)%nat || bool_decide (255 < String.length subject)%nat)
             IDataError in
  do* _ := refuse_if (λ st, bool_decide (is_Some (identities st !! (issuer, subject))) || negb (bool_decide (is_Some (users st !! user_id))))
             IIntegrityError in
  modify (λ st, set_identities (<[(issuer, subject) := user_id]> (identities st)) st).

Definition link_external_identity (user_id : uuid) (issuer subject : string) : IM unit :=
  do* _ := validate_external_identity issuer subject in
  on_identity_integrity (transaction (insert_identity user_id issuer subject))
    (throw (DuplicateExternalIdentityError issuer subject)).

Definition find_external_identity (issuer subject : string) : IM (option uuid) :=
  do* _ := validate_external_identity issuer subject in reads (λ st, identities st !! (issuer, subject)).

(** The user is created before the link; when the link is lost, another request
    made it first. *)
Definition get_or_create_user_for_external_identity (issuer subject : string) : IM uuid :=
  do* existing := find_external_identity issuer subject in
  match existing with
  | Some user_id => get_user_or_raise user_id
  | None =>
      do* user_id := create_user in
      λ st, match link_external_identity user_id issuer subject st with
            | (Ok _, st') => (Ok user_id, st')
            | (Raise (DuplicateExternalIdentityError _ _), st') =>
                (do* existing := find_external_identity issuer subject in
                 match existing with
                 | None => throw (DuplicateExternalIdentityError issuer subject)
                 | Some user_id => get_user_or_raise user_id
                 end) st'
            | (Raise e, st') => (Raise e, st')
            end
  end.

(** Within the transaction of the caller; the two inserts are a savepoint. *)
Definition get_or_create_user_id_for_external_identity_in_transaction (issuer subject : string) : IM uuid :=
  do* existing := reads (λ st, identities st !! (issuer, subject)) in
  match existing with
  | Some user_id => ret user_id
  | None =>
      on_identity_integrity
        (transaction
           (do* user_id := insert_fresh (λ id st, bool_decide (is_Some (users st !! id))) (λ id st, set_users (<[id := true]> (users st)) st) in
            do* _ := insert_identity user_id issuer subject in
            ret user_id))
        (do* existing := reads (λ st, identities st !! (issuer, subject)) in
         match existing with
         | None => throw (DuplicateExternalIdentityError issuer subject)
         | Some user_id => ret user_id
         end)
  end.

(** ** Memberships *)

Definition iauthorize (c : caller) (operation : string) (tenant_id : uuid) (resource action : string)
    (system_authorities : list SystemAuthority) : IM unit :=
  in_rbac (λ s, authorize_caller uuid4 now s c operation tenant_id resource action system_authorities).

Definition membership_by_id (st : identity_store) (tenant_id membership_id : uuid) : option (uuid * TenantMembership) :=
  (λ p : uuid * uuid * TenantMembership, (p.1.2, p.2)) <$>
    find (λ p : uuid * uuid * TenantMembership, bool_decide (p.1.1 = tenant_id) && bool_decide (p.2.(tm_id) = membership_id))
      (map_to_list (memberships st)).

Definition insert_membership (tenant_id user_id : uuid) : IM uuid :=
  insert_fresh
    (λ id st, existsb (λ p : uuid * uuid * TenantMembership, bool_decide (p.2.(tm_id) = id)) (map_to_list (memberships st)) ||
              bool_decide (is_Some (memberships st !! (tenant_id, user_id))) ||
              negb (bool_decide (is_Some (users st !! user_id))) ||
              negb (bool_decide (is_Some (st.(is_tenancy).(ts_tenants) !! tenant_id))))
    (λ id st, set_memberships (<[(tenant_id, user_id) := mkMembership id M_ACTIVE now]> (memberships st)) st).

Definition add_tenant_membership (tenant_id user_id : uuid) (c : caller) : IM uuid :=
  do* _ := require_open_tenant' tenant_id in
  transaction
    (do* _ := iauthorize c "add_tenant_membership" tenant_id "membership" "create" [PROVISIONING] in
     do* id := insert_membership tenant_id user_id in
     do* _ := irecord c tenant_id "membership.create" id in
     ret id).

(** The administrator guard, in the session of the change. *)
Definition iguard (tenant_id : uuid) (affected : list uuid) : IM (list (uuid * option uuid)) :=
  λ st, (Ok (guard_last_administrator st.(is_rbac).(rs_rows) now st.(is_tenancy) tenant_id affected), st).
Definition iverify (before : list (uuid * option uuid)) : IM unit := in_rbac (λ s, verify_guard now s before).

Definition set_membership_status (tenant_id user_id : uuid) (m : TenantMembership) (to_status : MembershipStatus) : IM unit :=
  modify (λ st, set_memberships (<[(tenant_id, user_id) := mkMembership m.(tm_id) to_status m.(tm_created_at)]> (memberships st)) st).

(** [_transition_membership_status]; [verb] names the operation, the permission
    and the audit action. *)
Definition transition_membership_status (tenant_id membership_id : uuid) (allowed_from : list MembershipStatus)
    (to_status : MembershipStatus) (idempotent_from : list MembershipStatus) (c : caller) (verb : string) : IM unit :=
  transaction
    (do* _ := iauthorize c (verb +:+ "_membership") tenant_id "membership" verb [] in
     do* row := reads (λ st, membership_by_id st tenant_id membership_id) in
     match row with
     | None => throw (IMembershipNotFoundError tenant_id membership_id)
     | Some (user_id, m) =>
         if bool_decide (m.(tm_status) ∈ idempotent_from) then ret tt
         else if negb (bool_decide (m.(tm_status) ∈ allowed_from))
         then throw (InvalidMembershipTransitionError membership_id m.(tm_status) to_status)
         else
           do* _ := if bool_decide (to_status = M_ACTIVE) then set_membership_status tenant_id user_id m to_status
                    else do* before := iguard tenant_id [user_id] in
                         do* _ := set_membership_status tenant_id user_id m to_status in
                         iverify before in
           irecord c tenant_id ("membership." +:+ verb) membership_id
     end).

Definition suspend_membership (tenant_id membership_id : uuid) (c : caller) : IM unit :=
  transition_membership_status tenant_id membership_id [M_ACTIVE] M_SUSPENDED [M_SUSPENDED] c "suspend".
Definition reactivate_membership (tenant_id membership_id : uuid) (c : caller) : IM unit :=
  do* _ := require_open_tenant' tenant_id in
  transition_membership_status tenant_id membership_id [M_SUSPENDED] M_ACTIVE [M_ACTIVE] c "reactivate".
Definition revoke_membership (tenant_id membership_id : uuid) (c : caller) : IM unit :=
  transition_membership_status tenant_id membership_id [M_ACTIVE; M_SUSPENDED] M_REVOKED [M_REVOKED] c "revoke".

(** ** Service accounts *)

Definition account_of (st : identity_store) (tenant_id service_account_id : uuid) : option ServiceAccountStatus :=
  lock_service_account_status st.(is_rbac).(rs_rows) tenant_id service_account_id.

(** [uq_service_accounts_tenant_name] *)
Definition account_name_taken (st : identity_store) (tenant_id : uuid) (name : pystr) : bool :=
  existsb (λ p : uuid * (uuid * ServiceAccountStatus),
             bool_decide (p.2.1 = tenant_id) && bool_decide (st.(is_account_names) !! p.1 = Some name))
    (map_to_list (service_accounts st)).

Definition create_service_account (tenant_id : uuid) (name : pystr) (c : caller) : IM uuid :=
  if has_control_characters name then throw InvalidServiceAccountNameError
  else
    do* _ := require_open_tenant' tenant_id in
    on_identity_integrity
      (transaction
         (do* _ := iauthorize c "create_service_account" tenant_id "service_account" "create" [PROVISIONING] in
          do* _ := lock_accessible tenant_id in
          do* _ := refuse_if (λ _, bool_decide (200 < length name)%nat) IDataError in
          do* id := insert_fresh (λ id st, bool_decide (is_Some (service_accounts st !! id)) || account_name_taken st tenant_id name)
                      (λ id st, put_account_names (<[id := name]> st.(is_account_names))
                         (set_service_accounts (<[id := (tenant_id, SA_ACTIVE)]> (service_accounts st)) st)) in
          do* _ := irecord c tenant_id "service_account.create" id in
          ret id))
      (throw (DuplicateServiceAccountNameError tenant_id name)).

(** [_set_service_account_status] *)
Definition set_service_account_status (tenant_id service_account_id : uuid) (status : ServiceAccountStatus) (c : caller)
    (audit_action : string) (authorize : IM unit) : IM unit :=
  transaction
    (do* _ := authorize in
     do* account := reads (λ st, account_of st tenant_id service_account_id) in
     match account with
     | None => throw (ServiceAccountNotFoundError tenant_id service_account_id)
     | Some current =>
         if bool_decide (current = status) then ret tt
         else
           do* _ := modify (λ st, set_service_accounts (<[service_account_id := (tenant_id, status)]> (service_accounts st)) st) in
           irecord c tenant_id audit_action service_account_id
     end).

Definition disable_service_account (tenant_id service_account_id : uuid) (c : caller) : IM unit :=
  set_service_account_status tenant_id service_account_id SA_DISABLED c "service_account.disable"
    (iauthorize c "disable_service_account" tenant_id "service_account" "disable" []).
Definition enable_service_account (tenant_id service_account_id : uuid) (c : caller) : IM unit :=
  do* _ := require_open_tenant' tenant_id in
  set_service_account_status tenant_id service_account_id SA_ACTIVE c "service_account.enable"
    (iauthorize c "enable_service_account" tenant_id "service_account" "enable" []).

(** ** Invitations *)

Definition DEFAULT_INVITATION_LIFETIME : timedelta := 7 * 86400 * 1000000.
Definition MAX_INVITATION_LIFETIME : timedelta := 30 * 86400 * 1000000.
Definition MAX_INVITED_EMAIL_LENGTH : nat := 320.

(** [_normalize_email] *)
Definition normalize_email (invited_email : pystr) : result identity_error pystr :=
  let normalized := casefold (strip invited_email) in
  if existsb (λ c, is_control c || ((0xD800 <=? c) && (c <=? 0xDFFF))%N) normalized then Raise InvalidInvitationEmailError
  else if bool_decide (normalized = []) || negb (bool_decide (64%N ∈ normalized)) || startswith [64%N] normalized
  then Raise InvalidInvitationEmailError
  else if bool_decide (MAX_INVITED_EMAIL_LENGTH < length normalized)%nat then Raise InvalidInvitationEmailError
  else Ok normalized.

(** [uq_invitations_live_unique], the unique token and the checks of the table. *)
Definition invitation_conflicts (i : Invitation) (st : identity_store) : bool :=
  exists_row st.(is_invitations) (λ j,
    (bool_decide (j.(in_tenant_id) = i.(in_tenant_id)) && bool_decide (j.(in_invited_email) = i.(in_invited_email)) &&
     bool_decide (j.(in_accepted_at) = None) && bool_decide (j.(in_revoked_at) = None)) ||
    bool_decide (j.(in_token_hash) = i.(in_token_hash))) ||
  (i.(in_expires_at) <=? now).

Definition iuser_of (operation : string) (c : caller) : IM uuid :=
  match c with UserCaller u => ret u | _ => throw (IRbac (RCallerTypeError operation)) end.

Definition create_invitation (tenant_id : uuid) (invited_email raw_token : pystr) (c : caller) (expires_at : option datetime) :
    IM uuid :=
  do* u := iuser_of "create_invitation" c in
  do* _ := require_open_tenant' tenant_id in
  do* normalized_email := lift (normalize_email invited_email) in
  let resolved := default (now + DEFAULT_INVITATION_LIFETIME) expires_at in
  let resolved := if MAX_INVITATION_LIFETIME <? resolved - now then now + MAX_INVITATION_LIFETIME else resolved in
  let invitation := mkInvitation tenant_id normalized_email (hash raw_token) u resolved None None None None in
  on_identity_integrity
    (transaction
       (do* _ := in_rbac (λ s, register_permission_in uuid4 "invitation" "create") in
        do* _ := refuse_if (λ st, negb (can st.(is_rbac).(rs_rows) now st.(is_tenancy) u tenant_id "create" "invitation" PT_USER None false))
                   (InvitationNotAuthorizedError u tenant_id) in
        do* id := insert_fresh (λ id st, bool_decide (is_Some (st.(is_invitations) !! id)) || invitation_conflicts invitation st)
                    (λ id st, put_invitations (<[id := invitation]> st.(is_invitations)) st) in
        do* _ := irecord c tenant_id "invitation.create" id in
        ret id))
    (throw (DuplicateInvitationError tenant_id normalized_email)).

Definition put_invitation (id : uuid) (i : Invitation) : IM unit :=
  modify (λ st, put_invitations (<[id := i]> st.(is_invitations)) st).

Definition revoked_invitation (u : uuid) (i : Invitation) : Invitation :=
  mkInvitation i.(in_tenant_id) i.(in_invited_email) i.(in_token_hash) i.(in_inviter_user_id) i.(in_expires_at)
    i.(in_accepted_at) i.(in_accepted_by_user_id) (Some now) (Some u).
Definition accepted_invitation (u : uuid) (i : Invitation) : Invitation :=
  mkInvitation i.(in_tenant_id) i.(in_invited_email) i.(in_token_hash) i.(in_inviter_user_id) i.(in_expires_at)
    (Some now) (Some u) i.(in_revoked_at) i.(in_revoked_by_user_id).

Definition revoke_invitation (tenant_id invitation_id : uuid) (c : caller) : IM unit :=
  do* u := iuser_of "revoke_invitation" c in
  transaction
    (do* _ := in_rbac (λ s, register_permission_in uuid4 "invitation" "revoke") in
     do* _ := refuse_if (λ st, negb (can st.(is_rbac).(rs_rows) now st.(is_tenancy) u tenant_id "revoke" "invitation" PT_USER None false))
                (InvitationNotAuthorizedError u tenant_id) in
     do* row := reads (λ st, st.(is_invitations) !! invitation_id) in
     match row with
     | None => throw (InvitationNotFoundError tenant_id invitation_id)
     | Some i =>
         if negb (bool_decide (i.(in_tenant_id) = tenant_id)) then throw (InvitationNotFoundError tenant_id invitation_id)
         else if bool_decide (is_Some i.(in_revoked_at)) then ret tt
         else if bool_decide (is_Some i.(in_accepted_at)) then throw (InvitationAlreadyAcceptedError invitation_id)
         else
           do* _ := put_invitation invitation_id (revoked_invitation u i) in
           irecord c tenant_id "invitation.revoke" invitation_id
     end).

Definition isascii (s : pystr) : bool := forallb (λ c, (c <? 128)%N) s.

(** The invitation accepts this address: ASCII both, equal once folded. *)
Definition email_matches (accepting_email : option pystr) (i : Invitation) : bool :=
  match accepting_email with
  | None => true
  | Some e => isascii e && isascii i.(in_invited_email) && bool_decide (casefold (strip e) = i.(in_invited_email))
  end.

(** [_consume_locked_invitation] *)
Definition consume_locked_invitation (tenant_id invitation_id : uuid) (token_hash : pystr) (accepting_user_id : uuid)
    (accepting_email : option pystr) : IM unit :=
  do* row := reads (λ st, st.(is_invitations) !! invitation_id) in
  match row with
  | None => throw InvitationInvalidError
  | Some i =>
      do* _ := refuse_if (λ st, negb (accessible st.(is_tenancy) tenant_id)) InvitationInvalidError in
      if negb (bool_decide (i.(in_tenant_id) = tenant_id)) || negb (bool_decide (i.(in_token_hash) = token_hash)) ||
         bool_decide (is_Some i.(in_accepted_at)) || bool_decide (is_Some i.(in_revoked_at)) || (i.(in_expires_at) <=? now)
      then throw InvitationInvalidError
      else if negb (email_matches accepting_email i) then throw InvitationInvalidError
      else
        do* _ := put_invitation invitation_id (accepted_invitation accepting_user_id i) in
        do* m := reads (λ st, memberships st !! (tenant_id, accepting_user_id)) in
        match m with
        | None => do* _ := insert_membership tenant_id accepting_user_id in ret tt
        | Some m =>
            if bool_decide (m.(tm_status) = M_ACTIVE) then ret tt
            else throw (InvalidMembershipTransitionError m.(tm_id) m.(tm_status) M_ACTIVE)
        end
  end.

Definition find_invitation (st : identity_store) (tenant_id : uuid) (token_hash : pystr) : option uuid :=
  find_row st.(is_invitations) (λ i, bool_decide (i.(in_tenant_id) = tenant_id) && bool_decide (i.(in_token_hash) = token_hash)).

Definition accept_invitation (raw_token : pystr) (tenant_id : uuid) (c : caller) (accepting_email : option pystr) : IM unit :=
  do* u := iuser_of "accept_invitation" c in
  transaction
    (do* _ := in_rbac (λ s, require_active_user s u "accept_invitation" tenant_id) in
     do* found := reads (λ st, find_invitation st tenant_id (hash raw_token)) in
     match found with
     | None => throw InvitationInvalidError
     | Some invitation_id =>
         do* _ := consume_locked_invitation tenant_id invitation_id (hash raw_token) u accepting_email in
         irecord c tenant_id "invitation.accept" invitation_id
     end).

(** invitation_status.py *)
Inductive InvitationStatus : Type := I_PENDING | I_ACCEPTED | I_EXPIRED | I_REVOKED.
#[export] Instance InvitationStatus_eq_dec : EqDecision InvitationStatus.
Proof. solve_decision. Defined.

Definition compute_invitation_status (i : Invitation) : InvitationStatus :=
  if bool_decide (is_Some i.(in_revoked_at)) then I_REVOKED
  else if bool_decide (is_Some i.(in_accepted_at)) then I_ACCEPTED
  else if i.(in_expires_at) <=? now then I_EXPIRED
  else I_PENDING.

(** ** Sessions (sessions.py) *)

Definition DEFAULT_SESSION_LIFETIME : timedelta := 12 * 3600 * 1000000.

Definition normalize_verified_email (email : option pystr) : option pystr :=
  match email with
  | None => None
  | Some e =>
      if negb (isascii e) then None
      else let normalized := casefold (strip e) in
           if bool_decide (normalized = []) || bool_decide (320 < length normalized)%nat then None else Some normalized
  end.

(** [record_operator_session_issued_in_transaction] (platform_authority/audit.py) *)
Definition record_operator_session_issued (user_id : uuid) : IM bool :=
  do* enrolled := reads (λ st, unrevoked_operator_exists st.(is_tenancy).(ts_platform) user_id) in
  if enrolled then
    do* _ := in_platform (record_platform_event (UserCaller user_id) "platform.operator.session_issued" (TargetOther "session" None) None) in
    ret true
  else ret false.

Definition issue_session (user_id : uuid) (raw_token : pystr) (lifetime : timedelta) (verified_email : option pystr)
    (multi_factor : bool) (provider_authenticated_at : option datetime) : IM uuid :=
  transaction
    (do* _ := refuse_if (λ st, negb (is_active_user st.(is_tenancy).(ts_platform) user_id)) (InactiveUserError user_id) in
     let session := mkSession user_id (hash raw_token) (now + lifetime) None (normalize_verified_email verified_email)
                      multi_factor provider_authenticated_at in
     do* id := insert_fresh
                 (λ id st, bool_decide (is_Some (st.(is_sessions) !! id)) ||
                           exists_row st.(is_sessions) (λ r, bool_decide (r.(se_token_hash) = session.(se_token_hash))))
                 (λ id st, put_sessions (<[id := session]> st.(is_sessions)) st) in
     do* _ := record_operator_session_issued user_id in
     ret id).

Definition find_session (st : identity_store) (token_hash : pystr) : option (uuid * Session) :=
  find (λ p : uuid * Session, bool_decide (p.2.(se_token_hash) = token_hash)) (map_to_list st.(is_sessions)).

Definition validate_session (raw_token : pystr) : IM (uuid * Session) :=
  λ st, (match find_session st (hash raw_token) with
         | None => Raise SessionNotFoundError
         | Some (id, r) =>
             if bool_decide (is_Some r.(se_revoked_at)) then Raise (SessionRevokedError id)
             else if r.(se_expires_at) <=? now then Raise (SessionExpiredError id)
             else if negb (is_active_user st.(is_tenancy).(ts_platform) r.(se_user_id)) then Raise (InactiveUserError r.(se_user_id))
             else Ok (id, r)
         end, st).

Definition with_revocation (at_ : option datetime) (email : option pystr) (r : Session) : Session :=
  mkSession r.(se_user_id) r.(se_token_hash) r.(se_expires_at) at_ email r.(se_multi_factor) r.(se_provider_authenticated_at).

Definition revoke_session (session_id : uuid) : IM unit :=
  transaction
    (do* row := reads (λ st, st.(is_sessions) !! session_id) in
     match row with
     | None => throw SessionNotFoundError
     | Some r =>
         let revoked_at := match r.(se_revoked_at) with None => Some now | some => some end in
         modify (λ st, put_sessions (<[session_id := with_revocation revoked_at None r]> st.(is_sessions)) st)
     end).

Definition list_user_verified_emails (st : identity_store) (user_id : uuid) : gset pystr :=
  list_to_set (omap (λ p : uuid * Session, if bool_decide (p.2.(se_user_id) = user_id) then p.2.(se_verified_email) else None)
                 (map_to_list st.(is_sessions))).

Definition purge_user_sessions (user_id : uuid) : IM nat :=
  λ st, let kept := filter (λ p : uuid * Session, p.2.(se_user_id) ≠ user_id) st.(is_sessions) in
        (Ok (size st.(is_sessions) - size kept)%nat, put_sessions kept st).

(** *** session_retention.py *)

Record SessionRetentionConfig : Type := mkSessionRetention {
  sc_revoked_grace_period_seconds : Z;
  sc_cleanup_batch_size : nat;
}.
Definition MAX_BATCHES_PER_PHASE : nat := N.to_nat 10000.

Record SessionCleanupResult : Type := mkCleanup { cl_expired_deleted : nat; cl_revoked_deleted : nat; cl_batches : nat }.

(** [_delete_one_batch]: at most [batch_size] of the rows, by id, that no other
    transaction holds ([locked]). *)
Definition delete_one_batch (condition : Session → bool) (batch_size : nat) (locked : gset uuid) : IM nat :=
  λ st, let candidates := merge_sort N.le (filter (λ p : uuid * Session, condition p.2 = true ∧ p.1 ∉ locked) (map_to_list st.(is_sessions))).*1 in
        let ids := take batch_size candidates in
        (Ok (length ids), put_sessions (foldr delete st.(is_sessions) ids) st).

(** One phase: batches until one is empty, [n] at most. *)
Fixpoint cleanup_phase (n : nat) (condition : Session → bool) (batch_size : nat) (locked : gset uuid) : IM (nat * nat) :=
  match n with
  | 0%nat => ret (0, 0)%nat
  | S n =>
      do* removed := delete_one_batch condition batch_size locked in
      match removed with
      | 0%nat => ret (0, 0)%nat
      | _ => do* rest := cleanup_phase n condition batch_size locked in
             ret (removed + rest.1, S rest.2)%nat
      end
  end.

Definition expired (r : Session) : bool := r.(se_expires_at) <? now.
Definition revoked_before (cutoff : datetime) (r : Session) : bool :=
  match r.(se_revoked_at) with Some t => t <? cutoff | None => false end.

Definition cleanup_expired_sessions (cfg : SessionRetentionConfig) (locked : gset uuid) : IM SessionCleanupResult :=
  let grace_cutoff := now - cfg.(sc_revoked_grace_period_seconds) * 1000000 in
  do* e := cleanup_phase MAX_BATCHES_PER_PHASE expired cfg.(sc_cleanup_batch_size) locked in
  do* r := cleanup_phase MAX_BATCHES_PER_PHASE (revoked_before grace_cutoff) cfg.(sc_cleanup_batch_size) locked in
  ret (mkCleanup e.1 r.1 (e.2 + r.2)%nat).

(** ** Login transactions (login_transactions.py) *)

Definition begin_login_transaction (state nonce code_verifier : pystr) (lifetime : timedelta) : IM uuid :=
  transaction
    (insert_fresh (λ id st, bool_decide (is_Some (st.(is_logins) !! id)) ||
                            exists_row st.(is_logins) (λ l, bool_decide (l.(lt_state) = state)))
       (λ id st, put_logins (<[id := mkLogin state nonce code_verifier (now + lifetime)]> st.(is_logins)) st)).

(** The row is deleted whatever the outcome; the checks come after the commit. *)
Definition consume_login_transaction (transaction_id : uuid) (state : pystr) : IM (pystr * pystr) :=
  if bool_decide (state = []) then throw LoginTransactionInvalidError
  else
    do* l := transaction
               (do* row := reads (λ st, st.(is_logins) !! transaction_id) in
                match row with
                | None => throw LoginTransactionInvalidError
                | Some l => do* _ := modify (λ st, put_logins (delete transaction_id st.(is_logins)) st) in ret l
                end) in
    if (l.(lt_expires_at) <=? now) || negb (bool_decide (l.(lt_state) = state)) then throw LoginTransactionInvalidError
    else ret (l.(lt_nonce), l.(lt_code_verifier)).

Definition purge_expired_login_transactions : IM nat :=
  λ st, let kept := filter (λ p : uuid * LoginTransaction, now ≤ p.2.(lt_expires_at)) st.(is_logins) in
        (Ok (size st.(is_logins) - size kept)%nat, put_logins kept st).

(** ** The purge of a tenant *)

Definition purge_tenant_invitations (tenant_id : uuid) : IM nat :=
  do* _ := require_purging' tenant_id in
  λ st, let kept := filter (λ p : uuid * Invitation, p.2.(in_tenant_id) ≠ tenant_id) st.(is_invitations) in
        (Ok (size st.(is_invitations) - size kept)%nat, put_invitations kept st).

(** Within the transaction of the erasure. *)
Definition delete_user_invitations_in_tenant (tenant_id user_id : uuid) (addresses : list pystr) : IM nat :=
  λ st, let mine (i : Invitation) := bool_decide (i.(in_tenant_id) = tenant_id) && bool_decide (i.(in_accepted_by_user_id) = Some user_id) in
        let wanted := addresses ++ omap (λ p : uuid * Invitation, if mine p.2 then Some p.2.(in_invited_email) else None)
                                     (map_to_list st.(is_invitations)) in
        let gone (i : Invitation) := bool_decide (i.(in_tenant_id) = tenant_id) &&
                                     (mine i || bool_decide (i.(in_invited_email) ∈ wanted)) in
        let kept := filter (λ p : uuid * Invitation, gone p.2 = false) st.(is_invitations) in
        (Ok (size st.(is_invitations) - size kept)%nat, put_invitations kept st).

(** The rows that name a service account: its roles and keys, the delegations
    and denies of any tenant, and the entries of the audit trail ([audited]).
    Their foreign keys refuse its deletion. *)
Definition account_is_named (st : identity_store) (audited : gset uuid) (tenant_id service_account_id : uuid) : bool :=
  let r := st.(is_rbac).(rs_rows) in
  exists_row r.(rb_service_account_roles) (λ a, bool_decide (a.(ra_tenant_id) = tenant_id) && bool_decide (a.(ra_holder_id) = service_account_id)) ||
  exists_row r.(rb_delegations) (λ d, bool_decide (d.(dg_delegate_service_account_id) = Some service_account_id)) ||
  exists_row r.(rb_denies) (λ d, bool_decide (d.(dn_principal_service_account_id) = Some service_account_id)) ||
  exists_row st.(is_keys) (λ k, bool_decide (k.(ak_tenant_id) = tenant_id) && bool_decide (k.(ak_service_account_id) = Some service_account_id)) ||
  bool_decide (service_account_id ∈ audited).

Definition tenant_accounts (st : identity_store) (tenant_id : uuid) : list uuid :=
  (filter (λ p : uuid * (uuid * ServiceAccountStatus), p.2.1 = tenant_id) (map_to_list (service_accounts st))).*1.

(** [audited]: [referenced_service_account_ids] of the audit trail. *)
Definition purge_tenant_service_accounts (tenant_id : uuid) (audited keep : gset uuid) : IM (nat * gset uuid) :=
  do* _ := require_purging' tenant_id in
  transaction
    (do* ids := reads (λ st, tenant_accounts st tenant_id) in
     let deleted := filter (λ id, id ∉ audited ∪ keep) ids in
     let retained := filter (λ id, id ∈ audited ∪ keep) ids in
     do* _ := refuse_if (λ st, existsb (account_is_named st audited tenant_id) deleted) IIntegrityError in
     do* _ := modify (λ st,
                put_account_names (foldr delete st.(is_account_names) deleted)
                  (set_service_accounts
                     (foldr (λ id m, <[id := (tenant_id, SA_DISABLED)]> m) (foldr delete (service_accounts st) deleted) retained) st)) in
     ret (length deleted, list_to_set retained)).

(** A membership that a role assignment or a key names is not deleted (nor one
    that a notification names, a table that is not modelled). *)
Definition membership_is_named (st : identity_store) (tenant_id user_id membership_id : uuid) : bool :=
  exists_row st.(is_rbac).(rs_rows).(rb_membership_roles)
    (λ a, bool_decide (a.(ra_tenant_id) = tenant_id) && bool_decide (a.(ra_holder_id) = membership_id)) ||
  exists_row st.(is_keys) (λ k, bool_decide (k.(ak_tenant_id) = tenant_id) && bool_decide (k.(ak_user_id) = Some user_id)).

Definition purge_tenant_memberships (tenant_id : uuid) : IM nat :=
  do* _ := require_purging' tenant_id in
  transaction
    (do* _ := refuse_if (λ st, existsb (λ p : uuid * uuid * TenantMembership,
                                  bool_decide (p.1.1 = tenant_id) && membership_is_named st tenant_id p.1.2 p.2.(tm_id))
                                (map_to_list (memberships st))) IIntegrityError in
     do* n := reads (λ st, length (filter (λ p : uuid * uuid * TenantMembership, p.1.1 = tenant_id) (map_to_list (memberships st)))) in
     do* _ := modify (λ st, set_memberships (filter (λ p : uuid * uuid * TenantMembership, p.1.1 ≠ tenant_id) (memberships st)) st) in
     ret n).
End Operations.
