(* ===== verification/ApiKeys.v ===== *)
(** * API keys (saas_os/core/api_keys/service.py)

    Keys of a person or of a service account in one tenant: creation under a
    limit, validation, revocation, rotation, and their removal.  [raw_key] is the
    fresh random key of the operation that makes one; a refused validation leaves
    an entry in the tenant's audit trail. *)

From S2P Require Import Prelude PyStr TenantLifecycle PlatformAuthority PlatformService TenantHierarchy RbacDecision RbacService Identity.

Section Keys.
Context (uuid4 : nat → uuid) (hash : pystr → pystr) (now : datetime).

Definition MAX_NAME_LENGTH : nat := 200.

(** [_validate_name] *)
Definition validate_name (name : pystr) : IM unit :=
  lift (if bool_decide (strip name = []) then Raise InvalidApiKeyNameError
        else raise_if (bool_decide (MAX_NAME_LENGTH < length name)%nat) InvalidApiKeyNameError).

Definition unrevoked_keys (st : identity_store) (user_id : uuid) : list (uuid * ApiKey) :=
  filter (λ p : uuid * ApiKey, p.2.(ak_user_id) = Some user_id ∧ p.2.(ak_revoked_at) = None) (map_to_list st.(is_keys)).

(** The constraints of core.api_keys: the owner's row in the tenant, and a unique
    hash; a NUL character cannot be stored. *)
Definition key_violates (k : ApiKey) (id : uuid) (st : identity_store) : bool :=
  bool_decide (is_Some (st.(is_keys) !! id)) ||
  exists_row st.(is_keys) (λ k', bool_decide (k'.(ak_key_hash) = k.(ak_key_hash))) ||
  match k.(ak_user_id), k.(ak_service_account_id) with
  | Some u, None => negb (bool_decide (is_Some (memberships st !! (k.(ak_tenant_id), u))))
  | None, Some a => negb (bool_decide (is_Some (account_of st k.(ak_tenant_id) a)))
  | _, _ => true
  end.

Definition insert_key (k : ApiKey) : IM uuid :=
  do* _ := refuse_if (λ _, bool_decide (0%N ∈ k.(ak_name))) IDataError in
  insert_fresh uuid4 (key_violates k) (λ id st, put_keys (<[id := k]> st.(is_keys)) st).

Definition irequire_active_user (u : uuid) (operation : string) (tenant_id : uuid) : IM unit :=
  in_rbac (λ s, require_active_user s u operation tenant_id).

Definition create_api_key (max_per_user : nat) (tenant_id : uuid) (name raw_key : pystr) (c : caller) (expires_at : option datetime) :
    IM uuid :=
  do* u := iuser_of "create_api_key" c in
  do* _ := require_open_tenant' tenant_id in
  do* _ := validate_name name in
  do* _ := require_open_tenant' tenant_id in
  on_identity_integrity
    (transaction
       (do* _ := irequire_active_user u "create_api_key" tenant_id in
        do* _ := lock_accessible tenant_id in
        do* _ := refuse_if (λ st, bool_decide (max_per_user ≤ length (unrevoked_keys st u))%nat) (ApiKeyLimitExceededError u max_per_user) in
        do* id := insert_key (mkApiKey tenant_id (Some u) None name (hash raw_key) now expires_at None) in
        do* _ := irecord c tenant_id "api_key.create" id in
        ret id))
    (throw (TenantMembershipRequiredError tenant_id u)).

Definition create_service_account_api_key (tenant_id service_account_id : uuid) (name raw_key : pystr) (c : caller)
    (expires_at : option datetime) : IM uuid :=
  do* u := iuser_of "create_service_account_api_key" c in
  do* _ := validate_name name in
  do* _ := require_open_tenant' tenant_id in
  do* _ := refuse_if (λ st, negb (bool_decide (is_Some (account_of st tenant_id service_account_id))))
             (ServiceAccountRequiredError tenant_id service_account_id) in
  on_identity_integrity
    (transaction
       (do* _ := in_rbac (λ _, register_permission_in uuid4 "api_key" "create") in
        do* _ := refuse_if (λ st, negb (can st.(is_rbac).(rs_rows) now st.(is_tenancy) u tenant_id "create" "api_key" PT_USER None false))
                   (ApiKeyNotAuthorizedError u tenant_id) in
        do* id := insert_key (mkApiKey tenant_id None (Some service_account_id) name (hash raw_key) now expires_at None) in
        do* _ := irecord c tenant_id "api_key.create" id in
        ret id))
    (throw (ServiceAccountRequiredError tenant_id service_account_id)).

(** [_audit_actor]: who a refused validation is attributed to. *)
Definition audit_actor (k : ApiKey) : caller :=
  match k.(ak_user_id), k.(ak_service_account_id) with
  | Some u, _ => UserCaller u
  | None, Some a => ServiceAccountCaller a k.(ak_tenant_id)
  | None, None => ServiceAccountCaller 0 k.(ak_tenant_id)   (* excluded by ck_api_keys_single_owner *)
  end.

Definition find_key (st : identity_store) (key_hash : pystr) : option (uuid * ApiKey) :=
  find (λ p : uuid * ApiKey, bool_decide (p.2.(ak_key_hash) = key_hash)) (map_to_list st.(is_keys)).

(** What is wrong with a key, in the order it is looked at; [get_tenant] raises
    for a tenant that does not exist. *)
Definition key_refusal (st : identity_store) (id : uuid) (k : ApiKey) : option identity_error :=
  if bool_decide (is_Some k.(ak_revoked_at)) then Some (RevokedApiKeyError id)
  else if match k.(ak_expires_at) with Some t => t <=? now | None => false end then Some (ExpiredApiKeyError id)
  else match st.(is_tenancy).(ts_tenants) !! k.(ak_tenant_id) with
       | None => Some (IRbac (RTenant (TenantNotFoundError k.(ak_tenant_id))))
       | Some t =>
           if negb (is_accessible_to_principals t.(t_status)) then Some InvalidApiKeyError
           else match k.(ak_user_id) with
                | Some u => if is_active_user st.(is_tenancy).(ts_platform) u then None else Some InvalidApiKeyError
                | None =>
                    match k.(ak_service_account_id) with
                    | Some a => if bool_decide (account_of st k.(ak_tenant_id) a = Some SA_ACTIVE) then None
                                else Some (InactiveServiceAccountError id a)
                    | None => None
                    end
                end
       end.

Definition validate_api_key (raw_key : pystr) : IM (uuid * ApiKey) :=
  do* found := reads (λ st, find_key st (hash raw_key)) in
  match found with
  | None => throw InvalidApiKeyError
  | Some (id, k) =>
      do* refusal := reads (λ st, key_refusal st id k) in
      match refusal with
      | None => ret (id, k)
      | Some (IRbac e) => throw (IRbac e)
      | Some e => do* _ := irecord (audit_actor k) k.(ak_tenant_id) "api_key.validate" id in throw e
      end
  end.

(** [_lock_key] *)
Definition lock_key (tenant_id key_id : uuid) : IM ApiKey :=
  λ st, (match st.(is_keys) !! key_id with
         | Some k => if bool_decide (k.(ak_tenant_id) = tenant_id) then Ok k else Raise (ApiKeyNotFoundError tenant_id key_id)
         | None => Raise (ApiKeyNotFoundError tenant_id key_id)
         end, st).

(** [_authorize_key_management] *)
Definition authorize_key_management (c : caller) (k : ApiKey) (operation action : string) (tenant_id : uuid) : IM unit :=
  match c with
  | UserCaller u =>
      if bool_decide (k.(ak_user_id) = Some u)
      then if bool_decide (action ≠ "revoke"%string) then irequire_active_user u operation tenant_id else ret tt
      else iauthorize uuid4 now c operation tenant_id "api_key" action []
  | ServiceAccountCaller a t =>
      if bool_decide (action = "revoke"%string) && bool_decide (k.(ak_service_account_id) = Some a) && bool_decide (k.(ak_tenant_id) = t)
      then ret tt
      else iauthorize uuid4 now c operation tenant_id "api_key" action []
  | SystemCaller _ => iauthorize uuid4 now c operation tenant_id "api_key" action []
  end.

Definition revoked_key (k : ApiKey) : ApiKey :=
  mkApiKey k.(ak_tenant_id) k.(ak_user_id) k.(ak_service_account_id) k.(ak_name) k.(ak_key_hash) k.(ak_created_at)
    k.(ak_expires_at) (Some now).
Definition put_key (id : uuid) (k : ApiKey) : IM unit := modify (λ st, put_keys (<[id := k]> st.(is_keys)) st).

(** [_revoke_locked_key] *)
Definition revoke_locked_key (key_id : uuid) (k : ApiKey) (tenant_id : uuid) (c : caller) : IM unit :=
  if bool_decide (is_Some k.(ak_revoked_at)) then ret tt
  else do* _ := put_key key_id (revoked_key k) in irecord c tenant_id "api_key.revoke" key_id.

Definition revoke_api_key (tenant_id key_id : uuid) (c : caller) : IM unit :=
  transaction
    (do* k := lock_key tenant_id key_id in
     do* _ := authorize_key_management c k "revoke_api_key" "revoke" tenant_id in
     revoke_locked_key key_id k tenant_id c).

Definition revoke_service_account_api_key (tenant_id key_id : uuid) (c : caller) : IM unit :=
  do* u := iuser_of "revoke_service_account_api_key" c in
  transaction
    (do* _ := in_rbac (λ _, register_permission_in uuid4 "api_key" "revoke") in
     do* _ := refuse_if (λ st, negb (can st.(is_rbac).(rs_rows) now st.(is_tenancy) u tenant_id "revoke" "api_key" PT_USER None false))
                (ApiKeyNotAuthorizedError u tenant_id) in
     do* k := lock_key tenant_id key_id in
     revoke_locked_key key_id k tenant_id c).

(** [_earlier] *)
Definition earlier (first second : option datetime) : option datetime :=
  match first, second with
  | None, _ => second
  | _, None => first
  | Some a, Some b => Some (Z.min a b)
  end.

Definition rotate_api_key (tenant_id key_id : uuid) (raw_key : pystr) (c : caller) (expires_no_later_than : option datetime) : IM uuid :=
  do* _ := require_open_tenant' tenant_id in
  do* owner := lock_key tenant_id key_id in
  transaction
    (do* _ := lock_accessible tenant_id in
     do* _ := match owner.(ak_user_id) with
              | Some u => refuse_if (λ st, negb (is_active_user st.(is_tenancy).(ts_platform) u))
                            (IRbac (AuthorityNotAuthorizedError "rotate_api_key" tenant_id))
              | None => ret tt
              end in
     do* old := lock_key tenant_id key_id in
     do* _ := authorize_key_management c old "rotate_api_key" "rotate" tenant_id in
     if bool_decide (is_Some old.(ak_revoked_at)) then throw (RevokedApiKeyError key_id)
     else
       do* _ := put_key key_id (revoked_key old) in
       do* id := insert_key (mkApiKey old.(ak_tenant_id) old.(ak_user_id) old.(ak_service_account_id) old.(ak_name) (hash raw_key)
                              now (earlier old.(ak_expires_at) expires_no_later_than) None) in
       do* _ := irecord c tenant_id "api_key.rotate" id in
       ret id).

(** ** On behalf of the platform *)

Definition revoke_if_users (user_id : uuid) (k : ApiKey) : ApiKey :=
  if bool_decide (k.(ak_user_id) = Some user_id) && bool_decide (k.(ak_revoked_at) = None) then revoked_key k else k.

(** The keys it revokes, ordered by tenant and id. *)
Definition key_order (a b : uuid * uuid) : Prop := (a.2 < b.2 ∨ (a.2 = b.2 ∧ a.1 ≤ b.1))%N.
#[export] Instance key_order_dec a b : Decision (key_order a b).
Proof. unfold key_order. apply _. Defined.

Definition revoke_user_api_keys_in_transaction (user_id : uuid) : IM (list (uuid * uuid)) :=
  λ st, (Ok (merge_sort key_order ((λ p : uuid * ApiKey, (p.1, p.2.(ak_tenant_id))) <$> unrevoked_keys st user_id)),
         put_keys (revoke_if_users user_id <$> st.(is_keys)) st).

Fixpoint record_platform_key_revocations (c : caller) (keys : list (uuid * uuid)) : IM unit :=
  match keys with
  | [] => ret tt
  | (key_id, tenant_id) :: keys =>
      do* _ := irecord c tenant_id "api_key.revoke" key_id in record_platform_key_revocations c keys
  end.

(** ** Removal *)

Definition purge_tenant_api_keys (tenant_id : uuid) : IM nat :=
  do* _ := require_purging' tenant_id in
  λ st, let kept := filter (λ p : uuid * ApiKey, p.2.(ak_tenant_id) ≠ tenant_id) st.(is_keys) in
        (Ok (size st.(is_keys) - size kept)%nat, put_keys kept st).

Definition purge_user_api_keys_in_tenant (tenant_id user_id : uuid) : IM nat :=
  λ st, let mine (k : ApiKey) := bool_decide (k.(ak_tenant_id) = tenant_id) && bool_decide (k.(ak_user_id) = Some user_id) in
        let kept := filter (λ p : uuid * ApiKey, mine p.2 = false) st.(is_keys) in
        (Ok (size st.(is_keys) - size kept)%nat, put_keys kept st).
End Keys.
