(* ===== verification/UserAuthority.v ===== *)
(** * Taking a person's access away (saas_os/core/identity/user_authority.py)

    Revoking sessions and keys, deactivating and reactivating a user, and removing
    the links of an erased identity: operations of platform operators that reach
    into every tenant.  Deactivation scans all tenants for the user's active
    memberships, guards each of them, and scans again under the lock of the user;
    a membership that appeared in between ([between]: what other transactions
    commit meanwhile) starts it over, three times at most. *)

From S2P Require Import Prelude PyStr TenantLifecycle PlatformAuthority PlatformService TenantHierarchy RbacDecision RbacService Identity ApiKeys.

(** ** The scan *)

Definition SCAN_PAGE_SIZE : nat := 500.
Definition MAX_ATTEMPTS : nat := 3.

Section Scan.
Context (st : identity_store).

(** The ids of the tenants that are not tombstones, in order (core/tenancy/service.py). *)
Definition unpurged_tenants : list uuid :=
  merge_sort N.le (filter (λ p : uuid * Tenant, p.2.(t_status) ≠ PURGED) (map_to_list st.(is_tenancy).(ts_tenants))).*1.
Definition count_unpurged_tenants (limit : nat) : nat := length (take limit unpurged_tenants).
Definition unpurged_tenant_ids_page (after : option uuid) (limit : nat) : list uuid :=
  take limit (match after with Some a => filter (λ t, (a < t)%N) unpurged_tenants | None => unpurged_tenants end).

Definition active_member (user_id tenant_id : uuid) : bool :=
  match memberships st !! (tenant_id, user_id) with Some m => bool_decide (m.(tm_status) = M_ACTIVE) | None => false end.

(** One page: the tenants found, or the ceiling passed. *)
Fixpoint scan_page (op : operation) (user_id : uuid) (ceiling : nat) (page : list uuid) (found : list uuid) (visited : nat) :
    result identity_error (list uuid * nat) :=
  match page with
  | [] => Ok (found, visited)
  | t :: page =>
      if bool_decide (ceiling < S visited)%nat then Raise (DeactivationScanLimitError op ceiling)
      else scan_page op user_id ceiling page (if active_member user_id t then t :: found else found) (S visited)
  end.

(** [_scan_active_memberships]: page after page; [None] is out of fuel. *)
Fixpoint scan_pages (fuel : nat) (page_size : nat) (op : operation) (user_id : uuid) (ceiling : nat) (after : option uuid)
    (found : list uuid) (visited : nat) : option (result identity_error (list uuid * nat)) :=
  match fuel with
  | 0%nat => None
  | S fuel =>
      let page := unpurged_tenant_ids_page after page_size in
      match last page with
      | None => Some (Ok (found, visited))
      | Some t =>
          match scan_page op user_id ceiling page found visited with
          | Raise e => Some (Raise e)
          | Ok (found, visited) => scan_pages fuel page_size op user_id ceiling (Some t) found visited
          end
      end
  end.

(** Each page holds a tenant that was not visited: as many pages as tenants, and
    the empty one. *)
Definition scan_active_memberships (op : operation) (user_id : uuid) (ceiling : nat) : option (result identity_error (list uuid * nat)) :=
  scan_pages (S (length unpurged_tenants)) SCAN_PAGE_SIZE op user_id ceiling None [] 0.
End Scan.

Section Authority.
Context (uuid4 : nat → uuid) (now : datetime).

Definition iscan (op : operation) (user_id : uuid) (ceiling : nat) : IM (list uuid) :=
  λ st, (match scan_active_memberships st op user_id ceiling with
         | Some (Ok (found, _)) => Ok found
         | Some (Raise e) => Raise e
         | None => Raise (DeactivationRetryError user_id)   (* out of fuel: excluded by [scan_total] *)
         end, st).

(** ** Outcomes *)

(** What [_run] records of an exception, and as what. *)
Definition outcome_of (e : identity_error) : option (string * audit_outcome) :=
  match e with
  | IPlatform (PlatformSubjectNotFoundError _) => Some ("user_not_found", DENIED)
  | IPlatform (InvalidPlatformRequestError _) => None
  | IPlatform p => match refusal_code p with Some code => Some (code, DENIED) | None => Some ("error", FAILURE) end
  | PlatformSelfTargetError _ => Some ("self_target", DENIED)
  | DeactivationScanLimitError _ _ => Some ("registry_scan_limit", DENIED)
  | EnrolledOperatorErasureError => Some ("enrolled_operator", DENIED)
  | IRbac (LastTenantAdministratorError _) => Some ("last_tenant_administrator", DENIED)
  | DeactivationRetryError _ => Some ("membership_changed_during_scan", FAILURE)
  | InvalidUserStateError _ _ => None
  | _ => Some ("error", FAILURE)
  end%string.

(** [_record_outcome]: best effort, like [record_platform_refusal]. *)
Definition record_outcome (c : caller) (action : string) (user_id : uuid) (code : string) (outcome : audit_outcome)
    (st : identity_store) : identity_store :=
  let s := st.(is_tenancy).(ts_platform) in
  let entry := mkPAudit c action (user_audit_target s user_id) outcome (Some (lit code)) in
  let put p := put_tenancy (set_platform p st.(is_tenancy)) st in
  match c with
  | ServiceAccountCaller _ _ => st
  | UserCaller u => if bool_decide (s.(ps_users) !! u = None) then st else put (add_paudit entry s)
  | SystemCaller _ => put (add_paudit entry s)
  end.

Definition run_recorded {A : Type} (op : operation) (c : caller) (user_id : uuid) (body : IM A) : IM A :=
  λ st, match body st with
        | (Raise e, st') =>
            (Raise e, match outcome_of e with
                      | Some (code, outcome) => record_outcome c (op_audit_action (platform_operation op)) user_id code outcome st'
                      | None => st'
                      end)
        | ok => ok
        end.

(** [_record_success] *)
Definition record_success (op : operation) (c : caller) (user_id : uuid) (reason : pystr) : IM unit :=
  in_platform (λ s, record_platform_event c (op_audit_action (platform_operation op)) (user_audit_target s user_id) (Some reason) s).

(** [_require_person_or_refuse], [_validate] *)
Definition require_person_or_refuse (op : operation) (c : caller) : IM unit :=
  match c with ServiceAccountCaller _ _ => throw (IPlatform (PlatformNotAuthorizedError (key op))) | _ => ret tt end.
Definition validated (reason : pystr) : IM pystr :=
  lift (match validate_reason reason with Ok r => Ok r | Raise e => Raise (IPlatform e) end).

Definition authorize_platform (c : caller) (op : operation) : IM unit :=
  λ st, (match authorize_platform_caller st.(is_tenancy).(ts_platform) c op with
         | Ok _ => Ok tt | Raise e => Raise (IPlatform e) end, st).

(** ** Sessions and keys *)

Definition revoke_if_users_session (user_id : uuid) (r : Session) : Session :=
  if bool_decide (r.(se_user_id) = user_id) && bool_decide (r.(se_revoked_at) = None)
  then with_revocation (Some now) r.(se_verified_email) r else r.

(** [_revoke_sessions] *)
Definition revoke_sessions (user_id : uuid) : IM nat :=
  λ st, (Ok (length (filter (λ p : uuid * Session, p.2.(se_user_id) = user_id ∧ p.2.(se_revoked_at) = None)
                      (map_to_list st.(is_sessions)))),
         put_sessions (revoke_if_users_session user_id <$> st.(is_sessions)) st).

Definition require_subject (user_id : uuid) : IM bool :=
  λ st, (match users st !! user_id with Some a => Ok a | None => Raise (IPlatform (PlatformSubjectNotFoundError user_id)) end, st).

Definition revoke_user_sessions (user_id : uuid) (c : caller) (reason : pystr) : IM nat :=
  do* _ := require_person_or_refuse SESSION_REVOKE c in
  do* reason := validated reason in
  run_recorded SESSION_REVOKE c user_id
    (transaction
       (do* _ := authorize_platform c SESSION_REVOKE in
        do* _ := require_subject user_id in
        do* n := revoke_sessions user_id in
        do* _ := record_success SESSION_REVOKE c user_id reason in
        ret n)).

Definition require_user_caller (op : operation) (c : caller) : IM unit :=
  match c with UserCaller _ => ret tt | _ => throw (IPlatform (CallerTypeError (key op))) end.

Definition revoke_user_api_keys (user_id : uuid) (c : caller) (reason : pystr) : IM nat :=
  do* _ := require_person_or_refuse API_KEY_REVOKE c in
  do* reason := validated reason in
  run_recorded API_KEY_REVOKE c user_id
    (transaction
       (do* _ := authorize_platform c API_KEY_REVOKE in
        do* _ := require_user_caller API_KEY_REVOKE c in
        do* _ := require_subject user_id in
        do* keys := revoke_user_api_keys_in_transaction now user_id in
        do* _ := record_success API_KEY_REVOKE c user_id reason in
        do* _ := record_platform_key_revocations c keys in
        ret (length keys))).

(** ** Deactivation *)

(** [root_depths], and the order the guards are taken in. *)
Definition root_depth (st : identity_store) (t : uuid) : Z :=
  foldr (λ p acc, if bool_decide (p.1.1 = t) then Z.max acc p.2 else acc) 0 (map_to_list st.(is_tenancy).(ts_ancestry)).
Definition guard_order (st : identity_store) (a b : uuid) : Prop :=
  root_depth st a < root_depth st b ∨ (root_depth st a = root_depth st b ∧ (a ≤ b)%N).
#[export] Instance guard_order_dec st a b : Decision (guard_order st a b).
Proof. unfold guard_order. apply _. Defined.

(** The part of [_deactivate_in_transaction] under the locks; [first] is what the
    first scan found, and the result [None] a membership that appeared since. *)
Definition deactivate_locked (user_id : uuid) (c : caller) (reason : pystr) (ceiling : nat) (first : list uuid) : IM (option (nat * nat)) :=
  do* guard := reads (λ st, guard_tenants st.(is_rbac).(rs_rows) now st.(is_tenancy) (merge_sort (guard_order st) first)) in
  do* _ := authorize_platform c USER_DEACTIVATE in
  do* _ := refuse_if (λ _, bool_decide (c = UserCaller user_id)) (PlatformSelfTargetError USER_DEACTIVATE) in
  do* active := require_subject user_id in
  do* _ := refuse_if (λ _, negb active) (InvalidUserStateError user_id "inactive") in
  do* second := iscan USER_DEACTIVATE user_id ceiling in
  if existsb (λ t, negb (bool_decide (t ∈ first))) second then ret None
  else
    do* had_owner := reads (λ st, platform_owner_exists st.(is_tenancy).(ts_platform)) in
    do* _ := modify (λ st, set_users (<[user_id := false]> (users st)) st) in
    do* sessions := revoke_sessions user_id in
    do* keys := revoke_user_api_keys_in_transaction now user_id in
    do* _ := iverify now guard in
    do* _ := refuse_if (λ st, had_owner && negb (platform_owner_exists st.(is_tenancy).(ts_platform)))
               (IPlatform (LastPlatformOwnerError USER_DEACTIVATE)) in
    do* _ := record_success USER_DEACTIVATE c user_id reason in
    do* _ := record_platform_key_revocations c keys in
    ret (Some (sessions, length keys)).

Definition may_deactivate (c : caller) : IM unit :=
  λ st, (match c, op_permission (platform_operation USER_DEACTIVATE) with
         | UserCaller u, Some p =>
             match platform_can st.(is_tenancy).(ts_platform) u p with
             | Ok true => Ok tt
             | Ok false => Raise (IPlatform (PlatformNotAuthorizedError (key USER_DEACTIVATE)))
             | Raise e => Raise (IPlatform e)
             end
         | _, _ => Raise (IPlatform (PlatformNotAuthorizedError (key USER_DEACTIVATE)))
         end, st).

(** One attempt: the unlocked checks and the first scan, then the rest on what is
    committed meanwhile.  Nothing is written before. *)
Definition deactivate_attempt (between : identity_store → identity_store) (user_id : uuid) (c : caller) (reason : pystr) (ceiling : nat) :
    IM (option (nat * nat)) :=
  do* _ := may_deactivate c in
  do* _ := refuse_if (λ st, bool_decide (ceiling < count_unpurged_tenants st (S ceiling))%nat) (DeactivationScanLimitError USER_DEACTIVATE ceiling) in
  do* first := iscan USER_DEACTIVATE user_id ceiling in
  do* _ := modify between in
  λ st, match deactivate_locked user_id c reason ceiling first st with
        | (Ok (Some r), st') => (Ok (Some r), st')
        | (Ok None, _) => (Ok None, st)
        | (Raise e, _) => (Raise e, st)
        end.

Fixpoint deactivate_attempts (n : nat) (between : nat → identity_store → identity_store) (user_id : uuid) (c : caller) (reason : pystr)
    (ceiling : nat) : IM (nat * nat) :=
  match n with
  | 0%nat => throw (DeactivationRetryError user_id)
  | S n =>
      do* r := deactivate_attempt (between n) user_id c reason ceiling in
      match r with Some r => ret r | None => deactivate_attempts n between user_id c reason ceiling end
  end.

Definition deactivate_user (between : nat → identity_store → identity_store) (ceiling : nat) (user_id : uuid) (c : caller) (reason : pystr) :
    IM (nat * nat) :=
  do* _ := require_person_or_refuse USER_DEACTIVATE c in
  do* reason := validated reason in
  run_recorded USER_DEACTIVATE c user_id (deactivate_attempts MAX_ATTEMPTS between user_id c reason ceiling).

Definition reactivate_user (user_id : uuid) (c : caller) (reason : pystr) : IM (nat * nat) :=
  do* _ := require_person_or_refuse USER_REACTIVATE c in
  do* reason := validated reason in
  run_recorded USER_REACTIVATE c user_id
    (transaction
       (do* _ := authorize_platform c USER_REACTIVATE in
        do* _ := require_user_caller USER_REACTIVATE c in
        do* active := require_subject user_id in
        do* _ := refuse_if (λ _, active) (InvalidUserStateError user_id "active") in
        do* sessions := revoke_sessions user_id in
        do* keys := revoke_user_api_keys_in_transaction now user_id in
        do* _ := modify (λ st, set_users (<[user_id := true]> (users st)) st) in
        do* _ := record_success USER_REACTIVATE c user_id reason in
        do* _ := record_platform_key_revocations c keys in
        ret (sessions, length keys))).

(** ** The links of an erased identity *)

Definition remove_identity_links_unless_enrolled_operator (user_id actor_user_id : uuid) : IM nat :=
  do* enrolled := reads (λ st, unrevoked_operator_exists st.(is_tenancy).(ts_platform) user_id) in
  if enrolled then
    λ st, (Raise EnrolledOperatorErasureError,
           record_outcome (UserCaller actor_user_id) "platform.user.erase" user_id "enrolled_operator" DENIED st)
  else
    do* n := reads (λ st, size (filter (λ p : string * string * uuid, p.2 = user_id) (identities st))) in
    do* _ := modify (λ st, set_identities (filter (λ p : string * string * uuid, p.2 ≠ user_id) (identities st)) st) in
    ret n.
End Authority.
