(* ===== verification/IdentityProofs.v ===== *)
(** * How the rows of identity evolve

    [evolves]: what any operation may do to a session, a key, a login
    transaction, an invitation or a membership.  A revoked credential stays
    revoked, a decided invitation stays decided, a revoked membership stays
    revoked; what is new has a new random id.  Every operation keeps it, so it
    holds over every history. *)

From S2P Require Import Prelude StoreLogic PyStr TenantLifecycle PlatformAuthority PlatformService TenantHierarchy RbacDecision RbacService RbacIntegrity Identity ApiKeys UserAuthority.

(** ** The administration of roles leaves identity alone *)

Definition quiet (rb rb' : rbac_store) : Prop :=
  (rb.(rs_drawn) ≤ rb'.(rs_drawn))%nat ∧ rb'.(rs_rows).(rb_memberships) = rb.(rs_rows).(rb_memberships) ∧
  rb'.(rs_rows).(rb_service_accounts) = rb.(rs_rows).(rb_service_accounts).
#[export] Instance quiet_preorder : PreOrder quiet.
Proof.
  split; [by intros rb|]. intros a b c (H1 & H2 & H3) (H4 & H5 & H6). split_and!; [lia|congruence..].
Qed.

Section Quiet.
Context (uuid4 : nat → uuid) (now : datetime) (s : tenancy_store).
Abbreviation q := (keeps (E := rbac_error) quiet).

Lemma quiet_insert_row {A} table with_table violates (row : A) :
  (∀ m r, (with_table m r).(rb_memberships) = r.(rb_memberships) ∧ (with_table m r).(rb_service_accounts) = r.(rb_service_accounts)) →
  q (insert_row uuid4 table with_table violates row).
Proof.
  intros H st. unfold insert_row. destruct (_ || _)%bool; split_and!; simpl; try done; try lia; apply H.
Qed.
Lemma quiet_update f : (∀ r, (f r).(rb_memberships) = r.(rb_memberships) ∧ (f r).(rb_service_accounts) = r.(rb_service_accounts)) →
  q (update_rows f).
Proof. intros H st. split_and!; [done|apply H..]. Qed.
Lemma quiet_record c t a i : q (record c t a i).
Proof. by intros st. Qed.
Lemma quiet_in_rows {A} (f : rbac_rows → A) : q (in_rows f).
Proof. by intros st. Qed.
Lemma quiet_require f e : q (require_rows f e).
Proof. intros st. unfold require_rows. by destruct (f _). Qed.
Lemma quiet_verify b : q (verify_guard now s b).
Proof. intros st. unfold verify_guard. by destruct (verify _ _ _ _). Qed.
Lemma quiet_get_role t r : q (get_role t r).
Proof. intros st. unfold get_role. by destruct (role_exists _ _ _). Qed.
Lemma quiet_get_permission p : q (get_permission_by_id p).
Proof. intros st. unfold get_permission_by_id. by destruct (_ !! p). Qed.
Lemma quiet_tenant_row {A} (table : rbac_rows → gmap uuid A) tn t i e : q (tenant_row table tn t i e).
Proof. intros st. unfold tenant_row. destruct (_ !! i); [|done]. by destruct (bool_decide _). Qed.
Lemma quiet_user_of o c : q (user_of o c).
Proof. by destruct c. Qed.
Lemma quiet_on_integrity {A} (m h : RM A) : q m → q h → q (on_integrity_error m h).
Proof.
  intros Hm Hh st. unfold on_integrity_error. specialize (Hm st). destruct (m st) as [[a|[]] st']; try done.
  etrans; [exact Hm|apply Hh].
Qed.
Lemma quiet_register re ac : q (register_permission_in uuid4 re ac).
Proof.
  intros st. unfold register_permission_in. destruct (find_row _ _); [done|].
  pose proof (quiet_insert_row rb_permissions with_permissions (λ _, false) (re, ac) ltac:(done) st) as H.
  by destruct (insert_row _ _ _ _ _ st) as [[a|[]] st'].
Qed.
Lemma quiet_insert_role t n : q (insert_role uuid4 t n).
Proof. intros st. unfold insert_role. destruct (bool_decide _); [|destruct (_ || _)%bool]; split_and!; simpl; try done; lia. Qed.

#[local] Hint Resolve quiet_record quiet_in_rows quiet_require quiet_verify quiet_get_role quiet_get_permission quiet_tenant_row
  quiet_user_of quiet_register quiet_insert_role : quiet.

Ltac quiet_steps := repeat (keeps_steps; try first
  [ solve [eauto with quiet] | apply quiet_update; done | apply quiet_insert_row; done | apply quiet_on_integrity
  | progress unfold require_user_can, require_can, require_no_amplification, require_open, require_purging, with_administrator_guard,
      insert_role_permission, insert_assignment, insert_account_assignment, insert_membership_role, insert_delegation,
      insert_delegation_row, insert_deny, check_time_range, require_active_user, put_support, get_support_access_request ]).

Lemma quiet_authorize c op t re ac sys : q (authorize_caller uuid4 now s c op t re ac sys).
Proof. unfold authorize_caller. quiet_steps. Qed.
#[local] Hint Resolve quiet_authorize : quiet.

Lemma quiet_record_all c t a ids : q (record_all c t a ids).
Proof. induction ids; simpl; quiet_steps. Qed.
#[local] Hint Resolve quiet_record_all : quiet.

Lemma quiet_delete_role t ro c : q (delete_role uuid4 now s t ro c).
Proof.
  unfold delete_role. apply keeps_transaction; [apply _|apply keeps_commits].
  do 3 (apply keeps_bind; [apply _|eauto with quiet|intros _]). by intros st.
Qed.
Lemma quiet_register_permission re ac : q (register_permission uuid4 re ac).
Proof.
  unfold register_permission. destruct (_ || _)%bool; [by intros st|]. intros st. destruct (find_row _ _); [done|].
  apply (quiet_on_integrity (A := uuid)); quiet_steps.
Qed.

Lemma rrun_quiet cmd : q (rrun uuid4 now s cmd).
Proof.
  destruct cmd; unfold rrun; try (apply keeps_void; [apply _|]);
    try solve [apply quiet_delete_role|apply quiet_register_permission];
    unfold create_role, grant_permission, grant_registered_permission_to_role, revoke_permission, assign_role,
      assign_first_role_for_new_tenant, remove_role, assign_service_account_role, remove_service_account_role, create_delegation,
      create_delegation_to_service_account, revoke_delegation, create_deny, create_deny_for_service_account, revoke_deny,
      create_support_access_request, approve_support_access, deny_support_access, revoke_support_access,
      revoke_tenant_support_access, purge_tenant_authorization, purge_user_membership_roles_in_tenant; quiet_steps;
    by intros st.
Qed.
End Quiet.

(** ** The relation *)

(** Every row comes from a row of the same key, changed as [E] allows, or its id
    is one of the random ids drawn meanwhile. *)
Definition table_evolves {K A : Type} `{Countable K} (uuid4 : nat → uuid) (E : A → A → Prop) (id_of : K → A → uuid) (lo hi : nat)
    (m m' : gmap K A) : Prop :=
  ∀ k a', m' !! k = Some a' → (∃ a, m !! k = Some a ∧ E a a') ∨ (∃ n, (lo ≤ n < hi)%nat ∧ uuid4 n = id_of k a').

Record session_evolves (r r' : Session) : Prop := {
  sv_user : r'.(se_user_id) = r.(se_user_id);
  sv_hash : r'.(se_token_hash) = r.(se_token_hash);
  sv_expires : r'.(se_expires_at) = r.(se_expires_at);
  sv_revoked : is_Some r.(se_revoked_at) → r'.(se_revoked_at) = r.(se_revoked_at);
}.
Record key_evolves (k k' : ApiKey) : Prop := {
  kv_tenant : k'.(ak_tenant_id) = k.(ak_tenant_id);
  kv_user : k'.(ak_user_id) = k.(ak_user_id);
  kv_account : k'.(ak_service_account_id) = k.(ak_service_account_id);
  kv_hash : k'.(ak_key_hash) = k.(ak_key_hash);
  kv_expires : k'.(ak_expires_at) = k.(ak_expires_at);
  kv_revoked : is_Some k.(ak_revoked_at) → k'.(ak_revoked_at) = k.(ak_revoked_at);
}.
Definition decided_invitation (i : Invitation) : Prop := is_Some i.(in_accepted_at) ∨ is_Some i.(in_revoked_at).
Record invitation_evolves (i i' : Invitation) : Prop := {
  iv_tenant : i'.(in_tenant_id) = i.(in_tenant_id);
  iv_email : i'.(in_invited_email) = i.(in_invited_email);
  iv_hash : i'.(in_token_hash) = i.(in_token_hash);
  iv_expires : i'.(in_expires_at) = i.(in_expires_at);
  iv_decided : decided_invitation i → i' = i;
}.
Record membership_evolves (m m' : TenantMembership) : Prop := {
  mv_id : m'.(tm_id) = m.(tm_id);
  mv_revoked : m.(tm_status) = M_REVOKED → m'.(tm_status) = M_REVOKED;
}.

#[export] Instance session_evolves_preorder : PreOrder session_evolves.
Proof.
  split; [by intros r|]. intros a b c [H1 H2 H3 H4] [G1 G2 G3 G4]. split; try congruence. intros H. specialize (H4 H).
  rewrite <- H4 in H. rewrite G4; done.
Qed.
#[export] Instance key_evolves_preorder : PreOrder key_evolves.
Proof.
  split; [by intros r|]. intros a b c [H1 H2 H3 H4 H5 H6] [G1 G2 G3 G4 G5 G6]. split; try congruence. intros H. specialize (H6 H).
  rewrite <- H6 in H. rewrite G6; done.
Qed.
#[export] Instance invitation_evolves_preorder : PreOrder invitation_evolves.
Proof.
  split; [by intros r|]. intros a b c [H1 H2 H3 H4 H5] [G1 G2 G3 G4 G5]. split; try congruence. intros H.
  pose proof (H5 H) as E. subst b. by apply G5.
Qed.
#[export] Instance membership_evolves_preorder : PreOrder membership_evolves.
Proof. split; [by intros r|]. intros a b c [H1 H2] [G1 G2]. split; [congruence|tauto]. Qed.

Section Evolve.
Context (uuid4 : nat → uuid).

Section Table.
Context {K A : Type} `{Countable K} (E : A → A → Prop) `{!PreOrder E} (id_of : K → A → uuid).
Hypothesis Hid : ∀ k a a', E a a' → id_of k a' = id_of k a.

Lemma table_refl lo hi (m : gmap K A) : table_evolves uuid4 E id_of lo hi m m.
Proof. intros k a Hk. left. exists a. by split. Qed.
Lemma table_trans lo mid hi (m m' m'' : gmap K A) : (lo ≤ mid ≤ hi)%nat →
  table_evolves uuid4 E id_of lo mid m m' → table_evolves uuid4 E id_of mid hi m' m'' → table_evolves uuid4 E id_of lo hi m m''.
Proof.
  intros Hle H1 H2 k a'' Hk. destruct (H2 k a'' Hk) as [(a' & Ha' & HE)|(n & Hn & Hi)]; [|right; exists n; split; [lia|done]].
  destruct (H1 k a' Ha') as [(a & Ha & HE')|(n & Hn & Hi)].
  - left. exists a. split; [done|]. by etrans.
  - right. exists n. split; [lia|]. by rewrite (Hid _ _ _ HE).
Qed.
(** One row replaced by what it may become, or rows removed. *)
Lemma table_update lo hi (m : gmap K A) k a a' : m !! k = Some a → E a a' → table_evolves uuid4 E id_of lo hi m (<[k := a']> m).
Proof.
  intros Hk HE k' x [[<- <-]|[_ Hx]]%lookup_insert_Some; left; [by exists a|]. exists x. by split.
Qed.
Lemma table_subset lo hi (m m' : gmap K A) : m' ⊆ m → table_evolves uuid4 E id_of lo hi m m'.
Proof. intros Hs k a Hk. left. exists a. split; [by eapply lookup_weaken|done]. Qed.
Lemma table_fmap lo hi (m : gmap K A) f : (∀ a, E a (f a)) → table_evolves uuid4 E id_of lo hi m (f <$> m).
Proof. intros Hf k a'. rewrite lookup_fmap. intros (a & Ha & ->)%fmap_Some. left. by exists a. Qed.
Lemma table_insert lo hi (m : gmap K A) k a : (∃ n, (lo ≤ n < hi)%nat ∧ uuid4 n = id_of k a) →
  table_evolves uuid4 E id_of lo hi m (<[k := a]> m).
Proof. intros Hn k' x [[<- <-]|[_ Hx]]%lookup_insert_Some; [by right|]. left. exists x. by split. Qed.
End Table.

Definition drawn (st : identity_store) : nat := st.(is_rbac).(rs_drawn).

Record evolves (st st' : identity_store) : Prop := {
  ev_drawn : (drawn st ≤ drawn st')%nat;
  ev_sessions : table_evolves uuid4 session_evolves (λ k _, k) (drawn st) (drawn st') st.(is_sessions) st'.(is_sessions);
  ev_keys : table_evolves uuid4 key_evolves (λ k _, k) (drawn st) (drawn st') st.(is_keys) st'.(is_keys);
  ev_logins : table_evolves uuid4 eq (λ k _, k) (drawn st) (drawn st') st.(is_logins) st'.(is_logins);
  ev_invitations : table_evolves uuid4 invitation_evolves (λ k _, k) (drawn st) (drawn st') st.(is_invitations) st'.(is_invitations);
  ev_memberships : table_evolves uuid4 membership_evolves (λ _ m, m.(tm_id)) (drawn st) (drawn st') (memberships st) (memberships st');
}.

#[export] Instance evolves_preorder : PreOrder evolves.
Proof.
  split.
  - intros st. split; [done|apply table_refl; apply _..].
  - intros a b c [H1 H2 H3 H4 H5 H6] [G1 G2 G3 G4 G5 G6]. split; [lia|..];
      (eapply table_trans; [apply _| |split; [exact H1|exact G1]|eassumption|eassumption]); try done.
    intros _ m m' [Hm _]. done.
Qed.

(** The tables untouched. *)
Lemma evolves_same st st' : (drawn st ≤ drawn st')%nat → st'.(is_sessions) = st.(is_sessions) → st'.(is_keys) = st.(is_keys) →
  st'.(is_logins) = st.(is_logins) → st'.(is_invitations) = st.(is_invitations) → memberships st' = memberships st → evolves st st'.
Proof. intros H1 H2 H3 H4 H5 H6. split; [done|rewrite ?H2, ?H3, ?H4, ?H5, ?H6; apply table_refl; apply _..]. Qed.

Abbreviation ev := (keeps (E := identity_error) evolves).

Lemma ev_in_rbac {A} (m : tenancy_store → RM A) : (∀ s, keeps quiet (m s)) → ev (in_rbac m).
Proof.
  intros Hm st. unfold in_rbac. specialize (Hm st.(is_tenancy) st.(is_rbac)).
  destruct (m st.(is_tenancy) st.(is_rbac)) as [[a|e] rb]; destruct Hm as (H1 & H2 & _); by apply evolves_same.
Qed.
Lemma ev_in_platform {A} (m : PM A) : ev (in_platform m).
Proof. intros st. unfold in_platform. destruct (m _) as [[a|e] p]; by apply evolves_same. Qed.
Lemma ev_modify f : (∀ st, evolves st (f st)) → ev (modify f).
Proof. done. Qed.
Lemma ev_of_tenant {A} (r : tenancy_store → result tenant_error A) : ev (of_tenant r).
Proof. intros st. reflexivity. Qed.
Lemma ev_reads {A} (f : identity_store → A) : ev (reads f).
Proof. intros st. reflexivity. Qed.
Lemma ev_refuse_if p e : ev (refuse_if p e).
Proof. intros st. reflexivity. Qed.
Lemma ev_irecord c t a i : ev (irecord c t a i).
Proof. apply ev_in_rbac. intros s. apply quiet_record. Qed.
Lemma ev_iverify now b : ev (iverify now b).
Proof. apply ev_in_rbac. intros s. apply quiet_verify. Qed.
Lemma ev_iguard now t us : ev (iguard now t us).
Proof. intros st. reflexivity. Qed.
Lemma ev_iauthorize now c op t re ac sys : ev (iauthorize uuid4 now c op t re ac sys).
Proof. apply ev_in_rbac. intros s. apply quiet_authorize. Qed.
Lemma ev_register re ac : ev (in_rbac (λ _, register_permission_in uuid4 re ac)).
Proof. apply ev_in_rbac. intros s. apply quiet_register. Qed.
Lemma ev_require_active_user u op t : ev (in_rbac (λ s, require_active_user s u op t)).
Proof. apply ev_in_rbac. intros s. unfold require_active_user. by intros st. Qed.
Lemma ev_iuser_of op c : ev (iuser_of op c).
Proof. destruct c; intros st; reflexivity. Qed.
Lemma ev_on_integrity {A} (m h : IM A) : ev m → ev h → ev (on_identity_integrity m h).
Proof.
  intros Hm Hh st. unfold on_identity_integrity. specialize (Hm st). destruct (m st) as [[a|[]] st']; try done.
  etrans; [exact Hm|apply Hh].
Qed.

(** A new row, under the id drawn for it. *)
Lemma ev_insert_fresh v w : (∀ st, evolves st (w (uuid4 (drawn st)) (put_rbac (rdraw st.(is_rbac)) st))) → ev (insert_fresh uuid4 v w).
Proof.
  intros H st. unfold insert_fresh, fresh, bind, refuse_if, modify, ret. simpl.
  destruct (v _ _); [|apply H]. simpl. apply evolves_same; try done. unfold drawn. simpl. lia.
Qed.

Lemma new_id st : ∃ n, (drawn st ≤ n < S (drawn st))%nat ∧ uuid4 n = uuid4 (drawn st).
Proof. exists (drawn st). split; [lia|done]. Qed.

(** One table of the store changed. *)
Definition sessions_evolve (m m' : gmap uuid Session) := ∀ lo hi, table_evolves uuid4 session_evolves (λ k _, k) lo hi m m'.
Definition keys_evolve (m m' : gmap uuid ApiKey) := ∀ lo hi, table_evolves uuid4 key_evolves (λ k _, k) lo hi m m'.
Definition logins_evolve (m m' : gmap uuid LoginTransaction) := ∀ lo hi, table_evolves uuid4 eq (λ k _, k) lo hi m m'.
Definition invitations_evolve (m m' : gmap uuid Invitation) := ∀ lo hi, table_evolves uuid4 invitation_evolves (λ k _, k) lo hi m m'.
Definition memberships_evolve (m m' : gmap (uuid * uuid) TenantMembership) :=
  ∀ lo hi, table_evolves uuid4 membership_evolves (λ _ a, a.(tm_id)) lo hi m m'.

Lemma ev_put_sessions st m : sessions_evolve st.(is_sessions) m → evolves st (put_sessions m st).
Proof. intros H. split; [done|apply H|apply table_refl; apply _..]. Qed.
Lemma ev_put_keys st m : keys_evolve st.(is_keys) m → evolves st (put_keys m st).
Proof. intros H. split; [done|apply table_refl; apply _|apply H|apply table_refl; apply _..]. Qed.
Lemma ev_put_logins st m : logins_evolve st.(is_logins) m → evolves st (put_logins m st).
Proof. intros H. split; [done|apply table_refl; apply _..|apply H|apply table_refl; apply _|apply table_refl; apply _]. Qed.
Lemma ev_put_invitations st m : invitations_evolve st.(is_invitations) m → evolves st (put_invitations m st).
Proof. intros H. split; [done|apply table_refl; apply _..|apply H|apply table_refl; apply _]. Qed.
Lemma ev_set_memberships st m : memberships_evolve (memberships st) m → evolves st (set_memberships m st).
Proof. intros H. split; [done|apply table_refl; apply _..|apply H]. Qed.
Lemma ev_set_users st m : evolves st (set_users m st).
Proof. by apply evolves_same. Qed.
Lemma ev_set_identities st m : evolves st (set_identities m st).
Proof. by apply evolves_same. Qed.
Lemma ev_set_service_accounts st m : evolves st (set_service_accounts m st).
Proof. by apply evolves_same. Qed.
Lemma ev_put_account_names st m : evolves st (put_account_names m st).
Proof. by apply evolves_same. Qed.
Lemma ev_put_tenancy st s : evolves st (put_tenancy s st).
Proof. by apply evolves_same. Qed.
Lemma ev_draw st : evolves st (put_rbac (rdraw st.(is_rbac)) st).
Proof. apply evolves_same; try done. unfold drawn. simpl. lia. Qed.

(** What was read is what is changed. *)
Lemma ev_read_then {A B} (f : identity_store → A) (k : A → IM B) : (∀ st, evolves st (k (f st) st).2) → ev (bind (reads f) k).
Proof. intros H st. apply H. Qed.
Lemma ev_now {A} st (m : IM A) : ev m → evolves st (m st).2.
Proof. intros H. apply H. Qed.
Lemma ev_bind_now {A B} st (m : IM A) (k : A → IM B) : evolves st (m st).2 → (∀ a, ev (k a)) → evolves st (bind m k st).2.
Proof. intros H Hk. unfold bind. destruct (m st) as [[a|e] st']; [|done]. etrans; [exact H|apply Hk]. Qed.
Lemma ev_modify_then {A} st f (m : IM A) : evolves st (f st) → ev m → evolves st (bind (modify f) (λ _, m) st).2.
Proof. intros H Hm. unfold bind, modify. simpl. etrans; [exact H|apply Hm]. Qed.
End Evolve.
