(* ===== verification/IdentityHistory.v ===== *)
(** * Every operation of identity, and histories of them

    [icommand] names the operations of [Identity], [ApiKeys] and [UserAuthority],
    but for [deactivate_user], which is not one transaction, and the
    administration of roles; [irun] runs one.  [history]: any sequence of
    them, at any instants, with any changes of the registry between them, and
    deactivations whose two scans enclose other histories.  [history_evolves]:
    whatever happens, rows change as [evolves] says. *)

From S2P Require Import Prelude StoreLogic PyStr TenantLifecycle PlatformAuthority PlatformService TenantHierarchy RbacDecision RbacService RbacIntegrity Identity ApiKeys UserAuthority IdentityProofs.

Inductive icommand : Type :=
| ICreateUser
| ILink (user_id : uuid) (issuer subject : string)
| IGetOrCreate (issuer subject : string)
| IGetOrCreateInTransaction (issuer subject : string)
| IAddMembership (tenant_id user_id : uuid) (c : caller)
| ISuspendMembership (tenant_id membership_id : uuid) (c : caller)
| IReactivateMembership (tenant_id membership_id : uuid) (c : caller)
| IRevokeMembership (tenant_id membership_id : uuid) (c : caller)
| ICreateAccount (tenant_id : uuid) (name : pystr) (c : caller)
| IDisableAccount (tenant_id account_id : uuid) (c : caller)
| IEnableAccount (tenant_id account_id : uuid) (c : caller)
| ICreateInvitation (tenant_id : uuid) (email raw_token : pystr) (c : caller) (expires_at : option datetime)
| IRevokeInvitation (tenant_id invitation_id : uuid) (c : caller)
| IAcceptInvitation (raw_token : pystr) (tenant_id : uuid) (c : caller) (email : option pystr)
| IIssueSession (user_id : uuid) (raw_token : pystr) (lifetime : timedelta) (email : option pystr) (multi_factor : bool)
    (authenticated_at : option datetime)
| IValidateSession (raw_token : pystr)
| IRevokeSession (session_id : uuid)
| IPurgeUserSessions (user_id : uuid)
| ICleanupSessions (cfg : SessionRetentionConfig) (locked : gset uuid)
| IBeginLogin (state nonce code_verifier : pystr) (lifetime : timedelta)
| IConsumeLogin (transaction_id : uuid) (state : pystr)
| IPurgeLogins
| IPurgeInvitations (tenant_id : uuid)
| IDeleteUserInvitations (tenant_id user_id : uuid) (addresses : list pystr)
| IPurgeAccounts (tenant_id : uuid) (audited keep : gset uuid)
| IPurgeMemberships (tenant_id : uuid)
| KCreate (tenant_id : uuid) (name raw_key : pystr) (c : caller) (expires_at : option datetime)
| KCreateForAccount (tenant_id account_id : uuid) (name raw_key : pystr) (c : caller) (expires_at : option datetime)
| KValidate (raw_key : pystr)
| KRevoke (tenant_id key_id : uuid) (c : caller)
| KRevokeForAccount (tenant_id key_id : uuid) (c : caller)
| KRotate (tenant_id key_id : uuid) (raw_key : pystr) (c : caller) (no_later_than : option datetime)
| KPurgeTenant (tenant_id : uuid)
| KPurgeUser (tenant_id user_id : uuid)
| URevokeSessions (user_id : uuid) (c : caller) (reason : pystr)
| URevokeKeys (user_id : uuid) (c : caller) (reason : pystr)
| UReactivate (user_id : uuid) (c : caller) (reason : pystr)
| URemoveLinks (user_id actor_user_id : uuid)
| IAdminister (cmd : rcommand).

Section Histories.
Context (uuid4 : nat → uuid) (hash casefold : pystr → pystr) (max_per_user : nat).

(** The result of an operation that matters below is whether it returned. *)
Definition ivoid {A : Type} (m : IM A) : IM unit := do* _ := m in ret tt.

Definition irun (now : datetime) (cmd : icommand) : IM unit :=
  match cmd with
  | ICreateUser => ivoid (create_user uuid4)
  | ILink u i s => link_external_identity u i s
  | IGetOrCreate i s => ivoid (get_or_create_user_for_external_identity uuid4 i s)
  | IGetOrCreateInTransaction i s => ivoid (get_or_create_user_id_for_external_identity_in_transaction uuid4 i s)
  | IAddMembership t u c => ivoid (add_tenant_membership uuid4 now t u c)
  | ISuspendMembership t m c => suspend_membership uuid4 now t m c
  | IReactivateMembership t m c => reactivate_membership uuid4 now t m c
  | IRevokeMembership t m c => revoke_membership uuid4 now t m c
  | ICreateAccount t n c => ivoid (create_service_account uuid4 now t n c)
  | IDisableAccount t a c => disable_service_account uuid4 now t a c
  | IEnableAccount t a c => enable_service_account uuid4 now t a c
  | ICreateInvitation t e r c ex => ivoid (create_invitation uuid4 hash casefold now t e r c ex)
  | IRevokeInvitation t i c => revoke_invitation uuid4 now t i c
  | IAcceptInvitation r t c e => accept_invitation uuid4 hash casefold now r t c e
  | IIssueSession u r l e mf at_ => ivoid (issue_session uuid4 hash casefold now u r l e mf at_)
  | IValidateSession r => ivoid (validate_session hash now r)
  | IRevokeSession i => revoke_session now i
  | IPurgeUserSessions u => ivoid (purge_user_sessions u)
  | ICleanupSessions cfg locked => ivoid (cleanup_expired_sessions now cfg locked)
  | IBeginLogin s n v l => ivoid (begin_login_transaction uuid4 now s n v l)
  | IConsumeLogin i s => ivoid (consume_login_transaction now i s)
  | IPurgeLogins => ivoid (purge_expired_login_transactions now)
  | IPurgeInvitations t => ivoid (purge_tenant_invitations t)
  | IDeleteUserInvitations t u es => ivoid (delete_user_invitations_in_tenant t u es)
  | IPurgeAccounts t audited keep => ivoid (purge_tenant_service_accounts t audited keep)
  | IPurgeMemberships t => ivoid (purge_tenant_memberships t)
  | KCreate t n r c ex => ivoid (create_api_key uuid4 hash now max_per_user t n r c ex)
  | KCreateForAccount t a n r c ex => ivoid (create_service_account_api_key uuid4 hash now t a n r c ex)
  | KValidate r => ivoid (validate_api_key hash now r)
  | KRevoke t k c => revoke_api_key uuid4 now t k c
  | KRevokeForAccount t k c => revoke_service_account_api_key uuid4 now t k c
  | KRotate t k r c ex => ivoid (rotate_api_key uuid4 hash now t k r c ex)
  | KPurgeTenant t => ivoid (purge_tenant_api_keys t)
  | KPurgeUser t u => ivoid (purge_user_api_keys_in_tenant t u)
  | URevokeSessions u c r => ivoid (revoke_user_sessions now u c r)
  | URevokeKeys u c r => ivoid (revoke_user_api_keys now u c r)
  | UReactivate u c r => ivoid (reactivate_user now u c r)
  | URemoveLinks u a => ivoid (remove_identity_links_unless_enrolled_operator u a)
  | IAdminister cmd => ivoid (in_rbac (λ s, rrun uuid4 now s cmd))
  end.

Inductive history : identity_store → identity_store → Prop :=
| h_refl st : history st st
| h_trans st1 st2 st3 : history st1 st2 → history st2 st3 → history st1 st3
| h_run now cmd st : history st (irun now cmd st).2
| h_registry s st : history st (put_tenancy s st)
| h_deactivate now between ceiling u c reason st : (∀ n st, history st (between n st)) →
    history st (deactivate_user now between ceiling u c reason st).2.

#[export] Instance history_preorder : PreOrder history.
Proof. split; [exact h_refl|exact h_trans]. Qed.

(** ** The operations keep [evolves] *)

Abbreviation ev := (keeps (E := identity_error) (evolves uuid4)).

#[local] Hint Resolve ev_of_tenant ev_reads ev_refuse_if ev_irecord ev_iverify ev_iguard ev_iauthorize ev_register
  ev_require_active_user ev_iuser_of ev_in_platform ev_set_users ev_set_identities ev_set_service_accounts
  ev_put_account_names ev_put_tenancy : evo.

Lemma ev_ivoid {A} (m : IM A) : ev m → ev (ivoid m).
Proof. intros H. by apply keeps_bind; [apply _| |intros a; apply keeps_ret; apply _]. Qed.

Ltac ev_steps := repeat first
  [ solve [eauto with evo] | apply ev_on_integrity
  | progress unfold require_open_tenant', lock_accessible, require_purging', irequire_active_user | keeps_step ].

Lemma ev_insert_user : ev (insert_fresh uuid4 (λ id st, bool_decide (is_Some (users st !! id))) (λ id st, set_users (<[id := true]> (users st)) st)).
Proof. apply ev_insert_fresh. intros st. etrans; [apply ev_draw|apply ev_set_users]. Qed.
Lemma ev_insert_identity u i s : ev (insert_identity u i s).
Proof. unfold insert_identity. ev_steps. apply ev_modify. eauto with evo. Qed.
Lemma ev_create_user : ev (create_user uuid4).
Proof. unfold create_user. apply keeps_transaction; [apply _|]. apply keeps_commits, ev_insert_user. Qed.
Lemma ev_validate_external i s : ev (validate_external_identity i s).
Proof. intros st. reflexivity. Qed.
Lemma ev_get_user u : ev (get_user_or_raise u).
Proof. intros st. reflexivity. Qed.
#[local] Hint Resolve ev_insert_user ev_insert_identity ev_create_user ev_validate_external ev_get_user : evo.
Lemma ev_link u i s : ev (link_external_identity u i s).
Proof. unfold link_external_identity. ev_steps. Qed.
Lemma ev_find_external i s : ev (find_external_identity i s).
Proof. unfold find_external_identity. ev_steps. Qed.
#[local] Hint Resolve ev_link ev_find_external : evo.
Lemma ev_get_or_create i s : ev (get_or_create_user_for_external_identity uuid4 i s).
Proof.
  unfold get_or_create_user_for_external_identity. 
  apply keeps_bind; [apply _|eauto with evo|intros [u|]]; [ev_steps|]. apply keeps_bind; [apply _|eauto with evo|intros u st].
  pose proof (ev_link u i s st) as H. destruct (link_external_identity u i s st) as [[x|e] st']; [exact H|].
  destruct e; try exact H. etrans; [exact H|]. apply ev_now. ev_steps.
Qed.
Lemma ev_get_or_create_tx i s : ev (get_or_create_user_id_for_external_identity_in_transaction uuid4 i s).
Proof. unfold get_or_create_user_id_for_external_identity_in_transaction. ev_steps. Qed.

(** *** Memberships and service accounts *)

Ltac new_row := apply ev_insert_fresh; intros st; split; simpl;
  first [unfold drawn; simpl; lia | apply table_insert; [apply _|apply new_id] | apply table_refl; apply _ | idtac].

Lemma ev_insert_membership now t u : ev (insert_membership uuid4 now t u).
Proof. new_row. Qed.
#[local] Hint Resolve ev_insert_membership : evo.
Lemma ev_add_membership now t u c : ev (add_tenant_membership uuid4 now t u c).
Proof. unfold add_tenant_membership. ev_steps. Qed.

Lemma membership_by_id_spec st t i u m : membership_by_id st t i = Some (u, m) → memberships st !! (t, u) = Some m ∧ m.(tm_id) = i.
Proof.
  unfold membership_by_id. intros (((t' & u') & m') & Hf & [= -> ->])%fmap_Some.
  apply find_some in Hf as [Hin Hb]. simpl in Hb. apply andb_true_iff in Hb as [->%bool_decide_eq_true Hi%bool_decide_eq_true].
  split; [by apply elem_of_map_to_list, list_elem_of_In|done].
Qed.
Lemma ev_transition now t i from to idem c v : M_REVOKED ∉ from → ev (transition_membership_status uuid4 now t i from to idem c v).
Proof.
  intros Hr. unfold transition_membership_status. apply keeps_transaction; [apply _|]. apply keeps_commits.
  apply keeps_bind; [apply _|eauto with evo|intros _]. apply ev_read_then. intros st.
  destruct (membership_by_id st t i) as [[u m]|] eqn:Em; [|reflexivity]. apply membership_by_id_spec in Em as [Hm _].
  destruct (bool_decide (tm_status m ∈ idem)); [reflexivity|]. destruct (bool_decide (tm_status m ∈ from)) eqn:Hfrom; [|reflexivity].
  assert (evolves uuid4 st (set_memberships (<[(t, u):=mkMembership (tm_id m) to (tm_created_at m)]> (memberships st)) st)) as Hset.
  { apply ev_set_memberships. intros lo hi. eapply table_update; [apply _|exact Hm|]. split; [done|].
    intros Hs. rewrite Hs, bool_decide_eq_true in Hfrom. done. }
  simpl. destruct (bool_decide (to = M_ACTIVE)).
  - apply ev_modify_then; [exact Hset|]. eauto with evo.
  - apply ev_bind_now; [|eauto with evo]. unfold bind at 1, iguard at 1. apply ev_modify_then; [exact Hset|]. eauto with evo.
Qed.
#[local] Hint Extern 1 (M_REVOKED ∉ _) => set_solver : evo.
#[local] Hint Resolve ev_transition : evo.
Lemma ev_suspend now t i c : ev (suspend_membership uuid4 now t i c).
Proof. apply ev_transition. set_solver. Qed.
Lemma ev_reactivate now t i c : ev (reactivate_membership uuid4 now t i c).
Proof. unfold reactivate_membership. ev_steps. Qed.
Lemma ev_revoke_membership now t i c : ev (revoke_membership uuid4 now t i c).
Proof. apply ev_transition. set_solver. Qed.

Lemma ev_insert_account t n : ev (insert_fresh uuid4
  (λ id st, bool_decide (is_Some (service_accounts st !! id)) || account_name_taken st t n)
  (λ id st, put_account_names (<[id := n]> st.(is_account_names))
     (set_service_accounts (<[id := (t, SA_ACTIVE)]> (service_accounts st)) st))).
Proof. new_row. Qed.
#[local] Hint Resolve ev_insert_account : evo.
Lemma ev_create_account now t n c : ev (create_service_account uuid4 now t n c).
Proof. unfold create_service_account. ev_steps. Qed.
Lemma ev_set_account t a s c ac au : ev au → ev (set_service_account_status t a s c ac au).
Proof. intros Hau. unfold set_service_account_status. ev_steps. apply ev_modify. eauto with evo. Qed.
#[local] Hint Resolve ev_set_account : evo.
Lemma ev_disable now t a c : ev (disable_service_account uuid4 now t a c).
Proof. apply ev_set_account. eauto with evo. Qed.
Lemma ev_enable now t a c : ev (enable_service_account uuid4 now t a c).
Proof. unfold enable_service_account. ev_steps. Qed.

(** *** Invitations *)

Lemma ev_insert_invitation v i : ev (insert_fresh uuid4 v (λ id st, put_invitations (<[id := i]> st.(is_invitations)) st)).
Proof. new_row. Qed.
#[local] Hint Resolve ev_insert_invitation : evo.
Lemma ev_create_invitation now t e r c ex : ev (create_invitation uuid4 hash casefold now t e r c ex).
Proof. unfold create_invitation. ev_steps. Qed.

Lemma ev_put_invitation st id i i' {A} (m : IM A) : st.(is_invitations) !! id = Some i → invitation_evolves i i' → ev m →
  evolves uuid4 st (bind (put_invitation id i') (λ _, m) st).2.
Proof.
  intros Hi HE Hm. apply ev_modify_then; [|done]. apply ev_put_invitations. intros lo hi. by eapply table_update; [apply _|exact Hi|].
Qed.
Lemma undecided_evolves now u i : i.(in_accepted_at) = None → i.(in_revoked_at) = None →
  invitation_evolves i (revoked_invitation now u i) ∧ invitation_evolves i (accepted_invitation now u i).
Proof. intros H1 H2. split; split; try done; intros [H|H]; rewrite ?H1, ?H2 in H; by apply is_Some_None in H. Qed.
Lemma none_of {A} (o : option A) : bool_decide (is_Some o) = false → o = None.
Proof. rewrite bool_decide_eq_false. by intros ?%eq_None_not_Some. Qed.

Lemma ev_revoke_invitation now t i c : ev (revoke_invitation uuid4 now t i c).
Proof.
  unfold revoke_invitation. apply keeps_bind; [apply _|eauto with evo|intros u]. apply keeps_transaction; [apply _|]. apply keeps_commits.
  do 2 (apply keeps_bind; [apply _|eauto with evo|intros _]). apply ev_read_then. intros st.
  destruct (st.(is_invitations) !! i) as [v|] eqn:Ei; [|reflexivity]. destruct (negb _); [reflexivity|].
  destruct (bool_decide (is_Some v.(in_revoked_at))) eqn:H1; [reflexivity|].
  destruct (bool_decide (is_Some v.(in_accepted_at))) eqn:H2; [reflexivity|].
  eapply ev_put_invitation; [exact Ei| |eauto with evo]. apply undecided_evolves; by apply none_of.
Qed.
Lemma ev_consume now t i h u e : ev (consume_locked_invitation uuid4 casefold now t i h u e).
Proof.
  unfold consume_locked_invitation. apply ev_read_then. intros st.
  destruct (st.(is_invitations) !! i) as [v|] eqn:Ei; [|reflexivity]. unfold bind at 1, refuse_if.
  destruct (negb (accessible _ _)); [reflexivity|]. destruct (_ || _ || _ || _ || _) eqn:Hb; [reflexivity|].
  destruct (negb (email_matches _ _ _)); [reflexivity|]. rewrite !orb_false_iff in Hb. destruct Hb as [[[_ H1] H2] _].
  eapply ev_put_invitation; [exact Ei|apply undecided_evolves; by apply none_of|]. ev_steps.
Qed.
#[local] Hint Resolve ev_consume : evo.
Lemma ev_accept now r t c e : ev (accept_invitation uuid4 hash casefold now r t c e).
Proof. unfold accept_invitation. ev_steps. Qed.

(** *** Sessions and login transactions *)

Lemma ev_insert_session v r : ev (insert_fresh uuid4 v (λ id st, put_sessions (<[id := r]> st.(is_sessions)) st)).
Proof. new_row. Qed.
Lemma ev_record_issued u : ev (record_operator_session_issued u).
Proof. unfold record_operator_session_issued. ev_steps. Qed.
#[local] Hint Resolve ev_insert_session ev_record_issued : evo.
Lemma ev_issue now u r l e mf at_ : ev (issue_session uuid4 hash casefold now u r l e mf at_).
Proof. unfold issue_session. ev_steps. Qed.
Lemma ev_revoke_session now i : ev (revoke_session now i).
Proof.
  unfold revoke_session. apply keeps_transaction; [apply _|]. apply keeps_commits. apply ev_read_then. intros st.
  destruct (st.(is_sessions) !! i) as [r|] eqn:Er; [|reflexivity]. apply ev_put_sessions. intros lo hi.
  eapply table_update; [apply _|exact Er|]. split; try done. simpl. by destruct (se_revoked_at r) as [x|]; [|intros []%is_Some_None].
Qed.

(** Rows removed. *)
Lemma ev_keep_sessions st (P : uuid * Session → Prop) `{!∀ x, Decision (P x)} : evolves uuid4 st (put_sessions (filter P st.(is_sessions)) st).
Proof. apply ev_put_sessions. intros lo hi. apply table_subset; [apply _|apply map_filter_subseteq]. Qed.
Lemma ev_keep_keys st (P : uuid * ApiKey → Prop) `{!∀ x, Decision (P x)} : evolves uuid4 st (put_keys (filter P st.(is_keys)) st).
Proof. apply ev_put_keys. intros lo hi. apply table_subset; [apply _|apply map_filter_subseteq]. Qed.
Lemma ev_keep_invitations st (P : uuid * Invitation → Prop) `{!∀ x, Decision (P x)} :
  evolves uuid4 st (put_invitations (filter P st.(is_invitations)) st).
Proof. apply ev_put_invitations. intros lo hi. apply table_subset; [apply _|apply map_filter_subseteq]. Qed.
Lemma ev_keep_logins st (P : uuid * LoginTransaction → Prop) `{!∀ x, Decision (P x)} :
  evolves uuid4 st (put_logins (filter P st.(is_logins)) st).
Proof. apply ev_put_logins. intros lo hi. apply table_subset; [apply _|apply map_filter_subseteq]. Qed.
Lemma foldr_delete_subset {A} (ids : list uuid) (m : gmap uuid A) : foldr delete m ids ⊆ m.
Proof. induction ids as [|i ids IH]; [done|]. simpl. etrans; [apply delete_subseteq|done]. Qed.

Lemma ev_batch condition n locked : ev (delete_one_batch condition n locked).
Proof. intros st. apply ev_put_sessions. intros lo hi. apply table_subset; [apply _|apply foldr_delete_subset]. Qed.
#[local] Hint Resolve ev_batch : evo.
Lemma ev_phase n condition b locked : ev (cleanup_phase n condition b locked).
Proof. induction n as [|n IH]; simpl; ev_steps. Qed.
#[local] Hint Resolve ev_phase : evo.
Lemma ev_cleanup now cfg locked : ev (cleanup_expired_sessions now cfg locked).
Proof. unfold cleanup_expired_sessions. ev_steps. Qed.

Lemma ev_insert_login v l : ev (insert_fresh uuid4 v (λ id st, put_logins (<[id := l]> st.(is_logins)) st)).
Proof. new_row. Qed.
#[local] Hint Resolve ev_insert_login : evo.
Lemma ev_begin now s n v l : ev (begin_login_transaction uuid4 now s n v l).
Proof. apply keeps_transaction; [apply _|]. apply keeps_commits. eauto with evo. Qed.
Lemma ev_drop_login i : ev (modify (λ st, put_logins (delete i st.(is_logins)) st)).
Proof. intros st. apply ev_put_logins. intros lo hi. apply table_subset; [apply _|apply delete_subseteq]. Qed.
#[local] Hint Resolve ev_drop_login : evo.
Lemma ev_consume_login now i s : ev (consume_login_transaction now i s).
Proof. unfold consume_login_transaction. ev_steps. Qed.

(** *** Removals *)

Lemma ev_purge_invitations t : ev (purge_tenant_invitations t).
Proof. unfold purge_tenant_invitations. ev_steps. intros st. apply ev_keep_invitations. Qed.
Lemma ev_purge_accounts t audited keep : ev (purge_tenant_service_accounts t audited keep).
Proof. unfold purge_tenant_service_accounts. ev_steps. intros st. by apply evolves_same. Qed.
Lemma ev_drop_memberships t : ev (modify (λ st, set_memberships (filter (λ p : uuid * uuid * TenantMembership, p.1.1 ≠ t) (memberships st)) st)).
Proof. intros st. apply ev_set_memberships. intros lo hi. apply table_subset; [apply _|apply map_filter_subseteq]. Qed.
#[local] Hint Resolve ev_drop_memberships : evo.
Lemma ev_purge_memberships t : ev (purge_tenant_memberships t).
Proof. unfold purge_tenant_memberships. ev_steps. Qed.

(** *** API keys *)

Lemma ev_insert_key k : ev (insert_key uuid4 k).
Proof. unfold insert_key. apply keeps_bind; [apply _|eauto with evo|intros _]. new_row. Qed.
Lemma ev_validate_name n : ev (validate_name n).
Proof. intros st. reflexivity. Qed.
Lemma ev_lock_key t k : ev (lock_key t k).
Proof. intros st. reflexivity. Qed.
#[local] Hint Resolve ev_insert_key ev_validate_name ev_lock_key : evo.
Lemma ev_authorize_keys now c k op ac t : ev (authorize_key_management uuid4 now c k op ac t).
Proof. unfold authorize_key_management. ev_steps. Qed.
#[local] Hint Resolve ev_authorize_keys : evo.
Lemma ev_create_key now t n r c ex : ev (create_api_key uuid4 hash now max_per_user t n r c ex).
Proof. unfold create_api_key. ev_steps. Qed.
Lemma ev_create_account_key now t a n r c ex : ev (create_service_account_api_key uuid4 hash now t a n r c ex).
Proof. unfold create_service_account_api_key. ev_steps. Qed.
Lemma ev_validate_key now r : ev (validate_api_key hash now r).
Proof. unfold validate_api_key. ev_steps. Qed.

(** A key read before is still the row when nothing but entries of the audit
    trail and permissions was written since. *)
Lemma key_revoked_evolves now k : k.(ak_revoked_at) = None → key_evolves k (revoked_key now k).
Proof. intros H. split; try done. rewrite H. by intros []%is_Some_None. Qed.

Lemma ev_put_key_now st id k k' {A} (m : IM A) : st.(is_keys) !! id = Some k → key_evolves k k' → ev m →
  evolves uuid4 st (bind (put_key id k') (λ _, m) st).2.
Proof.
  intros Hk HE Hm. apply ev_modify_then; [|done]. apply ev_put_keys. intros lo hi. by eapply table_update; [apply _|exact Hk|].
Qed.
Lemma lock_key_spec t id st k st' : lock_key t id st = (Ok k, st') → st' = st ∧ st.(is_keys) !! id = Some k ∧ k.(ak_tenant_id) = t.
Proof.
  unfold lock_key. destruct (is_keys st !! id) as [k'|]; [|done]. destruct (bool_decide _) eqn:Hb; [|done].
  intros [= -> ->]. rewrite bool_decide_eq_true in Hb. done.
Qed.

Definition same_keys (st st' : identity_store) : Prop := st'.(is_keys) = st.(is_keys).
#[export] Instance same_keys_preorder : PreOrder same_keys.
Proof. split; unfold same_keys; [by intros st|]. intros a b c H1 H2. by rewrite H2. Qed.
Lemma sk_in_rbac {A} (m : tenancy_store → RM A) : keeps (E := identity_error) same_keys (in_rbac m).
Proof. intros st. unfold in_rbac. by destruct (m _ _) as [[]]. Qed.
Lemma sk_authorize_keys now c k op ac t : keeps same_keys (authorize_key_management uuid4 now c k op ac t).
Proof. unfold authorize_key_management, irequire_active_user. keeps_steps; apply sk_in_rbac. Qed.

Lemma ev_lock_then {A} t id (m : ApiKey → IM A) :
  (∀ st k, st.(is_keys) !! id = Some k → evolves uuid4 st (m k st).2) → ev (bind (lock_key t id) m).
Proof.
  intros H st. unfold bind. destruct (lock_key t id st) as [[k|e] st'] eqn:El.
  - apply lock_key_spec in El as (-> & Hk & _). by apply H.
  - unfold lock_key in El. destruct (is_keys st !! id); [destruct (bool_decide _)|]; by simplify_eq.
Qed.
Lemma ev_bind_same {A B} st (m : IM A) (k : A → IM B) id row : st.(is_keys) !! id = Some row → ev m → keeps same_keys m →
  (∀ a st', st'.(is_keys) !! id = Some row → evolves uuid4 st' (k a st').2) → evolves uuid4 st (bind m k st).2.
Proof.
  intros Hr Hm Hs Hk. specialize (Hm st). specialize (Hs st). unfold bind. destruct (m st) as [[a|e] st']; [|done].
  etrans; [exact Hm|]. apply Hk. unfold same_keys in Hs. simpl in Hs. by rewrite Hs.
Qed.
Lemma ev_revoke_locked now id k t c st : st.(is_keys) !! id = Some k → evolves uuid4 st (revoke_locked_key now id k t c st).2.
Proof.
  intros Hk. unfold revoke_locked_key. destruct (bool_decide (is_Some (ak_revoked_at k))) eqn:Hb; [reflexivity|].
  eapply ev_put_key_now; [exact Hk|by apply key_revoked_evolves, none_of|]. eauto with evo.
Qed.
Lemma ev_revoke_key now t id c : ev (revoke_api_key uuid4 now t id c).
Proof.
  unfold revoke_api_key. apply keeps_transaction; [apply _|]. apply keeps_commits. apply ev_lock_then. intros st k Hk.
  eapply ev_bind_same; [exact Hk|eauto with evo|apply sk_authorize_keys|]. intros _ st' Hk'. by apply ev_revoke_locked.
Qed.
Lemma ev_revoke_account_key now t id c : ev (revoke_service_account_api_key uuid4 now t id c).
Proof.
  unfold revoke_service_account_api_key. apply keeps_bind; [apply _|eauto with evo|intros u]. apply keeps_transaction; [apply _|].
  apply keeps_commits. do 2 (apply keeps_bind; [apply _|eauto with evo|intros _]). apply ev_lock_then. intros st k. apply ev_revoke_locked.
Qed.
Lemma ev_rotate now t id r c ex : ev (rotate_api_key uuid4 hash now t id r c ex).
Proof.
  unfold rotate_api_key. do 2 (apply keeps_bind; [apply _|unfold require_open_tenant'; eauto with evo|intros ?]).
  apply keeps_transaction; [apply _|]. apply keeps_commits. apply keeps_bind; [apply _|unfold lock_accessible; eauto with evo|intros _].
  apply keeps_bind; [apply _|ev_steps|intros _]. apply ev_lock_then. intros st k Hk.
  eapply ev_bind_same; [exact Hk|eauto with evo|apply sk_authorize_keys|]. intros _ st' Hk'.
  destruct (bool_decide (is_Some (ak_revoked_at k))) eqn:Hb; [reflexivity|].
  eapply ev_put_key_now; [exact Hk'|by apply key_revoked_evolves, none_of|]. ev_steps.
Qed.
Lemma ev_purge_keys t : ev (purge_tenant_api_keys t).
Proof. unfold purge_tenant_api_keys. ev_steps. intros st. apply ev_keep_keys. Qed.

(** *** The authority of the platform over a user *)

Lemma ev_revoke_all_sessions now u : ev (revoke_sessions now u).
Proof.
  intros st. apply ev_put_sessions. intros lo hi. apply table_fmap. intros r. unfold revoke_if_users_session.
  destruct (bool_decide (se_user_id r = u) && bool_decide (se_revoked_at r = None)) eqn:Hb; [|reflexivity].
  apply andb_true_iff in Hb as [_ Hb%bool_decide_eq_true]. split; try done. rewrite Hb. by intros []%is_Some_None.
Qed.
Lemma ev_revoke_all_keys now u : ev (revoke_user_api_keys_in_transaction now u).
Proof.
  intros st. apply ev_put_keys. intros lo hi. apply table_fmap. intros k. unfold revoke_if_users.
  destruct (bool_decide (ak_user_id k = Some u) && bool_decide (ak_revoked_at k = None)) eqn:Hb; [|reflexivity].
  apply andb_true_iff in Hb as [_ Hb%bool_decide_eq_true]. by apply key_revoked_evolves.
Qed.
Lemma ev_record_outcome c a u code o st : evolves uuid4 st (record_outcome c a u code o st).
Proof. unfold record_outcome. destruct c; try reflexivity; try apply ev_put_tenancy. destruct (bool_decide _); [reflexivity|apply ev_put_tenancy]. Qed.
Lemma ev_run_recorded {A} op c u (m : IM A) : ev m → ev (run_recorded op c u m).
Proof.
  intros Hm st. unfold run_recorded. specialize (Hm st). destruct (m st) as [[a|e] st']; [exact Hm|].
  simpl in *. etrans; [exact Hm|]. destruct (outcome_of e) as [[code o]|]; [apply ev_record_outcome|reflexivity].
Qed.
Lemma ev_record_success op c u r : ev (record_success op c u r).
Proof. apply ev_in_platform. Qed.
Lemma ev_authorize_platform c op : ev (authorize_platform c op).
Proof. intros st. reflexivity. Qed.
Lemma ev_require_subject u : ev (require_subject u).
Proof. intros st. reflexivity. Qed.
Lemma ev_iscan op u n : ev (iscan op u n).
Proof. intros st. reflexivity. Qed.
Lemma ev_may_deactivate c : ev (may_deactivate c).
Proof. intros st. reflexivity. Qed.
Lemma ev_modify_users f : ev (modify (λ st, set_users (f st) st)).
Proof. intros st. apply ev_set_users. Qed.
Lemma ev_modify_identities f : ev (modify (λ st, set_identities (f st) st)).
Proof. intros st. apply ev_set_identities. Qed.
Lemma ev_key_revocations c ks : ev (record_platform_key_revocations c ks).
Proof. induction ks as [|[k t] ks IH]; simpl; ev_steps. Qed.
#[local] Hint Resolve ev_revoke_all_sessions ev_revoke_all_keys ev_run_recorded ev_record_success ev_authorize_platform
  ev_require_subject ev_iscan ev_may_deactivate ev_modify_users ev_modify_identities ev_key_revocations : evo.

Ltac authority_steps :=
  unfold require_person_or_refuse, require_user_caller, validated; ev_steps; apply ev_run_recorded; ev_steps.
Lemma ev_revoke_user_sessions now u c r : ev (revoke_user_sessions now u c r).
Proof. unfold revoke_user_sessions. authority_steps. Qed.
Lemma ev_revoke_user_keys now u c r : ev (revoke_user_api_keys now u c r).
Proof. unfold revoke_user_api_keys. authority_steps. Qed.
Lemma ev_reactivate_user now u c r : ev (reactivate_user now u c r).
Proof. unfold reactivate_user. authority_steps. Qed.
Lemma ev_remove_links u a : ev (remove_identity_links_unless_enrolled_operator u a).
Proof. unfold remove_identity_links_unless_enrolled_operator. ev_steps. intros st. apply ev_record_outcome. Qed.

Lemma ev_deactivate_locked now u c r n first : ev (deactivate_locked now u c r n first).
Proof. unfold deactivate_locked. ev_steps. Qed.
#[local] Hint Resolve ev_deactivate_locked : evo.
Lemma ev_attempts now n between u c r ceiling : (∀ n st, evolves uuid4 st (between n st)) →
  ev (deactivate_attempts now n between u c r ceiling).
Proof.
  intros Hb. induction n as [|n IH]; simpl; [ev_steps|]. apply keeps_bind; [apply _| |intros [x|]; ev_steps].
  unfold deactivate_attempt. do 4 (apply keeps_bind; [apply _|first [solve [eauto with evo]|intros st; apply Hb]|intros ?]). intros st.
  pose proof (ev_deactivate_locked now u c r ceiling a1 st) as H.
  destruct (deactivate_locked now u c r ceiling a1 st) as [[[x|]|e] st']; [exact H|reflexivity..].
Qed.
Lemma ev_deactivate now between ceiling u c r : (∀ n st, evolves uuid4 st (between n st)) →
  ev (deactivate_user now between ceiling u c r).
Proof.
  intros Hb. unfold deactivate_user, require_person_or_refuse, validated.
  apply keeps_bind; [apply _|ev_steps|intros _]. apply keeps_bind; [apply _|ev_steps|intros ?]. apply ev_run_recorded. by apply ev_attempts.
Qed.

#[local] Hint Resolve ev_get_or_create ev_get_or_create_tx ev_add_membership ev_suspend ev_reactivate ev_revoke_membership
  ev_create_account ev_disable ev_enable ev_create_invitation ev_revoke_invitation ev_accept ev_issue ev_revoke_session ev_cleanup
  ev_begin ev_consume_login ev_purge_invitations ev_purge_accounts ev_purge_memberships ev_create_key ev_create_account_key
  ev_validate_key ev_revoke_key ev_revoke_account_key ev_rotate ev_purge_keys ev_revoke_user_sessions ev_revoke_user_keys
  ev_reactivate_user ev_remove_links : evo.

Lemma irun_evolves now cmd : ev (irun now cmd).
Proof.
  destruct cmd; simpl; try apply ev_ivoid; eauto with evo; intros st;
    first [reflexivity | apply ev_keep_sessions | apply ev_keep_logins | apply ev_keep_invitations | apply ev_keep_keys | idtac].
  apply ev_in_rbac. intros s. apply rrun_quiet.
Qed.
Lemma history_evolves st st' : history st st' → evolves uuid4 st st'.
Proof.
  induction 1 as [|st1 st2 st3 _ H1 _ H2|now cmd st|s st|now between ceiling u c r st _ IH].
  - reflexivity.
  - by etrans.
  - apply irun_evolves.
  - apply ev_put_tenancy.
  - by apply ev_deactivate.
Qed.
End Histories.
