(* ===== verification/IdentitySafety.v ===== *)
(** * What identity guarantees over all histories

    Revocation is final, deactivation and reactivation end every credential a
    person holds, invitations and login transactions are used once. *)

From S2P Require Import Prelude StoreLogic PyStr TenantLifecycle PlatformAuthority PlatformService TenantHierarchy RbacDecision RbacService RbacIntegrity Identity ApiKeys UserAuthority IdentityProofs IdentityHistory.

(** ** Where rows come from *)

(** A deployment starts without rows of identity. *)
Definition no_identity_rows (st : identity_store) : Prop :=
  st.(is_sessions) = ∅ ∧ st.(is_keys) = ∅ ∧ st.(is_logins) = ∅ ∧ st.(is_invitations) = ∅ ∧ memberships st = ∅.

Section Safety.
Context (uuid4 : nat → uuid) (hash casefold : pystr → pystr) (max_per_user : nat).
Context (Huuid : Inj (=) (=) uuid4).
Abbreviation history := (history uuid4 hash casefold max_per_user).

Definition issued (n : nat) (id : uuid) : Prop := ∃ k, (k < n)%nat ∧ uuid4 k = id.

Section Table.
Context {K A : Type} `{Countable K} (E : A → A → Prop) `{!PreOrder E} (id_of : K → A → uuid).

(** A row whose id was given out before comes from the row of its key. *)
Lemma table_old lo hi (m m' : gmap K A) k a' : table_evolves uuid4 E id_of lo hi m m' → issued lo (id_of k a') →
  m' !! k = Some a' → ∃ a, m !! k = Some a ∧ E a a'.
Proof.
  intros Ht (n & Hn & Hi) Hk. destruct (Ht k a' Hk) as [H'|(n' & Hn' & Hi')]; [done|].
  rewrite <- Hi in Hi'. apply Huuid in Hi'. lia.
Qed.
Definition drawn_ids (n : nat) (m : gmap K A) : Prop := ∀ k a, m !! k = Some a → issued n (id_of k a).
Lemma table_drawn lo hi (m m' : gmap K A) : (lo ≤ hi)%nat → (∀ k a a', E a a' → id_of k a' = id_of k a) →
  table_evolves uuid4 E id_of lo hi m m' → drawn_ids lo m → drawn_ids hi m'.
Proof.
  intros Hle Hid Ht Hd k a' Hk. destruct (Ht k a' Hk) as [(a & Ha & HE)|(n & Hn & Hi)].
  - rewrite (Hid _ _ _ HE). destruct (Hd k a Ha) as (n & Hn & <-). exists n. split; [lia|done].
  - exists n. split; [lia|done].
Qed.
End Table.

Record ids_issued (st : identity_store) : Prop := {
  ii_sessions : drawn_ids (λ k _, k) (drawn st) st.(is_sessions);
  ii_keys : drawn_ids (λ k _, k) (drawn st) st.(is_keys);
  ii_logins : drawn_ids (λ k _, k) (drawn st) st.(is_logins);
  ii_invitations : drawn_ids (λ k _, k) (drawn st) st.(is_invitations);
  ii_memberships : drawn_ids (λ _ m, m.(tm_id)) (drawn st) (memberships st);
}.

Lemma history_ids st st' : history st st' → ids_issued st → ids_issued st'.
Proof.
  intros [Hd Hs Hk Hl Hi Hm]%history_evolves [Is Ik Il Ii Im].
  split; (eapply table_drawn; [exact Hd| |eassumption|eassumption]); try done. by intros _ m m' [? _].
Qed.
Lemma start_ids st : no_identity_rows st → ids_issued st.
Proof. intros (H1 & H2 & H3 & H4 & H5). split; rewrite ?H1, ?H2, ?H3, ?H4, ?H5; intros k a; by rewrite lookup_empty. Qed.
Lemma deployment_ids st0 st : no_identity_rows st0 → history st0 st → ids_issued st.
Proof. intros H0 Hh. eapply history_ids; [exact Hh|by apply start_ids]. Qed.

(** ** Credentials *)

Lemma validate_session_found now tok st id r st' : validate_session hash now tok st = (Ok (id, r), st') →
  st.(is_sessions) !! id = Some r ∧ r.(se_revoked_at) = None ∧ now < r.(se_expires_at) ∧ r.(se_token_hash) = hash tok ∧
  is_active_user st.(is_tenancy).(ts_platform) r.(se_user_id) = true.
Proof.
  unfold validate_session, find_session. destruct (find _ _) as [[i r']|] eqn:Hf; [|done].
  apply find_some in Hf as [Hin%list_elem_of_In%elem_of_map_to_list Hh%bool_decide_eq_true].
  destruct (bool_decide _) eqn:Hr; [done|]. destruct (_ <=? _) eqn:He; [done|]. destruct (is_active_user _ _) eqn:Ha; [|done].
  intros [= -> -> _]. apply Z.leb_gt in He. split_and!; try done. by apply none_of.
Qed.
Lemma validate_key_found now raw st id k st' : validate_api_key hash now raw st = (Ok (id, k), st') →
  st.(is_keys) !! id = Some k ∧ key_refusal now st id k = None ∧ k.(ak_key_hash) = hash raw.
Proof.
  unfold validate_api_key. intros (found & s1 & H1 & H2)%bind_Ok. injection H1 as <- <-.
  unfold find_key in H2. destruct (find _ _) as [[i k']|] eqn:Hf; [|done].
  apply find_some in Hf as [Hin%list_elem_of_In%elem_of_map_to_list Hh%bool_decide_eq_true].
  apply bind_Ok in H2 as (ref & s2 & H1 & H2). injection H1 as <- <-.
  destruct (key_refusal now st i k') as [e|] eqn:Hr.
  - destruct e; try done; apply bind_Ok in H2 as (? & ? & _ & H2); done.
  - injection H2 as -> -> _. done.
Qed.
Lemma refusal_none now st id k : key_refusal now st id k = None →
  k.(ak_revoked_at) = None ∧ (∀ t, k.(ak_expires_at) = Some t → now < t) ∧
  (∀ u, k.(ak_user_id) = Some u → is_active_user st.(is_tenancy).(ts_platform) u = true) ∧
  (∀ a, k.(ak_user_id) = None → k.(ak_service_account_id) = Some a → account_of st k.(ak_tenant_id) a = Some SA_ACTIVE).
Proof.
  unfold key_refusal. destruct (bool_decide (is_Some _)) eqn:H1; [done|]. apply none_of in H1.
  destruct (match ak_expires_at k with Some t => t <=? now | None => false end) eqn:H2; [done|].
  destruct (ts_tenants _ !! _) as [t|]; [|done]. destruct (negb _); [done|]. intros H. split_and!; [done|..].
  - intros x Hx. rewrite Hx in H2. by apply Z.leb_gt in H2.
  - intros u Hu. rewrite Hu in H. by destruct (is_active_user _ _).
  - intros a Hu Ha. rewrite Hu, Ha in H. by destruct (bool_decide _) eqn:Hb; [apply bool_decide_eq_true in Hb|].
Qed.

(** The credentials that can never be used again. *)
Definition dead_session (id : uuid) (st : identity_store) : Prop :=
  issued (drawn st) id ∧ ∀ r, st.(is_sessions) !! id = Some r → is_Some r.(se_revoked_at).
Definition dead_key (id : uuid) (st : identity_store) : Prop :=
  issued (drawn st) id ∧ ∀ k, st.(is_keys) !! id = Some k → is_Some k.(ak_revoked_at).

Lemma issued_later st st' id : history st st' → issued (drawn st) id → issued (drawn st') id.
Proof. intros [Hd _ _ _ _ _]%history_evolves (n & Hn & Hi). exists n. split; [lia|done]. Qed.
Lemma dead_session_stays id st st' : history st st' → dead_session id st → dead_session id st'.
Proof.
  intros Hh [Hi Hd]. split; [by eapply issued_later|]. intros r' Hr'. pose proof (ev_sessions _ _ _ (history_evolves _ _ _ _ _ _ Hh)) as Ht.
  destruct (table_old _ _ _ _ _ _ _ _ Ht Hi Hr') as (r & Hr & [_ _ _ Hv]). specialize (Hd r Hr). by rewrite Hv.
Qed.
Lemma dead_key_stays id st st' : history st st' → dead_key id st → dead_key id st'.
Proof.
  intros Hh [Hi Hd]. split; [by eapply issued_later|]. intros k' Hk'. pose proof (ev_keys _ _ _ (history_evolves _ _ _ _ _ _ Hh)) as Ht.
  destruct (table_old _ _ _ _ _ _ _ _ Ht Hi Hk') as (k & Hk & [_ _ _ _ _ Hv]). specialize (Hd k Hk). by rewrite Hv.
Qed.
Lemma dead_session_refused id st now tok r : dead_session id st → (validate_session hash now tok st).1 ≠ Ok (id, r).
Proof.
  intros [_ Hd] Hv. destruct (validate_session hash now tok st) as [res st'] eqn:E. simpl in Hv. subst res.
  apply validate_session_found in E as (Hr & Hn & _). destruct (Hd r Hr) as [x Hx]. congruence.
Qed.
Lemma dead_key_refused id st now raw k : dead_key id st → (validate_api_key hash now raw st).1 ≠ Ok (id, k).
Proof.
  intros [_ Hd] Hv. destruct (validate_api_key hash now raw st) as [res st'] eqn:E. simpl in Hv. subst res.
  apply validate_key_found in E as (Hk & [Hn _]%refusal_none & _). destruct (Hd k Hk) as [x Hx]. congruence.
Qed.

(** *** What revokes a key *)

Inductive revokes_key (now : datetime) (id : uuid) (st st1 : identity_store) : Prop :=
| revoked_by_owner t c : revoke_api_key uuid4 now t id c st = (Ok tt, st1) → revokes_key now id st st1
| revoked_for_account t c : revoke_service_account_api_key uuid4 now t id c st = (Ok tt, st1) → revokes_key now id st st1
| rotated t raw c ex new : rotate_api_key uuid4 hash now t id raw c ex st = (Ok new, st1) → revokes_key now id st st1.

Lemma transaction_returned {A} (m : IM A) st a st' : transaction m st = (Ok a, st') → m st = (Ok a, st').
Proof. unfold transaction. by destruct (m st) as [[x|e] s] eqn:E; intros [= -> ->]. Qed.
Lemma same_keys_of {A} (m : IM A) st a st' : keeps same_keys m → m st = (Ok a, st') → st'.(is_keys) = st.(is_keys).
Proof. intros H E. specialize (H st). by rewrite E in H. Qed.
Lemma refuse_if_returned p e st st' : refuse_if p e st = (Ok tt, st') → st' = st ∧ p st = false.
Proof. unfold refuse_if. destruct (p st); by intros [= ->]. Qed.

Lemma revoke_session_kills now id st st1 : revoke_session now id st = (Ok tt, st1) →
  ∃ r, st1.(is_sessions) !! id = Some r ∧ is_Some r.(se_revoked_at).
Proof.
  intros (row & s1 & H1 & H2)%transaction_returned%bind_Ok. injection H1 as <- <-.
  destruct (is_sessions st !! id) as [r|]; [|done]. injection H2 as <-. simpl. rewrite lookup_insert_eq.
  eexists. split; [done|]. simpl. by destruct (se_revoked_at r).
Qed.

Lemma revoke_locked_kills now id k t c st st1 : st.(is_keys) !! id = Some k → revoke_locked_key now id k t c st = (Ok tt, st1) →
  ∃ k', st1.(is_keys) !! id = Some k' ∧ is_Some k'.(ak_revoked_at).
Proof.
  intros Hk. unfold revoke_locked_key. destruct (bool_decide (is_Some _)) eqn:Hb.
  - intros [= <-]. exists k. split; [done|]. by apply bool_decide_eq_true in Hb.
  - intros (? & s1 & H1 & H2)%bind_Ok. injection H1 as _ <-. apply same_keys_of in H2; [|apply sk_in_rbac].
    rewrite H2. simpl. rewrite lookup_insert_eq. eexists. split; [done|]. simpl. eauto.
Qed.
Lemma sk_insert_fresh_lookup k st new st1 id row : st.(is_keys) !! id = Some row → insert_key uuid4 k st = (Ok new, st1) →
  st1.(is_keys) !! id = Some row.
Proof.
  intros Hrow (? & s1 & H1 & H2)%bind_Ok. destruct x. apply refuse_if_returned in H1 as [-> _].
  apply bind_Ok in H2 as (n & s2 & H1 & H2). injection H1 as <- <-.
  apply bind_Ok in H2 as (? & s3 & H1 & H2). destruct x. apply refuse_if_returned in H1 as [-> Hv]. injection H2 as <- <-.
  unfold key_violates in Hv. rewrite !orb_false_iff in Hv. destruct Hv as [[Hv _] _]. apply none_of in Hv. simpl in *.
  rewrite lookup_insert_ne; [done|]. intros E. rewrite E in Hv. congruence.
Qed.

Lemma revokes_key_kills now id st st1 : revokes_key now id st st1 →
  ∃ k, st1.(is_keys) !! id = Some k ∧ is_Some k.(ak_revoked_at).
Proof.
  intros [t c H|t c H|t raw c ex new H].
  - apply transaction_returned, bind_Ok in H as (k & s1 & (-> & Hk & _)%lock_key_spec & H).
    apply bind_Ok in H as ([] & s2 & Ha%same_keys_of & H); [|apply sk_authorize_keys].
    eapply revoke_locked_kills; [|exact H]. by rewrite Ha.
  - apply bind_Ok in H as (u & s1 & _ & H). apply transaction_returned, bind_Ok in H as (? & s2 & _ & H).
    apply bind_Ok in H as ([] & s3 & [-> _]%refuse_if_returned & H).
    apply bind_Ok in H as (k & s4 & (-> & Hk & _)%lock_key_spec & H). by eapply revoke_locked_kills.
  - apply bind_Ok in H as (? & s1 & _ & H). apply bind_Ok in H as (owner & s2 & _ & H).
    apply transaction_returned, bind_Ok in H as (? & s3 & _ & H). apply bind_Ok in H as (? & s4 & _ & H).
    apply bind_Ok in H as (k & s5 & (-> & Hk & _)%lock_key_spec & H).
    apply bind_Ok in H as ([] & s6 & Ha%same_keys_of & H); [|apply sk_authorize_keys]. rewrite <- Ha in Hk.
    destruct (bool_decide _); [done|]. apply bind_Ok in H as (? & s7 & H7 & H). injection H7 as _ <-.
    apply bind_Ok in H as (n & s8 & H8 & H). apply bind_Ok in H as (? & s9 & H9%same_keys_of & H); [|apply sk_in_rbac].
    injection H as _ <-. rewrite H9. exists (revoked_key now k). split; [|by eexists].
    eapply sk_insert_fresh_lookup; [|exact H8]. simpl. apply lookup_insert_eq.
Qed.

Lemma ivoid_state {A} (m : IM A) st : (ivoid m st).2 = (m st).2.
Proof. unfold ivoid, bind. by destruct (m st) as [[a|e] s]. Qed.
Lemma run_history {A} now cmd (m : IM A) st a st1 : (irun uuid4 hash casefold max_per_user now cmd st).2 = (m st).2 → m st = (Ok a, st1) →
  history st st1.
Proof. intros H1 H2. rewrite H2 in H1. simpl in H1. subst st1. apply h_run. Qed.
Lemma revokes_key_history now id st st1 : revokes_key now id st st1 → history st st1.
Proof.
  intros [t c H|t c H|t raw c ex new H].
  - by eapply (run_history now (KRevoke t id c)); [|exact H].
  - by eapply (run_history now (KRevokeForAccount t id c)); [|exact H].
  - by eapply (run_history now (KRotate t id raw c ex)); [apply ivoid_state|exact H].
Qed.

(** A revocation is final.  Once [revoke_session] returned, no history makes
    the session valid again; once a key was revoked by its owner, revoked for a
    service account or replaced by a rotation, no history makes it valid again. *)
Theorem credential_revocation_final (st0 st st1 st2 : identity_store) (now now' : datetime) (id : uuid) (token : pystr) :
  no_identity_rows st0 → history st0 st → history st1 st2 →
  (revoke_session now id st = (Ok tt, st1) → ∀ r, (validate_session hash now' token st2).1 ≠ Ok (id, r)) ∧
  (revokes_key now id st st1 → ∀ k, (validate_api_key hash now' token st2).1 ≠ Ok (id, k)).
Proof using Huuid.
  intros H0 Hh Hlater. pose proof (deployment_ids _ _ H0 Hh) as Hids. split.
  - intros Hr r. apply dead_session_refused. eapply dead_session_stays; [exact Hlater|].
    pose proof (revoke_session_kills _ _ _ _ Hr) as (x & Hx & Hd).
    assert (ids_issued st1) as [Hi _ _ _ _] by (eapply history_ids; [by eapply (run_history now (IRevokeSession id)); [|exact Hr]|done]).
    split; [by eapply Hi|]. intros r' Hr'. simplify_eq. done.
  - intros Hk k. apply dead_key_refused. eapply dead_key_stays; [exact Hlater|].
    pose proof (revokes_key_kills _ _ _ _ Hk) as (x & Hx & Hd).
    assert (ids_issued st1) as [_ Hi _ _ _] by (eapply history_ids; [by eapply revokes_key_history|done]).
    split; [by eapply Hi|]. intros k' Hk'. simplify_eq. done.
Qed.

(** *** Deactivation and reactivation *)

Definition ended (u : uuid) (st : identity_store) : Prop :=
  (∀ id r, st.(is_sessions) !! id = Some r → r.(se_user_id) = u → is_Some r.(se_revoked_at)) ∧
  (∀ id k, st.(is_keys) !! id = Some k → k.(ak_user_id) = Some u → is_Some k.(ak_revoked_at)).

(** The tables of credentials are those of the store before. *)
Definition same_credentials (st st' : identity_store) : Prop :=
  st'.(is_sessions) = st.(is_sessions) ∧ st'.(is_keys) = st.(is_keys).
#[local] Instance same_credentials_preorder : PreOrder same_credentials.
Proof. split; unfold same_credentials; [by intros st|]. intros a b c [H1 H2] [H3 H4]. by rewrite H3, H4. Qed.
Lemma sc_in_rbac {A} (m : tenancy_store → RM A) : keeps (E := identity_error) same_credentials (in_rbac m).
Proof. intros st. unfold in_rbac. by destruct (m _ _) as [[]]. Qed.
Lemma sc_in_platform {A} (m : PM A) : keeps (E := identity_error) same_credentials (in_platform m).
Proof. intros st. unfold in_platform. by destruct (m _) as [[]]. Qed.
Lemma sc_revocations c ks : keeps same_credentials (record_platform_key_revocations c ks).
Proof. induction ks as [|[k t] ks IH]; simpl; keeps_steps; [apply sc_in_rbac|done]. Qed.
Lemma sc_ended st st' u : same_credentials st st' → ended u st → ended u st'.
Proof. intros [H1 H2] [H3 H4]. split; [rewrite H1|rewrite H2]; done. Qed.

Lemma revoke_all_sessions_ends now u r : se_user_id (revoke_if_users_session now u r) = u →
  is_Some (se_revoked_at (revoke_if_users_session now u r)).
Proof.
  unfold revoke_if_users_session. destruct (bool_decide (se_user_id r = u)) eqn:H1; simpl.
  - destruct (bool_decide (se_revoked_at r = None)) eqn:H2; simpl; [by eexists|].
    intros _. rewrite bool_decide_eq_false in H2. by apply not_eq_None_Some.
  - rewrite bool_decide_eq_false in H1. done.
Qed.
Lemma revoke_all_keys_ends now u k : ak_user_id (revoke_if_users now u k) = Some u →
  is_Some (ak_revoked_at (revoke_if_users now u k)).
Proof.
  unfold revoke_if_users. destruct (bool_decide (ak_user_id k = Some u)) eqn:H1; simpl.
  - destruct (bool_decide (ak_revoked_at k = None)) eqn:H2; simpl; [by eexists|].
    intros _. rewrite bool_decide_eq_false in H2. by apply not_eq_None_Some.
  - rewrite bool_decide_eq_false in H1. done.
Qed.

(** What both operations do to the credentials, and what comes after it. *)
Lemma revoke_both_ends {A} now u (k : nat → list (uuid * uuid) → IM A) st a st' :
  (∀ n ks, keeps same_credentials (k n ks)) →
  (do* n := revoke_sessions now u in do* ks := revoke_user_api_keys_in_transaction now u in k n ks) st = (Ok a, st') → ended u st'.
Proof.
  intros Hk (n & s1 & H1 & H)%bind_Ok. injection H1 as <- <-. apply bind_Ok in H as (ks & s2 & H2 & H). injection H2 as <- <-.
  match type of H with k ?n ?ks ?s2 = _ => specialize (Hk n ks s2) end. rewrite H in Hk. eapply sc_ended; [exact Hk|]. split; simpl.
  - intros id r (r0 & <- & _)%lookup_fmap_Some Hu. by apply revoke_all_sessions_ends.
  - intros id r (r0 & <- & _)%lookup_fmap_Some Hu. by apply revoke_all_keys_ends.
Qed.

Lemma sc_refuse_if p e : keeps same_credentials (refuse_if p e).
Proof. intros st. reflexivity. Qed.
Lemma run_recorded_returned {A} op c u (m : IM A) st a st' : run_recorded op c u m st = (Ok a, st') → m st = (Ok a, st').
Proof. unfold run_recorded. destruct (m st) as [[x|e] s]; by intros [= -> ->]. Qed.

Lemma reactivate_ends now u c reason st r st' : reactivate_user now u c reason st = (Ok r, st') → ended u st'.
Proof.
  intros (? & s1 & _ & H)%bind_Ok. apply bind_Ok in H as (? & s2 & _ & H).
  apply run_recorded_returned, transaction_returned in H. do 4 apply bind_Ok in H as (? & ? & _ & H).
  eapply (revoke_both_ends _ _ (λ _ _, _)); [|exact H]. intros n ks. simpl.
  apply keeps_bind; [apply _|by intros st''|intros _].
  apply keeps_bind; [apply _|apply sc_in_platform|intros _]. apply keeps_bind; [apply _|apply sc_revocations|intros _]. apply keeps_ret, _.
Qed.

(** A deactivation that returned is one attempt that committed, on what others
    had committed by then. *)
Lemma attempts_returned now n between u c reason ceiling st r st' : (∀ n st, history st (between n st)) →
  deactivate_attempts now n between u c reason ceiling st = (Ok r, st') →
  ∃ first st1, history st st1 ∧ deactivate_locked now u c reason ceiling first st1 = (Ok (Some r), st').
Proof.
  intros Hb. revert st. induction n as [|n IH]; intros st; simpl; [done|].
  intros (res & s1 & H & Hrest)%bind_Ok. unfold deactivate_attempt in H.
  apply bind_Ok in H as (? & s2 & H2 & H). injection H2 as _ <-. apply bind_Ok in H as ([] & s3 & [-> _]%refuse_if_returned & H).
  apply bind_Ok in H as (first & s4 & H4 & H). injection H4 as _ <-. apply bind_Ok in H as (? & s5 & H5 & H). injection H5 as _ <-.
  destruct (deactivate_locked now u c reason ceiling first (between n st)) as [[[y|]|e] s6] eqn:E; simplify_eq.
  - injection Hrest as -> ->. exists first, (between n st). split; [apply Hb|done].
  - destruct (IH _ Hrest) as (first' & st1 & Hh & Hd). exists first', st1. split; [|done]. by etrans; [apply Hb|].
Qed.
Lemma deactivate_returned now between u c reason ceiling st r st' : (∀ n st, history st (between n st)) →
  deactivate_user now between ceiling u c reason st = (Ok r, st') →
  ∃ reason' first st1, history st st1 ∧ deactivate_locked now u c reason' ceiling first st1 = (Ok (Some r), st').
Proof.
  intros Hb (? & s1 & H1 & H)%bind_Ok. assert (s1 = st) as -> by (destruct c; unfold require_person_or_refuse, ret, throw in H1; congruence).
  apply bind_Ok in H as (reason' & s2 & H2 & H). injection H2 as _ <-. apply run_recorded_returned in H.
  destruct (attempts_returned _ _ _ _ _ _ _ _ _ _ Hb H) as (first & st1 & Hh & Hd). by exists reason', first, st1.
Qed.
Lemma deactivate_locked_ends now u c reason ceiling first st r st' :
  deactivate_locked now u c reason ceiling first st = (Ok (Some r), st') → ended u st'.
Proof.
  unfold deactivate_locked. intros H. do 6 apply bind_Ok in H as (? & ? & _ & H). destruct (existsb _ _); [done|].
  do 2 apply bind_Ok in H as (? & ? & _ & H).
  eapply (revoke_both_ends _ _ (λ _ _, _)); [|exact H]. intros n ks. simpl.
  do 4 (apply keeps_bind; [apply _|first [apply sc_in_rbac|apply sc_in_platform|apply sc_refuse_if|apply sc_revocations]|intros _]).
  apply keeps_ret, _.
Qed.

Inductive takes_access_away (u : uuid) (st st1 : identity_store) : Prop :=
| by_deactivation now between ceiling c reason r : (∀ n s, history s (between n s)) →
    deactivate_user now between ceiling u c reason st = (Ok r, st1) → takes_access_away u st st1
| by_reactivation now c reason r : reactivate_user now u c reason st = (Ok r, st1) → takes_access_away u st st1.

Lemma takes_away_history u st st1 : takes_access_away u st st1 → history st st1.
Proof.
  intros [now between ceiling c reason r Hb H|now c reason r H].
  - pose proof (h_deactivate uuid4 hash casefold max_per_user now between ceiling u c reason st Hb) as Hh. by rewrite H in Hh.
  - by eapply (run_history now (UReactivate u c reason)); [apply ivoid_state|exact H].
Qed.
Lemma takes_away_ends u st st1 : takes_access_away u st st1 → ended u st1.
Proof.
  intros [now between ceiling c reason r Hb H|now c reason r H]; [|by eapply reactivate_ends].
  destruct (deactivate_returned _ _ _ _ _ _ _ _ _ Hb H) as (reason' & first & s1 & _ & Hd). by eapply deactivate_locked_ends.
Qed.

(** C24: deactivating and reactivating a person end every session and every key
    they have, and for good: none of them validates after any later history, a
    reactivation included.  While the person is inactive none of theirs does. *)
Theorem deactivation_ends_credentials (st0 st st1 st2 : identity_store) (u : uuid) (now : datetime) (token : pystr) :
  no_identity_rows st0 → history st0 st → takes_access_away u st st1 → history st1 st2 →
  (∀ id r, st1.(is_sessions) !! id = Some r → r.(se_user_id) = u → ∀ r', (validate_session hash now token st2).1 ≠ Ok (id, r')) ∧
  (∀ id k, st1.(is_keys) !! id = Some k → k.(ak_user_id) = Some u → ∀ k', (validate_api_key hash now token st2).1 ≠ Ok (id, k')) ∧
  (is_active_user st2.(is_tenancy).(ts_platform) u = false →
     (∀ id r, (validate_session hash now token st2).1 = Ok (id, r) → r.(se_user_id) ≠ u) ∧
     (∀ id k, (validate_api_key hash now token st2).1 = Ok (id, k) → k.(ak_user_id) ≠ Some u)).
Proof using Huuid.
  intros H0 Hh Ht Hlater. pose proof (takes_away_ends _ _ _ Ht) as [Hs Hk].
  assert (ids_issued st1) as [Is Ik _ _ _] by (eapply history_ids; [by eapply takes_away_history|by eapply deployment_ids]).
  split_and!.
  - intros id r Hr Hu r'. apply dead_session_refused. eapply dead_session_stays; [exact Hlater|].
    split; [by eapply Is|]. intros r'' Hr''. simplify_eq. by eapply Hs.
  - intros id k Hi Hu k'. apply dead_key_refused. eapply dead_key_stays; [exact Hlater|].
    split; [by eapply Ik|]. intros k'' Hk''. simplify_eq. by eapply Hk.
  - intros Hin. split; intros id x Hv.
    + destruct (validate_session hash now token st2) as [res st3] eqn:E. simpl in Hv. subst res.
      apply validate_session_found in E as (_ & _ & _ & _ & Ha). intros <-. congruence.
    + destruct (validate_api_key hash now token st2) as [res st3] eqn:E. simpl in Hv. subst res.
      apply validate_key_found in E as (_ & (_ & _ & Ha & _)%refusal_none & _). intros Hu. specialize (Ha u Hu). congruence.
Qed.

(** ** What is used once *)

Lemma of_tenant_state {A} (r : tenancy_store → result tenant_error A) st x st' : of_tenant r st = (x, st') → st' = st.
Proof. by intros [= _ <-]. Qed.
Definition same_invitations (st st' : identity_store) : Prop := st'.(is_invitations) = st.(is_invitations).
#[local] Instance same_invitations_preorder : PreOrder same_invitations.
Proof. split; unfold same_invitations; [by intros st|]. intros a b c H1 H2. by rewrite H2. Qed.
Lemma sv_in_rbac {A} (m : tenancy_store → RM A) : keeps (E := identity_error) same_invitations (in_rbac m).
Proof. intros st. unfold in_rbac. by destruct (m _ _) as [[]]. Qed.
Lemma sv_insert_membership now t u : keeps same_invitations (insert_membership uuid4 now t u).
Proof. intros st. unfold insert_membership, insert_fresh, bind, fresh, refuse_if, modify, ret. by case_match. Qed.

Lemma consume_accepts now t id h u e st st' : consume_locked_invitation uuid4 casefold now t id h u e st = (Ok tt, st') →
  ∃ i, st.(is_invitations) !! id = Some i ∧ st'.(is_invitations) !! id = Some (accepted_invitation now u i).
Proof.
  intros (row & s1 & H1 & H)%bind_Ok. injection H1 as <- <-. destruct (is_invitations st !! id) as [i|]; [|done]. exists i. split; [done|].
  apply bind_Ok in H as ([] & s2 & [-> _]%refuse_if_returned & H). do 2 (case_match; [done|]).
  apply bind_Ok in H as (? & s3 & H3 & H). injection H3 as _ <-. apply bind_Ok in H as (m & s4 & H4 & H). injection H4 as <- <-.
  match type of H with ?k ?st = _ => assert (keeps same_invitations k) as Hk end.
  { clear H. repeat first [apply sv_insert_membership|keeps_step]. }
  match type of H with ?k ?st = _ => specialize (Hk st) end. rewrite H in Hk. unfold same_invitations in Hk. simpl in Hk.
  rewrite Hk. apply lookup_insert_eq.
Qed.
Lemma accept_accepts now raw t c e st st' : accept_invitation uuid4 hash casefold now raw t c e st = (Ok tt, st') →
  ∃ u id i, c = UserCaller u ∧ find_invitation st t (hash raw) = Some id ∧ st'.(is_invitations) !! id = Some (accepted_invitation now u i).
Proof.
  intros (u & s1 & H1 & H)%bind_Ok. assert (c = UserCaller u ∧ s1 = st) as [-> ->].
  { destruct c; unfold iuser_of, ret, throw in H1; naive_solver congruence. }
  apply transaction_returned, bind_Ok in H as (? & s2 & H2 & H). 
  assert (is_invitations s2 = is_invitations st) as Hs2.
  { pose proof (sv_in_rbac (λ s, require_active_user s u "accept_invitation" t) st) as Hk. rewrite H2 in Hk. exact Hk. }
  apply bind_Ok in H as (found & s3 & H3 & H). injection H3 as <- <-.
  destruct (find_invitation s2 t (hash raw)) as [id|] eqn:Hf; [|done]. unfold find_invitation in *. rewrite Hs2 in Hf.
  apply bind_Ok in H as ([] & s4 & Hc & H). apply consume_accepts in Hc as (i & _ & Hi).
  exists u, id, i. split_and!; [done|done|]. pose proof (sv_in_rbac (λ _, record (UserCaller u) t "invitation.accept" id) s4) as Hk.
  unfold irecord in H. rewrite H in Hk. unfold same_invitations in Hk. simpl in Hk. by rewrite Hk.
Qed.

Lemma decided_refused now t id h u e st : (∀ i, st.(is_invitations) !! id = Some i → decided_invitation i) →
  (consume_locked_invitation uuid4 casefold now t id h u e st).1 = Raise InvitationInvalidError.
Proof.
  intros Hd. unfold consume_locked_invitation, bind at 1, reads. destruct (is_invitations st !! id) as [i|]; [|done].
  unfold bind at 1, refuse_if. destruct (negb (accessible _ _)); [done|].
  assert (bool_decide (is_Some (in_accepted_at i)) || bool_decide (is_Some (in_revoked_at i)) = true) as Hb.
  { apply orb_true_iff. destruct (Hd i eq_refl); [left|right]; by apply bool_decide_eq_true. }
  apply orb_true_iff in Hb as [Hb|Hb]; rewrite Hb; rewrite ?orb_true_r; done.
Qed.
Lemma absent_login_refused now id state st : st.(is_logins) !! id = None →
  (consume_login_transaction now id state st).1 = Raise LoginTransactionInvalidError.
Proof.
  intros Hn. unfold consume_login_transaction. destruct (bool_decide _); [done|]. unfold bind at 1, transaction, bind at 1, reads. by rewrite Hn.
Qed.
Lemma consume_login_deletes now id state st : state ≠ [] → (consume_login_transaction now id state st).2.(is_logins) = delete id st.(is_logins).
Proof.
  intros Hs. unfold consume_login_transaction. rewrite bool_decide_eq_false_2 by done. unfold bind at 1, transaction, bind at 1, reads.
  destruct (is_logins st !! id) as [l|] eqn:Hl.
  - unfold bind, modify, ret, throw. by case_match.
  - simpl. symmetry. by apply delete_id.
Qed.

(** An invitation is accepted at most once and a login transaction consumed
    at most once.  After an acceptance that returned, every later attempt on that
    invitation is refused, whoever makes it and whatever happened in between; a
    login transaction that was presented with any state is gone, so a second
    presentation is refused, whether the first was accepted or not. *)
Theorem used_once (st0 st st1 st2 : identity_store) (now now' : datetime) :
  no_identity_rows st0 → history st0 st → history st1 st2 →
  (∀ raw t c e, accept_invitation uuid4 hash casefold now raw t c e st = (Ok tt, st1) →
     ∃ id, find_invitation st t (hash raw) = Some id ∧
       ∀ t' h u e', (consume_locked_invitation uuid4 casefold now' t' id h u e' st2).1 = Raise InvitationInvalidError) ∧
  (∀ id state res, is_Some (st.(is_logins) !! id) → state ≠ [] → consume_login_transaction now id state st = (res, st1) →
     ∀ state', (consume_login_transaction now' id state' st2).1 = Raise LoginTransactionInvalidError).
Proof using Huuid.
  intros H0 Hh Hlater. pose proof (deployment_ids _ _ H0 Hh) as Hids. split.
  - intros raw t c e Ha. pose proof (accept_accepts _ _ _ _ _ _ _ Ha) as (u & id & i & -> & Hf & Hi). exists id. split; [done|].
    intros t' h u' e'. apply decided_refused. intros i2 Hi2.
    assert (ids_issued st1) as [_ _ _ Ii _]
      by (eapply history_ids; [by eapply (run_history now (IAcceptInvitation raw t (UserCaller u) e)); [|exact Ha]|done]).
    pose proof (ev_invitations _ _ _ (history_evolves _ _ _ _ _ _ Hlater)) as Ht.
    assert (issued (drawn st1) id) as Hiss by exact (Ii _ _ Hi).
    destruct (table_old _ _ _ _ _ _ _ _ Ht Hiss Hi2) as (i1 & Hi1 & [_ _ _ _ Hdec]). simplify_eq.
    rewrite Hdec; left; by eexists.
  - intros id state res [l Hl] Hs Hc state'. apply absent_login_refused. apply eq_None_not_Some. intros [l2 Hl2].
    destruct Hids as [_ _ Il _ _]. pose proof (Il _ _ Hl) as (n & Hn & Hi).
    pose proof (ev_logins _ _ _ (history_evolves _ _ _ _ _ _ Hlater)) as Ht.
    pose proof (irun_evolves uuid4 hash casefold max_per_user now (IConsumeLogin id state) st) as [Hd _ _ _ _ _].
    simpl in Hd. rewrite ivoid_state, Hc in Hd. simpl in Hd.
    assert (issued (drawn st1) id) as Hiss by (exists n; split; [lia|done]).
    destruct (table_old _ _ _ _ _ _ _ _ Ht Hiss Hl2) as (l1 & Hl1 & _).
    pose proof (consume_login_deletes now id state st Hs) as Hdel. rewrite Hc in Hdel. simpl in Hdel.
    rewrite Hdel, lookup_delete_eq in Hl1. done.
Qed.
End Safety.
