(* ===== verification/KeyLimit.v ===== *)
(** * The scan of the tenants, and the cleanup of sessions

    The loops of user_authority.py and session_retention.py terminate and do
    their whole work: the scan returns exactly the tenants a person is an active
    member of (or its documented limit), the cleanup deletes every row it should
    when the batches allow it, and no other row. *)

From S2P Require Import Prelude StoreLogic PyStr TenantLifecycle PlatformAuthority PlatformService TenantHierarchy RbacDecision RbacService RbacIntegrity Identity ApiKeys UserAuthority IdentityProofs IdentityHistory IdentitySafety.
From Stdlib Require Import Sorting.Sorted.

(** ** The scan *)

Section Scan.
Context (st : identity_store) (op : operation) (u : uuid) (ceiling : nat).

Lemma scan_page_spec page found visited : (visited ≤ ceiling)%nat →
  scan_page st op u ceiling page found visited =
    if bool_decide (visited + length page ≤ ceiling)%nat
    then Ok (reverse (filter (λ t, active_member st u t = true) page) ++ found, (visited + length page)%nat)
    else Raise (DeactivationScanLimitError op ceiling).
Proof.
  revert found visited. induction page as [|t page IH]; intros found visited Hv; simpl.
  - rewrite Nat.add_0_r, bool_decide_eq_true_2 by done. done.
  - case_bool_decide as H1.
    + rewrite bool_decide_eq_false_2 by lia. done.
    + rewrite IH by lia. rewrite <- Nat.add_succ_comm. case_bool_decide; [|done].
      rewrite filter_cons. destruct (active_member st u t); simpl; [|done]. by rewrite reverse_cons, <- app_assoc.
Qed.

Lemma unpurged_sorted : StronglySorted N.lt (unpurged_tenants st).
Proof.
  unfold unpurged_tenants. set (l := (filter _ _).*1).
  assert (NoDup l) as Hnd.
  { eapply sublist_NoDup; [apply (NoDup_fst_map_to_list st.(is_tenancy).(ts_tenants))|]. apply fmap_sublist, sublist_filter. }
  pose proof (StronglySorted_merge_sort N.le l) as Hs. rewrite <- (merge_sort_Permutation N.le l) in Hnd.
  induction Hs as [|x l' Hs IH Hx]; [constructor|]. apply NoDup_cons in Hnd as [Hn Hnd]. constructor; [by apply IH|].
  rewrite Forall_forall in *. intros y Hy. specialize (Hx y Hy). assert (x ≠ y) by (by intros ->). lia.
Qed.
Lemma elem_of_unpurged t : t ∈ unpurged_tenants st ↔ ∃ x, st.(is_tenancy).(ts_tenants) !! t = Some x ∧ x.(t_status) ≠ PURGED.
Proof.
  unfold unpurged_tenants. rewrite merge_sort_Permutation, list_elem_of_fmap. split.
  - intros ([t' x] & -> & [Hx Hin%elem_of_map_to_list]%list_elem_of_filter). by exists x.
  - intros (x & Hx & Hp). exists (t, x). split; [done|]. apply list_elem_of_filter. split; [done|]. by apply elem_of_map_to_list.
Qed.

Lemma filter_after (l1 l2 : list uuid) t : StronglySorted N.lt (l1 ++ t :: l2) → filter (λ x, (t < x)%N) (l1 ++ t :: l2) = l2.
Proof.
  induction l1 as [|x l1 IH]; simpl; intros [Hs Hf]%StronglySorted_inv.
  - rewrite filter_cons_False by lia. induction Hf as [|y l Hy _ IH]; [done|]. rewrite filter_cons_True by done.
    f_equal. apply IH. by apply StronglySorted_inv in Hs as [].
  - rewrite filter_cons_False; [by apply IH|]. rewrite Forall_forall in Hf. specialize (Hf t). 
    assert (x < t)%N by (apply Hf; set_solver). lia.
Qed.

Definition remaining (after : option uuid) : list uuid :=
  match after with Some a => filter (λ t, (a < t)%N) (unpurged_tenants st) | None => unpurged_tenants st end.

(** The page after one that ends in [t] begins where that one ended. *)
Lemma next_page n after t : last (take n (remaining after)) = Some t →
  (∃ l, unpurged_tenants st = l ++ remaining after) →
  remaining (Some t) = drop n (remaining after) ∧ ∃ l, unpurged_tenants st = l ++ remaining (Some t).
Proof.
  intros Hl (l & HL). apply last_Some in Hl as [p Hp].
  assert (unpurged_tenants st = (l ++ p) ++ t :: drop n (remaining after)) as HL'.
  { rewrite HL at 1. rewrite <- (take_drop n (remaining after)) at 1. rewrite Hp, <- !app_assoc. done. }
  assert (remaining (Some t) = drop n (remaining after)) as Hr.
  { unfold remaining at 1. rewrite HL'. apply filter_after. rewrite <- HL'. apply unpurged_sorted. }
  split; [done|]. exists ((l ++ p) ++ [t]). rewrite Hr, HL'. by rewrite <- !app_assoc.
Qed.

Lemma scan_pages_spec n fuel after found visited : (0 < n)%nat → (visited ≤ ceiling)%nat → (length (remaining after) < fuel)%nat →
  (∃ l, unpurged_tenants st = l ++ remaining after) →
  scan_pages st fuel n op u ceiling after found visited =
    Some (if bool_decide (visited + length (remaining after) ≤ ceiling)%nat
          then Ok (reverse (filter (λ t, active_member st u t = true) (remaining after)) ++ found, (visited + length (remaining after))%nat)
          else Raise (DeactivationScanLimitError op ceiling)).
Proof.
  intros Hn. revert after found visited. induction fuel as [|fuel IH]; intros after found visited Hv Hfuel Hsuf; [lia|]. simpl.
  change (unpurged_tenant_ids_page st after n) with (take n (remaining after)).
  destruct (last (take n (remaining after))) as [t|] eqn:Hlast.
  - destruct (next_page _ _ _ Hlast Hsuf) as [Hr Hsuf']. rewrite scan_page_spec by done.
    pose proof (take_drop n (remaining after)) as Htd.
    assert (length (remaining after) = length (take n (remaining after)) + length (drop n (remaining after)))%nat as Hlen
      by (rewrite <- length_app, Htd; done).
    assert (0 < length (take n (remaining after)))%nat as Hpos by (destruct (take n (remaining after)); simpl in *; [done|lia]).
    case_bool_decide as H1.
    + rewrite IH; [|done|rewrite Hr; lia|done]. rewrite Hr, Hlen, Nat.add_assoc. f_equal. case_bool_decide; [|done]. do 2 f_equal.
      rewrite app_assoc. f_equal. rewrite <- reverse_app, <- filter_app, Htd. done.
    + rewrite bool_decide_eq_false_2 by lia. done.
  - apply last_None in Hlast. assert (remaining after = []) as ->.
    { destruct (remaining after); [done|]. destruct n; [lia|done]. }
    simpl. rewrite Nat.add_0_r, bool_decide_eq_true_2 by done. done.
Qed.

Lemma scan_spec : scan_active_memberships st op u ceiling =
  Some (if bool_decide (length (unpurged_tenants st) ≤ ceiling)%nat
        then Ok (reverse (filter (λ t, active_member st u t = true) (unpurged_tenants st)), length (unpurged_tenants st))
        else Raise (DeactivationScanLimitError op ceiling)).
Proof.
  unfold scan_active_memberships, SCAN_PAGE_SIZE. rewrite scan_pages_spec; [|lia|lia|simpl; lia|by exists []].
  simpl. by rewrite app_nil_r.
Qed.
Lemma elem_of_scan t : t ∈ reverse (filter (λ t, active_member st u t = true) (unpurged_tenants st)) ↔
  active_member st u t = true ∧ ∃ x, st.(is_tenancy).(ts_tenants) !! t = Some x ∧ x.(t_status) ≠ PURGED.
Proof. by rewrite elem_of_reverse, list_elem_of_filter, elem_of_unpurged. Qed.

(** C39: the scan terminates and is complete: it visits every tenant that is not a
    tombstone once, page after page, and returns exactly those the person is an
    active member of; it reports its limit exactly when there are more tenants
    than the ceiling. *)
Theorem scan_complete :
  ∃ found, scan_active_memberships st op u ceiling =
      Some (if bool_decide (length (unpurged_tenants st) ≤ ceiling)%nat
            then Ok (found, length (unpurged_tenants st)) else Raise (DeactivationScanLimitError op ceiling)) ∧
    NoDup found ∧
    ∀ t, t ∈ found ↔ active_member st u t = true ∧ ∃ x, st.(is_tenancy).(ts_tenants) !! t = Some x ∧ x.(t_status) ≠ PURGED.
Proof.
  eexists. split; [apply scan_spec|]. split; [|apply elem_of_scan].
  rewrite reverse_Permutation. apply NoDup_filter. pose proof unpurged_sorted as Hs.
  induction Hs as [|x l Hs IH Hx]; constructor; [|done]. rewrite Forall_forall in Hx. intros Hin. specialize (Hx x Hin). lia.
Qed.
End Scan.

(** ** The cleanup of sessions *)

Section Cleanup.
Context (condition : Session → bool) (batch : nat) (locked : gset uuid).

(** What a phase leaves. *)
Definition phase_keeps (p : uuid * Session) : Prop := p.1 ∈ locked ∨ condition p.2 = false.
#[export] Instance phase_keeps_dec p : Decision (phase_keeps p).
Proof. unfold phase_keeps. apply _. Defined.

Definition candidates (m : gmap uuid Session) : list uuid :=
  merge_sort N.le (filter (λ p : uuid * Session, condition p.2 = true ∧ p.1 ∉ locked) (map_to_list m)).*1.
Lemma elem_of_candidates m id : id ∈ candidates m ↔ ∃ r, m !! id = Some r ∧ ¬ phase_keeps (id, r).
Proof.
  unfold candidates, phase_keeps. rewrite merge_sort_Permutation, list_elem_of_fmap. split.
  - intros ([i r] & -> & [[Hc Hl] Hin%elem_of_map_to_list]%list_elem_of_filter). exists r. split; [done|]. simpl in *. rewrite Hc. naive_solver.
  - intros (r & Hr & Hk). exists (id, r). split; [done|]. apply list_elem_of_filter. split; [|by apply elem_of_map_to_list].
    simpl in *. destruct (condition r); naive_solver.
Qed.
Lemma NoDup_candidates m : NoDup (candidates m).
Proof.
  unfold candidates. rewrite merge_sort_Permutation.
  eapply sublist_NoDup; [apply (NoDup_fst_map_to_list m)|]. apply fmap_sublist, sublist_filter.
Qed.
Lemma lookup_foldr_delete {A} (ids : list uuid) (m : gmap uuid A) i : foldr delete m ids !! i = if decide (i ∈ ids) then None else m !! i.
Proof.
  induction ids as [|x ids IH]; [done|]. simpl. destruct (decide (i = x)) as [->|Hne].
  - rewrite lookup_delete_eq, decide_True; [done|set_solver].
  - rewrite lookup_delete_ne, IH by done. destruct (decide (i ∈ ids)); [rewrite decide_True|rewrite decide_False]; set_solver.
Qed.
Lemma candidates_after m : candidates (foldr delete m (take batch (candidates m))) ≡ₚ drop batch (candidates m).
Proof.
  pose proof (NoDup_candidates m) as Hnd. rewrite <- (take_drop batch (candidates m)) in Hnd.
  apply NoDup_app in Hnd as (_ & Hdisj & Hnd).
  apply NoDup_Permutation; [apply NoDup_candidates|done|]. intros id. rewrite elem_of_candidates. setoid_rewrite lookup_foldr_delete.
  split.
  - intros (r & Hr & Hk). destruct (decide _) as [|Hn]; [done|].
    assert (id ∈ candidates m) as Hin by (apply elem_of_candidates; eauto).
    rewrite <- (take_drop batch (candidates m)), elem_of_app in Hin. tauto.
  - intros Hin. assert (id ∈ candidates m) as (r & Hr & Hk)%elem_of_candidates.
    { rewrite <- (take_drop batch (candidates m)), elem_of_app. by right. }
    exists r. rewrite decide_False; [done|]. intros Ht. by apply (Hdisj id Ht).
Qed.
Lemma phase_keeps_after m : filter phase_keeps (foldr delete m (take batch (candidates m))) = filter phase_keeps m.
Proof.
  apply map_eq. intros i. apply option_eq. intros r. rewrite !map_lookup_filter_Some, lookup_foldr_delete.
  destruct (decide _) as [Hin|]; [|done]. split; [naive_solver|]. intros [Hr Hk].
  assert (i ∈ candidates m) as (r' & Hr' & Hn)%elem_of_candidates by (by eapply elem_of_take in Hin as (? & ? & ?); eapply list_elem_of_lookup_2).
  by simplify_eq.
Qed.
Lemma no_candidates m : candidates m = [] → filter phase_keeps m = m.
Proof.
  intros Hc. apply map_filter_id. intros i r Hr. destruct (decide (phase_keeps (i, r))) as [|Hn]; [done|].
  assert (i ∈ candidates m) as Hin by (apply elem_of_candidates; eauto). rewrite Hc in Hin. by apply not_elem_of_nil in Hin.
Qed.

(** A phase with enough batches deletes exactly the rows that meet the
    condition and that nobody holds. *)
Lemma phase_spec n st : (0 < batch)%nat → (length (candidates st.(is_sessions)) ≤ n * batch)%nat →
  ∃ k, cleanup_phase n condition batch locked st =
    (Ok (length (candidates st.(is_sessions)), k), put_sessions (filter phase_keeps st.(is_sessions)) st).
Proof.
  intros Hb. revert st. induction n as [|n IH]; intros st Hle; simpl.
  - assert (candidates (is_sessions st) = []) as Hc by (apply length_zero_iff_nil; lia).
    exists 0%nat. rewrite (no_candidates _ Hc), Hc. by destruct st.
  - unfold bind at 1, delete_one_batch. change (merge_sort _ _) with (candidates st.(is_sessions)).
    set (st1 := put_sessions _ st). rewrite length_take.
    destruct (batch `min` length (candidates (is_sessions st)))%nat as [|x] eqn:Hmin.
    + assert (candidates (is_sessions st) = []) as Hc by (apply length_zero_iff_nil; lia).
      exists 0%nat. subst st1. rewrite (no_candidates _ Hc), Hc, take_nil. simpl. by destruct st.
    + assert (length (candidates st1.(is_sessions)) = length (candidates st.(is_sessions)) - batch)%nat as Hl.
      { subst st1. simpl. by rewrite candidates_after, length_drop. }
      destruct (IH st1) as (k & Hk); [lia|]. exists (S k). unfold bind. rewrite Hk. subst st1. simpl.
      rewrite phase_keeps_after. unfold ret. do 3 f_equal. simpl in *. lia.
Qed.
End Cleanup.

Lemma size_filter {A} (P : uuid * A → Prop) `{!∀ x, Decision (P x)} (m : gmap uuid A) : size (filter P m) = length (filter P (map_to_list m)).
Proof.
  rewrite <- length_map_to_list, map_filter_alt, map_to_list_to_map; [done|].
  eapply sublist_NoDup; [apply (NoDup_fst_map_to_list m)|]. apply fmap_sublist, sublist_filter.
Qed.
Lemma candidates_size condition locked (m : gmap uuid Session) :
  (length (candidates condition locked m) + size (filter (phase_keeps condition locked) m) = size m)%nat.
Proof.
  unfold candidates. rewrite merge_sort_Permutation, length_fmap, <- (length_map_to_list m), size_filter.
  induction (map_to_list m) as [|[i r] l IH]; [done|]. rewrite !filter_cons. simpl in *.
  destruct (decide _) as [H1|H1], (decide _) as [H2|H2]; simpl; try lia; exfalso; unfold phase_keeps in H2; simpl in H2.
  - destruct H1 as [H1 H3]. rewrite H1 in H2. naive_solver.
  - destruct (decide (i ∈ locked)), (condition r); naive_solver.
Qed.

(** The cleanup of sessions terminates and is exact.  With a positive batch
    size and no more sessions than the batches of a phase can hold, it leaves
    precisely the sessions that have neither expired nor been revoked before the
    grace period, and those another transaction holds; what it reports as deleted
    is what it deleted. *)
Theorem cleanup_exact (now : datetime) (cfg : SessionRetentionConfig) (locked : gset uuid) (st : identity_store) :
  (0 < cfg.(sc_cleanup_batch_size))%nat →
  (size st.(is_sessions) ≤ MAX_BATCHES_PER_PHASE * cfg.(sc_cleanup_batch_size))%nat →
  let cutoff := now - cfg.(sc_revoked_grace_period_seconds) * 1000000 in
  let kept := filter (λ p : uuid * Session, p.1 ∈ locked ∨ (expired now p.2 = false ∧ revoked_before cutoff p.2 = false)) st.(is_sessions) in
  ∃ res, cleanup_expired_sessions now cfg locked st = (Ok res, put_sessions kept st) ∧
    (res.(cl_expired_deleted) + res.(cl_revoked_deleted) + size kept = size st.(is_sessions))%nat.
Proof.
  intros Hb Hle cutoff kept. unfold cleanup_expired_sessions. revert Hle. generalize MAX_BATCHES_PER_PHASE. intros n Hle.
  pose proof (candidates_size (expired now) locked st.(is_sessions)) as H1.
  destruct (phase_spec (expired now) _ locked n st Hb) as (k1 & E1); [lia|].
  set (st1 := put_sessions _ st) in E1. pose proof (candidates_size (revoked_before cutoff) locked st1.(is_sessions)) as H2.
  assert (size (is_sessions st1) ≤ size (is_sessions st))%nat as H3 by (subst st1; simpl; lia).
  destruct (phase_spec (revoked_before cutoff) _ locked n st1 Hb) as (k2 & E2); [lia|].
  assert (filter (phase_keeps (revoked_before cutoff) locked) st1.(is_sessions) = kept) as Hkept.
  { subst st1 kept. simpl. rewrite map_filter_filter. apply map_filter_ext. intros i r _. unfold phase_keeps. simpl. tauto. }
  eexists. unfold bind. rewrite E1. fold cutoff. rewrite E2, Hkept. split; [done|]. simpl. rewrite Hkept in H2. subst st1. simpl in *. lia.
Qed.

(** * The limit of API keys

    A person never has more unrevoked keys than the configuration allows, over
    every history: only [create_api_key] adds one, and it counts first; a rotation
    revokes the key it replaces. *)


(** ** Counting *)

Definition usable_by (u : uuid) (k : ApiKey) : Prop := k.(ak_user_id) = Some u ∧ k.(ak_revoked_at) = None.
#[export] Instance usable_by_dec u k : Decision (usable_by u k).
Proof. unfold usable_by. apply _. Defined.
Definition kcount (m : gmap uuid ApiKey) (u : uuid) : nat := size (filter (λ p : uuid * ApiKey, usable_by u p.2) m).

Lemma unrevoked_count st u : length (unrevoked_keys st u) = kcount st.(is_keys) u.
Proof. unfold kcount, unrevoked_keys. by rewrite size_filter. Qed.

Lemma kcount_subset m m' u : m' ⊆ m → (kcount m' u ≤ kcount m u)%nat.
Proof. intros H. by apply map_subseteq_size, map_filter_subseteq_mono. Qed.
Lemma kcount_insert_new m id k u : m !! id = None →
  kcount (<[id := k]> m) u = (kcount m u + if decide (usable_by u k) then 1 else 0)%nat.
Proof.
  intros Hn. unfold kcount. destruct (decide (usable_by u k)) as [Hk|Hk].
  - rewrite map_filter_insert_True by done. rewrite map_size_insert_None; [lia|]. apply map_lookup_filter_None_2. by left.
  - rewrite map_filter_insert_False, delete_id by done. lia.
Qed.
Lemma kcount_replace m id k k' u : m !! id = Some k →
  (kcount (<[id := k']> m) u + (if decide (usable_by u k) then 1 else 0) = kcount m u + if decide (usable_by u k') then 1 else 0)%nat.
Proof.
  intros Hk. rewrite <- (insert_delete_eq m id k' ). rewrite kcount_insert_new by apply lookup_delete_eq.
  rewrite <- (insert_delete_id m id k Hk) at 2. rewrite kcount_insert_new by apply lookup_delete_eq. lia.
Qed.
Lemma kcount_fmap m f u : (∀ k, usable_by u (f k) → usable_by u k) → (kcount (f <$> m) u ≤ kcount m u)%nat.
Proof.
  intros Hf. unfold kcount. rewrite map_filter_fmap, map_size_fmap. apply map_subseteq_size, map_filter_strong_subseteq_ext.
  intros i x [Hu Hx]. split; [by apply Hf|done].
Qed.

(** ** Operations that give nobody a key *)

Definition fewer_keys (st st' : identity_store) : Prop := ∀ u, (kcount st'.(is_keys) u ≤ kcount st.(is_keys) u)%nat.
#[export] Instance fewer_keys_preorder : PreOrder fewer_keys.
Proof. split; [by intros st u|]. intros a b c H1 H2 u. specialize (H1 u). specialize (H2 u). lia. Qed.
Abbreviation fk := (keeps (E := identity_error) fewer_keys).

Lemma fk_same {A} (m : IM A) : keeps same_keys m → fk m.
Proof. intros H st u. by rewrite H. Qed.
Lemma fk_in_rbac {A} (m : tenancy_store → RM A) : fk (in_rbac m).
Proof. apply fk_same, sk_in_rbac. Qed.
Lemma fk_in_platform {A} (m : PM A) : fk (in_platform m).
Proof. intros st u. unfold in_platform. by destruct (m _) as [[]]. Qed.
Lemma fk_reads {A} (f : identity_store → A) : fk (reads f).
Proof. by intros st u. Qed.
Lemma fk_refuse_if p e : fk (refuse_if p e).
Proof. by intros st u. Qed.
Lemma fk_of_tenant {A} (r : tenancy_store → result tenant_error A) : fk (of_tenant r).
Proof. by intros st u. Qed.
Lemma fk_modify f : (∀ st, (f st).(is_keys) = st.(is_keys)) → fk (modify f).
Proof. intros H st u. unfold modify. simpl. by rewrite H. Qed.
Lemma fk_insert_fresh uuid4 v w : (∀ id st, (w id st).(is_keys) = st.(is_keys)) → fk (insert_fresh uuid4 v w).
Proof.
  intros H st u. unfold insert_fresh, fresh, bind, refuse_if, modify, ret. simpl. destruct (v _ _); simpl; [done|]. by rewrite H.
Qed.
Lemma fk_on_integrity {A} (m h : IM A) : fk m → fk h → fk (on_identity_integrity m h).
Proof.
  intros Hm Hh st. unfold on_identity_integrity. specialize (Hm st). destruct (m st) as [[a|[]] st']; try done.
  etrans; [exact Hm|apply Hh].
Qed.
Lemma fk_link u i s : fk (link_external_identity u i s).
Proof.
  unfold link_external_identity, validate_external_identity, insert_identity.
  repeat first [apply fk_on_integrity|apply fk_refuse_if|apply fk_modify; done|keeps_step].
Qed.
Lemma fk_put_keys {A} (a : identity_store → result identity_error A) f : (∀ m u, (kcount (f m) u ≤ kcount m u)%nat) →
  fk (λ st, (a st, put_keys (f st.(is_keys)) st)).
Proof. intros H st u. apply H. Qed.
#[export] Hint Resolve fk_in_rbac fk_in_platform fk_reads fk_refuse_if fk_of_tenant fk_on_integrity fk_link : fke.
#[export] Hint Extern 2 (keeps fewer_keys (modify _)) => (apply fk_modify; done) : fke.
#[export] Hint Extern 2 (keeps fewer_keys (insert_fresh _ _ _)) => (apply fk_insert_fresh; done) : fke.
Ltac fk_steps := repeat first
  [ solve [eauto with fke] | apply fk_on_integrity
  | progress unfold irecord, iauthorize, iverify, require_open_tenant', lock_accessible, require_purging', irequire_active_user
  | keeps_step ].

Section Limit.
Context (uuid4 : nat → uuid) (hash casefold : pystr → pystr) (max_per_user : nat).

Lemma fk_authorize_keys now c k op ac t : fk (authorize_key_management uuid4 now c k op ac t).
Proof. apply fk_same, sk_authorize_keys. Qed.
Lemma fk_lock_key t k : fk (lock_key t k).
Proof. by intros st u. Qed.
Lemma fk_revocations c ks : fk (record_platform_key_revocations c ks).
Proof. induction ks as [|[k t] ks IH]; simpl; fk_steps. Qed.
Lemma fk_run_recorded {A} op c u (m : IM A) : fk m → fk (run_recorded op c u m).
Proof.
  intros Hm st. unfold run_recorded. specialize (Hm st). destruct (m st) as [[a|e] st']; [exact Hm|]. simpl in *.
  etrans; [exact Hm|]. destruct (outcome_of e) as [[code o]|]; [|reflexivity]. intros v. unfold record_outcome. by repeat case_match.
Qed.
Lemma fk_phase n condition b locked : fk (cleanup_phase n condition b locked).
Proof. induction n as [|n IH]; simpl; repeat first [exact IH|by intros st u|keeps_step]. Qed.
Lemma fk_insert_key k : k.(ak_user_id) = None → fk (insert_key uuid4 k).
Proof.
  intros Hk. unfold insert_key. apply keeps_bind; [apply _|apply fk_refuse_if|intros _].
  intros st u. unfold insert_fresh, fresh, bind, refuse_if, modify, ret. simpl. destruct (key_violates _ _ _) eqn:Hv; simpl; [done|].
  unfold key_violates in Hv. rewrite !orb_false_iff in Hv. destruct Hv as [[Hv%none_of _] _]. simpl in Hv.
  rewrite kcount_insert_new by done. rewrite decide_False; [lia|]. unfold usable_by. rewrite Hk. naive_solver.
Qed.
Lemma revoked_unusable now u k : ¬ usable_by u (revoked_key now k).
Proof. by intros [_ H]. Qed.
Lemma fk_revoke_locked now id k t c st : st.(is_keys) !! id = Some k → fewer_keys st (revoke_locked_key now id k t c st).2.
Proof.
  intros Hk. unfold revoke_locked_key. destruct (bool_decide _); [reflexivity|]. unfold bind, put_key, modify.
  etrans; [|apply fk_in_rbac]. intros u. simpl. pose proof (kcount_replace _ id k (revoked_key now k) u Hk) as H.
  rewrite (decide_False (P := usable_by u (revoked_key now k))) in H by apply revoked_unusable. lia.
Qed.
Lemma fk_lock_then {A} t id (m : ApiKey → IM A) : (∀ st k, st.(is_keys) !! id = Some k → fewer_keys st (m k st).2) → fk (bind (lock_key t id) m).
Proof.
  intros H st. unfold bind. destruct (lock_key t id st) as [[k|e] st'] eqn:El.
  - apply lock_key_spec in El as (-> & Hk & _). by apply H.
  - unfold lock_key in El. destruct (is_keys st !! id); [destruct (bool_decide _)|]; by simplify_eq.
Qed.
Lemma fk_revoke_key now t id c : fk (revoke_api_key uuid4 now t id c).
Proof.
  unfold revoke_api_key. apply keeps_transaction; [apply _|]. apply keeps_commits, fk_lock_then. intros st k Hk.
  pose proof (sk_authorize_keys uuid4 now c k "revoke_api_key" "revoke" t st) as Hs. unfold same_keys in Hs. unfold bind.
  destruct (authorize_key_management _ _ _ _ _ _ _ _) as [[a|e] st']; simpl in *; [|intros u; by rewrite Hs].
  etrans; [|apply fk_revoke_locked; by rewrite Hs]. intros u. by rewrite Hs.
Qed.
Lemma fk_revoke_account_key now t id c : fk (revoke_service_account_api_key uuid4 now t id c).
Proof.
  unfold revoke_service_account_api_key. apply keeps_bind; [apply _|destruct c; by intros st u|intros u]. apply keeps_transaction; [apply _|].
  apply keeps_commits. do 2 (apply keeps_bind; [apply _|eauto with fke|intros _]). apply fk_lock_then. intros st k. apply fk_revoke_locked.
Qed.

(** A rotation replaces a usable key of its owner by another one. *)
Lemma fk_rotate now t id r c ex : fk (rotate_api_key uuid4 hash now t id r c ex).
Proof.
  unfold rotate_api_key. do 2 (apply keeps_bind; [apply _|unfold require_open_tenant'; first [apply fk_of_tenant|apply fk_lock_key]|intros ?]).
  apply keeps_transaction; [apply _|]. intros st new st' (? & s1 & H1 & H)%bind_Ok. injection H1 as _ <-.
  apply bind_Ok in H as (? & s2 & H2 & H).
  assert (s2 = st) as -> by (destruct (ak_user_id _) in H2; [by destruct x0; apply refuse_if_returned in H2 as [-> _]|by injection H2 as _ <-]).
  apply bind_Ok in H as (k & s3 & (-> & Hk & _)%lock_key_spec & H).
  apply bind_Ok in H as (? & s4 & H4%same_keys_of & H); [|apply sk_authorize_keys]. destruct (bool_decide _) eqn:Hrev; [done|].
  apply bind_Ok in H as (? & s5 & H5 & H). injection H5 as _ <-. apply bind_Ok in H as (n & s6 & H6 & H).
  apply bind_Ok in H as (? & s7 & H7%same_keys_of & H); [|apply sk_in_rbac]. injection H as _ <-.
  apply bind_Ok in H6 as ([] & s8 & [-> _]%refuse_if_returned & H6). apply bind_Ok in H6 as (i & s9 & H9 & H6). injection H9 as <- <-.
  apply bind_Ok in H6 as ([] & s10 & [-> Hv]%refuse_if_returned & H6). injection H6 as _ <-.
  unfold key_violates in Hv. rewrite !orb_false_iff in Hv. destruct Hv as [[Hv%none_of _] _]. simpl in *.
  intros u. rewrite H7. simpl. rewrite kcount_insert_new by done. rewrite H4.
  pose proof (kcount_replace _ id k (revoked_key now k) u Hk) as Hc.
  rewrite (decide_False (P := usable_by u (revoked_key now k))) in Hc by apply revoked_unusable.
  destruct (decide (usable_by u k)) as [|Hn]; [case_decide; lia|]. rewrite decide_False; [lia|].
  intros [Hu _]. apply Hn. split; [done|]. by apply none_of.
Qed.
Lemma fk_revoke_all_keys now u : fk (revoke_user_api_keys_in_transaction now u).
Proof.
  apply (fk_put_keys (λ st, Ok _)). intros m v. apply kcount_fmap. intros k. unfold revoke_if_users. by destruct (_ && _); [intros []%revoked_unusable|].
Qed.
#[local] Hint Resolve fk_authorize_keys fk_lock_key fk_revocations fk_phase fk_revoke_key fk_revoke_account_key fk_rotate fk_revoke_all_keys : fke.
#[local] Hint Extern 1 (keeps fewer_keys (insert_key _ _)) => (apply fk_insert_key; done) : fke.
Lemma fk_get_user u : fk (get_user_or_raise u).
Proof. by intros st v. Qed.
#[local] Hint Resolve fk_get_user : fke.

Lemma fk_iguard now t us : fk (iguard now t us).
Proof. by intros st u. Qed.
#[local] Hint Resolve fk_iguard : fke.
Lemma fk_transition now t i from to idem c v : fk (transition_membership_status uuid4 now t i from to idem c v).
Proof. unfold transition_membership_status, set_membership_status. fk_steps. Qed.
Lemma fk_get_or_create i s : fk (get_or_create_user_for_external_identity uuid4 i s).
Proof.
  unfold get_or_create_user_for_external_identity, find_external_identity, validate_external_identity.
  apply keeps_bind; [apply _|fk_steps|intros [u|]]; [fk_steps|]. apply keeps_bind; [apply _|fk_steps|intros u st].
  pose proof (fk_link u i s st) as H. destruct (link_external_identity u i s st) as [[x|e] st']; [exact H|].
  destruct e; try exact H. etrans; [exact H|]. 
  assert (∀ m : IM uuid, fk m → fewer_keys st' (m st').2) as Hnow by (intros m Hm; apply Hm). apply Hnow. fk_steps.
Qed.
#[local] Hint Resolve fk_transition fk_get_or_create : fke.

Definition gives_key (cmd : icommand) : bool := match cmd with KCreate _ _ _ _ _ => true | _ => false end.
Lemma fk_ivoid {A} (m : IM A) : fk m → fk (ivoid m).
Proof. intros H. by apply keeps_bind; [apply _| |intros a; apply keeps_ret; apply _]. Qed.
Lemma irun_fewer now cmd : gives_key cmd = false → fk (irun uuid4 hash casefold max_per_user now cmd).
Proof.
  intros Hg. destruct cmd; try done; simpl; try apply fk_ivoid; try solve [eauto with fke];
    unfold create_user, get_or_create_user_id_for_external_identity_in_transaction, insert_identity, add_tenant_membership, insert_membership,
      reactivate_membership, create_service_account, disable_service_account, enable_service_account, set_service_account_status,
      create_invitation, revoke_invitation, put_invitation, accept_invitation, consume_locked_invitation, iuser_of, issue_session,
      record_operator_session_issued, revoke_session, cleanup_expired_sessions, begin_login_transaction, consume_login_transaction,
      purge_tenant_invitations, purge_tenant_service_accounts, purge_tenant_memberships, create_service_account_api_key, validate_name,
      validate_api_key, revoke_user_sessions, revoke_user_api_keys, reactivate_user, remove_identity_links_unless_enrolled_operator,
      require_person_or_refuse, validated, require_user_caller, record_success, purge_tenant_api_keys;
    repeat first [ solve [eauto with fke] | apply fk_run_recorded | apply fk_on_integrity
      | progress unfold irecord, iauthorize, iverify, require_open_tenant', lock_accessible, require_purging', irequire_active_user
      | keeps_step ];
    first [ by intros st v | destruct c; by intros st v | intros st v; apply kcount_subset, map_filter_subseteq
          | intros st v; unfold record_outcome; by repeat case_match ].
Qed.

(** ** The limit *)

Definition within_limit (st : identity_store) : Prop := ∀ u, (kcount st.(is_keys) u ≤ max_per_user)%nat.
Abbreviation lim := (keeps (E := identity_error) (upholds within_limit)).
Lemma lim_fewer {A} (m : IM A) : fk m → lim m.
Proof. intros H st Hst u. specialize (H st u). specialize (Hst u). lia. Qed.

(** Under the limit a key is added, on the count of the same transaction. *)
Lemma lim_create now t n r c ex : lim (create_api_key uuid4 hash now max_per_user t n r c ex).
Proof.
  unfold create_api_key. apply keeps_bind; [apply _|destruct c; by intros st v|intros u].
  do 3 (apply keeps_bind; [apply _|by intros st v|intros _]). intros st0. unfold on_identity_integrity.
  match goal with |- context [transaction ?m] => assert (lim (transaction m)) as Ht end.
  { apply keeps_transaction; [apply _|]. intros st id st' (? & s1 & H1 & H)%bind_Ok.
    assert (s1.(is_keys) = st.(is_keys)) as Hs1 by (by apply same_keys_of in H1; [|apply sk_in_rbac]).
    apply bind_Ok in H as (? & s2 & H2 & H). injection H2 as _ <-.
    apply bind_Ok in H as ([] & s3 & [-> Hc]%refuse_if_returned & H). rewrite bool_decide_eq_false, unrevoked_count, Hs1 in Hc.
    apply bind_Ok in H as (i & s4 & H4 & H). apply bind_Ok in H as (? & s5 & H5%same_keys_of & H); [|apply sk_in_rbac].
    injection H as _ <-. intros Hst v. rewrite H5. specialize (Hst v).
    apply bind_Ok in H4 as ([] & s8 & [-> _]%refuse_if_returned & H6). apply bind_Ok in H6 as (i' & s9 & H9 & H6). injection H9 as <- <-.
    apply bind_Ok in H6 as ([] & s10 & [-> Hv]%refuse_if_returned & H6). injection H6 as _ <-.
    unfold key_violates in Hv. rewrite !orb_false_iff in Hv. destruct Hv as [[Hv%none_of _] _]. simpl in *.
    rewrite kcount_insert_new by done. rewrite Hs1. case_decide as Hd; [|lia]. destruct Hd as [[= <-] _]. lia. }
  specialize (Ht st0). destruct (transaction _ st0) as [[a|[]] st']; done.
Qed.
Lemma irun_limit now cmd : lim (irun uuid4 hash casefold max_per_user now cmd).
Proof.
  destruct (gives_key cmd) eqn:E; [|by apply lim_fewer, irun_fewer]. destruct cmd; try done. simpl.
  apply keeps_bind; [apply _|apply lim_create|intros ?; apply keeps_ret, _].
Qed.
Lemma fk_deactivate_locked now u c r n first : fk (deactivate_locked now u c r n first).
Proof.
  unfold deactivate_locked, record_success.
  repeat first [ solve [eauto with fke] | progress unfold iverify | keeps_step ]; by intros st v.
Qed.
Lemma lim_deactivate now between ceiling u c r : (∀ n st, within_limit st → within_limit (between n st)) →
  lim (deactivate_user now between ceiling u c r).
Proof.
  intros Hb. unfold deactivate_user. apply keeps_bind; [apply _|destruct c; by intros st v|intros _].
  apply keeps_bind; [apply _|by intros st v|intros r'].
  assert (∀ n, lim (deactivate_attempts now n between u c r' ceiling)) as Hatt.
  { induction n as [|n IH]; simpl; [by intros st v|]. apply keeps_bind; [apply _| |intros [x|]; [apply keeps_ret, _|done]].
    unfold deactivate_attempt. do 4 (apply keeps_bind; [apply _|first [intros st Hst; exact (Hb _ _ Hst)|intros st; reflexivity]|intros ?]). intros st.
    pose proof (λ first, lim_fewer _ (fk_deactivate_locked now u c r' ceiling first) st) as H. specialize (H a1).
    destruct (deactivate_locked now u c r' ceiling a1 st) as [[[x|]|e] st']; [exact H|done..]. }
  intros st Hst. specialize (Hatt MAX_ATTEMPTS st Hst). unfold run_recorded.
  destruct (deactivate_attempts _ _ _ _ _ _ _ _) as [[a|e] st']; [done|]. simpl in *.
  destruct (outcome_of e) as [[code o]|]; [|done]. unfold record_outcome. by repeat case_match.
Qed.

(** No history gives a person more usable keys than the limit.  Whatever is
    created, rotated, revoked or purged, by whom and in which order, and whatever
    other transactions do between the two scans of a deactivation, a person never
    has more than [max_per_user] unrevoked keys, in all tenants together. *)
Theorem key_limit_respected (st0 st : identity_store) (u : uuid) :
  no_identity_rows st0 → history uuid4 hash casefold max_per_user st0 st → (length (unrevoked_keys st u) ≤ max_per_user)%nat.
Proof.
  intros (_ & Hk & _) Hh. rewrite unrevoked_count.
  assert (∀ a b, history uuid4 hash casefold max_per_user a b → within_limit a → within_limit b) as Hall.
  { induction 1 as [|st1 st2 st3 _ H1 _ H2|now cmd a|s a|now between ceiling v c r a _ IH]; [done|tauto| |done|].
    - apply irun_limit.
    - by apply lim_deactivate. }
  apply (Hall _ _ Hh). intros v. unfold kcount. rewrite Hk. rewrite map_filter_empty, map_size_empty. lia.
Qed.
End Limit.
