(* ===== verification/IdentityGuard.v ===== *)
(** * Identity keeps every tenant its administrator

    Memberships are suspended and revoked, people are deactivated: a tenant that
    had an administrator has one afterwards, and the installation keeps its owner.
    The rows of authorization stay consistent, through the purges as well. *)

From S2P Require Import Prelude StoreLogic PyStr TenantLifecycle PlatformAuthority PlatformService PlatformProofs PlatformSafety TenantHierarchy HierarchyProofs HierarchySafety HierarchyReads RbacDecision RbacProofs RbacAdministrators RbacService RbacIntegrity RbacAuthority RbacGuard Identity ApiKeys UserAuthority IdentityProofs IdentityHistory IdentitySafety KeyLimit.

(** ** Rows of authorization with other memberships *)

Definition with_members (m : gmap (uuid * uuid) TenantMembership) (r : rbac_rows) : rbac_rows :=
  mkRbac m r.(rb_service_accounts) r.(rb_permissions) r.(rb_role_permissions) r.(rb_membership_roles)
    r.(rb_service_account_roles) r.(rb_delegations) r.(rb_denies) r.(rb_support).

(** No active membership is lost, none is made inactive. *)
Definition members_grow (m m' : gmap (uuid * uuid) TenantMembership) : Prop :=
  (∀ k x, m !! k = Some x → ∃ x', m' !! k = Some x' ∧ x'.(tm_id) = x.(tm_id) ∧ (x.(tm_status) = M_ACTIVE → x'.(tm_status) = M_ACTIVE)) ∧
  (∀ k x', m' !! k = Some x' → x'.(tm_status) ≠ M_ACTIVE → ∃ x, m !! k = Some x ∧ x.(tm_status) ≠ M_ACTIVE).

Section Members.
Context (cfg : TenancyConfig) (now : datetime).

(** The memberships of one person decide what that person holds. *)
Lemma member_transfer s r m v t : hwf cfg s.(ts_tenants) s.(ts_ancestry) →
  (∀ a x, r.(rb_memberships) !! (a, v) = Some x →
     ∃ x', m !! (a, v) = Some x' ∧ x'.(tm_id) = x.(tm_id) ∧ (x.(tm_status) = M_ACTIVE → x'.(tm_status) = M_ACTIVE)) →
  (∀ a x', m !! (a, v) = Some x' → x'.(tm_status) ≠ M_ACTIVE → ∃ x, r.(rb_memberships) !! (a, v) = Some x ∧ x.(tm_status) ≠ M_ACTIVE) →
  is_administrator r now s t v = true → is_administrator (with_members m r) now s t v = true.
Proof.
  intros Hwf H1 H2. apply (administrator_kept cfg s Hwf now r); [done|]. intros [H|H]; [left|right].
  - unfold has_role, assignment_reaches in *. rewrite decide_True in * by done.
    destruct H as (i & a & x & Hi & Hm & Hact & Hh & Hrest). destruct (H1 _ _ Hm) as (x' & Hx' & Hid & Hst).
    exists i, a, x'. split_and!; [done|done|by apply Hst|by rewrite Hid|apply Hrest..].
  - destruct H as (i & d & Hi & G1 & G2 & G3 & G4 & G5 & G6 & G7 & G8 & G9). exists i, d. split_and!; try done.
    intros _ x' Hx'. destruct (decide (tm_status x' = M_ACTIVE)) as [|Hn]; [done|]. simpl in Hx'.
    destruct (H2 _ _ Hx' Hn) as (x & Hx & Hn'). by destruct Hn'; apply G9.
Qed.
Lemma members_grow_administrators s r m t : hwf cfg s.(ts_tenants) s.(ts_ancestry) → members_grow r.(rb_memberships) m →
  has_administrator r now s t → has_administrator (with_members m r) now s t.
Proof.
  intros Hwf [H1 H2] (v & Hv & Ha). exists v. split.
  - unfold is_active_member in *. simpl. destruct (rb_memberships r !! (t, v)) as [x|] eqn:Hx; [|done].
    destruct (H1 _ _ Hx) as (x' & -> & _ & Hst). apply bool_decide_eq_true in Hv. by apply bool_decide_eq_true, Hst.
  - apply member_transfer; [done| | |done]; naive_solver.
Qed.

(** The rows still refer to memberships that exist. *)
Lemma members_sound r roles m : rwf r roles →
  (∀ i a, r.(rb_membership_roles) !! i = Some a → ∀ u x, r.(rb_memberships) !! (a.(ra_tenant_id), u) = Some x →
     x.(tm_id) = a.(ra_holder_id) → ∃ u' x', m !! (a.(ra_tenant_id), u') = Some x' ∧ x'.(tm_id) = x.(tm_id)) →
  rwf (with_members m r) roles.
Proof.
  intros [R1 R2 R3 R4 R5 R6 R7] Hk. split; try done. intros i a Hi. destruct (R2 i a Hi) as [Hro Hmu]. split; [done|].
  destruct (membership_users r (ra_tenant_id a) (ra_holder_id a)) as [|u l] eqn:E; [done|].
  assert (u ∈ membership_users r (ra_tenant_id a) (ra_holder_id a)) as Hu by (rewrite E; apply list_elem_of_here).
  unfold membership_users in Hu. apply list_elem_of_fmap in Hu as ([[t' u'] x] & -> & [[Ht Hid] Hin%elem_of_map_to_list]%list_elem_of_filter).
  simpl in *. subst t'. destruct (Hk i a Hi u' x Hin Hid) as (u2 & x' & Hx' & Hid').
  intros Hnil. pose proof (elem_of_membership_users (with_members m r) _ (ra_holder_id a) _ _ Hx') as Hin'.
  rewrite Hnil in Hin'. eapply not_elem_of_nil, Hin'. congruence.
Qed.
Lemma members_grow_sound r roles m : rwf r roles → members_grow r.(rb_memberships) m → rwf (with_members m r) roles.
Proof. intros Hr [H1 _]. apply members_sound; [done|]. intros i a _ u x Hx _. destruct (H1 _ _ Hx) as (x' & Hx' & Hid & _). eauto. Qed.

(** ** The relation every operation keeps *)

Definition fit (st : identity_store) : Prop :=
  hwf cfg st.(is_tenancy).(ts_tenants) st.(is_tenancy).(ts_ancestry) ∧ sound st.(is_rbac).
Definition administered (st : identity_store) (t : uuid) : Prop := has_administrator st.(is_rbac).(rs_rows) now st.(is_tenancy) t.
Definition isafe (st st' : identity_store) : Prop := fit st → fit st' ∧ ∀ t, administered st t → administered st' t.
#[export] Instance isafe_preorder : PreOrder isafe.
Proof.
  split; [by intros st H|]. intros a b c H1 H2 Ha. destruct (H1 Ha) as [Hb Hab]. destruct (H2 Hb) as [Hc Hbc]. split; [done|]. eauto.
Qed.
Abbreviation sf := (keeps (E := identity_error) isafe).

Lemma sf_in_rbac {A} (m : tenancy_store → RM A) :
  (∀ s, hwf cfg s.(ts_tenants) s.(ts_ancestry) → keeps (safe s now) (m s)) → sf (in_rbac m).
Proof.
  intros Hm st [Hwf Hst]. unfold in_rbac. specialize (Hm _ Hwf st.(is_rbac) Hst).
  destruct (m _ _) as [[a|e] rb]; (split; [split; [done|apply Hm]|apply Hm]).
Qed.

(** The registry with other rows of the platform: the same tenants, and nobody
    deactivated. *)
Definition people_kept (s s' : tenancy_store) : Prop :=
  s'.(ts_tenants) = s.(ts_tenants) ∧ s'.(ts_ancestry) = s.(ts_ancestry) ∧
  ∀ u, s.(ts_platform).(ps_users) !! u = Some true → s'.(ts_platform).(ps_users) !! u = Some true.

Lemma administrator_people r s s' t v : hwf cfg s.(ts_tenants) s.(ts_ancestry) →
  s'.(ts_tenants) = s.(ts_tenants) → s'.(ts_ancestry) = s.(ts_ancestry) →
  (is_active_user s.(ts_platform) v = true → is_active_user s'.(ts_platform) v = true) →
  is_administrator r now s t v = true → is_administrator r now s' t v = true.
Proof.
  intros Hwf Ht Ha Hu H. assert (hwf cfg s'.(ts_tenants) s'.(ts_ancestry)) as Hwf' by (by rewrite Ht, Ha).
  apply (administrator_spec cfg s Hwf now) in H as (G1 & G2 & G3 & G4). apply (administrator_spec cfg s' Hwf' now).
  assert (∀ x, accessible s' x = accessible s x) as Hacc.
  { intros x. apply accessible_same. by rewrite Ht. }
  split_and!; [by rewrite Hacc|by apply Hu|unfold is_denied in *; by rewrite Ht|].
  destruct G4 as [G4|G4]; [left|right]; unfold has_role, has_delegation, assignment_reaches in *; rewrite Ht.
  - rewrite decide_True in * by done. setoid_rewrite Hacc. exact G4.
  - setoid_rewrite Hacc. exact G4.
Qed.
Lemma isafe_people st s' : people_kept st.(is_tenancy) s' → isafe st (put_tenancy s' st).
Proof.
  intros (Ht & Ha & Hu) [Hwf Hst]. split; [split; [simpl; by rewrite Ht, Ha|done]|]. intros t (v & Hv & Hadm). exists v. split; [done|].
  simpl. apply (administrator_people _ st.(is_tenancy)); try done. unfold is_active_user. rewrite !bool_decide_eq_true. apply Hu.
Qed.

(** ** Changes of one part of the store *)

Lemma isafe_same st st' : st'.(is_tenancy) = st.(is_tenancy) → st'.(is_rbac).(rs_rows) = st.(is_rbac).(rs_rows) →
  st'.(is_rbac).(rs_roles) = st.(is_rbac).(rs_roles) → isafe st st'.
Proof. intros H1 H2 H3 [Hwf Hst]. unfold fit, administered, sound in *. rewrite H1, H2, H3. done. Qed.
Lemma isafe_put_sessions st m : isafe st (put_sessions m st).
Proof. by apply isafe_same. Qed.
Lemma isafe_put_keys st m : isafe st (put_keys m st).
Proof. by apply isafe_same. Qed.
Lemma isafe_put_logins st m : isafe st (put_logins m st).
Proof. by apply isafe_same. Qed.
Lemma isafe_put_invitations st m : isafe st (put_invitations m st).
Proof. by apply isafe_same. Qed.
Lemma isafe_put_account_names st m : isafe st (put_account_names m st).
Proof. by apply isafe_same. Qed.
Lemma isafe_draw st : isafe st (put_rbac (rdraw st.(is_rbac)) st).
Proof. by apply isafe_same. Qed.
Lemma isafe_set_identities st m : isafe st (set_identities m st).
Proof. apply isafe_people. done. Qed.
Lemma isafe_set_users st m : (∀ u, users st !! u = Some true → m !! u = Some true) → isafe st (set_users m st).
Proof. intros H. by apply isafe_people. Qed.
Lemma isafe_set_memberships st m : members_grow (memberships st) m → isafe st (set_memberships m st).
Proof.
  intros H [Hwf Hst]. split; [split; [done|by apply members_grow_sound]|]. intros t Ht. by apply (members_grow_administrators _ _ m).
Qed.

Definition with_accounts (m : gmap uuid (uuid * ServiceAccountStatus)) (r : rbac_rows) : rbac_rows :=
  mkRbac r.(rb_memberships) m r.(rb_permissions) r.(rb_role_permissions) r.(rb_membership_roles)
    r.(rb_service_account_roles) r.(rb_delegations) r.(rb_denies) r.(rb_support).
Lemma isafe_set_service_accounts st m :
  (fit st → ∀ i a, st.(is_rbac).(rs_rows).(rb_service_account_roles) !! i = Some a →
     ∀ status, service_accounts st !! a.(ra_holder_id) = Some (a.(ra_tenant_id), status) →
     ∃ status', m !! a.(ra_holder_id) = Some (a.(ra_tenant_id), status')) →
  isafe st (set_service_accounts m st).
Proof.
  intros H Hfit. destruct Hfit as [Hwf Hst]. split.
  - split; [done|]. destruct Hst as [R1 R2 R3 R4 R5 R6 R7] eqn:E. split; try done. intros i a Hi. destruct (R3 i a Hi) as [Hro Hex]. split; [done|].
    unfold service_account_exists, lock_service_account_status in *. apply bool_decide_eq_true in Hex. apply bool_decide_eq_true. simpl in *.
    destruct (rb_service_accounts _ !! _) as [[t' status]|] eqn:Hsa; [|by apply is_Some_None in Hex].
    destruct (bool_decide (t' = ra_tenant_id a)) eqn:Ht; [|by apply is_Some_None in Hex]. apply bool_decide_eq_true in Ht as ->.
    destruct (H (conj Hwf Hst) i a Hi status Hsa) as [status' ->]. by rewrite bool_decide_eq_true_2.
  - intros t (v & Hv & Ha). exists v. split; [done|]. simpl.
    apply (administrator_kept cfg _ Hwf now st.(is_rbac).(rs_rows)); done.
Qed.

(** ** The steps the operations share *)

Lemma sf_modify f : (∀ st, isafe st (f st)) → sf (modify f).
Proof. done. Qed.
Lemma sf_reads {A} (f : identity_store → A) : sf (reads f).
Proof. intros st. reflexivity. Qed.
Lemma sf_refuse_if p e : sf (refuse_if p e).
Proof. intros st. reflexivity. Qed.
Lemma sf_of_tenant {A} (r : tenancy_store → result tenant_error A) : sf (of_tenant r).
Proof. intros st. reflexivity. Qed.
Lemma sf_irecord c t a i : sf (irecord c t a i).
Proof. apply sf_in_rbac. intros s _. apply safe_record. Qed.
Lemma sf_iguard t us : sf (iguard now t us).
Proof. intros st. reflexivity. Qed.
Lemma safe_refl s st : safe s now st st.
Proof. intros H. split; [done|by intros t]. Qed.
Lemma sf_iverify b : sf (iverify now b).
Proof. apply sf_in_rbac. intros s _ st. unfold verify_guard. destruct (verify _ _ _ _); apply safe_refl. Qed.
Lemma sf_iuser_of op c : sf (iuser_of op c).
Proof. destruct c; intros st; reflexivity. Qed.
Lemma sf_require_active_user u op t : sf (in_rbac (λ s, require_active_user s u op t)).
Proof. apply sf_in_rbac. intros s _ st. apply safe_refl. Qed.
Lemma sf_on_integrity {A} (m h : IM A) : sf m → sf h → sf (on_identity_integrity m h).
Proof.
  intros Hm Hh st. unfold on_identity_integrity. specialize (Hm st). destruct (m st) as [[a|[]] st']; try done.
  etrans; [exact Hm|apply Hh].
Qed.
Lemma platform_event_kept c a t r p : (record_platform_event c a t r p).2.(ps_users) = p.(ps_users).
Proof. unfold record_platform_event. by repeat case_match. Qed.
Lemma sf_platform_event c a t r : sf (in_platform (record_platform_event c a t r)).
Proof.
  intros st. unfold in_platform. pose proof (platform_event_kept c a t r st.(is_tenancy).(ts_platform)) as H.
  destruct (record_platform_event _ _ _ _ _) as [[x|e] p]; simpl in *; apply isafe_people; (split_and!; [done|done|simpl; by rewrite H]).
Qed.
Lemma sf_insert_fresh uuid4 v w : (∀ st id, v id st = false → isafe st (w id st)) → sf (insert_fresh uuid4 v w).
Proof.
  intros H st. unfold insert_fresh, fresh, bind, refuse_if, modify, ret. simpl.
  destruct (v _ _) eqn:E; simpl; [apply isafe_draw|]. etrans; [apply isafe_draw|]. by apply H.
Qed.
Lemma sf_read_then {A B} (f : identity_store → A) (k : A → IM B) : (∀ st, isafe st (k (f st) st).2) → sf (bind (reads f) k).
Proof. intros H st. apply H. Qed.
Lemma sf_bind_now {A B} st (m : IM A) (k : A → IM B) : isafe st (m st).2 → (∀ a, sf (k a)) → isafe st (bind m k st).2.
Proof. intros H Hk. unfold bind. destruct (m st) as [[a|e] st']; [|done]. etrans; [exact H|apply Hk]. Qed.

Context (uuid4 : nat → uuid) (hash casefold : pystr → pystr) (max_per_user : nat).

Lemma sf_iauthorize c op t re ac sys : sf (iauthorize uuid4 now c op t re ac sys).
Proof. apply sf_in_rbac. intros s Hs. by eapply safe_authorize. Qed.
Lemma sf_register re ac : sf (in_rbac (λ _, register_permission_in uuid4 re ac)).
Proof. apply sf_in_rbac. intros s Hs. by eapply safe_register. Qed.

#[local] Hint Resolve sf_reads sf_refuse_if sf_of_tenant sf_irecord sf_iguard sf_iverify sf_iuser_of sf_require_active_user
  sf_platform_event sf_iauthorize sf_register isafe_put_sessions isafe_put_keys isafe_put_logins isafe_put_invitations
  isafe_put_account_names isafe_set_identities : sfe.
Ltac sf_steps := repeat first
  [ solve [eauto with sfe] | apply sf_on_integrity
  | progress unfold require_open_tenant', lock_accessible, require_purging', irequire_active_user | keeps_step ].

(** ** The operations *)

Lemma sf_insert_user : sf (insert_fresh uuid4 (λ id st, bool_decide (is_Some (users st !! id))) (λ id st, set_users (<[id := true]> (users st)) st)).
Proof.
  apply sf_insert_fresh. intros st id _. apply isafe_set_users. intros u Hu. destruct (decide (id = u)) as [->|];
    [by rewrite lookup_insert_eq|by rewrite lookup_insert_ne].
Qed.
Lemma sf_insert_identity u i s : sf (insert_identity u i s).
Proof. unfold insert_identity. sf_steps. apply sf_modify. eauto with sfe. Qed.
Lemma sf_get_user u : sf (get_user_or_raise u).
Proof. intros st. reflexivity. Qed.
Lemma sf_validate_external i s : sf (validate_external_identity i s).
Proof. intros st. reflexivity. Qed.
Lemma sf_create_user : sf (create_user uuid4).
Proof. apply keeps_transaction; [apply _|]. apply keeps_commits, sf_insert_user. Qed.
#[local] Hint Resolve sf_insert_user sf_insert_identity sf_get_user sf_validate_external sf_create_user : sfe.
Lemma sf_link u i s : sf (link_external_identity u i s).
Proof. unfold link_external_identity. sf_steps. Qed.
Lemma sf_find_external i s : sf (find_external_identity i s).
Proof. unfold find_external_identity. sf_steps. Qed.
#[local] Hint Resolve sf_link sf_find_external : sfe.
Lemma sf_get_or_create i s : sf (get_or_create_user_for_external_identity uuid4 i s).
Proof.
  unfold get_or_create_user_for_external_identity.
  apply keeps_bind; [apply _|eauto with sfe|intros [u|]]; [sf_steps|]. apply keeps_bind; [apply _|eauto with sfe|intros u st].
  pose proof (sf_link u i s st) as H. destruct (link_external_identity u i s st) as [[x|e] st']; [exact H|].
  destruct e; try exact H. etrans; [exact H|].
  assert (∀ m : IM uuid, sf m → isafe st' (m st').2) as Hnow by (intros m Hm; apply Hm). apply Hnow. sf_steps.
Qed.
Lemma sf_get_or_create_tx i s : sf (get_or_create_user_id_for_external_identity_in_transaction uuid4 i s).
Proof. unfold get_or_create_user_id_for_external_identity_in_transaction. sf_steps. Qed.

(** *** Memberships *)

Lemma sf_insert_membership t u : sf (insert_membership uuid4 now t u).
Proof.
  apply sf_insert_fresh. intros st id Hv. rewrite !orb_false_iff in Hv. destruct Hv as [[[_ Hv] _] _]. apply none_of in Hv.
  apply isafe_set_memberships. split.
  - intros k x Hk. exists x. rewrite lookup_insert_ne; [done|]. intros <-. congruence.
  - intros k x' [[<- <-]|[_ Hk]]%lookup_insert_Some Hn; [done|]. by exists x'.
Qed.
#[local] Hint Resolve sf_insert_membership : sfe.
Lemma sf_add_membership t u c : sf (add_tenant_membership uuid4 now t u c).
Proof. unfold add_tenant_membership. sf_steps. Qed.

Lemma reactivated_isafe st t u m : memberships st !! (t, u) = Some m →
  isafe st (set_memberships (<[(t, u) := mkMembership m.(tm_id) M_ACTIVE m.(tm_created_at)]> (memberships st)) st).
Proof.
  intros Hm. apply isafe_set_memberships. split.
  - intros k x Hk. destruct (decide (k = (t, u))) as [->|Hne].
    + rewrite lookup_insert_eq. simplify_eq. by eexists.
    + rewrite lookup_insert_ne by done. by exists x.
  - intros k x' [[<- <-]|[_ Hk]]%lookup_insert_Some Hn; [done|]. by exists x'.
Qed.

(** A membership that stops being active, with the guard passed. *)
Lemma guarded_isafe st t u m to : memberships st !! (t, u) = Some m →
  let m' := <[(t, u) := mkMembership m.(tm_id) to m.(tm_created_at)]> (memberships st) in
  verify (with_members m' st.(is_rbac).(rs_rows)) now st.(is_tenancy)
    (guard_last_administrator st.(is_rbac).(rs_rows) now st.(is_tenancy) t [u]) = None →
  isafe st (set_memberships m' st).
Proof.
  intros Hm m' Hver [Hwf Hst]. assert (∀ a v, (a, v) ≠ (t, u) → m' !! (a, v) = memberships st !! (a, v)) as Hother.
  { intros a v Hne. subst m'. by rewrite lookup_insert_ne. }
  split; [split; [done|]|].
  - apply members_sound; [done|]. intros i a Hi v x Hx Hid. destruct (decide ((ra_tenant_id a, v) = (t, u))) as [E|Hne].
    + injection E as Et Ev. rewrite Et, Ev in Hx. rewrite Et.
      change (memberships st !! (t, u) = Some x) in Hx. rewrite Hm in Hx. injection Hx as <-. exists u. eexists. subst m'. rewrite lookup_insert_eq. done.
    + exists v, x. rewrite Hother by done. done.
  - intros t0. apply (guard_covers_members cfg _ Hwf now _ _ t [u]); [..|exact Hver].
    + intros v a Hva. unfold is_active_member. simpl. rewrite Hother; [done|]. intros [= -> ->].
      destruct Hva as [Hva|Hva]; [by apply Hva, list_elem_of_here|]. by apply Hva; left.
    + intros v a Hv. assert (v ≠ u) by (intros ->; by apply Hv, list_elem_of_here).
      apply member_transfer; [done|intros b x Hx|intros b x Hx Hn].
      * exists x. by rewrite Hother by congruence.
      * exists x. rewrite Hother in Hx by congruence. done.
    + intros v a Hno. apply (outside_kept cfg _ Hwf now _ _ t); [done|]. unfold agree_on, agree. split_and!; try done.
      intros b w Hb. simpl. apply Hother. congruence.
Qed.

Lemma iverify_returned b st st' : iverify now b st = (Ok tt, st') →
  st' = put_rbac st.(is_rbac) st ∧ verify st.(is_rbac).(rs_rows) now st.(is_tenancy) b = None.
Proof. unfold iverify, in_rbac, verify_guard. by destruct (verify _ _ _ _) eqn:E; intros [= <-]. Qed.
Lemma put_rbac_id st : put_rbac st.(is_rbac) st = st.
Proof. by destruct st. Qed.

Lemma sf_transition t i from to idem c v : sf (transition_membership_status uuid4 now t i from to idem c v).
Proof.
  unfold transition_membership_status. apply keeps_transaction; [apply _|].
  apply commits_bind; [apply _|apply keeps_commits, sf_iauthorize|intros _].
  intros st r st' (row & s1 & H1 & H)%bind_Ok. injection H1 as <- <-.
  destruct (membership_by_id st t i) as [[u m]|] eqn:Em; [|done]. apply membership_by_id_spec in Em as [Hm _].
  destruct (bool_decide (tm_status m ∈ idem)); [by injection H as _ <-|]. destruct (negb _); [done|].
  apply bind_Ok in H as (? & s2 & H2 & H). pose proof (sf_irecord c t ("membership." +:+ v) i s2) as Hrec. rewrite H in Hrec. simpl in Hrec.
  etrans; [|exact Hrec]. clear H Hrec. destruct (bool_decide (to = M_ACTIVE)) eqn:Hto.
  - apply bool_decide_eq_true in Hto as ->. injection H2 as _ <-. by apply reactivated_isafe.
  - apply bind_Ok in H2 as (b & s3 & H3 & H2). injection H3 as <- <-. apply bind_Ok in H2 as (? & s4 & H4 & H2). injection H4 as _ <-.
    destruct x. apply iverify_returned in H2 as [-> Hver]. rewrite put_rbac_id. by apply guarded_isafe.
Qed.
#[local] Hint Resolve sf_transition : sfe.
Lemma sf_reactivate_membership t i c : sf (reactivate_membership uuid4 now t i c).
Proof. unfold reactivate_membership. sf_steps. Qed.

(** *** Service accounts *)

Lemma sf_insert_account t n : sf (insert_fresh uuid4
  (λ id st, bool_decide (is_Some (service_accounts st !! id)) || account_name_taken st t n)
  (λ id st, put_account_names (<[id := n]> st.(is_account_names))
     (set_service_accounts (<[id := (t, SA_ACTIVE)]> (service_accounts st)) st))).
Proof.
  apply sf_insert_fresh. intros st id Hv. apply orb_false_iff in Hv as [Hv%none_of _]. etrans; [|apply isafe_put_account_names].
  apply isafe_set_service_accounts. intros _ i a Hi status Hs. exists status. rewrite lookup_insert_ne; [done|]. intros E. rewrite E in Hv. congruence.
Qed.
#[local] Hint Resolve sf_insert_account : sfe.
Lemma sf_create_account t n c : sf (create_service_account uuid4 now t n c).
Proof. unfold create_service_account. sf_steps. Qed.
Lemma sf_set_account t a s c ac au : sf au → sf (set_service_account_status t a s c ac au).
Proof.
  intros Hau. unfold set_service_account_status. apply keeps_transaction; [apply _|]. apply keeps_commits.
  apply keeps_bind; [apply _|done|intros _]. apply sf_read_then. intros st.
  destruct (account_of st t a) as [cur|] eqn:Ea; [|reflexivity]. destruct (bool_decide (cur = s)); [reflexivity|].
  apply sf_bind_now; [|intros _; eauto with sfe]. apply isafe_set_service_accounts. intros _ i x Hi status Hs.
  unfold account_of, lock_service_account_status in Ea. destruct (decide (ra_holder_id x = a)) as [<-|Hne].
  - unfold service_accounts in Hs. rewrite Hs in Ea. destruct (bool_decide _) eqn:Ht; [|done]. apply bool_decide_eq_true in Ht as ->.
    exists s. by rewrite lookup_insert_eq.
  - exists status. by rewrite lookup_insert_ne.
Qed.
#[local] Hint Resolve sf_set_account : sfe.
Lemma sf_disable t a c : sf (disable_service_account uuid4 now t a c).
Proof. apply sf_set_account. eauto with sfe. Qed.
Lemma sf_enable t a c : sf (enable_service_account uuid4 now t a c).
Proof. unfold enable_service_account. sf_steps. Qed.

(** *** Invitations, sessions, login transactions, keys *)

Lemma sf_insert_other v w : (∀ id st, (w id st).(is_tenancy) = st.(is_tenancy) ∧ (w id st).(is_rbac) = st.(is_rbac)) →
  sf (insert_fresh uuid4 v w).
Proof. intros H. apply sf_insert_fresh. intros st id _. destruct (H id st) as [H1 H2]. apply isafe_same; by rewrite ?H1, ?H2. Qed.
Lemma sf_put_invitation id i : sf (put_invitation id i).
Proof. intros st. apply isafe_put_invitations. Qed.
Lemma sf_put_key id k : sf (put_key id k).
Proof. intros st. apply isafe_put_keys. Qed.
Lemma sf_lock_key t k : sf (lock_key t k).
Proof. intros st. reflexivity. Qed.
Lemma sf_validate_name n : sf (validate_name n).
Proof. intros st. reflexivity. Qed.
#[local] Hint Extern 1 (keeps isafe (insert_fresh _ _ _)) => (apply sf_insert_other; done) : sfe.
#[local] Hint Resolve sf_put_invitation sf_put_key sf_lock_key sf_validate_name : sfe.
Lemma sf_create_invitation t e r c ex : sf (create_invitation uuid4 hash casefold now t e r c ex).
Proof. unfold create_invitation. sf_steps. Qed.
Lemma sf_revoke_invitation t i c : sf (revoke_invitation uuid4 now t i c).
Proof. unfold revoke_invitation. sf_steps. Qed.
Lemma sf_consume t i h u e : sf (consume_locked_invitation uuid4 casefold now t i h u e).
Proof. unfold consume_locked_invitation. sf_steps. Qed.
#[local] Hint Resolve sf_consume : sfe.
Lemma sf_accept r t c e : sf (accept_invitation uuid4 hash casefold now r t c e).
Proof. unfold accept_invitation. sf_steps. Qed.
Lemma sf_record_issued u : sf (record_operator_session_issued u).
Proof. unfold record_operator_session_issued. sf_steps. Qed.
#[local] Hint Resolve sf_record_issued : sfe.
Lemma sf_issue u r l e mf at_ : sf (issue_session uuid4 hash casefold now u r l e mf at_).
Proof. unfold issue_session. sf_steps. Qed.
Lemma sf_revoke_session i : sf (revoke_session now i).
Proof. unfold revoke_session. sf_steps. apply sf_modify. eauto with sfe. Qed.
Lemma sf_batch condition n locked : sf (delete_one_batch condition n locked).
Proof. intros st. apply isafe_put_sessions. Qed.
#[local] Hint Resolve sf_batch : sfe.
Lemma sf_phase n condition b locked : sf (cleanup_phase n condition b locked).
Proof. induction n as [|n IH]; simpl; sf_steps. Qed.
#[local] Hint Resolve sf_phase : sfe.
Lemma sf_cleanup cf locked : sf (cleanup_expired_sessions now cf locked).
Proof. unfold cleanup_expired_sessions. sf_steps. Qed.
Lemma sf_begin s n v l : sf (begin_login_transaction uuid4 now s n v l).
Proof. apply keeps_transaction; [apply _|]. apply keeps_commits. by apply sf_insert_other. Qed.
Lemma sf_consume_login i s : sf (consume_login_transaction now i s).
Proof. unfold consume_login_transaction. sf_steps. apply sf_modify. eauto with sfe. Qed.

Lemma sf_insert_key k : sf (insert_key uuid4 k).
Proof. unfold insert_key. sf_steps. Qed.
Lemma sf_authorize_keys c k op ac t : sf (authorize_key_management uuid4 now c k op ac t).
Proof. unfold authorize_key_management. sf_steps. Qed.
Lemma sf_revoke_locked id k t c : sf (revoke_locked_key now id k t c).
Proof. unfold revoke_locked_key. sf_steps. Qed.
#[local] Hint Resolve sf_insert_key sf_authorize_keys sf_revoke_locked : sfe.
Lemma sf_create_key t n r c ex : sf (create_api_key uuid4 hash now max_per_user t n r c ex).
Proof. unfold create_api_key. sf_steps. Qed.
Lemma sf_create_account_key t a n r c ex : sf (create_service_account_api_key uuid4 hash now t a n r c ex).
Proof. unfold create_service_account_api_key. sf_steps. Qed.
Lemma sf_validate_key r : sf (validate_api_key hash now r).
Proof. unfold validate_api_key. sf_steps. Qed.
Lemma sf_revoke_key t id c : sf (revoke_api_key uuid4 now t id c).
Proof. unfold revoke_api_key. sf_steps. Qed.
Lemma sf_revoke_account_key t id c : sf (revoke_service_account_api_key uuid4 now t id c).
Proof. unfold revoke_service_account_api_key. sf_steps. Qed.
Lemma sf_rotate t id r c ex : sf (rotate_api_key uuid4 hash now t id r c ex).
Proof. unfold rotate_api_key. sf_steps. Qed.
Lemma sf_purge_keys t : sf (purge_tenant_api_keys t).
Proof. unfold purge_tenant_api_keys. sf_steps. intros st. apply isafe_put_keys. Qed.
Lemma sf_purge_invitations t : sf (purge_tenant_invitations t).
Proof. unfold purge_tenant_invitations. sf_steps. intros st. apply isafe_put_invitations. Qed.

(** *** The authority of the platform over a user *)

Lemma sf_record_outcome c a u code o st : isafe st (record_outcome c a u code o st).
Proof.
  unfold record_outcome. destruct c; try reflexivity; repeat case_match; try reflexivity; by apply isafe_people.
Qed.
Lemma sf_run_recorded {A} op c u (m : IM A) : sf m → sf (run_recorded op c u m).
Proof.
  intros Hm st. unfold run_recorded. specialize (Hm st). destruct (m st) as [[a|e] st']; [exact Hm|].
  simpl in *. etrans; [exact Hm|]. destruct (outcome_of e) as [[code o]|]; [apply sf_record_outcome|reflexivity].
Qed.
Lemma sf_record_success op c u r : sf (record_success op c u r).
Proof.
  intros st. unfold record_success, in_platform. set (target := user_audit_target _ _).
  pose proof (sf_platform_event c (op_audit_action (platform_operation op)) target (Some r) st) as H. exact H.
Qed.
Lemma sf_authorize_platform c op : sf (authorize_platform c op).
Proof. intros st. reflexivity. Qed.
Lemma sf_require_subject u : sf (require_subject u).
Proof. intros st. reflexivity. Qed.
Lemma sf_revoke_all_sessions u : sf (revoke_sessions now u).
Proof. intros st. apply isafe_put_sessions. Qed.
Lemma sf_revoke_all_keys u : sf (revoke_user_api_keys_in_transaction now u).
Proof. intros st. apply isafe_put_keys. Qed.
Lemma sf_key_revocations c ks : sf (record_platform_key_revocations c ks).
Proof. induction ks as [|[k t] ks IH]; simpl; sf_steps. Qed.
Lemma sf_reactivate_row u : sf (modify (λ st, set_users (<[u := true]> (users st)) st)).
Proof.
  intros st. apply isafe_set_users. intros v Hv. destruct (decide (u = v)) as [->|]; [by rewrite lookup_insert_eq|by rewrite lookup_insert_ne].
Qed.
Lemma sf_modify_identities f : sf (modify (λ st, set_identities (f st) st)).
Proof. intros st. apply isafe_set_identities. Qed.
#[local] Hint Resolve sf_record_success sf_authorize_platform sf_require_subject sf_revoke_all_sessions sf_revoke_all_keys
  sf_key_revocations sf_reactivate_row sf_modify_identities : sfe.
Ltac sf_authority :=
  unfold require_person_or_refuse, require_user_caller, validated; sf_steps; apply sf_run_recorded; sf_steps.
Lemma sf_revoke_user_sessions u c r : sf (revoke_user_sessions now u c r).
Proof. unfold revoke_user_sessions. sf_authority. Qed.
Lemma sf_revoke_user_keys u c r : sf (revoke_user_api_keys now u c r).
Proof. unfold revoke_user_api_keys. sf_authority. Qed.
Lemma sf_reactivate_user u c r : sf (reactivate_user now u c r).
Proof. unfold reactivate_user. sf_authority. Qed.
Lemma sf_remove_links u a : sf (remove_identity_links_unless_enrolled_operator u a).
Proof. unfold remove_identity_links_unless_enrolled_operator. sf_steps. intros st. apply sf_record_outcome. Qed.

(** *** Purges *)

Lemma lookup_foldr_disable (ids : list uuid) (m : gmap uuid (uuid * ServiceAccountStatus)) t i :
  foldr (λ id m, <[id := (t, SA_DISABLED)]> m) m ids !! i = if decide (i ∈ ids) then Some (t, SA_DISABLED) else m !! i.
Proof.
  induction ids as [|x ids IH]; [done|]. simpl. destruct (decide (i = x)) as [->|Hne].
  - rewrite lookup_insert_eq, decide_True; [done|set_solver].
  - rewrite lookup_insert_ne, IH by done. destruct (decide (i ∈ ids)); [rewrite decide_True|rewrite decide_False]; set_solver.
Qed.
Lemma elem_of_tenant_accounts st t i : i ∈ tenant_accounts st t ↔ ∃ status, service_accounts st !! i = Some (t, status).
Proof.
  unfold tenant_accounts. rewrite list_elem_of_fmap. split.
  - intros ([i' [t' status]] & -> & [Ht Hin%elem_of_map_to_list]%list_elem_of_filter). simpl in *. subst. by exists status.
  - intros [status Hs]. exists (i, (t, status)). split; [done|]. apply list_elem_of_filter. split; [done|]. by apply elem_of_map_to_list.
Qed.
Lemma exists_row_true {A} (m : gmap uuid A) p i x : m !! i = Some x → p x = true → exists_row m p = true.
Proof.
  intros Hi Hp. unfold exists_row. apply existsb_exists. exists (i, x). split; [|done]. by apply list_elem_of_In, elem_of_map_to_list.
Qed.

Lemma sf_purge_accounts t audited keep : sf (purge_tenant_service_accounts t audited keep).
Proof.
  unfold purge_tenant_service_accounts. apply keeps_bind; [apply _|unfold require_purging'; eauto with sfe|intros _].
  apply keeps_transaction; [apply _|]. intros st r st' (ids & s1 & H1 & H)%bind_Ok. injection H1 as <- <-.
  apply bind_Ok in H as ([] & s2 & [-> Hv]%refuse_if_returned & H). apply bind_Ok in H as (? & s3 & H3 & H). injection H3 as _ <-.
  injection H as _ <-. etrans; [|apply isafe_put_account_names]. apply isafe_set_service_accounts.
  intros _ i a Hi status Hs. rewrite lookup_foldr_disable, lookup_foldr_delete.
  destruct (decide _) as [Hret|Hret].
  - apply list_elem_of_filter in Hret as [_ [status' Hret]%elem_of_tenant_accounts]. rewrite Hs in Hret. injection Hret as -> _. by eexists.
  - destruct (decide _) as [Hdel|]; [|by exists status]. exfalso.
    assert (existsb (account_is_named st audited t) (filter (λ id, id ∉ audited ∪ keep) (tenant_accounts st t)) = true) as Hn; [|congruence].
    apply existsb_exists. exists (ra_holder_id a). split; [by apply list_elem_of_In|].
    apply list_elem_of_filter in Hdel as [_ [status' Hdel]%elem_of_tenant_accounts]. rewrite Hs in Hdel. injection Hdel as Ht _.
    unfold account_is_named. rewrite (exists_row_true _ _ i a Hi); [done|]. by rewrite Ht, !bool_decide_eq_true_2.
Qed.

Abbreviation fitting := (keeps (E := identity_error) (upholds fit)).
Lemma fit_of_safe {A} (m : IM A) : sf m → fitting m.
Proof. intros H st Hst. by apply H. Qed.
Lemma fit_in_rbac {A} (m : tenancy_store → RM A) : (∀ s, keeps (upholds sound) (m s)) → fitting (in_rbac m).
Proof.
  intros H st [Hwf Hst]. specialize (H st.(is_tenancy) st.(is_rbac) Hst). unfold in_rbac. by destruct (m _ _) as [[a|e] rb].
Qed.
(** A membership that a role names is not deleted. *)
Lemma fit_purge_memberships t : fitting (purge_tenant_memberships t).
Proof.
  unfold purge_tenant_memberships. apply keeps_bind; [apply _|apply fit_of_safe; unfold require_purging'; eauto with sfe|intros _].
  apply keeps_transaction; [apply _|]. intros st r st' ([] & s1 & [-> Hv]%refuse_if_returned & H)%bind_Ok.
  apply bind_Ok in H as (n & s2 & H2 & H). injection H2 as <- <-. apply bind_Ok in H as (? & s3 & H3 & H). injection H3 as _ <-.
  injection H as _ <-. intros [Hwf Hst]. split; [done|]. apply members_sound; [done|]. intros i a Hi u x' Hx' Hid.
  exists u, x'. split; [|done]. apply map_lookup_filter_Some. split; [done|]. simpl. intros Ht.
  assert (existsb (λ p : uuid * uuid * TenantMembership, bool_decide (p.1.1 = t) && membership_is_named st t p.1.2 p.2.(tm_id))
            (map_to_list (memberships st)) = true) as Hn; [|congruence].
  apply existsb_exists. exists ((ra_tenant_id a, u), x'). split; [by apply list_elem_of_In, elem_of_map_to_list|]. simpl.
  rewrite bool_decide_eq_true_2 by done. unfold membership_is_named. rewrite (exists_row_true _ _ i a Hi); [done|].
  by rewrite Ht, Hid, !bool_decide_eq_true_2.
Qed.

(** ** Every operation *)

Definition removes_members (cmd : icommand) : bool :=
  match cmd with IAdminister cmd => purges cmd | IPurgeMemberships _ => true | _ => false end.

#[local] Hint Resolve sf_get_or_create sf_get_or_create_tx sf_add_membership sf_reactivate_membership sf_create_account sf_disable
  sf_enable sf_create_invitation sf_revoke_invitation sf_accept sf_issue sf_revoke_session sf_cleanup sf_begin sf_consume_login
  sf_create_key sf_create_account_key sf_validate_key sf_revoke_key sf_revoke_account_key sf_rotate sf_purge_keys
  sf_purge_invitations sf_revoke_user_sessions sf_revoke_user_keys sf_reactivate_user sf_remove_links sf_purge_accounts : sfe.

Lemma sf_ivoid {A} (m : IM A) : sf m → sf (ivoid m).
Proof. intros H. by apply keeps_bind; [apply _| |intros a; apply keeps_ret; apply _]. Qed.
Lemma irun_safe cmd : removes_members cmd = false → sf (irun uuid4 hash casefold max_per_user now cmd).
Proof.
  intros Hr. destruct cmd; simpl in *; try done; try apply sf_ivoid; eauto with sfe; try (by apply sf_transition);
    try (intros st; first [reflexivity|by apply isafe_same]).
  apply sf_in_rbac. intros s Hs. by eapply rrun_safe.
Qed.
Lemma irun_fit cmd : fitting (irun uuid4 hash casefold max_per_user now cmd).
Proof.
  destruct (removes_members cmd) eqn:E; [|by apply fit_of_safe, irun_safe].
  destruct cmd; try done; simpl; (apply keeps_bind; [apply _| |intros ?; apply keeps_ret, _]).
  - apply fit_purge_memberships.
  - apply fit_in_rbac. intros s. apply rrun_sound.
Qed.

End Members.

(** ** Deactivation *)

Section Deactivation.
Context (cfg : TenancyConfig) (now : datetime).
Abbreviation sf := (keeps (E := identity_error) (isafe cfg now)).


Definition owned (st : identity_store) : Prop := platform_owner_exists st.(is_tenancy).(ts_platform) = true.
Definition kept (st st' : identity_store) : Prop := isafe cfg now st st' ∧ (owned st → owned st').
#[local] Instance kept_preorder : PreOrder kept.
Proof. split; [by intros st; split|]. intros a b c [H1 H2] [H3 H4]. split; [by etrans|tauto]. Qed.
Abbreviation kp := (keeps (E := identity_error) kept).

Lemma kp_same {A} (m : IM A) : sf m → (∀ st, (m st).2.(is_tenancy) = st.(is_tenancy)) → kp m.
Proof. intros H1 H2 st. split; [apply H1|]. unfold owned. by rewrite H2. Qed.
Lemma in_rbac_tenancy {A} (m : tenancy_store → RM A) st : (in_rbac m st).2.(is_tenancy) = st.(is_tenancy).
Proof. unfold in_rbac. by destruct (m _ _) as [[]]. Qed.
Lemma kp_record_success op c u r : kp (record_success op c u r).
Proof.
  intros st. split; [apply sf_record_success|]. unfold owned, record_success, in_platform, record_platform_event.
  repeat case_match; simplify_eq; done.
Qed.
Lemma kp_key_revocations c ks : kp (record_platform_key_revocations c ks).
Proof.
  induction ks as [|[k t] ks IH]; simpl; [by intros st|]. apply keeps_bind; [apply _| |done].
  apply kp_same; [apply sf_irecord|]. intros st. apply in_rbac_tenancy.
Qed.
Lemma kp_record_outcome c a u code o st : kept st (record_outcome c a u code o st).
Proof. split; [apply sf_record_outcome|]. unfold owned, record_outcome. by repeat case_match. Qed.

(** Everybody but the deactivated person administers what they did; the tenants
    of that person were all guarded. *)
Lemma deactivated_isafe st u first s' :
  s'.(ts_tenants) = st.(is_tenancy).(ts_tenants) → s'.(ts_ancestry) = st.(is_tenancy).(ts_ancestry) →
  s'.(ts_platform).(ps_users) = <[u := false]> (users st) →
  (∀ t, active_member st u t = true → (∃ x, st.(is_tenancy).(ts_tenants) !! t = Some x ∧ x.(t_status) ≠ PURGED) → t ∈ first) →
  verify st.(is_rbac).(rs_rows) now s' (guard_tenants st.(is_rbac).(rs_rows) now st.(is_tenancy) first) = None →
  isafe cfg now st (put_tenancy s' st).
Proof.
  intros Ht Ha Hu Hcover Hver [Hwf Hst]. split; [split; [simpl; by rewrite Ht, Ha|done]|]. intros t Hadm.
  pose proof (administrator_tenant cfg _ _ _ _ Hwf Hadm) as Hex. destruct Hadm as (v & Hv & Hvadm). destruct (decide (v = u)) as [->|Hne].
  - apply (guard_keeps _ _ first st.(is_tenancy)); [by apply bool_decide_eq_true| |by exists u].
    apply Hcover; [done|]. destruct Hex as [x Hx]. exists x. split; [done|]. intros Hp.
    apply (administrator_spec cfg _ Hwf now) in Hvadm as (Hacc & _). unfold accessible, lock_accessible_tenant, tenants_of, tenancy_store_tenants in Hacc.
    by rewrite Hx, Hp in Hacc.
  - exists v. split; [done|]. apply (administrator_people cfg now _ st.(is_tenancy)); try done.
    unfold is_active_user. simpl. rewrite !bool_decide_eq_true, Hu, lookup_insert_ne by done. done.
Qed.

Lemma iscan_returned op u ceiling st found st' : iscan op u ceiling st = (Ok found, st') →
  st' = st ∧ ∀ t, active_member st u t = true → (∃ x, st.(is_tenancy).(ts_tenants) !! t = Some x ∧ x.(t_status) ≠ PURGED) → t ∈ found.
Proof.
  unfold iscan. rewrite scan_spec. case_bool_decide; [|done]. intros [= <- <-]. split; [done|]. intros t H1 H2. by apply elem_of_scan.
Qed.

Lemma locked_kept u c reason ceiling first st r st' :
  deactivate_locked now u c reason ceiling first st = (Ok (Some r), st') → kept st st'.
Proof.
  unfold deactivate_locked. intros (guard & s1 & H1 & H)%bind_Ok. injection H1 as <- <-.
  apply bind_Ok in H as (? & s2 & H2 & H). injection H2 as _ <-. apply bind_Ok in H as ([] & s3 & [-> _]%refuse_if_returned & H).
  apply bind_Ok in H as (active & s4 & H4 & H). injection H4 as _ <-. apply bind_Ok in H as ([] & s5 & [-> _]%refuse_if_returned & H).
  apply bind_Ok in H as (second & s6 & [-> Hsec]%iscan_returned & H). destruct (existsb _ second) eqn:Hnew; [done|].
  apply bind_Ok in H as (owner & s7 & H7 & H). injection H7 as <- <-. apply bind_Ok in H as (? & s8 & H8 & H). injection H8 as _ <-.
  apply bind_Ok in H as (n & s9 & H9 & H). injection H9 as _ <-. apply bind_Ok in H as (ks & s10 & H10 & H). injection H10 as _ <-.
  apply bind_Ok in H as ([] & s11 & [-> Hver]%iverify_returned & H). rewrite put_rbac_id in H.
  apply bind_Ok in H as ([] & s12 & [-> Hown]%refuse_if_returned & H).
  match type of H with ?m ?s = _ => assert (kept s st') as Hrest; [assert (kp m) as Hm; [|specialize (Hm s); by rewrite H in Hm]|] end.
  { apply keeps_bind; [apply _|apply kp_record_success|intros _]. apply keeps_bind; [apply _|apply kp_key_revocations|intros _].
    apply keeps_ret, _. }
  etrans; [|exact Hrest]. clear H Hrest. split.
  - etrans; [|apply isafe_put_keys]. etrans; [|apply isafe_put_sessions].
    eapply (deactivated_isafe _ u (merge_sort (guard_order st) first)); [done|done|done| |exact Hver].
    intros t H1 H2. rewrite merge_sort_Permutation. specialize (Hsec t H1 H2).
    destruct (decide (t ∈ first)) as [|Hnot]; [done|].
    assert (existsb (λ t, negb (bool_decide (t ∈ first))) second = true); [|congruence].
    apply existsb_exists. exists t. split; [by apply list_elem_of_In|]. by rewrite bool_decide_eq_false_2.
  - unfold owned. intros Ho. simpl in *. rewrite Ho in Hown. simpl in Hown. by apply negb_false_iff in Hown.
Qed.

(** Whatever the other transactions keep that a deactivation keeps by itself. *)
Section Between.
Context (R : relation identity_store) `{!PreOrder R} (kept_R : ∀ st st', kept st st' → R st st').
Abbreviation kr := (keeps (E := identity_error) R).
Lemma attempts_rel n between u c reason ceiling : (∀ n st, R st (between n st)) → kr (deactivate_attempts now n between u c reason ceiling).
Proof using All.
  intros Hb. induction n as [|n IH]; simpl; [by intros st|]. apply keeps_bind; [apply _| |intros [x|]; [apply keeps_ret, _|done]].
  unfold deactivate_attempt. do 4 (apply keeps_bind; [apply _|first [intros st; apply Hb|intros st; reflexivity]|intros ?]). intros st.
  destruct (deactivate_locked now u c reason ceiling _ st) as [[[x|]|e] st'] eqn:E; [by eapply kept_R, locked_kept|reflexivity..].
Qed.
Lemma deactivate_rel between ceiling u c reason : (∀ n st, R st (between n st)) → kr (deactivate_user now between ceiling u c reason).
Proof using All.
  intros Hb. unfold deactivate_user. apply keeps_bind; [apply _|destruct c; intros st; reflexivity|intros _].
  apply keeps_bind; [apply _|intros st; reflexivity|intros ?]. intros st. unfold run_recorded.
  pose proof (attempts_rel MAX_ATTEMPTS between u c a ceiling Hb st) as Hm. destruct (deactivate_attempts _ _ _ _ _ _ _ st) as [[x|e] st']; [exact Hm|].
  simpl in *. etrans; [exact Hm|]. destruct (outcome_of e) as [[code o]|]; [apply kept_R, kp_record_outcome|reflexivity].
Qed.
End Between.
Lemma deactivate_kept between ceiling u c reason : (∀ n st, kept st (between n st)) →
  kp (deactivate_user now between ceiling u c reason).
Proof. by apply (deactivate_rel kept). Qed.

(** Deactivating a person leaves every tenant its administrator and the
    installation its owner, whatever other transactions commit between the first
    scan and the locks of each attempt, as long as these themselves do. *)
Theorem deactivation_keeps_control (between : nat → identity_store → identity_store) (ceiling : nat) (u : uuid) (c : caller)
    (reason : pystr) (st : identity_store) :
  fit cfg st → (∀ n st, kept st (between n st)) →
  let st' := (deactivate_user now between ceiling u c reason st).2 in
  fit cfg st' ∧
  (∀ t, is_Some (find_administrator st.(is_rbac).(rs_rows) now st.(is_tenancy) t None None) →
        is_Some (find_administrator st'.(is_rbac).(rs_rows) now st'.(is_tenancy) t None None)) ∧
  (platform_owner_exists st.(is_tenancy).(ts_platform) = true → platform_owner_exists st'.(is_tenancy).(ts_platform) = true).
Proof.
  intros Hst Hb st'. destruct (deactivate_kept between ceiling u c reason Hb st) as [Hs Ho]. destruct (Hs Hst) as [Hfit Ha].
  split_and!; [done| |done]. intros t. rewrite !find_administrator_spec. apply Ha.
Qed.

(** ** Everything that commits *)

Context (uuid4 : nat → uuid) (hash casefold : pystr → pystr) (max_per_user : nat).

(** What operations of identity, on keys and on roles make of a store, one after the other at one instant; a
    deactivation with whatever such operations commit between its first scan and its locks.  Purges of memberships and
    of roles are among them if [purging]. *)
Inductive commits (purging : bool) : identity_store → identity_store → Prop :=
| commits_none st : commits purging st st
| commits_run st st' cmd : commits purging st st' → (purging = false → removes_members cmd = false) →
    commits purging st (irun uuid4 hash casefold max_per_user now cmd st').2
| commits_deactivate st st' between ceiling u c reason : commits purging st st' → (∀ n x, commits purging x (between n x)) →
    commits purging st (deactivate_user now between ceiling u c reason st').2.

#[local] Instance fit_preorder : PreOrder (upholds (fit cfg)).
Proof. apply _. Qed.
Lemma commits_fit purging st st' : commits purging st st' → fit cfg st → fit cfg st'.
Proof.
  induction 1 as [|st st' cmd _ IH _|st st' between ceiling u c reason _ IH _ IHb]; [done|intros H; by apply irun_fit, IH|].
  intros H. refine (deactivate_rel (upholds (fit cfg)) _ between ceiling u c reason IHb st' (IH H)).
  intros x x' [Hs _] Hx. by apply Hs.
Qed.
Lemma commits_safe st st' : commits false st st' → isafe cfg now st st'.
Proof.
  induction 1 as [|st st' cmd _ IH Hcmd|st st' between ceiling u c reason _ IH _ IHb]; [reflexivity|etrans; [exact IH|]..].
  - by apply irun_safe, Hcmd.
  - refine (deactivate_rel (isafe cfg now) _ between ceiling u c reason IHb st'). by intros x x' [Hs _].
Qed.

(** C23: identity never takes a tenant's last administrator.  After any sequence of
    operations of identity, on keys and on roles, accepted or refused, the
    deactivation of people among them with whatever commits while it scans, the
    rows of authorization are consistent, through the purges as well; and the
    purges of memberships and of roles apart, every tenant that had an administrator
    has one. *)
Theorem identity_keeps_administrators (purging : bool) (st st' : identity_store) :
  fit cfg st → commits purging st st' →
  fit cfg st' ∧
  (purging = false → ∀ t,
     is_Some (find_administrator st.(is_rbac).(rs_rows) now st.(is_tenancy) t None None) →
     is_Some (find_administrator st'.(is_rbac).(rs_rows) now st'.(is_tenancy) t None None)).
Proof.
  intros Hst Hc. split; [by eapply commits_fit|]. intros -> t. rewrite !find_administrator_spec. by apply commits_safe.
Qed.
End Deactivation.
