(* ===== verification/IdentityDemo.v ===== *)
(** * A deployment of identity

    Ann (1) operates the installation, and both she and Bob (2) are members of
    acme (2000), which both administer; Bob has a session and a key.  The theorems
    on identity applied to it. *)

From S2P Require Import Prelude StoreLogic PyStr TenantLifecycle PlatformAuthority PlatformService PlatformProofs PlatformSafety TenantHierarchy HierarchyProofs HierarchySafety HierarchyReads RbacDecision RbacProofs RbacAdministrators RbacService RbacIntegrity RbacAuthority RbacGuard Identity ApiKeys UserAuthority IdentityProofs IdentityHistory IdentitySafety KeyLimit IdentityGuard.

Definition idemo_bootstrap : pcommand :=
  mkPCommand (SystemCaller PLATFORM_BOOTSTRAP) pdemo_reason 5
    (PBootstrap (ByIdentity "idp" "ann") [P_AUTHORITY_MANAGE; P_USER_DEACTIVATE; P_USER_REACTIVATE]).
Definition idemo_registry : tenancy_store := set_platform (pexec pdemo_uuid idemo_bootstrap pdemo_start) hdemo.
Definition idemo_start : identity_store := mkIdentity idemo_registry (no_authority ∅ ∅) ∅ ∅ ∅ ∅ ∅.
Definition digest (s : pystr) : pystr := lit "sha256:" ++ s.
Abbreviation idemo_run := (irun gdemo_uuid digest id 3 10).

Definition idemo_setup : list icommand :=
  [IAddMembership 2000 1 prov; IAddMembership 2000 2 prov;
   IAdminister (RRegister "membership_role" "create"); IAdminister (RRegister "membership" "suspend");
   IAdminister (RRegister "invitation" "create"); IAdminister (RCreateRole 2000 (lit "admin") prov);
   IAdminister (RGrant 2000 5005 5002 prov); IAdminister (RGrant 2000 5005 5003 prov); IAdminister (RGrant 2000 5005 5004 prov);
   IAdminister (RAssignFirst 2000 5000 5005 SUBTREE prov); IAdminister (RAssignFirst 2000 5001 5005 SUBTREE prov);
   IIssueSession 2 (lit "bob's session") 100 None false None;
   KCreate 2000 (lit "laptop") (lit "bob's key") (UserCaller 2) None;
   ICreateInvitation 2000 (lit "eve@example.org") (lit "invited") (UserCaller 1) None;
   IBeginLogin (lit "state") (lit "nonce") (lit "verifier") 100].
Definition idemo : identity_store := foldl (λ st cmd, (idemo_run cmd st).2) idemo_start idemo_setup.

Lemma gdemo_uuid_inj : Inj (=) (=) gdemo_uuid.
Proof. intros a b. unfold gdemo_uuid. lia. Defined.
Lemma idemo_empty : no_identity_rows idemo_start.
Proof. vm_compute. split_and!; reflexivity. Defined.
Lemma run_all_history cmds st : history gdemo_uuid digest id 3 st (foldl (λ st cmd, (idemo_run cmd st).2) st cmds).
Proof. revert st. induction cmds as [|cmd cmds IH]; intros st; simpl; [apply h_refl|]. eapply h_trans; [apply h_run|apply IH]. Defined.
Lemma idemo_history : history gdemo_uuid digest id 3 idemo_start idemo.
Proof. apply run_all_history. Defined.
Lemma start_fit cfg p s rb : hwf cfg s.(ts_tenants) s.(ts_ancestry) → sound rb → fit cfg (mkIdentity (set_platform p s) rb ∅ ∅ ∅ ∅ ∅).
Proof. by split. Defined.
Lemma idemo_fit : fit hdemo_cfg idemo.
Proof.
  assert (∀ cmds st, fit hdemo_cfg st → fit hdemo_cfg (foldl (λ st cmd, (idemo_run cmd st).2) st cmds)) as H.
  { induction cmds as [|cmd cmds IH]; intros st Hst; [done|]. simpl. apply IH. by apply irun_fit. }
  apply (H idemo_setup idemo_start). apply start_fit; [exact hdemo_hwf|by split].
Defined.

(** Bob's key works, and after its revocation and a cleanup it does not. *)
Lemma credential_revocation_final_witness :
  (validate_api_key digest 11 (lit "bob's key") idemo).1 = Ok (5012%N, mkApiKey 2000 (Some 2%N) None (lit "laptop") (digest (lit "bob's key")) 10 None None) ∧
  ∀ k, (validate_api_key digest 13 (lit "bob's key")
          (idemo_run IPurgeLogins (revoke_api_key gdemo_uuid 12 2000 5012 (UserCaller 2) idemo).2).2).1 ≠ Ok (5012%N, k).
Proof.
  split; [vm_compute; reflexivity|].
  apply (credential_revocation_final gdemo_uuid digest id 3 gdemo_uuid_inj idemo_start idemo
    (revoke_api_key gdemo_uuid 12 2000 5012 (UserCaller 2) idemo).2 _ 12 13 5012 (lit "bob's key")).
  - exact idemo_empty.
  - exact idemo_history.
  - apply h_run.
  - apply (revoked_by_owner _ _ _ _ _ _ 2000 (UserCaller 2)). vm_compute. reflexivity.
Defined.

Definition idemo_deactivated : identity_store := (deactivate_user 20 (λ _ st, st) 100 2 (UserCaller 1) pdemo_reason idemo).2.
Definition idemo_reactivated : identity_store := (idemo_run (UReactivate 2 (UserCaller 1) pdemo_reason) idemo_deactivated).2.

(** Bob is deactivated and later reactivated: his session stays dead. *)
Lemma deactivation_ends_credentials_witness :
  is_active_user idemo_reactivated.(is_tenancy).(ts_platform) 2 = true ∧
  ∀ r, (validate_session digest 21 (lit "bob's session") idemo_reactivated).1 ≠ Ok (5011%N, r).
Proof.
  split; [vm_compute; reflexivity|].
  refine (proj1 (deactivation_ends_credentials gdemo_uuid digest id 3 gdemo_uuid_inj idemo_start idemo idemo_deactivated idemo_reactivated
    2 21 (lit "bob's session") idemo_empty idemo_history _ _) 5011%N _ _ _).
  - apply (by_deactivation _ _ _ _ _ _ _ 20 (λ _ st, st) 100 (UserCaller 1) pdemo_reason (1%nat, 1%nat)); [intros n st; apply h_refl|].
    vm_compute. reflexivity.
  - apply h_run.
  - vm_compute. reflexivity.
  - reflexivity.
Defined.

Lemma used_once_witness :
  (consume_login_transaction 12 5014 (lit "state") idemo).1 = Ok (lit "nonce", lit "verifier") ∧
  (consume_login_transaction 13 5014 (lit "state") (consume_login_transaction 12 5014 (lit "state") idemo).2).1 = Raise LoginTransactionInvalidError.
Proof.
  split; [vm_compute; reflexivity|].
  refine (proj2 (used_once gdemo_uuid digest id 3 gdemo_uuid_inj idemo_start idemo (consume_login_transaction 12 5014 (lit "state") idemo).2
    (consume_login_transaction 12 5014 (lit "state") idemo).2 12 13 idemo_empty idemo_history _) 5014%N (lit "state") (Ok (lit "nonce", lit "verifier")) _ _ _ _).
  - apply h_refl.
  - vm_compute. by eexists.
  - done.
  - vm_compute. reflexivity.
Defined.

Lemma key_limit_respected_witness : length (unrevoked_keys idemo 2) = 1%nat ∧ (length (unrevoked_keys idemo 2) ≤ 3)%nat.
Proof.
  split; [vm_compute; reflexivity|]. exact (key_limit_respected gdemo_uuid digest id 3 idemo_start idemo 2 idemo_empty idemo_history).
Defined.

Lemma cleanup_exact_witness :
  ∃ res, cleanup_expired_sessions 1000 (mkSessionRetention 5 10) ∅ idemo =
    (Ok res, put_sessions (filter (λ p : uuid * Session, p.1 ∈ (∅ : gset uuid) ∨
       (expired 1000 p.2 = false ∧ revoked_before (1000 - 5 * 1000000) p.2 = false)) idemo.(is_sessions)) idemo).
Proof.
  destruct (cleanup_exact 1000 (mkSessionRetention 5 10) ∅ idemo) as (res & H & _).
  - simpl. lia.
  - assert (size idemo.(is_sessions) = 1%nat) as -> by (vm_compute; reflexivity). unfold MAX_BATCHES_PER_PHASE. simpl sc_cleanup_batch_size. lia.
  - exists res. exact H.
Defined.

(** Ann deactivates Bob; while his memberships are scanned, Bob suspends hers: he
    is not deactivated. *)
Definition bob_suspends (n : nat) (st : identity_store) : identity_store := (idemo_run (ISuspendMembership 2000 5000 (UserCaller 2)) st).2.
Definition idemo_duel : result identity_error (nat * nat) * identity_store := deactivate_user 10 bob_suspends 100 2 (UserCaller 1) pdemo_reason idemo.
Lemma identity_keeps_administrators_witness :
  idemo_duel.1 = Raise (IRbac (LastTenantAdministratorError 2000)) ∧
  membership_by_id idemo_duel.2 2000 5000 = Some (1%N, mkMembership 5000 M_SUSPENDED 10) ∧
  is_Some (find_administrator idemo_duel.2.(is_rbac).(rs_rows) 10 idemo_duel.2.(is_tenancy) 2000 None None).
Proof.
  split; [vm_compute; reflexivity|]. split; [vm_compute; reflexivity|].
  refine (proj2 (identity_keeps_administrators hdemo_cfg 10 gdemo_uuid digest id 3 false idemo idemo_duel.2 idemo_fit _) eq_refl 2000%N _).
  - apply commits_deactivate; [apply commits_none|]. intros n st. apply commits_run; [apply commits_none|reflexivity].
  - vm_compute. by eexists.
Defined.
Lemma deactivation_keeps_control_witness :
  platform_owner_exists (deactivate_user 10 (λ _ st, st) 100 2 (UserCaller 1) pdemo_reason idemo).2.(is_tenancy).(ts_platform) = true.
Proof.
  apply (deactivation_keeps_control hdemo_cfg 10 (λ _ st, st) 100 2 (UserCaller 1) pdemo_reason idemo idemo_fit).
  - intros n st. by split.
  - vm_compute. reflexivity.
Defined.

(** ** A purge that another tenant blocks *)

Definition globex (status : TenantStatus) (s : tenancy_store) : tenancy_store :=
  match s.(ts_tenants) !! 2002%N with Some t => set_tenant 2002 (with_status status t) s | None => s end.
Definition in_registry (f : tenancy_store → tenancy_store) (st : identity_store) : identity_store := put_tenancy (f st.(is_tenancy)) st.

(** Globex (2002) has a service account (5015); Ann delegates to it, at acme. *)
Definition idemo_delegated : identity_store :=
  let st := in_registry (globex ACTIVE) idemo in
  let st := foldl (λ st cmd, (idemo_run cmd st).2) st
    [ICreateAccount 2002 (lit "bot") prov; IAdminister (RRegister "delegation_grant" "create"); IAdminister (RGrant 2000 5005 5016 prov);
     IAdminister (RDelegateSA (UserCaller 1) 5015 2002 2000 SELF 5003 None None)] in
  in_registry (globex PURGING) st.

(** The purge of a tenant is blocked by a delegation of another tenant to one
    of its service accounts.  The account is not retained, since only the
    delegations of the purged tenant itself are looked at, and its deletion
    violates the foreign key of the other tenant's row: after the authorization
    rows of the tenant were purged, the accounts cannot be; and the same after
    the other tenant revoked the delegation, whose row stays. *)
Theorem purge_blocked_by_other_tenant :
  let purge st := (purge_tenant_service_accounts 2002 ∅ ∅ (idemo_run (IAdminister (RPurge 2002 ∅)) st).2).1 in
  (idemo_run (IAdminister (RPurge 2002 ∅)) idemo_delegated).1 = Ok tt ∧
  purge idemo_delegated = Raise IIntegrityError ∧
  (let revoked := idemo_run (IAdminister (RRevokeDelegation (UserCaller 1) 2000 5018)) idemo_delegated in
   revoked.1 = Ok tt ∧ purge revoked.2 = Raise IIntegrityError) ∧
  purge (in_registry (globex PURGING) (idemo_run (ICreateAccount 2002 (lit "bot") prov) (in_registry (globex ACTIVE) idemo)).2) =
    Ok (1%nat, ∅).
Proof. vm_compute. split_and!; reflexivity. Qed.
