(* ===== verification/Idempotency.v ===== *)
(** * Idempotency keys (saas_os/core/idempotency)

    A record per [(tenant_id, operation, idempotency_key)] remembers what became
    of a client's operation.  [run_idempotent] makes the record and the
    operation's own writes in one transaction; [begin_idempotent_operation] and
    [finalize_idempotent_operation] bracket an external call, so a call of
    [begin_idempotent_operation] is up to three transactions, which other calls
    interleave with ([begin_step]).

    [B] is the rest of the database, which the operation's own writes change,
    [J] the type of stored results, [P] of request payloads and [E] of the
    operation's own errors.  The digest of a payload is a parameter. *)

From S2P Require Import Prelude PyStr TenantLifecycle.

(** ** config.py, models.py, errors.py *)

Record IdempotencyConfig : Type := mkIdemConfig {
  retention_seconds : Z;
  pending_ttl_seconds : Z;
}.
(** [__post_init__] *)
Definition valid_idempotency_config (cfg : IdempotencyConfig) : bool :=
  negb (retention_seconds cfg <? 1) && negb (pending_ttl_seconds cfg <? 1).
Definition default_idempotency_config : IdempotencyConfig := mkIdemConfig 86400 30.

Inductive IdempotencyStatus : Type := IDEM_PENDING | IDEM_SUCCEEDED | IDEM_FAILED.
#[export] Instance IdempotencyStatus_eq_dec : EqDecision IdempotencyStatus.
Proof. solve_decision. Defined.

Record IdempotencyRecord {J : Type} : Type := mkIdem {
  ir_tenant_id : uuid;
  ir_operation : pystr;
  ir_key : pystr;
  ir_fingerprint : pystr;
  ir_status : IdempotencyStatus;
  ir_result : option J;
  ir_expires_at : datetime;
  ir_updated_at : datetime;
}.
Arguments IdempotencyRecord : clear implicits.
Arguments mkIdem {J} _ _ _ _ _ _ _ _.
#[export] Instance IdempotencyRecord_eq_dec {J : Type} `{!EqDecision J} : EqDecision (IdempotencyRecord J).
Proof. solve_decision. Defined.

Record idem_store {B J : Type} : Type := mkIdemStore {
  is_tenants : gmap uuid Tenant;
  is_records : gmap uuid (IdempotencyRecord J);
  is_rest : B;
  is_drawn : nat;
}.
Arguments idem_store : clear implicits.
Arguments mkIdemStore {B J} _ _ _ _.
#[export] Instance idem_store_tenants {B J : Type} : HasTenants (idem_store B J) := is_tenants.

Inductive idem_error {E : Type} : Type :=
| IdempotencyKeyInvalidError (message : string)
| IdempotencyKeyReusedError (tenant_id : uuid) (operation idempotency_key : pystr)
| IdempotencyInProgressError (tenant_id : uuid) (operation idempotency_key : pystr)
| ITenant (e : tenant_error)
| IIntegrityError                       (* a unique or foreign key of the database *)
| INoResultFound                        (* [scalar_one()] of nothing *)
| IMultipleResultsFound                 (* [scalar_one()] of more than one row *)
| IAssertionError
| IBusiness (e : E).
Arguments idem_error : clear implicits.

(** ** service.py: validation *)

Definition MAX_KEY_LENGTH : nat := 200.
Definition MAX_OPERATION_LENGTH : nat := 100.

(** [[A-Za-z0-9._~-]] *)
Definition is_safe (c : N) : bool :=
  ((65 <=? c) && (c <=? 90) || (97 <=? c) && (c <=? 122) || (48 <=? c) && (c <=? 57) ||
   (c =? 46) || (c =? 95) || (c =? 126) || (c =? 45))%N.
(** [_SAFE_KEY_PATTERN.match] *)
Definition matches_safe_key (s : pystr) : bool :=
  let w := chomp s in
  bool_decide (1 ≤ length w ≤ 200)%nat && forallb is_safe w.

Section Validation.
Context {E : Type}.
Definition validate_idempotency_key (key : pystr) : result (idem_error E) unit :=
  if bool_decide (key = []) then Raise (IdempotencyKeyInvalidError "Idempotency key must not be empty.")
  else if bool_decide (MAX_KEY_LENGTH < length key)%nat
  then Raise (IdempotencyKeyInvalidError "Idempotency key exceeds 200 characters.")
  else if negb (matches_safe_key key)
  then Raise (IdempotencyKeyInvalidError "Idempotency key contains characters outside the safe set.")
  else Ok tt.

Definition validate_operation (operation : pystr) : result (idem_error E) unit :=
  if bool_decide (operation = []) || bool_decide (MAX_OPERATION_LENGTH < length operation)%nat
  then Raise (IdempotencyKeyInvalidError "operation must be a non-empty string of at most 100 characters.")
  else Ok tt.
End Validation.

(** ** service.py: the primitives *)

Record IdempotencyReservation {J : Type} : Type := mkReservation {
  is_replay : bool;
  res_result : option J;
  record_id : uuid;
}.
Arguments IdempotencyReservation : clear implicits.
Arguments mkReservation {J} _ _ _.

(** One request: the arguments of a call and the time it reads. *)
Record request {P : Type} : Type := mkRequest {
  rq_tenant_id : uuid;
  rq_operation : pystr;
  rq_key : pystr;
  rq_payload : P;
  rq_now : datetime;
}.
Arguments request : clear implicits.
Arguments mkRequest {P} _ _ _ _ _.

Section Primitives.
Context {B J P E : Type} `{!EqDecision J} (empty_dict : J).
Context (compute_fingerprint : P → pystr) (uuid4 : nat → uuid) (cfg : IdempotencyConfig).

Abbreviation store := (idem_store B J).
Abbreviation IM := (M store (idem_error E)).

Definition set_records (m : gmap uuid (IdempotencyRecord J)) (s : store) : store :=
  mkIdemStore s.(is_tenants) m s.(is_rest) s.(is_drawn).
Definition set_rest (b : B) (s : store) : store := mkIdemStore s.(is_tenants) s.(is_records) b s.(is_drawn).
Definition idraw (s : store) : store := mkIdemStore s.(is_tenants) s.(is_records) s.(is_rest) (S s.(is_drawn)).

Definition expires_at (now : datetime) : datetime := now + 1000000 * retention_seconds cfg.

Definition in_scope (t : uuid) (op key : pystr) (r : IdempotencyRecord J) : Prop :=
  r.(ir_tenant_id) = t ∧ r.(ir_operation) = op ∧ r.(ir_key) = key.

(** The rows [WHERE tenant_id = ... AND operation = ... AND idempotency_key = ...]. *)
Definition scope_rows (s : store) (t : uuid) (op key : pystr) : list (uuid * IdempotencyRecord J) :=
  filter (λ p : uuid * IdempotencyRecord J,
            p.2.(ir_tenant_id) = t ∧ p.2.(ir_operation) = op ∧ p.2.(ir_key) = key)
    (map_to_list s.(is_records)).

(** [UPDATE]: only if something changed; [onupdate=now()]. *)
Definition update_record (dbnow : datetime) (id : uuid) (old new : IdempotencyRecord J) (s : store) : store :=
  if decide (old = new) then s
  else set_records (<[id := mkIdem new.(ir_tenant_id) new.(ir_operation) new.(ir_key) new.(ir_fingerprint)
                              new.(ir_status) new.(ir_result) new.(ir_expires_at) dbnow]> s.(is_records)) s.

Definition with_outcome (status : IdempotencyStatus) (result : option J) (r : IdempotencyRecord J) :=
  mkIdem r.(ir_tenant_id) r.(ir_operation) r.(ir_key) r.(ir_fingerprint) status result r.(ir_expires_at) r.(ir_updated_at).
Definition with_pending (expires : datetime) (r : IdempotencyRecord J) :=
  mkIdem r.(ir_tenant_id) r.(ir_operation) r.(ir_key) r.(ir_fingerprint) IDEM_PENDING r.(ir_result) expires r.(ir_updated_at).

(** The reservation [INSERT]: the unique constraint on the scope, the primary
    key and the foreign key to the tenant. *)
Definition reserve (dbnow : datetime) (q : request P) : IM uuid :=
  λ s,
    let id := uuid4 s.(is_drawn) in
    if bool_decide (scope_rows s q.(rq_tenant_id) q.(rq_operation) q.(rq_key) ≠ []) ||
       bool_decide (is_Some (s.(is_records) !! id)) || bool_decide (s.(is_tenants) !! q.(rq_tenant_id) = None)
    then (Raise IIntegrityError, idraw s)
    else (Ok id, set_records (<[id := mkIdem q.(rq_tenant_id) q.(rq_operation) q.(rq_key)
                                        (compute_fingerprint q.(rq_payload)) IDEM_PENDING None
                                        (expires_at q.(rq_now)) dbnow]> s.(is_records)) (idraw s)).

(** [session.get(IdempotencyRecord, id)] in the tenant's scope. *)
Definition get_record (s : store) (t id : uuid) : option (IdempotencyRecord J) :=
  match s.(is_records) !! id with
  | Some r => if bool_decide (r.(ir_tenant_id) = t) then Some r else None
  | None => None
  end.

(** [scalar_one()] *)
Definition existing_record (s : store) (q : request P) : result (idem_error E) (uuid * IdempotencyRecord J) :=
  match scope_rows s q.(rq_tenant_id) q.(rq_operation) q.(rq_key) with
  | [] => Raise INoResultFound
  | [p] => Ok p
  | _ => Raise IMultipleResultsFound
  end.

Definition reused (q : request P) : idem_error E :=
  IdempotencyKeyReusedError q.(rq_tenant_id) q.(rq_operation) q.(rq_key).
Definition in_progress (q : request P) : idem_error E :=
  IdempotencyInProgressError q.(rq_tenant_id) q.(rq_operation) q.(rq_key).

(** [_resolve_existing] *)
Definition resolve_existing (q : request P) : IM (bool * J) :=
  λ s,
    (let* p := existing_record s q in
     if negb (bool_decide (p.2.(ir_fingerprint) = compute_fingerprint q.(rq_payload))) then Raise (reused q)
     else match p.2.(ir_status) with
          | IDEM_SUCCEEDED => Ok (true, default empty_dict p.2.(ir_result))
          | _ => Raise (in_progress q)
          end, s).

Definition check_request (q : request P) : IM unit :=
  λ s,
    (let* _ := validate_operation q.(rq_operation) in
     let* _ := validate_idempotency_key q.(rq_key) in
     match require_open_tenant s q.(rq_tenant_id) with Ok _ => Ok tt | Raise e => Raise (ITenant e) end, s).

(** The operation's own writes, on the same session. *)
Definition on_rest (business_fn : M B (idem_error E) J) : IM J :=
  λ s, match business_fn s.(is_rest) with (r, b) => (r, set_rest b s) end.

Definition succeed (dbnow : datetime) (id : uuid) (result : J) : IM unit :=
  λ s, match s.(is_records) !! id with
       | Some r => (Ok tt, update_record dbnow id r (with_outcome IDEM_SUCCEEDED (Some result) r) s)
       | None => (Raise IAssertionError, s)
       end.

Definition run_idempotent (dbnow : datetime) (q : request P) (business_fn : M B (idem_error E) J) : IM (bool * J) :=
  do* _ := check_request q in
  λ s,
    match transaction
            (do* id := reserve dbnow q in
             do* result := on_rest business_fn in
             do* _ := succeed dbnow id result in
             ret (false, result)) s with
    | (Raise IIntegrityError, s') => resolve_existing q s'
    | other => other
    end.

(** *** The two-step primitive *)

(** The read after a refused reservation: an answer, or the record to reset. *)
Definition look_up (q : request P) : IM (IdempotencyReservation J + uuid) :=
  λ s,
    (let* p := existing_record s q in
     let '(id, r) := p in
     if negb (bool_decide (r.(ir_fingerprint) = compute_fingerprint q.(rq_payload))) then Raise (reused q)
     else match r.(ir_status) with
          | IDEM_SUCCEEDED => Ok (inl (mkReservation true (Some (default empty_dict r.(ir_result))) id))
          | IDEM_PENDING =>
              if q.(rq_now) - r.(ir_updated_at) <? 1000000 * pending_ttl_seconds cfg
              then Raise (in_progress q) else Ok (inr id)
          | IDEM_FAILED => Ok (inr id)
          end, s).

Definition reset (dbnow : datetime) (q : request P) (id : uuid) : IM (IdempotencyReservation J) :=
  λ s,
    match get_record s q.(rq_tenant_id) id with
    | None => (Raise IAssertionError, s)
    | Some r => (Ok (mkReservation false None id), update_record dbnow id r (with_pending (expires_at q.(rq_now)) r) s)
    end.

Definition begin_idempotent_operation (dbnow : datetime) (q : request P) : IM (IdempotencyReservation J) :=
  do* _ := check_request q in
  λ s,
    match transaction (reserve dbnow q) s with
    | (Ok id, s') => (Ok (mkReservation false None id), s')
    | (Raise IIntegrityError, s') =>
        (do* found := look_up q in
         match found with
         | inl reservation => ret reservation
         | inr id => reset dbnow q id
         end) s'
    | (Raise e, s') => (Raise e, s')
    end.

Definition finalize_idempotent_operation (dbnow : datetime) (t id : uuid) (status : IdempotencyStatus)
    (result : option J) : IM unit :=
  λ s,
    match get_record s t id with
    | None => (Ok tt, s)
    | Some r => (Ok tt, update_record dbnow id r (with_outcome status result r) s)
    end.

(** *** Retention *)

Definition delete_records (doomed : IdempotencyRecord J → bool) (s : store) : Z * store :=
  let victims := filter (λ p : uuid * IdempotencyRecord J, doomed p.2 = true) (map_to_list s.(is_records)) in
  (Z.of_nat (length victims),
   set_records (filter (λ p : uuid * IdempotencyRecord J, doomed p.2 = false) s.(is_records)) s).

Definition purge_expired_idempotency_records (t : uuid) (now : datetime) : IM Z :=
  λ s, let '(n, s') := delete_records (λ r, bool_decide (r.(ir_tenant_id) = t) && (r.(ir_expires_at) <? now)) s in
       (Ok n, s').

Definition purge_tenant_idempotency_records (t : uuid) : IM Z :=
  λ s,
    match require_purging_tenant s t with
    | Raise e => (Raise (ITenant e), s)
    | Ok _ => let '(n, s') := delete_records (λ r, bool_decide (r.(ir_tenant_id) = t)) s in (Ok n, s')
    end.

(** ** Interleaving

    A call of [begin_idempotent_operation] in progress, transaction by
    transaction. *)
Inductive phase : Type :=
| Starting | Reserving | LookingUp | Resetting (id : uuid)
| Finished (r : result (idem_error E) (IdempotencyReservation J)).

Definition begin_step (dbnow : datetime) (q : request P) (p : phase) (s : store) : phase * store :=
  match p with
  | Starting =>
      match check_request q s with
      | (Ok _, s') => (Reserving, s')
      | (Raise e, s') => (Finished (Raise e), s')
      end
  | Reserving =>
      match transaction (reserve dbnow q) s with
      | (Ok id, s') => (Finished (Ok (mkReservation false None id)), s')
      | (Raise IIntegrityError, s') => (LookingUp, s')
      | (Raise e, s') => (Finished (Raise e), s')
      end
  | LookingUp =>
      match look_up q s with
      | (Ok (inl reservation), s') => (Finished (Ok reservation), s')
      | (Ok (inr id), s') => (Resetting id, s')
      | (Raise e, s') => (Finished (Raise e), s')
      end
  | Resetting id => let '(r, s') := reset dbnow q id s in (Finished r, s')
  | Finished r => (Finished r, s)
  end.

(** Calls in progress, and a schedule of whose transaction runs next, with the
    time of the transaction. *)
Abbreviation pool := (list (request P * phase)).
Definition pool_step (t : nat * datetime) (ps : pool * store) : pool * store :=
  match ps.1 !! t.1 with
  | Some (q, p) => let '(p', s') := begin_step t.2 q p ps.2 in (<[t.1 := (q, p')]> ps.1, s')
  | None => ps
  end.
Definition interleave (schedule : list (nat * datetime)) (ps : pool * store) : pool * store :=
  foldl (λ ps t, pool_step t ps) ps schedule.

(** The calls that were told to go ahead. *)
Definition goes_ahead (p : phase) : bool :=
  match p with Finished (Ok r) => negb (is_replay r) | _ => false end.
Definition holders (ps : pool) : nat := length (filter (λ p : request P * phase, goes_ahead p.2 = true) ps).
End Primitives.
