(* ===== verification/IdempotencyProofs.v ===== *)
(** * What idempotency keys guarantee

    Over every history: an operation that ran under a key never runs again under
    it, its answer is replayed, and another request under the key is refused.
    Under every interleaving of concurrent calls: a new key is given to one
    caller.  And where that ends: a key whose last attempt failed is given to
    every caller that reads it before the first reset commits. *)

From S2P Require Import Prelude PyStr TenantLifecycle Idempotency.

(** ** Lists *)

Lemma singleton_list {A} (l : list A) x : NoDup l → x ∈ l → (∀ y, y ∈ l → y = x) → l = [x].
Proof.
  intros Hnd Hin Hall. destruct l as [|a [|b l]]; [by apply elem_of_nil in Hin|by rewrite (Hall a) by left|].
  apply NoDup_cons in Hnd as [Hnot _]. destruct Hnot. rewrite (Hall a) by left. rewrite (Hall b) by (right; left). left.
Qed.

Lemma length_filter_insert {A} (Q : A → Prop) `{∀ x, Decision (Q x)} l i x y : l !! i = Some y →
  (length (filter Q (<[i := x]> l)) + (if decide (Q y) then 1 else 0) =
   length (filter Q l) + (if decide (Q x) then 1 else 0))%nat.
Proof.
  revert i. induction l as [|a l IH]; intros [|i] Hi; simplify_eq/=.
  - rewrite !filter_cons. repeat case_decide; simpl; lia.
  - rewrite !filter_cons. specialize (IH i Hi). repeat case_decide; simpl; lia.
Qed.

(** Scopes are equalities of three columns. *)
Ltac solve_scope := unfold in_scope in *; simpl in *; destruct_and?; split_and?; congruence.

Section Guarantees.
Context {B J P E : Type} `{!EqDecision J} (empty_dict : J).
Context (compute_fingerprint : P → pystr) (uuid4 : nat → uuid) (cfg : IdempotencyConfig).

Abbreviation store := (idem_store B J).
Abbreviation run := (run_idempotent (E := E) empty_dict compute_fingerprint uuid4 cfg).
Abbreviation begin := (begin_idempotent_operation (E := E) empty_dict compute_fingerprint uuid4 cfg).

(** ** The unique constraint *)

Definition iwf (s : store) : Prop := ∀ i j r r', s.(is_records) !! i = Some r → s.(is_records) !! j = Some r' →
  in_scope r.(ir_tenant_id) r.(ir_operation) r.(ir_key) r' → i = j.

Lemma elem_of_scope_rows (s : store) t op k i r :
  (i, r) ∈ scope_rows s t op k ↔ s.(is_records) !! i = Some r ∧ in_scope t op k r.
Proof. unfold scope_rows. rewrite list_elem_of_filter, elem_of_map_to_list. simpl. unfold in_scope. naive_solver. Qed.

Lemma scope_rows_one (s : store) t op k i r : iwf s →
  s.(is_records) !! i = Some r → in_scope t op k r → scope_rows s t op k = [(i, r)].
Proof.
  intros Hwf Hi Hs. apply singleton_list.
  - apply NoDup_filter, NoDup_map_to_list.
  - by apply elem_of_scope_rows.
  - intros [j r'] [Hj Hs']%elem_of_scope_rows. assert (i = j) as <-; [|congruence].
    eapply Hwf; [exact Hi|exact Hj|]. solve_scope.
Qed.

Lemma scope_rows_nil (s : store) t op k i r : scope_rows s t op k = [] →
  s.(is_records) !! i = Some r → ¬ in_scope t op k r.
Proof.
  intros Hnil Hi Hs. assert ((i, r) ∈ scope_rows s t op k) as Hin by (by apply elem_of_scope_rows).
  rewrite Hnil in Hin. by apply elem_of_nil in Hin.
Qed.

(** A change of one record that keeps its scope. *)
Lemma iwf_update (s : store) dbnow i r r' : iwf s → s.(is_records) !! i = Some r →
  in_scope r.(ir_tenant_id) r.(ir_operation) r.(ir_key) r' → iwf (update_record dbnow i r r' s).
Proof.
  intros Hwf Hi Hs. unfold update_record. case_decide; [done|]. intros a b x y Ha Hb Hxy. simpl in *.
  apply lookup_insert_Some in Ha as [[<- <-]|[Hne Ha]]; apply lookup_insert_Some in Hb as [[<- <-]|[Hne' Hb]];
    try done.
  - eapply Hwf; [exact Hi|exact Hb|]. solve_scope.
  - symmetry. eapply (Hwf i a); [exact Hi|exact Ha|]. solve_scope.
  - by eapply Hwf.
Qed.

Lemma reserve_cases dbnow (q : request P) (s : store) :
  (∃ s', reserve (E := E) compute_fingerprint uuid4 cfg dbnow q s = (Raise IIntegrityError, s')) ∨
  scope_rows s q.(rq_tenant_id) q.(rq_operation) q.(rq_key) = [] ∧
  s.(is_records) !! uuid4 s.(is_drawn) = None ∧
  reserve (E := E) compute_fingerprint uuid4 cfg dbnow q s =
    (Ok (uuid4 s.(is_drawn)),
     set_records (<[uuid4 s.(is_drawn) :=
       mkIdem q.(rq_tenant_id) q.(rq_operation) q.(rq_key) (compute_fingerprint q.(rq_payload)) IDEM_PENDING None
         (expires_at cfg q.(rq_now)) dbnow]> s.(is_records)) (idraw s)).
Proof.
  unfold reserve. destruct (_ || _)%bool eqn:Eb; [left; by eexists|right].
  reflect_bools. split_and!; try done.
  - by apply dec_stable.
  - by apply eq_None_not_Some.
Qed.

Lemma iwf_insert (s : store) id r : iwf s →
  scope_rows s r.(ir_tenant_id) r.(ir_operation) r.(ir_key) = [] → iwf (set_records (<[id := r]> s.(is_records)) (idraw s)).
Proof.
  intros Hwf Hnil a b x y Ha Hb Hxy. simpl in *.
  apply lookup_insert_Some in Ha as [[<- <-]|[Hne Ha]]; apply lookup_insert_Some in Hb as [[<- <-]|[Hne' Hb]]; try done.
  - by destruct (scope_rows_nil _ _ _ _ _ _ Hnil Hb).
  - destruct (scope_rows_nil _ _ _ _ _ _ Hnil Ha). solve_scope.
  - by eapply Hwf.
Qed.

Lemma iwf_rest (s : store) b : iwf (set_rest b s) ↔ iwf s.
Proof. done. Qed.

(** ** One run *)

(** A run that executes: what it leaves. *)
Lemma run_executes dbnow q f (s s' : store) r : run dbnow q f s = (Ok (false, r), s') →
  ∃ b, f s.(is_rest) = (Ok r, b) ∧ s.(is_records) !! uuid4 s.(is_drawn) = None ∧
    scope_rows s q.(rq_tenant_id) q.(rq_operation) q.(rq_key) = [] ∧
    s' = set_rest b (set_records (<[uuid4 s.(is_drawn) :=
       mkIdem q.(rq_tenant_id) q.(rq_operation) q.(rq_key) (compute_fingerprint q.(rq_payload)) IDEM_SUCCEEDED (Some r)
         (expires_at cfg q.(rq_now)) dbnow]> s.(is_records)) (idraw s)).
Proof.
  unfold run_idempotent, bind at 1. intros H.
  destruct (check_request q s) as [[[]|e] s1] eqn:Ec; [|done]. injection Ec as _ <-. unfold transaction, bind in H.
  destruct (reserve_cases dbnow q s) as [[s2 Hres]|(Hnil & Hfresh & Hres)]; rewrite Hres in H.
  { unfold resolve_existing, result_bind in H. destruct (existing_record s q) as [[i x]|]; [|done].
    simpl in H. destruct (negb _); [done|]. by destruct (ir_status x). }
  unfold on_rest in H. simpl in H. destruct (f (is_rest s)) as [[v|e] b] eqn:Ef.
  - unfold succeed in H. simpl in H. rewrite lookup_insert_eq in H. unfold update_record in H.
    rewrite decide_False in H by done. simpl in H. unfold ret in H. injection H as <- <-.
    exists b. split_and!; try done. unfold set_rest, set_records. simpl. f_equal. by rewrite insert_insert_eq.
  - destruct e; try done. unfold resolve_existing, result_bind, existing_record in H. rewrite Hnil in H. done.
Qed.

(** ** Histories *)

(** Committed calls, in order; [IEnv] is what other components do to the tenants
    and the rest of the database. *)
Inductive icommand : Type :=
| IRun (dbnow : datetime) (q : request P) (business_fn : M B (idem_error E) J)
| IBegin (dbnow : datetime) (q : request P)
| IFinalize (dbnow : datetime) (t id : uuid) (status : IdempotencyStatus) (result : option J)
| IPurgeExpired (t : uuid) (now : datetime)
| IPurgeTenant (t : uuid)
| IEnv (tenants : gmap uuid Tenant) (rest : B).

Definition iexec (cmd : icommand) (s : store) : store :=
  match cmd with
  | IRun dbnow q f => (run dbnow q f s).2
  | IBegin dbnow q => (begin dbnow q s).2
  | IFinalize dbnow t id st r => (finalize_idempotent_operation (E := E) dbnow t id st r s).2
  | IPurgeExpired t now => (purge_expired_idempotency_records (E := E) t now s).2
  | IPurgeTenant t => (purge_tenant_idempotency_records (E := E) t s).2
  | IEnv tenants rest => mkIdemStore tenants s.(is_records) rest s.(is_drawn)
  end.
Definition ihistory (cmds : list icommand) (s : store) : store := foldl (λ s cmd, iexec cmd s) s cmds.

(** The record is neither finalized again nor deleted. *)
Definition spares (id : uuid) (r : IdempotencyRecord J) (cmd : icommand) : Prop :=
  match cmd with
  | IFinalize _ _ i _ _ => i ≠ id
  | IPurgeExpired t now => t = r.(ir_tenant_id) → now ≤ r.(ir_expires_at)
  | IPurgeTenant t => t ≠ r.(ir_tenant_id)
  | _ => True
  end.

Lemma run_records dbnow q f (s : store) :
  (run dbnow q f s).2 = s ∨ ∃ r, (run dbnow q f s).1 = Ok (false, r).
Proof.
  destruct (run dbnow q f s) as [o s'] eqn:H. simpl. unfold run_idempotent, bind at 1 in H.
  destruct (check_request q s) as [[[]|e] s1] eqn:Ec; injection Ec as Hc <-; [|left; congruence].
  match type of H with context [transaction ?m s] => destruct (transaction m s) as [[[b v]|e] s2] eqn:Et end.
  - right. exists v. injection H as <- <-. unfold transaction, bind in Et.
    destruct (reserve _ _ _ _ _ _) as [[id|] s3]; [|done]. destruct (on_rest f s3) as [[v'|] s4]; [|done].
    destruct (succeed _ _ _ _) as [[[]|] s5]; [|done]. unfold ret in Et. by simplify_eq.
  - left. apply transaction_raise in Et as ->. destruct e; injection H; congruence.
Qed.

Lemma look_up_reset (s : store) q i :
  look_up (E := E) empty_dict compute_fingerprint cfg q s = (Ok (inr i), s) →
  ∃ x, s.(is_records) !! i = Some x ∧ in_scope q.(rq_tenant_id) q.(rq_operation) q.(rq_key) x ∧
    x.(ir_status) ≠ IDEM_SUCCEEDED.
Proof.
  intros H. unfold look_up, result_bind, existing_record in H. injection H as H.
  destruct (scope_rows _ _ _ _) as [|[j x] [|]] eqn:Er; try done.
  assert ((j, x) ∈ scope_rows s (rq_tenant_id q) (rq_operation q) (rq_key q)) as Hin by (rewrite Er; left).
  apply elem_of_scope_rows in Hin as [Hj Hsc]. destruct (negb _); [done|].
  assert (j = i ∧ ir_status x ≠ IDEM_SUCCEEDED) as [-> ?]; [|by eauto].
  destruct (ir_status x); try done; [destruct (_ <? _); [done|]|]; by injection H as ->.
Qed.

Lemma begin_cases dbnow q (s : store) :
  (begin dbnow q s).2 = s ∨
  (scope_rows s q.(rq_tenant_id) q.(rq_operation) q.(rq_key) = [] ∧ s.(is_records) !! uuid4 s.(is_drawn) = None ∧
   (begin dbnow q s).2 = set_records (<[uuid4 s.(is_drawn) :=
       mkIdem q.(rq_tenant_id) q.(rq_operation) q.(rq_key) (compute_fingerprint q.(rq_payload)) IDEM_PENDING None
         (expires_at cfg q.(rq_now)) dbnow]> s.(is_records)) (idraw s)) ∨
  ∃ i x, look_up (E := E) empty_dict compute_fingerprint cfg q s = (Ok (inr i), s) ∧ s.(is_records) !! i = Some x ∧
    (begin dbnow q s).2 = update_record dbnow i x (with_pending (expires_at cfg q.(rq_now)) x) s.
Proof.
  destruct (begin dbnow q s) as [o s'] eqn:Hb. simpl. unfold begin_idempotent_operation, bind at 1 in Hb.
  destruct (check_request q s) as [[[]|e] s1] eqn:Ec; injection Ec as _ <-; [|left; congruence].
  destruct (reserve_cases dbnow q s) as [[s2 Hres]|(Hnil & Hfresh & Hres)]; unfold transaction in Hb; rewrite Hres in Hb.
  - unfold bind in Hb. destruct (look_up _ _ _ q s) as [[[res|i]|e] s3] eqn:El;
      pose proof El as Heq; injection Heq as _ <-; [left; by injection Hb|right; right|left; congruence].
    unfold reset, get_record in Hb. destruct (is_records s !! i) as [x|] eqn:Ei.
    + exists i, x. split_and!; try done.
      destruct (bool_decide (ir_tenant_id x = rq_tenant_id q)) eqn:Et; [by injection Hb|].
      exfalso. apply look_up_reset in El as (x' & Hx & Hsc & _). reflect_bools. rewrite Ei in Hx. solve_scope.
    + exfalso. apply look_up_reset in El as (x & Hx & _ & _). congruence.
  - right; left. by injection Hb.
Qed.

(** One call keeps the constraint, and a settled record it spares. *)
Lemma iexec_settled cmd (s : store) : iwf s →
  iwf (iexec cmd s) ∧
  ∀ id r, s.(is_records) !! id = Some r → r.(ir_status) = IDEM_SUCCEEDED → spares id r cmd →
    (iexec cmd s).(is_records) !! id = Some r.
Proof.
  intros Hwf. destruct cmd as [dbnow q f|dbnow q|dbnow t i st res|t now|t|tn b]; simpl.
  - destruct (run_records dbnow q f s) as [->|[v Hv]]; [done|].
    destruct (run dbnow q f s) as [o s'] eqn:Erun. simpl in *. subst o.
    apply run_executes in Erun as (b & _ & Hfresh & Hnil & ->). split.
    + apply iwf_rest. by apply iwf_insert.
    + intros id r Hid _ _. simpl. rewrite lookup_insert_ne; [done|]. congruence.
  - destruct (begin_cases dbnow q s) as [->|[(Hnil & Hfresh & ->)|(i & x & Hl & Hi & ->)]]; [done| |].
    + split; [by apply iwf_insert|]. intros id r Hid _ _. simpl. rewrite lookup_insert_ne; [done|]. congruence.
    + split; [by apply iwf_update|]. apply look_up_reset in Hl as (x' & Hx & _ & Hst'). intros id r Hid Hst _.
      unfold update_record. case_decide; [done|]. simpl. rewrite lookup_insert_ne; [done|]. congruence.
  - unfold finalize_idempotent_operation, get_record. destruct (is_records s !! i) as [x|] eqn:Ei; [|done].
    case_bool_decide; [|done]. simpl. split; [by apply iwf_update|]. intros id r Hid _ Hne.
    unfold update_record. case_decide; [done|]. simpl. by rewrite lookup_insert_ne.
  - split.
    + intros a b x y [Ha _]%map_lookup_filter_Some [Hb _]%map_lookup_filter_Some. by apply Hwf.
    + intros id r Hid _ Hsp. apply map_lookup_filter_Some. split; [done|]. simpl.
      destruct (bool_decide (ir_tenant_id r = t)) eqn:Et; [|done]. reflect_bools. simpl. apply Z.ltb_ge. by apply Hsp.
  - unfold purge_tenant_idempotency_records. destruct (require_purging_tenant s t) as [tn|]; [|done]. split.
    + intros a b x y [Ha _]%map_lookup_filter_Some [Hb _]%map_lookup_filter_Some. by apply Hwf.
    + intros id r Hid _ Hsp. apply map_lookup_filter_Some. split; [done|]. simpl. apply bool_decide_eq_false_2. congruence.
  - done.
Qed.

Lemma ihistory_settled cmds (s : store) id r : iwf s →
  s.(is_records) !! id = Some r → r.(ir_status) = IDEM_SUCCEEDED → Forall (spares id r) cmds →
  iwf (ihistory cmds s) ∧ (ihistory cmds s).(is_records) !! id = Some r.
Proof.
  intros Hwf Hid Hst Hsp. revert s Hwf Hid. induction Hsp as [|cmd cmds Hc Hcs IH]; intros s Hwf Hid; [done|].
  destruct (iexec_settled cmd s Hwf) as [Hwf' Hid']. apply IH; [done|]. by apply Hid'.
Qed.

(** A settled record answers every later request under its key. *)
Lemma settled_answers (s : store) id r q dbnow f : iwf s →
  s.(is_records) !! id = Some r → r.(ir_status) = IDEM_SUCCEEDED →
  in_scope q.(rq_tenant_id) q.(rq_operation) q.(rq_key) r → check_request (E := E) q s = (Ok tt, s) →
  (run dbnow q f s, begin dbnow q s) =
    if bool_decide (r.(ir_fingerprint) = compute_fingerprint q.(rq_payload))
    then (Ok (true, default empty_dict r.(ir_result)), s,
          (Ok (mkReservation true (Some (default empty_dict r.(ir_result))) id), s))
    else (Raise (reused q), s, (Raise (reused q), s)).
Proof.
  intros Hwf Hid Hst Hsc Hok. pose proof (scope_rows_one s _ _ _ id r Hwf Hid Hsc) as Hrows.
  assert (∃ s', reserve (E := E) compute_fingerprint uuid4 cfg dbnow q s = (Raise IIntegrityError, s')) as [s2 Hres].
  { destruct (reserve_cases dbnow q s) as [?|[Hnil _]]; [done|]. by rewrite Hrows in Hnil. }
  unfold run_idempotent, begin_idempotent_operation, bind. rewrite Hok. unfold transaction. rewrite Hres.
  unfold resolve_existing, look_up, existing_record, result_bind. rewrite Hrows. simpl.
  case_bool_decide; simpl; [by rewrite Hst|done].
Qed.

Lemma run_once (dbnow : datetime) (q : request P) (f : M B (idem_error E) J) (s s1 : store) (r : J)
    (cmds : list icommand) (q' : request P) (dbnow' : datetime) (f' : M B (idem_error E) J) :
  iwf s → run dbnow q f s = (Ok (false, r), s1) →
  let id := uuid4 s.(is_drawn) in
  let settled := mkIdem q.(rq_tenant_id) q.(rq_operation) q.(rq_key) (compute_fingerprint q.(rq_payload))
                   IDEM_SUCCEEDED (Some r) (expires_at cfg q.(rq_now)) dbnow in
  f s.(is_rest) = (Ok r, s1.(is_rest)) ∧
  (Forall (spares id settled) cmds →
   in_scope q'.(rq_tenant_id) q'.(rq_operation) q'.(rq_key) settled →
   let s' := ihistory cmds s1 in
   check_request (E := E) q' s' = (Ok tt, s') →
   run dbnow' q' f' s' =
     (if bool_decide (compute_fingerprint q.(rq_payload) = compute_fingerprint q'.(rq_payload))
      then Ok (true, r) else Raise (reused q'), s')).
Proof.
  intros Hwf Hrun id settled. apply run_executes in Hrun as (b & Hf & Hfresh & Hnil & ->). split; [done|].
  intros Hsp Hsc s' Hok.
  assert (iwf (set_rest b (set_records (<[id := settled]> s.(is_records)) (idraw s)))) as Hwf1.
  { apply iwf_rest. by apply iwf_insert. }
  destruct (ihistory_settled cmds _ id settled Hwf1 (lookup_insert_eq _ _ _) eq_refl Hsp) as [Hwf' Hid].
  pose proof (settled_answers s' id settled q' dbnow' f' Hwf' Hid eq_refl Hsc Hok) as H.
  apply (f_equal fst) in H. cbn [fst] in H. rewrite H. by destruct (bool_decide _).
Qed.


(** A new key.  A run under a key without a record executes the operation
    exactly once, with its own result or error; if it fails, nothing is left,
    neither of its writes nor of the record.  But an [IntegrityError] of the
    operation itself is taken for a lost race: nothing is left either, and the
    caller gets [NoResultFound] in its place. *)
Theorem run_new_key (dbnow : datetime) (q : request P) (f : M B (idem_error E) J) (s : store) :
  check_request (E := E) q s = (Ok tt, s) → scope_rows s q.(rq_tenant_id) q.(rq_operation) q.(rq_key) = [] →
  s.(is_records) !! uuid4 s.(is_drawn) = None →
  match f s.(is_rest) with
  | (Ok r, b) => ∃ s', run dbnow q f s = (Ok (false, r), s') ∧ s'.(is_rest) = b
  | (Raise IIntegrityError, _) => run dbnow q f s = (Raise INoResultFound, s)
  | (Raise e, _) => run dbnow q f s = (Raise e, s)
  end.
Proof.
  intros Hok Hnil Hfresh.
  assert (s.(is_tenants) !! q.(rq_tenant_id) ≠ None) as Hten.
  { intros Hn. unfold check_request, result_bind, require_open_tenant, get_tenant in Hok. injection Hok as Hok.
    change (tenants_of s) with (is_tenants s) in Hok. rewrite Hn in Hok.
    destruct (validate_operation _); [|done]. by destruct (validate_idempotency_key _). }
  destruct (f (is_rest s)) as [[r|e] b] eqn:Ef; [|destruct e]; unfold run_idempotent, bind; rewrite Hok;
    unfold transaction, reserve; rewrite Hnil, Hfresh, !bool_decide_eq_false_2 by (done || by intros []);
    cbn [orb]; unfold on_rest; cbn [is_rest set_records idraw]; rewrite Ef; try reflexivity.
  - unfold succeed. simpl. rewrite lookup_insert_eq. eexists. split; [reflexivity|].
    unfold update_record. by rewrite decide_False.
  - unfold resolve_existing, existing_record. by rewrite Hnil.
Qed.

(** ** Interleavings *)

(** A call run alone is the function. *)
Lemma begin_alone dbnow q (s : store) :
  let st p := begin_step (E := E) empty_dict compute_fingerprint uuid4 cfg dbnow q p.1 p.2 in
  st (st (st (st (Starting, s)))) = (Finished (begin dbnow q s).1, (begin dbnow q s).2).
Proof.
  cbv zeta. destruct (begin dbnow q s) as [o s'] eqn:Hb. unfold begin_idempotent_operation, bind at 1 in Hb.
  cbn [begin_step fst snd]. destruct (check_request q s) as [[[]|e] s1]; [|injection Hb as <- <-; reflexivity].
  cbn [begin_step fst snd]. destruct (transaction _ s1) as [[id|e] s2]; [injection Hb as <- <-; reflexivity|].
  destruct e; try (injection Hb as <- <-; reflexivity). unfold bind in Hb. cbn [begin_step fst snd].
  destruct (look_up _ _ _ q s2) as [[[res|i]|e] s3]; [injection Hb as <- <-; reflexivity| |injection Hb as <- <-; reflexivity].
  cbn [begin_step fst snd]. by rewrite Hb.
Qed.

Abbreviation step := (begin_step (E := E) empty_dict compute_fingerprint uuid4 cfg).
Abbreviation pstep := (pool_step (E := E) empty_dict compute_fingerprint uuid4 cfg).
Abbreviation weave := (interleave (E := E) empty_dict compute_fingerprint uuid4 cfg).

(** What one key's callers can be doing before anybody resets it: nobody
    resets, and somebody goes ahead only if the record is theirs. *)
Section OneKey.
Context (t : uuid) (op key : pystr).

Definition calm (p : phase (J := J) (E := E)) : Prop := ∀ id, p ≠ Resetting id.
Definition waiting (times : list datetime) (q : request P) : Prop :=
  (q.(rq_tenant_id) = t ∧ q.(rq_operation) = op ∧ q.(rq_key) = key) ∧
  Forall (λ d, q.(rq_now) - d < 1000000 * pending_ttl_seconds cfg) times.

(** Before the key is taken, and after. *)
Definition free (s : store) : Prop := scope_rows s t op key = [].
Definition taken (times : list datetime) (s : store) : Prop :=
  ∃ id r, scope_rows s t op key = [(id, r)] ∧ r.(ir_status) = IDEM_PENDING ∧ r.(ir_updated_at) ∈ times.

Lemma step_calm times d q p (s : store) : d ∈ times → waiting times q → calm p →
  free s ∨ taken times s →
  let '(p', s') := step d q p s in
  calm p' ∧
  ((free s ∧ free s' ∧ goes_ahead p' = goes_ahead p) ∨ (taken times s ∧ taken times s' ∧ goes_ahead p' = goes_ahead p) ∨
   (free s ∧ taken times s')).
Proof.
  intros Hd [(Ht & Ho & Hk) Hnow] Hp Hs.
  assert (∀ p', calm p' → goes_ahead p' = goes_ahead p →
    calm p' ∧ ((free s ∧ free s ∧ goes_ahead p' = goes_ahead p) ∨
      (taken times s ∧ taken times s ∧ goes_ahead p' = goes_ahead p) ∨ (free s ∧ taken times s))) as Hsame.
  { intros p' Hc Hg. split; [done|]. destruct Hs; auto 10. }
  destruct p as [| | |id|r]; cbn [begin_step].
  - destruct (check_request q s) as [[[]|e] s1] eqn:Ec; injection Ec as _ <-; by apply Hsame.
  - unfold transaction. destruct (reserve_cases d q s) as [[s2 Hres]|(Hnil & Hfresh & Hres)]; rewrite Hres.
    + by apply Hsame.
    + rewrite Ht, Ho, Hk in Hnil. split; [done|]. right; right. split; [done|].
      exists (uuid4 s.(is_drawn)), (mkIdem q.(rq_tenant_id) q.(rq_operation) q.(rq_key)
        (compute_fingerprint q.(rq_payload)) IDEM_PENDING None (expires_at cfg q.(rq_now)) d).
      split; [|by split]. apply singleton_list; [apply NoDup_filter, NoDup_map_to_list| |].
      * apply elem_of_scope_rows. simpl. split; [by rewrite lookup_insert_eq|done].
      * intros [i r] [Hi Hsc]%elem_of_scope_rows. simpl in Hi. apply lookup_insert_Some in Hi as [[<- <-]|[_ Hi]]; [done|].
        by destruct (scope_rows_nil _ _ _ _ _ _ Hnil Hi).
  - unfold look_up, existing_record, result_bind. rewrite Ht, Ho, Hk.
    destruct Hs as [Hfree|(id & r & Hrow & Hst & Hup)]; [rewrite Hfree; by apply Hsame|].
    rewrite Hrow. destruct (negb _); [by apply Hsame|]. rewrite Hst.
    rewrite (proj2 (Z.ltb_lt _ _)); [by apply Hsame|]. rewrite Forall_forall in Hnow. by apply Hnow.
  - by destruct (Hp id).
  - by apply Hsame.
Qed.

Definition pool_ok (times : list datetime) (ps : list (request P * phase (J := J) (E := E)) * store) : Prop :=
  Forall (λ c, waiting times c.1 ∧ calm c.2) ps.1 ∧
  ((free ps.2 ∧ holders ps.1 = 0%nat) ∨ (taken times ps.2 ∧ (holders ps.1 ≤ 1)%nat)).

Lemma pool_step_ok times i d ps : d ∈ times → pool_ok times ps → pool_ok times (pstep (i, d) ps).
Proof.
  intros Hd [Hall Hs]. destruct ps as [l s]. simpl in *. unfold pool_step. simpl.
  destruct (l !! i) as [[q p]|] eqn:Ei; [|by split].
  pose proof (proj1 (Forall_lookup _ _) Hall i _ Ei) as [Hq Hp]. simpl in *.
  assert (free s ∨ taken times s) as Hft by (destruct Hs as [[? _]|[? _]]; auto).
  pose proof (step_calm times d q p s Hd Hq Hp Hft) as Hstep. destruct (step d q p s) as [p' s'].
  destruct Hstep as [Hc Hcases]. split; [by apply Forall_insert|]. simpl.
  pose proof (length_filter_insert (λ c : request P * phase (J := J) (E := E), goes_ahead c.2 = true) l i (q, p') (q, p) Ei) as Hlen.
  fold (holders (<[i := (q, p')]> l)) in Hlen. fold (holders l) in Hlen. simpl in Hlen.
  assert (free s → ¬ taken times s) as Hex by (intros Hf (? & ? & Hr & _); unfold free in Hf; congruence).
  destruct Hcases as [(Hf & Hf' & Hg)|[(Hf & Hf' & Hg)|(Hf & Hf')]].
  - left. split; [done|]. destruct Hs as [[_ Hh]|[? _]]; [|by destruct Hex]. repeat case_decide; lia || congruence.
  - right. split; [done|]. destruct Hs as [[? _]|[_ Hh]]; [by destruct Hex|]. repeat case_decide; lia || congruence.
  - right. split; [done|]. destruct Hs as [[_ Hh]|[? _]]; [|by destruct Hex]. repeat case_decide; lia.
Qed.

Lemma weave_ok times schedule ps : Forall (λ e, e.2 ∈ times) schedule → pool_ok times ps → pool_ok times (weave schedule ps).
Proof.
  intros Hs. revert ps. induction Hs as [|[i d] l Hd _ IH]; intros ps Hok; [done|].
  simpl. apply IH. by apply pool_step_ok.
Qed.
End OneKey.

(** A new key goes to one caller.  Any number of calls of
    [begin_idempotent_operation] under a key without a record, interleaved in any
    way, transaction by transaction: at most one of them is told to go ahead, as
    long as none of them started a pending TTL or more after a transaction of
    another (and nobody finalizes the record in between). *)
Theorem new_key_one_holder (t : uuid) (op key : pystr) (requests : list (request P)) (schedule : list (nat * datetime))
    (s : store) :
  scope_rows s t op key = [] →
  (∀ q, q ∈ requests → q.(rq_tenant_id) = t ∧ q.(rq_operation) = op ∧ q.(rq_key) = key) →
  (∀ q i d, q ∈ requests → (i, d) ∈ schedule → q.(rq_now) - d < 1000000 * pending_ttl_seconds cfg) →
  (holders (weave schedule ((λ q, (q, Starting)) <$> requests, s)).1 ≤ 1)%nat.
Proof.
  intros Hfree Hreq Htime.
  assert (pool_ok t op key schedule.*2 (weave schedule ((λ q, (q, Starting)) <$> requests, s))) as [_ H].
  { apply weave_ok.
    - apply Forall_forall. intros [i d] Hin. apply list_elem_of_fmap. by exists (i, d).
    - split; simpl.
      + apply Forall_fmap, Forall_forall. intros q Hq. split; [|by intros ? [=]]. split; [by apply Hreq|].
        apply Forall_forall. intros d ([i d'] & -> & Hin)%list_elem_of_fmap. by apply (Htime q i).
      + left. split; [done|]. unfold holders. clear Hreq Htime. induction requests as [|q l IH]; [done|].
        rewrite fmap_cons, filter_cons. by rewrite decide_False. }
  destruct H as [[_ ->]|[_ H]]; [lia|done].
Qed.

(** *** A key that failed *)

Lemma failed_steps dbnow q (s : store) id r : iwf s →
  s.(is_records) !! id = Some r → r.(ir_status) = IDEM_FAILED →
  in_scope q.(rq_tenant_id) q.(rq_operation) q.(rq_key) r → r.(ir_fingerprint) = compute_fingerprint q.(rq_payload) →
  check_request (E := E) q s = (Ok tt, s) →
  step dbnow q Starting s = (Reserving, s) ∧ step dbnow q Reserving s = (LookingUp, s) ∧
  step dbnow q LookingUp s = (Resetting id, s).
Proof.
  intros Hwf Hid Hst Hsc Hfp Hok. pose proof (scope_rows_one s _ _ _ id r Hwf Hid Hsc) as Hrows.
  cbn [begin_step]. rewrite Hok. split; [done|].
  destruct (reserve_cases dbnow q s) as [[s2 Hres]|[Hnil _]]; [|by rewrite Hrows in Hnil].
  unfold transaction. rewrite Hres. split; [done|].
  unfold look_up, existing_record, result_bind. rewrite Hrows. by rewrite bool_decide_eq_true_2, Hst.
Qed.

Lemma reset_step dbnow q (s : store) id r : s.(is_records) !! id = Some r → r.(ir_tenant_id) = q.(rq_tenant_id) →
  ∃ s' r', step dbnow q (Resetting id) s = (Finished (Ok (mkReservation false None id)), s') ∧
    s'.(is_records) !! id = Some r' ∧ r'.(ir_tenant_id) = r.(ir_tenant_id).
Proof.
  intros Hid Ht. cbn [begin_step]. unfold reset, get_record. rewrite Hid, bool_decide_eq_true_2 by done.
  unfold update_record. case_decide as Hd; [by eexists s, r|]. eexists _, _. split; [reflexivity|].
  simpl. by rewrite lookup_insert_eq.
Qed.

(** A key that failed goes to every caller that reads it in time.  If the
    last attempt under a key failed, two concurrent retries of the request can
    both be told to go ahead, under the same record: nothing serialises the
    reads with the resets. *)
Theorem failed_key_two_holders (q1 q2 : request P) (s : store) (id : uuid) (r : IdempotencyRecord J) (d : datetime) :
  iwf s → s.(is_records) !! id = Some r → r.(ir_status) = IDEM_FAILED →
  (∀ q, q = q1 ∨ q = q2 → in_scope q.(rq_tenant_id) q.(rq_operation) q.(rq_key) r ∧
     r.(ir_fingerprint) = compute_fingerprint q.(rq_payload) ∧ check_request (E := E) q s = (Ok tt, s)) →
  let ends := weave [(0, d); (0, d); (0, d); (1, d); (1, d); (1, d); (0, d); (1, d)]%nat
                ([(q1, Starting); (q2, Starting)], s) in
  Forall (λ c, c.2 = Finished (Ok (mkReservation false None id))) ends.1 ∧ holders ends.1 = 2%nat.
Proof.
  intros Hwf Hid Hst Hq.
  destruct (Hq q1) as (Hs1 & Hf1 & Hc1); [by left|]. destruct (Hq q2) as (Hs2 & Hf2 & Hc2); [by right|].
  destruct (failed_steps d q1 s id r Hwf Hid Hst Hs1 Hf1 Hc1) as (A1 & A2 & A3).
  destruct (failed_steps d q2 s id r Hwf Hid Hst Hs2 Hf2 Hc2) as (B1 & B2 & B3).
  destruct (reset_step d q1 s id r Hid) as (s1 & r1 & A4 & Hid1 & Ht1); [by destruct Hs1|].
  destruct (reset_step d q2 s1 id r1 Hid1) as (s2 & r2 & B4 & _); [rewrite Ht1; by destruct Hs2|].
  unfold interleave, foldl, pool_step. cbn -[begin_step].
  rewrite A1; cbn -[begin_step]. rewrite A2; cbn -[begin_step]. rewrite A3; cbn -[begin_step].
  rewrite B1; cbn -[begin_step]. rewrite B2; cbn -[begin_step]. rewrite B3; cbn -[begin_step].
  rewrite A4; cbn -[begin_step]. rewrite B4; cbn -[begin_step]. split; [by repeat constructor|done].
Qed.
End Guarantees.

(** ** A concrete deployment *)

Definition idemo_uuid (n : nat) : uuid := (N.of_nat n + 3000)%N.
Definition idemo : idem_store Z Z := mkIdemStore {[ 7%N := mkTenant (lit "acme") ACTIVE None false ]} ∅ 0 0.
Definition idemo_request (payload : pystr) (now : datetime) : request pystr :=
  mkRequest 7 (lit "usage.consume_quota") (lit "key-1") payload now.
(** An operation that adds five. *)
Definition idemo_fn : M Z (idem_error string) Z := λ b, (Ok (b + 5), b + 5).

Abbreviation idemo_run := (run_idempotent (E := string) 0 id idemo_uuid default_idempotency_config).

Lemma iwf_empty {B J} tn (b : B) n : iwf (mkIdemStore tn (∅ : gmap uuid (IdempotencyRecord J)) b n).
Proof. intros i j r r' Hi. simpl in Hi. by rewrite lookup_empty in Hi. Defined.


Lemma run_new_key_witness :
  idemo_run 100 (idemo_request [1%N] 90) (λ b, (Raise (IBusiness "QuotaExceeded"), b + 1)) idemo =
    (Raise (IBusiness "QuotaExceeded"), idemo) ∧
  idemo_run 100 (idemo_request [1%N] 90) (λ b, (Raise IIntegrityError, b + 1)) idemo = (Raise INoResultFound, idemo).
Proof.
  split.
  - apply (run_new_key (E := string) 0 id idemo_uuid default_idempotency_config 100 (idemo_request [1%N] 90)
      (λ b, (Raise (IBusiness "QuotaExceeded"), b + 1)) idemo); vm_compute; reflexivity.
  - apply (run_new_key (E := string) 0 id idemo_uuid default_idempotency_config 100 (idemo_request [1%N] 90)
      (λ b, (Raise IIntegrityError, b + 1)) idemo); vm_compute; reflexivity.
Defined.

Definition idemo_schedule : list (nat * datetime) :=
  [(0%nat, 100); (1%nat, 101); (0%nat, 102); (1%nat, 103); (1%nat, 104); (0%nat, 105)].

Lemma new_key_one_holder_witness :
  let ends := interleave (E := string) 0 id idemo_uuid default_idempotency_config idemo_schedule
     ((λ q, (q, Starting)) <$> [idemo_request [1%N] 90; idemo_request [1%N] 95], idemo) in
  (holders ends.1 ≤ 1)%nat.
Proof.
  apply (new_key_one_holder (E := string) 0 id idemo_uuid default_idempotency_config 7 (lit "usage.consume_quota") (lit "key-1")).
  - vm_compute. reflexivity.
  - intros q Hq. repeat (apply elem_of_cons in Hq as [->|Hq]; [repeat split|]). by apply elem_of_nil in Hq.
  - intros q i d Hq Hd.
    repeat (apply elem_of_cons in Hq as [->|Hq]; [|]); try (by apply elem_of_nil in Hq);
      repeat (apply elem_of_cons in Hd as [[= -> ->]|Hd]; [vm_compute; reflexivity|]); by apply elem_of_nil in Hd.
Defined.

Definition idemo_failed : idem_store Z Z :=
  mkIdemStore (is_tenants idemo)
    {[ 3000%N := mkIdem 7 (lit "usage.consume_quota") (lit "key-1") [1%N] IDEM_FAILED None 86400000090 100 ]} 0 1.

Lemma failed_key_two_holders_witness :
  holders (interleave (E := string) 0 id idemo_uuid default_idempotency_config
    [(0%nat, 200); (0%nat, 200); (0%nat, 200); (1%nat, 200); (1%nat, 200); (1%nat, 200); (0%nat, 200); (1%nat, 200)]
    ([(idemo_request [1%N] 190, Starting); (idemo_request [1%N] 191, Starting)], idemo_failed)).1 = 2%nat.
Proof.
  apply (failed_key_two_holders (E := string) 0 id idemo_uuid default_idempotency_config
    (idemo_request [1%N] 190) (idemo_request [1%N] 191) idemo_failed 3000
    (mkIdem 7 (lit "usage.consume_quota") (lit "key-1") [1%N] IDEM_FAILED None 86400000090 100) 200).
  - unfold idemo_failed. intros i j r r' Hi Hj _. simpl in Hi, Hj.
    apply lookup_singleton_Some in Hi as [<- _], Hj as [<- _]. reflexivity.
  - vm_compute. reflexivity.
  - reflexivity.
  - intros q [->| ->]; (split; [repeat split|]; split; vm_compute; reflexivity).
Defined.
