(* ===== verification/Usage.v ===== *)
(** * Usage metering and quotas (saas_os/core/usage/service.py)

    A usage event is a row with an exact quantity.  [consume_quota] adds one
    under a lock of the tenant and the metric, if the sum over the window stays
    within the limit the tenant's entitlements set; [consume_quota_idempotent]
    does so at most once per key.  The store is the idempotency component's, with
    the usage rows as the rest of the database.  The entitlements of a tenant are
    an argument. *)

From S2P Require Import Prelude PyStr PyTime PyDecimal TenantLifecycle Idempotency.

(** ** Data *)

Record UsageEvent : Type := mkUsage {
  ue_tenant_id : uuid;
  ue_metric : pystr;
  ue_quantity : dec;
  ue_occurred_at : datetime;
}.

Inductive usage_error : Type :=
| InvalidUsageEventError (message : string)
| QuotaExceededError (tenant_id : uuid) (metric : pystr) (used limit : dec)
| UTenant (e : tenant_error)
| UValueError                  (* the month after December 9999 *)
| UKeyError.                   (* a stored result without its fields *)

Record QuotaCheckResult : Type := mkQuota {
  q_metric : pystr;
  q_used : dec;
  q_limit : option dec;
  q_exceeded : bool;
}.
#[export] Instance QuotaCheckResult_eq_dec : EqDecision QuotaCheckResult.
Proof. solve_decision. Defined.

(** An entitlement's value, as far as a quota reads it: a number by its decimal
    text, a boolean, or anything else. *)
Inductive entitlement : Type :=
| EntNumber (d : dec)
| EntBool (b : bool)
| EntOther.

Abbreviation UR := (result usage_error).

(** ** Validation *)

Definition MAX_METRIC_LENGTH : nat := 100.

(** The characters [str.strip] removes, and the control characters. *)
Definition is_white (c : N) : bool :=
  bool_decide (c ∈ [9; 10; 11; 12; 13; 28; 29; 30; 31; 32; 133; 160; 5760; 8192; 8193; 8194; 8195; 8196;
                    8197; 8198; 8199; 8200; 8201; 8202; 8232; 8233; 8239; 8287; 12288]%N).
Definition is_ctrl (c : N) : bool := ((c <=? 31) || (c =? 127))%N.

(** [_validate_metric] *)
Definition validate_metric (metric : pystr) : UR unit :=
  if forallb is_white metric then Raise (InvalidUsageEventError "metric must be a non-empty string.")
  else if bool_decide (MAX_METRIC_LENGTH < length metric)%nat
  then Raise (InvalidUsageEventError "metric exceeds 100 characters.")
  else if existsb is_ctrl metric
  then Raise (InvalidUsageEventError "metric must not contain control characters.")
  else Ok tt.

Definition MAX_QUANTITY : dec := mkDec (10 ^ 18) 0.
Definition MAX_QUANTITY_DECIMAL_PLACES : Z := 18.

(** [_validate_quantity], of a [Decimal] or an [int]. *)
Definition validate_quantity (quantity : decimal) : UR dec :=
  match quantity with
  | Infinite | NaN => Raise (InvalidUsageEventError "quantity must be a finite number.")
  | Finite value =>
      if dec_ltb value zero then Raise (InvalidUsageEventError "quantity must not be negative.")
      else if dec_leb MAX_QUANTITY value
      then Raise (InvalidUsageEventError "quantity must be less than 10**18.")
      else if negb (coef value =? 0) && (MAX_QUANTITY_DECIMAL_PLACES <? - expo (normalize value))
      then Raise (InvalidUsageEventError "quantity must have at most 18 decimal places.")
      else Ok value
  end.

(** ** Windows *)

(** [_current_utc_month_window] *)
Definition current_utc_month_window (now : datetime) : UR (datetime * datetime) :=
  let '(y, m, _) := ord2ymd (now / us_per_day) in
  let start := ymd2ord y m 1 * us_per_day in
  if m =? 12
  then if y =? 9999 then Raise UValueError else Ok (start, ymd2ord (y + 1) 1 1 * us_per_day)
  else Ok (start, ymd2ord y (m + 1) 1 * us_per_day).

(** [_window], of timezone-aware bounds. *)
Definition window (now : datetime) (since until : option datetime) : UR (datetime * datetime) :=
  match since, until with
  | None, None => current_utc_month_window now
  | Some start, Some end_ =>
      if end_ <? start then Raise (InvalidUsageEventError "since must not be after until.") else Ok (start, end_)
  | _, _ => Raise (InvalidUsageEventError "since and until must be given together.")
  end.

(** ** Aggregation *)

Definition counted (t : uuid) (metric : pystr) (since until : datetime) (e : UsageEvent) : Prop :=
  e.(ue_tenant_id) = t ∧ e.(ue_metric) = metric ∧ since ≤ e.(ue_occurred_at) < until.

#[export] Instance counted_dec t metric since until e : Decision (counted t metric since until e).
Proof. unfold counted. apply _. Defined.

(** [SELECT sum(quantity)], [0] if there is no row. *)
Definition usage_sum (rows : list UsageEvent) (t : uuid) (metric : pystr) (since until : datetime) : dec :=
  dec_sum (ue_quantity <$> filter (counted t metric since until) rows).

Definition aggregate_usage (now : datetime) (rows : list UsageEvent) (t : uuid) (metric : pystr)
    (since until : datetime) : UR dec :=
  let* w := window now (Some since) (Some until) in
  Ok (usage_sum rows t metric w.1 w.2).

(** [aggregate_usage_including_descendants], of the descendants' ids. *)
Fixpoint aggregate_usage_of (now : datetime) (rows : list UsageEvent) (ids : list uuid) (metric : pystr)
    (since until : datetime) (total : dec) : UR dec :=
  match ids with
  | [] => Ok total
  | t :: ids =>
      let* used := aggregate_usage now rows t metric since until in
      aggregate_usage_of now rows ids metric since until (dec_add total used)
  end.
Definition aggregate_usage_including_descendants (now : datetime) (rows : list UsageEvent) (descendants : list uuid)
    (metric : pystr) (since until : datetime) : UR dec :=
  aggregate_usage_of now rows descendants metric since until zero.

(** ** Quotas *)

(** [_numeric_limit] *)
Definition numeric_limit (entitlements : gmap pystr entitlement) (metric : pystr) : option dec :=
  match entitlements !! metric with
  | Some (EntNumber d) => Some d
  | _ => None
  end.

(** [used > limit], when there is a limit *)
Definition over (used : dec) (limit : option dec) : bool :=
  match limit with Some l => dec_ltb l used | None => false end.

Definition check_quota (now : datetime) (rows : list UsageEvent) (entitlements : gmap pystr entitlement)
    (t : uuid) (metric : pystr) (since until : option datetime) : UR QuotaCheckResult :=
  let* w := window now since until in
  let* used := aggregate_usage now rows t metric w.1 w.2 in
  let limit := numeric_limit entitlements metric in
  Ok (mkQuota metric used limit (over used limit)).

(** [_consume_quota_in_session], under the advisory lock. *)
Definition consume_quota_in_session (t : uuid) (metric : pystr) (quantity : dec) (limit : option dec)
    (w : datetime * datetime) (at_ : datetime) : M (list UsageEvent) usage_error QuotaCheckResult :=
  λ rows,
    let used := usage_sum rows t metric w.1 w.2 in
    let total := dec_add used quantity in
    match limit with
    | Some l =>
        if dec_ltb l total then (Raise (QuotaExceededError t metric used l), rows)
        else (Ok (mkQuota metric total limit false), mkUsage t metric quantity at_ :: rows)
    | None => (Ok (mkQuota metric total limit false), mkUsage t metric quantity at_ :: rows)
    end.

(** The arguments of a consumption, and the times it reads. *)
Record consumption : Type := mkConsumption {
  cq_tenant_id : uuid;
  cq_metric : pystr;
  cq_quantity : decimal;
  cq_since : option datetime;
  cq_until : option datetime;
  cq_now : datetime;                             (* for the window *)
  cq_at : datetime;                              (* of the row *)
  cq_requested : datetime;                       (* of the request under a key *)
  cq_entitlements : gmap pystr entitlement;      (* [get_entitlements(tenant_id)] *)
}.

(** The checks before any write: the quantity, the window and the limit. *)
Definition prepare (c : consumption) : UR (dec * (datetime * datetime) * option dec) :=
  let* _ := validate_metric c.(cq_metric) in
  let* quantity := validate_quantity c.(cq_quantity) in
  let* w := window c.(cq_now) c.(cq_since) c.(cq_until) in
  Ok (quantity, w, numeric_limit c.(cq_entitlements) c.(cq_metric)).

(** A stored result; [None] is a dict without the fields. *)
Abbreviation stored := (option QuotaCheckResult).
Abbreviation usage_store := (idem_store (list UsageEvent) stored).
Abbreviation UM := (M usage_store (idem_error usage_error)).

Definition of_usage {A : Type} (r : UR A) : result (idem_error usage_error) A :=
  match r with Ok a => Ok a | Raise e => Raise (IBusiness e) end.

Definition consume_quota (c : consumption) : UM QuotaCheckResult :=
  λ s,
    match prepare c with
    | Raise e => (Raise (IBusiness e), s)
    | Ok (quantity, w, limit) =>
        match require_open_tenant s c.(cq_tenant_id) with
        | Raise e => (Raise (IBusiness (UTenant e)), s)
        | Ok _ =>
            match consume_quota_in_session c.(cq_tenant_id) c.(cq_metric) quantity limit w c.(cq_at) s.(is_rest) with
            | (Ok r, rows) => (Ok r, set_rest rows s)
            | (Raise e, _) => (Raise (IBusiness e), s)
            end
        end
    end.

Section Idempotent.
Context (compute_fingerprint : pystr * dec → pystr) (uuid4 : nat → uuid) (cfg : IdempotencyConfig).

(** [_business] *)
Definition consume_business (c : consumption) (quantity : dec) (w : datetime * datetime) (limit : option dec) :
    M (list UsageEvent) (idem_error usage_error) stored :=
  λ rows,
    match consume_quota_in_session c.(cq_tenant_id) c.(cq_metric) quantity limit w c.(cq_at) rows with
    | (Ok r, rows') => (Ok (Some r), rows')
    | (Raise e, rows') => (Raise (IBusiness e), rows')
    end.

Definition consume_request (c : consumption) (quantity : dec) (key : pystr) : request (pystr * dec) :=
  mkRequest c.(cq_tenant_id) (lit "usage.consume_quota") key (c.(cq_metric), quantity) c.(cq_requested).

(** [str] and [Decimal] of a stored number are inverse, so the stored result
    reads back as it was. *)
Definition consume_quota_idempotent (dbnow : datetime) (c : consumption) (key : pystr) : UM (bool * QuotaCheckResult) :=
  λ s,
    match prepare c with
    | Raise e => (Raise (IBusiness e), s)
    | Ok (quantity, w, limit) =>
        match run_idempotent None compute_fingerprint uuid4 cfg dbnow (consume_request c quantity key)
                (consume_business c quantity w limit) s with
        | (Ok (is_replay, Some r), s') => (Ok (is_replay, r), s')
        | (Ok (_, None), s') => (Raise (IBusiness UKeyError), s')
        | (Raise e, s') => (Raise e, s')
        end
    end.
End Idempotent.
