(* ===== verification/UsageProofs.v ===== *)
(** * Quotas hold, months tile the calendar, a key consumes once

    What [consume_quota] guarantees over every history, in exact arithmetic; the
    window it uses by default; its composition with idempotency keys; and two
    inputs on which the 28 digits of Python's decimal context show. *)

From S2P Require Import Prelude PyStr PyTime PyDecimal TenantLifecycle Idempotency IdempotencyProofs Usage.

(** ** One consumption *)

Section Quota.
Context (t : uuid) (metric : pystr) (w : datetime * datetime) (limit : dec) (k : Z).
Context (Hk : 0 ≤ k) (Hlimit : fits_units k limit) (Hbound : units k limit < 10 ^ PREC).

Abbreviation in_window := (counted t metric w.1 w.2).
(** The exact use of the metric in the window, in units of [10^-k]. *)
Definition used_units (rows : list UsageEvent) : Z := units k (usage_sum rows t metric w.1 w.2).
Definition rows_fit (rows : list UsageEvent) : Prop :=
  Forall (λ e, in_window e → fits_units k e.(ue_quantity) ∧ 0 ≤ coef e.(ue_quantity)) rows.

Lemma units_nonneg d : fits_units k d → 0 ≤ coef d → 0 ≤ units k d.
Proof. intros Hd Hc. unfold units, scale. apply Z.mul_nonneg_nonneg; [done|]. apply Z.pow_nonneg. lia. Qed.

Lemma counted_fit rows : rows_fit rows →
  Forall (fits_units k) (ue_quantity <$> filter in_window rows) ∧
  Forall (λ d, 0 ≤ coef d) (ue_quantity <$> filter in_window rows).
Proof.
  unfold rows_fit. rewrite Forall_forall. intros Hr. split; apply Forall_fmap, Forall_forall; intros e [Hin He]%list_elem_of_filter;
    by apply Hr.
Qed.

Lemma used_cons e rows : rows_fit (e :: rows) →
  used_units (e :: rows) = (if decide (in_window e) then units k e.(ue_quantity) else 0) + used_units rows.
Proof.
  intros Hr. pose proof (proj1 (counted_fit _ Hr)) as Hf. apply Forall_cons in Hr as [_ Hr].
  pose proof (proj1 (counted_fit _ Hr)) as Hf'. unfold used_units, usage_sum.
  destruct (dec_sum_units k _ Hf Hk) as [_ ->]. destruct (dec_sum_units k _ Hf' Hk) as [_ ->].
  rewrite filter_cons. case_decide; [|done]. by rewrite !fmap_cons.
Qed.

Lemma sum_nonneg rows : rows_fit rows →
  fits_units k (usage_sum rows t metric w.1 w.2) ∧ 0 ≤ coef (usage_sum rows t metric w.1 w.2).
Proof.
  intros Hr. destruct (counted_fit _ Hr) as [Hf Hc]. split; [by apply dec_sum_units|].
  unfold usage_sum. induction Hc as [|d l Hd Hl IH]; [done|]. cbn [dec_sum foldr].
  apply Forall_cons in Hf as [_ Hf]. specialize (IH Hf). unfold add_exact, scale. simpl. fold (dec_sum l).
  apply Z.add_nonneg_nonneg; apply Z.mul_nonneg_nonneg; try done; apply Z.pow_nonneg; lia.
Qed.

(** An accepted total is at most the limit, exactly. *)
Lemma accepted_units used quantity : fits_units k used → 0 ≤ coef used → fits_units k quantity → 0 ≤ coef quantity →
  dec_ltb limit (dec_add used quantity) = false → units k used + units k quantity ≤ units k limit.
Proof.
  intros Hu Hu0 Hq Hq0 Hacc. unfold dec_ltb in Hacc. apply negb_false_iff in Hacc. unfold dec_add in Hacc.
  destruct (add_exact_units k used quantity Hu Hq) as [Hf <-]. set (x := add_exact used quantity) in *.
  assert (0 ≤ coef x) as Hx0.
  { subst x. unfold add_exact, scale. simpl.
    apply Z.add_nonneg_nonneg; apply Z.mul_nonneg_nonneg; try done; apply Z.pow_nonneg; lia. }
  destruct (decide (coef x < 10 ^ PREC)) as [Hsmall|Hlarge].
  - rewrite round_dec_small in Hacc by done. by apply (dec_leb_units k) in Hacc.
  - exfalso. destruct (round_dec_large k x Hf) as [Hf' Hge]; [lia|].
    apply (dec_leb_units k) in Hacc; [|done..].
    assert (1 ≤ 10 ^ (expo x + k)) by (change 1 with (10 ^ 0); apply Z.pow_le_mono_r; unfold fits_units in Hf; lia).
    assert (0 < 10 ^ PREC) by (by apply Z.pow_pos_nonneg).
    set (a := 10 ^ PREC) in *. set (b := 10 ^ (expo x + k)) in *. clearbody a b. nia.
Qed.

(** One consumption of the metric in the window. *)
Lemma consume_step quantity at_ rows o rows' : fits_units k quantity → 0 ≤ coef quantity → rows_fit rows →
  consume_quota_in_session t metric quantity (Some limit) w at_ rows = (o, rows') →
  rows_fit rows' ∧ used_units rows' ≤ Z.max (units k limit) (used_units rows).
Proof.
  intros Hq Hq0 Hr H. unfold consume_quota_in_session in H.
  destruct (dec_ltb limit _) eqn:Eacc; simplify_eq/=; [split; [done|lia]|].
  assert (rows_fit (mkUsage t metric quantity at_ :: rows)) as Hr' by (by apply Forall_cons).
  split; [done|]. rewrite used_cons by done. simpl. destruct (sum_nonneg rows Hr) as [Hs Hs0].
  pose proof (accepted_units _ quantity Hs Hs0 Hq Hq0 Eacc) as Hacc. fold (used_units rows) in Hacc.
  case_decide; lia.
Qed.

(** Any row. *)
Lemma any_row e rows : (in_window e → fits_units k e.(ue_quantity) ∧ 0 ≤ coef e.(ue_quantity)) → rows_fit rows →
  rows_fit (e :: rows) ∧ used_units rows ≤ used_units (e :: rows).
Proof.
  intros He Hr. assert (rows_fit (e :: rows)) as Hr' by (by apply Forall_cons). split; [done|].
  rewrite used_cons by done. case_decide as Hin; [|lia]. destruct (He Hin). pose proof (units_nonneg e.(ue_quantity)). lia.
Qed.
End Quota.

(** ** Histories *)

(** Consumptions with and without a key, rows the ingestion job adds, and what
    other components do to tenants and idempotency records. *)
Inductive ucommand : Type :=
| UConsume (c : consumption)
| UConsumeKey (dbnow : datetime) (c : consumption) (key : pystr)
| UIngest (e : UsageEvent)
| UEnv (tenants : gmap uuid Tenant) (records : gmap uuid (IdempotencyRecord stored)).

Lemma validate_quantity_Ok q d : validate_quantity q = Ok d → q = Finite d ∧ 0 ≤ coef d.
Proof.
  unfold validate_quantity. destruct q as [v| |]; [|done|done].
  destruct (dec_ltb v zero) eqn:En; [done|]. destruct (dec_leb MAX_QUANTITY v); [done|].
  destruct (_ && _)%bool; [done|]. intros [= <-]. split; [done|].
  unfold dec_ltb, dec_leb, scale in En. apply negb_false_iff, Z.leb_le in En. simpl in En.
  assert (0 < 10 ^ (expo v - Z.min 0 (expo v))) by (apply Z.pow_pos_nonneg; lia). nia.
Qed.

Lemma prepare_Ok c q w l : prepare c = Ok (q, w, l) →
  c.(cq_quantity) = Finite q ∧ 0 ≤ coef q ∧ window c.(cq_now) c.(cq_since) c.(cq_until) = Ok w ∧
  numeric_limit c.(cq_entitlements) c.(cq_metric) = l.
Proof.
  unfold prepare, result_bind. destruct (validate_metric _); [|done].
  destruct (validate_quantity _) as [d|] eqn:Eq; [|done]. destruct (window _ _ _) as [w'|]; [|done].
  intros [= <- <- <-]. by apply validate_quantity_Ok in Eq as [-> ?].
Qed.

Section History.
Context (compute_fingerprint : pystr * dec → pystr) (uuid4 : nat → uuid) (cfg : IdempotencyConfig).
Abbreviation consume_key := (consume_quota_idempotent compute_fingerprint uuid4 cfg).

Definition uexec (cmd : ucommand) (s : usage_store) : usage_store :=
  match cmd with
  | UConsume c => (consume_quota c s).2
  | UConsumeKey dbnow c key => (consume_key dbnow c key s).2
  | UIngest e => set_rest (e :: s.(is_rest)) s
  | UEnv tenants records => mkIdemStore tenants records s.(is_rest) s.(is_drawn)
  end.
Definition uhistory (cmds : list ucommand) (s : usage_store) : usage_store := foldl (λ s cmd, uexec cmd s) s cmds.

(** A consumption adds the one row its session adds, or none. *)
Definition consumed (c : consumption) (rows rows' : list UsageEvent) : Prop :=
  ∃ q w l o, prepare c = Ok (q, w, l) ∧
    consume_quota_in_session c.(cq_tenant_id) c.(cq_metric) q l w c.(cq_at) rows = (Ok o, rows').

Lemma consume_rows c s : (consume_quota c s).2.(is_rest) = s.(is_rest) ∨ consumed c s.(is_rest) (consume_quota c s).2.(is_rest).
Proof.
  unfold consume_quota. destruct (prepare c) as [[[q w] l]|] eqn:Ep; [|by left].
  destruct (require_open_tenant s _); [|by left].
  destruct (consume_quota_in_session _ _ _ _ _ _ _) as [[r|e] rows'] eqn:Ec; [right|by left].
  by exists q, w, l, r.
Qed.

Lemma consume_key_rows dbnow c key s :
  (consume_key dbnow c key s).2.(is_rest) = s.(is_rest) ∨ consumed c s.(is_rest) (consume_key dbnow c key s).2.(is_rest).
Proof.
  unfold consume_quota_idempotent. destruct (prepare c) as [[[q w] l]|] eqn:Ep; [|by left].
  set (f := consume_business c q w l). set (rq := consume_request c q key).
  pose proof (run_records None compute_fingerprint uuid4 cfg dbnow rq f s) as Hcases.
  destruct (run_idempotent None compute_fingerprint uuid4 cfg dbnow rq f s) as [o s'] eqn:Er. simpl in Hcases.
  destruct Hcases as [->|[r ->]].
  - left. by destruct o as [[b [r|]]|].
  - apply run_executes in Er as (b & Hf & _ & _ & ->). right.
    assert (consumed c s.(is_rest) b) as Hc; [|by destruct r].
    unfold f, consume_business in Hf.
    destruct (consume_quota_in_session _ _ _ _ _ _ _) as [[x|e] rows'] eqn:Ec; simplify_eq. by exists q, w, l, x.
Qed.

Section OneQuota.
Context (t : uuid) (metric : pystr) (w : datetime * datetime) (limit : dec) (k : Z).

Abbreviation used := (used_units t metric w k).
Abbreviation fit := (rows_fit t metric w k).

(** The quantities of the metric are multiples of [10^-k], the ones ingested not negative ([_validate_quantity] of
    the ingestion; a consumption is validated by itself). *)
Definition in_units (cmd : ucommand) : Prop :=
  match cmd with
  | UConsume c | UConsumeKey _ c _ => c.(cq_tenant_id) = t → c.(cq_metric) = metric → ∀ d, c.(cq_quantity) = Finite d → fits_units k d
  | UIngest e => counted t metric w.1 w.2 e → fits_units k e.(ue_quantity) ∧ 0 ≤ coef e.(ue_quantity)
  | UEnv _ _ => True
  end.

(** A consumption of the metric that is checked against this window, and a limit that is not greater. *)
Definition at_most (l : option dec) : bool :=
  match l with Some l => (- k <=? expo l) && (units k l <=? units k limit) | None => false end.
Definition checked (cmd : ucommand) : bool :=
  match cmd with
  | UConsume c | UConsumeKey _ c _ =>
      bool_decide (c.(cq_tenant_id) = t) && bool_decide (c.(cq_metric) = metric) &&
      match window c.(cq_now) c.(cq_since) c.(cq_until) with Ok w' => bool_decide (w' = w) | Raise _ => false end &&
      at_most (numeric_limit c.(cq_entitlements) metric)
  | _ => false
  end.
(** What all the others add to the window: rows that are ingested, and consumptions that were checked against another
    window or a greater limit, or none, and are dated in this one. *)
Fixpoint strays (cmds : list ucommand) (s : usage_store) : Z :=
  match cmds with
  | [] => 0
  | cmd :: cmds => (if checked cmd then 0 else used (uexec cmd s).(is_rest) - used s.(is_rest)) + strays cmds (uexec cmd s)
  end.

Lemma consumed_fits c rows rows' : 0 ≤ k → in_units (UConsume c) → consumed c rows rows' → fit rows → fit rows' ∧ used rows ≤ used rows'.
Proof.
  intros Hk Hu (q & w' & l & o & Hp & Hc) Hr. apply prepare_Ok in Hp as (Hq & Hq0 & _). unfold consume_quota_in_session in Hc.
  assert (rows' = mkUsage c.(cq_tenant_id) c.(cq_metric) q c.(cq_at) :: rows) as ->
    by (destruct l; [destruct (dec_ltb _ _)|]; by simplify_eq).
  apply (any_row t metric w k Hk); [|done]. intros (Ht & Hm & _). split; [by apply Hu|done].
Qed.
Lemma uexec_grows cmd s : 0 ≤ k → in_units cmd → fit s.(is_rest) → fit (uexec cmd s).(is_rest) ∧ used s.(is_rest) ≤ used (uexec cmd s).(is_rest).
Proof.
  intros Hk Hu Hr. destruct cmd as [c|dbnow c key|e|tn rec]; simpl.
  - destruct (consume_rows c s) as [->|Hc]; [done|]. by eapply consumed_fits.
  - destruct (consume_key_rows dbnow c key s) as [->|Hc]; [done|]. by eapply consumed_fits.
  - by apply (any_row t metric w k Hk).
  - done.
Qed.
Lemma consumed_checked c rows rows' : 0 ≤ k → units k limit < 10 ^ PREC → in_units (UConsume c) → checked (UConsume c) = true →
  consumed c rows rows' → fit rows → used rows' ≤ Z.max (units k limit) (used rows).
Proof.
  intros Hk Hb Hu Hch (q & w' & l & o & Hp & Hc) Hr. apply prepare_Ok in Hp as (Hq & Hq0 & Hw & Hlim). simpl in Hch.
  rewrite Hw in Hch. rewrite !andb_true_iff, !bool_decide_eq_true in Hch. destruct Hch as [[[Ht Hm] ->] Hl]. rewrite Hm in Hlim. rewrite Hlim in Hl.
  destruct l as [l|]; [|done]. simpl in Hl. apply andb_true_iff in Hl as [Hl%Z.leb_le Hle%Z.leb_le]. rewrite Ht, Hm in Hc.
  destruct (consume_step t metric w l k Hk Hl ltac:(lia) q c.(cq_at) rows (Ok o) rows') as [_ H]; [by apply Hu|done..|]. lia.
Qed.
Lemma uexec_checked cmd s : 0 ≤ k → units k limit < 10 ^ PREC → in_units cmd → checked cmd = true → fit s.(is_rest) →
  used (uexec cmd s).(is_rest) ≤ Z.max (units k limit) (used s.(is_rest)).
Proof.
  intros Hk Hb Hu Hch Hr. destruct cmd as [c|dbnow c key|e|tn rec]; simpl; try done.
  - destruct (consume_rows c s) as [->|Hc]; [lia|]. by eapply consumed_checked.
  - destruct (consume_key_rows dbnow c key s) as [->|Hc]; [lia|]. by eapply consumed_checked.
Qed.

(** C38: a quota is exceeded by no more than what is not checked against it.  Over every history of consumptions,
    keyed or not, accepted or refused, of ingestions and of what other components do: the exact use of a metric in a window is
    at most the limit, or what was used before if that was more, plus the strays - the rows of the ingestion, and
    the consumptions that were checked against another window or limit but are dated in this window, as
    one is that computes its window before the end of a month and is dated after it, while it waits for the lock.  The
    consumptions checked against the window and the limit (or a smaller one) add nothing above the limit, in
    whatever number and order.  The quantities are multiples of some [10^-k] for which the limit has at most 28 digits. *)
Theorem quota_respected (cmds : list ucommand) (s : usage_store) :
  0 ≤ k → units k limit < 10 ^ PREC → Forall in_units cmds → fit s.(is_rest) →
  fit (uhistory cmds s).(is_rest) ∧
  used (uhistory cmds s).(is_rest) ≤ Z.max (units k limit) (used s.(is_rest)) + strays cmds s.
Proof.
  intros Hk Hb Hg. revert s. induction Hg as [|cmd cmds Hc Hg IH]; intros s Hr; [simpl; split; [done|lia]|].
  destruct (uexec_grows cmd s Hk Hc Hr) as [Hr' Hgrow]. destruct (IH _ Hr') as [H1 H2]. split; [exact H1|]. change (uhistory (cmd :: cmds) s) with (uhistory cmds (uexec cmd s)). cbn [strays].
  destruct (checked cmd) eqn:Ech; [pose proof (uexec_checked cmd s Hk Hb Hc Ech Hr); lia|]. lia.
Qed.
End OneQuota.

(** A key consumes once.  If a consumption under a key was executed, it
    added exactly one row, with its quantity, and every later consumption of the
    same metric and quantity under the key, whatever happened in between short
    of deleting the key's record, returns the same result as a replay and
    changes nothing. *)
Theorem key_consumes_once (dbnow : datetime) (c : consumption) (key : pystr) (s s1 : usage_store)
    (r : QuotaCheckResult) (cmds : list (icommand (B := list UsageEvent) (J := stored) (P := pystr * dec) (E := usage_error)))
    (dbnow' : datetime) (c' : consumption) :
  iwf s → consume_key dbnow c key s = (Ok (false, r), s1) →
  ∃ q,
    let settled := mkIdem c.(cq_tenant_id) (lit "usage.consume_quota") key (compute_fingerprint (c.(cq_metric), q))
                     IDEM_SUCCEEDED (Some (Some r)) (expires_at cfg c.(cq_requested)) dbnow in
    c.(cq_quantity) = Finite q ∧
    s1.(is_rest) = mkUsage c.(cq_tenant_id) c.(cq_metric) q c.(cq_at) :: s.(is_rest) ∧
    (Forall (spares (uuid4 s.(is_drawn)) settled) cmds →
     c'.(cq_tenant_id) = c.(cq_tenant_id) → c'.(cq_metric) = c.(cq_metric) → (∃ w l, prepare c' = Ok (q, w, l)) →
     let s' := ihistory None compute_fingerprint uuid4 cfg cmds s1 in
     check_request (E := usage_error) (consume_request c' q key) s' = (Ok tt, s') →
     consume_key dbnow' c' key s' = (Ok (true, r), s')).
Proof.
  intros Hwf H. unfold consume_quota_idempotent in H. destruct (prepare c) as [[[q w] l]|] eqn:Ep; [|done].
  set (rq := consume_request c q key) in *.
  destruct (run_idempotent _ _ _ _ _ rq _ s) as [[[b [r'|]]|] s2] eqn:Er; simplify_eq.
  apply prepare_Ok in Ep as (Hq & _).
  pose proof (λ q' f', run_once None compute_fingerprint uuid4 cfg dbnow rq _ s s1 (Some r) cmds q' dbnow' f' Hwf Er) as Honce.
  exists q. split; [done|]. split.
  - destruct (Honce rq (consume_business c q w l)) as [Hf _]. unfold consume_business, consume_quota_in_session in Hf.
    repeat (case_match; simplify_eq/=); congruence.
  - intros Hsp Ht Hm (w' & l' & Hp) s' Hok. subst s'. unfold consume_quota_idempotent. rewrite Hp.
    destruct (Honce (consume_request c' q key) (consume_business c' q w' l')) as [_ Hrun].
    rewrite Hrun; [|exact Hsp| |exact Hok].
    + simpl. rewrite Hm. by rewrite bool_decide_eq_true_2.
    + simpl. by rewrite Ht.
Qed.
End History.

(** ** Months *)

(** Months counted from January of the year 0, and the day each begins. *)
Definition month_first (i : Z) : Z := ymd2ord (i / 12) (i mod 12 + 1) 1.

Lemma days_in_month_pos y m : 1 ≤ m ≤ 12 → 28 ≤ days_in_month y m.
Proof.
  intros Hm. unfold days_in_month.
  assert (m ∈ [1; 2; 3; 4; 5; 6; 7; 8; 9; 10; 11; 12]) as H by (rewrite !elem_of_cons; lia).
  repeat (apply elem_of_cons in H as [->|H]; [simpl; destruct (is_leap y); simpl; lia|]). by apply elem_of_nil in H.
Qed.

Lemma days_before_next_year y : days_before_year (y + 1) = days_before_year y + 365 + (if is_leap y then 1 else 0).
Proof.
  unfold days_before_year, is_leap. destruct (_ && _)%bool eqn:E.
  - apply andb_prop in E as [E1 E2]. apply orb_prop in E2 as [E2|E2]; [apply negb_true_iff in E2|]; reflect_bools; lia.
  - apply andb_false_iff in E as [E|E]; [reflect_bools; lia|]. apply orb_false_elim in E as [E1 E2].
    apply negb_false_iff in E1. reflect_bools. lia.
Qed.

Lemma month_next y m : 1 ≤ m ≤ 12 →
  ymd2ord y m 1 + days_in_month y m = if m =? 12 then ymd2ord (y + 1) 1 1 else ymd2ord y (m + 1) 1.
Proof.
  intros Hm. unfold ymd2ord. pose proof (days_before_next_year y) as Hy.
  assert (m ∈ [1; 2; 3; 4; 5; 6; 7; 8; 9; 10; 11; 12]) as H by (rewrite !elem_of_cons; lia).
  unfold days_before_month, days_in_month.
  repeat (apply elem_of_cons in H as [->|H]; [simpl; destruct (is_leap y); simpl in *; lia|]). by apply elem_of_nil in H.
Qed.

Lemma month_first_next i : month_first i + 28 ≤ month_first (i + 1).
Proof.
  unfold month_first. pose proof (Z.mod_pos_bound i 12). set (y := i / 12). set (m := i mod 12 + 1).
  assert (month_first (i + 1) = ymd2ord y m 1 + days_in_month y m) as Heq.
  { rewrite month_next by lia. unfold month_first. destruct (m =? 12) eqn:E; reflect_bools.
    - assert ((i + 1) / 12 = y + 1 ∧ (i + 1) mod 12 = 0) as [-> ->] by lia. done.
    - assert ((i + 1) / 12 = y ∧ (i + 1) mod 12 + 1 = m + 1) as [-> ->] by lia. done. }
  unfold month_first in Heq. rewrite Heq. pose proof (days_in_month_pos y m). lia.
Qed.

Lemma month_first_mono i j : i ≤ j → month_first i ≤ month_first j.
Proof.
  intros Hij. replace j with (i + Z.of_nat (Z.to_nat (j - i))) by lia. generalize (Z.to_nat (j - i)). clear Hij j.
  intros n. induction n as [|n IH]; [rewrite Z.add_0_r; lia|].
  pose proof (month_first_next (i + Z.of_nat n)). replace (i + Z.of_nat (S n)) with (i + Z.of_nat n + 1) by lia. lia.
Qed.

Lemma month_unique i j n : month_first i ≤ n < month_first (i + 1) → month_first j ≤ n < month_first (j + 1) → i = j.
Proof.
  intros Hi Hj. destruct (Z.lt_trichotomy i j) as [H|[H|H]]; [|done|].
  - pose proof (month_first_mono (i + 1) j). lia.
  - pose proof (month_first_mono (j + 1) i). lia.
Qed.

Definition last_month : Z := 9999 * 12 + 11.

Lemma month_window_index now : 0 ≤ now < datetime_end →
  ∃ i, month_first i ≤ now / us_per_day < month_first (i + 1) ∧
    current_utc_month_window now =
      if i =? last_month then Raise UValueError else Ok (month_first i * us_per_day, month_first (i + 1) * us_per_day).
Proof.
  intros Hnow. assert (0 ≤ now / us_per_day < 3652059) as Hn.
  { split; [apply Z.div_pos; [lia|done]|]. apply Z.div_lt_upper_bound; [done|]. unfold datetime_end in Hnow. lia. }
  unfold current_utc_month_window. pose proof (ord2ymd_spec _ Hn) as H.
  destruct (ord2ymd (now / us_per_day)) as [[y m] d]. destruct H as (Hy & Hm & Hd & Hord).
  exists (12 * y + (m - 1)).
  assert ((12 * y + (m - 1)) / 12 = y ∧ (12 * y + (m - 1)) mod 12 + 1 = m) as [Hi1 Hi2] by lia.
  assert (month_first (12 * y + (m - 1)) = ymd2ord y m 1) as Hf by (unfold month_first; by rewrite Hi1, Hi2).
  assert (month_first (12 * y + (m - 1) + 1) = ymd2ord y m 1 + days_in_month y m) as Hf'.
  { rewrite month_next by lia. unfold month_first. destruct (m =? 12) eqn:E; reflect_bools.
    - assert ((12 * y + (m - 1) + 1) / 12 = y + 1 ∧ (12 * y + (m - 1) + 1) mod 12 = 0) as [-> ->] by lia. done.
    - assert ((12 * y + (m - 1) + 1) / 12 = y ∧ (12 * y + (m - 1) + 1) mod 12 + 1 = m + 1) as [-> ->] by lia. done. }
  rewrite Hf, Hf'. split; [unfold ymd2ord in *; lia|]. pose proof (month_next y m Hm) as Hnext.
  unfold last_month. destruct (m =? 12) eqn:E; reflect_bools.
  - destruct (y =? 9999) eqn:E'; reflect_bools.
    + rewrite (proj2 (Z.eqb_eq _ _)) by lia. done.
    + rewrite (proj2 (Z.eqb_neq _ _)) by lia. by rewrite Hnext.
  - rewrite (proj2 (Z.eqb_neq _ _)) by lia. by rewrite Hnext.
Qed.

Lemma day_bounds now a b : a ≤ now / us_per_day < b ↔ a * us_per_day ≤ now < b * us_per_day.
Proof. unfold us_per_day, us_per_second. split; lia. Qed.

(** The default window is the month.  It holds the present instant, and two
    instants have the same window exactly if one lies in the other's: the
    windows partition time.  It fails only in December 9999. *)
Theorem month_windows_tile (now : datetime) :
  0 ≤ now < datetime_end →
  match current_utc_month_window now with
  | Ok (a, b) => a ≤ now < b ∧
      ∀ now', 0 ≤ now' < datetime_end → a ≤ now' < b ↔ current_utc_month_window now' = Ok (a, b)
  | Raise e => e = UValueError ∧ ymd2ord 9999 12 1 * us_per_day ≤ now
  end.
Proof.
  intros Hnow. destruct (month_window_index now Hnow) as (i & Hi & ->). destruct (i =? last_month) eqn:E; reflect_bools.
  - subst i. split; [done|]. apply day_bounds in Hi as [Hi _]. exact Hi.
  - apply day_bounds in Hi as Hi'. split; [done|]. intros now' Hnow'.
    destruct (month_window_index now' Hnow') as (j & Hj & ->). split.
    + intros H. apply day_bounds in H. rewrite (month_unique j i (now' / us_per_day) Hj H).
      by rewrite (proj2 (Z.eqb_neq _ _)).
    + destruct (j =? last_month); [done|]. intros [= <- <-]. by apply day_bounds.
Qed.

(** Where 28 digits are not enough.  The quota check adds in Python's
    decimal context: a consumption that takes the exact sum beyond the limit is
    accepted when the sum, rounded to 28 digits, is the limit.  And the check of
    the decimal places looks at the rounded quantity: one with 34 decimal places
    is accepted and stored. *)
Theorem precision_gaps :
  (let limit := mkDec 100000000000 0 in
   let row := mkUsage 7 (lit "tokens") (mkDec 99999999999999999999999999999 (-18)) 10 in
   let '(o, rows) := consume_quota_in_session 7 (lit "tokens") (mkDec 2 (-18)) (Some limit) (0, 100) 20 [row] in
   o = Ok (mkQuota (lit "tokens") (mkDec 1000000000000000000000000000 (-16)) (Some limit) false) ∧
   dec_ltb limit (usage_sum rows 7 (lit "tokens") 0 100) = true) ∧
  validate_quantity (Finite (mkDec 10000000000000000000000000000000001 (-34))) =
    Ok (mkDec 10000000000000000000000000000000001 (-34)).
Proof. vm_compute. split_and!; reflexivity. Qed.

(** ** A concrete tenant *)

Definition udemo : usage_store :=
  mkIdemStore {[ 7%N := mkTenant (lit "acme") ACTIVE None false ]} ∅ [mkUsage 7 (lit "tokens") (mkDec 40 (-1)) 10] 0.
Definition udemo_consume (coefficient at_ : Z) : consumption :=
  mkConsumption 7 (lit "tokens") (Finite (mkDec coefficient (-1))) (Some 0) (Some 100) 5 at_ at_
    {[ lit "tokens" := EntNumber (mkDec 10 0) ]}.
Definition udemo_fingerprint (p : pystr * dec) : pystr := p.1 ++ [Z.to_N (coef p.2)].

(** Three consumptions checked against the limit of 10, one of them refused, a row of 1.5 ingested: 10 are used, of
    which 1.5 are a stray. *)
Definition udemo_cmds : list ucommand :=
  [UConsume (udemo_consume 35 20); UConsumeKey 21 (udemo_consume 10 21) (lit "key-1"); UConsume (udemo_consume 25 22);
   UIngest (mkUsage 7 (lit "tokens") (mkDec 15 (-1)) 30)].
Abbreviation udemo_after := (uhistory udemo_fingerprint idemo_uuid default_idempotency_config).
Lemma quota_respected_witness :
  strays udemo_fingerprint idemo_uuid default_idempotency_config 7 (lit "tokens") (0, 100) (mkDec 10 0) 1 udemo_cmds udemo = 15 ∧
  used_units 7 (lit "tokens") (0, 100) 1 (udemo_after udemo_cmds udemo).(is_rest) ≤ 100 + 15.
Proof.
  split; [vm_compute; reflexivity|].
  refine (proj2 (quota_respected udemo_fingerprint idemo_uuid default_idempotency_config 7 (lit "tokens") (0, 100) (mkDec 10 0) 1 udemo_cmds udemo _ _ _ _)).
  - lia.
  - vm_compute. reflexivity.
  - repeat constructor; try (intros _ _ ? [= <-]); unfold fits_units; simpl; lia.
  - repeat constructor; unfold fits_units; simpl; lia.
Defined.

(** The end of a month.  A consumption computes its window in the last second of January, waits, and is dated in
    February: it was checked against the use of January, and takes February beyond the limit. *)
Definition month_start (m : Z) : datetime := ymd2ord 2026 m 1 * us_per_day.
Definition rollover (now at_ : datetime) : consumption :=
  mkConsumption 7 (lit "tokens") (Finite (mkDec 6 0)) None None now at_ at_ {[ lit "tokens" := EntNumber (mkDec 10 0) ]}.
Definition rollover_cmds : list ucommand :=
  [UConsume (rollover (month_start 2) (month_start 2)); UConsume (rollover (month_start 2 - 1) (month_start 2 + 1))].
Definition udemo_empty : usage_store := mkIdemStore {[ 7%N := mkTenant (lit "acme") ACTIVE None false ]} ∅ [] 0.
Theorem rollover_race :
  let february := (month_start 2, month_start 3) in
  used_units 7 (lit "tokens") february 0 (udemo_after rollover_cmds udemo_empty).(is_rest) = 12 ∧
  strays udemo_fingerprint idemo_uuid default_idempotency_config 7 (lit "tokens") february (mkDec 10 0) 0 rollover_cmds udemo_empty = 6.
Proof. vm_compute. split; reflexivity. Qed.

Lemma key_consumes_once_witness :
  ∃ r s1, consume_quota_idempotent udemo_fingerprint idemo_uuid default_idempotency_config 20 (udemo_consume 35 20)
            (lit "key-1") udemo = (Ok (false, r), s1) ∧
    consume_quota_idempotent udemo_fingerprint idemo_uuid default_idempotency_config 30 (udemo_consume 35 30)
      (lit "key-1") s1 = (Ok (true, r), s1) ∧ length s1.(is_rest) = 2%nat.
Proof.
  eexists _, _. split; [vm_compute; reflexivity|].
  edestruct (key_consumes_once udemo_fingerprint idemo_uuid default_idempotency_config 20 (udemo_consume 35 20)
    (lit "key-1") udemo) as (q & Hq & _ & H); [apply iwf_empty|vm_compute; reflexivity|].
  injection Hq as <-. split; [|reflexivity]. apply (H (Forall_nil_2 _)); [reflexivity|reflexivity| |].
  - eexists _, _. vm_compute. reflexivity.
  - vm_compute. reflexivity.
Defined.

Lemma month_windows_tile_witness :
  current_utc_month_window (ymd2ord 2026 12 31 * us_per_day) =
    Ok (ymd2ord 2026 12 1 * us_per_day, ymd2ord 2027 1 1 * us_per_day) ∧
  ymd2ord 2026 12 1 * us_per_day ≤ ymd2ord 2026 12 31 * us_per_day.
Proof.
  pose proof (month_windows_tile (ymd2ord 2026 12 31 * us_per_day)) as H.
  split; [vm_compute; reflexivity|]. assert (0 ≤ ymd2ord 2026 12 31 * us_per_day < datetime_end) as Hr.
  { split; [vm_compute; discriminate|vm_compute; reflexivity]. }
  specialize (H Hr).
  assert (current_utc_month_window (ymd2ord 2026 12 31 * us_per_day) =
    Ok (ymd2ord 2026 12 1 * us_per_day, ymd2ord 2027 1 1 * us_per_day)) as E by (vm_compute; reflexivity).
  rewrite E in H. destruct H as [[H _] _]. exact H.
Defined.
