(* ===== verification/OutboxModel.v ===== *)
(** * The outbox: data, errors, texts and delays
    (saas_os/core/outbox/models.py, errors.py, config.py, and the helpers of
    dispatch.py)

    The [core.outbox_events] row, the dispatch configuration, the exceptions a
    consumer may raise, the durable [last_error] text with its
    idempotent-retry deadline tag, and the retry delays.

    A configuration [float] is an exact rational and a [float] product is exact;
    what is kept of IEEE arithmetic is the [OverflowError] of converting
    [2**exponent] to a [float] (exponents of 1024 and more) and the rounding of
    [timedelta(seconds=...)] to microseconds. *)

From Stdlib Require Import QArith Qminmax.
From S2P Require Import Prelude PyStr PyTime TenantLifecycle.

#[global] Open Scope Z_scope.

(** ** models.py *)

Inductive outbox_status : Type :=
| OUTBOX_STATUS_PENDING | OUTBOX_STATUS_PUBLISHED | OUTBOX_STATUS_DEAD_LETTERED.

#[export] Instance outbox_status_eq_dec : EqDecision outbox_status.
Proof. solve_decision. Defined.

Inductive json : Type :=
| JNull | JBool (b : bool) | JNum (z : Z) | JStr (s : pystr)
| JList (l : list json) | JObj (l : list (pystr * json)).

Record OutboxEvent : Type := mkOutboxEvent {
  ev_tenant_id : uuid;
  ev_event_type : pystr;
  ev_aggregate_type : pystr;
  ev_aggregate_id : pystr;
  ev_payload : list (pystr * json);
  ev_correlation_id : option pystr;
  ev_status : outbox_status;
  ev_attempts : Z;
  ev_next_attempt_at : datetime;
  ev_last_error : option pystr;
  ev_published_at : option datetime;
  ev_claim_token : option uuid;
  ev_external_started_at : option datetime;
  ev_external_started_claim : option uuid;
  ev_created_at : datetime;
  ev_updated_at : datetime;
}.

(** Field updates, one per column a transition writes. *)
Definition set_status (v : outbox_status) (r : OutboxEvent) : OutboxEvent :=
  mkOutboxEvent r.(ev_tenant_id) r.(ev_event_type) r.(ev_aggregate_type) r.(ev_aggregate_id)
    r.(ev_payload) r.(ev_correlation_id) v r.(ev_attempts) r.(ev_next_attempt_at)
    r.(ev_last_error) r.(ev_published_at) r.(ev_claim_token) r.(ev_external_started_at)
    r.(ev_external_started_claim) r.(ev_created_at) r.(ev_updated_at).
Definition set_attempts (v : Z) (r : OutboxEvent) : OutboxEvent :=
  mkOutboxEvent r.(ev_tenant_id) r.(ev_event_type) r.(ev_aggregate_type) r.(ev_aggregate_id)
    r.(ev_payload) r.(ev_correlation_id) r.(ev_status) v r.(ev_next_attempt_at)
    r.(ev_last_error) r.(ev_published_at) r.(ev_claim_token) r.(ev_external_started_at)
    r.(ev_external_started_claim) r.(ev_created_at) r.(ev_updated_at).
Definition set_next_attempt_at (v : datetime) (r : OutboxEvent) : OutboxEvent :=
  mkOutboxEvent r.(ev_tenant_id) r.(ev_event_type) r.(ev_aggregate_type) r.(ev_aggregate_id)
    r.(ev_payload) r.(ev_correlation_id) r.(ev_status) r.(ev_attempts) v
    r.(ev_last_error) r.(ev_published_at) r.(ev_claim_token) r.(ev_external_started_at)
    r.(ev_external_started_claim) r.(ev_created_at) r.(ev_updated_at).
Definition set_last_error (v : option pystr) (r : OutboxEvent) : OutboxEvent :=
  mkOutboxEvent r.(ev_tenant_id) r.(ev_event_type) r.(ev_aggregate_type) r.(ev_aggregate_id)
    r.(ev_payload) r.(ev_correlation_id) r.(ev_status) r.(ev_attempts) r.(ev_next_attempt_at)
    v r.(ev_published_at) r.(ev_claim_token) r.(ev_external_started_at)
    r.(ev_external_started_claim) r.(ev_created_at) r.(ev_updated_at).
Definition set_published_at (v : option datetime) (r : OutboxEvent) : OutboxEvent :=
  mkOutboxEvent r.(ev_tenant_id) r.(ev_event_type) r.(ev_aggregate_type) r.(ev_aggregate_id)
    r.(ev_payload) r.(ev_correlation_id) r.(ev_status) r.(ev_attempts) r.(ev_next_attempt_at)
    r.(ev_last_error) v r.(ev_claim_token) r.(ev_external_started_at)
    r.(ev_external_started_claim) r.(ev_created_at) r.(ev_updated_at).
Definition set_claim_token (v : option uuid) (r : OutboxEvent) : OutboxEvent :=
  mkOutboxEvent r.(ev_tenant_id) r.(ev_event_type) r.(ev_aggregate_type) r.(ev_aggregate_id)
    r.(ev_payload) r.(ev_correlation_id) r.(ev_status) r.(ev_attempts) r.(ev_next_attempt_at)
    r.(ev_last_error) r.(ev_published_at) v r.(ev_external_started_at)
    r.(ev_external_started_claim) r.(ev_created_at) r.(ev_updated_at).
Definition set_marker (at_ : option datetime) (claim : option uuid) (r : OutboxEvent) : OutboxEvent :=
  mkOutboxEvent r.(ev_tenant_id) r.(ev_event_type) r.(ev_aggregate_type) r.(ev_aggregate_id)
    r.(ev_payload) r.(ev_correlation_id) r.(ev_status) r.(ev_attempts) r.(ev_next_attempt_at)
    r.(ev_last_error) r.(ev_published_at) r.(ev_claim_token) at_ claim
    r.(ev_created_at) r.(ev_updated_at).
Definition set_payload (v : list (pystr * json)) (r : OutboxEvent) : OutboxEvent :=
  mkOutboxEvent r.(ev_tenant_id) r.(ev_event_type) r.(ev_aggregate_type) r.(ev_aggregate_id)
    v r.(ev_correlation_id) r.(ev_status) r.(ev_attempts) r.(ev_next_attempt_at)
    r.(ev_last_error) r.(ev_published_at) r.(ev_claim_token) r.(ev_external_started_at)
    r.(ev_external_started_claim) r.(ev_created_at) r.(ev_updated_at).
(** [onupdate=now()]: every [UPDATE] of the row. *)
Definition touch (now : datetime) (r : OutboxEvent) : OutboxEvent :=
  mkOutboxEvent r.(ev_tenant_id) r.(ev_event_type) r.(ev_aggregate_type) r.(ev_aggregate_id)
    r.(ev_payload) r.(ev_correlation_id) r.(ev_status) r.(ev_attempts) r.(ev_next_attempt_at)
    r.(ev_last_error) r.(ev_published_at) r.(ev_claim_token) r.(ev_external_started_at)
    r.(ev_external_started_claim) r.(ev_created_at) now.

(** The [CHECK] constraints of the table. *)
Definition row_checks (r : OutboxEvent) : Prop :=
  0 ≤ r.(ev_attempts) ∧
  (is_Some r.(ev_claim_token) → r.(ev_status) = OUTBOX_STATUS_PENDING) ∧
  (is_Some r.(ev_external_started_at) ↔ is_Some r.(ev_external_started_claim)).

(** ** config.py *)

Record OutboxDispatchConfig : Type := mkConfig {
  max_attempts : Z;
  retry_base_seconds : Q;
  retry_max_seconds : Q;
  retry_jitter_ratio : Q;
  lease_seconds : Q;
  enqueue_retry_seconds : Q;
  batch_size : Z;
  per_tenant_limit : Z;
  poll_seconds : Z;
  retry_hint_max_seconds : Q;
  external_effect_markers : bool;
}.

(** The dataclass defaults. *)
Definition default_config : OutboxDispatchConfig :=
  mkConfig 10 30 3600 (1 # 10) 900 30 100 25 10 86400 false.

Definition Qltb (a b : Q) : bool := negb (Qle_bool b a).

(** [__post_init__]: [None], or the message of [OutboxConfigurationError]. *)
Definition post_init (c : OutboxDispatchConfig) : option string :=
  if max_attempts c <? 1 then Some "OUTBOX_MAX_ATTEMPTS must be >= 1"
  else if Qle_bool (retry_base_seconds c) 0 || Qltb (retry_max_seconds c) (retry_base_seconds c)
  then Some "OUTBOX_RETRY_BASE_SECONDS must be > 0 and <= OUTBOX_RETRY_MAX_SECONDS"
  else if negb (Qle_bool 0 (retry_jitter_ratio c) && Qle_bool (retry_jitter_ratio c) 1)
  then Some "OUTBOX_RETRY_JITTER_RATIO must be within [0, 1]"
  else if Qle_bool (lease_seconds c) 0 || Qle_bool (enqueue_retry_seconds c) 0
  then Some "OUTBOX_LEASE_SECONDS and OUTBOX_ENQUEUE_RETRY_SECONDS must be > 0"
  else if (batch_size c <? 1) || (per_tenant_limit c <? 1)
  then Some "OUTBOX_BATCH_SIZE and OUTBOX_PER_TENANT_LIMIT must be >= 1"
  else if negb ((1 <=? poll_seconds c) && (poll_seconds c <=? 60)) || negb (60 mod poll_seconds c =? 0)
  then Some "OUTBOX_POLL_SECONDS must be a divisor of 60"
  else if negb (Qltb 0 (retry_hint_max_seconds c) && Qle_bool (retry_hint_max_seconds c) (31 * 86400))
  then Some "OUTBOX_RETRY_HINT_MAX_SECONDS must be > 0 and at most 31 days"
  else None.

Definition valid_config (c : OutboxDispatchConfig) : Prop := post_init c = None.

(** [timedelta(seconds=q)]: microseconds, rounded half to even. *)
Definition round_half_even (q : Q) : Z :=
  let n := Qnum q in let d := Zpos (Qden q) in
  let f := n / d in
  let r := 2 * (n mod d) in
  if r <? d then f else if d <? r then f + 1 else if Z.even f then f else f + 1.
Definition timedelta_seconds (q : Q) : timedelta := round_half_even (q * inject_Z us_per_second).

Definition lease (c : OutboxDispatchConfig) : timedelta := timedelta_seconds (lease_seconds c).
Definition enqueue_retry_delay (c : OutboxDispatchConfig) : timedelta :=
  timedelta_seconds (enqueue_retry_seconds c).

(** ** errors.py: what a consumer may raise *)

(** [RetryAfterEventError.retry_after_seconds]: any Python object. *)
Inductive retry_hint : Type :=
| HintBool (b : bool)
| HintInt (z : Z)
| HintFloat (q : Q)          (* a finite float *)
| HintInf (negative : bool)
| HintNaN
| HintOther.                 (* neither an [int] nor a [float] *)

Record AmbiguousOutcome : Type := mkAmbiguous {
  reason : pystr;
  phase : pystr;
  retry_within : option timedelta;
  at_least_once : bool;
}.

(** The constructor of [AmbiguousOutcomeError]; [None] is its [ValueError]. *)
Definition AmbiguousOutcomeError (reason phase : pystr) (retry_within : option timedelta)
    (at_least_once : bool) : option AmbiguousOutcome :=
  match retry_within with
  | Some w =>
      if at_least_once then None
      else if w <=? 0 then None
      else Some (mkAmbiguous reason phase retry_within at_least_once)
  | None => Some (mkAmbiguous reason phase retry_within at_least_once)
  end.

(** An exception object: its identity, its class name and message, and which
    of the classes the outbox distinguishes it is an instance of.  A group
    ([BaseExceptionGroup]) also has members. *)
Record exc_info : Type := mkExc {
  exc_id : N;
  type_name : pystr;
  message : pystr;
  is_permanent : bool;                       (* PermanentEventError *)
  is_retry_after : option retry_hint;        (* RetryAfterEventError *)
  is_ambiguous : option AmbiguousOutcome;    (* AmbiguousOutcomeError *)
  is_confirmed_not_sent : bool;              (* ConfirmedNotSentError *)
  is_timeout : bool;                         (* TimeoutError, httpx.TimeoutException *)
  is_not_started : bool;                     (* ExternalEffectNotStartedError *)
}.

Inductive exc : Type :=
| Leaf (i : exc_info)
| Group (i : exc_info) (members : list exc).

Definition info (e : exc) : exc_info := match e with Leaf i => i | Group i _ => i end.

(** [error: BaseException | str] *)
Inductive error_arg : Type :=
| ErrText (s : pystr)
| ErrExc (e : exc).

(** ** dispatch.py: the durable error text *)

Definition MAX_ERROR_LENGTH : nat := 500.
Definition CRASH_AFTER_START_ERROR : pystr :=
  lit "CrashAfterStart: outcome unknown; not retried automatically".
Definition OUTCOME_UNKNOWN_PREFIX : pystr := lit "OutcomeUnknown: ".
Definition REPLAY_HINT : pystr :=
  lit "Check the destination, then replay (saas-os-operator replay-outbox-events).".
Definition TAG_MARKER : pystr := lit "[idempotent-retry-until ".
Definition NEUTRAL_MARKER : pystr := lit "(idempotent-retry-until ".
(** [datetime.min.replace(tzinfo=UTC)] *)
Definition DEADLINE_UNREADABLE : datetime := 0.

Definition error_text (error : error_arg) : pystr :=
  match error with
  | ErrText s => s
  | ErrExc e => type_name (info e) ++ lit ": " ++ message (info e)
  end.

Definition describe_error (error : error_arg) : pystr :=
  let text := replace [0%N] [65533%N] (error_text error) in
  let text := replace TAG_MARKER NEUTRAL_MARKER text in
  take MAX_ERROR_LENGTH text.

Definition deadline_tag (deadline : datetime) : pystr :=
  TAG_MARKER ++ isoformat_seconds deadline ++ lit "]".

Definition tag_length : nat := 50.

(** [_RETRY_DEADLINE_TAG.search(text)]: the start and group 1 of a tag at the
    end of [text], where [$] also matches before a final newline. *)
Definition tag_search (text : pystr) : option (nat * pystr) :=
  let body := match last text with
              | Some c => if (c =? 10)%N then take (length text - 1) text else text
              | None => text
              end in
  let start := (length body - tag_length)%nat in
  let tag := drop start body in
  let group := sub tag (length TAG_MARKER) 25 in
  if bool_decide (tag_length ≤ length body)%nat && startswith TAG_MARKER tag &&
     iso_shape group && bool_decide (drop (tag_length - 1) tag = lit "]")
  then Some (start, group) else None.

Definition retry_deadline (last_error : option pystr) : option datetime :=
  let text := default [] last_error in
  match rfind TAG_MARKER text with
  | None => None
  | Some marker_at =>
      match tag_search text with
      | Some (start, group) =>
          if bool_decide (start = marker_at) then
            match fromisoformat group with
            | Some deadline => Some deadline
            | None => Some DEADLINE_UNREADABLE
            end
          else Some DEADLINE_UNREADABLE
      | None => Some DEADLINE_UNREADABLE
      end
  end.

Definition with_tag (text : pystr) (tag : option pystr) : pystr :=
  match tag with
  | None => describe_error (ErrText text)
  | Some tag =>
      take (MAX_ERROR_LENGTH - length tag - 1) (describe_error (ErrText text)) ++ lit " " ++ tag
  end.

Definition record_error (row : OutboxEvent) (error : error_arg) : OutboxEvent :=
  let deadline := retry_deadline row.(ev_last_error) in
  set_last_error (Some (with_tag (describe_error error) (deadline_tag <$> deadline))) row.

Definition outcome_unknown (error : AmbiguousOutcome) (note : pystr) : pystr :=
  lit "OutcomeUnknown: " ++ take 120 (reason error) ++ lit " (" ++ take 40 (phase error) ++
  lit "); " ++ note.

Definition dead_letter (row : OutboxEvent) (reason : option error_arg) : OutboxEvent :=
  let row := set_claim_token None (set_status OUTBOX_STATUS_DEAD_LETTERED row) in
  match reason with
  | Some e => record_error row e
  | None => row
  end.

Definition clear_marker (row : OutboxEvent) : OutboxEvent := set_marker None None row.

Definition marked_by (row : OutboxEvent) (claim_token : option uuid) : bool :=
  match claim_token with
  | None => false
  | Some _ => bool_decide (row.(ev_external_started_claim) = claim_token)
  end.

(** [_leaves] *)
Fixpoint leaves (e : exc) : list exc_info :=
  match e with
  | Leaf i => [i]
  | Group _ members => concat (map leaves members)
  end.

Definition is_attested_not_sent (error : exc) (block_exception : option exc) : bool :=
  match block_exception with
  | None => false
  | Some block =>
      if negb (forallb is_confirmed_not_sent (leaves error)) then false
      else if negb (forallb is_confirmed_not_sent (leaves block)) then false
      else forallb (λ leaf, bool_decide (exc_id leaf ∈ (exc_id <$> leaves block))) (leaves error)
  end.

(** ** dispatch.py: delays *)

Inductive outbox_exn : Type :=
| OverflowError
| ExternalEffectNotStartedError (event_id : uuid)
| InvalidOutboxEventError (field why : string)
| IntegrityError
| RowSecurityViolation
| TenantError (e : tenant_error)
| ReplayRefused (why : string).

Definition retry_delay (attempts : Z) (c : OutboxDispatchConfig) (rng : Q) : result outbox_exn timedelta :=
  let exponent := Z.max (attempts - 1) 0 in
  if 1024 <=? exponent then Raise OverflowError
  else
    let delay := Qmin (retry_base_seconds c * inject_Z (2 ^ exponent)) (retry_max_seconds c) in
    let jitter := (delay * retry_jitter_ratio c * rng)%Q in
    Ok (timedelta_seconds (delay + jitter)%Q).

Definition retry_hint_delay (retry_after : retry_hint) (c : OutboxDispatchConfig) :
    result outbox_exn timedelta :=
  match retry_after with
  | HintBool _ | HintOther | HintNaN | HintInf true => Ok 0
  | HintInf false => Ok (timedelta_seconds (retry_hint_max_seconds c))
  | HintInt z =>
      if z <=? 0 then Ok 0
      else if 2 ^ 1024 - 2 ^ 970 <=? z then Raise OverflowError
      else Ok (timedelta_seconds (Qmin (inject_Z z) (retry_hint_max_seconds c)))
  | HintFloat q =>
      if Qle_bool q 0 then Ok 0 else Ok (timedelta_seconds (Qmin q (retry_hint_max_seconds c)))
  end.
