(* ===== verification/OutboxText.v ===== *)
(** * The outbox's durable texts and delays: properties

    The [last_error] column carries the idempotent-retry deadline of an event
    as a tag at the end of a free text that quotes remote servers.  The
    theorems here are that the tag cannot be forged, lost or misread by any
    sequence of recorded errors, that the column's width is respected, and that
    the retry delays are bounded and grow. *)

From Stdlib Require Import QArith Qminmax Lqa.
From S2P Require Import Prelude PyStr PyTime TenantLifecycle OutboxModel.

#[global] Open Scope Z_scope.

#[global] Arguments deadline_tag : simpl never.
#[global] Arguments isoformat_seconds : simpl never.
#[global] Arguments describe_error : simpl never.
#[global] Arguments record_error : simpl never.
#[global] Arguments dead_letter : simpl never.

(** ** Reading dates *)

Ltac Zify.zify_post_hook ::= Z.div_mod_to_equations.

Lemma ymd2ord_range y m d :
  1 ≤ y ≤ 9999 → 1 ≤ m ≤ 12 → 1 ≤ d ≤ days_in_month y m → 0 ≤ ymd2ord y m d < 3652059.
Proof.
  intros Hy Hm Hd. unfold ymd2ord.
  assert (0 ≤ days_before_month y m ∧
          days_before_month y m + days_in_month y m ≤ 365 + (if is_leap y then 1 else 0)) as Hb.
  { unfold days_before_month, days_in_month.
    assert (m ∈ [1; 2; 3; 4; 5; 6; 7; 8; 9; 10; 11; 12]) as Hin by (rewrite !elem_of_cons; lia).
    rewrite !elem_of_cons, elem_of_nil in Hin.
    destruct_or! Hin; subst; try done; destruct (is_leap y); simpl; lia. }
  assert (y = 9999 ∨ y ≤ 9998) as [->|Hy'] by lia.
  - change (is_leap 9999) with false in Hb. change (days_before_year 9999) with 3651694. lia.
  - unfold days_before_year in *. destruct (is_leap y); lia.
Qed.

(** What [fromisoformat] reads is a whole second of the representable range. *)
Lemma fromisoformat_range s t : fromisoformat s = Some t →
  0 ≤ t < datetime_end ∧ t mod us_per_second = 0.
Proof.
  unfold fromisoformat. intros H.
  destruct (parse_digits (sub s 0 4)) as [y|]; [|done].
  destruct (parse_digits (sub s 5 2)) as [mo|]; [|done].
  destruct (parse_digits (sub s 8 2)) as [d|]; [|done].
  destruct (parse_digits (sub s 11 2)) as [h|] eqn:Eh; [|done].
  destruct (parse_digits (sub s 14 2)) as [mi|] eqn:Emi; [|done].
  destruct (parse_digits (sub s 17 2)) as [sec|] eqn:Es; [|done].
  assert (∀ s n, parse_digits s = Some n → 0 ≤ n) as Hpos.
  { intros l. induction l as [|c l IH] using rev_ind; unfold parse_digits in *; intros n; simpl.
    - intros [= <-]. lia.
    - rewrite foldl_app. simpl. destruct (foldl _ _ l) as [m|]; [|done]. simpl.
      destruct (is_digit c) eqn:Ec; [|done]. intros [= <-].
      unfold is_digit in Ec. apply andb_prop in Ec as [Ec _]. apply N.leb_le in Ec.
      specialize (IH m eq_refl). lia. }
  apply Hpos in Eh, Emi, Es.
  destruct (_ && _ && _ && _ && _ && _ && _ && _ && _)%bool eqn:E; [|done].
  reflect_bools. injection H as <-.
  pose proof (ymd2ord_range y mo d) as Hr.
  unfold datetime_end, us_per_day, us_per_second in *. split; [lia|].
  rewrite Z.mul_assoc, <-Z.mul_add_distr_r. apply Z.mod_mul. lia.
Qed.

(** ** The deadline tag *)

Lemma deadline_tag_shape d : ∃ iso, deadline_tag d = TAG_MARKER ++ iso ++ lit "]" ∧
  iso = isoformat_seconds d ∧ length iso = 25%nat ∧ iso_shape iso = true ∧ 91%N ∉ iso ++ lit "]".
Proof.
  destruct (isoformat_is_text d) as (y & mo & dd & h & mi & s & Hiso).
  exists (isoformat_seconds d). unfold deadline_tag. rewrite Hiso.
  split_and!; try done; [apply iso_shape_text|].
  intros [Hin|Hin]%elem_of_app; [|set_solver].
  pose proof (iso_text_chars y mo dd h mi s) as Hc. rewrite forallb_forall in Hc.
  apply list_elem_of_In, Hc in Hin. done.
Qed.

Lemma length_deadline_tag d : length (deadline_tag d) = tag_length.
Proof.
  destruct (deadline_tag_shape d) as (iso & -> & _ & Hlen & _). rewrite !length_app, Hlen. done.
Qed.

(** The marker is found at the start of a tag, whatever precedes it. *)
Lemma rfind_tag text d : rfind TAG_MARKER (text ++ deadline_tag d) = Some (length text).
Proof.
  rewrite (rfind_app _ _ _ 0%nat); [f_equal; lia|].
  destruct (deadline_tag_shape d) as (iso & -> & _ & _ & _ & Hno).
  assert (¬ occurs TAG_MARKER (lit "idempotent-retry-until " ++ iso ++ lit "]")) as Hn.
  { intros H. apply (occurs_app_free 91) in H; [|by vm_compute; set_solver].
    by apply occurs_head in H. }
  change (TAG_MARKER ++ iso ++ lit "]") with
    (91%N :: (lit "idempotent-retry-until " ++ iso ++ lit "]")).
  cbn [rfind]. rewrite (proj2 (rfind_None _ _) Hn).
  change (91%N :: (lit "idempotent-retry-until " ++ iso ++ lit "]")) with
    (TAG_MARKER ++ iso ++ lit "]").
  by rewrite startswith_app.
Qed.

Lemma tag_search_tag text d :
  tag_search (text ++ deadline_tag d) = Some (length text, isoformat_seconds d).
Proof.
  destruct (deadline_tag_shape d) as (iso & Htag & -> & Hlen & Hshape & _).
  pose proof (length_deadline_tag d) as Hl. unfold tag_search.
  assert (last (text ++ deadline_tag d) = Some 93%N) as ->.
  { rewrite Htag, !app_assoc. exact (last_snoc 93%N _). }
  simpl (if (93 =? 10)%N then _ else _). rewrite length_app, Hl.
  replace (length text + tag_length - tag_length)%nat with (length text) by lia.
  rewrite drop_app_length. rewrite bool_decide_eq_true_2 by lia.
  rewrite Htag at 1. rewrite startswith_app.
  assert (sub (deadline_tag d) (length TAG_MARKER) 25 = isoformat_seconds d) as Hsub.
  { unfold sub. rewrite Htag, drop_app_length, <-Hlen. apply take_app_length. }
  rewrite Hsub, Hshape.
  assert (drop (tag_length - 1) (deadline_tag d) = lit "]") as ->.
  { rewrite Htag, app_assoc.
    replace (tag_length - 1)%nat with (length (TAG_MARKER ++ isoformat_seconds d)).
    - apply drop_app_length.
    - rewrite length_app, Hlen. done. }
  by rewrite bool_decide_eq_true_2.
Qed.

(** A text ending with the tag of [d] carries the deadline [d], truncated to
    whole seconds. *)
Lemma retry_deadline_tag text d : 0 ≤ d < datetime_end →
  retry_deadline (Some (text ++ deadline_tag d)) = Some (d - d mod us_per_second).
Proof.
  intros Hd. unfold retry_deadline. simpl. rewrite rfind_tag, tag_search_tag.
  rewrite bool_decide_eq_true_2 by done. by rewrite isoformat_roundtrip.
Qed.

Lemma retry_deadline_whole o d : retry_deadline o = Some d →
  0 ≤ d < datetime_end ∧ d mod us_per_second = 0.
Proof.
  unfold retry_deadline. destruct (rfind _ _); [|done].
  assert (0 ≤ DEADLINE_UNREADABLE < datetime_end ∧ DEADLINE_UNREADABLE mod us_per_second = 0)
    as Hmin by done.
  destruct (tag_search _) as [[start group]|]; [|by intros [= <-]].
  case_bool_decide; [|by intros [= <-]].
  destruct (fromisoformat group) eqn:E; intros [= <-]; [by eapply fromisoformat_range|done].
Qed.

(** ** [describe_error] *)

Lemma describe_error_no_marker e : ¬ occurs TAG_MARKER (describe_error e).
Proof.
  unfold describe_error. intros H%occurs_take. revert H.
  apply (replace_not_occurs 91 (lit "idempotent-retry-until ") 40 (lit "idempotent-retry-until "));
    vm_compute; set_solver.
Qed.

Lemma describe_error_length e : (length (describe_error e) ≤ MAX_ERROR_LENGTH)%nat.
Proof. unfold describe_error. rewrite length_take. lia. Qed.

Lemma retry_deadline_described e : retry_deadline (Some (describe_error e)) = None.
Proof.
  unfold retry_deadline. simpl. by rewrite (proj2 (rfind_None _ _) (describe_error_no_marker e)).
Qed.

Lemma with_tag_length text o : (length (with_tag text (deadline_tag <$> o)) ≤ MAX_ERROR_LENGTH)%nat.
Proof.
  destruct o as [d|]; [|apply describe_error_length].
  change (deadline_tag <$> Some d) with (Some (deadline_tag d)). unfold with_tag.
  rewrite !length_app, length_take, !length_deadline_tag.
  change (length (lit " ")) with 1%nat. unfold MAX_ERROR_LENGTH, tag_length. lia.
Qed.

Lemma retry_deadline_with_tag text o :
  (∀ d, o = Some d → 0 ≤ d < datetime_end) →
  retry_deadline (Some (with_tag text (deadline_tag <$> o))) = (λ d, d - d mod us_per_second) <$> o.
Proof.
  destruct o as [d|]; intros Ho; [|apply retry_deadline_described].
  change (deadline_tag <$> Some d) with (Some (deadline_tag d)). unfold with_tag.
  rewrite app_assoc. apply retry_deadline_tag. by apply Ho.
Qed.

(** Recording an error never changes the deadline an event carries. *)
Lemma record_error_deadline row e :
  retry_deadline (ev_last_error (record_error row e)) = retry_deadline (ev_last_error row).
Proof.
  unfold record_error. simpl. rewrite retry_deadline_with_tag.
  - destruct (retry_deadline (ev_last_error row)) as [d|] eqn:E; simpl; [|done].
    apply retry_deadline_whole in E as [_ ->]. f_equal. lia.
  - intros d Hd. by apply retry_deadline_whole in Hd as [? _].
Qed.

Lemma dead_letter_deadline row o :
  retry_deadline (ev_last_error (dead_letter row o)) = retry_deadline (ev_last_error row).
Proof. destruct o; unfold dead_letter; [by rewrite record_error_deadline|done]. Qed.
#[export] Hint Rewrite record_error_deadline dead_letter_deadline : saas_simpl.

(** The idempotent-retry deadline survives every sequence of recorded
    errors: whatever consumers, dispatchers and lost leases record after it, the
    event's [last_error] still reads back as the same deadline (or as none, if
    it had none: no error text can forge one), and the column never exceeds its
    500 characters. *)
Theorem deadline_survives_errors (row : OutboxEvent) (errors : list error_arg) :
  let row' := foldl record_error row errors in
  retry_deadline (ev_last_error row') = retry_deadline (ev_last_error row) ∧
  (errors ≠ [] → ∃ text, ev_last_error row' = Some text ∧ (length text ≤ MAX_ERROR_LENGTH)%nat).
Proof.
  cbv zeta. induction errors as [|e errors IH] using rev_ind; [done|].
  rewrite foldl_app. destruct IH as [IH _]. cbn [foldl]. split; [by rewrite record_error_deadline|].
  intros _. unfold record_error at 1. cbn [ev_last_error set_last_error].
  eexists. split; [done|]. apply with_tag_length.
Qed.

Definition tagged_row : OutboxEvent :=
  mkOutboxEvent 1 (lit "webhook.delivery") (lit "webhook") (lit "7") [] None
    OUTBOX_STATUS_PENDING 2 5 (Some (with_tag (lit "x") (Some (deadline_tag 63000000000000000))))
    None (Some 9%N) None None 0 0.

(** A text that quotes the marker and a NUL does not disturb the deadline. *)
Lemma deadline_survives_errors_witness :
  [ErrText (lit "[idempotent-retry-until 9999-12-31T00:00:00+00:00]" ++ [0%N])] ≠ [] ∧
  retry_deadline (ev_last_error (record_error tagged_row
    (ErrText (lit "[idempotent-retry-until 9999-12-31T00:00:00+00:00]" ++ [0%N]))))
  = Some 63000000000000000.
Proof.
  split; [done|].
  destruct (deadline_survives_errors tagged_row
    [ErrText (lit "[idempotent-retry-until 9999-12-31T00:00:00+00:00]" ++ [0%N])]) as [H _].
  etransitivity; [exact H|]. vm_compute. reflexivity.
Defined.

(** Writing a deadline as a tag after any text and reading it back gives
    the deadline truncated to whole seconds (never a later one), and a text
    described without a tag carries no deadline, whatever it quotes. *)
Theorem deadline_roundtrip (text : pystr) (d : datetime) :
  0 ≤ d < datetime_end →
  retry_deadline (Some (with_tag text (Some (deadline_tag d)))) = Some (d - d mod us_per_second) ∧
  d - d mod us_per_second ≤ d ∧
  retry_deadline (Some (with_tag text None)) = None.
Proof.
  intros Hd. split_and!.
  - apply (retry_deadline_with_tag text (Some d)). by intros ? [= <-].
  - unfold us_per_second. lia.
  - apply retry_deadline_described.
Qed.

Lemma deadline_roundtrip_witness :
  0 ≤ 63000000000123456 < datetime_end ∧
  retry_deadline (Some (with_tag (lit "boom") (Some (deadline_tag 63000000000123456))))
    = Some 63000000000000000.
Proof. split; [done|]. apply (deadline_roundtrip (lit "boom") 63000000000123456). done. Defined.

(** ** Delays *)

Lemma round_half_even_spec q : let r := round_half_even q in let d := Zpos (Qden q) in
  - d ≤ 2 * (r * d - Qnum q) ≤ d ∧
  (2 * (r * d - Qnum q) = d ∨ 2 * (r * d - Qnum q) = - d → Z.Even r).
Proof.
  destruct q as [n d]. unfold round_half_even. simpl.
  pose proof (Z.div_mod n (Zpos d)) as Hdm. pose proof (Z.mod_pos_bound n (Zpos d)) as Hb.
  set (f := n / Zpos d) in *. set (m := n mod Zpos d) in *. clearbody f m.
  destruct (Z.ltb_spec (2 * m) (Zpos d)); [split; [|intros]; lia|].
  destruct (Z.ltb_spec (Zpos d) (2 * m)); [split; [|intros]; lia|].
  destruct (Z.even f) eqn:E.
  - split; [lia|]. intros _. by apply Z.even_spec.
  - split; [lia|]. intros _. apply Z.even_spec. by rewrite Z.add_1_r, Z.even_succ, <-Z.negb_even, E.
Qed.

Lemma round_half_even_mono p q : (p <= q)%Q → round_half_even p ≤ round_half_even q.
Proof.
  intros Hpq. destruct (round_half_even_spec p) as [Hp Hpe].
  destruct (round_half_even_spec q) as [Hq Hqe].
  set (r1 := round_half_even p) in *. set (r2 := round_half_even q) in *. clearbody r1 r2.
  unfold Qle in Hpq. destruct p as [n1 d1], q as [n2 d2]. simpl in *.
  destruct (Z.le_gt_cases r1 r2) as [|Hgt]; [done|]. exfalso.
  set (D1 := Zpos d1) in *. set (D2 := Zpos d2) in *.
  assert (0 < D1) by done. assert (0 < D2) by done. clearbody D1 D2.
  assert (r1 = r2 + 1) as ->.
  { assert (2 * r1 * D1 * D2 ≤ 2 * n1 * D2 + D1 * D2) by nia.
    assert (2 * n2 * D1 - D1 * D2 ≤ 2 * r2 * D2 * D1) by nia. nia. }
  assert (2 * (r2 + 1) * D1 - 2 * n1 = D1 ∧ 2 * r2 * D2 - 2 * n2 = - D2) as [H1 H2] by nia.
  destruct Hpe as [k1 Hk1]; [left; lia|]. destruct Hqe as [k2 Hk2]; [right; lia|]. lia.
Qed.

Lemma timedelta_seconds_mono p q : (p <= q)%Q → timedelta_seconds p ≤ timedelta_seconds q.
Proof.
  intros H. apply round_half_even_mono. apply Qmult_le_compat_r; [done|]. by compute.
Qed.

(** The fields of a valid configuration the delays depend on. *)
Lemma valid_config_bounds c : valid_config c →
  1 ≤ max_attempts c ∧ (0 < retry_base_seconds c)%Q ∧
  (retry_base_seconds c <= retry_max_seconds c)%Q ∧
  (0 <= retry_jitter_ratio c <= 1)%Q ∧ 1 ≤ batch_size c ∧ 1 ≤ per_tenant_limit c ∧
  (0 < lease_seconds c)%Q ∧ (0 < enqueue_retry_seconds c)%Q.
Proof.
  unfold valid_config, post_init, Qltb. intros H.
  repeat match type of H with
         | (if ?b then Some _ else _) = None => destruct b eqn:?; [discriminate H|]
         end.
  reflect_bools.
  repeat match goal with
         | E : Qle_bool _ _ = true |- _ => apply Qle_bool_iff in E
         | E : Qle_bool ?a ?b = false |- _ =>
             assert (b < a)%Q by (apply Qnot_le_lt; intros ?%Qle_bool_iff; congruence); clear E
         end.
  split_and!; try done; lia.
Qed.

Lemma Qpow2_mono a b : 0 ≤ a ≤ b → (inject_Z (2 ^ a) <= inject_Z (2 ^ b))%Q.
Proof. intros H. rewrite <-Zle_Qle. apply Z.pow_le_mono_r; lia. Qed.

Lemma Qpow2_ge1 a : 0 ≤ a → (1 <= inject_Z (2 ^ a))%Q.
Proof. intros H. change 1%Q with (inject_Z (2 ^ 0)). apply Qpow2_mono. lia. Qed.

(** The capped exponential part of the delay, in seconds. *)
Definition backoff_seconds (attempts : Z) (c : OutboxDispatchConfig) : Q :=
  Qmin (retry_base_seconds c * inject_Z (2 ^ Z.max (attempts - 1) 0)) (retry_max_seconds c).

Lemma backoff_mono c a b : (0 < retry_base_seconds c)%Q → a ≤ b →
  (backoff_seconds a c <= backoff_seconds b c)%Q.
Proof.
  intros Hb Hab. unfold backoff_seconds. apply Q.min_le_compat_r.
  apply Qmult_le_l; [done|]. apply Qpow2_mono. lia.
Qed.

Lemma backoff_range c a : (0 < retry_base_seconds c)%Q →
  (retry_base_seconds c <= retry_max_seconds c)%Q →
  (retry_base_seconds c <= backoff_seconds a c <= retry_max_seconds c)%Q.
Proof.
  intros Hb Hm. unfold backoff_seconds. split; [|apply Q.le_min_r].
  apply Q.min_glb; [|done]. pose proof (Qpow2_ge1 (Z.max (a - 1) 0)).
  rewrite <-(Qmult_1_r (retry_base_seconds c)) at 1. apply Qmult_le_l; [done|]. apply H. lia.
Qed.

Lemma retry_delay_eq c a rng : a ≤ 1024 →
  retry_delay a c rng =
    Ok (timedelta_seconds (backoff_seconds a c + backoff_seconds a c * retry_jitter_ratio c * rng)%Q).
Proof.
  intros Ha. unfold retry_delay. destruct (Z.leb_spec 1024 (Z.max (a - 1) 0)); [lia|done].
Qed.

(** For a valid configuration and a random number in [0, 1], the retry
    delay of up to 1024 attempts exists, is at least the base delay and at most
    the maximum plus its jitter share, and never shrinks as attempts grow; past
    1024 attempts [2**exponent] no longer converts to a float and the delay
    raises [OverflowError]. *)
Theorem retry_delay_bounds (c : OutboxDispatchConfig) (rng : Q) (a b : Z) :
  valid_config c → (0 <= rng <= 1)%Q → a ≤ b →
  (b ≤ 1024 → ∃ da db,
     retry_delay a c rng = Ok da ∧ retry_delay b c rng = Ok db ∧
     timedelta_seconds (retry_base_seconds c) ≤ da ≤ db ∧
     db ≤ timedelta_seconds (retry_max_seconds c * (1 + retry_jitter_ratio c))%Q) ∧
  (1024 < b → retry_delay b c rng = Raise OverflowError).
Proof.
  intros Hc [Hr0 Hr1] Hab.
  destruct (valid_config_bounds c Hc) as (_ & Hb & Hm & [Hj0 Hj1] & _). split.
  - intros Hb1024. rewrite !retry_delay_eq by lia. eexists _, _. split; [done|]. split; [done|].
    pose proof (backoff_range c a Hb Hm) as [Hal Hau]. pose proof (backoff_range c b Hb Hm) as [Hbl Hbu].
    pose proof (backoff_mono c a b Hb Hab) as Hmono.
    set (x := backoff_seconds a c) in *. set (y := backoff_seconds b c) in *.
    set (j := retry_jitter_ratio c) in *. clearbody x y j.
    assert (0 <= j * rng)%Q as Hjr by nra. assert (j * rng <= j)%Q by nra.
    split; [split|]; apply timedelta_seconds_mono.
    + nra.
    + assert (x * (j * rng) <= y * (j * rng))%Q by (apply Qmult_le_compat_r; done). lra.
    + assert (y * (j * rng) <= retry_max_seconds c * j)%Q.
      { apply (Qle_trans _ (y * j)%Q); [apply Qmult_le_l; lra|apply Qmult_le_compat_r; lra]. }
      lra.
  - intros Hgt. unfold retry_delay. destruct (Z.leb_spec 1024 (Z.max (b - 1) 0)); [done|lia].
Qed.

Lemma retry_delay_bounds_witness :
  valid_config default_config ∧
  ∃ da db, retry_delay 1 default_config (1 # 2) = Ok da ∧ retry_delay 12 default_config (1 # 2) = Ok db ∧
    30000000 ≤ da ≤ db ∧ db ≤ 3960000000.
Proof.
  split; [reflexivity|].
  destruct (retry_delay_bounds default_config (1 # 2) 1 12) as [H _]; [reflexivity|by split|lia|].
  destruct H as (da & db & Ha & Hb & Hl & Hu); [lia|].
  change (timedelta_seconds (retry_base_seconds default_config)) with 30000000 in Hl.
  change (timedelta_seconds _) with 3960000000 in Hu.
  exists da, db. split_and!; try done; lia.
Defined.
