(* ===== verification/Outbox.v ===== *)
(** * The outbox: operations on the durable store
    (saas_os/core/outbox/dispatch.py, service.py, consumption.py, replay.py)

    Every operation is one transaction over [outbox_store], written as the code
    writes it: the row is looked up under the tenant's row-level security, its
    claim is checked, its columns are assigned, and an exception rolls the
    transaction back.  [now] is the transaction timestamp of the database.

    [uuid4] is the source of random ids: [uuid4 n] is the [n]-th id drawn. *)

From Stdlib Require Import QArith Qround.
From stdpp Require Import pretty.
From S2P Require Import Prelude PyStr PyTime TenantLifecycle OutboxModel.

#[global] Open Scope Z_scope.

Inductive audit_entry : Type :=
| TenantAudit (tenant_id : uuid) (action : string) (count : Z)
| PlatformAudit (tenant_id : uuid) (count : Z)
| PlatformRefusal (tenant_id : uuid) (code : string).

Record outbox_store : Type := mkStore {
  os_tenants : gmap uuid Tenant;
  os_events : gmap uuid OutboxEvent;                    (* core.outbox_events *)
  os_consumptions : gset (uuid * pystr * uuid);         (* core.outbox_consumptions *)
  os_audit : list audit_entry;                          (* audit rows, latest first *)
  os_drawn : nat;                                       (* uuid4() calls so far *)
}.

#[export] Instance outbox_store_tenants : HasTenants outbox_store := os_tenants.

Definition set_events (es : gmap uuid OutboxEvent) (s : outbox_store) : outbox_store :=
  mkStore s.(os_tenants) es s.(os_consumptions) s.(os_audit) s.(os_drawn).
Definition set_consumptions (cs : gset (uuid * pystr * uuid)) (s : outbox_store) : outbox_store :=
  mkStore s.(os_tenants) s.(os_events) cs s.(os_audit) s.(os_drawn).
Definition add_audit (a : audit_entry) (s : outbox_store) : outbox_store :=
  mkStore s.(os_tenants) s.(os_events) s.(os_consumptions) (a :: s.(os_audit)) s.(os_drawn).
Definition draw (s : outbox_store) : outbox_store :=
  mkStore s.(os_tenants) s.(os_events) s.(os_consumptions) s.(os_audit) (S s.(os_drawn)).

(** An ORM flush: the changed row is written with a fresh [updated_at]. *)
Definition write_row (now : datetime) (id : uuid) (row : OutboxEvent) (s : outbox_store) : outbox_store :=
  set_events (<[id := touch now row]> s.(os_events)) s.

(** ** Reading under row-level security *)

(** The rows a session scoped to [tenant_id] sees. *)
Definition visible (s : outbox_store) (tenant_id id : uuid) : option OutboxEvent :=
  match s.(os_events) !! id with
  | Some row => if bool_decide (row.(ev_tenant_id) = tenant_id) then Some row else None
  | None => None
  end.

Definition locked_claimed_row (s : outbox_store) (tenant_id event_id claim_token : uuid) :
    option OutboxEvent :=
  match visible s tenant_id event_id with
  | Some row =>
      if bool_decide (row.(ev_status) = OUTBOX_STATUS_PENDING) &&
         bool_decide (row.(ev_claim_token) = Some claim_token)
      then Some row else None
  | None => None
  end.

(** ** claim_due_events *)

Record ClaimedEvent : Type := mkClaimed {
  ce_id : uuid;
  ce_tenant_id : uuid;
  ce_event_type : pystr;
  ce_claim_token : uuid;
  ce_attempts : Z;
  ce_correlation_id : option pystr;
}.

(** [ORDER BY next_attempt_at, id] *)
Definition due_order (p q : uuid * OutboxEvent) : Prop :=
  p.2.(ev_next_attempt_at) < q.2.(ev_next_attempt_at) ∨
  p.2.(ev_next_attempt_at) = q.2.(ev_next_attempt_at) ∧ (p.1 ≤ q.1)%N.

#[export] Instance due_order_dec : RelDecision due_order.
Proof. intros p q. unfold due_order. apply _. Defined.

Definition is_due (tenant_id : uuid) (now : datetime) (row : OutboxEvent) : bool :=
  bool_decide (row.(ev_tenant_id) = tenant_id) &&
  bool_decide (row.(ev_status) = OUTBOX_STATUS_PENDING) &&
  (row.(ev_next_attempt_at) <=? now).

(** The due rows of one tenant: [locked] are the rows other transactions hold,
    which [FOR UPDATE SKIP LOCKED] leaves out before the limit applies. *)
Definition due_rows (s : outbox_store) (tenant_id : uuid) (now : datetime) (limit : nat)
    (locked : gset uuid) : list (uuid * OutboxEvent) :=
  take limit (merge_sort due_order
    (filter (λ p : uuid * OutboxEvent, is_due tenant_id now p.2 = true ∧ p.1 ∉ locked)
       (map_to_list s.(os_events)))).

Definition lease_expired_error (final : bool) (attempts : Z) : error_arg :=
  ErrText (lit (if final then "LeaseExpired: no outcome recorded for final attempt "
                else "LeaseExpired: no outcome recorded for attempt ") ++ lit (pretty attempts)).

(** One iteration of the claim loop: the new row, and whether it was claimed
    (with [token]) rather than dead-lettered. *)
Definition claim_row (c : OutboxDispatchConfig) (now : datetime) (token : uuid) (row : OutboxEvent) :
    OutboxEvent * bool :=
  let lease_lost := bool_decide (row.(ev_claim_token) ≠ None) in
  if lease_lost && marked_by row row.(ev_claim_token)
  then (dead_letter row (Some (ErrText CRASH_AFTER_START_ERROR)), false)
  else if max_attempts c <=? row.(ev_attempts)
  then (dead_letter row (if lease_lost then Some (lease_expired_error true row.(ev_attempts)) else None),
        false)
  else
    let row := if lease_lost then record_error row (lease_expired_error false row.(ev_attempts)) else row in
    (set_next_attempt_at (now + lease c)
       (set_claim_token (Some token) (set_attempts (row.(ev_attempts) + 1) row)), true).

Section WithRandomIds.
Context (uuid4 : nat → uuid).

Definition claim_step (c : OutboxDispatchConfig) (now : datetime)
    (acc : outbox_store * list ClaimedEvent) (p : uuid * OutboxEvent) : outbox_store * list ClaimedEvent :=
  let '(s, claimed) := acc in
  let token := uuid4 s.(os_drawn) in
  match claim_row c now token p.2 with
  | (row, true) =>
      (draw (write_row now p.1 row s),
       claimed ++ [mkClaimed p.1 row.(ev_tenant_id) row.(ev_event_type) token row.(ev_attempts)
                     row.(ev_correlation_id)])
  | (row, false) => (write_row now p.1 row s, claimed)
  end.

(** One tenant of the claim transaction; nothing once the batch is full. *)
Definition claim_tenant (c : OutboxDispatchConfig) (now : datetime) (locked : gset uuid)
    (acc : outbox_store * list ClaimedEvent) (tenant_id : uuid) : outbox_store * list ClaimedEvent :=
  let remaining := batch_size c - Z.of_nat (length acc.2) in
  if remaining <=? 0 then acc
  else foldl (claim_step c now) acc
         (due_rows acc.1 tenant_id now (Z.to_nat (Z.min (per_tenant_limit c) remaining)) locked).

(** Tenants are visited from [int(rng() * n) % n]. *)
Definition rotate_from (rng : Q) (l : list uuid) : list uuid :=
  let n := Z.of_nat (length l) in
  let start := Z.to_nat (Qfloor (rng * inject_Z n) mod n) in
  drop start l ++ take start l.

(** Two sessions: [seen] is the store in which the open tenants are listed, without a
    lock; the claim runs later, in one transaction, and does not look at the
    tenants again. *)
Definition claim_due_events (c : OutboxDispatchConfig) (now : datetime) (rng : Q) (locked : gset uuid) (seen : outbox_store) :
    M outbox_store outbox_exn (list ClaimedEvent) :=
  λ s,
    match list_open_tenant_ids seen with
    | [] => (Ok [], s)
    | tenant_ids =>
        let '(s', claimed) := foldl (claim_tenant c now locked) (s, []) (rotate_from rng tenant_ids) in
        (Ok claimed, s')
    end.

(** ** append_event (service.py) *)

(** The patterns [_SIMPLE_NAME] (a lowercase identifier) and [_DOTTED_NAME]
    (two or more of them joined by dots) as [re.match] decides them: the final
    [$] also matches before one final newline. *)
Definition lower (c : N) : bool := ((97 <=? c) && (c <=? 122))%N.
Definition word_char (c : N) : bool := lower c || is_digit c || (c =? 95)%N.
Definition identifier (s : pystr) : bool :=
  match s with
  | c :: s' => lower c && forallb word_char s'
  | [] => false
  end.
Fixpoint split_dots (cur s : pystr) : list pystr :=
  match s with
  | [] => [reverse cur]
  | c :: s' => if (c =? 46)%N then reverse cur :: split_dots [] s' else split_dots (c :: cur) s'
  end.
Definition matches_simple_name (s : pystr) : bool := identifier (chomp s).
Definition matches_dotted_name (s : pystr) : bool :=
  let parts := split_dots [] (chomp s) in
  bool_decide (2 ≤ length parts)%nat && forallb identifier parts.

Definition INITIATED_BY_PAYLOAD_KEY : pystr := lit "saas_os.initiated_by".

(** [_validate], for a payload that is a JSON object already. *)
Definition validate_event (event_type aggregate_type aggregate_id : pystr) (payload : list (pystr * json)) :
    result outbox_exn unit :=
  if bool_decide (100 < length event_type)%nat || negb (matches_dotted_name event_type)
  then Raise (InvalidOutboxEventError "event_type" "must be a dotted lowercase name")
  else if bool_decide (100 < length aggregate_type)%nat || negb (matches_simple_name aggregate_type)
  then Raise (InvalidOutboxEventError "aggregate_type" "must be a lowercase identifier")
  else if bool_decide (aggregate_id = []) || bool_decide (255 < length aggregate_id)%nat
  then Raise (InvalidOutboxEventError "aggregate_id" "must be a non-empty string")
  else if bool_decide (INITIATED_BY_PAYLOAD_KEY ∈ payload.*1)
  then Raise (InvalidOutboxEventError "payload" "must not carry a reserved key")
  else Ok tt.

(** [scope] is the tenant the caller's session is bound to: an insert of
    another tenant's row violates the row-level-security policy, the foreign
    key needs the tenant to exist, and the id is the primary key. *)
Definition append_event (scope : option uuid) (tenant_id : uuid) (event_type aggregate_type aggregate_id : pystr)
    (payload : list (pystr * json)) (initiated_by : option json) (request_id : option pystr)
    (now : datetime) : M outbox_store outbox_exn uuid :=
  λ s,
    match validate_event event_type aggregate_type aggregate_id payload with
    | Raise e => (Raise e, s)
    | Ok _ =>
        let correlation_id :=
          match request_id with
          | Some r => if bool_decide (100 < length r)%nat then None else Some r
          | None => None
          end in
        if negb (bool_decide (scope = Some tenant_id)) then (Raise RowSecurityViolation, s)
        else if bool_decide (s.(os_tenants) !! tenant_id = None) then (Raise IntegrityError, s)
        else
        let event_id := uuid4 s.(os_drawn) in
        let row := mkOutboxEvent tenant_id event_type aggregate_type aggregate_id
                     (match initiated_by with
                      | None => payload
                      | Some i => payload ++ [(INITIATED_BY_PAYLOAD_KEY, i)]
                      end)
                     correlation_id OUTBOX_STATUS_PENDING 0 now None None None None None now now in
        if bool_decide (is_Some (s.(os_events) !! event_id)) then (Raise IntegrityError, draw s)
        else (Ok event_id, draw (set_events (<[event_id := row]> s.(os_events)) s))
    end.
End WithRandomIds.

(** ** begin_event_execution *)

Record EventExecution : Type := mkExecution {
  ex_id : uuid;
  ex_tenant_id : uuid;
  ex_event_type : pystr;
  ex_payload : list (pystr * json);
  ex_correlation_id : option pystr;
  ex_attempts : Z;
  ex_recorded_initiator : option json;
}.

(** [_split_initiator] before the stored value is parsed. *)
Definition split_initiator (stored : list (pystr * json)) : list (pystr * json) * option json :=
  (filter (λ kv, kv.1 ≠ INITIATED_BY_PAYLOAD_KEY) stored,
   snd <$> find (λ kv, bool_decide (kv.1 = INITIATED_BY_PAYLOAD_KEY)) stored).

Definition window_closed_error : error_arg :=
  ErrText (lit "OutcomeUnknown: the idempotency window closed before the retry ran; " ++
           lit "not retried automatically. " ++ REPLAY_HINT).

Definition begin_event_execution (c : OutboxDispatchConfig) (now : datetime)
    (tenant_id event_id claim_token : uuid) : M outbox_store outbox_exn (option EventExecution) :=
  λ s,
    match lock_open_tenant s tenant_id with
    | Raise _ =>
        match locked_claimed_row s tenant_id event_id claim_token with
        | Some row => (Ok None, write_row now event_id (set_claim_token None row) s)
        | None => (Ok None, s)
        end
    | Ok _ =>
        match locked_claimed_row s tenant_id event_id claim_token with
        | None => (Ok None, s)
        | Some row =>
            let window_closed :=
              match retry_deadline row.(ev_last_error) with
              | Some deadline => (1 <? row.(ev_attempts)) && (deadline <=? now)
              | None => false
              end in
            if window_closed
            then (Ok None, write_row now event_id (dead_letter row (Some window_closed_error)) s)
            else
              let row := set_next_attempt_at (now + lease c) row in
              let '(payload, recorded) := split_initiator row.(ev_payload) in
              (Ok (Some (mkExecution event_id row.(ev_tenant_id) row.(ev_event_type) payload
                           row.(ev_correlation_id) row.(ev_attempts) recorded)),
               write_row now event_id row s)
        end
    end.

(** ** Outcomes

    [with_claimed_row]: the row if the claim still owns it, a new row (or an
    exception) computed from it, and the value returned; [default] otherwise. *)
Definition with_claimed_row {A : Type} (now : datetime) (tenant_id event_id claim_token : uuid)
    (default : A) (f : OutboxEvent → result outbox_exn (OutboxEvent * A)) : M outbox_store outbox_exn A :=
  λ s,
    match locked_claimed_row s tenant_id event_id claim_token with
    | None => (Ok default, s)
    | Some row =>
        match f row with
        | Ok (row', a) => (Ok a, write_row now event_id row' s)
        | Raise e => (Raise e, s)
        end
    end.

(** The [row.status] an outcome reports. *)
Definition reporting (r : result outbox_exn OutboxEvent) : result outbox_exn (OutboxEvent * option outbox_status) :=
  let* row := r in Ok (row, Some row.(ev_status)).

Definition completed_row (now : datetime) (row : OutboxEvent) : OutboxEvent :=
  clear_marker (set_claim_token None (set_published_at (Some now) (set_status OUTBOX_STATUS_PUBLISHED row))).

Definition complete_event (now : datetime) (tenant_id event_id claim_token : uuid) :
    M outbox_store outbox_exn bool :=
  with_claimed_row now tenant_id event_id claim_token false (λ row, Ok (completed_row now row, true)).

(** [_ordinary_failure] *)
Definition ordinary_failure (c : OutboxDispatchConfig) (now : datetime) (rng : Q) (terminal : bool)
    (retry_after : option retry_hint) (error : error_arg) (row : OutboxEvent) :
    result outbox_exn OutboxEvent :=
  let row := record_error row error in
  if terminal || (max_attempts c <=? row.(ev_attempts)) then Ok (dead_letter row None)
  else
    let row := clear_marker (set_claim_token None row) in
    let* delay := retry_delay row.(ev_attempts) c rng in
    let* delay := match retry_after with
                  | Some h => let* hint := retry_hint_delay h c in Ok (Z.max delay hint)
                  | None => Ok delay
                  end in
    Ok (set_next_attempt_at (now + delay) row).

Definition failed_row (c : OutboxDispatchConfig) (now : datetime) (rng : Q) (terminal : bool)
    (retry_after : option retry_hint) (claim_token : uuid) (error : error_arg) (row : OutboxEvent) :
    result outbox_exn OutboxEvent :=
  if marked_by row (Some claim_token) then
    let described := describe_error error in
    Ok (dead_letter row (Some (ErrText (if terminal then described else OUTCOME_UNKNOWN_PREFIX ++ described))))
  else ordinary_failure c now rng terminal retry_after error row.

Definition fail_event (c : OutboxDispatchConfig) (now : datetime) (rng : Q) (terminal : bool)
    (retry_after : option retry_hint) (tenant_id event_id claim_token : uuid) (error : error_arg) :
    M outbox_store outbox_exn (option outbox_status) :=
  with_claimed_row now tenant_id event_id claim_token None
    (λ row, reporting (failed_row c now rng terminal retry_after claim_token error row)).

Definition not_sent_row (c : OutboxDispatchConfig) (now : datetime) (rng : Q)
    (retry_after : option retry_hint) (claim_token : uuid) (error : exc) (block_exception : option exc)
    (row : OutboxEvent) : result outbox_exn OutboxEvent :=
  if marked_by row (Some claim_token) && is_permanent (info error)
  then Ok (dead_letter row (Some (ErrText (describe_error (ErrExc error)))))
  else if marked_by row (Some claim_token) && negb (is_attested_not_sent error block_exception)
  then Ok (dead_letter row (Some (ErrText (OUTCOME_UNKNOWN_PREFIX ++ describe_error (ErrExc error)))))
  else ordinary_failure c now rng false retry_after (ErrExc error) row.

Definition record_confirmed_not_sent (c : OutboxDispatchConfig) (now : datetime) (rng : Q)
    (retry_after : option retry_hint) (tenant_id event_id claim_token : uuid) (error : exc)
    (block_exception : option exc) : M outbox_store outbox_exn (option outbox_status) :=
  with_claimed_row now tenant_id event_id claim_token None
    (λ row, reporting (not_sent_row c now rng retry_after claim_token error block_exception row)).

Definition released_row (c : OutboxDispatchConfig) (now : datetime) (error : error_arg) (row : OutboxEvent) :
    OutboxEvent :=
  clear_marker (record_error
    (set_next_attempt_at (now + enqueue_retry_delay c)
       (set_claim_token None (set_attempts (Z.max (row.(ev_attempts) - 1) 0) row))) error).

Definition release_claim (c : OutboxDispatchConfig) (now : datetime)
    (tenant_id event_id claim_token : uuid) (error : error_arg) : M outbox_store outbox_exn bool :=
  with_claimed_row now tenant_id event_id claim_token false (λ row, Ok (released_row c now error row, true)).

(** One conditional [UPDATE]. *)
Definition mark_external_effect_started (c : OutboxDispatchConfig) (now : datetime)
    (tenant_id event_id claim_token : uuid) : M outbox_store outbox_exn bool :=
  λ s,
    if negb (external_effect_markers c) then (Ok false, s)
    else match visible s tenant_id event_id with
         | Some row =>
             if bool_decide (row.(ev_claim_token) = Some claim_token) &&
                bool_decide (row.(ev_status) = OUTBOX_STATUS_PENDING) &&
                (now <? row.(ev_next_attempt_at)) &&
                negb (bool_decide (row.(ev_external_started_claim) = Some claim_token))
             then (Ok true, write_row now event_id
                              (set_next_attempt_at (now + lease c)
                                 (set_marker (Some now) (Some claim_token) row)) s)
             else (Raise (ExternalEffectNotStartedError event_id), s)
         | None => (Raise (ExternalEffectNotStartedError event_id), s)
         end.

Definition unknown_error (error : AmbiguousOutcome) (note : pystr) : error_arg :=
  ErrText (outcome_unknown error note).
Definition not_retried_note : pystr := lit "not retried automatically. " ++ REPLAY_HINT.

(** A retry: the claim and the marker go, the event is due at [at]. *)
Definition released_at (at_ : datetime) (row : OutboxEvent) : OutboxEvent :=
  set_next_attempt_at at_ (clear_marker (set_claim_token None row)).

Definition ambiguous_row (c : OutboxDispatchConfig) (now : datetime) (rng : Q) (claim_token : uuid)
    (error : AmbiguousOutcome) (row : OutboxEvent) : result outbox_exn OutboxEvent :=
  if marked_by row (Some claim_token) && negb (at_least_once error)
  then Ok (dead_letter (record_error row (unknown_error error not_retried_note)) None)
  else
    let* delay := retry_delay row.(ev_attempts) c rng in
    let attempts_left := row.(ev_attempts) <? max_attempts c in
    if at_least_once error then
      let row := record_error row
        (unknown_error error (lit "retried: at-least-once delivery on a stable event id")) in
      Ok (if attempts_left then released_at (now + delay) row else dead_letter row None)
    else match retry_within error with
         | Some window =>
             match dt_add row.(ev_created_at) window with
             | None => Raise OverflowError
             | Some deadline =>
                 let tag := deadline_tag deadline in
                 let in_window :=
                   if attempts_left
                   then match dt_add now delay with
                        | None => Raise OverflowError
                        | Some next => Ok (next <? deadline)
                        end
                   else Ok false in
                 let* retried := in_window in
                 if retried
                 then Ok (released_at (now + delay) (set_last_error
                        (Some (with_tag (outcome_unknown error (lit "retried with the same idempotency key"))
                                 (Some tag))) row))
                 else
                   let why := if attempts_left then lit "idempotency window closed"
                              else lit "attempts exhausted" in
                   Ok (dead_letter (set_last_error
                        (Some (with_tag (outcome_unknown error (why ++ lit "; " ++ not_retried_note))
                                 (Some tag))) row) None)
             end
         | None => Ok (dead_letter (record_error row (unknown_error error not_retried_note)) None)
         end.

Definition record_ambiguous_outcome (c : OutboxDispatchConfig) (now : datetime) (rng : Q)
    (tenant_id event_id claim_token : uuid) (error : AmbiguousOutcome) :
    M outbox_store outbox_exn (option outbox_status) :=
  with_claimed_row now tenant_id event_id claim_token None
    (λ row, reporting (ambiguous_row c now rng claim_token error row)).

(** ** service.py: deletion *)

(** Delete the rows [P] selects and count them. *)
Definition delete_rows (P : OutboxEvent → bool) (s : outbox_store) : Z * outbox_store :=
  (Z.of_nat (size (filter (λ p : uuid * OutboxEvent, P p.2 = true) s.(os_events))),
   set_events (filter (λ p : uuid * OutboxEvent, P p.2 = false) s.(os_events)) s).

(** [scope]: the tenant the caller's session is bound to. *)
Definition delete_aggregate_events (scope tenant_id : uuid) (event_type aggregate_type aggregate_id : pystr) :
    M outbox_store outbox_exn Z :=
  λ s,
    let '(n, s') := delete_rows (λ row,
      bool_decide (row.(ev_tenant_id) = scope) &&
      bool_decide (row.(ev_tenant_id) = tenant_id) &&
      bool_decide (row.(ev_event_type) = event_type) &&
      bool_decide (row.(ev_aggregate_type) = aggregate_type) &&
      bool_decide (row.(ev_aggregate_id) = aggregate_id)) s in
    (Ok n, s').

(** consumption.py: [purge_tenant_outbox_consumptions] *)
Definition purge_tenant_outbox_consumptions (tenant_id : uuid) (s : outbox_store) : Z * outbox_store :=
  let mine := filter (λ k : uuid * pystr * uuid, k.1.1 = tenant_id) s.(os_consumptions) in
  (Z.of_nat (size mine), set_consumptions (s.(os_consumptions) ∖ mine) s).

Definition purge_tenant_outbox_events (tenant_id : uuid) : M outbox_store outbox_exn Z :=
  λ s,
    match require_purging_tenant s tenant_id with
    | Raise e => (Raise (TenantError e), s)
    | Ok _ =>
        let '(deleted, s) := delete_rows (λ row, bool_decide (row.(ev_tenant_id) = tenant_id)) s in
        let '(consumed, s) := purge_tenant_outbox_consumptions tenant_id s in
        (Ok (deleted + consumed), s)
    end.

(** ** consumption.py *)

Definition validate_consumer (consumer : pystr) : result outbox_exn unit :=
  if bool_decide (100 < length consumer)%nat || negb (matches_dotted_name consumer)
  then Raise (InvalidOutboxEventError "consumer" "must be a dotted lowercase name")
  else Ok tt.

Definition event_consumption_recorded (tenant_id : uuid) (consumer : pystr) (event_id : uuid) :
    M outbox_store outbox_exn bool :=
  λ s, (let* _ := validate_consumer consumer in
        Ok (bool_decide ((tenant_id, consumer, event_id) ∈ s.(os_consumptions))), s).

(** The insert in a savepoint: it fails on the primary key or on the tenant's
    foreign key, and only the former means "already consumed". *)
Definition claim_event_consumption (tenant_id : uuid) (consumer : pystr) (event_id : uuid) :
    M outbox_store outbox_exn bool :=
  λ s,
    match validate_consumer consumer with
    | Raise e => (Raise e, s)
    | Ok _ =>
        let key := (tenant_id, consumer, event_id) in
        if bool_decide (key ∈ s.(os_consumptions)) || bool_decide (s.(os_tenants) !! tenant_id = None)
        then match event_consumption_recorded tenant_id consumer event_id s with
             | (Ok true, s) => (Ok false, s)
             | (Ok false, s) => (Raise IntegrityError, s)
             | (Raise e, s) => (Raise e, s)
             end
        else (Ok true, set_consumptions ({[key]} ∪ s.(os_consumptions)) s)
    end.

Definition record_event_consumption (tenant_id : uuid) (consumer : pystr) (event_id : uuid) :
    M outbox_store outbox_exn bool :=
  transaction (claim_event_consumption tenant_id consumer event_id).

(** ** replay.py *)

Definition MAX_REPLAY_EVENTS : Z := 1000.

Record OutboxReplayResult : Type := mkReplay { matched : Z; replayed : Z; applied : bool }.

Inductive selection : Type :=
| ByIds (ids : list uuid)
| Since (t : datetime).

Definition validated_selection (event_ids : option (list uuid)) (dead_lettered_since : option datetime) :
    result outbox_exn selection :=
  match event_ids, dead_lettered_since with
  | None, None | Some _, Some _ =>
      Raise (ReplayRefused "give exactly one of event_ids and dead_lettered_since.")
  | Some event_ids, None =>
      let ids := remove_dups event_ids in
      if bool_decide (ids = []) then Raise (ReplayRefused "event_ids must not be empty.")
      else if MAX_REPLAY_EVENTS <? Z.of_nat (length ids) then Raise (ReplayRefused "at most 1000 event ids.")
      else Ok (ByIds ids)
  | None, Some t => Ok (Since t)
  end.

Definition selected (sel : selection) (id : uuid) (row : OutboxEvent) : bool :=
  match sel with
  | ByIds ids => bool_decide (id ∈ ids)
  | Since t => t <=? row.(ev_updated_at)
  end.

Definition replayed_row (now : datetime) (row : OutboxEvent) : OutboxEvent :=
  set_marker None None (set_claim_token None (set_next_attempt_at now
    (set_attempts 0 (set_status OUTBOX_STATUS_PENDING row)))).

(** [authorized] is whether [authorize_platform_caller] accepts the caller (a
    person) for [outbox.replay]; [reason] is validated already. *)
Definition replay_dead_lettered_events (authorized : bool) (tenant_id : uuid)
    (event_ids : option (list uuid)) (dead_lettered_since : option datetime) (apply : bool)
    (now : datetime) : M outbox_store outbox_exn OutboxReplayResult :=
  λ s,
    match validated_selection event_ids dead_lettered_since with
    | Raise e => (Raise e, s)
    | Ok sel =>
        if negb authorized
        then (Raise (ReplayRefused "not_authorized"), add_audit (PlatformRefusal tenant_id "not_authorized") s)
        else
            match lock_open_tenant s tenant_id with
            | Raise e =>
                let code := match e with TenantClosedError _ _ => "tenant_closed" | _ => "tenant_not_found" end in
                (Raise (TenantError e), add_audit (PlatformRefusal tenant_id code) s)
            | Ok _ =>
                let rows := filter (λ p : uuid * OutboxEvent,
                  p.2.(ev_tenant_id) = tenant_id ∧ p.2.(ev_status) = OUTBOX_STATUS_DEAD_LETTERED ∧
                  selected sel p.1 p.2 = true) s.(os_events) in
                let n := Z.of_nat (size rows) in
                if MAX_REPLAY_EVENTS <? n
                then (Raise (ReplayRefused "the selection matches more than 1000 events; narrow it."), s)
                else if negb apply then (Ok (mkReplay n 0 false), s)
                else
                  (Ok (mkReplay n n true),
                   add_audit (PlatformAudit tenant_id n)
                     (add_audit (TenantAudit tenant_id "outbox.replay" n)
                        (set_events (((λ row, touch now (replayed_row now row)) <$> rows) ∪ s.(os_events)) s)))
            end
    end.
