(* ===== verification/OutboxClaim.v ===== *)
(** * The claim transaction: what it does to every row

    [claim_due_events] visits the tenants it found open and their rows in nested
    loops inside one transaction.  This file reduces it to a statement about each
    single row, and proves the claim's contract: only due, unlocked rows of tenants
    that were listed are touched, each at most once, within the batch and
    per-tenant limits. *)

From Stdlib Require Import QArith Qround.
From S2P Require Import Prelude PyStr PyTime TenantLifecycle OutboxModel OutboxText Outbox.

#[global] Open Scope Z_scope.

#[export] Instance due_order_total : Total due_order.
Proof. intros p q. unfold due_order. lia. Qed.
#[export] Instance due_order_trans : Transitive due_order.
Proof. intros p q r. unfold due_order. lia. Qed.

(** ** Rows *)

Lemma claim_row_tenant c now k r : ev_tenant_id (claim_row c now k r).1 = ev_tenant_id r.
Proof. unfold claim_row. by repeat case_match. Qed.

Lemma elem_of_due_rows s t now n locked p :
  p ∈ due_rows s t now n locked →
  s.(os_events) !! p.1 = Some p.2 ∧ is_due t now p.2 = true ∧ p.1 ∉ locked.
Proof.
  unfold due_rows. intros Hp. apply elem_of_take in Hp as (i & Hi & _).
  apply list_elem_of_lookup_2 in Hi. rewrite merge_sort_Permutation in Hi.
  apply list_elem_of_filter in Hi as [[Hd Hl] Hm]. destruct p. by apply elem_of_map_to_list in Hm.
Qed.

Lemma NoDup_due_rows s t now n locked : NoDup (due_rows s t now n locked).*1.
Proof.
  apply NoDup_fmap_2_strong.
  - intros [e r] [e' r'] Hp Hq Heq. simpl in Heq. subst e'.
    apply elem_of_due_rows in Hp as [Hp _], Hq as [Hq _]. simpl in *. congruence.
  - unfold due_rows.
    assert (∀ l : list (uuid * OutboxEvent), NoDup l → NoDup (take n l)) as Htake.
    { intros l. rewrite <-(take_drop n l) at 1. rewrite NoDup_app. naive_solver. }
    apply Htake. rewrite merge_sort_Permutation. apply NoDup_filter, NoDup_map_to_list.
Qed.

Lemma NoDup_open_ids (s : outbox_store) : NoDup (list_open_tenant_ids s).
Proof.
  unfold list_open_tenant_ids, sorted_ids. rewrite merge_sort_Permutation.
  apply NoDup_fmap_2_strong; [|apply NoDup_filter, NoDup_map_to_list].
  intros [i t] [j u] Hi Hj Heq. simpl in Heq. subst j.
  apply list_elem_of_filter in Hi as [_ Hi], Hj as [_ Hj].
  apply elem_of_map_to_list in Hi, Hj. simplify_eq. done.
Qed.

Lemma rotate_Permutation rng l : rotate_from rng l ≡ₚ l.
Proof.
  unfold rotate_from. set (n := Z.to_nat _). rewrite (Permutation_app_comm (drop n l)).
  by rewrite take_drop.
Qed.

Section Claim.
  Context (uuid4 : nat → uuid) (c : OutboxDispatchConfig) (now : datetime) (locked : gset uuid).
  Implicit Types (acc : outbox_store * list ClaimedEvent) (e : uuid).

  Abbreviation step := (claim_step uuid4 c now).
  Abbreviation tenant_step := (claim_tenant uuid4 c now locked).

  (** What a claim leaves of the store besides the events. *)
Definition same_frame (s s' : outbox_store) : Prop :=
    s'.(os_tenants) = s.(os_tenants) ∧ s'.(os_consumptions) = s.(os_consumptions) ∧
    s'.(os_audit) = s.(os_audit) ∧ (s.(os_drawn) ≤ s'.(os_drawn))%nat.

  (** The row [e] was claimed with a fresh token or dead-lettered. *)
Definition claimed_now (s s' : outbox_store) e (r r' : OutboxEvent) : Prop :=
    ∃ k, (s.(os_drawn) ≤ k)%nat ∧
      r' = touch now (claim_row c now (uuid4 k) r).1 ∧
      ((claim_row c now (uuid4 k) r).2 = true → (k < s'.(os_drawn))%nat).

Lemma step_frame acc p : same_frame acc.1 (step acc p).1.
  Proof.
    destruct acc as [s claimed]. unfold claim_step, same_frame.
    destruct (claim_row _ _ _ _) as [r []]; simpl; auto with lia.
  Qed.

Lemma same_frame_trans s1 s2 s3 : same_frame s1 s2 → same_frame s2 s3 → same_frame s1 s3.
  Proof. unfold same_frame. intros (?&?&?&?) (?&?&?&?). split_and!; congruence || lia. Qed.

Lemma fold_step_frame rows acc : same_frame acc.1 (foldl step acc rows).1.
  Proof.
    revert acc. induction rows as [|p rows IH]; intros acc; simpl; [by unfold same_frame|].
    eapply same_frame_trans; [apply (step_frame acc p)|apply IH].
  Qed.

Lemma step_other acc p e : p.1 ≠ e → (step acc p).1.(os_events) !! e = acc.1.(os_events) !! e.
  Proof.
    intros Hne. destruct acc as [s claimed]. unfold claim_step.
    destruct (claim_row _ _ _ _) as [r []]; simpl; by rewrite lookup_insert_ne.
  Qed.

Lemma fold_step_other rows acc e :
    e ∉ rows.*1 → (foldl step acc rows).1.(os_events) !! e = acc.1.(os_events) !! e.
  Proof.
    revert acc. induction rows as [|p rows IH]; intros acc He; simpl in *; [done|].
    apply not_elem_of_cons in He as [Hne He]. by rewrite IH, step_other.
  Qed.

Lemma fold_step_in rows acc e r :
    NoDup rows.*1 → (e, r) ∈ rows →
    ∃ r', (foldl step acc rows).1.(os_events) !! e = Some r' ∧
      claimed_now acc.1 (foldl step acc rows).1 e r r'.
  Proof.
    revert acc. induction rows as [|p rows IH]; intros acc Hnd Hin; simpl in *; [set_solver|].
    apply NoDup_cons in Hnd as [Hp Hnd].
    pose proof (step_frame acc p) as (_ & _ & _ & Hdrawn).
    apply elem_of_cons in Hin as [<-|Hin].
    - rewrite fold_step_other by done. destruct acc as [s claimed]. simpl in *.
      pose proof (fold_step_frame rows (step (s, claimed) (e, r))) as (_ & _ & _ & Hmono).
      unfold claimed_now, claim_step in *. simpl in *.
      destruct (claim_row c now (uuid4 (os_drawn s)) r) as [r' b] eqn:E.
      exists (touch now r'). split; [destruct b; simpl; by rewrite lookup_insert_eq|].
      exists (os_drawn s). rewrite E. simpl. split_and!; [lia|done|]. intros ->. simpl in *. lia.
    - destruct (IH (step acc p) Hnd Hin) as (r' & Hr' & k & Hk & ? & ?).
      exists r'. split; [done|]. exists k. split_and!; [lia|done|done].
  Qed.

Lemma tenant_step_frame acc t : same_frame acc.1 (tenant_step acc t).1.
  Proof.
    unfold claim_tenant. case_match; [by unfold same_frame|]. apply fold_step_frame.
  Qed.

Lemma fold_tenant_frame ts acc : same_frame acc.1 (foldl tenant_step acc ts).1.
  Proof.
    revert acc. induction ts as [|t ts IH]; intros acc; simpl; [by unfold same_frame|].
    eapply same_frame_trans; [apply (tenant_step_frame acc t)|apply IH].
  Qed.

  (** One tenant leaves a row alone, or claims a due and unlocked row of its own. *)
Lemma tenant_step_row acc t e r :
    acc.1.(os_events) !! e = Some r →
    (tenant_step acc t).1.(os_events) !! e = Some r ∨
    (is_due t now r = true ∧ e ∉ locked ∧
     ∃ r', (tenant_step acc t).1.(os_events) !! e = Some r' ∧
       claimed_now acc.1 (tenant_step acc t).1 e r r').
  Proof.
    intros Hr. unfold claim_tenant. case_match; [by left|]. set (rows := due_rows _ _ _ _ _).
    destruct (decide (e ∈ rows.*1)) as [Hin|Hni]; [right|left; by rewrite fold_step_other].
    apply list_elem_of_fmap in Hin as ([e' r0] & -> & Hin). simpl in *.
    pose proof (elem_of_due_rows _ _ _ _ _ _ Hin) as (Hlook & Hdue & Hlock). simpl in *.
    assert (r0 = r) as -> by congruence. split_and!; [done|done|].
    apply fold_step_in; [apply NoDup_due_rows|done].
  Qed.

Lemma tenant_step_None acc t e :
    acc.1.(os_events) !! e = None → (tenant_step acc t).1.(os_events) !! e = None.
  Proof.
    intros Hr. unfold claim_tenant. case_match; [done|]. rewrite fold_step_other; [done|].
    intros Hin. apply list_elem_of_fmap in Hin as ([e' r0] & -> & Hin).
    apply elem_of_due_rows in Hin as [Hlook _]. simpl in *. congruence.
  Qed.

Lemma claimed_now_tenant s s' e r r' : claimed_now s s' e r r' → ev_tenant_id r' = ev_tenant_id r.
  Proof. intros (k & _ & -> & _). simpl. apply claim_row_tenant. Qed.

Lemma is_due_tenant t r : is_due t now r = true → ev_tenant_id r = t.
  Proof. unfold is_due. intros H. by reflect_bools. Qed.

  (** Over all tenants, each visited once, a row is touched at most once. *)
Lemma fold_tenant_row ts acc e r :
    NoDup ts → acc.1.(os_events) !! e = Some r →
    (foldl tenant_step acc ts).1.(os_events) !! e = Some r ∨
    (ev_tenant_id r ∈ ts ∧ is_due (ev_tenant_id r) now r = true ∧ e ∉ locked ∧
     ∃ r', (foldl tenant_step acc ts).1.(os_events) !! e = Some r' ∧
       claimed_now acc.1 (foldl tenant_step acc ts).1 e r r').
  Proof.
    revert acc r. induction ts as [|t ts IH]; intros acc r Hnd Hr; simpl; [by left|].
    apply NoDup_cons in Hnd as [Ht Hnd].
    pose proof (tenant_step_frame acc t) as (_ & _ & _ & Hd1).
    pose proof (fold_tenant_frame ts (tenant_step acc t)) as (_ & _ & _ & Hd2).
    destruct (tenant_step_row acc t e r Hr) as [Hsame|(Hdue & Hlock & r' & Hr' & Hcl)].
    - destruct (IH (tenant_step acc t) r Hnd Hsame) as [?|(Hin & ? & ? & r' & ? & k & Hk & ? & ?)]; [by left|].
      right. split_and!; [by right|done|done|]. exists r'. split; [done|].
      exists k. split_and!; [lia|done|done].
    - pose proof (is_due_tenant _ _ Hdue) as <-.
      pose proof (claimed_now_tenant _ _ _ _ _ Hcl) as Htid.
      right. split_and!; [by left|done|done|].
      destruct (IH (tenant_step acc (ev_tenant_id r)) r' Hnd Hr') as [?|(Hin & _)]; [|congruence].
      exists r'. split; [done|]. destruct Hcl as (k & Hk & Heq & Hlt).
      exists k. split_and!; [done|done|]. intros Hb. specialize (Hlt Hb). lia.
  Qed.

Lemma fold_tenant_None ts acc e :
    acc.1.(os_events) !! e = None → (foldl tenant_step acc ts).1.(os_events) !! e = None.
  Proof.
    revert acc. induction ts as [|t ts IH]; intros acc Hr; simpl; [done|].
    by apply IH, tenant_step_None.
  Qed.

  (** The effect of the whole transaction on one row. *)
Lemma claim_due_events_row rng seen s s' claims e :
    claim_due_events uuid4 c now rng locked seen s = (Ok claims, s') →
    same_frame s s' ∧
    match s.(os_events) !! e with
    | None => s'.(os_events) !! e = None
    | Some r =>
        s'.(os_events) !! e = Some r ∨
        (tenant_open seen (ev_tenant_id r) ∧ is_due (ev_tenant_id r) now r = true ∧ e ∉ locked ∧
         ∃ r', s'.(os_events) !! e = Some r' ∧ claimed_now s s' e r r')
    end.
  Proof.
    unfold claim_due_events. intros H.
    assert (list_open_tenant_ids seen = [] ∧ s' = s ∨
      (foldl tenant_step (s, []) (rotate_from rng (list_open_tenant_ids seen))).1 = s') as [[Hn ->]|<-].
    { destruct (list_open_tenant_ids seen) as [|t ts]; [left; by simplify_eq|right].
      destruct (foldl _ _ _) as [s1 cl]. by simplify_eq/=. }
    { split; [by unfold same_frame|]. destruct (s.(os_events) !! e); auto. }
    set (ts := rotate_from rng (list_open_tenant_ids seen)).
    split; [apply (fold_tenant_frame ts (s, []))|].
    destruct (s.(os_events) !! e) as [r|] eqn:Hr; [|by apply fold_tenant_None].
    destruct (fold_tenant_row ts (s, []) e r) as [?|(Hin & ? & ? & ?)]; [..|by left|].
    - subst ts. rewrite rotate_Permutation. apply NoDup_open_ids.
    - done.
    - right. split_and!; try done. apply elem_of_open_ids. by rewrite <-(rotate_Permutation rng).
  Qed.

  (** *** The list of claims *)

Definition claim_of (e : uuid) (token : uuid) (r : OutboxEvent) : ClaimedEvent :=
    let r' := (claim_row c now token r).1 in
    mkClaimed e (ev_tenant_id r') (ev_event_type r') token (ev_attempts r') (ev_correlation_id r').

  (** [ce] reports the claim of the row [r], which the store [s'] now holds. *)
Definition reports (s' : outbox_store) (ce : ClaimedEvent) (r : OutboxEvent) : Prop :=
    ce = claim_of (ce_id ce) (ce_claim_token ce) r ∧
    (claim_row c now (ce_claim_token ce) r).2 = true ∧
    s'.(os_events) !! ce_id ce = Some (touch now (claim_row c now (ce_claim_token ce) r).1).

  (** The claims [new] a stretch of the transaction appended. *)
Record appended (acc acc' : outbox_store * list ClaimedEvent) (new : list ClaimedEvent) : Prop := {
    app_list : acc'.2 = acc.2 ++ new;
    app_tokens : ce_claim_token <$> new = uuid4 <$> seq (os_drawn acc.1) (length new);
    app_drawn : os_drawn acc'.1 = (os_drawn acc.1 + length new)%nat;
  }.

Lemma appended_nil acc : appended acc acc [].
  Proof. split; simpl; [by rewrite app_nil_r|done|lia]. Qed.

Lemma appended_app acc1 acc2 acc3 l l' :
    appended acc1 acc2 l → appended acc2 acc3 l' → appended acc1 acc3 (l ++ l').
  Proof.
    intros [H1 H2 H3] [H4 H5 H6]. split; rewrite ?fmap_app, ?length_app.
    - by rewrite H4, H1, app_assoc.
    - by rewrite seq_app, fmap_app, H2, H5, H3.
    - lia.
  Qed.

Lemma step_appended acc e r : ∃ new, appended acc (step acc (e, r)) new ∧ (length new ≤ 1)%nat ∧
    ∀ ce, ce ∈ new → ce_id ce = e ∧ reports (step acc (e, r)).1 ce r.
  Proof.
    destruct acc as [s claimed]. unfold claim_step, reports, claim_of. simpl.
    destruct (claim_row c now (uuid4 (os_drawn s)) r) as [r' []] eqn:E.
    - eexists [_]. split; [by split; simpl; [| |lia]|]. split; [simpl; lia|].
      intros ce ->%list_elem_of_singleton. simpl. rewrite E. simpl. by rewrite lookup_insert_eq.
    - exists []. split; [by split; simpl; [by rewrite app_nil_r| |lia]|]. split; [simpl; lia|].
      intros ce []%elem_of_nil.
  Qed.

Lemma fold_step_appended rows acc : NoDup rows.*1 →
    ∃ new, appended acc (foldl step acc rows) new ∧ (length new ≤ length rows)%nat ∧
      NoDup (ce_id <$> new) ∧
      ∀ ce, ce ∈ new → ∃ r, (ce_id ce, r) ∈ rows ∧ reports (foldl step acc rows).1 ce r.
  Proof.
    revert acc. induction rows as [|[e r] rows IH]; intros acc Hnd; simpl in *.
    { exists []. split_and!; [apply appended_nil|done|constructor|]. intros ce []%elem_of_nil. }
    apply NoDup_cons in Hnd as [He Hnd].
    destruct (step_appended acc e r) as (l & Hl & Hlen & Hrep).
    destruct (IH (step acc (e, r)) Hnd) as (l' & Hl' & Hlen' & Hnd' & Hrep').
    exists (l ++ l'). split; [by eapply appended_app|].
    split; [rewrite length_app; lia|]. split.
    - rewrite fmap_app. apply NoDup_app. split_and!; [|intros x Hx Hx'|done].
      + destruct l as [|? [|? ?]]; simpl in *; [constructor|apply NoDup_singleton|lia].
      + apply list_elem_of_fmap in Hx as (ce & -> & Hce). apply Hrep in Hce as [Hid _].
        apply list_elem_of_fmap in Hx' as (ce' & Heq & Hce'). apply Hrep' in Hce' as (r' & Hin & _).
        rewrite <-Heq, Hid in Hin. apply He, list_elem_of_fmap. by exists (e, r').
    - intros ce [Hce|Hce]%elem_of_app.
      + apply Hrep in Hce as (Hid & Hc1 & Hc2 & Hc3). subst e. exists r. split; [by left|].
        split_and!; [done|done|]. by rewrite fold_step_other.
      + apply Hrep' in Hce as (r' & Hin & ?). exists r'. split; [by right|done].
  Qed.

Lemma tenant_step_appended acc t :
    ∃ new, appended acc (tenant_step acc t) new ∧
      (new ≠ [] → Z.of_nat (length new) ≤ per_tenant_limit c ∧
         Z.of_nat (length acc.2 + length new) ≤ batch_size c) ∧
      NoDup (ce_id <$> new) ∧
      ∀ ce, ce ∈ new → ∃ r, acc.1.(os_events) !! ce_id ce = Some r ∧ is_due t now r = true ∧
        ce_id ce ∉ locked ∧ reports (tenant_step acc t).1 ce r.
  Proof.
    unfold claim_tenant. destruct (Z.leb_spec (batch_size c - Z.of_nat (length acc.2)) 0).
    { exists []. split_and!; [apply appended_nil|done|constructor|]. intros ce []%elem_of_nil. }
    set (n := Z.to_nat _).
    destruct (fold_step_appended (due_rows acc.1 t now n locked) acc) as (new & Hn & Hlen & Hnd & Hrep);
      [apply NoDup_due_rows|].
    exists new. split_and!; [done| |done|].
    - intros Hne. assert (length new ≤ n)%nat.
      { unfold due_rows in Hlen. rewrite length_take in Hlen. lia. }
      destruct new; [done|]. simpl in *. subst n. lia.
    - intros ce Hce. destruct (Hrep ce Hce) as (r & Hin & Hr).
      apply elem_of_due_rows in Hin as (? & ? & ?). eauto.
  Qed.

  (** A row of a tenant other than [t] is read the same before and after [t]. *)
Lemma tenant_step_before acc t e r :
    (tenant_step acc t).1.(os_events) !! e = Some r → ev_tenant_id r ≠ t →
    acc.1.(os_events) !! e = Some r.
  Proof.
    intros Hr Hne. destruct (acc.1.(os_events) !! e) as [r0|] eqn:Hr0.
    - destruct (tenant_step_row acc t e r0 Hr0) as [?|(Hdue & _ & r' & Hr' & Hcl)]; [congruence|].
      apply claimed_now_tenant in Hcl. apply is_due_tenant in Hdue. congruence.
    - rewrite (tenant_step_None acc t e Hr0) in Hr. done.
  Qed.

Definition claims_of_tenant (t : uuid) (l : list ClaimedEvent) : list ClaimedEvent :=
    filter (λ ce, ce_tenant_id ce = t) l.

Lemma reports_tenant s' ce r : reports s' ce r → ce_tenant_id ce = ev_tenant_id r.
  Proof. intros [-> _]. apply claim_row_tenant. Qed.

Lemma claims_of_tenant_none t l : (∀ ce, ce ∈ l → ce_tenant_id ce ≠ t) → claims_of_tenant t l = [].
  Proof.
    intros H. destruct (claims_of_tenant t l) as [|ce l'] eqn:E; [done|].
    assert (ce ∈ claims_of_tenant t l) as Hce by (rewrite E; by left).
    apply list_elem_of_filter in Hce as [? ?]. by destruct (H ce).
  Qed.

  (** [ce] claims a row that was due, unlocked and of one of the tenants [ts]. *)
Definition claims_due (ts : list uuid) (s s' : outbox_store) (ce : ClaimedEvent) : Prop :=
    ∃ r, s.(os_events) !! ce_id ce = Some r ∧ ev_tenant_id r ∈ ts ∧
      is_due (ev_tenant_id r) now r = true ∧ ce_id ce ∉ locked ∧ reports s' ce r.

Lemma fold_tenant_appended ts acc :
    NoDup ts → 0 ≤ per_tenant_limit c → Z.of_nat (length acc.2) ≤ batch_size c →
    ∃ new, appended acc (foldl tenant_step acc ts) new ∧
      Z.of_nat (length acc.2 + length new) ≤ batch_size c ∧
      (∀ t, Z.of_nat (length (claims_of_tenant t new)) ≤ per_tenant_limit c) ∧
      NoDup (ce_id <$> new) ∧
      ∀ ce, ce ∈ new → claims_due ts acc.1 (foldl tenant_step acc ts).1 ce.
  Proof.
    intros Hnd Hlim. revert acc. induction ts as [|t ts IH]; intros acc Hb; simpl.
    { exists []. split_and!; [apply appended_nil|simpl; lia|done|constructor|].
      intros ce []%elem_of_nil. }
    apply NoDup_cons in Hnd as [Ht Hnd].
    destruct (tenant_step_appended acc t) as (l & Hl & Hmax & Hndl & Hrep).
    assert (Z.of_nat (length (tenant_step acc t).2) ≤ batch_size c) as Hb'.
    { rewrite (app_list _ _ _ Hl), length_app. destruct l; [simpl; lia|]. apply Hmax. done. }
    destruct (IH Hnd (tenant_step acc t) Hb') as (l' & Hl' & Hmax' & Hper' & Hndl' & Hrep').
    assert (∀ ce, ce ∈ l → ce_tenant_id ce = t) as Htl.
    { intros ce Hce. destruct (Hrep ce Hce) as (r & _ & Hdue & _ & Hr).
      rewrite (reports_tenant _ _ _ Hr). by apply is_due_tenant. }
    assert (∀ ce, ce ∈ l' → ce_tenant_id ce ≠ t) as Htl'.
    { intros ce Hce Heq. destruct (Hrep' ce Hce) as (r & _ & Hin & _ & _ & Hr).
      apply reports_tenant in Hr. congruence. }
    assert (∀ ce, ce ∈ l' → claims_due (t :: ts) acc.1 (foldl tenant_step (tenant_step acc t) ts).1 ce) as Hdue'.
    { intros ce Hce. pose proof (Htl' ce Hce) as Hne.
      destruct (Hrep' ce Hce) as (r & Hlook & Hin & Hdue & Hlock & Hr).
      exists r. split_and!; try done; [|by right].
      eapply tenant_step_before; [done|]. by rewrite <-(reports_tenant _ _ _ Hr). }
    exists (l ++ l'). split; [by eapply appended_app|]. split.
    { rewrite (app_list _ _ _ Hl), length_app in Hmax'. rewrite length_app. lia. }
    split; [|split].
    - intros t'. unfold claims_of_tenant. rewrite filter_app, length_app.
      destruct (decide (t' = t)) as [->|Hne].
      + fold (claims_of_tenant t l'). rewrite (claims_of_tenant_none t l') by done.
        pose proof (length_filter (λ ce, ce_tenant_id ce = t) l). simpl.
        destruct l; [simpl in *; lia|]. destruct Hmax as [? _]; [done|]. lia.
      + fold (claims_of_tenant t' l). rewrite (claims_of_tenant_none t' l); [apply Hper'|].
        intros ce Hce. by rewrite (Htl ce Hce).
    - rewrite fmap_app. apply NoDup_app. split_and!; [done| |done].
      intros x (ce & -> & Hce)%list_elem_of_fmap (ce' & Heq & Hce')%list_elem_of_fmap.
      destruct (Hrep ce Hce) as (r & Hlook & Hdue & _).
      destruct (Hdue' ce' Hce') as (r' & Hlook' & _ & _ & _ & Hr').
      apply (Htl' ce' Hce'). rewrite (reports_tenant _ _ _ Hr').
      apply is_due_tenant in Hdue. rewrite Heq in Hlook. congruence.
    - intros ce [Hce|Hce]%elem_of_app; [|by apply Hdue'].
      destruct (Hrep ce Hce) as (r & Hlook & Hdue & Hlock & Hr1 & Hr2 & Hr3).
      pose proof (is_due_tenant _ _ Hdue) as Htid.
      exists r. rewrite Htid. split_and!; try done; [by left|].
      split_and!; try done.
      destruct (fold_tenant_row ts (tenant_step acc t) _ _ Hnd Hr3) as [?|(Hin & _)]; [done|].
      simpl in Hin. rewrite claim_row_tenant in Hin. congruence.
  Qed.
End Claim.

(** ** The contract of a claimed row *)

(** A row a claim takes: pending, owned by the fresh token until the lease
    expires, one attempt more, its started marker untouched. *)
Lemma claim_row_claimed c now k r : (claim_row c now k r).2 = true →
  let r' := (claim_row c now k r).1 in
  ev_status r' = ev_status r ∧ ev_claim_token r' = Some k ∧
  ev_attempts r' = ev_attempts r + 1 ∧ ev_attempts r < max_attempts c ∧
  ev_next_attempt_at r' = now + lease c ∧
  ev_external_started_claim r' = ev_external_started_claim r ∧
  ev_external_started_at r' = ev_external_started_at r ∧
  retry_deadline (ev_last_error r') = retry_deadline (ev_last_error r) ∧
  ¬ (is_Some (ev_claim_token r) ∧ ev_external_started_claim r = ev_claim_token r).
Proof.
  unfold claim_row. set (lost := bool_decide (ev_claim_token r ≠ None)).
  destruct (lost && marked_by r (ev_claim_token r)) eqn:E1; [done|].
  destruct (Z.leb_spec (max_attempts c) (ev_attempts r)); [done|]. intros _.
  assert (¬ (is_Some (ev_claim_token r) ∧ ev_external_started_claim r = ev_claim_token r)) as Hm.
  { intros [[k0 Hk0] Hm]. subst lost. unfold marked_by in E1. rewrite Hk0 in *.
    rewrite !bool_decide_eq_true_2 in E1 by done. done. }
  clearbody lost. split_and!; try done; try (by destruct lost).
  destruct lost; [apply (record_error_deadline r)|done].
Qed.

(** A row a claim does not take is dead-lettered, its marker kept. *)
Lemma claim_row_dead c now k r : (claim_row c now k r).2 = false →
  let r' := (claim_row c now k r).1 in
  ev_status r' = OUTBOX_STATUS_DEAD_LETTERED ∧ ev_claim_token r' = None ∧
  ev_attempts r' = ev_attempts r ∧
  ev_external_started_claim r' = ev_external_started_claim r ∧
  ev_external_started_at r' = ev_external_started_at r ∧
  retry_deadline (ev_last_error r') = retry_deadline (ev_last_error r) ∧
  (max_attempts c ≤ ev_attempts r ∨
   is_Some (ev_claim_token r) ∧ ev_external_started_claim r = ev_claim_token r).
Proof.
  unfold claim_row, marked_by.
  destruct (bool_decide (ev_claim_token r ≠ None) && _) eqn:E1.
  - intros _. split_and!; try done; try apply dead_letter_deadline. right.
    destruct (ev_claim_token r); reflect_bools; naive_solver.
  - destruct (Z.leb_spec (max_attempts c) (ev_attempts r)); [intros _|done].
    split_and!; try (by destruct (bool_decide (ev_claim_token r ≠ None)));
      [apply dead_letter_deadline|by left].
Qed.

(** C36: what a claim transaction promises.  At most [batch_size] events are
    claimed, at most [per_tenant_limit] of each tenant, under pairwise distinct
    tokens and each event once; every claimed event was pending and due, of a
    tenant that was open when the tenants were listed (it may have closed since:
    the execution looks again), not locked by another dispatcher and not marked by
    the claim it lost, and is now owned by its token until the lease expires, with exactly
    one more attempt, within [max_attempts]. *)
Theorem claim_contract (uuid4 : nat → uuid) (c : OutboxDispatchConfig) (now : datetime) (rng : Q)
    (locked : gset uuid) (seen s s' : outbox_store) (claims : list ClaimedEvent) :
  Inj (=) (=) uuid4 → valid_config c →
  claim_due_events uuid4 c now rng locked seen s = (Ok claims, s') →
  Z.of_nat (length claims) ≤ batch_size c ∧
  (∀ t, Z.of_nat (length (filter (λ ce, ce_tenant_id ce = t) claims)) ≤ per_tenant_limit c) ∧
  NoDup (ce_claim_token <$> claims) ∧ NoDup (ce_id <$> claims) ∧
  ∀ ce, ce ∈ claims → ∃ r r',
    s.(os_events) !! ce_id ce = Some r ∧ s'.(os_events) !! ce_id ce = Some r' ∧
    tenant_open seen (ev_tenant_id r) ∧ ev_status r = OUTBOX_STATUS_PENDING ∧
    ev_next_attempt_at r ≤ now ∧ ce_id ce ∉ locked ∧
    ¬ (is_Some (ev_claim_token r) ∧ ev_external_started_claim r = ev_claim_token r) ∧
    ev_status r' = OUTBOX_STATUS_PENDING ∧ ev_claim_token r' = Some (ce_claim_token ce) ∧
    ev_next_attempt_at r' = now + lease c ∧ ev_attempts r' = ev_attempts r + 1 ∧
    ev_attempts r' ≤ max_attempts c.
Proof.
  intros Hinj Hc Hrun. destruct (valid_config_bounds c Hc) as (_ & _ & _ & _ & Hbatch & Hper & _).
  set (ts := rotate_from rng (list_open_tenant_ids seen)).
  assert (foldl (claim_tenant uuid4 c now locked) (s, []) ts = (s', claims)) as Hfold.
  { unfold claim_due_events in Hrun. subst ts. destruct (list_open_tenant_ids seen) eqn:E.
    - simplify_eq. unfold rotate_from. by rewrite drop_nil, take_nil.
    - destruct (foldl _ _ _) as [s1 cl]. by simplify_eq/=. }
  assert (NoDup ts) as Hnd by (subst ts; rewrite rotate_Permutation; apply NoDup_open_ids).
  destruct (fold_tenant_appended uuid4 c now locked ts (s, []) Hnd) as (new & Hn & Hlen & Hlim & Hids & Hdue);
    [lia|simpl; lia|].
  rewrite Hfold in *. pose proof (app_list _ _ _ _ Hn) as Hnew. simpl in *. subst new.
  split_and!; try done.
  - rewrite (app_tokens _ _ _ _ Hn). apply NoDup_fmap_2; [done|apply NoDup_seq].
  - intros ce Hce. destruct (Hdue ce Hce) as (r & Hr & Hin & Hd & Hl & _ & Htrue & Hr').
    pose proof (claim_row_claimed _ _ _ _ Htrue) as (H1 & H2 & H3 & H4 & H5 & _ & _ & _ & H6).
    exists r, (touch now (claim_row c now (ce_claim_token ce) r).1).
    unfold is_due in Hd. reflect_bools. simpl.
    split_and!; try done; [|congruence|lia].
    apply elem_of_open_ids. subst ts. by rewrite rotate_Permutation in Hin.
Qed.

(** A store with one open tenant and one event whose lease expired. *)
Definition demo_uuid (n : nat) : uuid := (N.of_nat n + 1000)%N.
#[export] Instance demo_uuid_inj : Inj (=) (=) demo_uuid.
Proof. intros a b. unfold demo_uuid. lia. Qed.

Definition demo_row : OutboxEvent :=
  mkOutboxEvent 1 (lit "webhook.delivery") (lit "webhook") (lit "7") [] None
    OUTBOX_STATUS_PENDING 1 5 None None (Some 900%N) None None 0 0.
Definition demo_store : outbox_store :=
  mkStore {[ 1%N := mkTenant (lit "acme") ACTIVE None false ]} {[ 50%N := demo_row ]} ∅ [] 0.

(** The tenant closes after the tenants were listed. *)
Definition demo_closed : outbox_store :=
  mkStore {[ 1%N := mkTenant (lit "acme") DELETED None false ]} {[ 50%N := demo_row ]} ∅ [] 0.

Lemma claim_contract_witness :
  Inj (=) (=) demo_uuid ∧ valid_config default_config ∧
  match claim_due_events demo_uuid default_config 10 0 ∅ demo_store demo_closed with
  | (Ok claims, s') => length claims = 1%nat ∧ Z.of_nat (length claims) ≤ 100
  | (Raise _, _) => False
  end.
Proof.
  split; [apply _|]. split; [reflexivity|].
  destruct (claim_due_events demo_uuid default_config 10 0 ∅ demo_store demo_closed) as [[claims|] s'] eqn:E.
  - split; [|by destruct (claim_contract demo_uuid default_config 10 0 ∅ demo_store demo_closed s' claims
                            demo_uuid_inj eq_refl E)].
    vm_compute in E. by injection E as <- _.
  - vm_compute in E. discriminate E.
Defined.
