(* ===== verification/OutboxTrace.v ===== *)
(** * The outbox state machine: refinement and safety over all histories

    dispatch.py opens with the state machine a row follows.  Here it is an
    inductive transition system ([astep]) over what matters of a row, and the
    operations of [Outbox] refine it: every command changes a row only along an
    edge of that machine whose label the command licenses.  The safety theorems
    are then proved over arbitrary interleavings of commands ([run]): each command is
    one transaction under the locks of its rows.  A claim lists the open tenants in
    a session of its own before: the command has the store it saw there, which may
    be any, so that anything may have happened in between. *)

From Stdlib Require Import QArith.
From S2P Require Import Prelude PyStr PyTime TenantLifecycle OutboxModel OutboxText Outbox OutboxClaim.

#[global] Open Scope Z_scope.

(** ** Commands *)

(** A call of the outbox API by some dispatcher, worker, operator or
    producer, or a lifecycle change of a tenant. *)
Inductive command : Type :=
| CClaim (now : datetime) (rng : Q) (locked : gset uuid) (seen : outbox_store)
| CBegin (now : datetime) (tenant_id event_id claim_token : uuid)
| CMark (now : datetime) (tenant_id event_id claim_token : uuid)
| CComplete (now : datetime) (tenant_id event_id claim_token : uuid)
| CFail (now : datetime) (rng : Q) (terminal : bool) (retry_after : option retry_hint)
    (tenant_id event_id claim_token : uuid) (error : error_arg)
| CNotSent (now : datetime) (rng : Q) (retry_after : option retry_hint)
    (tenant_id event_id claim_token : uuid) (error : exc) (block_exception : option exc)
| CAmbiguous (now : datetime) (rng : Q) (tenant_id event_id claim_token : uuid) (error : AmbiguousOutcome)
| CRelease (now : datetime) (tenant_id event_id claim_token : uuid) (error : error_arg)
| CReplay (authorized : bool) (tenant_id : uuid) (event_ids : option (list uuid))
    (since : option datetime) (apply : bool) (now : datetime)
| CAppend (scope : option uuid) (tenant_id : uuid) (event_type aggregate_type aggregate_id : pystr)
    (payload : list (pystr * json)) (initiated_by : option json) (request_id : option pystr)
    (now : datetime)
| CDelete (scope tenant_id : uuid) (event_type aggregate_type aggregate_id : pystr)
| CPurge (tenant_id : uuid)
| CConsume (tenant_id : uuid) (consumer : pystr) (event_id : uuid)
| CTenant (tenant_id : uuid) (target : TenantStatus).

(** The lifecycle change: the status is assigned only along the graph. *)
Definition transition_status (tenant_id : uuid) (target : TenantStatus) (s : outbox_store) : outbox_store :=
  match s.(os_tenants) !! tenant_id with
  | Some t =>
      match validate_transition (t_status t) target with
      | Ok _ => mkStore (<[tenant_id := mkTenant (t_name t) target (t_parent_id t) (t_inherits_billing t)]>
                           s.(os_tenants)) s.(os_events) s.(os_consumptions) s.(os_audit) s.(os_drawn)
      | Raise _ => s
      end
  | None => s
  end.

Section Trace.
Context (uuid4 : nat → uuid) (c : OutboxDispatchConfig).

Definition exec (cmd : command) (s : outbox_store) : outbox_store :=
  match cmd with
  | CClaim now rng locked seen => (claim_due_events uuid4 c now rng locked seen s).2
  | CBegin now t e k => (begin_event_execution c now t e k s).2
  | CMark now t e k => (mark_external_effect_started c now t e k s).2
  | CComplete now t e k => (complete_event now t e k s).2
  | CFail now rng terminal hint t e k err => (fail_event c now rng terminal hint t e k err s).2
  | CNotSent now rng hint t e k err blk => (record_confirmed_not_sent c now rng hint t e k err blk s).2
  | CAmbiguous now rng t e k err => (record_ambiguous_outcome c now rng t e k err s).2
  | CRelease now t e k err => (release_claim c now t e k err s).2
  | CReplay auth t ids since apply now => (replay_dead_lettered_events auth t ids since apply now s).2
  | CAppend sc t et at_ ai p i r now => (append_event uuid4 sc t et at_ ai p i r now s).2
  | CDelete sc t et at_ ai => (delete_aggregate_events sc t et at_ ai s).2
  | CPurge t => (purge_tenant_outbox_events t s).2
  | CConsume t name e => (record_event_consumption t name e s).2
  | CTenant t target => transition_status t target s
  end.

Definition run (cmds : list command) (s : outbox_store) : outbox_store := foldl (λ s cmd, exec cmd s) s cmds.

(** ** The abstract machine *)

Inductive phase_t : Type := Unclaimed | Claimed (k : uuid) | Published | Dead.
Record astate : Type := mkA { a_phase : phase_t; a_attempts : Z; a_marker : option uuid }.

Inductive alabel : Type :=
| LClaim (k : uuid)              (* a dispatcher claims a due row *)
| LLost                          (* reclaim of a marked or exhausted row: dead letter *)
| LBegin (k : uuid)              (* the worker starts, the lease renewed *)
| LWindow (k : uuid)             (* the idempotency window closed before the retry *)
| LClosed (k : uuid)             (* the tenant closed: the claim is dropped *)
| LMark (k : uuid)               (* the started marker is committed *)
| LComplete (k : uuid)
| LRetry (k : uuid) (consent : bool)  (* released for a retry; [consent]: a marked
                                         attempt declared safe to repeat *)
| LFail (k : uuid)               (* dead letter *)
| LRelease (k : uuid)            (* given back, the attempt refunded *)
| LReplay.                       (* an operator replays a dead letter *)

(** The transitions of dispatch.py's module documentation. *)
Inductive astep : alabel → astate → astate → Prop :=
| A_claim k p n m :
    p = Unclaimed ∨ (∃ k0, p = Claimed k0 ∧ m ≠ Some k0) → n < max_attempts c →
    astep (LClaim k) (mkA p n m) (mkA (Claimed k) (n + 1) m)
| A_lost p n m :
    (∃ k0, p = Claimed k0 ∧ m = Some k0) ∨
    (p = Unclaimed ∨ ∃ k0, p = Claimed k0) ∧ max_attempts c ≤ n →
    astep LLost (mkA p n m) (mkA Dead n m)
| A_begin k n m : astep (LBegin k) (mkA (Claimed k) n m) (mkA (Claimed k) n m)
| A_window k n m : 1 < n → astep (LWindow k) (mkA (Claimed k) n m) (mkA Dead n m)
| A_closed k n m : astep (LClosed k) (mkA (Claimed k) n m) (mkA Unclaimed n m)
| A_mark k n m : m ≠ Some k → astep (LMark k) (mkA (Claimed k) n m) (mkA (Claimed k) n (Some k))
| A_complete k n m : astep (LComplete k) (mkA (Claimed k) n m) (mkA Published n None)
| A_retry k b n m : n < max_attempts c → (m = Some k → b = true) →
    astep (LRetry k b) (mkA (Claimed k) n m) (mkA Unclaimed n None)
| A_fail k n m : astep (LFail k) (mkA (Claimed k) n m) (mkA Dead n m)
| A_release k n m : astep (LRelease k) (mkA (Claimed k) n m) (mkA Unclaimed (Z.max (n - 1) 0) None)
| A_replay n m : astep LReplay (mkA Dead n m) (mkA Unclaimed 0 None).

(** What the machine sees of a row. *)
Definition abs (r : OutboxEvent) : astate :=
  mkA (match r.(ev_status), r.(ev_claim_token) with
       | OUTBOX_STATUS_PENDING, None => Unclaimed
       | OUTBOX_STATUS_PENDING, Some k => Claimed k
       | OUTBOX_STATUS_PUBLISHED, _ => Published
       | OUTBOX_STATUS_DEAD_LETTERED, _ => Dead
       end) r.(ev_attempts) r.(ev_external_started_claim).

(** Which edges a command that takes the store [s] to [s'] may take on the
    event [e]. *)
Definition licenses (cmd : command) (s s' : outbox_store) (e : uuid) (r : OutboxEvent) (l : alabel) : Prop :=
  match cmd with
  | CClaim now _ locked seen =>
      tenant_open seen (ev_tenant_id r) ∧ ev_next_attempt_at r ≤ now ∧ e ∉ locked ∧
      (l = LLost ∨ ∃ n, (os_drawn s ≤ n < os_drawn s')%nat ∧ l = LClaim (uuid4 n))
  | CBegin now t e' k => e = e' ∧ t = ev_tenant_id r ∧
      (l = LBegin k ∧ tenant_open s t ∨ l = LClosed k ∧ ¬ tenant_open s t ∨
       l = LWindow k ∧ ∃ d, retry_deadline (ev_last_error r) = Some d ∧ d ≤ now)
  | CMark now t e' k => e = e' ∧ t = ev_tenant_id r ∧ l = LMark k ∧
      now < ev_next_attempt_at r ∧ external_effect_markers c = true
  | CComplete _ t e' k => e = e' ∧ t = ev_tenant_id r ∧ l = LComplete k
  | CFail _ _ _ _ t e' k _ => e = e' ∧ t = ev_tenant_id r ∧ (l = LFail k ∨ l = LRetry k false)
  | CNotSent _ _ _ t e' k err blk => e = e' ∧ t = ev_tenant_id r ∧
      (l = LFail k ∨ l = LRetry k (is_attested_not_sent err blk))
  | CAmbiguous _ _ t e' k err => e = e' ∧ t = ev_tenant_id r ∧
      (l = LFail k ∨ l = LRetry k (at_least_once err))
  | CRelease _ t e' k _ => e = e' ∧ t = ev_tenant_id r ∧ l = LRelease k
  | CReplay auth t ids _ apply _ => t = ev_tenant_id r ∧ l = LReplay ∧ auth = true ∧ apply = true ∧
      tenant_open s t ∧ (∀ l, ids = Some l → e ∈ l)
  | CAppend _ _ _ _ _ _ _ _ _ | CDelete _ _ _ _ _ | CPurge _ | CConsume _ _ _ | CTenant _ _ => False
  end.

(** Which commands may delete an event's row. *)
Definition may_delete (cmd : command) : Prop :=
  match cmd with CDelete _ _ _ _ _ | CPurge _ => True | _ => False end.

(** ** Per-row effect of each operation *)

Lemma visible_Some s t e r : visible s t e = Some r ↔ s.(os_events) !! e = Some r ∧ ev_tenant_id r = t.
Proof.
  unfold visible. destruct (os_events s !! e) as [r'|]; [|naive_solver].
  case_bool_decide; split; intros; destruct_and?; simplify_eq; done.
Qed.

Lemma locked_claimed_row_Some s t e k r : locked_claimed_row s t e k = Some r ↔
  s.(os_events) !! e = Some r ∧ ev_tenant_id r = t ∧
  ev_status r = OUTBOX_STATUS_PENDING ∧ ev_claim_token r = Some k.
Proof.
  unfold locked_claimed_row. split.
  - destruct (visible s t e) as [r'|] eqn:E; [|done]. apply visible_Some in E as [? ?].
    destruct (_ && _)%bool eqn:E2; [|done]. intros [= ->]. by reflect_bools.
  - intros (H1 & H2 & H3 & H4). rewrite (proj2 (visible_Some s t e r)) by done.
    by rewrite !bool_decide_eq_true_2.
Qed.

(** The row of [e] under a claim of [k]. *)
Definition owned (r : OutboxEvent) (t k : uuid) : Prop :=
  ev_tenant_id r = t ∧ ev_status r = OUTBOX_STATUS_PENDING ∧ ev_claim_token r = Some k.

Lemma with_claimed_row_row {A} now t e' k (d : A) f s e r :
  s.(os_events) !! e = Some r →
  let s' := (with_claimed_row now t e' k d f s).2 in
  s'.(os_events) !! e = Some r ∨
  e = e' ∧ owned r t k ∧ ∃ r' a, f r = Ok (r', a) ∧ s'.(os_events) !! e = Some (touch now r').
Proof.
  intros Hr. unfold with_claimed_row. simpl.
  destruct (locked_claimed_row s t e' k) as [r0|] eqn:E; [|by left].
  apply locked_claimed_row_Some in E as (Hr0 & Ht & Hp & Hk).
  destruct (f r0) as [[r' a]|] eqn:Ef; simpl; [|by left].
  destruct (decide (e = e')) as [->|Hne]; [|left; by rewrite lookup_insert_ne].
  right. assert (r0 = r) as -> by congruence. split_and!; try done.
  exists r', a. by rewrite lookup_insert_eq.
Qed.

Lemma with_claimed_row_None {A} now t e' k (d : A) f s e :
  s.(os_events) !! e = None → (with_claimed_row now t e' k d f s).2.(os_events) !! e = None.
Proof.
  intros Hr. unfold with_claimed_row.
  destruct (locked_claimed_row s t e' k) as [r0|] eqn:E; [|done].
  apply locked_claimed_row_Some in E as (Hr0 & _).
  destruct (f r0) as [[r' a]|]; simpl; [|done].
  destruct (decide (e = e')) as [->|Hne]; [congruence|by rewrite lookup_insert_ne].
Qed.

Lemma abs_owned r t k : owned r t k → abs r = mkA (Claimed k) (ev_attempts r) (ev_external_started_claim r).
Proof. intros (_ & Hp & Hk). unfold abs. by rewrite Hp, Hk. Qed.

Lemma abs_touch now r : abs (touch now r) = abs r.
Proof. done. Qed.

Lemma abs_dead_letter r o : abs (dead_letter r o) = mkA Dead (ev_attempts r) (ev_external_started_claim r).
Proof. by destruct o. Qed.

Lemma abs_released r n : ev_status r = OUTBOX_STATUS_PENDING →
  abs (set_next_attempt_at n (clear_marker (set_claim_token None r))) = mkA Unclaimed (ev_attempts r) None.
Proof. intros Hp. unfold abs. simpl. by rewrite Hp. Qed.

Lemma marked_by_false r k : marked_by r (Some k) = false → ev_external_started_claim r ≠ Some k.
Proof. unfold marked_by. intros H. by reflect_bools. Qed.

(** The three outcome functions dead-letter, or retry with the consent their
    argument gives. *)
Lemma ordinary_failure_abs now rng terminal hint err r t k r' b :
  owned r t k → (ev_external_started_claim r = Some k → b = true) →
  ordinary_failure c now rng terminal hint err r = Ok r' →
  astep (LFail k) (abs r) (abs r') ∨ astep (LRetry k b) (abs r) (abs r').
Proof.
  intros Ho Hb Hf. rewrite (abs_owned _ _ _ Ho). destruct Ho as (_ & Hp & _).
  unfold ordinary_failure in Hf.
  destruct (_ || _)%bool eqn:E; [left; injection Hf as <-; by constructor|right].
  unfold result_bind in Hf. apply orb_false_elim in E as [_ E]. apply Z.leb_gt in E.
  destruct (retry_delay _ _ _) as [delay|]; [|done].
  destruct (match hint with Some _ => _ | None => _ end) as [delay'|]; [|done].
  injection Hf as <-. rewrite abs_released by done. by constructor.
Qed.

Lemma failed_row_abs now rng terminal hint err r t k r' :
  owned r t k → failed_row c now rng terminal hint k err r = Ok r' →
  astep (LFail k) (abs r) (abs r') ∨ astep (LRetry k false) (abs r) (abs r').
Proof.
  intros Ho. unfold failed_row. destruct (marked_by r (Some k)) eqn:Em.
  - intros [= <-]. left. rewrite (abs_owned _ _ _ Ho), abs_dead_letter. constructor.
  - apply marked_by_false in Em. by eapply ordinary_failure_abs.
Qed.

Lemma not_sent_row_abs now rng hint err blk r t k r' :
  owned r t k → not_sent_row c now rng hint k err blk r = Ok r' →
  astep (LFail k) (abs r) (abs r') ∨ astep (LRetry k (is_attested_not_sent err blk)) (abs r) (abs r').
Proof.
  intros Ho. unfold not_sent_row. destruct (marked_by r (Some k)) eqn:Em; simpl.
  - destruct (is_permanent (info err)).
    { intros [= <-]. left. rewrite (abs_owned _ _ _ Ho), abs_dead_letter. constructor. }
    destruct (is_attested_not_sent err blk) eqn:Ea; simpl.
    + by eapply ordinary_failure_abs.
    + intros [= <-]. left. rewrite (abs_owned _ _ _ Ho), abs_dead_letter. constructor.
  - apply marked_by_false in Em. by eapply ordinary_failure_abs.
Qed.

Lemma ambiguous_row_abs now rng err r t k r' :
  owned r t k → ambiguous_row c now rng k err r = Ok r' →
  astep (LFail k) (abs r) (abs r') ∨ astep (LRetry k (at_least_once err)) (abs r) (abs r').
Proof.
  intros Ho. rewrite (abs_owned _ _ _ Ho). pose proof Ho as (_ & Hp & _).
  unfold ambiguous_row, released_at, result_bind.
  destruct (marked_by r (Some k) && negb (at_least_once err)) eqn:Em.
  { intros [= <-]. left. rewrite abs_dead_letter. constructor. }
  assert (ev_external_started_claim r = Some k → at_least_once err = true) as Hcons.
  { intros Hm. unfold marked_by in Em. rewrite Hm, bool_decide_eq_true_2 in Em by done.
    by apply negb_false_iff in Em. }
  destruct (retry_delay _ _ _) as [delay|]; [|done].
  destruct (Z.ltb_spec (ev_attempts r) (max_attempts c)) as [Hlt|Hge]; destruct (at_least_once err).
  - intros [= <-]. right. rewrite abs_released by done. by constructor.
  - destruct (retry_within err) as [w|]; [|intros [= <-]; left; rewrite abs_dead_letter; constructor].
    destruct (dt_add (ev_created_at r) w) as [dl|]; [|done].
    destruct (dt_add now delay) as [next|]; [|done].
    destruct (next <? dl); intros [= <-].
    + right. rewrite abs_released by done. by constructor.
    + left. rewrite abs_dead_letter. constructor.
  - intros [= <-]. left. rewrite abs_dead_letter. constructor.
  - destruct (retry_within err) as [w|]; [|intros [= <-]; left; rewrite abs_dead_letter; constructor].
    destruct (dt_add (ev_created_at r) w) as [dl|]; [|done].
    intros [= <-]. left. rewrite abs_dead_letter. constructor.
Qed.


(** ** Refinement *)

(** What no command changes of an event: whose it is and what it says. *)
Definition same_event (r r' : OutboxEvent) : Prop :=
  ev_tenant_id r' = ev_tenant_id r ∧ ev_event_type r' = ev_event_type r ∧
  ev_aggregate_type r' = ev_aggregate_type r ∧ ev_aggregate_id r' = ev_aggregate_id r ∧
  ev_payload r' = ev_payload r ∧ ev_created_at r' = ev_created_at r.

(** What an operation keeps of a row: the event, the table's checks and, but
    for a recorded ambiguous outcome ([amb]), the retry deadline. *)
Definition kept (amb : bool) (r r' : OutboxEvent) : Prop :=
  same_event r r' ∧
  (amb = false → retry_deadline (ev_last_error r') = retry_deadline (ev_last_error r)) ∧
  (row_checks r → row_checks r').

Definition is_ambiguous (cmd : command) : bool :=
  match cmd with CAmbiguous _ _ _ _ _ _ => true | _ => false end.

(** The edge a command takes on a row it changes. *)
Definition edge (cmd : command) (s s' : outbox_store) (e : uuid) (r r' : OutboxEvent) : Prop :=
  kept (is_ambiguous cmd) r r' ∧ ∃ l, licenses cmd s s' e r l ∧ astep l (abs r) (abs r').

Definition row_effect (cmd : command) (s s' : outbox_store) (e : uuid) : Prop :=
  match s.(os_events) !! e, s'.(os_events) !! e with
  | Some r, Some r' => r' = r ∨ edge cmd s s' e r r'
  | Some r, None => may_delete cmd
  | None, Some r' => e = uuid4 (os_drawn s) ∧ os_drawn s' = S (os_drawn s) ∧
                     abs r' = mkA Unclaimed 0 None ∧ row_checks r'
  | None, None => True
  end.

Lemma checks_unclaimed n r : row_checks r → 0 ≤ n →
  row_checks (clear_marker (set_claim_token None (set_attempts n r))).
Proof. intros (H1 & H2 & H3) Hn. unfold row_checks. simpl. split_and!; [done|by intros []|by split; intros []]. Qed.

Lemma kept_dead_letter amb r o : kept amb r (dead_letter r o).
Proof.
  split_and!; [by destruct o|intros; apply dead_letter_deadline|].
  intros (H1 & H2 & H3). by destruct o; split_and!; try done; intros [].
Qed.

Lemma kept_released r n : kept false r (set_next_attempt_at n (clear_marker (set_claim_token None r))).
Proof.
  split_and!; try done. intros (H1 & H2 & H3). split_and!; [done|by intros []|by split; intros []].
Qed.

Lemma kept_unclaim r : kept false r (set_claim_token None r).
Proof. split_and!; try done. intros (H1 & H2 & H3). split_and!; [done|by intros []|done]. Qed.

Lemma kept_record_error r err : kept false r (record_error r err).
Proof. split_and!; try done. intros _. apply record_error_deadline. Qed.

Lemma kept_trans amb r r' r'' : kept amb r r' → kept amb r' r'' → kept amb r r''.
Proof.
  intros ((? & ? & ? & ? & ? & ?) & Hd & Hc) ((? & ? & ? & ? & ? & ?) & Hd' & Hc').
  split; [split_and!; congruence|]. split; [|by auto].
  intros Ha. by rewrite (Hd' Ha), (Hd Ha).
Qed.

Lemma kept_weaken amb r r' : kept false r r' → kept amb r r'.
Proof. intros (? & Hd & ?). split_and!; try done. intros _. by apply Hd. Qed.

Lemma row_effect_same cmd s s' e : s'.(os_events) !! e = s.(os_events) !! e → row_effect cmd s s' e.
Proof. intros H. unfold row_effect. rewrite H. destruct (os_events s !! e); [by left|done]. Qed.

Lemma kept_ordinary now rng terminal hint err r r' :
  ordinary_failure c now rng terminal hint err r = Ok r' → kept false r r'.
Proof.
  unfold ordinary_failure, result_bind. intros H.
  eapply kept_trans; [apply (kept_record_error r err)|].
  destruct (_ || _)%bool; [injection H as <-; apply kept_dead_letter|].
  destruct (retry_delay _ _ _); [|done]. destruct (match hint with Some _ => _ | None => _ end); [|done].
  injection H as <-. apply kept_released.
Qed.

Lemma kept_failed now rng terminal hint k err r r' :
  failed_row c now rng terminal hint k err r = Ok r' → kept false r r'.
Proof.
  unfold failed_row. destruct (marked_by _ _); [intros [= <-]; apply kept_dead_letter|apply kept_ordinary].
Qed.

Lemma kept_not_sent now rng hint k err blk r r' :
  not_sent_row c now rng hint k err blk r = Ok r' → kept false r r'.
Proof.
  unfold not_sent_row. destruct (_ && _)%bool; [intros [= <-]; apply kept_dead_letter|].
  destruct (_ && _)%bool; [intros [= <-]; apply kept_dead_letter|apply kept_ordinary].
Qed.

Lemma kept_set_error r t : kept true r (set_last_error t r).
Proof. by split_and!. Qed.

Lemma kept_ambiguous now rng k err r r' : ambiguous_row c now rng k err r = Ok r' → kept true r r'.
Proof.
  unfold ambiguous_row, released_at, record_error, result_bind. intros H.
  assert (∃ t, kept true (set_last_error t r) r') as [t Ht]; [|exact (kept_trans _ _ _ _ (kept_set_error r t) Ht)].
  destruct (_ && _)%bool; [injection H as <-; eexists; apply kept_dead_letter|].
  destruct (retry_delay _ _ _); [|done]. destruct (at_least_once err).
  - destruct (_ <? _); injection H as <-; eexists; [apply kept_weaken, kept_released|apply kept_dead_letter].
  - destruct (retry_within err); [|injection H as <-; eexists; apply kept_dead_letter].
    destruct (dt_add _ _); [|done].
    destruct (_ <? _); [destruct (dt_add _ _); [|done]; destruct (_ <? _)|]; injection H as <-; eexists;
      try apply kept_dead_letter. apply kept_weaken, kept_released.
Qed.

Lemma kept_released_row now err r : kept false r (released_row c now err r).
Proof.
  split_and!; try done.
  - intros _. unfold released_row. set (r1 := set_next_attempt_at _ _).
    apply (record_error_deadline r1).
  - intros (H1 & _). split_and!; [simpl; lia|by intros []|by split; intros []].
Qed.

(** An outcome operation changes at most the row its claim owns, along the
    edge its row function takes. *)
Lemma outcome_effect {A} cmd now t e' k (d : A) f s e :
  let s' := (with_claimed_row now t e' k d f s).2 in
  (∀ r r' a, owned r t k → f r = Ok (r', a) →
     kept (is_ambiguous cmd) r r' ∧ ∃ l, licenses cmd s s' e' r l ∧ astep l (abs r) (abs r')) →
  row_effect cmd s s' e.
Proof.
  intros s' Hf. unfold row_effect. destruct (os_events s !! e) as [r|] eqn:Hr.
  - destruct (with_claimed_row_row now t e' k d f s e r Hr) as [Hs|(-> & Ho & r' & a & Hfr & Hs)];
      subst s'; rewrite Hs; [by left|right].
    destruct (Hf r r' a Ho Hfr) as (Hsame & l & Hl & Hstep). split; [done|]. by exists l.
  - subst s'. by rewrite with_claimed_row_None.
Qed.

Lemma reporting_Ok x r' a : reporting x = Ok (r', a) → x = Ok r'.
Proof. unfold reporting, result_bind. destruct x; naive_solver. Qed.

Lemma kept_claim_row now k r : ev_status r = OUTBOX_STATUS_PENDING → kept false r (claim_row c now k r).1.
Proof.
  intros Hp. unfold claim_row. destruct (_ && _)%bool; [apply kept_dead_letter|].
  destruct (_ <=? _); [apply kept_dead_letter|].
  eapply (kept_trans _ _ (if bool_decide (ev_claim_token r ≠ None)
            then record_error r (lease_expired_error false (ev_attempts r)) else r)).
  - destruct (bool_decide _); [apply kept_record_error|done].
  - set (r1 := if bool_decide _ then _ else _).
    assert (ev_status r1 = OUTBOX_STATUS_PENDING) as Hp1 by (subst r1; by destruct (bool_decide _)).
    clearbody r1. split_and!; try done. intros (H1 & H2 & H3). split_and!; try done. simpl. lia.
Qed.

Lemma claim_effect now rng locked seen s e :
  row_effect (CClaim now rng locked seen) s (exec (CClaim now rng locked seen) s) e.
Proof.
  simpl. destruct (claim_due_events _ _ _ _ _ _ _) as [[claims|x] s'] eqn:E; simpl.
  2:{ unfold claim_due_events in E. destruct (list_open_tenant_ids seen); [done|].
      by destruct (foldl _ _ _). }
  destruct (claim_due_events_row _ _ _ _ _ _ _ _ _ e E) as [_ H]. unfold row_effect.
  destruct (os_events s !! e) as [r|]; [|by rewrite H].
  destruct H as [H|(Ho & Hd & Hl & r' & Hs & n & Hn & -> & Hdrawn)]; rewrite ?H, ?Hs; [by left|right].
  unfold is_due in Hd. reflect_bools.
  split; [by apply (kept_claim_row now (uuid4 n))|]. destruct (claim_row c now (uuid4 n) r) as [r' b] eqn:Ec. destruct b.
  - pose proof (claim_row_claimed c now (uuid4 n) r) as Hc. rewrite Ec in Hc.
    destruct (Hc eq_refl) as (Hc1 & Hc2 & Hc3 & Hc4 & _ & Hc6 & _ & _ & Hc9). simpl in *.
    exists (LClaim (uuid4 n)). split; [split_and!; try done; right; exists n; auto with lia|].
    rewrite abs_touch. unfold abs. simplify_eq/=.
    rewrite Hc1, Hc2, Hc3, Hc6. replace (ev_status r) with OUTBOX_STATUS_PENDING by done.
    constructor; [|done]. destruct (ev_claim_token r) as [k0|]; [right|by left].
    exists k0. split; [done|]. intros Hm. by apply Hc9.
  - pose proof (claim_row_dead c now (uuid4 n) r) as Hc. rewrite Ec in Hc.
    destruct (Hc eq_refl) as (Hc1 & Hc2 & Hc3 & Hc4 & _ & _ & Hc7). simpl in *.
    exists LLost. split; [split_and!; auto|].
    rewrite abs_touch. unfold abs. rewrite Hc1, Hc3, Hc4.
    replace (ev_status r) with OUTBOX_STATUS_PENDING by done. constructor.
    destruct Hc7 as [Hc7|[[k0 Hk0] Hc7]].
    + right. split; [|done]. destruct (ev_claim_token r); eauto.
    + left. rewrite Hc7, Hk0. by exists k0.
Qed.

Lemma write_effect cmd now s e e' r0 r1 :
  s.(os_events) !! e' = Some r0 → edge cmd s (write_row now e' r1 s) e' r0 r1 →
  row_effect cmd s (write_row now e' r1 s) e.
Proof.
  intros Hr He. destruct (decide (e = e')) as [->|Hne].
  - unfold row_effect. rewrite Hr. simpl. rewrite lookup_insert_eq. right. apply He.
  - apply row_effect_same. simpl. by rewrite lookup_insert_ne.
Qed.

Lemma begin_effect now t e' k s e :
  row_effect (CBegin now t e' k) s (exec (CBegin now t e' k) s) e.
Proof.
  simpl. unfold begin_event_execution.
  destruct (lock_open_tenant s t) as [tn|x] eqn:El;
    destruct (locked_claimed_row s t e' k) as [r|] eqn:E; try by apply row_effect_same.
  - apply locked_claimed_row_Some in E as (Hr & Ho). apply lock_open_tenant_Ok in El.
    assert (tenant_open s t) as Hopen by (by exists tn).
    destruct (match retry_deadline (ev_last_error r) with Some _ => _ | None => _ end) eqn:Ew.
    + simpl. eapply write_effect; [done|]. split; [apply kept_dead_letter|].
      destruct (retry_deadline (ev_last_error r)) as [d|] eqn:Ed; [|done]. reflect_bools.
      exists (LWindow k). split; [|rewrite abs_dead_letter, (abs_owned _ _ _ Ho); by constructor].
      simpl. destruct Ho as (<- & _). split_and!; try done. right; right. rewrite Ed. eauto.
    + destruct (split_initiator _) as [p i]. simpl. eapply write_effect; [done|].
      split; [done|]. exists (LBegin k). split; [simpl; destruct Ho as (<- & _); by auto|].
      assert (owned (set_next_attempt_at (now + lease c) r) t k) as Ho' by done.
      rewrite (abs_owned _ _ _ Ho'), (abs_owned _ _ _ Ho). constructor.
  - apply locked_claimed_row_Some in E as (Hr & Ho). apply lock_open_tenant_Raise in El. simpl.
    eapply write_effect; [done|]. split; [by apply kept_unclaim|]. exists (LClosed k).
    split; [simpl; split_and!; [done|by destruct Ho as (<- & _)|by right; left]|].
    rewrite (abs_owned _ _ _ Ho). destruct Ho as (_ & Hp & _). unfold abs. simpl. rewrite Hp. constructor.
Qed.

Lemma mark_effect now t e' k s e :
  row_effect (CMark now t e' k) s (exec (CMark now t e' k) s) e.
Proof.
  simpl. unfold mark_external_effect_started.
  destruct (external_effect_markers c) eqn:Em; [simpl|by apply row_effect_same].
  destruct (visible s t e') as [r|] eqn:E; [|by apply row_effect_same].
  destruct (_ && _)%bool eqn:Ec; [simpl|by apply row_effect_same].
  apply visible_Some in E as [Hr Ht]. reflect_bools.
  assert (owned r t k) as Ho by done.
  eapply write_effect; [done|].
  split; [split_and!; try done; intros (H1' & H2' & H3'); by split_and!|]. exists (LMark k). split; [done|].
  rewrite (abs_owned _ _ _ Ho).
  assert (owned (set_next_attempt_at (now + lease c) (set_marker (Some now) (Some k) r)) t k) as Ho' by done.
  rewrite (abs_owned _ _ _ Ho'). by constructor.
Qed.

Lemma replay_effect auth t ids since apply_ now s e :
  row_effect (CReplay auth t ids since apply_ now) s (exec (CReplay auth t ids since apply_ now) s) e.
Proof.
  simpl. unfold replay_dead_lettered_events.
  destruct (validated_selection ids since) as [sel|] eqn:Ev; [|by apply row_effect_same].
  destruct auth; [simpl|by apply row_effect_same].
  destruct (lock_open_tenant s t) as [tn|x] eqn:El; [|by apply row_effect_same].
  set (rows := filter _ _). destruct (_ <? _); [by apply row_effect_same|].
  destruct apply_; [simpl|by apply row_effect_same].
  apply lock_open_tenant_Ok in El. unfold row_effect. simpl.
  rewrite lookup_union, lookup_fmap.
  destruct (os_events s !! e) as [r|] eqn:Hr.
  - destruct (rows !! e) as [r'|] eqn:Er; simpl.
    2:{ by left. }
    apply map_lookup_filter_Some in Er as [Hr' (Ht & Hd & Hsel)]. simpl in *.
    assert (r' = r) as -> by congruence.
    right. split.
    { split_and!; try done. intros _. split_and!; [done|by intros []|by split; intros []]. }
    exists LReplay. split.
    + simpl. split_and!; try done; [by exists tn|]. intros l ->. simpl in Ev.
      destruct since; [done|]. case_in Ev. simpl in Hsel. reflect_bools. by apply elem_of_remove_dups.
    + rewrite abs_touch. unfold abs at 1. rewrite Hd. constructor.
  - destruct (rows !! e) as [r'|] eqn:Er; simpl; [|done].
    apply map_lookup_filter_Some in Er as [Hr' _]. congruence.
Qed.

Lemma delete_effect cmd P s e : may_delete cmd → row_effect cmd s (delete_rows P s).2 e.
Proof.
  intros Hd. unfold row_effect. simpl. destruct (os_events s !! e) as [r|] eqn:Hr.
  - destruct (filter _ _ !! e) as [r'|] eqn:Er; [|done].
    apply map_lookup_filter_Some in Er as [Hr' _]. left. congruence.
  - rewrite map_lookup_filter_None_2; [done|by left].
Qed.

Lemma append_effect sc t et at_ ai p i rq now s e :
  let cmd := CAppend sc t et at_ ai p i rq now in row_effect cmd s (exec cmd s) e.
Proof.
  intros cmd. unfold cmd at 2. simpl. unfold append_event.
  destruct (validate_event _ _ _ _); [|by apply row_effect_same].
  destruct (negb _); [by apply row_effect_same|].
  destruct (bool_decide (_ = None)); [by apply row_effect_same|].
  case_bool_decide as Hfresh; [by apply row_effect_same|]. simpl.
  destruct (decide (e = uuid4 (os_drawn s))) as [->|Hne].
  - unfold row_effect. simpl. rewrite lookup_insert_eq.
    rewrite <-eq_None_not_Some in Hfresh. rewrite Hfresh. split_and!; try done.
    split_and!; [done|by intros []|by split; intros []].
  - apply row_effect_same. simpl. by rewrite lookup_insert_ne.
Qed.

Lemma exec_effect (cmd : command) (s : outbox_store) (e : uuid) : row_effect cmd s (exec cmd s) e.
Proof.
  destruct cmd.
  - apply claim_effect.
  - apply begin_effect.
  - apply mark_effect.
  - apply outcome_effect. intros r r' a Ho [= <- <-].
    split; [split_and!; try done; intros (? & _); split_and!; [done|by intros []|by split; intros []]|].
    exists (LComplete claim_token). split; [by destruct Ho as (<- & _)|].
    rewrite (abs_owned _ _ _ Ho). constructor.
  - apply outcome_effect. intros r r' a Ho Hf%reporting_Ok. split; [by eapply kept_failed|].
    destruct (failed_row_abs _ _ _ _ _ _ _ _ _ Ho Hf); destruct Ho as (<- & _); eexists; (split; [|done]); simpl; auto.
  - apply outcome_effect. intros r r' a Ho Hf%reporting_Ok. split; [by eapply kept_not_sent|].
    destruct (not_sent_row_abs _ _ _ _ _ _ _ _ _ Ho Hf); destruct Ho as (<- & _); eexists; (split; [|done]); simpl; auto.
  - apply outcome_effect. intros r r' a Ho Hf%reporting_Ok. split; [by eapply kept_ambiguous|].
    destruct (ambiguous_row_abs _ _ _ _ _ _ _ Ho Hf); destruct Ho as (<- & _); eexists; (split; [|done]); simpl; auto.
  - apply outcome_effect. intros r r' a Ho [= <- <-]. split; [apply kept_released_row|].
    exists (LRelease claim_token). split; [by destruct Ho as (<- & _)|].
    rewrite (abs_owned _ _ _ Ho). destruct Ho as (_ & Hp & _).
    unfold abs, released_row. simpl. rewrite Hp. constructor.
  - apply replay_effect.
  - apply append_effect.
  - apply delete_effect. done.
  - simpl. unfold purge_tenant_outbox_events.
    destruct (require_purging_tenant s tenant_id); [|by apply row_effect_same].
    apply (delete_effect (CPurge tenant_id) (λ row, bool_decide (ev_tenant_id row = tenant_id)) s e). done.
  - apply row_effect_same. simpl.
    unfold record_event_consumption, transaction, claim_event_consumption.
    unfold event_consumption_recorded, result_bind. by repeat case_match; simplify_eq/=.
  - apply row_effect_same. simpl. unfold transition_status.
    destruct (os_tenants s !! tenant_id); [|done]. by destruct (validate_transition _ _).
Qed.

(** *** The rest of the store *)

Definition is_tenant_change (cmd : command) : bool := match cmd with CTenant _ _ => true | _ => false end.

Definition tenants_frame (cmd : command) (s s' : outbox_store) : Prop :=
  (s.(os_drawn) ≤ s'.(os_drawn))%nat ∧
  (is_tenant_change cmd = false → s'.(os_tenants) = s.(os_tenants)) ∧
  (∀ t, tenant_open s' t → tenant_open s t).

Lemma tenants_frame_same cmd s s' :
  (s.(os_drawn) ≤ s'.(os_drawn))%nat → s'.(os_tenants) = s.(os_tenants) → tenants_frame cmd s s'.
Proof.
  intros Hd Ht. split_and!; [done|done|]. intros t. unfold tenant_open, tenants_of, outbox_store_tenants.
  by rewrite Ht.
Qed.

Lemma with_claimed_row_frame {A} cmd now t e k (d : A) f s :
  tenants_frame cmd s (with_claimed_row now t e k d f s).2.
Proof.
  unfold with_claimed_row. destruct (locked_claimed_row _ _ _ _) as [r|]; [destruct (f r) as [[]|]|];
    by apply tenants_frame_same.
Qed.

Lemma exec_frame (cmd : command) (s : outbox_store) : tenants_frame cmd s (exec cmd s).
Proof.
  destruct cmd; try apply with_claimed_row_frame.
  - simpl. destruct (claim_due_events _ _ _ _ _ _ _) as [[claims|x] s'] eqn:E; simpl.
    + destruct (claim_due_events_row _ _ _ _ _ _ _ _ _ 0%N E) as [(? & ? & ? & ?) _]. by apply tenants_frame_same.
    + unfold claim_due_events in E. destruct (list_open_tenant_ids seen); [done|]. by destruct (foldl _ _ _).
  - apply tenants_frame_same; simpl; unfold begin_event_execution; repeat case_match; done.
  - apply tenants_frame_same; simpl; unfold mark_external_effect_started; repeat case_match; done.
  - apply tenants_frame_same; simpl; unfold replay_dead_lettered_events; repeat case_match; done.
  - apply tenants_frame_same; simpl; unfold append_event; repeat case_match; simpl; auto with lia.
  - by apply tenants_frame_same.
  - apply tenants_frame_same; simpl; unfold purge_tenant_outbox_events; destruct (require_purging_tenant _ _); done.
  - apply tenants_frame_same; simpl; unfold record_event_consumption, transaction, claim_event_consumption,
      event_consumption_recorded, result_bind; repeat case_match; simplify_eq/=; done.
  - simpl. unfold transition_status.
    destruct (os_tenants s !! tenant_id) as [tn|] eqn:Et; [|by apply tenants_frame_same].
    destruct (validate_transition (t_status tn) target) as [[]|] eqn:Ev; [|by apply tenants_frame_same].
    split_and!; try done. intros t (tn' & Ht & Ho). unfold tenants_of, outbox_store_tenants in Ht. simpl in Ht.
    destruct (decide (t = tenant_id)) as [->|Hne].
    + rewrite lookup_insert_eq in Ht. simplify_eq/=. exists tn. split; [done|].
      destruct (is_closed (t_status tn)) eqn:Ec; [|done].
      by rewrite (lifecycle_step_closed _ _ Ev Ec) in Ho.
    + rewrite lookup_insert_ne in Ht by done. by exists tn'.
Qed.

(** C1: the outbox refines its state machine.  Every command, in every store,
    changes each event's row only along an edge of the machine that the command
    licenses (with the owner's claim, the deadline and the consent the edge asks
    for; an execution begins and a dead letter is replayed only in an open tenant,
    a claim takes rows of tenants that were open when it listed them, whatever
    became of them since); no command changes an event's tenant, type,
    aggregate, payload or creation time, breaks the table's checks or, but for
    an ambiguous outcome, moves a recorded retry deadline; only deletion and the
    purge remove a row; only an append adds one, unclaimed, with a new id; and
    no command reopens a closed tenant. *)
Theorem exec_refines (cmd : command) (s : outbox_store) :
  tenants_frame cmd s (exec cmd s) ∧ ∀ e, row_effect cmd s (exec cmd s) e.
Proof. split; [apply exec_frame|intros e; apply exec_effect]. Qed.

(** ** Histories *)

Lemma run_app l1 l2 s : run (l1 ++ l2) s = run l2 (run l1 s).
Proof. apply foldl_app. Qed.

Lemma run_invariant (P : outbox_store → Prop) (ok : command → Prop) cmds s :
  (∀ cmd s, ok cmd → P s → P (exec cmd s)) → Forall ok cmds → P s → P (run cmds s).
Proof.
  intros Hstep Hok. revert s. induction Hok as [|cmd cmds Hc Hcs IH]; intros s HP; [done|].
  apply IH, Hstep; done.
Qed.

Lemma run_drawn cmds s : (os_drawn s ≤ os_drawn (run cmds s))%nat.
Proof.
  apply (run_invariant (λ s', (os_drawn s ≤ os_drawn s')%nat) (λ _, True)); [|by apply Forall_true|done].
  intros cmd s' _ H. destruct (exec_frame cmd s') as [? _]. lia.
Qed.

(** An id [uuid4] already returned. *)
Definition drawn (s : outbox_store) (k : uuid) : Prop := ∃ n, (n < os_drawn s)%nat ∧ k = uuid4 n.

Lemma drawn_mono s s' k : (os_drawn s ≤ os_drawn s')%nat → drawn s k → drawn s' k.
Proof. intros H (n & Hn & ->). exists n. split; [lia|done]. Qed.

(** The invariant of the table. *)
Definition row_inv (s : outbox_store) (e : uuid) (r : OutboxEvent) : Prop :=
  drawn s e ∧ row_checks r ∧ ev_attempts r ≤ max_attempts c ∧
  (∀ k, ev_claim_token r = Some k → drawn s k ∧ 1 ≤ ev_attempts r) ∧
  (∀ k, ev_external_started_claim r = Some k → drawn s k).
Definition store_inv (s : outbox_store) : Prop := ∀ e r, s.(os_events) !! e = Some r → row_inv s e r.

Lemma abs_claim r k : row_checks r → a_phase (abs r) = Claimed k ↔ ev_claim_token r = Some k.
Proof.
  intros (_ & Hc & _). unfold abs. simpl. split.
  - by destruct (ev_status r), (ev_claim_token r); intros; simplify_eq.
  - intros Hk. rewrite Hk in *. by rewrite Hc.
Qed.

(** What an edge does to the machine's bounds. *)
Definition a_inv (s : outbox_store) (a : astate) : Prop :=
  0 ≤ a_attempts a ≤ max_attempts c ∧
  (∀ k, a_phase a = Claimed k → drawn s k ∧ 1 ≤ a_attempts a) ∧ (∀ k, a_marker a = Some k → drawn s k).

Lemma a_inv_mono s s' a : (os_drawn s ≤ os_drawn s')%nat → a_inv s a → a_inv s' a.
Proof.
  intros Hd (H1 & H2 & H3). split_and!; try lia; intros k Hk; [|by eapply drawn_mono; eauto].
  destruct (H2 k Hk). split; [by eapply drawn_mono|done].
Qed.

Lemma astep_inv s l a a' : 0 ≤ max_attempts c → (∀ k, l = LClaim k → drawn s k) →
  astep l a a' → a_inv s a → a_inv s a'.
Proof.
  intros Hmax Hk Hstep (H1 & H2 & H3). destruct Hstep; simpl in *; split_and!; simpl; try lia;
    intros k' Hk'; simplify_eq; try (split; [|lia]); eauto; eapply H2; eauto.
Qed.

Lemma row_inv_abs s e r : row_inv s e r ↔ drawn s e ∧ row_checks r ∧ a_inv s (abs r).
Proof.
  unfold row_inv, a_inv. split.
  - intros (H1 & H2 & H3 & H4 & H5). split_and!; try done; [by destruct H2|].
    intros k Hk. apply H4. by apply abs_claim.
  - intros (H1 & H2 & [H3 H3'] & H4 & H5). split_and!; try done.
    intros k Hk. apply H4. by apply abs_claim.
Qed.

Lemma licenses_claim cmd s s' e r k : licenses cmd s s' e r (LClaim k) → drawn s' k.
Proof.
  destruct cmd; simpl; intros H; try done; try (exfalso; naive_solver).
  destruct H as (_ & _ & _ & [H|(n & Hn & [= ->])]); [done|]. exists n. split; [lia|done].
Qed.

Lemma exec_inv cmd s : 0 ≤ max_attempts c → store_inv s → store_inv (exec cmd s).
Proof.
  intros Hmax Hinv e r' Hr'. destruct (exec_frame cmd s) as (Hd & _).
  pose proof (exec_effect cmd s e) as Heff. unfold row_effect in Heff. rewrite Hr' in Heff.
  apply row_inv_abs. destruct (os_events s !! e) as [r|] eqn:Hr.
  - destruct (proj1 (row_inv_abs _ _ _) (Hinv e r Hr)) as (He & Hc & Ha).
    split; [by eapply drawn_mono|]. pose proof (a_inv_mono _ _ _ Hd Ha) as Ha'.
    destruct Heff as [->|((_ & _ & Hk) & l & Hl & Hstep)]; [done|]. split; [by apply Hk|].
    eapply astep_inv; [done| |done|done]. intros k ->. by eapply licenses_claim.
  - destruct Heff as (-> & Hdr & Ha & Hc). rewrite Ha. split_and!; simpl; try done.
    exists (os_drawn s). split; [lia|done].
Qed.

(** A store with no outbox rows yet, and the stores its histories reach. *)
Definition reachable (s : outbox_store) : Prop :=
  ∃ s0 cmds, s0.(os_events) = ∅ ∧ s = run cmds s0.

Lemma reachable_inv s : 0 ≤ max_attempts c → reachable s → store_inv s.
Proof.
  intros Hmax (s0 & cmds & H0 & ->). apply (run_invariant store_inv (λ _, True)).
  - intros cmd s _. by apply exec_inv.
  - by apply Forall_true.
  - intros e r. by rewrite H0, lookup_empty.
Qed.

Lemma reachable_run s cmds : reachable s → reachable (run cmds s).
Proof. intros (s0 & l & H0 & ->). exists s0, (l ++ cmds). by rewrite run_app. Qed.

(** The external effect of the event [e] is started by the claim [k]. *)
Definition starts (cmd : command) (s : outbox_store) (e k : uuid) : Prop :=
  ∃ now t, cmd = CMark now t e k ∧ (mark_external_effect_started c now t e k s).1 = Ok true.

Lemma starts_spec cmd s e k : starts cmd s e k → ∃ now r,
  s.(os_events) !! e = Some r ∧ owned r (ev_tenant_id r) k ∧ ev_external_started_claim r ≠ Some k ∧
  now < ev_next_attempt_at r ∧
  (exec cmd s).(os_events) !! e =
    Some (touch now (set_next_attempt_at (now + lease c) (set_marker (Some now) (Some k) r))).
Proof.
  intros (now & t & -> & Hm). simpl. unfold mark_external_effect_started in *.
  destruct (negb (external_effect_markers c)); [done|].
  destruct (visible s t e) as [r|] eqn:E; [|done]. apply visible_Some in E as [Hr Ht].
  destruct (_ && _)%bool eqn:Ec; [|done]. reflect_bools. exists now, r. simpl.
  rewrite lookup_insert_eq. by split_and!.
Qed.

(** An invariant of one event's row, over every history of commands [ok]: once
    its id is drawn the event never comes back after a deletion. *)
Section EventInvariant.
  Context (Hinj : Inj (=) (=) uuid4) (e : uuid) (ok : command → Prop).
  Context (J : outbox_store → OutboxEvent → Prop).
  Context (J_step : ∀ cmd s r r', ok cmd → s.(os_events) !! e = Some r → J s r →
    (exec cmd s).(os_events) !! e = Some r' → r' = r ∨ edge cmd s (exec cmd s) e r r' → J (exec cmd s) r').

Definition holds (s : outbox_store) : Prop := drawn s e ∧ ∀ r, s.(os_events) !! e = Some r → J s r.

Lemma fresh_not_drawn s k n : drawn s k → (os_drawn s ≤ n)%nat → k ≠ uuid4 n.
  Proof. intros (m & Hm & ->) Hn Heq. apply Hinj in Heq. lia. Qed.

Lemma exec_holds cmd s : ok cmd → holds s → holds (exec cmd s).
  Proof.
    intros Hok (He & HJ). destruct (exec_frame cmd s) as (Hd & _).
    split; [by eapply drawn_mono|]. intros r' Hr'.
    pose proof (exec_effect cmd s e) as Heff. unfold row_effect in Heff. rewrite Hr' in Heff.
    destruct (os_events s !! e) as [r|] eqn:Hr; [by eapply J_step; eauto|].
    destruct Heff as (Heq & _). by destruct (fresh_not_drawn s e (os_drawn s) He).
  Qed.

Lemma run_holds cmds s : Forall ok cmds → holds s → holds (run cmds s).
  Proof. apply run_invariant. intros. by apply exec_holds. Qed.
End EventInvariant.

(** *** One start per claim *)

Definition spent (k : uuid) (s : outbox_store) (r : OutboxEvent) : Prop :=
  drawn s k ∧ (a_phase (abs r) = Claimed k → a_marker (abs r) = Some k).

Lemma spent_step e k : Inj (=) (=) uuid4 → ∀ cmd s r r', True → s.(os_events) !! e = Some r → spent k s r →
  (exec cmd s).(os_events) !! e = Some r' →
  r' = r ∨ edge cmd s (exec cmd s) e r r' → spent k (exec cmd s) r'.
Proof.
  intros Hinj cmd s r r' _ _ (Hk & Hs) _ Heff. destruct (exec_frame cmd s) as (Hd & _).
  split; [by eapply drawn_mono|]. destruct Heff as [->|(_ & l & Hl & Hstep)]; [done|].
  remember (abs r) as a eqn:Ea. remember (abs r') as a' eqn:Ea'. clear Ea Ea'.
  destruct Hstep as [k' p n m ? ?| | | | |k' n m ?| | | | |]; simpl in *; try done; [|congruence].
  intros [= ->].
  destruct cmd; simpl in Hl; try done; try (exfalso; naive_solver).
  destruct Hl as (_ & _ & _ & [Hl|(n' & Hn' & [= Heq])]); [done|].
  by destruct (fresh_not_drawn Hinj s k n' Hk ltac:(lia)).
Qed.

Lemma starts_drawn cmd s e k : 0 ≤ max_attempts c → reachable s → starts cmd s e k →
  drawn (exec cmd s) e ∧ drawn (exec cmd s) k.
Proof.
  intros Hmax Hs Hst. destruct (starts_spec _ _ _ _ Hst) as (now & r & Hr & (_ & _ & Hk) & _).
  destruct (reachable_inv s Hmax Hs e r Hr) as (He & _ & _ & Hc & _). destruct (exec_frame cmd s) as (Hd & _).
  destruct (Hc k Hk) as [Hk' _]. split; eapply drawn_mono; eauto.
Qed.

Lemma starts_abs cmd s e k r' : starts cmd s e k → (exec cmd s).(os_events) !! e = Some r' →
  a_phase (abs r') = Claimed k ∧ a_marker (abs r') = Some k.
Proof.
  intros Hst Hr'. destruct (starts_spec _ _ _ _ Hst) as (now & r & Hr & (_ & Hp & Hk) & _ & _ & Hx).
  rewrite Hx in Hr'. injection Hr' as <-. unfold abs. simpl. by rewrite Hp, Hk.
Qed.

Lemma not_starts_abs cmd s e k r : s.(os_events) !! e = Some r →
  (a_phase (abs r) = Claimed k → a_marker (abs r) = Some k) → ¬ starts cmd s e k.
Proof.
  intros Hr Ha Hst. destruct (starts_spec _ _ _ _ Hst) as (now & r0 & Hr0 & (_ & Hp & Hk) & Hm & _).
  assert (r0 = r) as -> by congruence. apply Hm, Ha. unfold abs. simpl. by rewrite Hp, Hk.
Qed.

(** One start per claim.  Over every history of a store that started with
    no events, whatever the interleaving of dispatchers, workers, operators,
    producers, deletions and tenant closures: once the claim [k] has committed
    the started marker of the event [e], no later attempt to start under the
    same claim succeeds, so two deliveries of one job never both send. *)
Theorem one_start_per_claim (s : outbox_store) (cmd : command) (e k : uuid) :
  Inj (=) (=) uuid4 → 0 ≤ max_attempts c → reachable s → starts cmd s e k →
  ∀ cmds cmd', ¬ starts cmd' (run cmds (exec cmd s)) e k.
Proof.
  intros Hinj Hmax Hs Hst cmds cmd' Hst'.
  destruct (starts_drawn _ _ _ _ Hmax Hs Hst) as [He Hk].
  assert (holds e (spent k) (exec cmd s)) as H0.
  { split; [done|]. intros r Hr. split; [done|]. intros _. by destruct (starts_abs _ _ _ _ _ Hst Hr). }
  apply (run_holds Hinj e (λ _, True) (spent k) (spent_step e k Hinj) cmds) in H0 as [_ HJ];
    [|by apply Forall_true].
  pose proof Hst' as Hspec. apply starts_spec in Hspec as (now & r & Hr & _).
  destruct (HJ r Hr) as [_ Hm]. by apply (not_starts_abs cmd' _ e k r Hr Hm).
Qed.

(** *** No automatic resend *)

(** The commands by which someone takes responsibility for sending [e] again:
    a consumer that declares at-least-once delivery or attests that nothing was
    sent, an operator that replays, and the dispatcher that gives the claim back
    because it could not enqueue the job. *)
Definition consents (e : uuid) (cmd : command) : Prop :=
  match cmd with
  | CAmbiguous _ _ _ e' _ err => e = e' ∧ at_least_once err = true
  | CNotSent _ _ _ _ e' _ err blk => e = e' ∧ is_attested_not_sent err blk = true
  | CRelease _ _ e' _ _ => e = e'
  | CReplay auth _ ids _ apply _ => auth = true ∧ apply = true ∧ ∀ l, ids = Some l → e ∈ l
  | _ => False
  end.

(** The event [e] is handed to a worker under the claim [k]: an execution begins. *)
Definition begins (cmd : command) (s : outbox_store) (e k : uuid) : Prop :=
  ∃ now t x, cmd = CBegin now t e k ∧ (begin_event_execution c now t e k s).1 = Ok (Some x).

Lemma begins_spec cmd s e k : begins cmd s e k → ∃ r,
  s.(os_events) !! e = Some r ∧ tenant_open s (ev_tenant_id r) ∧ a_phase (abs r) = Claimed k.
Proof.
  intros (now & t & x & -> & H). unfold begin_event_execution in H.
  destruct (lock_open_tenant s t) as [tn|] eqn:El; destruct (locked_claimed_row s t e k) as [r|] eqn:E; try done.
  apply locked_claimed_row_Some in E as (Hr & Ht & Hp & Hk). apply lock_open_tenant_Ok in El. exists r.
  split_and!; [done|by exists tn; rewrite Ht|]. unfold abs. simpl. by rewrite Hp, Hk.
Qed.

(** Started by [k] and not resent: still [k]'s, or finished, or its tenant closed. *)
Definition settled (k : uuid) (s : outbox_store) (r : OutboxEvent) : Prop :=
  ¬ tenant_open s (ev_tenant_id r) ∨
  match a_phase (abs r) with
  | Claimed k' => k' = k ∧ a_marker (abs r) = Some k
  | Unclaimed => False
  | Published | Dead => True
  end.

Lemma settled_step e k cmd s r r' : ¬ consents e cmd → s.(os_events) !! e = Some r → settled k s r →
  (exec cmd s).(os_events) !! e = Some r' →
  r' = r ∨ edge cmd s (exec cmd s) e r r' → settled k (exec cmd s) r'.
Proof.
  intros Hok _ Hs _ Heff. destruct (exec_frame cmd s) as (_ & Hsame & Hopen). unfold settled in *.
  assert (ev_tenant_id r' = ev_tenant_id r) as Ht by (by destruct Heff as [->|(((? & _) & _) & _)]). rewrite Ht.
  destruct Hs as [Hs|Hs]; [left; intros Ho; by apply Hs, Hopen|].
  destruct Heff as [->|(_ & l & Hl & Hstep)]; [by right|].
  remember (abs r) as a eqn:Ea. remember (abs r') as a' eqn:Ea'. clear Ea Ea' Ht.
  destruct Hstep as [k' p n m Hp Hn|p n m Hp|k' n m|k' n m Hn|k' n m|k' n m Hm|k' n m|k' b n m Hn Hb|k' n m|k' n m|n m];
    simpl in *; try (by right).
  - destruct Hp as [->|(k0 & -> & Hm)]; [done|by destruct Hs as [-> ->]].
  - left. destruct cmd; simpl in Hl; try done; try (exfalso; naive_solver).
    destruct Hl as (-> & -> & [[? _]|[[_ Hno]|[? _]]]); [done| |done]. intros Ho. by apply Hno, Hopen.
  - by destruct Hs as [-> ->].
  - destruct Hs as [-> ->]. specialize (Hb eq_refl) as ->. exfalso. apply Hok.
    destruct cmd; simpl in *; try done; naive_solver.
  - exfalso. apply Hok. destruct cmd; simpl in *; try done; naive_solver.
  - exfalso. apply Hok. destruct cmd; simpl in *; try done; naive_solver.
Qed.

(** A claim other than [k] is newer than the store [s0]. *)
Definition newer (k : uuid) (s0 s : outbox_store) (r : OutboxEvent) : Prop :=
  (os_drawn s0 ≤ os_drawn s)%nat ∧ ∀ k', a_phase (abs r) = Claimed k' → k' = k ∨ ¬ drawn s0 k'.

Lemma newer_step e k s0 : Inj (=) (=) uuid4 → ∀ cmd s r r', True → s.(os_events) !! e = Some r → newer k s0 s r →
  (exec cmd s).(os_events) !! e = Some r' →
  r' = r ∨ edge cmd s (exec cmd s) e r r' → newer k s0 (exec cmd s) r'.
Proof.
  intros Hinj cmd s r r' _ _ (Hd0 & Hs) _ Heff. destruct (exec_frame cmd s) as (Hd & _).
  split; [lia|]. destruct Heff as [->|(_ & l & Hl & Hstep)]; [done|].
  remember (abs r) as a eqn:Ea. remember (abs r') as a' eqn:Ea'. clear Ea Ea'.
  destruct Hstep as [k' p n m ? ?| | | | | | | | | |]; simpl in *; try done. intros k0 [= <-]. right.
  destruct cmd; simpl in Hl; try done; try (exfalso; naive_solver).
  destruct Hl as (_ & _ & _ & [Hl|(n' & Hn' & [= ->])]); [done|].
  intros Hk. by destruct (fresh_not_drawn Hinj s0 (uuid4 n') n' Hk ltac:(lia)).
Qed.

(** C2: no automatic resend.  Once the claim [k] has committed the started
    marker of [e], then in every later history, as long as nobody takes
    responsibility for sending it again: while its tenant is open the event is
    held by no other claim and its external effect is not started again, whoever
    tries; no execution under any other claim ever begins, whatever tenants a
    dispatcher believed open and however late it claims; and a start would need a
    claim newer than [k]'s under which no execution began.  So the effect is not
    repeated by lease expiry, a crashed or duplicated worker, an unclassified
    failure, an undeclared timeout, or the closing of its tenant, by workers that
    start an effect only in an execution that began. *)
Theorem no_automatic_resend (s : outbox_store) (cmd : command) (e k : uuid) (cmds : list command) :
  Inj (=) (=) uuid4 → 0 ≤ max_attempts c → reachable s → starts cmd s e k →
  Forall (λ cmd, ¬ consents e cmd) cmds →
  let s0 := exec cmd s in
  let s' := run cmds s0 in
  (∀ r, s'.(os_events) !! e = Some r → tenant_open s' (ev_tenant_id r) →
     (∀ k', ev_claim_token r = Some k' → k' = k) ∧ ∀ cmd' k', ¬ starts cmd' s' e k') ∧
  (∀ cmd' k', begins cmd' s' e k' → k' = k) ∧
  (∀ cmd' k', starts cmd' s' e k' →
     ¬ drawn s0 k' ∧ ∀ l1 cmd0 l2, cmds = l1 ++ cmd0 :: l2 → ¬ begins cmd0 (run l1 s0) e k').
Proof.
  intros Hinj Hmax Hs Hst Hok s0 s'. destruct (starts_drawn _ _ _ _ Hmax Hs Hst) as [He Hk].
  assert (∀ l r, Forall (λ cmd, ¬ consents e cmd) l → (run l s0).(os_events) !! e = Some r → settled k (run l s0) r) as Hset.
  { intros l r Hl. apply (run_holds Hinj e _ (settled k) (settled_step e k) l s0 Hl). split; [done|]. intros r0 Hr.
    right. by destruct (starts_abs _ _ _ _ _ Hst Hr) as [-> ->]. }
  assert (∀ l cmd' k', Forall (λ cmd, ¬ consents e cmd) l → begins cmd' (run l s0) e k' → k' = k) as Hbeg.
  { intros l cmd' k' Hl (r & Hr & Ho & Hph)%begins_spec. destruct (Hset l r Hl Hr) as [Hc|Hc]; [done|]. rewrite Hph in Hc. by destruct Hc. }
  assert (∀ cmd', ¬ starts cmd' s' e k) as Hone.
  { intros cmd'. by apply one_start_per_claim. }
  split_and!.
  - intros r Hr Ho. destruct (Hset cmds r Hok Hr) as [Hc|Hc]; [done|].
    assert (row_checks r) as Hchk by (eapply (reachable_inv s' Hmax (reachable_run s (cmd :: cmds) Hs)), Hr).
    assert (∀ k', ev_claim_token r = Some k' → k' = k) as Hheld.
    { intros k' Hk'. apply abs_claim in Hk'; [|done]. rewrite Hk' in Hc. by destruct Hc. }
    split; [done|]. intros cmd' k' Hst'. pose proof Hst' as (now & r0 & Hr0 & (_ & _ & Hk0) & _)%starts_spec.
    assert (r0 = r) as -> by congruence. rewrite (Hheld _ Hk0) in Hst'. by apply (Hone cmd').
  - intros cmd' k'. by apply Hbeg.
  - intros cmd' k' Hst'. assert (k' ≠ k) as Hne by (intros ->; by apply (Hone cmd')).
    pose proof Hst' as (now & r & Hr & (_ & Hp & Hk') & _)%starts_spec. split.
    + assert (newer k s0 s' r) as [_ Hnew].
      { apply (run_holds Hinj e (λ _, True) (newer k s0) (newer_step e k s0 Hinj) cmds s0); [by apply Forall_true| |done].
        split; [done|]. intros r0 Hr0. split; [done|]. intros k0. destruct (starts_abs _ _ _ _ _ Hst Hr0) as [-> _]. intros [= ->]. by left. }
      destruct (Hnew k'); [unfold abs; simpl; by rewrite Hp, Hk'|done|done].
    + intros l1 cmd0 l2 -> Hb. apply Forall_app in Hok as [Hok _]. by apply Hne, (Hbeg l1 cmd0).
Qed.

End Trace.

(** ** A concrete history *)

(** The defaults with started markers switched on. *)
Definition demo_config : OutboxDispatchConfig :=
  let d := default_config in
  mkConfig (max_attempts d) (retry_base_seconds d) (retry_max_seconds d) (retry_jitter_ratio d)
    (lease_seconds d) (enqueue_retry_seconds d) (batch_size d) (per_tenant_limit d) (poll_seconds d)
    (retry_hint_max_seconds d) true.

Definition demo_empty : outbox_store :=
  mkStore {[ 1%N := mkTenant (lit "acme") ACTIVE None false ]} ∅ ∅ [] 0.

(** An event is appended (its id is [1000]), claimed (with the token [1001])
    and begun. *)
Definition demo_history : list command :=
  [CAppend (Some 1%N) 1 (lit "webhook.delivery") (lit "webhook") (lit "7") [] None None 0;
   CClaim 1 0 ∅ demo_empty; CBegin 2 1 1000 1001].
Definition demo_begun : outbox_store := run demo_uuid demo_config demo_history demo_empty.

Lemma demo_begun_reachable : reachable demo_uuid demo_config demo_begun.
Proof. by exists demo_empty, demo_history. Defined.

Lemma demo_starts : starts demo_config (CMark 3 1 1000 1001) demo_begun 1000 1001.
Proof. exists 3, 1%N. split; [reflexivity|]. vm_compute. reflexivity. Defined.

Lemma one_start_per_claim_witness :
  ¬ starts demo_config (CMark 5 1 1000 1001)
      (run demo_uuid demo_config [CMark 4 1 1000 1001]
         (exec demo_uuid demo_config (CMark 3 1 1000 1001) demo_begun)) 1000 1001.
Proof.
  apply (one_start_per_claim demo_uuid demo_config demo_begun (CMark 3 1 1000 1001) 1000 1001
           demo_uuid_inj ltac:(by vm_compute) demo_begun_reachable demo_starts).
Defined.

(** The worker crashes after the start; its job is delivered again after the tenant
    closed, so that the claim is dropped; a dispatcher that listed the tenant before
    claims the event under [1002]: no execution begins under that claim. *)
Definition demo_after : list command :=
  [CTenant 1 DELETED; CBegin 4 1 1000 1001; CClaim 999999999998 0 ∅ demo_empty].
Lemma no_automatic_resend_witness :
  ¬ begins demo_config (CBegin 999999999999 1 1000 1002)
      (run demo_uuid demo_config demo_after (exec demo_uuid demo_config (CMark 3 1 1000 1001) demo_begun)) 1000 1002.
Proof.
  intros H. destruct (no_automatic_resend demo_uuid demo_config demo_begun (CMark 3 1 1000 1001) 1000 1001
           demo_after demo_uuid_inj ltac:(by vm_compute) demo_begun_reachable demo_starts) as (_ & Hb & _).
  - repeat constructor; by intros [].
  - by apply Hb in H.
Defined.
(** Indeed the event is then held by the other claim. *)
Lemma demo_stale_claim :
  ev_claim_token <$> (run demo_uuid demo_config demo_after (exec demo_uuid demo_config (CMark 3 1 1000 1001) demo_begun)).(os_events) !! 1000%N
  = Some (Some 1002%N).
Proof. vm_compute. reflexivity. Qed.
