(* ===== verification/OutboxSafety.v ===== *)
(** * Bounded delivery, deadlines and terminal states of the outbox

    More safety properties over arbitrary histories of commands, proved from
    the refinement of [OutboxTrace]: how often an event is claimed, when a retry
    inside an idempotency window may still run, that a claim is needed to change
    a row, and the one way in which a started event is sent again. *)

From Stdlib Require Import QArith.
From S2P Require Import Prelude PyStr PyTime TenantLifecycle OutboxModel OutboxText Outbox OutboxClaim OutboxTrace.

#[global] Open Scope Z_scope.

Section Safety.
Context (uuid4 : nat → uuid) (c : OutboxDispatchConfig).
Abbreviation exec := (OutboxTrace.exec uuid4 c).
Abbreviation run := (OutboxTrace.run uuid4 c).
Abbreviation reachable := (OutboxTrace.reachable uuid4 c).
Abbreviation edge := (OutboxTrace.edge uuid4 c).
Abbreviation drawn := (OutboxTrace.drawn uuid4).

(** ** How often an event is claimed *)

(** The commands that give attempts back. *)
Definition refunds (e : uuid) (cmd : command) : Prop :=
  match cmd with
  | CRelease _ _ e' _ _ => e = e'
  | CReplay auth _ ids _ apply _ => auth = true ∧ apply = true ∧ ∀ l, ids = Some l → e ∈ l
  | _ => False
  end.

Definition is_claim (cmd : command) : bool := match cmd with CClaim _ _ _ _ => true | _ => false end.

(** A claim transaction that puts [e] under a new claim. *)
Definition takes (e : uuid) (cmd : command) (s : outbox_store) : bool :=
  is_claim cmd &&
  match s.(os_events) !! e, (exec cmd s).(os_events) !! e with
  | Some r, Some r' =>
      bool_decide (ev_claim_token r' ≠ None) && bool_decide (ev_claim_token r' ≠ ev_claim_token r)
  | _, _ => false
  end.

Fixpoint claim_count (e : uuid) (cmds : list command) (s : outbox_store) : Z :=
  match cmds with
  | [] => 0
  | cmd :: cmds => (if takes e cmd s then 1 else 0) + claim_count e cmds (exec cmd s)
  end.

Lemma claim_count_gone e cmds s : Inj (=) (=) uuid4 →
  drawn s e → s.(os_events) !! e = None → claim_count e cmds s = 0.
Proof.
  intros Hinj. revert s. induction cmds as [|cmd cmds IH]; intros s He Hn; simpl; [done|].
  destruct (exec_frame uuid4 c cmd s) as (Hd & _).
  pose proof (exec_effect uuid4 c cmd s e) as Heff. unfold row_effect in Heff. rewrite Hn in Heff.
  destruct (os_events (exec cmd s) !! e) as [r'|] eqn:Hr'.
  { destruct Heff as (Heq & _). by destruct (fresh_not_drawn uuid4 Hinj s e (os_drawn s) He). }
  rewrite IH; [|by eapply drawn_mono|done]. unfold takes. by rewrite Hn, andb_false_r.
Qed.

(** An edge spends an attempt when it claims, and refunds one only by release
    or replay. *)
Lemma edge_attempts e cmd s r r' : ¬ refunds e cmd → row_checks r' →
  s.(os_events) !! e = Some r → (exec cmd s).(os_events) !! e = Some r' → edge cmd s (exec cmd s) e r r' →
  ev_attempts r + (if takes e cmd s then 1 else 0) ≤ ev_attempts r'.
Proof.
  intros Hok (_ & Hchk & _) Hr Hr' (_ & l & Hl & Hstep).
  assert (takes e cmd s = true → ∃ k, a_phase (abs r') = Claimed k ∧ ∃ now rng locked seen, cmd = CClaim now rng locked seen)
    as Htk.
  { unfold takes. rewrite Hr, Hr'. intros H. reflect_bools. destruct cmd; try done.
    destruct (ev_claim_token r') as [k|] eqn:Ek; [|done]. exists k. split; [|by eauto].
    unfold abs. simpl. by rewrite Hchk, Ek. }
  change (ev_attempts r) with (a_attempts (abs r)). change (ev_attempts r') with (a_attempts (abs r')).
  remember (abs r) as a eqn:Ea. remember (abs r') as a' eqn:Ea'. clear Ea Ea'. destruct (takes e cmd s).
  - destruct (Htk eq_refl) as (k & Hph & now & rng & locked & seen & ->).
    destruct Hl as (_ & _ & _ & [->|(n & Hn & ->)]); inversion Hstep; subst; simplify_eq/=; lia.
  - destruct Hstep; simpl in *; try lia; exfalso; apply Hok; destruct cmd; simpl in *; try done; naive_solver.
Qed.

(** Bounded delivery.  In every history without a release or a replay of
    the event, the number of times it is claimed from here on is at most
    [max_attempts] less the attempts it has used: no interleaving of dispatchers
    and workers, crashes and lost leases delivers it more often. *)
Theorem claims_bounded (e : uuid) (cmds : list command) (s : outbox_store) (r : OutboxEvent) :
  Inj (=) (=) uuid4 → 0 ≤ max_attempts c → reachable s → s.(os_events) !! e = Some r →
  Forall (λ cmd, ¬ refunds e cmd) cmds →
  ev_attempts r + claim_count e cmds s ≤ max_attempts c.
Proof.
  intros Hinj Hmax Hs Hr Hok. revert s r Hs Hr.
  induction Hok as [|cmd cmds Hc Hcs IH]; intros s r Hs Hr.
  { destruct (reachable_inv uuid4 c s Hmax Hs e r Hr) as (_ & _ & ? & _). simpl. lia. }
  pose proof (reachable_inv uuid4 c s Hmax Hs e r Hr) as (He & _ & Hb & _). simpl.
  assert (reachable (exec cmd s)) as Hs' by (by apply (reachable_run uuid4 c s [cmd])).
  destruct (exec_frame uuid4 c cmd s) as (Hd & _).
  pose proof (exec_effect uuid4 c cmd s e) as Heff. unfold row_effect in Heff. rewrite Hr in Heff.
  destruct (os_events (exec cmd s) !! e) as [r'|] eqn:Hr'.
  - specialize (IH _ _ Hs' Hr').
    destruct Heff as [->|Hedge].
    + assert (takes e cmd s = false) as ->; [|lia]. unfold takes. rewrite Hr, Hr'.
      rewrite (bool_decide_eq_false_2 (ev_claim_token r ≠ ev_claim_token r)) by auto.
      by rewrite !andb_false_r.
    + destruct (reachable_inv uuid4 c _ Hmax Hs' e r' Hr') as (_ & Hchk & _).
      pose proof (edge_attempts e cmd s r r' Hc Hchk Hr Hr' Hedge). lia.
  - rewrite claim_count_gone; [|done|by eapply drawn_mono|done].
    unfold takes. rewrite Hr, Hr', andb_false_r. lia.
Qed.

(** ** A lost claim is inert *)

(** The event and the claim a worker's command names. *)
Definition worker_claim (cmd : command) : option (uuid * uuid) :=
  match cmd with
  | CBegin _ _ e k | CMark _ _ e k | CComplete _ _ e k | CFail _ _ _ _ _ e k _
  | CNotSent _ _ _ _ e k _ _ | CAmbiguous _ _ _ e k _ | CRelease _ _ e k _ => Some (e, k)
  | _ => None
  end.

Lemma with_claimed_row_inert {A} now t e k (d : A) f s :
  locked_claimed_row s t e k = None → with_claimed_row now t e k d f s = (Ok d, s).
Proof. intros H. unfold with_claimed_row. by rewrite H. Qed.

Lemma not_owned_None s t e k : (∀ r, s.(os_events) !! e = Some r → a_phase (abs r) ≠ Claimed k) →
  locked_claimed_row s t e k = None.
Proof.
  intros H. destruct (locked_claimed_row s t e k) as [r|] eqn:E; [|done].
  apply locked_claimed_row_Some in E as (Hr & _ & Hp & Hk). destruct (H r Hr). unfold abs. simpl. by rewrite Hp, Hk.
Qed.

Lemma worker_inert cmd s e k : worker_claim cmd = Some (e, k) →
  (∀ r, s.(os_events) !! e = Some r → a_phase (abs r) ≠ Claimed k) → exec cmd s = s.
Proof.
  intros Hw Hn. pose proof (λ t, not_owned_None s t e k Hn) as Hl.
  destruct cmd; simpl in Hw; simplify_eq; simpl;
    try (unfold complete_event, fail_event, record_confirmed_not_sent, record_ambiguous_outcome, release_claim;
         by rewrite with_claimed_row_inert).
  - unfold begin_event_execution. rewrite Hl. by destruct (lock_open_tenant s _).
  - unfold mark_external_effect_started. destruct (negb _); [done|].
    destruct (visible s tenant_id e) as [r|] eqn:E; [|done]. apply visible_Some in E as [Hr _].
    destruct (_ && _)%bool eqn:Ec; [|done]. reflect_bools. destruct (Hn r Hr). unfold abs. simpl.
    match goal with H1 : ev_status r = _, H2 : ev_claim_token r = _ |- _ => by rewrite H1, H2 end.
Qed.

Definition lost (k : uuid) (s : outbox_store) (r : OutboxEvent) : Prop :=
  drawn s k ∧ a_phase (abs r) ≠ Claimed k.

Lemma lost_step e k : Inj (=) (=) uuid4 → ∀ cmd s r r', True → s.(os_events) !! e = Some r → lost k s r →
  (exec cmd s).(os_events) !! e = Some r' →
  r' = r ∨ edge cmd s (exec cmd s) e r r' → lost k (exec cmd s) r'.
Proof.
  intros Hinj cmd s r r' _ _ (Hk & Hs) _ Heff. destruct (exec_frame uuid4 c cmd s) as (Hd & _).
  split; [by eapply drawn_mono|]. destruct Heff as [->|(_ & l & Hl & Hstep)]; [done|].
  remember (abs r) as a eqn:Ea. remember (abs r') as a' eqn:Ea'. clear Ea Ea'.
  destruct Hstep as [k' p n m ? ?| | | | |k' n m ?| | | | |]; simpl in *; try done.
  intros [= ->]. destruct cmd; simpl in Hl; try done; try (exfalso; naive_solver).
  destruct Hl as (_ & _ & _ & [Hl|(n' & Hn' & [= Heq])]); [done|].
  by destruct (fresh_not_drawn uuid4 Hinj s k n' Hk ltac:(lia)).
Qed.

(** A lost claim stays lost.  Once a claim token no longer owns its event
    (the lease was taken over, an outcome was recorded, the event was replayed
    or deleted), then in every later history every operation a slow worker
    performs under that token leaves the whole store as it is. *)
Theorem lost_claim_inert (s : outbox_store) (e k : uuid) (cmds : list command) (cmd : command) :
  Inj (=) (=) uuid4 → drawn s e → drawn s k →
  (∀ r, s.(os_events) !! e = Some r → a_phase (abs r) ≠ Claimed k) →
  worker_claim cmd = Some (e, k) →
  exec cmd (run cmds s) = run cmds s.
Proof.
  intros Hinj He Hk Hn Hw. apply (worker_inert cmd _ e k Hw).
  assert (holds uuid4 e (lost k) s) as H0 by (split; [done|]; intros r Hr; split; auto).
  apply (run_holds uuid4 c Hinj e (λ _, True) (lost k) (lost_step e k Hinj) cmds) in H0 as [_ HJ];
    [|by apply Forall_true].
  intros r Hr. by destruct (HJ r Hr).
Qed.

(** ** Idempotency windows *)

Definition moves_deadline (e : uuid) (cmd : command) : Prop :=
  match cmd with
  | CAmbiguous _ _ _ e' _ _ => e = e'
  | CReplay auth _ ids _ apply _ => auth = true ∧ apply = true ∧ ∀ l, ids = Some l → e ∈ l
  | _ => False
  end.

Definition gated (d : datetime) (s : outbox_store) (r : OutboxEvent) : Prop :=
  retry_deadline (ev_last_error r) = Some d ∧
  match a_phase (abs r) with Claimed _ => 1 < a_attempts (abs r) | Unclaimed => 1 ≤ a_attempts (abs r)
                           | Published | Dead => True end.

Lemma gated_step e d cmd s r r' : ¬ moves_deadline e cmd → s.(os_events) !! e = Some r → gated d s r →
  (exec cmd s).(os_events) !! e = Some r' →
  r' = r ∨ edge cmd s (exec cmd s) e r r' → gated d (exec cmd s) r'.
Proof.
  intros Hok _ (Hd & Ha) _ [->|((_ & Hkept & _) & l & Hl & Hstep)]; [done|]. split.
  - rewrite Hkept; [done|]. destruct cmd; try done. by destruct Hl as (-> & _), Hok.
  - remember (abs r) as a eqn:Ea. remember (abs r') as a' eqn:Ea'. clear Ea Ea'.
    destruct Hstep as [k' p n m Hp Hn| | | | | | | | | |]; simpl in *; try lia; try done.
    + destruct Hp as [->|(k0 & -> & _)]; lia.
    + exfalso. apply Hok. destruct cmd; simpl in *; try done; naive_solver.
Qed.

Lemma begin_attempts now t e k s x s' : begin_event_execution c now t e k s = (Ok (Some x), s') →
  ∃ r, s.(os_events) !! e = Some r ∧ a_phase (abs r) = Claimed k ∧
    ∀ d, retry_deadline (ev_last_error r) = Some d → 1 < ev_attempts r → now < d.
Proof.
  unfold begin_event_execution. destruct (lock_open_tenant s t).
  2:{ by destruct (locked_claimed_row s t e k). }
  destruct (locked_claimed_row s t e k) as [r|] eqn:E; [|done].
  apply locked_claimed_row_Some in E as (Hr & _ & Hp & Hk).
  destruct (match retry_deadline _ with Some _ => _ | None => _ end) eqn:Ew; [done|].
  intros _. exists r. split_and!; [done|unfold abs; simpl; by rewrite Hp, Hk|].
  intros d Hd Hn. rewrite Hd in Ew. reflect_bools; lia.
Qed.

(** The window an ambiguous outcome grants: the row it leaves for a retry. *)
Lemma ambiguous_row_window now rng k err w r r' :
  retry_within err = Some w → at_least_once err = false → ev_status r = OUTBOX_STATUS_PENDING →
  ambiguous_row c now rng k err r = Ok r' → ev_status r' = OUTBOX_STATUS_PENDING →
  ∃ d, d ≤ ev_created_at r + w ∧ retry_deadline (ev_last_error r') = Some d ∧
    a_phase (abs r') = Unclaimed ∧ ev_attempts r' = ev_attempts r.
Proof.
  intros Hw Hal Hp Hf Hst. unfold ambiguous_row, result_bind in Hf. rewrite Hw, Hal in Hf.
  destruct (marked_by _ _); cbn [negb andb] in Hf; [injection Hf as <-; done|].
  destruct (retry_delay _ _ _) as [delay|]; [|done].
  destruct (dt_add (ev_created_at r) w) as [dl|] eqn:Edl; [|done].
  assert (dl = ev_created_at r + w ∧ 0 ≤ dl < datetime_end) as [Hdl Hrange].
  { unfold dt_add in Edl. case_in Edl. reflect_bools. lia. }
  destruct (ev_attempts r <? max_attempts c); [|injection Hf as <-; done].
  destruct (dt_add now delay) as [next|]; [|done]. destruct (next <? dl); [|injection Hf as <-; done].
  injection Hf as <-. exists (dl - dl mod us_per_second). split_and!; try done.
  - unfold us_per_second. lia.
  - apply (retry_deadline_with_tag _ (Some dl)). by intros ? [= <-].
  - unfold abs. cbn. by rewrite Hp.
Qed.

Lemma ambiguous_window now rng t e k err w s s' :
  retry_within err = Some w → at_least_once err = false →
  record_ambiguous_outcome c now rng t e k err s = (Ok (Some OUTBOX_STATUS_PENDING), s') →
  ∃ r r' d, s.(os_events) !! e = Some r ∧ s'.(os_events) !! e = Some r' ∧
    a_phase (abs r) = Claimed k ∧ d ≤ ev_created_at r + w ∧
    retry_deadline (ev_last_error r') = Some d ∧ a_phase (abs r') = Unclaimed ∧
    ev_attempts r' = ev_attempts r.
Proof.
  intros Hw Hal H. unfold record_ambiguous_outcome, with_claimed_row in H.
  destruct (locked_claimed_row s t e k) as [r|] eqn:E; [|done].
  apply locked_claimed_row_Some in E as (Hr & Ht & Hp & Hk).
  destruct (reporting _) as [[r1 st1]|] eqn:Er; [|done]. injection H as -> <-.
  pose proof Er as Hf%reporting_Ok. rewrite Hf in Er. unfold reporting, result_bind in Er. injection Er as Hst.
  destruct (ambiguous_row_window _ _ _ _ _ _ _ Hw Hal Hp Hf Hst) as (d & Hd & Hdl & Hph & Hn).
  exists r, (touch now r1), d. unfold write_row, set_events. cbn [os_events]. rewrite lookup_insert_eq.
  split_and!; try done. unfold abs. cbn. by rewrite Hp, Hk.
Qed.

(** The idempotency window is respected.  When an ambiguous outcome is
    retried because the consumer declared an idempotency window [w], then in
    every later history (without a new ambiguous outcome or an operator's
    replay) no execution of the event begins at or after [created_at + w],
    whatever errors, lost leases and releases are recorded in between. *)
Theorem window_respected (s s1 : outbox_store) (now : datetime) (rng : Q) (t e k : uuid)
    (err : AmbiguousOutcome) (w : timedelta) (cmds : list command) :
  Inj (=) (=) uuid4 → 0 ≤ max_attempts c → reachable s →
  retry_within err = Some w → at_least_once err = false →
  record_ambiguous_outcome c now rng t e k err s = (Ok (Some OUTBOX_STATUS_PENDING), s1) →
  Forall (λ cmd, ¬ moves_deadline e cmd) cmds →
  ∃ r, s.(os_events) !! e = Some r ∧
    ∀ now' t' k' x s2, begin_event_execution c now' t' e k' (run cmds s1) = (Ok (Some x), s2) →
      now' < ev_created_at r + w.
Proof.
  intros Hinj Hmax Hs Hw Hal Hrec Hok.
  destruct (ambiguous_window _ _ _ _ _ _ _ _ _ Hw Hal Hrec) as (r & r1 & d & Hr & Hr1 & Hcl & Hd & Hdl & Hph & Hn).
  exists r. split; [done|]. intros now' t' k' x s2 Hbegin.
  assert (s1 = exec (CAmbiguous now rng t e k err) s) as Hs1.
  { simpl. change (record_ambiguous_outcome c now rng t e k err s).2 with
      (snd (record_ambiguous_outcome c now rng t e k err s)). by rewrite Hrec. }
  assert (holds uuid4 e (gated d) s1) as H0.
  { split.
    - destruct (reachable_inv uuid4 c s Hmax Hs e r Hr) as (He & _). rewrite Hs1.
      eapply drawn_mono; [|done]. apply exec_frame.
    - intros r2 Hr2. assert (r2 = r1) as -> by congruence. split; [done|]. rewrite Hph. simpl.
      rewrite Hn. pose proof (reachable_inv uuid4 c s Hmax Hs e r Hr) as (_ & _ & (_ & Ha & _))%row_inv_abs.
      by destruct (Ha k Hcl). }
  apply (run_holds uuid4 c Hinj e _ (gated d) (gated_step e d) cmds _ Hok) in H0 as [_ HJ].
  destruct (begin_attempts _ _ _ _ _ _ _ Hbegin) as (r2 & Hr2 & Hc2 & Hgate).
  destruct (HJ r2 Hr2) as [Hd2 Ha2]. rewrite Hc2 in Ha2. simpl in Ha2.
  specialize (Hgate d Hd2 Ha2). lia.
Qed.

(** ** Terminal states *)

Definition replays (e : uuid) (cmd : command) : Prop :=
  match cmd with
  | CReplay auth _ ids _ apply _ => auth = true ∧ apply = true ∧ ∀ l, ids = Some l → e ∈ l
  | _ => False
  end.

(** Terminal states are final.  Along every history a published row is
    never changed again, and a dead-lettered row is changed by nothing but an
    authorised, applied replay that selects it: until then the row is the same
    in every column, or deleted. *)
Theorem terminal_final (s : outbox_store) (e : uuid) (r : OutboxEvent) (cmds : list command) :
  Inj (=) (=) uuid4 → drawn s e → s.(os_events) !! e = Some r →
  ev_status r = OUTBOX_STATUS_PUBLISHED ∨
  ev_status r = OUTBOX_STATUS_DEAD_LETTERED ∧ Forall (λ cmd, ¬ replays e cmd) cmds →
  (run cmds s).(os_events) !! e = Some r ∨ (run cmds s).(os_events) !! e = None.
Proof.
  intros Hinj He Hr Hterm.
  assert (∃ ok, Forall ok cmds ∧ ∀ cmd s r', ok cmd → edge cmd s (exec cmd s) e r r' → False)
    as (ok & Hok & Hno).
  { destruct Hterm as [Hp|[Hd Hrep]].
    - exists (λ _, True). split; [by apply Forall_true|]. intros cmd s' r' _ (_ & l & _ & Hstep).
      assert (a_phase (abs r) = Published) as Ha by (unfold abs; simpl; by rewrite Hp).
      remember (abs r) as a eqn:Ea. destruct Hstep; simpl in Ha; naive_solver.
    - exists (λ cmd, ¬ replays e cmd). split; [done|]. intros cmd s' r' Hn (_ & l & Hl & Hstep).
      assert (a_phase (abs r) = Dead) as Ha by (unfold abs; simpl; by rewrite Hd).
      remember (abs r) as a eqn:Ea. destruct Hstep; simpl in Ha; try naive_solver.
      apply Hn. destruct cmd; simpl in *; try done; naive_solver. }
  assert (holds uuid4 e (λ _ r', r' = r) s) as H0 by (split; [done|]; intros r' Hr'; congruence).
  apply (run_holds uuid4 c Hinj e ok (λ _ r', r' = r)) with (cmds := cmds) in H0 as [_ HJ]; [| |done].
  - destruct (os_events (run cmds s) !! e) as [r'|] eqn:Hr'; [|by right]. left. by rewrite (HJ r' eq_refl).
  - intros cmd s1 r1 r' Hokc _ -> _ [->|Hedge]; [done|]. by destruct (Hno cmd s1 r' Hokc Hedge).
Qed.

(** ** Consumption *)

(** The effect of [claim_event_consumption] on the recorded keys. *)
Lemma consumption_result t name e s :
  record_event_consumption t name e s =
    match validate_consumer name with
    | Raise x => (Raise x, s)
    | Ok _ =>
        if bool_decide ((t, name, e) ∈ s.(os_consumptions)) then (Ok false, s)
        else if bool_decide (s.(os_tenants) !! t = None) then (Raise IntegrityError, s)
        else (Ok true, set_consumptions ({[(t, name, e)]} ∪ s.(os_consumptions)) s)
    end.
Proof.
  unfold record_event_consumption, transaction, claim_event_consumption, event_consumption_recorded, result_bind.
  destruct (validate_consumer name) as [[]|x] eqn:Ev; [|done].
  destruct (bool_decide (_ ∈ _)) eqn:Ein; simpl; [done|]. by destruct (bool_decide (_ = None)).
Qed.

Lemma exec_consumptions cmd s key : key ∈ s.(os_consumptions) → cmd ≠ CPurge key.1.1 →
  key ∈ (exec cmd s).(os_consumptions).
Proof.
  intros Hk Hne.
  assert (s.(os_consumptions) = (exec cmd s).(os_consumptions) ∨ key ∈ (exec cmd s).(os_consumptions)) as [<-|?];
    [|done|done].
  destruct cmd; try (left; unfold exec; simpl; unfold complete_event, fail_event, record_confirmed_not_sent,
    record_ambiguous_outcome, release_claim, with_claimed_row, begin_event_execution, mark_external_effect_started,
    replay_dead_lettered_events, append_event, transition_status; by repeat case_match).
  - left. simpl. destruct (claim_due_events _ _ _ _ _ _ _) as [[claims|x] s'] eqn:E; simpl.
    + by destruct (claim_due_events_row _ _ _ _ _ _ _ _ _ 0%N E) as [(? & ? & ? & ?) _].
    + unfold claim_due_events in E. destruct (list_open_tenant_ids seen); [done|]. by destruct (foldl _ _ _).
  - simpl. unfold purge_tenant_outbox_events. destruct (require_purging_tenant _ _); [|by left].
    right. simpl. apply elem_of_difference. split; [done|]. rewrite elem_of_filter. intros [Heq _]. congruence.
  - right. simpl. rewrite consumption_result. repeat case_match; simpl; set_solver.
Qed.

(** At most one consumption.  Once a consumer's transaction has recorded
    that it handled the event (the call returned [True]), every later call for
    the same tenant, consumer and event returns [False] and changes nothing,
    until the tenant itself is purged. *)
Theorem consumed_once (s s1 : outbox_store) (t e : uuid) (name : pystr) (cmds : list command) :
  record_event_consumption t name e s = (Ok true, s1) →
  Forall (λ cmd, cmd ≠ CPurge t) cmds →
  record_event_consumption t name e (run cmds s1) = (Ok false, run cmds s1).
Proof.
  intros Hrec Hok. rewrite consumption_result in Hrec. rewrite consumption_result.
  destruct (validate_consumer name) as [[]|x]; [|done].
  rewrite bool_decide_eq_true_2; [done|].
  eapply (run_invariant uuid4 c (λ s, (t, name, e) ∈ os_consumptions s)); [|exact Hok|].
  - intros cmd s' Hne Hin. by apply exec_consumptions.
  - destruct (bool_decide _); [done|]. destruct (bool_decide _); [done|]. injection Hrec as <-. simpl. set_solver.
Qed.

End Safety.

(** ** Concrete histories *)

Abbreviation demo_run := (run demo_uuid demo_config).

Lemma demo_row_begun : ∃ r, demo_begun.(os_events) !! 1000%N = Some r ∧ ev_attempts r = 1.
Proof. eexists. split; vm_compute; reflexivity. Defined.

Lemma claims_bounded_witness :
  ∃ r, demo_begun.(os_events) !! 1000%N = Some r ∧
    ev_attempts r + claim_count demo_uuid demo_config 1000
      [CClaim 40000000000 0 ∅ demo_empty; CClaim 80000000000 0 ∅ demo_empty] demo_begun ≤ max_attempts demo_config.
Proof.
  eexists. split; [vm_compute; reflexivity|].
  apply (claims_bounded demo_uuid demo_config 1000 _ demo_begun _ demo_uuid_inj ltac:(by vm_compute)
           demo_begun_reachable); [vm_compute; reflexivity|].
  repeat constructor; by intros [].
Defined.

(** The lease of the first worker expires and the event is claimed again; the
    first worker then completes it. *)
Definition demo_reclaimed : outbox_store := demo_run [CClaim 40000000000 0 ∅ demo_empty] demo_begun.

Lemma lost_claim_inert_witness :
  exec demo_uuid demo_config (CComplete 40000000001 1 1000 1001) (demo_run [CBegin 40000000000 1 1000 1002] demo_reclaimed)
  = demo_run [CBegin 40000000000 1 1000 1002] demo_reclaimed.
Proof.
  apply (lost_claim_inert demo_uuid demo_config demo_reclaimed 1000 1001 [CBegin 40000000000 1 1000 1002]
           (CComplete 40000000001 1 1000 1001) demo_uuid_inj).
  - exists 0%nat. split; [vm_compute; lia|reflexivity].
  - exists 1%nat. split; [vm_compute; lia|reflexivity].
  - intros r Hr. vm_compute in Hr. injection Hr as <-. vm_compute. discriminate.
  - reflexivity.
Defined.

(** An ambiguous outcome with an idempotency window of one hour. *)
Definition demo_ambiguous : AmbiguousOutcome := mkAmbiguous (lit "timeout") (lit "send") (Some 3600000000) false.

Lemma window_respected_witness :
  ∃ s1 r, record_ambiguous_outcome demo_config 5 0 1 1000 1001 demo_ambiguous demo_begun
            = (Ok (Some OUTBOX_STATUS_PENDING), s1) ∧
    demo_begun.(os_events) !! 1000%N = Some r ∧
    ∀ now' t' k' x s2,
      begin_event_execution demo_config now' t' 1000 k' (demo_run [CClaim 100000000 0 ∅ demo_empty] s1) = (Ok (Some x), s2) →
      now' < ev_created_at r + 3600000000.
Proof.
  destruct (record_ambiguous_outcome demo_config 5 0 1 1000 1001 demo_ambiguous demo_begun) as [o s1] eqn:E.
  assert (o = Ok (Some OUTBOX_STATUS_PENDING)) as Ho.
  { apply (f_equal fst) in E. vm_compute in E. by rewrite <-E. }
  rewrite Ho in E.
  destruct (window_respected demo_uuid demo_config demo_begun s1 5 0 1 1000 1001 demo_ambiguous 3600000000
    [CClaim 100000000 0 ∅ demo_empty] demo_uuid_inj ltac:(by vm_compute) demo_begun_reachable eq_refl eq_refl E
    ltac:(repeat constructor; by intros [])) as (r & Hr & Hb).
  exists s1, r. rewrite Ho. split; [reflexivity|]. split; [exact Hr|exact Hb].
Defined.

Lemma terminal_final_witness :
  let s := demo_run [CComplete 3 1 1000 1001] demo_begun in
  ∃ r, s.(os_events) !! 1000%N = Some r ∧
    ((demo_run [CClaim 40000000000 0 ∅ demo_empty; CFail 5 0 true None 1 1000 1001 (ErrText (lit "late"))] s).(os_events) !! 1000%N = Some r ∨
     (demo_run [CClaim 40000000000 0 ∅ demo_empty; CFail 5 0 true None 1 1000 1001 (ErrText (lit "late"))] s).(os_events) !! 1000%N = None).
Proof.
  intros s. eexists. split; [vm_compute; reflexivity|].
  apply (terminal_final demo_uuid demo_config s 1000 _ _ demo_uuid_inj).
  - exists 0%nat. split; [vm_compute; lia|reflexivity].
  - vm_compute. reflexivity.
  - left. reflexivity.
Defined.

Lemma consumed_once_witness :
  ∃ s1, record_event_consumption 1 (lit "billing.invoice") 1000 demo_begun = (Ok true, s1) ∧
    record_event_consumption 1 (lit "billing.invoice") 1000 (demo_run [CConsume 1 (lit "billing.invoice") 1000] s1)
      = (Ok false, demo_run [CConsume 1 (lit "billing.invoice") 1000] s1).
Proof.
  eexists. split; [vm_compute; reflexivity|].
  apply (consumed_once demo_uuid demo_config demo_begun); [vm_compute; reflexivity|].
  repeat constructor; discriminate.
Defined.

(** The one unattended resend.  [release_claim] clears the marker of the
    claim it gives back even when that claim has already started its external
    effect: if the hand-off to the queue fails after the job was accepted, the
    worker starts, the dispatcher releases, and the event is claimed and started
    a second time under another claim, with no consumer's or operator's consent
    in between. *)
Theorem release_resends :
  ∃ (cmds : list command) (k k' : uuid), k ≠ k' ∧
    starts demo_config (CMark 3 1 1000 k) demo_begun 1000 k ∧
    (∀ cmd, cmd ∈ cmds → consents 1000 cmd → ∃ now t err, cmd = CRelease now t 1000 k err) ∧
    let s := demo_run cmds (exec demo_uuid demo_config (CMark 3 1 1000 k) demo_begun) in
    starts demo_config (CMark 100000003 1 1000 k') s 1000 k'.
Proof.
  exists [CRelease 4 1 1000 1001 (ErrText (lit "ConnectionError")); CClaim 100000001 0 ∅ demo_empty;
          CBegin 100000002 1 1000 1002], 1001%N, 1002%N.
  split; [done|]. split; [apply demo_starts|]. split.
  - intros cmd Hin Hc. apply list_elem_of_In in Hin. simpl in Hin.
    destruct Hin as [<-|[<-|[<-|[]]]]; try done. by eauto.
  - exists 100000003, 1%N. split; [reflexivity|]. vm_compute. reflexivity.
Qed.
