(* ===== verification/Redis.v ===== *)
(** * The Redis commands the rate limits use

    Redis is not part of the program: [Redis] is its interface, the commands the
    scripts and the client call, and [RedisLaws] what its documentation promises
    of them, as one reference function [effect] on the entry of a key.  A script
    runs at one instant and its commands see each other's writes; a key with a
    deadline reads as absent after it.  Times are milliseconds of the server's
    clock.  [model_redis] is an implementation that satisfies the laws. *)

From S2P Require Import Prelude.

(** What a key holds: a string that counts, or a sorted set of members by score. *)
Inductive rvalue : Type :=
| RString (n : Z)
| RZset (members : gmap string Z).

Record rentry : Type := mkEntry {
  en_value : rvalue;
  en_expires_at : option Z;
}.

Inductive redis_error : Type :=
| WRONGTYPE                      (* a command on a key of another type *)
| OUT_OF_RANGE                   (* an increment beyond 64 bits *)
| UNREACHABLE.                   (* connection refused, timeout *)

Inductive command : Type :=
| ZREMRANGEBYSCORE (key : string) (max : Z)      (* from -inf *)
| ZCARD (key : string)
| ZADD (key : string) (score : Z) (member : string)
| ZREM (key member : string)
| PTTL (key : string)
| PEXPIRE (key : string) (ms : Z)
| TTL (key : string)
| EXPIRE (key : string) (seconds : Z)
| INCR (key : string)
| GET (key : string)
| SET_PX (key : string) (value ms : Z)
| DEL (key : string)
| EXISTS (key : string).

Definition key_of (c : command) : string :=
  match c with
  | ZREMRANGEBYSCORE k _ | ZCARD k | ZADD k _ _ | ZREM k _ | PTTL k | PEXPIRE k _ | TTL k | EXPIRE k _ | INCR k
  | GET k | SET_PX k _ _ | DEL k | EXISTS k => k
  end.

Class Redis (db : Type) : Type := {
  (** A command at an instant; the reply [None] is nil. *)
  call : Z → command → M db redis_error (option Z);
  (** The entry of a key at an instant, if it is there. *)
  view : Z → db → string → option rentry;
  (** The seconds TTL reports for milliseconds. *)
  ttl_seconds : Z → Z;
  (** Whether a key with a deadline is gone at an instant. *)
  gone : Z → Z → bool;
}.

(** ** The documented effect of a command *)

Definition zset_entry (m : gmap string Z) (e : option Z) : option rentry :=
  if bool_decide (m = ∅) then None else Some (mkEntry (RZset m) e).

Definition time_to_live (now : Z) (e : option rentry) : Z :=
  match e with
  | None => -2
  | Some e => match e.(en_expires_at) with None => -1 | Some t => t - now end
  end.

Definition expire_in (now ms : Z) (e : option rentry) : option Z * option rentry :=
  match e with
  | None => (Some 0, None)
  | Some e => (Some 1, if ms <=? 0 then None else Some (mkEntry e.(en_value) (Some (now + ms))))
  end.

Definition reply (n : Z) : result redis_error (option Z) := Ok (Some n).

Definition MAX_INT64 : Z := 2 ^ 63 - 1.

Definition effect (seconds : Z → Z) (now : Z) (c : command) (e : option rentry) :
    result redis_error (option Z) * option rentry :=
  match c, e with
  | DEL _, Some _ => (reply 1, None)
  | DEL _, None => (reply 0, None)
  | EXISTS _, _ => (reply (if e then 1 else 0), e)
  | PTTL _, _ => (reply (time_to_live now e), e)
  | TTL _, _ => (reply (let ms := time_to_live now e in if ms <? 0 then ms else seconds ms), e)
  | PEXPIRE _ ms, _ => let r := expire_in now ms e in (Ok r.1, r.2)
  | EXPIRE _ s, _ => let r := expire_in now (1000 * s) e in (Ok r.1, r.2)
  | SET_PX _ v ms, _ => (reply 1, Some (mkEntry (RString v) (Some (now + ms))))
  | GET _, None => (Ok None, None)
  | GET _, Some (mkEntry (RString n) _) => (reply n, e)
  | INCR _, None => (reply 1, Some (mkEntry (RString 1) None))
  | INCR _, Some (mkEntry (RString n) t) =>
      if n <? MAX_INT64 then (reply (n + 1), Some (mkEntry (RString (n + 1)) t)) else (Raise OUT_OF_RANGE, e)
  | ZREMRANGEBYSCORE _ _, None | ZCARD _, None | ZREM _ _, None => (reply 0, None)
  | ZREMRANGEBYSCORE _ max, Some (mkEntry (RZset m) t) =>
      let m' := filter (λ p : string * Z, max < p.2) m in
      (reply (Z.of_nat (size m) - Z.of_nat (size m')), zset_entry m' t)
  | ZCARD _, Some (mkEntry (RZset m) t) => (reply (Z.of_nat (size m)), e)
  | ZADD _ score member, None => (reply 1, Some (mkEntry (RZset {[member := score]}) None))
  | ZADD _ score member, Some (mkEntry (RZset m) t) =>
      (reply (if m !! member then 0 else 1), Some (mkEntry (RZset (<[member := score]> m)) t))
  | ZREM _ member, Some (mkEntry (RZset m) t) =>
      (reply (if m !! member then 1 else 0), zset_entry (delete member m) t)
  | _, Some _ => (Raise WRONGTYPE, e)
  end.

(** The entry that is left of one at a later instant. *)
Definition left_at (gone : Z → Z → bool) (now : Z) (e : option rentry) : option rentry :=
  match e with
  | Some (mkEntry v (Some t)) => if gone now t then None else e
  | _ => e
  end.

Class RedisLaws (db : Type) `{!Redis db} : Prop := {
  gone_before : ∀ now t, now < t → gone now t = false;
  gone_after : ∀ now t, t < now → gone now t = true;
  ttl_seconds_round : ∀ ms, 0 ≤ ms → ms / 1000 ≤ ttl_seconds ms ≤ (ms + 999) / 1000;
  call_reply : ∀ now c (d : db), (call now c d).1 = (effect ttl_seconds now c (view now d (key_of c))).1;
  call_view : ∀ now c (d : db) now' k, now ≤ now' →
    view now' (call now c d).2 k =
    left_at gone now' (if decide (k = key_of c) then (effect ttl_seconds now c (view now d k)).2 else view now d k);
  view_later : ∀ now now' (d : db) k, now ≤ now' → view now' d k = left_at gone now' (view now d k);
}.

(** ** One command *)

(** A reply as a number. *)
Definition call_int {db : Type} `{!Redis db} (now : Z) (c : command) : M db redis_error Z :=
  do* r := call now c in ret (default 0 r).

Section Calls.
Context {db : Type} `{!Redis db} `{!RedisLaws db}.

Lemma view_left now (d : db) k : left_at gone now (view now d k) = view now d k.
Proof. symmetry. apply view_later. lia. Qed.

Lemma call_own now c (d : db) r e' : effect ttl_seconds now c (view now d (key_of c)) = (r, e') →
  ∃ d', call now c d = (r, d') ∧ view now d' (key_of c) = left_at gone now e' ∧
    ∀ k, k ≠ key_of c → view now d' k = view now d k.
Proof.
  intros He. exists (call now c d).2. split_and!.
  - rewrite (surjective_pairing (call now c d)) at 1. by rewrite call_reply, He.
  - rewrite call_view by lia. by rewrite decide_True, He.
  - intros k Hk. rewrite call_view by lia. by rewrite decide_False, view_left.
Qed.

Lemma call_int_own now c (d : db) n e' : effect ttl_seconds now c (view now d (key_of c)) = (reply n, e') →
  ∃ d', call_int now c d = (Ok n, d') ∧ view now d' (key_of c) = left_at gone now e' ∧
    ∀ k, k ≠ key_of c → view now d' k = view now d k.
Proof.
  intros (d' & H1 & H2 & H3)%call_own. exists d'. split; [|done]. unfold call_int, bind, ret. by rewrite H1.
Qed.

Lemma not_gone now (d : db) k v t : view now d k = Some (mkEntry v (Some t)) → gone now t = false.
Proof. intros H. pose proof (view_left now d k) as E. rewrite H in E. simpl in E. by destruct (gone now t). Qed.
End Calls.

(** ** An implementation: a map of entries, read through their deadlines *)

Definition model_gone (now t : Z) : bool := t <? now.

#[export] Instance model_redis : Redis (gmap string rentry) := {
  call now c d := let r := effect (λ ms, (ms + 500) / 1000) now c (left_at model_gone now (d !! key_of c)) in
                  (r.1, partial_alter (λ _, r.2) (key_of c) d);
  view now d k := left_at model_gone now (d !! k);
  ttl_seconds ms := (ms + 500) / 1000;
  gone := model_gone;
}.

Lemma left_at_later now now' e : now ≤ now' → left_at model_gone now' (left_at model_gone now e) = left_at model_gone now' e.
Proof.
  intros H. destruct e as [[v [t|]]|]; simpl; try done. unfold model_gone.
  destruct (Z.ltb_spec t now); simpl; [|done]. destruct (Z.ltb_spec t now'); [done|lia].
Qed.

#[export] Instance model_redis_laws : RedisLaws (gmap string rentry).
Proof.
  split; simpl.
  - intros now t H. unfold model_gone. by apply Z.ltb_ge; lia.
  - intros now t H. unfold model_gone. by apply Z.ltb_lt.
  - intros ms H. split; [apply Z.div_le_mono; lia|].
    apply Z.div_le_mono; lia.
  - done.
  - intros now c d now' k H. case_decide as Hk; [subst k; by rewrite lookup_partial_alter_eq|].
    rewrite lookup_partial_alter_ne by done. by rewrite left_at_later.
  - intros now now' d k H. by rewrite left_at_later.
Qed.
