(* ===== verification/RateLimit.v ===== *)
(** * Rate limits, leases and circuit breakers (saas_os/infra/ratelimit)

    Three primitives on one Redis that every instance of the application shares:
    a fixed-window counter (limiter.py), bounded concurrency leases (leases.py)
    and a circuit breaker (circuit.py).  A Lua script runs atomically at one
    instant of the server's clock; a client call may fail before the server saw it
    or after the server ran it.  Floating-point durations are rational numbers.
    Opening and closing the client is not modelled. *)

From Stdlib Require Import QArith Qround.
From S2P Require Import Prelude Redis.
#[local] Open Scope Z_scope.

(** What the network does with a call. *)
Inductive network : Type :=
| Delivered
| Lost                (* the server never ran it *)
| Unanswered.         (* the server ran it, the reply never came *)

(** errors.py, and [ValueError]s of wrong arguments *)
Inductive limit_error : Type :=
| RateLimitConfigurationError
| RateLimitExceededError (key : string) (retry_after_seconds : Z)
| RateLimitBackendError (key : string)
| LimitValueError (message : string).

Definition prefixed (prefix name : string) : string := prefix +:+ ":" +:+ name.

(** [max(1, math.ceil(seconds * 1000))] *)
Definition milliseconds (seconds : Q) : Z := Z.max 1 (Qceiling (seconds * 1000)).

Section Client.
Context {db : Type} `{!Redis db}.

Abbreviation script := (M db redis_error).

Definition remote {A : Type} (net : network) (m : script A) : script A :=
  match net with
  | Delivered => m
  | Lost => throw UNREACHABLE
  | Unanswered => λ d, (Raise UNREACHABLE, (m d).2)
  end.

(** [except RedisError as exc: raise e from exc] *)
Definition on_redis_error {A : Type} (e : limit_error) (m : script A) : M db limit_error A :=
  λ d, match m d with
       | (Ok a, d') => (Ok a, d')
       | (Raise _, d') => (Raise e, d')
       end.
(** [except RedisError: return a] *)
Definition or_else {A : Type} (a : A) (m : script A) : M db limit_error A :=
  λ d, match m d with
       | (Ok a', d') => (Ok a', d')
       | (Raise _, d') => (Ok a, d')
       end.

(** ** Leases *)

(** The server's clock: what TIME answers. *)
Definition now_ms (time : Z * Z) : Z := time.1 * 1000 + time.2 / 1000.

(** The first loop of [_ACQUIRE_SCRIPT]: the number of the first full scope, or 0. *)
Fixpoint acquire_check (now : Z) (i : nat) (scopes : list (string * Z)) : script nat :=
  match scopes with
  | [] => ret 0%nat
  | (key, limit) :: scopes =>
      do* _ := call now (ZREMRANGEBYSCORE key now) in
      do* n := call_int now (ZCARD key) in
      if limit <=? n then ret i else acquire_check now (S i) scopes
  end.

(** Its second loop. *)
Fixpoint acquire_add (now ttl_ms : Z) (member : string) (keys : list string) : script unit :=
  match keys with
  | [] => ret tt
  | key :: keys =>
      do* _ := call now (ZADD key (now + ttl_ms) member) in
      do* key_ttl := call_int now (PTTL key) in
      do* _ := if key_ttl <? ttl_ms then call now (PEXPIRE key ttl_ms) else ret None in
      acquire_add now ttl_ms member keys
  end.

Definition ACQUIRE_SCRIPT (now : Z) (scopes : list (string * Z)) (ttl_ms : Z) (member : string) : script (Z * nat) :=
  do* full := acquire_check now 1 scopes in
  match full with
  | 0%nat => do* _ := acquire_add now ttl_ms member scopes.*1 in ret (1, 0%nat)
  | _ => ret (0, full)
  end.

Fixpoint RELEASE_SCRIPT (now : Z) (keys : list string) (member : string) : script Z :=
  match keys with
  | [] => ret 0
  | key :: keys =>
      do* n := call_int now (ZREM key member) in
      do* m := RELEASE_SCRIPT now keys member in
      ret (n + m)
  end.

Definition HELD_SCRIPT (now : Z) (key : string) : script Z :=
  do* _ := call now (ZREMRANGEBYSCORE key now) in
  call_int now (ZCARD key).

Record LeaseScope : Type := mkScope { ls_name : string; ls_limit : Z }.
Record Lease : Type := mkLease { le_id : string; le_keys : list string }.
Inductive acquired : Type := Acquired (l : Lease) | LeaseRefusal (scope : string).

(** [lease_id]: the fresh [uuid.uuid4().hex]. *)
Definition acquire (prefix : string) (time : Z * Z) (net : network) (lease_id : string) (scopes : list LeaseScope)
    (ttl_seconds : Q) : M db limit_error acquired :=
  if bool_decide (scopes = []) then throw (LimitValueError "at least one scope is required")
  else if existsb (λ s, bool_decide (s.(ls_name) = ""%string) || (s.(ls_limit) <? 1)) scopes
  then throw (LimitValueError "every scope needs a name and a positive limit")
  else if Qle_bool ttl_seconds 0 then throw (LimitValueError "ttl_seconds must be > 0")
  else
    let keys := (λ s, prefixed prefix s.(ls_name)) <$> scopes in
    do* r := on_redis_error (RateLimitBackendError "lease")
               (remote net (ACQUIRE_SCRIPT (now_ms time) (zip keys (ls_limit <$> scopes)) (milliseconds ttl_seconds) lease_id)) in
    if r.1 =? 1 then ret (Acquired (mkLease lease_id keys))
    else match scopes !! (r.2 - 1)%nat with
         | Some s => ret (LeaseRefusal s.(ls_name))
         | None => throw (LimitValueError "IndexError")
         end.

Definition release (time : Z * Z) (net : network) (lease : Lease) : M db limit_error unit :=
  do* _ := or_else 0 (remote net (RELEASE_SCRIPT (now_ms time) lease.(le_keys) lease.(le_id))) in ret tt.

Definition held (prefix : string) (time : Z * Z) (net : network) (scope : string) : M db limit_error Z :=
  on_redis_error (RateLimitBackendError "lease") (remote net (HELD_SCRIPT (now_ms time) (prefixed prefix scope))).

(** ** The fixed-window limiter *)

Record RateLimitConfig : Type := mkRateLimitConfig {
  rl_requests_per_window : Z;
  rl_window_seconds : Z;
  rl_key_prefix : string;
  rl_redis_timeout_seconds : Q;
}.

(** [RateLimitConfig.__post_init__] *)
Definition ratelimit_post_init (c : RateLimitConfig) : result limit_error unit :=
  let* _ := raise_if (c.(rl_requests_per_window) <? 1) RateLimitConfigurationError in
  let* _ := raise_if (c.(rl_window_seconds) <? 1) RateLimitConfigurationError in
  raise_if (Qle_bool c.(rl_redis_timeout_seconds) 0) RateLimitConfigurationError.

Definition INCREMENT_SCRIPT (now : Z) (key : string) (window_seconds : Z) : script (Z * Z) :=
  do* count := call_int now (INCR key) in
  do* ttl := call_int now (TTL key) in
  if (count =? 1) || (ttl =? -1) then
    do* _ := call now (EXPIRE key window_seconds) in
    do* ttl := call_int now (TTL key) in
    ret (count, ttl)
  else ret (count, ttl).

Record RateLimitResult : Type := mkRateLimitResult {
  rr_allowed : bool;
  rr_remaining : Z;
  rr_retry_after_seconds : Z;
}.

Definition check_rate_limit (c : RateLimitConfig) (now : Z) (net : network) (key : string) : M db limit_error RateLimitResult :=
  do* r := on_redis_error (RateLimitBackendError key)
             (remote net (INCREMENT_SCRIPT now (prefixed c.(rl_key_prefix) key) c.(rl_window_seconds))) in
  let '(count, ttl) := r in
  let retry_after := if 0 <? ttl then ttl else c.(rl_window_seconds) in
  ret (if c.(rl_requests_per_window) <? count then mkRateLimitResult false 0 retry_after
       else mkRateLimitResult true (c.(rl_requests_per_window) - count) retry_after).

(** The two commands of the pipeline are sent together but are not one
    transaction: [now] and [now'] are their instants. *)
Definition peek_rate_limit (c : RateLimitConfig) (now now' : Z) (net : network) (key : string) : M db limit_error RateLimitResult :=
  let redis_key := prefixed c.(rl_key_prefix) key in
  do* r := on_redis_error (RateLimitBackendError key)
             (remote net (do* raw_count := call now (GET redis_key) in
                          do* raw_ttl := call_int now' (TTL redis_key) in
                          ret (raw_count, if raw_count then raw_ttl else -2))) in
  let '(raw_count, ttl) := r in
  let count := default 0 raw_count in
  let retry_after := if 0 <? ttl then ttl else c.(rl_window_seconds) in
  ret (if c.(rl_requests_per_window) <=? count then mkRateLimitResult false 0 retry_after
       else mkRateLimitResult true (c.(rl_requests_per_window) - count) retry_after).

Definition enforce_rate_limit (c : RateLimitConfig) (now : Z) (net : network) (key : string) : M db limit_error RateLimitResult :=
  do* r := check_rate_limit c now net key in
  if r.(rr_allowed) then ret r else throw (RateLimitExceededError key r.(rr_retry_after_seconds)).

(** ** The circuit breaker *)

Record SharedCircuitBreaker : Type := mkCircuit {
  cb_prefix : string;
  cb_threshold : Z;
  cb_window_ms : Z;
  cb_open_ms : Z;
}.

(** [SharedCircuitBreaker.__init__] *)
Definition circuit_init (prefix : string) (threshold : Z) (window_seconds open_seconds timeout_seconds : Q) :
    result limit_error SharedCircuitBreaker :=
  if (threshold <? 1) || Qle_bool window_seconds 0 || Qle_bool open_seconds 0
  then Raise (LimitValueError "threshold, window_seconds and open_seconds must be positive")
  else if Qle_bool timeout_seconds 0 then Raise (LimitValueError "timeout_seconds must be > 0")
  else Ok (mkCircuit prefix threshold (milliseconds window_seconds) (milliseconds open_seconds)).

(** [_keys] *)
Definition failures_key (b : SharedCircuitBreaker) (name : string) : string := prefixed b.(cb_prefix) name +:+ ":failures".
Definition open_key (b : SharedCircuitBreaker) (name : string) : string := prefixed b.(cb_prefix) name +:+ ":open".

Definition FAILURE_SCRIPT (now : Z) (failures open : string) (threshold window_ms open_ms : Z) : script Z :=
  do* count := call_int now (INCR failures) in
  do* _ := if count =? 1 then call now (PEXPIRE failures window_ms) else ret None in
  if threshold <=? count then
    do* _ := call now (SET_PX open 1 open_ms) in
    do* _ := call now (DEL failures) in
    ret 1
  else ret 0.

Definition is_open (b : SharedCircuitBreaker) (now : Z) (net : network) (name : string) : M db limit_error bool :=
  or_else false (remote net (do* n := call_int now (EXISTS (open_key b name)) in ret (bool_decide (n ≠ 0)))).

Definition failure (b : SharedCircuitBreaker) (now : Z) (net : network) (name : string) : M db limit_error bool :=
  do* opened := or_else 0 (remote net (FAILURE_SCRIPT now (failures_key b name) (open_key b name)
                                         b.(cb_threshold) b.(cb_window_ms) b.(cb_open_ms))) in
  ret (opened =? 1).

(** One DEL of both keys. *)
Definition success (b : SharedCircuitBreaker) (now : Z) (net : network) (name : string) : M db limit_error unit :=
  do* _ := or_else None (remote net (do* _ := call now (DEL (failures_key b name)) in call now (DEL (open_key b name)))) in
  ret tt.
End Client.
