(* ===== verification/LeaseProofs.v ===== *)
(** * Leases never exceed their limits

    A lease occupies a slot of each of its scopes until its deadline or its
    release, whatever instances, networks and crashes do: the sorted sets of
    Redis refine the table [slots] of who holds what until when. *)

From Stdlib Require Import QArith.
From S2P Require Import Prelude Redis RateLimit.
#[local] Open Scope Z_scope.

Section Leases.
Context {db : Type} `{!Redis db} `{!RedisLaws db}.

(** ** The members that are live *)

Definition members_of (e : option rentry) : gmap string Z :=
  match e with Some (mkEntry (RZset m) _) => m | _ => ∅ end.
Definition until (now : Z) (m : gmap string Z) : gmap string Z := filter (λ p : string * Z, now < p.2) m.
Definition live (now : Z) (d : db) (k : string) : gmap string Z := until now (members_of (view now d k)).

(** A sorted set of leases has a deadline, and it is not before any member's. *)
Definition lease_entry (e : option rentry) : Prop :=
  match e with
  | None => True
  | Some (mkEntry (RZset m) (Some t)) => ∀ x s, m !! x = Some s → s ≤ t
  | _ => False
  end.

Lemma until_until now now' m : now ≤ now' → until now' (until now m) = until now' m.
Proof.
  intros H. unfold until. rewrite map_filter_filter. apply map_filter_ext. intros x s _. simpl. lia.
Qed.

Lemma until_mono now m m' : m ⊆ m' → until now m ⊆ until now m'.
Proof.
  intros H. apply map_subseteq_spec. intros x s [Hx Hn]%map_lookup_filter_Some.
  apply map_lookup_filter_Some. split; [|done]. by eapply lookup_weaken.
Qed.

Lemma lease_entry_later now' e : lease_entry e → lease_entry (left_at gone now' e).
Proof. destruct e as [[[n|m] [t|]]|]; simpl; try done. by destruct (gone now' t). Qed.

Lemma live_later now now' d k : now ≤ now' → lease_entry (view now d k) → live now' d k = until now' (live now d k).
Proof.
  intros Hn He. unfold live. rewrite (view_later now now' d k), until_until by done.
  destruct (view now d k) as [[[n|m] [t|]]|]; simpl in *; try done.
  destruct (gone now' t) eqn:Eg; [|done]. simpl. unfold until. symmetry. rewrite map_filter_empty.
  apply map_empty_filter_2. intros x s Hs Hlt. simpl in Hlt. apply He in Hs.
  rewrite gone_before in Eg by lia. done.
Qed.

(** What the reads and removals of one key do. *)
Lemma zset_entry_left now (d : db) k v t m : view now d k = Some (mkEntry v (Some t)) →
  left_at gone now (zset_entry m (Some t)) = zset_entry m (Some t) .
Proof.
  intros H%not_gone. unfold zset_entry. case_bool_decide; [done|]. simpl. by rewrite H.
Qed.
Lemma members_zset_entry m t : members_of (zset_entry m t) = m.
Proof. unfold zset_entry. case_bool_decide; [by subst|done]. Qed.
Lemma lease_zset_entry m t : (∀ x s, m !! x = Some s → s ≤ t) → lease_entry (zset_entry m (Some t)).
Proof. intros H. unfold zset_entry. by case_bool_decide. Qed.

Lemma expire_members now k (d : db) : lease_entry (view now d k) →
  ∃ r d', call now (ZREMRANGEBYSCORE k now) d = (Ok r, d') ∧ lease_entry (view now d' k) ∧
    members_of (view now d' k) = live now d k ∧ ∀ k', k' ≠ k → view now d' k' = view now d k'.
Proof.
  intros He. unfold live. destruct (view now d k) as [[[n|m] [t|]]|] eqn:Ev; try done.
  - edestruct (call_own now (ZREMRANGEBYSCORE k now) d) as (d' & Hc & Hv & Ho).
    { simpl. by rewrite Ev. }
    simpl in *. eexists _, d'. split; [exact Hc|]. rewrite Hv. erewrite zset_entry_left by done.
    rewrite members_zset_entry. split_and!; try done. apply lease_zset_entry.
    intros x s [Hs _]%map_lookup_filter_Some. by eapply He.
  - edestruct (call_own now (ZREMRANGEBYSCORE k now) d) as (d' & Hc & Hv & Ho); [simpl; by rewrite Ev|].
    simpl in *. eexists _, d'. split; [exact Hc|]. rewrite Hv. split_and!; try done.
Qed.

Lemma card_members now k (d : db) : lease_entry (view now d k) →
  ∃ d', call_int now (ZCARD k) d = (Ok (Z.of_nat (size (members_of (view now d k)))), d') ∧
    ∀ k', view now d' k' = view now d k'.
Proof.
  intros He. destruct (view now d k) as [[[n|m] [t|]]|] eqn:Ev; try done.
  - edestruct (call_int_own now (ZCARD k) d) as (d' & Hc & Hv & Ho); [simpl; by rewrite Ev|].
    exists d'. split; [exact Hc|]. intros k'. destruct (decide (k' = k)) as [->|]; [|by apply Ho].
    simpl in Hv. rewrite Hv, <- Ev. rewrite <- (view_left now d k) at 2. rewrite Ev. simpl. done.
  - edestruct (call_int_own now (ZCARD k) d) as (d' & Hc & Hv & Ho); [simpl; by rewrite Ev|].
    exists d'. split; [exact Hc|]. intros k'. destruct (decide (k' = k)) as [->|]; [|by apply Ho].
    simpl in Hv. by rewrite Hv.
Qed.

(** A slot taken in one scope. *)
Definition take_slot (now ttl_ms : Z) (x k : string) : M db redis_error (option Z) :=
  do* _ := call now (ZADD k (now + ttl_ms) x) in
  do* key_ttl := call_int now (PTTL k) in
  if key_ttl <? ttl_ms then call now (PEXPIRE k ttl_ms) else ret None.

Lemma take_slot_spec now ttl x k (d : db) : 0 < ttl → lease_entry (view now d k) →
  ∃ r d', take_slot now ttl x k d = (Ok r, d') ∧ lease_entry (view now d' k) ∧
    live now d' k = <[x := now + ttl]> (live now d k) ∧ ∀ k', k' ≠ k → view now d' k' = view now d k'.
Proof.
  intros Ht He.
  assert (∃ r1 m t, effect ttl_seconds now (ZADD k (now + ttl) x) (view now d k) =
      (reply r1, Some (mkEntry (RZset (<[x := now + ttl]> m)) t)) ∧ members_of (view now d k) = m ∧
      (∀ t0, t = Some t0 → gone now t0 = false ∧ ∀ y s, m !! y = Some s → s ≤ t0) ∧ (t = None → m = ∅))
    as (r1 & m & t & H1 & Hm & Ht1 & Ht2).
  { destruct (view now d k) as [[[n|m] [t|]]|] eqn:Ev; try done.
    - eexists _, m, (Some t). split; [done|]. split_and!; try done. intros ? [= <-]. split; [by eapply not_gone|done].
    - eexists _, ∅, None. simpl. rewrite insert_empty. done. }
  destruct (call_own now (ZADD k (now + ttl) x) d _ _ H1) as (d1 & Hc1 & Hv1 & Ho1).
  assert (Hv : view now d1 k = Some (mkEntry (RZset (<[x := now + ttl]> m)) t)).
  { simpl in Hv1. rewrite Hv1. destruct t as [t|]; [|done]. simpl. by rewrite (proj1 (Ht1 t eq_refl)). }
  destruct (call_int_own now (PTTL k) d1 (default (-1) ((λ t, t - now) <$> t)) (view now d1 k)) as (d2 & Hc2 & Hv2 & Ho2).
  { simpl. rewrite Hv. simpl. by destruct t. }
  assert (Hvd2 : view now d2 k = view now d1 k) by (by simpl in Hv2; rewrite Hv2, view_left).
  assert (Hlive : until now (<[x := now + ttl]> m) = <[x := now + ttl]> (until now m)).
  { unfold until. by rewrite map_filter_insert_True by (simpl; lia). }
  unfold take_slot, bind. rewrite Hc1. simpl. rewrite Hc2. destruct (_ <? ttl) eqn:El.
  - destruct (call_own now (PEXPIRE k ttl) d2 (reply 1) (Some (mkEntry (RZset (<[x := now + ttl]> m)) (Some (now + ttl)))))
      as (d3 & Hc3 & Hv3 & Ho3).
    { simpl. rewrite Hvd2, Hv. simpl. by rewrite (proj2 (Z.leb_gt ttl 0)) by lia. }
    eexists _, d3. split; [exact Hc3|]. unfold live. simpl in *. rewrite Hv3, (gone_before now (now + ttl)) by lia. simpl.
    rewrite Hlive, Hm. split_and!; [|done|intros k' Hk'; by rewrite Ho3, Ho2, Ho1].
    intros y s [[<- <-]|[_ Hy]]%lookup_insert_Some; [lia|].
    destruct t as [t|]; [|by rewrite Ht2 in Hy]. apply (proj2 (Ht1 t eq_refl)) in Hy. simpl in El. reflect_bools. lia.
  - eexists _, d2. split; [done|]. unfold live. rewrite Hvd2, Hv. simpl in *. rewrite Hlive, Hm.
    split_and!; [|done|intros k' Hk'; by rewrite Ho2, Ho1].
    destruct t as [t|]; simpl in El; reflect_bools; [|lia].
    intros y s [[<- <-]|[_ Hy]]%lookup_insert_Some; [lia|]. by apply (proj2 (Ht1 t eq_refl)) in Hy.
Qed.

Lemma release_slot now x k (d : db) : lease_entry (view now d k) →
  ∃ r d', call_int now (ZREM k x) d = (Ok r, d') ∧ lease_entry (view now d' k) ∧
    live now d' k = delete x (live now d k) ∧ ∀ k', k' ≠ k → view now d' k' = view now d k'.
Proof.
  intros He. unfold live. destruct (view now d k) as [[[n|m] [t|]]|] eqn:Ev; try done.
  - edestruct (call_int_own now (ZREM k x) d) as (d' & Hc & Hv & Ho); [simpl; by rewrite Ev|].
    simpl in *. eexists _, d'. split; [exact Hc|]. rewrite Hv. erewrite zset_entry_left by done.
    rewrite members_zset_entry. split_and!; try done.
    + apply lease_zset_entry. intros y s [_ Hy]%lookup_delete_Some. by eapply He.
    + simpl. unfold until. by rewrite map_filter_delete.
  - edestruct (call_int_own now (ZREM k x) d) as (d' & Hc & Hv & Ho); [simpl; by rewrite Ev|].
    simpl in *. eexists _, d'. split; [exact Hc|]. rewrite Hv. simpl. unfold until. rewrite map_filter_empty, delete_empty. done.
Qed.

(** ** The table the scripts implement

    [slots k]: who was given a slot of [k], until when. *)
Definition slots : Type := string → gmap string Z.
Definition occupied (now : Z) (a : slots) (k : string) : gmap string Z := until now (a k).

Definition first_full (now : Z) (a : slots) : nat → list (string * Z) → nat :=
  fix go i scopes :=
    match scopes with
    | [] => 0%nat
    | (k, limit) :: scopes => if limit <=? Z.of_nat (size (occupied now a k)) then i else go (S i) scopes
    end.
Definition take (keys : list string) (x : string) (deadline : Z) (a : slots) : slots :=
  λ k, if decide (k ∈ keys) then <[x := deadline]> (a k) else a k.
Definition give_back (keys : list string) (x : string) (a : slots) : slots :=
  λ k, if decide (k ∈ keys) then delete x (a k) else a k.

Context (mine : string → Prop).

(** Redis implements the table on the keys of the leases. *)
Definition implements (now : Z) (d : db) (a : slots) : Prop :=
  ∀ k, mine k → lease_entry (view now d k) ∧ live now d k = occupied now a k.

Lemma implements_later now now' d a : now ≤ now' → implements now d a → implements now' d a.
Proof.
  intros Hn Hi k Hk. destruct (Hi k Hk) as [He Hl]. split.
  - rewrite (view_later now now') by done. by apply lease_entry_later.
  - rewrite (live_later now) by done. rewrite Hl. unfold occupied. by apply until_until.
Qed.

(** Changing one key of the leases, the others untouched. *)
Lemma implements_key now d d' a a' k : implements now d a → lease_entry (view now d' k) →
  live now d' k = occupied now a' k → (∀ k', k' ≠ k → view now d' k' = view now d k') →
  (∀ k', k' ≠ k → occupied now a' k' = occupied now a k') → implements now d' a'.
Proof.
  intros Hi He Hl Ho Ha k' Hk'. destruct (decide (k' = k)) as [->|Hne]; [done|].
  unfold live. rewrite Ho by done. destruct (Hi k' Hk') as [He' Hl']. split; [done|]. by rewrite Ha.
Qed.

Lemma acquire_check_spec now i scopes d a : implements now d a → Forall (λ p, mine p.1) scopes →
  ∃ d', acquire_check now i scopes d = (Ok (first_full now a i scopes), d') ∧ implements now d' a.
Proof.
  revert i d. induction scopes as [|[k l] scopes IH]; intros i d Hi Hs; [by exists d|].
  apply Forall_cons in Hs as [Hk Hs]. destruct (Hi k Hk) as [He Hl]. simpl in *.
  destruct (expire_members now k d He) as (r & d1 & H1 & He1 & Hm1 & Ho1).
  destruct (card_members now k d1 He1) as (d2 & H2 & Ho2).
  assert (Hi2 : implements now d2 a).
  { apply (implements_key now d _ a a k); [done|by rewrite Ho2| |intros k' ?; by rewrite Ho2, Ho1|done].
    unfold live. rewrite Ho2, Hm1, Hl. apply until_until. lia. }
  unfold bind at 1. rewrite H1. unfold bind at 1. rewrite H2, Hm1, Hl. case_match; [by exists d2|].
  by apply IH.
Qed.

Lemma acquire_add_spec now ttl x keys d a : 0 < ttl → implements now d a → Forall mine keys →
  ∃ d', acquire_add now ttl x keys d = (Ok tt, d') ∧ implements now d' (take keys x (now + ttl) a).
Proof.
  intros Ht. revert d a. induction keys as [|k keys IH]; intros d a Hi Hs.
  { exists d. split; [done|]. intros k Hk. apply (Hi k Hk). }
  apply Forall_cons in Hs as [Hk Hs]. destruct (Hi k Hk) as [He Hl].
  destruct (take_slot_spec now ttl x k d Ht He) as (r & d1 & H1 & He1 & Hl1 & Ho1).
  destruct (IH d1 (take [k] x (now + ttl) a)) as (d2 & H2 & Hi2); [|done|].
  { apply (implements_key now d _ a _ k); try done.
    - rewrite Hl1, Hl. unfold occupied, take, until. rewrite decide_True by set_solver.
      by rewrite map_filter_insert_True by (simpl; lia).
    - intros k' Hk'. unfold occupied, take. by rewrite decide_False by set_solver. }
  exists d2. split.
  - revert H1. unfold take_slot. simpl. unfold bind.
    destruct (call now _ d) as [[]?]; [|done]. destruct (call_int now _ _) as [[]?]; [|done].
    by intros ->.
  - intros k' Hk'. destruct (Hi2 k' Hk') as [He2 Hl2]. split; [done|]. rewrite Hl2. unfold occupied. f_equal. unfold take.
    repeat case_decide; try done; try set_solver. by rewrite insert_insert_eq.
Qed.

Lemma release_script_spec now x keys d a : implements now d a → Forall mine keys →
  ∃ n d', RELEASE_SCRIPT now keys x d = (Ok n, d') ∧ implements now d' (give_back keys x a).
Proof.
  revert d a. induction keys as [|k keys IH]; intros d a Hi Hs.
  { eexists _, d. split; [done|]. intros k Hk. apply (Hi k Hk). }
  apply Forall_cons in Hs as [Hk Hs]. destruct (Hi k Hk) as [He Hl].
  destruct (release_slot now x k d He) as (r & d1 & H1 & He1 & Hl1 & Ho1).
  destruct (IH d1 (give_back [k] x a)) as (n & d2 & H2 & Hi2); [|done|].
  { apply (implements_key now d _ a _ k); try done.
    - rewrite Hl1, Hl. unfold occupied, give_back, until. rewrite decide_True by set_solver. by rewrite map_filter_delete.
    - intros k' Hk'. unfold occupied, give_back. by rewrite decide_False by set_solver. }
  exists (r + n), d2. split.
  - simpl. unfold bind. by rewrite H1, H2.
  - intros k' Hk'. destruct (Hi2 k' Hk') as [He2 Hl2]. split; [done|]. rewrite Hl2. unfold occupied. f_equal. unfold give_back.
    repeat case_decide; try done; try set_solver. by rewrite delete_delete_eq.
Qed.

Lemma first_full_room now a i scopes : first_full now a i scopes = 0%nat → i ≠ 0%nat →
  Forall (λ p, Z.of_nat (size (occupied now a p.1)) < p.2) scopes.
Proof.
  revert i. induction scopes as [|[k l] scopes IH]; intros i H Hi; [done|]. simpl in H.
  destruct (l <=? _) eqn:E; [done|]. reflect_bools. constructor; [done|]. by eapply IH.
Qed.
Lemma first_full_spec now a i scopes j : first_full now a i scopes = S j → i ≠ 0%nat →
  (i ≤ S j)%nat ∧ ∃ p, scopes !! (S j - i)%nat = Some p ∧ p.2 ≤ Z.of_nat (size (occupied now a p.1)).
Proof.
  revert i. induction scopes as [|[k l] scopes IH]; intros i H Hi; [done|]. simpl in H.
  destruct (l <=? _) eqn:E; reflect_bools.
  - subst i. split; [lia|]. exists (k, l). by rewrite Nat.sub_diag.
  - apply IH in H as (Hj & p & Hp & Hl); [|lia]. split; [lia|]. exists p. split; [|done].
    replace (S j - i)%nat with (S (S j - S i)) by lia. done.
Qed.
End Leases.

(** ** The operations, and all histories *)

Section History.
Context {db : Type} `{!Redis db} `{!RedisLaws db} (prefix : string).

Definition lease_key (k : string) : Prop := ∃ name, k = prefixed prefix name.
Definition scope_keys (scopes : list LeaseScope) : list string := (λ s, prefixed prefix s.(ls_name)) <$> scopes.
Definition valid_acquire (scopes : list LeaseScope) (ttl : Q) : Prop :=
  scopes ≠ [] ∧ Forall (λ s, s.(ls_name) ≠ ""%string ∧ 1 ≤ s.(ls_limit)) scopes ∧ Qle_bool ttl 0 = false.

Lemma milliseconds_pos q : 0 < milliseconds q.
Proof. unfold milliseconds. lia. Qed.

Lemma scope_keys_mine scopes : Forall lease_key (scope_keys scopes).
Proof. apply Forall_fmap, Forall_true. intros s. by eexists. Qed.
Lemma zip_scopes scopes : zip (scope_keys scopes) (ls_limit <$> scopes) = (λ s, (prefixed prefix s.(ls_name), s.(ls_limit))) <$> scopes.
Proof. induction scopes as [|s scopes IH]; [done|]. simpl. by f_equal. Qed.

(** What the table says of an acquisition. *)
Definition spec_acquire (now : Z) (id : string) (scopes : list LeaseScope) (ttl : Q) (a : slots) : acquired * slots :=
  match first_full now a 1 (zip (scope_keys scopes) (ls_limit <$> scopes)) with
  | 0%nat => (Acquired (mkLease id (scope_keys scopes)), take (scope_keys scopes) id (now + milliseconds ttl) a)
  | S i => (LeaseRefusal (default ""%string (ls_name <$> scopes !! i)), a)
  end.

Lemma acquire_script_spec now id scopes ttl d a : implements lease_key now d a →
  ∃ r d', ACQUIRE_SCRIPT now (zip (scope_keys scopes) (ls_limit <$> scopes)) (milliseconds ttl) id d = (Ok r, d') ∧
    implements lease_key now d' (spec_acquire now id scopes ttl a).2 ∧
    match (spec_acquire now id scopes ttl a).1 with
    | Acquired l => r = (1, 0%nat) ∧ l = mkLease id (scope_keys scopes)
    | LeaseRefusal n => ∃ i s, r = (0, S i) ∧ scopes !! i = Some s ∧ s.(ls_name) = n
    end.
Proof.
  intros Hi. unfold ACQUIRE_SCRIPT, spec_acquire.
  destruct (acquire_check_spec lease_key now 1 (zip (scope_keys scopes) (ls_limit <$> scopes)) d a Hi) as (d1 & H1 & Hi1).
  { rewrite zip_scopes. apply Forall_fmap, Forall_true. intros s. by eexists. }
  unfold bind at 1. rewrite H1. destruct (first_full _ _ _ _) as [|i] eqn:Ef.
  - destruct (acquire_add_spec lease_key now (milliseconds ttl) id (scope_keys scopes) d1 a) as (d2 & H2 & Hi2);
      [apply milliseconds_pos|done|apply scope_keys_mine|].
    exists (1, 0%nat), d2. unfold bind.
    replace ((zip (scope_keys scopes) (ls_limit <$> scopes)).*1) with (scope_keys scopes)
      by (rewrite zip_scopes, <- list_fmap_compose; done).
    rewrite H2. done.
  - exists (0, S i), d1. split; [done|]. split; [done|]. apply first_full_spec in Ef as (_ & p & Hp & _); [|done].
    rewrite zip_scopes in Hp. replace (S i - 1)%nat with i in Hp by lia.
    apply list_lookup_fmap_Some in Hp as (s & _ & Hs). exists i, s. simpl. by rewrite Hs.
Qed.

(** An acquisition that reaches the server and is answered is the table's. *)
Lemma acquire_implements time id scopes ttl d a : implements lease_key (now_ms time) d a → valid_acquire scopes ttl →
  ∃ d', acquire prefix time Delivered id scopes ttl d = (Ok (spec_acquire (now_ms time) id scopes ttl a).1, d') ∧
    implements lease_key (now_ms time) d' (spec_acquire (now_ms time) id scopes ttl a).2.
Proof.
  intros Hi (Hne & Hall & Ht). unfold acquire. rewrite bool_decide_false by done.
  assert (existsb (λ s, bool_decide (s.(ls_name) = ""%string) || (s.(ls_limit) <? 1)) scopes = false) as ->.
  { clear Hne. induction Hall as [|s l [H1 H2] _ IH]; [done|]. simpl. rewrite IH, orb_false_r.
    rewrite bool_decide_false by done. apply Z.ltb_ge. lia. }
  rewrite Ht. destruct (acquire_script_spec (now_ms time) id scopes ttl d a Hi) as (r & d' & Hs & Hi' & Hr).
  exists d'. split; [|done]. unfold bind, on_redis_error, remote. fold (scope_keys scopes). rewrite Hs.
  destruct (spec_acquire _ _ _ _ _).1 as [l|n].
  - destruct Hr as [-> ->]. done.
  - destruct Hr as (i & s & -> & Hl & <-). simpl. rewrite Nat.sub_0_r, Hl. done.
Qed.

(** Whatever happens, the table afterwards is the one before or the one the
    acquisition makes, and a lease that is returned has its slots. *)
Lemma acquire_any time net id scopes ttl d a : implements lease_key (now_ms time) d a →
  let r := acquire prefix time net id scopes ttl d in
  ∃ a', implements lease_key (now_ms time) r.2 a' ∧ (a' = a ∨ a' = (spec_acquire (now_ms time) id scopes ttl a).2) ∧
    ∀ l, r.1 = Ok (Acquired l) →
      l = mkLease id (scope_keys scopes) ∧ (spec_acquire (now_ms time) id scopes ttl a) = (Acquired l, a').
Proof.
  intros Hi. simpl. unfold acquire. case_bool_decide; [by exists a; split; [|split; [left|]]|].
  destruct (existsb _ _); [by exists a; split; [|split; [left|]]|].
  destruct (Qle_bool ttl 0); [by exists a; split; [|split; [left|]]|]. fold (scope_keys scopes).
  destruct (acquire_script_spec (now_ms time) id scopes ttl d a Hi) as (r & d' & Hs & Hi' & Hr).
  destruct net; unfold bind, on_redis_error, remote.
  - rewrite Hs. destruct (spec_acquire _ _ _ _ _) as [[l|n] a'] eqn:Ea; simpl in *.
    + destruct Hr as [-> ->]. simpl. exists a'. split; [done|]. split; [by right|]. by intros ? [= <-].
    + destruct Hr as (i & s & -> & Hl & <-). simpl. rewrite Nat.sub_0_r, Hl. exists a'. split; [done|]. split; [by right|done].
  - by exists a; split; [|split; [left|]].
  - rewrite Hs. simpl. eexists. split; [exact Hi'|]. split; [by right|done].
Qed.

Lemma release_any time net l d a : implements lease_key (now_ms time) d a → Forall lease_key l.(le_keys) →
  ∃ a', implements lease_key (now_ms time) (release time net l d).2 a' ∧
    (a' = a ∨ a' = give_back l.(le_keys) l.(le_id) a).
Proof.
  intros Hi Hl. destruct (release_script_spec lease_key (now_ms time) l.(le_id) l.(le_keys) d a Hi Hl) as (n & d' & Hs & Hi').
  unfold release, bind, or_else, remote. destruct net; [|exists a; auto|]; rewrite Hs; eexists; (split; [exact Hi'|by right]).
Qed.

Lemma held_any time net name d a : implements lease_key (now_ms time) d a →
  implements lease_key (now_ms time) (held prefix time net name d).2 a ∧
  ∀ n, (held prefix time net name d).1 = Ok n → n = Z.of_nat (size (occupied (now_ms time) a (prefixed prefix name))).
Proof.
  intros Hi. assert (Hk : lease_key (prefixed prefix name)) by (by eexists). destruct (Hi _ Hk) as [He Hl].
  destruct (expire_members (now_ms time) _ d He) as (r & d1 & H1 & He1 & Hm1 & Ho1).
  destruct (card_members (now_ms time) _ d1 He1) as (d2 & H2 & Ho2).
  assert (Hs : HELD_SCRIPT (now_ms time) (prefixed prefix name) d =
    (Ok (Z.of_nat (size (occupied (now_ms time) a (prefixed prefix name)))), d2)).
  { unfold HELD_SCRIPT, bind. rewrite H1, H2, Hm1, Hl. done. }
  assert (Hi2 : implements lease_key (now_ms time) d2 a).
  { apply (implements_key lease_key (now_ms time) d _ a a (prefixed prefix name));
      [done|by rewrite Ho2| |intros k' ?; by rewrite Ho2, Ho1|done].
    unfold live. rewrite Ho2, Hm1, Hl. apply until_until. lia. }
  unfold held, on_redis_error, remote. destruct net; try rewrite Hs; (split; [done|]); [by intros n [= <-]|done|done].
Qed.

(** [bound k]: no acquisition of key [k] names a higher limit. *)
Context (bound : string → nat).

Definition grant (r : result limit_error acquired) (deadline : Z) (out : list (Lease * Z)) : list (Lease * Z) :=
  match r with Ok (Acquired l) => (l, deadline) :: out | _ => out end.

(** The states of Redis and of the holders: [out] are the leases that were
    returned to somebody, with their deadlines, and not released since.  Other
    components use other keys. *)
Inductive lease_reachable : Z → db → list (Lease * Z) → Prop :=
| lr_init now d : (∀ name, view now d (prefixed prefix name) = None) → lease_reachable now d []
| lr_wait now now' d out : now ≤ now' → lease_reachable now d out → lease_reachable now' d out
| lr_acquire time net id scopes ttl d out :
    lease_reachable (now_ms time) d out →
    Forall (λ s, s.(ls_limit) ≤ Z.of_nat (bound (prefixed prefix s.(ls_name)))) scopes →
    (∀ p, p ∈ out → p.1.(le_id) ≠ id) →
    lease_reachable (now_ms time) (acquire prefix time net id scopes ttl d).2
      (grant (acquire prefix time net id scopes ttl d).1 (now_ms time + milliseconds ttl) out)
| lr_release time net l d out :
    lease_reachable (now_ms time) d out → Forall lease_key l.(le_keys) →
    lease_reachable (now_ms time) (release time net l d).2 (filter (λ p : Lease * Z, p.1.(le_id) ≠ l.(le_id)) out)
| lr_held time net name d out :
    lease_reachable (now_ms time) d out → lease_reachable (now_ms time) (held prefix time net name d).2 out
| lr_foreign now c d out :
    lease_reachable now d out → ¬ lease_key (key_of c) → lease_reachable now (call now c d).2 out.

Record lease_inv (now : Z) (d : db) (out : list (Lease * Z)) (a : slots) : Prop := {
  li_implements : implements lease_key now d a;
  li_bound : ∀ k, (size (occupied now a k) ≤ bound k)%nat;
  li_slots : ∀ p k, p ∈ out → k ∈ p.1.(le_keys) → a k !! p.1.(le_id) = Some p.2;
  li_ids : NoDup ((λ p : Lease * Z, p.1.(le_id)) <$> out);
}.

Lemma spec_acquire_bound now id scopes ttl a k :
  Forall (λ s, s.(ls_limit) ≤ Z.of_nat (bound (prefixed prefix s.(ls_name)))) scopes →
  (∀ k, (size (occupied now a k) ≤ bound k)%nat) →
  (size (occupied now (spec_acquire now id scopes ttl a).2 k) ≤ bound k)%nat.
Proof.
  intros Hs Hb. unfold spec_acquire. destruct (first_full _ _ _ _) as [|i] eqn:Ef; [|done].
  unfold occupied, take, until. simpl. case_decide as Hk; [|apply Hb].
  rewrite map_filter_insert_True by (simpl; pose proof (milliseconds_pos ttl); lia).
  apply first_full_room in Ef; [|done]. rewrite zip_scopes in Ef.
  apply list_elem_of_fmap in Hk as (s & -> & Hs'). apply Forall_fmap in Ef.
  rewrite Forall_forall in Ef, Hs. specialize (Ef s Hs'). specialize (Hs s Hs'). simpl in Ef, Hs.
  fold (until now (a (prefixed prefix (ls_name s)))). unfold occupied in Ef.
  destruct (until now (a (prefixed prefix (ls_name s))) !! id) eqn:E.
  - rewrite map_size_insert_Some by done. lia.
  - rewrite map_size_insert_None by done. lia.
Qed.

Lemma spec_acquire_other now id scopes ttl a k x : x ≠ id →
  (spec_acquire now id scopes ttl a).2 k !! x = a k !! x.
Proof.
  intros Hx. unfold spec_acquire. destruct (first_full _ _ _ _); [|done]. simpl. unfold take. case_decide; [|done].
  by rewrite lookup_insert_ne.
Qed.

Lemma lease_inv_wait now now' d out a : now ≤ now' → lease_inv now d out a → lease_inv now' d out a.
Proof.
  intros Hn [H1 H2 H3 H4]. split; try done; [by eapply implements_later|]. intros k. etrans; [|apply (H2 k)].
  apply map_subseteq_size. unfold occupied, until. intros x. apply map_filter_subseteq_ext. intros y s _. simpl. lia.
Qed.

Lemma lease_inv_acquire time net id scopes ttl d out a : lease_inv (now_ms time) d out a →
  Forall (λ s, s.(ls_limit) ≤ Z.of_nat (bound (prefixed prefix s.(ls_name)))) scopes → (∀ p, p ∈ out → p.1.(le_id) ≠ id) →
  ∃ a', lease_inv (now_ms time) (acquire prefix time net id scopes ttl d).2
    (grant (acquire prefix time net id scopes ttl d).1 (now_ms time + milliseconds ttl) out) a'.
Proof.
  intros [H1 H2 H3 H4] Hs Hid. destruct (acquire_any time net id scopes ttl d a H1) as (a' & Hi & Ha & Hl).
  assert (Hslots : ∀ p k, p ∈ out → k ∈ p.1.(le_keys) → a' k !! p.1.(le_id) = Some p.2).
  { intros p k Hp Hk. destruct Ha as [->| ->]; [by apply H3|]. rewrite spec_acquire_other by (by apply Hid). by apply H3. }
  exists a'. destruct (acquire _ _ _ _ _ _ d) as [r d'] eqn:Er. simpl in *. split; [done| | |].
  - intros k. destruct Ha as [->| ->]; [done|]. by apply spec_acquire_bound.
  - intros p k Hp Hk. unfold grant in Hp. destruct r as [[l|n]|]; try (by apply Hslots).
    apply elem_of_cons in Hp as [->|Hp]; [|by apply Hslots]. destruct (Hl l eq_refl) as [-> Hsp]. simpl in Hk |- *.
    unfold spec_acquire in Hsp. destruct (first_full _ _ _ _); [|done]. injection Hsp as <-. unfold take.
    rewrite decide_True by done. apply lookup_insert_eq.
  - unfold grant. destruct r as [[l|n]|]; try done. destruct (Hl l eq_refl) as [-> _]. apply NoDup_cons. split; [|done].
    intros (p & Hp & Hin)%list_elem_of_fmap. by apply (Hid p).
Qed.

Lemma lease_inv_release time net l d out a : lease_inv (now_ms time) d out a → Forall lease_key l.(le_keys) →
  ∃ a', lease_inv (now_ms time) (release time net l d).2 (filter (λ p : Lease * Z, p.1.(le_id) ≠ l.(le_id)) out) a'.
Proof.
  intros [H1 H2 H3 H4] Hl. destruct (release_any time net l d a H1 Hl) as (a' & Hi & Ha). exists a'. split; [done| | |].
  - intros k. destruct Ha as [->| ->]; [done|]. etrans; [|apply (H2 k)]. apply map_subseteq_size.
    unfold occupied, give_back. case_decide; [|done]. apply until_mono, delete_subseteq.
  - intros p k [Hne Hp]%list_elem_of_filter Hk. destruct Ha as [->| ->]; [by apply H3|]. unfold give_back.
    case_decide; [|by apply H3]. rewrite lookup_delete_ne by done. by apply H3.
  - apply (sublist_NoDup _ _ H4). apply fmap_sublist, sublist_filter.
Qed.

Lemma lease_reachable_inv now d out : lease_reachable now d out → ∃ a, lease_inv now d out a.
Proof.
  induction 1 as [now d Hd|now now' d out Hn _ [a IH]|time net id scopes ttl d out _ [a IH] Hs Hid
    |time net l d out _ [a IH] Hl|time net name d out _ [a IH]|now c d out _ [a IH] Hc].
  - exists (λ _, ∅). split; try done.
    + intros k [name ->]. rewrite Hd. split; [done|]. unfold live. by rewrite Hd.
    + intros k. unfold occupied, until. rewrite map_filter_empty, map_size_empty. lia.
    + by intros p k Hp%elem_of_nil.
    + constructor.
  - exists a. by eapply lease_inv_wait.
  - by eapply lease_inv_acquire.
  - by eapply lease_inv_release.
  - exists a. destruct IH as [H1 H2 H3 H4]. split; try done. by apply held_any.
  - exists a. destruct IH as [H1 H2 H3 H4]. split; try done. intros k Hk.
    assert (Hv : view now (call now c d).2 k = view now d k).
    { rewrite call_view by lia. rewrite decide_False by (by intros ->). apply view_left. }
    unfold live. rewrite Hv. apply (H1 k Hk).
Qed.

(** Leases never exceed their limit.  Whatever instances acquire, release,
    crash and wait, whichever calls the network loses before or after the server
    ran them, and whatever other components do with their own keys: at every
    instant the leases of a scope that were returned to somebody, not released
    and not past their deadline are at most the highest limit the scope was
    acquired with. *)
Theorem leases_bounded (now : Z) (d : db) (out : list (Lease * Z)) (k : string) :
  lease_reachable now d out →
  (length (filter (λ p : Lease * Z, k ∈ p.1.(le_keys) ∧ (now < p.2)%Z) out) ≤ bound k)%nat.
Proof.
  intros [a [H1 H2 H3 H4]]%lease_reachable_inv. etrans; [|apply (H2 k)].
  set (mine := filter _ out). rewrite <- (length_fmap (λ p : Lease * Z, p.1.(le_id))), <- size_dom.
  rewrite <- (size_list_to_set (C := gset string)).
  2:{ apply (sublist_NoDup _ _ H4), fmap_sublist, sublist_filter. }
  apply subseteq_size. intros x (p & -> & [[Hk Hn] Hp]%list_elem_of_filter)%elem_of_list_to_set%list_elem_of_fmap.
  apply elem_of_dom. exists p.2. apply map_lookup_filter_Some. split; [by apply H3|done].
Qed.

(** An acquisition takes a slot in every scope or in none.  An acquisition
    that reaches Redis is granted exactly if every scope has fewer live members
    than its limit; then it has a slot of each until its deadline.  Otherwise it
    names a full scope and no scope changes. *)
Theorem acquire_all_or_none (time : Z * Z) (d : db) (out : list (Lease * Z)) (id : string) (scopes : list LeaseScope) (ttl : Q) :
  lease_reachable (now_ms time) d out → valid_acquire scopes ttl →
  let now := now_ms time in
  let r := acquire prefix time Delivered id scopes ttl d in
  let room s := Z.of_nat (size (live now d (prefixed prefix s.(ls_name)))) < s.(ls_limit) in
  (Forall room scopes ∧ r.1 = Ok (Acquired (mkLease id (scope_keys scopes))) ∧
   ∀ k, lease_key k → live now r.2 k =
     if decide (k ∈ scope_keys scopes) then <[id := now + milliseconds ttl]> (live now d k) else live now d k) ∨
  (∃ s, s ∈ scopes ∧ ¬ room s ∧ r.1 = Ok (LeaseRefusal s.(ls_name)) ∧ ∀ k, lease_key k → live now r.2 k = live now d k).
Proof.
  intros [a [H1 _ _ _]]%lease_reachable_inv Hv now r room.
  destruct (acquire_implements time id scopes ttl d a H1 Hv) as (d' & Hr & Hi). subst r. rewrite Hr. simpl. clear Hr.
  assert (Hroom : ∀ s, room s ↔ Z.of_nat (size (occupied now a (prefixed prefix s.(ls_name)))) < s.(ls_limit)).
  { intros s. unfold room, now. by rewrite (proj2 (H1 _ (ex_intro _ s.(ls_name) eq_refl))). }
  revert Hi. unfold spec_acquire. fold now. destruct (first_full _ _ _ _) as [|i] eqn:Ef; simpl; intros Hi.
  - left. apply first_full_room in Ef; [|done]. rewrite zip_scopes in Ef. apply Forall_fmap in Ef. split; [|split; [done|]].
    + eapply Forall_impl; [exact Ef|]. intros s Hs. by apply Hroom.
    + intros k Hk. unfold now in *. rewrite (proj2 (Hi k Hk)), (proj2 (H1 k Hk)). unfold occupied, take, until. case_decide; [|done].
      rewrite map_filter_insert_True; [done|]. simpl. pose proof (milliseconds_pos ttl). lia.
  - right. apply first_full_spec in Ef as (_ & p & Hp & Hfull); [|done]. rewrite zip_scopes in Hp.
    replace (S i - 1)%nat with i in Hp by lia. apply list_lookup_fmap_Some in Hp as (s & -> & Hs).
    exists s. split; [by eapply list_elem_of_lookup_2|]. simpl in Hfull. split; [rewrite Hroom; lia|].
    rewrite Hs. split; [done|]. intros k Hk. unfold now in *. by rewrite (proj2 (Hi k Hk)), (proj2 (H1 k Hk)).
Qed.
End History.

(** ** A concrete history *)

Definition ldemo_scopes : list LeaseScope := [mkScope "tenant" 1; mkScope "all" 2].
Definition ldemo_acquire (net : network) (id : string) (d : gmap string rentry) : result limit_error acquired * gmap string rentry :=
  acquire "lease" (100, 0) net id ldemo_scopes (3 # 2) d.
Definition ldemo_bound (k : string) : nat := if decide (k = "lease:tenant"%string) then 1 else 2.
Definition ldemo_db : gmap string rentry := (ldemo_acquire Delivered "a" ∅).2.
Definition ldemo_out : list (Lease * Z) := [(mkLease "a" ["lease:tenant"; "lease:all"]%string, 101500)].

(** The slot is taken until its deadline, and free afterwards. *)
Example ldemo_run :
  (ldemo_acquire Delivered "b" ldemo_db).1 = Ok (LeaseRefusal "tenant") ∧
  (acquire "lease" (101, 499999) Delivered "b" ldemo_scopes 1 ldemo_db).1 = Ok (LeaseRefusal "tenant") ∧
  (acquire "lease" (101, 500000) Delivered "b" ldemo_scopes 1 ldemo_db).1 =
    Ok (Acquired (mkLease "b" ["lease:tenant"; "lease:all"]%string)) ∧
  (ldemo_acquire Unanswered "b" ∅).1 = Raise (RateLimitBackendError "lease") ∧
  (ldemo_acquire Delivered "c" (ldemo_acquire Unanswered "b" ∅).2).1 = Ok (LeaseRefusal "tenant").
Proof. split_and!; vm_compute; reflexivity. Qed.

Lemma ldemo_reachable : lease_reachable "lease" ldemo_bound 100000 ldemo_db ldemo_out.
Proof.
  change 100000 with (now_ms (100, 0)).
  replace ldemo_out with (grant (ldemo_acquire Delivered "a" ∅).1 (now_ms (100, 0) + milliseconds (3 # 2)) [])
    by (vm_compute; reflexivity).
  apply (lr_acquire "lease" ldemo_bound (100, 0) Delivered "a" ldemo_scopes (3 # 2) ∅ []).
  - apply lr_init. intros name. done.
  - repeat constructor; vm_compute; done.
  - by intros p Hp%elem_of_nil.
Qed.

Lemma leases_bounded_witness :
  (length (filter (λ p : Lease * Z, "lease:tenant"%string ∈ p.1.(le_keys) ∧ (100000 < p.2)%Z) ldemo_out) ≤ 1)%nat.
Proof. exact (leases_bounded "lease" ldemo_bound 100000 ldemo_db ldemo_out "lease:tenant" ldemo_reachable). Defined.

Lemma acquire_all_or_none_witness :
  (ldemo_acquire Delivered "b" ldemo_db).1 = Ok (LeaseRefusal "tenant").
Proof.
  destruct (acquire_all_or_none "lease" ldemo_bound (100, 0) ldemo_db ldemo_out "b" ldemo_scopes (3 # 2)) as [(_ & H & _)|H].
  - exact ldemo_reachable.
  - split; [done|]. split; [|reflexivity]. repeat constructor; done.
  - exfalso. vm_compute in H. discriminate H.
  - vm_compute. reflexivity.
Defined.
