(* ===== verification/LimiterProofs.v ===== *)
(** * The limiter and the circuit breaker over all histories

    In any interval as long as the window at most twice the configured requests
    are allowed, and a limit never outlives its window; a circuit opens only
    after the configured number of failures without a success between, and does
    open then. *)

From Stdlib Require Import QArith.
From S2P Require Import Prelude Redis RateLimit.
#[local] Open Scope Z_scope.

Section Limiter.
Context {db : Type} `{!Redis db} `{!RedisLaws db} (cfg : RateLimitConfig) (key : string).
Abbreviation K := (prefixed cfg.(rl_key_prefix) key).
Abbreviation N := cfg.(rl_requests_per_window).
Abbreviation L := (1000 * cfg.(rl_window_seconds)).
Hypothesis Hcfg : ratelimit_post_init cfg = Ok tt.

Lemma cfg_bounds : 1 ≤ N ∧ 1000 ≤ L.
Proof.
  unfold ratelimit_post_init, result_bind, raise_if in Hcfg.
  destruct (N <? 1) eqn:E1; [done|]. destruct (rl_window_seconds cfg <? 1) eqn:E2; [done|]. reflect_bools. lia.
Qed.

(** ** One request *)

(** The counter of the next request, and the deadline of its window. *)
Definition next_count (now : Z) (e : option rentry) : Z * Z :=
  match e with
  | Some (mkEntry (RString n) (Some t)) => (n + 1, t)
  | Some (mkEntry (RString n) None) => (n + 1, now + L)
  | _ => (1, now + L)
  end.

(** A counter that may be incremented; one of zero has no deadline. *)
Definition countable (e : option rentry) : Prop :=
  match e with
  | None => True
  | Some (mkEntry (RString n) t) => 1 ≤ n < MAX_INT64
  | Some (mkEntry (RZset _) _) => False
  end.

Lemma ttl_not_negative ms : 0 ≤ ms → 0 ≤ ttl_seconds ms.
Proof. intros H. destruct (ttl_seconds_round ms H) as [H1 _]. pose proof (Z.div_pos ms 1000). lia. Qed.

(** The entry after the increment has a deadline: the script leaves it. *)
Lemma increment_kept now (d1 : db) n t : 1 < n → view now d1 K = Some (mkEntry (RString n) (Some t)) →
  ∃ d2, (do* ttl := call_int now (TTL K) in
         if (n =? 1) || (ttl =? -1) then
           do* _ := call now (EXPIRE K cfg.(rl_window_seconds)) in
           do* ttl := call_int now (TTL K) in ret (n, ttl)
         else ret (n, ttl)) d1 = (Ok (n, ttl_seconds (t - now)), d2) ∧
    ∀ k, view now d2 k = view now d1 k.
Proof.
  intros Hn Hv. assert (Ht : now ≤ t).
  { pose proof (not_gone now d1 K _ t Hv) as Hg. destruct (Z.le_gt_cases now t); [done|]. by rewrite gone_after in Hg by lia. }
  destruct (call_int_own now (TTL K) d1 (ttl_seconds (t - now)) (view now d1 K)) as (d2 & Hc & Hv2 & Ho).
  { simpl. rewrite Hv. simpl. by rewrite (proj2 (Z.ltb_ge (t - now) 0)) by lia. }
  exists d2. split.
  - unfold bind at 1. rewrite Hc. pose proof (ttl_not_negative (t - now) ltac:(lia)).
    rewrite (proj2 (Z.eqb_neq n 1)), (proj2 (Z.eqb_neq _ (-1))) by lia. done.
  - intros k. destruct (decide (k = K)) as [->|Hk]; [|by apply Ho]. simpl in Hv2. by rewrite Hv2, view_left.
Qed.

(** It has none: the script sets one. *)
Lemma increment_started now (d1 : db) n : 1 ≤ n → view now d1 K = Some (mkEntry (RString n) None) →
  ∃ d2, (do* ttl := call_int now (TTL K) in
         if (n =? 1) || (ttl =? -1) then
           do* _ := call now (EXPIRE K cfg.(rl_window_seconds)) in
           do* ttl := call_int now (TTL K) in ret (n, ttl)
         else ret (n, ttl)) d1 = (Ok (n, ttl_seconds L), d2) ∧
    view now d2 K = Some (mkEntry (RString n) (Some (now + L))) ∧ ∀ k, k ≠ K → view now d2 k = view now d1 k.
Proof.
  intros Hn Hv. destruct cfg_bounds as [_ HL].
  destruct (call_int_own now (TTL K) d1 (-1) (view now d1 K)) as (d2 & Hc & Hv2 & Ho); [simpl; by rewrite Hv|].
  simpl in Hv2. rewrite view_left, Hv in Hv2.
  destruct (call_own now (EXPIRE K cfg.(rl_window_seconds)) d2 (reply 1) (Some (mkEntry (RString n) (Some (now + L)))))
    as (d3 & Hc3 & Hv3 & Ho3).
  { simpl. rewrite Hv2. cbn [expire_in]. rewrite (proj2 (Z.leb_gt L 0)) by lia. done. }
  simpl in Hv3. rewrite (gone_before now (now + _)) in Hv3 by lia.
  destruct (call_int_own now (TTL K) d3 (ttl_seconds L) (view now d3 K)) as (d4 & Hc4 & Hv4 & Ho4).
  { simpl. rewrite Hv3. unfold time_to_live, en_expires_at. replace (now + L - now) with L by lia.
    by rewrite (proj2 (Z.ltb_ge L 0)) by lia. }
  exists d4. split_and!.
  - unfold bind at 1. rewrite Hc. rewrite orb_true_r. unfold bind at 1. rewrite Hc3. simpl. unfold bind. by rewrite Hc4.
  - simpl in Hv4. by rewrite Hv4, view_left.
  - intros k Hk. simpl in *. by rewrite Ho4, Ho3, Ho.
Qed.

Lemma increment_spec now (d : db) : countable (view now d K) →
  ∃ ttl d', INCREMENT_SCRIPT now K cfg.(rl_window_seconds) d = (Ok ((next_count now (view now d K)).1, ttl), d') ∧
    view now d' K = Some (mkEntry (RString (next_count now (view now d K)).1) (Some (next_count now (view now d K)).2)) ∧
    (∀ k, k ≠ K → view now d' k = view now d k) ∧ ttl = ttl_seconds ((next_count now (view now d K)).2 - now).
Proof.
  intros Hc. unfold INCREMENT_SCRIPT.
  assert (∃ t, effect ttl_seconds now (INCR K) (view now d K) =
     (reply (next_count now (view now d K)).1, Some (mkEntry (RString (next_count now (view now d K)).1) t)) ∧
     1 ≤ (next_count now (view now d K)).1 ∧
     match t with
     | Some t => 1 < (next_count now (view now d K)).1 ∧ (next_count now (view now d K)).2 = t ∧ gone now t = false
     | None => (next_count now (view now d K)).2 = now + L
     end) as (t & He & H1 & Ht).
  { destruct (view now d K) as [[[n|m] [t|]]|] eqn:Ev; simpl in Hc |- *; try done.
    - rewrite (proj2 (Z.ltb_lt n MAX_INT64)) by lia. exists (Some t). split_and!; try done; try lia. by eapply not_gone.
    - rewrite (proj2 (Z.ltb_lt n MAX_INT64)) by lia. exists None. split_and!; try done; lia.
    - by exists None. }
  destruct (call_int_own now (INCR K) d _ _ He) as (d1 & Hi & Hv1 & Ho1). simpl in Hv1, Ho1.
  unfold bind at 1. rewrite Hi. destruct t as [t|].
  - destruct Ht as (Hlt & Hnt & Hg). simpl in Hv1. rewrite Hg in Hv1.
    destruct (increment_kept now d1 _ t Hlt Hv1) as (d2 & Hr & Ho2).
    eexists _, d2. split; [exact Hr|]. rewrite Ho2, Hv1, Hnt. split_and!; try done. intros k Hk. by rewrite Ho2, Ho1.
  - simpl in Hv1. destruct (increment_started now d1 _ H1 Hv1) as (d2 & Hr & Hv2 & Ho2).
    eexists _, d2. split; [exact Hr|]. rewrite Hv2, Ht. split_and!; try done.
    + intros k Hk. by rewrite Ho2, Ho1.
    + f_equal. lia.
Qed.

(** A counter at the end of its range refuses the increment. *)
Lemma increment_overflow now (d : db) n t : view now d K = Some (mkEntry (RString n) t) → MAX_INT64 ≤ n →
  ∃ d', INCREMENT_SCRIPT now K cfg.(rl_window_seconds) d = (Raise OUT_OF_RANGE, d') ∧ ∀ k, view now d' k = view now d k.
Proof.
  intros Hv Hn. destruct (call_own now (INCR K) d (Raise OUT_OF_RANGE) (view now d K)) as (d' & Hc & Hv' & Ho).
  { simpl. rewrite Hv. by rewrite (proj2 (Z.ltb_ge n MAX_INT64)) by lia. }
  exists d'. split; [unfold INCREMENT_SCRIPT, call_int, bind; by rewrite Hc|].
  intros k. destruct (decide (k = K)) as [->|Hk]; [|by apply Ho]. simpl in Hv'. by rewrite Hv', view_left.
Qed.

Definition counter (e : option rentry) : Prop :=
  match e with None => True | Some (mkEntry (RString n) _) => 1 ≤ n | _ => False end.

(** A request is not counted and refused, or counted and allowed by its number. *)
Lemma check_any now net (d : db) : counter (view now d K) →
  let r := check_rate_limit cfg now net key d in
  (∀ k, k ≠ K → view now r.2 k = view now d k) ∧
  ((view now r.2 K = view now d K ∧ ∀ a, r.1 ≠ Ok a) ∨
   (view now r.2 K = Some (mkEntry (RString (next_count now (view now d K)).1) (Some (next_count now (view now d K)).2)) ∧
    ∀ a, r.1 = Ok a → a.(rr_allowed) = ((next_count now (view now d K)).1 <=? N))).
Proof.
  intros Hc. simpl. unfold check_rate_limit, bind, on_redis_error, remote.
  assert ((∃ n t, view now d K = Some (mkEntry (RString n) t) ∧ MAX_INT64 ≤ n) ∨ countable (view now d K)) as [(n & t & Hv & Hn)|Hok].
  { destruct (view now d K) as [[[n|] t]|]; simpl in *; try done; [|by right].
    destruct (Z.le_gt_cases MAX_INT64 n); [left; by exists n, t|right; lia]. }
  - destruct (increment_overflow now d n t Hv Hn) as (d' & Hs & Ho).
    destruct net; [| |]; try (rewrite Hs; simpl); (split; [intros; by rewrite ?Ho|left; by rewrite ?Ho]).
  - destruct (increment_spec now d Hok) as (ttl & d' & Hs & Hv & Ho & _). destruct net.
    + rewrite Hs. simpl. split; [done|]. right. split; [done|]. intros a [= <-].
      rewrite Z.leb_antisym. by destruct (N <? _).
    + split; [done|]. left. by split.
    + rewrite Hs. simpl. split; [done|]. right. by split.
Qed.

(** ** All histories *)

Definition note_allowed (r : result limit_error RateLimitResult) (now : Z) (ev : list Z) : list Z :=
  match r with Ok a => if a.(rr_allowed) then now :: ev else ev | Raise _ => ev end.

(** [ev]: the instants of the requests that were allowed, latest first. *)
Inductive limit_reachable : Z → db → list Z → Prop :=
| lm_init now d : view now d K = None → limit_reachable now d []
| lm_wait now now' d ev : now ≤ now' → limit_reachable now d ev → limit_reachable now' d ev
| lm_check now net d ev : limit_reachable now d ev →
    limit_reachable now (check_rate_limit cfg now net key d).2 (note_allowed (check_rate_limit cfg now net key d).1 now ev)
| lm_other now c d ev : limit_reachable now d ev → key_of c ≠ K ∨ c = GET K ∨ c = TTL K →
    limit_reachable now (call now c d).2 ev.

Definition during (a : Z) (ev : list Z) : nat := length (filter (λ t, a ≤ t < a + L) ev).

(** [cur]: the allowed requests of the latest window, which starts at [s]. *)
Record window_inv (now : Z) (d : db) (s : Z) (cur old : list Z) : Prop := {
  wi_view : (∃ n, view now d K = Some (mkEntry (RString n) (Some (s + L))) ∧ 1 ≤ n ∧ Z.of_nat (length cur) ≤ n ∧ s ≤ now) ∨
            (view now d K = None ∧ s + L ≤ now);
  wi_cur : Forall (λ t, s ≤ t ≤ now) cur;
  wi_count : Z.of_nat (length cur) ≤ N;
  wi_old : Forall (λ t, t ≤ s) old;
  wi_previous : Z.of_nat (length (filter (λ t, s - L < t) old)) ≤ N;
  wi_before : ∀ a, Z.of_nat (during a old) ≤ 2 * N;
}.

Lemma during_app a l l' : during a (l ++ l') = (during a l + during a l')%nat.
Proof. unfold during. by rewrite filter_app, length_app. Qed.

(** Two windows meet an interval of their length at most. *)
Lemma window_bound now d s cur old a : window_inv now d s cur old → Z.of_nat (during a (cur ++ old)) ≤ 2 * N.
Proof.
  intros [_ Hcur Hn Hold Hprev Hbef]. rewrite during_app.
  destruct (decide (during a cur = 0%nat)) as [E|E]; [rewrite E; apply Hbef|].
  assert (Hs : s - L < a).
  { destruct (filter (λ t, a ≤ t < a + L) cur) as [|t l] eqn:Ef; [unfold during in E; by rewrite Ef in E|].
    assert (Ht : t ∈ filter (λ t, a ≤ t < a + L) cur) by (rewrite Ef; left).
    apply list_elem_of_filter in Ht as [Ht Hin]. rewrite Forall_forall in Hcur. specialize (Hcur t Hin). lia. }
  assert ((during a old ≤ length (filter (λ t, (s - L < t)%Z) old))%nat) as Hle.
  { unfold during. clear - Hs. induction old as [|t old IH]; [done|]. rewrite !filter_cons.
    repeat case_decide; simpl; try lia. }
  pose proof (length_filter (λ t, a ≤ t < a + L) cur). unfold during at 1. lia.
Qed.

Lemma window_wait now now' d s cur old : now ≤ now' → window_inv now d s cur old → window_inv now' d s cur old.
Proof.
  intros Hn [Hv Hcur Hc Hold Hp Hb]. split; try done.
  - rewrite (view_later now now') by done. destruct Hv as [(n & Hv & H1 & H2 & H3)|[Hv Hs]]; rewrite Hv; simpl.
    + destruct (gone now' (s + L)) eqn:Eg; [right|left; exists n; split_and!; try done; lia].
      split; [done|]. destruct (Z.le_gt_cases (s + L) now'); [done|]. by rewrite gone_before in Eg by lia.
    + right. split; [done|lia].
  - eapply Forall_impl; [exact Hcur|]. simpl. lia.
Qed.

(** A new window: the latest one becomes the previous. *)
Lemma window_next now d d' s cur old cur' : window_inv now d s cur old → s + L ≤ now →
  view now d' K = Some (mkEntry (RString 1) (Some (now + L))) → cur' = [] ∨ cur' = [now] →
  window_inv now d' now cur' (cur ++ old).
Proof.
  intros Hi Hs Hv Hcur'. pose proof cfg_bounds as [HN HL]. pose proof Hi as [_ Hcur Hc Hold Hp Hb].
  split.
  - left. exists 1. split_and!; try done. by destruct Hcur' as [->| ->].
  - destruct Hcur' as [->| ->]; repeat constructor; lia.
  - destruct Hcur' as [->| ->]; simpl; lia.
  - apply Forall_app. split; eapply Forall_impl; [exact Hcur| |exact Hold|]; simpl; lia.
  - rewrite filter_app, length_app.
    assert (filter (λ t, now - L < t) old = []) as ->.
    { clear - Hold Hs. induction Hold as [|t old Ht _ IH]; [done|]. rewrite filter_cons, decide_False by lia. done. }
    pose proof (length_filter (λ t, (now - L < t)%Z) cur). simpl. lia.
  - intros a. by eapply window_bound.
Qed.

Lemma window_check now net d s cur old : window_inv now d s cur old →
  ∃ s' cur' old', note_allowed (check_rate_limit cfg now net key d).1 now (cur ++ old) = cur' ++ old' ∧
    window_inv now (check_rate_limit cfg now net key d).2 s' cur' old'.
Proof.
  intros Hi. pose proof Hi as [Hv Hcur Hc Hold Hp Hb]. pose proof cfg_bounds as [HN HL].
  assert (Hctr : counter (view now d K)) by (destruct Hv as [(n & -> & ? & _)|[-> _]]; done).
  destruct (check_any now net d Hctr) as [_ [[Hsame Hraise]|[Hnew Hok]]];
    destruct (check_rate_limit cfg now net key d) as [r d'] eqn:Er; simpl in *.
  { exists s, cur, old. split.
    - destruct r as [a|]; [by destruct (Hraise a)|done].
    - split; try done. by rewrite Hsame. }
  destruct Hv as [(n & Hv & H1 & H2 & H3)|[Hv Hs]]; rewrite Hv in Hnew, Hok; simpl in Hnew, Hok.
  - exists s. assert (Hkeep : ∀ cur', cur' = cur ∨ (cur' = now :: cur ∧ n + 1 ≤ N) → window_inv now d' s cur' old).
    { intros cur' H. split; try done.
      - left. exists (n + 1). split_and!; try done; [lia|]. destruct H as [->|[-> _]]; simpl; lia.
      - destruct H as [->|[-> _]]; [done|]. constructor; [lia|done].
      - destruct H as [->|[-> ?]]; simpl; lia. }
    destruct r as [a|e]; simpl; [|exists cur, old; split; [done|apply Hkeep; by left]].
    rewrite (Hok a eq_refl). destruct (n + 1 <=? N) eqn:El; reflect_bools.
    + exists (now :: cur), old. split; [done|]. apply Hkeep. by right.
    + exists cur, old. split; [done|]. apply Hkeep. by left.
  - exists now. destruct r as [a|e]; simpl.
    + rewrite (Hok a eq_refl), (proj2 (Z.leb_le 1 N)) by lia. exists [now], (cur ++ old). split; [done|].
      eapply window_next; eauto.
    + exists [], (cur ++ old). split; [done|]. eapply window_next; eauto.
Qed.

Lemma limit_reachable_inv now d ev : limit_reachable now d ev → ∃ s cur old, ev = cur ++ old ∧ window_inv now d s cur old.
Proof.
  pose proof cfg_bounds as [HN HL].
  induction 1 as [now d Hd|now now' d ev Hn _ (s & cur & old & -> & IH)|now net d ev _ (s & cur & old & -> & IH)
    |now c d ev _ (s & cur & old & -> & IH) Hc].
  - exists (now - L), [], []. split; [done|]. split; try done; simpl; try lia.
    + right. split; [done|lia].
    + intros a. unfold during. simpl. lia.
  - exists s, cur, old. split; [done|]. by eapply window_wait.
  - destruct (window_check now net d s cur old IH) as (s' & cur' & old' & H1 & H2). by exists s', cur', old'.
  - exists s, cur, old. split; [done|]. destruct IH as [Hv Hrest]. split; try done.
    assert (view now (call now c d).2 K = view now d K) as ->; [|done].
    rewrite call_view by lia. case_decide as Hk; [|by rewrite view_left].
    assert ((effect ttl_seconds now c (view now d K)).2 = view now d K) as ->; [|apply view_left].
    destruct Hc as [Hc|[->| ->]]; [done| |done]. by destruct Hv as [(n & -> & _)|[-> _]].
Qed.

(** C40: a limit holds in every interval.  Whatever clients ask and whichever
    calls the network loses, in any interval as long as the window at most twice
    the configured number of requests are allowed. *)
Theorem rate_bounded (now : Z) (d : db) (ev : list Z) (a : Z) : limit_reachable now d ev →
  Z.of_nat (during a ev) ≤ 2 * cfg.(rl_requests_per_window).
Proof. intros (s & cur & old & -> & Hi)%limit_reachable_inv. by eapply window_bound. Qed.

(** A limit does not outlive its window.  After any request, even on a
    counter that was left without a deadline, and with the reply lost or not, a
    request after the window has passed is allowed and starts a new count. *)
Theorem limit_recovers (now now' : Z) (net : network) (d : db) :
  countable (view now d K) → (∀ v t, view now d K = Some (mkEntry v (Some t)) → t ≤ now + L) →
  net ≠ Lost → now + L < now' →
  ∃ retry_after d', check_rate_limit cfg now' Delivered key (check_rate_limit cfg now net key d).2 =
    (Ok (mkRateLimitResult true (N - 1) retry_after), d') ∧ 0 < retry_after ≤ cfg.(rl_window_seconds).
Proof.
  intros Hc Ht Hnet Hn. pose proof cfg_bounds as [HN HL].
  destruct (increment_spec now d Hc) as (ttl & d1 & Hs & Hv & _ & _).
  assert (Hv1 : view now' d1 K = None).
  { rewrite (view_later now now'), Hv by lia. simpl. rewrite gone_after; [done|].
    destruct (view now d K) as [[[n|] [t|]]|] eqn:Ev; simpl; try lia. specialize (Ht _ _ eq_refl). lia. }
  assert ((check_rate_limit cfg now net key d).2 = d1) as ->.
  { unfold check_rate_limit, bind, on_redis_error, remote. destruct net; [|done|]; by rewrite Hs. }
  destruct (increment_spec now' d1) as (ttl' & d2 & Hs' & _ & _ & Httl); [by rewrite Hv1|].
  rewrite Hv1 in Hs', Httl. simpl in Hs', Httl. replace (now' + L - now') with L in Httl by lia.
  assert (Hsec : ttl' = cfg.(rl_window_seconds)).
  { subst ttl'. destruct (ttl_seconds_round L ltac:(lia)) as [H1 H2].
    replace (L / 1000) with cfg.(rl_window_seconds) in H1 by (symmetry; rewrite Z.mul_comm; apply Z.div_mul; lia).
    replace ((L + 999) / 1000) with cfg.(rl_window_seconds) in H2; [lia|].
    symmetry. rewrite Z.mul_comm. rewrite Z.div_add_l by lia. change (999 / 1000) with 0. lia. }
  eexists _, d2. unfold check_rate_limit, bind, on_redis_error, remote. rewrite Hs'. unfold ret.
  rewrite (proj2 (Z.ltb_ge N 1)) by lia. split; [done|]. destruct (0 <? ttl'); lia.
Qed.
End Limiter.

(** ** The circuit breaker *)

Lemma string_app_cancel (s a b : string) : s +:+ a = s +:+ b → a = b.
Proof. induction s as [|c s IH]; simpl; [done|]. intros [= H]. by apply IH. Qed.

Section Circuit.
Context {db : Type} `{!Redis db} `{!RedisLaws db} (b : SharedCircuitBreaker) (name : string).
Abbreviation F := (failures_key b name).
Abbreviation O := (open_key b name).

Record circuit_valid : Prop := {
  cv_threshold : 1 ≤ b.(cb_threshold) ≤ MAX_INT64;
  cv_window : 1 ≤ b.(cb_window_ms);
  cv_open : 1 ≤ b.(cb_open_ms);
}.
Hypothesis Hb : circuit_valid.

Lemma keys_differ : F ≠ O.
Proof. unfold failures_key, open_key. by intros H%string_app_cancel. Qed.

(** The count of the next failure, and the deadline of its run. *)
Definition next_failure (now : Z) (e : option rentry) : Z * Z :=
  match e with
  | Some (mkEntry (RString n) (Some t)) => (n + 1, t)
  | _ => (1, now + b.(cb_window_ms))
  end.
Definition failing (e : option rentry) : Prop :=
  match e with
  | None => True
  | Some (mkEntry (RString n) (Some t)) => 1 ≤ n < b.(cb_threshold)
  | _ => False
  end.

Definition failure_script (now : Z) : M db redis_error Z :=
  FAILURE_SCRIPT now F O b.(cb_threshold) b.(cb_window_ms) b.(cb_open_ms).

Lemma failure_count now (d : db) : failing (view now d F) →
  ∃ d', (do* count := call_int now (INCR F) in
         do* _ := if count =? 1 then call now (PEXPIRE F b.(cb_window_ms)) else ret None in ret count) d =
        (Ok (next_failure now (view now d F)).1, d') ∧
    view now d' F = Some (mkEntry (RString (next_failure now (view now d F)).1) (Some (next_failure now (view now d F)).2)) ∧
    ∀ k, k ≠ F → view now d' k = view now d k.
Proof.
  intros Hf. destruct Hb as [Ht Hw _]. destruct (view now d F) as [[[n|] [t|]]|] eqn:Ev; simpl in Hf; try done; simpl.
  - destruct (call_int_own now (INCR F) d (n + 1) (Some (mkEntry (RString (n + 1)) (Some t)))) as (d1 & Hc & Hv & Ho).
    { simpl. rewrite Ev. by rewrite (proj2 (Z.ltb_lt n MAX_INT64)) by lia. }
    exists d1. unfold bind. rewrite Hc, (proj2 (Z.eqb_neq (n + 1) 1)) by lia. split_and!; try done.
    simpl in Hv. rewrite (not_gone now d F _ t Ev) in Hv. done.
  - destruct (call_int_own now (INCR F) d 1 (Some (mkEntry (RString 1) None))) as (d1 & Hc & Hv & Ho); [simpl; by rewrite Ev|].
    simpl in Hv. destruct (call_own now (PEXPIRE F b.(cb_window_ms)) d1 (reply 1)
      (Some (mkEntry (RString 1) (Some (now + b.(cb_window_ms)))))) as (d2 & Hc2 & Hv2 & Ho2).
    { simpl. rewrite Hv. simpl. by rewrite (proj2 (Z.leb_gt _ 0)) by lia. }
    exists d2. unfold bind. rewrite Hc. simpl. rewrite Hc2. split_and!; try done.
    + simpl in Hv2. rewrite gone_before in Hv2 by lia. done.
    + intros k Hk. simpl in *. by rewrite Ho2, Ho.
Qed.

Lemma failure_script_spec now (d : db) : failing (view now d F) →
  let next := next_failure now (view now d F) in
  ∃ d', (∀ k, k ≠ F → k ≠ O → view now d' k = view now d k) ∧
    if b.(cb_threshold) <=? next.1
    then failure_script now d = (Ok 1, d') ∧ view now d' F = None ∧
         view now d' O = Some (mkEntry (RString 1) (Some (now + b.(cb_open_ms))))
    else failure_script now d = (Ok 0, d') ∧ view now d' F = Some (mkEntry (RString next.1) (Some next.2)) ∧
         view now d' O = view now d O.
Proof.
  intros Hf. simpl. destruct (failure_count now d Hf) as (d1 & Hc & Hv & Ho).
  set (next := next_failure now (view now d F)) in *.
  assert (Hs : ∀ r, (if b.(cb_threshold) <=? next.1 then
      do* _ := call now (SET_PX O 1 b.(cb_open_ms)) in do* _ := call now (DEL F) in ret 1 else ret 0) d1 = r →
      failure_script now d = r).
  { intros r <-. revert Hc. unfold failure_script, FAILURE_SCRIPT. unfold bind at 1. unfold bind at 2.
    destruct (call_int now (INCR F) d) as [[n|] d0]; [|done]. unfold bind at 1. unfold bind at 1.
    destruct (n =? 1); [destruct (call now _ d0) as [[x|] d3]; [|done]|]; by intros [= -> ->]. }
  destruct (b.(cb_threshold) <=? next.1).
  - destruct (call_own now (SET_PX O 1 b.(cb_open_ms)) d1 (reply 1) (Some (mkEntry (RString 1) (Some (now + b.(cb_open_ms))))))
      as (d2 & Hc2 & Hv2 & Ho2); [done|]. simpl in Hv2, Ho2. rewrite gone_before in Hv2 by (destruct Hb; lia).
    destruct (call_own now (DEL F) d2 (reply 1) None) as (d3 & Hc3 & Hv3 & Ho3).
    { simpl. rewrite Ho2 by apply keys_differ. by rewrite Hv. }
    simpl in Hv3, Ho3. exists d3. split; [intros k H1 H2; by rewrite Ho3, Ho2, Ho|]. split_and!.
    + apply Hs. unfold bind. by rewrite Hc2, Hc3.
    + done.
    + rewrite Ho3 by (apply not_eq_sym, keys_differ). done.
  - exists d1. split; [intros k H1 H2; by apply Ho|]. split_and!; [by apply Hs|done|]. apply Ho, not_eq_sym, keys_differ.
Qed.

(** *** All histories *)

(** What the server ran, latest first: a failure and whether it opened the
    circuit, or a success. *)
Inductive circuit_event : Type := Failed (opened : bool) | Succeeded.

Fixpoint since_success (h : list (Z * circuit_event)) : list (Z * bool) :=
  match h with
  | (t, Failed opened) :: h => (t, opened) :: since_success h
  | _ => []
  end.

Definition ran (net : network) : bool := match net with Lost => false | _ => true end.
Definition opens (now : Z) (d : db) : bool := match (failure_script now d).1 with Ok 1 => true | _ => false end.

Inductive circuit_reachable : Z → db → list (Z * circuit_event) → Prop :=
| cr_init now d : view now d F = None → view now d O = None → circuit_reachable now d []
| cr_wait now now' d h : now ≤ now' → circuit_reachable now d h → circuit_reachable now' d h
| cr_failure now net d h : circuit_reachable now d h →
    circuit_reachable now (failure b now net name d).2 (if ran net then (now, Failed (opens now d)) :: h else h)
| cr_success now net d h : circuit_reachable now d h →
    circuit_reachable now (success b now net name d).2 (if ran net then (now, Succeeded) :: h else h)
| cr_is_open now net d h : circuit_reachable now d h → circuit_reachable now (is_open b now net name d).2 h
| cr_other now c d h : circuit_reachable now d h → key_of c ≠ F → key_of c ≠ O → circuit_reachable now (call now c d).2 h.

Definition recent (since : Z) (h : list (Z * circuit_event)) : nat :=
  length (filter (λ p : Z * bool, since ≤ p.1) (since_success h)).

(** The counter counts failures of the latest run within its window, and the
    open circuit was opened by one of them. *)
Record circuit_inv (now : Z) (d : db) (h : list (Z * circuit_event)) : Prop := {
  ci_failures : match view now d F with
    | None => True
    | Some (mkEntry (RString n) (Some t)) =>
        1 ≤ n < b.(cb_threshold) ∧ n ≤ Z.of_nat (recent (t - b.(cb_window_ms)) h) ∧ now ≤ t ≤ now + b.(cb_window_ms)
    | _ => False
    end;
  ci_open : match view now d O with
    | None => True
    | Some (mkEntry v t) => ∃ s, t = Some (s + b.(cb_open_ms)) ∧ (s, true) ∈ since_success h
    end;
}.

Lemma recent_mono since since' h : since ≤ since' → (recent since' h ≤ recent since h)%nat.
Proof.
  intros H. unfold recent. induction (since_success h) as [|p l IH]; [done|]. rewrite !filter_cons.
  repeat case_decide; simpl; try lia.
Qed.

Lemma circuit_inv_failing now d h : circuit_inv now d h → failing (view now d F).
Proof. intros [H _]. destruct (view now d F) as [[[n|] [t|]]|]; simpl; try done. lia. Qed.

Lemma circuit_inv_next now d h : circuit_inv now d h →
  let next := next_failure now (view now d F) in
  1 ≤ next.1 ≤ Z.of_nat (S (recent (next.2 - b.(cb_window_ms)) h)) ∧ now ≤ next.2 ≤ now + b.(cb_window_ms).
Proof.
  destruct Hb as [_ Hw _]. intros [H _]. destruct (view now d F) as [[[n|] [t|]]|]; simpl in *; try done; lia.
Qed.

Lemma circuit_inv_views now d d' h : circuit_inv now d h → view now d' F = view now d F → view now d' O = view now d O →
  circuit_inv now d' h.
Proof. intros [H1 H2] E1 E2. split; [by rewrite E1|by rewrite E2]. Qed.

Lemma circuit_inv_wait now now' d h : now ≤ now' → circuit_inv now d h → circuit_inv now' d h.
Proof.
  intros Hn [H1 H2]. split.
  - rewrite (view_later now now') by done. destruct (view now d F) as [[[n|] [t|]]|]; simpl in *; try done.
    destruct (gone now' t) eqn:Eg; [done|]. split_and!; try tauto; try lia.
    destruct (Z.le_gt_cases now' t); [done|]. by rewrite gone_after in Eg by lia.
  - rewrite (view_later now now') by done. destruct (view now d O) as [[v [t|]]|]; simpl in *; try done.
    by destruct (gone now' t).
Qed.

Lemma circuit_inv_failure now d h : circuit_inv now d h →
  circuit_inv now (failure_script now d).2 ((now, Failed (opens now d)) :: h).
Proof.
  intros Hi. pose proof (circuit_inv_next now d h Hi) as Hnext. simpl in Hnext. pose proof Hi as [_ Ho].
  destruct (failure_script_spec now d (circuit_inv_failing _ _ _ Hi)) as (d' & _ & Hs). unfold opens.
  destruct (_ <=? _) eqn:El; destruct Hs as (-> & HF & HO); simpl; split; rewrite ?HF, ?HO; simpl; try done.
  - eexists. split; [done|]. by left.
  - reflect_bools. split_and!; try lia. unfold recent. simpl. rewrite filter_cons, decide_True by (simpl; destruct Hb; lia).
    simpl. unfold recent in Hnext. lia.
  - destruct (view now d O) as [[v t]|]; [|done]. destruct Ho as (s & -> & Hin). exists s. split; [done|]. by right.
Qed.

Lemma circuit_inv_success now net d h : circuit_inv now d h →
  circuit_inv now (success b now net name d).2 (if ran net then (now, Succeeded) :: h else h).
Proof.
  intros Hi. unfold success, bind at 1, or_else, remote.
  destruct (call_own now (DEL F) d (effect ttl_seconds now (DEL F) (view now d F)).1 None) as (d1 & Hc & Hv & Ho).
  { simpl. by destruct (view now d F). }
  destruct (call_own now (DEL O) d1 (effect ttl_seconds now (DEL O) (view now d1 O)).1 None) as (d2 & Hc2 & Hv2 & Ho2).
  { simpl. by destruct (view now d1 O). }
  assert (Hs : (do* _ := call now (DEL F) in call now (DEL O)) d = ((effect ttl_seconds now (DEL O) (view now d1 O)).1, d2)).
  { unfold bind. rewrite Hc. simpl. rewrite Hc2. by destruct (view now d F). }
  assert (Hnew : circuit_inv now d2 ((now, Succeeded) :: h)).
  { simpl in *. split; [rewrite Ho2 by apply keys_differ; by rewrite Hv|by rewrite Hv2]. }
  revert Hs. generalize (effect ttl_seconds now (DEL O) (view now d1 O)).1. intros r Hs.
  destruct net; simpl; [|done|]; rewrite Hs; by destruct r.
Qed.

Lemma circuit_reachable_inv now d h : circuit_reachable now d h → circuit_inv now d h.
Proof.
  induction 1 as [now d HF HO|now now' d h Hn _ IH|now net d h _ IH|now net d h _ IH|now net d h _ IH|now c d h _ IH H1 H2].
  - split; [by rewrite HF|by rewrite HO].
  - by eapply circuit_inv_wait.
  - pose proof (circuit_inv_failure now d h IH) as Hf. unfold failure, bind, or_else, remote. fold (failure_script now).
    destruct net; simpl; [| |]; try done; by destruct (failure_script now d) as [[r|] d'].
  - by apply circuit_inv_success.
  - assert (∃ r, (do* n := call_int now (EXISTS O) in ret (bool_decide (n ≠ 0))) d = (Ok r, (call now (EXISTS O) d).2)) as [r Hr].
    { unfold call_int, bind. rewrite (surjective_pairing (call now (EXISTS O) d)), call_reply. simpl. by eexists. }
    unfold is_open, or_else, remote. destruct net; simpl; try rewrite Hr; simpl; try done;
      (apply (circuit_inv_views now d); [done| |]; rewrite call_view by lia;
       [by rewrite decide_False, view_left by apply keys_differ|rewrite decide_True by done; exact (view_left now d O)]).
  - apply (circuit_inv_views now d); [done| |]; rewrite call_view by lia; by rewrite decide_False, view_left by done.
Qed.

(** A circuit opens only after failures.  Whatever instances report and
    whichever calls are lost: a failure opens the circuit only if it and earlier
    failures within the window, with no success after any of them, reach the
    threshold; and a circuit reads as open only if such a failure opened it no
    longer than the open time ago, with no success since. *)
Theorem circuit_opens_after_failures (now : Z) (d : db) (h : list (Z * circuit_event)) : circuit_reachable now d h →
  ((failure b now Delivered name d).1 = Ok true →
     b.(cb_threshold) ≤ Z.of_nat (S (recent (now - b.(cb_window_ms)) h))) ∧
  ((is_open b now Delivered name d).1 = Ok true → ∃ s, (s, true) ∈ since_success h ∧ now ≤ s + b.(cb_open_ms)).
Proof.
  intros Hi%circuit_reachable_inv. pose proof (circuit_inv_next now d h Hi) as Hnext. simpl in Hnext. split.
  - unfold failure, bind, or_else, remote. fold (failure_script now).
    destruct (failure_script_spec now d (circuit_inv_failing _ _ _ Hi)) as (d' & _ & Hs).
    destruct (_ <=? _) eqn:El; destruct Hs as (-> & _ & _); simpl; [intros _|done]. reflect_bools.
    pose proof (recent_mono (now - b.(cb_window_ms)) ((next_failure now (view now d F)).2 - b.(cb_window_ms)) h). lia.
  - unfold is_open, or_else, remote, call_int, bind. rewrite (surjective_pairing (call now (EXISTS O) d)), call_reply. simpl.
    destruct Hi as [_ Ho]. destruct (view now d O) as [[v t]|] eqn:Ev; [|done]. destruct Ho as (s & -> & Hs). intros _.
    exists s. split; [done|]. pose proof (not_gone now d O _ _ Ev) as Hg.
    destruct (Z.le_gt_cases now (s + b.(cb_open_ms))); [done|]. by rewrite gone_after in Hg by lia.
Qed.

(** *** It does open *)

Definition fail_each (ts : list Z) (d : db) : db := foldl (λ d t, (failure b t Delivered name d).2) d ts.

Lemma failure_below now (d : db) n t : view now d F = Some (mkEntry (RString n) (Some t)) → 1 ≤ n → n + 1 < b.(cb_threshold) →
  view now (failure b now Delivered name d).2 F = Some (mkEntry (RString (n + 1)) (Some t)).
Proof.
  intros Hv Hn Hlt. destruct (failure_script_spec now d) as (d' & _ & Hs); [rewrite Hv; simpl; lia|].
  rewrite Hv in Hs. simpl in Hs. rewrite (proj2 (Z.leb_gt _ _)) in Hs by lia. destruct Hs as (Hs & HF & _).
  unfold failure, bind, or_else, remote. fold (failure_script now). by rewrite Hs.
Qed.

Lemma failure_at_threshold now now' (d : db) : failing (view now d F) →
  b.(cb_threshold) ≤ (next_failure now (view now d F)).1 → now ≤ now' < now + b.(cb_open_ms) →
  let r := failure b now Delivered name d in
  r.1 = Ok true ∧ (is_open b now' Delivered name r.2).1 = Ok true.
Proof.
  intros Hf Hle Hn. destruct (failure_script_spec now d Hf) as (d' & _ & Hs). rewrite (proj2 (Z.leb_le _ _)) in Hs by done.
  destruct Hs as (Hs & _ & HO). simpl. unfold failure, bind at 1 2, or_else, remote. fold (failure_script now). rewrite Hs. simpl.
  split; [done|]. unfold is_open, or_else, remote, call_int, bind.
  rewrite (surjective_pairing (call now' (EXISTS O) d')), call_reply. simpl.
  rewrite (view_later now now'), HO by lia. simpl. by rewrite gone_before by lia.
Qed.

Lemma fail_each_counts ts now d n t : view now d F = Some (mkEntry (RString n) (Some t)) → 1 ≤ n →
  n + Z.of_nat (length ts) < b.(cb_threshold) → Sorted Z.le (now :: ts) → Forall (λ s, s < t) ts →
  ∃ now', (∀ s, (∀ s', s' ∈ now :: ts → s' ≤ s) → now' ≤ s) ∧
    view now' (fail_each ts d) F = Some (mkEntry (RString (n + Z.of_nat (length ts))) (Some t)).
Proof.
  revert now d n. induction ts as [|s ts IH]; intros now d n Hv Hn Hlt Hsort Hall.
  { exists now. split; [intros s Hs; apply Hs; by left|]. simpl. by rewrite Z.add_0_r. }
  apply Sorted_inv in Hsort as [Hsort Hle%HdRel_inv]. apply Forall_cons in Hall as [Hs Hall]. simpl in Hlt.
  assert (Hv' : view s d F = Some (mkEntry (RString n) (Some t))).
  { rewrite (view_later now s), Hv by done. simpl. by rewrite gone_before by lia. }
  destruct (IH s (failure b s Delivered name d).2 (n + 1)) as (now' & H1 & H2); try done; try lia.
  { apply failure_below; [done|done|lia]. }
  exists now'. split.
  - intros s0 Hs0. apply H1. intros s' Hs'. apply Hs0. by right.
  - simpl. rewrite H2. do 3 f_equal. lia.
Qed.

(** a circuit opens at the threshold.  As many failures in a row as the
    threshold, from a cleared counter, within the window: the last one reports
    that it opened the circuit, and every instance reads it as open for the open
    time. *)
Theorem circuit_trips (first : Z) (middle : list Z) (last now' : Z) (d : db) :
  view first d F = None → b.(cb_threshold) = Z.of_nat (length middle) + 2 →
  Sorted Z.le (first :: middle ++ [last]) → last < first + b.(cb_window_ms) → last ≤ now' < last + b.(cb_open_ms) →
  let r := failure b last Delivered name (fail_each (first :: middle) d) in
  r.1 = Ok true ∧ (is_open b now' Delivered name r.2).1 = Ok true.
Proof.
  intros Hv Hth Hsort Hlast Hn. destruct Hb as [_ Hw _].
  assert ((∀ s, s ∈ first :: middle → s ≤ last) ∧ Sorted Z.le (first :: middle)) as [Hall Hsort'].
  { apply Sorted_StronglySorted in Hsort; [|intros ???; lia]. rewrite app_comm_cons in Hsort.
    apply StronglySorted_app in Hsort as (H & Hm & _). split; [|by apply StronglySorted_Sorted].
    intros s Hs. by apply H; [|left]. }
  assert (Hone : view first (failure b first Delivered name d).2 F = Some (mkEntry (RString 1) (Some (first + b.(cb_window_ms))))).
  { destruct (failure_script_spec first d) as (d' & _ & Hs); [by rewrite Hv|]. rewrite Hv in Hs. simpl in Hs.
    rewrite (proj2 (Z.leb_gt _ _)) in Hs by lia. destruct Hs as (Hs & HF & _).
    unfold failure, bind, or_else, remote. fold (failure_script first). by rewrite Hs. }
  destruct (fail_each_counts middle first _ 1 _ Hone) as (now & Hmax & Hv2); [lia|lia|done| |].
  { apply Forall_forall. intros s Hs. specialize (Hall s ltac:(by right)). lia. }
  assert (Hv3 : view last (fail_each (first :: middle) d) F =
    Some (mkEntry (RString (1 + Z.of_nat (length middle))) (Some (first + b.(cb_window_ms))))).
  { change (fail_each (first :: middle) d) with (fail_each middle (failure b first Delivered name d).2).
    rewrite (view_later now last) by (by apply Hmax). rewrite Hv2. simpl.
    by rewrite gone_before by lia. }
  apply failure_at_threshold; [|rewrite Hv3; simpl; lia|done]. rewrite Hv3. simpl. lia.
Qed.
End Circuit.

(** ** Concrete histories *)

Definition rdemo_config : RateLimitConfig := mkRateLimitConfig 2 60 "ratelimit" 2.
Definition rdemo_check (now : Z) (d : gmap string rentry) : result limit_error RateLimitResult * gmap string rentry :=
  check_rate_limit rdemo_config now Delivered "k" d.

Example rdemo_run :
  let d1 := (rdemo_check 0 ∅).2 in
  let d2 := (rdemo_check 1000 d1).2 in
  (rdemo_check 0 ∅).1 = Ok (mkRateLimitResult true 1 60) ∧
  (rdemo_check 1000 d1).1 = Ok (mkRateLimitResult true 0 59) ∧
  (rdemo_check 2000 d2).1 = Ok (mkRateLimitResult false 0 58) ∧
  (enforce_rate_limit rdemo_config 2000 Delivered "k" d2).1 = Raise (RateLimitExceededError "k" 58) ∧
  (peek_rate_limit rdemo_config 2000 2000 Delivered "k" d2).1 = Ok (mkRateLimitResult false 0 58) ∧
  (rdemo_check 60001 d2).1 = Ok (mkRateLimitResult true 1 60) ∧
  (check_rate_limit rdemo_config 0 Lost "k" d1).1 = Raise (RateLimitBackendError "k").
Proof. split_and!; vm_compute; reflexivity. Qed.

Definition rdemo_d1 : gmap string rentry := (rdemo_check 0 ∅).2.
Definition rdemo_ev : list Z := note_allowed (rdemo_check 1000 rdemo_d1).1 1000 (note_allowed (rdemo_check 0 ∅).1 0 []).

Lemma rate_bounded_witness : rdemo_ev = [1000; 0] ∧ Z.of_nat (during rdemo_config 0 rdemo_ev) ≤ 2 * 2.
Proof.
  split; [vm_compute; reflexivity|].
  apply (rate_bounded rdemo_config "k" eq_refl 1000 (rdemo_check 1000 rdemo_d1).2 rdemo_ev 0).
  apply (lm_check rdemo_config "k" 1000 Delivered rdemo_d1). apply (lm_wait rdemo_config "k" 0); [lia|].
  apply (lm_check rdemo_config "k" 0 Delivered ∅ []). by apply lm_init.
Defined.

(** A counter the earlier code left without a deadline. *)
Definition rdemo_stuck : gmap string rentry := {["ratelimit:k"%string := mkEntry (RString 100) None]}.

Lemma limit_recovers_witness :
  (rdemo_check 0 rdemo_stuck).1 = Ok (mkRateLimitResult false 0 60) ∧
  ∃ retry_after d', rdemo_check 60001 (rdemo_check 0 rdemo_stuck).2 = (Ok (mkRateLimitResult true 1 retry_after), d') ∧
    0 < retry_after ≤ 60.
Proof.
  split; [vm_compute; reflexivity|].
  apply (limit_recovers rdemo_config "k" eq_refl 0 60001 Delivered rdemo_stuck); [vm_compute; by split| |done|vm_compute; done].
  intros v t H. vm_compute in H. discriminate H.
Defined.

Definition cdemo : SharedCircuitBreaker := mkCircuit "circuit" 3 60000 30000.
Lemma cdemo_valid : circuit_valid cdemo.
Proof. split; simpl; unfold MAX_INT64; lia. Qed.
Definition cdemo_failed (ts : list Z) : gmap string rentry := fail_each cdemo "p" ts ∅.

Definition cdemo_history : list (Z * circuit_event) :=
  [(1000, Failed (opens cdemo "p" 1000 (cdemo_failed [0]))); (0, Failed (opens cdemo "p" 0 (∅ : gmap string rentry)))].

Lemma circuit_opens_after_failures_witness :
  (failure cdemo 2000 Delivered "p" (cdemo_failed [0; 1000])).1 = Ok true ∧ 3 ≤ Z.of_nat (S (recent (2000 - 60000) cdemo_history)).
Proof.
  split; [vm_compute; reflexivity|].
  apply (circuit_opens_after_failures cdemo "p" cdemo_valid 2000 (cdemo_failed [0; 1000]) cdemo_history).
  - apply (cr_wait cdemo "p" 1000); [lia|].
    apply (cr_failure cdemo "p" 1000 Delivered (cdemo_failed [0])). apply (cr_wait cdemo "p" 0); [lia|].
    apply (cr_failure cdemo "p" 0 Delivered ∅ []). by apply cr_init.
  - vm_compute. reflexivity.
Defined.

Lemma circuit_trips_witness : (is_open cdemo 31999 Delivered "p" (cdemo_failed [0; 1000; 2000])).1 = Ok true.
Proof.
  apply (circuit_trips cdemo "p" cdemo_valid 0 [1000] 2000 31999 ∅); try (vm_compute; reflexivity).
  - repeat constructor; lia.
  - vm_compute. by split.
Defined.
