(* ===== verification/BillingModel.v ===== *)
(** * Billing: data (saas_os/core/billing: models.py, lifecycle.py, errors.py,
    provider.py) and entitlements (service.py)

    Plans, offers, subscriptions and the parties to them; the status graph of a
    subscription; what a payment provider offers ([Adapter]); and how the
    entitlements of several plans combine.  Enumerated columns hold their
    enumeration's values: an unknown value in the database is not represented. *)

From S2P Require Import Prelude PyStr TenantLifecycle PlatformAuthority PlatformService TenantHierarchy RbacDecision RbacService Idempotency.
From Stdlib Require Import QArith.Qcanon.
#[local] Open Scope Z_scope.

(** ** lifecycle.py *)

Inductive SubscriptionStatus : Type := SUB_PENDING | SUB_ACTIVE | SUB_PAST_DUE | SUB_CANCELED.
#[export] Instance SubscriptionStatus_eq_dec : EqDecision SubscriptionStatus.
Proof. solve_decision. Defined.
Inductive VerificationState : Type := VERIFIED | LEGACY_UNVERIFIED.
#[export] Instance VerificationState_eq_dec : EqDecision VerificationState.
Proof. solve_decision. Defined.

(** provider.py *)
Inductive ProviderSubscriptionState : Type := PS_ACTIVE | PS_PENDING | PS_PAST_DUE | PS_CANCELED | PS_NOT_FOUND | PS_UNKNOWN.
#[export] Instance ProviderSubscriptionState_eq_dec : EqDecision ProviderSubscriptionState.
Proof. solve_decision. Defined.

Definition ALLOWED_TRANSITIONS (current : SubscriptionStatus) : list SubscriptionStatus :=
  match current with
  | SUB_PENDING => [SUB_ACTIVE; SUB_PAST_DUE; SUB_CANCELED]
  | SUB_ACTIVE => [SUB_PAST_DUE; SUB_CANCELED]
  | SUB_PAST_DUE => [SUB_ACTIVE; SUB_CANCELED]
  | SUB_CANCELED => []
  end.
Definition is_live (status : SubscriptionStatus) : bool :=
  match status with SUB_PENDING | SUB_ACTIVE | SUB_PAST_DUE => true | SUB_CANCELED => false end.
Definition grants_entitlements (status : SubscriptionStatus) : bool := bool_decide (status = SUB_ACTIVE).
Definition is_transition_allowed (current target : SubscriptionStatus) : bool :=
  bool_decide (current = target) || bool_decide (target ∈ ALLOWED_TRANSITIONS current).
Definition target_status_for (state : ProviderSubscriptionState) : option SubscriptionStatus :=
  match state with
  | PS_ACTIVE => Some SUB_ACTIVE | PS_PENDING => Some SUB_PENDING | PS_PAST_DUE => Some SUB_PAST_DUE
  | PS_CANCELED => Some SUB_CANCELED | PS_NOT_FOUND | PS_UNKNOWN => None
  end.

(** ** Entitlements *)

(** A JSON value of a plan: a boolean, a number by its value ([1 == 1.0]), or
    another value, of which a plan from before the validation may hold some. *)
Inductive jvalue : Type := JBool (b : bool) | JNum (q : Qc) | JOther (s : pystr).
#[export] Instance Qc_eq_decision : EqDecision Qc.
Proof. exact Qc_eq_dec. Defined.
#[export] Instance jvalue_eq_dec : EqDecision jvalue.
Proof. solve_decision. Defined.
Abbreviation entitlements := (gmap pystr jvalue).

Definition numbers (values : list jvalue) : list Qc := omap (λ v, match v with JNum q => Some q | _ => None end) values.
Definition booleans (values : list jvalue) : list bool := omap (λ v, match v with JBool b => Some b | _ => None end) values.
Definition Qc_max (a b : Qc) : Qc := if decide (a < b)%Qc then b else a.

(** The values of one key, newest subscription first. *)
Definition combine_key (values : list jvalue) : option jvalue :=
  match numbers values, booleans values with
  | q :: qs, _ => Some (JNum (foldl Qc_max q qs))
  | [], b :: bs => Some (JBool (existsb id (b :: bs)))
  | [], [] => head values
  end.
Definition combine_entitlements (maps : list entitlements) : entitlements :=
  let keys := elements (⋃ ((λ m : entitlements, dom m) <$> maps) : gset pystr) in
  list_to_map (omap (λ k, (λ v, (k, v)) <$> combine_key (omap (λ m : entitlements, m !! k) maps)) keys).

(** [validate_entitlements] (catalog.py): what a caller passes is a mapping. *)
Definition validate_entitlements (e : list (pystr * jvalue)) : option entitlements :=
  if forallb (λ p : pystr * jvalue,
       negb (bool_decide (strip p.1 = [])) &&
       match p.2 with JBool _ => true | JNum q => if decide (q < 0)%Qc then false else true | JOther _ => false end) e
  then Some (list_to_map e) else None.

(** ** Rows *)

Inductive PlanVisibility : Type := PUBLIC | DESCENDANTS | PRIVATE | UNLISTED.
#[export] Instance PlanVisibility_eq_dec : EqDecision PlanVisibility.
Proof. solve_decision. Defined.

Record Plan : Type := mkPlan {
  pl_key : pystr;
  pl_name : pystr;
  pl_provider_price_id : option pystr;
  pl_entitlements : entitlements;
  pl_owner_tenant_id : option uuid;
  pl_merchant_account_id : option uuid;
  pl_visibility : PlanVisibility;
  pl_withdrawn : bool;                      (* status *)
  pl_legacy : bool;
}.
Record PlanOffer : Type := mkOffer {
  of_tenant_id : uuid;
  of_plan_id : uuid;
  of_service_tenant_id : uuid;
  of_revoked_at : option datetime;          (* with status: the check constraint *)
}.
Record Subscription : Type := mkSubscription {
  sb_tenant_id : uuid;
  sb_plan_id : uuid;
  sb_status : SubscriptionStatus;
  sb_provider_subscription_id : pystr;
  sb_payer_tenant_id : option uuid;
  sb_billing_account_id : option uuid;
  sb_merchant_account_id : option uuid;
  sb_provider : option pystr;
  sb_verification : VerificationState;
  sb_version : Z;
  sb_created_at : datetime;
  sb_updated_at : datetime;
}.
Inductive MerchantAccountStatus : Type := MA_ONBOARDING | MA_ACTIVE | MA_RESTRICTED | MA_DISABLED.
#[export] Instance MerchantAccountStatus_eq_dec : EqDecision MerchantAccountStatus.
Proof. solve_decision. Defined.
Record MerchantAccount : Type := mkMerchant {
  ma_tenant_id : uuid;
  ma_provider : pystr;
  ma_provider_account_ref : pystr;
  ma_status : MerchantAccountStatus;
}.
Record BillingAccount : Type := mkAccount {
  ba_tenant_id : uuid;
  ba_merchant_tenant_id : uuid;
  ba_merchant_account_id : uuid;
  ba_provider_customer_ref : option pystr;
  ba_active : bool;                         (* status *)
}.
Inductive ProviderObjectType : Type := OBJ_SUBSCRIPTION | OBJ_CUSTOMER.
Inductive LocalObjectType : Type := LOCAL_SUBSCRIPTION | LOCAL_ACCOUNT.
#[export] Instance ProviderObjectType_eq_dec : EqDecision ProviderObjectType.
Proof. solve_decision. Defined.
#[export] Instance LocalObjectType_eq_dec : EqDecision LocalObjectType.
Proof. solve_decision. Defined.
#[export] Instance ProviderObjectType_countable : Countable ProviderObjectType.
Proof.
  refine (inj_countable' (λ o, match o with OBJ_SUBSCRIPTION => true | OBJ_CUSTOMER => false end)
            (λ b, if b : bool then OBJ_SUBSCRIPTION else OBJ_CUSTOMER) _). by intros [].
Defined.
Record ProviderRefResolution : Type := mkResolution {
  pr_tenant_id : uuid;
  pr_local_object_type : LocalObjectType;
  pr_local_object_id : uuid;
}.
#[export] Instance ProviderRefResolution_eq_dec : EqDecision ProviderRefResolution.
Proof. solve_decision. Defined.

(** The copy of a subscription in the seller's rows ([A]: the payer tenant) and
    in the payer's rows ([A]: the billing account and the merchant tenant). *)
Record Projection {A : Type} : Type := mkProjection {
  pj_values : A;
  pj_service_tenant_id : uuid;
  pj_merchant_account_id : uuid;
  pj_plan_id : uuid;
  pj_status : SubscriptionStatus;
  pj_verification : VerificationState;
  pj_created_at : datetime;                 (* of the subscription *)
  pj_updated_at : datetime;
  pj_version : Z;                           (* source_version *)
  pj_projected_at : datetime;
}.
Arguments Projection : clear implicits.
Arguments mkProjection {A} _ _ _ _ _ _ _ _ _ _.

Inductive ProviderEventStatus : Type := EV_RECEIVED | EV_PROCESSED | EV_IGNORED | EV_FAILED.
#[export] Instance ProviderEventStatus_eq_dec : EqDecision ProviderEventStatus.
Proof. solve_decision. Defined.
Inductive ProviderEventOutcome : Type :=
| EO_CHANGED | EO_UNCHANGED | EO_NO_SUBSCRIPTION | EO_FOREIGN_ACCOUNT | EO_UNKNOWN_SUBSCRIPTION | EO_LEGACY_UNVERIFIED.
#[export] Instance ProviderEventOutcome_eq_dec : EqDecision ProviderEventOutcome.
Proof. solve_decision. Defined.
Record ProviderEvent : Type := mkEvent {
  pe_status : ProviderEventStatus;
  pe_outcome : option ProviderEventOutcome;
  pe_attempts : Z;
  pe_created_at : datetime;
}.

(** ** The provider (provider.py) *)

Record ProviderCommerceContext : Type := mkContext {
  cx_merchant_account_id : uuid;
  cx_merchant_provider_account_ref : pystr;
  cx_payer_tenant_id : uuid;
  cx_payer_billing_account_id : uuid;
  cx_provider_customer_ref : option pystr;
}.

(** The calls that change something at a provider, each with its arguments. *)
Inductive provider_request : Type :=
| RqCreate (tenant_id plan_id : uuid) (idempotency_key : option pystr) (context : option ProviderCommerceContext)
| RqCustomer (context : ProviderCommerceContext) (idempotency_key : pystr)
| RqChangePlan (provider_subscription_id : pystr) (plan_id : uuid)
| RqCancel (provider_subscription_id : pystr).

(** A call made to an adapter, with the reference it returned; a call that
    raised [BillingProviderError] has no answer. *)
Record provider_call : Type := mkCall {
  pc_adapter : option pystr;
  pc_request : provider_request;
  pc_answer : option pystr;
}.

(** A [BillingProvider]: what it answers may depend on the instant and on every
    call made so far (latest first).  [ad_payment_page_url] is there for a
    [PaymentPageProvider]. *)
Record Adapter : Type := mkAdapter {
  ad_name : option pystr;
  ad_honors_idempotency_keys : bool;
  ad_acts_in_merchant_accounts : bool;
  ad_answer : nat → list provider_call → provider_request → option pystr;
  ad_get_subscription_status : nat → list provider_call → pystr → option ProviderSubscriptionState;
  ad_payment_page_url : option (nat → list provider_call → pystr → option (option pystr));
}.

(** service.py *)
Record SubscribeResult : Type := mkSubscribeResult {
  sr_subscription_id : uuid;
  sr_plan_id : uuid;
  sr_status : SubscriptionStatus;
  sr_provider_subscription_id : pystr;
  sr_payer_tenant_id : option uuid;
  sr_billing_account_id : option uuid;
  sr_provider : option pystr;
}.
#[export] Instance SubscribeResult_eq_dec : EqDecision SubscribeResult.
Proof. solve_decision. Defined.

(** ** The store *)

Inductive AuditOutcome : Type := AUDIT_SUCCESS | AUDIT_FAILURE | AUDIT_DENIED.
(** An entry of a tenant's audit trail: the user, or the system. *)
Record billing_event : Type := mkBillingEvent {
  be_tenant : uuid;
  be_actor_user_id : option uuid;
  be_action : string;
  be_resource_id : uuid;
  be_outcome : AuditOutcome;
}.

Record billing_store : Type := mkBilling {
  bl_tenancy : tenancy_store;
  bl_rbac : rbac_store;                                   (* authorization; the count of ids drawn *)
  bl_plans : gmap uuid Plan;
  bl_offers : gmap uuid PlanOffer;
  bl_subscriptions : gmap uuid Subscription;
  bl_merchants : gmap uuid MerchantAccount;
  bl_accounts : gmap uuid BillingAccount;
  bl_refs : gmap (pystr * pystr * ProviderObjectType * pystr) ProviderRefResolution;
  bl_seller : gmap (uuid * uuid) (Projection uuid);       (* tenant_id, subscription_id *)
  bl_payer : gmap (uuid * uuid) (Projection (uuid * uuid));
  bl_events : gmap (pystr * pystr) ProviderEvent;         (* provider, event_id *)
  bl_announced : list (uuid * uuid * Z);                  (* outbox: tenant, subscription, version; latest first *)
  bl_consumed : gset (uuid * uuid);                       (* event_consumptions of the projection: tenant, event *)
  bl_idem : gmap uuid (IdempotencyRecord SubscribeResult);
  bl_audit : list billing_event;                          (* latest first *)
  bl_calls : list provider_call;                          (* latest first *)
  bl_tick : nat;                                          (* instants passed *)
}.

(** ** errors.py *)

Inductive billing_error : Type :=
| BRbac (e : rbac_error)
| BTenant (e : tenant_error)
| InvalidPlanKeyError
| DuplicatePlanKeyError (key : pystr)
| PlanNotFoundError (key : pystr)
| SubscriptionNotFoundError (tenant_id subscription_id : uuid)
| BillingProviderError
| InvalidBillingHierarchyError (tenant_id : uuid)
| InheritedBillingSubscriptionError (tenant_id : uuid)
| EntitlementDeniedError (tenant_id : uuid) (key : pystr)
| BillingActorRequiredError
| BillingNotAuthorizedError (operation : string)
| InvalidBillingPartyError
| MerchantAccountNotFoundError (tenant_id merchant_account_id : uuid)
| DuplicateMerchantAccountError (provider : pystr)
| BillingAccountNotFoundError (tenant_id billing_account_id : uuid)
| CommercialPartyNotActiveError (party : uuid)
| MerchantNotEligibleForPlanError (merchant_account_id : uuid)
| BillingProviderMismatchError (expected actual : option pystr)
| ProviderRefConflictError (provider : pystr) (object_type : ProviderObjectType)
| ProviderRefNotFoundError (provider : pystr) (object_type : ProviderObjectType)
| InvalidSubscriptionTransitionError (from to : SubscriptionStatus)
| LiveSubscriptionExistsError (service_tenant_id merchant_account_id : uuid)
| LegacyReconciliationError (subscription_id : uuid) (message : string)
| ProviderReferenceMismatchError (subscription_id : uuid)
| BillingProviderContractError
| InvalidCatalogValueError
| DuplicateOwnedPlanKeyError (owner_tenant_id : uuid) (key : pystr)
| CatalogPlanNotFoundError (owner_tenant_id plan_id : uuid)
| PlanWithdrawnError (plan_id : uuid)
| PlanOfferNotFoundError (owner_tenant_id offer_id : uuid)
| LegacyPlanAdoptionError (plan_id : uuid)
| PlanNotEligibleError (service_tenant_id plan_id : uuid) (reason : string)
| MalformedProjectionEventError
| SubscriptionProjectionNotFoundError (tenant_id subscription_id : uuid)
| ProjectionNotReadyError
| BillingInheritanceMigrationError (tenant_id : uuid)
| LegacyBillingPathError (subscription_id : uuid)
| ProviderEventProcessingError
| SubscriptionNotYetKnownError
| NoPaymentDueError (subscription_id : uuid)
| PaymentPageNotSupportedError
| PlatformTenantNotConfiguredError
| DefaultProviderUnavailableError              (* no adapter or no secret *)
| BIdempotency (e : idem_error unit)
| BCallerTypeError (operation : string)
| BIntegrityError (constraint : string)
| BNoResultFound
| BMultipleResultsFound
| BAssertionError
| BValueError
| BDataError.

(** ** Writing the tables *)

Definition set_tenancy (x : tenancy_store) (st : billing_store) : billing_store :=
  mkBilling x st.(bl_rbac) st.(bl_plans) st.(bl_offers) st.(bl_subscriptions) st.(bl_merchants) st.(bl_accounts)
    st.(bl_refs) st.(bl_seller) st.(bl_payer) st.(bl_events) st.(bl_announced) st.(bl_consumed) st.(bl_idem)
    st.(bl_audit) st.(bl_calls) st.(bl_tick).
Definition set_rbac (x : rbac_store) (st : billing_store) : billing_store :=
  mkBilling st.(bl_tenancy) x st.(bl_plans) st.(bl_offers) st.(bl_subscriptions) st.(bl_merchants)
    st.(bl_accounts) st.(bl_refs) st.(bl_seller) st.(bl_payer) st.(bl_events) st.(bl_announced) st.(bl_consumed)
    st.(bl_idem) st.(bl_audit) st.(bl_calls) st.(bl_tick).
Definition set_plans (x : gmap uuid Plan) (st : billing_store) : billing_store :=
  mkBilling st.(bl_tenancy) st.(bl_rbac) x st.(bl_offers) st.(bl_subscriptions) st.(bl_merchants)
    st.(bl_accounts) st.(bl_refs) st.(bl_seller) st.(bl_payer) st.(bl_events) st.(bl_announced) st.(bl_consumed)
    st.(bl_idem) st.(bl_audit) st.(bl_calls) st.(bl_tick).
Definition set_offers (x : gmap uuid PlanOffer) (st : billing_store) : billing_store :=
  mkBilling st.(bl_tenancy) st.(bl_rbac) st.(bl_plans) x st.(bl_subscriptions) st.(bl_merchants)
    st.(bl_accounts) st.(bl_refs) st.(bl_seller) st.(bl_payer) st.(bl_events) st.(bl_announced) st.(bl_consumed)
    st.(bl_idem) st.(bl_audit) st.(bl_calls) st.(bl_tick).
Definition set_subscriptions (x : gmap uuid Subscription) (st : billing_store) : billing_store :=
  mkBilling st.(bl_tenancy) st.(bl_rbac) st.(bl_plans) st.(bl_offers) x st.(bl_merchants) st.(bl_accounts)
    st.(bl_refs) st.(bl_seller) st.(bl_payer) st.(bl_events) st.(bl_announced) st.(bl_consumed) st.(bl_idem)
    st.(bl_audit) st.(bl_calls) st.(bl_tick).
Definition set_merchants (x : gmap uuid MerchantAccount) (st : billing_store) : billing_store :=
  mkBilling st.(bl_tenancy) st.(bl_rbac) st.(bl_plans) st.(bl_offers) st.(bl_subscriptions) x st.(bl_accounts)
    st.(bl_refs) st.(bl_seller) st.(bl_payer) st.(bl_events) st.(bl_announced) st.(bl_consumed) st.(bl_idem)
    st.(bl_audit) st.(bl_calls) st.(bl_tick).
Definition set_accounts (x : gmap uuid BillingAccount) (st : billing_store) : billing_store :=
  mkBilling st.(bl_tenancy) st.(bl_rbac) st.(bl_plans) st.(bl_offers) st.(bl_subscriptions) st.(bl_merchants) x
    st.(bl_refs) st.(bl_seller) st.(bl_payer) st.(bl_events) st.(bl_announced) st.(bl_consumed) st.(bl_idem)
    st.(bl_audit) st.(bl_calls) st.(bl_tick).
Definition set_refs (x : gmap (pystr * pystr * ProviderObjectType * pystr) ProviderRefResolution) (st : billing_store) : billing_store :=
  mkBilling st.(bl_tenancy) st.(bl_rbac) st.(bl_plans) st.(bl_offers) st.(bl_subscriptions) st.(bl_merchants)
    st.(bl_accounts) x st.(bl_seller) st.(bl_payer) st.(bl_events) st.(bl_announced) st.(bl_consumed)
    st.(bl_idem) st.(bl_audit) st.(bl_calls) st.(bl_tick).
Definition set_seller (x : gmap (uuid * uuid) (Projection uuid)) (st : billing_store) : billing_store :=
  mkBilling st.(bl_tenancy) st.(bl_rbac) st.(bl_plans) st.(bl_offers) st.(bl_subscriptions) st.(bl_merchants)
    st.(bl_accounts) st.(bl_refs) x st.(bl_payer) st.(bl_events) st.(bl_announced) st.(bl_consumed) st.(bl_idem)
    st.(bl_audit) st.(bl_calls) st.(bl_tick).
Definition set_payer (x : gmap (uuid * uuid) (Projection (uuid * uuid))) (st : billing_store) : billing_store :=
  mkBilling st.(bl_tenancy) st.(bl_rbac) st.(bl_plans) st.(bl_offers) st.(bl_subscriptions) st.(bl_merchants)
    st.(bl_accounts) st.(bl_refs) st.(bl_seller) x st.(bl_events) st.(bl_announced) st.(bl_consumed)
    st.(bl_idem) st.(bl_audit) st.(bl_calls) st.(bl_tick).
Definition set_events (x : gmap (pystr * pystr) ProviderEvent) (st : billing_store) : billing_store :=
  mkBilling st.(bl_tenancy) st.(bl_rbac) st.(bl_plans) st.(bl_offers) st.(bl_subscriptions) st.(bl_merchants)
    st.(bl_accounts) st.(bl_refs) st.(bl_seller) st.(bl_payer) x st.(bl_announced) st.(bl_consumed) st.(bl_idem)
    st.(bl_audit) st.(bl_calls) st.(bl_tick).
Definition set_announced (x : list (uuid * uuid * Z)) (st : billing_store) : billing_store :=
  mkBilling st.(bl_tenancy) st.(bl_rbac) st.(bl_plans) st.(bl_offers) st.(bl_subscriptions) st.(bl_merchants)
    st.(bl_accounts) st.(bl_refs) st.(bl_seller) st.(bl_payer) st.(bl_events) x st.(bl_consumed) st.(bl_idem)
    st.(bl_audit) st.(bl_calls) st.(bl_tick).
Definition set_consumed (x : gset (uuid * uuid)) (st : billing_store) : billing_store :=
  mkBilling st.(bl_tenancy) st.(bl_rbac) st.(bl_plans) st.(bl_offers) st.(bl_subscriptions) st.(bl_merchants)
    st.(bl_accounts) st.(bl_refs) st.(bl_seller) st.(bl_payer) st.(bl_events) st.(bl_announced) x st.(bl_idem)
    st.(bl_audit) st.(bl_calls) st.(bl_tick).
Definition set_idem (x : gmap uuid (IdempotencyRecord SubscribeResult)) (st : billing_store) : billing_store :=
  mkBilling st.(bl_tenancy) st.(bl_rbac) st.(bl_plans) st.(bl_offers) st.(bl_subscriptions) st.(bl_merchants)
    st.(bl_accounts) st.(bl_refs) st.(bl_seller) st.(bl_payer) st.(bl_events) st.(bl_announced) st.(bl_consumed)
    x st.(bl_audit) st.(bl_calls) st.(bl_tick).
Definition set_audit (x : list billing_event) (st : billing_store) : billing_store :=
  mkBilling st.(bl_tenancy) st.(bl_rbac) st.(bl_plans) st.(bl_offers) st.(bl_subscriptions) st.(bl_merchants)
    st.(bl_accounts) st.(bl_refs) st.(bl_seller) st.(bl_payer) st.(bl_events) st.(bl_announced) st.(bl_consumed)
    st.(bl_idem) x st.(bl_calls) st.(bl_tick).
Definition set_calls (x : list provider_call) (st : billing_store) : billing_store :=
  mkBilling st.(bl_tenancy) st.(bl_rbac) st.(bl_plans) st.(bl_offers) st.(bl_subscriptions) st.(bl_merchants)
    st.(bl_accounts) st.(bl_refs) st.(bl_seller) st.(bl_payer) st.(bl_events) st.(bl_announced) st.(bl_consumed)
    st.(bl_idem) st.(bl_audit) x st.(bl_tick).
Definition set_tick (x : nat) (st : billing_store) : billing_store :=
  mkBilling st.(bl_tenancy) st.(bl_rbac) st.(bl_plans) st.(bl_offers) st.(bl_subscriptions) st.(bl_merchants)
    st.(bl_accounts) st.(bl_refs) st.(bl_seller) st.(bl_payer) st.(bl_events) st.(bl_announced) st.(bl_consumed)
    st.(bl_idem) st.(bl_audit) st.(bl_calls) x.
