(* ===== verification/Billing.v ===== *)
(** * Billing: authorization, parties, catalog, provider references and
    projections (saas_os/core/billing: authorization.py, parties.py, catalog.py,
    provider_refs.py, projections.py)

    A function that opens several sessions is a sequence of transactions.  Before
    each of them, and before each call to a provider, the rest of the system may
    act: [gap] applies [env] and moves the clock to the next instant.  [env] is
    any change of the store; the theorems say what they ask of it.

    [uuid4] are the random ids, [clock] the time at each instant. *)

From S2P Require Import Prelude PyStr TenantLifecycle PlatformAuthority PlatformService TenantHierarchy RbacDecision RbacService BillingModel.
#[local] Open Scope Z_scope.

Abbreviation BM := (M billing_store billing_error).

Definition modify (f : billing_store → billing_store) : BM unit := λ st, (Ok tt, f st).
Definition read {A : Type} (f : billing_store → result billing_error A) : BM A := λ st, (f st, st).
Definition look {A : Type} (f : billing_store → A) : BM A := λ st, (Ok (f st), st).
Definition ensure (b : bool) (e : billing_error) : BM unit := lift (raise_if (negb b) e).
Definition some {A : Type} (o : option A) (e : billing_error) : BM A := match o with Some a => ret a | None => throw e end.

(** [try: ... except IntegrityError as exc: ...]; the handler gets the name of the constraint. *)
Definition on_conflict {A : Type} (m : BM A) (handler : string → BM A) : BM A :=
  λ st, match m st with
        | (Raise (BIntegrityError constraint), st') => handler constraint st'
        | other => other
        end.

Definition tenant_result {A : Type} (r : result tenant_error A) : result billing_error A :=
  match r with Ok a => Ok a | Raise e => Raise (BTenant e) end.
Definition open_tenant (tenant_id : uuid) : BM Tenant := read (λ st, tenant_result (lock_open_tenant st.(bl_tenancy) tenant_id)).

Definition nonempty_text (max_length : nat) (value : pystr) : bool :=
  negb (bool_decide (strip value = [])) && bool_decide (length value ≤ max_length)%nat.

(** [session.get(Model, id)] in a tenant's scope. *)
Definition owned {A : Type} (owner : A → uuid) (tenant_id : uuid) (row : option A) : option A :=
  match row with Some a => if bool_decide (owner a = tenant_id) then Some a else None | None => None end.

(** ** authorization.py: callers *)

Definition BILLING_CATALOG : string := "billing.catalog".
Definition BILLING_MERCHANT : string := "billing.merchant".
Definition BILLING_ACCOUNT : string := "billing.account".
Definition BILLING_SUBSCRIPTION : string := "billing.subscription".
Definition BILLING_SYSTEM_AUTHORITY : SystemAuthority := BILLING_OPERATIONS.

(** What a caller passes: one of the core's callers, a deprecated billing one, or
    something else. *)
Inductive billing_caller : Type :=
| CoreCaller (c : caller)
| BillingActor (user_id : uuid)
| TrustedSystemCaller (reason : pystr)
| OtherCaller.

Record AuthorizedBillingCaller : Type := mkAuthorized {
  ac_caller : caller;
  ac_audit_note : option pystr;        (* trusted_system_reason *)
}.

Definition require_billing_caller (c : billing_caller) : result billing_error AuthorizedBillingCaller :=
  match c with
  | CoreCaller (UserCaller u) => Ok (mkAuthorized (UserCaller u) None)
  | CoreCaller (SystemCaller a) => Ok (mkAuthorized (SystemCaller a) None)
  | BillingActor u => Ok (mkAuthorized (UserCaller u) None)
  | TrustedSystemCaller reason => Ok (mkAuthorized (SystemCaller BILLING_SYSTEM_AUTHORITY) (Some reason))
  | CoreCaller (ServiceAccountCaller _ _) | OtherCaller => Raise BillingActorRequiredError
  end.

(** [audit_actor], and the actor columns of [record_in_transaction]. *)
Definition audit_actor (a : AuthorizedBillingCaller) : option uuid :=
  match a.(ac_caller) with UserCaller u => Some u | _ => None end.
Definition add_audit (tenant_id : uuid) (actor : option uuid) (action : string) (resource_id : uuid) (outcome : AuditOutcome) :
    BM unit :=
  modify (λ st, set_audit (mkBillingEvent tenant_id actor action resource_id outcome :: st.(bl_audit)) st).
Definition record_billing_audit (a : AuthorizedBillingCaller) (tenant_id : uuid) (action : string) (resource_id : uuid) : BM unit :=
  add_audit tenant_id (audit_actor a) action resource_id AUDIT_SUCCESS.

(** ** catalog.py: the answers *)

Inductive EligibilityReason : Type :=
| ELIGIBLE | NOT_AUTHORIZED | NOT_ADOPTED | ELIG_WITHDRAWN | MERCHANT_MISMATCH | MERCHANT_INACTIVE | NOT_A_DESCENDANT
| ELIG_PRIVATE | NO_OFFER.
#[export] Instance EligibilityReason_eq_dec : EqDecision EligibilityReason.
Proof. solve_decision. Defined.
Definition reason_value (r : EligibilityReason) : string :=
  match r with
  | ELIGIBLE => "eligible" | NOT_AUTHORIZED => "not_authorized" | NOT_ADOPTED => "not_adopted"
  | ELIG_WITHDRAWN => "withdrawn" | MERCHANT_MISMATCH => "merchant_mismatch" | MERCHANT_INACTIVE => "merchant_inactive"
  | NOT_A_DESCENDANT => "not_a_descendant" | ELIG_PRIVATE => "private" | NO_OFFER => "no_offer"
  end.

(** A read model: its table and the foreign keys of a row. *)
Record read_model {A : Type} : Type := mkReadModel {
  rm_rows : billing_store → gmap (uuid * uuid) (Projection A);
  rm_set : gmap (uuid * uuid) (Projection A) → billing_store → billing_store;
  rm_keys : billing_store → uuid → Projection A → bool;
}.
Arguments read_model : clear implicits.

Section Billing.
Context (uuid4 : nat → uuid) (clock : nat → datetime) (env : nat → billing_store → billing_store).

Definition now (st : billing_store) : datetime := clock st.(bl_tick).
Definition gap : BM unit := modify (λ st, env st.(bl_tick) (set_tick (S st.(bl_tick)) st)).
Definition session {A : Type} (m : BM A) : BM A := do* _ := gap in transaction m.

(** A fresh id. *)
Definition new_id : BM uuid :=
  λ st, (Ok (uuid4 st.(bl_rbac).(rs_drawn)), set_rbac (rdraw st.(bl_rbac)) st).

(** ** authorization.py: authorize_billing *)

Definition register_billing_permission (resource action : string) : BM unit :=
  λ st, match register_permission_in uuid4 resource action st.(bl_rbac) with
        | (Ok _, rb) => (Ok tt, set_rbac rb st)
        | (Raise e, rb) => (Raise (BRbac e), set_rbac rb st)
        end.
Definition user_can (user_id tenant_id : uuid) (resource action : string) (st : billing_store) : bool :=
  can st.(bl_rbac).(rs_rows) (now st) st.(bl_tenancy) user_id tenant_id action resource PT_USER None false.

Fixpoint check_all (user_id : uuid) (operation : string) (checks : list (uuid * string * string)) : BM unit :=
  match checks with
  | [] => ret tt
  | (tenant_id, resource, action) :: checks =>
      do* _ := register_billing_permission resource action in
      do* held := look (user_can user_id tenant_id resource action) in
      do* _ := ensure held (BillingNotAuthorizedError operation) in
      check_all user_id operation checks
  end.

Definition authorize_billing (c : billing_caller) (checks : list (uuid * string * string)) (operation : string) :
    BM AuthorizedBillingCaller :=
  do* authorized := lift (require_billing_caller c) in
  match authorized.(ac_caller) with
  | SystemCaller authority =>
      do* _ := ensure (bool_decide (authority = BILLING_SYSTEM_AUTHORITY)) (BillingNotAuthorizedError operation) in
      ret authorized
  | UserCaller u => do* _ := check_all u operation checks in ret authorized
  | ServiceAccountCaller _ _ => throw (BCallerTypeError operation)
  end.

(** ** parties.py *)

Definition with_merchant_status (status : MerchantAccountStatus) (m : MerchantAccount) : MerchantAccount :=
  mkMerchant m.(ma_tenant_id) m.(ma_provider) m.(ma_provider_account_ref) status.

Definition insert_merchant (m : MerchantAccount) : BM uuid :=
  do* id := new_id in
  λ st, if bool_decide (is_Some (st.(bl_merchants) !! id)) ||
           exists_row st.(bl_merchants) (λ m', bool_decide (m'.(ma_provider) = m.(ma_provider)) &&
                                               bool_decide (m'.(ma_provider_account_ref) = m.(ma_provider_account_ref)))
        then (Raise (BIntegrityError "uq_billing_merchant_accounts_provider_account"), st)
        else (Ok id, set_merchants (<[id := m]> st.(bl_merchants)) st).

Definition create_merchant_account (c : billing_caller) (owner_tenant_id : uuid) (provider provider_account_ref : pystr)
    (status : MerchantAccountStatus) : BM uuid :=
  do* _ := ensure (nonempty_text 50 provider) InvalidBillingPartyError in
  do* _ := ensure (nonempty_text 255 provider_account_ref) InvalidBillingPartyError in
  do* _ := lift (require_billing_caller c) in
  on_conflict
    (session
       (do* authorized := authorize_billing c [(owner_tenant_id, BILLING_MERCHANT, "manage"%string)]
                            "billing.merchant_account.create" in
        do* _ := open_tenant owner_tenant_id in
        do* id := insert_merchant (mkMerchant owner_tenant_id provider provider_account_ref status) in
        do* _ := record_billing_audit authorized owner_tenant_id "billing.merchant_account_created" id in
        ret id))
    (λ _, throw (DuplicateMerchantAccountError provider)).

Definition set_merchant_account_status (c : billing_caller) (owner_tenant_id merchant_account_id : uuid)
    (status : MerchantAccountStatus) : BM unit :=
  do* _ := lift (require_billing_caller c) in
  session
    (do* authorized := authorize_billing c [(owner_tenant_id, BILLING_MERCHANT, "manage"%string)]
                         "billing.merchant_account.set_status" in
     do* _ := (if bool_decide (status = MA_ACTIVE) then do* _ := open_tenant owner_tenant_id in ret tt else ret tt) in
     do* row := look (λ st, owned ma_tenant_id owner_tenant_id (st.(bl_merchants) !! merchant_account_id)) in
     do* m := some row (MerchantAccountNotFoundError owner_tenant_id merchant_account_id) in
     do* _ := modify (λ st, set_merchants (<[merchant_account_id := with_merchant_status status m]> st.(bl_merchants)) st) in
     record_billing_audit authorized owner_tenant_id "billing.merchant_account_status_changed" merchant_account_id).

Definition merchant_row (owner_tenant_id merchant_account_id : uuid) : BM MerchantAccount :=
  do* row := look (λ st, owned ma_tenant_id owner_tenant_id (st.(bl_merchants) !! merchant_account_id)) in
  some row (MerchantAccountNotFoundError owner_tenant_id merchant_account_id).
Definition get_merchant_account (owner_tenant_id merchant_account_id : uuid) : BM MerchantAccount :=
  session (merchant_row owner_tenant_id merchant_account_id).
Definition list_merchant_accounts (owner_tenant_id : uuid) : BM (list (uuid * MerchantAccount)) :=
  session (look (λ st, filter (λ p : uuid * MerchantAccount, p.2.(ma_tenant_id) = owner_tenant_id) (map_to_list st.(bl_merchants)))).
Definition require_active_merchant_account (merchant_account_id : uuid) (m : MerchantAccount) : BM MerchantAccount :=
  do* _ := ensure (bool_decide (m.(ma_status) = MA_ACTIVE)) (CommercialPartyNotActiveError merchant_account_id) in ret m.

Definition is_account_of (payer_tenant_id merchant_account_id : uuid) (a : BillingAccount) : bool :=
  bool_decide (a.(ba_tenant_id) = payer_tenant_id) && bool_decide (a.(ba_merchant_account_id) = merchant_account_id).
(** [_find_billing_account], within a session *)
Definition find_billing_account (payer_tenant_id merchant_account_id : uuid) : BM (option (uuid * BillingAccount)) :=
  look (λ st, find (λ p : uuid * BillingAccount, is_account_of payer_tenant_id merchant_account_id p.2) (map_to_list st.(bl_accounts))).

Definition insert_account (a : BillingAccount) : BM uuid :=
  do* id := new_id in
  λ st, if bool_decide (is_Some (st.(bl_accounts) !! id)) ||
           exists_row st.(bl_accounts) (is_account_of a.(ba_tenant_id) a.(ba_merchant_account_id))
        then (Raise (BIntegrityError "uq_billing_accounts_tenant_merchant"), st)
        else if negb (bool_decide (is_Some (owned ma_tenant_id a.(ba_merchant_tenant_id) (st.(bl_merchants) !! a.(ba_merchant_account_id)))))
        then (Raise (BIntegrityError "fk_billing_accounts_merchant_account"), st)
        else (Ok id, set_accounts (<[id := a]> st.(bl_accounts)) st).

Definition get_or_create_billing_account (c : billing_caller) (payer_tenant_id merchant_tenant_id merchant_account_id : uuid) :
    BM (uuid * BillingAccount * bool) :=
  do* _ := lift (require_billing_caller c) in
  do* m := get_merchant_account merchant_tenant_id merchant_account_id in
  do* merchant := require_active_merchant_account merchant_account_id m in
  on_conflict
    (session
       (do* authorized := authorize_billing c [(payer_tenant_id, BILLING_ACCOUNT, "manage"%string)] "billing.account.create" in
        do* existing := find_billing_account payer_tenant_id merchant_account_id in
        match existing with
        | Some (id, a) => ret (id, a, false)
        | None =>
            do* _ := open_tenant payer_tenant_id in
            let account := mkAccount payer_tenant_id merchant.(ma_tenant_id) merchant_account_id None true in
            do* id := insert_account account in
            do* _ := record_billing_audit authorized payer_tenant_id "billing.account_created" id in
            ret (id, account, true)
        end))
    (λ constraint,
       do* existing := session (find_billing_account payer_tenant_id merchant_account_id) in
       match existing with
       | Some (id, a) => ret (id, a, false)
       | None => throw (BIntegrityError constraint)
       end).

Definition account_row (payer_tenant_id billing_account_id : uuid) : BM BillingAccount :=
  do* row := look (λ st, owned ba_tenant_id payer_tenant_id (st.(bl_accounts) !! billing_account_id)) in
  some row (BillingAccountNotFoundError payer_tenant_id billing_account_id).
Definition get_billing_account (payer_tenant_id billing_account_id : uuid) : BM BillingAccount :=
  session (account_row payer_tenant_id billing_account_id).
Definition list_billing_accounts (payer_tenant_id : uuid) : BM (list (uuid * BillingAccount)) :=
  session (look (λ st, filter (λ p : uuid * BillingAccount, p.2.(ba_tenant_id) = payer_tenant_id) (map_to_list st.(bl_accounts)))).
Definition require_active_billing_account (billing_account_id : uuid) (a : BillingAccount) : BM BillingAccount :=
  do* _ := ensure a.(ba_active) (CommercialPartyNotActiveError billing_account_id) in ret a.

(** ** catalog.py *)

(** [_holds] *)
Definition holds (c : billing_caller) (tenant_id : uuid) (resource action : string) : BM bool :=
  λ st, match authorize_billing c [(tenant_id, resource, action)] "billing.catalog.eligibility" st with
        | (Ok _, st') => (Ok true, st')
        | (Raise (BillingNotAuthorizedError _), st') => (Ok false, st')
        | (Raise e, st') => (Raise e, st')
        end.

Definition is_offer (owner plan_id service_tenant_id : uuid) (o : PlanOffer) : bool :=
  bool_decide (o.(of_tenant_id) = owner) && bool_decide (o.(of_plan_id) = plan_id) &&
  bool_decide (o.(of_service_tenant_id) = service_tenant_id) && bool_decide (o.(of_revoked_at) = None).

Definition evaluate_plan_eligibility (c : billing_caller) (service_tenant_id plan_id : uuid) (plan : Plan)
    (merchant_account_id : option uuid) : BM EligibilityReason :=
  do* _ := lift (require_billing_caller c) in
  do* _ := open_tenant service_tenant_id in
  match plan.(pl_owner_tenant_id), plan.(pl_merchant_account_id) with
  | Some owner, Some seller =>
      if plan.(pl_withdrawn) then ret ELIG_WITHDRAWN
      else if match merchant_account_id with Some m => negb (bool_decide (m = seller)) | None => false end
      then ret MERCHANT_MISMATCH
      else
        do* held := holds c service_tenant_id BILLING_SUBSCRIPTION "create" in
        if negb held then ret NOT_AUTHORIZED
        else
          do* merchant := look (λ st, owned ma_tenant_id owner (st.(bl_merchants) !! seller)) in
          if negb (match merchant with Some m => bool_decide (m.(ma_status) = MA_ACTIVE) | None => false end)
          then ret MERCHANT_INACTIVE
          else match plan.(pl_visibility) with
               | PUBLIC => ret ELIGIBLE
               | DESCENDANTS =>
                   do* ancestors := look (λ st, lock_ancestor_ids st.(bl_tenancy) service_tenant_id) in
                   ret (if bool_decide (owner ≠ service_tenant_id ∧ owner ∈ ancestors) then ELIGIBLE else NOT_A_DESCENDANT)
               | PRIVATE =>
                   do* may_read := holds c owner BILLING_CATALOG "read" in
                   ret (if may_read : bool then ELIGIBLE else ELIG_PRIVATE)
               | UNLISTED =>
                   do* offered := look (λ st, exists_row st.(bl_offers) (is_offer owner plan_id service_tenant_id)) in
                   ret (if offered : bool then ELIGIBLE else NO_OFFER)
               end
  | _, _ => ret NOT_ADOPTED
  end.

(** The comprehension of [list_plans]: the plans found eligible, in the order of the rows. *)
Fixpoint eligible_plans (c : billing_caller) (service_tenant_id : uuid) (candidates : list (uuid * Plan)) : BM (list uuid) :=
  match candidates with
  | [] => ret []
  | (plan_id, plan) :: candidates =>
      do* reason := evaluate_plan_eligibility c service_tenant_id plan_id plan None in
      do* rest := eligible_plans c service_tenant_id candidates in
      ret (if bool_decide (reason = ELIGIBLE) then plan_id :: rest else rest)
  end.
Definition list_plans (c : billing_caller) (service_tenant_id : uuid) : BM (list uuid) :=
  do* _ := lift (require_billing_caller c) in
  session
    (do* candidates := look (λ st, filter (λ p : uuid * Plan, is_Some p.2.(pl_owner_tenant_id) ∧ p.2.(pl_withdrawn) = false)
                                     (map_to_list st.(bl_plans))) in
     eligible_plans c service_tenant_id candidates).

(** [_require_owned_merchant] *)
Definition require_owned_merchant (owner_tenant_id merchant_account_id : uuid) : BM MerchantAccount :=
  do* m := merchant_row owner_tenant_id merchant_account_id in
  do* _ := ensure (negb (bool_decide (m.(ma_status) = MA_DISABLED))) (CommercialPartyNotActiveError merchant_account_id) in
  ret m.

(** The unique indexes of the plans, for a row under its id; [None]: no conflict. *)
Definition plan_conflict (plans : gmap uuid Plan) (id : uuid) (p : Plan) : option string :=
  if exists_row (delete id plans) (λ q, p.(pl_legacy) && q.(pl_legacy) && bool_decide (q.(pl_key) = p.(pl_key)))
  then Some "uq_billing_plans_legacy_key"%string
  else if exists_row (delete id plans) (λ q, sql_eq q.(pl_owner_tenant_id) p.(pl_owner_tenant_id) && bool_decide (q.(pl_key) = p.(pl_key)))
  then Some "uq_billing_plans_owner_key"%string
  else None.
Definition write_plan (id : uuid) (p : Plan) : BM unit :=
  λ st, match plan_conflict st.(bl_plans) id p with
        | Some constraint => (Raise (BIntegrityError constraint), st)
        | None => (Ok tt, set_plans (<[id := p]> st.(bl_plans)) st)
        end.
Definition insert_plan (p : Plan) : BM uuid :=
  do* id := new_id in
  do* taken := look (λ st, bool_decide (is_Some (st.(bl_plans) !! id))) in
  do* _ := ensure (negb taken) (BIntegrityError "billing_plans_pkey") in
  do* _ := write_plan id p in
  ret id.
Definition owner_key_conflict {A : Type} (owner_tenant_id : uuid) (key : pystr) (constraint : string) : BM A :=
  throw (if String.eqb constraint "uq_billing_plans_owner_key" then DuplicateOwnedPlanKeyError owner_tenant_id key
         else BIntegrityError constraint).

Definition create_owned_plan (c : billing_caller) (owner_tenant_id merchant_account_id : uuid) (key name : pystr)
    (entitlements : list (pystr * jvalue)) (provider_price_id : option pystr) (visibility : PlanVisibility) : BM uuid :=
  do* _ := ensure (nonempty_text 100 key) InvalidCatalogValueError in
  do* _ := ensure (nonempty_text 200 name) InvalidCatalogValueError in
  do* validated := some (validate_entitlements entitlements) InvalidCatalogValueError in
  do* _ := ensure (match provider_price_id with Some r => nonempty_text 255 r | None => true end) InvalidCatalogValueError in
  do* _ := lift (require_billing_caller c) in
  on_conflict
    (session
       (do* authorized := authorize_billing c [(owner_tenant_id, BILLING_CATALOG, "manage"%string)] "billing.plan.create" in
        do* _ := open_tenant owner_tenant_id in
        do* _ := require_owned_merchant owner_tenant_id merchant_account_id in
        do* id := insert_plan (mkPlan key name provider_price_id validated (Some owner_tenant_id) (Some merchant_account_id)
                                 visibility false false) in
        do* _ := record_billing_audit authorized owner_tenant_id "billing.plan_created" id in
        ret id))
    (owner_key_conflict owner_tenant_id key).

Definition with_visibility (v : PlanVisibility) (p : Plan) : Plan :=
  mkPlan p.(pl_key) p.(pl_name) p.(pl_provider_price_id) p.(pl_entitlements) p.(pl_owner_tenant_id) p.(pl_merchant_account_id)
    v p.(pl_withdrawn) p.(pl_legacy).
Definition withdrawn_plan (p : Plan) : Plan :=
  mkPlan p.(pl_key) p.(pl_name) p.(pl_provider_price_id) p.(pl_entitlements) p.(pl_owner_tenant_id) p.(pl_merchant_account_id)
    p.(pl_visibility) true p.(pl_legacy).
Definition adopted_plan (owner merchant : uuid) (v : PlanVisibility) (p : Plan) : Plan :=
  mkPlan p.(pl_key) p.(pl_name) p.(pl_provider_price_id) p.(pl_entitlements) (Some owner) (Some merchant)
    v p.(pl_withdrawn) p.(pl_legacy).

(** [_lock_owned_plan] *)
Definition lock_owned_plan (owner_tenant_id plan_id : uuid) : BM Plan :=
  do* row := look (λ st, st.(bl_plans) !! plan_id) in
  match row with
  | Some p => do* _ := ensure (sql_eq p.(pl_owner_tenant_id) (Some owner_tenant_id)) (CatalogPlanNotFoundError owner_tenant_id plan_id) in ret p
  | None => throw (CatalogPlanNotFoundError owner_tenant_id plan_id)
  end.

Definition set_plan_visibility (c : billing_caller) (owner_tenant_id plan_id : uuid) (visibility : PlanVisibility) : BM Plan :=
  do* _ := lift (require_billing_caller c) in
  session
    (do* authorized := authorize_billing c [(owner_tenant_id, BILLING_CATALOG, "manage"%string)] "billing.plan.set_visibility" in
     do* plan := lock_owned_plan owner_tenant_id plan_id in
     if bool_decide (plan.(pl_visibility) = visibility) then ret plan
     else
       do* _ := write_plan plan_id (with_visibility visibility plan) in
       do* _ := record_billing_audit authorized owner_tenant_id "billing.plan_visibility_changed" plan_id in
       ret (with_visibility visibility plan)).

Definition withdraw_plan (c : billing_caller) (owner_tenant_id plan_id : uuid) : BM Plan :=
  do* _ := lift (require_billing_caller c) in
  session
    (do* authorized := authorize_billing c [(owner_tenant_id, BILLING_CATALOG, "manage"%string)] "billing.plan.withdraw" in
     do* plan := lock_owned_plan owner_tenant_id plan_id in
     if plan.(pl_withdrawn) then ret plan
     else
       do* _ := write_plan plan_id (withdrawn_plan plan) in
       do* _ := record_billing_audit authorized owner_tenant_id "billing.plan_withdrawn" plan_id in
       ret (withdrawn_plan plan)).

Definition find_offer (owner_tenant_id plan_id service_tenant_id : uuid) : BM (option uuid) :=
  look (λ st, find_row st.(bl_offers) (is_offer owner_tenant_id plan_id service_tenant_id)).
Definition insert_offer (o : PlanOffer) : BM uuid :=
  do* id := new_id in
  λ st, if bool_decide (is_Some (st.(bl_offers) !! id)) ||
           exists_row st.(bl_offers) (λ o', bool_decide (o'.(of_plan_id) = o.(of_plan_id)) &&
             bool_decide (o'.(of_service_tenant_id) = o.(of_service_tenant_id)) && bool_decide (o'.(of_revoked_at) = None))
        then (Raise (BIntegrityError "uq_billing_plan_offers_one_active"), st)
        else (Ok id, set_offers (<[id := o]> st.(bl_offers)) st).

Definition create_plan_offer (c : billing_caller) (owner_tenant_id plan_id service_tenant_id : uuid) : BM uuid :=
  do* _ := lift (require_billing_caller c) in
  on_conflict
    (session
       (do* authorized := authorize_billing c [(owner_tenant_id, BILLING_CATALOG, "manage"%string)] "billing.plan_offer.create" in
        do* _ := open_tenant owner_tenant_id in
        do* _ := open_tenant service_tenant_id in
        do* plan := lock_owned_plan owner_tenant_id plan_id in
        do* _ := ensure (negb plan.(pl_withdrawn)) (PlanWithdrawnError plan_id) in
        do* existing := find_offer owner_tenant_id plan_id service_tenant_id in
        match existing with
        | Some id => ret id
        | None =>
            do* id := insert_offer (mkOffer owner_tenant_id plan_id service_tenant_id None) in
            do* _ := record_billing_audit authorized owner_tenant_id "billing.plan_offer_created" id in
            ret id
        end))
    (λ constraint,
       session
         (do* existing := find_offer owner_tenant_id plan_id service_tenant_id in
          some existing (BIntegrityError constraint))).

Definition revoke_plan_offer (c : billing_caller) (owner_tenant_id offer_id : uuid) : BM unit :=
  do* _ := lift (require_billing_caller c) in
  session
    (do* authorized := authorize_billing c [(owner_tenant_id, BILLING_CATALOG, "manage"%string)] "billing.plan_offer.revoke" in
     do* row := look (λ st, owned of_tenant_id owner_tenant_id (st.(bl_offers) !! offer_id)) in
     do* offer := some row (PlanOfferNotFoundError owner_tenant_id offer_id) in
     match offer.(of_revoked_at) with
     | Some _ => ret tt
     | None =>
         do* _ := modify (λ st, set_offers (<[offer_id := mkOffer offer.(of_tenant_id) offer.(of_plan_id)
                                                offer.(of_service_tenant_id) (Some (now st))]> st.(bl_offers)) st) in
         record_billing_audit authorized owner_tenant_id "billing.plan_offer_revoked" offer_id
     end).

Definition adopt_legacy_plan (c : billing_caller) (plan_id owner_tenant_id merchant_account_id : uuid)
    (visibility : PlanVisibility) : BM Plan :=
  do* a := lift (require_billing_caller c) in
  do* _ := ensure (bool_decide (a.(ac_caller) = SystemCaller BILLING_SYSTEM_AUTHORITY))
             (BillingNotAuthorizedError "billing.plan.adopt_legacy") in
  on_conflict
    (session
       (do* authorized := authorize_billing c [] "billing.plan.adopt_legacy" in
        do* _ := open_tenant owner_tenant_id in
        do* _ := require_owned_merchant owner_tenant_id merchant_account_id in
        do* row := look (λ st, st.(bl_plans) !! plan_id) in
        do* plan := some row (LegacyPlanAdoptionError plan_id) in
        do* _ := ensure (plan.(pl_legacy) && bool_decide (plan.(pl_owner_tenant_id) = None)) (LegacyPlanAdoptionError plan_id) in
        do* _ := write_plan plan_id (adopted_plan owner_tenant_id merchant_account_id visibility plan) in
        do* _ := record_billing_audit authorized owner_tenant_id "billing.plan_adopted" plan_id in
        ret (adopted_plan owner_tenant_id merchant_account_id visibility plan)))
    (λ constraint,
       do* adopted_key := look (λ st, default [] (pl_key <$> st.(bl_plans) !! plan_id)) in
       owner_key_conflict owner_tenant_id adopted_key constraint).
(** ** provider_refs.py *)

Definition ref_key (provider provider_account_ref : pystr) (object_type : ProviderObjectType) (provider_object_ref : pystr) :=
  (provider, provider_account_ref, object_type, provider_object_ref).

Definition insert_ref (key : pystr * pystr * ProviderObjectType * pystr) (wanted : ProviderRefResolution) : BM unit :=
  λ st, if bool_decide (is_Some (st.(bl_refs) !! key)) ||
           bool_decide (tenants_of st.(bl_tenancy) !! wanted.(pr_tenant_id) = None)
        then (Raise (BIntegrityError "billing_provider_refs"), st)
        else (Ok tt, set_refs (<[key := wanted]> st.(bl_refs)) st).

Definition register_provider_ref (provider provider_account_ref : pystr) (object_type : ProviderObjectType)
    (provider_object_ref : pystr) (wanted : ProviderRefResolution) : BM unit :=
  do* _ := ensure (nonempty_text 50 provider) InvalidBillingPartyError in
  do* _ := ensure (nonempty_text 255 provider_account_ref) InvalidBillingPartyError in
  do* _ := ensure (nonempty_text 255 provider_object_ref) InvalidBillingPartyError in
  let key := ref_key provider provider_account_ref object_type provider_object_ref in
  on_conflict
    (session (insert_ref key wanted))
    (λ _,
       do* existing := session (look (λ st, st.(bl_refs) !! key)) in
       ensure (bool_decide (existing = Some wanted)) (ProviderRefConflictError provider object_type)).

Definition resolve_provider_ref (provider provider_account_ref : pystr) (object_type : ProviderObjectType)
    (provider_object_ref : pystr) : BM ProviderRefResolution :=
  do* existing := session (look (λ st, st.(bl_refs) !! ref_key provider provider_account_ref object_type provider_object_ref)) in
  some existing (ProviderRefNotFoundError provider object_type).

(** The reference recorded for a local object, if there is one. *)
Definition is_ref_to (provider provider_account_ref : pystr) (object_type : ProviderObjectType) (r : ProviderRefResolution)
    (row : (pystr * pystr * ProviderObjectType * pystr) * ProviderRefResolution) : bool :=
  bool_decide (row.1.1 = (provider, provider_account_ref, object_type)) && bool_decide (row.2 = r).
(** [find_provider_object_ref]: [scalar_one_or_none()] raises when two references name the object. *)
Definition find_provider_object_ref (provider provider_account_ref : pystr) (object_type : ProviderObjectType)
    (r : ProviderRefResolution) : BM (option pystr) :=
  session
    (read (λ st, match filter (λ row, is_ref_to provider provider_account_ref object_type r row = true) (map_to_list st.(bl_refs)) with
                 | [] => Ok None
                 | [row] => Ok (Some row.1.2)
                 | _ => Raise BMultipleResultsFound
                 end)).

(** ** projections.py *)

Definition with_version (version : Z) (updated_at : datetime) (s : Subscription) : Subscription :=
  mkSubscription s.(sb_tenant_id) s.(sb_plan_id) s.(sb_status) s.(sb_provider_subscription_id) s.(sb_payer_tenant_id)
    s.(sb_billing_account_id) s.(sb_merchant_account_id) s.(sb_provider) s.(sb_verification) version s.(sb_created_at) updated_at.

(** [announce_subscription_change], for the row of an id, which the caller has. *)
Definition announce_subscription_change (subscription_id : uuid) (created : bool) : BM unit :=
  λ st, match st.(bl_subscriptions) !! subscription_id with
        | None => (Raise BNoResultFound, st)
        | Some s =>
            let s' := if created then s else with_version (s.(sb_version) + 1) (now st) s in
            let st' := set_subscriptions (<[subscription_id := s']> st.(bl_subscriptions)) st in
            match s'.(sb_billing_account_id), s'.(sb_merchant_account_id) with
            | Some _, Some _ =>
                (Ok tt, set_announced ((s'.(sb_tenant_id), subscription_id, s'.(sb_version)) :: st'.(bl_announced)) st')
            | _, _ => (Ok tt, st')
            end
        end.

Record CanonicalSnapshot : Type := mkSnapshot {
  sn_payer_tenant_id : uuid;
  sn_billing_account_id : uuid;
  sn_merchant_tenant_id : uuid;
  sn_merchant_account_id : uuid;
  sn_row : Subscription;                     (* the columns copied from it *)
}.

(** [_canonical_snapshot] *)
Definition canonical_snapshot (service_tenant_id subscription_id : uuid) : BM (option CanonicalSnapshot) :=
  session
    (do* row := look (λ st, owned sb_tenant_id service_tenant_id (st.(bl_subscriptions) !! subscription_id)) in
     do* row := some row MalformedProjectionEventError in
     match row.(sb_payer_tenant_id), row.(sb_billing_account_id), row.(sb_merchant_account_id) with
     | Some payer, Some account_id, Some merchant =>
         do* account := look (λ st, owned ba_tenant_id payer (st.(bl_accounts) !! account_id)) in
         match account with
         | Some a =>
             do* _ := ensure (bool_decide (a.(ba_merchant_account_id) = merchant)) MalformedProjectionEventError in
             ret (Some (mkSnapshot payer account_id a.(ba_merchant_tenant_id) merchant row))
         | None => throw MalformedProjectionEventError
         end
     | _, _, _ => ret None
     end).

Inductive projection_outcome : Type := OWNER_CLOSED | INSERTED | STALE | UPDATED.

Definition project {A : Type} (values : A) (sn : CanonicalSnapshot) (projected_at : datetime) : Projection A :=
  mkProjection values sn.(sn_row).(sb_tenant_id) sn.(sn_merchant_account_id) sn.(sn_row).(sb_plan_id) sn.(sn_row).(sb_status)
    sn.(sn_row).(sb_verification) sn.(sn_row).(sb_created_at) sn.(sn_row).(sb_updated_at) sn.(sn_row).(sb_version) projected_at.

Definition merchant_of (st : billing_store) (tenant_id merchant_account_id : uuid) : bool :=
  bool_decide (is_Some (owned ma_tenant_id tenant_id (st.(bl_merchants) !! merchant_account_id))).
Definition SellerSubscription : read_model uuid :=
  mkReadModel _ bl_seller set_seller
    (λ st tenant_id p, merchant_of st tenant_id p.(pj_merchant_account_id)).
Definition PayerSubscription : read_model (uuid * uuid) :=
  mkReadModel _ bl_payer set_payer
    (λ st tenant_id p,
       bool_decide (is_Some (owned ba_tenant_id tenant_id (st.(bl_accounts) !! p.(pj_values).1))) &&
       merchant_of st p.(pj_values).2 p.(pj_merchant_account_id)).

Definition write_projection {A : Type} (model : read_model A) (owner_tenant_id subscription_id : uuid) (p : Projection A) : BM unit :=
  λ st, if model.(rm_keys) st owner_tenant_id p && bool_decide (1 ≤ p.(pj_version))
        then (Ok tt, model.(rm_set) (<[(owner_tenant_id, subscription_id) := p]> (model.(rm_rows) st)) st)
        else (Raise (BIntegrityError "projection"), st).

(** One attempt of [_apply_projection]. *)
Definition apply_once {A : Type} (model : read_model A) (owner_tenant_id subscription_id : uuid) (sn : CanonicalSnapshot)
    (values : A) : BM projection_outcome :=
  session
    (λ st,
       match lock_open_tenant st.(bl_tenancy) owner_tenant_id with
       | Raise (TenantClosedError _ _) => (Ok OWNER_CLOSED, st)
       | Raise e => (Raise (BTenant e), st)
       | Ok _ =>
           let p := project values sn (now st) in
           match model.(rm_rows) st !! (owner_tenant_id, subscription_id) with
           | None => (do* _ := write_projection model owner_tenant_id subscription_id p in ret INSERTED) st
           | Some existing =>
               if sn.(sn_row).(sb_version) <=? existing.(pj_version) then (Ok STALE, st)
               else (do* _ := write_projection model owner_tenant_id subscription_id p in ret UPDATED) st
           end
       end).
Definition apply_projection {A : Type} (model : read_model A) (owner_tenant_id subscription_id : uuid) (sn : CanonicalSnapshot)
    (values : A) : BM projection_outcome :=
  on_conflict (apply_once model owner_tenant_id subscription_id sn values)
    (λ _, apply_once model owner_tenant_id subscription_id sn values).

Definition project_subscription (service_tenant_id subscription_id : uuid) : BM bool :=
  do* snapshot := canonical_snapshot service_tenant_id subscription_id in
  match snapshot with
  | None => ret false
  | Some sn =>
      do* _ := apply_projection SellerSubscription sn.(sn_merchant_tenant_id) subscription_id sn sn.(sn_payer_tenant_id) in
      do* _ := apply_projection PayerSubscription sn.(sn_payer_tenant_id) subscription_id sn
                 (sn.(sn_billing_account_id), sn.(sn_merchant_tenant_id)) in
      ret true
  end.

(** [_project_subscription_job]; the payload has been parsed ([_parse_event]):
    an id and a version, [None] when it is malformed. *)
Definition parse_event (subscription_id : option uuid) (version : option Z) : result billing_error (uuid * Z) :=
  match subscription_id, version with
  | Some id, Some v => if v <? 1 then Raise MalformedProjectionEventError else Ok (id, v)
  | _, _ => Raise MalformedProjectionEventError
  end.
Definition project_subscription_job (service_tenant_id : uuid) (event_id : option uuid) (subscription_id : option uuid)
    (version : option Z) : BM unit :=
  do* parsed := lift (parse_event subscription_id version) in
  do* consumed := match event_id with
                  | Some e => session (look (λ st, bool_decide ((service_tenant_id, e) ∈ st.(bl_consumed))))
                  | None => ret false
                  end in
  if consumed : bool then ret tt
  else
    do* snapshot := canonical_snapshot service_tenant_id parsed.1 in
    do* _ := ensure (match snapshot with Some sn => parsed.2 <=? sn.(sn_row).(sb_version) | None => true end) ProjectionNotReadyError in
    do* _ := project_subscription service_tenant_id parsed.1 in
    match event_id with
    | Some e => session (modify (λ st, set_consumed ({[(service_tenant_id, e)]} ∪ st.(bl_consumed)) st))
    | None => ret tt
    end.

(** *** Reading the projections *)

Definition matches {A : Type} `{!EqDecision A} (wanted : option A) (x : A) : Prop :=
  match wanted with Some a => x = a | None => True end.
#[global] Instance matches_dec {A : Type} `{!EqDecision A} (wanted : option A) (x : A) : Decision (matches wanted x).
Proof using. unfold matches. destruct wanted; apply _. Defined.

Definition list_seller_subscriptions (c : billing_caller) (merchant_tenant_id : uuid) (merchant_account_id : option uuid)
    (status : option SubscriptionStatus) : BM (list (uuid * uuid * Projection uuid)) :=
  do* _ := lift (require_billing_caller c) in
  session
    (do* _ := authorize_billing c [(merchant_tenant_id, BILLING_MERCHANT, "manage"%string)] "billing.seller_subscriptions.read" in
     look (λ st, filter (λ r : uuid * uuid * Projection uuid, r.1.1 = merchant_tenant_id ∧
                           matches merchant_account_id r.2.(pj_merchant_account_id) ∧ matches status r.2.(pj_status))
                   (map_to_list st.(bl_seller)))).
Definition get_seller_subscription (c : billing_caller) (merchant_tenant_id subscription_id : uuid) : BM (Projection uuid) :=
  do* _ := lift (require_billing_caller c) in
  session
    (do* _ := authorize_billing c [(merchant_tenant_id, BILLING_MERCHANT, "manage"%string)] "billing.seller_subscriptions.read" in
     do* row := look (λ st, st.(bl_seller) !! (merchant_tenant_id, subscription_id)) in
     some row (SubscriptionProjectionNotFoundError merchant_tenant_id subscription_id)).
Definition list_payer_subscriptions (c : billing_caller) (payer_tenant_id : uuid) (billing_account_id : option uuid)
    (status : option SubscriptionStatus) : BM (list (uuid * uuid * Projection (uuid * uuid))) :=
  do* _ := lift (require_billing_caller c) in
  session
    (do* _ := authorize_billing c [(payer_tenant_id, BILLING_ACCOUNT, "read"%string)] "billing.payer_subscriptions.read" in
     look (λ st, filter (λ r : uuid * uuid * Projection (uuid * uuid), r.1.1 = payer_tenant_id ∧
                           matches billing_account_id r.2.(pj_values).1 ∧ matches status r.2.(pj_status))
                   (map_to_list st.(bl_payer)))).
Definition get_payer_subscription (c : billing_caller) (payer_tenant_id subscription_id : uuid) : BM (Projection (uuid * uuid)) :=
  do* _ := lift (require_billing_caller c) in
  session
    (do* _ := authorize_billing c [(payer_tenant_id, BILLING_ACCOUNT, "read"%string)] "billing.payer_subscriptions.read" in
     do* row := look (λ st, st.(bl_payer) !! (payer_tenant_id, subscription_id)) in
     some row (SubscriptionProjectionNotFoundError payer_tenant_id subscription_id)).

End Billing.
