(* ===== verification/BillingService.v ===== *)
(** * Billing: plans, legacy subscriptions and entitlements
    (saas_os/core/billing/service.py, the transitions of lifecycle.py)

    Calls to the payment provider go through an [Adapter]; every call is kept in
    [bl_calls] with what the provider answered.  [default_provider] is the adapter
    of [_default_provider()], if one can be built.

    The idempotency records are those of the idempotency component;
    [compute_fingerprint] digests a payload. *)

From S2P Require Import Prelude PyStr TenantLifecycle PlatformAuthority PlatformService TenantHierarchy RbacDecision RbacService Idempotency BillingModel Billing.
#[local] Open Scope Z_scope.

(** The payloads of the operations with an idempotency key. *)
Inductive billing_payload : Type :=
| PlanKeyPayload (plan_key : pystr)
| CommercialPayload (plan_id payer_tenant_id billing_account_id : uuid).

(** [SubscribeResult.from_subscription] *)
Definition from_subscription (id : uuid) (s : Subscription) : SubscribeResult :=
  mkSubscribeResult id s.(sb_plan_id) s.(sb_status) s.(sb_provider_subscription_id) s.(sb_payer_tenant_id)
    s.(sb_billing_account_id) s.(sb_provider).

(** ** lifecycle.py *)

Definition with_status (status : SubscriptionStatus) (s : Subscription) : Subscription :=
  mkSubscription s.(sb_tenant_id) s.(sb_plan_id) status s.(sb_provider_subscription_id) s.(sb_payer_tenant_id)
    s.(sb_billing_account_id) s.(sb_merchant_account_id) s.(sb_provider) s.(sb_verification) s.(sb_version)
    s.(sb_created_at) s.(sb_updated_at).
Definition with_plan (plan_id : uuid) (s : Subscription) : Subscription :=
  mkSubscription s.(sb_tenant_id) plan_id s.(sb_status) s.(sb_provider_subscription_id) s.(sb_payer_tenant_id)
    s.(sb_billing_account_id) s.(sb_merchant_account_id) s.(sb_provider) s.(sb_verification) s.(sb_version)
    s.(sb_created_at) s.(sb_updated_at).
Definition with_parties (payer account merchant : uuid) (provider : pystr) (s : Subscription) : Subscription :=
  mkSubscription s.(sb_tenant_id) s.(sb_plan_id) s.(sb_status) s.(sb_provider_subscription_id) (Some payer)
    (Some account) (Some merchant) (Some provider) VERIFIED s.(sb_version) s.(sb_created_at) s.(sb_updated_at).

(** The row after the change, and whether it changed. *)
Definition set_subscription_status (s : Subscription) (target : SubscriptionStatus) : result billing_error (Subscription * bool) :=
  if negb (is_transition_allowed s.(sb_status) target) then Raise (InvalidSubscriptionTransitionError s.(sb_status) target)
  else if bool_decide (s.(sb_status) = target) then Ok (s, false)
  else Ok (with_status target s, true).

(** ** The constraints of the subscriptions (models.py) *)

(** The partial unique index: one live subscription of a tenant at a merchant. *)
Definition same_live (s s' : Subscription) : bool :=
  bool_decide (s'.(sb_tenant_id) = s.(sb_tenant_id)) && sql_eq s'.(sb_merchant_account_id) s.(sb_merchant_account_id) &&
  is_live s'.(sb_status) && is_live s.(sb_status).

(** The check constraints and the foreign key to the billing account. *)
Definition consistent_parties (accounts : gmap uuid BillingAccount) (s : Subscription) : bool :=
  match s.(sb_payer_tenant_id), s.(sb_billing_account_id), s.(sb_merchant_account_id) with
  | None, None, None => bool_decide (s.(sb_verification) ≠ VERIFIED)
  | Some payer, Some account, Some merchant =>
      match owned ba_tenant_id payer (accounts !! account) with
      | Some a => bool_decide (a.(ba_merchant_account_id) = merchant)
      | None => false
      end
  | _, _, _ => false
  end.

Definition ONE_LIVE_INDEX : string := "uq_billing_subscriptions_one_live_per_merchant".

(** Insert or update of the row of an id. *)
Definition write_subscription (id : uuid) (s : Subscription) : BM unit :=
  λ st,
    if bool_decide (255 < length s.(sb_provider_subscription_id))%nat ||
       match s.(sb_provider) with Some p => bool_decide (50 < length p)%nat | None => false end
    then (Raise BDataError, st)
    else if exists_row (delete id st.(bl_subscriptions)) (same_live s) then (Raise (BIntegrityError ONE_LIVE_INDEX), st)
    else if negb (consistent_parties st.(bl_accounts) s) ||
            bool_decide (st.(bl_plans) !! s.(sb_plan_id) = None) ||
            bool_decide (tenants_of st.(bl_tenancy) !! s.(sb_tenant_id) = None)
    then (Raise (BIntegrityError "billing_subscriptions"), st)
    else (Ok tt, set_subscriptions (<[id := s]> st.(bl_subscriptions)) st).
Definition insert_subscription (id : uuid) (s : Subscription) : BM unit :=
  do* taken := look (λ st, bool_decide (is_Some (st.(bl_subscriptions) !! id))) in
  do* _ := ensure (negb taken) (BIntegrityError "billing_subscriptions_pkey") in
  write_subscription id s.

(** A new row, and a changed one, flushed and announced. *)
Definition save_created (clock : nat → datetime) (id : uuid) (s : Subscription) : BM unit :=
  do* _ := insert_subscription id s in announce_subscription_change clock id true.
Definition save_changed (clock : nat → datetime) (id : uuid) (s : Subscription) : BM unit :=
  do* _ := write_subscription id s in announce_subscription_change clock id false.

Section Service.
Context (uuid4 : nat → uuid) (clock : nat → datetime) (env : nat → billing_store → billing_store).
Context (default_provider : option Adapter).
Context (compute_fingerprint : billing_payload → pystr) (cfg : IdempotencyConfig).

Abbreviation session := (session env).

(** ** The provider *)

Definition call_provider (ad : Adapter) (rq : provider_request) : BM pystr :=
  do* _ := gap env in
  λ st, let answer := ad.(ad_answer) st.(bl_tick) st.(bl_calls) rq in
        let st' := set_calls (mkCall ad.(ad_name) rq answer :: st.(bl_calls)) st in
        match answer with Some r => (Ok r, st') | None => (Raise BillingProviderError, st') end.
Definition get_subscription_status (ad : Adapter) (provider_subscription_id : pystr) : BM ProviderSubscriptionState :=
  do* _ := gap env in
  read (λ st, match ad.(ad_get_subscription_status) st.(bl_tick) st.(bl_calls) provider_subscription_id with
              | Some state => Ok state
              | None => Raise BillingProviderError
              end).

Definition cancel_at_provider (ad : Adapter) (provider_subscription_id : pystr) : BM unit :=
  λ st, match call_provider ad (RqCancel provider_subscription_id) st with
        | (Ok _, st') => (Ok tt, st')
        | (Raise BillingProviderError, st') =>
            match get_subscription_status ad provider_subscription_id st' with
            | (Ok PS_CANCELED, st'') => (Ok tt, st'')
            | (_, st'') => (Raise BillingProviderError, st'')
            end
        | (Raise e, st') => (Raise e, st')
        end.

(** [provider or _default_provider()] *)
Definition active_provider (provider : option Adapter) : BM Adapter :=
  match provider with
  | Some ad => ret ad
  | None => some default_provider DefaultProviderUnavailableError
  end.

(** [record_audit_event]: its own transaction. *)
Definition record_audit_event (tenant_id : uuid) (actor_user_id : option uuid) (action : string) (resource_id : uuid)
    (outcome : AuditOutcome) : BM unit :=
  session (add_audit tenant_id actor_user_id action resource_id outcome).

(** ** Tenants *)

Definition tenant_row (tenant_id : uuid) : BM Tenant := session (read (λ st, tenant_result (get_tenant st.(bl_tenancy) tenant_id))).
Definition open_tenant_row (tenant_id : uuid) : BM Tenant :=
  session (read (λ st, tenant_result (require_open_tenant st.(bl_tenancy) tenant_id))).
Definition require_service_tenant_owns_billing (tenant_id : uuid) (t : Tenant) : BM unit :=
  ensure (negb t.(t_inherits_billing)) (InheritedBillingSubscriptionError tenant_id).

(** ** Plans *)

Definition create_plan (key name : pystr) (entitlements : list (pystr * jvalue)) (provider_price_id : option pystr) : BM uuid :=
  do* _ := ensure (nonempty_text 100 key) InvalidPlanKeyError in
  do* validated := some (validate_entitlements entitlements) InvalidCatalogValueError in
  on_conflict
    (session
       (do* _ := ensure (bool_decide (length name ≤ 200)%nat &&
                         match provider_price_id with Some r => bool_decide (length r ≤ 255)%nat | None => true end) BDataError in
        insert_plan uuid4 (mkPlan key name provider_price_id validated None None PUBLIC false true)))
    (λ _, throw (DuplicatePlanKeyError key)).

Definition get_plan (key : pystr) : BM (uuid * Plan) :=
  session
    (do* found := look (λ st, find (λ p : uuid * Plan, bool_decide (p.2.(pl_key) = key) && p.2.(pl_legacy)) (map_to_list st.(bl_plans))) in
     some found (PlanNotFoundError key)).

(** [_refuse_withdrawn], of the plan as read and again within a session *)
Definition refuse_withdrawn (tenant_id plan_id : uuid) (plan : Plan) : BM unit :=
  ensure (negb plan.(pl_withdrawn)) (PlanNotEligibleError tenant_id plan_id "withdrawn").
Definition refuse_withdrawn_now (tenant_id plan_id : uuid) : BM unit :=
  do* row := look (λ st, st.(bl_plans) !! plan_id) in
  do* plan := some row BNoResultFound in
  refuse_withdrawn tenant_id plan_id plan.

(** [_refuse_commercial] *)
Definition refuse_commercial (subscription_id : uuid) (s : Subscription) : BM unit :=
  ensure (negb (bool_decide (s.(sb_verification) = VERIFIED) || bool_decide (is_Some s.(sb_billing_account_id))))
    (LegacyBillingPathError subscription_id).

(** ** Subscriptions *)

Definition subscription_row (tenant_id subscription_id : uuid) : BM Subscription :=
  do* row := look (λ st, owned sb_tenant_id tenant_id (st.(bl_subscriptions) !! subscription_id)) in
  some row (SubscriptionNotFoundError tenant_id subscription_id).
Definition get_subscription (tenant_id subscription_id : uuid) : BM Subscription :=
  session (subscription_row tenant_id subscription_id).
Definition list_subscriptions (tenant_id : uuid) : BM (list (uuid * Subscription)) :=
  session (look (λ st, filter (λ p : uuid * Subscription, p.2.(sb_tenant_id) = tenant_id) (map_to_list st.(bl_subscriptions)))).

Definition subscribe (tenant_id : uuid) (plan_key : pystr) (provider : option Adapter) (actor_user_id : option uuid) :
    BM (uuid * Subscription) :=
  do* tenant := open_tenant_row tenant_id in
  do* _ := require_service_tenant_owns_billing tenant_id tenant in
  do* found := get_plan plan_key in
  do* _ := refuse_withdrawn tenant_id found.1 found.2 in
  do* ad := active_provider provider in
  do* provider_subscription_id := call_provider ad (RqCreate tenant_id found.1 None None) in
  do* created :=
    session
      (do* _ := refuse_withdrawn_now tenant_id found.1 in
       do* id := new_id uuid4 in
       do* at_ := look (now clock) in
       let row := mkSubscription tenant_id found.1 SUB_ACTIVE provider_subscription_id None None None ad.(ad_name)
                    LEGACY_UNVERIFIED 1 at_ at_ in
       do* _ := save_created clock id row in
       ret (id, row)) in
  do* _ := record_audit_event tenant_id actor_user_id "billing.subscription_created" created.1 AUDIT_SUCCESS in
  ret created.

Definition upgrade_subscription (tenant_id subscription_id : uuid) (new_plan_key : pystr) (provider : option Adapter)
    (actor_user_id : option uuid) : BM unit :=
  do* tenant := open_tenant_row tenant_id in
  do* _ := require_service_tenant_owns_billing tenant_id tenant in
  do* subscription := get_subscription tenant_id subscription_id in
  do* _ := refuse_commercial subscription_id subscription in
  do* new_plan := get_plan new_plan_key in
  do* _ := refuse_withdrawn tenant_id new_plan.1 new_plan.2 in
  do* ad := active_provider provider in
  do* _ := call_provider ad (RqChangePlan subscription.(sb_provider_subscription_id) new_plan.1) in
  do* _ :=
    session
      (do* row := subscription_row tenant_id subscription_id in
       do* _ := refuse_commercial subscription_id row in
       do* _ := refuse_withdrawn_now tenant_id new_plan.1 in
       save_changed clock subscription_id (with_plan new_plan.1 row)) in
  record_audit_event tenant_id actor_user_id "billing.subscription_upgraded" subscription_id AUDIT_SUCCESS.

Definition cancel_subscription (tenant_id subscription_id : uuid) (provider : option Adapter) (actor_user_id : option uuid) : BM unit :=
  do* tenant := tenant_row tenant_id in
  do* _ := require_service_tenant_owns_billing tenant_id tenant in
  do* subscription := get_subscription tenant_id subscription_id in
  do* _ := refuse_commercial subscription_id subscription in
  do* ad := active_provider provider in
  do* _ := cancel_at_provider ad subscription.(sb_provider_subscription_id) in
  do* _ :=
    session
      (do* row := subscription_row tenant_id subscription_id in
       do* _ := refuse_commercial subscription_id row in
       do* changed := lift (set_subscription_status row SUB_CANCELED) in
       if changed.2 then save_changed clock subscription_id changed.1 else ret tt) in
  record_audit_event tenant_id actor_user_id "billing.subscription_canceled" subscription_id AUDIT_SUCCESS.

(** ** Idempotency keys *)

(** A primitive of the idempotency component, between two gaps. *)
Definition in_idem {A : Type} (m : M (idem_store unit SubscribeResult) (idem_error unit) A) : BM A :=
  do* _ := gap env in
  λ st, match m (mkIdemStore (tenants_of st.(bl_tenancy)) st.(bl_idem) tt st.(bl_rbac).(rs_drawn)) with
        | (r, s') =>
            (match r with Ok a => Ok a | Raise e => Raise (BIdempotency e) end,
             set_idem s'.(is_records)
               (set_rbac (mkRbacStore st.(bl_rbac).(rs_rows) st.(bl_rbac).(rs_roles) st.(bl_rbac).(rs_events) s'.(is_drawn)) st))
        end.

(** The result of a completed operation that stored none: no operation does. *)
Definition no_result : SubscribeResult := mkSubscribeResult 0%N 0%N SUB_PENDING [] None None None.

Definition begin_operation (tenant_id : uuid) (operation : string) (key : pystr) (payload : billing_payload) :
    BM (IdempotencyReservation SubscribeResult) :=
  do* at_ := look (now clock) in
  in_idem (begin_idempotent_operation no_result compute_fingerprint uuid4 cfg at_ (mkRequest tenant_id (lit operation) key payload at_)).
Definition finalize_operation (tenant_id id : uuid) (status : IdempotencyStatus) (result : option SubscribeResult) : BM unit :=
  do* at_ := look (now clock) in
  in_idem (finalize_idempotent_operation at_ tenant_id id status result).

(** [try: ... except Exception: cleanup; raise] *)
Definition or_else_cleanup {A : Type} (m : BM A) (cleanup : BM unit) : BM A :=
  λ st, match m st with
        | (Raise e, st') => match cleanup st' with (Ok _, st'') => (Raise e, st'') | (Raise e', st'') => (Raise e', st'') end
        | ok => ok
        end.

Definition subscribe_idempotent (tenant_id : uuid) (plan_key idempotency_key : pystr) (provider : option Adapter)
    (actor_user_id : option uuid) : BM (bool * SubscribeResult) :=
  do* reservation := begin_operation tenant_id "billing.subscribe" idempotency_key (PlanKeyPayload plan_key) in
  if reservation.(is_replay) then
    do* stored := some reservation.(res_result) BAssertionError in
    ret (true, stored)
  else
    do* created := or_else_cleanup (subscribe tenant_id plan_key provider actor_user_id)
                     (finalize_operation tenant_id reservation.(record_id) IDEM_FAILED None) in
    let result := from_subscription created.1 created.2 in
    do* _ := finalize_operation tenant_id reservation.(record_id) IDEM_SUCCEEDED (Some result) in
    ret (false, result).

(** ** Entitlements *)

Fixpoint first_owner (tenant_id : uuid) (chain : list uuid) : BM uuid :=
  match chain with
  | [] => throw (InvalidBillingHierarchyError tenant_id)
  | ancestor_id :: chain =>
      do* ancestor := tenant_row ancestor_id in
      if ancestor.(t_inherits_billing) then first_owner tenant_id chain else ret ancestor_id
  end.
Definition resolve_billing_owner (tenant_id : uuid) : BM uuid :=
  do* tenant := tenant_row tenant_id in
  if negb tenant.(t_inherits_billing) then ret tenant_id
  else
    do* chain := session (look (λ st, get_ancestor_chain st.(bl_tenancy) tenant_id)) in
    first_owner tenant_id chain.

(** [ORDER BY created_at DESC, id] *)
Definition newest_first (p q : uuid * Subscription) : Prop :=
  q.2.(sb_created_at) < p.2.(sb_created_at) ∨ p.2.(sb_created_at) = q.2.(sb_created_at) ∧ (p.1 ≤ q.1)%N.
#[global] Instance newest_first_dec : RelDecision newest_first.
Proof using. intros p q. unfold newest_first. apply _. Defined.
Definition granting_plans (st : billing_store) (owner_tenant_id : uuid) : list uuid :=
  (λ p : uuid * Subscription, p.2.(sb_plan_id)) <$>
    merge_sort newest_first
      (filter (λ p : uuid * Subscription, p.2.(sb_tenant_id) = owner_tenant_id ∧ grants_entitlements p.2.(sb_status) = true)
         (map_to_list st.(bl_subscriptions))).

Definition entitlement_maps_for (tenant_id : uuid) : BM (list entitlements) :=
  do* owner := resolve_billing_owner tenant_id in
  do* plan_ids := session (look (λ st, granting_plans st owner)) in
  match plan_ids with
  | [] => ret []
  | _ => session (look (λ st, omap (λ plan_id, pl_entitlements <$> st.(bl_plans) !! plan_id) plan_ids))
  end.
Definition get_entitlements (tenant_id : uuid) : BM entitlements :=
  do* maps := entitlement_maps_for tenant_id in
  ret (combine_entitlements maps).
Definition has_entitlement (tenant_id : uuid) (key : pystr) : BM bool :=
  do* e := get_entitlements tenant_id in
  ret (bool_decide (e !! key = Some (JBool true))).
Definition require_entitlement (tenant_id : uuid) (key : pystr) : BM unit :=
  do* held := has_entitlement tenant_id key in
  ensure held (EntitlementDeniedError tenant_id key).

End Service.
