(* ===== verification/BillingCommercial.v ===== *)
(** * Billing: commercial subscriptions and provider events
    (saas_os/core/billing: commercial.py, inheritance.py, provider_events.py)

    [uuid5] is the subscription id derived from an operation's id, [uuid_text]
    the text of an id, [platform_tenant_id] the configured platform tenant. *)

From S2P Require Import Prelude PyStr TenantLifecycle PlatformAuthority PlatformService TenantHierarchy RbacDecision RbacService Idempotency BillingModel Billing BillingService.
#[local] Open Scope Z_scope.

Definition STRIPE : pystr := lit "stripe".
Definition CREATE_OPERATION : string := "billing.subscription.create".
Definition MIGRATION_OPERATION : string := "billing.subscription.migrate_inheritance".

(** The arguments of a creation. *)
Record creation : Type := mkCreation {
  cr_caller : billing_caller;
  cr_service_tenant_id : uuid;
  cr_payer_tenant_id : uuid;
  cr_billing_account_id : uuid;
  cr_plan_id : uuid;
  cr_idempotency_key : pystr;
  cr_provider : option Adapter;
  cr_operation : string;
  cr_migrating_inheritance : bool;
}.
Definition creation_checks (q : creation) : list (uuid * string * string) :=
  [(q.(cr_payer_tenant_id), BILLING_ACCOUNT, "charge"%string); (q.(cr_service_tenant_id), BILLING_SUBSCRIPTION, "create"%string)] ++
  (if q.(cr_migrating_inheritance) then [(q.(cr_service_tenant_id), BILLING_SUBSCRIPTION, "change"%string)] else []).
Definition creation_payload (q : creation) : billing_payload :=
  CommercialPayload q.(cr_plan_id) q.(cr_payer_tenant_id) q.(cr_billing_account_id).

(** [_CommercialContext]; the ids of the plan and the account are the request's. *)
Record CommercialContext : Type := mkCommercial {
  cc_authorized : AuthorizedBillingCaller;
  cc_plan : Plan;
  cc_account : BillingAccount;
  cc_merchant_id : uuid;
  cc_merchant : MerchantAccount;
}.

Record SubscriptionReconciliation : Type := mkReconciliation {
  rc_previous_status : SubscriptionStatus;
  rc_status : SubscriptionStatus;
  rc_provider_state : ProviderSubscriptionState;
  rc_changed : bool;
}.

Inductive CancellationCapacity : Type := AS_SERVICE_TENANT | AS_PAYER | AS_MERCHANT.

(** [LookupError] *)
Definition is_lookup_error (e : billing_error) : bool :=
  match e with
  | PlanNotFoundError _ | SubscriptionNotFoundError _ _ | MerchantAccountNotFoundError _ _ | BillingAccountNotFoundError _ _
  | ProviderRefNotFoundError _ _ | CatalogPlanNotFoundError _ _ | PlanOfferNotFoundError _ _
  | SubscriptionProjectionNotFoundError _ _ | SubscriptionNotYetKnownError | BTenant (TenantNotFoundError _) => true
  | _ => false
  end.
Definition final_refusal (e : billing_error) : bool :=
  match e with
  | BillingNotAuthorizedError _ | PlanNotEligibleError _ _ _ | BillingAccountNotFoundError _ _ | CommercialPartyNotActiveError _
  | BTenant (TenantClosedError _ _) | InheritedBillingSubscriptionError _ | LiveSubscriptionExistsError _ _
  | BillingInheritanceMigrationError _ => true
  | _ => false
  end.

Section Commercial.
Context (uuid4 : nat → uuid) (clock : nat → datetime) (env : nat → billing_store → billing_store).
Context (default_provider : option Adapter).
Context (compute_fingerprint : billing_payload → pystr) (cfg : IdempotencyConfig).
Context (uuid5 : uuid → uuid) (uuid_text : uuid → pystr) (platform_tenant_id : option uuid).

Abbreviation session := (session env).
Abbreviation authorize_billing := (authorize_billing uuid4 clock).
Abbreviation call_provider := (call_provider env).

Definition get_platform_tenant_id : BM uuid := some platform_tenant_id PlatformTenantNotConfiguredError.

(** ** Helpers *)

(** [_adapter_for] *)
Definition adapter_for (expected : option pystr) (provider : option Adapter) : BM Adapter :=
  do* ad := match provider with
            | Some ad => ret ad
            | None => if bool_decide (expected = Some STRIPE) then some default_provider DefaultProviderUnavailableError
                      else throw (BillingProviderMismatchError expected None)
            end in
  do* _ := ensure (bool_decide (ad.(ad_name) = expected)) (BillingProviderMismatchError expected ad.(ad_name)) in
  ret ad.

(** [_adapter_for_merchant] *)
Definition adapter_for_merchant (m : MerchantAccount) (provider : option Adapter) : BM Adapter :=
  let expected := Some m.(ma_provider) in
  do* own := (if bool_decide (m.(ma_provider) = STRIPE)
              then do* platform := get_platform_tenant_id in ret (bool_decide (m.(ma_tenant_id) = platform))
              else ret true) in
  if own : bool then adapter_for expected provider
  else match provider with
       | None => throw (BillingProviderMismatchError expected None)
       | Some _ =>
           do* ad := adapter_for expected provider in
           do* _ := ensure ad.(ad_acts_in_merchant_accounts) (BillingProviderMismatchError expected ad.(ad_name)) in
           ret ad
       end.

(** [_resolve_legacy_merchant_context] *)
Definition resolve_legacy_merchant_context (payer_tenant_id billing_account_id : uuid) (provider : option Adapter) :
    BM (BillingAccount * MerchantAccount * Adapter) :=
  do* a := get_billing_account env payer_tenant_id billing_account_id in
  do* account := require_active_billing_account billing_account_id a in
  do* m := get_merchant_account env account.(ba_merchant_tenant_id) account.(ba_merchant_account_id) in
  do* merchant := require_active_merchant_account account.(ba_merchant_account_id) m in
  do* platform := get_platform_tenant_id in
  do* _ := ensure (bool_decide (merchant.(ma_tenant_id) = platform)) (MerchantNotEligibleForPlanError account.(ba_merchant_account_id)) in
  do* ad := adapter_for (Some merchant.(ma_provider)) provider in
  ret (account, merchant, ad).

(** [_live_subscription_exists] *)
Definition live_subscription_exists (service_tenant_id merchant_account_id : uuid) : BM bool :=
  session (look (λ st, exists_row st.(bl_subscriptions) (λ s,
    bool_decide (s.(sb_tenant_id) = service_tenant_id) && sql_eq s.(sb_merchant_account_id) (Some merchant_account_id) &&
    is_live s.(sb_status)))).

(** [_load] is [get_subscription]; [_find_by_id] *)
Definition find_by_id (service_tenant_id subscription_id : uuid) : BM (option Subscription) :=
  session (look (λ st, owned sb_tenant_id service_tenant_id (st.(bl_subscriptions) !! subscription_id))).

(** [try: ... except <errors>: raise e] *)
Definition replace_error {A : Type} (m : BM A) (caught : billing_error → bool) (e : billing_error) : BM A :=
  λ st, match m st with (Raise e', st') => (Raise (if caught e' then e else e'), st') | ok => ok end.

(** [_verify_provider_reference] *)
Definition verify_provider_reference (id : uuid) (row : Subscription) : BM unit :=
  let mismatch := ProviderReferenceMismatchError id in
  match row.(sb_provider), row.(sb_payer_tenant_id), row.(sb_billing_account_id), row.(sb_merchant_account_id) with
  | Some provider, Some payer, Some account_id, Some merchant_id =>
      do* found :=
        replace_error
          (do* account := get_billing_account env payer account_id in
           do* merchant := get_merchant_account env account.(ba_merchant_tenant_id) account.(ba_merchant_account_id) in
           do* resolution := resolve_provider_ref env provider merchant.(ma_provider_account_ref) OBJ_SUBSCRIPTION
                               row.(sb_provider_subscription_id) in
           ret (account.(ba_merchant_account_id), resolution))
          is_lookup_error mismatch in
      ensure (bool_decide (found.1 = merchant_id) &&
              bool_decide (found.2 = mkResolution row.(sb_tenant_id) LOCAL_SUBSCRIPTION id)) mismatch
  | _, _, _, _ => throw mismatch
  end.

(** [_apply_provider_state]: the row, its previous status, whether it changed. *)
Definition apply_provider_state (service_tenant_id subscription_id : uuid) (state : ProviderSubscriptionState)
    (c : billing_caller) (checks : list (uuid * string * string)) (operation : string) :
    BM (Subscription * SubscriptionStatus * bool) :=
  session
    (do* authorized := authorize_billing c checks operation in
     do* row := subscription_row service_tenant_id subscription_id in
     let previous := row.(sb_status) in
     match target_status_for state with
     | None => ret (row, previous, false)
     | Some target =>
         if negb (is_transition_allowed previous target) then ret (row, previous, false)
         else
           do* changed := lift (set_subscription_status row target) in
           if changed.2 then
             do* _ := save_changed clock subscription_id changed.1 in
             do* _ := record_billing_audit authorized service_tenant_id "billing.subscription_status_changed" subscription_id in
             do* updated := subscription_row service_tenant_id subscription_id in
             ret (updated, previous, true)
           else ret (row, previous, false)
     end).

(** [_require_migratable] *)
Definition require_migratable (service_tenant_id : uuid) (t : Tenant) : BM unit :=
  do* _ := ensure t.(t_inherits_billing) (BillingInheritanceMigrationError service_tenant_id) in
  do* live := look (λ st, exists_row st.(bl_subscriptions) (λ s,
                      bool_decide (s.(sb_tenant_id) = service_tenant_id) && is_live s.(sb_status))) in
  ensure (negb live) (BillingInheritanceMigrationError service_tenant_id).

(** [_commercial_context], within a session *)
Definition commercial_context (q : creation) : BM CommercialContext :=
  let service := q.(cr_service_tenant_id) in
  do* authorized := authorize_billing q.(cr_caller) (creation_checks q) q.(cr_operation) in
  do* service_tenant := open_tenant service in
  do* _ := open_tenant q.(cr_payer_tenant_id) in
  do* _ := (if q.(cr_migrating_inheritance) then require_migratable service service_tenant
            else require_service_tenant_owns_billing service service_tenant) in
  do* plan_row := look (λ st, st.(bl_plans) !! q.(cr_plan_id)) in
  do* plan := some plan_row (PlanNotEligibleError service q.(cr_plan_id) "not_found") in
  do* a := account_row q.(cr_payer_tenant_id) q.(cr_billing_account_id) in
  do* account := require_active_billing_account q.(cr_billing_account_id) a in
  do* reason := evaluate_plan_eligibility uuid4 clock q.(cr_caller) service q.(cr_plan_id) plan (Some account.(ba_merchant_account_id)) in
  do* _ := ensure (bool_decide (reason = ELIGIBLE)) (PlanNotEligibleError service q.(cr_plan_id) (reason_value reason)) in
  match plan.(pl_owner_tenant_id), plan.(pl_merchant_account_id) with
  | Some owner, Some merchant_id =>
      do* m := look (λ st, owned ma_tenant_id owner (st.(bl_merchants) !! merchant_id)) in
      do* merchant := some m BAssertionError in
      ret (mkCommercial authorized plan account merchant_id merchant)
  | _, _ => throw BAssertionError
  end.

(** [_provider_context] *)
Definition provider_context (q : creation) (merchant_id : uuid) (m : MerchantAccount) (customer_ref : option pystr) :
    ProviderCommerceContext :=
  mkContext merchant_id m.(ma_provider_account_ref) q.(cr_payer_tenant_id) q.(cr_billing_account_id) customer_ref.

Definition with_customer (ref : pystr) (a : BillingAccount) : BillingAccount :=
  mkAccount a.(ba_tenant_id) a.(ba_merchant_tenant_id) a.(ba_merchant_account_id) (Some ref) a.(ba_active).

(** The conditional [UPDATE] of the account's customer and the read that follows. *)
Definition store_customer (payer_tenant_id billing_account_id : uuid) (customer_ref : pystr) : BM pystr :=
  session
    (do* row := look (λ st, owned ba_tenant_id payer_tenant_id (st.(bl_accounts) !! billing_account_id)) in
     do* a := some row BNoResultFound in
     match a.(ba_provider_customer_ref) with
     | Some stored => ret stored
     | None =>
         do* _ := modify (λ st, set_accounts (<[billing_account_id := with_customer customer_ref a]> st.(bl_accounts)) st) in
         ret customer_ref
     end).

(** [_ensure_provider_customer] *)
Definition ensure_provider_customer (ad : Adapter) (q : creation) (account : BillingAccount) (merchant_id : uuid) (m : MerchantAccount) :
    BM pystr :=
  match account.(ba_provider_customer_ref) with
  | Some ref => ret ref
  | None =>
      do* customer_ref := call_provider ad (RqCustomer (provider_context q merchant_id m None)
                            (lit "saas-os:billing.customer:" ++ uuid_text q.(cr_billing_account_id))) in
      do* _ := register_provider_ref env m.(ma_provider) m.(ma_provider_account_ref) OBJ_CUSTOMER customer_ref
                 (mkResolution account.(ba_tenant_id) LOCAL_ACCOUNT q.(cr_billing_account_id)) in
      store_customer account.(ba_tenant_id) q.(cr_billing_account_id) customer_ref
  end.

(** ** Creation *)

Definition own_billing (t : Tenant) : Tenant := mkTenant t.(t_name) t.(t_status) t.(t_parent_id) false.

(** The transaction of [_insert_pending]. *)
Definition insert_pending_session (q : creation) (subscription_id merchant_id : uuid) (provider_subscription_id : pystr) : BM unit :=
  session
    (do* context := commercial_context q in
     do* _ := ensure (bool_decide (context.(cc_merchant_id) = merchant_id))
                (PlanNotEligibleError q.(cr_service_tenant_id) q.(cr_plan_id) "merchant_changed") in
     do* at_ := look (now clock) in
     do* _ := save_created clock subscription_id
                (mkSubscription q.(cr_service_tenant_id) q.(cr_plan_id) SUB_PENDING provider_subscription_id
                   (Some context.(cc_account).(ba_tenant_id)) (Some q.(cr_billing_account_id)) (Some context.(cc_merchant_id))
                   (Some context.(cc_merchant).(ma_provider)) VERIFIED 1 at_ at_) in
     do* _ := record_billing_audit context.(cc_authorized) q.(cr_service_tenant_id) "billing.subscription_created" subscription_id in
     if q.(cr_migrating_inheritance) then
       do* row := look (λ st, tenants_of st.(bl_tenancy) !! q.(cr_service_tenant_id)) in
       match row with
       | None => ret tt
       | Some t =>
           do* _ := modify (λ st, set_tenancy (set_tenant q.(cr_service_tenant_id) (own_billing t) st.(bl_tenancy)) st) in
           record_billing_audit context.(cc_authorized) q.(cr_service_tenant_id) "billing.inheritance_migrated" q.(cr_service_tenant_id)
       end
     else ret tt).
(** [_insert_pending] *)
Definition insert_pending (q : creation) (subscription_id merchant_id : uuid) (provider_subscription_id : pystr) : BM unit :=
  on_conflict (insert_pending_session q subscription_id merchant_id provider_subscription_id)
    (λ constraint,
       do* existing := find_by_id q.(cr_service_tenant_id) subscription_id in
       if match existing with
          | Some s => bool_decide (s.(sb_provider_subscription_id) = provider_subscription_id)
          | None => false
          end then ret tt
       else throw (if String.eqb constraint ONE_LIVE_INDEX then LiveSubscriptionExistsError q.(cr_service_tenant_id) merchant_id
                   else BIntegrityError constraint)).

(** [_audit_refused_creation], when the refusal is final *)
Definition audit_refusal (q : creation) (subscription_id : uuid) (m : BM unit) : BM unit :=
  λ st, match m st with
        | (Raise e, st') =>
            if final_refusal e then
              (do* a := lift (require_billing_caller q.(cr_caller)) in
               do* _ := session (add_audit q.(cr_service_tenant_id) (audit_actor a) "billing.subscription_create_refused"
                                   subscription_id AUDIT_FAILURE) in
               throw e) st'
            else (Raise e, st')
        | ok => ok
        end.

(** What the reserved operation does before the subscription's status is read:
    the provider's subscription, its reference, the pending row. *)
Definition provider_subscription_of (q : creation) (context : CommercialContext) (ad : Adapter) (operation_id subscription_id : uuid)
    (existing : option Subscription) : BM pystr :=
  let m := context.(cc_merchant) in
  match existing with
  | Some s => ret s.(sb_provider_subscription_id)
  | None =>
      do* recorded := find_provider_object_ref env m.(ma_provider) m.(ma_provider_account_ref) OBJ_SUBSCRIPTION
                        (mkResolution q.(cr_service_tenant_id) LOCAL_SUBSCRIPTION subscription_id) in
      match recorded with
      | Some ref => ret ref
      | None =>
          do* live := live_subscription_exists q.(cr_service_tenant_id) context.(cc_merchant_id) in
          do* _ := ensure (negb live) (LiveSubscriptionExistsError q.(cr_service_tenant_id) context.(cc_merchant_id)) in
          do* customer_ref := ensure_provider_customer ad q context.(cc_account) context.(cc_merchant_id) m in
          call_provider ad
            (RqCreate q.(cr_payer_tenant_id) q.(cr_plan_id)
               (Some (lit "saas-os:" ++ lit q.(cr_operation) ++ lit ":" ++ uuid_text operation_id))
               (Some (provider_context q context.(cc_merchant_id) m (Some customer_ref))))
      end
  end.
Definition create_at_provider (q : creation) (context : CommercialContext) (ad : Adapter) (operation_id subscription_id : uuid) : BM pystr :=
  let m := context.(cc_merchant) in
  do* existing := find_by_id q.(cr_service_tenant_id) subscription_id in
  do* provider_subscription_id := provider_subscription_of q context ad operation_id subscription_id existing in
  do* _ := register_provider_ref env m.(ma_provider) m.(ma_provider_account_ref) OBJ_SUBSCRIPTION provider_subscription_id
             (mkResolution q.(cr_service_tenant_id) LOCAL_SUBSCRIPTION subscription_id) in
  do* _ := match existing with
           | Some _ => ret tt
           | None => audit_refusal q subscription_id
                       (insert_pending q subscription_id context.(cc_merchant_id) provider_subscription_id)
           end in
  ret provider_subscription_id.

(** The status as the provider has it, applied; or the row as it is. *)
Definition settle (q : creation) (ad : Adapter) (subscription_id : uuid) (provider_subscription_id : pystr) : BM Subscription :=
  λ st,
    let load := get_subscription env q.(cr_service_tenant_id) subscription_id in
    match get_subscription_status env ad provider_subscription_id st with
    | (Raise BillingProviderError, st1) => load st1
    | (Raise e, st1) => (Raise e, st1)
    | (Ok state, st1) =>
        match apply_provider_state q.(cr_service_tenant_id) subscription_id state q.(cr_caller) (creation_checks q)
                q.(cr_operation) st1 with
        | (Ok r, st2) => (Ok r.1.1, st2)
        | (Raise (BillingNotAuthorizedError _), st2) => load st2
        | (Raise e, st2) => (Raise e, st2)
        end
    end.

Definition begin_creation (q : creation) : BM (IdempotencyReservation SubscribeResult) :=
  begin_operation uuid4 clock env compute_fingerprint cfg q.(cr_service_tenant_id) q.(cr_operation) q.(cr_idempotency_key)
    (creation_payload q).
Definition finalize_creation (q : creation) (id : uuid) (status : IdempotencyStatus) (result : option SubscribeResult) : BM unit :=
  finalize_operation clock env q.(cr_service_tenant_id) id status result.
(** The current row of a replayed result. *)
Definition replayed (q : creation) (reservation : IdempotencyReservation SubscribeResult) : BM SubscribeResult :=
  do* stored := some reservation.(res_result) BAssertionError in
  do* s := get_subscription env q.(cr_service_tenant_id) stored.(sr_subscription_id) in
  ret (from_subscription stored.(sr_subscription_id) s).
(** [_replay_completed] *)
Definition replay_completed (q : creation) : BM (option SubscribeResult) :=
  do* reservation := begin_creation q in
  if reservation.(is_replay) then do* r := replayed q reservation in ret (Some r)
  else do* _ := finalize_creation q reservation.(record_id) IDEM_FAILED None in ret None.

Definition complete_creation (q : creation) (context : CommercialContext) (ad : Adapter) (operation_id : uuid) :
    BM (bool * SubscribeResult) :=
  let subscription_id := uuid5 operation_id in
  do* provider_subscription_id :=
    or_else_cleanup (create_at_provider q context ad operation_id subscription_id)
      (finalize_creation q operation_id IDEM_FAILED None) in
  do* s := settle q ad subscription_id provider_subscription_id in
  do* _ := (if bool_decide (q.(cr_payer_tenant_id) = q.(cr_service_tenant_id)) then ret tt
            else do* a := lift (require_billing_caller q.(cr_caller)) in
                 record_audit_event env q.(cr_payer_tenant_id) (audit_actor a) "billing.subscription_charged_to_account"
                   q.(cr_billing_account_id) AUDIT_SUCCESS) in
  let result := from_subscription subscription_id s in
  do* _ := finalize_creation q operation_id IDEM_SUCCEEDED (Some result) in
  ret (false, result).

Definition reserved_creation (q : creation) (context : CommercialContext) : BM (bool * SubscribeResult) :=
  do* ad := adapter_for_merchant context.(cc_merchant) q.(cr_provider) in
  do* _ := ensure ad.(ad_honors_idempotency_keys) BillingProviderContractError in
  do* reservation := begin_creation q in
  if reservation.(is_replay) then do* r := replayed q reservation in ret (true, r)
  else complete_creation q context ad reservation.(record_id).

(** [_create_commercial_subscription] *)
Definition create_commercial_subscription (q : creation) : BM (bool * SubscribeResult) :=
  do* _ := lift (require_billing_caller q.(cr_caller)) in
  λ st,
    match session (commercial_context q) st with
    | (Raise (BillingInheritanceMigrationError t), st') =>
        (do* r := replay_completed q in
         do* result := some r (BillingInheritanceMigrationError t) in
         ret (true, result)) st'
    | (Raise e, st') => (Raise e, st')
    | (Ok context, st') => reserved_creation q context st'
    end.

Definition create_subscription (c : billing_caller) (service_tenant_id payer_tenant_id billing_account_id plan_id : uuid)
    (idempotency_key : pystr) (provider : option Adapter) : BM (bool * SubscribeResult) :=
  create_commercial_subscription (mkCreation c service_tenant_id payer_tenant_id billing_account_id plan_id idempotency_key
                                    provider CREATE_OPERATION false).

(** inheritance.py *)
Definition migrate_inherited_tenant_to_sponsorship (c : billing_caller)
    (service_tenant_id payer_tenant_id billing_account_id plan_id : uuid) (idempotency_key : pystr) (provider : option Adapter) :
    BM (bool * SubscribeResult) :=
  create_commercial_subscription (mkCreation c service_tenant_id payer_tenant_id billing_account_id plan_id idempotency_key
                                    provider MIGRATION_OPERATION true).

Definition opt_out_of_billing_inheritance (c : billing_caller) (tenant_id : uuid) : BM unit :=
  do* _ := lift (require_billing_caller c) in
  session
    (do* authorized := authorize_billing c [(tenant_id, BILLING_SUBSCRIPTION, "change"%string)] "billing.inheritance.opt_out" in
     do* t := read (λ st, tenant_result (get_tenant st.(bl_tenancy) tenant_id)) in
     if t.(t_inherits_billing) then
       do* _ := modify (λ st, set_tenancy (set_tenant tenant_id (own_billing t) st.(bl_tenancy)) st) in
       record_billing_audit authorized tenant_id "billing.inheritance_opted_out" tenant_id
     else ret tt).

(** ** Status reconciliation *)

(** [_authorize_initially] *)
Definition authorize_initially (c : billing_caller) (checks : list (uuid * string * string)) (operation : string) :
    BM AuthorizedBillingCaller := session (authorize_billing c checks operation).

Definition reconcile_subscription_status (c : billing_caller) (service_tenant_id subscription_id : uuid) (provider : option Adapter) :
    BM SubscriptionReconciliation :=
  let operation := "billing.subscription.reconcile_status"%string in
  let checks := [(service_tenant_id, BILLING_SUBSCRIPTION, "read"%string)] in
  do* _ := lift (require_billing_caller c) in
  do* _ := authorize_initially c checks operation in
  do* row := get_subscription env service_tenant_id subscription_id in
  do* _ := ensure (bool_decide (row.(sb_verification) = VERIFIED))
             (LegacyReconciliationError subscription_id "legacy-unverified subscriptions must be reconciled first") in
  do* _ := verify_provider_reference subscription_id row in
  do* ad := adapter_for row.(sb_provider) provider in
  do* state := get_subscription_status env ad row.(sb_provider_subscription_id) in
  do* r := apply_provider_state service_tenant_id subscription_id state c checks operation in
  ret (mkReconciliation r.1.2 r.1.1.(sb_status) state r.2).

(** ** Payment page *)

Definition PAYMENT_PAGE_OPERATION : string := "billing.subscription.payment_page".
Definition payable (status : SubscriptionStatus) : bool :=
  match status with SUB_PENDING | SUB_PAST_DUE => true | _ => false end.

(** [_authorize_payment_page], within a session *)
Definition authorize_payment_page (c : billing_caller) (service_tenant_id subscription_id : uuid) :
    BM (AuthorizedBillingCaller * Subscription) :=
  do* _ := authorize_billing c [(service_tenant_id, BILLING_SUBSCRIPTION, "read"%string)] PAYMENT_PAGE_OPERATION in
  do* row := subscription_row service_tenant_id subscription_id in
  do* payer := some row.(sb_payer_tenant_id) (LegacyReconciliationError subscription_id "a legacy subscription has no payer") in
  do* authorized := authorize_billing c [(payer, BILLING_ACCOUNT, "charge"%string)] PAYMENT_PAGE_OPERATION in
  ret (authorized, row).

(** [_payable_parties], with the reads of the account and of the merchant *)
Definition payable_parties (get_account : uuid → uuid → BM BillingAccount) (get_merchant : uuid → uuid → BM MerchantAccount)
    (id : uuid) (row : Subscription) : BM MerchantAccount :=
  do* _ := ensure (payable row.(sb_status)) (NoPaymentDueError id) in
  do* payer := some row.(sb_payer_tenant_id) BAssertionError in
  do* account_id := some row.(sb_billing_account_id) BAssertionError in
  do* a := get_account payer account_id in
  do* account := require_active_billing_account account_id a in
  do* m := get_merchant account.(ba_merchant_tenant_id) account.(ba_merchant_account_id) in
  require_active_merchant_account account.(ba_merchant_account_id) m.

(** [_record_payment_page_issued]: the parties are read by sessions of their own
    while this one is open, here at one instant. *)
Definition record_payment_page_issued (c : billing_caller) (service_tenant_id subscription_id : uuid) : BM unit :=
  do* issued :=
    session
      (do* a := authorize_payment_page c service_tenant_id subscription_id in
       do* _ := payable_parties account_row merchant_row subscription_id a.2 in
       do* _ := record_billing_audit a.1 service_tenant_id "billing.payment_page_issued" subscription_id in
       ret a) in
  match issued.2.(sb_payer_tenant_id), issued.2.(sb_billing_account_id) with
  | Some payer, Some account_id =>
      if bool_decide (payer = service_tenant_id) then ret tt
      else record_audit_event env payer (audit_actor issued.1) "billing.payment_page_issued_for_account" account_id AUDIT_SUCCESS
  | _, _ => throw BAssertionError
  end.

(** [except BillingNotAuthorizedError: _record_payment_page_refused(...); raise] *)
Definition recording_page_refusal {A : Type} (c : billing_caller) (service_tenant_id subscription_id : uuid) (m : BM A) : BM A :=
  λ st, match m st with
        | (Raise (BillingNotAuthorizedError operation), st') =>
            (do* a := lift (require_billing_caller c) in
             do* _ := record_audit_event env service_tenant_id (audit_actor a) "billing.payment_page_refused" subscription_id AUDIT_DENIED in
             throw (BillingNotAuthorizedError operation)) st'
        | other => other
        end.

Definition get_payment_page (c : billing_caller) (service_tenant_id subscription_id : uuid) (provider : option Adapter) : BM pystr :=
  do* _ := lift (require_billing_caller c) in
  do* authority := recording_page_refusal c service_tenant_id subscription_id
                     (session (authorize_payment_page c service_tenant_id subscription_id)) in
  let row := authority.2 in
  do* _ := ensure (bool_decide (row.(sb_verification) = VERIFIED))
             (LegacyReconciliationError subscription_id "legacy-unverified subscriptions have no payment page") in
  do* _ := ensure (payable row.(sb_status)) (NoPaymentDueError subscription_id) in
  do* _ := verify_provider_reference subscription_id row in
  do* merchant := payable_parties (get_billing_account env) (get_merchant_account env) subscription_id row in
  do* ad := adapter_for_merchant merchant provider in
  do* page := some ad.(ad_payment_page_url) PaymentPageNotSupportedError in
  do* _ := gap env in
  do* url := read (λ st, match page st.(bl_tick) st.(bl_calls) row.(sb_provider_subscription_id) with
                         | None => Raise BillingProviderError
                         | Some None => Raise (NoPaymentDueError subscription_id)
                         | Some (Some url) => Ok url
                         end) in
  do* _ := recording_page_refusal c service_tenant_id subscription_id
             (record_payment_page_issued c service_tenant_id subscription_id) in
  ret url.

(** ** Cancellation *)

Definition CANCEL_OPERATION : string := "billing.subscription.cancel".

(** The check of a payer or a merchant, from the row's own parties. *)
Definition cancellation_check (capacity : CancellationCapacity) (row : Subscription) : BM (uuid * string * string) :=
  let refused := BillingNotAuthorizedError CANCEL_OPERATION in
  match row.(sb_payer_tenant_id), row.(sb_billing_account_id) with
  | Some payer, Some account_id =>
      match capacity with
      | AS_MERCHANT =>
          do* found := look (λ st, owned ba_tenant_id payer (st.(bl_accounts) !! account_id)) in
          do* account := some found refused in
          do* _ := ensure (bool_decide (Some account.(ba_merchant_account_id) = row.(sb_merchant_account_id))) refused in
          ret (account.(ba_merchant_tenant_id), BILLING_MERCHANT, "manage"%string)
      | _ => ret (payer, BILLING_ACCOUNT, "charge"%string)
      end
  | _, _ => throw refused
  end.

(** [_cancellation_authority], within a session *)
Definition cancellation_authority (c : billing_caller) (capacity : CancellationCapacity) (service_tenant_id subscription_id : uuid) :
    BM (AuthorizedBillingCaller * Subscription) :=
  match capacity with
  | AS_SERVICE_TENANT =>
      do* authorized := authorize_billing c [(service_tenant_id, BILLING_SUBSCRIPTION, "cancel"%string)] CANCEL_OPERATION in
      do* row := subscription_row service_tenant_id subscription_id in
      ret (authorized, row)
  | _ =>
      do* _ := lift (require_billing_caller c) in
      do* found := look (λ st, owned sb_tenant_id service_tenant_id (st.(bl_subscriptions) !! subscription_id)) in
      do* row := some found (BillingNotAuthorizedError CANCEL_OPERATION) in
      do* check := cancellation_check capacity row in
      do* authorized := authorize_billing c [check] CANCEL_OPERATION in
      ret (authorized, row)
  end.

(** The transaction that records the cancellation. *)
Definition cancel_session (c : billing_caller) (capacity : CancellationCapacity) (service_tenant_id subscription_id : uuid) : BM Subscription :=
  session
    (do* authority := cancellation_authority c capacity service_tenant_id subscription_id in
     do* changed := lift (set_subscription_status authority.2 SUB_CANCELED) in
     if changed.2 then
       do* _ := save_changed clock subscription_id changed.1 in
       do* _ := record_billing_audit authority.1 service_tenant_id "billing.subscription_canceled" subscription_id in
       subscription_row service_tenant_id subscription_id
     else ret authority.2).

Definition cancel_commercial_subscription (c : billing_caller) (service_tenant_id subscription_id : uuid) (provider : option Adapter)
    (acting_as : CancellationCapacity) : BM SubscribeResult :=
  do* _ := lift (require_billing_caller c) in
  do* authority := session (cancellation_authority c acting_as service_tenant_id subscription_id) in
  let row := authority.2 in
  do* _ := ensure (bool_decide (row.(sb_verification) = VERIFIED))
             (LegacyReconciliationError subscription_id "legacy-unverified subscriptions must be reconciled first") in
  if bool_decide (row.(sb_status) = SUB_CANCELED) then ret (from_subscription subscription_id row)
  else
    do* _ := verify_provider_reference subscription_id row in
    do* ad := adapter_for row.(sb_provider) provider in
    do* _ := cancel_at_provider env ad row.(sb_provider_subscription_id) in
    do* locked := cancel_session c acting_as service_tenant_id subscription_id in
    ret (from_subscription subscription_id locked).

(** ** Legacy reconciliation *)

(** The transaction that verifies the row. *)
Definition verify_session (c : billing_caller) (checks : list (uuid * string * string)) (operation : string)
    (service_tenant_id subscription_id payer_tenant_id billing_account_id merchant_id : uuid) (merchant : MerchantAccount)
    (target : SubscriptionStatus) : BM Subscription :=
  session
    (do* authorized := authorize_billing c checks operation in
     do* _ := open_tenant service_tenant_id in
     do* _ := open_tenant payer_tenant_id in
     let concurrently := LegacyReconciliationError subscription_id "it changed concurrently" in
     do* found := look (λ st, owned sb_tenant_id service_tenant_id (st.(bl_subscriptions) !! subscription_id)) in
     do* locked := some found concurrently in
     do* _ := ensure (bool_decide (locked.(sb_verification) = LEGACY_UNVERIFIED)) concurrently in
     do* changed := lift (set_subscription_status
                            (with_parties payer_tenant_id billing_account_id merchant_id merchant.(ma_provider) locked) target) in
     do* _ := save_changed clock subscription_id changed.1 in
     do* _ := record_billing_audit authorized service_tenant_id "billing.subscription_reconciled" subscription_id in
     subscription_row service_tenant_id subscription_id).

Definition reconcile_legacy_subscription (c : billing_caller)
    (service_tenant_id subscription_id payer_tenant_id billing_account_id : uuid) (provider : option Adapter) : BM SubscribeResult :=
  let operation := "billing.subscription.reconcile_legacy"%string in
  let checks := [(payer_tenant_id, BILLING_ACCOUNT, "charge"%string); (service_tenant_id, BILLING_SUBSCRIPTION, "create"%string)] in
  do* _ := lift (require_billing_caller c) in
  do* _ := authorize_initially c checks operation in
  do* _ := open_tenant_row env service_tenant_id in
  do* _ := open_tenant_row env payer_tenant_id in
  do* row := get_subscription env service_tenant_id subscription_id in
  do* _ := ensure (bool_decide (row.(sb_verification) = LEGACY_UNVERIFIED))
             (LegacyReconciliationError subscription_id "it is not legacy-unverified") in
  do* _ := ensure (match row.(sb_billing_account_id) with
                   | None => true
                   | Some a => bool_decide (a = billing_account_id) && bool_decide (row.(sb_payer_tenant_id) = Some payer_tenant_id)
                   end)
             (LegacyReconciliationError subscription_id "the supplied payer contradicts the payer it already records") in
  do* parties := resolve_legacy_merchant_context payer_tenant_id billing_account_id provider in
  let '(account, merchant, ad) := parties in
  do* _ := ensure (match row.(sb_provider) with None => true | Some p => bool_decide (p = merchant.(ma_provider)) end)
             (LegacyReconciliationError subscription_id "the merchant's provider is not the provider the row records") in
  do* state := get_subscription_status env ad row.(sb_provider_subscription_id) in
  do* target := some (target_status_for state)
                  (LegacyReconciliationError subscription_id "the provider cannot confirm the subscription") in
  do* _ := ensure (is_transition_allowed row.(sb_status) target)
             (LegacyReconciliationError subscription_id "the provider state contradicts the local status") in
  do* _ := register_provider_ref env merchant.(ma_provider) merchant.(ma_provider_account_ref) OBJ_SUBSCRIPTION
             row.(sb_provider_subscription_id) (mkResolution service_tenant_id LOCAL_SUBSCRIPTION subscription_id) in
  do* locked :=
    on_conflict
      (verify_session c checks operation service_tenant_id subscription_id account.(ba_tenant_id) billing_account_id
         account.(ba_merchant_account_id) merchant target)
      (λ constraint, throw (if String.eqb constraint ONE_LIVE_INDEX
                            then LiveSubscriptionExistsError service_tenant_id account.(ba_merchant_account_id)
                            else BIntegrityError constraint)) in
  ret (from_subscription subscription_id locked).

(** ** Lookup by provider reference *)

Definition get_subscription_by_provider_ref (provider provider_account_ref provider_subscription_ref : pystr) : BM (uuid * Subscription) :=
  do* r := resolve_provider_ref env provider provider_account_ref OBJ_SUBSCRIPTION provider_subscription_ref in
  let missing := SubscriptionNotFoundError r.(pr_tenant_id) r.(pr_local_object_id) in
  do* _ := ensure (bool_decide (r.(pr_local_object_type) = LOCAL_SUBSCRIPTION)) missing in
  session
    (do* found := look (λ st, owned sb_tenant_id r.(pr_tenant_id) (st.(bl_subscriptions) !! r.(pr_local_object_id))) in
     do* s := some found missing in
     do* _ := ensure (bool_decide (s.(sb_provider) = Some provider) &&
                      bool_decide (s.(sb_provider_subscription_id) = provider_subscription_ref)) missing in
     ret (r.(pr_local_object_id), s)).

End Commercial.
