(* ===== verification/BillingEvents.v ===== *)
(** * Billing: the provider event inbox (saas_os/core/billing/provider_events.py)

    Each event of a provider is claimed in the ledger under its (provider, event
    id), reconciled against the provider, and marked.  A failure is marked and
    raised: the provider delivers again. *)

From S2P Require Import Prelude PyStr TenantLifecycle PlatformAuthority PlatformService TenantHierarchy RbacDecision RbacService Idempotency BillingModel Billing BillingService BillingCommercial.
#[local] Open Scope Z_scope.

Record ProviderEventNotice : Type := mkNotice {
  nt_provider : pystr;
  nt_event_id : pystr;
  nt_event_type : pystr;
  nt_provider_account_ref : option pystr;
  nt_provider_subscription_ref : option pystr;
}.

Record ProviderEventResult : Type := mkEventResult {
  er_status : ProviderEventStatus;
  er_outcome : option ProviderEventOutcome;
  er_duplicate : bool;
}.

(** Timedeltas in microseconds. *)
Definition UNKNOWN_SUBSCRIPTION_GRACE : timedelta := 3600 * 1000000.
Definition PROVIDER_EVENT_RETENTION : timedelta := 90 * 86400 * 1000000.
Definition MAX_PRUNE_BATCHES : nat := N.to_nat 10000.

Definition event_done (s : ProviderEventStatus) : bool := match s with EV_PROCESSED | EV_IGNORED => true | _ => false end.

(** [_validated]: the notice, or the error. *)
Definition validated (n : ProviderEventNotice) : result billing_error ProviderEventNotice :=
  if nonempty_text 50 n.(nt_provider) && nonempty_text 255 n.(nt_event_id) && nonempty_text 10000 n.(nt_event_type) &&
     match n.(nt_provider_account_ref) with Some r => nonempty_text 255 r | None => true end &&
     match n.(nt_provider_subscription_ref) with Some r => nonempty_text 255 r | None => true end
  then Ok (mkNotice n.(nt_provider) n.(nt_event_id) (take 255 n.(nt_event_type)) n.(nt_provider_account_ref) n.(nt_provider_subscription_ref))
  else Raise InvalidBillingPartyError.

(** Python's order of strings, for [sorted()]. *)
Fixpoint str_leb (a b : pystr) : bool :=
  match a, b with
  | [], _ => true
  | _ :: _, [] => false
  | x :: a, y :: b => if (x =? y)%N then str_leb a b else (x <? y)%N
  end.
Definition str_le (a b : pystr) : Prop := str_leb a b = true.
#[export] Instance str_le_dec : RelDecision str_le.
Proof. intros a b. unfold str_le. apply _. Defined.

Section Events.
Context (uuid4 : nat → uuid) (clock : nat → datetime) (env : nat → billing_store → billing_store).
Context (default_provider : option Adapter) (platform_tenant_id : option uuid).

Abbreviation session := (session env).

Definition event_key (n : ProviderEventNotice) : pystr * pystr := (n.(nt_provider), n.(nt_event_id)).

(** [_Claim] *)
Record Claim : Type := mkClaim {
  cl_done : option ProviderEventStatus;
  cl_first_received : datetime;
}.

(** [_claim] *)
Definition claim (n : ProviderEventNotice) : BM Claim :=
  do* received_now := look (now clock) in
  on_conflict
    (session
       (λ st, if bool_decide (is_Some (st.(bl_events) !! event_key n)) then (Raise (BIntegrityError "uq_billing_provider_events_event"), st)
              else (Ok (mkClaim None received_now),
                    set_events (<[event_key n := mkEvent EV_RECEIVED None 1 (now clock st)]> st.(bl_events)) st)))
    (λ _,
       session
         (λ st, match st.(bl_events) !! event_key n with
                | None => (Raise BNoResultFound, st)
                | Some row =>
                    if event_done row.(pe_status) then (Ok (mkClaim (Some row.(pe_status)) row.(pe_created_at)), st)
                    else (Ok (mkClaim None row.(pe_created_at)),
                          set_events (<[event_key n := mkEvent row.(pe_status) row.(pe_outcome) (row.(pe_attempts) + 1) row.(pe_created_at)]>
                                        st.(bl_events)) st)
                end)).

(** The [UPDATE] of a ledger row that is not done. *)
Definition update_event (n : ProviderEventNotice) (f : ProviderEvent → ProviderEvent) : BM unit :=
  session
    (modify (λ st, match st.(bl_events) !! event_key n with
                   | Some row => if event_done row.(pe_status) then st else set_events (<[event_key n := f row]> st.(bl_events)) st
                   | None => st
                   end)).
(** [_mark], [_mark_failed] *)
Definition mark (n : ProviderEventNotice) (status : ProviderEventStatus) (outcome : ProviderEventOutcome) : BM unit :=
  update_event n (λ row, mkEvent status (Some outcome) row.(pe_attempts) row.(pe_created_at)).
Definition mark_failed (n : ProviderEventNotice) : BM unit :=
  update_event n (λ row, mkEvent EV_FAILED row.(pe_outcome) row.(pe_attempts) row.(pe_created_at)).

(** [_platform_account_refs] *)
Definition platform_account_refs (provider : pystr) : BM (list pystr) :=
  do* platform := get_platform_tenant_id platform_tenant_id in
  do* merchants := list_merchant_accounts env platform in
  ret (merge_sort str_le (remove_dups (ma_provider_account_ref ∘ snd <$>
         filter (λ p : uuid * MerchantAccount, p.2.(ma_provider) = provider) merchants))).

(** The first account under which the reference is known. *)
Fixpoint first_known (n : ProviderEventNotice) (reference : pystr) (accounts : list pystr) : BM (option (uuid * Subscription)) :=
  match accounts with
  | [] => ret None
  | account :: accounts =>
      λ st, match get_subscription_by_provider_ref env n.(nt_provider) account reference st with
            | (Ok s, st') => (Ok (Some s), st')
            | (Raise (ProviderRefNotFoundError _ _), st') | (Raise (SubscriptionNotFoundError _ _), st') => first_known n reference accounts st'
            | (Raise e, st') => (Raise e, st')
            end
  end.
(** [_resolve] *)
Definition resolve (n : ProviderEventNotice) : BM (uuid * Subscription + ProviderEventOutcome) :=
  match n.(nt_provider_subscription_ref) with
  | None => ret (inr EO_NO_SUBSCRIPTION)
  | Some reference =>
      do* accounts := platform_account_refs n.(nt_provider) in
      let known accounts := do* found := first_known n reference accounts in
                            ret (match found with Some s => inl s | None => inr EO_UNKNOWN_SUBSCRIPTION end) in
      match n.(nt_provider_account_ref) with
      | Some account => if bool_decide (account ∈ accounts) then known [account] else ret (inr EO_FOREIGN_ACCOUNT)
      | None => known accounts
      end
  end.

(** [_reconcile] *)
Definition reconcile (n : ProviderEventNotice) (provider : option Adapter) (first_received : datetime) :
    BM (ProviderEventStatus * ProviderEventOutcome) :=
  do* target := resolve n in
  match target with
  | inr outcome =>
      do* at_ := look (now clock) in
      do* _ := ensure (negb (bool_decide (outcome = EO_UNKNOWN_SUBSCRIPTION) &&
                             (at_ - first_received <? UNKNOWN_SUBSCRIPTION_GRACE))) SubscriptionNotYetKnownError in
      ret (EV_IGNORED, outcome)
  | inl (id, s) =>
      λ st, match reconcile_subscription_status uuid4 clock env default_provider (CoreCaller (SystemCaller BILLING_OPERATIONS))
                    s.(sb_tenant_id) id provider st with
            | (Ok r, st') => (Ok (EV_PROCESSED, if r.(rc_changed) then EO_CHANGED else EO_UNCHANGED), st')
            | (Raise (LegacyReconciliationError _ _), st') => (Ok (EV_IGNORED, EO_LEGACY_UNVERIFIED), st')
            | (Raise e, st') => (Raise e, st')
            end
  end.

Definition process_provider_event (n : ProviderEventNotice) (provider : option Adapter) : BM ProviderEventResult :=
  do* notice := lift (validated n) in
  do* claimed := replace_error (claim notice) (λ _, true) ProviderEventProcessingError in
  match claimed.(cl_done) with
  | Some status => ret (mkEventResult status None true)
  | None =>
      λ st, match (do* r := reconcile notice provider claimed.(cl_first_received) in
                   do* _ := mark notice r.1 r.2 in
                   ret (mkEventResult r.1 (Some r.2) false)) st with
            | (Raise _, st') => (Raise ProviderEventProcessingError, (mark_failed notice st').2)
            | ok => ok
            end
  end.

(** ** Retention *)

Definition expired (cutoff : datetime) (p : (pystr * pystr) * ProviderEvent) : Prop := p.2.(pe_created_at) < cutoff.
#[global] Instance expired_dec (cutoff : datetime) (p : (pystr * pystr) * ProviderEvent) : Decision (expired cutoff p).
Proof using. unfold expired. apply _. Defined.

(** [_delete_one_batch] *)
Definition delete_one_batch (cutoff : datetime) (batch_size : nat) : BM nat :=
  session
    (λ st, let doomed := take batch_size (filter (expired cutoff) (map_to_list st.(bl_events))).*1 in
           (Ok (length doomed), set_events (foldr delete st.(bl_events) doomed) st)).
Fixpoint prune_loop (cutoff : datetime) (batch_size rounds : nat) (deleted : nat) : BM nat :=
  match rounds with
  | O => ret deleted
  | S rounds =>
      do* removed := delete_one_batch cutoff batch_size in
      if bool_decide (removed = 0)%nat then ret deleted else prune_loop cutoff batch_size rounds (deleted + removed)
  end.
Definition prune_provider_events (retention : timedelta) (current_time : datetime) (batch_size : nat) : BM nat :=
  do* _ := ensure (0 <? retention) BValueError in
  do* _ := ensure (bool_decide (1 ≤ batch_size)%nat) BValueError in
  prune_loop (current_time - retention) batch_size MAX_PRUNE_BATCHES 0.

End Events.
