(* ===== verification/BillingProofs.v ===== *)
(** * Billing: what every transaction keeps

    [evolves] says what may happen to the rows of the billing tables between two
    stores: parties keep their identity, plans their content, provider references
    stay, a subscription follows its status graph under a version that grows with
    every change.  [billing_ok] is the invariant of the tables.  [step_under P] is
    both at once, for stores where the stable fact [P] holds; it is a preorder, so
    that the lemmas of StoreLogic apply. *)

From S2P Require Import Prelude StoreLogic PyStr TenantLifecycle PlatformAuthority PlatformService TenantHierarchy RbacDecision RbacProofs RbacService Idempotency BillingModel Billing BillingService.
#[local] Open Scope Z_scope.

(** ** How rows change *)

Definition maps_evolve {K A : Type} `{Countable K} (R : relation A) : relation (gmap K A) :=
  λ m m', ∀ k x, m !! k = Some x → ∃ x', m' !! k = Some x' ∧ R x x'.
#[export] Instance maps_evolve_preorder {K A : Type} `{Countable K} (R : relation A) `{!PreOrder R} :
  PreOrder (maps_evolve (K := K) R).
Proof.
  split.
  - intros m k x Hx. exists x. by split.
  - intros m1 m2 m3 H12 H23 k x Hx. destruct (H12 _ _ Hx) as (x2 & H2 & ?).
    destruct (H23 _ _ H2) as (x3 & ? & ?). exists x3. split; [done|]. by etrans.
Qed.
Lemma maps_evolve_insert {K A : Type} `{Countable K} (R : relation A) `{!PreOrder R} (m : gmap K A) k x :
  (∀ y, m !! k = Some y → R y x) → maps_evolve R m (<[k := x]> m).
Proof.
  intros Hx k' y Hy. destruct (decide (k' = k)) as [->|].
  - rewrite lookup_insert_eq. eauto.
  - rewrite lookup_insert_ne by done. exists y. by split.
Qed.

Definition merchant_evolves : relation MerchantAccount :=
  λ m m', m'.(ma_tenant_id) = m.(ma_tenant_id) ∧ m'.(ma_provider) = m.(ma_provider) ∧
          m'.(ma_provider_account_ref) = m.(ma_provider_account_ref).
Definition account_evolves : relation BillingAccount :=
  λ a a', a'.(ba_tenant_id) = a.(ba_tenant_id) ∧ a'.(ba_merchant_tenant_id) = a.(ba_merchant_tenant_id) ∧
          a'.(ba_merchant_account_id) = a.(ba_merchant_account_id) ∧
          (is_Some a.(ba_provider_customer_ref) → a'.(ba_provider_customer_ref) = a.(ba_provider_customer_ref)).
Definition plan_evolves : relation Plan :=
  λ p p', p'.(pl_key) = p.(pl_key) ∧ p'.(pl_provider_price_id) = p.(pl_provider_price_id) ∧
          p'.(pl_entitlements) = p.(pl_entitlements) ∧ p'.(pl_legacy) = p.(pl_legacy) ∧
          (is_Some p.(pl_owner_tenant_id) → p'.(pl_owner_tenant_id) = p.(pl_owner_tenant_id) ∧
                                            p'.(pl_merchant_account_id) = p.(pl_merchant_account_id)) ∧
          (p.(pl_withdrawn) = true → p'.(pl_withdrawn) = true).

Definition parties (s : Subscription) : option uuid * option uuid * option uuid :=
  (s.(sb_payer_tenant_id), s.(sb_billing_account_id), s.(sb_merchant_account_id)).
(** The status graph, over any number of steps. *)
Definition status_follows : relation SubscriptionStatus := rtc (λ a b, b ∈ ALLOWED_TRANSITIONS a).

Record subscription_evolves (s s' : Subscription) : Prop := mkSubscriptionEvolves {
  se_tenant : s'.(sb_tenant_id) = s.(sb_tenant_id);
  se_reference : s'.(sb_provider_subscription_id) = s.(sb_provider_subscription_id);
  se_created_at : s'.(sb_created_at) = s.(sb_created_at);
  se_status : status_follows s.(sb_status) s'.(sb_status);
  se_version : s.(sb_version) ≤ s'.(sb_version);
  se_unchanged : s'.(sb_version) = s.(sb_version) → s' = s;
  se_parties : is_Some s.(sb_billing_account_id) → parties s' = parties s;
  se_new_parties : s.(sb_billing_account_id) = None → s'.(sb_billing_account_id) = None ∨ s'.(sb_verification) = VERIFIED;
  se_verified : s.(sb_verification) = VERIFIED →
    s'.(sb_verification) = VERIFIED ∧ s'.(sb_provider) = s.(sb_provider) ∧ s'.(sb_plan_id) = s.(sb_plan_id);
}.
Definition projection_evolves {A : Type} : relation (Projection A) :=
  λ p p', p.(pj_version) ≤ p'.(pj_version) ∧ (p'.(pj_version) = p.(pj_version) → p' = p).

#[export] Instance merchant_evolves_preorder : PreOrder merchant_evolves.
Proof. split; unfold merchant_evolves; [done|]. intros ???; intuition congruence. Qed.
#[export] Instance account_evolves_preorder : PreOrder account_evolves.
Proof.
  split; unfold account_evolves; [done|]. intros a b c (?&?&?&Hab) (?&?&?&Hbc). split_and!; [congruence..|].
  intros Hs. rewrite Hbc, Hab; [done..|]. by rewrite Hab.
Qed.
#[export] Instance plan_evolves_preorder : PreOrder plan_evolves.
Proof.
  split; unfold plan_evolves; [by intros p; split_and!|].
  intros p q r (?&?&?&?&Hpq&?) (?&?&?&?&Hqr&?). split_and!; [congruence..| |tauto].
  intros Hs. destruct (Hpq Hs) as [E1 E2]. rewrite <-E1 in Hs. destruct (Hqr Hs). split; congruence.
Qed.
#[export] Instance projection_evolves_preorder {A : Type} : PreOrder (projection_evolves (A := A)).
Proof.
  split; unfold projection_evolves; [by intros p|]. intros p q r [? Hpq] [? Hqr]. split; [lia|]. intros E.
  rewrite Hqr, Hpq; [done|lia..].
Qed.
#[export] Instance subscription_evolves_preorder : PreOrder subscription_evolves.
Proof.
  split; [intros s; split; try done; by left|].
  intros s1 s2 s3 H12 H23. destruct H12 as [T R C S V U P N W], H23 as [T' R' C' S' V' U' P' N' W'].
  split; [congruence..|by etrans|lia| | | |].
  - intros E. rewrite U', U; [done|lia..].
  - intros Hs. specialize (P Hs). rewrite P'; [done|]. unfold parties in P. by simplify_eq; rewrite H1.
  - intros Hn. destruct (N Hn) as [E|E]; [by apply N'|]. right. by apply W'.
  - intros E. destruct (W E) as (E1&E2&E3). destruct (W' E1) as (?&?&?). split_and!; congruence.
Qed.

(** ** How the store changes *)

Record evolves (st st' : billing_store) : Prop := mkEvolves {
  ev_merchants : maps_evolve merchant_evolves st.(bl_merchants) st'.(bl_merchants);
  ev_accounts : maps_evolve account_evolves st.(bl_accounts) st'.(bl_accounts);
  ev_plans : maps_evolve plan_evolves st.(bl_plans) st'.(bl_plans);
  ev_subscriptions : maps_evolve subscription_evolves st.(bl_subscriptions) st'.(bl_subscriptions);
  ev_refs : maps_evolve (=) st.(bl_refs) st'.(bl_refs);
  ev_seller : maps_evolve projection_evolves st.(bl_seller) st'.(bl_seller);
  ev_payer : maps_evolve projection_evolves st.(bl_payer) st'.(bl_payer);
  ev_announced : st.(bl_announced) `suffix_of` st'.(bl_announced);
}.
#[export] Instance evolves_preorder : PreOrder evolves.
Proof.
  split; [intros st; split; done|].
  intros s1 s2 s3 [] []. split; by etrans.
Qed.

(** ** The invariant *)

(** What [_canonical_snapshot] reads for a row. *)
Definition snapshot_of (accounts : gmap uuid BillingAccount) (s : Subscription) : option CanonicalSnapshot :=
  match s.(sb_payer_tenant_id), s.(sb_billing_account_id), s.(sb_merchant_account_id) with
  | Some payer, Some account_id, Some merchant =>
      match owned ba_tenant_id payer (accounts !! account_id) with
      | Some a => if bool_decide (a.(ba_merchant_account_id) = merchant)
                  then Some (mkSnapshot payer account_id a.(ba_merchant_tenant_id) merchant s) else None
      | None => None
      end
  | _, _, _ => None
  end.
(** A projection agrees with its source: older, or equal to it. *)
Definition agrees {A : Type} (st : billing_store) (owner : CanonicalSnapshot → uuid) (values : CanonicalSnapshot → A)
    (tenant_id subscription_id : uuid) (p : Projection A) : Prop :=
  ∃ s, st.(bl_subscriptions) !! subscription_id = Some s ∧ p.(pj_version) ≤ s.(sb_version) ∧
       (p.(pj_version) = s.(sb_version) →
        ∃ sn, snapshot_of st.(bl_accounts) s = Some sn ∧ tenant_id = owner sn ∧ p = project (values sn) sn p.(pj_projected_at)).
Definition seller_agrees (st : billing_store) := agrees st sn_merchant_tenant_id sn_payer_tenant_id.
Definition payer_agrees (st : billing_store) :=
  agrees st sn_payer_tenant_id (λ sn, (sn.(sn_billing_account_id), sn.(sn_merchant_tenant_id))).

(** A verified row: its parties exist, and the provider's reference leads back to it. *)
Definition reference_ok (st : billing_store) (id : uuid) (s : Subscription) : Prop :=
  ∃ payer account_id merchant_id a m,
    parties s = (Some payer, Some account_id, Some merchant_id) ∧
    owned ba_tenant_id payer (st.(bl_accounts) !! account_id) = Some a ∧
    a.(ba_merchant_account_id) = merchant_id ∧
    owned ma_tenant_id a.(ba_merchant_tenant_id) (st.(bl_merchants) !! merchant_id) = Some m ∧
    s.(sb_provider) = Some m.(ma_provider) ∧
    st.(bl_refs) !! ref_key m.(ma_provider) m.(ma_provider_account_ref) OBJ_SUBSCRIPTION s.(sb_provider_subscription_id) =
      Some (mkResolution s.(sb_tenant_id) LOCAL_SUBSCRIPTION id).

Definition owned_merchant (st : billing_store) (tenant_id merchant_id : uuid) : Prop :=
  is_Some (owned ma_tenant_id tenant_id (st.(bl_merchants) !! merchant_id)).

Record billing_ok (st : billing_store) : Prop := mkBillingOk {
  ok_accounts : ∀ id a, st.(bl_accounts) !! id = Some a → owned_merchant st a.(ba_merchant_tenant_id) a.(ba_merchant_account_id);
  ok_parties : ∀ id s, st.(bl_subscriptions) !! id = Some s → consistent_parties st.(bl_accounts) s = true;
  ok_version : ∀ id s, st.(bl_subscriptions) !! id = Some s → 1 ≤ s.(sb_version);
  ok_one_live : ∀ id id' s s', st.(bl_subscriptions) !! id = Some s → st.(bl_subscriptions) !! id' = Some s' →
    same_live s s' = true → id = id';
  ok_reference : ∀ id s, st.(bl_subscriptions) !! id = Some s → s.(sb_verification) = VERIFIED → reference_ok st id s;
  ok_announced : ∀ id s, st.(bl_subscriptions) !! id = Some s → is_Some s.(sb_billing_account_id) →
    (s.(sb_tenant_id), id, s.(sb_version)) ∈ st.(bl_announced);
  ok_seller : ∀ t id p, st.(bl_seller) !! (t, id) = Some p → seller_agrees st t id p;
  ok_payer : ∀ t id p, st.(bl_payer) !! (t, id) = Some p → payer_agrees st t id p;
}.

(** ** Steps *)

Definition stable (P : billing_store → Prop) : Prop := ∀ st st', evolves st st' → P st → P st'.
Existing Class stable.
#[export] Instance stable_pure (Q : Prop) : stable (λ _, Q).
Proof. by intros st st'. Qed.
#[export] Instance stable_and P Q : stable P → stable Q → stable (λ st, P st ∧ Q st).
Proof. intros HP HQ st st' He [H1 H2]. split; [by eapply HP|by eapply HQ]. Qed.

Definition step_under (P : billing_store → Prop) : relation billing_store :=
  λ st st', billing_ok st → P st → billing_ok st' ∧ evolves st st'.
#[export] Instance step_under_preorder P : stable P → PreOrder (step_under P).
Proof.
  intros HP. split; [by intros st|]. intros s1 s2 s3 H12 H23 Hok HPs. destruct (H12 Hok HPs) as [Hok2 He].
  destruct (H23 Hok2) as [Hok3 He']; [by eapply HP|]. split; [done|]. by etrans.
Qed.
Abbreviation step := (step_under (λ _, True)).

Lemma step_weaken P A (m : BM A) : keeps step m → keeps (step_under P) m.
Proof. intros H st Hok _. by apply H. Qed.

(** A fact that does not depend on the store. *)
Lemma keeps_pure {A} (P : billing_store → Prop) (Q : Prop) (m : BM A) :
  (∀ st, P st → Q) → (Q → keeps (step_under P) m) → keeps (step_under P) m.
Proof. intros HQ Hm st Hok HPs. by apply Hm; [eapply HQ|..]. Qed.
(** What [m] establishes, the rest may use. *)
Lemma keeps_establish {A B} P (Q : A → billing_store → Prop) (m : BM A) (k : A → BM B) :
  stable P → keeps (step_under P) m →
  (∀ st a st', billing_ok st → P st → m st = (Ok a, st') → Q a st') →
  (∀ a, keeps (step_under (λ st, P st ∧ Q a st)) (k a)) → keeps (step_under P) (bind m k).
Proof.
  intros HP Hm HQ Hk st Hok HPs. unfold bind. specialize (Hm st Hok HPs). destruct (m st) as [[a|e] st1] eqn:Em; simpl in *; [|done].
  destruct Hm as [Hok1 He1]. destruct (Hk a st1 Hok1) as [? ?]; [split; [by eapply HP|by eapply HQ]|].
  split; [done|]. by etrans.
Qed.

(** ** Steps that leave the billing tables alone *)

Definition tables (st : billing_store) :=
  (st.(bl_plans), st.(bl_subscriptions), st.(bl_merchants), st.(bl_accounts), st.(bl_refs), st.(bl_seller), st.(bl_payer),
   st.(bl_announced)).
Definition same_tables : relation billing_store := λ st st', tables st' = tables st.
#[export] Instance same_tables_preorder : PreOrder same_tables.
Proof. unfold same_tables. split; [done|]. intros ???; congruence. Qed.

Lemma same_tables_step P st st' : same_tables st st' → step_under P st st'.
Proof.
  unfold same_tables, tables. intros E Hok _. injection E as E1 E2 E3 E4 E5 E6 E7 E8. split.
  - destruct Hok. split; unfold owned_merchant, reference_ok, seller_agrees, payer_agrees, agrees in *; rewrite ?E1, ?E2, ?E3, ?E4, ?E5, ?E6, ?E7, ?E8; done.
  - split; rewrite ?E1, ?E2, ?E3, ?E4, ?E5, ?E6, ?E7, ?E8; done.
Qed.
Lemma keeps_same_tables {A} P (m : BM A) : keeps same_tables m → keeps (step_under P) m.
Proof. intros H st. apply same_tables_step, H. Qed.

(** ** Parties under evolution *)

Lemma owned_evolves {A : Type} (owner : A → uuid) (R : relation A) t (row row' : option A) a :
  (∀ x y, R x y → owner y = owner x) → (∀ x, row = Some x → ∃ y, row' = Some y ∧ R x y) →
  owned owner t row = Some a → ∃ a', owned owner t row' = Some a' ∧ R a a'.
Proof.
  intros Ho Hr. unfold owned. destruct row as [x|]; [|done]. destruct (Hr x eq_refl) as (y & -> & Hxy). case_bool_decide as Ht; [|done].
  intros [= ->]. exists y. rewrite bool_decide_true; [done|]. by rewrite (Ho _ _ Hxy).
Qed.
Lemma owned_Some {A : Type} (owner : A → uuid) t (row : option A) a : owned owner t row = Some a ↔ row = Some a ∧ owner a = t.
Proof. unfold owned. destruct row; [case_bool_decide|]; naive_solver. Qed.

Lemma account_row_evolves (M M' : gmap uuid BillingAccount) payer id a :
  maps_evolve account_evolves M M' → owned ba_tenant_id payer (M !! id) = Some a →
  ∃ a', owned ba_tenant_id payer (M' !! id) = Some a' ∧ account_evolves a a'.
Proof. intros HM. apply owned_evolves; [by intros ?? []|]. intros x. apply HM. Qed.
Lemma merchant_row_evolves (M M' : gmap uuid MerchantAccount) t id m :
  maps_evolve merchant_evolves M M' → owned ma_tenant_id t (M !! id) = Some m →
  ∃ m', owned ma_tenant_id t (M' !! id) = Some m' ∧ merchant_evolves m m'.
Proof. intros HM. apply owned_evolves; [by intros ?? []|]. intros x. apply HM. Qed.

Lemma consistent_parties_mono M M' s : maps_evolve account_evolves M M' → consistent_parties M s = true → consistent_parties M' s = true.
Proof.
  intros HM. unfold consistent_parties.
  destruct (sb_payer_tenant_id s) as [p|], (sb_billing_account_id s) as [i|], (sb_merchant_account_id s) as [m|]; try done.
  destruct (owned _ _ (M !! i)) as [a|] eqn:Ea; [|done].
  destruct (account_row_evolves _ _ _ _ _ HM Ea) as (a'&->&?&?&Hi&?). by rewrite Hi.
Qed.
Lemma snapshot_of_mono M M' s sn : maps_evolve account_evolves M M' → snapshot_of M s = Some sn → snapshot_of M' s = Some sn.
Proof.
  intros HM. unfold snapshot_of. destruct (sb_payer_tenant_id s) as [p|], (sb_billing_account_id s) as [i|], (sb_merchant_account_id s) as [m|]; try done.
  destruct (owned _ _ (M !! i)) as [a|] eqn:Ea; [|done].
  destruct (account_row_evolves _ _ _ _ _ HM Ea) as (a'&->&?&Hm&Hi&?). by rewrite Hm, Hi.
Qed.
Lemma owned_merchant_mono st st' t id : evolves st st' → owned_merchant st t id → owned_merchant st' t id.
Proof. intros He [m Hm]. destruct (merchant_row_evolves _ _ _ _ _ (ev_merchants _ _ He) Hm) as (m' & ? & ?). by exists m'. Qed.
Lemma reference_ok_mono st st' id s : evolves st st' → reference_ok st id s → reference_ok st' id s.
Proof.
  intros He (payer&account_id&merchant_id&a&m&Hp&Ha&Hi&Hm&Hprov&Hr).
  destruct (account_row_evolves _ _ _ _ _ (ev_accounts _ _ He) Ha) as (a'&Ha'&?&Hmt&Hmi&?).
  destruct (merchant_row_evolves _ _ _ _ _ (ev_merchants _ _ He) Hm) as (m'&Hm'&?&Hp'&Hr').
  destruct (ev_refs _ _ He _ _ Hr) as (r'&Hr''&<-).
  exists payer, account_id, merchant_id, a', m'. rewrite Hmt, Hp', Hr'. split_and!; try done. congruence.
Qed.
Lemma agrees_mono {A} st st' (owner : CanonicalSnapshot → uuid) (values : CanonicalSnapshot → A) t id p :
  evolves st st' → agrees st owner values t id p → agrees st' owner values t id p.
Proof.
  intros He (s&Hs&Hv&Heq). destruct (ev_subscriptions _ _ He _ _ Hs) as (s'&Hs'&Hev).
  exists s'. split; [done|]. pose proof (se_version _ _ Hev). split; [lia|]. intros E.
  assert (s' = s) as -> by (apply (se_unchanged _ _ Hev); lia). destruct (Heq E) as (sn&Hsn&?&?).
  exists sn. split; [|done]. by eapply snapshot_of_mono; [apply ev_accounts|].
Qed.

(** Steps on the parties, the plans and the references. *)
Lemma parties_step P st st' :
  evolves st st' → st'.(bl_subscriptions) = st.(bl_subscriptions) → st'.(bl_seller) = st.(bl_seller) →
  st'.(bl_payer) = st.(bl_payer) → st'.(bl_announced) = st.(bl_announced) →
  (∀ id a, st'.(bl_accounts) !! id = Some a → st.(bl_accounts) !! id = Some a ∨
     owned_merchant st' a.(ba_merchant_tenant_id) a.(ba_merchant_account_id)) → step_under P st st'.
Proof.
  intros He Es El Ep Ea Hacc Hok _. split; [|done]. destruct Hok. split; rewrite ?Es, ?El, ?Ep, ?Ea; try done.
  - intros id a Ha. destruct (Hacc _ _ Ha) as [Ha'|]; [|done]. by eapply owned_merchant_mono, ok_accounts0.
  - intros id s Hs. eapply consistent_parties_mono; [by apply ev_accounts|by eauto].
  - intros id s Hs Hv. by eapply reference_ok_mono, ok_reference0.
  - intros t id p Hp. eapply agrees_mono; [done|]. by apply ok_seller0.
  - intros t id p Hp. eapply agrees_mono; [done|]. by apply ok_payer0.
Qed.

(** ** Steps on a subscription *)

(** The changes of one row that keep its graph: the version does not move, it is
    announced with the next one. *)
Record row_change (s s' : Subscription) : Prop := mkRowChange {
  rh_tenant : s'.(sb_tenant_id) = s.(sb_tenant_id);
  rh_reference : s'.(sb_provider_subscription_id) = s.(sb_provider_subscription_id);
  rh_created_at : s'.(sb_created_at) = s.(sb_created_at);
  rh_version : s'.(sb_version) = s.(sb_version);
  rh_status : is_transition_allowed s.(sb_status) s'.(sb_status) = true;
  rh_parties : is_Some s.(sb_billing_account_id) → parties s' = parties s;
  rh_new_parties : s.(sb_billing_account_id) = None → s'.(sb_billing_account_id) = None ∨ s'.(sb_verification) = VERIFIED;
  rh_verified : s.(sb_verification) = VERIFIED →
    s'.(sb_verification) = VERIFIED ∧ s'.(sb_provider) = s.(sb_provider) ∧ s'.(sb_plan_id) = s.(sb_plan_id);
}.
Lemma status_follows_allowed a b : is_transition_allowed a b = true → status_follows a b.
Proof. unfold is_transition_allowed. intros H. reflect_bools; [by subst; apply rtc_refl|by apply rtc_once]. Qed.
Lemma row_change_evolves s s' at_ : row_change s s' → subscription_evolves s (with_version (s'.(sb_version) + 1) at_ s').
Proof. intros []. split; simpl; try done; [by apply status_follows_allowed|lia..]. Qed.

(** A row written under its id, with a version never used for it. *)
Lemma subscription_step P st st' id s :
  st' = set_announced (match s.(sb_billing_account_id), s.(sb_merchant_account_id) with
                       | Some _, Some _ => (s.(sb_tenant_id), id, s.(sb_version)) :: st.(bl_announced)
                       | _, _ => st.(bl_announced)
                       end)
          (set_subscriptions (<[id := s]> st.(bl_subscriptions)) st) →
  (∀ s0, st.(bl_subscriptions) !! id = Some s0 → subscription_evolves s0 s ∧ s0.(sb_version) < s.(sb_version)) →
  1 ≤ s.(sb_version) → consistent_parties st.(bl_accounts) s = true →
  (∀ id' s', id' ≠ id → st.(bl_subscriptions) !! id' = Some s' → same_live s s' = false) →
  (s.(sb_verification) = VERIFIED → reference_ok st id s) → step_under P st st'.
Proof.
  intros -> Hold Hv Hc Hl Hr Hok _.
  assert (evolves st (set_announced (match s.(sb_billing_account_id), s.(sb_merchant_account_id) with
                       | Some _, Some _ => (s.(sb_tenant_id), id, s.(sb_version)) :: st.(bl_announced)
                       | _, _ => st.(bl_announced) end) (set_subscriptions (<[id := s]> st.(bl_subscriptions)) st))) as He.
  { split; simpl; try done.
    - apply maps_evolve_insert; [apply _|]. intros y Hy. by apply Hold.
    - repeat case_match; try done. by apply suffix_cons_r. }
  assert (∀ id' s', <[id := s]> st.(bl_subscriptions) !! id' = Some s' → id' = id ∧ s' = s ∨ id' ≠ id ∧ st.(bl_subscriptions) !! id' = Some s') as Hcase.
  { intros id' s' H. destruct (decide (id' = id)) as [->|]; [rewrite lookup_insert_eq in H|rewrite lookup_insert_ne in H by done]; naive_solver. }
  split; [|done]. destruct Hok. split; simpl; try done.
  - intros id' s' [[-> ->]|[? H]]%Hcase; [done|by eauto].
  - intros id' s' [[-> ->]|[? H]]%Hcase; [done|by eauto].
  - intros i j si sj [[-> ->]|[Hi Hsi]]%Hcase [[-> ->]|[Hj Hsj]]%Hcase Hsl; [done| | |by eauto].
    + by rewrite (Hl _ _ Hj Hsj) in Hsl.
    + enough (same_live s si = true) as Hsl' by (by rewrite (Hl _ _ Hi Hsi) in Hsl').
      revert Hsl. unfold same_live. intros. reflect_bools. destruct (sb_merchant_account_id si), (sb_merchant_account_id s); try done.
      simpl in *. reflect_bools. subst. rewrite !andb_true_iff. split_and!; [by apply bool_decide_eq_true|by apply bool_decide_eq_true|done..].
  - intros id' s' [[-> ->]|[? H]]%Hcase Hver; (eapply reference_ok_mono; [done|]); [by apply Hr|by apply ok_reference0].
  - intros id' s' [[-> ->]|[? H]]%Hcase Hsome.
    + destruct Hsome as [x Hx]. rewrite Hx. revert Hc. unfold consistent_parties. rewrite Hx.
      destruct (sb_payer_tenant_id s), (sb_merchant_account_id s); try done. intros _. by left.
    + repeat case_match; try (by apply ok_announced0). right. by apply ok_announced0.
  - intros t i p Hp. by apply (agrees_mono st); [|apply ok_seller0].
  - intros t i p Hp. by apply (agrees_mono st); [|apply ok_payer0].
Qed.

(** ** The primitives *)

Lemma keeps_look {A} R `{!PreOrder R} (f : billing_store → A) : keeps R (look f).
Proof. intros st. reflexivity. Qed.
Lemma keeps_bread {A} R `{!PreOrder R} (f : billing_store → result billing_error A) : keeps R (read f).
Proof. intros st. reflexivity. Qed.
Lemma keeps_ensure R `{!PreOrder R} b e : keeps R (ensure b e).
Proof. apply keeps_lift. apply _. Qed.
Lemma keeps_some {A} R `{!PreOrder R} (o : option A) e : keeps R (some o e).
Proof. unfold some. destruct o; [apply keeps_ret|apply keeps_throw]; apply _. Qed.
Lemma keeps_modify R f : (∀ st, R st (f st)) → keeps R (modify f).
Proof. done. Qed.
Lemma keeps_on_conflict {A} R `{!PreOrder R} (m : BM A) h : keeps R m → (∀ c, keeps R (h c)) → keeps R (on_conflict m h).
Proof.
  intros Hm Hh st. unfold on_conflict. specialize (Hm st). destruct (m st) as [[a|e] st']; [done|]. destruct e; try done.
  etrans; [done|]. apply Hh.
Qed.
Lemma keeps_or_else_cleanup {A} R `{!PreOrder R} (m : BM A) c : keeps R m → keeps R c → keeps R (or_else_cleanup m c).
Proof.
  intros Hm Hc st. unfold or_else_cleanup. specialize (Hm st). destruct (m st) as [[a|e] st']; [done|].
  specialize (Hc st'). destruct (c st') as [[]]; by etrans.
Qed.

Lemma look_Ok {A} (f : billing_store → A) st a st' : look f st = (Ok a, st') ↔ a = f st ∧ st' = st.
Proof. unfold look. naive_solver. Qed.
Lemma read_Ok {A} (f : billing_store → result billing_error A) st a st' : read f st = (Ok a, st') ↔ f st = Ok a ∧ st' = st.
Proof. unfold read. split; [by intros [= -> ->]|by intros [-> ->]]. Qed.
Lemma ret_Ok {A} (x : A) (st : billing_store) a st' : (ret x : BM A) st = (Ok a, st') ↔ a = x ∧ st' = st.
Proof. unfold ret. naive_solver. Qed.
Lemma lift_Ok {A} (r : result billing_error A) st a st' : (lift r : BM A) st = (Ok a, st') ↔ r = Ok a ∧ st' = st.
Proof. unfold lift. split; [by intros [= -> ->]|by intros [-> ->]]. Qed.
Lemma ensure_Ok b e st a st' : ensure b e st = (Ok a, st') ↔ b = true ∧ st' = st.
Proof. unfold ensure, lift, raise_if. destruct b, a; simpl; naive_solver. Qed.
Lemma some_Ok {A} (o : option A) e st a st' : some o e st = (Ok a, st') ↔ o = Some a ∧ st' = st.
Proof. unfold some. destruct o; unfold ret, throw; naive_solver. Qed.
Lemma throw_Ok {A} (e : billing_error) st (a : A) st' : (throw e : BM A) st = (Ok a, st') ↔ False.
Proof. unfold throw. naive_solver. Qed.

Lemma modify_Ok f st a st' : modify f st = (Ok a, st') ↔ a = tt ∧ st' = f st.
Proof. unfold modify. destruct a. naive_solver. Qed.
Lemma keeps_eq {A} R (m : BM A) st r st' : m st = (r, st') → keeps R m → R st st'.
Proof. intros E H. specialize (H st). by rewrite E in H. Qed.

(** Take apart a computation that returned. *)
Ltac run_step H :=
  match type of H with
  | bind _ _ _ = (Ok _, _) => let H1 := fresh "Hr" in apply bind_Ok in H as (? & ? & H1 & H); repeat (progress run_step H1)
  | look _ _ = (Ok _, _) => apply look_Ok in H as [? ?]; subst
  | read _ _ = (Ok _, _) => apply read_Ok in H as [? ?]; subst
  | ret _ _ = (Ok _, _) => apply ret_Ok in H as [? ?]; subst
  | lift _ _ = (Ok _, _) => apply lift_Ok in H as [? ?]; subst
  | ensure _ _ _ = (Ok _, _) => apply ensure_Ok in H as [? ?]; subst
  | some _ _ _ = (Ok _, _) => apply some_Ok in H as [? ?]; subst
  | throw _ _ = (Ok _, _) => apply throw_Ok in H as []
  | modify _ _ = (Ok _, _) => apply modify_Ok in H as [? ?]; subst
  | _ => idtac
  end.
Ltac run H := cbv zeta in H; repeat (progress run_step H).

(** Follow the structure of a computation; what is left are its primitives. *)
Ltac bill_step :=
  lazymatch goal with
  | |- keeps _ (bind _ _) => apply keeps_bind; [apply _| |intros ?]
  | |- keeps _ (ret _) => apply keeps_ret; apply _
  | |- keeps _ (throw _) => apply keeps_throw; apply _
  | |- keeps _ (lift _) => apply keeps_lift; apply _
  | |- keeps _ (look _) => apply keeps_look; apply _
  | |- keeps _ (read _) => apply keeps_bread; apply _
  | |- keeps _ (ensure _ _) => apply keeps_ensure; apply _
  | |- keeps _ (some _ _) => apply keeps_some; apply _
  | |- keeps _ (on_conflict _ _) => apply keeps_on_conflict; [apply _| |intros ?]
  | |- keeps _ (or_else_cleanup _ _) => apply keeps_or_else_cleanup; [apply _| |]
  | |- keeps _ (transaction _) => apply keeps_transaction; [apply _|apply keeps_commits]
  | |- keeps _ (if ?b then _ else _) => destruct b
  | |- keeps _ (match ?x with _ => _ end) => destruct x
  | |- keeps _ (let '(_, _) := ?x in _) => destruct x
  end.
Ltac bill_steps := repeat bill_step.

Section Primitives.
Context (uuid4 : nat → uuid) (clock : nat → datetime).

Lemma new_id_tables : keeps same_tables (new_id uuid4).
Proof. by intros st. Qed.
Lemma add_audit_tables t actor action id outcome : keeps same_tables (add_audit t actor action id outcome).
Proof. by intros st. Qed.
Lemma record_billing_audit_tables a t action id : keeps same_tables (record_billing_audit a t action id).
Proof. by intros st. Qed.
Lemma open_tenant_tables t : keeps same_tables (open_tenant t).
Proof. by intros st. Qed.
Lemma register_billing_permission_tables resource action : keeps same_tables (register_billing_permission uuid4 resource action).
Proof. intros st. unfold register_billing_permission. by destruct (register_permission_in _ _ _ _) as [[] ?]. Qed.
Lemma check_all_tables u operation checks : keeps same_tables (check_all uuid4 clock u operation checks).
Proof.
  induction checks as [|[[t resource] action] checks IH]; simpl; [apply keeps_ret; apply _|].
  bill_steps; [apply register_billing_permission_tables|done].
Qed.
Lemma authorize_billing_tables c checks operation : keeps same_tables (authorize_billing uuid4 clock c checks operation).
Proof. unfold authorize_billing. bill_steps. apply check_all_tables. Qed.
Lemma holds_tables c t resource action : keeps same_tables (holds uuid4 clock c t resource action).
Proof.
  intros st. unfold holds. pose proof (authorize_billing_tables c [(t, resource, action)] "billing.catalog.eligibility" st) as H.
  destruct (authorize_billing _ _ _ _ _ st) as [[|[]] st']; done.
Qed.
Lemma evaluate_plan_eligibility_tables c service id plan m : keeps same_tables (evaluate_plan_eligibility uuid4 clock c service id plan m).
Proof. unfold evaluate_plan_eligibility. bill_steps; first [apply open_tenant_tables|apply holds_tables]. Qed.
Lemma require_owned_merchant_tables owner id : keeps same_tables (require_owned_merchant owner id).
Proof. unfold require_owned_merchant, merchant_row. bill_steps. Qed.
Lemma merchant_row_tables t id : keeps same_tables (merchant_row t id).
Proof. unfold merchant_row. bill_steps. Qed.
Lemma account_row_tables t id : keeps same_tables (account_row t id).
Proof. unfold account_row. bill_steps. Qed.
Lemma subscription_row_tables t id : keeps same_tables (subscription_row t id).
Proof. unfold subscription_row. bill_steps. Qed.
End Primitives.
#[export] Hint Resolve new_id_tables add_audit_tables record_billing_audit_tables open_tenant_tables register_billing_permission_tables
  check_all_tables authorize_billing_tables holds_tables evaluate_plan_eligibility_tables require_owned_merchant_tables
  merchant_row_tables account_row_tables subscription_row_tables : tables.

(** Steps, with the primitives on the billing tables left over. *)
Ltac bill :=
  repeat first [ bill_step | apply keeps_same_tables; solve [eauto with tables] | solve [eauto with step typeclass_instances] ].

Section Tables.
Context (uuid4 : nat → uuid) (clock : nat → datetime).
Context (P : billing_store → Prop) `{!stable P}.

Lemma insert_merchant_step m : keeps (step_under P) (insert_merchant uuid4 m).
Proof.
  unfold insert_merchant. bill. intros st. case_match; [by reflexivity|]. reflect_bools. simpl. apply parties_step; try done; [|by left].
  split; simpl; try done. apply maps_evolve_insert; [apply _|]. intros y Hy. by destruct H; rewrite Hy.
Qed.
Lemma insert_account_step a : keeps (step_under P) (insert_account uuid4 a).
Proof.
  unfold insert_account. bill. intros st. repeat (case_match; [by reflexivity|]). reflect_bools. simpl.
  apply parties_step; try done; simpl.
  - split; simpl; try done. apply maps_evolve_insert; [apply _|]. intros y Hy. exfalso. naive_solver.
  - intros id' a'. rewrite lookup_insert_Some. intros [[<- <-]|[? ?]]; [by right|by left].
Qed.
Lemma write_plan_step st id p st' r :
  (∀ p0, st.(bl_plans) !! id = Some p0 → plan_evolves p0 p) → write_plan id p st = (r, st') → step_under P st st'.
Proof.
  intros Hp. unfold write_plan. case_match; [intros [= <- <-]; by reflexivity|]. intros [= <- <-].
  apply parties_step; try done; [|by left]. split; simpl; try done. by apply maps_evolve_insert; [apply _|].
Qed.
Lemma insert_plan_step p : keeps (step_under P) (insert_plan uuid4 p).
Proof.
  unfold insert_plan. apply keeps_bind; [apply _|bill|intros id]. intros st. unfold bind at 1. cbn [look fst snd].
  unfold bind at 1. destruct (bool_decide _) eqn:E; [by reflexivity|]. cbn. reflect_bools.
  unfold bind. destruct (write_plan id p st) as [[] st'] eqn:Ew; simpl; (eapply write_plan_step; [|done]; intros p0 Hp0; naive_solver).
Qed.
Lemma insert_ref_step key wanted : keeps (step_under P) (insert_ref key wanted).
Proof.
  unfold insert_ref. intros st. case_match; [by reflexivity|]. reflect_bools. apply parties_step; try done; [|by left].
  split; simpl; try done. apply maps_evolve_insert; [apply _|]. intros y Hy. naive_solver.
Qed.
Lemma merchant_status_step st id m status :
  st.(bl_merchants) !! id = Some m → step_under P st (set_merchants (<[id := with_merchant_status status m]> st.(bl_merchants)) st).
Proof.
  intros Hm. apply parties_step; try done; [|by left]. split; simpl; try done. apply maps_evolve_insert; [apply _|].
  intros y Hy. simplify_eq. done.
Qed.
Lemma account_change_step st id a a' :
  billing_ok st → st.(bl_accounts) !! id = Some a → account_evolves a a' →
  step_under P st (set_accounts (<[id := a']> st.(bl_accounts)) st).
Proof.
  intros Hok Ha He. apply parties_step; try done; simpl.
  - split; simpl; try done. apply maps_evolve_insert; [apply _|]. intros y Hy. by simplify_eq.
  - intros id' a''. rewrite lookup_insert_Some. intros [[<- <-]|[? ?]]; [right|by left]. destruct He as (_&->&->&_).
    unfold owned_merchant. simpl. by eapply ok_accounts.
Qed.

Lemma write_subscription_Ok id s st r st' :
  write_subscription id s st = (Ok r, st') →
  consistent_parties st.(bl_accounts) s = true ∧
  (∀ id' s', id' ≠ id → st.(bl_subscriptions) !! id' = Some s' → same_live s s' = false) ∧
  st' = set_subscriptions (<[id := s]> st.(bl_subscriptions)) st.
Proof.
  unfold write_subscription. destruct (bool_decide (255 < _)%nat || _); [done|]. destruct (exists_row _ _) eqn:El; [done|].
  destruct (negb _ || _ || _) eqn:Ec; [done|]. reflect_bools.
  intros [= _ <-]. split_and!; [done| |done]. intros id' s' Hne Hs'. apply not_true_is_false. intros Hl.
  apply not_true_iff_false in El. apply El, exists_row_spec. exists id', s'. split; [by rewrite lookup_delete_ne|done].
Qed.
(** What the announcement does to the row it is about. *)
Lemma announce_Ok id created st r st' s :
  st.(bl_subscriptions) !! id = Some s → announce_subscription_change clock id created st = (Ok r, st') →
  let s' := if created then s else with_version (s.(sb_version) + 1) (now clock st) s in
  st' = set_announced (match s.(sb_billing_account_id), s.(sb_merchant_account_id) with
                       | Some _, Some _ => (s.(sb_tenant_id), id, s'.(sb_version)) :: st.(bl_announced)
                       | _, _ => st.(bl_announced)
                       end)
          (set_subscriptions (<[id := s']> st.(bl_subscriptions)) st).
Proof.
  intros Hs. unfold announce_subscription_change. rewrite Hs. destruct created; simpl;
    destruct (sb_billing_account_id s), (sb_merchant_account_id s); by intros [= _ <-].
Qed.

Lemma save_created_step id s st r st' :
  s.(sb_version) = 1 → (s.(sb_verification) = VERIFIED → reference_ok st id s) →
  save_created clock id s st = (Ok r, st') → step_under P st st'.
Proof.
  intros Hv Hr H. unfold save_created, insert_subscription in H. run H. reflect_bools.
  match goal with Hw : write_subscription _ _ _ = _ |- _ => destruct (write_subscription_Ok _ _ _ _ _ Hw) as (Hc & Hl & ->) end.
  apply (announce_Ok _ _ _ _ _ s) in H; [|simpl; by rewrite lookup_insert_eq]. subst.
  eapply (subscription_step _ _ _ id s); [|by naive_solver|lia|done..]. simpl. rewrite insert_insert_eq. done.
Qed.
Lemma save_changed_step id s0 s st r st' :
  st.(bl_subscriptions) !! id = Some s0 → row_change s0 s → (s.(sb_verification) = VERIFIED → reference_ok st id s) →
  save_changed clock id s st = (Ok r, st') → step_under P st st'.
Proof.
  intros Hs0 Hch Hr H. unfold save_changed in H. run H.
  match goal with Hw : write_subscription _ _ _ = _ |- _ => destruct (write_subscription_Ok _ _ _ _ _ Hw) as (Hc & Hl & ->) end.
  apply (announce_Ok _ _ _ _ _ s) in H; [|simpl; by rewrite lookup_insert_eq]. subst.
  intros Hok HP. pose proof (ok_version _ Hok _ _ Hs0). pose proof (rh_version _ _ Hch). revert Hok HP.
  eapply (subscription_step _ _ _ id (with_version (sb_version s + 1) _ s)); [simpl; by rewrite insert_insert_eq| |simpl; lia|done..].
  intros s1 Hs1. simplify_eq. split; [by apply row_change_evolves|simpl; lia].
Qed.
End Tables.
#[export] Hint Resolve insert_merchant_step insert_account_step insert_plan_step insert_ref_step : step.

(** ** Projections *)

(** A snapshot read earlier: its row has only evolved since. *)
Definition snapshot_known (id : uuid) (sn : CanonicalSnapshot) (st : billing_store) : Prop :=
  (∃ s, st.(bl_subscriptions) !! id = Some s ∧ subscription_evolves sn.(sn_row) s) ∧
  snapshot_of st.(bl_accounts) sn.(sn_row) = Some sn.
#[export] Instance snapshot_known_stable id sn : stable (snapshot_known id sn).
Proof.
  intros st st' He [(s&Hs&Hev) Hsn]. split.
  - destruct (ev_subscriptions _ _ He _ _ Hs) as (s'&Hs'&?). exists s'. split; [done|]. by etrans.
  - by eapply snapshot_of_mono; [apply ev_accounts|].
Qed.
Lemma snapshot_agrees {A} st (owner : CanonicalSnapshot → uuid) (values : CanonicalSnapshot → A) id sn at_ :
  snapshot_known id sn st → agrees st owner values (owner sn) id (project (values sn) sn at_).
Proof.
  intros [(s&Hs&Hev) Hsn]. exists s. split; [done|]. split; [by apply Hev|]. intros E.
  assert (s = sn.(sn_row)) as -> by (by apply (se_unchanged _ _ Hev)). by exists sn.
Qed.

(** What a read model is to its tables. *)
Record model_laws {A : Type} (model : read_model A) (owner : CanonicalSnapshot → uuid) (values : CanonicalSnapshot → A) : Prop := mkModelLaws {
  ml_write : ∀ P st t id p, agrees st owner values t id p →
    (∀ p0, model.(rm_rows) st !! (t, id) = Some p0 → projection_evolves p0 p) →
    step_under P st (model.(rm_set) (<[(t, id) := p]> (model.(rm_rows) st)) st);
}.
Lemma seller_laws : model_laws SellerSubscription sn_merchant_tenant_id sn_payer_tenant_id.
Proof.
  split. intros P st t id p Hag Hev Hok _. simpl.
  assert (evolves st (set_seller (<[(t, id) := p]> st.(bl_seller)) st)) as He.
  { split; simpl; try done. by apply maps_evolve_insert; [apply _|]. }
  split; [|done]. destruct Hok. split; try done. intros t' id' p' Hp'. eapply agrees_mono; [done|]. simpl in Hp'.
  rewrite lookup_insert_Some in Hp'. destruct Hp' as [[[= <- <-] <-]|[_ Hp']]; [done|by apply ok_seller0].
Qed.
Lemma payer_laws : model_laws PayerSubscription sn_payer_tenant_id (λ sn, (sn.(sn_billing_account_id), sn.(sn_merchant_tenant_id))).
Proof.
  split. intros P st t id p Hag Hev Hok _. simpl.
  assert (evolves st (set_payer (<[(t, id) := p]> st.(bl_payer)) st)) as He.
  { split; simpl; try done. by apply maps_evolve_insert; [apply _|]. }
  split; [|done]. destruct Hok. split; try done. intros t' id' p' Hp'. eapply agrees_mono; [done|]. simpl in Hp'.
  rewrite lookup_insert_Some in Hp'. destruct Hp' as [[[= <- <-] <-]|[_ Hp']]; [done|by apply ok_payer0].
Qed.
