(* ===== verification/BillingSteps.v ===== *)
(** * Billing: the operations keep the invariant

    Under an environment whose every action is a [step], every operation of the
    catalog, the parties, the provider references, the projections and the legacy
    subscriptions is a [step], whatever it returns. *)

From S2P Require Import Prelude StoreLogic PyStr TenantLifecycle PlatformAuthority PlatformService TenantHierarchy RbacDecision RbacService Idempotency BillingModel Billing BillingService BillingCommercial BillingProofs.
#[local] Open Scope Z_scope.

Section Steps.
Context (uuid4 : nat → uuid) (clock : nat → datetime) (env : nat → billing_store → billing_store).
Hypothesis env_step : ∀ n st, step st (env n st).
Context (P : billing_store → Prop) `{HP : !stable P}.

Lemma gap_step : keeps (step_under P) (gap env).
Proof.
  intros st Hok HPs. unfold gap, modify. simpl.
  destruct (same_tables_step (λ _, True) st (set_tick (S st.(bl_tick)) st) eq_refl Hok I) as [Hok1 He1].
  destruct (env_step st.(bl_tick) _ Hok1 I) as [Hok2 He2]. split; [done|]. by etrans.
Qed.
Lemma session_step {A} (m : BM A) : commits (step_under P) m → keeps (step_under P) (session env m).
Proof. intros Hm. unfold session. apply keeps_bind; [apply _|apply gap_step|intros _]. by apply keeps_transaction; [apply _|]. Qed.
Lemma session_keeps {A} (m : BM A) : keeps (step_under P) m → keeps (step_under P) (session env m).
Proof. intros Hm. by apply session_step, keeps_commits. Qed.
#[local] Hint Resolve gap_step : step.

Lemma step_assuming st st' : (billing_ok st → P st → step_under P st st') → step_under P st st'.
Proof using Type. intros H Hok HPs. by apply H. Qed.
(** A returned computation, in steps. *)
Lemma step_then {A} (m : BM A) st r st1 st' :
  m st = (r, st1) → keeps (step_under P) m → (billing_ok st1 → P st1 → step_under P st1 st') → step_under P st st'.
Proof.
  intros E Hm H Hok HPs. destruct (keeps_eq _ _ _ _ _ E Hm Hok HPs) as [Hok1 He1].
  destruct (H Hok1) as (Hok2 & He2); [by eapply HP|done|by eapply HP|]. split; [done|]. by etrans.
Qed.
Ltac advance :=
  match goal with
  | E : ?m ?st = (_, ?st1) |- step_under _ ?st _ => eapply (step_then m); [exact E|clear E; bill|clear E; intros ? ?]
  end.

(** ** parties.py *)

Lemma create_merchant_account_step c owner provider ref status :
  keeps (step_under P) (create_merchant_account uuid4 clock env c owner provider ref status).
Proof. unfold create_merchant_account. bill. apply session_keeps. bill. Qed.

Lemma set_merchant_account_status_step c owner id status :
  keeps (step_under P) (set_merchant_account_status uuid4 clock env c owner id status).
Proof.
  unfold set_merchant_account_status. bill. apply session_step. intros st r st' H. run H.
  match goal with E : owned _ _ _ = Some _ |- _ => apply owned_Some in E as [? ?] end.
  advance. advance. etrans; [by apply merchant_status_step|]. by eapply keeps_eq; [exact H|bill].
Qed.

Lemma get_merchant_account_step t id : keeps (step_under P) (get_merchant_account env t id).
Proof. apply session_keeps. bill. Qed.
Lemma list_merchant_accounts_step t : keeps (step_under P) (list_merchant_accounts env t).
Proof. apply session_keeps. bill. Qed.
Lemma get_billing_account_step t id : keeps (step_under P) (get_billing_account env t id).
Proof. apply session_keeps. bill. Qed.
#[local] Hint Resolve get_merchant_account_step list_merchant_accounts_step get_billing_account_step : step.
Lemma get_or_create_billing_account_step c payer mt mid :
  keeps (step_under P) (get_or_create_billing_account uuid4 clock env c payer mt mid).
Proof.
  unfold get_or_create_billing_account, require_active_merchant_account, find_billing_account.
  bill; apply session_keeps; bill.
Qed.

(** ** catalog.py *)

Lemma eligible_plans_tables c service l : keeps same_tables (eligible_plans uuid4 clock c service l).
Proof. induction l as [|[id p] l IH]; simpl; bill_steps; eauto with tables. Qed.
Lemma list_plans_step c service : keeps (step_under P) (list_plans uuid4 clock env c service).
Proof. unfold list_plans. bill. apply session_keeps. bill. apply keeps_same_tables, eligible_plans_tables. Qed.

Lemma create_owned_plan_step c owner merchant key name e price v :
  keeps (step_under P) (create_owned_plan uuid4 clock env c owner merchant key name e price v).
Proof. unfold create_owned_plan, owner_key_conflict. bill. apply session_keeps. bill. Qed.

Lemma lock_owned_plan_Ok owner id st p st' : lock_owned_plan owner id st = (Ok p, st') → st' = st ∧ st.(bl_plans) !! id = Some p.
Proof. unfold lock_owned_plan. intros H. run H. case_in H; run H. by split. Qed.
Lemma set_plan_visibility_step c owner id v : keeps (step_under P) (set_plan_visibility uuid4 clock env c owner id v).
Proof.
  unfold set_plan_visibility. bill. apply session_step. intros st r st' H. run H. advance.
  match goal with E : lock_owned_plan _ _ _ = _ |- _ => apply lock_owned_plan_Ok in E as [-> Hp] end.
  case_bool_decide; run H; [by reflexivity|]. etrans; [eapply write_plan_step; [apply _| |eassumption]|eapply keeps_eq; [eassumption|bill]].
  intros p0 Hp0. by simplify_eq.
Qed.
Lemma withdraw_plan_step c owner id : keeps (step_under P) (withdraw_plan uuid4 clock env c owner id).
Proof.
  unfold withdraw_plan. bill. apply session_step. intros st r st' H. run H. advance.
  match goal with E : lock_owned_plan _ _ _ = _ |- _ => apply lock_owned_plan_Ok in E as [-> Hp] end.
  destruct (pl_withdrawn _) eqn:Ew; run H; [by reflexivity|].
  etrans; [eapply write_plan_step; [apply _| |eassumption]|eapply keeps_eq; [eassumption|bill]]. intros p0 Hp0. by simplify_eq.
Qed.
Lemma insert_offer_tables o : keeps same_tables (insert_offer uuid4 o).
Proof. unfold insert_offer. bill_steps; [eauto with tables|]. intros st. by case_match. Qed.
Lemma create_plan_offer_step c owner id service : keeps (step_under P) (create_plan_offer uuid4 clock env c owner id service).
Proof.
  unfold create_plan_offer, find_offer, lock_owned_plan.
  bill; apply session_keeps; bill. apply keeps_same_tables, insert_offer_tables.
Qed.
Lemma revoke_plan_offer_step c owner id : keeps (step_under P) (revoke_plan_offer uuid4 clock env c owner id).
Proof. unfold revoke_plan_offer. bill. apply session_keeps. bill. by apply keeps_same_tables. Qed.
Lemma adopt_legacy_plan_step c id owner merchant v : keeps (step_under P) (adopt_legacy_plan uuid4 clock env c id owner merchant v).
Proof.
  unfold adopt_legacy_plan, owner_key_conflict. bill. apply session_step. intros st r st' H. run H. reflect_bools.
  advance. advance. advance. etrans; [eapply write_plan_step; [apply _| |eassumption]|eapply keeps_eq; [eassumption|bill]].
  intros p0 Hp0. simplify_eq. split_and!; try done. simpl. by intros [? ?]; congruence.
Qed.

(** ** provider_refs.py *)

Lemma register_provider_ref_step provider account ty ref wanted :
  keeps (step_under P) (register_provider_ref env provider account ty ref wanted).
Proof. unfold register_provider_ref. bill; apply session_keeps; bill. Qed.
Lemma resolve_provider_ref_step provider account ty ref : keeps (step_under P) (resolve_provider_ref env provider account ty ref).
Proof. unfold resolve_provider_ref. bill; apply session_keeps; bill. Qed.
Lemma find_provider_object_ref_step provider account ty r : keeps (step_under P) (find_provider_object_ref env provider account ty r).
Proof. apply session_keeps. bill. Qed.

(** ** projections.py *)

Lemma canonical_snapshot_step service id : keeps (step_under P) (canonical_snapshot env service id).
Proof. apply session_keeps. bill. Qed.
Lemma canonical_snapshot_known service id st sn st' :
  canonical_snapshot env service id st = (Ok (Some sn), st') → snapshot_known id sn st'.
Proof.
  unfold canonical_snapshot, session, transaction. intros H. apply bind_Ok in H as (? & st1 & _ & H).
  match type of H with (match ?m st1 with _ => _ end) = _ => destruct (m st1) as [[]] eqn:E; [|done] end.
  simplify_eq. run E. match goal with H : owned _ _ _ = Some ?s |- _ => apply owned_Some in H as [Hs Ht]; rename s into row end.
  destruct (sb_payer_tenant_id row) eqn:Ep, (sb_billing_account_id row) eqn:Eb, (sb_merchant_account_id row) eqn:Em; run E; try done.
  destruct (owned _ _ (bl_accounts _ !! _)) eqn:Ea; run E; simplify_eq.
  split; simpl; [by eexists|]. unfold snapshot_of. rewrite Ep, Eb, Em, Ea. by case_match.
Qed.

Lemma apply_once_step {A} (model : read_model A) owner values id sn :
  model_laws model owner values → (∀ st, P st → snapshot_known id sn st) →
  keeps (step_under P) (apply_once clock env model (owner sn) id sn (values sn)).
Proof.
  intros Hm Hsn. unfold apply_once. apply session_step. intros st r st' H. destruct (lock_open_tenant _ _) as [|[]]; try (by simplify_eq; reflexivity).
  intros Hok HPs. revert H. assert (∀ outcome : projection_outcome, (∀ p0, rm_rows model st !! (owner sn, id) = Some p0 → sb_version (sn_row sn) <=? pj_version p0 = false) →
    (do* _ := write_projection model (owner sn) id (project (values sn) sn (now clock st)) in ret outcome) st = (Ok r, st') →
    billing_ok st' ∧ evolves st st') as Hw.
  { intros outcome Hlt H. run H. revert Hr. unfold write_projection. case_match; [|done]. intros [= _ <-]. pose proof (Hsn _ HPs). revert Hok HPs.
    apply (ml_write _ _ _ Hm); [by apply snapshot_agrees|]. intros p0 Hp0%Hlt. reflect_bools. split; simpl; lia. }
  destruct (rm_rows model st !! (owner sn, id)) as [p0|] eqn:Ep.
  - destruct (_ <=? _) eqn:El; [intros [= _ <-]; done|]. apply Hw. by intros ? [= <-].
  - apply Hw. done.
Qed.
Lemma apply_projection_step {A} (model : read_model A) owner values id sn :
  model_laws model owner values → (∀ st, P st → snapshot_known id sn st) →
  keeps (step_under P) (apply_projection clock env model (owner sn) id sn (values sn)).
Proof. intros Hm Hsn. unfold apply_projection. bill; by apply apply_once_step. Qed.
End Steps.

#[export] Hint Resolve gap_step create_merchant_account_step set_merchant_account_status_step get_merchant_account_step
  list_merchant_accounts_step get_billing_account_step get_or_create_billing_account_step list_plans_step create_owned_plan_step
  set_plan_visibility_step withdraw_plan_step create_plan_offer_step revoke_plan_offer_step adopt_legacy_plan_step
  register_provider_ref_step resolve_provider_ref_step find_provider_object_ref_step canonical_snapshot_step : step.

(** Take one returned part of a computation as a step. *)
Ltac advance :=
  match goal with
  | E : ?m ?st = (_, ?st1) |- step_under _ ?st _ => eapply (step_then _ m); [exact E|clear E; bill|clear E; intros ? ?]
  end.

Section Operations.
Context (uuid4 : nat → uuid) (clock : nat → datetime) (env : nat → billing_store → billing_store).
Hypothesis env_step : ∀ n st, step st (env n st).
Context (P : billing_store → Prop) `{HP : !stable P}.

Lemma project_subscription_step service id : keeps (step_under P) (project_subscription clock env service id).
Proof.
  unfold project_subscription.
  apply (keeps_establish P (λ o st, match o with Some sn => snapshot_known id sn st | None => True end)); [done|bill| |].
  - intros st [sn|] st' _ _ H; [|done]. by eapply canonical_snapshot_known.
  - intros [sn|]; [|bill]. bill.
    + eapply (apply_projection_step clock env env_step _ SellerSubscription _ _ id sn seller_laws). by intros st [_ ?].
    + eapply (apply_projection_step clock env env_step _ PayerSubscription _ _ id sn payer_laws). by intros st [_ ?].
Qed.
Lemma project_subscription_job_step service event_id id version :
  keeps (step_under P) (project_subscription_job clock env service event_id id version).
Proof.
  unfold project_subscription_job. bill; try apply project_subscription_step; (apply session_keeps; [done..|]); bill. by apply keeps_same_tables.
Qed.

(** ** service.py *)

Lemma call_provider_step ad rq : keeps (step_under P) (call_provider env ad rq).
Proof. unfold call_provider. bill. intros st. case_match; by apply same_tables_step. Qed.
Lemma get_subscription_status_step ad id : keeps (step_under P) (get_subscription_status env ad id).
Proof. unfold get_subscription_status. bill. Qed.
#[local] Hint Resolve call_provider_step get_subscription_status_step : step.
Lemma cancel_at_provider_step ad id : keeps (step_under P) (cancel_at_provider env ad id).
Proof.
  intros st. unfold cancel_at_provider. pose proof (call_provider_step ad (RqCancel id) st) as H1.
  destruct (call_provider _ _ _ st) as [[|[]] st1]; cbn [fst snd] in *; try done.
  pose proof (get_subscription_status_step ad id st1) as H2. destruct (get_subscription_status _ _ _ st1) as [[[]|] st2]; cbn [fst snd] in *; by (etrans; [exact H1|exact H2]).
Qed.
Lemma record_audit_event_step t actor action id outcome : keeps (step_under P) (record_audit_event env t actor action id outcome).
Proof. apply session_keeps; [done..|]. bill. Qed.
Lemma tenant_row_step t : keeps (step_under P) (tenant_row env t).
Proof. apply session_keeps; [done..|]. bill. Qed.
Lemma open_tenant_row_step t : keeps (step_under P) (open_tenant_row env t).
Proof. apply session_keeps; [done..|]. bill. Qed.
Lemma get_plan_step key : keeps (step_under P) (get_plan env key).
Proof. apply session_keeps; [done..|]. bill. Qed.
Lemma get_subscription_step t id : keeps (step_under P) (get_subscription env t id).
Proof. apply session_keeps; [done..|]. bill. Qed.
Lemma create_plan_step key name e price : keeps (step_under P) (create_plan uuid4 env key name e price).
Proof. unfold create_plan. bill. apply session_keeps; [done..|]. bill. Qed.
#[local] Hint Resolve cancel_at_provider_step record_audit_event_step tenant_row_step open_tenant_row_step get_plan_step
  get_subscription_step : step.
Ltac legacy :=
  unfold active_provider, require_service_tenant_owns_billing, refuse_withdrawn, refuse_commercial in *.

Lemma allowed_refl s : is_transition_allowed s s = true.
Proof. by destruct s. Qed.
Lemma set_subscription_status_Ok s target s' changed :
  set_subscription_status s target = Ok (s', changed) →
  is_transition_allowed s.(sb_status) target = true ∧ s' = with_status target s.
Proof.
  unfold set_subscription_status. destruct (is_transition_allowed _ _); simpl; [|done]. case_bool_decide as E; intros [= <- <-]; (split; [done|]); [|done].
  subst. by destruct s.
Qed.
(** A status change of a row: what the graph allows. *)
Lemma status_change s target : is_transition_allowed s.(sb_status) target = true → row_change s (with_status target s).
Proof. intros H. split; simpl; try done. destruct (sb_billing_account_id s); by left. Qed.
Lemma save_status_step id s target s' changed st r st' :
  billing_ok st → st.(bl_subscriptions) !! id = Some s → set_subscription_status s target = Ok (s', changed) →
  save_changed clock id s' st = (Ok r, st') → step_under P st st'.
Proof.
  intros Hok Hs [Ha ->]%set_subscription_status_Ok H. eapply save_changed_step; [done|by apply status_change| |done].
  intros Hv. apply (ok_reference _ Hok id s Hs Hv).
Qed.
Lemma subscription_row_Ok t id st s st' : subscription_row t id st = (Ok s, st') → st' = st ∧ st.(bl_subscriptions) !! id = Some s ∧ s.(sb_tenant_id) = t.
Proof. unfold subscription_row. intros H. run H. match goal with E : owned _ _ _ = _ |- _ => apply owned_Some in E as [? ?] end. done. Qed.

Lemma subscribe_step default t key provider actor :
  keeps (step_under P) (subscribe uuid4 clock env default t key provider actor).
Proof.
  unfold subscribe. legacy. bill. apply session_step; [done..|]. intros st r st' H. unfold refuse_withdrawn_now, refuse_withdrawn in H. run H. advance.
  by eapply save_created_step; [| |eassumption].
Qed.
Lemma not_commercial id s st a st' : refuse_commercial id s st = (Ok a, st') → st' = st ∧ s.(sb_verification) = LEGACY_UNVERIFIED ∧ s.(sb_billing_account_id) = None.
Proof.
  unfold refuse_commercial. intros H. run H. reflect_bools. split; [done|]. split; [by destruct (sb_verification s)|].
  by apply eq_None_not_Some.
Qed.
Lemma upgrade_subscription_step default t id key provider actor :
  keeps (step_under P) (upgrade_subscription clock env default t id key provider actor).
Proof.
  unfold upgrade_subscription. legacy. bill. apply session_step; [done..|]. intros st r st' H.
  unfold refuse_withdrawn_now, refuse_withdrawn in H. run H.
  match goal with E : subscription_row _ _ _ = _ |- _ => apply subscription_row_Ok in E as (-> & Hs & _) end. reflect_bools.
  eapply save_changed_step; [done| | |done].
  - split; simpl; first [done|by left|by apply allowed_refl|intros ?; congruence].
  - intros ?. simpl in *. congruence.
Qed.
Lemma cancel_subscription_step default t id provider actor :
  keeps (step_under P) (cancel_subscription clock env default t id provider actor).
Proof.
  unfold cancel_subscription. legacy. bill. apply session_step; [done..|]. intros st r st' H. run H.
  match goal with E : subscription_row _ _ _ = _ |- _ => apply subscription_row_Ok in E as (-> & Hs & _) end.
  match goal with E : set_subscription_status _ _ = Ok ?c |- _ => destruct c as [s' []]; simpl in H; run H; [|by reflexivity] end.
  apply step_assuming. intros Hok _. by eapply save_status_step.
Qed.

(** *** Idempotency *)

Lemma in_idem_step {A} (m : M _ _ A) : keeps (step_under P) (in_idem env m).
Proof. unfold in_idem. bill. intros st. destruct (m _). by apply same_tables_step. Qed.
Lemma begin_operation_step fp cfg t op key payload :
  keeps (step_under P) (begin_operation uuid4 clock env fp cfg t op key payload).
Proof. unfold begin_operation. bill. apply in_idem_step. Qed.
Lemma finalize_operation_step t id status result : keeps (step_under P) (finalize_operation clock env t id status result).
Proof. unfold finalize_operation. bill. apply in_idem_step. Qed.
#[local] Hint Resolve begin_operation_step finalize_operation_step subscribe_step : step.
Lemma subscribe_idempotent_step default fp cfg t key ikey provider actor :
  keeps (step_under P) (subscribe_idempotent uuid4 clock env default fp cfg t key ikey provider actor).
Proof. unfold subscribe_idempotent. bill. Qed.
End Operations.

#[export] Hint Resolve project_subscription_step project_subscription_job_step call_provider_step get_subscription_status_step
  cancel_at_provider_step record_audit_event_step tenant_row_step open_tenant_row_step get_plan_step get_subscription_step create_plan_step
  subscribe_step upgrade_subscription_step cancel_subscription_step begin_operation_step finalize_operation_step
  subscribe_idempotent_step : step.

(** * Billing: what an operation may rely on between its transactions

    A row that was read stays, up to how rows evolve; a reference that was
    registered stays.  These facts are stable, so the steps of an operation may
    assume them after any action of the environment.  With them: creation, status
    reconciliation, cancellation and legacy reconciliation are steps. *)

#[local] Open Scope Z_scope.

Definition merchant_known (id : uuid) (m : MerchantAccount) (st : billing_store) : Prop :=
  ∃ m', st.(bl_merchants) !! id = Some m' ∧ merchant_evolves m m'.
Definition account_known (id : uuid) (a : BillingAccount) (st : billing_store) : Prop :=
  ∃ a', st.(bl_accounts) !! id = Some a' ∧ account_evolves a a'.
Definition row_known (id : uuid) (s : Subscription) (st : billing_store) : Prop :=
  ∃ s', st.(bl_subscriptions) !! id = Some s' ∧ subscription_evolves s s'.
Definition ref_known (key : pystr * pystr * ProviderObjectType * pystr) (r : ProviderRefResolution) (st : billing_store) : Prop :=
  st.(bl_refs) !! key = Some r.

Lemma known_stable {K A : Type} `{Countable K} (R : relation A) `{!PreOrder R} (m m' : gmap K A) k x :
  maps_evolve R m m' → (∃ y, m !! k = Some y ∧ R x y) → ∃ y, m' !! k = Some y ∧ R x y.
Proof. intros He (y & Hy & Hxy). destruct (He _ _ Hy) as (z & Hz & ?). exists z. split; [done|]. by etrans. Qed.
#[export] Instance merchant_known_stable id m : stable (merchant_known id m).
Proof. intros st st' He. apply known_stable; [apply _|apply He]. Qed.
#[export] Instance account_known_stable id a : stable (account_known id a).
Proof. intros st st' He. apply known_stable; [apply _|apply He]. Qed.
#[export] Instance row_known_stable id s : stable (row_known id s).
Proof. intros st st' He. apply known_stable; [apply _|apply He]. Qed.
#[export] Instance ref_known_stable key r : stable (ref_known key r).
Proof. intros st st' He Hr. destruct (ev_refs _ _ He _ _ Hr) as (? & ? & <-). done. Qed.

(** ** What the reads establish *)

Lemma session_Ok {A} env (m : BM A) st a st' : session env m st = (Ok a, st') → ∃ st1, m st1 = (Ok a, st').
Proof.
  unfold session. intros H. apply bind_Ok in H as (? & st1 & _ & H). unfold transaction in H. exists st1.
  destruct (m st1) as [[]]; naive_solver.
Qed.
Lemma get_merchant_account_known env t id st m st' :
  get_merchant_account env t id st = (Ok m, st') → st'.(bl_merchants) !! id = Some m ∧ m.(ma_tenant_id) = t.
Proof. intros [st1 H]%session_Ok. unfold merchant_row in H. run H. by apply owned_Some. Qed.
Lemma get_billing_account_known env t id st a st' :
  get_billing_account env t id st = (Ok a, st') → st'.(bl_accounts) !! id = Some a ∧ a.(ba_tenant_id) = t.
Proof. intros [st1 H]%session_Ok. unfold account_row in H. run H. by apply owned_Some. Qed.
Lemma get_subscription_known env t id st s st' :
  get_subscription env t id st = (Ok s, st') → st'.(bl_subscriptions) !! id = Some s ∧ s.(sb_tenant_id) = t.
Proof. intros [st1 H]%session_Ok. by apply subscription_row_Ok in H as (-> & ? & ?). Qed.
Lemma register_provider_ref_known env provider account ty ref wanted st u st' :
  register_provider_ref env provider account ty ref wanted st = (Ok u, st') → ref_known (ref_key provider account ty ref) wanted st'.
Proof.
  unfold register_provider_ref. intros H. run H. unfold on_conflict in H.
  destruct (session env (insert_ref _ _) st) as [[[]|[]] st1] eqn:E; try done.
  - simplify_eq. apply session_Ok in E as [st2 E]. revert E. unfold insert_ref, ref_known. case_match; [done|]. intros [= <-]. simpl. by rewrite lookup_insert_eq.
  - apply bind_Ok in H as (o & st2 & Ha & Hb). apply session_Ok in Ha as [st3 Ha]. run Ha. run Hb. reflect_bools. done.
Qed.

(** ** The context of a creation *)

Section Context_.
Context (uuid4 : nat → uuid) (clock : nat → datetime).

Lemma eligible_merchant c service id plan m st st' :
  evaluate_plan_eligibility uuid4 clock c service id plan (Some m) st = (Ok ELIGIBLE, st') → plan.(pl_merchant_account_id) = Some m.
Proof.
  unfold evaluate_plan_eligibility. intros H. run H.
  destruct (pl_owner_tenant_id plan) as [owner|]; [|by run H; simplify_eq].
  destruct (pl_merchant_account_id plan) as [seller|]; [|by run H; simplify_eq].
  destruct (pl_withdrawn plan); [by run H; simplify_eq|]. destruct (decide (m = seller)) as [->|Hne]; [done|].
  rewrite bool_decide_false in H by done. simpl in H. run H. by simplify_eq.
Qed.

Lemma commercial_context_Ok q st cc st' :
  commercial_context uuid4 clock q st = (Ok cc, st') →
  same_tables st st' ∧ st'.(bl_accounts) !! q.(cr_billing_account_id) = Some cc.(cc_account) ∧
  cc.(cc_account).(ba_tenant_id) = q.(cr_payer_tenant_id) ∧ st'.(bl_merchants) !! cc.(cc_merchant_id) = Some cc.(cc_merchant) ∧
  cc.(cc_account).(ba_merchant_account_id) = cc.(cc_merchant_id).
Proof.
  intros H. assert (same_tables st st') as Hst.
  { eapply keeps_eq; [exact H|]. unfold commercial_context, require_service_tenant_owns_billing, require_migratable, require_active_billing_account.
    bill_steps; eauto with tables. }
  split; [done|]. revert H. unfold commercial_context, require_active_billing_account, account_row. intros H. run H. reflect_bools. subst.
  match goal with E : owned ba_tenant_id _ _ = Some _ |- _ => apply owned_Some in E as [Ha Ht] end.
  match goal with E : evaluate_plan_eligibility _ _ _ _ _ _ _ _ = _ |- _ =>
    pose proof (eligible_merchant _ _ _ _ _ _ _ E) as Hm;
    pose proof (keeps_eq _ _ _ _ _ E (evaluate_plan_eligibility_tables _ _ _ _ _ _ _)) as Hs end.
  unfold same_tables, tables in Hs. simplify_eq. rewrite Hm in H. destruct (pl_owner_tenant_id _) as [owner|]; run H.
  match goal with E : owned ma_tenant_id _ _ = Some _ |- _ => apply owned_Some in E as [? ?] end. simpl. split_and!; congruence.
Qed.
End Context_.

(** The row of a creation, its merchant and its registered reference: what the
    invariant asks of a verified row. *)
Lemma creation_reference uuid4 clock q cc id m ref st st' at_ :
  billing_ok st → commercial_context uuid4 clock q st = (Ok cc, st') →
  merchant_known cc.(cc_merchant_id) m st →
  ref_known (ref_key m.(ma_provider) m.(ma_provider_account_ref) OBJ_SUBSCRIPTION ref)
    (mkResolution q.(cr_service_tenant_id) LOCAL_SUBSCRIPTION id) st →
  reference_ok st' id
    (mkSubscription q.(cr_service_tenant_id) q.(cr_plan_id) SUB_PENDING ref (Some cc.(cc_account).(ba_tenant_id))
       (Some q.(cr_billing_account_id)) (Some cc.(cc_merchant_id)) (Some cc.(cc_merchant).(ma_provider)) VERIFIED 1 at_ at_).
Proof.
  intros Hok (Hst & Ha & Ht & Hm & Hma)%commercial_context_Ok (m' & Hm' & Hev) Hr.
  unfold same_tables, tables in Hst. injection Hst as _ _ E3 E4 E5 _ _ _. rewrite E3 in Hm. rewrite Hm' in Hm. simplify_eq.
  destruct Hev as (_ & Hp & Hpr).
  destruct (ok_accounts _ Hok q.(cr_billing_account_id) cc.(cc_account)) as [m1 Hm1]; [congruence|]. rewrite Hma in Hm1.
  exists cc.(cc_account).(ba_tenant_id), q.(cr_billing_account_id), cc.(cc_merchant_id), cc.(cc_account), cc.(cc_merchant).
  split_and!; try done; simpl.
  - by apply owned_Some.
  - rewrite E3. apply owned_Some in Hm1 as [E1 E2]. apply owned_Some. split; congruence.
  - rewrite E5, Hp, Hpr. done.
Qed.

Section Steps.
Context (uuid4 : nat → uuid) (clock : nat → datetime) (env : nat → billing_store → billing_store).
Hypothesis env_step : ∀ n st, step st (env n st).
Context (default_provider : option Adapter) (compute_fingerprint : billing_payload → pystr) (cfg : IdempotencyConfig).
Context (uuid5 : uuid → uuid) (uuid_text : uuid → pystr) (platform_tenant_id : option uuid).

Section Under.
Context (P : billing_store → Prop) `{HP : !stable P}.

Lemma commercial_context_tables q : keeps same_tables (commercial_context uuid4 clock q).
Proof.
  unfold commercial_context, require_service_tenant_owns_billing, require_migratable, require_active_billing_account. bill_steps; eauto with tables.
Qed.
#[local] Hint Resolve commercial_context_tables : tables.

Lemma insert_pending_session_step q id mid m ref :
  (∀ st, P st → merchant_known mid m st ∧ ref_known (ref_key m.(ma_provider) m.(ma_provider_account_ref) OBJ_SUBSCRIPTION ref)
                                            (mkResolution q.(cr_service_tenant_id) LOCAL_SUBSCRIPTION id) st) →
  keeps (step_under P) (insert_pending_session uuid4 clock env q id mid ref).
Proof.
  intros Hknown. unfold insert_pending_session. apply session_step; [done..|]. intros st r st' H. run H. reflect_bools. subst.
  apply step_assuming. intros Hok HPs. destruct (Hknown _ HPs) as [Hm Hr'].
  match goal with E : commercial_context _ _ _ _ = _ |- _ => pose proof (creation_reference _ _ _ _ id m ref _ _ (now clock x0) Hok E Hm Hr') as Href end.
  advance. etrans; [by eapply save_created_step; [| |eassumption]|]. advance.
  eapply keeps_eq; [exact H|]. bill. by apply keeps_same_tables.
Qed.
Lemma find_by_id_step t id : keeps (step_under P) (find_by_id env t id).
Proof. apply session_keeps; [done..|]. bill. Qed.
#[local] Hint Resolve find_by_id_step : step.
Lemma insert_pending_step q id mid m ref :
  (∀ st, P st → merchant_known mid m st ∧ ref_known (ref_key m.(ma_provider) m.(ma_provider_account_ref) OBJ_SUBSCRIPTION ref)
                                            (mkResolution q.(cr_service_tenant_id) LOCAL_SUBSCRIPTION id) st) →
  keeps (step_under P) (audit_refusal env q id (insert_pending uuid4 clock env q id mid ref)).
Proof.
  intros Hknown. assert (keeps (step_under P) (insert_pending uuid4 clock env q id mid ref)) as Hi.
  { unfold insert_pending. bill. by eapply insert_pending_session_step. }
  intros st. unfold audit_refusal. specialize (Hi st). destruct (insert_pending _ _ _ _ _ _ _ st) as [[|e] st1]; cbn [fst snd] in *; [done|].
  destruct (final_refusal e); [|done]. etrans; [exact Hi|].
  match goal with |- step_under P st1 (?m st1).2 => change (step_under P st1 (m st1).2); enough (keeps (step_under P) m) as Hk by apply Hk end.
  bill. apply session_keeps; [done..|]. bill.
Qed.

(** ** Reads and provider calls *)

Lemma adapter_for_tables expected provider : keeps same_tables (adapter_for default_provider expected provider).
Proof. unfold adapter_for. bill_steps. Qed.
Lemma adapter_for_merchant_tables m provider : keeps same_tables (adapter_for_merchant default_provider platform_tenant_id m provider).
Proof. unfold adapter_for_merchant, get_platform_tenant_id. bill_steps; apply adapter_for_tables. Qed.
#[local] Hint Resolve adapter_for_tables adapter_for_merchant_tables : tables.
Lemma replace_error_step {A} (m : BM A) caught e : keeps (step_under P) m → keeps (step_under P) (replace_error m caught e).
Proof. intros Hm st. unfold replace_error. specialize (Hm st). by destruct (m st) as [[]]. Qed.
Lemma verify_provider_reference_step id s : keeps (step_under P) (verify_provider_reference env id s).
Proof. unfold verify_provider_reference. bill. apply replace_error_step. bill. Qed.
Lemma live_subscription_exists_step t m : keeps (step_under P) (live_subscription_exists env t m).
Proof. apply session_keeps; [done..|]. bill. Qed.
Lemma store_customer_step payer id ref : keeps (step_under P) (store_customer env payer id ref).
Proof.
  apply session_step; [done..|]. intros st r st' H. run H.
  match goal with E : owned _ _ _ = Some _ |- _ => apply owned_Some in E as [Ha Ht] end.
  destruct (ba_provider_customer_ref _) eqn:E; run H; [by reflexivity|]. apply step_assuming. intros Hok _.
  eapply account_change_step; [done|done|]. split_and!; try done. intros [? ?]. congruence.
Qed.
#[local] Hint Resolve verify_provider_reference_step live_subscription_exists_step store_customer_step : step.
Lemma ensure_provider_customer_step ad q a mid m : keeps (step_under P) (ensure_provider_customer env uuid_text ad q a mid m).
Proof. unfold ensure_provider_customer. bill. Qed.
#[local] Hint Resolve ensure_provider_customer_step : step.
Lemma provider_subscription_of_step q cc ad op id existing :
  keeps (step_under P) (provider_subscription_of env uuid_text q cc ad op id existing).
Proof. unfold provider_subscription_of. bill. Qed.

Lemma apply_provider_state_step t id state c checks operation :
  keeps (step_under P) (apply_provider_state uuid4 clock env t id state c checks operation).
Proof.
  apply session_step; [done..|]. intros st r st' H. run H. advance.
  match goal with E : subscription_row _ _ _ = _ |- _ => apply subscription_row_Ok in E as (-> & Hs & _) end.
  cbv zeta in H. destruct (target_status_for state); [|run H; by reflexivity]. destruct (negb _); run H; [by reflexivity|].
  match goal with E : set_subscription_status _ _ = Ok ?c |- _ => destruct c as [s' []]; simpl in H; run H; [|by reflexivity] end.
  etrans; [by eapply save_status_step|]. advance. eapply keeps_eq; [eassumption|]. bill.
Qed.
#[local] Hint Resolve provider_subscription_of_step apply_provider_state_step : step.
Lemma settle_step q ad id ref : keeps (step_under P) (settle uuid4 clock env q ad id ref).
Proof.
  intros st. unfold settle. pose proof (get_subscription_status_step env env_step P ad ref st) as Hs.
  destruct (get_subscription_status _ _ _ st) as [[state|e] st1]; cbn [fst snd] in *.
  - pose proof (apply_provider_state_step q.(cr_service_tenant_id) id state q.(cr_caller) (creation_checks q) q.(cr_operation) st1) as Ha.
    destruct (apply_provider_state _ _ _ _ _ _ _ _ _ st1) as [[r|e] st2]; cbn [fst snd] in *; [by etrans|].
    destruct e; try (by etrans). etrans; [exact Hs|]. etrans; [exact Ha|]. apply get_subscription_step; done.
  - destruct e; try done. etrans; [exact Hs|]. apply get_subscription_step; done.
Qed.
#[local] Hint Resolve settle_step : step.
Lemma replayed_step q r : keeps (step_under P) (replayed env q r).
Proof. unfold replayed. bill. Qed.
#[local] Hint Resolve replayed_step : step.
Lemma replay_completed_step q : keeps (step_under P) (replay_completed uuid4 clock env compute_fingerprint cfg q).
Proof. unfold replay_completed, begin_creation, finalize_creation. bill. Qed.
End Under.

#[local] Hint Resolve find_by_id_step adapter_for_tables adapter_for_merchant_tables verify_provider_reference_step
  live_subscription_exists_step store_customer_step ensure_provider_customer_step provider_subscription_of_step
  apply_provider_state_step settle_step replayed_step replay_completed_step commercial_context_tables : step tables.

Section Creation.
Context (P : billing_store → Prop) `{HP : !stable P}.

Lemma create_at_provider_step q cc ad op id :
  (∀ st, P st → merchant_known cc.(cc_merchant_id) cc.(cc_merchant) st) →
  keeps (step_under P) (create_at_provider uuid4 clock env uuid_text q cc ad op id).
Proof.
  intros Hm. unfold create_at_provider.
  apply keeps_bind; [apply _|bill|intros existing]. apply keeps_bind; [apply _|bill|intros ref].
  eapply (keeps_establish P (λ _, ref_known _ _)); [done|bill| |].
  - intros st u st' _ _ Hr. by eapply register_provider_ref_known.
  - intros _. bill. eapply insert_pending_step; [first [done|apply _]..|]. intros st [HPs Hr]. split; [by apply Hm|done].
Qed.
Lemma complete_creation_step q cc ad op :
  (∀ st, P st → merchant_known cc.(cc_merchant_id) cc.(cc_merchant) st) →
  keeps (step_under P) (complete_creation uuid4 clock env uuid5 uuid_text q cc ad op).
Proof.
  intros Hm. pose proof (create_at_provider_step q cc ad op (uuid5 op) Hm). unfold complete_creation, finalize_creation. bill; done.
Qed.
Lemma reserved_creation_step q cc :
  (∀ st, P st → merchant_known cc.(cc_merchant_id) cc.(cc_merchant) st) →
  keeps (step_under P) (reserved_creation uuid4 clock env default_provider compute_fingerprint cfg uuid5 uuid_text platform_tenant_id q cc).
Proof. intros Hm. unfold reserved_creation, begin_creation. bill. by apply complete_creation_step. Qed.
End Creation.

Section Operations.
Context (P : billing_store → Prop) `{HP : !stable P}.

Lemma create_commercial_subscription_step q :
  keeps (step_under P)
    (create_commercial_subscription uuid4 clock env default_provider compute_fingerprint cfg uuid5 uuid_text platform_tenant_id q).
Proof.
  unfold create_commercial_subscription. bill. intros st.
  assert (keeps (step_under P) (session env (commercial_context uuid4 clock q))) as Hc by (apply session_keeps; [done..|]; bill).
  pose proof (Hc st) as Hs. destruct (session env _ st) as [[cc|e] st1] eqn:E; cbn [fst snd] in *.
  - apply session_Ok in E as [st0 (_ & _ & _ & Hm & _)%commercial_context_Ok].
    intros Hok HPs. destruct (Hs Hok HPs) as [Hok1 He1].
    destruct (reserved_creation_step (λ st, P st ∧ merchant_known cc.(cc_merchant_id) cc.(cc_merchant) st) q cc) with (s := st1) as [Hok2 He2];
      [by intros ? []|done|split; [by eapply HP|by eexists]|]. split; [done|by etrans].
  - destruct e; try done. etrans; [exact Hs|].
    match goal with |- step_under P st1 (?m st1).2 => enough (keeps (step_under P) m) as Hk by apply Hk end. bill.
Qed.
Lemma opt_out_step c t : keeps (step_under P) (opt_out_of_billing_inheritance uuid4 clock env c t).
Proof. unfold opt_out_of_billing_inheritance. bill. apply session_keeps; [done..|]. bill. by apply keeps_same_tables. Qed.
Lemma reconcile_subscription_status_step c t id provider :
  keeps (step_under P) (reconcile_subscription_status uuid4 clock env default_provider c t id provider).
Proof. unfold reconcile_subscription_status, authorize_initially. bill. apply session_keeps; [done..|]. bill. Qed.
Lemma get_subscription_by_provider_ref_step provider account ref :
  keeps (step_under P) (get_subscription_by_provider_ref env provider account ref).
Proof. unfold get_subscription_by_provider_ref. bill. apply session_keeps; [done..|]. bill. Qed.

(** ** Payment page *)

Lemma authorize_payment_page_tables c t id : keeps same_tables (authorize_payment_page uuid4 clock c t id).
Proof. unfold authorize_payment_page. bill_steps; eauto with tables. Qed.
#[local] Hint Resolve authorize_payment_page_tables : tables.
Lemma record_payment_page_issued_step c t id : keeps (step_under P) (record_payment_page_issued uuid4 clock env c t id).
Proof.
  unfold record_payment_page_issued, payable_parties, require_active_billing_account, require_active_merchant_account.
  bill. apply session_keeps; [done..|]. bill.
Qed.
Lemma recording_page_refusal_step {A} c t id (m : BM A) :
  keeps (step_under P) m → keeps (step_under P) (recording_page_refusal env c t id m).
Proof.
  intros Hm st. unfold recording_page_refusal. specialize (Hm st). destruct (m st) as [[a|e] st1]; [done|].
  cbn [fst snd] in Hm. destruct e; try done. etrans; [exact Hm|]. match goal with |- step_under P st1 (?m st1).2 => enough (keeps (step_under P) m) as Hk by apply Hk end. bill.
Qed.
Lemma get_payment_page_step c t id provider :
  keeps (step_under P) (get_payment_page uuid4 clock env default_provider platform_tenant_id c t id provider).
Proof.
  unfold get_payment_page, payable_parties, require_active_billing_account, require_active_merchant_account. cbv zeta.
  bill; try (apply recording_page_refusal_step); [|apply record_payment_page_issued_step]. apply session_keeps; [done..|]. bill.
Qed.

(** ** Cancellation *)

Lemma cancellation_authority_tables c capacity t id : keeps same_tables (cancellation_authority uuid4 clock c capacity t id).
Proof. unfold cancellation_authority, cancellation_check. bill_steps; eauto with tables. Qed.
Lemma cancellation_authority_row c capacity t id st a st' :
  cancellation_authority uuid4 clock c capacity t id st = (Ok a, st') → st'.(bl_subscriptions) !! id = Some a.2.
Proof.
  intros H. unfold cancellation_authority in H. destruct capacity; run H.
  1: by match goal with E : subscription_row _ _ _ = _ |- _ => apply subscription_row_Ok in E as (-> & ? & _) end.
  all: match goal with E : owned _ _ _ = Some _ |- _ => apply owned_Some in E as [Hs _] end;
    match goal with E : authorize_billing _ _ _ _ _ ?s1 = (_, ?s2), E' : cancellation_check _ _ ?s0 = _ |- _ =>
      pose proof (keeps_eq _ _ _ _ _ E (authorize_billing_tables _ _ _ _ _)) as H1;
      assert (same_tables s0 s1) as H2 by (eapply keeps_eq; [exact E'|]; unfold cancellation_check; bill_steps) end;
    unfold same_tables, tables in H1, H2; simpl; congruence.
Qed.
Lemma cancel_session_step c capacity t id : keeps (step_under P) (cancel_session uuid4 clock env c capacity t id).
Proof.
  apply session_step; [done..|]. intros st r st' H. run H.
  match goal with E : cancellation_authority _ _ _ _ _ _ _ = _ |- _ => pose proof (cancellation_authority_row _ _ _ _ _ _ _ E) as Hs;
    eapply (step_then _ _ _ _ _ _ E); [apply keeps_same_tables, cancellation_authority_tables|clear E; intros ? ?] end.
  match goal with E : set_subscription_status _ _ = Ok ?c |- _ => destruct c as [s' []]; simpl in H; run H; [|by reflexivity] end.
  etrans; [by eapply save_status_step|]. advance. eapply keeps_eq; [eassumption|]. bill.
Qed.
Lemma cancel_commercial_subscription_step c t id provider capacity :
  keeps (step_under P) (cancel_commercial_subscription uuid4 clock env default_provider c t id provider capacity).
Proof.
  unfold cancel_commercial_subscription. cbv zeta. bill; [|apply cancel_session_step].
  apply session_keeps; [done..|]. apply keeps_same_tables, cancellation_authority_tables.
Qed.
End Operations.

(** ** Legacy reconciliation *)

(** What the earlier transactions established about the row to verify. *)
Definition verifiable (service id account_id : uuid) (row : Subscription) (account : BillingAccount) (merchant : MerchantAccount)
    (st : billing_store) : Prop :=
  row_known id row st ∧ account_known account_id account st ∧ merchant_known account.(ba_merchant_account_id) merchant st ∧
  ref_known (ref_key merchant.(ma_provider) merchant.(ma_provider_account_ref) OBJ_SUBSCRIPTION row.(sb_provider_subscription_id))
    (mkResolution service LOCAL_SUBSCRIPTION id) st.
(** The payer it records, if it records one, is the one supplied. *)
Definition payer_agrees_with (payer account_id : uuid) (row : Subscription) : Prop :=
  match row.(sb_billing_account_id) with None => True | Some a => a = account_id ∧ row.(sb_payer_tenant_id) = Some payer end.

Lemma verified_row_change st service id account_id row account merchant locked target :
  billing_ok st → verifiable service id account_id row account merchant st →
  st.(bl_subscriptions) !! id = Some locked → locked.(sb_verification) = LEGACY_UNVERIFIED →
  payer_agrees_with account.(ba_tenant_id) account_id row → is_transition_allowed locked.(sb_status) target = true →
  row_change locked (with_status target (with_parties account.(ba_tenant_id) account_id account.(ba_merchant_account_id)
                                           merchant.(ma_provider) locked)).
Proof.
  intros Hok ((s & Hs & Hev) & (a & Ha & Hat & _ & Ham & _) & _ & _) Hl Hu Hpay Hal. rewrite Hs in Hl. injection Hl as ->.
  split; simpl; try done; [|by right|intros ?; congruence].
  intros Hsome. destruct (sb_billing_account_id row) as [x|] eqn:Ex.
  - unfold payer_agrees_with in Hpay. rewrite Ex in Hpay. destruct Hpay as [-> Hpay].
    pose proof (se_parties _ _ Hev (mk_is_Some _ _ Ex)) as Hp. pose proof (ok_parties _ Hok _ _ Hs) as Hc.
    unfold parties in *. simpl. injection Hp as Hp1 Hp2 Hp3. rewrite Hp1, Hp2, Hpay, Ex.
    revert Hc. unfold consistent_parties. rewrite Hp1, Hp2, Hpay, Ex. destruct (sb_merchant_account_id locked); [|done].
    unfold owned. rewrite Ha, bool_decide_true by done. intros ?%bool_decide_eq_true. congruence.
  - destruct (se_new_parties _ _ Hev Ex) as [E|E]; [|congruence]. rewrite E in Hsome. by destruct Hsome.
Qed.
Lemma verified_row_reference st service id account_id row account merchant locked target :
  billing_ok st → verifiable service id account_id row account merchant st →
  st.(bl_subscriptions) !! id = Some locked → locked.(sb_tenant_id) = service →
  reference_ok st id (with_status target (with_parties account.(ba_tenant_id) account_id account.(ba_merchant_account_id)
                                            merchant.(ma_provider) locked)).
Proof.
  intros Hok ((s & Hs & Hev) & (a & Ha & Hat & Hamt & Ham & _) & (m & Hm & _ & Hmp & Hmr) & Hr) Hl Ht. rewrite Hs in Hl. injection Hl as ->. subst service.
  destruct (ok_accounts _ Hok _ _ Ha) as [m1 Hm1]. rewrite Ham in Hm1. pose proof (proj1 (owned_Some _ _ _ _) Hm1) as [E _]. rewrite Hm in E. injection E as ->.
  exists account.(ba_tenant_id), account_id, account.(ba_merchant_account_id), a, m1. simpl. split_and!; try done.
  - by apply owned_Some.
  - congruence.
  - rewrite (se_reference _ _ Hev), Hmp, Hmr. done.
Qed.

Section Verify.
Context (P : billing_store → Prop) `{HP : !stable P}.
Lemma verify_session_step c checks operation service id account_id row account merchant target :
  (∀ st, P st → verifiable service id account_id row account merchant st) → payer_agrees_with account.(ba_tenant_id) account_id row →
  keeps (step_under P) (verify_session uuid4 clock env c checks operation service id account.(ba_tenant_id) account_id
                          account.(ba_merchant_account_id) merchant target).
Proof.
  intros Hknown Hpay. apply session_step; [done..|]. intros st r st' H. run H. reflect_bools.
  match goal with E : owned _ _ _ = Some _ |- _ => apply owned_Some in E as [Hl Ht] end.
  match goal with E : set_subscription_status _ _ = Ok ?c |- _ => destruct c as [s' changed]; apply set_subscription_status_Ok in E as [Hal ->] end.
  advance. advance. advance. etrans; [|eapply keeps_eq; [exact H|bill]].
  etrans; [eapply save_changed_step; [exact Hl| | |eassumption]; [eapply verified_row_change|intros _; eapply verified_row_reference]; eauto|].
  advance. by reflexivity.
Qed.
End Verify.

Lemma resolve_legacy_step (P : billing_store → Prop) `{!stable P} payer account_id provider :
  keeps (step_under P) (resolve_legacy_merchant_context env default_provider platform_tenant_id payer account_id provider).
Proof.
  unfold resolve_legacy_merchant_context, require_active_billing_account, require_active_merchant_account, get_platform_tenant_id. bill.
Qed.
Lemma resolve_legacy_known payer account_id provider st r st' :
  billing_ok st → resolve_legacy_merchant_context env default_provider platform_tenant_id payer account_id provider st = (Ok r, st') →
  account_known account_id r.1.1 st' ∧ merchant_known r.1.1.(ba_merchant_account_id) r.1.2 st' ∧ r.1.1.(ba_tenant_id) = payer.
Proof.
  intros Hok H. unfold resolve_legacy_merchant_context, require_active_billing_account, require_active_merchant_account, get_platform_tenant_id in H.
  run H. match goal with E : get_billing_account _ _ _ _ = (_, ?s1), E' : get_merchant_account _ _ _ ?s1 = (_, ?s2), E'' : adapter_for _ _ _ ?s2 = _ |- _ =>
    destruct (keeps_eq _ _ _ _ _ E (get_billing_account_step env env_step (λ _, True) payer account_id) Hok I) as [Hok1 _];
    destruct (keeps_eq _ _ _ _ _ E' (get_merchant_account_step env env_step (λ _, True) _ _) Hok1 I) as [Hok2 He2];
    destruct (keeps_eq _ _ _ _ _ E'' (keeps_same_tables (λ _, True) _ (adapter_for_tables _ _)) Hok2 I) as [_ He3];
    apply get_billing_account_known in E as [Ha Ht]; apply get_merchant_account_known in E' as [Hm _] end.
  simpl. split_and!; [|by eapply merchant_known_stable; [done|]; eexists|done].
  eapply account_known_stable; [done|]. eapply account_known_stable; [done|]. by eexists.
Qed.

Section Reconcile.
Context (P : billing_store → Prop) `{HP : !stable P}.
Lemma reconcile_legacy_subscription_step c service id payer account_id provider :
  keeps (step_under P) (reconcile_legacy_subscription uuid4 clock env default_provider platform_tenant_id c service id payer account_id provider).
Proof.
  unfold reconcile_legacy_subscription. cbv zeta.
  do 4 (apply keeps_bind; [apply _|unfold authorize_initially; bill; try (apply session_keeps; [done..|bill])|intros ?]).
  eapply (keeps_establish P (λ row st, row_known id row st ∧ row.(sb_tenant_id) = service)); [done|bill| |intros row].
  { intros st row st' _ _ [Hs Ht]%get_subscription_known. split; [by eexists|done]. }
  apply keeps_bind; [apply _|bill|intros _].
  eapply (keeps_establish _ (λ _ _, payer_agrees_with payer account_id row)); [apply _|bill| |intros _].
  { intros st u st' _ _ H. run H. unfold payer_agrees_with. destruct (sb_billing_account_id row); [|done]. by reflect_bools. }
  eapply (keeps_establish _ (λ r st, account_known account_id r.1.1 st ∧ merchant_known r.1.1.(ba_merchant_account_id) r.1.2 st ∧ r.1.1.(ba_tenant_id) = payer));
    [apply _|by apply resolve_legacy_step; apply _| |intros [[account merchant] ad]; simpl].
  { intros st r st' Hok _ H. by eapply resolve_legacy_known. }
  match goal with |- keeps (step_under ?Q) _ => assert (stable Q) by apply _ end.
  do 4 (apply keeps_bind; [apply _|bill|intros ?]).
  eapply (keeps_establish _ (λ _, ref_known _ _)); [apply _|bill| |intros _].
  { intros st u st' _ _ Hreg. by eapply register_provider_ref_known. }
  match goal with |- keeps (step_under ?Q) _ => assert (stable Q) by apply _ end.
  bill. apply (keeps_pure _ (account.(ba_tenant_id) = payer ∧ payer_agrees_with payer account_id row)); [tauto|]. intros [<- Hpay].
  eapply verify_session_step; [done| |done]. intros st Hst. unfold verifiable. tauto.
Qed.
End Reconcile.
End Steps.

#[export] Hint Resolve adapter_for_tables adapter_for_merchant_tables commercial_context_tables : tables.
#[export] Hint Resolve find_by_id_step verify_provider_reference_step apply_provider_state_step settle_step
  create_commercial_subscription_step opt_out_step reconcile_subscription_status_step get_subscription_by_provider_ref_step
  get_payment_page_step cancel_commercial_subscription_step reconcile_legacy_subscription_step : step.
