(* ===== verification/BillingSafety.v ===== *)
(** * Billing: the theorems over histories of operations

    [billing_op] are the operations that write, [run_op] runs one.  Between their
    transactions the environment acts, by steps of the same kind: by
    [every_operation_steps] the operations themselves are such steps, so the
    theorems hold of any interleaving of them. *)

From S2P Require Import Prelude StoreLogic PyStr TenantLifecycle PlatformAuthority PlatformService TenantHierarchy RbacDecision RbacProofs RbacService Idempotency BillingModel Billing BillingService BillingCommercial BillingEvents BillingProofs BillingSteps.
#[local] Open Scope Z_scope.

Inductive billing_op : Type :=
| OpCreateMerchant (c : billing_caller) (owner : uuid) (provider ref : pystr) (status : MerchantAccountStatus)
| OpSetMerchantStatus (c : billing_caller) (owner id : uuid) (status : MerchantAccountStatus)
| OpBillingAccount (c : billing_caller) (payer merchant_tenant merchant : uuid)
| OpCreateOwnedPlan (c : billing_caller) (owner merchant : uuid) (key name : pystr) (e : list (pystr * jvalue)) (price : option pystr)
    (v : PlanVisibility)
| OpSetPlanVisibility (c : billing_caller) (owner plan : uuid) (v : PlanVisibility)
| OpWithdrawPlan (c : billing_caller) (owner plan : uuid)
| OpCreateOffer (c : billing_caller) (owner plan service : uuid)
| OpRevokeOffer (c : billing_caller) (owner offer : uuid)
| OpAdoptPlan (c : billing_caller) (plan owner merchant : uuid) (v : PlanVisibility)
| OpCreatePlan (key name : pystr) (e : list (pystr * jvalue)) (price : option pystr)
| OpSubscribe (t : uuid) (key : pystr) (provider : option Adapter) (actor : option uuid)
| OpSubscribeIdempotent (t : uuid) (key idempotency_key : pystr) (provider : option Adapter) (actor : option uuid)
| OpUpgrade (t id : uuid) (key : pystr) (provider : option Adapter) (actor : option uuid)
| OpCancelLegacy (t id : uuid) (provider : option Adapter) (actor : option uuid)
| OpCreate (c : billing_caller) (service payer account plan : uuid) (key : pystr) (provider : option Adapter)
| OpMigrate (c : billing_caller) (service payer account plan : uuid) (key : pystr) (provider : option Adapter)
| OpOptOut (c : billing_caller) (t : uuid)
| OpReconcile (c : billing_caller) (service id : uuid) (provider : option Adapter)
| OpPaymentPage (c : billing_caller) (service id : uuid) (provider : option Adapter)
| OpCancel (c : billing_caller) (service id : uuid) (provider : option Adapter) (capacity : CancellationCapacity)
| OpReconcileLegacy (c : billing_caller) (service id payer account : uuid) (provider : option Adapter)
| OpProject (service : uuid) (event_id id : option uuid) (version : option Z)
| OpProviderEvent (n : ProviderEventNotice) (provider : option Adapter)
| OpPruneEvents (retention : timedelta) (current_time : datetime) (batch_size : nat).

Definition ignore {A : Type} (m : BM A) : BM unit := do* _ := m in ret tt.

Section History.
Context (uuid4 : nat → uuid) (clock : nat → datetime) (env : nat → billing_store → billing_store).
Context (default_provider : option Adapter) (compute_fingerprint : billing_payload → pystr) (cfg : IdempotencyConfig).
Context (uuid5 : uuid → uuid) (uuid_text : uuid → pystr) (platform_tenant_id : option uuid).

Definition run_op (op : billing_op) : BM unit :=
  match op with
  | OpCreateMerchant c owner provider ref status => ignore (create_merchant_account uuid4 clock env c owner provider ref status)
  | OpSetMerchantStatus c owner id status => set_merchant_account_status uuid4 clock env c owner id status
  | OpBillingAccount c payer mt m => ignore (get_or_create_billing_account uuid4 clock env c payer mt m)
  | OpCreateOwnedPlan c owner m key name e price v => ignore (create_owned_plan uuid4 clock env c owner m key name e price v)
  | OpSetPlanVisibility c owner plan v => ignore (set_plan_visibility uuid4 clock env c owner plan v)
  | OpWithdrawPlan c owner plan => ignore (withdraw_plan uuid4 clock env c owner plan)
  | OpCreateOffer c owner plan service => ignore (create_plan_offer uuid4 clock env c owner plan service)
  | OpRevokeOffer c owner offer => revoke_plan_offer uuid4 clock env c owner offer
  | OpAdoptPlan c plan owner m v => ignore (adopt_legacy_plan uuid4 clock env c plan owner m v)
  | OpCreatePlan key name e price => ignore (create_plan uuid4 env key name e price)
  | OpSubscribe t key provider actor => ignore (subscribe uuid4 clock env default_provider t key provider actor)
  | OpSubscribeIdempotent t key ikey provider actor =>
      ignore (subscribe_idempotent uuid4 clock env default_provider compute_fingerprint cfg t key ikey provider actor)
  | OpUpgrade t id key provider actor => upgrade_subscription clock env default_provider t id key provider actor
  | OpCancelLegacy t id provider actor => cancel_subscription clock env default_provider t id provider actor
  | OpCreate c service payer account plan key provider =>
      ignore (create_subscription uuid4 clock env default_provider compute_fingerprint cfg uuid5 uuid_text platform_tenant_id
                c service payer account plan key provider)
  | OpMigrate c service payer account plan key provider =>
      ignore (migrate_inherited_tenant_to_sponsorship uuid4 clock env default_provider compute_fingerprint cfg uuid5 uuid_text
                platform_tenant_id c service payer account plan key provider)
  | OpOptOut c t => opt_out_of_billing_inheritance uuid4 clock env c t
  | OpReconcile c service id provider => ignore (reconcile_subscription_status uuid4 clock env default_provider c service id provider)
  | OpPaymentPage c service id provider =>
      ignore (get_payment_page uuid4 clock env default_provider platform_tenant_id c service id provider)
  | OpCancel c service id provider capacity =>
      ignore (cancel_commercial_subscription uuid4 clock env default_provider c service id provider capacity)
  | OpReconcileLegacy c service id payer account provider =>
      ignore (reconcile_legacy_subscription uuid4 clock env default_provider platform_tenant_id c service id payer account provider)
  | OpProject service event_id id version => project_subscription_job clock env service event_id id version
  | OpProviderEvent n provider => ignore (process_provider_event uuid4 clock env default_provider platform_tenant_id n provider)
  | OpPruneEvents retention current_time batch_size => ignore (prune_provider_events env retention current_time batch_size)
  end.
Definition run_history (ops : list billing_op) (st : billing_store) : billing_store :=
  foldl (λ st op, (run_op op st).2) st ops.

(** ** Provider events *)

Section Events.
Hypothesis env_step : ∀ n st, step st (env n st).

Lemma claim_step n : keeps step (claim clock env n).
Proof.
  unfold claim. bill; apply session_step; try done; apply keeps_commits; intros st; repeat case_match; try (by reflexivity); by apply same_tables_step.
Qed.
Lemma update_event_step n f : keeps step (update_event env n f).
Proof. unfold update_event. apply session_keeps; [done..|]. intros st. unfold modify. simpl. repeat case_match; try (by reflexivity); by apply same_tables_step. Qed.
Lemma first_known_step n reference accounts : keeps step (first_known env n reference accounts).
Proof.
  induction accounts as [|a accounts IH]; simpl; [bill|]. intros st.
  pose proof (get_subscription_by_provider_ref_step env env_step (λ _, True) n.(nt_provider) a reference st) as Hg.
  destruct (get_subscription_by_provider_ref _ _ _ _ st) as [[s|e] st1]; cbn [fst snd] in *; [done|].
  destruct e; try done; (etrans; [exact Hg|apply IH]).
Qed.
Lemma resolve_step n : keeps step (resolve env platform_tenant_id n).
Proof. unfold resolve, platform_account_refs, get_platform_tenant_id. cbv zeta. bill; apply first_known_step. Qed.
Lemma reconcile_step n provider at_ : keeps step (reconcile uuid4 clock env default_provider platform_tenant_id n provider at_).
Proof.
  unfold reconcile. apply keeps_bind; [apply _|apply resolve_step|intros [[id s]|o]]; [|bill]. intros st.
  pose proof (reconcile_subscription_status_step uuid4 clock env env_step default_provider (λ _, True)
    (CoreCaller (SystemCaller BILLING_OPERATIONS)) s.(sb_tenant_id) id provider st) as Hg.
  destruct (reconcile_subscription_status _ _ _ _ _ _ _ _ st) as [[r|e] st1]; cbn [fst snd] in *; [done|]. by destruct e.
Qed.
Lemma process_provider_event_step n provider :
  keeps step (process_provider_event uuid4 clock env default_provider platform_tenant_id n provider).
Proof.
  unfold process_provider_event. apply keeps_bind; [apply _|bill|intros notice].
  apply keeps_bind; [apply _|apply replace_error_step, claim_step|intros claimed]. destruct (cl_done claimed); [bill|]. intros st.
  match goal with |- step st (match ?m st with _ => _ end).2 =>
    assert (keeps step m) as Hm by (bill; [apply reconcile_step|apply update_event_step]); specialize (Hm st); destruct (m st) as [[r|e] st1] end;
    cbn [fst snd] in *; [done|]. etrans; [exact Hm|apply update_event_step].
Qed.
Lemma prune_provider_events_step retention at_ batch : keeps step (prune_provider_events env retention at_ batch).
Proof.
  unfold prune_provider_events. bill. generalize 0%nat as deleted. induction MAX_PRUNE_BATCHES as [|k IH]; intros deleted; simpl; bill.
  apply session_keeps; [done..|]. intros st. by apply same_tables_step.
Qed.

Lemma every_operation_steps op : keeps step (run_op op).
Proof.
  destruct op; unfold run_op, ignore, create_subscription, migrate_inherited_tenant_to_sponsorship; bill;
    first [apply process_provider_event_step|apply prune_provider_events_step].
Qed.
Lemma history_steps ops st : billing_ok st → billing_ok (run_history ops st) ∧ evolves st (run_history ops st).
Proof.
  revert st. induction ops as [|op ops IH]; intros st Hok; simpl; [done|].
  destruct (every_operation_steps op st Hok I) as [Hok1 He1]. destruct (IH _ Hok1) as [Hok2 He2]. split; [done|]. by etrans.
Qed.
End Events.
End History.

(** ** Histories *)

Section Theorems.
Context (uuid4 : nat → uuid) (clock : nat → datetime) (env : nat → billing_store → billing_store).
Context (default_provider : option Adapter) (compute_fingerprint : billing_payload → pystr) (cfg : IdempotencyConfig).
Context (uuid5 : uuid → uuid) (uuid_text : uuid → pystr) (platform_tenant_id : option uuid).
Abbreviation history := (run_history uuid4 clock env default_provider compute_fingerprint cfg uuid5 uuid_text platform_tenant_id).

Lemma canceled_is_final s : status_follows SUB_CANCELED s → s = SUB_CANCELED.
Proof. intros H. remember SUB_CANCELED as c eqn:E. induction H as [|a b c' Hab]; [done|]. subst. by apply elem_of_nil in Hab. Qed.

(** C6: Billing tables stay consistent.  Whatever operations of billing run, in any
    order and interleaved between their transactions with actions that are steps
    themselves (as by [every_operation_steps] all of them are), the tables keep their
    invariant: the parties of a subscription are one payer's account and that
    account's merchant, a verified subscription is registered at its provider under
    its own reference, a tenant has at most one live subscription at a merchant,
    every version of a commercial subscription that is current was announced, and
    the projections of seller and payer are never ahead of their source and equal it
    at the same version. *)
Theorem billing_integrity (env_step : ∀ n st, step st (env n st)) ops st :
  billing_ok st → billing_ok (history ops st).
Proof. intros Hok. by apply history_steps. Qed.

(** C7: A subscription follows its lifecycle.  Over any history a subscription is
    never lost and keeps its tenant and its provider reference; its status only moves
    along the status graph, so that a canceled one stays canceled; its version never
    falls and a row of the same version is the same row; once verified it stays so,
    with the same payer, account, merchant, provider and plan; and while it has a
    billing account its current version has been announced. *)
Theorem subscription_lifecycle (env_step : ∀ n st, step st (env n st)) ops st id s :
  billing_ok st → st.(bl_subscriptions) !! id = Some s →
  ∃ s', (history ops st).(bl_subscriptions) !! id = Some s' ∧
    s'.(sb_tenant_id) = s.(sb_tenant_id) ∧ s'.(sb_provider_subscription_id) = s.(sb_provider_subscription_id) ∧
    status_follows s.(sb_status) s'.(sb_status) ∧ (s.(sb_status) = SUB_CANCELED → s'.(sb_status) = SUB_CANCELED) ∧
    s.(sb_version) ≤ s'.(sb_version) ∧ (s'.(sb_version) = s.(sb_version) → s' = s) ∧
    (s.(sb_verification) = VERIFIED → s'.(sb_verification) = VERIFIED ∧ parties s' = parties s ∧
       s'.(sb_provider) = s.(sb_provider) ∧ s'.(sb_plan_id) = s.(sb_plan_id)) ∧
    (is_Some s'.(sb_billing_account_id) → (s'.(sb_tenant_id), id, s'.(sb_version)) ∈ (history ops st).(bl_announced)).
Proof.
  intros Hok Hs. destruct (history_steps uuid4 clock env default_provider compute_fingerprint cfg uuid5 uuid_text platform_tenant_id env_step ops st Hok) as [Hok' He].
  destruct (ev_subscriptions _ _ He _ _ Hs) as (s' & Hs' & Hev). exists s'. split; [done|]. destruct Hev.
  split_and!; try done.
  - intros E. rewrite E in se_status. by apply canceled_is_final.
  - intros Hv. destruct (se_verified Hv) as (?&?&?). split_and!; try done. apply se_parties.
    destruct (ok_reference _ Hok _ _ Hs Hv) as (?&?&?&?&?&Hp&_). injection Hp as _ E2 _. by rewrite E2.
  - by apply (ok_announced _ Hok').
Qed.

(** C8: No double billing.  Over any history two verified subscriptions at one
    merchant never share the provider's subscription, and a tenant never has two live
    subscriptions at one merchant. *)
Theorem no_double_billing (env_step : ∀ n st, step st (env n st)) ops st id id' s s' m :
  billing_ok st → let st' := history ops st in
  st'.(bl_subscriptions) !! id = Some s → st'.(bl_subscriptions) !! id' = Some s' →
  s.(sb_merchant_account_id) = Some m → s'.(sb_merchant_account_id) = Some m →
  s.(sb_verification) = VERIFIED ∧ s'.(sb_verification) = VERIFIED ∧
    s.(sb_provider_subscription_id) = s'.(sb_provider_subscription_id) ∨
  s.(sb_tenant_id) = s'.(sb_tenant_id) ∧ is_live s.(sb_status) = true ∧ is_live s'.(sb_status) = true →
  id = id'.
Proof.
  intros Hok st' Hs Hs' Hm Hm'.
  destruct (history_steps uuid4 clock env default_provider compute_fingerprint cfg uuid5 uuid_text platform_tenant_id env_step ops st Hok) as [Hok' _].
  intros [(Hv & Hv' & Href)|(Ht & Hl & Hl')].
  - destruct (ok_reference _ Hok' _ _ Hs Hv) as (p1&a1&m1&x1&y1&Hp1&_&_&Hy1&_&Hr1).
    destruct (ok_reference _ Hok' _ _ Hs' Hv') as (p2&a2&m2&x2&y2&Hp2&_&_&Hy2&_&Hr2).
    injection Hp1 as _ _ E1. injection Hp2 as _ _ E2. rewrite Hm in E1. rewrite Hm' in E2. simplify_eq.
    apply owned_Some in Hy1 as [Hy1 _]. apply owned_Some in Hy2 as [Hy2 _]. fold st' in Hy1, Hy2. rewrite Hy1 in Hy2. injection Hy2 as ->.
    rewrite Href in Hr1. fold st' in Hr1, Hr2. rewrite Hr1 in Hr2. congruence.
  - apply (ok_one_live _ Hok' id id' s s' Hs Hs'). unfold same_live. rewrite Hm, Hm'. simpl.
    rewrite !bool_decide_true by done. by rewrite Hl, Hl'.
Qed.
End Theorems.

(** * Billing: references and projections lead back to their subscription

    A verified subscription is found by its provider reference, and passes the
    check made before every call to its provider; once changes stop, one delivery
    of the change event brings both projections up to date. *)

#[local] Open Scope Z_scope.

Section Reads.
Context (env : nat → billing_store → billing_store).
Hypothesis env_step : ∀ n st, step st (env n st).

Definition after_gap (st : billing_store) : billing_store := env st.(bl_tick) (set_tick (S st.(bl_tick)) st).
Lemma after_gap_step st : billing_ok st → billing_ok (after_gap st) ∧ evolves st (after_gap st).
Proof. intros Hok. apply (gap_step env env_step (λ _, True) st Hok I). Qed.
Lemma session_look {A} (f : billing_store → A) st : session env (look f) st = (Ok (f (after_gap st)), after_gap st).
Proof. done. Qed.
Lemma session_read {A} (m : BM A) st a : m (after_gap st) = (Ok a, after_gap st) → session env m st = (Ok a, after_gap st).
Proof. intros H. unfold session, gap, modify, transaction, bind. simpl. fold (after_gap st). by rewrite H. Qed.

Lemma get_billing_account_reads st payer id a :
  owned ba_tenant_id payer ((after_gap st).(bl_accounts) !! id) = Some a → get_billing_account env payer id st = (Ok a, after_gap st).
Proof. intros H. apply session_read. unfold account_row, bind, look. by rewrite H. Qed.
Lemma get_merchant_account_reads st t id m :
  owned ma_tenant_id t ((after_gap st).(bl_merchants) !! id) = Some m → get_merchant_account env t id st = (Ok m, after_gap st).
Proof. intros H. apply session_read. unfold merchant_row, bind, look. by rewrite H. Qed.
Lemma resolve_provider_ref_reads st provider account ty ref r :
  (after_gap st).(bl_refs) !! ref_key provider account ty ref = Some r →
  resolve_provider_ref env provider account ty ref st = (Ok r, after_gap st).
Proof. intros H. unfold resolve_provider_ref, bind. rewrite session_look, H. done. Qed.

Lemma verify_provider_reference_passes st id s :
  billing_ok st → reference_ok st id s → (verify_provider_reference env id s st).1 = Ok tt.
Proof.
  intros Hok (payer&aid&mid&a&m&Hp&Ha&Hma&Hm&Hprov&Href). injection Hp as E1 E2 E3.
  destruct (after_gap_step st Hok) as [Hok1 He1]. destruct (after_gap_step _ Hok1) as [Hok2 He2]. destruct (after_gap_step _ Hok2) as [_ He3].
  destruct (account_row_evolves _ _ _ _ _ (ev_accounts _ _ He1) Ha) as (a1&Ha1&_&Hmt&Hmi&_).
  assert (evolves st (after_gap (after_gap st))) as He12 by (by etrans).
  destruct (merchant_row_evolves _ _ _ _ _ (ev_merchants _ _ He12) Hm) as (m2&Hm2&_&_&Hmr).
  assert (evolves st (after_gap (after_gap (after_gap st)))) as He13 by (by etrans).
  destruct (ev_refs _ _ He13 _ _ Href) as (r&Hr&<-).
  unfold verify_provider_reference. rewrite Hprov, E1, E2, E3. unfold bind at 1, replace_error, bind at 1.
  rewrite (get_billing_account_reads _ _ _ _ Ha1). unfold bind at 1. rewrite Hmt, Hmi, Hma, (get_merchant_account_reads _ _ _ _ Hm2).
  unfold bind at 1. rewrite Hmr, (resolve_provider_ref_reads _ _ _ _ _ _ Hr). simpl. by rewrite !bool_decide_true by done.
Qed.
Lemma lookup_by_reference st id s m :
  billing_ok st → st.(bl_subscriptions) !! id = Some s → s.(sb_provider) = Some m.(ma_provider) →
  st.(bl_refs) !! ref_key m.(ma_provider) m.(ma_provider_account_ref) OBJ_SUBSCRIPTION s.(sb_provider_subscription_id) =
    Some (mkResolution s.(sb_tenant_id) LOCAL_SUBSCRIPTION id) → s.(sb_verification) = VERIFIED →
  ∃ s' st', get_subscription_by_provider_ref env m.(ma_provider) m.(ma_provider_account_ref) s.(sb_provider_subscription_id) st =
              (Ok (id, s'), st') ∧ st'.(bl_subscriptions) !! id = Some s' ∧ subscription_evolves s s'.
Proof.
  intros Hok Hs Hprov Href Hv. destruct (after_gap_step st Hok) as [Hok1 He1]. destruct (after_gap_step _ Hok1) as [Hok2 He2].
  assert (evolves st (after_gap (after_gap st))) as He12 by (by etrans).
  destruct (ev_refs _ _ He1 _ _ Href) as (r&Hr&<-). destruct (ev_subscriptions _ _ He12 _ _ Hs) as (s'&Hs'&Hev).
  exists s', (after_gap (after_gap st)). split; [|done]. unfold get_subscription_by_provider_ref, bind at 1.
  rewrite (resolve_provider_ref_reads _ _ _ _ _ _ Hr). simpl. unfold bind at 1. simpl. apply session_read.
  unfold bind, look, owned. rewrite Hs'. destruct Hev. destruct (se_verified Hv) as (_&Ep&_).
  rewrite bool_decide_true by done. simpl. rewrite !bool_decide_true by congruence. done.
Qed.
End Reads.

(** References lead back.  Between any actions of the rest of the system, a
    verified subscription is found by the provider's reference under its merchant's
    account, as the row it has become; and the check that its reference is its own,
    made before its provider is asked or told anything, passes. *)
Theorem verified_found_by_reference env (env_step : ∀ n st, step st (env n st)) st id s :
  billing_ok st → st.(bl_subscriptions) !! id = Some s → s.(sb_verification) = VERIFIED →
  (verify_provider_reference env id s st).1 = Ok tt ∧
  ∃ mid m, s.(sb_merchant_account_id) = Some mid ∧ st.(bl_merchants) !! mid = Some m ∧
    ∃ s' st', get_subscription_by_provider_ref env m.(ma_provider) m.(ma_provider_account_ref) s.(sb_provider_subscription_id) st =
                (Ok (id, s'), st') ∧ st'.(bl_subscriptions) !! id = Some s' ∧ subscription_evolves s s'.
Proof.
  intros Hok Hs Hv. pose proof (ok_reference _ Hok _ _ Hs Hv) as Hr. split; [by apply verify_provider_reference_passes|].
  destruct Hr as (payer&aid&mid&a&m&Hp&_&_&Hm&Hprov&Href). injection Hp as _ _ E3. apply owned_Some in Hm as [Hm _].
  exists mid, m. split_and!; [done..|]. by apply lookup_by_reference.
Qed.

(** ** Projections *)

Definition quiet (n : nat) (st : billing_store) : billing_store := st.
Lemma quiet_step n st : step st (quiet n st).
Proof. by intros Hok _. Qed.

(** The projection of a read model shows the snapshot. *)
Definition shows {A : Type} (rows : gmap (uuid * uuid) (Projection A)) (owner id : uuid) (values : A) (sn : CanonicalSnapshot) : Prop :=
  ∃ at_, rows !! (owner, id) = Some (project values sn at_).

Lemma apply_once_shows {A} clock (model : read_model A) owner id sn (values : A) st t :
  (∀ st, st = model.(rm_set) (model.(rm_rows) st) st) →
  lock_open_tenant st.(bl_tenancy) owner = Ok t → 1 ≤ sn.(sn_row).(sb_version) →
  (∀ at_, model.(rm_keys) (set_tick (S st.(bl_tick)) st) owner (project values sn at_) = true) →
  (∀ p, model.(rm_rows) (set_tick (S st.(bl_tick)) st) !! (owner, id) = Some p →
     p.(pj_version) ≤ sn.(sn_row).(sb_version) ∧ (p.(pj_version) = sn.(sn_row).(sb_version) → p = project values sn p.(pj_projected_at))) →
  ∃ o m, apply_once clock quiet model owner id sn values st = (Ok o, model.(rm_set) m (set_tick (S st.(bl_tick)) st)) ∧ shows m owner id values sn.
Proof.
  intros Heta Ht Hv Hkeys Hold. set (st1 := set_tick (S st.(bl_tick)) st) in *.
  assert (∀ o : projection_outcome, (do* _ := write_projection model owner id (project values sn (now clock st1)) in ret o) st1 =
    (Ok o, model.(rm_set) (<[(owner, id) := project values sn (now clock st1)]> (model.(rm_rows) st1)) st1)) as Hw.
  { intros o. unfold bind, write_projection. rewrite Hkeys, bool_decide_true by done. done. }
  assert (shows (<[(owner, id) := project values sn (now clock st1)]> (model.(rm_rows) st1)) owner id values sn) as Hsh
    by (eexists; by rewrite lookup_insert_eq).
  unfold apply_once, session, gap, modify, bind at 1, quiet, transaction. fold st1. cbn [bl_tenancy set_tick st1]. rewrite Ht. fold st1.
  destruct (model.(rm_rows) st1 !! (owner, id)) as [p|] eqn:Ep.
  - destruct (Hold p eq_refl) as [Hle Heq]. destruct (_ <=? _) eqn:El.
    + exists STALE, (model.(rm_rows) st1). split; [by rewrite <-Heta|]. reflect_bools. exists p.(pj_projected_at). rewrite Ep. f_equal. apply Heq. lia.
    + rewrite Hw. eauto.
  - rewrite Hw. eauto.
Qed.

Lemma canonical_snapshot_reads st id s sn :
  st.(bl_subscriptions) !! id = Some s → snapshot_of st.(bl_accounts) s = Some sn →
  canonical_snapshot quiet s.(sb_tenant_id) id st = (Ok (Some sn), set_tick (S st.(bl_tick)) st).
Proof.
  intros Hs Hsn. apply (session_read quiet). unfold after_gap, quiet, bind, look. cbn [bl_subscriptions set_tick].
  unfold owned at 1. rewrite Hs, bool_decide_true by done. simpl. unfold snapshot_of in Hsn.
  destruct (sb_payer_tenant_id s), (sb_billing_account_id s), (sb_merchant_account_id s); try done.
  destruct (owned _ _ _); [|done]. by destruct (bool_decide _); simplify_eq.
Qed.
Lemma snapshot_row M s sn : snapshot_of M s = Some sn →
  sn.(sn_row) = s ∧ ∃ a, owned ba_tenant_id sn.(sn_payer_tenant_id) (M !! sn.(sn_billing_account_id)) = Some a ∧
    a.(ba_merchant_tenant_id) = sn.(sn_merchant_tenant_id) ∧ a.(ba_merchant_account_id) = sn.(sn_merchant_account_id).
Proof.
  unfold snapshot_of. destruct (sb_payer_tenant_id s), (sb_billing_account_id s), (sb_merchant_account_id s); try done.
  destruct (owned _ _ _) as [a|] eqn:E; [|done]. case_bool_decide; [|done]. intros [= <-]. simpl. split; [done|]. by exists a.
Qed.
Lemma agrees_current {A} st owner (values : CanonicalSnapshot → A) t id p s sn :
  agrees st owner values t id p → st.(bl_subscriptions) !! id = Some s → snapshot_of st.(bl_accounts) s = Some sn →
  p.(pj_version) ≤ s.(sb_version) ∧ (p.(pj_version) = s.(sb_version) → p = project (values sn) sn p.(pj_projected_at)).
Proof.
  intros (s'&Hs'&Hle&Heq) Hs Hsn. rewrite Hs in Hs'. injection Hs' as <-. split; [done|]. intros E.
  destruct (Heq E) as (sn'&Hsn'&_&->). by simplify_eq.
Qed.

(** C31: Projections converge.  Once the rows are quiet, projecting a commercial
    subscription whose seller and payer are open leaves the seller's and the payer's
    row equal to it, whatever versions were projected before and in whatever order. *)
Theorem projection_converges clock st service id s sn t1 t2 :
  billing_ok st → st.(bl_subscriptions) !! id = Some s → s.(sb_tenant_id) = service → snapshot_of st.(bl_accounts) s = Some sn →
  lock_open_tenant st.(bl_tenancy) sn.(sn_merchant_tenant_id) = Ok t1 → lock_open_tenant st.(bl_tenancy) sn.(sn_payer_tenant_id) = Ok t2 →
  ∃ st', project_subscription clock quiet service id st = (Ok true, st') ∧
    shows st'.(bl_seller) sn.(sn_merchant_tenant_id) id sn.(sn_payer_tenant_id) sn ∧
    shows st'.(bl_payer) sn.(sn_payer_tenant_id) id (sn.(sn_billing_account_id), sn.(sn_merchant_tenant_id)) sn.
Proof.
  intros Hok Hs <- Hsn Ho1 Ho2. destruct (snapshot_row _ _ _ Hsn) as (Hrow & a & Ha & Hmt & Hma). pose proof (proj1 (owned_Some _ _ _ _) Ha) as [Ha' _].
  pose proof (ok_version _ Hok _ _ Hs) as Hv. pose proof (ok_accounts _ Hok _ _ Ha') as [m Hm]. rewrite Hmt, Hma in Hm.
  set (st1 := set_tick (S st.(bl_tick)) st).
  destruct (apply_once_shows clock SellerSubscription sn.(sn_merchant_tenant_id) id sn sn.(sn_payer_tenant_id) st1 t1) as (o1 & rows1 & E1 & S1);
    [by intros []|done|by rewrite Hrow| | |].
  { intros at_. apply bool_decide_eq_true. exists m. exact Hm. }
  { intros p Hp. rewrite Hrow. eapply agrees_current; [by apply (ok_seller _ Hok)|done..]. }
  set (st2 := SellerSubscription.(rm_set) rows1 (set_tick (S st1.(bl_tick)) st1)) in *.
  destruct (apply_once_shows clock PayerSubscription sn.(sn_payer_tenant_id) id sn (sn.(sn_billing_account_id), sn.(sn_merchant_tenant_id)) st2 t2)
    as (o2 & rows2 & E2 & S2); [by intros []|done|by rewrite Hrow| | |].
  { intros at_. apply andb_true_iff. split; apply bool_decide_eq_true; [exists a; exact Ha|exists m; exact Hm]. }
  { intros p Hp. rewrite Hrow. eapply (agrees_current st _ (λ sn, (sn_billing_account_id sn, sn_merchant_tenant_id sn))); [by apply (ok_payer _ Hok)|done..]. }
  exists (PayerSubscription.(rm_set) rows2 (set_tick (S st2.(bl_tick)) st2)). split; [|done].
  unfold project_subscription, bind at 1. rewrite (canonical_snapshot_reads _ _ _ _ Hs Hsn). fold st1.
  unfold bind at 1, apply_projection, on_conflict. rewrite E1. unfold bind at 1. rewrite E2. done.
Qed.

(** * Billing: the provider's events are settled once

    [ledger_le horizon] is what may happen to the event ledger: a row created at
    the horizon or later stays, its attempts grow, and when it is done it never
    changes; an older row may be deleted, by [prune_provider_events] with a cutoff
    not after the horizon ([prune_ledger]); a new row is created at the horizon or
    later.  Every path of [process_provider_event] is such a change; an event that
    is done is answered without touching anything, and an event that was answered is
    done. *)

#[local] Open Scope Z_scope.

Definition event_evolves : relation ProviderEvent :=
  λ r r', r'.(pe_created_at) = r.(pe_created_at) ∧ r.(pe_attempts) ≤ r'.(pe_attempts) ∧ (event_done r.(pe_status) = true → r' = r).
#[export] Instance event_evolves_preorder : PreOrder event_evolves.
Proof.
  split; unfold event_evolves; [by intros r|]. intros r1 r2 r3 (?&?&H12) (?&?&H23). split_and!; [congruence|lia|].
  intros Hd. pose proof (H12 Hd) as ->. by apply H23.
Qed.
Record ledger_le (horizon : datetime) (st st' : billing_store) : Prop := {
  ll_kept k row : st.(bl_events) !! k = Some row → horizon ≤ row.(pe_created_at) → ∃ row', st'.(bl_events) !! k = Some row' ∧ event_evolves row row';
  ll_new k row' : st'.(bl_events) !! k = Some row' → horizon ≤ row'.(pe_created_at) ∨ ∃ row, st.(bl_events) !! k = Some row ∧ event_evolves row row';
}.
#[export] Instance ledger_le_preorder horizon : PreOrder (ledger_le horizon).
Proof.
  split; [intros st; split; intros k row H; [intros _|right]; by exists row|]. intros s1 s2 s3 [K1 N1] [K2 N2]. split.
  - intros k row H Hh. destruct (K1 _ _ H Hh) as (row2 & H2 & E2). destruct (K2 _ _ H2) as (row3 & H3 & E3); [destruct E2 as [-> _]; done|].
    exists row3. split; [done|by etrans].
  - intros k row3 H3. destruct (N2 _ _ H3) as [|(row2 & H2 & E2)]; [by left|]. destruct (N1 _ _ H2) as [Hh|(row & H & E)].
    + left. destruct E2 as [-> _]. done.
    + right. exists row. split; [done|by etrans].
Qed.

Lemma same_ledger horizon st st' : st'.(bl_events) = st.(bl_events) → ledger_le horizon st st'.
Proof. intros E. split; rewrite E; intros k row H; [intros _|right]; by exists row. Qed.
Lemma keeps_same_ledger {A} horizon (m : BM A) : (∀ st, (m st).2.(bl_events) = st.(bl_events)) → keeps (ledger_le horizon) m.
Proof. intros H st. by apply same_ledger. Qed.
(** A row that is there evolves, or one is added. *)
Lemma ledger_insert horizon st k x : (∀ y, st.(bl_events) !! k = Some y → event_evolves y x) →
  horizon ≤ x.(pe_created_at) ∨ is_Some (st.(bl_events) !! k) → ledger_le horizon st (set_events (<[k := x]> st.(bl_events)) st).
Proof.
  intros He Hx. split; simpl.
  - intros j row Hj _. destruct (decide (k = j)) as [->|]; [|rewrite lookup_insert_ne by done; by exists row]. rewrite lookup_insert_eq. eauto.
  - intros j row [[<- <-]|[_ Hj]]%lookup_insert_Some; [|right; by exists row]. destruct Hx as [Hx|[y Hy]]; [by left|right]. eauto.
Qed.
(** The row of an event, if there is one, is within the horizon. *)
Definition recent (horizon : datetime) (k : pystr * pystr) (st : billing_store) : Prop :=
  ∀ row, st.(bl_events) !! k = Some row → horizon ≤ row.(pe_created_at).
Lemma recent_later horizon k st st' : recent horizon k st → ledger_le horizon st st' → recent horizon k st'.
Proof. intros Hr [_ Hn] row' H. destruct (Hn _ _ H) as [|(row & Hrow & -> & _)]; [done|]. by apply Hr. Qed.

Section Inbox.
Context (uuid4 : nat → uuid) (clock : nat → datetime) (env : nat → billing_store → billing_store).
Context (default_provider : option Adapter) (platform_tenant_id : option uuid).
Context (horizon : datetime).
Hypothesis clock_horizon : ∀ n, horizon ≤ clock n.
Hypothesis env_ledger : ∀ n st, ledger_le horizon st (env n st).
Abbreviation hledger := (ledger_le horizon).

(** ** What leaves the ledger as it is *)

Lemma gap_ledger : keeps hledger (gap env).
Proof. intros st. etrans; [|exact (env_ledger _ (set_tick _ st))]. by apply same_ledger. Qed.
Lemma session_ledger {A} (m : BM A) : keeps hledger m → keeps hledger (session env m).
Proof. intros H. unfold session. apply keeps_bind; [apply _|apply gap_ledger|intros _]. by apply keeps_transaction; [apply _|apply keeps_commits]. Qed.
Lemma authorize_ledger c checks operation : keeps hledger (authorize_billing uuid4 clock c checks operation).
Proof.
  unfold authorize_billing. bill_steps. induction checks as [|[[t resource] action] checks IH]; simpl; bill_steps; [|done].
  apply keeps_same_ledger. intros st. unfold register_billing_permission. by repeat case_match.
Qed.
Lemma save_changed_ledger id s : keeps hledger (save_changed clock id s).
Proof.
  unfold save_changed. bill_steps; apply keeps_same_ledger; intros st.
  - unfold write_subscription. by repeat case_match.
  - unfold announce_subscription_change. cbv zeta. by repeat case_match.
Qed.
Ltac ledger :=
  bill_steps; repeat first
    [ apply gap_ledger | apply authorize_ledger | apply save_changed_ledger | apply session_ledger; bill_steps
    | apply keeps_same_ledger; by intros st ].

Lemma get_subscription_by_provider_ref_ledger provider account ref :
  keeps hledger (get_subscription_by_provider_ref env provider account ref).
Proof. unfold get_subscription_by_provider_ref, resolve_provider_ref. cbv zeta. ledger. Qed.
Lemma verify_provider_reference_ledger id s : keeps hledger (verify_provider_reference env id s).
Proof.
  unfold verify_provider_reference, replace_error. cbv zeta. bill_steps. intros st.
  match goal with |- ledger_le _ st (match ?m st with _ => _ end).2 => assert (keeps hledger m) as Hm end.
  { unfold get_billing_account, account_row, get_merchant_account, merchant_row, resolve_provider_ref. ledger. }
  specialize (Hm st). by destruct (bind _ _ st) as [[]].
Qed.
Lemma reconcile_subscription_status_ledger c service id provider :
  keeps hledger (reconcile_subscription_status uuid4 clock env default_provider c service id provider).
Proof.
  unfold reconcile_subscription_status, authorize_initially, adapter_for, get_subscription_status, apply_provider_state, get_subscription, subscription_row.
  cbv zeta. ledger; try apply verify_provider_reference_ledger.
Qed.
Lemma first_known_ledger n reference accounts : keeps hledger (first_known env n reference accounts).
Proof.
  induction accounts as [|a accounts IH]; simpl; [bill_steps|]. intros st.
  pose proof (get_subscription_by_provider_ref_ledger n.(nt_provider) a reference st) as Hg.
  destruct (get_subscription_by_provider_ref _ _ _ _ st) as [[s|e] st1]; cbn [fst snd] in *; [done|].
  destruct e; try done; (etrans; [exact Hg|apply IH]).
Qed.
Lemma reconcile_ledger n provider at_ : keeps hledger (reconcile uuid4 clock env default_provider platform_tenant_id n provider at_).
Proof.
  unfold reconcile, resolve, platform_account_refs, get_platform_tenant_id, list_merchant_accounts. cbv zeta.
  apply keeps_bind; [apply _|ledger; apply first_known_ledger|intros [[id s]|o]]; [|ledger]. intros st.
  pose proof (reconcile_subscription_status_ledger (CoreCaller (SystemCaller BILLING_OPERATIONS)) s.(sb_tenant_id) id provider st) as Hg.
  destruct (reconcile_subscription_status _ _ _ _ _ _ _ _ st) as [[r|e] st1]; cbn [fst snd] in *; [done|]. by destruct e.
Qed.

(** ** Claiming and marking *)

Abbreviation after_gap := (after_gap env).
Lemma after_gap_ledger st : hledger st (after_gap st).
Proof. apply gap_ledger. Qed.

(** What [_claim] finds; it fails when the row went away between the conflict and
    the read. *)
Lemma claim_spec n st : ∃ r st', claim clock env n st = (r, st') ∧ hledger st st' ∧
  match r with
  | Ok c => ∃ row, st'.(bl_events) !! event_key n = Some row ∧
      match c.(cl_done) with Some s => row.(pe_status) = s ∧ event_done s = true | None => event_done row.(pe_status) = false end
  | Raise _ => ¬ recent horizon (event_key n) st
  end.
Proof.
  unfold claim, bind at 1, look, on_conflict, session, bind at 1, gap, modify, transaction. simpl. fold (after_gap st).
  pose proof (after_gap_ledger st) as H1. destruct ((after_gap st).(bl_events) !! event_key n) as [row|] eqn:E; simpl.
  - unfold bind. simpl. fold (after_gap (after_gap st)). pose proof (after_gap_ledger (after_gap st)) as H2.
    destruct ((after_gap (after_gap st)).(bl_events) !! event_key n) as [row2|] eqn:E2.
    + destruct (event_done (pe_status row2)) eqn:Ed.
      * eexists _, _. split; [done|]. simpl. split; [by etrans|]. exists row2. by split.
      * eexists _, _. split; [done|]. simpl. split; [|eexists; rewrite lookup_insert_eq; by split]. etrans; [exact H1|]. etrans; [exact H2|].
        apply ledger_insert; [|right; by eexists]. intros y Hy. simplify_eq. split_and!; simpl; [done|lia|congruence].
    + eexists _, _. split; [done|]. split; [by etrans|]. intros Hr. pose proof (recent_later _ _ _ _ Hr H1) as Hr1.
      destruct (ll_kept _ _ _ H2 _ _ E (Hr1 _ E)) as (? & E' & _). congruence.
  - eexists _, _. split; [done|]. simpl. split; [|eexists; rewrite lookup_insert_eq; by split]. etrans; [exact H1|].
    apply ledger_insert; [|left; apply clock_horizon]. intros y Hy. simpl in Hy. congruence.
Qed.
Lemma claim_done n st row : st.(bl_events) !! event_key n = Some row → horizon ≤ row.(pe_created_at) → event_done row.(pe_status) = true →
  claim clock env n st = (Ok (mkClaim (Some row.(pe_status)) row.(pe_created_at)), after_gap (after_gap st)).
Proof.
  intros Hrow Hh Hd. unfold claim, bind at 1, look, on_conflict, session, bind at 1, gap, modify, transaction. simpl. fold (after_gap st).
  destruct (ll_kept _ _ _ (after_gap_ledger st) _ _ Hrow Hh) as (r1 & E1 & _ & _ & Hx1). rewrite (Hx1 Hd) in E1. rewrite E1. simpl. unfold bind. simpl. fold (after_gap (after_gap st)).
  destruct (ll_kept _ _ _ (after_gap_ledger (after_gap st)) _ _ E1 Hh) as (r2 & E2 & _ & _ & Hx2). rewrite (Hx2 Hd) in E2. by rewrite E2, Hd.
Qed.
Lemma update_event_spec n f st :
  (∀ r, (f r).(pe_created_at) = r.(pe_created_at) ∧ (f r).(pe_attempts) = r.(pe_attempts)) →
  ∃ st', update_event env n f st = (Ok tt, st') ∧ hledger st st' ∧
    ∀ row, st.(bl_events) !! event_key n = Some row → horizon ≤ row.(pe_created_at) →
    ∃ row1, st'.(bl_events) !! event_key n = Some (if event_done row1.(pe_status) then row1 else f row1).
Proof.
  intros Hf. unfold update_event, session, bind, gap, modify, transaction. fold (after_gap st).
  pose proof (after_gap_ledger st) as H1. destruct ((after_gap st).(bl_events) !! event_key n) as [row1|] eqn:E1.
  - destruct (event_done row1.(pe_status)) eqn:Ed; eexists; (split; [done|]); (split; [|intros _ _ _; exists row1; rewrite Ed]); [done|done| |simpl; by rewrite lookup_insert_eq].
    etrans; [exact H1|]. apply ledger_insert; [|right; by eexists]. intros y Hy. rewrite E1 in Hy. injection Hy as <-.
    destruct (Hf row1) as [Hf1 Hf2]. split_and!; [done|lia|congruence].
  - eexists. split; [done|]. split; [done|]. intros row Hrow Hh. destruct (ll_kept _ _ _ H1 _ _ Hrow Hh) as (? & E & _). congruence.
Qed.

(** ** Retention *)

Lemma foldr_delete_lookup {K A} `{Countable K} (m : gmap K A) l k x : foldr delete m l !! k = Some x ↔ k ∉ l ∧ m !! k = Some x.
Proof.
  clear. induction l as [|j l IH]; simpl; [split; [intros ?; split; [apply not_elem_of_nil|done]|tauto]|].
  rewrite lookup_delete_Some, IH, not_elem_of_cons. naive_solver.
Qed.
Lemma prune_ledger retention current_time batch_size : current_time - retention ≤ horizon →
  keeps hledger (prune_provider_events env retention current_time batch_size).
Proof.
  intros Hc. unfold prune_provider_events. bill_steps. generalize MAX_PRUNE_BATCHES as rounds. generalize 0%nat as deleted.
  intros deleted rounds. revert deleted. induction rounds as [|rounds IH]; intros deleted; simpl; [bill_steps|].
  apply keeps_bind; [apply _| |intros n; destruct (bool_decide _); [apply keeps_ret, _|apply IH]].
  unfold delete_one_batch. apply session_ledger. intros st. split; simpl.
  - intros k row Hk Hh. exists row. split; [|done]. apply foldr_delete_lookup. split; [|done]. intros Hin.
    apply elem_of_take in Hin as (i & Hin & _). apply list_elem_of_lookup_2, list_elem_of_fmap in Hin as ([k' row'] & -> & [Hex Hm%elem_of_map_to_list]%list_elem_of_filter).
    unfold expired in Hex. simpl in *. rewrite Hk in Hm. injection Hm as <-. lia.
  - intros k row [_ Hk]%foldr_delete_lookup. right. by exists row.
Qed.

Lemma process_claims n provider notice st rc st1 :
  validated n = Ok notice → claim clock env notice st = (rc, st1) →
  process_provider_event uuid4 clock env default_provider platform_tenant_id n provider st =
    match rc with Raise _ => (Raise ProviderEventProcessingError, st1) | Ok c =>
    match c.(cl_done) with
    | Some status => (Ok (mkEventResult status None true), st1)
    | None => match (do* r := reconcile uuid4 clock env default_provider platform_tenant_id notice provider c.(cl_first_received) in
                     do* _ := mark env notice r.1 r.2 in
                     ret (mkEventResult r.1 (Some r.2) false)) st1 with
              | (Raise _, st') => (Raise ProviderEventProcessingError, (mark_failed env notice st').2)
              | ok => ok
              end
    end end.
Proof.
  intros Hv Hc. unfold process_provider_event, bind at 1, lift. rewrite Hv. unfold bind at 1, replace_error. rewrite Hc. destruct rc as [c|e]; [by destruct (cl_done c)|done].
Qed.
Lemma reconcile_final n provider at_ st r st' :
  reconcile uuid4 clock env default_provider platform_tenant_id n provider at_ st = (Ok r, st') → event_done r.1 = true.
Proof.
  intros H. unfold reconcile in H. apply bind_Ok in H as ([[id s]|o] & st1 & _ & H); [|by run H; simplify_eq].
  destruct (reconcile_subscription_status _ _ _ _ _ _ _ _ st1) as [[x|e] st2]; [by simplify_eq|]. by destruct e; simplify_eq.
Qed.

(** C29: A provider's event is settled once.  Other transactions may do anything to the ledger but change a row that is
    done, take an attempt back, or delete a row created at the horizon or later, a horizon not after the clock; so pruning may run at any moment, with
    cutoffs up to the horizon (and pruning and every delivery are such transactions themselves).  Then an event whose row is done
    and within the horizon is answered as a duplicate by two reads of the ledger, with nothing written and no provider
    called.  A delivery that is answered is answered with a final status, one that fails with the error that asks the
    provider to deliver again; and unless the event's row is older than the horizon, the event is done after the
    answer, so that every later delivery is a duplicate until the row is pruned, and after the failure marked failed,
    unless another delivery finished it. *)
Theorem provider_event_settled n notice provider st r st' :
  validated n = Ok notice →
  process_provider_event uuid4 clock env default_provider platform_tenant_id n provider st = (r, st') →
  ledger_le horizon st st' ∧
  (∀ retention current_time batch_size, current_time - retention ≤ horizon →
     ledger_le horizon st (prune_provider_events env retention current_time batch_size st).2) ∧
  (∀ row, st.(bl_events) !! event_key notice = Some row → horizon ≤ row.(pe_created_at) → event_done row.(pe_status) = true →
     r = Ok (mkEventResult row.(pe_status) None true) ∧ st' = after_gap (after_gap st)) ∧
  match r with
  | Ok x => event_done x.(er_status) = true ∧
      (recent horizon (event_key notice) st → ∃ row, st'.(bl_events) !! event_key notice = Some row ∧ event_done row.(pe_status) = true)
  | Raise e => e = ProviderEventProcessingError ∧
      (recent horizon (event_key notice) st →
       ∃ row, st'.(bl_events) !! event_key notice = Some row ∧ (event_done row.(pe_status) = true ∨ row.(pe_status) = EV_FAILED))
  end.
Proof.
  intros Hv H. destruct (claim_spec notice st) as (rc & st1 & Hc & H1 & Hrow). pose proof (process_claims _ provider _ _ _ _ Hv Hc) as Hp.
  rewrite H in Hp. assert (∀ row0, st.(bl_events) !! event_key notice = Some row0 → horizon ≤ row0.(pe_created_at) → event_done row0.(pe_status) = true →
    r = Ok (mkEventResult row0.(pe_status) None true) ∧ st' = after_gap (after_gap st)) as Hdup.
  { intros row0 Hr Hh Hd. rewrite (claim_done _ _ _ Hr Hh Hd) in Hc. injection Hc as <- <-. by injection Hp as -> ->. }
  enough (ledger_le horizon st st' ∧ match r with
    | Ok x => event_done x.(er_status) = true ∧ (recent horizon (event_key notice) st → ∃ row, st'.(bl_events) !! event_key notice = Some row ∧ event_done row.(pe_status) = true)
    | Raise e => e = ProviderEventProcessingError ∧ (recent horizon (event_key notice) st →
        ∃ row, st'.(bl_events) !! event_key notice = Some row ∧ (event_done row.(pe_status) = true ∨ row.(pe_status) = EV_FAILED))
    end) as [Hl Hr] by (split_and!; [done|intros; by apply prune_ledger|done|done]).
  clear Hdup. destruct rc as [c|e]; [|injection Hp as -> ->; split; [done|]; by split].
  destruct Hrow as (row & Hrow & Hdone). destruct (cl_done c) as [s|]; [destruct Hdone as [Hs Hd]; injection Hp as -> ->; split_and!; [done..|]; exists row; by rewrite Hs|].
  pose proof (reconcile_ledger notice provider (cl_first_received c) st1) as H2. unfold bind at 1 in Hp.
  assert (∀ st2, hledger st1 st2 → recent horizon (event_key notice) st → ∃ row2, st2.(bl_events) !! event_key notice = Some row2 ∧ horizon ≤ row2.(pe_created_at)) as Hrow2.
  { intros st2 Hl2 Hr. pose proof (recent_later _ _ _ _ Hr H1 _ Hrow) as Hh. destruct (ll_kept _ _ _ Hl2 _ _ Hrow Hh) as (row2 & E2 & Ec & _). exists row2. by rewrite Ec. }
  destruct (reconcile _ _ _ _ _ _ _ _ st1) as [[x|e] st2] eqn:Er; cbn [snd] in H2.
  - pose proof (reconcile_final _ _ _ _ _ _ Er) as Hx.
    destruct (update_event_spec notice (λ w, mkEvent x.1 (Some x.2) w.(pe_attempts) w.(pe_created_at)) st2) as (st3 & Hu & H3 & Hrow3); [done..|].
    unfold mark, bind in Hp. rewrite Hu in Hp. injection Hp as -> ->. split_and!; [by do 2 (etrans; [done|])|done|]. intros Hr.
    destruct (Hrow2 _ H2 Hr) as (row2 & E2 & Hh2). destruct (Hrow3 _ E2 Hh2) as [row3 E3]. eexists. split; [done|]. by destruct (event_done (pe_status row3)) eqn:?.
  - destruct (update_event_spec notice (λ w, mkEvent EV_FAILED w.(pe_outcome) w.(pe_attempts) w.(pe_created_at)) st2) as (st3 & Hu & H3 & Hrow3); [done..|].
    unfold mark_failed in Hp. rewrite Hu in Hp. injection Hp as -> ->. split_and!; [by do 2 (etrans; [done|])|done|]. intros Hr.
    destruct (Hrow2 _ H2 Hr) as (row2 & E2 & Hh2). destruct (Hrow3 _ E2 Hh2) as [row3 E3]. eexists. split; [done|]. destruct (event_done (pe_status row3)) eqn:?; [by left|by right].
Qed.
End Inbox.
