(* ===== verification/BillingEntitlements.v ===== *)
(** * Billing: who pays and what it buys

    The billing owner of a tenant is the nearest tenant up its parents that does
    not inherit billing; the entitlements of a tenant are a combination of the
    owner's active plans that depends on the set of plans and not on their order;
    a plan can be bought exactly by whom the catalog says. *)

From S2P Require Import Prelude StoreLogic PyStr TenantLifecycle PlatformAuthority PlatformService TenantHierarchy HierarchyProofs HierarchyReads RbacDecision RbacProofs RbacService Idempotency BillingModel Billing BillingService BillingCommercial BillingProofs BillingSteps BillingSafety.
From Stdlib Require Import QArith.Qcanon.
#[local] Open Scope Z_scope.

(** ** Combining entitlements *)

Lemma Qc_max_spec a b : (Qc_max a b = a ∨ Qc_max a b = b) ∧ (a <= Qc_max a b)%Qc ∧ (b <= Qc_max a b)%Qc.
Proof.
  unfold Qc_max. case_decide as H; [split_and!; [by right|by apply Qclt_le_weak|apply Qcle_refl]|].
  split_and!; [by left|apply Qcle_refl|by apply Qcnot_lt_le].
Qed.
Lemma foldl_max q l : foldl Qc_max q l ∈ q :: l ∧ ∀ x, x ∈ q :: l → (x <= foldl Qc_max q l)%Qc.
Proof.
  revert q. induction l as [|y l IH]; intros q; simpl.
  - split; [by left|]. intros x ->%list_elem_of_singleton. apply Qcle_refl.
  - destruct (IH (Qc_max q y)) as [Hin Hle]. destruct (Qc_max_spec q y) as (Hor & Hq & Hy). split.
    + apply elem_of_cons in Hin as [->|?]; [|by do 2 right]. destruct Hor as [->| ->]; [by left|right; by left].
    + intros x [->|[->|Hx]%elem_of_cons]%elem_of_cons.
      * eapply Qcle_trans; [exact Hq|]. apply Hle. by left.
      * eapply Qcle_trans; [exact Hy|]. apply Hle. by left.
      * apply Hle. by right.
Qed.

Lemma elem_of_numbers q l : q ∈ numbers l ↔ JNum q ∈ l.
Proof. unfold numbers. rewrite list_elem_of_omap. split; [intros ([] & ? & ?); naive_solver|intros H; by exists (JNum q)]. Qed.
Lemma elem_of_booleans b l : b ∈ booleans l ↔ JBool b ∈ l.
Proof. unfold booleans. rewrite list_elem_of_omap. split; [intros ([] & ? & ?); naive_solver|intros H; by exists (JBool b)]. Qed.

(** What the combination of the values of one key is. *)
Record combines (values : list jvalue) (v : jvalue) : Prop := mkCombines {
  cb_number : ∀ q, JNum q ∈ values → ∃ m, v = JNum m ∧ JNum m ∈ values ∧ ∀ q', JNum q' ∈ values → (q' <= m)%Qc;
  cb_boolean : (∀ q, JNum q ∉ values) → ∀ b, JBool b ∈ values → v = JBool (bool_decide (JBool true ∈ values));
}.
Lemma combine_key_combines l v : combine_key l = Some v → combines l v.
Proof.
  unfold combine_key. destruct (numbers l) as [|q qs] eqn:En.
  - intros H. split; [intros q Hq%elem_of_numbers; rewrite En in Hq; by apply elem_of_nil in Hq|].
    intros _ b Hb%elem_of_booleans. destruct (booleans l) as [|b0 bs] eqn:Eb; [by apply elem_of_nil in Hb|].
    assert (existsb id (b0 :: bs) = bool_decide (JBool true ∈ l)) as <-; [|by injection H as <-].
    apply eq_true_iff_eq. rewrite existsb_exists, bool_decide_eq_true, <-elem_of_booleans, Eb.
    split; [intros (x & Hx & Ht)|intros Hx; exists true; split; [by apply list_elem_of_In|done]]. apply list_elem_of_In in Hx. by destruct x.
  - intros [= <-]. destruct (foldl_max q qs) as [Hin Hle]. rewrite <-En in Hin, Hle. split.
    + intros q' _. eexists. split; [done|]. split; [by apply elem_of_numbers|]. intros q'' ?%elem_of_numbers. by apply Hle.
    + intros Hno. destruct (Hno q). apply elem_of_numbers. rewrite En. by left.
Qed.
Lemma combine_key_Some l : is_Some (combine_key l) ↔ l ≠ [].
Proof.
  unfold combine_key. split; [intros H ->; by apply is_Some_None in H|]. intros Hl. destruct (numbers l), (booleans l); try by eexists. by destruct l.
Qed.
Lemma combine_lookup maps k : combine_entitlements maps !! k = combine_key (omap (λ m : entitlements, m !! k) maps).
Proof.
  unfold combine_entitlements. set (f := λ k, _). set (keys := elements _).
  assert (∀ k v, (k, v) ∈ omap f keys ↔ k ∈ keys ∧ combine_key (omap (λ m : entitlements, m !! k) maps) = Some v) as Hel.
  { intros k' v. rewrite list_elem_of_omap. unfold f. split.
    - intros (x & Hx & Hv). apply fmap_Some in Hv as (w & Hw & [= -> ->]). done.
    - intros [Hk Hv]. exists k'. by rewrite Hv. }
  apply option_eq. intros v. rewrite <-elem_of_list_to_map; [rewrite Hel; split; [by intros []|]|].
  - intros Hv. split; [|done]. apply elem_of_elements, elem_of_union_list.
    assert (omap (λ m : entitlements, m !! k) maps ≠ []) as Hne by (by apply combine_key_Some; eexists).
    destruct (omap _ maps) as [|w ws] eqn:E; [done|]. assert (w ∈ omap (λ m : entitlements, m !! k) maps) as Hw by (rewrite E; by left).
    apply list_elem_of_omap in Hw as (m & Hm & Hmk). exists (dom m). split; [by apply list_elem_of_fmap_2|by eapply elem_of_dom_2].
  - assert (NoDup keys) as Hnd by apply NoDup_elements. clear Hel. induction Hnd as [|x l Hx Hnd IH]; simpl; [constructor|].
    unfold f at 1. destruct (combine_key _); simpl; [|done]. constructor; [|done]. intros ([y w] & -> & Hy)%list_elem_of_fmap.
    apply list_elem_of_omap in Hy as (z & Hz & Hf). unfold f in Hf. apply fmap_Some in Hf as (? & _ & [= -> ->]). done.
Qed.

(** ** The billing owner *)

Definition inherits (ts : gmap uuid Tenant) (t : uuid) : bool :=
  match ts !! t with Some T => T.(t_inherits_billing) | None => false end.

Lemma set_tick_twice m n st : set_tick m (set_tick n st) = set_tick m st.
Proof. done. Qed.
Lemma tenant_row_quiet t st T :
  tenants_of st.(bl_tenancy) !! t = Some T → tenant_row quiet t st = (Ok T, set_tick (S st.(bl_tick)) st).
Proof. intros H. apply (session_read quiet). unfold read, get_tenant. cbn. by rewrite H. Qed.
Lemma first_owner_quiet t chain st :
  (∀ a, a ∈ chain → is_Some (tenants_of st.(bl_tenancy) !! a)) →
  ∃ n, first_owner quiet t chain st =
    (match find (λ a, negb (inherits (tenants_of st.(bl_tenancy)) a)) chain with
     | Some a => Ok a | None => Raise (InvalidBillingHierarchyError t) end, set_tick n st).
Proof.
  revert st. induction chain as [|a chain IH]; intros st Hall; simpl; [exists st.(bl_tick); by destruct st|].
  destruct (Hall a) as [T HT]; [by left|]. unfold bind. rewrite (tenant_row_quiet _ _ _ HT). unfold inherits at 1. rewrite HT.
  destruct (t_inherits_billing T); simpl; [|by eexists].
  destruct (IH (set_tick (S st.(bl_tick)) st)) as [n Hn]; [intros x Hx; apply Hall; by right|]. by exists n.
Qed.
Lemma find_spec {A} (p : A → bool) l : 
  match find p l with
  | Some a => ∃ i, l !! i = Some a ∧ p a = true ∧ ∀ j b, (j < i)%nat → l !! j = Some b → p b = false
  | None => ∀ j b, l !! j = Some b → p b = false
  end.
Proof.
  induction l as [|x l IH]; simpl; [done|]. destruct (p x) eqn:Ex; [exists 0%nat; split_and!; try done; lia|].
  destruct (find p l) as [a|].
  - destruct IH as (i & Hi & Ha & Hlt). exists (S i). split_and!; try done. intros [|j] b Hj Hb; simpl in Hb; [by simplify_eq|]. apply (Hlt j); [lia|done].
  - intros [|j] b Hb; simpl in Hb; [by simplify_eq|]. by eapply IH.
Qed.

(** The billing owner is the nearest tenant that owns its billing.  In a registry
    whose ancestry is the closure of its parents, [resolve_billing_owner] always
    answers: with the first tenant met on the way up the parents, the tenant itself
    first, that does not inherit billing; and with the hierarchy error exactly when
    every tenant on the way to the root inherits it. *)
Theorem billing_owner_nearest cfg st t :
  hwf cfg st.(bl_tenancy).(ts_tenants) st.(bl_tenancy).(ts_ancestry) → is_Some (st.(bl_tenancy).(ts_tenants) !! t) →
  let ts := st.(bl_tenancy).(ts_tenants) in
  match (resolve_billing_owner quiet t st).1 with
  | Ok owner => ∃ n, hops ts n t = Some owner ∧ inherits ts owner = false ∧
                     ∀ m x, (m < n)%nat → hops ts m t = Some x → inherits ts x = true
  | Raise e => e = InvalidBillingHierarchyError t ∧ ∀ n x, hops ts n t = Some x → inherits ts x = true
  end.
Proof.
  intros Hwf [T HT] ts. unfold resolve_billing_owner, bind at 1. rewrite (tenant_row_quiet _ _ _ HT).
  pose proof (hops_zero ts t (mk_is_Some _ _ HT)) as Hz. assert (inherits ts t = t_inherits_billing T) as HiT by (unfold inherits, ts; by rewrite HT).
  destruct (t_inherits_billing T); simpl.
  - set (st1 := set_tick _ _). unfold bind. rewrite (session_look quiet). set (st2 := after_gap quiet st1).
    assert (∀ i, get_ancestor_chain st2.(bl_tenancy) t !! i = hops ts (S i) t) as Hc by (intros i; by apply (chain_lookup cfg)).
    destruct (first_owner_quiet t (get_ancestor_chain st2.(bl_tenancy) t) st2) as [n Hn].
    { intros a [i Hi]%list_elem_of_lookup_1. rewrite Hc in Hi. by eapply hops_target. }
    rewrite Hn. cbn [fst]. change (tenants_of (bl_tenancy st2)) with ts. pose proof (find_spec (λ a, negb (inherits ts a)) (get_ancestor_chain st2.(bl_tenancy) t)) as Hf.
    destruct (find _ _) as [a|]; [destruct Hf as (i & Hi & Ha & Hlt)|split; [done|]].
    + rewrite Hc in Hi. apply negb_true_iff in Ha. exists (S i). split_and!; try done. intros [|m] x Hm Hx; [by rewrite Hz in Hx; simplify_eq|].
      apply negb_false_iff, (Hlt m); [lia|]. by rewrite Hc.
    + intros [|m] x Hx; [by rewrite Hz in Hx; simplify_eq|]. apply negb_false_iff, (Hf m). by rewrite Hc.
  - exists 0%nat. split_and!; try done. lia.
Qed.

(** ** The entitlements of a tenant *)

(** The values an active plan of the owner gives a key. *)
Definition granted (st : billing_store) (owner : uuid) (key : pystr) (v : jvalue) : Prop :=
  ∃ id s p, st.(bl_subscriptions) !! id = Some s ∧ s.(sb_tenant_id) = owner ∧ s.(sb_status) = SUB_ACTIVE ∧
            st.(bl_plans) !! s.(sb_plan_id) = Some p ∧ p.(pl_entitlements) !! key = Some v.

Lemma elem_of_granting st owner plan_id :
  plan_id ∈ granting_plans st owner ↔
  ∃ id s, st.(bl_subscriptions) !! id = Some s ∧ s.(sb_tenant_id) = owner ∧ s.(sb_status) = SUB_ACTIVE ∧ s.(sb_plan_id) = plan_id.
Proof.
  unfold granting_plans. rewrite list_elem_of_fmap. setoid_rewrite merge_sort_Permutation. setoid_rewrite list_elem_of_filter.
  split.
  - intros ([id s] & -> & (Ht & Hg) & Hs%elem_of_map_to_list). unfold grants_entitlements in Hg. reflect_bools. by exists id, s.
  - intros (id & s & Hs & Ht & Ha & <-). exists (id, s). split; [done|]. split; [|by apply elem_of_map_to_list].
    split; [done|]. unfold grants_entitlements. by apply bool_decide_eq_true.
Qed.
Lemma entitlement_maps_quiet t st owner st1 :
  resolve_billing_owner quiet t st = (Ok owner, st1) → st1.(bl_subscriptions) = st.(bl_subscriptions) → st1.(bl_plans) = st.(bl_plans) →
  ∃ maps st2, entitlement_maps_for quiet t st = (Ok maps, st2) ∧
    ∀ key v, v ∈ omap (λ m : entitlements, m !! key) maps ↔ granted st owner key v.
Proof.
  intros Hr Es Ep. unfold entitlement_maps_for, bind at 1. rewrite Hr. unfold bind at 1. rewrite (session_look quiet).
  set (st2 := after_gap quiet st1). assert (granting_plans st2 owner = granting_plans st owner) as -> by (unfold granting_plans; by rewrite <-Es).
  assert (∀ l : list uuid, (∀ plan_id, plan_id ∈ l ↔ plan_id ∈ granting_plans st owner) → ∀ key v,
    v ∈ omap (λ m : entitlements, m !! key) (omap (λ plan_id, pl_entitlements <$> st.(bl_plans) !! plan_id) l) ↔ granted st owner key v) as Hg.
  { intros l Hl key v. rewrite list_elem_of_omap. setoid_rewrite list_elem_of_omap. setoid_rewrite Hl. setoid_rewrite elem_of_granting. split.
    - intros (e & (pid & (id & s & ? & ? & ? & <-) & He) & Hk). apply fmap_Some in He as (p & Hp & ->). by exists id, s, p.
    - intros (id & s & p & ? & ? & ? & Hp & Hk). exists p.(pl_entitlements). split; [|done]. exists s.(sb_plan_id). split; [by exists id, s|]. by rewrite Hp. }
  destruct (granting_plans st owner) as [|x l] eqn:E.
  - eexists [], _. split; [done|]. apply (Hg []). done.
  - rewrite (session_look quiet). eexists _, _. split; [done|]. change (bl_plans (after_gap quiet st2)) with st1.(bl_plans). rewrite Ep. by apply Hg.
Qed.
Lemma combine_key_elem l v : combine_key l = Some v → (∀ q, JNum q ∉ l) → v = JBool true → JBool true ∈ l.
Proof.
  intros H Hno ->. pose proof (combine_key_combines _ _ H) as [_ Hb]. destruct (booleans l) as [|b bs] eqn:Eb.
  - unfold combine_key in H. rewrite Eb in H. destruct (numbers l) as [|q qs] eqn:En.
    + apply head_Some in H as [l' ->]. by left.
    + destruct (Hno q). apply elem_of_numbers. rewrite En. by left.
  - specialize (Hb Hno b). rewrite <-elem_of_booleans, Eb in Hb. specialize (Hb (list_elem_of_here _ _)). injection Hb as Hb. symmetry in Hb. by apply bool_decide_eq_true_1 in Hb.
Qed.

Definition same_rows : relation billing_store :=
  λ st st', st'.(bl_subscriptions) = st.(bl_subscriptions) ∧ st'.(bl_plans) = st.(bl_plans).
#[export] Instance same_rows_preorder : PreOrder same_rows.
Proof. unfold same_rows. split; [done|]. intros ??? [] []. split; congruence. Qed.
Lemma resolve_billing_owner_rows t : keeps same_rows (resolve_billing_owner quiet t).
Proof.
  assert (∀ x, keeps same_rows (tenant_row quiet x)) as Ht by (intros x st; unfold tenant_row, session, transaction, bind, gap, modify, read; simpl; by case_match).
  unfold resolve_billing_owner. bill_steps; [apply Ht|done|]. induction a0 as [|x l IH]; simpl; bill_steps; [apply Ht|apply IH].
Qed.

(** C30: Entitlements are what the owner's active plans give.  For a key, over the
    plans of the active subscriptions of the tenant's billing owner: there is an
    entitlement exactly when some plan names the key; a number is the largest of the
    numbers, whatever else the plans say; otherwise a boolean is true exactly when
    some plan says so.  [has_entitlement] holds exactly when some plan says true and
    none gives a number.  None of it depends on the order of the subscriptions. *)
Theorem entitlements_exact st t owner key :
  (resolve_billing_owner quiet t st).1 = Ok owner →
  ∃ e b st1 st2, get_entitlements quiet t st = (Ok e, st1) ∧ has_entitlement quiet t key st = (Ok b, st2) ∧
    (is_Some (e !! key) ↔ ∃ v, granted st owner key v) ∧
    (∀ q, granted st owner key (JNum q) →
       ∃ m, e !! key = Some (JNum m) ∧ granted st owner key (JNum m) ∧ ∀ q', granted st owner key (JNum q') → (q' <= m)%Qc) ∧
    ((∀ q, ¬ granted st owner key (JNum q)) → ∀ c, granted st owner key (JBool c) →
       ∃ d, e !! key = Some (JBool d) ∧ (d = true ↔ granted st owner key (JBool true))) ∧
    (b = true ↔ granted st owner key (JBool true) ∧ ∀ q, ¬ granted st owner key (JNum q)).
Proof.
  intros Hr. destruct (resolve_billing_owner quiet t st) as [r st0] eqn:E. simpl in Hr. subst r.
  destruct (keeps_eq _ _ _ _ _ E (resolve_billing_owner_rows t)) as [Es Ep].
  destruct (entitlement_maps_quiet t st owner st0 E Es Ep) as (maps & st2 & Hm & Hel). specialize (Hel key).
  assert (get_entitlements quiet t st = (Ok (combine_entitlements maps), st2)) as Hg by (unfold get_entitlements, bind; by rewrite Hm).
  exists (combine_entitlements maps), (bool_decide (combine_entitlements maps !! key = Some (JBool true))), st2, st2.
  split; [done|]. split; [unfold has_entitlement, bind; by rewrite Hg|]. rewrite combine_lookup.
  set (l := omap (λ m : entitlements, m !! key) maps) in *. assert (is_Some (combine_key l) ↔ ∃ v, granted st owner key v) as Hsome.
  { rewrite combine_key_Some. split; [intros Hl; destruct l as [|v l'] eqn:El; [done|]; exists v; apply Hel; by left|].
    intros [v Hv%Hel] Hl. rewrite Hl in Hv. by apply elem_of_nil in Hv. }
  split; [done|]. setoid_rewrite <-Hel. split_and!.
  - intros q Hq. destruct (proj2 Hsome) as [v Hv]; [exists (JNum q); by apply Hel|]. rewrite Hv.
    destruct (cb_number _ _ (combine_key_combines _ _ Hv) q Hq) as (m & -> & ? & ?). by exists m.
  - intros Hno c Hc. destruct (proj2 Hsome) as [v Hv]; [exists (JBool c); by apply Hel|]. rewrite Hv.
    rewrite (cb_boolean _ _ (combine_key_combines _ _ Hv) Hno c Hc). eexists. split; [done|]. apply bool_decide_eq_true.
  - rewrite bool_decide_eq_true. split.
    + intros Hv. assert (∀ q, JNum q ∉ l) as Hno; [|split; [by eapply combine_key_elem|done]].
      intros q Hq. destruct (cb_number _ _ (combine_key_combines _ _ Hv) q Hq) as (? & ? & _). done.
    + intros [Ht Hno]. destruct (proj2 Hsome) as [v Hv]; [exists (JBool true); by apply Hel|]. rewrite Hv.
      rewrite (cb_boolean _ _ (combine_key_combines _ _ Hv) Hno true Ht). by rewrite bool_decide_true.
Qed.

(** * Billing: who may buy a plan, and who may be charged

    [eligible] is what the catalog promises; [evaluate_plan_eligibility] decides
    it.  A commercial creation needs the payer's leave to charge. *)

#[local] Open Scope Z_scope.

Lemma is_offer_exists st owner plan_id service :
  exists_row st.(bl_offers) (is_offer owner plan_id service) = true ↔
  ∃ id o, st.(bl_offers) !! id = Some o ∧ of_tenant_id o = owner ∧ of_plan_id o = plan_id ∧
          of_service_tenant_id o = service ∧ of_revoked_at o = None.
Proof.
  rewrite exists_row_spec. apply exist_proper. intros id. apply exist_proper. intros o. unfold is_offer.
  rewrite !andb_true_iff, !bool_decide_eq_true. tauto.
Qed.

Section Catalog.
Context (uuid4 : nat → uuid) (clock : nat → datetime).

(** What an accepted caller may do: the billing authority of the system, or the
    permissions of the user. *)
Definition may (st : billing_store) (c : caller) (tenant_id : uuid) (resource action : string) : Prop :=
  match c with
  | SystemCaller authority => authority = BILLING_SYSTEM_AUTHORITY
  | UserCaller u => user_can clock u tenant_id resource action st = true
  | ServiceAccountCaller _ _ => False
  end.
(** The permission has its row. *)
Definition registered (st : billing_store) (resource action : string) : Prop :=
  is_Some (find_row st.(bl_rbac).(rs_rows).(rb_permissions) (is_permission resource action)).

(** What the visibility of a plan asks. *)
Definition visible (st : billing_store) (c : caller) (owner service plan_id : uuid) (v : PlanVisibility) : Prop :=
  match v with
  | PUBLIC => True
  | DESCENDANTS => owner ≠ service ∧ owner ∈ get_ancestor_ids st.(bl_tenancy) service
  | PRIVATE => may st c owner BILLING_CATALOG "read"
  | UNLISTED => ∃ id o, st.(bl_offers) !! id = Some o ∧ of_tenant_id o = owner ∧ of_plan_id o = plan_id ∧
                        of_service_tenant_id o = service ∧ of_revoked_at o = None
  end.
Definition eligible (st : billing_store) (c : caller) (service plan_id : uuid) (plan : Plan) (merchant : option uuid) : Prop :=
  ∃ owner seller m,
    plan.(pl_owner_tenant_id) = Some owner ∧ plan.(pl_merchant_account_id) = Some seller ∧ plan.(pl_withdrawn) = false ∧
    (merchant = None ∨ merchant = Some seller) ∧ may st c service BILLING_SUBSCRIPTION "create" ∧
    st.(bl_merchants) !! seller = Some m ∧ m.(ma_tenant_id) = owner ∧ m.(ma_status) = MA_ACTIVE ∧
    visible st c owner service plan_id plan.(pl_visibility).

Lemma register_registered st resource action :
  registered st resource action → register_billing_permission uuid4 resource action st = (Ok tt, st).
Proof.
  intros [id H]. unfold register_billing_permission, register_permission_in. rewrite H. by destruct st.
Qed.
Lemma authorize_registered st c a t resource action operation :
  require_billing_caller c = Ok a → registered st resource action →
  authorize_billing uuid4 clock c [(t, resource, action)] operation st =
    (match a.(ac_caller) with
     | SystemCaller authority => if bool_decide (authority = BILLING_SYSTEM_AUTHORITY) then Ok a else Raise (BillingNotAuthorizedError operation)
     | UserCaller u => if user_can clock u t resource action st then Ok a else Raise (BillingNotAuthorizedError operation)
     | ServiceAccountCaller _ _ => Raise (BCallerTypeError operation)
     end, st).
Proof.
  intros Ha Hr. unfold authorize_billing, bind at 1, lift. rewrite Ha. destruct (ac_caller a); simpl.
  - unfold bind. rewrite (register_registered _ _ _ Hr). unfold look, ensure, lift, raise_if. by destruct (user_can _ _ _ _ _ _).
  - done.
  - unfold bind, ensure, lift, raise_if. by case_bool_decide.
Qed.
Lemma accepted_caller c a : require_billing_caller c = Ok a → ∀ i t, a.(ac_caller) ≠ ServiceAccountCaller i t.
Proof. destruct c as [[]|?|?|]; simpl; naive_solver. Qed.
Lemma holds_registered st c a t resource action :
  require_billing_caller c = Ok a → registered st resource action →
  ∃ b, holds uuid4 clock c t resource action st = (Ok b, st) ∧ (b = true ↔ may st a.(ac_caller) t resource action).
Proof.
  intros Ha Hr. unfold holds. rewrite (authorize_registered _ _ _ _ _ _ _ Ha Hr). pose proof (accepted_caller _ _ Ha) as Hns.
  destruct (ac_caller a) as [u|i j|authority]; simpl; [|by destruct (Hns i j)|].
  - destruct (user_can _ _ _ _ _ _); [by exists true|by exists false].
  - case_bool_decide; [by exists true|exists false; naive_solver].
Qed.

Lemma evaluate_decides c a st service plan_id plan merchant T :
  require_billing_caller c = Ok a → lock_open_tenant st.(bl_tenancy) service = Ok T →
  registered st BILLING_SUBSCRIPTION "create" → registered st BILLING_CATALOG "read" →
  ∃ r, evaluate_plan_eligibility uuid4 clock c service plan_id plan merchant st = (Ok r, st) ∧
       (r = ELIGIBLE ↔ eligible st a.(ac_caller) service plan_id plan merchant).
Proof.
  intros Ha Ho Hr1 Hr2. unfold evaluate_plan_eligibility, bind at 1, lift. rewrite Ha. unfold bind at 1, open_tenant, read. rewrite Ho. simpl.
  unfold eligible. destruct (pl_owner_tenant_id plan) as [owner|] eqn:Eo; [|eexists; split; [done|]; naive_solver].
  destruct (pl_merchant_account_id plan) as [seller|] eqn:Es; [|eexists; split; [done|]; naive_solver].
  destruct (pl_withdrawn plan); [eexists; split; [done|]; naive_solver|].
  destruct (decide (merchant = None ∨ merchant = Some seller)) as [Hm|Hm]; last first.
  { exists MERCHANT_MISMATCH. split; [destruct merchant as [m|]; [|naive_solver]; rewrite bool_decide_false by naive_solver; done|naive_solver]. }
  assert (match merchant with Some m => negb (bool_decide (m = seller)) | None => false end = false) as ->.
  { destruct Hm as [->| ->]; [done|]. by rewrite bool_decide_true. }
  destruct (holds_registered st c a service _ _ Ha Hr1) as (b & Hh & Hb). unfold bind at 1. rewrite Hh.
  destruct b; simpl; [|exists NOT_AUTHORIZED; split; [done|]; naive_solver]. apply proj1 in Hb. specialize (Hb eq_refl).
  unfold bind at 1, look. destruct (owned ma_tenant_id owner (bl_merchants st !! seller)) as [m|] eqn:Em; last first.
  { exists MERCHANT_INACTIVE. split; [done|]. split; [done|]. intros (o & s & m & ? & ? & ? & ? & ? & Hx & Hy & ?). simplify_eq.
    unfold owned in Em. by rewrite Hx, bool_decide_true in Em. }
  apply owned_Some in Em as [Em Et]. destruct (decide (m.(ma_status) = MA_ACTIVE)) as [Eact|Eact]; last first.
  { rewrite bool_decide_false by done. exists MERCHANT_INACTIVE. split; [done|]. naive_solver. }
  rewrite bool_decide_true by done. simpl.
  assert (∀ r : EligibilityReason, (r = ELIGIBLE ↔ visible st a.(ac_caller) owner service plan_id plan.(pl_visibility)) →
    (r = ELIGIBLE ↔ ∃ owner0 seller0 m, Some owner = Some owner0 ∧ Some seller = Some seller0 ∧ false = false ∧
       (merchant = None ∨ merchant = Some seller0) ∧ may st (ac_caller a) service BILLING_SUBSCRIPTION "create" ∧
       bl_merchants st !! seller0 = Some m ∧ ma_tenant_id m = owner0 ∧ ma_status m = MA_ACTIVE ∧
       visible st (ac_caller a) owner0 service plan_id (pl_visibility plan))) as Hfinal.
  { intros r ->. split; [intros Hv; by exists owner, seller, m|naive_solver]. }
  destruct (pl_visibility plan) eqn:Ev; simpl in Hfinal.
  - exists ELIGIBLE. split; [done|]. by apply Hfinal.
  - unfold bind, lock_ancestor_ids. eexists. split; [done|]. apply Hfinal. by case_bool_decide.
  - destruct (holds_registered st c a owner _ _ Ha Hr2) as (b2 & Hh2 & Hb2). unfold bind. rewrite Hh2. eexists. split; [done|].
    apply Hfinal. rewrite <-Hb2. by destruct b2.
  - unfold bind. eexists. split; [done|]. apply Hfinal. rewrite <-(is_offer_exists st owner plan_id service). by destruct (exists_row _ _).
Qed.
(** The catalog's promise.  For an accepted caller and an open service tenant,
    with the billing permissions registered, [evaluate_plan_eligibility] answers
    without changing anything, and answers ELIGIBLE exactly when: the plan has an
    owner and a merchant and is not withdrawn; the merchant asked for, if one is, is
    the plan's; the caller may create subscriptions for the service tenant; the
    merchant is the owner's and active; and the plan's visibility admits it: public,
    or an owner that is a proper ancestor of the service tenant, or a caller who may
    read the owner's catalog, or an offer to the service tenant that is not revoked. *)
Theorem eligibility_exact c a st service plan_id plan merchant T :
  require_billing_caller c = Ok a → lock_open_tenant st.(bl_tenancy) service = Ok T →
  registered st BILLING_SUBSCRIPTION "create" → registered st BILLING_CATALOG "read" →
  ∃ r, evaluate_plan_eligibility uuid4 clock c service plan_id plan merchant st = (Ok r, st) ∧
       (r = ELIGIBLE ↔ eligible st a.(ac_caller) service plan_id plan merchant).
Proof. apply evaluate_decides. Qed.

(** ** Charging *)

Lemma check_all_registered st u operation checks r st' :
  Forall (λ k : uuid * string * string, registered st k.1.2 k.2) checks → check_all uuid4 clock u operation checks st = (Ok r, st') →
  st' = st ∧ Forall (λ k : uuid * string * string, may st (UserCaller u) k.1.1 k.1.2 k.2) checks.
Proof.
  induction checks as [|[[t resource] action] checks IH]; intros Hreg H; simpl in H; [run H; done|].
  apply Forall_cons in Hreg as [Hr Hreg]. apply bind_Ok in H as (? & st1 & H1 & H). simpl in Hr. rewrite (register_registered _ _ _ Hr) in H1.
  injection H1 as _ <-. run H. destruct (IH Hreg H) as [-> ?]. by split; [|constructor].
Qed.
Lemma authorize_all_registered st c checks operation a st' :
  Forall (λ k : uuid * string * string, registered st k.1.2 k.2) checks →
  authorize_billing uuid4 clock c checks operation st = (Ok a, st') →
  st' = st ∧ require_billing_caller c = Ok a ∧ Forall (λ k : uuid * string * string, may st a.(ac_caller) k.1.1 k.1.2 k.2) checks.
Proof.
  intros Hreg H. unfold authorize_billing in H. run H. destruct (ac_caller x) as [u|i j|authority] eqn:Ec; run H.
  - match goal with E : check_all _ _ _ _ _ _ = _ |- _ => destruct (check_all_registered _ _ _ _ _ _ Hreg E) as [-> ?] end. by rewrite Ec.
  - reflect_bools. rewrite Ec. split_and!; [done..|]. by apply Forall_forall.
Qed.

(** The permissions of a creation have their rows. *)
Definition charging_registered (st : billing_store) : Prop :=
  registered st BILLING_ACCOUNT "charge" ∧ registered st BILLING_SUBSCRIPTION "create" ∧
  registered st BILLING_SUBSCRIPTION "change" ∧ registered st BILLING_CATALOG "read".
(** What a creation needs. *)
Record chargeable (st : billing_store) (c : caller) (q : creation) (account : BillingAccount) : Prop := mkChargeable {
  ch_charge : may st c q.(cr_payer_tenant_id) BILLING_ACCOUNT "charge";
  ch_create : may st c q.(cr_service_tenant_id) BILLING_SUBSCRIPTION "create";
  ch_change : q.(cr_migrating_inheritance) = true → may st c q.(cr_service_tenant_id) BILLING_SUBSCRIPTION "change";
  ch_account : st.(bl_accounts) !! q.(cr_billing_account_id) = Some account ∧ account.(ba_tenant_id) = q.(cr_payer_tenant_id) ∧
               account.(ba_active) = true;
  ch_service : ∃ t, lock_open_tenant st.(bl_tenancy) q.(cr_service_tenant_id) = Ok t ∧ t.(t_inherits_billing) = q.(cr_migrating_inheritance);
  ch_payer : ∃ t, lock_open_tenant st.(bl_tenancy) q.(cr_payer_tenant_id) = Ok t;
  ch_plan : ∃ plan, st.(bl_plans) !! q.(cr_plan_id) = Some plan ∧
              eligible st c q.(cr_service_tenant_id) q.(cr_plan_id) plan (Some account.(ba_merchant_account_id));
}.

Lemma commercial_context_chargeable q a st cc st' :
  require_billing_caller q.(cr_caller) = Ok a → charging_registered st → commercial_context uuid4 clock q st = (Ok cc, st') →
  st' = st ∧ chargeable st a.(ac_caller) q cc.(cc_account) ∧ cc.(cc_merchant_id) = cc.(cc_account).(ba_merchant_account_id).
Proof.
  intros Ha (Hr1 & Hr2 & Hr3 & Hr4) H. unfold commercial_context, account_row, require_active_billing_account, open_tenant in H. cbv zeta in H.
  apply bind_Ok in H as (au & st1 & H1 & H). apply authorize_all_registered in H1 as (-> & Ha' & Hmay).
  2: { unfold creation_checks. destruct (cr_migrating_inheritance q); by repeat constructor. }
  rewrite Ha in Ha'. injection Ha' as <-. run H. rename x into T, x0 into T', x3 into plan, x4 into account. reflect_bools. subst.
  assert (x2 = st ∧ T.(t_inherits_billing) = q.(cr_migrating_inheritance)) as [-> HT].
  { destruct (cr_migrating_inheritance q); [unfold require_migratable in Hr|unfold require_service_tenant_owns_billing in Hr];
      run Hr; reflect_bools; by split. }
  assert (lock_open_tenant st.(bl_tenancy) q.(cr_service_tenant_id) = Ok T) as HoT by (by destruct (lock_open_tenant _ (cr_service_tenant_id q)); simplify_eq/=).
  assert (lock_open_tenant st.(bl_tenancy) q.(cr_payer_tenant_id) = Ok T') as HoT' by (by destruct (lock_open_tenant _ (cr_payer_tenant_id q)); simplify_eq/=).
  destruct (evaluate_decides q.(cr_caller) a st q.(cr_service_tenant_id) q.(cr_plan_id) plan (Some account.(ba_merchant_account_id)) T)
    as (r & He & Hel); [done..|]. rewrite He in Hr0. injection Hr0 as -> <-. pose proof (proj1 Hel eq_refl) as Helig.
  destruct Helig as (owner & seller & m & Eo & Es & _ & [?|[= Em]] & _). all: try done.
  rewrite Eo, Es in H. run H. split; [done|]. split; [|done]. apply owned_Some in H3 as [Hacc Hten]. unfold creation_checks in Hmay.
  rewrite Forall_app, !Forall_cons in Hmay. destruct Hmay as ((Hm1 & Hm2 & _) & Hm3). split; try done; [|by eauto|by eauto|by eexists; split; [done|apply Hel]].
  intros Hmig. rewrite Hmig, Forall_singleton in Hm3. done.
Qed.
Lemma save_created_Ok id s st r st' :
  save_created clock id s st = (Ok r, st') → st.(bl_subscriptions) !! id = None ∧ st'.(bl_subscriptions) !! id = Some s.
Proof.
  intros H. unfold save_created, insert_subscription in H. run H. reflect_bools.
  match goal with Hw : write_subscription _ _ _ = _ |- _ => destruct (write_subscription_Ok _ _ _ _ _ Hw) as (_ & _ & ->) end.
  apply (announce_Ok clock _ _ _ _ _ s) in H; [|simpl; by rewrite lookup_insert_eq]. subst. simpl. rewrite lookup_insert_eq. split; [|done].
  by apply eq_None_not_Some.
Qed.

(** Nobody is charged without leave.  The transaction that writes a commercial
    subscription, whatever was authorized before the provider was asked, commits only
    if, of the store it runs in, the caller may charge the payer's account and create
    subscriptions for the service tenant (and change them, when a migration ends its
    inheritance); the account is the payer's, active; both tenants are open; and the
    plan is eligible for the service tenant at the account's merchant.  The row is
    new, pending and verified, and its parties are that payer, account and merchant. *)
Theorem charge_needs_leave env q a id merchant ref st st' :
  require_billing_caller q.(cr_caller) = Ok a → charging_registered (after_gap env st) →
  insert_pending_session uuid4 clock env q id merchant ref st = (Ok tt, st') →
  ∃ account s, chargeable (after_gap env st) a.(ac_caller) q account ∧ account.(ba_merchant_account_id) = merchant ∧
    (after_gap env st).(bl_subscriptions) !! id = None ∧ st'.(bl_subscriptions) !! id = Some s ∧
    s.(sb_tenant_id) = q.(cr_service_tenant_id) ∧ s.(sb_plan_id) = q.(cr_plan_id) ∧ s.(sb_status) = SUB_PENDING ∧
    s.(sb_verification) = VERIFIED ∧ s.(sb_provider_subscription_id) = ref ∧
    parties s = (Some q.(cr_payer_tenant_id), Some q.(cr_billing_account_id), Some merchant).
Proof.
  intros Ha Hreg H. unfold insert_pending_session, session, bind at 1, gap, modify, transaction in H. fold (after_gap env st) in H.
  destruct (bind _ _ (after_gap env st)) as [[u|e] st1] eqn:E; [|done]. injection H as -> ->. run E. reflect_bools.
  match goal with Hc : commercial_context _ _ _ _ = _ |- _ => destruct (commercial_context_chargeable _ _ _ _ _ Ha Hreg Hc) as (-> & Hch & Hm) end.
  match goal with Hs : save_created _ _ _ _ = _ |- _ => destruct (save_created_Ok _ _ _ _ _ Hs) as [Hnone Hsome] end.
  eexists _, _. split; [exact Hch|]. split; [congruence|]. split; [done|].
  assert (st'.(bl_subscriptions) = x3.(bl_subscriptions)) as ->.
  { injection Hr1 as _ <-. destruct (cr_migrating_inheritance q); [|by injection E as <-]. unfold bind, look in E. by destruct (_ !! _); injection E as <-. }
  split; [exact Hsome|]. split_and!; try done. unfold parties. simpl. destruct (ch_account _ _ _ _ Hch) as (_ & -> & _). by rewrite H.
Qed.
End Catalog.
