(* ===== verification/BillingDemo.v ===== *)
(** * A deployment of billing

    The in-memory provider of the repository (provider.py, [FakeBillingProvider]) as
    an [Adapter] that answers from the history of its calls, and a small world: the
    tenant 2000 sells a plan that its child 2001 buys and pays for.  The theorems on
    billing applied to it. *)

From S2P Require Import Prelude StoreLogic PyStr TenantLifecycle PlatformAuthority PlatformService PlatformProofs PlatformSafety TenantHierarchy HierarchyProofs HierarchySafety HierarchyReads RbacDecision RbacProofs RbacService RbacIntegrity Idempotency BillingModel Billing BillingService BillingCommercial BillingEvents BillingProofs BillingSteps BillingSafety BillingEntitlements.
From Stdlib Require Import QArith.Qcanon.
#[local] Open Scope Z_scope.

(** ** FakeBillingProvider *)

Definition FAKE : pystr := lit "fake".
Section Fake.
Context (hex : nat → pystr) (initial_state : ProviderSubscriptionState) (status_unavailable : bool).

Definition fake_calls (calls : list provider_call) : list provider_call := filter (λ c, c.(pc_adapter) = Some FAKE) calls.
(** [_by_idempotency_key], [_customers_by_key], [customers] *)
Definition by_idempotency_key (calls : list provider_call) (key : pystr) : option pystr :=
  last (omap (λ c, match c.(pc_request), c.(pc_answer) with
                   | RqCreate _ _ (Some k) _, Some ref => if bool_decide (k = key) then Some ref else None
                   | _, _ => None
                   end) (fake_calls calls)).
Definition customers_by_key (calls : list provider_call) (key : pystr) : option pystr :=
  last (omap (λ c, match c.(pc_request), c.(pc_answer) with
                   | RqCustomer _ k, Some ref => if bool_decide (k = key) then Some ref else None
                   | _, _ => None
                   end) (fake_calls calls)).
Definition customers (calls : list provider_call) (ref : pystr) : option ProviderCommerceContext :=
  last (omap (λ c, match c.(pc_request) with
                   | RqCustomer context _ => if bool_decide (c.(pc_answer) = Some ref) then Some context else None
                   | _ => None
                   end) (fake_calls calls)).
Definition belongs (calls : list provider_call) (context : ProviderCommerceContext) : bool :=
  match context.(cx_provider_customer_ref) with
  | None => true
  | Some ref => match customers calls ref with
                | Some customer => bool_decide ((customer.(cx_merchant_account_id), customer.(cx_payer_billing_account_id)) =
                                                (context.(cx_merchant_account_id), context.(cx_payer_billing_account_id)))
                | None => false
                end
  end.
Definition fake_answer (n : nat) (calls : list provider_call) (rq : provider_request) : option pystr :=
  match rq with
  | RqCreate _ _ key context =>
      match key ≫= by_idempotency_key calls with
      | Some ref => Some ref
      | None => if match context with Some cx => belongs calls cx | None => true end
                then Some (lit "fake_sub_" ++ hex (length calls)) else None
      end
  | RqCustomer context key =>
      match customers_by_key calls key with
      | Some ref => Some ref
      | None => Some (lit "fake_cus_" ++ hex (length calls))
      end
  | RqChangePlan _ _ | RqCancel _ => Some []
  end.
(** [_states.get(ref)]: the test control [set_state] apart. *)
Definition fake_state (calls : list provider_call) (ref : pystr) : option ProviderSubscriptionState :=
  if existsb (λ c, match c.(pc_request) with RqCreate _ _ _ _ => bool_decide (c.(pc_answer) = Some ref) | _ => false end) (fake_calls calls)
  then Some (if existsb (λ c, match c.(pc_request) with RqCancel r => bool_decide (r = ref) | _ => false end) (fake_calls calls)
             then PS_CANCELED else initial_state)
  else None.
Definition FakeBillingProvider : Adapter :=
  mkAdapter (Some FAKE) true false fake_answer
    (λ _ calls ref, if status_unavailable then None else Some (default PS_NOT_FOUND (fake_state calls ref)))
    (Some (λ _ calls ref,
       if status_unavailable then None
       else Some (match fake_state calls ref with
                  | Some PS_PENDING | Some PS_PAST_DUE => Some (lit "https://payments.fake.invalid/" ++ ref)
                  | _ => None
                  end))).
End Fake.

(** ** The world *)

Definition bdemo_uuid (n : nat) : uuid := (N.of_nat n + 7000)%N.
Definition bdemo_clock (n : nat) : datetime := Z.of_nat n * 1000000.
Definition bdemo_uuid5 (u : uuid) : uuid := (u + 100000)%N.
Definition bdemo_text (u : uuid) : pystr := [u].
Definition bdemo_fingerprint (p : billing_payload) : pystr :=
  match p with PlanKeyPayload k => k | CommercialPayload a b c => [a; b; c] end.
Definition bdemo_provider : Adapter := FakeBillingProvider (λ n, [N.of_nat n]) PS_ACTIVE false.
Definition bdemo_start : billing_store :=
  mkBilling hdemo (no_authority ∅ ∅) ∅ ∅ ∅ ∅ ∅ ∅ ∅ ∅ ∅ [] ∅ ∅ [] [] 0.
Definition bdemo_system : billing_caller := CoreCaller (SystemCaller BILLING_OPERATIONS).
Abbreviation bdemo_run := (run_history bdemo_uuid bdemo_clock quiet None bdemo_fingerprint default_idempotency_config bdemo_uuid5 bdemo_text (Some 2000%N)).
Definition bdemo_setup : list billing_op :=
  [OpCreateMerchant bdemo_system 2000 FAKE (lit "acct") MA_ACTIVE;
   OpCreateOwnedPlan bdemo_system 2000 7000 (lit "pro") (lit "Pro") [(lit "seats", JNum (Q2Qc (QArith_base.inject_Z 5))); (lit "sso", JBool true)] None DESCENDANTS;
   OpBillingAccount bdemo_system 2001 2000 7000;
   OpCreate bdemo_system 2001 2001 7002 7001 (lit "order-1") (Some bdemo_provider)].
Definition bdemo : billing_store := bdemo_run bdemo_setup bdemo_start.
(** The subscription's id, and a notice of the provider about it. *)
Definition bdemo_sub : uuid := 107003%N.
Definition bdemo_notice : ProviderEventNotice :=
  mkNotice FAKE (lit "evt_1") (lit "subscription.updated") None (Some (lit "fake_sub_" ++ [1%N])).
Definition bdemo_later : list billing_op :=
  [OpProject 2001 None (Some bdemo_sub) (Some 2); OpProviderEvent bdemo_notice (Some bdemo_provider);
   OpCancel bdemo_system 2001 bdemo_sub (Some bdemo_provider) AS_PAYER].

Lemma bdemo_start_ok : billing_ok bdemo_start.
Proof. split; intros; simpl in *; try done; by rewrite lookup_empty in *. Defined.
Lemma bdemo_ok : billing_ok bdemo.
Proof. apply (history_steps _ _ _ _ _ _ _ _ _ quiet_step). exact bdemo_start_ok. Defined.
Abbreviation bdemo_row := (mkSubscription 2001 7001 SUB_ACTIVE (lit "fake_sub_" ++ [1%N]) (Some 2001%N) (Some 7002%N) (Some 7000%N) (Some FAKE)
  VERIFIED 2 15000000 17000000).
Lemma bdemo_subscription : bdemo.(bl_subscriptions) !! bdemo_sub = Some bdemo_row.
Proof. vm_compute. reflexivity. Defined.

(** The subscription is bought, projected, reported by the provider and canceled. *)
Lemma billing_integrity_witness :
  billing_ok (bdemo_run bdemo_later bdemo) ∧ length (bdemo_run bdemo_later bdemo).(bl_calls) = 3%nat.
Proof.
  split; [|vm_compute; reflexivity]. apply (billing_integrity bdemo_uuid bdemo_clock quiet None bdemo_fingerprint default_idempotency_config
    bdemo_uuid5 bdemo_text (Some 2000%N) quiet_step bdemo_later bdemo). exact bdemo_ok.
Defined.
Lemma subscription_lifecycle_witness :
  ∃ s', (bdemo_run bdemo_later bdemo).(bl_subscriptions) !! bdemo_sub = Some s' ∧ status_follows SUB_ACTIVE s'.(sb_status) ∧ 2 ≤ s'.(sb_version).
Proof.
  edestruct (subscription_lifecycle bdemo_uuid bdemo_clock quiet None bdemo_fingerprint default_idempotency_config
    bdemo_uuid5 bdemo_text (Some 2000%N) quiet_step bdemo_later bdemo bdemo_sub bdemo_row) as (s' & Hs & _ & _ & Hst & _ & Hv & _);
    [exact bdemo_ok|exact bdemo_subscription|]. exists s'. split; [exact Hs|]. split; [exact Hst|exact Hv].
Defined.
Lemma no_double_billing_witness :
  let st := bdemo_run [OpCreate bdemo_system 2001 2001 7002 7001 (lit "order-2") (Some bdemo_provider)] bdemo in
  st.(bl_subscriptions) !! bdemo_sub = Some bdemo_row ∧ size st.(bl_subscriptions) = 1%nat ∧ bdemo_sub = bdemo_sub.
Proof.
  intros st. assert (st.(bl_subscriptions) !! bdemo_sub = Some bdemo_row) as Hs by (vm_compute; reflexivity).
  split; [exact Hs|]. split; [vm_compute; reflexivity|].
  apply (no_double_billing bdemo_uuid bdemo_clock quiet None bdemo_fingerprint default_idempotency_config bdemo_uuid5 bdemo_text (Some 2000%N)
    quiet_step [OpCreate bdemo_system 2001 2001 7002 7001 (lit "order-2") (Some bdemo_provider)] bdemo bdemo_sub bdemo_sub bdemo_row bdemo_row 7000%N).
  - exact bdemo_ok.
  - exact Hs.
  - exact Hs.
  - reflexivity.
  - reflexivity.
  - right. split; [reflexivity|]. split; reflexivity.
Defined.
Lemma verified_found_by_reference_witness : (verify_provider_reference quiet bdemo_sub bdemo_row bdemo).1 = Ok tt.
Proof.
  apply (verified_found_by_reference quiet quiet_step bdemo bdemo_sub bdemo_row); [exact bdemo_ok|exact bdemo_subscription|reflexivity].
Defined.
Abbreviation bdemo_snapshot := (mkSnapshot 2001 7002 2000 7000 bdemo_row).
Lemma projection_converges_witness : ∃ st', project_subscription bdemo_clock quiet 2001 bdemo_sub bdemo = (Ok true, st') ∧
  shows st'.(bl_seller) 2000 bdemo_sub 2001%N bdemo_snapshot.
Proof.
  edestruct (projection_converges bdemo_clock bdemo 2001 bdemo_sub bdemo_row bdemo_snapshot) as (st' & H & Hs & _);
    [exact bdemo_ok|exact bdemo_subscription|reflexivity|vm_compute; reflexivity|vm_compute; reflexivity|vm_compute; reflexivity|].
  exists st'. split; [exact H|exact Hs].
Defined.

(** ** Who pays and what it buys *)

Lemma billing_owner_nearest_witness :
  (resolve_billing_owner quiet 2001 bdemo).1 = Ok 2001%N ∧
  match (resolve_billing_owner quiet 2001 bdemo).1 with
  | Ok owner => ∃ n, hops bdemo.(bl_tenancy).(ts_tenants) n 2001 = Some owner ∧ inherits bdemo.(bl_tenancy).(ts_tenants) owner = false
  | Raise _ => False
  end.
Proof.
  assert (hwf hdemo_cfg bdemo.(bl_tenancy).(ts_tenants) bdemo.(bl_tenancy).(ts_ancestry)) as Hwf.
  { assert (bdemo.(bl_tenancy).(ts_tenants) = hdemo.(ts_tenants)) as -> by (vm_compute; reflexivity).
    assert (bdemo.(bl_tenancy).(ts_ancestry) = hdemo.(ts_ancestry)) as -> by (vm_compute; reflexivity). exact hdemo_hwf. }
  assert (is_Some (bdemo.(bl_tenancy).(ts_tenants) !! 2001%N)) as Hs by (eexists; vm_compute; reflexivity).
  pose proof (billing_owner_nearest hdemo_cfg bdemo 2001 Hwf Hs) as H.
  assert ((resolve_billing_owner quiet 2001 bdemo).1 = Ok 2001%N) as E by (vm_compute; reflexivity).
  split; [exact E|]. cbv zeta in H. rewrite E in H. rewrite E. destruct H as (n & Hn & Hi & _). exists n. split; [exact Hn|exact Hi].
Defined.
Lemma entitlements_exact_witness : ∃ b st2, has_entitlement quiet 2001 (lit "sso") bdemo = (Ok b, st2) ∧
  (b = true ↔ granted bdemo 2001 (lit "sso") (JBool true) ∧ ∀ q, ¬ granted bdemo 2001 (lit "sso") (JNum q)).
Proof.
  edestruct (entitlements_exact bdemo 2001 2001 (lit "sso")) as (e & b & st1 & st2 & _ & Hh & _ & _ & _ & Hb); [vm_compute; reflexivity|].
  exists b, st2. split; [exact Hh|exact Hb].
Defined.

(** ** Buying *)

(** The store before the purchase, with the permissions registered. *)
Definition bdemo_register (k : string * string) (st : billing_store) : billing_store := (register_billing_permission bdemo_uuid k.1 k.2 st).2.
Definition bdemo_before : billing_store :=
  foldr bdemo_register (bdemo_run (take 3 bdemo_setup) bdemo_start)
    [(BILLING_ACCOUNT, "charge"%string); (BILLING_SUBSCRIPTION, "create"%string); (BILLING_SUBSCRIPTION, "change"%string); (BILLING_CATALOG, "read"%string)].
Definition bdemo_plan : Plan := default (mkPlan [] [] None ∅ None None PUBLIC false false) (bdemo_before.(bl_plans) !! 7001%N).
Definition bdemo_system_caller : AuthorizedBillingCaller := mkAuthorized (SystemCaller BILLING_OPERATIONS) None.
Definition bdemo_acme_eu : Tenant := mkTenant (lit "acme-eu") PENDING (Some 2000%N) false.

Lemma eligibility_exact_witness :
  (evaluate_plan_eligibility bdemo_uuid bdemo_clock bdemo_system 2001 7001 bdemo_plan (Some 7000%N) bdemo_before).1 = Ok ELIGIBLE ∧
  ∃ r, evaluate_plan_eligibility bdemo_uuid bdemo_clock bdemo_system 2001 7001 bdemo_plan (Some 7000%N) bdemo_before = (Ok r, bdemo_before) ∧
    (r = ELIGIBLE ↔ eligible bdemo_clock bdemo_before (SystemCaller BILLING_OPERATIONS) 2001 7001 bdemo_plan (Some 7000%N)).
Proof.
  split; [vm_compute; reflexivity|].
  apply (eligibility_exact bdemo_uuid bdemo_clock bdemo_system bdemo_system_caller bdemo_before 2001 7001 bdemo_plan (Some 7000%N) bdemo_acme_eu);
    [reflexivity|vm_compute; reflexivity|eexists; vm_compute; reflexivity|eexists; vm_compute; reflexivity].
Defined.

Definition bdemo_creation : creation :=
  mkCreation bdemo_system 2001 2001 7002 7001 (lit "order-1") (Some bdemo_provider) CREATE_OPERATION false.
Lemma charge_needs_leave_witness : ∃ account, chargeable bdemo_clock (after_gap quiet bdemo_before) (SystemCaller BILLING_OPERATIONS) bdemo_creation account.
Proof.
  set (st' := (insert_pending_session bdemo_uuid bdemo_clock quiet bdemo_creation bdemo_sub 7000 (lit "ref") bdemo_before).2).
  edestruct (charge_needs_leave bdemo_uuid bdemo_clock quiet bdemo_creation bdemo_system_caller bdemo_sub 7000 (lit "ref") bdemo_before st')
    as (account & s & Hch & _).
  - reflexivity.
  - split; [eexists; vm_compute; reflexivity|]. split; [eexists; vm_compute; reflexivity|]. split; eexists; vm_compute; reflexivity.
  - assert ((insert_pending_session bdemo_uuid bdemo_clock quiet bdemo_creation bdemo_sub 7000 (lit "ref") bdemo_before).1 = Ok tt) as E
      by (vm_compute; reflexivity).
    rewrite <-E. apply surjective_pairing.
  - exists account. exact Hch.
Defined.

(** ** The inbox *)

(** An event of long ago is in the ledger, and pruned between the transactions of a
    delivery; the event of the delivery is settled, and delivered again. *)
Definition bdemo_pruning (n : nat) (st : billing_store) : billing_store :=
  (prune_provider_events quiet PROVIDER_EVENT_RETENTION PROVIDER_EVENT_RETENTION 1000 st).2.
Definition bdemo_old : billing_store :=
  set_events (<[(FAKE, lit "evt_0") := mkEvent EV_PROCESSED (Some EO_UNCHANGED) 1 (-1000000)]> bdemo.(bl_events)) bdemo.
Abbreviation bdemo_deliver := (process_provider_event bdemo_uuid bdemo_clock bdemo_pruning None (Some 2000%N) bdemo_notice (Some bdemo_provider)).
Lemma bdemo_pruning_ledger n st : ledger_le 0 st (bdemo_pruning n st).
Proof. apply (prune_ledger quiet); [intros m s; exact (reflexivity s)|done]. Qed.
Lemma provider_event_settled_witness :
  let st := (bdemo_deliver bdemo_old).2 in
  st.(bl_events) !! (FAKE, lit "evt_0") = None ∧
  bdemo_deliver st = (Ok (mkEventResult EV_PROCESSED None true), after_gap bdemo_pruning (after_gap bdemo_pruning st)).
Proof.
  intros st. split; [vm_compute; reflexivity|]. set (p := bdemo_deliver st).
  destruct (provider_event_settled bdemo_uuid bdemo_clock bdemo_pruning None (Some 2000%N) 0 ltac:(intros n; unfold bdemo_clock; lia) bdemo_pruning_ledger
    bdemo_notice bdemo_notice (Some bdemo_provider) st p.1 p.2) as (_ & _ & Hdup & _).
  - vm_compute. reflexivity.
  - apply surjective_pairing.
  - destruct (Hdup (mkEvent EV_PROCESSED (Some EO_UNCHANGED) 1 21000000)) as [E1 E2]; [vm_compute; reflexivity|done|reflexivity|].
    clearbody p. rewrite (surjective_pairing p), E1, E2. reflexivity.
Defined.
