(* ===== verification/Egress.v ===== *)
(** * Outbound HTTP: addresses, policy, proxy
    (saas_os/infra/egress: addresses.py, errors.py, deadline.py, policy.py,
    compat.py, proxy.py)

    Which addresses may be connected to, how a URL is pinned to one, what a
    policy and a proxy setting must be, and the [CONNECT] exchange with the
    proxy.  Times are microseconds of the monotonic clock.  [lower] and [nfkc]
    are [str.lower] and the NFKC normalization of texts. *)

From S2P Require Import Prelude PyStr PyText PyIp PyUrl PlatformAuthority PlatformService.

(** ** addresses.py *)

Definition NAT64_WELL_KNOWN_PREFIX : IPNetwork := v6 [0x64; 0xff9b] 96.

Definition embedded_ipv4_addresses (address : IPAddress) : list IPAddress :=
  match address with
  | IPv4Address _ => []
  | IPv6Address ip _ =>
      option_list (ipv4_mapped address) ++
      (if in_network address NAT64_WELL_KNOWN_PREFIX then [IPv4Address (Z.land ip 0xffffffff)] else []) ++
      option_list (sixtofour address)
  end.

(** The conditions on the address itself. *)
Definition non_public_itself (address : IPAddress) : bool :=
  negb (is_global address) || is_private address || is_loopback address || is_link_local address ||
  is_unspecified address || is_reserved address || is_multicast address ||
  match address with IPv6Address _ _ => is_site_local address | IPv4Address _ => false end.

(** The recursion goes from an IPv6 address to IPv4 ones, which embed none. *)
Fixpoint non_public (depth : nat) (address : IPAddress) : bool :=
  non_public_itself address ||
  match depth with
  | O => false
  | S depth => existsb (non_public depth) (embedded_ipv4_addresses address)
  end.
Definition is_non_public_address (address : IPAddress) : bool := non_public 1 address.

Definition NEVER_TRUSTABLE_NETWORKS : list IPNetwork :=
  [v4 0 0 0 0 8; v4 127 0 0 0 8; v4 169 254 0 0 16; v4 100 100 100 200 32; v4 224 0 0 0 4; v4 240 0 0 0 4;
   v6 [] 128; v6 [0; 0; 0; 0; 0; 0; 0; 1] 128; v6 [0xfe80] 10; v6 [0xff00] 8; v6 [0xfd00; 0xec2; 0; 0; 0; 0; 0; 0x254] 128].

Definition is_never_trustable (address : IPAddress) : bool :=
  existsb (λ candidate,
    is_loopback candidate || is_link_local candidate || is_multicast candidate ||
    is_unspecified candidate || is_reserved candidate || within NEVER_TRUSTABLE_NETWORKS candidate)
    (address :: embedded_ipv4_addresses address).

Definition format_address_for_url (address : IPAddress) : pystr :=
  if version address =? 6 then lit "[" ++ str_address address ++ lit "]" else str_address address.

(** ** errors.py *)

Inductive egress_error : Type :=
| EgressConfigurationError (reason : string)
| EgressDestinationError (reason : string)
| EgressProxyRefusedError
| EgressProxyUnavailableError
| EgressResolutionError
| EgressConnectError
| EgressTLSError
| EgressTimeoutError (reason phase : string) (request_may_have_been_sent : bool)
| EgressRedirectError (status_code : Z)
| EgressResponseTooLargeError
| EgressProtocolError (reason phase : string) (request_may_have_been_sent : bool).

Definition reason (e : egress_error) : string :=
  match e with
  | EgressConfigurationError r | EgressDestinationError r | EgressTimeoutError r _ _ | EgressProtocolError r _ _ => r
  | EgressProxyRefusedError => "proxy_refused"
  | EgressProxyUnavailableError => "proxy_unavailable"
  | EgressResolutionError => "unresolved"
  | EgressConnectError => "connect_failed"
  | EgressTLSError => "tls_failed"
  | EgressRedirectError _ => "redirect_rejected"
  | EgressResponseTooLargeError => "response_too_large"
  end.
Definition phase (e : egress_error) : string :=
  match e with
  | EgressConfigurationError _ => "configuration"
  | EgressDestinationError _ | EgressProxyRefusedError => "destination"
  | EgressProxyUnavailableError | EgressConnectError | EgressTLSError => "connect"
  | EgressResolutionError => "resolve"
  | EgressTimeoutError _ p _ | EgressProtocolError _ p _ => p
  | EgressRedirectError _ | EgressResponseTooLargeError => "response"
  end.
Definition request_may_have_been_sent (e : egress_error) : bool :=
  match e with
  | EgressTimeoutError _ _ sent | EgressProtocolError _ _ sent => sent
  | EgressRedirectError _ | EgressResponseTooLargeError => true
  | _ => false
  end.

(** ** deadline.py *)

Record Deadline : Type := mkDeadline { expires_at : Z }.
(** [None] is [ValueError]. *)
Definition deadline_after (monotonic seconds : Z) : option Deadline :=
  if 0 <? seconds then Some (mkDeadline (monotonic + seconds)) else None.
Definition remaining (d : Deadline) (monotonic : Z) : Z := Z.max 0 (d.(expires_at) - monotonic).
Definition expired (d : Deadline) (monotonic : Z) : bool := remaining d monotonic <=? 0.

(** ** compat.py *)

Definition version_triple : Type := Z * Z * Z.
Definition SUPPORTED_HTTPX : version_triple * version_triple := ((0, 28, 1), (0, 29, 0)).
Definition SUPPORTED_HTTPCORE : version_triple * version_triple := ((1, 0, 9), (1, 1, 0)).

(** The numbers of the leading pieces that have digits. *)
Fixpoint version_parts (pieces : list pystr) : list Z :=
  match pieces with
  | [] => []
  | piece :: pieces =>
      let digits := filter (λ c, is_digit c = true) piece in
      if bool_decide (digits = []) then [] else default 0 (parse_digits digits) :: version_parts pieces
  end.
Definition version_tuple (version : pystr) : version_triple :=
  let parts := version_parts (take 3 (split_on 46 version)) in
  (default 0 (parts !! 0%nat), default 0 (parts !! 1%nat), default 0 (parts !! 2%nat)).
Definition triple_lt (a b : version_triple) : bool :=
  let '(a1, a2, a3) := a in let '(b1, b2, b3) := b in
  (a1 <? b1) || ((a1 =? b1) && ((a2 <? b2) || ((a2 =? b2) && (a3 <? b3)))).
Definition version_within (version : pystr) (bounds : version_triple * version_triple) : bool :=
  negb (triple_lt (version_tuple version) bounds.1) && triple_lt (version_tuple version) bounds.2.
Definition require_supported_http_stack (httpx httpcore : pystr) : result egress_error unit :=
  if negb (version_within httpx SUPPORTED_HTTPX) then Raise (EgressConfigurationError "unsupported_httpx_version")
  else if negb (version_within httpcore SUPPORTED_HTTPCORE) then Raise (EgressConfigurationError "unsupported_httpcore_version")
  else Ok tt.

(** ** policy.py *)

Definition DEFAULT_ALLOWED_PORTS : list Z := [443].

Record TrustedEndpoint : Type := mkTrusted {
  te_host : pystr;
  te_port : Z;
  te_networks : list IPNetwork;
}.
Record StrictEgressPolicy : Type := mkPolicy {
  connect_timeout_seconds : Z;
  read_timeout_seconds : Z;
  max_response_bytes : Z;
  allowed_ports : list Z;
  max_addresses_tried : Z;
  trusted_endpoints : list TrustedEndpoint;
}.

(** [TrustedEndpoint.__post_init__] *)
Definition trusted_endpoint (lower : pystr → pystr) (e : TrustedEndpoint) : result egress_error TrustedEndpoint :=
  if bool_decide (e.(te_host) = []) || negb (bool_decide (e.(te_host) = lower e.(te_host))) || negb (ascii_only e.(te_host))
  then Raise (EgressConfigurationError "invalid_trusted_host")
  else if negb ((0 <? e.(te_port)) && (e.(te_port) <? 65536)) || bool_decide (e.(te_networks) = [])
  then Raise (EgressConfigurationError "invalid_trusted_endpoint")
  else if existsb (λ network, existsb (λ blocked, (blocked.(nt_version) =? network.(nt_version)) && overlaps network blocked)
                    NEVER_TRUSTABLE_NETWORKS) e.(te_networks)
  then Raise (EgressConfigurationError "network_never_trustable")
  else Ok e.

(** [StrictEgressPolicy.__post_init__] *)
Definition strict_egress_policy (p : StrictEgressPolicy) : result egress_error StrictEgressPolicy :=
  if negb (0 <? p.(connect_timeout_seconds)) || negb (0 <? p.(read_timeout_seconds))
  then Raise (EgressConfigurationError "timeouts_must_be_positive")
  else if p.(max_response_bytes) <=? 0 then Raise (EgressConfigurationError "max_response_bytes_must_be_positive")
  else if bool_decide (p.(allowed_ports) = []) || existsb (λ port, negb ((0 <? port) && (port <? 65536))) p.(allowed_ports)
  then Raise (EgressConfigurationError "invalid_allowed_ports")
  else if p.(max_addresses_tried) <? 1 then Raise (EgressConfigurationError "max_addresses_tried_must_be_positive")
  else Ok p.

Section Urls.
Context (lower nfkc : pystr → pystr).

(** [pin_url_to_address]: the rewritten URL, the TLS name and the [Host] header;
    [None] is [ValueError]. *)
Definition pin_url_to_address (url : pystr) (address : IPAddress) : option (pystr * pystr * pystr) :=
  match urlsplit nfkc url with
  | None => None
  | Some parsed =>
      match hostname lower parsed, port parsed with
      | Some hostname, Ok port =>
          let suffix := match port with Some n => lit ":" ++ str_int n | None => [] end in
          Some (urlunsplit (with_netloc parsed (format_address_for_url address ++ suffix)), hostname, hostname ++ suffix)
      | _, _ => None
      end
  end.

(** ** proxy.py *)

Record EgressProxy : Type := mkProxy { px_host : pystr; px_port : Z }.

Definition parse_egress_proxy_url (value : pystr) : result egress_error EgressProxy :=
  let invalid := Raise (EgressConfigurationError "invalid_egress_proxy_url") in
  match urlsplit nfkc (strip value) with
  | None => invalid
  | Some parts =>
      match port parts, hostname lower parts with
      | Ok (Some n), Some host =>
          if bool_decide (parts.(scheme) = lit "http") && negb (has_userinfo parts) &&
             bool_decide (parts.(path) ∈ [[]; lit "/"]) && bool_decide (parts.(query) = []) && bool_decide (parts.(fragment) = [])
          then Ok (mkProxy host n) else invalid
      | _, _ => invalid
      end
  end.

(** [get_egress_proxy], from the value of [EGRESS_PROXY_URL]. *)
Definition get_egress_proxy (environment : option pystr) : result egress_error (option EgressProxy) :=
  let value := strip (default [] environment) in
  if bool_decide (value = []) then Ok None
  else match parse_egress_proxy_url value with Ok p => Ok (Some p) | Raise e => Raise e end.
End Urls.

(** [_connect_target] *)
Definition connect_target (host : pystr) (port : Z) : result egress_error pystr :=
  match ip_address host with
  | None => Raise (EgressConfigurationError "proxy_target_not_an_address")
  | Some address =>
      Ok ((if version address =? 6 then lit "[" ++ str_address address ++ lit "]" else str_address address) ++ lit ":" ++ str_int port)
  end.

Definition MAX_CONNECT_RESPONSE_BYTES : nat := 8192.
Definition CRLF2 : pystr := [13; 10; 13; 10]%N.

(** The texts around the first occurrence of [sep] ([bytes.partition]). *)
Fixpoint cut (sep s : pystr) : option (pystr * pystr) :=
  if startswith sep s then Some ([], drop (length sep) s)
  else match s with
       | [] => None
       | c :: s' => (λ p : pystr * pystr, (c :: p.1, p.2)) <$> cut sep s'
       end.

(** The status of an answer read up to its blank line; [None] is [ValueError]. *)
Definition connect_status (received : pystr) : option Z :=
  match cut CRLF2 received with
  | None => None
  | Some (head, rest) =>
      let line := match cut [13; 10]%N head with Some (l, _) => l | None => head end in
      match split_on 32 line with
      | protocol :: code :: _ =>
          if startswith (lit "HTTP/1.") protocol && ascii_digits code then
            match parse_digits code with
            | Some status => if (200 <=? status) && (status <=? 299) && negb (bool_decide (rest = [])) then None else Some status
            | None => None
            end
          else None
      | _ => None
      end
  end.

(** [_read_connect_status]: the reads of the stream; one that is empty is the
    end of the connection, [None] an error of the network. *)
Fixpoint read_connect_status (received : pystr) (reads : list (option pystr)) : option Z :=
  match cut CRLF2 received with
  | Some _ => connect_status received
  | None =>
      match reads with
      | Some chunk :: reads =>
          if bool_decide (chunk = []) then None
          else if bool_decide (MAX_CONNECT_RESPONSE_BYTES < length (received ++ chunk))%nat then None
          else read_connect_status (received ++ chunk) reads
      | _ => None
      end
  end.

(** What the network does with one tunnel: the connection to the proxy, the
    write, and the reads of its answer. *)
Record tunnel_behaviour : Type := mkTunnel {
  tb_connects : bool;
  tb_writes : bool;
  tb_reads : list (option pystr);
}.
(** What reaches the network, in order. *)
Inductive wire : Type :=
| Connected (host : pystr) (port : Z)
| Wrote (data : pystr).

(** [ProxyTunnelBackend.connect_tcp] *)
Definition connect_tcp (proxy : EgressProxy) (b : tunnel_behaviour) (host : pystr) (port : Z) : result egress_error unit * list wire :=
  match connect_target host port with
  | Raise e => (Raise e, [])
  | Ok target =>
      if negb b.(tb_connects) then (Raise EgressProxyUnavailableError, [])
      else
        let opened := Connected proxy.(px_host) proxy.(px_port) in
        if negb b.(tb_writes) then (Raise EgressProxyUnavailableError, [opened])
        else
          let sent := Wrote (lit "CONNECT " ++ target ++ lit " HTTP/1.1" ++ [13; 10]%N ++ lit "Host: " ++ target ++ CRLF2) in
          match read_connect_status [] b.(tb_reads) with
          | Some status =>
              if (200 <=? status) && (status <=? 299) then (Ok tt, [opened; sent])
              else if status =? 403 then (Raise EgressProxyRefusedError, [opened; sent])
              else (Raise EgressProxyUnavailableError, [opened; sent])
          | None => (Raise EgressProxyUnavailableError, [opened; sent])
          end
  end.

Example proxied :
  let b := mkTunnel true true [Some (lit "HTTP/1.1 200 OK" ++ CRLF2)] in
  (connect_tcp (mkProxy (lit "proxy") 3128) b (lit "93.184.216.34") 443).1 = Ok tt ∧
  (connect_tcp (mkProxy (lit "proxy") 3128) b (lit "example.com") 443).1 = Raise (EgressConfigurationError "proxy_target_not_an_address") ∧
  is_non_public_address (IPv4Address 1684301000) = true ∧ (* 100.100.100.200 *)
  version_within (lit "0.28.1") SUPPORTED_HTTPX = true ∧
  parse_egress_proxy_url ascii_lower id (lit "http://egress:3128") = Ok (mkProxy (lit "egress") 3128).
Proof. vm_compute. repeat split; reflexivity. Qed.
