(* ===== verification/EgressClient.v ===== *)
(** * The strict egress client (saas_os/infra/egress/client.py)

    One request: the URL is validated, its host resolved and every answer judged,
    the validated addresses are tried in order, each by a request pinned to it.
    The world the client acts on is a parameter: [clock n] is the [n]-th reading
    of the monotonic clock, [resolver] answers for the one resolution,
    [transport n] for the [n]-th request.  The store records what was sent. *)

From S2P Require Import Prelude PyStr PyText PyIp PyUrl PlatformAuthority PlatformService Egress.

Definition MAX_URL_LENGTH : nat := 2048.
Definition MAX_HOSTNAME_LENGTH : nat := 253.
Definition FORBIDDEN_CALLER_HEADERS : list pystr := lit <$> ["host"; "content-length"; "transfer-encoding"]%string.

Inductive Method : Type := GET | POST.

Record EgressResponse : Type := mkResponse {
  status_code : Z;
  response_headers : list (pystr * pystr);
  body : pystr;
}.

(** [default_resolver], from the addresses [getaddrinfo] returns; [None] is
    [OSError]. *)
Definition default_resolver (infos : option (list pystr)) : result egress_error (list pystr) :=
  match infos with
  | None => Raise EgressResolutionError
  | Some addresses => Ok (fromkeys addresses)
  end.

(** ** The world *)

(** A failure of the HTTP library; [DeadlineCancelled] is the cancellation of
    the total deadline, [TransportError] an error of the proxy transport. *)
Inductive http_failure : Type :=
| ConnectTimeout
| PoolTimeout
| ConnectError (ssl_cause : bool)
| WriteTimeout
| ReadTimeout
| OtherHTTPError
| TransportError (e : egress_error)
| DeadlineCancelled.

(** A response: its status, its headers, and its body as chunks, which a failure
    may cut short. *)
Inductive http_result : Type :=
| Failed (f : http_failure)
| Responded (status : Z) (headers : list (pystr * pystr)) (chunks : list pystr) (cut_short : option http_failure).

Inductive resolution : Type :=
| Resolved (answers : list pystr)
| ResolutionFailed
| ResolutionCancelled.

Record Request : Type := mkRequest {
  rq_method : Method;
  rq_url : pystr;
  rq_content : option pystr;
  rq_headers : list (pystr * pystr);
  rq_sni_hostname : option pystr;
  rq_connect_timeout : Z;
  rq_read_timeout : Z;
}.

(** The store: clock readings so far, and the requests, latest first. *)
Record net : Type := mkNet { ticks : nat; requests : list Request }.

(** [TimeoutError] is what [asyncio.timeout] raises. *)
Inductive client_exn : Type :=
| Egress (e : egress_error)
| TimeoutError.

Abbreviation CM := (M net client_exn).

(** A dict with string keys, in insertion order. *)
Definition dict_set (k v : pystr) (d : list (pystr * pystr)) : list (pystr * pystr) :=
  if bool_decide (k ∈ d.*1) then (λ p : pystr * pystr, if bool_decide (p.1 = k) then (k, v) else p) <$> d else d ++ [(k, v)].
(** A header by its name, in lower case; the first of several. *)
Definition header (lower : pystr → pystr) (name : pystr) (hs : list (pystr * pystr)) : option pystr :=
  snd <$> find (λ p : pystr * pystr, bool_decide (lower p.1 = name)) hs.

Record Destination : Type := mkDestination {
  d_url : pystr;
  d_hostname : pystr;
  d_port : Z;
  d_literal : option IPAddress;
}.

Section Client.
Context (lower nfkc : pystr → pystr) (policy : StrictEgressPolicy).

(** ** Validation *)

(** [_validate_url] *)
Definition validate_url (url : pystr) : result egress_error Destination :=
  if bool_decide (url = []) || bool_decide (MAX_URL_LENGTH < length url)%nat || negb (ascii_only url)
  then Raise (EgressDestinationError "invalid_url")
  else match urlsplit nfkc url with
  | None => Raise (EgressDestinationError "invalid_url")
  | Some parts =>
      match PyUrl.port parts with
      | Raise _ => Raise (EgressDestinationError "invalid_url")
      | Ok port =>
          if negb (bool_decide (parts.(scheme) = lit "https")) then Raise (EgressDestinationError "scheme_not_allowed")
          else if has_userinfo parts then Raise (EgressDestinationError "userinfo_not_allowed")
          else match hostname lower parts with
          | None => Raise (EgressDestinationError "invalid_url")
          | Some host =>
              if bool_decide (MAX_HOSTNAME_LENGTH < length host)%nat then Raise (EgressDestinationError "invalid_url")
              else
                let effective_port := default 443 port in
                if negb (bool_decide (effective_port ∈ policy.(allowed_ports))) then Raise (EgressDestinationError "port_not_allowed")
                else
                  let literal := ip_address host in
                  if match literal with Some a => is_non_public_address a | None => false end
                  then Raise (EgressDestinationError "non_public_address")
                  else Ok (mkDestination (urlunsplit (mkSplit parts.(scheme) parts.(netloc) parts.(path) parts.(query) []))
                             host effective_port literal)
          end
      end
  end.

(** [_trusted]: the first entry for the host and port decides. *)
Definition trusted (d : Destination) (address : IPAddress) : bool :=
  if is_never_trustable address then false
  else match find (λ e, bool_decide (e.(te_host) = lower d.(d_hostname)) && (e.(te_port) =? d.(d_port))) policy.(trusted_endpoints) with
       | Some entry => within entry.(te_networks) address
       | None => false
       end.

(** The loop of [_validated_addresses]. *)
Fixpoint validate_answers (d : Destination) (validated : list IPAddress) (raw : list pystr) : result egress_error (list IPAddress) :=
  match raw with
  | [] => Ok validated
  | item :: raw =>
      match ip_address (partition 37 item).1.1 with
      | None => Raise (EgressDestinationError "invalid_resolved_address")
      | Some address =>
          if is_non_public_address address && negb (trusted d address) then Raise (EgressDestinationError "non_public_address")
          else validate_answers d (if bool_decide (address ∈ validated) then validated else validated ++ [address]) raw
      end
  end.

Section Exchange.
Context (clock : nat → Z) (resolver : pystr → Z → resolution) (transport : nat → Request → http_result).

Definition monotonic : CM Z := λ s, (Ok (clock s.(ticks)), mkNet (S s.(ticks)) s.(requests)).

Definition validated_addresses (d : Destination) : CM (list IPAddress) :=
  match d.(d_literal) with
  | Some address => ret [address]
  | None =>
      match resolver d.(d_hostname) d.(d_port) with
      | ResolutionCancelled => throw TimeoutError
      | ResolutionFailed => throw (Egress EgressResolutionError)
      | Resolved [] => throw (Egress EgressResolutionError)
      | Resolved raw =>
          match validate_answers d [] raw with
          | Ok addresses => ret addresses
          | Raise e => throw (Egress e)
          end
      end
  end.

(** ** Exchange *)

(** The [except] clauses. *)
Definition classify (f : http_failure) : client_exn :=
  match f with
  | ConnectTimeout | PoolTimeout => Egress (EgressTimeoutError "connect_timeout" "connect" false)
  | ConnectError ssl_cause => Egress (if ssl_cause then EgressTLSError else EgressConnectError)
  | WriteTimeout => Egress (EgressTimeoutError "write_timeout" "write" true)
  | ReadTimeout => Egress (EgressTimeoutError "read_timeout" "read" true)
  | OtherHTTPError => Egress (EgressProtocolError "exchange_failed" "exchange" true)
  | TransportError e => Egress e
  | DeadlineCancelled => TimeoutError
  end.

(** The loop over [aiter_bytes]. *)
Fixpoint read_body (limit : Z) (sofar : pystr) (chunks : list pystr) (cut_short : option http_failure) : result client_exn pystr :=
  match chunks with
  | [] => match cut_short with Some f => Raise (classify f) | None => Ok sofar end
  | chunk :: chunks =>
      let sofar := sofar ++ chunk in
      if limit <? Z.of_nat (length sofar) then Raise (Egress EgressResponseTooLargeError)
      else read_body limit sofar chunks cut_short
  end.

(** [declared is not None and declared.isdigit() and int(declared) > limit] *)
Definition declared_too_large (limit : Z) (headers : list (pystr * pystr)) : bool :=
  match header lower (lit "content-length") headers with
  | Some declared => match parse_digits declared with
                     | Some n => ascii_digits declared && (limit <? n)
                     | None => false
                     end
  | None => false
  end.

Definition read_response (r : http_result) : result client_exn EgressResponse :=
  match r with
  | Failed f => Raise (classify f)
  | Responded status headers chunks cut_short =>
      let limit := policy.(max_response_bytes) in
      if (300 <=? status) && (status <? 400) then Raise (Egress (EgressRedirectError status))
      else
        let encoding := lower (strip (default (lit "identity") (header lower (lit "content-encoding") headers))) in
        if negb (bool_decide (encoding ∈ [[]; lit "identity"]))
        then Raise (Egress (EgressProtocolError "unexpected_content_encoding" "response" true))
        else if declared_too_large limit headers
        then Raise (Egress EgressResponseTooLargeError)
        else let* body := read_body limit [] chunks cut_short in
             Ok (mkResponse status ((λ p : pystr * pystr, (lower p.1, p.2)) <$> headers) body)
  end.

(** [_exchange]; a URL that cannot be pinned raises [ValueError], which a
    validated URL does not. *)
Definition exchange (method : Method) (d : Destination) (address : IPAddress) (headers : list (pystr * pystr))
    (content : option pystr) (deadline : Deadline) : CM EgressResponse :=
  match pin_url_to_address lower nfkc d.(d_url) address with
  | None => throw (Egress (EgressDestinationError "invalid_url"))
  | Some (pinned_url, sni_hostname, host_header) =>
      do* t := monotonic in
      let left := Z.max (remaining deadline t) 1000 in
      let rq := mkRequest method pinned_url content
                  (dict_set (lit "Accept-Encoding") (lit "identity") (dict_set (lit "Host") host_header headers))
                  (match d.(d_literal) with None => Some sni_hostname | Some _ => None end)
                  (Z.min policy.(connect_timeout_seconds) left) (Z.min policy.(read_timeout_seconds) left) in
      λ s, (read_response (transport (length s.(requests)) rq), mkNet s.(ticks) (rq :: s.(requests)))
  end.

(** The loop of [_try_addresses]: the next address after a failure that sent
    nothing. *)
Fixpoint try_addresses (method : Method) (d : Destination) (addresses : list IPAddress) (headers : list (pystr * pystr))
    (content : option pystr) (deadline : Deadline) (last_error : egress_error) : CM EgressResponse :=
  match addresses with
  | [] => throw (Egress last_error)
  | address :: addresses =>
      do* t := monotonic in
      if expired deadline t then throw (Egress last_error)
      else
        λ s, match exchange method d address headers content deadline s with
             | (Raise (Egress (EgressConnectError as e)), s') =>
                 try_addresses method d addresses headers content deadline e s'
             | (Raise (Egress (EgressTimeoutError _ _ false as e)), s') =>
                 try_addresses method d addresses headers content deadline e s'
             | other => other
             end
  end.

(** [_request] *)
Definition request (method : Method) (url : pystr) (headers : list (pystr * pystr)) (content : option pystr)
    (deadline : Deadline) : CM EgressResponse :=
  match validate_url url with
  | Raise e => throw (Egress e)
  | Ok d =>
      if existsb (λ p : pystr * pystr, bool_decide (lower p.1 ∈ FORBIDDEN_CALLER_HEADERS)) headers
      then throw (Egress (EgressDestinationError "forbidden_header"))
      else
        do* t := monotonic in
        if expired deadline t then throw (Egress (EgressTimeoutError "deadline_expired" "total" false))
        else
          do* _ := monotonic in
          λ s, match validated_addresses d s with
               | (Raise TimeoutError, s') => (Raise (Egress (EgressTimeoutError "deadline_expired" "total" false)), s')
               | (Raise e, s') => (Raise e, s')
               | (Ok addresses, s') =>
                   match try_addresses method d (take (Z.to_nat policy.(max_addresses_tried)) addresses) headers content deadline
                           EgressConnectError s' with
                   | (Raise TimeoutError, s'') => (Raise (Egress (EgressTimeoutError "deadline_expired" "total" true)), s'')
                   | other => other
                   end
               end
  end.

Definition post (url : pystr) (headers : list (pystr * pystr)) (content : pystr) (deadline : Deadline) : CM EgressResponse :=
  request POST url headers (Some content) deadline.
Definition get (url : pystr) (headers : list (pystr * pystr)) (deadline : Deadline) : CM EgressResponse :=
  request GET url headers None deadline.
End Exchange.
End Client.

(** [StrictEgressClient.__init__]: the configurations it refuses. *)
Definition strict_egress_client (httpx httpcore : pystr) (proxy : option EgressProxy) (custom_transport : bool)
    (check_hostname verify_required : bool) : result egress_error unit :=
  let* _ := require_supported_http_stack httpx httpcore in
  if bool_decide (is_Some proxy) && custom_transport then Raise (EgressConfigurationError "proxy_with_custom_transport")
  else if negb check_hostname || negb verify_required then Raise (EgressConfigurationError "tls_verification_disabled")
  else Ok tt.
