(* ===== verification/EgressProofs.v ===== *)
(** * Which addresses are public

    The exact set of addresses [is_non_public_address] lets through, against a
    reference written from the IANA registries; and that none of them is one no
    trust entry may reach.  The functions compared are constant between the
    bounds of finitely many intervals ([piecewise]), so agreement at the bounds,
    which is computed, is agreement everywhere. *)

From S2P Require Import Prelude PyStr PyText PyIp PyUrl PlatformAuthority PlatformService Egress.

(** ** The reference *)

Definition quad (a b c d : Z) : Z := ((a * 256 + b) * 256 + c) * 256 + d.
Definition in_range (ip : Z) (r : Z * Z) : bool := (r.1 <=? ip) && (ip <=? r.2).

(** IPv4 blocks that are not globally reachable, or are multicast or reserved. *)
Definition special4 : list (Z * Z) :=
  [(quad 0 0 0 0, quad 0 255 255 255); (quad 10 0 0 0, quad 10 255 255 255); (quad 100 64 0 0, quad 100 127 255 255);
   (quad 127 0 0 0, quad 127 255 255 255); (quad 169 254 0 0, quad 169 254 255 255); (quad 172 16 0 0, quad 172 31 255 255);
   (quad 192 0 0 0, quad 192 0 0 8); (quad 192 0 0 11, quad 192 0 0 255); (quad 192 0 2 0, quad 192 0 2 255);
   (quad 192 168 0 0, quad 192 168 255 255); (quad 198 18 0 0, quad 198 19 255 255); (quad 198 51 100 0, quad 198 51 100 255);
   (quad 203 0 113 0, quad 203 0 113 255); (quad 224 0 0 0, quad 255 255 255 255)].

(** IPv6 addresses are allocated from 2000::/3; within it, the protocol
    assignments of 2001::/23 (with the parts of it that are reachable),
    documentation, 6to4. *)
Definition hextet (i : Z) : Z := 2 ^ (16 * i).
Definition global6 : Z * Z := (0x2000 * hextet 7, 0x4000 * hextet 7 - 1).
Definition special6 : list (Z * Z) :=
  [(0x2001 * hextet 7, 0x20010200 * hextet 6 - 1); (0x20010db8 * hextet 6, 0x20010db9 * hextet 6 - 1);
   (0x2002 * hextet 7, 0x2003 * hextet 7 - 1); (0x3fff * hextet 7, 0x3fff1000 * hextet 6 - 1)].
Definition reachable6 : list (Z * Z) :=
  [(0x20010001 * hextet 6 + 1, 0x20010001 * hextet 6 + 2); (0x20010003 * hextet 6, 0x20010004 * hextet 6 - 1);
   (0x200100040112 * hextet 5, 0x200100040113 * hextet 5 - 1); (0x20010020 * hextet 6, 0x20010040 * hextet 6 - 1)].

Definition public4 (ip : Z) : bool := negb (existsb (in_range ip) special4).
Definition public6 (ip : Z) : bool :=
  in_range ip global6 && (negb (existsb (in_range ip) special6) || existsb (in_range ip) reachable6).
(** An IPv4-mapped address is the IPv4 address. *)
Definition globally_routable (a : IPAddress) : bool :=
  match a with
  | IPv4Address ip => public4 ip
  | IPv6Address ip _ =>
      if in_range ip (0xffff00000000, 0xffffffffffff) then public4 (ip - 0xffff00000000) else public6 ip
  end.

(** ** Functions that are constant between bounds *)

Definition piecewise {A : Type} (bounds : list Z) (f : Z → A) : Prop :=
  ∀ x y, (∀ b, b ∈ bounds → b ≤ x ↔ b ≤ y) → f x = f y.

Lemma piecewise_const {A} bs (a : A) : piecewise bs (λ _, a).
Proof. by intros x y _. Qed.
Lemma piecewise_op {A B C} (op : A → B → C) bs f g : piecewise bs f → piecewise bs g → piecewise bs (λ x, op (f x) (g x)).
Proof. intros Hf Hg x y H. by rewrite (Hf x y H), (Hg x y H). Qed.
Lemma piecewise_negb bs f : piecewise bs f → piecewise bs (λ x, negb (f x)).
Proof. intros Hf x y H. by rewrite (Hf x y H). Qed.
Lemma piecewise_interval bs lo hi : lo ∈ bs → hi ∈ bs → piecewise bs (λ x, (lo <=? x) && (x <? hi)).
Proof.
  intros Hlo Hhi x y H. pose proof (H _ Hlo). pose proof (H _ Hhi). apply eq_true_iff_eq.
  rewrite !andb_true_iff, !Z.leb_le, !Z.ltb_lt. lia.
Qed.
Lemma piecewise_existsb {B} bs (f : B → Z → bool) l : (∀ b, b ∈ l → piecewise bs (f b)) → piecewise bs (λ x, existsb (λ b, f b x) l).
Proof.
  intros H. induction l as [|b l IH]; simpl; [apply piecewise_const|].
  apply (piecewise_op orb); [apply H; left|apply IH; intros; apply H; by right].
Qed.
Lemma piecewise_ext {A} bs (f g : Z → A) : (∀ x, f x = g x) → piecewise bs g → piecewise bs f.
Proof. intros E H x y Hxy. rewrite !E. by apply H. Qed.

(** The largest bound below [x]. *)
Definition floor_bound (x : Z) (bounds : list Z) : Z := foldr (λ b acc, if b <=? x then Z.max b acc else acc) 0 bounds.
Lemma floor_bound_spec x bounds : 0 ≤ x →
  0 ≤ floor_bound x bounds ≤ x ∧ (floor_bound x bounds = 0 ∨ floor_bound x bounds ∈ bounds) ∧
  ∀ b, b ∈ bounds → b ≤ x → b ≤ floor_bound x bounds.
Proof.
  intros Hx. induction bounds as [|b bs (IH1 & IH2 & IH3)]; simpl; [split; [lia|]; split; [by left|set_solver]|].
  destruct (Z.leb_spec b x) as [Hb|Hb].
  - split; [lia|]. split; [destruct (Z.max_spec b (floor_bound x bs)) as [[_ ->]|[_ ->]]; set_solver|].
    intros b' [->|H]%elem_of_cons Hle; [lia|]. specialize (IH3 b' H Hle). lia.
  - split; [done|]. split; [set_solver|]. intros b' [->|H]%elem_of_cons Hle; [lia|]. auto.
Qed.

Lemma piecewise_agree {A} bs (f g : Z → A) : piecewise bs f → piecewise bs g → 0 ∈ bs → (∀ b, b ∈ bs → f b = g b) →
  ∀ x, 0 ≤ x → f x = g x.
Proof.
  intros Hf Hg H0 Hb x Hx. destruct (floor_bound_spec x bs Hx) as (H1 & H2 & H3).
  assert (floor_bound x bs ∈ bs) as Hin by (by destruct H2 as [-> |]).
  rewrite (Hf x (floor_bound x bs)), (Hg x (floor_bound x bs)); [by apply Hb|..];
    (intros b Hb'; split; [by apply H3|lia]).
Qed.

(** ** Networks as intervals *)

Definition interval (n : IPNetwork) (ip : Z) : bool :=
  (n.(network_address) <=? ip) && (ip <? n.(network_address) + host_size n).
Definition of_version (v : Z) (ns : list IPNetwork) : Prop := Forall (λ n, wf_network n ∧ n.(nt_version) = v) ns.
#[export] Instance of_version_dec v ns : Decision (of_version v ns).
Proof. unfold of_version. apply _. Defined.

Lemma in_network_interval a n : wf_network n → wf_address a → n.(nt_version) = version a → in_network a n = interval n (ip_int a).
Proof.
  intros Hn Ha Hv. apply eq_true_iff_eq. rewrite in_network_spec by done. unfold interval.
  rewrite andb_true_iff, Z.leb_le, Z.ltb_lt. intuition.
Qed.
Lemma within_intervals a ns : of_version (version a) ns → wf_address a → within ns a = existsb (λ n, interval n (ip_int a)) ns.
Proof.
  intros Hns Ha. induction Hns as [|n ns [Hn Hv] _ IH]; simpl; [done|]. by rewrite in_network_interval, IH.
Qed.

Definition network_bounds (ns : list IPNetwork) : list Z := ns ≫= λ n, [n.(network_address); n.(network_address) + host_size n].
Definition range_bounds (rs : list (Z * Z)) : list Z := rs ≫= λ r : Z * Z, [r.1; r.2 + 1].

Lemma piecewise_network bs n : n.(network_address) ∈ bs → n.(network_address) + host_size n ∈ bs → piecewise bs (interval n).
Proof. apply piecewise_interval. Qed.
Lemma piecewise_networks bs ns : network_bounds ns ⊆ bs → piecewise bs (λ x, existsb (λ n, interval n x) ns).
Proof.
  intros H. apply (piecewise_existsb bs interval). intros n Hn. apply piecewise_network; apply H, list_elem_of_bind; exists n; set_solver.
Qed.
Lemma piecewise_range bs r : r.1 ∈ bs → r.2 + 1 ∈ bs → piecewise bs (λ x, in_range x r).
Proof.
  intros H1 H2. apply (piecewise_ext _ _ (λ x, (r.1 <=? x) && (x <? r.2 + 1))); [|by apply piecewise_interval].
  intros x. unfold in_range. f_equal. apply eq_true_iff_eq. rewrite Z.leb_le, Z.ltb_lt. lia.
Qed.
Lemma piecewise_ranges bs rs : range_bounds rs ⊆ bs → piecewise bs (λ x, existsb (in_range x) rs).
Proof.
  intros H. apply (piecewise_existsb bs (λ r x, in_range x r)). intros r Hr. apply piecewise_range; apply H, list_elem_of_bind; exists r; set_solver.
Qed.
Lemma piecewise_eqb bs k : k ∈ bs → k + 1 ∈ bs → piecewise bs (λ x, x =? k).
Proof.
  intros H1 H2 x y H. pose proof (H _ H1). pose proof (H _ H2). apply eq_true_iff_eq. rewrite !Z.eqb_eq. lia.
Qed.

Definition too_big (x : Z) : bool := 2 ^ 128 <=? x.
Lemma piecewise_too_big bs : 2 ^ 128 ∈ bs → piecewise bs too_big.
Proof. intros H1 x y H. pose proof (H _ H1). apply eq_true_iff_eq. unfold too_big. rewrite !Z.leb_le. lia. Qed.
Lemma too_big_false ip : ip < 2 ^ 128 → too_big ip = false.
Proof. unfold too_big. rewrite Z.leb_gt. done. Qed.

(** Decide that a function is piecewise by its structure. *)
Ltac solve_piecewise :=
  repeat first
    [ apply piecewise_const
    | apply piecewise_networks; apply (bool_decide_unpack _); vm_compute; exact I
    | apply piecewise_ranges; apply (bool_decide_unpack _); vm_compute; exact I
    | apply piecewise_network; apply (bool_decide_unpack _); vm_compute; exact I
    | apply piecewise_range; apply (bool_decide_unpack _); vm_compute; exact I
    | apply piecewise_eqb; apply (bool_decide_unpack _); vm_compute; exact I
    | apply piecewise_too_big; apply (bool_decide_unpack _); vm_compute; exact I
    | apply piecewise_negb
    | apply (piecewise_op andb) | apply (piecewise_op orb) ].

Lemma piecewise_equal bs (f g : Z → bool) : piecewise bs f → piecewise bs g → 0 ∈ bs →
  forallb (λ b, Bool.eqb (f b) (g b)) bs = true → ∀ x, 0 ≤ x → f x = g x.
Proof.
  intros Hf Hg H0 Hall. apply (piecewise_agree bs); [done..|]. intros b Hb. rewrite forallb_forall in Hall.
  apply list_elem_of_In in Hb. by apply Bool.eqb_prop, Hall.
Qed.

(** ** The code's conditions as intervals *)

Definition private4_b (x : Z) : bool :=
  existsb (λ n, interval n x) private_networks4 && negb (existsb (λ n, interval n x) private_exceptions4).
Definition itself4_b (x : Z) : bool :=
  negb (negb (interval public_network4 x) && negb (private4_b x)) || private4_b x || interval loopback_network4 x ||
  interval linklocal_network4 x || (x =? 0) || interval reserved_network4 x || interval multicast_network4 x || false.
Definition private6_b (x : Z) : bool :=
  existsb (λ n, interval n x) private_networks6 && negb (existsb (λ n, interval n x) private_exceptions6).
Definition itself6_b (x : Z) : bool :=
  negb (negb (private6_b x)) || private6_b x || (x =? 1) || interval linklocal_network6 x || (x =? 0) ||
  existsb (λ n, interval n x) reserved_networks6 || interval multicast_network6 x || interval sitelocal_network6 x.

Ltac by_computation := apply (bool_decide_unpack _); vm_compute; exact I.

Lemma itself4_spec ip : wf_address (IPv4Address ip) → non_public_itself (IPv4Address ip) = itself4_b ip.
Proof.
  intros Ha. unfold non_public_itself, is_global, is_private, is_loopback, is_link_local, is_unspecified, is_reserved, is_multicast, judged.
  rewrite !within_intervals by (first [exact Ha | reflexivity | by_computation]). rewrite !in_network_interval by (first [exact Ha | reflexivity | by_computation]). done.
Qed.

Lemma itself6_spec ip sc : wf_address (IPv6Address ip sc) → ipv4_mapped (IPv6Address ip sc) = None →
  non_public_itself (IPv6Address ip sc) = itself6_b ip.
Proof.
  intros Ha Hm. unfold non_public_itself, is_global, is_private, is_loopback, is_link_local, is_unspecified, is_reserved, is_multicast,
    is_site_local, judged. rewrite Hm.
  rewrite !within_intervals by (first [exact Ha | reflexivity | by_computation]). rewrite !in_network_interval by (first [exact Ha | reflexivity | by_computation]). done.
Qed.

Definition bounds4 : list Z :=
  [0; 1] ++ network_bounds (private_networks4 ++ private_exceptions4 ++
    [public_network4; loopback_network4; linklocal_network4; reserved_network4; multicast_network4] ++
    filter (λ n, n.(nt_version) = 4) NEVER_TRUSTABLE_NETWORKS) ++ range_bounds special4.
Definition bounds6 : list Z :=
  [0; 1; 2] ++ network_bounds (private_networks6 ++ private_exceptions6 ++ reserved_networks6 ++
    [linklocal_network6; multicast_network6; sitelocal_network6; NAT64_WELL_KNOWN_PREFIX; v6 [0x2002] 16] ++
    filter (λ n, n.(nt_version) = 6) NEVER_TRUSTABLE_NETWORKS) ++
  range_bounds (global6 :: special6 ++ reachable6 ++ [(0xffff00000000, 0xffffffffffff)]).

Lemma itself4_public ip : 0 ≤ ip → itself4_b ip = negb (public4 ip).
Proof.
  revert ip. apply (piecewise_equal bounds4).
  - unfold itself4_b, private4_b. solve_piecewise.
  - unfold public4. solve_piecewise.
  - by_computation.
  - vm_compute. reflexivity.
Qed.

Definition bounds6' : list Z := 2 ^ 128 :: bounds6.
Lemma itself6_public ip : 0 ≤ ip < 2 ^ 128 → itself6_b ip = negb (public6 ip).
Proof.
  intros [Hip Hmax]. assert (itself6_b ip || too_big ip = negb (public6 ip) || too_big ip) as H.
  { clear Hmax. revert ip Hip. apply (piecewise_equal bounds6').
    - unfold itself6_b, private6_b. solve_piecewise.
    - unfold public6. solve_piecewise.
    - by_computation.
    - vm_compute. reflexivity. }
  by rewrite too_big_false, !orb_false_r in H.
Qed.

(** An address that carries an IPv4 address for a translator is refused for
    itself, an IPv4-mapped one apart. *)
Definition sixtofour_network : IPNetwork := v6 [0x2002] 16.
Lemma translated_refused ip : 0 ≤ ip < 2 ^ 128 →
  interval NAT64_WELL_KNOWN_PREFIX ip || interval sixtofour_network ip = true → itself6_b ip = true.
Proof.
  intros [Hip Hmax] Ht.
  assert (negb (interval NAT64_WELL_KNOWN_PREFIX ip || interval sixtofour_network ip) || itself6_b ip = true) as H.
  { clear Hmax Ht. revert ip Hip. apply (piecewise_equal bounds6').
    - unfold itself6_b, private6_b. solve_piecewise.
    - apply piecewise_const.
    - by_computation.
    - vm_compute. reflexivity. }
  by rewrite Ht in H.
Qed.

Lemma sixtofour_None ip sc : wf_address (IPv6Address ip sc) → interval sixtofour_network ip = false → sixtofour (IPv6Address ip sc) = None.
Proof.
  intros [Hip _] Hi. unfold sixtofour. rewrite Z.shiftr_div_pow2 by lia. destruct (Z.eqb_spec (ip / 2 ^ 112) 0x2002) as [E|]; [|done].
  exfalso. apply not_true_iff_false in Hi. apply Hi. unfold interval. apply andb_true_iff. rewrite Z.leb_le, Z.ltb_lt.
  pose proof (Z.div_mod ip (2 ^ 112)). pose proof (Z.mod_pos_bound ip (2 ^ 112)).
  replace (network_address sixtofour_network) with (0x2002 * 2 ^ 112) by (vm_compute; reflexivity).
  replace (host_size sixtofour_network) with (2 ^ 112) by (vm_compute; reflexivity). lia.
Qed.

Lemma embedded_unmapped ip sc : wf_address (IPv6Address ip sc) → ipv4_mapped (IPv6Address ip sc) = None →
  itself6_b ip = false → embedded_ipv4_addresses (IPv6Address ip sc) = [].
Proof.
  intros Ha Hm Hi. pose proof Ha as [Hip _].
  assert (interval NAT64_WELL_KNOWN_PREFIX ip || interval sixtofour_network ip = false) as [H1 H2]%orb_false_iff.
  { apply not_true_iff_false. intros Ht%translated_refused; [congruence|done]. }
  unfold embedded_ipv4_addresses. rewrite Hm, sixtofour_None by done. simpl.
  rewrite in_network_interval by (first [exact Ha | reflexivity | by_computation]). simpl ip_int. by rewrite H1.
Qed.

Definition mapped_range : Z * Z := (0xffff00000000, 0xffffffffffff).
Lemma mapped_not_special ip : 0 ≤ ip → in_range ip mapped_range = true →
  interval sitelocal_network6 ip = false ∧ interval NAT64_WELL_KNOWN_PREFIX ip = false ∧ interval sixtofour_network ip = false ∧
  existsb (λ n, interval n ip) (filter (λ n, n.(nt_version) = 6) NEVER_TRUSTABLE_NETWORKS) = false.
Proof.
  intros Hip Hm.
  assert (in_range ip mapped_range && (interval sitelocal_network6 ip || interval NAT64_WELL_KNOWN_PREFIX ip || interval sixtofour_network ip ||
    existsb (λ n, interval n ip) (filter (λ n, n.(nt_version) = 6) NEVER_TRUSTABLE_NETWORKS)) = false) as H.
  { clear Hm. revert ip Hip. apply (piecewise_equal bounds6'); [solve_piecewise|apply piecewise_const|by_computation|vm_compute; reflexivity]. }
  rewrite Hm, andb_true_l, !orb_false_iff in H. tauto.
Qed.

Lemma ipv4_mapped_range ip sc : 0 ≤ ip →
  ipv4_mapped (IPv6Address ip sc) = if in_range ip mapped_range then Some (IPv4Address (ip - 0xffff00000000)) else None.
Proof.
  intros Hip. rewrite ipv4_mapped_spec by done. unfold in_range, mapped_range. simpl.
  case_decide; destruct (Z.leb_spec 0xffff00000000 ip), (Z.leb_spec ip 0xffffffffffff); simpl; done || lia.
Qed.

Lemma embedded_mapped ip sc m : wf_address (IPv6Address ip sc) → ipv4_mapped (IPv6Address ip sc) = Some m →
  embedded_ipv4_addresses (IPv6Address ip sc) = [m] ∧ is_site_local (IPv6Address ip sc) = false.
Proof.
  intros Ha Hm. pose proof Ha as [Hip _]. rewrite ipv4_mapped_range in Hm by lia.
  destruct (in_range ip mapped_range) eqn:Er; [|done].
  destruct (mapped_not_special ip ltac:(lia) Er) as (H1 & H2 & H3 & _).
  unfold embedded_ipv4_addresses, is_site_local. rewrite sixtofour_None by done.
  rewrite !in_network_interval by (first [exact Ha | reflexivity | by_computation]). simpl ip_int. rewrite H1, H2.
  rewrite ipv4_mapped_range by lia. rewrite Er. by injection Hm as <-.
Qed.

(** ** The address policy *)

Lemma non_public_v4 d ip : wf_address (IPv4Address ip) → non_public d (IPv4Address ip) = negb (public4 ip).
Proof. intros Ha. destruct d; simpl; rewrite orb_false_r, itself4_spec by done; apply itself4_public; apply Ha. Qed.

Lemma non_public_S d a : non_public (S d) a = non_public_itself a || existsb (non_public d) (embedded_ipv4_addresses a).
Proof. reflexivity. Qed.

(** The judgement of a mapped address is that of the IPv4 address. *)
Lemma itself_mapped ip sc m : wf_address (IPv6Address ip sc) → ipv4_mapped (IPv6Address ip sc) = Some m →
  non_public_itself (IPv6Address ip sc) = non_public_itself m.
Proof.
  intros Ha Hm. destruct (embedded_mapped ip sc m Ha Hm) as [_ Hsite]. destruct (ipv4_mapped_wf _ _ Ha Hm) as [_ Hv].
  destruct m as [m|]; [|discriminate Hv].
  unfold non_public_itself. rewrite Hsite.
  unfold is_global, is_private, is_loopback, is_link_local, is_unspecified, is_reserved, is_multicast, judged. by rewrite Hm.
Qed.

Lemma address_policy a : wf_address a → is_non_public_address a = negb (globally_routable a).
Proof.
  intros Ha. unfold is_non_public_address. destruct a as [ip|ip sc]; [by apply non_public_v4|].
  pose proof Ha as [Hip _]. unfold globally_routable. fold mapped_range.
  pose proof (ipv4_mapped_range ip sc ltac:(lia)) as Hm. destruct (in_range ip mapped_range) eqn:Er.
  - destruct (embedded_mapped ip sc _ Ha Hm) as [He _]. destruct (ipv4_mapped_wf _ _ Ha Hm) as [Hwf _].
    rewrite non_public_S, He, (itself_mapped ip sc _ Ha Hm). unfold existsb. rewrite non_public_v4 by done.
    rewrite itself4_spec by done. rewrite itself4_public by apply Hwf. by destruct (public4 _).
  - rewrite non_public_S, itself6_spec by done. destruct (itself6_b ip) eqn:Ei.
    + by rewrite <-itself6_public, Ei.
    + rewrite embedded_unmapped by done. by rewrite <-itself6_public, Ei.
Qed.

(** ** Public addresses and the ones no trust entry may reach *)

Definition candidate_refused (candidate : IPAddress) : bool :=
  is_loopback candidate || is_link_local candidate || is_multicast candidate ||
  is_unspecified candidate || is_reserved candidate || within NEVER_TRUSTABLE_NETWORKS candidate.

Lemma within_mixed a ns : Forall wf_network ns → wf_address a →
  within ns a = existsb (λ n, interval n (ip_int a)) (filter (λ n, n.(nt_version) = version a) ns).
Proof.
  intros Hns Ha. induction Hns as [|n ns Hn _ IH]; simpl; [done|]. rewrite filter_cons. case_decide as Hv.
  - simpl. by rewrite in_network_interval, IH.
  - rewrite IH. assert (in_network a n = false) as ->; [|done]. unfold in_network.
    destruct (Z.eqb_spec (version a) (nt_version n)); [congruence|done].
Qed.

Lemma never_wf : Forall wf_network NEVER_TRUSTABLE_NETWORKS.
Proof. by_computation. Qed.

Definition never_networks (v : Z) : list IPNetwork := filter (λ n, n.(nt_version) = v) NEVER_TRUSTABLE_NETWORKS.
Definition candidate4_b (x : Z) : bool :=
  interval loopback_network4 x || interval linklocal_network4 x || interval multicast_network4 x ||
  (x =? 0) || interval reserved_network4 x || existsb (λ n, interval n x) (never_networks 4).
Definition candidate6_b (x : Z) : bool :=
  (x =? 1) || interval linklocal_network6 x || interval multicast_network6 x ||
  (x =? 0) || existsb (λ n, interval n x) reserved_networks6 || existsb (λ n, interval n x) (never_networks 6).

Lemma candidate4_spec ip : wf_address (IPv4Address ip) → candidate_refused (IPv4Address ip) = candidate4_b ip.
Proof.
  intros Ha. unfold candidate_refused, is_loopback, is_link_local, is_unspecified, is_reserved, is_multicast, judged.
  rewrite within_mixed by (exact never_wf || done).
  rewrite !in_network_interval by (first [exact Ha | reflexivity | by_computation]). done.
Qed.
Lemma candidate6_spec ip sc : wf_address (IPv6Address ip sc) → ipv4_mapped (IPv6Address ip sc) = None →
  candidate_refused (IPv6Address ip sc) = candidate6_b ip.
Proof.
  intros Ha Hm. unfold candidate_refused, is_loopback, is_link_local, is_unspecified, is_reserved, is_multicast, judged.
  rewrite Hm, (within_mixed _ NEVER_TRUSTABLE_NETWORKS) by (exact never_wf || done).
  rewrite !within_intervals by (first [exact Ha | reflexivity | by_computation]).
  rewrite !in_network_interval by (first [exact Ha | reflexivity | by_computation]). done.
Qed.
Lemma candidate_mapped ip sc m : wf_address (IPv6Address ip sc) → ipv4_mapped (IPv6Address ip sc) = Some m →
  candidate_refused (IPv6Address ip sc) = true → candidate_refused m = true.
Proof.
  intros Ha Hm. destruct (ipv4_mapped_wf _ _ Ha Hm) as [_ Hv]. destruct m as [m|]; [|discriminate Hv].
  unfold candidate_refused. rewrite within_mixed by (exact never_wf || done). simpl (version (IPv6Address _ _)). simpl ip_int at 1.
  pose proof Ha as [Hip _]. pose proof Hm as Hm'. rewrite ipv4_mapped_range in Hm' by lia.
  destruct (in_range ip mapped_range) eqn:Er; [|done].
  destruct (mapped_not_special ip ltac:(lia) Er) as (_ & _ & _ & ->). rewrite orb_false_r.
  unfold is_loopback, is_link_local, is_unspecified, is_reserved, is_multicast, judged. rewrite Hm. by intros ->.
Qed.

Lemma public4_candidate ip : 0 ≤ ip → public4 ip = true → candidate4_b ip = false.
Proof.
  intros Hip Hp. assert (public4 ip && candidate4_b ip = false) as H.
  { clear Hp. revert ip Hip. unfold public4, candidate4_b.
    apply (piecewise_equal bounds4); [solve_piecewise|apply piecewise_const|by_computation|vm_compute; reflexivity]. }
  by rewrite Hp in H.
Qed.
Lemma public6_candidate ip : 0 ≤ ip → public6 ip = true → candidate6_b ip = false.
Proof.
  intros Hip Hp. assert (public6 ip && candidate6_b ip = false) as H.
  { clear Hp. revert ip Hip. unfold public6, candidate6_b.
    apply (piecewise_equal bounds6'); [solve_piecewise|apply piecewise_const|by_computation|vm_compute; reflexivity]. }
  by rewrite Hp in H.
Qed.

Lemma public_trustable a : wf_address a → is_non_public_address a = false → is_never_trustable a = false.
Proof.
  intros Ha Hp. pose proof Hp as Hg. rewrite address_policy in Hg by done. apply negb_false_iff in Hg.
  change (existsb candidate_refused (a :: embedded_ipv4_addresses a) = false). destruct a as [ip|ip sc].
  - unfold existsb. simpl embedded_ipv4_addresses. rewrite candidate4_spec by done. rewrite orb_false_r. apply public4_candidate; [apply Ha|done].
  - pose proof Ha as [Hip _]. unfold globally_routable in Hg. fold mapped_range in Hg.
    pose proof (ipv4_mapped_range ip sc ltac:(lia)) as Hm. destruct (in_range ip mapped_range) eqn:Er.
    + destruct (embedded_mapped ip sc _ Ha Hm) as [-> _]. destruct (ipv4_mapped_wf _ _ Ha Hm) as [Hwf _].
      assert (candidate_refused (IPv4Address (ip - 281470681743360)) = false) as Hc.
      { rewrite candidate4_spec by done. apply public4_candidate; [apply Hwf|done]. }
      unfold existsb. rewrite Hc. destruct (candidate_refused (IPv6Address ip sc)) eqn:E; [|done].
      apply (candidate_mapped _ _ _ Ha Hm) in E. congruence.
    + rewrite embedded_unmapped; [|done..|by rewrite itself6_public, Hg].
      unfold existsb. rewrite candidate6_spec by done. by rewrite public6_candidate by (lia || done).
Qed.

(** ** The embedded addresses *)

(** The IPv4 address [m] inside the IPv6 address [ip]: mapped, behind the well-known
    NAT64 prefix, or in the second and third hextet of a 6to4 address. *)
Definition carries (ip m : Z) : Prop :=
  0 ≤ m < 2 ^ 32 ∧
  (ip = 0xffff * 2 ^ 32 + m ∨ ip = 0x64ff9b * 2 ^ 96 + m ∨ ∃ rest, 0 ≤ rest < 2 ^ 80 ∧ ip = 0x2002 * 2 ^ 112 + m * 2 ^ 80 + rest).

Lemma land_32 x : 0 ≤ x → Z.land x 0xffffffff = x mod 2 ^ 32.
Proof. intros Hx. change 0xffffffff with (Z.ones 32). apply Z.land_ones. lia. Qed.
Lemma sixtofour_carried ip sc m : 0 ≤ ip →
  sixtofour (IPv6Address ip sc) = Some (IPv4Address m) ↔ 0 ≤ m < 2 ^ 32 ∧ ∃ rest, 0 ≤ rest < 2 ^ 80 ∧ ip = 0x2002 * 2 ^ 112 + m * 2 ^ 80 + rest.
Proof.
  intros Hip. unfold sixtofour. rewrite !Z.shiftr_div_pow2, land_32 by (lia || (apply Z.div_pos; lia)).
  pose proof (Z.div_mod ip (2 ^ 80)) as H1. pose proof (Z.mod_pos_bound ip (2 ^ 80)) as H2.
  assert (ip / 2 ^ 112 = ip / 2 ^ 80 / 2 ^ 32) as E by (rewrite Z.div_div by lia; f_equal). rewrite E.
  set (q := ip / 2 ^ 80) in *. pose proof (Z.div_mod q (2 ^ 32)) as H3. pose proof (Z.mod_pos_bound q (2 ^ 32)) as H4.
  split.
  - destruct (Z.eqb_spec (q / 2 ^ 32) 0x2002) as [Eq|]; [|done]. intros [= <-]. split; [lia|]. exists (ip mod 2 ^ 80). lia.
  - intros (Hm & rest & Hr & Hx). assert (q = 0x2002 * 2 ^ 32 + m) as Hq by lia.
    assert (q / 2 ^ 32 = 0x2002 ∧ q mod 2 ^ 32 = m) as [-> ->] by lia. done.
Qed.
Lemma nat64_carried ip sc m : wf_address (IPv6Address ip sc) →
  IPv4Address m ∈ (if in_network (IPv6Address ip sc) NAT64_WELL_KNOWN_PREFIX then [IPv4Address (Z.land ip 0xffffffff)] else []) ↔
  0 ≤ m < 2 ^ 32 ∧ ip = 0x64ff9b * 2 ^ 96 + m.
Proof.
  intros Ha. pose proof Ha as [Hip _]. rewrite in_network_interval by (first [exact Ha | reflexivity | by_computation]). simpl ip_int.
  rewrite land_32 by lia. pose proof (Z.div_mod ip (2 ^ 32)) as H1. pose proof (Z.mod_pos_bound ip (2 ^ 32)) as H2. unfold interval.
  replace (network_address NAT64_WELL_KNOWN_PREFIX) with (0x64ff9b * 2 ^ 96) by (vm_compute; reflexivity).
  replace (host_size NAT64_WELL_KNOWN_PREFIX) with (2 ^ 32) by (vm_compute; reflexivity).
  destruct (_ && _) eqn:E.
  - apply andb_true_iff in E as [E1%Z.leb_le E2%Z.ltb_lt]. rewrite list_elem_of_singleton. split; [intros [= ->]; lia|].
    intros [Hm Hx]. f_equal. lia.
  - split; [by intros []%elem_of_nil|]. intros [Hm Hx]. apply andb_false_iff in E as [E%Z.leb_gt|E%Z.ltb_ge]; lia.
Qed.
Lemma embedded_exact a m : wf_address a →
  IPv4Address m ∈ embedded_ipv4_addresses a ↔ ∃ ip sc, a = IPv6Address ip sc ∧ carries ip m.
Proof.
  intros Ha. destruct a as [ip|ip sc]; [split; [by intros []%elem_of_nil|by intros (? & ? & ? & _)]|]. pose proof Ha as [Hip _].
  unfold embedded_ipv4_addresses. rewrite !elem_of_app, nat64_carried by done.
  assert (∀ o, IPv4Address m ∈ option_list o ↔ o = Some (IPv4Address m)) as Ho.
  { intros [x|]; simpl; [rewrite list_elem_of_singleton; naive_solver|]. split; [by intros []%elem_of_nil|done]. }
  rewrite !Ho, sixtofour_carried by lia. rewrite ipv4_mapped_range by lia. unfold in_range, mapped_range, carries. simpl.
  split.
  - intros [H|[[Hm Hx]|[Hm H]]]; exists ip, sc; (split; [done|]).
    + destruct (_ && _) eqn:E; [|done]. apply andb_true_iff in E as [E1%Z.leb_le E2%Z.leb_le]. injection H as <-. split; [lia|]. left. lia.
    + by auto.
    + by auto.
  - intros (? & ? & [= <- <-] & Hm & [Hx|[Hx|H]]); [left|by auto|by auto].
    rewrite (proj2 (Z.leb_le _ _)), (proj2 (Z.leb_le _ _)) by lia. simpl. do 2 f_equal. lia.
Qed.

(** ** The addresses no trust entry may reach *)

Definition never4 (ip : Z) : bool :=
  existsb (in_range ip)
    [(quad 0 0 0 0, quad 0 255 255 255); (quad 100 100 100 200, quad 100 100 100 200); (quad 127 0 0 0, quad 127 255 255 255);
     (quad 169 254 0 0, quad 169 254 255 255); (quad 224 0 0 0, quad 255 255 255 255)].
(** Of IPv6, what is neither in 2000::/3 nor unique local nor site local, and the
    metadata address of AWS. *)
Definition trustable6 : list (Z * Z) :=
  [global6; (0xfc00 * hextet 7, 0xfe00 * hextet 7 - 1); (0xfec0 * hextet 7, 0xff00 * hextet 7 - 1)].
Definition aws_metadata6 : Z := 0xfd000ec2 * hextet 6 + 0x254.
Definition never6 (ip : Z) : bool := negb (existsb (in_range ip) trustable6) || in_range ip (aws_metadata6, aws_metadata6).
Definition sixtofour_range : Z * Z := (0x2002 * hextet 7, 0x2003 * hextet 7 - 1).
Definition never_trustable (a : IPAddress) : bool :=
  match a with
  | IPv4Address ip => never4 ip
  | IPv6Address ip _ =>
      if in_range ip (0xffff00000000, 0xffffffffffff) then never4 (ip - 0xffff00000000)
      else if in_range ip sixtofour_range then never4 (ip / 2 ^ 80 mod 2 ^ 32)
      else never6 ip
  end.

Definition bounds4' : list Z := 2 ^ 32 :: range_bounds [(quad 100 100 100 200, quad 100 100 100 200)] ++ bounds4.
Lemma candidate4_never ip : 0 ≤ ip → candidate4_b ip = never4 ip.
Proof.
  revert ip. apply (piecewise_equal bounds4'); [unfold candidate4_b; solve_piecewise|unfold never4; solve_piecewise|by_computation|vm_compute; reflexivity].
Qed.
Definition bounds6'' : list Z := bounds6' ++ range_bounds (sixtofour_range :: (aws_metadata6, aws_metadata6) :: trustable6).
Lemma candidate6_never ip : 0 ≤ ip < 2 ^ 128 → candidate6_b ip = never6 ip.
Proof.
  intros [Hip Hmax]. assert (candidate6_b ip || too_big ip = never6 ip || too_big ip) as H.
  { clear Hmax. revert ip Hip.
    apply (piecewise_equal bounds6''); [unfold candidate6_b; solve_piecewise|unfold never6; solve_piecewise|by_computation|vm_compute; reflexivity]. }
  by rewrite too_big_false, !orb_false_r in H.
Qed.

Lemma sixtofour_bits ip sc : 0 ≤ ip → in_range ip sixtofour_range = true →
  sixtofour (IPv6Address ip sc) = Some (IPv4Address (ip / 2 ^ 80 mod 2 ^ 32)).
Proof.
  intros Hip [H1%Z.leb_le H2%Z.leb_le]%andb_true_iff. unfold sixtofour_range, hextet in *. simpl fst in *. simpl snd in *.
  unfold sixtofour. rewrite !Z.shiftr_div_pow2, land_32 by (lia || (apply Z.div_pos; lia)).
  assert (ip / 2 ^ 112 = 0x2002) as -> by (change (2 ^ (16 * 7)) with (2 ^ 112) in *; symmetry; apply (Z.div_unique_pos _ _ _ (ip - 0x2002 * 2 ^ 112)); lia).
  done.
Qed.
(** A 6to4 address is not refused for itself, one behind the NAT64 prefix is. *)
Lemma sixtofour_itself ip : 0 ≤ ip → in_range ip sixtofour_range = true →
  candidate6_b ip = false ∧ interval NAT64_WELL_KNOWN_PREFIX ip = false.
Proof.
  intros Hip Hr. assert (in_range ip sixtofour_range && (candidate6_b ip || interval NAT64_WELL_KNOWN_PREFIX ip) = false) as H.
  { clear Hr. revert ip Hip. unfold candidate6_b.
    apply (piecewise_equal bounds6''); [solve_piecewise|apply piecewise_const|by_computation|vm_compute; reflexivity]. }
  by rewrite Hr, andb_true_l, orb_false_iff in H.
Qed.
Lemma nat64_itself ip : 0 ≤ ip → interval NAT64_WELL_KNOWN_PREFIX ip = true → candidate6_b ip = true.
Proof.
  intros Hip Hr. assert (negb (interval NAT64_WELL_KNOWN_PREFIX ip) || candidate6_b ip = true) as H.
  { clear Hr. revert ip Hip. unfold candidate6_b.
    apply (piecewise_equal bounds6''); [solve_piecewise|apply piecewise_const|by_computation|vm_compute; reflexivity]. }
  by rewrite Hr in H.
Qed.
Lemma sixtofour_network_range ip : interval sixtofour_network ip = in_range ip sixtofour_range.
Proof.
  unfold interval, in_range. replace (network_address sixtofour_network) with (0x2002 * 2 ^ 112) by (vm_compute; reflexivity).
  replace (host_size sixtofour_network) with (2 ^ 112) by (vm_compute; reflexivity). unfold sixtofour_range, hextet.
  simpl fst. simpl snd. change (2 ^ (16 * 7)) with (2 ^ 112). f_equal. apply eq_true_iff_eq. rewrite Z.ltb_lt, Z.leb_le. lia.
Qed.

Lemma existsb_cons {A} (f : A → bool) x l : existsb f (x :: l) = f x || existsb f l.
Proof. reflexivity. Qed.
Lemma never_trustable_unmapped ip sc : wf_address (IPv6Address ip sc) → in_range ip mapped_range = false →
  existsb candidate_refused (IPv6Address ip sc :: embedded_ipv4_addresses (IPv6Address ip sc)) =
  if in_range ip sixtofour_range then never4 (ip / 2 ^ 80 mod 2 ^ 32) else never6 ip.
Proof.
  intros Ha Er. pose proof Ha as [Hip _]. pose proof (ipv4_mapped_range ip sc ltac:(lia)) as Hm. rewrite Er in Hm.
  unfold embedded_ipv4_addresses. rewrite Hm. rewrite in_network_interval by (first [exact Ha | reflexivity | by_computation]). simpl ip_int.
  rewrite existsb_cons, candidate6_spec by done. destruct (in_range ip sixtofour_range) eqn:E6.
  - destruct (sixtofour_itself ip ltac:(lia) E6) as [-> ->]. rewrite sixtofour_bits by (lia || done). simpl.
    rewrite orb_false_r. pose proof (Z.mod_pos_bound (ip / 2 ^ 80) (2 ^ 32) ltac:(lia)). rewrite candidate4_spec by (simpl; lia).
    apply candidate4_never. lia.
  - rewrite sixtofour_None by (done || by rewrite sixtofour_network_range). rewrite <-candidate6_never by done.
    destruct (interval NAT64_WELL_KNOWN_PREFIX ip) eqn:E; [by rewrite nat64_itself by (lia || done)|]. simpl. by rewrite orb_false_r.
Qed.
Lemma never_trustable_spec a : wf_address a → is_never_trustable a = never_trustable a.
Proof.
  intros Ha. change (existsb candidate_refused (a :: embedded_ipv4_addresses a) = never_trustable a). destruct a as [ip|ip sc].
  - simpl. rewrite orb_false_r, candidate4_spec by done. apply candidate4_never, Ha.
  - unfold never_trustable. fold mapped_range. destruct (in_range ip mapped_range) eqn:Er; [|by apply never_trustable_unmapped].
    pose proof Ha as [Hip _]. pose proof (ipv4_mapped_range ip sc ltac:(lia)) as Hm. rewrite Er in Hm.
    destruct (embedded_mapped ip sc _ Ha Hm) as [-> _]. destruct (ipv4_mapped_wf _ _ Ha Hm) as [Hwf _].
    rewrite !existsb_cons, orb_false_r. rewrite <-candidate4_never by apply Hwf. rewrite <-candidate4_spec by done.
    destruct (candidate_refused (IPv6Address ip sc)) eqn:E; [|done]. apply (candidate_mapped _ _ _ Ha Hm) in E. by rewrite E.
Qed.

(** C12: The address policy is exactly the registry's.  An address passes
    [is_non_public_address] if and only if it is globally routable: an IPv4
    address outside the special-purpose, multicast and reserved blocks, an
    IPv4-mapped address of such a one, or an IPv6 address of 2000::/3 outside the
    protocol assignments, documentation and 6to4 blocks (with the reachable
    anycast and experimental parts of 2001::/23).  No trust entry may reach
    exactly these: the IPv4 blocks 0/8, 127/8, 169.254/16, 224/3 and
    100.100.100.200, an IPv4-mapped or 6to4 address that carries one of them, and
    an IPv6 address that is neither in 2000::/3 nor unique local nor site local,
    or is the metadata address fd00:ec2::254; none of them is public.  The IPv4
    addresses found inside an address are exactly the one an IPv4-mapped address
    maps, the low 32 bits of an address of 64:ff9b::/96 and the 32 bits after the
    prefix of a 6to4 address. *)
Theorem address_policy_exact a :
  wf_address a →
  is_non_public_address a = negb (globally_routable a) ∧
  is_never_trustable a = never_trustable a ∧
  (is_non_public_address a = false → is_never_trustable a = false) ∧
  (∀ m, IPv4Address m ∈ embedded_ipv4_addresses a ↔ ∃ ip sc, a = IPv6Address ip sc ∧ carries ip m).
Proof.
  intros Ha. split; [by apply address_policy|]. split; [by apply never_trustable_spec|].
  split; [by apply public_trustable|]. intros m. by apply embedded_exact.
Qed.

(** * Pinning a URL to an address

    What [pin_url_to_address] returns is a URL whose host reads back as the
    address, with the scheme, port, path, query and fragment of the original:
    nothing is left in it that a second resolution could look up. *)

(** The zone of a scoped address has no character that ends a host. *)
Definition zone_char (c : N) : Prop := (c < 128)%N ∧ unsafe_byte c = false ∧ c ∉ [47; 63; 35; 64; 93]%N.
Definition zone_ok (a : IPAddress) : Prop :=
  match a with IPv6Address _ (Some zone) => Forall zone_char zone | _ => True end.

Definition port_suffix (p : option Z) : pystr := match p with Some n => lit ":" ++ str_int n | None => [] end.
Definition port_ok (p : option Z) : Prop := match p with Some n => 0 ≤ n ≤ 65535 | None => True end.

(** ** The text of an address *)

Definition core_char (c : N) : Prop := (46 ≤ c ≤ 58 ∧ c ≠ 47 ∨ 97 ≤ c ≤ 102)%N.
Lemma core_zone_char c : core_char c → zone_char c.
Proof.
  intros H. unfold core_char in H. split; [lia|]. split.
  - unfold unsafe_byte. apply orb_false_iff. rewrite orb_false_iff, !N.eqb_neq. lia.
  - rewrite !not_elem_of_cons. split_and!; try lia. apply not_elem_of_nil.
Qed.

Lemma str_ipv4_chars ip : Forall core_char (str_ipv4 ip).
Proof.
  apply Forall_forall. intros c Hc. unfold core_char.
  destruct (decide (46 ≤ c ≤ 57 ∧ c ≠ 47)%N) as [|Hn]; [lia|]. exfalso. revert Hc. apply str_ipv4_free. lia.
Qed.
Lemma str_ipv6_chars ip : 0 ≤ ip < 2 ^ 128 → Forall core_char (str_ipv6 ip).
Proof.
  intros Hip. apply Forall_forall. intros c Hc. destruct (str_ipv6_spec ip Hip) as (_ & _ & Hf). unfold core_char.
  destruct (decide (46 ≤ c ≤ 58 ∧ c ≠ 47 ∨ 97 ≤ c ≤ 102)%N) as [|Hn]; [done|]. exfalso. revert Hc. apply Hf. lia.
Qed.
Lemma str_ipv6_cons ip : 0 ≤ ip < 2 ^ 128 → ∃ c s, str_ipv6 ip = c :: s ∧ core_char c.
Proof.
  intros Hip. pose proof (str_ipv6_chars ip Hip) as Hc. destruct (str_ipv6_spec ip Hip) as (_ & Hin & _).
  destruct (str_ipv6 ip) as [|c s]; [by apply elem_of_nil in Hin|]. inversion Hc; subst. eauto.
Qed.

Lemma str_address_chars a : wf_address a → zone_ok a → Forall zone_char (str_address a).
Proof.
  destruct a as [ip|ip [zone|]]; unfold wf_address, zone_ok, str_address.
  - intros _ _. eapply Forall_impl; [apply str_ipv4_chars|apply core_zone_char].
  - intros [Hip _] Hz. apply Forall_app. split; [eapply Forall_impl; [by apply str_ipv6_chars|apply core_zone_char]|].
    constructor; [|done]. split; [done|]. split; [done|]. by apply (bool_decide_unpack _).
  - intros [Hip _] _. eapply Forall_impl; [by apply str_ipv6_chars|apply core_zone_char].
Qed.

Lemma str_int_zone n : 0 ≤ n → Forall zone_char (str_int n) ∧ 91%N ∉ str_int n.
Proof.
  intros Hn. split; [|apply str_int_free; lia]. apply Forall_forall. intros c Hc%str_int_chars; [|done].
  apply core_zone_char. unfold core_char. lia.
Qed.

Lemma suffix_chars p : port_ok p → Forall zone_char (port_suffix p) ∧ 91%N ∉ port_suffix p.
Proof.
  destruct p as [n|]; simpl; [|split; [constructor|apply not_elem_of_nil]]. intros Hn.
  destruct (str_int_zone n ltac:(lia)) as [H1 H2]. split.
  - constructor; [|done]. apply core_zone_char. unfold core_char. simpl. lia.
  - by apply not_elem_of_cons.
Qed.

Lemma zone_chars_free l c : Forall zone_char l → c ∈ [47; 63; 35; 64; 93]%N → c ∉ l.
Proof. rewrite Forall_forall. intros H Hc Hin. by apply H in Hin as (_ & _ & Hn). Qed.

Lemma zone_chars_ascii l : Forall zone_char l → ascii_only l = true.
Proof.
  intros H. apply forallb_forall. intros c Hc%list_elem_of_In. rewrite Forall_forall in H. apply H in Hc as (Hc & _). by apply N.ltb_lt.
Qed.

(** ** The network location of a pinned URL *)

Section Netloc.
  Context (a : IPAddress) (p : option Z) (Ha : wf_address a) (Hz : zone_ok a) (Hp : port_ok p).

Lemma suffix_head : port_suffix p = [] ∨ head (port_suffix p) = Some 58%N.
Proof. destruct p; [by right|by left]. Qed.
Lemma suffix_port : (partition 58 (port_suffix p)).2 = match p with Some n => str_int n | None => [] end.
Proof. by destruct p. Qed.

Lemma bracketed_str : version a = 6 → bracketed_host_ok (str_address a) = true.
Proof.
  intros Hv. pose proof (address_roundtrip a Ha) as Hr. destruct a as [|ip sc]; [done|].
  destruct Ha as [Hip _]. destruct (str_ipv6_cons ip Hip) as (c & s & Hs & Hc).
  assert (∃ s', str_address (IPv6Address ip sc) = c :: s') as [s' Hs']
    by (destruct sc; unfold str_address; rewrite Hs; eexists; reflexivity).
  rewrite Hs' in *. unfold bracketed_host_ok. rewrite Hr. unfold core_char in Hc. repeat case_match; try done; lia.
Qed.

Lemma pinned_netloc_v6 : version a = 6 →
  netloc_brackets_ok (91%N :: str_address a ++ 93%N :: port_suffix p) = true ∧
  hostinfo (91%N :: str_address a ++ 93%N :: port_suffix p) = (str_address a, match p with Some n => str_int n | None => [] end).
Proof.
  intros Hv. pose proof (str_address_chars a Ha Hz) as Hchars. destruct (suffix_chars p Hp) as [Hs Hs91].
  pose proof (zone_chars_free _ 93 Hchars ltac:(set_solver)) as H93. pose proof (zone_chars_free _ 64 Hchars ltac:(set_solver)) as H64.
  pose proof (zone_chars_free _ 64 Hs ltac:(set_solver)) as H64'.
  assert (64%N ∉ 91%N :: str_address a ++ 93%N :: port_suffix p) as Hno by set_solver.
  assert (contains 91 (91%N :: str_address a ++ 93%N :: port_suffix p) = true) as E1 by (apply contains_true; set_solver).
  assert (contains 93 (91%N :: str_address a ++ 93%N :: port_suffix p) = true) as E2 by (apply contains_true; set_solver).
  pose proof (bracketed_str Hv) as Hb. pose proof suffix_head as Hh. pose proof suffix_port as Hport.
  set (str := str_address a) in *. clearbody str.
  split.
  - unfold netloc_brackets_ok, bracketed_netloc_ok. rewrite E1, E2, rpartition_no by done. simpl.
    rewrite partition_app by done. rewrite Hb. rewrite andb_true_r. apply orb_true_iff.
    destruct Hh as [->|Hh]; [by left|right; by apply bool_decide_eq_true_2].
  - unfold hostinfo. rewrite rpartition_no by done. simpl. rewrite partition_app by done. by rewrite Hport.
Qed.

Lemma pinned_netloc_v4 : version a = 4 →
  netloc_brackets_ok (str_address a ++ port_suffix p) = true ∧
  hostinfo (str_address a ++ port_suffix p) = (str_address a, match p with Some n => str_int n | None => [] end).
Proof.
  intros Hv. destruct a as [ip|]; [|done]. unfold str_address.
  destruct (suffix_chars p Hp) as [Hs Hs91].
  assert (∀ c, (57 < c)%N → c ∉ str_ipv4 ip) as Hf by (intros; apply str_ipv4_free; lia).
  pose proof (zone_chars_free _ 93 Hs ltac:(set_solver)) as H93. pose proof (zone_chars_free _ 64 Hs ltac:(set_solver)) as H64.
  assert (91%N ∉ str_ipv4 ip ++ port_suffix p) as N91 by (rewrite not_elem_of_app; split; [apply Hf; lia|done]).
  assert (93%N ∉ str_ipv4 ip ++ port_suffix p) as N93 by (rewrite not_elem_of_app; split; [apply Hf; lia|done]).
  assert (64%N ∉ str_ipv4 ip ++ port_suffix p) as N64 by (rewrite not_elem_of_app; split; [apply Hf; lia|done]).
  split.
  - unfold netloc_brackets_ok. by rewrite (proj2 (contains_false 91 _) N91), (proj2 (contains_false 93 _) N93).
  - unfold hostinfo. rewrite rpartition_no by done. simpl. rewrite partition_no by done.
    destruct p as [n|]; simpl.
    + change (58%N :: str_int n) with ([58%N] ++ str_int n). rewrite partition_app by (apply Hf; lia). done.
    + rewrite app_nil_r, partition_no by (apply Hf; lia). done.
Qed.

Lemma pinned_netloc :
  netloc_ok (format_address_for_url a ++ port_suffix p) ∧ 64%N ∉ format_address_for_url a ++ port_suffix p ∧
  hostinfo (format_address_for_url a ++ port_suffix p) = (str_address a, match p with Some n => str_int n | None => [] end).
Proof.
  pose proof (str_address_chars a Ha Hz) as Hchars. destruct (suffix_chars p Hp) as [Hs _].
  assert (zone_char' : Forall (λ c, (c < 128)%N ∧ unsafe_byte c = false ∧ c ∉ [47; 63; 35; 64]%N) (format_address_for_url a ++ port_suffix p)).
  { assert (∀ l, Forall zone_char l → Forall (λ c, (c < 128)%N ∧ unsafe_byte c = false ∧ c ∉ [47; 63; 35; 64]%N) l) as Hw.
    { intros l Hl. eapply Forall_impl; [exact Hl|]. intros c (? & ? & Hn). split; [done|]. split; [done|].
      intros Hin. apply Hn. rewrite !elem_of_cons, elem_of_nil in *. tauto. }
    apply Forall_app. split; [|by apply Hw]. unfold format_address_for_url. destruct (_ =? 6); [|by apply Hw].
    repeat (apply Forall_app; split); try by apply Hw.
    all: constructor; [|constructor]; split; [done|]; split; [done|]; by apply (bool_decide_unpack _). }
  assert (hostinfo (format_address_for_url a ++ port_suffix p) = (str_address a, match p with Some n => str_int n | None => [] end) ∧
    netloc_brackets_ok (format_address_for_url a ++ port_suffix p) = true) as [Hhost Hbr].
  { unfold format_address_for_url. destruct (Z.eqb_spec (version a) 6) as [Hv|Hv].
    - replace ((lit "[" ++ str_address a ++ lit "]") ++ port_suffix p) with (91%N :: str_address a ++ 93%N :: port_suffix p)
        by (unfold lit; simpl; by rewrite <-app_assoc).
      destruct (pinned_netloc_v6 Hv). done.
    - assert (version a = 4) as Hv4 by (by destruct a). destruct (pinned_netloc_v4 Hv4). done. }
  set (n := format_address_for_url a ++ port_suffix p) in *. clearbody n. rename zone_char' into Hn.
  assert (∀ c, c ∈ [47; 63; 35; 64]%N → c ∉ n) as Hfree by (intros c Hc Hin; rewrite Forall_forall in Hn; by apply Hn in Hin as (_ & _ & ?)).
  split; [|split; [apply Hfree; set_solver|done]]. split.
  - split_and!; apply Hfree; set_solver.
  - eapply Forall_impl; [exact Hn|]. by intros c (_ & ? & _).
  - apply forallb_forall. intros c Hc%list_elem_of_In. rewrite Forall_forall in Hn. apply Hn in Hc as (Hc & _). by apply N.ltb_lt.
  - done.
Qed.
End Netloc.

(** ** The pinned URL *)

Lemma core_lower l : Forall core_char l → ascii_lower l = l.
Proof.
  intros H. unfold ascii_lower. induction H as [|c l Hc _ IH]; [done|]. rewrite fmap_cons, IH. f_equal.
  unfold core_char in Hc. destruct ((65 <=? c)%N && (c <=? 90)%N) eqn:E; [|done].
  apply andb_prop in E as [?%N.leb_le ?%N.leb_le]. lia.
Qed.

Lemma core_ascii l : Forall core_char l → ascii_only l = true.
Proof. intros H. apply zone_chars_ascii. eapply Forall_impl; [exact H|apply core_zone_char]. Qed.

Lemma str_address_ne a : wf_address a → str_address a ≠ [].
Proof. intros Ha E. pose proof (address_roundtrip a Ha) as H. rewrite E in H. by vm_compute in H. Qed.

Section Pin.
  Context (lower nfkc : pystr → pystr) (lower_ascii : ∀ s, ascii_only s = true → lower s = ascii_lower s).

Lemma pinned_hostname a n : wf_address a → (hostinfo (netloc n)).1 = str_address a → hostname lower n = Some (str_address a).
Proof.
  intros Ha Hh. unfold hostname. rewrite Hh, bool_decide_eq_false_2 by (by apply str_address_ne).
  destruct a as [ip|ip sc]; unfold str_address.
  - rewrite partition_no by (apply str_ipv4_free; lia). pose proof (str_ipv4_chars ip) as Hc.
    by rewrite lower_ascii, core_lower, app_nil_r by (exact Hc || by apply core_ascii).
  - destruct Ha as [Hip Hsc]. destruct (str_ipv6_spec ip Hip) as (_ & _ & Hf). pose proof (str_ipv6_chars ip Hip) as Hc.
    destruct sc as [zone|].
    + change (lit "%" ++ zone) with (37%N :: zone). rewrite partition_app by (apply Hf; lia).
      by rewrite lower_ascii, core_lower by (exact Hc || by apply core_ascii).
    + rewrite partition_no by (apply Hf; lia). by rewrite lower_ascii, core_lower, app_nil_r by (exact Hc || by apply core_ascii).
Qed.

Lemma port_bound p port : PyUrl.port p = Ok port → port_ok port.
Proof.
  unfold PyUrl.port. case_bool_decide; [intros [= <-]; exact I|]. destruct (ascii_digits _); [|done]. simpl.
  destruct (parse_digits _) as [n|] eqn:E; [|done]. destruct (Z.leb_spec n 65535); [|done]. intros [= <-]. simpl.
  apply parse_digits_nonneg in E. lia.
Qed.

Lemma pinned_port n port : port_ok port → (hostinfo (netloc n)).2 = match port with Some k => str_int k | None => [] end →
  PyUrl.port n = Ok port.
Proof.
  intros Hp Hh. unfold PyUrl.port. rewrite Hh. destruct port as [k|]; [|done]. simpl in Hp.
  rewrite bool_decide_eq_false_2 by apply radix_ne. rewrite str_int_digits, parse_str_int by lia. simpl.
  destruct (Z.leb_spec k 65535); [done|lia].
Qed.

Lemma hostname_netloc p h : hostname lower p = Some h → netloc p ≠ [].
Proof. unfold hostname. intros H E. by rewrite E in H. Qed.

Lemma pin_parts url p a pinned sni host_header :
  urlsplit nfkc url = Some p → scheme p ≠ [] → wf_address a → zone_ok a →
  pin_url_to_address lower nfkc url a = Some (pinned, sni, host_header) →
  ∃ p', urlsplit nfkc pinned = Some p' ∧ hostname lower p' = Some (str_address a) ∧ PyUrl.port p' = PyUrl.port p ∧
    has_userinfo p' = false ∧ scheme p' = scheme p ∧ same_path (path p) (path p') ∧ query p' = query p ∧ fragment p' = fragment p ∧
    hostname lower p = Some sni.
Proof.
  intros Hu Hs Ha Hz. unfold pin_url_to_address. rewrite Hu.
  destruct (hostname lower p) as [h|] eqn:Eh; [|done]. destruct (PyUrl.port p) as [port|] eqn:Ep; [|done].
  fold (port_suffix port). intros [= <- <- _]. pose proof (port_bound _ _ Ep) as Hport.
  pose proof (urlsplit_ok _ _ _ Hu Hs (hostname_netloc _ _ Eh)) as Hok.
  destruct (pinned_netloc a port Ha Hz Hport) as (Hn & Hat & Hhost).
  destruct (with_netloc_spec p (format_address_for_url a ++ port_suffix port) Hok) as (Hok' & E1 & E2 & E3 & E4 & E5).
  exists (with_netloc p (format_address_for_url a ++ port_suffix port)).
  split; [apply urlsplit_urlunsplit; by rewrite ?E2|]. split; [apply pinned_hostname; [done|by rewrite E2, Hhost]|].
  split; [apply pinned_port; [done|by rewrite E2, Hhost]|]. split; [unfold has_userinfo; rewrite E2; by apply contains_false|].
  done.
Qed.

(** The address is all the pinned URL names.  Splitting the URL
    [pin_url_to_address] returns gives a host that is the text of the validated
    address, and reading that text gives back the address, for every IPv4 and
    IPv6 address; scheme, port, path, query and fragment are those of the
    original URL (an empty parameter after the last [;] of the path is dropped),
    and no user information is left.  The TLS name is the original host. *)
Theorem pinned_url_roundtrip url p a pinned sni host_header :
  urlsplit nfkc url = Some p → scheme p ≠ [] → wf_address a → zone_ok a →
  pin_url_to_address lower nfkc url a = Some (pinned, sni, host_header) →
  ∃ p', urlsplit nfkc pinned = Some p' ∧ hostname lower p' = Some (str_address a) ∧ ip_address (str_address a) = Some a ∧
    PyUrl.port p' = PyUrl.port p ∧ has_userinfo p' = false ∧ scheme p' = scheme p ∧
    same_path (path p) (path p') ∧ query p' = query p ∧ fragment p' = fragment p ∧ hostname lower p = Some sni.
Proof.
  intros Hu Hs Ha Hz Hpin. destruct (pin_parts _ _ _ _ _ _ Hu Hs Ha Hz Hpin) as (p' & H1 & H2 & H3 & H4).
  exists p'. rewrite address_roundtrip by done. tauto.
Qed.
End Pin.
