(* ===== verification/EgressSafety.v ===== *)
(** * The strict egress client is safe

    Whatever the resolver and the network do: requests go only to addresses that
    were judged, at most as many as the policy says, another one only after a
    failure that sent nothing; responses are bounded and never redirects; and an
    error that says nothing was sent says the truth. *)

From S2P Require Import Prelude PyStr PyText PyIp PyUrl PlatformAuthority PlatformService Egress EgressClient EgressProofs.

Section Safety.
Context (lower nfkc : pystr → pystr) (policy : StrictEgressPolicy).
Context (lower_ascii : ∀ s, ascii_only s = true → lower s = ascii_lower s).

Abbreviation validate := (validate_url lower nfkc policy).
Abbreviation is_trusted := (trusted lower policy).

(** ** Validated destinations *)

Record destination_ok (d : Destination) (parts : SplitResult) : Prop := {
  do_split : urlsplit nfkc d.(d_url) = Some parts;
  do_scheme : scheme parts = lit "https";
  do_host : hostname lower parts = Some d.(d_hostname);
  do_port : ∃ p, PyUrl.port parts = Ok p ∧ d.(d_port) = default 443 p;
  do_allowed : d.(d_port) ∈ policy.(allowed_ports);
  do_literal : d.(d_literal) = ip_address d.(d_hostname);
  do_public : ∀ a, d.(d_literal) = Some a → is_non_public_address a = false;
  do_plain : 64%N ∉ netloc parts ∧ ascii_only (netloc parts) = true;
}.

Lemma ascii_only_spec s : ascii_only s = true ↔ ∀ c, c ∈ s → (c < 128)%N.
Proof.
  unfold ascii_only. rewrite forallb_forall. split; intros H c Hc; [apply N.ltb_lt, H|apply N.ltb_lt, H]; by apply list_elem_of_In.
Qed.

Lemma validate_url_ok url d : validate url = Ok d → ∃ parts, destination_ok d parts.
Proof.
  unfold validate_url. destruct (_ || _) eqn:Eg; [done|]. apply orb_false_iff in Eg as [_ Hasc%negb_false_iff].
  destruct (urlsplit nfkc url) as [parts|] eqn:Eu; [|done]. destruct (PyUrl.port parts) as [p|] eqn:Ep; [|done].
  destruct (bool_decide (scheme parts = lit "https")) eqn:Es; [|done]. apply bool_decide_eq_true in Es. simpl.
  destruct (has_userinfo parts) eqn:Ei; [done|]. destruct (hostname lower parts) as [host|] eqn:Eh; [|done].
  case_bool_decide; [done|]. case_bool_decide as Hport; [|done]. simpl.
  destruct (match ip_address host with Some a => is_non_public_address a | None => false end) eqn:El; [done|].
  intros [= <-]. apply contains_false in Ei. pose proof (urlsplit_netloc _ _ _ Eu) as (Hd & Hsafe & Hsub & Hbr).
  assert (ascii_only (netloc parts) = true) as Hna.
  { rewrite ascii_only_spec in *. intros c Hc. by apply Hasc, Hsub. }
  assert (split_ok parts) as Hok.
  { eapply urlsplit_ok; [done| |by eapply hostname_netloc]. rewrite Es. done. }
  exists (mkSplit (scheme parts) (netloc parts) (path parts) (query parts) []). split; simpl; try done.
  - apply urlsplit_urlunsplit; simpl; [|done]. destruct Hok as [H1 H2 H3 H4 H5 H6]. split; simpl; try done.
    rewrite app_nil_r. rewrite app_assoc in H6. by apply Forall_app in H6 as [? _].
  - by exists p.
  - intros a Ha. by rewrite Ha in El.
Qed.

(** The zone of a literal address is a piece of the URL's host. *)
Lemma literal_zone d parts a : destination_ok d parts → d.(d_literal) = Some a → wf_address a ∧ zone_ok a.
Proof.
  intros [Hs _ Hh _ _ Hl _ [Hat Hasc]] Ha. rewrite Hl in Ha. split; [by eapply ip_address_wf|].
  destruct a as [|ip [zone|]]; simpl; try done.
  destruct (urlsplit_netloc _ _ _ Hs) as ((Hd1 & Hd2 & Hd3) & Hsafe & _ & _).
  unfold hostname in Hh. destruct (hostinfo (netloc parts)) as [host text] eqn:Ei. simpl in Hh.
  case_bool_decide; [done|]. destruct (partition 37 host) as [[name pct] z] eqn:Ep. injection Hh as Hh.
  pose proof (partition_spec _ _ _ _ _ Ep) as (Hname & Hhost & _). destruct (hostinfo_host _ _ _ Ei) as [Hsub Hbr].
  rewrite ascii_only_spec in Hasc.
  assert (ascii_only name = true) as Hna.
  { apply ascii_only_spec. intros c Hc. apply Hasc, Hsub. rewrite Hhost. apply elem_of_app. by left. }
  rewrite lower_ascii in Hh by done. rewrite <-Hh in Ha.
  assert (37%N ∉ ascii_lower name ∧ (58%N ∉ name → 58%N ∉ ascii_lower name)) as [Hpct Hcol].
  { unfold ascii_lower. split; [|intros Hn]; intros (x & Hx & Hin)%list_elem_of_fmap; destruct (_ && _)%N eqn:E in Hx;
      try (subst x; done); apply andb_prop in E as [?%N.leb_le _]; lia. }
  unfold ip_address in Ha. destruct (ipv4_from_string _); [done|]. destruct (contains 47 _); [done|].
  destruct pct.
  - rewrite partition_app in Ha by done. destruct (true && _); [done|].
    destruct (ipv6_from_string (ascii_lower name)) as [ip'|] eqn:E6; [|done]. injection Ha as _ ->.
    assert (58%N ∈ name) as Hc58.
    { destruct (decide (58%N ∈ name)) as [|Hn%Hcol]; [done|]. unfold ipv6_from_string in E6. by rewrite split_on_no in E6. }
    assert (∀ c, c ∈ zone → c ∈ host) as Hzh by (intros c Hc; rewrite Hhost; apply elem_of_app; right; by right).
    apply Forall_forall. intros c Hc. split; [by apply Hasc, Hsub, Hzh|]. rewrite Forall_forall in Hsafe.
    split; [by apply Hsafe, Hsub, Hzh|]. intros Hin. apply Hzh in Hc.
    rewrite !elem_of_cons, elem_of_nil in Hin. destruct Hin as [->|[->|[->|[->|[->|[]]]]]]; try (by apply Hsub in Hc).
    destruct Hbr as [Hbr|Hbr]; [done|]. apply Hbr. rewrite Hhost. apply elem_of_app. by left.
  - rewrite app_nil_r, partition_no in Ha by done. simpl in Ha. by destruct (ipv6_from_string _).
Qed.

(** ** Validated answers *)

(** The address an answer of the resolver reads as, without its scope. *)
Definition answer_address (item : pystr) : option IPAddress := ip_address (partition 37 item).1.1.

Definition judged_ok (d : Destination) (a : IPAddress) : Prop :=
  is_non_public_address a = false ∨ is_trusted d a = true.

Lemma answer_scope item a : answer_address item = Some a → wf_address a ∧ zone_ok a.
Proof.
  unfold answer_address. intros H. split; [by eapply ip_address_wf|]. destruct (partition 37 item) as [[b f] c] eqn:E.
  apply partition_spec in E as (Hno & _). simpl in H. unfold ip_address in H. destruct (ipv4_from_string b); [by simplify_eq|].
  destruct (contains 47 b); [done|]. rewrite partition_no in H by done. simpl in H.
  destruct (ipv6_from_string b); [|done]. by injection H as <-.
Qed.

Lemma validate_answers_spec d raw validated addresses : validate_answers lower policy d validated raw = Ok addresses →
  (∀ a, a ∈ addresses → a ∈ validated ∨ ∃ item, item ∈ raw ∧ answer_address item = Some a) ∧
  ∀ item, item ∈ raw → ∃ a, answer_address item = Some a ∧ judged_ok d a.
Proof.
  revert validated. induction raw as [|item raw IH]; intros validated; simpl; [intros [= <-]; set_solver|].
  change (ip_address (partition 37 item).1.1) with (answer_address item).
  destruct (answer_address item) as [a|] eqn:Ea; [|done]. destruct (is_non_public_address a && negb (is_trusted d a)) eqn:Ej; [done|].
  intros [H1 H2]%IH. split.
  - intros b Hb. apply H1 in Hb as [Hb|(it & Hit & Hb)]; [|right; exists it; split; [by right|done]].
    case_bool_decide; [by left|]. apply elem_of_app in Hb as [Hb| ->%list_elem_of_singleton]; [by left|].
    right. exists item. split; [by left|done].
  - intros it [->|Hit]%elem_of_cons; [|by apply H2]. exists a. split; [done|]. unfold judged_ok.
    apply andb_false_iff in Ej as [?|Hn]; [by left|right]. by apply negb_false_iff in Hn.
Qed.

Lemma validate_answers_raise d raw validated e : validate_answers lower policy d validated raw = Raise e → request_may_have_been_sent e = false.
Proof.
  revert validated. induction raw as [|item raw IH]; intros v; simpl; [done|].
  destruct (ip_address _); [|by intros [= <-]]. destruct (_ && _); [by intros [= <-]|apply IH].
Qed.

(** Where an address of a request comes from. *)
Definition address_source (resolver : pystr → Z → resolution) (d : Destination) (a : IPAddress) : Prop :=
  match d.(d_literal) with
  | Some l => a = l
  | None => ∃ answers, resolver d.(d_hostname) d.(d_port) = Resolved answers ∧
              (∃ item, item ∈ answers ∧ answer_address item = Some a) ∧
              ∀ item, item ∈ answers → ∃ b, answer_address item = Some b ∧ judged_ok d b
  end.

Section World.
Context (clock : nat → Z) (resolver : pystr → Z → resolution) (transport : nat → Request → http_result).

Lemma validated_addresses_spec d parts s addresses s' : destination_ok d parts →
  validated_addresses lower policy resolver d s = (Ok addresses, s') →
  s' = s ∧ ∀ a, a ∈ addresses → wf_address a ∧ zone_ok a ∧ judged_ok d a ∧ address_source resolver d a.
Proof.
  intros Hd. unfold validated_addresses, address_source. destruct (d_literal d) as [l|] eqn:El.
  - intros [= <- <-]. split; [done|]. intros a ->%list_elem_of_singleton.
    destruct (literal_zone _ _ _ Hd El). split; [done|]. split; [done|]. split; [|done]. left. by eapply do_public.
  - destruct (resolver (d_hostname d) (d_port d)) as [raw| |] eqn:Er; try done.
    destruct raw as [|item raw]; [done|].
    destruct (validate_answers lower policy d [] (item :: raw)) as [l|e] eqn:Ev; [|done].
    intros [= <- <-]. split; [done|]. apply validate_answers_spec in Ev as [H1 H2]. intros a Ha.
    apply H1 in Ha as [Ha|(it & Hit & Ha)]; [by apply elem_of_nil in Ha|].
    destruct (answer_scope _ _ Ha). split; [done|]. split; [done|]. split.
    + destruct (H2 _ Hit) as (b & Hb & Hj). rewrite Ha in Hb. by injection Hb as <-.
    + eexists. split; [done|]. eauto.
Qed.

Lemma validated_addresses_store d s : (validated_addresses lower policy resolver d s).2 = s.
Proof. unfold validated_addresses. by repeat case_match. Qed.

(** ** One request *)

Definition request_to (method : Method) (d : Destination) (content : option pystr) (a : IPAddress) (rq : Request) : Prop :=
  ∃ sni host_header,
    pin_url_to_address lower nfkc d.(d_url) a = Some (rq.(rq_url), sni, host_header) ∧
    rq.(rq_method) = method ∧ rq.(rq_content) = content ∧
    rq.(rq_sni_hostname) = match d.(d_literal) with None => Some sni | Some _ => None end.

Lemma exchange_spec method d a headers content deadline s r s' :
  exchange lower nfkc policy clock transport method d a headers content deadline s = (r, s') →
  (requests s' = requests s ∧ r = Raise (Egress (EgressDestinationError "invalid_url"))) ∨
  ∃ rq, requests s' = rq :: requests s ∧ request_to method d content a rq ∧
        r = read_response lower policy (transport (length (requests s)) rq).
Proof.
  unfold exchange. destruct (pin_url_to_address lower nfkc (d_url d) a) as [[[pinned sni] hh]|] eqn:Ep.
  - unfold bind, monotonic. simpl. intros [= <- <-]. right. eexists. split; [done|]. split; [|done].
    exists sni, hh. by rewrite Ep.
  - intros [= <- <-]. by left.
Qed.

(** The outcome after which the next address is tried. *)
Definition moves_on (r : result client_exn EgressResponse) : Prop :=
  ∃ e, r = Raise (Egress e) ∧ request_may_have_been_sent e = false.

(** The attempts of one call: the [i]-th request goes to the [i]-th address. *)
Definition attempts (method : Method) (d : Destination) (content : option pystr) (addresses : list IPAddress) (first : nat)
    (sent : list Request) : Prop :=
  (length sent ≤ length addresses)%nat ∧
  ∀ i rq, sent !! i = Some rq →
    (∃ a, addresses !! i = Some a ∧ request_to method d content a rq) ∧
    (S i < length sent → moves_on (read_response lower policy (transport (first + i) rq)))%nat.

Lemma attempts_cons method d content a addresses first rq sent :
  request_to method d content a rq → (sent ≠ [] → moves_on (read_response lower policy (transport first rq))) →
  attempts method d content addresses (S first) sent → attempts method d content (a :: addresses) first (rq :: sent).
Proof.
  intros Hrq Hm [Hl Ha]. split; [simpl; lia|]. intros [|i] rq' Hi; simpl in Hi.
  - injection Hi as <-. split; [eauto|]. rewrite Nat.add_0_r. simpl. intros H. apply Hm. by destruct sent; [simpl in H; lia|].
  - destruct (Ha i rq' Hi) as [H1 H2]. split; [done|]. simpl. intros H. replace (first + S i)%nat with (S first + i)%nat by lia.
    apply H2. lia.
Qed.

(** What the result of the call says about its attempts. *)
Definition result_of (first : nat) (sent : list Request) (last_error : egress_error) (r : result client_exn EgressResponse) : Prop :=
  match last sent with
  | None => r = Raise (Egress last_error) ∨ r = Raise (Egress (EgressDestinationError "invalid_url"))
  | Some rq =>
      r = read_response lower policy (transport (first + (length sent - 1)) rq) ∨
      (moves_on (read_response lower policy (transport (first + (length sent - 1)) rq)) ∧ ∃ e, r = Raise (Egress e))
  end.

Lemma try_addresses_spec method d headers content deadline addresses last_error s r s' :
  request_may_have_been_sent last_error = false →
  try_addresses lower nfkc policy clock transport method d addresses headers content deadline last_error s = (r, s') →
  ∃ sent, requests s' = reverse sent ++ requests s ∧ attempts method d content addresses (length (requests s)) sent ∧
    result_of (length (requests s)) sent last_error r.
Proof.
  revert last_error s r s'. induction addresses as [|a addresses IH]; intros last_error s r s' Hlast; simpl.
  - intros [= <- <-]. exists []. split; [done|]. split; [split; [done|]; intros i rq Hi; by rewrite lookup_nil in Hi|]. by left.
  - unfold bind at 1, monotonic. destruct (expired deadline (clock (ticks s))).
    { intros [= <- <-]. exists []. split; [done|]. split; [split; [simpl; lia|]; intros i rq Hi; by rewrite lookup_nil in Hi|]. by left. }
    set (s1 := mkNet (S (ticks s)) (requests s)).
    destruct (exchange lower nfkc policy clock transport method d a headers content deadline s1) as [r1 s2] eqn:Ee.
    assert (∀ e, r1 = Raise (Egress e) → request_may_have_been_sent e = false →
      try_addresses lower nfkc policy clock transport method d addresses headers content deadline e s2 = (r, s') →
      (∃ rq, requests s2 = rq :: requests s ∧ request_to method d content a rq ∧ r1 = read_response lower policy (transport (length (requests s)) rq)) →
      ∃ sent, requests s' = reverse sent ++ requests s ∧ attempts method d content (a :: addresses) (length (requests s)) sent ∧
        result_of (length (requests s)) sent last_error r) as Hnext.
    { intros e -> He Htry (rq & Hrq & Hto & Hr1). destruct (IH _ _ _ _ He Htry) as (sent & Hs & Hatt & Hres).
      rewrite Hrq in Hs, Hatt, Hres. simpl in Hatt, Hres. exists (rq :: sent).
      split; [by rewrite reverse_cons, <-app_assoc|].
      assert (moves_on (read_response lower policy (transport (length (requests s)) rq))) as Hmv by (rewrite <-Hr1; by exists e).
      split; [by apply attempts_cons|]. unfold result_of in *. rewrite last_cons. destruct (last sent) as [rq'|] eqn:El.
      - destruct sent; [done|]. simpl in Hres |- *. rewrite ?Nat.sub_0_r in *. by rewrite Nat.add_succ_r.
      - apply last_None in El as ->. simpl. rewrite Nat.add_0_r. destruct Hres as [-> | ->]; right; eauto. }
    assert (∀ s2', s2' = s2 → (r1, s2) = (r, s') → ∃ sent, requests s' = reverse sent ++ requests s ∧
      attempts method d content (a :: addresses) (length (requests s)) sent ∧ result_of (length (requests s)) sent last_error r) as Hstop.
    { intros _ _ [= -> ->]. destruct (exchange_spec _ _ _ _ _ _ _ _ _ Ee) as [[Hs ->]|(rq & Hs & Hto & ->)].
      - exists []. split; [done|]. split; [split; [simpl; lia|]; intros i rq Hi; by rewrite lookup_nil in Hi|]. by right.
      - exists [rq]. split; [done|]. split.
        + apply attempts_cons; [done|done|]. split; [simpl; lia|]. intros i rq' Hi. by rewrite lookup_nil in Hi.
        + left. simpl. by rewrite Nat.add_0_r. }
    destruct (exchange_spec _ _ _ _ _ _ _ _ _ Ee) as [[_ Hr1]|Hsent].
    { rewrite Hr1 in *. by apply (Hstop s2). }
    destruct r1 as [resp|[e|]]; [by apply (Hstop s2)| |by apply (Hstop s2)].
    destruct e as [| | | | | | |re ph sent| | |]; try (by apply (Hstop s2)).
    + intros H. by eapply Hnext.
    + destruct sent; [by apply (Hstop s2)|]. intros H. by eapply Hnext.
Qed.

(** ** A whole call *)

Definition outcome_of (r : result client_exn EgressResponse) : result client_exn EgressResponse :=
  match r with
  | Raise TimeoutError => Raise (Egress (EgressTimeoutError "deadline_expired" "total" true))
  | r => r
  end.

Lemma request_spec method url headers content deadline n r s' :
  request lower nfkc policy clock resolver transport method url headers content deadline (mkNet n []) = (r, s') →
  (requests s' = [] ∧ moves_on r) ∨
  ∃ d parts addresses sent r0,
    validate url = Ok d ∧ destination_ok d parts ∧
    (∀ a, a ∈ addresses → wf_address a ∧ zone_ok a ∧ judged_ok d a ∧ address_source resolver d a) ∧
    requests s' = reverse sent ∧ attempts method d content (take (Z.to_nat policy.(max_addresses_tried)) addresses) 0 sent ∧
    result_of 0 sent EgressConnectError r0 ∧ r = outcome_of r0.
Proof.
  unfold request. destruct (validate url) as [d|e] eqn:Ev.
  2: { intros [= <- <-]. left. split; [done|]. exists e. split; [done|]. clear -Ev. unfold validate_url in Ev.
       repeat case_match; simplify_eq; done. }
  destruct (validate_url_ok _ _ Ev) as [parts Hd].
  destruct (existsb _ headers); [intros [= <- <-]; left; split; [done|]; by eexists|].
  unfold bind, monotonic. simpl. destruct (expired deadline (clock n)); [intros [= <- <-]; left; split; [done|]; by eexists|].
  cbn [ticks requests]. pose proof (validated_addresses_store d (mkNet (S (S n)) [])) as Hst.
  destruct (validated_addresses lower policy resolver d (mkNet (S (S n)) [])) as [[addresses|e] s1] eqn:Ea; simpl in Hst; subst s1.
  - destruct (validated_addresses_spec _ _ _ _ _ Hd Ea) as [_ Haddr].
    match goal with |- context [try_addresses ?a ?b ?c ?d ?e ?f ?g ?h ?i ?j ?k ?l ?m] =>
      destruct (try_addresses a b c d e f g h i j k l m) as [r0 s2] eqn:Et end.
    destruct (try_addresses_spec _ _ _ _ _ _ EgressConnectError _ _ _ eq_refl Et) as (sent & Hs & Hatt & Hres). simpl in *.
    rewrite app_nil_r in Hs. intros H. right. exists d, parts, addresses, sent, r0. split_and!; try done.
    + destruct r0 as [|[]]; injection H as <- <-; done.
    + destruct r0 as [|[]]; injection H as <- <-; done.
  - intros H. left. unfold validated_addresses, throw in Ea.
    destruct (d_literal d); [done|]. destruct (resolver (d_hostname d) (d_port d)) as [[|item raw]| |];
      [| |injection Ea as <-; injection H as <- <-; split; [done|]; by eexists..].
    + injection Ea as <-; injection H as <- <-; split; [done|]; by eexists.
    + destruct (validate_answers lower policy d [] (item :: raw)) as [|e'] eqn:Ev'; [done|]. injection Ea as <-.
      injection H as <- <-. split; [done|]. eexists. split; [done|]. by eapply validate_answers_raise.
Qed.

(** ** Responses *)

Definition before_sending (f : http_failure) : bool :=
  match f with ConnectTimeout | PoolTimeout | ConnectError _ | TransportError _ => true | _ => false end.

Lemma read_body_ok limit sofar chunks c b : Z.of_nat (length sofar) ≤ limit → read_body limit sofar chunks c = Ok b → Z.of_nat (length b) ≤ limit.
Proof.
  revert sofar. induction chunks as [|ch chunks IH]; intros sofar Hl; simpl; [destruct c; [done|by intros [= <-]]|].
  destruct (Z.ltb_spec limit (Z.of_nat (length (sofar ++ ch)))); [done|]. by apply IH.
Qed.
Lemma read_body_raise limit sofar chunks c e : read_body limit sofar chunks c = Raise (Egress e) → request_may_have_been_sent e = false →
  ∃ f, c = Some f ∧ before_sending f = true.
Proof.
  revert sofar. induction chunks as [|ch chunks IH]; intros sofar; simpl.
  - destruct c as [f|]; [|done]. intros [= Hf] He. exists f. split; [done|]. by destruct f; simpl in Hf; simplify_eq.
  - destruct (_ <? _); [by intros [= <-]|]. apply IH.
Qed.

Lemma read_response_raise r e : (∀ st hs ch f, r = Responded st hs ch (Some f) → before_sending f = false) →
  read_response lower policy r = Raise (Egress e) → request_may_have_been_sent e = false → ∃ f, r = Failed f ∧ before_sending f = true.
Proof.
  intros Hcut. destruct r as [f|st hs ch c]; simpl.
  - intros [= Hf] He. exists f. split; [done|]. by destruct f; simpl in Hf; simplify_eq.
  - destruct (_ && _); [by intros [= <-]|]. destruct (negb _); [by intros [= <-]|].
    destruct (declared_too_large lower _ hs); [by intros [= <-]|].
    destruct (read_body (max_response_bytes policy) [] ch c) as [b|e'] eqn:Eb; simpl; [done|]. intros [= ->] He.
    destruct (read_body_raise _ _ _ _ _ Eb He) as (f & -> & Hf). by rewrite (Hcut _ _ _ _ eq_refl) in Hf.
Qed.

Lemma read_response_ok r resp : 0 ≤ policy.(max_response_bytes) → read_response lower policy r = Ok resp →
  Z.of_nat (length resp.(body)) ≤ policy.(max_response_bytes) ∧ ¬ 300 ≤ resp.(status_code) < 400.
Proof.
  intros Hm. destruct r as [f|st hs ch c]; simpl; [done|]. destruct (_ && _) eqn:Est; [done|]. destruct (negb _); [done|].
  destruct (declared_too_large lower _ hs); [done|].
  destruct (read_body (max_response_bytes policy) [] ch c) as [b|e'] eqn:Eb; simpl; [|done]. intros [= <-]; simpl. split.
  - by eapply read_body_ok; [|exact Eb].
  - intros H. apply andb_false_iff in Est as [E|E]; reflect_bools; lia.
Qed.

(** C11: The strict client reaches judged addresses only.  Whatever the clock, the
    resolver and the network do, a call sends at most [max_addresses_tried]
    requests, and each of them is a URL with scheme https, no user information,
    an allowed port, and a host that is a literal address: the literal of the
    caller's URL, or one of the answers of this call's single resolution, every
    one of which was judged.  The address is publicly routable or covered by the
    trust entry of that host and port, and is never a loopback, link-local,
    metadata, multicast, unspecified or reserved one.  A further request is only
    made after a failure that sent nothing. *)
Theorem strict_client_destinations method url headers content deadline n r s' :
  request lower nfkc policy clock resolver transport method url headers content deadline (mkNet n []) = (r, s') →
  let sent := reverse s'.(requests) in
  (length sent ≤ Z.to_nat policy.(max_addresses_tried))%nat ∧
  ∀ i rq, sent !! i = Some rq →
    (∃ d a p port,
      validate_url lower nfkc policy url = Ok d ∧
      urlsplit nfkc rq.(rq_url) = Some p ∧ scheme p = lit "https" ∧ has_userinfo p = false ∧
      PyUrl.port p = Ok port ∧ default 443 port ∈ policy.(allowed_ports) ∧
      hostname lower p = Some (str_address a) ∧ ip_address (str_address a) = Some a ∧
      address_source resolver d a ∧ judged_ok d a ∧ is_never_trustable a = false ∧
      rq.(rq_sni_hostname) = match d.(d_literal) with None => Some d.(d_hostname) | Some _ => None end) ∧
    (S i < length sent → moves_on (read_response lower policy (transport i rq)))%nat.
Proof.
  intros [[-> _]|(d & parts & addresses & sent & r0 & Hv & Hd & Haddr & -> & [Hl Hatt] & _ & _)]%request_spec; cbv zeta.
  { split; [simpl; lia|]. intros i rq Hi. by rewrite reverse_nil, lookup_nil in Hi. }
  rewrite reverse_involutive. rewrite length_take in Hl. split; [lia|]. intros i rq Hi.
  destruct (Hatt i rq Hi) as [(a & Ha & sni & hh & Hpin & _ & _ & Hsni) Hm]. split; [|exact Hm].
  assert (a ∈ addresses) as Hin by (apply elem_of_take in Ha || (apply lookup_take_Some in Ha as [Ha _]); by eapply list_elem_of_lookup_2).
  destruct (Haddr a Hin) as (Hwf & Hz & Hj & Hsrc). destruct Hd as [D1 D2 D3 (p0 & D4 & D5) D6 D7 D8 D9].
  destruct (pin_parts lower nfkc lower_ascii _ _ _ _ _ _ D1 ltac:(by rewrite D2) Hwf Hz Hpin)
    as (p' & P1 & P2 & P3 & P4 & P5 & _ & _ & _ & P9).
  exists d, a, p', p0. rewrite address_roundtrip by done. split_and!; try done.
  - congruence.
  - congruence.
  - by rewrite <-D5.
  - destruct Hj as [Hp|Ht]; [by apply public_trustable|]. unfold trusted in Ht. by destruct (is_never_trustable a).
  - rewrite Hsni. destruct (d_literal d); [done|]. congruence.
Qed.

(** C34: What the strict client reports is true.  A response it returns is within
    the policy's size limit and is no redirect.  If an error says that the
    request cannot have been sent, then every request the call made failed before
    a connection was established, given that the HTTP library raises its
    connection errors only while connecting, never while a body is read. *)
Theorem strict_client_reports method url headers content deadline n r s' :
  0 ≤ policy.(max_response_bytes) →
  (∀ k rq st hs ch f, transport k rq = Responded st hs ch (Some f) → before_sending f = false) →
  request lower nfkc policy clock resolver transport method url headers content deadline (mkNet n []) = (r, s') →
  (∀ resp, r = Ok resp → Z.of_nat (length resp.(body)) ≤ policy.(max_response_bytes) ∧ ¬ 300 ≤ resp.(status_code) < 400) ∧
  (∀ e, r = Raise (Egress e) → request_may_have_been_sent e = false →
     ∀ i rq, reverse s'.(requests) !! i = Some rq → ∃ f, transport i rq = Failed f ∧ before_sending f = true).
Proof.
  intros Hm Hcut [[-> (e & -> & He)]|(d & parts & addresses & sent & r0 & _ & _ & _ & -> & [_ Hatt] & Hres & ->)]%request_spec.
  { split; [done|]. intros e' _ _ i rq Hi. by rewrite reverse_nil, lookup_nil in Hi. }
  assert (∀ i rq, moves_on (read_response lower policy (transport i rq)) → ∃ f, transport i rq = Failed f ∧ before_sending f = true) as Hmv.
  { intros i rq (e & H1 & H2). eapply read_response_raise; [|done..]. intros. by eapply Hcut. }
  unfold result_of in Hres. rewrite Nat.add_0_l in Hres. destruct (last sent) as [rq|] eqn:El.
  - split.
    + intros resp Hr. destruct Hres as [->|(_ & e & ->)]; [|done].
      eapply read_response_ok; [done|]. destruct (read_response lower policy _) as [|[]] eqn:E; simpl in Hr; [|done..].
      rewrite E. congruence.
    + intros e He Hsent i rq' Hi. rewrite reverse_involutive in Hi. destruct (decide (S i < length sent)%nat) as [Hlt|Hge].
      * apply Hmv. by apply (Hatt i rq' Hi).
      * assert (i = length sent - 1)%nat as -> by (apply lookup_lt_Some in Hi; lia).
        rewrite last_lookup, Hi in El || (rewrite last_lookup in El; replace (pred (length sent)) with (length sent - 1)%nat in El by lia; rewrite Hi in El).
        injection El as ->. apply Hmv. destruct Hres as [Hr0|[Hmo _]]; [|exact Hmo].
        exists e. split; [|done]. rewrite <-Hr0. destruct r0 as [|[]]; simpl in He; simplify_eq; done.
  - apply last_None in El as ->. split; [by destruct Hres as [-> | ->]|].
    intros e _ _ i rq Hi. by rewrite !reverse_nil, lookup_nil in Hi.
Qed.
End World.
End Safety.

(** * Egress: concrete runs

    The claims on the strict client at a host with a private and a public name,
    one that fails to connect and one that answers. *)

Definition demo_policy : StrictEgressPolicy := mkPolicy 5 10 1000 [443; 8443] 2 [].
Definition demo_clock (n : nat) : Z := Z.of_nat n * 1000.
Definition demo_resolver (host : pystr) (port : Z) : resolution := Resolved [lit "8.8.8.8"; lit "2001:4860:4860::8888"].
Definition demo_transport (n : nat) (rq : Request) : http_result :=
  match n with
  | O => Failed (ConnectError false)
  | _ => Responded 200 [(lit "Content-Length", lit "2")] [lit "o"; lit "k"] None
  end.
Definition demo_url : pystr := lit "https://user:pw@Example.com:8443/a;b?q=1#f".
Definition demo_call : result client_exn EgressResponse * net :=
  request ascii_lower id demo_policy demo_clock demo_resolver demo_transport GET (lit "https://example.com/x") [] None (mkDeadline 20000000) (mkNet 0 []).

Lemma demo_lower s : ascii_only s = true → ascii_lower s = ascii_lower s.
Proof. done. Qed.

(** 64:ff9b::a00:1, 2002:a9fe:a9fe:: and 2002:808:808::. *)
Definition nat64_private : IPAddress := IPv6Address (0x64ff9b * 2 ^ 96 + quad 10 0 0 1) None.
Definition sixtofour_metadata : IPAddress := IPv6Address (0x2002 * 2 ^ 112 + quad 169 254 169 254 * 2 ^ 80) None.
Definition sixtofour_public : IPAddress := IPv6Address (0x2002 * 2 ^ 112 + quad 8 8 8 8 * 2 ^ 80) None.

Lemma address_policy_exact_witness :
  is_non_public_address nat64_private = true ∧ IPv4Address (quad 10 0 0 1) ∈ embedded_ipv4_addresses nat64_private ∧
  is_never_trustable sixtofour_metadata = true ∧ is_never_trustable sixtofour_public = false.
Proof.
  destruct (address_policy_exact nat64_private) as (-> & _ & _ & He); [by vm_compute|].
  destruct (address_policy_exact sixtofour_metadata) as (_ & -> & _); [by vm_compute|].
  destruct (address_policy_exact sixtofour_public) as (_ & -> & _); [by vm_compute|].
  split; [by vm_compute|]. split; [|by vm_compute]. apply He. eexists _, _. split; [reflexivity|]. split; [by vm_compute|]. right; left. reflexivity.
Defined.

Lemma pinned_url_roundtrip_witness :
  ∃ p pinned sni hh, urlsplit id demo_url = Some p ∧ pin_url_to_address ascii_lower id demo_url (IPv6Address 1 None) = Some (pinned, sni, hh) ∧
    (hostname ascii_lower <$> urlsplit id pinned) = Some (Some (lit "::1")).
Proof.
  destruct (urlsplit id demo_url) as [p|] eqn:E; [|by vm_compute in E].
  destruct (pin_url_to_address ascii_lower id demo_url (IPv6Address 1 None)) as [[[pinned sni] hh]|] eqn:E2; [|by vm_compute in E2].
  exists p, pinned, sni, hh. split; [done|]. split; [done|].
  destruct (pinned_url_roundtrip ascii_lower id demo_lower demo_url p (IPv6Address 1 None) pinned sni hh E) as (p' & -> & H & _); [|done|done|done|].
  - vm_compute in E. by injection E as <-.
  - simpl. rewrite H. f_equal.
Defined.

Lemma demo_call_sent : length (requests demo_call.2) = 2%nat.
Proof. by vm_compute. Qed.

Lemma strict_client_destinations_witness :
  length (requests demo_call.2) = 2%nat ∧
  ∀ i rq, reverse (requests demo_call.2) !! i = Some rq → ∃ p, urlsplit id rq.(rq_url) = Some p ∧ scheme p = lit "https".
Proof.
  split; [exact demo_call_sent|]. intros i rq Hi. destruct demo_call as [r s'] eqn:E.
  destruct (strict_client_destinations ascii_lower id demo_policy demo_lower demo_clock demo_resolver demo_transport GET
    (lit "https://example.com/x") [] None (mkDeadline 20000000) 0 r s' E) as [_ H].
  destruct (H i rq Hi) as [(d & a & p & port & _ & Hp & Hs & _) _]. by exists p.
Defined.

Lemma strict_client_reports_witness : ∃ resp, demo_call.1 = Ok resp ∧ Z.of_nat (length (body resp)) ≤ 1000.
Proof.
  destruct demo_call as [r s'] eqn:E. destruct r as [resp|e]; [|by apply (f_equal fst) in E; vm_compute in E].
  exists resp. split; [done|].
  apply (strict_client_reports ascii_lower id demo_policy demo_lower demo_clock demo_resolver demo_transport GET
    (lit "https://example.com/x") [] None (mkDeadline 20000000) 0 (Ok resp) s'); [by vm_compute| |exact E|done].
  by intros [|k] rq st hs ch f.
Defined.
