(* ===== verification/Crypto.v ===== *)
(** * Field encryption (saas_os/core/crypto: envelope.py, keys.py, service.py)

    A ciphertext is an envelope [efv1:<key version>:<nonce>:<ciphertext>]; the
    keys are named secrets.  [secret] is the secrets provider, [upper] is
    [str.upper], [aes_encrypt]/[aes_decrypt] are AES-GCM of the cryptography
    package ([None] is [InvalidTag]); the random nonce is an argument. *)

From S2P Require Import Prelude PyStr PyText.

Inductive crypto_error : Type :=
| EncryptionKeyUnavailableError (key_version : pystr)
| UnknownKeyVersionError (key_version : pystr)
| MalformedCiphertextError
| UnsupportedCiphertextVersionError (format_version : pystr)
| DecryptionAuthenticationError
| CryptoValueError.            (* ValueError, UnicodeEncodeError *)

(** ** envelope.py *)

Definition FORMAT_VERSION : pystr := lit "efv1".
Definition FIELD_COUNT : nat := 4.

Record ParsedEnvelope : Type := mkEnvelope {
  format_version : pystr;
  key_version : pystr;
  nonce : pystr;
  ciphertext_and_tag : pystr;
}.

Definition encode (key_version nonce ciphertext_and_tag : pystr) : result crypto_error pystr :=
  if bool_decide (key_version = []) then Raise CryptoValueError
  else if contains 58 key_version then Raise CryptoValueError
  else Ok (join (lit ":") [FORMAT_VERSION; key_version; b64_encode nonce; b64_encode ciphertext_and_tag]).

(** [_b64decode] *)
Definition field_b64decode (data : pystr) : result crypto_error pystr :=
  match b64_decode true data with Some b => Ok b | None => Raise MalformedCiphertextError end.

Definition decode (envelope : pystr) : result crypto_error ParsedEnvelope :=
  match split_on 58 envelope with
  | [format_version; key_version; nonce_b64; ciphertext_b64] =>
      if negb (bool_decide (format_version = FORMAT_VERSION)) then Raise (UnsupportedCiphertextVersionError format_version)
      else if bool_decide (key_version = []) then Raise MalformedCiphertextError
      else
        let* nonce := field_b64decode nonce_b64 in
        let* ciphertext_and_tag := field_b64decode ciphertext_b64 in
        if negb (length nonce =? 12)%nat then Raise MalformedCiphertextError
        else if bool_decide (ciphertext_and_tag = []) then Raise MalformedCiphertextError
        else Ok (mkEnvelope format_version key_version nonce ciphertext_and_tag)
  | _ => Raise MalformedCiphertextError
  end.

(** ** keys.py *)

Definition KEY_BYTES_LENGTH : nat := 32.
Definition ACTIVE_KEY_VERSION_SECRET_NAME : pystr := lit "FIELD_ENCRYPTION_ACTIVE_KEY_VERSION".
Abbreviation secrets := (pystr → option pystr).

Section Crypto.
Context (upper : pystr → pystr).
Context (aes_encrypt : pystr → pystr → pystr → option pystr → pystr) (aes_decrypt : pystr → pystr → pystr → option pystr → option pystr).

Definition key_secret_name (key_version : pystr) : pystr := lit "FIELD_ENCRYPTION_KEY_" ++ upper key_version.

Definition current_key_version (secret : secrets) : result crypto_error pystr :=
  match secret ACTIVE_KEY_VERSION_SECRET_NAME with
  | Some (c :: v) => Ok (c :: v)
  | _ => Raise (EncryptionKeyUnavailableError (lit "<active>"))
  end.

Definition key_for_version (secret : secrets) (key_version : pystr) : result crypto_error pystr :=
  match secret (key_secret_name key_version) with
  | Some (c :: raw) =>
      match b64_decode false (c :: raw) with
      | Some key_bytes =>
          if (length key_bytes =? KEY_BYTES_LENGTH)%nat then Ok key_bytes else Raise (EncryptionKeyUnavailableError key_version)
      | None => Raise (EncryptionKeyUnavailableError key_version)
      end
  | _ => Raise (UnknownKeyVersionError key_version)
  end.

(** ** service.py *)

Definition encrypt (secret : secrets) (urandom plaintext : pystr) (associated_data : option pystr) : result crypto_error pystr :=
  let* key_version := current_key_version secret in
  let* key := key_for_version secret key_version in
  encode key_version urandom (aes_encrypt key urandom plaintext associated_data).

Definition decrypt (secret : secrets) (envelope : pystr) (associated_data : option pystr) : result crypto_error pystr :=
  let* parsed := decode envelope in
  let* key := key_for_version secret parsed.(key_version) in
  match aes_decrypt key parsed.(nonce) parsed.(ciphertext_and_tag) associated_data with
  | Some plaintext => Ok plaintext
  | None => Raise DecryptionAuthenticationError
  end.

Definition encrypt_str (secret : secrets) (urandom plaintext : pystr) (associated_data : option pystr) : result crypto_error pystr :=
  match utf8_encode plaintext with
  | Some bytes => encrypt secret urandom bytes associated_data
  | None => Raise CryptoValueError
  end.

Definition decrypt_str (secret : secrets) (envelope : pystr) (associated_data : option pystr) : result crypto_error pystr :=
  let* bytes := decrypt secret envelope associated_data in
  match utf8_decode bytes with
  | Some s => Ok s
  | None => Raise MalformedCiphertextError
  end.

(** ** Lemmas *)

(** AES-GCM as documented: a decryption checks the tag by computing it again, so that
    it accepts exactly what encrypting its result gives; no associated data are
    the empty associated data; a ciphertext is bytes and holds at least the tag. *)
Record aes_gcm : Prop := {
  gcm_decrypts : ∀ k n c ad p, aes_decrypt k n c ad = Some p ↔ c = aes_encrypt k n p ad;
  gcm_no_data : ∀ k n p, aes_encrypt k n p None = aes_encrypt k n p (Some []);
  gcm_bytes : ∀ k n p ad, is_bytes p → is_bytes (aes_encrypt k n p ad) ∧ aes_encrypt k n p ad ≠ [];
}.

Lemma decode_encode kv n ct e : is_bytes n → length n = 12%nat → is_bytes ct → ct ≠ [] →
  encode kv n ct = Ok e → decode e = Ok (mkEnvelope FORMAT_VERSION kv n ct) ∧ startswith (lit "efv1:") e = true.
Proof.
  intros Hn Hl Hct Hne. unfold encode. case_bool_decide as Hkv; [done|]. destruct (contains 58 kv) eqn:Hc; [done|]. intros He.
  assert (e = join [58%N] [FORMAT_VERSION; kv; b64_encode n; b64_encode ct]) as -> by (inversion He; reflexivity).
  apply contains_false in Hc. split.
  - unfold decode. rewrite split_join; [|done|].
    + rewrite bool_decide_eq_true_2 by done. simpl. rewrite bool_decide_eq_false_2 by done.
      unfold field_b64decode. rewrite !b64_roundtrip by done. simpl. rewrite Hl. simpl. by rewrite bool_decide_eq_false_2.
    + repeat constructor; try done; [by apply (bool_decide_unpack _)|by apply b64_encode_colon..].
  - apply startswith_spec. eexists. reflexivity.
Qed.

Lemma utf8_encode_bytes s b : utf8_encode s = Some b → is_bytes b.
Proof.
  unfold utf8_encode. destruct (mapM utf8_char s) as [l|] eqn:E; [|done]. intros [= <-]. apply mapM_Some in E.
  induction E as [|c bytes s l Hc _ IH]; [constructor|]. change (mjoin (bytes :: l)) with (bytes ++ mjoin l). apply Forall_app. split; [|done].
  by apply utf8_char_bytes in Hc.
Qed.

(** What [encrypt_str] returns. *)
Lemma encrypt_str_spec secret n p ad e : aes_gcm → is_bytes n → length n = 12%nat → encrypt_str secret n p ad = Ok e →
  ∃ kv key b, current_key_version secret = Ok kv ∧ key_for_version secret kv = Ok key ∧ utf8_encode p = Some b ∧
    decode e = Ok (mkEnvelope FORMAT_VERSION kv n (aes_encrypt key n b ad)) ∧ startswith (lit "efv1:") e = true.
Proof.
  intros Hgcm Hn Hl. unfold encrypt_str. destruct (utf8_encode p) as [b|] eqn:Eb; [|done]. unfold encrypt.
  destruct (current_key_version secret) as [kv|] eqn:Ek; [|done]. simpl. destruct (key_for_version secret kv) as [key|] eqn:Ey; [|done].
  simpl. intros He. exists kv, key, b. split_and!; try done.
  all: destruct (gcm_bytes Hgcm key n b ad (utf8_encode_bytes _ _ Eb)); by apply (decode_encode kv n (aes_encrypt key n b ad)).
Qed.

(** Associated data as the cipher takes them. *)
Definition ad_bytes (ad : option pystr) : pystr := default [] ad.
Lemma encrypt_ad_bytes k n p ad ad' : aes_gcm → ad_bytes ad = ad_bytes ad' → aes_encrypt k n p ad = aes_encrypt k n p ad'.
Proof.
  intros Hgcm E. destruct ad as [a|], ad' as [a'|]; simpl in E; subst; try done; [symmetry|]; by apply gcm_no_data.
Qed.
(** The ciphertext of the text [p], under the active key, the nonce [n] and [ad], is
    that of some text under [ad'] as well, of the same key and nonce: its
    authentication tag collides. *)
Definition tag_collision (secret : secrets) (n p : pystr) (ad ad' : option pystr) : Prop :=
  ∃ kv key b b', current_key_version secret = Ok kv ∧ key_for_version secret kv = Ok key ∧ utf8_encode p = Some b ∧
    aes_encrypt key n b ad = aes_encrypt key n b' ad'.

Lemma decrypt_str_spec secret0 secret kv key n b p ad ad' e : decode e = Ok (mkEnvelope FORMAT_VERSION kv n (aes_encrypt key n b ad)) →
  current_key_version secret0 = Ok kv → key_for_version secret0 kv = Ok key → key_for_version secret kv = Ok key → utf8_encode p = Some b → aes_gcm →
  if decide (ad_bytes ad = ad_bytes ad') then decrypt_str secret e ad' = Ok p
  else decrypt_str secret e ad' = Raise DecryptionAuthenticationError ∨ tag_collision secret0 n p ad ad'.
Proof.
  intros He Hv0 Hk0 Hk Hp Hgcm. unfold decrypt_str, decrypt. rewrite He. simpl. rewrite Hk. simpl. case_decide as Had.
  - rewrite (proj2 (gcm_decrypts Hgcm key n _ ad' b)) by (by apply encrypt_ad_bytes). simpl. by rewrite (utf8_roundtrip p b).
  - destruct (aes_decrypt key n (aes_encrypt key n b ad) ad') as [b'|] eqn:E; [right|by left].
    apply gcm_decrypts in E; [|done]. by exists kv, key, b, b'.
Qed.

(** C33: An encrypted field survives the rotation of keys and cannot be moved.
    What [encrypt_str] made under one state of the secrets decrypts to the same
    text under any later state that keeps the keys it had, whatever version is
    active there, with the same associated data (none and empty ones are the same
    to the cipher, and the service passes them on as they are); presented with
    other associated data it is refused, unless this very ciphertext has a valid tag
    under them as well; once its key version is gone it is refused by that version's name. *)
Theorem encryption_rotates s1 s2 n p ad e : aes_gcm → is_bytes n → length n = 12%nat →
  encrypt_str s1 n p ad = Ok e →
  (∀ kv key, key_for_version s1 kv = Ok key → key_for_version s2 kv = Ok key) →
  (∀ ad', ad_bytes ad = ad_bytes ad' → decrypt_str s2 e ad' = Ok p) ∧
  (∀ ad', ad_bytes ad ≠ ad_bytes ad' → decrypt_str s2 e ad' = Raise DecryptionAuthenticationError ∨ tag_collision s1 n p ad ad') ∧
  ∃ kv, current_key_version s1 = Ok kv ∧
    ∀ s3 ad', s3 (key_secret_name kv) = None → decrypt_str s3 e ad' = Raise (UnknownKeyVersionError kv).
Proof.
  intros Hgcm Hn Hl (kv & key & b & Hkv & Hkey & Hb & He & _)%encrypt_str_spec Hkeep; [|done..].
  pose proof (Hkeep _ _ Hkey) as Hkey2. split_and!.
  - intros ad' Had. pose proof (decrypt_str_spec s1 s2 kv key n b p ad ad' e) as H. rewrite decide_True in H by done. by apply H.
  - intros ad' Had. pose proof (decrypt_str_spec s1 s2 kv key n b p ad ad' e) as H. rewrite decide_False in H by done. by apply H.
  - exists kv. split; [done|]. intros s3 ad' Hs3. unfold decrypt_str, decrypt. rewrite He. simpl. unfold key_for_version. by rewrite Hs3.
Qed.
End Crypto.
