(* ===== verification/Webhooks.v ===== *)
(** * Webhooks: configuration, subscriptions, signatures, replays
    (saas_os/core/webhooks: config.py, errors.py, models.py, service.py)

    A tenant's subscriptions with their encrypted signing secrets, the signed
    envelope and its verification, the ledger of accepted events, and the outbox
    events a delivery is recorded as.  [hmac_hex] is the hexadecimal
    HMAC-SHA-256, [int10] and [int16] are Python's [int(_)] and [int(_, 16)] on
    any text; configuration values are read from the environment.  Log lines are
    not modelled. *)

From stdpp Require Import pretty.
From S2P Require Import Prelude PyStr PyTime PyText PyIp PyUrl TenantLifecycle PlatformAuthority PlatformService TenantHierarchy RbacDecision RbacService OutboxModel Outbox Egress Crypto.

(** ** models.py *)

Record WebhookSubscription : Type := mkWebhook {
  wh_tenant_id : uuid;
  wh_url : pystr;
  wh_signing_secret : pystr;
}.
Record WebhookReplayRecord : Type := mkReplay {
  rr_tenant_id : uuid;
  rr_subscription_id : uuid;
  rr_event_id : uuid;
  rr_created_at : datetime;
}.

(** ** errors.py *)

Inductive webhook_error : Type :=
| WebhookConfigurationError
| InvalidWebhookUrlError
| WebhookSubscriptionNotFoundError (tenant_id subscription_id : uuid)
| WebhookDeliveryError (subscription_id : uuid) (reason : string)
| WebhookTimestampInvalidError
| WebhookSignatureInvalidError
| WebhookReplayDetectedError (tenant_id subscription_id event_id : uuid)
| WebhookDestinationRejectedError
| WebhookDestinationUnresolvedError
| WebhookPermanentDeliveryError (subscription_id : uuid) (reason : string)
| WebhookAmbiguousDeliveryError (subscription_id : uuid) (reason phase : string)
| WebhookNotSentError (subscription_id : uuid) (reason : string)
| MalformedWebhookEventError (reason : string)
| WebhookSecretReencryptionError
| WebhookSecretReencryptionKeyError
| WRbac (e : rbac_error)
| WPlatform (e : platform_error)
| WCrypto (e : crypto_error)
| WOutbox (e : outbox_exn)
| WEgress (e : egress_error)
| WValueError                   (* a ValueError of the standard library *)
| WIntegrityError
| WDataError.

(** ** The store *)

Record webhook_store : Type := mkWebhooks {
  wb_tenancy : tenancy_store;
  wb_rbac : rbac_store;
  wb_subscriptions : gmap uuid WebhookSubscription;
  wb_replays : gmap uuid WebhookReplayRecord;
  wb_events : gmap uuid OutboxEvent;
  wb_consumptions : gset (uuid * pystr * uuid);
}.
Abbreviation WM := (M webhook_store webhook_error).

Definition put_rbac (rb : rbac_store) (st : webhook_store) : webhook_store :=
  mkWebhooks st.(wb_tenancy) rb st.(wb_subscriptions) st.(wb_replays) st.(wb_events) st.(wb_consumptions).
Definition put_platform (p : platform_store) (st : webhook_store) : webhook_store :=
  mkWebhooks (set_platform p st.(wb_tenancy)) st.(wb_rbac) st.(wb_subscriptions) st.(wb_replays) st.(wb_events) st.(wb_consumptions).
Definition put_subscriptions (m : gmap uuid WebhookSubscription) (st : webhook_store) : webhook_store :=
  mkWebhooks st.(wb_tenancy) st.(wb_rbac) m st.(wb_replays) st.(wb_events) st.(wb_consumptions).
Definition put_replays (m : gmap uuid WebhookReplayRecord) (st : webhook_store) : webhook_store :=
  mkWebhooks st.(wb_tenancy) st.(wb_rbac) st.(wb_subscriptions) m st.(wb_events) st.(wb_consumptions).

(** Computations of the other components in the same transaction. *)
Definition in_rbac {A : Type} (m : tenancy_store → RM A) : WM A :=
  λ st, match m st.(wb_tenancy) st.(wb_rbac) with
        | (Ok a, rb) => (Ok a, put_rbac rb st)
        | (Raise e, rb) => (Raise (WRbac e), put_rbac rb st)
        end.
Definition of_tenant {A : Type} (r : tenancy_store → result tenant_error A) : WM unit :=
  λ st, (match r st.(wb_tenancy) with Ok _ => Ok tt | Raise e => Raise (WRbac (RTenant e)) end, st).
Definition in_outbox {A : Type} (m : M outbox_store outbox_exn A) : WM A :=
  λ st, match m (mkStore st.(wb_tenancy).(ts_tenants) st.(wb_events) st.(wb_consumptions) [] st.(wb_rbac).(rs_drawn)) with
        | (r, os) =>
            (match r with Ok a => Ok a | Raise e => Raise (WOutbox e) end,
             mkWebhooks st.(wb_tenancy)
               (mkRbacStore st.(wb_rbac).(rs_rows) st.(wb_rbac).(rs_roles) st.(wb_rbac).(rs_events) os.(os_drawn))
               st.(wb_subscriptions) st.(wb_replays) os.(os_events) os.(os_consumptions))
        end.
Definition wlift {A : Type} (r : result webhook_error A) : WM A := λ st, (r, st).
Definition of_crypto {A : Type} (r : result crypto_error A) : result webhook_error A :=
  match r with Ok a => Ok a | Raise e => Raise (WCrypto e) end.

(** ** config.py *)

Definition DEFAULT_TOLERANCE_SECONDS : Z := 300.
Definition HTTP_ALLOWED_WHEN_UNSET : bool := false.

Record WebhookSecurityConfig : Type := mkConfig {
  tolerance_seconds : Z;
  webhook_allowed_ports : option (list Z);
  allow_http : option bool;
}.
Definition http_allowed (c : WebhookSecurityConfig) : bool := default HTTP_ALLOWED_WHEN_UNSET c.(allow_http).

(** [__post_init__] *)
Definition webhook_security_config (c : WebhookSecurityConfig) : result webhook_error WebhookSecurityConfig :=
  if c.(tolerance_seconds) <? 1 then Raise WebhookConfigurationError
  else match c.(webhook_allowed_ports) with
       | Some ports =>
           if bool_decide (ports = []) || existsb (λ port, negb ((1 <=? port) && (port <=? 65535))) ports
           then Raise WebhookConfigurationError else Ok c
       | None => Ok c
       end.

Definition parse_ports (raw : pystr) : result webhook_error (list Z) :=
  let items := strip <$> split_on 44 raw in
  match mapM (λ item, if ascii_digits item then parse_digits item else None) items with
  | Some ports => Ok ports
  | None => Raise WebhookConfigurationError
  end.

Record webhook_environment : Type := mkWebhookEnv {
  env_tolerance : option pystr;
  env_ports : option pystr;
  env_allow_http : option pystr;
}.

Section Text.
Context (lower nfkc : pystr → pystr) (int10 : pystr → option Z).

Definition parse_bool (raw : pystr) : result webhook_error bool :=
  let normalized := lower (strip raw) in
  if bool_decide (normalized ∈ lit <$> ["1"; "true"; "yes"; "on"]%string) then Ok true
  else if bool_decide (normalized ∈ lit <$> ["0"; "false"; "no"; "off"]%string) then Ok false
  else Raise WebhookConfigurationError.

(** [_webhook_security_config_from_env] *)
Definition webhook_security_config_from_env (e : webhook_environment) : result webhook_error WebhookSecurityConfig :=
  let* tolerance := match e.(env_tolerance) with
                    | Some raw => match int10 raw with Some n => Ok n | None => Raise WebhookConfigurationError end
                    | None => Ok DEFAULT_TOLERANCE_SECONDS
                    end in
  let* ports := match e.(env_ports) with
                | Some raw => let* ps := parse_ports raw in Ok (Some ps)
                | None => Ok None
                end in
  let* http := match e.(env_allow_http) with
               | Some raw => let* b := parse_bool raw in Ok (Some b)
               | None => Ok None
               end in
  webhook_security_config (mkConfig tolerance ports http).

(** ** URLs *)

(** [get_webhook_security_config()], as it was read. *)
Context (config : result webhook_error WebhookSecurityConfig).

Definition MAX_URL_LENGTH : nat := 2048.

Definition urlparse (url : pystr) : result webhook_error SplitResult :=
  match urlsplit nfkc url with Some p => Ok p | None => Raise WValueError end.

Definition DEFAULT_PORTS (scheme : pystr) : option Z :=
  if bool_decide (scheme = lit "https") then Some 443 else if bool_decide (scheme = lit "http") then Some 80 else None.

(** [_require_allowed_port] *)
Definition require_allowed_port (url : pystr) (error : webhook_error) : result webhook_error unit :=
  let* c := config in
  let* parsed := urlparse url in
  match PyUrl.port parsed with
  | Raise _ => Raise error
  | Ok port =>
      match c.(webhook_allowed_ports) with
      | None => Ok tt
      | Some allowed =>
          let effective := match port with Some n => Some n | None => DEFAULT_PORTS parsed.(scheme) end in
          if match effective with Some n => bool_decide (n ∈ allowed) | None => false end then Ok tt else Raise error
      end
  end.

(** [_require_http_allowed] *)
Definition require_http_allowed (url : pystr) (error : webhook_error) : result webhook_error unit :=
  let* parsed := urlparse url in
  if negb (bool_decide (parsed.(scheme) = lit "http")) then Ok tt
  else let* c := config in if negb (http_allowed c) then Raise error else Ok tt.

(** [_reject_if_literal_non_public_address] *)
Definition reject_if_literal_non_public_address (hostname : pystr) : result webhook_error unit :=
  match ip_address hostname with
  | None => Ok tt
  | Some a => if is_non_public_address a then Raise InvalidWebhookUrlError else Ok tt
  end.

(** [_validate_url] *)
Definition validate_webhook_url (url : pystr) : result webhook_error unit :=
  if bool_decide (url = []) || bool_decide (MAX_URL_LENGTH < length url)%nat || existsb is_control url
  then Raise InvalidWebhookUrlError
  else
    let* parsed := urlparse url in
    if negb (bool_decide (parsed.(scheme) ∈ [lit "http"; lit "https"])) || bool_decide (parsed.(netloc) = [])
    then Raise InvalidWebhookUrlError
    else match hostname lower parsed with
         | None => Raise InvalidWebhookUrlError
         | Some host =>
             let* _ := require_allowed_port url InvalidWebhookUrlError in
             reject_if_literal_non_public_address host
         end.
End Text.

(** ** UUIDs as texts *)

(** [str(u)]: 32 hexadecimal digits in groups of 8, 4, 4, 4 and 12. *)
Fixpoint hex_pad (w : nat) (n : Z) : pystr :=
  match w with
  | O => []
  | S w => hex_pad w (n / 16) ++ [digit_char (n mod 16)]
  end.
Definition uuid_hex (u : uuid) : pystr := hex_pad 32 (Z.of_N u).
Definition str_uuid (u : uuid) : pystr :=
  let h := uuid_hex u in
  join (lit "-") [take 8 h; take 4 (drop 8 h); take 4 (drop 12 h); take 4 (drop 16 h); drop 20 h].

(** [s.strip('{}')] *)
Fixpoint lstrip_braces (s : pystr) : pystr :=
  match s with
  | c :: s' => if bool_decide (c ∈ [123; 125]%N) then lstrip_braces s' else s
  | [] => []
  end.
Definition strip_braces (s : pystr) : pystr := reverse (lstrip_braces (reverse (lstrip_braces s))).

(** [str(value)] of a JSON value that can be the text of a UUID: a text or a
    number; any other value's has quotes, brackets or letters beyond [f]. *)
Definition str_value (v : json) : option pystr :=
  match v with
  | JStr s => Some s
  | JNum z => Some ((if z <? 0 then lit "-" else []) ++ str_int (Z.abs z))
  | _ => None
  end.

Section Values.
Context (int16 : pystr → option Z).

(** [uuid.UUID(s)]; [None] is [ValueError]. *)
Definition uuid_of_string (s : pystr) : option uuid :=
  let hex := filter (λ c, c ≠ 45%N) (strip_braces (replace (lit "uuid:") [] (replace (lit "urn:") [] s))) in
  if (length hex =? 32)%nat then Z.to_N <$> int16 hex else None.

Definition dict_get (k : string) (d : list (pystr * json)) : option json := snd <$> find (λ p : pystr * json, bool_decide (p.1 = lit k)) d.

Definition uuid_field (k : string) (d : list (pystr * json)) : option uuid :=
  match dict_get k d with
  | Some v => match str_value v with Some s => uuid_of_string s | None => None end
  | None => None
  end.

(** [_parse_delivery] *)
Definition parse_delivery (data : list (pystr * json)) : result webhook_error (uuid * uuid * pystr * list (pystr * json)) :=
  match uuid_field "subscription_id" data, uuid_field "event_id" data with
  | Some subscription_id, Some event_id =>
      match dict_get "event_type" data with
      | Some (JStr (c :: event_type)) =>
          match dict_get "event_data" data with
          | Some (JObj event_data) => Ok (subscription_id, event_id, c :: event_type, event_data)
          | _ => Raise (MalformedWebhookEventError "event_data is not an object")
          end
      | _ => Raise (MalformedWebhookEventError "missing or invalid event_type")
      end
  | _, _ => Raise (MalformedWebhookEventError "missing or invalid subscription_id/event_id")
  end.
End Values.

(** ** [json.dumps] *)

Definition hex4 (c : N) : pystr := lit "\u" ++ hex_pad 4 (Z.of_N c).
Definition json_char (c : N) : pystr :=
  (if c =? 34 then lit "\" ++ [34]
   else if c =? 92 then lit "\\"
   else if c =? 10 then lit "\n"
   else if c =? 13 then lit "\r"
   else if c =? 9 then lit "\t"
   else if c =? 8 then lit "\b"
   else if c =? 12 then lit "\f"
   else if (32 <=? c) && (c <? 127) then [c]
   else if c <? 65536 then hex4 c
   else hex4 (0xD800 + (c - 65536) / 1024) ++ hex4 (0xDC00 + (c - 65536) mod 1024))%N.
Definition json_text (s : pystr) : pystr := [34%N] ++ (s ≫= json_char) ++ [34%N].
Fixpoint dumps (v : json) : pystr :=
  match v with
  | JNull => lit "null"
  | JBool b => if b then lit "true" else lit "false"
  | JNum z => (if z <? 0 then lit "-" else []) ++ str_int (Z.abs z)
  | JStr s => json_text s
  | JList l => lit "[" ++ join (lit ", ") (map dumps l) ++ lit "]"
  | JObj l => lit "{" ++ join (lit ", ") (map (λ p : pystr * json, json_text p.1 ++ lit ": " ++ dumps p.2) l) ++ lit "}"
  end.

(** [_encode_event]; the text is ASCII. *)
Definition encode_event (event_id : uuid) (event_type : pystr) (event_data : list (pystr * json)) : pystr :=
  dumps (JObj [(lit "event_id", JStr (str_uuid event_id)); (lit "event_type", JStr event_type); (lit "data", JObj event_data)]).

Example event_texts :
  str_uuid 0x123e4567e89b12d3a456426614174000 = lit "123e4567-e89b-12d3-a456-426614174000" ∧
  uuid_of_string parse_hex (lit "{123e4567-e89b-12d3-a456-426614174000}") = Some 0x123e4567e89b12d3a456426614174000%N ∧
  dumps (JObj [(lit "a", JList [JNum (-12); JBool true]); (lit "b", JStr (lit "x" ++ [10; 8364]%N))]) =
    lit "{" ++ [34%N] ++ lit "a" ++ [34%N] ++ lit ": [-12, true], " ++ [34%N] ++ lit "b" ++ [34%N] ++ lit ": " ++ [34%N] ++
    lit "x\n\u20ac" ++ [34%N] ++ lit "}".
Proof. vm_compute. repeat split; reflexivity. Qed.
