(* ===== verification/WebhookService.v ===== *)
(** * Webhooks: the service (saas_os/core/webhooks/service.py, reencryption.py)

    Signing and verification, the replay ledger, the management of subscriptions,
    the fan-out of an event, retention and purge, and the re-encryption of legacy
    secrets.  [aes_encrypt]/[aes_decrypt], [upper] and [secret] as in field
    encryption; a fresh secret or nonce is an argument of the operation that
    makes one. *)

From stdpp Require Import pretty.
From S2P Require Import Prelude PyStr PyTime PyText PyIp PyUrl TenantLifecycle PlatformAuthority PlatformService TenantHierarchy RbacDecision RbacService OutboxModel Outbox Egress Crypto Webhooks.

Section Service.
Context (uuid4 : nat → uuid) (lower nfkc upper : pystr → pystr) (int16 : pystr → option Z).
Context (hmac_hex : pystr → pystr → pystr).
Context (aes_encrypt : pystr → pystr → pystr → option pystr → pystr) (aes_decrypt : pystr → pystr → pystr → option pystr → option pystr).
Context (secret : secrets) (config : result webhook_error WebhookSecurityConfig).

(** ** Signing secrets *)

Definition SIGNING_SECRET_ENVELOPE_PREFIX : pystr := lit "efv1:".
Definition signing_secret_associated_data (tenant_id : uuid) : pystr := lit "webhook_signing_secret:" ++ str_uuid tenant_id.

(** [_encrypt_signing_secret] *)
Definition encrypt_signing_secret (urandom : pystr) (tenant_id : uuid) (raw_secret : pystr) : result crypto_error pystr :=
  encrypt_str upper aes_encrypt secret urandom raw_secret (Some (signing_secret_associated_data tenant_id)).

(** [_decrypt_signing_secret]: a value without the prefix is a legacy plaintext. *)
Definition decrypt_signing_secret (tenant_id : uuid) (stored_value : pystr) : result crypto_error pystr :=
  if negb (startswith SIGNING_SECRET_ENVELOPE_PREFIX stored_value) then Ok stored_value
  else decrypt_str upper aes_decrypt secret stored_value (Some (signing_secret_associated_data tenant_id)).

(** ** Signatures *)

(** [compute_signature] *)
Definition compute_signature (key payload_bytes : pystr) : result webhook_error pystr :=
  match utf8_encode key with
  | Some k => Ok (lit "sha256=" ++ hmac_hex k payload_bytes)
  | None => Raise WValueError
  end.

Definition str_timestamp (t : Z) : pystr := (if t <? 0 then lit "-" else []) ++ str_int (Z.abs t).
Definition compute_signed_envelope (key payload_bytes : pystr) (timestamp : Z) : result webhook_error pystr :=
  compute_signature key (str_timestamp timestamp ++ lit "." ++ payload_bytes).

(** Seconds from the start of the year 1 to the epoch. *)
Definition EPOCH_SECONDS : Z := 62135596800.
(** [datetime.fromtimestamp(timestamp, tz=UTC)]; [None] is the error for a year
    outside 1..9999. *)
Definition fromtimestamp (timestamp : Z) : option datetime :=
  let us := (timestamp + EPOCH_SECONDS) * us_per_second in
  if (0 <=? us) && (us <? datetime_end) then Some us else None.

(** [verify_webhook_signature]; [now] is the current time or the caller's. *)
Definition verify_webhook_signature (key payload_bytes : pystr) (timestamp : Z) (signature_header : pystr)
    (tolerance : option Z) (now : datetime) : result webhook_error unit :=
  let* tolerance := match tolerance with Some t => Ok t | None => let* c := config in Ok c.(tolerance_seconds) end in
  match fromtimestamp timestamp with
  | None => Raise WebhookTimestampInvalidError
  | Some delivery_time =>
      let age := now - delivery_time in
      if (tolerance * us_per_second <? age) || (age <? - (tolerance * us_per_second)) then Raise WebhookTimestampInvalidError
      else
        let* expected := compute_signed_envelope key payload_bytes timestamp in
        if negb (ascii_only signature_header) || negb (bool_decide (expected = signature_header))
        then Raise WebhookSignatureInvalidError else Ok tt
  end.

(** ** The replay ledger *)

Definition fresh_id : WM uuid := λ st, (Ok (uuid4 st.(wb_rbac).(rs_drawn)), put_rbac (rdraw st.(wb_rbac)) st).

Definition is_replay_of (t s e : uuid) (r : WebhookReplayRecord) : bool :=
  bool_decide (r.(rr_tenant_id) = t) && bool_decide (r.(rr_subscription_id) = s) && bool_decide (r.(rr_event_id) = e).
Definition replay_recorded (st : webhook_store) (t s e : uuid) : bool :=
  existsb (λ p : uuid * WebhookReplayRecord, is_replay_of t s e p.2) (map_to_list st.(wb_replays)).

(** The constraints of core.webhook_replay_records: the keys, the unique triple,
    and the foreign keys to the tenant and to the subscription. *)
Definition replay_violates (id : uuid) (r : WebhookReplayRecord) (st : webhook_store) : bool :=
  bool_decide (is_Some (st.(wb_replays) !! id)) ||
  replay_recorded st r.(rr_tenant_id) r.(rr_subscription_id) r.(rr_event_id) ||
  bool_decide (st.(wb_tenancy).(ts_tenants) !! r.(rr_tenant_id) = None) ||
  bool_decide (st.(wb_subscriptions) !! r.(rr_subscription_id) = None).

Definition insert_replay (r : WebhookReplayRecord) : WM unit :=
  do* id := fresh_id in
  λ st, if replay_violates id r st then (Raise WIntegrityError, st) else (Ok tt, put_replays (<[id := r]> st.(wb_replays)) st).

(** [record_webhook_delivery]: any violated constraint is a replay; [at_] is the
    database's clock. *)
Definition record_webhook_delivery (at_ : datetime) (tenant_id subscription_id event_id : uuid) : WM unit :=
  λ st, match transaction (insert_replay (mkReplay tenant_id subscription_id event_id at_)) st with
        | (Raise WIntegrityError, st') => (Raise (WebhookReplayDetectedError tenant_id subscription_id event_id), st')
        | other => other
        end.

(** [verify_and_record_webhook_delivery] *)
Definition verify_and_record_webhook_delivery (at_ : datetime) (tenant_id subscription_id event_id : uuid) (payload_bytes : pystr)
    (timestamp : Z) (signature_header key : pystr) (tolerance : option Z) (now : datetime) : WM unit :=
  do* _ := wlift (verify_webhook_signature key payload_bytes timestamp signature_header tolerance now) in
  record_webhook_delivery at_ tenant_id subscription_id event_id.

(** [purge_expired_replay_records] *)
Definition purge_expired_replay_records (tenant_id : uuid) (older_than : datetime) : WM nat :=
  λ st, let kept := filter (λ p : uuid * WebhookReplayRecord,
                      ¬ (p.2.(rr_tenant_id) = tenant_id ∧ p.2.(rr_created_at) < older_than)) st.(wb_replays) in
        (Ok (size st.(wb_replays) - size kept)%nat, put_replays kept st).

(** ** Subscriptions *)

Definition subscription_of (st : webhook_store) (tenant_id subscription_id : uuid) : option WebhookSubscription :=
  match st.(wb_subscriptions) !! subscription_id with
  | Some w => if bool_decide (w.(wh_tenant_id) = tenant_id) then Some w else None
  | None => None
  end.

Definition wauthorize (now : datetime) (c : caller) (operation : string) (tenant_id : uuid) (action : string) : WM unit :=
  in_rbac (λ s, authorize_caller uuid4 now s c operation tenant_id "webhook_subscription" action [PROVISIONING]).
Definition wrecord (c : caller) (tenant_id : uuid) (action : string) (resource_id : uuid) : WM unit :=
  in_rbac (λ _, record c tenant_id action resource_id).

Definition insert_subscription (w : WebhookSubscription) : WM uuid :=
  do* id := fresh_id in
  λ st, if bool_decide (512 < length w.(wh_signing_secret))%nat then (Raise WDataError, st)
        else if bool_decide (is_Some (st.(wb_subscriptions) !! id)) then (Raise WIntegrityError, st)
        else (Ok id, put_subscriptions (<[id := w]> st.(wb_subscriptions)) st).

(** [subscribe]: the id and the raw secret. *)
Definition subscribe (now : datetime) (tenant_id : uuid) (url : pystr) (c : caller) (raw_secret urandom : pystr) : WM (uuid * pystr) :=
  do* _ := wlift (validate_webhook_url lower nfkc config url) in
  do* _ := wlift (require_http_allowed nfkc config url InvalidWebhookUrlError) in
  do* _ := of_tenant (λ s, require_open_tenant s tenant_id) in
  do* encrypted_secret := wlift (of_crypto (encrypt_signing_secret urandom tenant_id raw_secret)) in
  transaction
    (do* _ := wauthorize now c "subscribe" tenant_id "create" in
     do* _ := of_tenant (λ s, lock_open_tenant s tenant_id) in
     do* id := insert_subscription (mkWebhook tenant_id url encrypted_secret) in
     do* _ := wrecord c tenant_id "webhook.subscription_created" id in
     ret (id, raw_secret)).

Definition get_subscription (tenant_id subscription_id : uuid) : WM WebhookSubscription :=
  λ st, (match subscription_of st tenant_id subscription_id with
         | Some w => Ok w
         | None => Raise (WebhookSubscriptionNotFoundError tenant_id subscription_id)
         end, st).

Definition list_subscriptions (tenant_id : uuid) : WM (list (uuid * WebhookSubscription)) :=
  λ st, (Ok (filter (λ p : uuid * WebhookSubscription, p.2.(wh_tenant_id) = tenant_id) (map_to_list st.(wb_subscriptions))), st).

(** The replay ledger references subscriptions: a row of it keeps one from being
    deleted. *)
Definition referenced (st : webhook_store) (subscription_id : uuid) : bool :=
  existsb (λ p : uuid * WebhookReplayRecord, bool_decide (p.2.(rr_subscription_id) = subscription_id)) (map_to_list st.(wb_replays)).

Definition unsubscribe (now : datetime) (tenant_id subscription_id : uuid) (c : caller) : WM unit :=
  transaction
    (do* _ := wauthorize now c "unsubscribe" tenant_id "delete" in
     λ st, match subscription_of st tenant_id subscription_id with
           | None => (Ok tt, st)
           | Some _ =>
               if referenced st subscription_id then (Raise WIntegrityError, st)
               else wrecord c tenant_id "webhook.subscription_deleted" subscription_id
                      (put_subscriptions (delete subscription_id st.(wb_subscriptions)) st)
           end).

(** ** Fan-out *)

Definition WEBHOOK_DELIVERY_EVENT_TYPE : pystr := lit "webhook.delivery".

(** The tenant's subscriptions, in the order of their ids. *)
Definition subscription_ids (st : webhook_store) (tenant_id : uuid) : list uuid :=
  merge_sort N.le (fst <$> filter (λ p : uuid * WebhookSubscription, p.2.(wh_tenant_id) = tenant_id) (map_to_list st.(wb_subscriptions))).

Definition delivery_payload (subscription_id event_id : uuid) (event_type : pystr) (event_data : list (pystr * json)) : list (pystr * json) :=
  [(lit "subscription_id", JStr (str_uuid subscription_id)); (lit "event_id", JStr (str_uuid event_id));
   (lit "event_type", JStr event_type); (lit "event_data", JObj event_data)].

Fixpoint append_deliveries (now : datetime) (initiated_by : option json) (request_id : option pystr) (tenant_id event_id : uuid)
    (event_type : pystr) (event_data : list (pystr * json)) (ids : list uuid) : WM (list uuid) :=
  match ids with
  | [] => ret []
  | id :: ids =>
      do* outbox_id := in_outbox (append_event uuid4 (Some tenant_id) tenant_id WEBHOOK_DELIVERY_EVENT_TYPE (lit "webhook_subscription")
                                    (str_uuid id) (delivery_payload id event_id event_type event_data) initiated_by request_id now) in
      do* rest := append_deliveries now initiated_by request_id tenant_id event_id event_type event_data ids in
      ret (outbox_id :: rest)
  end.

(** [trigger_event], in the caller's transaction, whose session is the tenant's. *)
Definition trigger_event (now : datetime) (initiated_by : option json) (request_id : option pystr) (tenant_id : uuid)
    (event_type : pystr) (event_data : list (pystr * json)) : WM (list uuid) :=
  do* _ := of_tenant (λ s, lock_open_tenant s tenant_id) in
  do* ids := (λ st, (Ok (subscription_ids st tenant_id), st)) in
  do* event_id := fresh_id in
  append_deliveries now initiated_by request_id tenant_id event_id event_type event_data ids.

(** ** Purge *)

(** [purge_tenant_webhooks]: the replay records, then the subscriptions. *)
Definition purge_tenant_webhooks (tenant_id : uuid) : WM nat :=
  do* _ := of_tenant (λ s, require_purging_tenant s tenant_id) in
  transaction (λ st,
    let replays := filter (λ p : uuid * WebhookReplayRecord, p.2.(rr_tenant_id) ≠ tenant_id) st.(wb_replays) in
    let subscriptions := filter (λ p : uuid * WebhookSubscription, p.2.(wh_tenant_id) ≠ tenant_id) st.(wb_subscriptions) in
    let st1 := put_replays replays st in
    if existsb (λ p : uuid * WebhookSubscription, bool_decide (p.2.(wh_tenant_id) = tenant_id) && referenced st1 p.1)
         (map_to_list st.(wb_subscriptions))
    then (Raise WIntegrityError, st)
    else (Ok (size st.(wb_replays) - size replays + (size st.(wb_subscriptions) - size subscriptions))%nat,
          put_subscriptions subscriptions st1)).

(** ** reencryption.py *)

Definition MAX_REENCRYPT_SUBSCRIPTIONS : nat := 1000.
Definition KEY_PROBE : pystr := lit "saas-os-webhook-secret-reencryption-probe".

(** [_require_usable_key] *)
Definition usable_key (urandom : pystr) (tenant_id : uuid) : bool :=
  match encrypt_signing_secret urandom tenant_id KEY_PROBE with
  | Ok envelope => match decrypt_signing_secret tenant_id envelope with Ok p => bool_decide (p = KEY_PROBE) | Raise _ => false end
  | Raise _ => false
  end.

(** [_reencrypted] *)
Definition reencrypted (urandom : pystr) (tenant_id : uuid) (plaintext : pystr) : option pystr :=
  match encrypt_signing_secret urandom tenant_id plaintext with
  | Raise _ => None
  | Ok envelope =>
      if negb (startswith SIGNING_SECRET_ENVELOPE_PREFIX envelope) then None
      else match decrypt_signing_secret tenant_id envelope with
           | Ok p => if bool_decide (p = plaintext) then Some envelope else None
           | Raise _ => None
           end
  end.

Definition is_plaintext (st : webhook_store) (id : uuid) : bool :=
  match st.(wb_subscriptions) !! id with
  | Some w => negb (startswith SIGNING_SECRET_ENVELOPE_PREFIX w.(wh_signing_secret))
  | None => false
  end.
(** The tenant's subscriptions with a plaintext secret, in the order of their ids. *)
Definition plaintext_ids (st : webhook_store) (tenant_id : uuid) : list uuid :=
  filter (λ id, is_plaintext st id = true) (subscription_ids st tenant_id).

(** One row of the loop; a value longer than the column is refused at the flush. *)
Definition reencrypt_row (urandom : uuid → pystr) (tenant_id : uuid) (c : caller) (id : uuid) : WM unit :=
  λ st, match st.(wb_subscriptions) !! id with
        | None => (Ok tt, st)
        | Some w =>
            match reencrypted (urandom id) tenant_id w.(wh_signing_secret) with
            | None => (Raise WebhookSecretReencryptionError, st)
            | Some envelope =>
                if bool_decide (512 < length envelope)%nat then (Raise WDataError, st)
                else wrecord c tenant_id "webhook_subscription.secret_reencrypted" id
                       (put_subscriptions (<[id := mkWebhook w.(wh_tenant_id) w.(wh_url) envelope]> st.(wb_subscriptions)) st)
            end
        end.
Fixpoint reencrypt_rows (urandom : uuid → pystr) (tenant_id : uuid) (c : caller) (ids : list uuid) : WM unit :=
  match ids with
  | [] => ret tt
  | id :: ids => do* _ := reencrypt_row urandom tenant_id c id in reencrypt_rows urandom tenant_id c ids
  end.

Record WebhookSecretReencryptionResult : Type := mkReencryption {
  re_matched : nat;
  re_reencrypted : nat;
  re_applied : bool;
}.

Definition in_platform {A : Type} (m : PM A) : WM A :=
  λ st, match m st.(wb_tenancy).(ts_platform) with
        | (Ok a, p) => (Ok a, put_platform p st)
        | (Raise e, p) => (Raise (WPlatform e), put_platform p st)
        end.

Definition reencrypt_audit_action : string := op_audit_action (platform_operation WEBHOOK_SECRET_REENCRYPT).

(** The body of the change session, after the authorization. *)
Definition reencrypt_body (urandom : uuid → pystr) (tenant_id : uuid) (c : caller) (r : pystr) (apply : bool) :
    WM WebhookSecretReencryptionResult :=
  do* _ := in_platform (λ p, (authorize_platform_caller p c WEBHOOK_SECRET_REENCRYPT, p)) in
  do* _ := wlift (match c with UserCaller _ => Ok tt | _ => Raise (WPlatform (CallerTypeError "webhook_secret.reencrypt")) end) in
  do* _ := wlift (if apply && negb (usable_key (urandom 0%N) tenant_id) then Raise WebhookSecretReencryptionKeyError else Ok tt) in
  do* _ := of_tenant (λ s, lock_open_tenant s tenant_id) in
  do* rows := (λ st, (Ok (take (MAX_REENCRYPT_SUBSCRIPTIONS + 1) (plaintext_ids st tenant_id)), st)) in
  if bool_decide (MAX_REENCRYPT_SUBSCRIPTIONS < length rows)%nat
  then throw (WPlatform (InvalidPlatformRequestError "the tenant has more than 1000 plaintext secrets; run again after this batch."))
  else if negb apply then ret (mkReencryption (length rows) 0 false)
  else
    do* _ := reencrypt_rows urandom tenant_id c rows in
    do* _ := in_platform (record_platform_event c reencrypt_audit_action (TargetTenant (Some tenant_id)) (Some r)) in
    ret (mkReencryption (length rows) (length rows) true).

(** [reencrypt_legacy_signing_secrets] *)
Definition reencrypt_legacy_signing_secrets (urandom : uuid → pystr) (tenant_id : uuid) (c : caller) (reason : pystr) (apply : bool) :
    WM WebhookSecretReencryptionResult :=
  match validate_reason reason with
  | Raise e => throw (WPlatform e)
  | Ok r =>
      λ st,
        let refused (code : string) (st' : webhook_store) :=
          put_platform (record_platform_refusal c reencrypt_audit_action (TargetTenant (Some tenant_id)) code
                          st'.(wb_tenancy).(ts_platform)) st' in
        match transaction (reencrypt_body urandom tenant_id c r apply) st with
        | (Raise (WPlatform e), st') =>
            match refusal_code e with
            | Some code => (Raise (WPlatform e), refused code st')
            | None => (Raise (WPlatform e), st')
            end
        | (Raise (WRbac (RTenant (TenantClosedError t status))), st') =>
            (Raise (WRbac (RTenant (TenantClosedError t status))), refused "tenant_closed" st')
        | (Raise (WRbac (RTenant (TenantNotFoundError t))), st') =>
            (Raise (WRbac (RTenant (TenantNotFoundError t))), refused "tenant_not_found" st')
        | other => other
        end
  end.
End Service.
