(* ===== verification/WebhookDelivery.v ===== *)
(** * Webhooks: the delivery of an event (saas_os/core/webhooks/service.py)

    The job handler of one outbox event: the fence of the tenant's lifecycle, the
    subscription and its secret, the destination resolved and judged anew, the
    signed request to at most two of its addresses, and the record of a
    delivery.  The world is a parameter, as for the strict client: [clock n] is
    the [n]-th reading of the monotonic clock, [resolve] the one resolution,
    [post n] what becomes of the [n]-th request, [utcnow] the time of day when
    the request is signed. *)

From stdpp Require Import pretty.
From S2P Require Import Prelude PyStr PyTime PyText PyIp PyUrl TenantLifecycle PlatformAuthority PlatformService TenantHierarchy RbacDecision RbacService OutboxModel Outbox Egress Crypto Webhooks WebhookService.

(** ** The world *)

(** What becomes of one POST: a status, an error of the proxy, an error of the
    HTTP library, or the cancellation by the total deadline. *)
Inductive post_result : Type :=
| PostStatus (status : Z)
| PostProxyRefused
| PostProxyUnavailable
| PostConnectError
| PostConnectTimeout
| PostPoolTimeout
| PostWriteTimeout
| PostWriteError
| PostReadTimeout
| PostReadError
| PostRemoteProtocolError
| PostOtherHTTPError
| PostCancelled.

Inductive resolved : Type :=
| Answers (addresses : list pystr)
| AnswerError                    (* OSError *)
| AnswerCancelled.               (* the total deadline *)

Record WebhookRequest : Type := mkWebhookRequest {
  wq_url : pystr;
  wq_sni_hostname : pystr;
  wq_headers : list (pystr * pystr);
  wq_body : pystr;
  wq_proxy : option EgressProxy;
  wq_timeout : Z;
}.

(** The store, the readings of the clock, and the requests, latest first. *)
Record delivery_state : Type := mkDelivery {
  dl_store : webhook_store;
  dl_ticks : nat;
  dl_requests : list WebhookRequest;
}.
(** [asyncio.timeout] raises [TimeoutError]. *)
Inductive delivery_exn : Type :=
| Webhook (e : webhook_error)
| DeliveryTimeout.
Abbreviation DM := (M delivery_state delivery_exn).

Definition on_store {A : Type} (m : WM A) : DM A :=
  λ s, match m s.(dl_store) with
       | (Ok a, st) => (Ok a, mkDelivery st s.(dl_ticks) s.(dl_requests))
       | (Raise e, st) => (Raise (Webhook e), mkDelivery st s.(dl_ticks) s.(dl_requests))
       end.
Definition check {A : Type} (r : result webhook_error A) : DM A :=
  λ s, (match r with Ok a => Ok a | Raise e => Raise (Webhook e) end, s).

(** The order of texts, by their code points. *)
Fixpoint text_le (s t : pystr) : bool :=
  match s, t with
  | [], _ => true
  | _ :: _, [] => false
  | a :: s, b :: t => (a <? b)%N || ((a =? b)%N && text_le s t)
  end.
Definition address_order (a b : IPAddress) : Prop := text_le (str_address a) (str_address b) = true.
#[export] Instance address_order_dec a b : Decision (address_order a b).
Proof. unfold address_order. apply _. Defined.

(** [_default_resolve_hostname], from what [getaddrinfo] returns. *)
Definition text_order (s t : pystr) : Prop := text_le s t = true.
#[export] Instance text_order_dec s t : Decision (text_order s t).
Proof. unfold text_order. apply _. Defined.
Definition default_resolve_hostname (infos : option (list pystr)) : resolved :=
  match infos with
  | None => AnswerError
  | Some addresses => Answers (merge_sort text_order (fromkeys addresses))
  end.

Section Delivery.
Context (uuid4 : nat → uuid) (lower nfkc upper : pystr → pystr) (int16 : pystr → option Z).
Context (hmac_hex : pystr → pystr → pystr) (aes_decrypt : pystr → pystr → pystr → option pystr → option pystr).
Context (secret : secrets) (config : result webhook_error WebhookSecurityConfig).
Context (httpx httpcore : pystr) (proxy_url : option pystr).
Context (clock : nat → Z) (resolve : pystr → resolved) (post : nat → WebhookRequest → post_result) (utcnow : datetime).

Definition DELIVERY_TIMEOUT : Z := 10 * us_per_second.
Definition MAX_ADDRESSES_TRIED : nat := 2.

Definition monotonic : DM Z := λ s, (Ok (clock s.(dl_ticks)), mkDelivery s.(dl_store) (S s.(dl_ticks)) s.(dl_requests)).

(** ** The destination *)

Fixpoint judge_answers (validated : list IPAddress) (raw : list pystr) : result webhook_error (list IPAddress) :=
  match raw with
  | [] => Ok validated
  | raw_address :: raw =>
      match ip_address (partition 37 raw_address).1.1 with
      | None => Raise WValueError
      | Some address =>
          if is_non_public_address address then Raise WebhookDestinationRejectedError
          else judge_answers (if bool_decide (address ∈ validated) then validated else validated ++ [address]) raw
      end
  end.

(** [_validate_destination_addresses] *)
Definition validate_destination_addresses (url : pystr) : result delivery_exn (list IPAddress) :=
  match urlsplit nfkc url with
  | None => Raise (Webhook WValueError)
  | Some parsed =>
      match hostname lower parsed with
      | None => Raise (Webhook WebhookDestinationRejectedError)
      | Some host =>
          match resolve host with
          | AnswerCancelled => Raise DeliveryTimeout
          | AnswerError | Answers [] => Raise (Webhook WebhookDestinationUnresolvedError)
          | Answers raw =>
              match judge_answers [] raw with
              | Ok validated => Ok (merge_sort address_order validated)
              | Raise e => Raise (Webhook e)
              end
          end
      end
  end.

(** [_pin_url_to_validated_address] *)
Definition pin_url_to_validated_address (url : pystr) (address : IPAddress) : result webhook_error (pystr * pystr * pystr) :=
  match pin_url_to_address lower nfkc url address with
  | Some pinned => Ok pinned
  | None => Raise WebhookDestinationRejectedError
  end.

(** ** The request *)

(** [_post_once] *)
Definition post_once (pinned_url sni_hostname host_header body : pystr) (headers : list (pystr * pystr)) (left : Z) : DM post_result :=
  match get_egress_proxy lower nfkc proxy_url with
  | Raise e => throw (Webhook (WEgress e))
  | Ok proxy =>
      let rq := mkWebhookRequest pinned_url sni_hostname ((lit "Host", host_header) :: headers) body proxy (Z.max left 1000) in
      λ s, (Ok (post (length s.(dl_requests)) rq), mkDelivery s.(dl_store) s.(dl_ticks) (rq :: s.(dl_requests)))
  end.

(** [_post_to_validated_addresses]: the [except] clauses; [None] is the next
    address. *)
Definition classify_post (subscription_id : uuid) (r : post_result) : option (result delivery_exn Z) :=
  let ambiguous (name phase : string) := Some (Raise (Webhook (WebhookAmbiguousDeliveryError subscription_id name phase))) in
  match r with
  | PostStatus status => Some (Ok status)
  | PostProxyRefused => Some (Raise (Webhook WebhookDestinationRejectedError))
  | PostProxyUnavailable => Some (Raise (Webhook (WebhookNotSentError subscription_id "egress_proxy_unavailable")))
  | PostConnectError | PostConnectTimeout => None
  | PostPoolTimeout => Some (Raise (Webhook (WebhookNotSentError subscription_id "PoolTimeout")))
  | PostWriteTimeout => ambiguous "WriteTimeout" "write"
  | PostWriteError => ambiguous "WriteError" "write"
  | PostReadTimeout => ambiguous "ReadTimeout" "read"
  | PostReadError => ambiguous "ReadError" "read"
  | PostRemoteProtocolError => ambiguous "RemoteProtocolError" "response"
  | PostOtherHTTPError => ambiguous "HTTPError" "exchange"
  | PostCancelled => Some (Raise DeliveryTimeout)
  end.

Definition connect_error_name (r : post_result) : string :=
  match r with PostConnectTimeout => "ConnectTimeout" | _ => "ConnectError" end.

Fixpoint post_to_validated_addresses (subscription_id : uuid) (url : pystr) (addresses : list IPAddress) (body : pystr)
    (headers : list (pystr * pystr)) (deadline : Deadline) (last_error : string) : DM Z :=
  match addresses with
  | [] => throw (Webhook (WebhookNotSentError subscription_id last_error))
  | address :: addresses =>
      do* t := monotonic in
      if expired deadline t then throw (Webhook (WebhookNotSentError subscription_id last_error))
      else
        do* pinned := check (pin_url_to_validated_address url address) in
        let '(pinned_url, sni_hostname, host_header) := pinned in
        do* t' := monotonic in
        do* r := post_once pinned_url sni_hostname host_header body headers (remaining deadline t') in
        match classify_post subscription_id r with
        | Some (Ok status) => ret status
        | Some (Raise e) => throw e
        | None => post_to_validated_addresses subscription_id url addresses body headers deadline (connect_error_name r)
        end
  end.

Definition signed_headers (signature : pystr) (timestamp : Z) : list (pystr * pystr) :=
  [(lit "Content-Type", lit "application/json"); (lit "X-Webhook-Signature", signature);
   (lit "X-Webhook-Timestamp", str_timestamp timestamp)].

(** [int(datetime.now(UTC).timestamp())] *)
Definition signing_time : Z := utcnow / us_per_second - EPOCH_SECONDS.

(** What the cancellation by the deadline becomes: [exchange.started] is set
    when a request is about to be made. *)
Definition of_timeout (subscription_id : uuid) (started : bool) {A : Type} (r : result delivery_exn A) : result delivery_exn A :=
  match r with
  | Raise DeliveryTimeout =>
      Raise (Webhook (if started then WebhookAmbiguousDeliveryError subscription_id "deadline_expired" "exchange"
                      else WebhookNotSentError subscription_id "deadline_expired"))
  | r => r
  end.

(** [_send_signed] *)
Definition send_signed (subscription_id : uuid) (url key body : pystr) : DM Z :=
  do* _ := check (require_http_allowed nfkc config url WebhookDestinationRejectedError) in
  do* _ := check (require_allowed_port nfkc config url WebhookDestinationRejectedError) in
  do* _ := check (match require_supported_http_stack httpx httpcore with Ok _ => Ok tt | Raise e => Raise (WEgress e) end) in
  do* t := monotonic in
  let deadline := mkDeadline (t + DELIVERY_TIMEOUT) in
  do* _ := monotonic in
  λ s, match validate_destination_addresses url with
       | Raise e => (of_timeout subscription_id false (Raise e), s)
       | Ok addresses =>
           match compute_signed_envelope hmac_hex key body signing_time with
           | Raise e => (Raise (Webhook e), s)
           | Ok signature =>
               match post_to_validated_addresses subscription_id url (take MAX_ADDRESSES_TRIED addresses) body
                       (signed_headers signature signing_time) deadline "deadline_expired" s with
               | (r, s') => (of_timeout subscription_id true r, s')
               end
           end
       end.

(** ** The handler *)

(** Responses that mean the event will never be accepted. *)
Definition PERMANENT_STATUSES : list Z := [400; 410; 413; 422].

(** What the fenced read of the subscription finds. *)
Inductive fenced : Type :=
| AlreadyDelivered
| NoSubscription
| Deliver (url key : pystr).

(** The body of [tenant_job_session]. *)
Definition read_fenced (tenant_id : uuid) (outbox_event_id : option uuid) (subscription_id : uuid) : WM fenced :=
  do* _ := of_tenant (λ s, require_open_tenant s tenant_id) in
  transaction
    (do* _ := of_tenant (λ s, lock_open_tenant s tenant_id) in
     do* done := match outbox_event_id with
                 | Some e => in_outbox (event_consumption_recorded tenant_id WEBHOOK_DELIVERY_EVENT_TYPE e)
                 | None => ret false
                 end in
     if done then ret AlreadyDelivered
     else
       λ st, match subscription_of st tenant_id subscription_id with
             | None => (Ok NoSubscription, st)
             | Some w =>
                 match decrypt_signing_secret upper aes_decrypt secret tenant_id w.(wh_signing_secret) with
                 | Ok key => (Ok (Deliver w.(wh_url) key), st)
                 | Raise e => (Raise (WCrypto e), st)
                 end
             end).

(** [_deliver_webhook] *)
Definition deliver_webhook (tenant_id : uuid) (outbox_event_id : option uuid) (data : list (pystr * json)) : DM unit :=
  do* delivery := check (parse_delivery int16 data) in
  let '(subscription_id, event_id, event_type, event_data) := delivery in
  λ s, match on_store (read_fenced tenant_id outbox_event_id subscription_id) s with
       | (Raise (Webhook (WRbac (RTenant (TenantClosedError _ _)))), s') => (Ok tt, s')
       | (Raise (Webhook (WRbac (RTenant (TenantNotFoundError _)))), s') => (Ok tt, s')
       | (Raise e, s') => (Raise e, s')
       | (Ok AlreadyDelivered, s') | (Ok NoSubscription, s') => (Ok tt, s')
       | (Ok (Deliver url key), s') =>
           (do* status_code := send_signed subscription_id url key (encode_event event_id event_type event_data) in
            if 300 <=? status_code then
              if (status_code <? 400) || bool_decide (status_code ∈ PERMANENT_STATUSES)
              then throw (Webhook (WebhookPermanentDeliveryError subscription_id ("HTTP " +:+ pretty status_code)))
              else throw (Webhook (WebhookDeliveryError subscription_id ("HTTP " +:+ pretty status_code)))
            else
              match outbox_event_id with
              | Some e =>
                  do* _ := on_store (in_outbox (record_event_consumption tenant_id WEBHOOK_DELIVERY_EVENT_TYPE e)) in ret tt
              | None => ret tt
              end) s'
       end.
End Delivery.
