(* ===== verification/WebhookProofs.v ===== *)
(** * Webhooks: facts about a delivery

    The attempts of one delivery, as for the strict client: the [i]-th request
    goes to the [i]-th validated address, and a further one only after a failure
    to connect. *)

From stdpp Require Import pretty.
From S2P Require Import Prelude PyStr PyTime PyText PyIp PyUrl TenantLifecycle PlatformAuthority PlatformService TenantHierarchy RbacDecision RbacService OutboxModel Outbox Egress EgressProofs Crypto Webhooks WebhookService WebhookDelivery.

Section Delivery.
Context (lower nfkc upper : pystr → pystr) (int16 : pystr → option Z).
Context (hmac_hex : pystr → pystr → pystr) (aes_decrypt : pystr → pystr → pystr → option pystr → option pystr).
Context (secret : secrets) (config : result webhook_error WebhookSecurityConfig).
Context (httpx httpcore : pystr) (proxy_url : option pystr).
Context (clock : nat → Z) (resolve : pystr → resolved) (post : nat → WebhookRequest → post_result) (utcnow : datetime).

(** ** The destination *)

Definition answer_address (item : pystr) : option IPAddress := ip_address (partition 37 item).1.1.
Definition public_answer (item : pystr) : Prop := ∃ a, answer_address item = Some a ∧ is_non_public_address a = false.

Lemma judge_answers_spec raw validated l : judge_answers validated raw = Ok l →
  (∀ a, a ∈ l → a ∈ validated ∨ ∃ item, item ∈ raw ∧ answer_address item = Some a) ∧ ∀ item, item ∈ raw → public_answer item.
Proof.
  revert validated. induction raw as [|item raw IH]; intros validated; simpl; [intros [= <-]; split; [by left|]; by intros ? []%elem_of_nil|].
  change (ip_address (partition 37 item).1.1) with (answer_address item).
  destruct (answer_address item) as [a|] eqn:Ea; [|done]. destruct (is_non_public_address a) eqn:Ej; [done|].
  intros [H1 H2]%IH. split.
  - intros b Hb. apply H1 in Hb as [Hb|(it & Hit & Hb)]; [|right; exists it; split; [by right|done]].
    case_bool_decide; [by left|]. apply elem_of_app in Hb as [Hb| ->%list_elem_of_singleton]; [by left|].
    right. exists item. split; [by left|done].
  - intros it [->|Hit]%elem_of_cons; [by exists a|by apply H2].
Qed.

Lemma validate_destination_spec url l : validate_destination_addresses lower nfkc resolve url = Ok l →
  ∃ parsed host answers, urlsplit nfkc url = Some parsed ∧ hostname lower parsed = Some host ∧ resolve host = Answers answers ∧
    (∀ item, item ∈ answers → public_answer item) ∧
    ∀ a, a ∈ l → is_non_public_address a = false ∧ ∃ item, item ∈ answers ∧ answer_address item = Some a.
Proof.
  unfold validate_destination_addresses. destruct (urlsplit nfkc url) as [parsed|]; [|done].
  destruct (hostname lower parsed) as [host|] eqn:Eh; [|done]. destruct (resolve host) as [[|item raw]| |] eqn:Er; try done.
  destruct (judge_answers [] (item :: raw)) as [v|] eqn:Ej; [|done]. intros [= <-]. apply judge_answers_spec in Ej as [H1 H2].
  exists parsed, host, (item :: raw). split_and!; try done. intros a Ha.
  rewrite merge_sort_Permutation in Ha. apply H1 in Ha as [Ha|(it & Hit & Ha)]; [by apply elem_of_nil in Ha|].
  split; [|eauto]. destruct (H2 _ Hit) as (b & Hb & Hp). congruence.
Qed.

Lemma answer_pinnable item a : answer_address item = Some a → wf_address a ∧ zone_ok a.
Proof.
  unfold answer_address. intros H. split; [by eapply ip_address_wf|]. destruct (partition 37 item) as [[b f] c] eqn:E.
  apply partition_spec in E as (Hno & _). simpl in H. unfold ip_address in H. destruct (ipv4_from_string b); [by simplify_eq|].
  destruct (contains 47 b); [done|]. rewrite partition_no in H by done. simpl in H.
  destruct (ipv6_from_string b); [|done]. by injection H as <-.
Qed.

(** ** The attempts *)

Definition request_for (url body : pystr) (headers : list (pystr * pystr)) (a : IPAddress) (rq : WebhookRequest) : Prop :=
  ∃ host_header, pin_url_to_address lower nfkc url a = Some (rq.(wq_url), rq.(wq_sni_hostname), host_header) ∧
    rq.(wq_headers) = (lit "Host", host_header) :: headers ∧ rq.(wq_body) = body.

Definition tries_next (r : post_result) : Prop := r = PostConnectError ∨ r = PostConnectTimeout.

Definition deliveries (url body : pystr) (headers : list (pystr * pystr)) (addresses : list IPAddress) (first : nat)
    (sent : list WebhookRequest) : Prop :=
  (length sent ≤ length addresses)%nat ∧
  ∀ i rq, sent !! i = Some rq →
    (∃ a, addresses !! i = Some a ∧ request_for url body headers a rq) ∧
    (S i < length sent → tries_next (post (first + i) rq))%nat.

Lemma deliveries_nil url body headers addresses first : deliveries url body headers addresses first [].
Proof. split; [simpl; lia|]. intros i rq Hi. by rewrite lookup_nil in Hi. Qed.

Lemma deliveries_cons url body headers a addresses first rq sent :
  request_for url body headers a rq → (sent ≠ [] → tries_next (post first rq)) →
  deliveries url body headers addresses (S first) sent → deliveries url body headers (a :: addresses) first (rq :: sent).
Proof.
  intros Hrq Hm [Hl Ha]. split; [simpl; lia|]. intros [|i] rq' Hi; simpl in Hi.
  - injection Hi as <-. split; [eauto|]. rewrite Nat.add_0_r. simpl. intros H. apply Hm. by destruct sent; [simpl in H; lia|].
  - destruct (Ha i rq' Hi) as [H1 H2]. split; [done|]. simpl. intros H. replace (first + S i)%nat with (S first + i)%nat by lia.
    apply H2. lia.
Qed.

(** A failure of the delivery's own, with no request behind it. *)
Definition unsent_error (subscription_id : uuid) (e : webhook_error) : Prop :=
  (∃ why, e = WebhookNotSentError subscription_id why) ∨ e = WebhookDestinationRejectedError ∨ (∃ e', e = WEgress e').

(** What the last request, if any, made of the result. *)
Definition post_outcome (subscription_id : uuid) (first : nat) (sent : list WebhookRequest) (r : result delivery_exn Z) : Prop :=
  match last sent with
  | None => ∃ e, r = Raise (Webhook e) ∧ unsent_error subscription_id e
  | Some rq =>
      match classify_post subscription_id (post (first + (length sent - 1)) rq) with
      | Some r' => r = r'
      | None => ∃ e, r = Raise (Webhook e) ∧ unsent_error subscription_id e
      end
  end.

Lemma post_loop_spec sub url addresses body headers deadline le s r s' :
  post_to_validated_addresses lower nfkc proxy_url clock post sub url addresses body headers deadline le s = (r, s') →
  dl_store s' = dl_store s ∧ ∃ sent, dl_requests s' = reverse sent ++ dl_requests s ∧
    deliveries url body headers addresses (length (dl_requests s)) sent ∧ post_outcome sub (length (dl_requests s)) sent r.
Proof.
  revert le s r s'. induction addresses as [|a addresses IH]; intros le s r s'; simpl.
  { intros [= <- <-]. split; [done|]. exists []. split; [done|]. split; [apply deliveries_nil|]. eexists. split; [done|]. left. eauto. }
  assert (∀ ticks e, unsent_error sub e → (Raise (Webhook e), mkDelivery (dl_store s) ticks (dl_requests s)) = (r, s') →
    dl_store s' = dl_store s ∧ ∃ sent, dl_requests s' = reverse sent ++ dl_requests s ∧
      deliveries url body headers (a :: addresses) (length (dl_requests s)) sent ∧ post_outcome sub (length (dl_requests s)) sent r) as Hstop.
  { intros ticks e He [= <- <-]. split; [done|]. exists []. split; [done|]. split; [apply deliveries_nil|]. by exists e. }
  unfold bind at 1, monotonic at 1. destruct (expired deadline _).
  { apply Hstop. left. eauto. }
  unfold bind at 1, check, pin_url_to_validated_address. destruct (pin_url_to_address lower nfkc url a) as [[[pinned sni] hh]|] eqn:Ep.
  2: { apply Hstop. right. by left. }
  unfold bind at 1, monotonic at 1. simpl. unfold bind, post_once. destruct (get_egress_proxy lower nfkc proxy_url) as [proxy|e].
  2: { unfold throw. apply Hstop. right. right. eauto. }
  set (rq := mkWebhookRequest pinned sni ((lit "Host", hh) :: headers) body proxy _).
  assert (request_for url body headers a rq) as Hrq by (exists hh; by rewrite Ep). clearbody rq. simpl.
  destruct (classify_post sub (post (length (dl_requests s)) rq)) as [[status|e]|] eqn:Ec.
  - intros [= <- <-]. split; [done|]. exists [rq]. split; [done|]. split; [apply deliveries_cons; [done|done|apply deliveries_nil]|].
    unfold post_outcome. simpl. rewrite Nat.add_0_r. by rewrite Ec.
  - intros [= <- <-]. split; [done|]. exists [rq]. split; [done|]. split; [apply deliveries_cons; [done|done|apply deliveries_nil]|].
    unfold post_outcome. simpl. rewrite Nat.add_0_r. by rewrite Ec.
  - intros [Hst (sent & Hs & Hd & Ho)]%IH. simpl in *. split; [done|]. exists (rq :: sent).
    split; [by rewrite reverse_cons, <-app_assoc|].
    split; [apply deliveries_cons; [done| |done]; intros _; by destruct (post (length (dl_requests s)) rq); try done; [left|right]|].
    unfold post_outcome in *. rewrite last_cons. destruct (last sent) as [rq'|] eqn:El.
    + destruct sent; [done|]. simpl in Ho |- *. rewrite ?Nat.sub_0_r in *. by rewrite Nat.add_succ_r.
    + apply last_None in El as ->. simpl. rewrite Nat.add_0_r, Ec. done.
Qed.

(** ** Sending *)

Definition send_outcome (sub : uuid) (sent : list WebhookRequest) (r : result delivery_exn Z) : Prop :=
  match last sent with
  | None => ∃ e, r = Raise (Webhook e)
  | Some rq =>
      match classify_post sub (post (length sent - 1) rq) with
      | Some r' => r = of_timeout sub true r'
      | None => ∃ e, r = Raise (Webhook e) ∧ unsent_error sub e
      end
  end.

Lemma send_signed_spec sub url key body st n r s' :
  send_signed lower nfkc hmac_hex config httpx httpcore proxy_url clock resolve post utcnow sub url key body (mkDelivery st n []) = (r, s') →
  dl_store s' = st ∧ ∃ sent, dl_requests s' = reverse sent ∧ send_outcome sub sent r ∧
    (sent = [] ∨ ∃ addresses signature,
       require_http_allowed nfkc config url WebhookDestinationRejectedError = Ok tt ∧
       require_allowed_port nfkc config url WebhookDestinationRejectedError = Ok tt ∧
       validate_destination_addresses lower nfkc resolve url = Ok addresses ∧
       compute_signed_envelope hmac_hex key body (signing_time utcnow) = Ok signature ∧
       deliveries url body (signed_headers signature (signing_time utcnow)) (take MAX_ADDRESSES_TRIED addresses) 0 sent).
Proof.
  assert (∀ e m, (Raise (Webhook e), mkDelivery st m []) = (r, s') →
    dl_store s' = st ∧ ∃ sent, dl_requests s' = reverse sent ∧ send_outcome sub sent r ∧ sent = []) as Hstop.
  { intros e m [= <- <-]. split; [done|]. exists []. split; [done|]. split; [by exists e|done]. }
  unfold send_signed, bind, check.
  destruct (require_http_allowed nfkc config url WebhookDestinationRejectedError) as [[]|] eqn:Eh;
    [|intros (? & ? & ? & ? & ?)%Hstop; eauto 10].
  destruct (require_allowed_port nfkc config url WebhookDestinationRejectedError) as [[]|] eqn:Eport;
    [|intros (? & ? & ? & ? & ?)%Hstop; eauto 10].
  destruct (require_supported_http_stack httpx httpcore); [|intros (? & ? & ? & ? & ?)%Hstop; eauto 10].
  unfold monotonic. simpl.
  destruct (validate_destination_addresses lower nfkc resolve url) as [addresses|[e|]] eqn:Ev.
  2-3: simpl; intros (? & ? & ? & ? & ?)%Hstop; eauto 10.
  destruct (compute_signed_envelope hmac_hex key body (signing_time utcnow)) as [signature|] eqn:Es;
    [|intros (? & ? & ? & ? & ?)%Hstop; eauto 10].
  match goal with |- context [post_to_validated_addresses ?a ?b ?c ?d ?e ?f ?g ?h ?i ?j ?k ?l ?m] =>
    destruct (post_to_validated_addresses a b c d e f g h i j k l m) as [r0 s2] eqn:Et end.
  intros [= <- <-]. apply post_loop_spec in Et as [Hst (sent & Hs & Hd & Ho)]. simpl in *. rewrite app_nil_r in Hs.
  split; [done|]. exists sent. split; [done|]. split; [|right; eauto 10].
  unfold send_outcome, post_outcome in *. destruct (last sent) as [rq|].
  - destruct (classify_post sub _) as [r'|]; [by rewrite Ho|]. destruct Ho as (e & -> & He). by exists e.
  - destruct Ho as (e & -> & _). by exists e.
Qed.

(** ** The handler *)

Definition open_in (st : webhook_store) (tenant_id : uuid) : Prop :=
  ∃ t, st.(wb_tenancy).(ts_tenants) !! tenant_id = Some t ∧ is_closed (t_status t) = false.

Lemma in_outbox_read {A} (m : M outbox_store outbox_exn A) st r st' : (∀ os, (m os).2 = os) → in_outbox m st = (r, st') →
  st' = st ∧ (m (mkStore st.(wb_tenancy).(ts_tenants) st.(wb_events) st.(wb_consumptions) [] st.(wb_rbac).(rs_drawn))).1 =
    match r with Ok a => Ok a | Raise (WOutbox e) => Raise e | Raise _ => Raise OverflowError end.
Proof.
  intros Hm. unfold in_outbox. set (os := mkStore _ _ _ _ _). specialize (Hm os). destruct (m os) as [r0 os'] eqn:E. simpl in Hm. subst os'.
  intros [= <- <-]. split; [by destruct st as [? [] ? ? ? ?]|]. by destruct r0.
Qed.

Lemma delivery_type_ok : validate_consumer WEBHOOK_DELIVERY_EVENT_TYPE = Ok tt.
Proof. vm_compute. reflexivity. Qed.

Lemma read_fenced_spec t oe sub st r st' : read_fenced upper aes_decrypt secret t oe sub st = (r, st') →
  st' = st ∧ ∀ url key, r = Ok (Deliver url key) →
    open_in st t ∧ (∀ e, oe = Some e → (t, WEBHOOK_DELIVERY_EVENT_TYPE, e) ∉ wb_consumptions st) ∧
    ∃ w, subscription_of st t sub = Some w ∧ w.(wh_url) = url ∧
         decrypt_signing_secret upper aes_decrypt secret t w.(wh_signing_secret) = Ok key.
Proof.
  unfold read_fenced, bind at 1, of_tenant at 1. destruct (require_open_tenant (wb_tenancy st) t); [|intros [= <- <-]; split; [done|]; done].
  unfold transaction, bind at 1, of_tenant at 1. destruct (lock_open_tenant (wb_tenancy st) t) as [x|] eqn:El; [|intros [= <- <-]; split; [done|]; done].
  assert (open_in st t) as Hopen by (exists x; by apply lock_open_tenant_Ok).
  unfold bind. set (m := match oe with Some e => _ | None => _ end).
  assert (∃ b, m st = (Ok b, st) ∧ (b = false → ∀ e, oe = Some e → (t, WEBHOOK_DELIVERY_EVENT_TYPE, e) ∉ wb_consumptions st)) as (b & Hm & Hb).
  { subst m. destruct oe as [e|]; [|by exists false].
    destruct (in_outbox (event_consumption_recorded t WEBHOOK_DELIVERY_EVENT_TYPE e) st) as [rb stb] eqn:Eo.
    apply in_outbox_read in Eo as [-> Hr]; [|done]. unfold event_consumption_recorded in Hr. rewrite delivery_type_ok in Hr. simpl in Hr.
    destruct rb as [b|[]]; try done. exists b. split; [done|]. intros -> e' [= <-]. injection Hr as Hr. by apply bool_decide_eq_false in Hr. }
  rewrite Hm. clear m Hm. destruct b; [intros [= <- <-]; done|].
  destruct (subscription_of st t sub) as [w|] eqn:Ew; [|intros [= <- <-]; done].
  destruct (decrypt_signing_secret upper aes_decrypt secret t (wh_signing_secret w)) as [k|] eqn:Ek; intros [= <- <-]; [|done].
  split; [done|]. intros url key [= <- <-]. split; [done|]. split; [by apply Hb|]. eauto.
Qed.

(** What a run of the handler is: nothing sent, or one sending with the read
    values, and the record of the delivery after a success. *)
Lemma deliver_spec t oe data st n r s' :
  deliver_webhook lower nfkc upper int16 hmac_hex aes_decrypt secret config httpx httpcore proxy_url clock resolve post utcnow t oe data
    (mkDelivery st n []) = (r, s') →
  (dl_store s' = st ∧ dl_requests s' = []) ∨
  ∃ sub ev ty dat url key r0 s1,
    parse_delivery int16 data = Ok (sub, ev, ty, dat) ∧ read_fenced upper aes_decrypt secret t oe sub st = (Ok (Deliver url key), st) ∧
    send_signed lower nfkc hmac_hex config httpx httpcore proxy_url clock resolve post utcnow sub url key (encode_event ev ty dat)
      (mkDelivery st n []) = (r0, s1) ∧ dl_requests s' = dl_requests s1 ∧
    match r0 with
    | Raise e => r = Raise e ∧ dl_store s' = st
    | Ok status =>
        if 300 <=? status
        then dl_store s' = st ∧ r = Raise (Webhook (if (status <? 400) || bool_decide (status ∈ PERMANENT_STATUSES)
                                                    then WebhookPermanentDeliveryError sub ("HTTP " +:+ pretty status)
                                                    else WebhookDeliveryError sub ("HTTP " +:+ pretty status)))
        else r = Ok tt ∧ dl_store s' = mkWebhooks st.(wb_tenancy) st.(wb_rbac) st.(wb_subscriptions) st.(wb_replays) st.(wb_events)
               (match oe with Some e => {[(t, WEBHOOK_DELIVERY_EVENT_TYPE, e)]} ∪ st.(wb_consumptions) | None => st.(wb_consumptions) end)
    end.
Proof.
  unfold deliver_webhook, bind at 1, check. destruct (parse_delivery int16 data) as [[[[sub ev] ty] dat]|] eqn:Ep; [|intros [= <- <-]; by left].
  unfold on_store at 1. simpl. destruct (read_fenced upper aes_decrypt secret t oe sub st) as [r1 st1] eqn:Er.
  destruct (read_fenced_spec _ _ _ _ _ _ Er) as [-> Hread].
  destruct r1 as [[| |url key]|e].
  1-2: intros [= <- <-]; by left.
  2: { intros H. left. repeat case_match; simplify_eq; done. }
  destruct (Hread url key eq_refl) as ((x & Hx & _) & Hcons & _).
  unfold bind at 1. destruct (send_signed _ _ _ _ _ _ _ _ _ _ _ _ _ _ _ (mkDelivery st n [])) as [r0 s1] eqn:Es.
  destruct (send_signed_spec _ _ _ _ _ _ _ _ Es) as [Hst _].
  intros H. right. exists sub, ev, ty, dat, url, key, r0, s1. split; [done|]. split; [done|]. split; [done|].
  destruct r0 as [status|e]; [|by injection H as <- <-].
  destruct (Z.leb_spec 300 status).
  { destruct ((status <? 400) || bool_decide (status ∈ PERMANENT_STATUSES)); injection H as <- <-; done. }
  destruct oe as [e|]; [|injection H as <- <-; split; [done|]; split; [done|]; rewrite Hst; by destruct st].
  unfold bind, on_store in H. rewrite Hst in H.
  assert (in_outbox (record_event_consumption t WEBHOOK_DELIVERY_EVENT_TYPE e) st =
    (Ok true, mkWebhooks st.(wb_tenancy) st.(wb_rbac) st.(wb_subscriptions) st.(wb_replays) st.(wb_events)
                ({[(t, WEBHOOK_DELIVERY_EVENT_TYPE, e)]} ∪ st.(wb_consumptions)))) as Hrec.
  { unfold in_outbox, record_event_consumption, transaction, claim_event_consumption. rewrite delivery_type_ok. simpl.
    rewrite bool_decide_eq_false_2 by (by apply Hcons). rewrite bool_decide_eq_false_2 by (rewrite Hx; done). simpl. by destruct st as [? [] ? ? ? ?]. }
  rewrite Hrec in H. injection H as <- <-. done.
Qed.
End Delivery.

(** * Webhooks: what a delivery may do

    The safety of the delivery handler whatever the resolver, the network and the
    clock do, and the truth of what it reports and records. *)

(** A URL a subscription can have: http or https. *)
Definition web_url (nfkc : pystr → pystr) (url : pystr) : Prop :=
  ∃ p, urlsplit nfkc url = Some p ∧ (scheme p = lit "http" ∨ scheme p = lit "https").

Section Delivery.
Context (lower nfkc upper : pystr → pystr) (int16 : pystr → option Z).
Context (hmac_hex : pystr → pystr → pystr) (aes_decrypt : pystr → pystr → pystr → option pystr → option pystr).
Context (secret : secrets) (config : result webhook_error WebhookSecurityConfig).
Context (httpx httpcore : pystr) (proxy_url : option pystr).

Abbreviation deliver := (deliver_webhook lower nfkc upper int16 hmac_hex aes_decrypt secret config httpx httpcore proxy_url).

(** C9: A webhook goes to public addresses only, signed with its own secret.
    Whatever the clock, the resolver and the network do, a delivery sends at most
    two requests, the second only after the first failed to connect, and each of
    them: is sent for an open tenant and one of its own subscriptions, for an
    outbox event not yet recorded as delivered; names as its host a literal
    address, publicly routable, which is an answer of this delivery's resolution
    of the subscription's host, all of whose answers are public; uses plain http
    only if the configuration allows it; carries the subscription's host as TLS
    name, and the event signed with the decrypted secret and the current time. *)
Theorem webhook_delivery_safe clock resolve post utcnow t oe data st n r s' :
  (∀ s, ascii_only s = true → lower s = ascii_lower s) →
  (∀ id w, st.(wb_subscriptions) !! id = Some w → web_url nfkc w.(wh_url)) →
  deliver clock resolve post utcnow t oe data (mkDelivery st n []) = (r, s') →
  let sent := reverse s'.(dl_requests) in
  (length sent ≤ 2)%nat ∧
  ∀ i rq, sent !! i = Some rq →
    (∃ sub ev ty dat w key signature host answers a p host_header,
       parse_delivery int16 data = Ok (sub, ev, ty, dat) ∧ open_in st t ∧ subscription_of st t sub = Some w ∧
       (∀ e, oe = Some e → (t, WEBHOOK_DELIVERY_EVENT_TYPE, e) ∉ st.(wb_consumptions)) ∧
       decrypt_signing_secret upper aes_decrypt secret t w.(wh_signing_secret) = Ok key ∧
       (hostname lower <$> urlsplit nfkc w.(wh_url)) = Some (Some host) ∧ resolve host = Answers answers ∧
       (∀ item, item ∈ answers → public_answer item) ∧
       (∃ item, item ∈ answers ∧ answer_address item = Some a) ∧ is_non_public_address a = false ∧
       urlsplit nfkc rq.(wq_url) = Some p ∧ hostname lower p = Some (str_address a) ∧ ip_address (str_address a) = Some a ∧
       (scheme p = lit "https" ∨ scheme p = lit "http" ∧ ∃ c, config = Ok c ∧ http_allowed c = true) ∧
       rq.(wq_sni_hostname) = host ∧ rq.(wq_body) = encode_event ev ty dat ∧
       rq.(wq_headers) = (lit "Host", host_header) :: signed_headers signature (signing_time utcnow) ∧
       compute_signed_envelope hmac_hex key rq.(wq_body) (signing_time utcnow) = Ok signature) ∧
    (S i < length sent → tries_next (post i rq))%nat.
Proof.
  intros Hlower Hurls [[_ ->]|(sub & ev & ty & dat & url & key & r0 & s1 & Hp & Hf & Hs & -> & _)]%deliver_spec; cbv zeta.
  { split; [simpl; lia|]. intros i rq Hi. by rewrite reverse_nil, lookup_nil in Hi. }
  apply read_fenced_spec in Hf as [_ Hread]. destruct (Hread url key eq_refl) as (Hopen & Hcons & w & Hw & Hu & Hkey).
  apply (send_signed_spec lower nfkc upper int16 hmac_hex aes_decrypt secret) in Hs as [_ (sent & -> & _ & Hsent)]. rewrite reverse_involutive.
  destruct Hsent as [->|(addresses & signature & Hhttp & _ & Hv & Hsig & Hl & Hd)].
  { split; [simpl; lia|]. intros i rq Hi. by rewrite lookup_nil in Hi. }
  rewrite length_take in Hl. split; [unfold MAX_ADDRESSES_TRIED in Hl; lia|]. intros i rq Hi.
  destruct (Hd i rq Hi) as [(a & Ha & hh & Hpin & Hhead & Hbody) Hnext]. split; [|done].
  apply validate_destination_spec in Hv as (parsed & host & answers & Hparsed & Hhost & Hres & Hpub & Haddr).
  apply lookup_take_Some in Ha as [Ha _]. apply list_elem_of_lookup_2 in Ha. destruct (Haddr a Ha) as [Hap (item & Hit & Hia)].
  destruct (answer_pinnable _ _ Hia) as [Hwf Hz].
  assert (scheme parsed = lit "http" ∨ scheme parsed = lit "https") as Hsch.
  { unfold subscription_of in Hw. destruct (wb_subscriptions st !! sub) as [w'|] eqn:Ew; [|done]. case_bool_decide; [|done].
    injection Hw as ->. apply Hurls in Ew as (p & Hp' & Hsch). rewrite Hu in Hp'. rewrite Hparsed in Hp'. by injection Hp' as <-. }
  destruct (pin_parts lower nfkc Hlower _ _ _ _ _ _ Hparsed ltac:(by destruct Hsch as [-> | ->]) Hwf Hz Hpin)
    as (p' & P1 & P2 & P3 & P4 & P5 & _ & _ & _ & P9).
  exists sub, ev, ty, dat, w, key, signature, host, answers, a, p', hh. rewrite Hu, Hparsed, Hbody, address_roundtrip by done.
  split_and!; try done; try (by simpl; rewrite Hhost); [by exists item| |congruence].
  rewrite P5. destruct Hsch as [Hsch|Hsch]; [right|by left]. split; [done|].
  unfold require_http_allowed, urlparse in Hhttp. rewrite Hparsed in Hhttp. simpl in Hhttp. rewrite bool_decide_eq_true_2 in Hhttp by done.
  simpl in Hhttp. destruct config as [c|]; [|done]. exists c. split; [done|]. simpl in Hhttp. by destruct (http_allowed c).
Qed.

(** The failures before anything was sent. *)
Definition nothing_sent (r : post_result) : Prop :=
  r = PostConnectError ∨ r = PostConnectTimeout ∨ r = PostPoolTimeout ∨ r = PostProxyUnavailable ∨ r = PostProxyRefused.
(** The errors the outbox takes as proof that nothing was sent. *)
Definition confirmed_not_sent (e : webhook_error) : Prop :=
  (∃ sub why, e = WebhookNotSentError sub why) ∨ e = WebhookDestinationUnresolvedError ∨ e = WebhookDestinationRejectedError.

Definition delivered (post : nat → WebhookRequest → post_result) (sent : list WebhookRequest) : Prop :=
  ∃ rq status, last sent = Some rq ∧ post (length sent - 1)%nat rq = PostStatus status ∧ status < 300.

(** What a result of the sending says about the requests behind it. *)
Lemma send_outcome_ok post sub sent status : send_outcome post sub sent (Ok status) →
  ∃ rq, last sent = Some rq ∧ post (length sent - 1)%nat rq = PostStatus status.
Proof.
  unfold send_outcome. destruct (last sent) as [rq|]; [|by intros []]. intros Hout. exists rq. split; [done|].
  destruct (post (length sent - 1)%nat rq) eqn:Epost; simpl in Hout; try (by destruct Hout as (? & ? & _)); try done. congruence.
Qed.
Lemma send_outcome_unsent post sub sent r0 :
  (∀ i rq, sent !! i = Some rq → (S i < length sent)%nat → tries_next (post i rq)) → send_outcome post sub sent r0 →
  ∀ e, r0 = Raise (Webhook e) → confirmed_not_sent e → ∀ i rq, sent !! i = Some rq → nothing_sent (post i rq).
Proof.
  intros Hnext Hout e -> Hc i rq Hi. destruct (decide (S i < length sent)%nat) as [Hlt|Hge].
  { destruct (Hnext i rq Hi Hlt) as [-> | ->]; unfold nothing_sent; tauto. }
  assert (i = length sent - 1)%nat as -> by (apply lookup_lt_Some in Hi; lia).
  unfold send_outcome in Hout. rewrite last_lookup in Hout. replace (pred (length sent)) with (length sent - 1)%nat in Hout by lia.
  rewrite Hi in Hout. unfold nothing_sent, confirmed_not_sent in *.
  destruct (post (length sent - 1)%nat rq); simpl in Hout; try tauto; exfalso; simplify_eq;
    destruct Hc as [(? & ? & ?)|[?|?]]; simplify_eq.
Qed.
Lemma send_outcome_delivered post sub sent r0 : send_outcome post sub sent r0 → delivered post sent → ∃ status, r0 = Ok status ∧ status < 300.
Proof.
  intros Hout (rq & status & Hl & Hpost & Hlt). unfold send_outcome in Hout. rewrite Hl, Hpost in Hout. simpl in Hout. eauto.
Qed.

(** C15: What a delivery reports and records is true.  An error that says nothing
    was sent (not sent, unresolved, rejected) is only raised when every request
    the run made failed before the receiver could get it.  The outbox event is
    recorded as consumed exactly when the receiver answered with a status below
    300; nothing else of the store changes.  A run that returns without an error
    delivered the event or sent nothing at all.  Once recorded, no later run of
    the same event sends anything, whatever the world then does. *)
Theorem webhook_delivery_outcome clock resolve post utcnow t oe data st n r s' :
  deliver clock resolve post utcnow t oe data (mkDelivery st n []) = (r, s') →
  let sent := reverse s'.(dl_requests) in
  (∀ e, r = Raise (Webhook e) → confirmed_not_sent e → ∀ i rq, sent !! i = Some rq → nothing_sent (post i rq)) ∧
  (r = Ok tt → sent = [] ∨ delivered post sent) ∧
  s'.(dl_store) = mkWebhooks st.(wb_tenancy) st.(wb_rbac) st.(wb_subscriptions) st.(wb_replays) st.(wb_events) s'.(dl_store).(wb_consumptions) ∧
  (∀ key, key ∈ s'.(dl_store).(wb_consumptions) ↔
     key ∈ st.(wb_consumptions) ∨ delivered post sent ∧ ∃ e, oe = Some e ∧ key = (t, WEBHOOK_DELIVERY_EVENT_TYPE, e)) ∧
  (∀ e clock' resolve' post' utcnow' n' r'' s'', oe = Some e → (t, WEBHOOK_DELIVERY_EVENT_TYPE, e) ∈ s'.(dl_store).(wb_consumptions) →
     deliver clock' resolve' post' utcnow' t oe data (mkDelivery s'.(dl_store) n' []) = (r'', s'') → s''.(dl_requests) = []).
Proof.
  intros Hrun. cbv zeta.
  assert (∀ st0 e clock' resolve' post' utcnow' n' r'' s'', oe = Some e → (t, WEBHOOK_DELIVERY_EVENT_TYPE, e) ∈ st0.(wb_consumptions) →
     deliver clock' resolve' post' utcnow' t oe data (mkDelivery st0 n' []) = (r'', s'') → s''.(dl_requests) = []) as Hagain.
  { intros st0 e c' re' p' u' n' r'' s'' -> Hin [[_ H]|(sub & ev & ty & dat & url & key & r0 & s1 & _ & Hf & _)]%deliver_spec; [done|].
    apply read_fenced_spec in Hf as [_ Hread]. destruct (Hread url key eq_refl) as (_ & Hno & _). by apply Hno in Hin. }
  apply deliver_spec in Hrun as [[Hst Hreq]|(sub & ev & ty & dat & url & key & r0 & s1 & Hp & Hf & Hs & Hreq & Hcase)].
  { rewrite Hst, Hreq, reverse_nil. split_and!; [|by left|by destruct st| |].
    - intros e _ _ i rq Hi. by rewrite lookup_nil in Hi.
    - intros k. split; [by left|]. intros [?|[(rq & status & Hl & _) _]]; [done|discriminate Hl].
    - intros e *. by apply Hagain. }
  apply (send_signed_spec lower nfkc upper int16 hmac_hex aes_decrypt secret) in Hs as [_ (sent & Hreq1 & Hout & Hsent)].
  rewrite Hreq, Hreq1, reverse_involutive.
  assert (∀ i rq, sent !! i = Some rq → (S i < length sent)%nat → tries_next (post i rq)) as Hnext.
  { destruct Hsent as [->|(? & ? & _ & _ & _ & _ & _ & Hd)]; [intros i rq Hi; by rewrite lookup_nil in Hi|]. intros i rq Hi. by apply Hd. }
  pose proof (send_outcome_unsent _ _ _ _ Hnext Hout) as Hunsent. pose proof (send_outcome_delivered _ _ _ _ Hout) as Hdel.
  destruct r0 as [status|e].
  - destruct (send_outcome_ok _ _ _ _ Hout) as (rq & Hl & Hpost). destruct (Z.leb_spec 300 status) as [Hge|Hlt].
    + destruct Hcase as [Hst ->]. rewrite Hst. split_and!; [|done|by destruct st| |].
      * intros e [= <-] Hc. exfalso. destruct ((status <? 400) || _); destruct Hc as [(? & ? & ?)|[?|?]]; simplify_eq.
      * intros k. split; [by left|]. intros [?|[Hd _]]; [done|]. destruct (Hdel Hd) as (st' & [= <-] & Hlt). lia.
      * intros e *. by apply Hagain.
    + destruct Hcase as [-> Hst]. rewrite Hst; cbn [wb_tenancy wb_rbac wb_subscriptions wb_replays wb_events wb_consumptions].
      assert (delivered post sent) as Hd by (by exists rq, status). split_and!; [done|by right|done| |].
      * intros k. destruct oe as [e|]; [|split; [by left|intros [?|[_ (? & ? & _)]]; done]].
        rewrite elem_of_union, elem_of_singleton. split; [intros [->|?]; [right; split; [done|]; by eexists|by left]|].
        intros [?|[_ (? & [= <-] & ->)]]; [by right|by left].
      * intros e *. intros He Hin. by apply (Hagain (mkWebhooks _ _ _ _ _ _) e).
  - destruct Hcase as [-> Hst]. rewrite Hst. split_and!; [|done|by destruct st| |].
    + intros e' [= ->]. by apply Hunsent.
    + intros k. split; [by left|]. intros [?|[Hd _]]; [done|]. by destruct (Hdel Hd) as (? & ? & _).
    + intros e' *. by apply Hagain.
Qed.
End Delivery.
