(* ===== verification/WebhookHistory.v ===== *)
(** * Webhooks: histories

    The operations of the component as commands on its store, and what each of
    them can do to a subscription and to the replay ledger. *)

From stdpp Require Import pretty.
From S2P Require Import Prelude StoreLogic PyStr PyTime PyText PyIp PyUrl TenantLifecycle PlatformAuthority PlatformService TenantHierarchy RbacDecision RbacService OutboxModel Outbox Egress Crypto Webhooks WebhookService WebhookDelivery WebhookProofs.

(** ** The tables of the component *)

Definition same_rows (st st' : webhook_store) : Prop :=
  st'.(wb_subscriptions) = st.(wb_subscriptions) ∧ st'.(wb_replays) = st.(wb_replays).
#[export] Instance same_rows_preorder : PreOrder same_rows.
Proof. split; [done|]. intros a b c [H1 H2] [H3 H4]. split; congruence. Qed.

Lemma keeps_result {S E A} (R : relation S) (m : M S E A) s r s' : keeps R m → m s = (r, s') → R s s'.
Proof. intros H E0. specialize (H s). by rewrite E0 in H. Qed.

Lemma in_rbac_rows {A} (m : tenancy_store → RM A) : keeps same_rows (in_rbac m).
Proof. intros st. unfold in_rbac. by destruct (m _ _) as [[]]. Qed.
Lemma of_tenant_rows {A} (r : tenancy_store → result tenant_error A) : keeps same_rows (of_tenant r).
Proof. by intros st. Qed.
Lemma in_outbox_rows {A} (m : M outbox_store outbox_exn A) : keeps same_rows (in_outbox m).
Proof. intros st. unfold in_outbox. by destruct (m _) as [[]]. Qed.
Lemma wlift_rows {A} (r : result webhook_error A) : keeps same_rows (wlift r).
Proof. by intros st. Qed.
Lemma fresh_id_rows uuid4 : keeps same_rows (fresh_id uuid4).
Proof. by intros st. Qed.
Lemma in_platform_rows {A} (m : PM A) : keeps same_rows (in_platform m).
Proof. intros st. unfold in_platform. by destruct (m _) as [[]]. Qed.
Lemma put_platform_rows p st : same_rows st (put_platform p st).
Proof. done. Qed.
Create HintDb rows.
#[export] Hint Resolve in_rbac_rows of_tenant_rows in_outbox_rows wlift_rows fresh_id_rows in_platform_rows put_platform_rows : rows.

Lemma subscription_of_Some st t id w : subscription_of st t id = Some w ↔ st.(wb_subscriptions) !! id = Some w ∧ w.(wh_tenant_id) = t.
Proof. unfold subscription_of. destruct (wb_subscriptions st !! id) as [w'|]; [case_bool_decide; naive_solver|naive_solver]. Qed.

Section History.
Context (uuid4 : nat → uuid) (lower nfkc upper : pystr → pystr) (int16 : pystr → option Z).
Context (hmac_hex : pystr → pystr → pystr).
Context (aes_encrypt : pystr → pystr → pystr → option pystr → pystr) (aes_decrypt : pystr → pystr → pystr → option pystr → option pystr).
Context (secret : secrets) (config : result webhook_error WebhookSecurityConfig).
Context (httpx httpcore : pystr) (proxy_url : option pystr).

(** ** The commands *)

Inductive webhook_op : Type :=
| OpSubscribe (now : datetime) (tenant_id : uuid) (url : pystr) (c : caller) (raw_secret urandom : pystr)
| OpUnsubscribe (now : datetime) (tenant_id subscription_id : uuid) (c : caller)
| OpTrigger (now : datetime) (initiated_by : option json) (request_id : option pystr) (tenant_id : uuid) (event_type : pystr)
    (event_data : list (pystr * json))
| OpDeliver (clock : nat → Z) (resolve : pystr → resolved) (post : nat → WebhookRequest → post_result) (utcnow : datetime)
    (tenant_id : uuid) (outbox_event_id : option uuid) (data : list (pystr * json))
| OpRecord (at_ : datetime) (tenant_id subscription_id event_id : uuid)
| OpVerifyAndRecord (at_ : datetime) (tenant_id subscription_id event_id : uuid) (payload_bytes : pystr) (timestamp : Z)
    (signature_header key : pystr) (tolerance : option Z) (now : datetime)
| OpPurgeReplays (tenant_id : uuid) (older_than : datetime)
| OpPurgeTenant (tenant_id : uuid)
| OpReencrypt (urandom : uuid → pystr) (tenant_id : uuid) (c : caller) (reason : pystr) (apply : bool)
| OpOthers (tenancy : tenancy_store) (rbac : rbac_store) (events : gmap uuid OutboxEvent) (consumptions : gset (uuid * pystr * uuid)).

(** What a command leaves; the last is any change to the tables of the others. *)
Definition apply_op (st : webhook_store) (op : webhook_op) : webhook_store :=
  match op with
  | OpSubscribe now t url c raw ur => (subscribe uuid4 lower nfkc upper aes_encrypt secret config now t url c raw ur st).2
  | OpUnsubscribe now t s c => (unsubscribe uuid4 now t s c st).2
  | OpTrigger now i rid t ty data => (trigger_event uuid4 now i rid t ty data st).2
  | OpDeliver clock resolve post utcnow t oe data =>
      (deliver_webhook lower nfkc upper int16 hmac_hex aes_decrypt secret config httpx httpcore proxy_url clock resolve post utcnow
         t oe data (mkDelivery st 0 [])).2.(dl_store)
  | OpRecord at_ t s e => (record_webhook_delivery uuid4 at_ t s e st).2
  | OpVerifyAndRecord at_ t s e payload ts sg key tol now =>
      (verify_and_record_webhook_delivery uuid4 hmac_hex config at_ t s e payload ts sg key tol now st).2
  | OpPurgeReplays t older_than => (purge_expired_replay_records t older_than st).2
  | OpPurgeTenant t => (purge_tenant_webhooks t st).2
  | OpReencrypt ur t c reason apply =>
      (reencrypt_legacy_signing_secrets upper aes_encrypt aes_decrypt secret ur t c reason apply st).2
  | OpOthers tenancy rbac events consumptions =>
      mkWebhooks tenancy rbac st.(wb_subscriptions) st.(wb_replays) events consumptions
  end.
Definition run (st : webhook_store) (ops : list webhook_op) : webhook_store := foldl apply_op st ops.

(** ** What each command does to the tables *)

Lemma append_deliveries_rows now i rid t ev ty data ids : keeps same_rows (append_deliveries uuid4 now i rid t ev ty data ids).
Proof. induction ids as [|id ids IH]; simpl; keeps_steps; auto with rows. Qed.
Lemma trigger_event_rows now i rid t ty data : keeps same_rows (trigger_event uuid4 now i rid t ty data).
Proof.
  unfold trigger_event. keeps_steps; auto with rows; [apply keeps_read; apply _|apply append_deliveries_rows].
Qed.

Lemma deliver_rows clock resolve post utcnow t oe data st :
  same_rows st (apply_op st (OpDeliver clock resolve post utcnow t oe data)).
Proof.
  simpl. match goal with |- same_rows _ (dl_store (?m ?s).2) => destruct (m s) as [r s'] eqn:E end. simpl.
  apply deliver_spec in E as [[-> _]|(? & ? & ? & ? & ? & ? & r0 & s1 & _ & _ & _ & _ & Hcase)]; [done|].
  destruct r0 as [status|]; [|by destruct Hcase as [_ ->]].
  destruct (300 <=? status); [by destruct Hcase as [-> _]|]. by destruct Hcase as [_ ->].
Qed.

Lemma insert_replay_spec r0 st r st' : insert_replay uuid4 r0 st = (r, st') →
  st'.(wb_subscriptions) = st.(wb_subscriptions) ∧
  (st'.(wb_replays) = st.(wb_replays) ∧ r = Raise WIntegrityError ∨
   ∃ id, r = Ok tt ∧ st.(wb_replays) !! id = None ∧ st'.(wb_replays) = <[id := r0]> st.(wb_replays) ∧
     replay_recorded st r0.(rr_tenant_id) r0.(rr_subscription_id) r0.(rr_event_id) = false).
Proof.
  unfold insert_replay, bind, fresh_id. simpl. set (st1 := put_rbac _ _). set (id := uuid4 _).
  destruct (replay_violates id r0 st1) eqn:Ev; intros [= <- <-]; split; try done; [by left|]. right. exists id.
  unfold replay_violates in Ev. reflect_bools. split_and!; try done.
  match goal with H : ¬ is_Some _ |- _ => by apply eq_None_not_Some end.
Qed.

Lemma record_spec at_ t s e st r st' : record_webhook_delivery uuid4 at_ t s e st = (r, st') →
  (st' = st ∧ r = Raise (WebhookReplayDetectedError t s e)) ∨
  (r = Ok tt ∧ st'.(wb_subscriptions) = st.(wb_subscriptions) ∧ replay_recorded st t s e = false ∧
   ∃ id, st.(wb_replays) !! id = None ∧ st'.(wb_replays) = <[id := mkReplay t s e at_]> st.(wb_replays)).
Proof.
  unfold record_webhook_delivery, transaction. destruct (insert_replay uuid4 (mkReplay t s e at_) st) as [r1 st1] eqn:E.
  apply insert_replay_spec in E as [Hs [[Hr ->]|(id & -> & Hid & Hins & Hrec)]]; intros [= <- <-]; [by left|right; eauto 10].
Qed.

Lemma verify_and_record_spec at_ t s e payload ts sg key tol now st r st' :
  verify_and_record_webhook_delivery uuid4 hmac_hex config at_ t s e payload ts sg key tol now st = (r, st') →
  match verify_webhook_signature hmac_hex config key payload ts sg tol now with
  | Raise err => r = Raise err ∧ st' = st
  | Ok _ => record_webhook_delivery uuid4 at_ t s e st = (r, st')
  end.
Proof.
  unfold verify_and_record_webhook_delivery, bind, wlift.
  destruct (verify_webhook_signature hmac_hex config key payload ts sg tol now); [done|]. by intros [= <- <-].
Qed.

Lemma purge_replays_spec t older st : ∀ st', (purge_expired_replay_records t older st).2 = st' →
  st'.(wb_subscriptions) = st.(wb_subscriptions) ∧
  ∀ id r, st'.(wb_replays) !! id = Some r ↔ st.(wb_replays) !! id = Some r ∧ ¬ (r.(rr_tenant_id) = t ∧ r.(rr_created_at) < older).
Proof. intros st' <-. split; [done|]. intros id r. simpl. by rewrite map_lookup_filter_Some. Qed.

Lemma purge_tenant_spec t st r st' : purge_tenant_webhooks t st = (r, st') →
  (same_rows st st' ∧ ∃ e, r = Raise e) ∨
  (∀ id w, st'.(wb_subscriptions) !! id = Some w ↔ st.(wb_subscriptions) !! id = Some w ∧ w.(wh_tenant_id) ≠ t) ∧
  (∀ id p, st'.(wb_replays) !! id = Some p ↔ st.(wb_replays) !! id = Some p ∧ p.(rr_tenant_id) ≠ t).
Proof.
  unfold purge_tenant_webhooks, bind, of_tenant. destruct (require_purging_tenant (wb_tenancy st) t); [|intros [= <- <-]; left; split; [done|eauto]].
  unfold transaction. cbv zeta. destruct (existsb _ _); [intros [= <- <-]; left; split; [done|eauto]|]. intros [= <- <-]. right.
  split; intros; simpl; by rewrite map_lookup_filter_Some.
Qed.

Lemma wauthorize_rows now c op t act : keeps same_rows (wauthorize uuid4 now c op t act).
Proof. unfold wauthorize. auto with rows. Qed.
Lemma wrecord_rows c t act id : keeps same_rows (wrecord c t act id).
Proof. unfold wrecord. auto with rows. Qed.

Lemma insert_subscription_spec w st r st' : insert_subscription uuid4 w st = (r, st') →
  st'.(wb_replays) = st.(wb_replays) ∧
  (st'.(wb_subscriptions) = st.(wb_subscriptions) ∧ (∃ e, r = Raise e) ∨
   ∃ id, r = Ok id ∧ st.(wb_subscriptions) !! id = None ∧ st'.(wb_subscriptions) = <[id := w]> st.(wb_subscriptions)).
Proof.
  unfold insert_subscription, bind, fresh_id. simpl. case_bool_decide; [intros [= <- <-]; eauto 6|].
  case_bool_decide as Hn; intros [= <- <-]; split; try done; [left; eauto|]. right. eexists. split_and!; try done.
  by apply eq_None_not_Some.
Qed.

(** A URL [subscribe] accepts. *)
Definition accepted_url (url : pystr) : Prop :=
  validate_webhook_url lower nfkc config url = Ok tt ∧ require_http_allowed nfkc config url InvalidWebhookUrlError = Ok tt.

Lemma subscribe_spec now t url c raw ur st r st' :
  subscribe uuid4 lower nfkc upper aes_encrypt secret config now t url c raw ur st = (r, st') →
  (st' = st ∧ ∃ e, r = Raise e) ∨
  ∃ id envelope, r = Ok (id, raw) ∧ accepted_url url ∧ encrypt_signing_secret upper aes_encrypt secret ur t raw = Ok envelope ∧
    st.(wb_subscriptions) !! id = None ∧ st'.(wb_subscriptions) = <[id := mkWebhook t url envelope]> st.(wb_subscriptions) ∧
    st'.(wb_replays) = st.(wb_replays).
Proof.
  unfold subscribe, bind at 1, wlift at 1. destruct (validate_webhook_url lower nfkc config url) as [[]|] eqn:Ev; [|intros [= <- <-]; left; eauto].
  unfold bind at 1, wlift at 1. destruct (require_http_allowed nfkc config url InvalidWebhookUrlError) as [[]|] eqn:Eh; [|intros [= <- <-]; left; eauto].
  unfold bind at 1, of_tenant at 1. destruct (require_open_tenant (wb_tenancy st) t); [|intros [= <- <-]; left; eauto].
  unfold bind at 1, wlift at 1. destruct (encrypt_signing_secret upper aes_encrypt secret ur t raw) as [envelope|] eqn:Ee; [|intros [= <- <-]; left; eauto].
  simpl of_crypto. cbv iota. unfold transaction. destruct (bind (wauthorize uuid4 now c "subscribe" t "create") _ st) as [r1 st1] eqn:E1.
  destruct r1 as [[id raw']|]; intros [= <- <-]; [|left; eauto]. right.
  apply bind_Ok in E1 as ([] & s1 & H1 & E1). apply bind_Ok in E1 as ([] & s2 & H2 & E1).
  apply bind_Ok in E1 as (id' & s3 & H3 & E1). apply bind_Ok in E1 as ([] & s4 & H4 & [= <- <- <-]).
  apply (keeps_result same_rows) in H1 as [S1 R1]; [|apply wauthorize_rows]. apply (keeps_result same_rows) in H2 as [S2 R2]; [|auto with rows].
  apply insert_subscription_spec in H3 as [R3 [[_ [e He]]|(? & [= <-] & Hn & S3)]]; [done|].
  apply (keeps_result same_rows) in H4 as [S4 R4]; [|apply wrecord_rows].
  exists id', envelope. rewrite S4, S3, S2, S1, R4, R3, R2, R1, <-S1, <-S2. done.
Qed.

Lemma unsubscribe_spec now t id c st r st' : unsubscribe uuid4 now t id c st = (r, st') →
  same_rows st st' ∨
  st'.(wb_replays) = st.(wb_replays) ∧ st'.(wb_subscriptions) = delete id st.(wb_subscriptions) ∧
  (∃ w, st.(wb_subscriptions) !! id = Some w ∧ w.(wh_tenant_id) = t) ∧ referenced st id = false.
Proof.
  unfold unsubscribe, transaction. destruct (bind (wauthorize uuid4 now c "unsubscribe" t "delete") _ st) as [[[]|] s'] eqn:E; intros [= <- <-]; [|by left].
  apply bind_Ok in E as ([] & s1 & H1 & E). apply (keeps_result same_rows) in H1 as [S1 R1]; [|apply wauthorize_rows].
  destruct (subscription_of s1 t id) as [w|] eqn:Ew; [|injection E as <-; by left].
  destruct (referenced s1 id) eqn:Er; [done|]. apply (keeps_result same_rows) in E as [S2 R2]; [|apply wrecord_rows]. simpl in *. right.
  apply subscription_of_Some in Ew. unfold referenced in *. rewrite S2, R2, <-S1, <-R1. split_and!; [done..|by exists w|done].
Qed.

(** ** reencryption.py *)

Lemma reencrypted_spec ur t p envelope : reencrypted upper aes_encrypt aes_decrypt secret ur t p = Some envelope →
  startswith SIGNING_SECRET_ENVELOPE_PREFIX envelope = true ∧ decrypt_signing_secret upper aes_decrypt secret t envelope = Ok p.
Proof.
  unfold reencrypted. destruct (encrypt_signing_secret _ _ _ _ _ _) as [e|]; [|done].
  destruct (startswith SIGNING_SECRET_ENVELOPE_PREFIX e) eqn:Es; [|done]. simpl.
  destruct (decrypt_signing_secret upper aes_decrypt secret t e) as [p'|] eqn:Ed; [|done]. case_bool_decide; [|done]. intros [= <-]. by subst.
Qed.

(** A row sealed in place: its tenant and URL kept, its secret now an envelope. *)
Definition sealed (t : uuid) (w w' : WebhookSubscription) : Prop :=
  w'.(wh_tenant_id) = w.(wh_tenant_id) ∧ w'.(wh_url) = w.(wh_url) ∧
  startswith SIGNING_SECRET_ENVELOPE_PREFIX w'.(wh_signing_secret) = true ∧
  decrypt_signing_secret upper aes_decrypt secret t w'.(wh_signing_secret) = Ok w.(wh_signing_secret).

Lemma reencrypt_row_spec ur t c id st st' : reencrypt_row upper aes_encrypt aes_decrypt secret ur t c id st = (Ok tt, st') →
  st'.(wb_replays) = st.(wb_replays) ∧ (∀ id', id' ≠ id → st'.(wb_subscriptions) !! id' = st.(wb_subscriptions) !! id') ∧
  (∀ w, st.(wb_subscriptions) !! id = Some w → ∃ w', st'.(wb_subscriptions) !! id = Some w' ∧ sealed t w w') ∧
  (st.(wb_subscriptions) !! id = None → st'.(wb_subscriptions) !! id = None).
Proof.
  unfold reencrypt_row. destruct (wb_subscriptions st !! id) as [w|] eqn:Ew; [|by intros [= <-]].
  destruct (reencrypted _ _ _ _ _ _ _) as [envelope|] eqn:Ee; [|done]. case_bool_decide; [done|]. intros Hr.
  apply (keeps_result same_rows) in Hr as [S R]; [|apply wrecord_rows]. simpl in *. rewrite S, R.
  split_and!; [done|intros; by apply lookup_insert_ne| |done]. intros w0 [= <-]. rewrite lookup_insert_eq. eexists. split; [done|].
  apply reencrypted_spec in Ee as [? ?]. done.
Qed.

Lemma reencrypt_rows_spec ur t c ids st st' : NoDup ids → reencrypt_rows upper aes_encrypt aes_decrypt secret ur t c ids st = (Ok tt, st') →
  st'.(wb_replays) = st.(wb_replays) ∧ (∀ id, id ∉ ids → st'.(wb_subscriptions) !! id = st.(wb_subscriptions) !! id) ∧
  (∀ id w, id ∈ ids → st.(wb_subscriptions) !! id = Some w → ∃ w', st'.(wb_subscriptions) !! id = Some w' ∧ sealed t w w') ∧
  (∀ id, st.(wb_subscriptions) !! id = None → st'.(wb_subscriptions) !! id = None).
Proof.
  intros Hnd. revert st. induction Hnd as [|id ids Hid Hnd IH]; intros st; simpl.
  { intros [= <-]. split_and!; [done..| |done]. intros id w Hin. by apply elem_of_nil in Hin. }
  intros ([] & s1 & H1 & H2)%bind_Ok. apply reencrypt_row_spec in H1 as (R1 & O1 & S1 & N1). apply IH in H2 as (R2 & O2 & S2 & N2).
  split_and!; [congruence| | |].
  - intros id' [Hne Hni]%not_elem_of_cons. rewrite O2 by done. by apply O1.
  - intros id' w [->|Hin]%elem_of_cons Hw.
    + rewrite O2 by done. by apply S1.
    + apply S2; [done|]. rewrite O1; [done|]. by intros ->.
  - intros id' Hn. apply N2. destruct (decide (id' = id)) as [->|]; [by apply N1|]. by rewrite O1.
Qed.

Lemma subscription_ids_spec st t : NoDup (subscription_ids st t) ∧
  ∀ id, id ∈ subscription_ids st t ↔ ∃ w, st.(wb_subscriptions) !! id = Some w ∧ w.(wh_tenant_id) = t.
Proof.
  unfold subscription_ids. split.
  - rewrite merge_sort_Permutation. eapply sublist_NoDup; [apply (NoDup_fst_map_to_list (wb_subscriptions st))|]. apply fmap_sublist, sublist_filter.
  - intros id. rewrite merge_sort_Permutation, list_elem_of_fmap. split.
    + intros ([i w] & -> & [Hw Hin%elem_of_map_to_list]%list_elem_of_filter). by exists w.
    + intros (w & Hw & Ht). exists (id, w). split; [done|]. apply list_elem_of_filter. by rewrite elem_of_map_to_list.
Qed.

Lemma plaintext_ids_spec st t : NoDup (plaintext_ids st t) ∧
  ∀ id, id ∈ plaintext_ids st t ↔ ∃ w, st.(wb_subscriptions) !! id = Some w ∧ w.(wh_tenant_id) = t ∧
    startswith SIGNING_SECRET_ENVELOPE_PREFIX w.(wh_signing_secret) = false.
Proof.
  destruct (subscription_ids_spec st t) as [Hnd Hin]. unfold plaintext_ids. split; [by apply NoDup_filter|].
  intros id. rewrite list_elem_of_filter, Hin. unfold is_plaintext. split.
  - intros (Hp & w & Hw & Ht). exists w. rewrite Hw in Hp. by apply negb_true_iff in Hp.
  - intros (w & Hw & Ht & Hp). split; [|by exists w]. rewrite Hw, Hp. done.
Qed.

Definition reencrypted_event (t : uuid) (c : caller) (id : uuid) : rbac_event := mkRbacEvent t c "webhook_subscription.secret_reencrypted" id.

Lemma reencrypt_rows_events ur t c ids st st' : NoDup ids → (∀ id, id ∈ ids → is_Some (st.(wb_subscriptions) !! id)) →
  reencrypt_rows upper aes_encrypt aes_decrypt secret ur t c ids st = (Ok tt, st') →
  st'.(wb_tenancy) = st.(wb_tenancy) ∧
  st'.(wb_rbac).(rs_events) = reverse (reencrypted_event t c <$> ids) ++ st.(wb_rbac).(rs_events).
Proof.
  intros Hnd. revert st. induction Hnd as [|id ids Hid Hnd IH]; intros st Hsome; simpl; [by intros [= <-]|].
  intros ([] & s1 & H1 & H2)%bind_Ok. pose proof (reencrypt_row_spec _ _ _ _ _ _ H1) as (_ & O1 & _).
  apply IH in H2 as [-> ->]. 2: { intros id' Hin. rewrite O1 by (by intros ->). apply Hsome. by right. }
  destruct (Hsome id) as [w Hw]; [by left|]. unfold reencrypt_row in H1. rewrite Hw in H1.
  destruct (reencrypted _ _ _ _ _ _ _) as [envelope|]; [|done]. case_bool_decide; [done|].
  unfold wrecord, in_rbac, record in H1. simpl in H1. injection H1 as <-. simpl. split; [done|].
  by rewrite reverse_cons, <-app_assoc.
Qed.

Lemma put_platform_id st : put_platform (ts_platform (wb_tenancy st)) st = st.
Proof. by destruct st as [[] ? ? ? ? ?]. Qed.

(** What a successful run of the session did. *)
Lemma reencrypt_body_spec ur t c r apply st res st' :
  reencrypt_body upper aes_encrypt aes_decrypt secret ur t c r apply st = (Ok res, st') →
  authorize_platform_caller st.(wb_tenancy).(ts_platform) c WEBHOOK_SECRET_REENCRYPT = Ok tt ∧ (∃ u, c = UserCaller u) ∧
  open_in st t ∧
  (length (plaintext_ids st t) ≤ MAX_REENCRYPT_SUBSCRIPTIONS)%nat ∧
  if apply then
    res = mkReencryption (length (plaintext_ids st t)) (length (plaintext_ids st t)) true ∧
    ∃ s1, reencrypt_rows upper aes_encrypt aes_decrypt secret ur t c (plaintext_ids st t) st = (Ok tt, s1) ∧
      st' = put_platform (add_paudit (mkPAudit c reencrypt_audit_action (TargetTenant (Some t)) SUCCESS (Some r)) s1.(wb_tenancy).(ts_platform)) s1
  else res = mkReencryption (length (plaintext_ids st t)) 0 false ∧ st' = st.
Proof.
  unfold reencrypt_body. intros ([] & s1 & H1 & H)%bind_Ok. unfold in_platform in H1.
  destruct (authorize_platform_caller _ c WEBHOOK_SECRET_REENCRYPT) as [[]|] eqn:Ea; [|done]. rewrite put_platform_id in H1. injection H1 as <-.
  apply bind_Ok in H as ([] & s2 & H2 & H). unfold wlift in H2. destruct c as [u| |]; try done. injection H2 as <-.
  apply bind_Ok in H as ([] & s3 & H3 & H). unfold wlift in H3. destruct (apply && _); [done|]. injection H3 as <-.
  apply bind_Ok in H as ([] & s4 & H4 & H). unfold of_tenant in H4. destruct (lock_open_tenant (wb_tenancy st) t) as [x|] eqn:El; [|done]. injection H4 as <-.
  apply bind_Ok in H as (rows & s5 & [= <- <-] & H). apply lock_open_tenant_Ok in El.
  case_bool_decide as Hl; [done|]. rewrite length_take in Hl.
  assert (length (plaintext_ids st t) ≤ MAX_REENCRYPT_SUBSCRIPTIONS)%nat as Hmax by (clear -Hl; unfold MAX_REENCRYPT_SUBSCRIPTIONS in *; lia).
  rewrite take_ge in H by (clear -Hmax; unfold MAX_REENCRYPT_SUBSCRIPTIONS in *; lia).
  split; [done|]. split; [by eexists|]. split; [by exists x|]. split; [done|]. destruct apply; simpl in H; [|by injection H as <- <-].
  apply bind_Ok in H as ([] & s6 & H6 & H). apply bind_Ok in H as ([] & s7 & H7 & [= <- <-]). split; [done|]. exists s6. split; [done|].
  unfold in_platform, record_platform_event in H7. destruct (reason_too_long (Some r)); [done|].
  destruct (bool_decide (ps_users _ !! u = None)); [done|]. by injection H7 as <-.
Qed.

Lemma reencrypt_spec ur t c reason apply st res st' :
  reencrypt_legacy_signing_secrets upper aes_encrypt aes_decrypt secret ur t c reason apply st = (res, st') →
  (same_rows st st' ∧ st'.(wb_rbac) = st.(wb_rbac) ∧ st'.(wb_events) = st.(wb_events) ∧ st'.(wb_consumptions) = st.(wb_consumptions) ∧
   ∃ e, res = Raise e) ∨
  ∃ r x, validate_reason reason = Ok r ∧ res = Ok x ∧ reencrypt_body upper aes_encrypt aes_decrypt secret ur t c r apply st = (Ok x, st').
Proof.
  unfold reencrypt_legacy_signing_secrets. destruct (validate_reason reason) as [r|]; [|intros [= <- <-]; left; split_and!; eauto; done].
  unfold transaction. destruct (reencrypt_body _ _ _ _ _ _ _ _ _ st) as [[x|e] s1] eqn:Eb.
  { intros [= <- <-]. right. eauto. }
  intros H. left. repeat case_match; simplify_eq; split_and!; eauto; done.
Qed.

(** ** A subscription and a replay record along one command *)

(** What one command can make of a subscription: nothing, its deletion, its
    creation by [subscribe], or its secret sealed. *)
Definition changed (op : webhook_op) (id : uuid) (w w' : option WebhookSubscription) : Prop :=
  w' = w ∨ w' = None ∨
  (w = None ∧ ∃ now t url c raw ur envelope, op = OpSubscribe now t url c raw ur ∧ accepted_url url ∧
     encrypt_signing_secret upper aes_encrypt secret ur t raw = Ok envelope ∧ w' = Some (mkWebhook t url envelope)) ∨
  ∃ v v' ur c reason, op = OpReencrypt ur v.(wh_tenant_id) c reason true ∧ w = Some v ∧ w' = Some v' ∧
    startswith SIGNING_SECRET_ENVELOPE_PREFIX v.(wh_signing_secret) = false ∧ sealed v.(wh_tenant_id) v v'.

Lemma same_rows_changed op id st st' : same_rows st st' → changed op id (st.(wb_subscriptions) !! id) (st'.(wb_subscriptions) !! id).
Proof. intros [-> _]. by left. Qed.

Lemma op_subscriptions st op id : changed op id (st.(wb_subscriptions) !! id) ((apply_op st op).(wb_subscriptions) !! id).
Proof.
  destruct op as [now t url c raw ur|now t s c|now i rid t ty data| |at_ t s e|at_ t s e pl ts sg key tol now|t older|t|ur t c reason apply|];
    try (by apply same_rows_changed, deliver_rows); try (by apply same_rows_changed); simpl.
  - destruct (subscribe _ _ _ _ _ _ _ _ _ _ _ _ _ st) as [r st'] eqn:E. simpl.
    apply subscribe_spec in E as [[-> _]|(id' & envelope & _ & Hurl & He & Hn & -> & _)]; [by left|].
    destruct (decide (id = id')) as [->|]; [|left; by apply lookup_insert_ne]. rewrite lookup_insert_eq. right. right. left.
    split; [done|]. eauto 15.
  - destruct (unsubscribe _ _ _ _ _ st) as [r st'] eqn:E. simpl. apply unsubscribe_spec in E as [H|(_ & -> & _)]; [by apply same_rows_changed|].
    destruct (decide (id = s)) as [->|]; [right; left; by rewrite lookup_delete_eq|left; by apply lookup_delete_ne].
  - apply same_rows_changed, trigger_event_rows.
  - destruct (record_webhook_delivery _ _ _ _ _ st) as [r st'] eqn:E. simpl. apply record_spec in E as [[-> _]|(_ & -> & _)]; by left.
  - destruct (verify_and_record_webhook_delivery _ _ _ _ _ _ _ _ _ _ _ _ _ st) as [r st'] eqn:E. simpl. apply verify_and_record_spec in E.
    destruct (verify_webhook_signature _ _ _ _ _ _ _ _); [|destruct E as [_ ->]; by left].
    apply record_spec in E as [[-> _]|(_ & -> & _)]; by left.
  - by left.
  - destruct (purge_tenant_webhooks t st) as [r st'] eqn:E. simpl.
    apply purge_tenant_spec in E as [[H _]|[Hs _]]; [by apply same_rows_changed|]. unfold changed.
    destruct (wb_subscriptions st' !! id) as [w|] eqn:Ew; [|right; by left]. apply Hs in Ew as [-> _]. by left.
  - destruct (reencrypt_legacy_signing_secrets _ _ _ _ _ _ _ _ _ st) as [r st'] eqn:E. simpl.
    apply reencrypt_spec in E as [[H _]|(r' & x & _ & _ & E)]; [by apply same_rows_changed|].
    apply reencrypt_body_spec in E as (_ & _ & _ & _ & E). destruct apply; [|destruct E as [_ ->]; by left].
    destruct E as (_ & s1 & Hrows & ->). destruct (plaintext_ids_spec st t) as [Hnd Hin].
    apply reencrypt_rows_spec in Hrows as (_ & Ho & Hs & _); [|done]. cbn [put_platform wb_subscriptions].
    destruct (decide (id ∈ plaintext_ids st t)) as [Hi|Hi]; [|left; by apply Ho].
    destruct (proj1 (Hin id) Hi) as (w & Hw & <- & Hp). destruct (Hs id w Hi Hw) as (w' & Hw' & Hse).
    right. right. right. exists w, w', ur, c, reason. done.
Qed.

Definition forgets (op : webhook_op) (r : WebhookReplayRecord) : Prop :=
  (∃ older, op = OpPurgeReplays r.(rr_tenant_id) older ∧ r.(rr_created_at) < older) ∨ op = OpPurgeTenant r.(rr_tenant_id).

Lemma op_replays st op id r : st.(wb_replays) !! id = Some r → (apply_op st op).(wb_replays) !! id = Some r ∨ forgets op r.
Proof.
  intros Hr. assert (∀ st', same_rows st st' → st'.(wb_replays) !! id = Some r ∨ forgets op r) as Hsame by (intros st' [_ ->]; by left).
  assert (∀ at_ t s e r0 st', record_webhook_delivery uuid4 at_ t s e st = (r0, st') → st'.(wb_replays) !! id = Some r ∨ forgets op r) as Hrec.
  { intros at_ t s e r0 st' [[-> _]|(_ & _ & _ & id' & Hn & ->)]%record_spec; left; [done|]. rewrite lookup_insert_ne; [done|]. intros ->. congruence. }
  destruct op as [now t url c raw ur|now t s c|now i rid t ty data| |at_ t s e|at_ t s e pl ts sg key tol now|t older|t|ur t c reason apply|];
    try (by apply Hsame, deliver_rows); try (by apply Hsame); simpl.
  - destruct (subscribe _ _ _ _ _ _ _ _ _ _ _ _ _ st) as [r0 st'] eqn:E. simpl.
    apply subscribe_spec in E as [[-> _]|(id' & envelope & _ & _ & _ & _ & _ & ->)]; by left.
  - destruct (unsubscribe _ _ _ _ _ st) as [r0 st'] eqn:E. simpl. apply unsubscribe_spec in E as [H|(-> & _)]; [by apply Hsame|by left].
  - apply Hsame, trigger_event_rows.
  - destruct (record_webhook_delivery _ _ _ _ _ st) as [r0 st'] eqn:E. simpl. by eapply Hrec.
  - destruct (verify_and_record_webhook_delivery _ _ _ _ _ _ _ _ _ _ _ _ _ st) as [r0 st'] eqn:E. simpl. apply verify_and_record_spec in E.
    destruct (verify_webhook_signature _ _ _ _ _ _ _ _); [by eapply Hrec|]. destruct E as [_ ->]. by left.
  - destruct (purge_replays_spec t older st _ eq_refl) as [_ H]. destruct (decide (rr_tenant_id r = t ∧ rr_created_at r < older)) as [[<- Ho]|Hn].
    + right. left. eauto.
    + left. by apply H.
  - destruct (purge_tenant_webhooks t st) as [r0 st'] eqn:E. simpl. apply purge_tenant_spec in E as [[H _]|[_ Hp]]; [by apply Hsame|].
    destruct (decide (rr_tenant_id r = t)) as [<-|]; [right; by right|]. left. by apply Hp.
  - destruct (reencrypt_legacy_signing_secrets _ _ _ _ _ _ _ _ _ st) as [r0 st'] eqn:E. simpl.
    apply reencrypt_spec in E as [[H _]|(r' & x & _ & _ & E)]; [by apply Hsame|].
    apply reencrypt_body_spec in E as (_ & _ & _ & _ & E). destruct apply; [|destruct E as [_ ->]; by left].
    destruct E as (_ & s1 & Hrows & ->). destruct (plaintext_ids_spec st t) as [Hnd _].
    apply reencrypt_rows_spec in Hrows as (Hrep & _); [|done]. cbn [put_platform wb_replays]. rewrite Hrep. by left.
Qed.
End History.
