(* ===== verification/WebhookFanout.v ===== *)
(** * Webhooks: the fan-out of an event

    The text of a UUID reads back as the UUID; an event becomes exactly one
    outbox row per subscription of its tenant, each of which the delivery handler
    reads back as the subscription, the event and its data. *)

From stdpp Require Import pretty.
From S2P Require Import Prelude StoreLogic PyStr PyTime PyText PyIp PyUrl TenantLifecycle PlatformAuthority PlatformService TenantHierarchy RbacDecision RbacService OutboxModel Outbox Egress Crypto Webhooks WebhookService WebhookDelivery WebhookProofs WebhookHistory.

(** ** Hexadecimal digits *)

Definition hex_char (c : N) : Prop := (48 ≤ c ≤ 57 ∨ 97 ≤ c ≤ 102)%N.

Lemma hex_pad_length w n : length (hex_pad w n) = w.
Proof. revert n. induction w as [|w IH]; intros n; simpl; [done|]. rewrite length_app, IH. simpl. lia. Qed.
Lemma hex_pad_chars w n : Forall hex_char (hex_pad w n).
Proof.
  revert n. induction w as [|w IH]; intros n; simpl; [constructor|]. apply Forall_app. split; [done|]. constructor; [|constructor].
  apply digit_char_range. apply Z.mod_pos_bound. lia.
Qed.
Lemma parse_hex_pad w n : 0 ≤ n < 16 ^ Z.of_nat w → parse_hex (hex_pad w n) = Some n.
Proof.
  unfold parse_hex. revert n. induction w as [|w IH]; intros n Hn; simpl.
  { change (16 ^ Z.of_nat 0) with 1 in Hn. f_equal. lia. }
  rewrite foldl_app, IH; simpl.
  - rewrite digit_value_char by (apply Z.mod_pos_bound; lia). f_equal. rewrite (Z.div_mod n 16) at 3 by lia. lia.
  - rewrite Nat2Z.inj_succ, Z.pow_succ_r in Hn by lia. split; [apply Z.div_pos; lia|apply Z.div_lt_upper_bound; lia].
Qed.

(** ** The text of a UUID *)

Lemma replace_absent c old new s : c ∉ s → replace (c :: old) new s = s.
Proof.
  unfold replace. induction s as [|x s IH]; [done|]. intros [Hne Hni]%not_elem_of_cons. simpl.
  destruct (startswith (c :: old) (x :: s)) eqn:E; [|by rewrite IH].
  apply startswith_spec in E. by apply prefix_cons_inv_1 in E.
Qed.
Lemma lstrip_braces_absent s : 123%N ∉ s → 125%N ∉ s → lstrip_braces s = s.
Proof.
  destruct s as [|c s]; [done|]. intros [H1 _]%not_elem_of_cons [H2 _]%not_elem_of_cons. simpl. rewrite bool_decide_eq_false_2; [done|].
  intros [->|[->|[]%elem_of_nil]%elem_of_cons]%elem_of_cons; done.
Qed.

Lemma filter_hex s : Forall hex_char s → filter (λ c, c ≠ 45%N) s = s.
Proof.
  induction 1 as [|c s Hc _ IH]; [done|]. rewrite filter_cons_True, IH; [done|]. unfold hex_char in Hc. lia.
Qed.
(** The five groups and the dashes between them. *)
Definition dashed (h : pystr) : pystr :=
  take 8 h ++ 45%N :: take 4 (drop 8 h) ++ 45%N :: take 4 (drop 12 h) ++ 45%N :: take 4 (drop 16 h) ++ 45%N :: drop 20 h.
Lemma str_uuid_dashed u : str_uuid u = dashed (hex_pad 32 (Z.of_N u)).
Proof. reflexivity. Qed.

Lemma str_uuid_chars u c : c ∈ str_uuid u → hex_char c ∨ c = 45%N.
Proof.
  pose proof (hex_pad_chars 32 (Z.of_N u)) as Hh. rewrite str_uuid_dashed.
  generalize dependent (hex_pad 32 (Z.of_N u)). intros h Hh. unfold dashed. rewrite Forall_forall in Hh.
  assert (∀ x n, x ∈ drop n h → hex_char x) as Hd by (intros x n [i Hi]%list_elem_of_lookup; rewrite lookup_drop in Hi; by eapply Hh, list_elem_of_lookup_2).
  assert (∀ x n m, x ∈ take m (drop n h) → hex_char x) as Ht
    by (intros x n m [i Hi]%list_elem_of_lookup; apply lookup_take_Some in Hi as [Hi _]; by eapply Hd, list_elem_of_lookup_2).
  pose proof (Ht c 0%nat 8%nat) as H0. rewrite drop_0 in H0. rewrite !elem_of_app, !elem_of_cons, !elem_of_app, !elem_of_cons, !elem_of_app,
    !elem_of_cons, !elem_of_app, !elem_of_cons.
  intros Hc. repeat match goal with H : _ ∨ _ |- _ => destruct H end; eauto.
Qed.
Lemma str_uuid_digits u : filter (λ c, c ≠ 45%N) (str_uuid u) = uuid_hex u.
Proof.
  pose proof (hex_pad_chars 32 (Z.of_N u)) as Hh. rewrite str_uuid_dashed. change (uuid_hex u) with (hex_pad 32 (Z.of_N u)).
  generalize dependent (hex_pad 32 (Z.of_N u)). intros h Hh. unfold dashed.
  assert (∀ s t, Forall hex_char s → filter (λ c, c ≠ 45%N) (s ++ 45%N :: t) = s ++ filter (λ c, c ≠ 45%N) t) as Hf.
  { intros s t Hs. rewrite filter_app, filter_hex, filter_cons_False by (done || (intros ?; done)). done. }
  rewrite !Hf, filter_hex by auto using Forall_take, Forall_drop.
  change 20%nat with (16 + 4)%nat. rewrite <-drop_drop, take_drop. change 16%nat with (12 + 4)%nat. rewrite <-drop_drop, take_drop.
  change 12%nat with (8 + 4)%nat. rewrite <-drop_drop, take_drop. apply take_drop.
Qed.

Section Fanout.
Context (uuid4 : nat → uuid) (int16 : pystr → option Z).
(** [int(_, 16)] of hexadecimal digits is the number they write. *)
Context (int16_hex : ∀ s, s ≠ [] → Forall hex_char s → int16 s = parse_hex s).

Lemma uuid_roundtrip u : (u < 2 ^ 128)%N → uuid_of_string int16 (str_uuid u) = Some u.
Proof.
  intros Hu. unfold uuid_of_string.
  assert (∀ c, ¬ hex_char c → c ≠ 45%N → c ∉ str_uuid u) as Habs by (intros c H1 H2 [?|?]%str_uuid_chars; done).
  change (lit "urn:") with (117%N :: lit "rn:"). change (lit "uuid:") with (117%N :: lit "uid:").
  assert (∀ old, replace (117%N :: old) [] (str_uuid u) = str_uuid u) as Hrep by (intros; apply replace_absent, Habs; unfold hex_char; lia).
  rewrite !Hrep. unfold strip_braces.
  assert (123%N ∉ str_uuid u ∧ 125%N ∉ str_uuid u) as [H1 H2] by (split; apply Habs; unfold hex_char; lia).
  rewrite (lstrip_braces_absent (str_uuid u)) by done. rewrite lstrip_braces_absent by (by rewrite elem_of_reverse).
  rewrite reverse_involutive, str_uuid_digits. unfold uuid_hex. rewrite hex_pad_length.
  change (32 =? 32)%nat with true. cbv iota. rewrite int16_hex, parse_hex_pad.
  - cbn [fmap option_fmap option_map]. by rewrite N2Z.id.
  - split; [lia|]. change (16 ^ Z.of_nat 32) with (Z.of_N (2 ^ 128)). lia.
  - intros H. pose proof (hex_pad_length 32 (Z.of_N u)) as Hl. by rewrite H in Hl.
  - apply hex_pad_chars.
Qed.

Lemma delivery_roundtrip sub ev ty data extra : (sub < 2 ^ 128)%N → (ev < 2 ^ 128)%N → ty ≠ [] →
  parse_delivery int16 (delivery_payload sub ev ty data ++ extra) = Ok (sub, ev, ty, data).
Proof.
  intros Hs He Hty. unfold parse_delivery, uuid_field.
  change (dict_get "subscription_id" (delivery_payload sub ev ty data ++ extra)) with (Some (JStr (str_uuid sub))).
  change (dict_get "event_id" (delivery_payload sub ev ty data ++ extra)) with (Some (JStr (str_uuid ev))).
  change (dict_get "event_type" (delivery_payload sub ev ty data ++ extra)) with (Some (JStr ty)).
  change (dict_get "event_data" (delivery_payload sub ev ty data ++ extra)) with (Some (JObj data)).
  cbn [str_value]. rewrite !uuid_roundtrip by done. by destruct ty.
Qed.

(** ** One outbox row per subscription *)

Definition delivery_event (now : datetime) (initiated_by : option json) (request_id : option pystr) (t ev : uuid) (ty : pystr)
    (data : list (pystr * json)) (id : uuid) : OutboxEvent :=
  mkOutboxEvent t WEBHOOK_DELIVERY_EVENT_TYPE (lit "webhook_subscription") (str_uuid id)
    (match initiated_by with
     | None => delivery_payload id ev ty data
     | Some i => delivery_payload id ev ty data ++ [(INITIATED_BY_PAYLOAD_KEY, i)]
     end)
    (match request_id with Some r => if bool_decide (100 < length r)%nat then None else Some r | None => None end)
    OUTBOX_STATUS_PENDING 0 now None None None None None now now.

Lemma str_uuid_length u : length (str_uuid u) = 36%nat.
Proof.
  rewrite str_uuid_dashed. unfold dashed. repeat (rewrite length_app || cbn [length] || rewrite length_take || rewrite length_drop).
  rewrite hex_pad_length. reflexivity.
Qed.
Lemma delivery_event_valid id ev ty data :
  validate_event WEBHOOK_DELIVERY_EVENT_TYPE (lit "webhook_subscription") (str_uuid id) (delivery_payload id ev ty data) = Ok tt.
Proof.
  unfold validate_event. change (bool_decide (100 < length WEBHOOK_DELIVERY_EVENT_TYPE)%nat || negb (matches_dotted_name WEBHOOK_DELIVERY_EVENT_TYPE)) with false.
  change (bool_decide (100 < length (lit "webhook_subscription"))%nat || negb (matches_simple_name (lit "webhook_subscription"))) with false.
  cbv iota. rewrite (bool_decide_eq_false_2 (str_uuid id = [])) by (intros H; pose proof (str_uuid_length id) as Hl; by rewrite H in Hl).
  rewrite str_uuid_length. change (bool_decide (255 < 36)%nat) with false. cbn [orb].
  change ((delivery_payload id ev ty data).*1) with [lit "subscription_id"; lit "event_id"; lit "event_type"; lit "event_data"].
  by rewrite bool_decide_eq_false_2 by (by vm_compute; intros H; repeat (apply elem_of_cons in H as [H|H]; [done|]); apply elem_of_nil in H).
Qed.

(** The next [k] ids drawn are UUIDs, none is that of an outbox event, and none is
    drawn twice. *)
Definition fresh_ids (st : webhook_store) (k : nat) : Prop :=
  let next n := (st.(wb_rbac).(rs_drawn) ≤ n < st.(wb_rbac).(rs_drawn) + k)%nat in
  ∀ n, next n → (uuid4 n < 2 ^ 128)%N ∧ st.(wb_events) !! uuid4 n = None ∧ ∀ m, next m → uuid4 n = uuid4 m → n = m.

Lemma append_deliveries_spec now i rid t ev ty data ids st :
  is_Some (st.(wb_tenancy).(ts_tenants) !! t) → fresh_ids st (length ids) →
  let outs := uuid4 <$> seq st.(wb_rbac).(rs_drawn) (length ids) in
  ∃ st', append_deliveries uuid4 now i rid t ev ty data ids st = (Ok outs, st') ∧
    (∀ k out id, outs !! k = Some out → ids !! k = Some id →
       st'.(wb_events) !! out = Some (delivery_event now i rid t ev ty data id)) ∧
    (∀ k, k ∉ outs → st'.(wb_events) !! k = st.(wb_events) !! k).
Proof.
  revert st. induction ids as [|id ids IH]; intros st Ht Hfresh; simpl.
  { exists st. split_and!; [done| |done]. intros k out id Hk. by rewrite lookup_nil in Hk. }
  set (st1 := mkWebhooks st.(wb_tenancy)
    (mkRbacStore st.(wb_rbac).(rs_rows) st.(wb_rbac).(rs_roles) st.(wb_rbac).(rs_events) (S st.(wb_rbac).(rs_drawn)))
    st.(wb_subscriptions) st.(wb_replays) (<[uuid4 st.(wb_rbac).(rs_drawn) := delivery_event now i rid t ev ty data id]> st.(wb_events))
    st.(wb_consumptions)).
  assert (in_outbox (append_event uuid4 (Some t) t WEBHOOK_DELIVERY_EVENT_TYPE (lit "webhook_subscription") (str_uuid id)
    (delivery_payload id ev ty data) i rid now) st = (Ok (uuid4 st.(wb_rbac).(rs_drawn)), st1)) as H1.
  { unfold in_outbox, append_event. rewrite delivery_event_valid, (bool_decide_eq_true_2 (Some t = Some t)) by done. cbn [negb os_tenants].
    rewrite (bool_decide_eq_false_2 (_ !! t = None)) by (by apply not_eq_None_Some). cbn [os_drawn os_events].
    by destruct (Hfresh (rs_drawn (wb_rbac st))) as (_ & -> & _); [simpl; lia|]. }
  destruct (IH st1) as (st' & H2 & Hin & Hout); [done| |].
  { intros n Hn. simpl in Hn |- *. destruct (Hfresh n) as (H2 & H3 & H4); [simpl; lia|]. split; [done|]. split.
    - rewrite lookup_insert_ne; [done|]. intros E. symmetry in E. apply H4 in E; simpl; lia.
    - intros m Hm. apply H4. simpl. lia. }
  simpl in H2, Hin, Hout. exists st'. split_and!.
  - unfold bind. rewrite H1, H2. done.
  - intros [|k] out id' Hk Hid; simpl in Hk, Hid; [|by apply (Hin k)]. injection Hk as <-. injection Hid as <-. rewrite Hout; [by apply lookup_insert_eq|].
    intros (m & E & Hm)%list_elem_of_fmap. apply elem_of_seq in Hm. apply Hfresh in E; simpl; lia.
  - intros k [Hne Hni]%not_elem_of_cons. rewrite Hout by done. by apply lookup_insert_ne.
Qed.

(** C14: An event reaches every subscription of its tenant exactly once.  For an
    open tenant, [trigger_event] returns: it adds one pending outbox row per
    subscription of the tenant, in the order of their ids, under distinct fresh
    ids, touches no other row, and the delivery handler reads each row back as
    that subscription, the one event id, the event's type and its data; for a
    closed or missing tenant it raises and changes nothing. *)
Theorem fanout_exact now i rid t ty data st :
  fresh_ids st (S (length (subscription_ids st t))) →
  (∀ id, is_Some (st.(wb_subscriptions) !! id) → id < 2 ^ 128)%N → ty ≠ [] →
  (open_in st t →
   ∃ ev outs st', trigger_event uuid4 now i rid t ty data st = (Ok outs, st') ∧ same_rows st st' ∧ NoDup outs ∧
     length outs = length (subscription_ids st t) ∧ Sorted N.le (subscription_ids st t) ∧
     (∀ id, id ∈ subscription_ids st t ↔ ∃ w, st.(wb_subscriptions) !! id = Some w ∧ w.(wh_tenant_id) = t) ∧
     (∀ k out id, outs !! k = Some out → subscription_ids st t !! k = Some id →
        st.(wb_events) !! out = None ∧ ∃ row, st'.(wb_events) !! out = Some row ∧
          row.(ev_tenant_id) = t ∧ row.(ev_event_type) = WEBHOOK_DELIVERY_EVENT_TYPE ∧ row.(ev_status) = OUTBOX_STATUS_PENDING ∧
          parse_delivery int16 row.(ev_payload) = Ok (id, ev, ty, data)) ∧
     (∀ k, k ∉ outs → st'.(wb_events) !! k = st.(wb_events) !! k)) ∧
  (¬ open_in st t → ∃ e, trigger_event uuid4 now i rid t ty data st = (Raise e, st)).
Proof.
  intros Hfresh Hids Hty. unfold trigger_event, bind at 1, of_tenant at 1. split.
  - intros (x & Hx & Hc). unfold lock_open_tenant, tenants_of, tenancy_store_tenants. rewrite Hx, Hc. unfold bind, fresh_id.
    set (st1 := put_rbac (rdraw (wb_rbac st)) st). set (ev := uuid4 _). destruct (subscription_ids_spec st t) as [Hnd Hin].
    destruct (append_deliveries_spec now i rid t ev ty data (subscription_ids st t) st1) as (st' & H & Hrow & Hother); [by exists x| |].
    { intros n Hn. simpl in Hn |- *. destruct (Hfresh n) as (F1 & F2 & F3); [lia|]. split_and!; [done..|]. intros m Hm. apply F3. lia. }
    assert (ev < 2 ^ 128)%N as Hev by (apply Hfresh; lia).
    exists ev. eexists. exists st'. split; [exact H|]. split.
    { eapply (keeps_result same_rows) in H; [|apply append_deliveries_rows]. by destruct H. }
    split.
    { apply NoDup_fmap_2_strong; [|apply NoDup_seq]. intros n m Hn%elem_of_seq Hm%elem_of_seq. simpl in Hn, Hm. apply Hfresh; lia. } split; [by rewrite length_fmap, length_seq|].
    split; [apply Sorted_merge_sort; intros ??; lia|]. split; [done|]. split; [|done].
    intros k out id Hk Hid. split.
    + apply list_lookup_fmap_Some in Hk as (n & -> & Hn). apply lookup_seq in Hn as [-> ?]. apply Hfresh. simpl. lia.
    + eexists. split; [by eapply Hrow|]. simpl. split_and!; try done.
      assert (id < 2 ^ 128)%N by (apply Hids; apply list_elem_of_lookup_2, Hin in Hid as (w & Hw & _); by exists w).
      destruct i as [i|]; [apply (delivery_roundtrip id ev ty data [_]); done|].
      rewrite <-(app_nil_r (delivery_payload id ev ty data)). apply delivery_roundtrip; done.
  - intros Hn. unfold bind at 1, of_tenant, lock_open_tenant, tenants_of, tenancy_store_tenants. destruct (ts_tenants (wb_tenancy st) !! t) as [x|] eqn:Ex; [|by eexists].
    destruct (is_closed (t_status x)) eqn:Ec; [by eexists|]. exfalso. apply Hn. by exists x.
Qed.
End Fanout.

(** * Webhooks: the replay ledger and the signing secrets over histories

    What holds after any sequence of the component's operations: an accepted
    delivery is not accepted again, a subscription keeps its tenant, its URL and
    its secret, and what the re-encryption of legacy secrets did. *)

Lemma str_uuid_inj u v : (u < 2 ^ 128)%N → (v < 2 ^ 128)%N → str_uuid u = str_uuid v → u = v.
Proof.
  intros Hu Hv E. apply (f_equal (uuid_of_string parse_hex)) in E. rewrite !uuid_roundtrip in E by done. congruence.
Qed.

Section History.
Context (uuid4 : nat → uuid) (lower nfkc upper : pystr → pystr) (int16 : pystr → option Z).
Context (hmac_hex : pystr → pystr → pystr).
Context (aes_encrypt : pystr → pystr → pystr → option pystr → pystr) (aes_decrypt : pystr → pystr → pystr → option pystr → option pystr).
Context (secret : secrets) (config : result webhook_error WebhookSecurityConfig).
Context (httpx httpcore : pystr) (proxy_url : option pystr).

Abbreviation run := (run uuid4 lower nfkc upper int16 hmac_hex aes_encrypt aes_decrypt secret config httpx httpcore proxy_url).
Abbreviation verify := (verify_webhook_signature hmac_hex config).
Abbreviation accept := (verify_and_record_webhook_delivery uuid4 hmac_hex config).

(** ** Replays *)

Definition tolerance_of (tolerance : option Z) : result webhook_error Z :=
  match tolerance with Some t => Ok t | None => let* c := config in Ok c.(tolerance_seconds) end.

Lemma verify_Ok key payload ts sg tol now : verify key payload ts sg tol now = Ok tt →
  ∃ limit d, tolerance_of tol = Ok limit ∧ fromtimestamp ts = Some d ∧
    now - d ≤ limit * us_per_second ∧ - (limit * us_per_second) ≤ now - d ∧ compute_signed_envelope hmac_hex key payload ts = Ok sg.
Proof.
  unfold verify_webhook_signature. fold (tolerance_of tol). destruct (tolerance_of tol) as [limit|]; [|done]. simpl.
  destruct (fromtimestamp ts) as [d|]; [|done]. destruct (_ || _) eqn:E; [done|].
  destruct (compute_signed_envelope hmac_hex key payload ts) as [expected|]; [|done]. simpl.
  destruct (negb (ascii_only sg) || negb _) eqn:E2; [done|]. intros _. exists limit, d. reflect_bools.
  split_and!; try done; try lia. congruence.
Qed.

Lemma replay_recorded_true st t s e : replay_recorded st t s e = true ↔
  ∃ id r, st.(wb_replays) !! id = Some r ∧ r.(rr_tenant_id) = t ∧ r.(rr_subscription_id) = s ∧ r.(rr_event_id) = e.
Proof.
  unfold replay_recorded, is_replay_of. rewrite existsb_exists. split.
  - intros ([id r] & Hin%list_elem_of_In%elem_of_map_to_list & H). simpl in H. reflect_bools. eauto 10.
  - intros (id & r & Hr & H1 & H2 & H3). exists (id, r). split; [by apply list_elem_of_In, elem_of_map_to_list|]. simpl.
    by rewrite !bool_decide_eq_true_2.
Qed.

(** A run that forgets no record of a kind keeps it. *)
Lemma run_replays ops st id r : (∀ op, op ∈ ops → ¬ forgets op r) → st.(wb_replays) !! id = Some r → (run st ops).(wb_replays) !! id = Some r.
Proof.
  revert st. induction ops as [|op ops IH]; intros st Hops Hr; simpl; [done|]. apply IH; [intros op' Hin; apply Hops; by right|].
  destruct (op_replays uuid4 lower nfkc upper int16 hmac_hex aes_encrypt aes_decrypt secret config httpx httpcore proxy_url st op id r Hr)
    as [|Hf]; [done|]. exfalso. apply (Hops op); [by left|done].
Qed.

(** C13: An accepted delivery is never accepted again.  After
    [verify_and_record_webhook_delivery] accepted an event of a subscription,
    whatever operations follow, presenting the same event with the same signed
    timestamp raises (the replay error, if it still verifies) and changes
    nothing, as long as the tenant is not purged and every retention purge of its
    records kept those younger than twice the tolerance. *)
Theorem replay_once at1 t s e payload ts sg key tol limit now1 st0 st1 ops at2 payload2 sg2 key2 tol2 now2 :
  accept at1 t s e payload ts sg key tol now1 st0 = (Ok tt, st1) →
  tolerance_of tol = Ok limit → (∀ limit2, tolerance_of tol2 = Ok limit2 → limit2 ≤ limit) → now1 ≤ at1 →
  (∀ op, op ∈ ops → op ≠ OpPurgeTenant t ∧ ∀ older_than, op = OpPurgeReplays t older_than → older_than ≤ now2 - 2 * limit * us_per_second) →
  accept at2 t s e payload2 ts sg2 key2 tol2 now2 (run st1 ops) =
    (Raise (match verify key2 payload2 ts sg2 tol2 now2 with Ok _ => WebhookReplayDetectedError t s e | Raise err => err end), run st1 ops).
Proof.
  intros Hacc Hlim Hlim2 Hat Hops.
  apply verify_and_record_spec in Hacc. destruct (verify key payload ts sg tol now1) as [[]|] eqn:Ev1; [|by destruct Hacc].
  apply record_spec in Hacc as [[_ [=]]|(_ & _ & _ & id & _ & Hrep)].
  assert (st1.(wb_replays) !! id = Some (mkReplay t s e at1)) as Hr by (rewrite Hrep; apply lookup_insert_eq).
  destruct (accept at2 t s e payload2 ts sg2 key2 tol2 now2 (run st1 ops)) as [r st2] eqn:E2. apply verify_and_record_spec in E2.
  destruct (verify key2 payload2 ts sg2 tol2 now2) as [[]|] eqn:Ev2; [|by destruct E2 as [-> ->]].
  apply verify_Ok in Ev1 as (l1 & d & Hl1 & Hd & _ & Hb & _). rewrite Hlim in Hl1. injection Hl1 as <-.
  apply verify_Ok in Ev2 as (l2 & d' & Hl2 & Hd' & Hb' & _ & _). rewrite Hd in Hd'. injection Hd' as <-. apply Hlim2 in Hl2.
  apply record_spec in E2 as [[-> ->]|(_ & _ & Hno & _)]; [done|]. exfalso.
  assert (replay_recorded (run st1 ops) t s e = true) as Hyes; [|congruence].
  apply replay_recorded_true. exists id, (mkReplay t s e at1). split; [|done]. apply run_replays; [|done].
  intros op Hin [(older & -> & Ho)| ->]; destruct (Hops _ Hin) as [Hp Hr']; [|done]. specialize (Hr' _ eq_refl). simpl in Ho.
  unfold us_per_second in *. nia.
Qed.

(** ** Secrets *)

Definition good_nonce (n : pystr) : Prop := is_bytes n ∧ length n = 12%nat.

(** What a URL must be for a subscription: of a length, without control characters,
    to a named host, over https, or over http where the configuration allows it, on a
    valid port, one of the allowed ones if there is a list, and not to a literal
    address that is not public. *)
Definition acceptable_url (url : pystr) : Prop :=
  url ≠ [] ∧ (length url ≤ MAX_URL_LENGTH)%nat ∧ existsb is_control url = false ∧
  ∃ c p host port, config = Ok c ∧ urlsplit nfkc url = Some p ∧ p.(netloc) ≠ [] ∧ hostname lower p = Some host ∧
    (p.(scheme) = lit "https" ∨ p.(scheme) = lit "http" ∧ http_allowed c = true) ∧
    PyUrl.port p = Ok port ∧
    (∀ allowed, c.(webhook_allowed_ports) = Some allowed →
       ∃ n, match port with Some n => Some n | None => DEFAULT_PORTS p.(scheme) end = Some n ∧ n ∈ allowed) ∧
    (∀ a, ip_address host = Some a → is_non_public_address a = false).
Lemma accepted_url_acceptable url : accepted_url lower nfkc config url → acceptable_url url.
Proof.
  intros [Hv Hh]. unfold validate_webhook_url in Hv. destruct (_ || _) eqn:E0; [done|].
  apply orb_false_elim in E0 as [[E1 E2]%orb_false_elim E3]. apply bool_decide_eq_false in E1, E2.
  split_and!; [done|lia|done|]. unfold require_http_allowed in Hh. unfold urlparse in Hv, Hh.
  destruct (urlsplit nfkc url) as [p|] eqn:Ep; [|done]. simpl in Hv, Hh. destruct (negb _ || _) eqn:E; [done|].
  apply orb_false_elim in E as [Hs%negb_false_iff%bool_decide_eq_true Hn%bool_decide_eq_false].
  destruct (hostname lower p) as [host|] eqn:Eh; [|done].
  destruct (require_allowed_port nfkc config url InvalidWebhookUrlError) as [[]|] eqn:Er; [|done]. simpl in Hv.
  unfold require_allowed_port, urlparse in Er. rewrite Ep in Er. destruct config as [c|] eqn:Ec; [|done]. simpl in Er, Hh.
  destruct (PyUrl.port p) as [port|] eqn:Eport; [|done]. exists c, p, host, port. split_and!; try done.
  - apply elem_of_cons in Hs as [Hs|[Hs|[]%elem_of_nil]%elem_of_cons]; [right|by left]. split; [done|].
    rewrite bool_decide_eq_true_2 in Hh by done. simpl in Hh. by destruct (http_allowed c).
  - intros allowed Ha. rewrite Ha in Er. destruct (match port with Some n => _ | None => _ end) as [n|]; [|done]. exists n.
    split; [done|]. simpl in Er. destruct (bool_decide (n ∈ allowed)) eqn:B; [by apply bool_decide_eq_true in B|done].
  - intros a Ha. unfold reject_if_literal_non_public_address in Hv. rewrite Ha in Hv. by destruct (is_non_public_address a).
Qed.

(** C10: A subscription keeps its tenant, its URL and its secret.  After any
    history, every subscription is one of the first store with its tenant and its
    URL, and a secret that decrypts as before (a plaintext may have become an
    envelope, never the reverse); or it was made by a [subscribe] of the history:
    its URL is acceptable ([acceptable_url]: scheme, host, port and address by the
    configuration), its secret is stored as an envelope, decrypts to the secret that
    call returned, and presented as any other tenant's is refused, unless that very
    ciphertext has a valid tag for the other tenant as well. *)
Theorem subscription_secrets st0 ops id w :
  aes_gcm aes_encrypt aes_decrypt →
  (∀ now t url c raw ur, OpSubscribe now t url c raw ur ∈ ops → good_nonce ur) →
  (run st0 ops).(wb_subscriptions) !! id = Some w →
  let t := w.(wh_tenant_id) in
  let envelope v := startswith SIGNING_SECRET_ENVELOPE_PREFIX v.(wh_signing_secret) = true in
  (∃ w0, st0.(wb_subscriptions) !! id = Some w0 ∧ w0.(wh_tenant_id) = t ∧ w0.(wh_url) = w.(wh_url) ∧
     decrypt_signing_secret upper aes_decrypt secret t w.(wh_signing_secret) = decrypt_signing_secret upper aes_decrypt secret t w0.(wh_signing_secret) ∧
     (w = w0 ∨ ¬ envelope w0 ∧ envelope w)) ∨
  (∃ now c raw ur, OpSubscribe now t w.(wh_url) c raw ur ∈ ops ∧ acceptable_url w.(wh_url) ∧
     envelope w ∧ decrypt_signing_secret upper aes_decrypt secret t w.(wh_signing_secret) = Ok raw ∧
     ∀ t', t' ≠ t → (t < 2 ^ 128)%N → (t' < 2 ^ 128)%N →
       decrypt_signing_secret upper aes_decrypt secret t' w.(wh_signing_secret) = Raise DecryptionAuthenticationError ∨
       tag_collision upper aes_encrypt secret ur raw (Some (signing_secret_associated_data t)) (Some (signing_secret_associated_data t'))).
Proof.
  intros Hgcm. cbv zeta. revert w. induction ops as [|op ops IH] using rev_ind; intros w Hnonce Hw.
  { left. exists w. split_and!; try done. by left. }
  unfold WebhookHistory.run in Hw. rewrite foldl_snoc in Hw. fold (run st0 ops) in Hw.
  pose proof (op_subscriptions uuid4 lower nfkc upper int16 hmac_hex aes_encrypt aes_decrypt secret config httpx httpcore proxy_url (run st0 ops) op id) as Hc.
  rewrite Hw in Hc. assert (∀ now t url c raw ur, OpSubscribe now t url c raw ur ∈ ops → good_nonce ur) as Hn'.
  { intros now t url c raw ur Hin. eapply Hnonce. apply elem_of_app. left. exact Hin. }
  destruct Hc as [Hc|[Hc|[(_ & now & t & url & c & raw & ur & envelope & -> & Hurl & He & Hc)|(v & v' & ur & c & reason & -> & Hv & Hc & Hp & Hs)]]];
    [|done|injection Hc as ->|injection Hc as ->].
  - destruct (IH w Hn' (eq_sym Hc)) as [H|(now & c & raw & ur & Hin & H)]; [by left|right].
    exists now, c, raw, ur. split; [|done]. apply elem_of_app. by left.
  - right. simpl. apply accepted_url_acceptable in Hurl.
    destruct (Hnonce now t url c raw ur) as [Hn1 Hn2]; [apply elem_of_app; right; by apply list_elem_of_singleton|].
    apply (encrypt_str_spec upper aes_encrypt aes_decrypt) in He as (kv & k & b & Hv & Hk & Hb & Hd & Hs); [|done..].
    pose proof (λ ad', decrypt_str_spec upper aes_encrypt aes_decrypt secret secret kv k ur b raw _ ad' _ Hd Hv Hk Hk Hb Hgcm) as Hdec.
    exists now, c, raw, ur. unfold decrypt_signing_secret. change SIGNING_SECRET_ENVELOPE_PREFIX with (lit "efv1:"). rewrite Hs. simpl negb. cbv iota.
    split_and!; [apply elem_of_app; right; by apply list_elem_of_singleton|done..| |].
    + specialize (Hdec (Some (signing_secret_associated_data t))). by rewrite decide_True in Hdec.
    + intros t' Hne Ht Ht'. specialize (Hdec (Some (signing_secret_associated_data t'))). rewrite decide_False in Hdec; [done|].
      simpl. intros E%(inj (app _)). apply Hne. symmetry. by apply str_uuid_inj.
  - destruct Hs as (Ht & Hu & Hse & Hde). destruct (IH v Hn' Hv) as [(w0 & Hw0 & Ht0 & Hu0 & Hd0 & Hcase)|(now & c' & raw & ur' & _ & _ & Hen & _)].
    2: { rewrite Hp in Hen. done. }
    destruct Hcase as [->|[_ Hen]]; [|rewrite Hp in Hen; done]. left. exists w0. rewrite Ht, Hu. split_and!; try done.
    + rewrite Hde. unfold decrypt_signing_secret. by rewrite Hp.
    + right. by rewrite Hp.
Qed.

(** ** Re-encryption *)

Abbreviation decrypts := (decrypt_signing_secret upper aes_decrypt secret).

(** C32: The re-encryption of legacy secrets loses none and leaves none.  A run
    that returns was authorized for a person and an open tenant, and counts the
    tenant's plaintext secrets; applied, it leaves no plaintext secret of the
    tenant, every subscription keeps its tenant, its URL and its decrypted secret,
    those that were envelopes or another tenant's are untouched, each converted
    row has its tenant audit row and the run its platform audit row; a dry run
    changes nothing, and a run that raises changes no subscription, no replay
    record and no tenant audit row. *)
Theorem reencryption_exact ur t c reason apply st :
  match reencrypt_legacy_signing_secrets upper aes_encrypt aes_decrypt secret ur t c reason apply st with
  | (Raise _, st') => same_rows st st' ∧ st'.(wb_rbac) = st.(wb_rbac) ∧ st'.(wb_events) = st.(wb_events)
  | (Ok x, st') =>
      let legacy := plaintext_ids st t in
      authorize_platform_caller st.(wb_tenancy).(ts_platform) c WEBHOOK_SECRET_REENCRYPT = Ok tt ∧ (∃ u, c = UserCaller u) ∧ open_in st t ∧
      x = mkReencryption (length legacy) (if apply then length legacy else 0%nat) apply ∧
      if apply then
        plaintext_ids st' t = [] ∧ st'.(wb_replays) = st.(wb_replays) ∧
        (∀ id, is_Some (st'.(wb_subscriptions) !! id) ↔ is_Some (st.(wb_subscriptions) !! id)) ∧
        (∀ id w, st.(wb_subscriptions) !! id = Some w →
           ∃ w', st'.(wb_subscriptions) !! id = Some w' ∧ w'.(wh_tenant_id) = w.(wh_tenant_id) ∧ w'.(wh_url) = w.(wh_url) ∧
             decrypts w.(wh_tenant_id) w'.(wh_signing_secret) = decrypts w.(wh_tenant_id) w.(wh_signing_secret) ∧
             (id ∉ legacy → w' = w)) ∧
        st'.(wb_rbac).(rs_events) = reverse (reencrypted_event t c <$> legacy) ++ st.(wb_rbac).(rs_events) ∧
        ∃ r, validate_reason reason = Ok r ∧ st'.(wb_tenancy).(ts_platform) =
          add_paudit (mkPAudit c reencrypt_audit_action (TargetTenant (Some t)) SUCCESS (Some r)) st.(wb_tenancy).(ts_platform)
      else st' = st
  end.
Proof.
  destruct (reencrypt_legacy_signing_secrets _ _ _ _ _ _ _ _ _ st) as [res st'] eqn:E.
  apply reencrypt_spec in E as [(Hs & Hr & He & _ & e & ->)|(r & x & Hr & -> & E)]; [done|].
  apply reencrypt_body_spec in E as (Ha & Hu & Ho & _ & E). cbv zeta. split; [done|]. split; [done|]. split; [done|].
  destruct apply; [|by destruct E as [-> ->]]. destruct E as (-> & s1 & Hrows & ->). split; [done|].
  destruct (plaintext_ids_spec st t) as [Hnd Hin].
  assert (∀ id, id ∈ plaintext_ids st t → is_Some (wb_subscriptions st !! id)) as Hsome by (intros id (w & Hw & _)%Hin; by exists w).
  destruct (reencrypt_rows_events _ _ _ _ _ _ _ _ _ _ Hnd Hsome Hrows) as [Hten Hev].
  apply reencrypt_rows_spec in Hrows as (Hrep & Hother & Hsealed & Hnone); [|done]. cbn [put_platform wb_subscriptions wb_replays wb_rbac wb_tenancy].
  assert (∀ id w, wb_subscriptions st !! id = Some w → ∃ w', wb_subscriptions s1 !! id = Some w' ∧
    ((id ∈ plaintext_ids st t ∧ w.(wh_tenant_id) = t ∧ startswith SIGNING_SECRET_ENVELOPE_PREFIX w.(wh_signing_secret) = false ∧
      sealed upper aes_decrypt secret t w w') ∨ id ∉ plaintext_ids st t ∧ w' = w)) as Hrow.
  { intros id w Hw. destruct (decide (id ∈ plaintext_ids st t)) as [Hi|Hi].
    - destruct (Hsealed id w Hi Hw) as (w' & Hw' & Hse). exists w'. split; [done|]. left. apply Hin in Hi as Hi'. destruct Hi' as (w0 & Hw0 & Ht & Hp).
      rewrite Hw in Hw0. injection Hw0 as <-. done.
    - exists w. split; [by rewrite Hother|]. by right. }
  split_and!.
  - apply elem_of_nil_inv. intros id Hid. apply plaintext_ids_spec in Hid as (w' & Hw' & Ht & Hp). cbn [put_platform wb_subscriptions] in Hw'.
    destruct (wb_subscriptions st !! id) as [w|] eqn:Ew; [|by rewrite Hnone in Hw'].
    destruct (Hrow id w Ew) as (w'' & Hw'' & [(_ & _ & _ & _ & _ & Hse & _)|[Hni ->]]); rewrite Hw' in Hw''; injection Hw'' as ->; [congruence|].
    apply Hni, Hin. eauto.
  - done.
  - intros id. split; [|intros [w Hw]; destruct (Hrow id w Hw) as (w' & Hw' & _); by exists w'].
    intros [w Hw]. destruct (wb_subscriptions st !! id) eqn:Ew; [by eexists|]. rewrite Hnone in Hw by done. done.
  - intros id w Hw. destruct (Hrow id w Hw) as (w' & Hw' & [(Hi & Ht & Hp & Hs1 & Hs2 & Hs3 & Hs4)|[Hni ->]]); [|by exists w].
    exists w'. split_and!; try done. rewrite Ht, Hs4. unfold decrypt_signing_secret. by rewrite Hp.
  - done.
  - exists r. split; [done|]. simpl. by rewrite Hten.
Qed.

(** A tenant with more plaintext secrets than one batch: every run raises and
    converts nothing, so there is no first batch to run again after. *)
Lemma reencryption_stuck ur t c reason apply st :
  (MAX_REENCRYPT_SUBSCRIPTIONS < length (plaintext_ids st t))%nat →
  ∃ e st', reencrypt_legacy_signing_secrets upper aes_encrypt aes_decrypt secret ur t c reason apply st = (Raise e, st') ∧
    st'.(wb_subscriptions) = st.(wb_subscriptions).
Proof.
  intros Hl. destruct (reencrypt_legacy_signing_secrets _ _ _ _ _ _ _ _ _ st) as [res st'] eqn:E.
  apply reencrypt_spec in E as [([Hs _] & _ & _ & _ & e & ->)|(r & x & _ & _ & E)]; [by exists e, st'|].
  apply reencrypt_body_spec in E as (_ & _ & _ & Hle & _). lia.
Qed.
End History.
