(* ===== verification/WebhookDemo.v ===== *)
(** * Webhooks: a deployment

    The tenant 1 with a subscription to a public host; a transparent cipher and a
    transparent MAC in the place of AES-GCM and HMAC.  The theorems on
    webhooks applied to it, and the histories behind the notes on the code. *)

From stdpp Require Import pretty.
From S2P Require Import Prelude StoreLogic PyStr PyTime PyText PyIp PyUrl TenantLifecycle PlatformAuthority PlatformService TenantHierarchy RbacDecision RbacService OutboxModel Outbox Egress Crypto Webhooks WebhookService WebhookDelivery WebhookProofs WebhookHistory WebhookFanout.

(** ** A cipher with the laws of AES-GCM *)

(** The associated data, each byte after a one, and a zero, before the plaintext. *)
Fixpoint ad_text (ad : pystr) : pystr :=
  match ad with
  | [] => [0%N]
  | c :: ad => 1%N :: (c mod 256)%N :: ad_text ad
  end.
Definition ad_header (ad : option pystr) : pystr := ad_text (ad_bytes ad).
Definition toy_encrypt (k n p : pystr) (ad : option pystr) : pystr := ad_header ad ++ p.
Definition toy_decrypt (k n ct : pystr) (ad : option pystr) : option pystr :=
  let h := ad_header ad in if startswith h ct then Some (drop (length h) ct) else None.

Lemma ad_header_bytes ad : is_bytes (ad_header ad) ∧ ad_header ad ≠ [].
Proof.
  unfold ad_header. induction (ad_bytes ad) as [|c l [IH _]]; simpl; (split; [|done]).
  - by repeat constructor.
  - constructor; [lia|]. constructor; [|done]. pose proof (N.mod_lt c 256). lia.
Qed.
Lemma toy_gcm : aes_gcm toy_encrypt toy_decrypt.
Proof.
  split; unfold toy_encrypt, toy_decrypt.
  - intros k n c ad p. destruct (startswith (ad_header ad) c) eqn:E.
    + apply startswith_spec in E as [y ->]. rewrite drop_app_length. split; [by intros [= ->]|]. by intros ->%app_inv_head.
    + split; [done|]. intros ->. apply startswith_false in E. destruct E. by exists p.
  - done.
  - intros k n p ad Hp. destruct (ad_header_bytes ad) as [Hb Hne]. split; [by apply Forall_app_2|]. by intros [? _]%app_eq_nil.
Qed.

(** ** The deployment *)

Definition wdemo_uuid (n : nat) : uuid := (100 + N.of_nat n)%N.
Definition wdemo_hmac (k m : pystr) : pystr := k ++ lit "|" ++ m.
Definition wdemo_secret (name : pystr) : option pystr :=
  if bool_decide (name = ACTIVE_KEY_VERSION_SECRET_NAME) then Some (lit "v1")
  else if bool_decide (name = lit "FIELD_ENCRYPTION_KEY_v1") then Some (b64_encode (replicate 32 7%N)) else None.
(** The secrets after a rotation to a second key. *)
Definition wdemo_rotated (name : pystr) : option pystr :=
  if bool_decide (name = ACTIVE_KEY_VERSION_SECRET_NAME) then Some (lit "v2")
  else if bool_decide (name = lit "FIELD_ENCRYPTION_KEY_v2") then Some (b64_encode (replicate 32 9%N)) else wdemo_secret name.
Definition wdemo_config : result webhook_error WebhookSecurityConfig := Ok (mkConfig 300 None None).
Definition wdemo_nonce : pystr := replicate 12 5%N.
Definition wdemo_start : webhook_store :=
  mkWebhooks
    (mkTenancy {[1%N := mkTenant (lit "acme") ACTIVE None false]} ∅ ∅ (mkPlatform ∅ ∅ ∅ ∅ [] 0) [] 0)
    (mkRbacStore (mkRbac ∅ ∅ ∅ ∅ ∅ ∅ ∅ ∅ ∅) ∅ [] 0) ∅ ∅ ∅ ∅.
Definition wdemo_url : pystr := lit "https://example.com/hook".
Definition wdemo_subscribe : webhook_op := OpSubscribe 0 1 wdemo_url (SystemCaller PROVISIONING) (lit "s3cret") wdemo_nonce.
Abbreviation wdemo_run :=
  (run wdemo_uuid ascii_lower id id parse_hex wdemo_hmac toy_encrypt toy_decrypt wdemo_secret wdemo_config
     (lit "0.28.1") (lit "1.0.9") None).
Definition wdemo : webhook_store := Eval vm_compute in wdemo_run wdemo_start [wdemo_subscribe].
Lemma wdemo_eq : wdemo = wdemo_run wdemo_start [wdemo_subscribe].
Proof. vm_compute. reflexivity. Qed.
Lemma wdemo_row : is_Some (wb_subscriptions wdemo !! 100%N).
Proof. vm_compute. eauto. Qed.

Lemma wdemo_nonce_good : good_nonce wdemo_nonce.
Proof. split; [|done]. unfold wdemo_nonce. by apply Forall_replicate. Qed.

Lemma encryption_rotates_witness :
  ∃ e, encrypt_str id toy_encrypt wdemo_secret wdemo_nonce (lit "s3cret") (Some (lit "a")) = Ok e ∧
    decrypt_str id toy_decrypt wdemo_rotated e (Some (lit "a")) = Ok (lit "s3cret") ∧
    (decrypt_str id toy_decrypt wdemo_rotated e (Some (lit "b")) = Raise DecryptionAuthenticationError ∨
     tag_collision id toy_encrypt wdemo_secret wdemo_nonce (lit "s3cret") (Some (lit "a")) (Some (lit "b"))).
Proof.
  destruct (encrypt_str id toy_encrypt wdemo_secret wdemo_nonce (lit "s3cret") (Some (lit "a"))) as [e|] eqn:E; [|by vm_compute in E].
  exists e. split; [done|]. destruct wdemo_nonce_good as [Hb Hl].
  refine (match encryption_rotates id toy_encrypt toy_decrypt wdemo_secret wdemo_rotated wdemo_nonce (lit "s3cret") (Some (lit "a")) e toy_gcm Hb Hl E _ with
          | conj H1 (conj H2 _) => conj (H1 _ eq_refl) (H2 (Some (lit "b")) _) end); [|done].
  intros kv key. unfold key_for_version, wdemo_rotated. unfold key_secret_name.
  assert (∀ v, lit "FIELD_ENCRYPTION_KEY_" ++ v ≠ ACTIVE_KEY_VERSION_SECRET_NAME) as Hne by (intros v H; apply (f_equal (take 18)) in H; by vm_compute in H).
  unfold wdemo_secret. rewrite !(bool_decide_eq_false_2 (_ = ACTIVE_KEY_VERSION_SECRET_NAME)) by apply Hne.
  destruct (bool_decide_reflect (lit "FIELD_ENCRYPTION_KEY_" ++ id kv = lit "FIELD_ENCRYPTION_KEY_v1")) as [->|]; [|done].
  by rewrite bool_decide_eq_false_2 by (by intros H; vm_compute in H).
Defined.

Lemma subscription_secrets_witness :
  ∃ w, (wdemo_run wdemo_start [wdemo_subscribe]).(wb_subscriptions) !! 100%N = Some w ∧
    ∃ now c raw ur, OpSubscribe now w.(wh_tenant_id) w.(wh_url) c raw ur ∈ [wdemo_subscribe] ∧
      acceptable_url ascii_lower id wdemo_config w.(wh_url) ∧
      decrypt_signing_secret id toy_decrypt wdemo_secret w.(wh_tenant_id) w.(wh_signing_secret) = Ok raw.
Proof.
  destruct wdemo_row as [w Hw]. rewrite wdemo_eq in Hw. exists w. split; [done|].
  destruct (subscription_secrets wdemo_uuid ascii_lower id id parse_hex wdemo_hmac toy_encrypt toy_decrypt wdemo_secret wdemo_config
    (lit "0.28.1") (lit "1.0.9") None wdemo_start [wdemo_subscribe] 100%N w toy_gcm) as [(w0 & Hw0 & _)|(now & c & raw & ur & Hin & Hu & _ & Hd & _)].
  - intros now t url c raw ur H%list_elem_of_singleton. injection H as -> -> -> -> -> ->. exact wdemo_nonce_good.
  - done.
  - by vm_compute in Hw0.
  - by exists now, c, raw, ur.
Defined.

(** ** A delivery *)

Definition wdemo_clock (n : nat) : Z := Z.of_nat n * 1000.
Definition wdemo_resolve (host : pystr) : resolved := Answers [lit "8.8.8.8"; lit "2001:4860:4860::8888"].
Definition wdemo_post (n : nat) (rq : WebhookRequest) : post_result := match n with O => PostConnectTimeout | _ => PostStatus 204 end.
Definition wdemo_now : datetime := (EPOCH_SECONDS + 1700000000) * us_per_second.
Definition wdemo_payload : list (pystr * json) := delivery_payload 100 7 (lit "order.paid") [(lit "total", JNum 12)].
Definition wdemo_delivery : result delivery_exn unit * delivery_state :=
  deliver_webhook ascii_lower id id parse_hex wdemo_hmac toy_decrypt wdemo_secret wdemo_config (lit "0.28.1") (lit "1.0.9") None
    wdemo_clock wdemo_resolve wdemo_post wdemo_now 1 (Some 55%N) wdemo_payload (mkDelivery wdemo 0 []).

Lemma wdemo_sent : wdemo_delivery.1 = Ok tt ∧ length (dl_requests wdemo_delivery.2) = 2%nat.
Proof. by vm_compute. Qed.
Lemma wdemo_urls id' w : wb_subscriptions wdemo !! id' = Some w → web_url id w.(wh_url).
Proof.
  intros H. apply elem_of_map_to_list in H. destruct wdemo_row as [w0 H0].
  assert (map_to_list (wb_subscriptions wdemo) = [(100%N, w0)]) as E.
  { revert H0. vm_compute. by intros [= <-]. }
  rewrite E in H. apply list_elem_of_singleton in H as [= -> ->]. clear E.
  assert (wh_url w0 = wdemo_url) as -> by (revert H0; vm_compute; by intros [= <-]).
  eexists. split; [by vm_compute|]. by right.
Qed.

Lemma webhook_delivery_safe_witness :
  length (dl_requests wdemo_delivery.2) = 2%nat ∧
  ∀ i rq, reverse (dl_requests wdemo_delivery.2) !! i = Some rq → rq.(wq_sni_hostname) = lit "example.com".
Proof.
  split; [exact (proj2 wdemo_sent)|]. destruct wdemo_delivery as [r s'] eqn:E. intros i rq Hi.
  destruct (webhook_delivery_safe ascii_lower id id parse_hex wdemo_hmac toy_decrypt wdemo_secret wdemo_config (lit "0.28.1") (lit "1.0.9") None
    wdemo_clock wdemo_resolve wdemo_post wdemo_now 1%N (Some 55%N) wdemo_payload wdemo 0 r s') as [_ H]; [done|exact wdemo_urls|exact E|].
  destruct (H i rq Hi) as [(sub & ev & ty & dat & w & key & signature & host & answers & a & p & hh & Hp & _ & Hw & _ & _ & Hh & _ & _ & _ & _ & _ & _ & _ & _ & Hs & _) _].
  rewrite Hs. vm_compute in Hp. injection Hp as <- <- <- <-.
  apply subscription_of_Some in Hw as [Hw _]. destruct (wdemo_urls _ _ Hw) as (p' & Hp' & _).
  assert (wh_url w = wdemo_url) as Hu by (revert Hw; vm_compute; by intros [= <-]). rewrite Hu in Hh. vm_compute in Hh. by injection Hh as <-.
Defined.

Lemma webhook_delivery_outcome_witness :
  wdemo_delivery.1 = Ok tt ∧ ((1%N, WEBHOOK_DELIVERY_EVENT_TYPE, 55%N) ∈ wb_consumptions (dl_store wdemo_delivery.2)).
Proof.
  split; [exact (proj1 wdemo_sent)|]. destruct wdemo_delivery as [r s'] eqn:E.
  destruct (webhook_delivery_outcome ascii_lower id id parse_hex wdemo_hmac toy_decrypt wdemo_secret wdemo_config (lit "0.28.1") (lit "1.0.9") None
    wdemo_clock wdemo_resolve wdemo_post wdemo_now 1%N (Some 55%N) wdemo_payload wdemo 0 r s' E) as (_ & Hok & _ & Hc & _).
  apply Hc. right. split; [|by eexists]. pose proof wdemo_sent as [H1 H2]. rewrite E in H1, H2. simpl in H1, H2.
  destruct (Hok H1) as [Hs|Hd]; [|exact Hd]. apply (f_equal length) in Hs. rewrite length_reverse, H2 in Hs. done.
Defined.

(** ** Replays *)

Definition wdemo_signature (ts : Z) : pystr := lit "sha256=k|" ++ str_timestamp ts ++ lit ".hi".
Abbreviation wdemo_accept := (λ now ts, verify_and_record_webhook_delivery wdemo_uuid wdemo_hmac wdemo_config now 1 100 7 (lit "hi") ts
  (wdemo_signature ts) (lit "k") None now).
Definition seconds (n : Z) : Z := n * us_per_second.

Lemma replay_once_witness :
  ∃ st1, wdemo_accept wdemo_now 1700000000 wdemo = (Ok tt, st1) ∧
    (wdemo_accept (wdemo_now + seconds 100) 1700000000 (wdemo_run st1 [OpPurgeReplays 1 (wdemo_now - seconds 500)])).1 =
      Raise (WebhookReplayDetectedError 1 100 7).
Proof.
  destruct (wdemo_accept wdemo_now 1700000000 wdemo) as [r st1] eqn:E.
  assert (r = Ok tt) as -> by (apply (f_equal fst) in E; simpl in E; rewrite <-E; by vm_compute).
  exists st1. split; [done|].
  rewrite (replay_once wdemo_uuid ascii_lower id id parse_hex wdemo_hmac toy_encrypt toy_decrypt wdemo_secret wdemo_config (lit "0.28.1") (lit "1.0.9") None
    wdemo_now 1%N 100%N 7%N (lit "hi") 1700000000 (wdemo_signature 1700000000) (lit "k") None 300 wdemo_now wdemo st1
    [OpPurgeReplays 1 (wdemo_now - seconds 500)] (wdemo_now + seconds 100) (lit "hi") (wdemo_signature 1700000000) (lit "k") None (wdemo_now + seconds 100) E).
  - simpl fst. by vm_compute.
  - done.
  - intros l [= <-]. done.
  - done.
  - intros op ->%list_elem_of_singleton. split; [done|]. intros older [= <-]. unfold seconds, us_per_second. lia.
Defined.

(** A delivery dated 300 seconds ahead, within the tolerance, is accepted; 301
    seconds later its record is older than the tolerance, and after a purge of
    such records the same delivery is accepted again. *)
Example replay_after_tolerance_purge :
  let first := wdemo_accept wdemo_now 1700000300 wdemo in
  let later := wdemo_now + seconds 301 in
  first.1 = Ok tt ∧
  (wdemo_accept later 1700000300 first.2).1 = Raise (WebhookReplayDetectedError 1 100 7) ∧
  (wdemo_accept later 1700000300 (wdemo_run first.2 [OpPurgeReplays 1 (later - seconds 300)])).1 = Ok tt.
Proof. vm_compute. repeat split; reflexivity. Qed.

(** An event that was never recorded, of a subscription that does not exist, is
    reported as a replay. *)
Example unknown_subscription_is_a_replay :
  (record_webhook_delivery wdemo_uuid wdemo_now 1 999 7 wdemo).1 = Raise (WebhookReplayDetectedError 1 999 7).
Proof. vm_compute. reflexivity. Qed.

(** Once an event of it was accepted, a subscription cannot be deleted. *)
Example unsubscribe_after_acceptance :
  let c := SystemCaller PROVISIONING in
  (unsubscribe wdemo_uuid wdemo_now 1 100 c wdemo).1 = Ok tt ∧
  (unsubscribe wdemo_uuid wdemo_now 1 100 c (wdemo_accept wdemo_now 1700000000 wdemo).2).1 = Raise WIntegrityError.
Proof. vm_compute. repeat split; reflexivity. Qed.

(** A URL whose brackets do not match is refused by the parser's own error. *)
Example unmatched_bracket_url :
  validate_webhook_url ascii_lower id wdemo_config (lit "https://[::1/hook") = Raise WValueError.
Proof. vm_compute. reflexivity. Qed.

(** ** Fan-out *)

Lemma fanout_exact_witness :
  ∃ outs st', trigger_event wdemo_uuid wdemo_now None None 1 (lit "order.paid") [(lit "total", JNum 12)] wdemo = (Ok outs, st') ∧ length outs = 1%nat.
Proof.
  destruct (fanout_exact wdemo_uuid parse_hex (λ _ _ _, eq_refl) wdemo_now None None 1%N (lit "order.paid") [(lit "total", JNum 12)] wdemo) as [Hopen _].
  - intros n Hn. split; [|split].
    + assert (n < 10)%nat by (revert Hn; vm_compute; lia). unfold wdemo_uuid. lia.
    + assert (wb_events wdemo = ∅) as -> by (by vm_compute). apply lookup_empty.
    + intros m _. unfold wdemo_uuid. lia.
  - intros i [w Hw]. apply elem_of_map_to_list in Hw. vm_compute in Hw. apply list_elem_of_singleton in Hw. injection Hw as -> _. done.
  - done.
  - destruct Hopen as (ev & outs & st' & H & _ & _ & Hl & _); [eexists; split; by vm_compute|]. exists outs, st'. split; [exact H|]. rewrite Hl. by vm_compute.
Defined.
