(* ===== verification/GrantModel.v ===== *)
(** * Permission grants: data, declarations and the audit evidence
    (saas_os/core/permission_grants: models.py, errors.py, declarations.py,
    approval_support.py; platform_authority/retention_evidence.py,
    purge_evidence.py)

    A deployment upgrade may grant registered permissions to roles of the
    tenants; the migrations it applies are kept in a ledger of security
    evidence, and rows of the ledger are deleted, if ever, under a two-party
    approval whose parties come from a register.

    The store adds to the tenant registry, the platform authority and the RBAC
    tables the sessions, the platform audit rows by id, and the six tables of
    this component.  Of an audit row's metadata only the keys some operation
    reads are kept.  [now] is the transaction's time ([now()]), [wall] the clock
    an operation reads ([clock_timestamp()]) and [row_time] the clock the row
    triggers of the operation read; ids are random ([uuid4]); [sha256_hex] is
    [hashlib.sha256(...).hexdigest()]. *)

From S2P Require Import Prelude PyStr PyTime PyText PyUrl TenantLifecycle PlatformAuthority PlatformService TenantHierarchy RbacDecision RbacService Identity OutboxModel Webhooks.

(** ** models.py *)

Inductive application_outcome : Type := APPLICATION_OUTCOME_APPLIED | APPLICATION_OUTCOME_ROLE_MISSING.
#[export] Instance application_outcome_eq_dec : EqDecision application_outcome.
Proof. solve_decision. Defined.

Record PermissionGrantApplication : Type := mkApplication {
  ga_tenant_id : uuid;
  ga_namespace : pystr;
  ga_migration_id : pystr;
  ga_content_digest : pystr;
  ga_outcome : application_outcome;
  ga_grants_added : nat;
  ga_applied_at : datetime;
  ga_applied_by_platform_audit_id : uuid;
}.

Record PermissionGrantLedgerHold : Type := mkHold {
  lh_target_tenant_id : uuid;
  lh_reference : pystr;
  lh_placed_at : datetime;
  lh_placed_by_platform_audit_id : uuid;
  lh_released : option (datetime * uuid);   (* released_at, released_by_platform_audit_id: both or neither *)
}.

Inductive register_entry_type : Type :=
| REGISTER_PROPOSAL | REGISTER_DESIGNATION | REGISTER_DESIGNATION_REVOCATION
| REGISTER_ENROLMENT | REGISTER_ENROLMENT_REVOCATION.
#[export] Instance register_entry_type_eq_dec : EqDecision register_entry_type.
Proof. solve_decision. Defined.

Record ApproverRegisterEntry : Type := mkEntry {
  ar_entry_type : register_entry_type;
  ar_subject_user_id : uuid;
  ar_recorded_by_user_id : uuid;
  ar_designation_ref : option pystr;
  ar_natural_person_ref : option pystr;
  ar_verification_ref : option pystr;
  ar_authorisation_ref : option pystr;
  ar_ticket_ref : pystr;
  ar_proposal_entry_id : option uuid;
  ar_authorised_by_entry_id : option uuid;
  ar_revokes_entry_id : option uuid;
  ar_renews_entry_id : option uuid;
  ar_valid_until : option datetime;
  ar_eligible_from : option datetime;
  ar_proposal_expires_at : option datetime;
  ar_recorded_at : datetime;
  ar_recorded_by_platform_audit_id : uuid;
}.

Record LedgerDeletionRequest : Type := mkRequest {
  dr_tenant_ids : list uuid;
  dr_scope_digest : pystr;
  dr_eligible_ledger_rows : Z;
  dr_eligible_digest : pystr;
  dr_requested_by_user_id : uuid;
  dr_requested_at : datetime;
  dr_expires_at : datetime;
  dr_requested_by_platform_audit_id : uuid;
}.

(** How a record ended: the instant and the audit row. *)
Record final_state : Type := mkFinal {
  fin_consumed_at : option datetime;
  fin_consumed_by : option uuid;
  fin_invalidated_at : option datetime;
  fin_invalidated_by : option uuid;
}.
Definition open_record : final_state := mkFinal None None None None.

Record LedgerDeletionApproval : Type := mkApproval {
  da_request_id : uuid;
  da_tenant_ids : list uuid;
  da_scope_digest : pystr;
  da_eligible_ledger_rows : Z;
  da_eligible_digest : pystr;
  da_approved_by_user_id : uuid;
  da_approved_at : datetime;
  da_expires_at : datetime;
  da_approved_by_platform_audit_id : uuid;
  da_final : final_state;
}.

Record LedgerExecutionAuthorization : Type := mkAuthorization {
  ea_approval_id : uuid;
  ea_authorized_by_user_id : uuid;
  ea_authorized_at : datetime;
  ea_expires_at : datetime;
  ea_authorized_by_platform_audit_id : uuid;
  ea_final : final_state;
}.

(** ** The platform audit rows by id (retention_evidence.py) *)

Record AuditActRecord : Type := mkAct {
  aa_actor : caller;
  aa_action : string;
  aa_outcome : audit_outcome;
  aa_reason : option pystr;
  aa_target_tenant_id : option uuid;
  aa_created_at : datetime;
  aa_metadata : list (pystr * json);
}.
#[export] Instance audit_outcome_eq_dec : EqDecision audit_outcome.
Proof. solve_decision. Defined.

(** ** The store *)

Record grant_store : Type := mkGrantStore {
  gs_tenancy : tenancy_store;
  gs_rbac : rbac_store;
  gs_sessions : gmap uuid Session;
  gs_acts : gmap uuid AuditActRecord;
  gs_ledger : gmap uuid PermissionGrantApplication;
  gs_holds : gmap uuid PermissionGrantLedgerHold;
  gs_register : gmap uuid ApproverRegisterEntry;
  gs_requests : gmap uuid LedgerDeletionRequest;
  gs_approvals : gmap uuid LedgerDeletionApproval;
  gs_authorizations : gmap uuid LedgerExecutionAuthorization;
  gs_drawn : nat;
}.
Definition gs_platform (s : grant_store) : platform_store := s.(gs_tenancy).(ts_platform).

Definition put_tenancy (t : tenancy_store) (s : grant_store) : grant_store :=
  mkGrantStore t s.(gs_rbac) s.(gs_sessions) s.(gs_acts) s.(gs_ledger) s.(gs_holds) s.(gs_register) s.(gs_requests)
    s.(gs_approvals) s.(gs_authorizations) s.(gs_drawn).
Definition put_platform (p : platform_store) (s : grant_store) : grant_store := put_tenancy (set_platform p s.(gs_tenancy)) s.
Definition put_rbac (r : rbac_store) (s : grant_store) : grant_store :=
  mkGrantStore s.(gs_tenancy) r s.(gs_sessions) s.(gs_acts) s.(gs_ledger) s.(gs_holds) s.(gs_register) s.(gs_requests)
    s.(gs_approvals) s.(gs_authorizations) s.(gs_drawn).
Definition put_acts (m : gmap uuid AuditActRecord) (s : grant_store) : grant_store :=
  mkGrantStore s.(gs_tenancy) s.(gs_rbac) s.(gs_sessions) m s.(gs_ledger) s.(gs_holds) s.(gs_register) s.(gs_requests)
    s.(gs_approvals) s.(gs_authorizations) s.(gs_drawn).
Definition put_ledger (m : gmap uuid PermissionGrantApplication) (s : grant_store) : grant_store :=
  mkGrantStore s.(gs_tenancy) s.(gs_rbac) s.(gs_sessions) s.(gs_acts) m s.(gs_holds) s.(gs_register) s.(gs_requests)
    s.(gs_approvals) s.(gs_authorizations) s.(gs_drawn).
Definition put_holds (m : gmap uuid PermissionGrantLedgerHold) (s : grant_store) : grant_store :=
  mkGrantStore s.(gs_tenancy) s.(gs_rbac) s.(gs_sessions) s.(gs_acts) s.(gs_ledger) m s.(gs_register) s.(gs_requests)
    s.(gs_approvals) s.(gs_authorizations) s.(gs_drawn).
Definition put_register (m : gmap uuid ApproverRegisterEntry) (s : grant_store) : grant_store :=
  mkGrantStore s.(gs_tenancy) s.(gs_rbac) s.(gs_sessions) s.(gs_acts) s.(gs_ledger) s.(gs_holds) m s.(gs_requests)
    s.(gs_approvals) s.(gs_authorizations) s.(gs_drawn).
Definition put_requests (m : gmap uuid LedgerDeletionRequest) (s : grant_store) : grant_store :=
  mkGrantStore s.(gs_tenancy) s.(gs_rbac) s.(gs_sessions) s.(gs_acts) s.(gs_ledger) s.(gs_holds) s.(gs_register) m
    s.(gs_approvals) s.(gs_authorizations) s.(gs_drawn).
Definition put_approvals (m : gmap uuid LedgerDeletionApproval) (s : grant_store) : grant_store :=
  mkGrantStore s.(gs_tenancy) s.(gs_rbac) s.(gs_sessions) s.(gs_acts) s.(gs_ledger) s.(gs_holds) s.(gs_register)
    s.(gs_requests) m s.(gs_authorizations) s.(gs_drawn).
Definition put_authorizations (m : gmap uuid LedgerExecutionAuthorization) (s : grant_store) : grant_store :=
  mkGrantStore s.(gs_tenancy) s.(gs_rbac) s.(gs_sessions) s.(gs_acts) s.(gs_ledger) s.(gs_holds) s.(gs_register)
    s.(gs_requests) s.(gs_approvals) m s.(gs_drawn).
Definition gbump (s : grant_store) : grant_store :=
  mkGrantStore s.(gs_tenancy) s.(gs_rbac) s.(gs_sessions) s.(gs_acts) s.(gs_ledger) s.(gs_holds) s.(gs_register)
    s.(gs_requests) s.(gs_approvals) s.(gs_authorizations) (S s.(gs_drawn)).

(** ** errors.py *)

Inductive grant_error : Type :=
| GPlatform (e : platform_error)
| GRbac (e : rbac_error)
| InvalidPermissionGrantMigrationError (message : string)
| AuthorityPermissionGrantError (migration_id : pystr) (permission : string * string)
| UnregisteredPermissionGrantError (migration_id : pystr) (permission : string * string)
| PermissionGrantMigrationChangedError (namespace migration_id : pystr)
| InvalidLedgerRetentionRequestError (message : string)
| LedgerHoldTenantNotFoundError (tenant_id : uuid)
| LedgerHoldAlreadyActiveError (tenant_id : uuid) (reference : pystr)
| LedgerHoldNotFoundError (hold_id : uuid)
| LedgerHoldAlreadyReleasedError (hold_id : uuid)
| LedgerExpiryConfirmationMismatchError
| LedgerDeletionDisabledError
| LedgerApprovalRefusedError (code : string)
| LedgerApprovalRecordNotFoundError (code : string)
| GIntegrityError          (* a constraint or a trigger of a table *)
| GMultipleResultsFound
| GValueError              (* a date the calendar does not have *)
| GRuntimeError
| GAssertionError.

(** [PermissionGrantMigrationError.code] *)
Definition migration_code (e : grant_error) : option string :=
  match e with
  | InvalidPermissionGrantMigrationError _ => Some "invalid_declaration"
  | AuthorityPermissionGrantError _ _ => Some "authority_permission"
  | UnregisteredPermissionGrantError _ _ => Some "unregistered_permission"
  | PermissionGrantMigrationChangedError _ _ => Some "declaration_changed"
  | _ => None
  end.

(** [PermissionGrantLedgerRetentionError.code] *)
Definition retention_code (e : grant_error) : option string :=
  match e with
  | InvalidLedgerRetentionRequestError _ => Some "invalid_request"
  | LedgerHoldTenantNotFoundError _ => Some "tenant_not_found"
  | LedgerHoldAlreadyActiveError _ _ => Some "hold_already_active"
  | LedgerHoldNotFoundError _ => Some "hold_not_found"
  | LedgerHoldAlreadyReleasedError _ => Some "hold_already_released"
  | LedgerExpiryConfirmationMismatchError => Some "confirmation_mismatch"
  | LedgerDeletionDisabledError => Some "deletion_disabled"
  | LedgerApprovalRefusedError code | LedgerApprovalRecordNotFoundError code => Some code
  | _ => None
  end.

(** [PlatformRefusalError.code] *)
Definition platform_code (e : grant_error) : option string :=
  match e with GPlatform e => refusal_code e | _ => None end.

Abbreviation GM := (M grant_store grant_error).

Definition from_platform {A : Type} (r : result platform_error A) : result grant_error A :=
  match r with Ok a => Ok a | Raise e => Raise (GPlatform e) end.
Definition on_platform {A : Type} (m : PM A) : GM A :=
  λ s, let '(r, p) := m (gs_platform s) in (from_platform r, put_platform p s).
Definition on_rbac {A : Type} (m : RM A) : GM A :=
  λ s, let '(r, p) := m s.(gs_rbac) in (match r with Ok a => Ok a | Raise e => Raise (GRbac e) end, put_rbac p s).
Definition refuse {A : Type} (code : string) : GM A := throw (LedgerApprovalRefusedError code).
Definition refuse_if (b : bool) (code : string) : GM unit := if b then refuse code else ret tt.

(** A text of ASCII characters as a target id. *)
Fixpoint to_string (s : pystr) : string :=
  match s with [] => EmptyString | c :: s => String (Ascii.ascii_of_N c) (to_string s) end.
Definition id_text (u : uuid) : string := to_string (str_uuid u).

(** ** Texts *)

Definition MAX_ID_LENGTH : nat := 100.
Definition MAX_ROLE_NAME_LENGTH : nat := 100.
Definition MAX_PERMISSION_PART_LENGTH : nat := 100.
Definition MAX_MIGRATION_REASON_LENGTH : nat := 500.
Definition MAX_PERMISSIONS_PER_MIGRATION : nat := 100.

Definition is_alnum (c : N) : bool := is_alpha c || is_digit c.
Definition identifier_char (c : N) : bool := is_alnum c || bool_decide (c ∈ lit "._:-").
(** [[A-Za-z0-9][A-Za-z0-9._:-]*] *)
Definition is_identifier (s : pystr) : bool :=
  match s with c :: s => is_alnum c && forallb identifier_char s | [] => false end.
(** [[A-Za-z0-9][A-Za-z0-9._:-]{0,99}] *)
Definition is_reference (s : pystr) : bool := is_identifier s && bool_decide (length s ≤ 100)%nat.
(** [[0-9a-f]{64}] *)
Definition is_hex_digit (c : N) : bool := (((48 <=? c) && (c <=? 57)) || ((97 <=? c) && (c <=? 102)))%N.
Definition is_digest (s : pystr) : bool := bool_decide (length s = 64)%nat && forallb is_hex_digit s.

(** [_text] *)
Definition declared_text (value : pystr) (limit : nat) : result grant_error pystr :=
  if bool_decide (value = []) || bool_decide (limit < length value)%nat
  then Raise (InvalidPermissionGrantMigrationError "must be a non-empty string of a limited length.")
  else if existsb is_control value then Raise (InvalidPermissionGrantMigrationError "contains a control character.")
  else Ok value.

(** [_identifier] *)
Definition declared_identifier (value : pystr) : result grant_error pystr :=
  let* text := declared_text value MAX_ID_LENGTH in
  if is_identifier text then Ok text
  else Raise (InvalidPermissionGrantMigrationError "may hold only letters, digits and . _ : -").

(** ** declarations.py *)

Record PermissionGrantMigration : Type := mkMigration {
  mg_id : pystr;
  mg_namespace : pystr;
  mg_role_name : pystr;
  mg_permissions : list (string * string);
  mg_reason : pystr;
}.

Record ValidatedMigration : Type := mkValidated { vm_migration : PermissionGrantMigration; vm_digest : pystr }.

(** [json.dumps(..., separators=(',', ':'))] of texts, lists and objects. *)
Fixpoint compact_dumps (v : json) : pystr :=
  match v with
  | JNull => lit "null"
  | JBool b => if b then lit "true" else lit "false"
  | JNum z => (if z <? 0 then lit "-" else []) ++ str_int (Z.abs z)
  | JStr s => json_text s
  | JList l => lit "[" ++ join (lit ",") (map compact_dumps l) ++ lit "]"
  | JObj l => lit "{" ++ join (lit ",") (map (λ p : pystr * json, json_text p.1 ++ lit ":" ++ compact_dumps p.2) l) ++ lit "}"
  end.

(** The canonical text of a declaration, its keys sorted. *)
Definition canonical_migration (m : PermissionGrantMigration) : pystr :=
  compact_dumps (JObj
    [(lit "id", JStr m.(mg_id)); (lit "namespace", JStr m.(mg_namespace));
     (lit "permissions", JList ((λ p : string * string, JList [JStr (lit p.1); JStr (lit p.2)]) <$> m.(mg_permissions)));
     (lit "reason", JStr m.(mg_reason)); (lit "role_name", JStr m.(mg_role_name))]).

(** ** Dates *)

(** [t.replace(year=, month=, day=)]; [None] is [ValueError]. *)
Definition date_of (t : datetime) : Z * Z * Z := ord2ymd (t / us_per_day).
Definition replace_date (t : datetime) (y m d : Z) : option datetime :=
  if (1 <=? y) && (y <=? 9999) && (1 <=? m) && (m <=? 12) && (1 <=? d) && (d <=? days_in_month y m)
  then Some (ymd2ord y m d * us_per_day + t mod us_per_day) else None.

Definition twelve_months_after (t : datetime) : option datetime :=
  let '(y, m, d) := date_of t in
  match replace_date t (y + 1) m d with
  | Some r => Some r
  | None => replace_date t (y + 1) m 28      (* 29 February *)
  end.

Definition us_per_hour : Z := 3600 * us_per_second.
Definition REQUEST_VALIDITY : timedelta := 72 * us_per_hour.
Definition APPROVAL_VALIDITY : timedelta := 72 * us_per_hour.
Definition EXECUTION_AUTHORIZATION_VALIDITY : timedelta := us_per_hour.
Definition PROPOSAL_VALIDITY : timedelta := 72 * us_per_hour.
Definition ELIGIBILITY_DELAY : timedelta := 120 * us_per_day.

(** ** approval_support.py: checks of arguments *)

Definition validated_reference (value : pystr) : result grant_error pystr :=
  if is_reference value then Ok value else Raise (InvalidLedgerRetentionRequestError "must be 1 to 100 characters").
Definition validated_digest (value : pystr) : result grant_error pystr :=
  if is_digest value then Ok value else Raise (InvalidLedgerRetentionRequestError "must be 64 lower-case hex characters.").
Definition validated_count (value : Z) : result grant_error Z :=
  if value <? 1 then Raise (InvalidLedgerRetentionRequestError "must be a positive int.") else Ok value.

(** The result of an operator's query of one row. *)
Definition scalar_one_or_none {A : Type} (l : list A) : result grant_error (option A) :=
  match l with [] => Ok None | [x] => Ok (Some x) | _ => Raise GMultipleResultsFound end.

(** ** The evidence *)

Definition PLATFORM_HTTP_CHANNEL : pystr := lit "platform_http".

(** The evidence a request brings: its session and whether the deployment
    demands multi-factor sessions. *)
Record PlatformSessionEvidence : Type := mkEvidence { ev_session_id : uuid; ev_multi_factor_required : bool }.

Record PlatformSessionRecord : Type := mkSessionRecord {
  sr_session_id : uuid;
  sr_user_id : uuid;
  sr_live : bool;
  sr_multi_factor : bool;
}.

(** The metadata of an act over a verified session ([VerifiedSession.metadata]). *)
Definition verified_metadata (session_id : uuid) : list (pystr * json) :=
  [(lit "channel", JStr PLATFORM_HTTP_CHANNEL); (lit "session_id", JStr (str_uuid session_id));
   (lit "session_verified", JBool true)].

Definition authenticated_http_act (a : AuditActRecord) : bool :=
  match dict_get "session_id" a.(aa_metadata) with
  | Some (JStr session_id) =>
      match uuid_of_string parse_hex session_id with
      | None => false
      | Some _ =>
          match a.(aa_actor) with UserCaller _ => true | _ => false end &&
          match dict_get "channel" a.(aa_metadata) with Some (JStr c) => bool_decide (c = PLATFORM_HTTP_CHANNEL) | _ => false end &&
          match dict_get "session_verified" a.(aa_metadata) with Some (JBool b) => b | _ => false end
      end
  | _ => false
  end.
Definition act_user_id (a : AuditActRecord) : option uuid :=
  match a.(aa_actor) with UserCaller u => Some u | _ => None end.

(** [holds_platform_permission]: a grant of an operator that is not revoked, whatever else. *)
Definition operators_of (p : platform_store) (user_id : uuid) : list (uuid * PlatformOperator) :=
  filter (λ o : uuid * PlatformOperator, o.2.(po_user_id) = user_id) (map_to_list p.(ps_operators)).
Definition holds_platform_permission (p : platform_store) (user_id : uuid) (permission : PlatformPermission) : bool :=
  existsb (λ o : uuid * PlatformOperator,
      negb (bool_decide (o.2.(po_status) = OP_REVOKED)) &&
      existsb (λ g : uuid * PlatformGrant,
          bool_decide (g.2.(pg_operator_id) = o.1) && bool_decide (g.2.(pg_permission) = permission) &&
          bool_decide (g.2.(pg_revoked_at) = None))
        (map_to_list p.(ps_grants)))
    (operators_of p user_id).

(** [provenance_linked]: one enrolled the other, or granted them the report permission. *)
Definition enrolled_by (p : platform_store) (a b : uuid) : bool :=
  existsb (λ o : uuid * PlatformOperator, bool_decide (o.2.(po_enrolled_by) = Some a)) (operators_of p b).
Definition report_granted_by (p : platform_store) (a b : uuid) : bool :=
  existsb (λ o : uuid * PlatformOperator,
      existsb (λ g : uuid * PlatformGrant,
          bool_decide (g.2.(pg_operator_id) = o.1) && bool_decide (g.2.(pg_permission) = P_SECURITY_RETENTION_REPORT) &&
          bool_decide (g.2.(pg_granted_by) = Some a))
        (map_to_list p.(ps_grants)))
    (operators_of p b).
Definition provenance_linked (p : platform_store) (first second : uuid) : bool :=
  enrolled_by p first second || report_granted_by p first second ||
  (enrolled_by p second first || report_granted_by p second first).

(** [tenant_purge_completion_times] *)
Definition tenant_purge_completion_times (s : grant_store) (tenant_id : uuid) : list datetime :=
  (λ a : uuid * AuditActRecord, a.2.(aa_created_at)) <$>
    filter (λ a : uuid * AuditActRecord,
        a.2.(aa_action) = op_audit_action (platform_operation TENANT_PURGE_TRANSITION) ∧
        a.2.(aa_target_tenant_id) = Some tenant_id ∧ a.2.(aa_outcome) = SUCCESS ∧
        a.2.(aa_actor) = SystemCaller TENANT_PURGE ∧
        match dict_get "to_status" a.2.(aa_metadata) with Some (JStr t) => bool_decide (t = lit "purged") | _ => false end = true)
      (map_to_list s.(gs_acts)).

(** [same_act]: the audit row is the success of the same call. *)
Definition same_act (s : grant_store) (audit_id : uuid) (user_id : uuid) (reason : pystr) (action : string) : bool :=
  match s.(gs_acts) !! audit_id with
  | None => false
  | Some a =>
      bool_decide (act_user_id a = Some user_id) && bool_decide (a.(aa_action) = action) &&
      bool_decide (a.(aa_outcome) = SUCCESS) && bool_decide (a.(aa_reason) = Some reason)
  end.

Section Evidence.
Context (uuid4 : nat → uuid) (now : datetime).

Definition platform_session_record (s : grant_store) (session_id : uuid) : option PlatformSessionRecord :=
  match s.(gs_sessions) !! session_id with
  | None => None
  | Some row =>
      Some (mkSessionRecord session_id row.(se_user_id)
              (bool_decide (row.(se_revoked_at) = None) && (now <? row.(se_expires_at))) row.(se_multi_factor))
  end.

Definition verify_session (c : caller) (evidence : option PlatformSessionEvidence) (require_multi_factor : bool) : GM uuid :=
  λ s, match evidence, c with
       | Some e, UserCaller u =>
           match platform_session_record s e.(ev_session_id) with
           | None => refuse "session_evidence_invalid" s
           | Some record =>
               if negb (bool_decide (record.(sr_user_id) = u)) || negb record.(sr_live)
               then refuse "session_evidence_invalid" s
               else if require_multi_factor && negb (e.(ev_multi_factor_required) && record.(sr_multi_factor))
               then refuse "multi_factor_not_enforced" s
               else (Ok record.(sr_session_id), s)
           end
       | _, _ => refuse "session_evidence_invalid" s
       end.

(** [uuid.uuid4()] *)
Definition gdraw : GM uuid := λ s, (Ok (uuid4 s.(gs_drawn)), gbump s).

(** [record_platform_event_in_transaction] under the id of the row. *)
Definition record_act (c : caller) (op : operation) (target : audit_target) (target_tenant_id : option uuid)
    (reason : pystr) (metadata : list (pystr * json)) (entry_id : uuid) : GM unit :=
  let action := op_audit_action (platform_operation op) in
  do* _ := on_platform (record_platform_event c action target (Some reason)) in
  λ s, if bool_decide (is_Some (s.(gs_acts) !! entry_id)) then (Raise GIntegrityError, s)
       else (Ok tt, put_acts (<[entry_id := mkAct c action SUCCESS (Some reason) target_tenant_id now metadata]> s.(gs_acts)) s).

(** ... with an id of its own. *)
Definition record_new_act (c : caller) (op : operation) (target : audit_target) (target_tenant_id : option uuid)
    (reason : pystr) (metadata : list (pystr * json)) : GM unit :=
  do* id := gdraw in record_act c op target target_tenant_id reason metadata id.

(** [refusals_recorded]: a refusal of the platform or of this component is recorded, after the rollback, and raised. *)
Definition record_refusal (c : caller) (op : operation) (target : audit_target) (code : string) (s : grant_store) : grant_store :=
  put_platform (record_platform_refusal c (op_audit_action (platform_operation op)) target code (gs_platform s)) s.
Definition refusals_recorded {A : Type} (code_of : grant_error → option string) (c : caller) (op : operation)
    (target : audit_target) (m : GM A) : GM A :=
  λ s, match m s with
       | (Raise e, s') =>
           match code_of e with
           | Some code => (Raise e, record_refusal c op target code s')
           | None => (Raise e, s')
           end
       | ok => ok
       end.
Definition retention_or_platform (e : grant_error) : option string :=
  match retention_code e with Some code => Some code | None => platform_code e end.

(** [platform_change_session] and the authorization that opens its body. *)
Definition platform_session {A : Type} (c : caller) (op : operation) (body : GM A) : GM A :=
  transaction (do* _ := on_platform (λ p, (authorize_platform_caller p c op, p)) in body).

(** [if not isinstance(caller, UserCaller): raise CallerTypeError(...)] *)
Definition require_user_caller (op : operation) (c : caller) : GM uuid :=
  match c with UserCaller u => ret u | _ => throw (GPlatform (CallerTypeError (key op))) end.

Definition valid_reason (reason : pystr) : GM pystr := lift (from_platform (validate_reason reason)).
End Evidence.
