(* ===== verification/GrantApply.v ===== *)
(** * Permission grant migrations (permission_grants/declarations.py, apply.py)

    A run validates the declared migrations, checks them against the ledgers of
    the targets, records that it started, then brings each target up to date in
    a transaction of its own: a migration already in the tenant's ledger is
    skipped, one whose declaration changed is refused, any other grants its
    permissions to the role it names and is entered in the ledger, with the role
    present or not.  A tenant that fails is reported and the run goes on.
    Without [apply] nothing is written but the refusals.

    [created_at] orders the tenants of a run over all of them. *)

From S2P Require Import Prelude PyStr TenantLifecycle PlatformAuthority PlatformService TenantHierarchy RbacDecision RbacService Identity OutboxModel Webhooks GrantModel.

Inductive tenant_grant_outcome : Type := TENANT_CHANGED | TENANT_UNCHANGED | TENANT_CLOSED | TENANT_NOT_FOUND | TENANT_FAILED.
#[export] Instance tenant_grant_outcome_eq_dec : EqDecision tenant_grant_outcome.
Proof. solve_decision. Defined.

Record TenantGrantResult : Type := mkTenantResult {
  tr_tenant_id : uuid;
  tr_outcome : tenant_grant_outcome;
  tr_migrations_applied : nat;
  tr_roles_missing : nat;
  tr_migrations_already_applied : nat;
  tr_grants_added : nat;
  tr_grants_already_present : nat;
  tr_error : option grant_error;      (* the exception whose type is reported *)
}.
Definition bare_result (tenant_id : uuid) (o : tenant_grant_outcome) (e : option grant_error) : TenantGrantResult :=
  mkTenantResult tenant_id o 0 0 0 0 0 e.

Record PermissionGrantRunResult : Type := mkRun {
  run_namespace : pystr;
  run_applied : bool;
  run_run_id : option uuid;
  run_tenants : list TenantGrantResult;
}.
Definition failed_tenant_ids (r : PermissionGrantRunResult) : list uuid :=
  tr_tenant_id <$> filter (λ t, t.(tr_outcome) = TENANT_FAILED) r.(run_tenants).

Definition MAX_NAMED_TENANTS : nat := N.to_nat 1000.

(** [_scope] *)
Definition grant_scope (tenant_ids : list uuid) (all_tenants : bool) : result grant_error (option (list uuid)) :=
  if Bool.eqb all_tenants (negb (bool_decide (tenant_ids = [])))
  then Raise (InvalidPermissionGrantMigrationError "Name the tenants or all_tenants, not both.")
  else if all_tenants then Ok None
  else
    let named := fromkeys tenant_ids in
    if bool_decide (MAX_NAMED_TENANTS < length named)%nat
    then Raise (InvalidPermissionGrantMigrationError "At most 1000 named tenants; use all_tenants.")
    else Ok (Some named).

(** [_ledger]: the digest recorded for each migration of the namespace. *)
Definition in_ledger (tenant_id : uuid) (namespace : pystr) (a : PermissionGrantApplication) : Prop :=
  a.(ga_tenant_id) = tenant_id ∧ a.(ga_namespace) = namespace.
#[export] Instance in_ledger_dec tenant_id namespace a : Decision (in_ledger tenant_id namespace a).
Proof. unfold in_ledger. apply _. Defined.
Definition ledger_of (s : grant_store) (tenant_id : uuid) (namespace : pystr) : gmap pystr pystr :=
  list_to_map ((λ a : uuid * PermissionGrantApplication, (a.2.(ga_migration_id), a.2.(ga_content_digest))) <$>
    filter (λ a : uuid * PermissionGrantApplication, in_ledger tenant_id namespace a.2) (map_to_list s.(gs_ledger))).

(** [_refuse_changed] *)
Fixpoint refuse_changed (ledger : gmap pystr pystr) (validated : list ValidatedMigration) (namespace : pystr) : result grant_error unit :=
  match validated with
  | [] => Ok tt
  | item :: rest =>
      let id := item.(vm_migration).(mg_id) in
      if match ledger !! id with Some d => negb (bool_decide (d = item.(vm_digest))) | None => false end
      then Raise (PermissionGrantMigrationChangedError namespace id)
      else refuse_changed ledger rest namespace
  end.

(** [_check_ledgers] *)
Fixpoint check_ledgers (s : grant_store) (tenant_ids : list uuid) (validated : list ValidatedMigration) (namespace : pystr) :
    result grant_error unit :=
  match tenant_ids with
  | [] => Ok tt
  | t :: rest => let* _ := refuse_changed (ledger_of s t namespace) validated namespace in check_ledgers s rest validated namespace
  end.

(** [_resolve_permissions]: the ids of the registered permissions. *)
Fixpoint resolve_pairs (s : grant_store) (migration_id : pystr) (pairs : list (string * string))
    (resolved : gmap (string * string) uuid) : result grant_error (gmap (string * string) uuid) :=
  match pairs with
  | [] => Ok resolved
  | p :: rest =>
      match resolved !! p with
      | Some _ => resolve_pairs s migration_id rest resolved
      | None =>
          match find_row s.(gs_rbac).(rs_rows).(rb_permissions) (is_permission p.1 p.2) with
          | None => Raise (UnregisteredPermissionGrantError migration_id p)
          | Some id => resolve_pairs s migration_id rest (<[p := id]> resolved)
          end
      end
  end.
Fixpoint resolve_permissions (s : grant_store) (validated : list ValidatedMigration) (resolved : gmap (string * string) uuid) :
    result grant_error (gmap (string * string) uuid) :=
  match validated with
  | [] => Ok resolved
  | item :: rest =>
      let* resolved := resolve_pairs s item.(vm_migration).(mg_id) item.(vm_migration).(mg_permissions) resolved in
      resolve_permissions s rest resolved
  end.

(** [_role_id], [_holds] *)
Definition role_named (s : grant_store) (tenant_id : uuid) (name : pystr) : result grant_error (option uuid) :=
  scalar_one_or_none
    (filter (λ r : uuid * Role, r.2.(ro_tenant_id) = tenant_id ∧ r.2.(ro_name) = name) (map_to_list s.(gs_rbac).(rs_roles))).*1.
Definition role_holds (s : grant_store) (tenant_id role_id permission_id : uuid) : bool :=
  bool_decide (is_Some (find_row s.(gs_rbac).(rs_rows).(rb_role_permissions) (is_grant tenant_id role_id permission_id))).

Section Apply.
Context (uuid4 : nat → uuid) (created_at : uuid → datetime) (sha256_hex : pystr → pystr) (now : datetime).

(** ** Declarations *)

Definition permission_grant_migration_digest (m : PermissionGrantMigration) : pystr := sha256_hex (canonical_migration m).

(** The pairs of a migration: distinct, well formed, none that changes authority. *)
Fixpoint validate_pairs (migration_id : pystr) (pairs seen : list (string * string)) : result grant_error unit :=
  match pairs with
  | [] => Ok tt
  | p :: rest =>
      let* _ := declared_text (lit p.1) MAX_PERMISSION_PART_LENGTH in
      let* _ := declared_text (lit p.2) MAX_PERMISSION_PART_LENGTH in
      if bool_decide (p ∈ seen) then Raise (InvalidPermissionGrantMigrationError "names a permission more than once.")
      else if is_authority_changing p.1 p.2 then Raise (AuthorityPermissionGrantError migration_id p)
      else validate_pairs migration_id rest (p :: seen)
  end.

Fixpoint validate_each (namespace : pystr) (migrations : list PermissionGrantMigration) (seen : list pystr) :
    result grant_error (list ValidatedMigration) :=
  match migrations with
  | [] => Ok []
  | m :: rest =>
      let* migration_id := declared_identifier m.(mg_id) in
      if bool_decide (migration_id ∈ seen) then Raise (InvalidPermissionGrantMigrationError "is declared more than once.")
      else if negb (bool_decide (m.(mg_namespace) = namespace))
      then Raise (InvalidPermissionGrantMigrationError "belongs to another namespace than the run's.")
      else
        let* _ := declared_text m.(mg_role_name) MAX_ROLE_NAME_LENGTH in
        let* _ := declared_text m.(mg_reason) MAX_MIGRATION_REASON_LENGTH in
        if bool_decide (m.(mg_permissions) = []) || bool_decide (MAX_PERMISSIONS_PER_MIGRATION < length m.(mg_permissions))%nat
        then Raise (InvalidPermissionGrantMigrationError "permissions must be a non-empty tuple of at most 100 pairs.")
        else
          let* _ := validate_pairs migration_id m.(mg_permissions) [] in
          let* others := validate_each namespace rest (migration_id :: seen) in
          Ok (mkValidated m (permission_grant_migration_digest m) :: others)
  end.

Definition validate_permission_grant_migrations (migrations : list PermissionGrantMigration) (namespace : pystr) :
    result grant_error (list ValidatedMigration) :=
  let* namespace := declared_identifier namespace in
  validate_each namespace migrations [].

Definition declaration_digest (validated : list ValidatedMigration) : pystr :=
  sha256_hex (compact_dumps (JList ((λ i, JList [JStr i.(vm_migration).(mg_id); JStr i.(vm_digest)]) <$> validated))).

(** ** One tenant *)

(** [_open_tenants]: by creation, then id. *)
Definition tenant_before (a b : uuid) : Prop := created_at a < created_at b ∨ (created_at a = created_at b ∧ (a ≤ b)%N).
#[export] Instance tenant_before_dec a b : Decision (tenant_before a b).
Proof using Type*. unfold tenant_before. apply _. Defined.
Definition open_tenants (s : grant_store) : list uuid := merge_sort tenant_before (list_open_tenant_ids s.(gs_tenancy)).

(** The counters of a tenant's pass. *)
Record grant_counts : Type := mkCounts {
  ct_applied : list pystr;
  ct_missing : nat;
  ct_already : nat;
  ct_added : nat;
  ct_present : nat;
}.

(** The insert of a ledger row. *)
Definition same_application (a b : PermissionGrantApplication) : Prop :=
  a.(ga_tenant_id) = b.(ga_tenant_id) ∧ a.(ga_namespace) = b.(ga_namespace) ∧ a.(ga_migration_id) = b.(ga_migration_id).
#[export] Instance same_application_dec a b : Decision (same_application a b).
Proof. unfold same_application. apply _. Defined.
Definition insert_application (row : PermissionGrantApplication) : GM unit :=
  do* id := gdraw uuid4 in
  λ s, if bool_decide (is_Some (s.(gs_ledger) !! id)) ||
          exists_row s.(gs_ledger) (λ a, bool_decide (same_application row a)) ||
          bool_decide (s.(gs_tenancy).(ts_tenants) !! row.(ga_tenant_id) = None) ||
          negb (is_digest row.(ga_content_digest))
       then (Raise GIntegrityError, s)
       else (Ok tt, put_ledger (<[id := row]> s.(gs_ledger)) s).

(** The permissions of one migration: how many grants are new, and how many there were. *)
Fixpoint grant_pairs (apply : bool) (tenant_id role_id : uuid) (permission_ids : gmap (string * string) uuid)
    (pairs : list (string * string)) : GM (nat * nat) :=
  match pairs with
  | [] => ret (0, 0)%nat
  | p :: rest =>
      match permission_ids !! p with
      | None => throw GAssertionError         (* KeyError; every pair was resolved *)
      | Some permission_id =>
          do* inserted :=
            (if apply
             then on_rbac (grant_registered_permission_to_role uuid4 tenant_id role_id permission_id (SystemCaller PERMISSION_UPGRADE))
             else λ s, (Ok (negb (role_holds s tenant_id role_id permission_id)), s)) in
          do* counts := grant_pairs apply tenant_id role_id permission_ids rest in
          let '(added, present) := counts in
          ret (if (inserted : bool) then (S added, present) else (added, S present))
      end
  end.

(** One migration of the pass. *)
Definition apply_one (tenant_id : uuid) (namespace : pystr) (permission_ids : gmap (string * string) uuid)
    (run_id : option uuid) (ledger : gmap pystr pystr) (item : ValidatedMigration) (k : grant_counts) : GM grant_counts :=
  let m := item.(vm_migration) in
  if bool_decide (is_Some (ledger !! m.(mg_id)))
  then ret (mkCounts k.(ct_applied) k.(ct_missing) (S k.(ct_already)) k.(ct_added) k.(ct_present))
  else
    do* role_id := (λ s, (role_named s tenant_id m.(mg_role_name), s)) in
    do* outcome :=
      match role_id with
      | None => ret (APPLICATION_OUTCOME_ROLE_MISSING, 0, 0)%nat
      | Some role =>
          do* counts := grant_pairs (bool_decide (is_Some run_id)) tenant_id role permission_ids m.(mg_permissions) in
          ret (APPLICATION_OUTCOME_APPLIED, counts.1, counts.2)
      end in
    let '(label, added, present) := outcome in
    do* _ :=
      match run_id with
      | None => ret tt
      | Some run =>
          insert_application (mkApplication tenant_id namespace m.(mg_id) item.(vm_digest) label added now run)
      end in
    ret (match role_id with
         | None => mkCounts k.(ct_applied) (S k.(ct_missing)) k.(ct_already) k.(ct_added) k.(ct_present)
         | Some _ => mkCounts (k.(ct_applied) ++ [m.(mg_id)]) k.(ct_missing) k.(ct_already) (k.(ct_added) + added)
                       (k.(ct_present) + present)
         end).

Fixpoint apply_each (tenant_id : uuid) (namespace : pystr) (permission_ids : gmap (string * string) uuid)
    (run_id : option uuid) (ledger : gmap pystr pystr) (items : list ValidatedMigration) (k : grant_counts) : GM grant_counts :=
  match items with
  | [] => ret k
  | item :: rest =>
      do* k := apply_one tenant_id namespace permission_ids run_id ledger item k in
      apply_each tenant_id namespace permission_ids run_id ledger rest k
  end.

(** [_apply_in_tenant] *)
Definition apply_in_tenant (tenant_id : uuid) (c : caller) (namespace : pystr) (validated : list ValidatedMigration)
    (permission_ids : gmap (string * string) uuid) (run_id : option uuid) : GM TenantGrantResult :=
  do* s := get in
  let ledger := ledger_of s tenant_id namespace in
  do* _ := lift (refuse_changed ledger validated namespace) in
  do* k := apply_each tenant_id namespace permission_ids run_id ledger validated (mkCounts [] 0 0 0 0) in
  let changed := negb (bool_decide (k.(ct_applied) = [])) || bool_decide (0 < k.(ct_missing))%nat in
  do* _ := (if bool_decide (is_Some run_id) && changed
            then on_rbac (record c tenant_id "permission_grant_migration.apply" tenant_id) else ret tt) in
  ret (mkTenantResult tenant_id (if changed then TENANT_CHANGED else TENANT_UNCHANGED) (length k.(ct_applied)) k.(ct_missing)
         k.(ct_already) k.(ct_added) k.(ct_present) None).

Definition namespace_target (namespace : option pystr) : audit_target :=
  TargetOther "permission_grant_namespace" (to_string <$> namespace).

(** [_run_tenant]: refusals and changed declarations stop the run, anything else is the tenant's failure. *)
Definition run_tenant (tenant_id : uuid) (c : caller) (namespace : pystr) (validated : list ValidatedMigration)
    (permission_ids : gmap (string * string) uuid) (run_id : option uuid) : GM TenantGrantResult :=
  λ s,
    match refusals_recorded platform_code c PERMISSION_GRANT_APPLY (namespace_target (Some namespace))
            (platform_session c PERMISSION_GRANT_APPLY
               (do* s := get in
                match lock_open_tenant s.(gs_tenancy) tenant_id with
                | Raise (TenantClosedError _ _) => ret (bare_result tenant_id TENANT_CLOSED None)
                | Raise _ => ret (bare_result tenant_id TENANT_NOT_FOUND None)
                | Ok _ => apply_in_tenant tenant_id c namespace validated permission_ids run_id
                end)) s with
    | (Raise e, s') =>
        if bool_decide (is_Some (platform_code e)) || bool_decide (is_Some (migration_code e)) then (Raise e, s')
        else (Ok (bare_result tenant_id TENANT_FAILED (Some e)), s')
    | ok => ok
    end.

Fixpoint run_each (tenants : list uuid) (c : caller) (namespace : pystr) (validated : list ValidatedMigration)
    (permission_ids : gmap (string * string) uuid) (run_id : option uuid) : GM (list TenantGrantResult) :=
  match tenants with
  | [] => ret []
  | t :: rest =>
      do* r := run_tenant t c namespace validated permission_ids run_id in
      do* rs := run_each rest c namespace validated permission_ids run_id in
      ret (r :: rs)
  end.

(** ** The run *)

Definition tenant_row_exists (s : grant_store) (tenant_id : uuid) : bool :=
  bool_decide (is_Some (s.(gs_tenancy).(ts_tenants) !! tenant_id)).
Definition single (named : option (list uuid)) : option uuid := match named with Some [t] => Some t | _ => None end.

(** The transaction that checks and records the start. *)
Definition start_run (c : caller) (namespace : pystr) (validated : list ValidatedMigration) (named : option (list uuid))
    (reason : pystr) (apply : bool) : GM (gmap (string * string) uuid * list uuid * option uuid) :=
  platform_session c PERMISSION_GRANT_APPLY
    (do* s := get in
     do* permission_ids := lift (resolve_permissions s validated ∅) in
     let targets := match named with Some l => l | None => open_tenants s end in
     do* _ := lift (check_ledgers s targets validated namespace) in
     if apply then
       do* run_id := gdraw uuid4 in
       do* _ := record_act now c PERMISSION_GRANT_APPLY (namespace_target (Some namespace))
                  (match single named with Some t => if tenant_row_exists s t then Some t else None | None => None end)
                  reason [] run_id in
       ret (permission_ids, targets, Some run_id)
     else ret (permission_ids, targets, None)).

(** The transaction that records the end. *)
Definition finish_run (c : caller) (namespace : pystr) (named : option (list uuid)) (reason : pystr)
    (results : list TenantGrantResult) : GM unit :=
  refusals_recorded platform_code c PERMISSION_GRANT_APPLY (namespace_target (Some namespace))
    (platform_session c PERMISSION_GRANT_APPLY
       (record_new_act uuid4 now c PERMISSION_GRANT_APPLY (namespace_target (Some namespace))
          (match single named, results with
           | Some t, r :: _ => if bool_decide (r.(tr_outcome) = TENANT_NOT_FOUND) then None else Some t
           | _, _ => None
           end) reason [])).

Definition apply_permission_grant_migrations (migrations : list PermissionGrantMigration) (namespace : pystr) (c : caller)
    (reason : pystr) (tenant_ids : list uuid) (all_tenants apply : bool) : GM PermissionGrantRunResult :=
  let target_id := if bool_decide (0 < length namespace ≤ 100)%nat then Some namespace else None in
  do* outcome :=
    refusals_recorded migration_code c PERMISSION_GRANT_APPLY (namespace_target target_id)
      (do* validated := lift (validate_permission_grant_migrations migrations namespace) in
       do* named := lift (grant_scope tenant_ids all_tenants) in
       do* reason := valid_reason reason in
       do* started :=
         refusals_recorded platform_code c PERMISSION_GRANT_APPLY (namespace_target target_id)
           (start_run c namespace validated named reason apply) in
       let '(permission_ids, targets, run_id) := started in
       do* _ := require_user_caller PERMISSION_GRANT_APPLY c in
       do* results := run_each targets c namespace validated permission_ids run_id in
       ret (named, reason, run_id, results)) in
  let '(named, reason, run_id, results) := outcome in
  do* _ := (if bool_decide (is_Some run_id) then finish_run c namespace named reason results else ret tt) in
  ret (mkRun namespace apply run_id results).
End Apply.
