(* ===== verification/GrantRegister.v ===== *)
(** * The approver register (permission_grants/register.py and the register's
    table, triggers and indexes of migration c3f9e1a7b5d2)

    Append-only evidence of who may approve the deletion of ledger rows.  A
    representative is proposed by an owner and confirmed by somebody of security;
    a representative enrols approvers, who become eligible after a delay; an
    entry is ended only by a revocation entry.  The checks are made twice: by the
    service and by the trigger of the table, both under the register's lock.

    [interval '12 months'] and [interval '120 days'] are the service's
    [twelve_months_after] and [ELIGIBILITY_DELAY], for a database in UTC.  Two
    texts of ids compare as the ids do. *)

From S2P Require Import Prelude PyStr PyTime TenantLifecycle PlatformAuthority PlatformService TenantHierarchy RbacDecision RbacService Identity OutboxModel Webhooks GrantModel.

(** ** Reading the register *)

Abbreviation register := (gmap uuid ApproverRegisterEntry).
Definition entries (r : register) (p : uuid * ApproverRegisterEntry → bool) : list (uuid * ApproverRegisterEntry) :=
  List.filter p (map_to_list r).
Definition is_type (t : register_entry_type) (e : uuid * ApproverRegisterEntry) : bool := bool_decide (e.2.(ar_entry_type) = t).
Definition after (at_ : datetime) (limit : option datetime) : bool := match limit with Some u => at_ <? u | None => false end.

(** [pgl_register_entry_revoked] (and membership in [_revoked_ids]). *)
Definition register_entry_revoked (r : register) (entry : uuid) : bool :=
  exists_row r (λ e, bool_decide (e.(ar_revokes_entry_id) = Some entry)).

(** [pgl_designation_live] (and [_designation_live]). *)
Definition designation_live (r : register) (at_ : datetime) (designation : option uuid) : bool :=
  match designation with
  | None => false
  | Some id =>
      match r !! id with
      | Some d => bool_decide (d.(ar_entry_type) = REGISTER_DESIGNATION) && after at_ d.(ar_valid_until)
      | None => false
      end && negb (register_entry_revoked r id)
  end.

(** A designation or an enrolment in force. *)
Definition is_active_designation (r : register) (at_ : datetime) (e : uuid * ApproverRegisterEntry) : bool :=
  is_type REGISTER_DESIGNATION e && after at_ e.2.(ar_valid_until) && negb (register_entry_revoked r e.1).
Definition is_active_enrolment (r : register) (at_ : datetime) (e : uuid * ApproverRegisterEntry) : bool :=
  is_type REGISTER_ENROLMENT e && after at_ e.2.(ar_valid_until) && negb (register_entry_revoked r e.1) &&
  designation_live r at_ e.2.(ar_authorised_by_entry_id).

Definition of_subject (u : uuid) (e : uuid * ApproverRegisterEntry) : bool := bool_decide (e.2.(ar_subject_user_id) = u).
Definition of_person (person : pystr) (e : uuid * ApproverRegisterEntry) : bool := bool_decide (e.2.(ar_natural_person_ref) = Some person).

(** [_active_enrolments] *)
Definition active_enrolments (r : register) (at_ : datetime) (who : uuid * ApproverRegisterEntry → bool) :
    list (uuid * ApproverRegisterEntry) :=
  entries r (λ e, who e && is_active_enrolment r at_ e).

(** [max(..., key=lambda e: (e.valid_until, str(e.id)))] *)
Definition later_entry (a b : uuid * ApproverRegisterEntry) : bool :=
  match a.2.(ar_valid_until), b.2.(ar_valid_until) with
  | Some u, Some v => (v <? u) || ((u =? v) && (b.1 <? a.1)%N)
  | _, _ => false
  end.
Definition latest_entry (l : list (uuid * ApproverRegisterEntry)) : option (uuid * ApproverRegisterEntry) :=
  match l with
  | [] => None
  | e :: l => Some (foldl (λ best e, if later_entry e best then e else best) e l)
  end.

(** [active_designation] *)
Definition active_designation (r : register) (user_id : uuid) (at_ : datetime) : option (uuid * ApproverRegisterEntry) :=
  latest_entry (entries r (λ e, of_subject user_id e && is_active_designation r at_ e)).

(** ** Eligibility *)

Inductive EnrolmentState : Type := ES_ELIGIBLE | ES_WAITING | ES_EXPIRED | ES_REVOKED | ES_SUSPENDED.
#[export] Instance EnrolmentState_eq_dec : EqDecision EnrolmentState.
Proof. solve_decision. Defined.

(** [enrolment_state] of an enrolment; [None] is its assertion or its refusal. *)
Definition enrolment_state (e : uuid * ApproverRegisterEntry) (revoked : uuid → bool) (designation_valid_until : option datetime)
    (at_ : datetime) : option EnrolmentState :=
  if negb (is_type REGISTER_ENROLMENT e) then None
  else match e.2.(ar_eligible_from), e.2.(ar_valid_until) with
       | Some eligible_from, Some valid_until =>
           Some (if revoked e.1 then ES_REVOKED
                 else if match e.2.(ar_authorised_by_entry_id) with Some d => revoked d | None => false end ||
                         negb (after at_ designation_valid_until)
                 then ES_SUSPENDED
                 else if valid_until <=? at_ then ES_EXPIRED
                 else if at_ <? eligible_from then ES_WAITING
                 else ES_ELIGIBLE)
       | _, _ => None
       end.

(** The validity of the designation an enrolment names, among designations. *)
Definition designation_validity (r : register) (designation : option uuid) : option datetime :=
  match designation with
  | None => None
  | Some id =>
      match r !! id with
      | Some d => if bool_decide (d.(ar_entry_type) = REGISTER_DESIGNATION) then d.(ar_valid_until) else None
      | None => None
      end
  end.

(** [eligible_enrolment] ([approver_eligibility] over the entries it reads). *)
Definition state_of (r : register) (at_ : datetime) (e : uuid * ApproverRegisterEntry) : option EnrolmentState :=
  enrolment_state e (register_entry_revoked r) (designation_validity r e.2.(ar_authorised_by_entry_id)) at_.
Definition eligible_enrolment (r : register) (user_id : uuid) (at_ : datetime) : option (uuid * ApproverRegisterEntry) :=
  latest_entry (entries r (λ e, is_type REGISTER_ENROLMENT e && of_subject user_id e &&
                                bool_decide (state_of r at_ e = Some ES_ELIGIBLE))).

(** ** The table: its trigger, its constraints, its indexes *)

(** [pgl_active_enrolment_count(candidate, person, excluded) > 0] *)
Definition other_active_enrolment (r : register) (at_ : datetime) (candidate : uuid) (person : option pystr) (excluded : option uuid) : bool :=
  existsb (λ e : uuid * ApproverRegisterEntry,
      (of_subject candidate e || sql_eq e.2.(ar_natural_person_ref) person) && is_active_enrolment r at_ e &&
      negb (bool_decide (excluded = Some e.1)))
    (map_to_list r).

(** The columns a trigger sets. *)
Definition with_times (e : ApproverRegisterEntry) (designation_ref : option pystr) (valid_until eligible_from proposal_expires_at : option datetime)
    (recorded_at : datetime) : ApproverRegisterEntry :=
  mkEntry e.(ar_entry_type) e.(ar_subject_user_id) e.(ar_recorded_by_user_id) designation_ref e.(ar_natural_person_ref)
    e.(ar_verification_ref) e.(ar_authorisation_ref) e.(ar_ticket_ref) e.(ar_proposal_entry_id) e.(ar_authorised_by_entry_id)
    e.(ar_revokes_entry_id) e.(ar_renews_entry_id) valid_until eligible_from proposal_expires_at recorded_at
    e.(ar_recorded_by_platform_audit_id).

(** [pgl_register_before_insert]; [None] is the refusal of the row. *)
Definition within_twelve_months (now : datetime) (u : datetime) : bool :=
  match twelve_months_after now with Some limit => u <=? limit | None => false end.
Definition proposal_before_insert (p : platform_store) (r : register) (now : datetime) (e : ApproverRegisterEntry) :
    option ApproverRegisterEntry :=
  match e.(ar_valid_until) with
  | None => None
  | Some u =>
      if (u <=? now) || negb (within_twelve_months now u) || bool_decide (e.(ar_subject_user_id) = e.(ar_recorded_by_user_id)) ||
         holds_platform_permission p e.(ar_subject_user_id) P_AUTHORITY_MANAGE ||
         other_active_enrolment r now e.(ar_subject_user_id) None None
      then None
      else Some (with_times e e.(ar_designation_ref) e.(ar_valid_until) None (Some (now + PROPOSAL_VALIDITY)) now)
  end.
Definition designation_before_insert (p : platform_store) (r : register) (now : datetime) (e : ApproverRegisterEntry) :
    option ApproverRegisterEntry :=
  match e.(ar_proposal_entry_id) with
  | None => None
  | Some id =>
      match r !! id with
      | None => None
      | Some linked =>
          if negb (bool_decide (linked.(ar_entry_type) = REGISTER_PROPOSAL)) ||
             negb (after now linked.(ar_proposal_expires_at)) ||
             exists_row r (λ x, bool_decide (x.(ar_proposal_entry_id) = Some id)) ||
             negb (bool_decide (e.(ar_subject_user_id) = linked.(ar_subject_user_id))) ||
             bool_decide (e.(ar_recorded_by_user_id) ∈ [linked.(ar_recorded_by_user_id); linked.(ar_subject_user_id)]) ||
             holds_platform_permission p e.(ar_recorded_by_user_id) P_AUTHORITY_MANAGE ||
             holds_platform_permission p e.(ar_subject_user_id) P_AUTHORITY_MANAGE ||
             other_active_enrolment r now e.(ar_subject_user_id) None None ||
             negb (after now linked.(ar_valid_until))
          then None
          else Some (with_times e linked.(ar_designation_ref) linked.(ar_valid_until) None None now)
      end
  end.
(** The renewed enrolment: of the same account and person, in force, renewed by nobody. *)
Definition renewable (r : register) (now : datetime) (e : ApproverRegisterEntry) (renews : uuid) : bool :=
  match r !! renews with
  | None => false
  | Some linked =>
      is_active_enrolment r now (renews, linked) &&
      bool_decide (linked.(ar_subject_user_id) = e.(ar_subject_user_id)) &&
      bool_decide (linked.(ar_natural_person_ref) = e.(ar_natural_person_ref)) &&
      negb (exists_row r (λ x, bool_decide (x.(ar_renews_entry_id) = Some renews)))
  end.
Definition enrolment_before_insert (p : platform_store) (r : register) (now : datetime) (e : ApproverRegisterEntry) :
    option ApproverRegisterEntry :=
  let recorder := e.(ar_recorded_by_user_id) in
  let subject := e.(ar_subject_user_id) in
  let eligible_from := now + ELIGIBILITY_DELAY in
  match match e.(ar_authorised_by_entry_id) with Some id => r !! id | None => None end with
  | None => None
  | Some designation =>
      if negb (designation_live r now e.(ar_authorised_by_entry_id)) ||
         negb (bool_decide (recorder = designation.(ar_subject_user_id))) ||
         bool_decide (subject = recorder) ||
         holds_platform_permission p recorder P_AUTHORITY_MANAGE || holds_platform_permission p subject P_AUTHORITY_MANAGE ||
         holds_platform_permission p subject P_SECURITY_RETENTION_HOLD_MANAGE ||
         existsb (λ d, of_subject subject d && is_active_designation r now d) (map_to_list r) ||
         exists_row r (λ x, bool_decide (x.(ar_entry_type) = REGISTER_ENROLMENT) &&
                            bool_decide (x.(ar_subject_user_id) = designation.(ar_subject_user_id)) &&
                            sql_eq x.(ar_natural_person_ref) e.(ar_natural_person_ref)) ||
         provenance_linked p recorder subject ||
         match e.(ar_valid_until) with Some u => (u <=? eligible_from) || negb (within_twelve_months now u) | None => true end ||
         other_active_enrolment r now subject e.(ar_natural_person_ref) e.(ar_renews_entry_id) ||
         exists_row r (λ x, bool_decide (x.(ar_entry_type) = REGISTER_ENROLMENT) &&
                            (bool_decide (x.(ar_subject_user_id) = subject) || sql_eq x.(ar_natural_person_ref) e.(ar_natural_person_ref)) &&
                            sql_eq x.(ar_verification_ref) e.(ar_verification_ref) &&
                            negb (designation_live r now x.(ar_authorised_by_entry_id))) ||
         match e.(ar_renews_entry_id) with Some renews => negb (renewable r now e renews) | None => false end
      then None
      else Some (with_times e e.(ar_designation_ref) e.(ar_valid_until) (Some eligible_from) None now)
  end.
Definition revoked_kind (t : register_entry_type) : register_entry_type :=
  if bool_decide (t = REGISTER_ENROLMENT_REVOCATION) then REGISTER_ENROLMENT else REGISTER_DESIGNATION.
Definition revocation_before_insert (r : register) (now : datetime) (e : ApproverRegisterEntry) : option ApproverRegisterEntry :=
  match e.(ar_revokes_entry_id) with
  | None => None
  | Some id =>
      match r !! id with
      | None => None
      | Some linked =>
          if negb (bool_decide (linked.(ar_entry_type) = revoked_kind e.(ar_entry_type))) ||
             negb (bool_decide (linked.(ar_subject_user_id) = e.(ar_subject_user_id))) || register_entry_revoked r id
          then None
          else Some (with_times e e.(ar_designation_ref) None None None now)
      end
  end.
Definition register_before_insert (p : platform_store) (r : register) (now : datetime) (e : ApproverRegisterEntry) :
    option ApproverRegisterEntry :=
  match e.(ar_entry_type) with
  | REGISTER_PROPOSAL => proposal_before_insert p r now e
  | REGISTER_DESIGNATION => designation_before_insert p r now e
  | REGISTER_ENROLMENT => enrolment_before_insert p r now e
  | REGISTER_ENROLMENT_REVOCATION | REGISTER_DESIGNATION_REVOCATION => revocation_before_insert r now e
  end.

(** [ck_pgl_approver_register_shape] *)
Definition absent {A : Type} (x : option A) : bool := match x with None => true | Some _ => false end.
Definition present {A : Type} (x : option A) : bool := negb (absent x).
Definition entry_shape (e : ApproverRegisterEntry) : bool :=
  match e.(ar_entry_type) with
  | REGISTER_PROPOSAL =>
      present e.(ar_designation_ref) && present e.(ar_valid_until) && present e.(ar_proposal_expires_at) &&
      absent e.(ar_natural_person_ref) && absent e.(ar_verification_ref) && absent e.(ar_authorisation_ref) &&
      absent e.(ar_proposal_entry_id) && absent e.(ar_authorised_by_entry_id) && absent e.(ar_revokes_entry_id) &&
      absent e.(ar_renews_entry_id) && absent e.(ar_eligible_from)
  | REGISTER_DESIGNATION =>
      present e.(ar_designation_ref) && present e.(ar_valid_until) && present e.(ar_proposal_entry_id) &&
      absent e.(ar_natural_person_ref) && absent e.(ar_verification_ref) && absent e.(ar_authorisation_ref) &&
      absent e.(ar_authorised_by_entry_id) && absent e.(ar_revokes_entry_id) && absent e.(ar_renews_entry_id) &&
      absent e.(ar_eligible_from) && absent e.(ar_proposal_expires_at)
  | REGISTER_ENROLMENT =>
      present e.(ar_natural_person_ref) && present e.(ar_verification_ref) && present e.(ar_authorisation_ref) &&
      present e.(ar_authorised_by_entry_id) && present e.(ar_valid_until) && present e.(ar_eligible_from) &&
      absent e.(ar_designation_ref) && absent e.(ar_proposal_entry_id) && absent e.(ar_revokes_entry_id) &&
      absent e.(ar_proposal_expires_at)
  | REGISTER_DESIGNATION_REVOCATION | REGISTER_ENROLMENT_REVOCATION =>
      present e.(ar_revokes_entry_id) && absent e.(ar_designation_ref) && absent e.(ar_natural_person_ref) &&
      absent e.(ar_verification_ref) && absent e.(ar_authorisation_ref) && absent e.(ar_proposal_entry_id) &&
      absent e.(ar_authorised_by_entry_id) && absent e.(ar_renews_entry_id) && absent e.(ar_valid_until) &&
      absent e.(ar_eligible_from) && absent e.(ar_proposal_expires_at)
  end.
Definition references_ok (e : ApproverRegisterEntry) : bool :=
  forallb (λ x : option pystr, match x with Some t => is_reference t | None => true end)
    [e.(ar_designation_ref); e.(ar_natural_person_ref); e.(ar_verification_ref); e.(ar_authorisation_ref); Some e.(ar_ticket_ref)].

(** A link names an entry of the register, and no other entry has the link where it is unique. *)
Definition link_exists (r : register) (link : option uuid) : bool :=
  match link with Some id => bool_decide (is_Some (r !! id)) | None => true end.
Definition link_taken (r : register) (column : ApproverRegisterEntry → option uuid) (e : ApproverRegisterEntry) : bool :=
  exists_row r (λ x, sql_eq (column x) (column e)).
Definition register_violation (p : platform_store) (r : register) (id : uuid) (e : ApproverRegisterEntry) : bool :=
  bool_decide (is_Some (r !! id)) || negb (entry_shape e) || negb (references_ok e) ||
  bool_decide (p.(ps_users) !! e.(ar_subject_user_id) = None) || bool_decide (p.(ps_users) !! e.(ar_recorded_by_user_id) = None) ||
  negb (link_exists r e.(ar_proposal_entry_id)) || negb (link_exists r e.(ar_authorised_by_entry_id)) ||
  negb (link_exists r e.(ar_revokes_entry_id)) || negb (link_exists r e.(ar_renews_entry_id)) ||
  link_taken r ar_proposal_entry_id e || link_taken r ar_revokes_entry_id e || link_taken r ar_renews_entry_id e ||
  exists_row r (λ x, bool_decide (x.(ar_recorded_by_platform_audit_id) = e.(ar_recorded_by_platform_audit_id))).

(** ** The audit row of an act *)

(** [pgl_audit_row_matches], checked when the transaction commits: the row's
    audit entry is a success of the transaction, by a user ([actor] if the
    trigger names the column) and of one of the actions. *)
Definition audit_row_matches (s : grant_store) (now : datetime) (audit_id : uuid) (actor : option uuid) (ops : list operation) : bool :=
  match s.(gs_acts) !! audit_id with
  | None => false
  | Some a =>
      bool_decide (a.(aa_outcome) = SUCCESS) &&
      match act_user_id a with
      | Some u => match actor with Some v => bool_decide (u = v) | None => true end
      | None => false
      end &&
      existsb (λ op, bool_decide (a.(aa_action) = op_audit_action (platform_operation op))) ops &&
      (a.(aa_created_at) =? now)
  end.
Definition require_audit_row (now : datetime) (audit_id : uuid) (actor : option uuid) (ops : list operation) : GM unit :=
  λ s, if audit_row_matches s now audit_id actor ops then (Ok tt, s) else (Raise GIntegrityError, s).

Definition entry_operations (t : register_entry_type) : list operation :=
  match t with
  | REGISTER_PROPOSAL => [PERMISSION_GRANT_LEDGER_REPRESENTATIVE_PROPOSE]
  | REGISTER_DESIGNATION => [PERMISSION_GRANT_LEDGER_REPRESENTATIVE_CONFIRM]
  | REGISTER_DESIGNATION_REVOCATION =>
      [PERMISSION_GRANT_LEDGER_REPRESENTATIVE_REVOKE_BY_OWNER; PERMISSION_GRANT_LEDGER_REPRESENTATIVE_REVOKE_BY_SECURITY]
  | REGISTER_ENROLMENT => [PERMISSION_GRANT_LEDGER_APPROVER_ENROL]
  | REGISTER_ENROLMENT_REVOCATION =>
      [PERMISSION_GRANT_LEDGER_APPROVER_REVOKE_BY_REPRESENTATIVE; PERMISSION_GRANT_LEDGER_APPROVER_REVOKE_BY_SECURITY]
  end.
Definition revocation_operations : list operation :=
  entry_operations REGISTER_DESIGNATION_REVOCATION ++ entry_operations REGISTER_ENROLMENT_REVOCATION.

(** ** How approvals and authorizations end *)

(** [pgl_one_way_update]; [None] is its refusal. *)
Definition one_way_update (expires_at row_time : datetime) (old new : final_state) : option final_state :=
  if present old.(fin_consumed_at) || present old.(fin_invalidated_at) then None
  else if present new.(fin_consumed_at) && present new.(fin_consumed_by) && absent new.(fin_invalidated_at) && absent new.(fin_invalidated_by)
  then if expires_at <=? row_time then None else Some (mkFinal (Some row_time) new.(fin_consumed_by) None None)
  else if present new.(fin_invalidated_by) && absent new.(fin_consumed_at) && absent new.(fin_consumed_by)
  then Some (mkFinal None None (Some row_time) new.(fin_invalidated_by))
  else None.
(** [_final_checks] *)
Definition final_checks (start expires_at : datetime) (f : final_state) : bool :=
  Bool.eqb (absent f.(fin_consumed_at)) (absent f.(fin_consumed_by)) &&
  Bool.eqb (absent f.(fin_invalidated_at)) (absent f.(fin_invalidated_by)) &&
  (absent f.(fin_consumed_at) || absent f.(fin_invalidated_at)) && (start <? expires_at) &&
  match f.(fin_consumed_at) with Some t => start <=? t | None => true end &&
  match f.(fin_invalidated_at) with Some t => start <=? t | None => true end.
Definition with_approval_final (a : LedgerDeletionApproval) (f : final_state) : LedgerDeletionApproval :=
  mkApproval a.(da_request_id) a.(da_tenant_ids) a.(da_scope_digest) a.(da_eligible_ledger_rows) a.(da_eligible_digest)
    a.(da_approved_by_user_id) a.(da_approved_at) a.(da_expires_at) a.(da_approved_by_platform_audit_id) f.
Definition with_authorization_final (a : LedgerExecutionAuthorization) (f : final_state) : LedgerExecutionAuthorization :=
  mkAuthorization a.(ea_approval_id) a.(ea_authorized_by_user_id) a.(ea_authorized_at) a.(ea_expires_at)
    a.(ea_authorized_by_platform_audit_id) f.

(** The UPDATE of one row, under its trigger and its checks. *)
Definition end_approval (row_time : datetime) (new : final_state) (a : LedgerDeletionApproval) : option LedgerDeletionApproval :=
  match one_way_update a.(da_expires_at) row_time a.(da_final) new with
  | Some f => if final_checks a.(da_approved_at) a.(da_expires_at) f then Some (with_approval_final a f) else None
  | None => None
  end.
Definition end_authorization (row_time : datetime) (new : final_state) (a : LedgerExecutionAuthorization) :
    option LedgerExecutionAuthorization :=
  match one_way_update a.(ea_expires_at) row_time a.(ea_final) new with
  | Some f => if final_checks a.(ea_authorized_at) a.(ea_expires_at) f then Some (with_authorization_final a f) else None
  | None => None
  end.

(** [UPDATE ... WHERE]: every selected row changes, or the statement is refused. *)
Definition update_where {A : Type} (selected : A → bool) (change : A → option A) (m : gmap uuid A) : option (gmap uuid A * nat) :=
  if forallb (λ x : uuid * A, negb (selected x.2) || present (change x.2)) (map_to_list m)
  then Some (omap (λ a, if selected a then change a else Some a) m, length (List.filter (λ x : uuid * A, selected x.2) (map_to_list m)))
  else None.

Definition is_open (f : final_state) : bool := absent f.(fin_consumed_at) && absent f.(fin_invalidated_at).

Section Register.
Context (uuid4 : nat → uuid) (now row_time : datetime).

(** [_invalidate] *)
Definition invalidate (users : list uuid) (audit_id : uuid) : GM (nat * nat) :=
  if bool_decide (users = []) then ret (0, 0)%nat
  else λ s,
    let new := mkFinal None None (Some now) (Some audit_id) in
    let approvals := update_where (λ a, bool_decide (a.(da_approved_by_user_id) ∈ users) && is_open a.(da_final) && (now <? a.(da_expires_at)))
                       (end_approval row_time new) s.(gs_approvals) in
    let authorizations := update_where (λ a, bool_decide (a.(ea_authorized_by_user_id) ∈ users) && is_open a.(ea_final) && (now <? a.(ea_expires_at)))
                            (end_authorization row_time new) s.(gs_authorizations) in
    match approvals, authorizations with
    | Some (m, n), Some (m', n') => (Ok (n, n'), put_authorizations m' (put_approvals m s))
    | _, _ => (Raise GIntegrityError, s)
    end.

(** The insert of an entry, and [_write]. *)
Record RegisterEntryView : Type := mkView { vw_id : uuid; vw_entry : ApproverRegisterEntry; vw_replay : bool }.
Definition register_target (id : option uuid) : audit_target :=
  TargetOther "permission_grant_ledger_approver_register" (id_text <$> id).
Definition insert_entry (id : uuid) (e : ApproverRegisterEntry) : GM ApproverRegisterEntry :=
  λ s, match register_before_insert (gs_platform s) s.(gs_register) now e with
       | None => (Raise GIntegrityError, s)
       | Some e' =>
           if register_violation (gs_platform s) s.(gs_register) id e' then (Raise GIntegrityError, s)
           else (Ok e', put_register (<[id := e']> s.(gs_register)) s)
       end.
Definition write_entry (u : uuid) (op : operation) (reason : pystr) (session_id id : uuid) (e : ApproverRegisterEntry) :
    GM RegisterEntryView :=
  do* written := insert_entry id e in
  do* _ := record_act now (UserCaller u) op (register_target (Some id)) None reason (verified_metadata session_id)
             written.(ar_recorded_by_platform_audit_id) in
  do* _ := require_audit_row now written.(ar_recorded_by_platform_audit_id) (Some written.(ar_recorded_by_user_id))
             (entry_operations written.(ar_entry_type)) in
  ret (mkView id written false).

(** [_replay]: the repetition of a call writes an audit row and nothing else. *)
Definition replay_entry (u : uuid) (op : operation) (reason : pystr) (session_id : uuid) (x : uuid * ApproverRegisterEntry) :
    GM RegisterEntryView :=
  do* _ := record_new_act uuid4 now (UserCaller u) op (register_target (Some x.1)) None reason (verified_metadata session_id) in
  ret (mkView x.1 x.2 true).

(** [_validity] *)
Definition validity (valid_until start : datetime) : result grant_error datetime :=
  if valid_until <=? start then Raise (InvalidLedgerRetentionRequestError "valid_until")
  else match twelve_months_after now with
       | None => Raise GValueError
       | Some limit => if limit <? valid_until then Raise (InvalidLedgerRetentionRequestError "valid_until") else Ok valid_until
       end.

Definition user_row_exists (s : grant_store) (user_id : uuid) : bool := bool_decide (is_Some ((gs_platform s).(ps_users) !! user_id)).
Definition subject_exists (subject : uuid) : GM unit :=
  λ s, if user_row_exists s subject then (Ok tt, s) else (Raise (LedgerApprovalRecordNotFoundError "subject_not_found"), s).
Definition refuse_holder (user_id : uuid) (permission : PlatformPermission) (code : string) : GM unit :=
  λ s, refuse_if (holds_platform_permission (gs_platform s) user_id permission) code s.
Definition refuse_when (p : register → bool) (code : string) : GM unit := λ s, refuse_if (p s.(gs_register)) code s.

(** [_entry] *)
Definition get_entry (entry_id : uuid) (t : register_entry_type) (subject : uuid) : GM ApproverRegisterEntry :=
  λ s, match s.(gs_register) !! entry_id with
       | Some e => if bool_decide (e.(ar_entry_type) = t) && bool_decide (e.(ar_subject_user_id) = subject) then (Ok e, s)
                   else (Raise (LedgerApprovalRecordNotFoundError "register_entry_not_found"), s)
       | None => (Raise (LedgerApprovalRecordNotFoundError "register_entry_not_found"), s)
       end.

(** The opening of every operation of the register. *)
Definition register_operation {A : Type} (op : operation) (c : caller) (evidence : option PlatformSessionEvidence)
    (check : result grant_error pystr) (body : pystr → uuid → uuid → GM A) : GM A :=
  refusals_recorded retention_or_platform c op (register_target None)
    (do* reason := lift check in
     platform_session c op
       (do* u := require_user_caller op c in
        do* session_id := verify_session now c evidence true in
        body reason u session_id)).

Definition action_of (op : operation) : string := op_audit_action (platform_operation op).
Definition confirmed (r : register) (proposal : uuid) : bool := exists_row r (λ x, bool_decide (x.(ar_proposal_entry_id) = Some proposal)).

Definition propose_representative_designation (subject : uuid) (c : caller) (evidence : option PlatformSessionEvidence)
    (designation_ref ticket_ref : pystr) (valid_until : datetime) (reason : pystr) : GM RegisterEntryView :=
  let op := PERMISSION_GRANT_LEDGER_REPRESENTATIVE_PROPOSE in
  register_operation op c evidence
    (let* reason := from_platform (validate_reason reason) in
     let* _ := validated_reference ticket_ref in
     let* _ := validated_reference designation_ref in Ok reason)
    (λ reason u session_id,
       do* until := lift (validity valid_until now) in
       do* _ := subject_exists subject in
       do* _ := refuse_if (bool_decide (subject = u)) "register_subject_is_caller" in
       do* s := get in
       let r := s.(gs_register) in
       let pending := is_type REGISTER_PROPOSAL in
       match List.find (λ x : uuid * ApproverRegisterEntry,
               pending x && of_subject subject x && bool_decide (x.2.(ar_recorded_by_user_id) = u) &&
               after now x.2.(ar_proposal_expires_at) && bool_decide (x.2.(ar_designation_ref) = Some designation_ref) &&
               bool_decide (x.2.(ar_ticket_ref) = ticket_ref) && bool_decide (x.2.(ar_valid_until) = Some until) &&
               negb (confirmed r x.1) && same_act s x.2.(ar_recorded_by_platform_audit_id) u reason (action_of op))
             (map_to_list r) with
       | Some x => replay_entry u op reason session_id x
       | None =>
           do* _ := refuse_if (existsb (λ x, pending x && of_subject subject x && after now x.2.(ar_proposal_expires_at) &&
                                            negb (confirmed r x.1)) (map_to_list r)) "proposal_already_pending" in
           do* _ := refuse_holder subject P_AUTHORITY_MANAGE "subject_holds_authority_manage" in
           do* _ := refuse_when (λ r, negb (bool_decide (active_enrolments r now (of_subject subject) = []))) "subject_is_approver" in
           do* id := gdraw uuid4 in
           do* audit_id := gdraw uuid4 in
           write_entry u op reason session_id id
             (mkEntry REGISTER_PROPOSAL subject u (Some designation_ref) None None None ticket_ref None None None None
                (Some until) None None now audit_id)
       end).

Definition confirm_representative_designation (subject proposal_id : uuid) (c : caller) (evidence : option PlatformSessionEvidence)
    (ticket_ref reason : pystr) : GM RegisterEntryView :=
  let op := PERMISSION_GRANT_LEDGER_REPRESENTATIVE_CONFIRM in
  register_operation op c evidence
    (let* reason := from_platform (validate_reason reason) in let* _ := validated_reference ticket_ref in Ok reason)
    (λ reason u session_id,
       do* proposal := get_entry proposal_id REGISTER_PROPOSAL subject in
       do* _ := refuse_holder u P_AUTHORITY_MANAGE "party_holds_authority_manage" in
       do* s := get in
       do* existing := lift (scalar_one_or_none (entries s.(gs_register) (λ x, bool_decide (x.2.(ar_proposal_entry_id) = Some proposal_id)))) in
       match existing with
       | Some x =>
           if bool_decide (x.2.(ar_recorded_by_user_id) = u) && bool_decide (x.2.(ar_ticket_ref) = ticket_ref) &&
              same_act s x.2.(ar_recorded_by_platform_audit_id) u reason (action_of op)
           then replay_entry u op reason session_id x
           else refuse "proposal_already_confirmed"
       | None =>
           match proposal.(ar_proposal_expires_at), proposal.(ar_valid_until) with
           | Some expires, Some until =>
               do* _ := refuse_if ((expires <=? now) || (until <=? now)) "proposal_expired" in
               do* _ := refuse_if (bool_decide (u = subject)) "register_subject_is_caller" in
               do* _ := refuse_if (bool_decide (u = proposal.(ar_recorded_by_user_id))) "confirmer_is_proposer" in
               do* _ := refuse_holder subject P_AUTHORITY_MANAGE "subject_holds_authority_manage" in
               do* _ := refuse_when (λ r, negb (bool_decide (active_enrolments r now (of_subject subject) = []))) "subject_is_approver" in
               do* id := gdraw uuid4 in
               do* audit_id := gdraw uuid4 in
               write_entry u op reason session_id id
                 (mkEntry REGISTER_DESIGNATION subject u proposal.(ar_designation_ref) None None None ticket_ref (Some proposal_id)
                    None None None (Some until) None None now audit_id)
           | _, _ => throw GAssertionError
           end
       end).

(** [_suspended_verification_reused] *)
Definition suspended_verification_reused (r : register) (subject : uuid) (person verification : pystr) : bool :=
  existsb (λ x, is_type REGISTER_ENROLMENT x && bool_decide (x.2.(ar_verification_ref) = Some verification) &&
                (of_subject subject x || of_person person x) && negb (designation_live r now x.2.(ar_authorised_by_entry_id)))
    (map_to_list r).
Definition not_renewed (renews : option uuid) (x : uuid * ApproverRegisterEntry) : bool := negb (bool_decide (renews = Some x.1)).
(** The check of a renewal. *)
Definition valid_renewal (r : register) (subject : uuid) (person : pystr) (renews : uuid) : bool :=
  match r !! renews with
  | None => false
  | Some renewed =>
      existsb (λ x : uuid * ApproverRegisterEntry, bool_decide (x.1 = renews)) (active_enrolments r now (of_subject subject)) &&
      bool_decide (renewed.(ar_natural_person_ref) = Some person) &&
      negb (exists_row r (λ x, bool_decide (x.(ar_renews_entry_id) = Some renews)))
  end.

Definition enrol_approver (subject : uuid) (c : caller) (evidence : option PlatformSessionEvidence)
    (person verification authorisation ticket_ref : pystr) (valid_until : datetime) (reason : pystr) (renews : option uuid) :
    GM RegisterEntryView :=
  let op := PERMISSION_GRANT_LEDGER_APPROVER_ENROL in
  register_operation op c evidence
    (let* reason := from_platform (validate_reason reason) in
     let* _ := validated_reference ticket_ref in
     let* _ := validated_reference person in
     let* _ := validated_reference verification in
     let* _ := validated_reference authorisation in Ok reason)
    (λ reason u session_id,
       do* until := lift (validity valid_until (now + ELIGIBILITY_DELAY)) in
       do* _ := refuse_holder u P_AUTHORITY_MANAGE "party_holds_authority_manage" in
       do* s := get in
       let r := s.(gs_register) in
       match active_designation r u now with
       | None => refuse "not_a_representative"
       | Some designation =>
           do* _ := subject_exists subject in
           do* _ := refuse_if (bool_decide (subject = u)) "register_subject_is_caller" in
           match List.find (λ x : uuid * ApproverRegisterEntry,
                   bool_decide (x.2.(ar_recorded_by_user_id) = u) && of_person person x &&
                   bool_decide (x.2.(ar_verification_ref) = Some verification) &&
                   bool_decide (x.2.(ar_authorisation_ref) = Some authorisation) && bool_decide (x.2.(ar_ticket_ref) = ticket_ref) &&
                   bool_decide (x.2.(ar_valid_until) = Some until) && bool_decide (x.2.(ar_renews_entry_id) = renews) &&
                   same_act s x.2.(ar_recorded_by_platform_audit_id) u reason (action_of op))
                 (active_enrolments r now (of_subject subject)) with
           | Some x => replay_entry u op reason session_id x
           | None =>
               do* _ := refuse_holder subject P_AUTHORITY_MANAGE "subject_holds_authority_manage" in
               do* _ := refuse_holder subject P_SECURITY_RETENTION_HOLD_MANAGE "subject_holds_hold_manage" in
               do* _ := refuse_when (λ r, present (active_designation r subject now)) "subject_is_representative" in
               do* _ := refuse_if (provenance_linked (gs_platform s) u subject) "subject_linked_to_representative" in
               do* _ := refuse_when (λ r, existsb (λ x, is_type REGISTER_ENROLMENT x && of_subject u x && of_person person x) (map_to_list r))
                          "natural_person_already_enrolled" in
               do* _ := refuse_when (λ r, existsb (not_renewed renews) (active_enrolments r now (of_subject subject))) "approver_already_enrolled" in
               do* _ := refuse_when (λ r, existsb (not_renewed renews) (active_enrolments r now (of_person person))) "natural_person_already_enrolled" in
               do* _ := refuse_when (λ r, suspended_verification_reused r subject person verification) "verification_not_fresh" in
               do* _ := refuse_when (λ r, match renews with Some x => negb (valid_renewal r subject person x) | None => false end) "invalid_renewal" in
               do* id := gdraw uuid4 in
               do* audit_id := gdraw uuid4 in
               write_entry u op reason session_id id
                 (mkEntry REGISTER_ENROLMENT subject u None (Some person) (Some verification) (Some authorisation) ticket_ref None
                    (Some designation.1) None renews (Some until) None None now audit_id)
           end
       end).

(** [_REVOCATIONS] *)
Definition revocation_kinds (op : operation) : option (register_entry_type * register_entry_type) :=
  match op with
  | PERMISSION_GRANT_LEDGER_APPROVER_REVOKE_BY_REPRESENTATIVE | PERMISSION_GRANT_LEDGER_APPROVER_REVOKE_BY_SECURITY =>
      Some (REGISTER_ENROLMENT, REGISTER_ENROLMENT_REVOCATION)
  | PERMISSION_GRANT_LEDGER_REPRESENTATIVE_REVOKE_BY_OWNER | PERMISSION_GRANT_LEDGER_REPRESENTATIVE_REVOKE_BY_SECURITY =>
      Some (REGISTER_DESIGNATION, REGISTER_DESIGNATION_REVOCATION)
  | _ => None
  end.

Record RevocationResult : Type := mkRevocation {
  rv_entry : RegisterEntryView;
  rv_suspended_enrolments : nat;
  rv_invalidated_approvals : nat;
  rv_invalidated_execution_authorizations : nat;
}.

(** [_active_enrolments_of_designation] *)
Definition active_enrolments_of_designation (r : register) (designation : uuid) : list (uuid * ApproverRegisterEntry) :=
  entries r (λ x, is_type REGISTER_ENROLMENT x && bool_decide (x.2.(ar_authorised_by_entry_id) = Some designation) &&
                  after now x.2.(ar_valid_until) && negb (register_entry_revoked r x.1)).

Definition revoke_register_entry (subject entry_id : uuid) (op : operation) (c : caller) (evidence : option PlatformSessionEvidence)
    (ticket_ref reason : pystr) : GM RevocationResult :=
  match revocation_kinds op with
  | None => throw (InvalidLedgerRetentionRequestError "not a register revocation operation.")
  | Some (kind, revocation) =>
      register_operation op c evidence
        (let* reason := from_platform (validate_reason reason) in let* _ := validated_reference ticket_ref in Ok reason)
        (λ reason u session_id,
           do* target := get_entry entry_id kind subject in
           do* _ := (if bool_decide (op = PERMISSION_GRANT_LEDGER_REPRESENTATIVE_REVOKE_BY_OWNER) then ret tt
                     else refuse_holder u P_AUTHORITY_MANAGE "party_holds_authority_manage") in
           do* _ := refuse_when (λ r, bool_decide (op = PERMISSION_GRANT_LEDGER_APPROVER_REVOKE_BY_REPRESENTATIVE) &&
                                      absent (active_designation r u now)) "not_a_representative" in
           do* s := get in
           do* existing := lift (scalar_one_or_none (entries s.(gs_register) (λ x, bool_decide (x.2.(ar_revokes_entry_id) = Some entry_id)))) in
           match existing with
           | Some x =>
               if bool_decide (x.2.(ar_ticket_ref) = ticket_ref) && same_act s x.2.(ar_recorded_by_platform_audit_id) u reason (action_of op)
               then do* view := replay_entry u op reason session_id x in ret (mkRevocation view 0 0 0)
               else refuse "entry_already_revoked"
           | None =>
               let suspended := if bool_decide (kind = REGISTER_ENROLMENT) then [] else active_enrolments_of_designation s.(gs_register) entry_id in
               let affected := if bool_decide (kind = REGISTER_ENROLMENT) then [target.(ar_subject_user_id)]
                               else (λ x : uuid * ApproverRegisterEntry, x.2.(ar_subject_user_id)) <$> suspended in
               do* audit_id := gdraw uuid4 in
               do* id := gdraw uuid4 in
               do* ended := invalidate affected audit_id in
               do* written := write_entry u op reason session_id id
                 (mkEntry revocation subject u None None None None ticket_ref None None (Some entry_id) None None None None now audit_id) in
               do* _ := (if bool_decide (ended = (0, 0)%nat) then ret tt else require_audit_row now audit_id None revocation_operations) in
               ret (mkRevocation written (length suspended) ended.1 ended.2)
           end)
  end.
End Register.
