(* ===== verification/GrantApproval.v ===== *)
(** * Retention of the ledger and the approval of its deletion
    (permission_grants/retention.py, approvals.py, expiry.py, and the request,
    approval and authorization triggers of migration c3f9e1a7b5d2)

    A tenant's ledger rows may be deleted two years after the completion of its
    purge, unless a legal hold is active.  A deletion is requested for a scope
    with its row count and digest, approved by one eligible approver, its
    execution authorized by another, and then executed by the database owner,
    who is not a platform caller; every step verifies the whole chain again.
    [deletion_enabled] is the module's switch, which is off in the code. *)

From S2P Require Import Prelude PyStr PyTime TenantLifecycle PlatformAuthority PlatformService TenantHierarchy RbacDecision RbacService Identity OutboxModel Webhooks GrantModel GrantRegister.

(** ** retention.py: the decision *)

Definition RETENTION_PERIOD_YEARS : Z := 2.
Definition MAX_REPORT_TENANTS : nat := N.to_nat 1000.

Inductive RetentionStatus : Type :=
| RS_TENANT_NOT_FOUND | RS_NOT_PURGED | RS_PURGE_TIME_UNKNOWN | RS_PURGE_TIME_AMBIGUOUS | RS_LEGAL_HOLD | RS_RETENTION_RUNNING | RS_ELIGIBLE.
#[export] Instance RetentionStatus_eq_dec : EqDecision RetentionStatus.
Proof. solve_decision. Defined.

Record RetentionDecision : Type := mkDecision {
  rd_status : RetentionStatus;
  rd_purged_at : option datetime;
  rd_expires_at : option datetime;
}.
Definition decision_eligible (d : RetentionDecision) : bool := bool_decide (d.(rd_status) = RS_ELIGIBLE).

(** [None] is [ValueError] or [OverflowError]. *)
Definition retention_expires_at (purged_at : datetime) : option datetime :=
  let '(y, m, d) := date_of purged_at in
  let year := y + RETENTION_PERIOD_YEARS in
  match replace_date purged_at year m d with
  | Some r => Some r
  | None =>
      match replace_date purged_at year 2 28 with
      | Some r => dt_add r us_per_day
      | None => None
      end
  end.

Definition retention_eligibility (tenant_status : option TenantStatus) (purge_evidence : list datetime) (active_holds : nat)
    (at_ : datetime) : result grant_error RetentionDecision :=
  match tenant_status with
  | None => Ok (mkDecision RS_TENANT_NOT_FOUND None None)
  | Some status =>
      if negb (bool_decide (status = PURGED)) then Ok (mkDecision RS_NOT_PURGED None None)
      else match purge_evidence with
           | [] => Ok (mkDecision RS_PURGE_TIME_UNKNOWN None None)
           | _ :: _ :: _ => Ok (mkDecision RS_PURGE_TIME_AMBIGUOUS None None)
           | [purged_at] =>
               match retention_expires_at purged_at with
               | None => Raise GValueError
               | Some expires_at =>
                   Ok (mkDecision (if bool_decide (0 < active_holds)%nat then RS_LEGAL_HOLD
                                   else if at_ <? expires_at then RS_RETENTION_RUNNING else RS_ELIGIBLE)
                         (Some purged_at) (Some expires_at))
               end
           end
  end.

(** [_tenant_status], [_active_holds], [_ledger_row_ids] *)
Definition tenant_status (s : grant_store) (tenant_id : uuid) : option TenantStatus :=
  t_status <$> s.(gs_tenancy).(ts_tenants) !! tenant_id.
Definition active_holds (s : grant_store) (tenant_id : uuid) : nat :=
  length (List.filter (λ h : uuid * PermissionGrantLedgerHold,
    bool_decide (h.2.(lh_target_tenant_id) = tenant_id) && absent h.2.(lh_released)) (map_to_list s.(gs_holds))).
Definition ledger_row_ids (s : grant_store) (tenant_id : uuid) : list uuid :=
  sorted_ids (List.filter (λ a : uuid * PermissionGrantApplication, bool_decide (a.2.(ga_tenant_id) = tenant_id)) (map_to_list s.(gs_ledger))).*1.

(** The decision for a tenant of the store. *)
Definition decide_tenant (s : grant_store) (tenant_id : uuid) (at_ : datetime) : result grant_error RetentionDecision :=
  let status := tenant_status s tenant_id in
  retention_eligibility status (tenant_purge_completion_times s tenant_id)
    (match status with Some _ => active_holds s tenant_id | None => 0 end) at_.

(** The rows of a scope, in its order (a dict by tenant). *)
Abbreviation scope_rows := (list (uuid * list uuid)).
Definition total_rows (rows : scope_rows) : Z := Z.of_nat (length (rows ≫= snd)).

(** ** approvals.py: the state of a scope *)

Record ScopeState : Type := mkScope { sc_rows : scope_rows; sc_not_eligible : list uuid }.

Fixpoint scope_state (s : grant_store) (tenant_ids : list uuid) (at_ : datetime) : result grant_error ScopeState :=
  match tenant_ids with
  | [] => Ok (mkScope [] [])
  | t :: rest =>
      let* decision := decide_tenant s t at_ in
      let ids := if decision_eligible decision then ledger_row_ids s t else [] in
      let* others := scope_state s rest at_ in
      Ok (if decision_eligible decision && negb (bool_decide (ids = []))
          then mkScope ((t, ids) :: others.(sc_rows)) others.(sc_not_eligible)
          else mkScope others.(sc_rows) (t :: others.(sc_not_eligible)))
  end.

(** [releases_in_scope] *)
Record ReleaseEvidence : Type := mkReleases { rl_authenticated_releasers : list uuid; rl_unauthenticated : bool }.
Definition release_act (s : grant_store) (audit_id : uuid) : option uuid :=
  match s.(gs_acts) !! audit_id with
  | Some a => if authenticated_http_act a then act_user_id a else None
  | None => None
  end.
Definition released_audit_ids (s : grant_store) (tenant_ids : list uuid) : list uuid :=
  omap (λ h : uuid * PermissionGrantLedgerHold,
          if bool_decide (h.2.(lh_target_tenant_id) ∈ tenant_ids) then snd <$> h.2.(lh_released) else None)
    (map_to_list s.(gs_holds)).
Definition releases_in_scope (s : grant_store) (tenant_ids : list uuid) : ReleaseEvidence :=
  let ids := released_audit_ids s tenant_ids in
  mkReleases (omap (release_act s) ids) (existsb (λ i, absent (release_act s i)) ids).

(** [_state] *)
Inductive request_state : Type := RQ_PENDING | RQ_EXPIRED | RQ_CONSUMED | RQ_INVALIDATED | RQ_APPROVED.
#[export] Instance request_state_eq_dec : EqDecision request_state.
Proof. solve_decision. Defined.
Definition state_of_request (request : LedgerDeletionRequest) (approval : option LedgerDeletionApproval) (at_ : datetime) : request_state :=
  match approval with
  | None => if at_ <? request.(dr_expires_at) then RQ_PENDING else RQ_EXPIRED
  | Some a =>
      if present a.(da_final).(fin_consumed_at) then RQ_CONSUMED
      else if present a.(da_final).(fin_invalidated_at) then RQ_INVALIDATED
      else if at_ <? a.(da_expires_at) then RQ_APPROVED else RQ_EXPIRED
  end.

(** [approval_refusal] *)
Definition approval_refusal (a : LedgerDeletionApproval) (at_ : datetime) : option string :=
  if present a.(da_final).(fin_consumed_at) then Some "approval_consumed"
  else if present a.(da_final).(fin_invalidated_at) then Some "approval_invalidated"
  else if a.(da_expires_at) <=? at_ then Some "approval_expired" else None.

(** [_approval_of]; the unique index allows one. *)
Definition approvals_of (s : grant_store) (request_id : uuid) : list (uuid * LedgerDeletionApproval) :=
  List.filter (λ a : uuid * LedgerDeletionApproval, bool_decide (a.2.(da_request_id) = request_id)) (map_to_list s.(gs_approvals)).
Definition approval_of (s : grant_store) (request_id : uuid) : result grant_error (option (uuid * LedgerDeletionApproval)) :=
  scalar_one_or_none (approvals_of s request_id).

(** [canonical_scope] *)
Definition canonical_scope (tenant_ids : list uuid) : result grant_error (list uuid) :=
  let scope := sorted_ids (fromkeys tenant_ids) in
  if bool_decide (scope = []) || bool_decide (MAX_REPORT_TENANTS < length scope)%nat
  then Raise (InvalidLedgerRetentionRequestError "A request names 1 to 1000 tenants.") else Ok scope.

Definition request_target (id : option uuid) : audit_target := TargetOther "permission_grant_ledger_deletion_request" (id_text <$> id).
Definition hold_target (id : uuid) : audit_target := TargetOther "permission_grant_ledger_hold" (Some (id_text id)).
Definition ledger_target (id : option uuid) : audit_target := TargetOther "permission_grant_ledger" (id_text <$> id).

Section Approval.
Context (uuid4 : nat → uuid) (sha256_hex : pystr → pystr) (deletion_enabled : bool).
Context (now wall row_time : datetime).

(** [scope_digest], [eligible_ledger_digest] *)
Definition scope_digest (tenant_ids : list uuid) : pystr :=
  sha256_hex (compact_dumps (JList ((λ t, JStr (str_uuid t)) <$> sorted_ids (fromkeys tenant_ids)))).
Definition row_text (r : uuid * list uuid) : json :=
  JList [JStr (str_uuid r.1); JList ((λ i, JStr (str_uuid i)) <$> sorted_ids r.2)].
Definition by_tenant (a b : uuid * list uuid) : Prop := (a.1 ≤ b.1)%N.
#[export] Instance by_tenant_dec a b : Decision (by_tenant a b).
Proof. unfold by_tenant. apply _. Defined.
Definition eligible_ledger_digest (rows : scope_rows) : pystr :=
  sha256_hex (compact_dumps (JList (row_text <$> merge_sort by_tenant rows))).

(** ** Legal holds *)

Record LedgerHoldResult : Type := mkHoldResult { hr_hold_id : uuid; hr_hold : PermissionGrantLedgerHold; hr_replay : bool }.

(** The insert of a hold, under the index of active ones and the constraints of the table. *)
Definition insert_hold (id : uuid) (h : PermissionGrantLedgerHold) : GM unit :=
  λ s, if bool_decide (is_Some (s.(gs_holds) !! id)) ||
          exists_row s.(gs_holds) (λ x, bool_decide (x.(lh_target_tenant_id) = h.(lh_target_tenant_id)) &&
                                       bool_decide (x.(lh_reference) = h.(lh_reference)) && absent x.(lh_released)) ||
          bool_decide (s.(gs_tenancy).(ts_tenants) !! h.(lh_target_tenant_id) = None) || negb (is_reference h.(lh_reference))
       then (Raise GIntegrityError, s) else (Ok tt, put_holds (<[id := h]> s.(gs_holds)) s).

Definition place_permission_grant_ledger_hold (tenant_id : uuid) (reference : pystr) (c : caller) (reason : pystr)
    (evidence : option PlatformSessionEvidence) : GM LedgerHoldResult :=
  let op := PERMISSION_GRANT_LEDGER_HOLD_PLACE in
  refusals_recorded retention_or_platform c op (hold_target tenant_id)
    (do* _ := lift (validated_reference reference) in
     do* reason := valid_reason reason in
     platform_session c op
       (do* channel := match evidence with
                       | None => ret []
                       | Some _ => do* session_id := verify_session now c evidence false in ret (verified_metadata session_id)
                       end in
        do* s := get in
        if bool_decide (s.(gs_tenancy).(ts_tenants) !! tenant_id = None) then throw (LedgerHoldTenantNotFoundError tenant_id)
        else if exists_row s.(gs_holds) (λ x, bool_decide (x.(lh_target_tenant_id) = tenant_id) &&
                                             bool_decide (x.(lh_reference) = reference) && absent x.(lh_released))
        then throw (LedgerHoldAlreadyActiveError tenant_id reference)
        else
          do* audit_id := gdraw uuid4 in
          do* id := gdraw uuid4 in
          let hold := mkHold tenant_id reference now audit_id None in
          do* _ := insert_hold id hold in
          do* _ := record_act now c op (hold_target id) (Some tenant_id) reason channel audit_id in
          ret (mkHoldResult id hold false))).

(** The release, once, and not before the hold was placed (the trigger and the check). *)
Definition release_hold (id : uuid) (h : PermissionGrantLedgerHold) (audit_id : uuid) : GM PermissionGrantLedgerHold :=
  λ s, if present h.(lh_released) || (now <? h.(lh_placed_at)) then (Raise GIntegrityError, s)
       else let h' := mkHold h.(lh_target_tenant_id) h.(lh_reference) h.(lh_placed_at) h.(lh_placed_by_platform_audit_id) (Some (now, audit_id)) in
            (Ok h', put_holds (<[id := h']> s.(gs_holds)) s).

Definition release_permission_grant_ledger_hold (hold_id : uuid) (c : caller) (reason : pystr)
    (evidence : option PlatformSessionEvidence) : GM LedgerHoldResult :=
  let op := PERMISSION_GRANT_LEDGER_HOLD_RELEASE in
  refusals_recorded retention_or_platform c op (hold_target hold_id)
    (do* reason := valid_reason reason in
     platform_session c op
       (do* session_id := verify_session now c evidence false in
        do* s := get in
        match s.(gs_holds) !! hold_id with
        | None => throw (LedgerHoldNotFoundError hold_id)
        | Some hold =>
            match hold.(lh_released) with
            | Some (_, audit_id) =>
                if match c with UserCaller u => same_act s audit_id u reason (action_of op) | _ => false end
                then
                  do* _ := record_new_act uuid4 now c op (hold_target hold_id) (Some hold.(lh_target_tenant_id)) reason
                             (verified_metadata session_id) in
                  ret (mkHoldResult hold_id hold true)
                else throw (LedgerHoldAlreadyReleasedError hold_id)
            | None =>
                do* audit_id := gdraw uuid4 in
                do* hold := release_hold hold_id hold audit_id in
                do* _ := record_act now c op (hold_target hold_id) (Some hold.(lh_target_tenant_id)) reason
                           (verified_metadata session_id) audit_id in
                ret (mkHoldResult hold_id hold false)
            end
        end)).

(** ** The verification of a deletion *)

(** What an approval or a request binds. *)
Record bound_scope : Type := mkBound {
  bs_tenant_ids : list uuid;
  bs_scope_digest : pystr;
  bs_eligible_ledger_rows : Z;
  bs_eligible_digest : pystr;
}.
Definition bound_of (request : LedgerDeletionRequest) (approval : option LedgerDeletionApproval) : bound_scope :=
  match approval with
  | Some a => mkBound a.(da_tenant_ids) a.(da_scope_digest) a.(da_eligible_ledger_rows) a.(da_eligible_digest)
  | None => mkBound request.(dr_tenant_ids) request.(dr_scope_digest) request.(dr_eligible_ledger_rows) request.(dr_eligible_digest)
  end.

Record VerifiedChain : Type := mkChain {
  vc_approver_entry : uuid * ApproverRegisterEntry;
  vc_authorizer_entry : option (uuid * ApproverRegisterEntry);
  vc_scope : ScopeState;
}.

(** [any(_holds_authority(...))], left to right. *)
Fixpoint any_holds_authority (p : platform_store) (parties : list uuid) : result grant_error bool :=
  match parties with
  | [] => Ok false
  | u :: rest =>
      let* holds := from_platform (platform_can p u P_AUTHORITY_MANAGE) in
      if (holds : bool) then Ok true else any_holds_authority p rest
  end.
Definition refuse_r {A : Type} (code : string) : result grant_error A := Raise (LedgerApprovalRefusedError code).
Definition refuse_r_if (b : bool) (code : string) : result grant_error unit := if b then refuse_r code else Ok tt.

Definition verify_deletion_chain (s : grant_store) (request : LedgerDeletionRequest) (approver : uuid) (authorizer : option uuid)
    (at_ : datetime) (approval : option LedgerDeletionApproval) : result grant_error VerifiedChain :=
  let p := gs_platform s in
  let requester := request.(dr_requested_by_user_id) in
  let others := match authorizer with Some u => [u] | None => [] end in
  let* authority := any_holds_authority p ([requester; approver] ++ others) in
  let* _ := refuse_r_if authority "party_holds_authority_manage" in
  let* _ := refuse_r_if (bool_decide (approver = requester)) "approver_is_requester" in
  let* _ := refuse_r_if (bool_decide (authorizer = Some approver)) "authorizer_is_approver" in
  let* authorized := match authorizer with Some _ => from_platform (platform_can p approver P_SECURITY_RETENTION_REPORT) | None => Ok true end in
  let* _ := refuse_r_if (negb authorized) "approval_no_longer_authorized" in
  match eligible_enrolment s.(gs_register) approver at_ with
  | None => refuse_r "approver_not_eligible"
  | Some approver_entry =>
      let* authorizer_entry :=
        match authorizer with
        | None => Ok None
        | Some u =>
            match eligible_enrolment s.(gs_register) u at_ with
            | None => refuse_r "authorizer_not_eligible"
            | Some e =>
                if bool_decide (e.2.(ar_natural_person_ref) = approver_entry.2.(ar_natural_person_ref))
                then refuse_r "same_natural_person" else Ok (Some e)
            end
        end in
      let* _ := refuse_r_if (provenance_linked p approver requester) "approver_linked_to_requester" in
      let* _ := refuse_r_if (existsb (λ u, provenance_linked p u approver) others) "authorizer_linked_to_approver" in
      let releases := releases_in_scope s request.(dr_tenant_ids) in
      let* _ := refuse_r_if releases.(rl_unauthenticated) "unauthenticated_release_in_scope" in
      let* _ := refuse_r_if (bool_decide (approver ∈ releases.(rl_authenticated_releasers))) "approver_released_hold" in
      let* _ := refuse_r_if (existsb (λ u, bool_decide (u ∈ releases.(rl_authenticated_releasers))) others) "authorizer_released_hold" in
      let* _ := refuse_r_if (existsb (λ u, holds_platform_permission p u P_SECURITY_RETENTION_HOLD_MANAGE) (approver :: others))
                  "party_holds_hold_manage" in
      let* state := scope_state s request.(dr_tenant_ids) at_ in
      let* _ := refuse_r_if (negb (bool_decide (state.(sc_not_eligible) = []))) "scope_not_eligible" in
      let bound := bound_of request approval in
      if negb (total_rows state.(sc_rows) =? bound.(bs_eligible_ledger_rows)) ||
         negb (bool_decide (eligible_ledger_digest state.(sc_rows) = bound.(bs_eligible_digest))) ||
         negb (bool_decide (scope_digest request.(dr_tenant_ids) = bound.(bs_scope_digest))) ||
         negb (bool_decide (bound.(bs_tenant_ids) = request.(dr_tenant_ids)))
      then Raise LedgerExpiryConfirmationMismatchError
      else Ok (mkChain approver_entry authorizer_entry state)
  end.

(** ** The tables of requests, approvals and authorizations *)

Definition user_row_missing (s : grant_store) (u : uuid) : bool := bool_decide ((gs_platform s).(ps_users) !! u = None).

(** [pgl_request_before_insert] and the constraints of the table. *)
Definition insert_request (id : uuid) (r : LedgerDeletionRequest) : GM LedgerDeletionRequest :=
  λ s, let r' := mkRequest r.(dr_tenant_ids) r.(dr_scope_digest) r.(dr_eligible_ledger_rows) r.(dr_eligible_digest)
                   r.(dr_requested_by_user_id) row_time (row_time + REQUEST_VALIDITY) r.(dr_requested_by_platform_audit_id) in
       if negb (bool_decide (r.(dr_tenant_ids) = sorted_ids (fromkeys r.(dr_tenant_ids)))) ||
          negb (bool_decide (r.(dr_scope_digest) = scope_digest r.(dr_tenant_ids))) ||
          bool_decide (is_Some (s.(gs_requests) !! id)) || bool_decide (r.(dr_tenant_ids) = []) ||
          bool_decide (MAX_REPORT_TENANTS < length r.(dr_tenant_ids))%nat || negb (is_digest r.(dr_scope_digest)) ||
          negb (is_digest r.(dr_eligible_digest)) || (r.(dr_eligible_ledger_rows) <=? 0) ||
          user_row_missing s r.(dr_requested_by_user_id) ||
          exists_row s.(gs_requests) (λ x, bool_decide (x.(dr_requested_by_platform_audit_id) = r.(dr_requested_by_platform_audit_id)))
       then (Raise GIntegrityError, s) else (Ok r', put_requests (<[id := r']> s.(gs_requests)) s).

(** [pgl_approval_before_insert] and the constraints of the table. *)
Definition insert_approval (id : uuid) (a : LedgerDeletionApproval) : GM LedgerDeletionApproval :=
  λ s, match s.(gs_requests) !! a.(da_request_id) with
       | None => (Raise GIntegrityError, s)
       | Some request =>
           let a' := mkApproval a.(da_request_id) a.(da_tenant_ids) a.(da_scope_digest) a.(da_eligible_ledger_rows) a.(da_eligible_digest)
                       a.(da_approved_by_user_id) row_time (row_time + APPROVAL_VALIDITY) a.(da_approved_by_platform_audit_id) open_record in
           if (request.(dr_expires_at) <=? row_time) || negb (bool_decide (a.(da_tenant_ids) = request.(dr_tenant_ids))) ||
              negb (bool_decide (a.(da_scope_digest) = request.(dr_scope_digest))) ||
              negb (a.(da_eligible_ledger_rows) =? request.(dr_eligible_ledger_rows)) ||
              negb (bool_decide (a.(da_eligible_digest) = request.(dr_eligible_digest))) ||
              bool_decide (a.(da_approved_by_user_id) = request.(dr_requested_by_user_id)) ||
              bool_decide (is_Some (s.(gs_approvals) !! id)) || user_row_missing s a.(da_approved_by_user_id) ||
              exists_row s.(gs_approvals) (λ x, bool_decide (x.(da_request_id) = a.(da_request_id)) ||
                bool_decide (x.(da_approved_by_platform_audit_id) = a.(da_approved_by_platform_audit_id)))
           then (Raise GIntegrityError, s) else (Ok a', put_approvals (<[id := a']> s.(gs_approvals)) s)
       end.

(** [pgl_authorization_before_insert] and the constraints of the table. *)
Definition insert_authorization (id : uuid) (x : LedgerExecutionAuthorization) : GM LedgerExecutionAuthorization :=
  λ s, match s.(gs_approvals) !! x.(ea_approval_id) with
       | None => (Raise GIntegrityError, s)
       | Some a =>
           let x' := mkAuthorization x.(ea_approval_id) x.(ea_authorized_by_user_id) row_time
                       (Z.min (row_time + EXECUTION_AUTHORIZATION_VALIDITY) a.(da_expires_at)) x.(ea_authorized_by_platform_audit_id) open_record in
           if (a.(da_expires_at) <=? row_time) || negb (is_open a.(da_final)) ||
              bool_decide (x.(ea_authorized_by_user_id) = a.(da_approved_by_user_id)) ||
              bool_decide (is_Some (s.(gs_authorizations) !! id)) || user_row_missing s x.(ea_authorized_by_user_id) ||
              exists_row s.(gs_authorizations) (λ y, bool_decide (y.(ea_authorized_by_platform_audit_id) = x.(ea_authorized_by_platform_audit_id)))
           then (Raise GIntegrityError, s) else (Ok x', put_authorizations (<[id := x']> s.(gs_authorizations)) s)
       end.

(** ** The operations *)

Record DeletionRequestView : Type := mkRequestView {
  rq_id : uuid;
  rq_request : LedgerDeletionRequest;
  rq_state : request_state;
  rq_approval : option (uuid * LedgerDeletionApproval);
  rq_replay : bool;
}.
Definition request_view (id : uuid) (r : LedgerDeletionRequest) (a : option (uuid * LedgerDeletionApproval)) (at_ : datetime) (replay : bool) :
    DeletionRequestView :=
  mkRequestView id r (state_of_request r (snd <$> a) at_) a replay.

(** [_live_requests]: the pending and approved requests whose scope overlaps. *)
Fixpoint live_among (s : grant_store) (l : list (uuid * LedgerDeletionRequest)) :
    result grant_error (list (uuid * LedgerDeletionRequest * option (uuid * LedgerDeletionApproval))) :=
  match l with
  | [] => Ok []
  | r :: rest =>
      let* a := approval_of s r.1 in
      let* others := live_among s rest in
      Ok (if bool_decide (state_of_request r.2 (snd <$> a) wall ∈ [RQ_PENDING; RQ_APPROVED]) then (r, a) :: others else others)
  end.
Definition live_requests (s : grant_store) (scope : list uuid) :
    result grant_error (list (uuid * LedgerDeletionRequest * option (uuid * LedgerDeletionApproval))) :=
  live_among s (List.filter (λ r : uuid * LedgerDeletionRequest, existsb (λ t, bool_decide (t ∈ scope)) r.2.(dr_tenant_ids)) (map_to_list s.(gs_requests))).

(** [_audit] under the id of the row, or with one of its own. *)
Definition audit_request (u : uuid) (op : operation) (request_id : uuid) (reason : pystr) (session_id : uuid) (entry_id : uuid) : GM unit :=
  record_act now (UserCaller u) op (request_target (Some request_id)) None reason (verified_metadata session_id) entry_id.
Definition audit_replay (u : uuid) (op : operation) (request_id : uuid) (reason : pystr) (session_id : uuid) : GM unit :=
  record_new_act uuid4 now (UserCaller u) op (request_target (Some request_id)) None reason (verified_metadata session_id).

Definition request_permission_grant_ledger_deletion (c : caller) (evidence : option PlatformSessionEvidence) (tenant_ids : list uuid)
    (eligible_ledger_rows : Z) (eligible_digest reason : pystr) : GM DeletionRequestView :=
  let op := PERMISSION_GRANT_LEDGER_DELETION_REQUEST in
  refusals_recorded retention_or_platform c op (request_target None)
    (do* scope := lift (canonical_scope tenant_ids) in
     do* rows := lift (validated_count eligible_ledger_rows) in
     do* digest := lift (validated_digest eligible_digest) in
     do* reason := valid_reason reason in
     platform_session c op
       (do* u := require_user_caller op c in
        do* session_id := verify_session now c evidence false in
        do* s := get in
        do* authority := lift (from_platform (platform_can (gs_platform s) u P_AUTHORITY_MANAGE)) in
        do* _ := refuse_if authority "party_holds_authority_manage" in
        do* live := lift (live_requests s scope) in
        match live with
        | (existing, approval) :: others =>
            if bool_decide (others = []) && bool_decide (existing.2.(dr_requested_by_user_id) = u) &&
               bool_decide (existing.2.(dr_tenant_ids) = scope) && (existing.2.(dr_eligible_ledger_rows) =? rows) &&
               bool_decide (existing.2.(dr_eligible_digest) = digest) &&
               same_act s existing.2.(dr_requested_by_platform_audit_id) u reason (action_of op)
            then
              do* _ := audit_replay u op existing.1 reason session_id in
              ret (request_view existing.1 existing.2 approval wall true)
            else refuse "overlapping_request"
        | [] =>
            do* _ := refuse_if (releases_in_scope s scope).(rl_unauthenticated) "unauthenticated_release_in_scope" in
            do* state := lift (scope_state s scope wall) in
            do* _ := refuse_if (negb (bool_decide (state.(sc_not_eligible) = []))) "scope_not_eligible" in
            if negb (total_rows state.(sc_rows) =? rows) || negb (bool_decide (eligible_ledger_digest state.(sc_rows) = digest))
            then throw LedgerExpiryConfirmationMismatchError
            else
              do* audit_id := gdraw uuid4 in
              do* id := gdraw uuid4 in
              do* request := insert_request id (mkRequest scope (scope_digest scope) rows digest u wall wall audit_id) in
              do* _ := audit_request u op id reason session_id audit_id in
              do* _ := require_audit_row now audit_id (Some u) [op] in
              ret (request_view id request None wall false)
        end)).

(** [_request_for] *)
Definition request_for (request_id : uuid) : GM LedgerDeletionRequest :=
  λ s, match s.(gs_requests) !! request_id with
       | Some r => (Ok r, s)
       | None => (Raise (LedgerApprovalRecordNotFoundError "request_not_found"), s)
       end.

Definition approve_permission_grant_ledger_deletion (request_id : uuid) (c : caller) (evidence : option PlatformSessionEvidence)
    (eligible_ledger_rows : Z) (eligible_digest reason : pystr) : GM DeletionRequestView :=
  let op := PERMISSION_GRANT_LEDGER_DELETION_APPROVE in
  refusals_recorded retention_or_platform c op (request_target (Some request_id))
    (do* rows := lift (validated_count eligible_ledger_rows) in
     do* digest := lift (validated_digest eligible_digest) in
     do* reason := valid_reason reason in
     platform_session c op
       (do* u := require_user_caller op c in
        do* session_id := verify_session now c evidence true in
        do* request := request_for request_id in
        do* s := get in
        do* approval := lift (approval_of s request_id) in
        match approval with
        | Some a =>
            if bool_decide (a.2.(da_approved_by_user_id) = u) && bool_decide (state_of_request request (Some a.2) wall = RQ_APPROVED) &&
               (a.2.(da_eligible_ledger_rows) =? rows) && bool_decide (a.2.(da_eligible_digest) = digest) &&
               same_act s a.2.(da_approved_by_platform_audit_id) u reason (action_of op)
            then
              do* _ := lift (verify_deletion_chain s request u None wall (Some a.2)) in
              do* _ := audit_replay u op request_id reason session_id in
              ret (request_view request_id request (Some a) wall true)
            else refuse "request_already_approved"
        | None =>
            do* _ := refuse_if (request.(dr_expires_at) <=? wall) "request_expired" in
            if negb (rows =? request.(dr_eligible_ledger_rows)) || negb (bool_decide (digest = request.(dr_eligible_digest)))
            then throw LedgerExpiryConfirmationMismatchError
            else
              do* _ := lift (verify_deletion_chain s request u None wall None) in
              do* audit_id := gdraw uuid4 in
              do* id := gdraw uuid4 in
              do* a := insert_approval id (mkApproval request_id request.(dr_tenant_ids) request.(dr_scope_digest)
                         request.(dr_eligible_ledger_rows) request.(dr_eligible_digest) u wall wall audit_id open_record) in
              do* _ := audit_request u op request_id reason session_id audit_id in
              do* _ := require_audit_row now audit_id (Some u) [op] in
              ret (request_view request_id request (Some (id, a)) wall false)
        end)).

Record ExecutionAuthorizationView : Type := mkAuthorizationView { av_id : uuid; av_authorization : LedgerExecutionAuthorization; av_replay : bool }.
Definition is_live_authorization (approval_id : uuid) (x : LedgerExecutionAuthorization) : bool :=
  bool_decide (x.(ea_approval_id) = approval_id) && is_open x.(ea_final) && (wall <? x.(ea_expires_at)).

Definition authorize_permission_grant_ledger_deletion_execution (request_id : uuid) (c : caller) (evidence : option PlatformSessionEvidence)
    (reason : pystr) : GM ExecutionAuthorizationView :=
  let op := PERMISSION_GRANT_LEDGER_DELETION_EXECUTION_AUTHORIZE in
  refusals_recorded retention_or_platform c op (request_target (Some request_id))
    (do* reason := valid_reason reason in
     platform_session c op
       (do* u := require_user_caller op c in
        do* session_id := verify_session now c evidence true in
        do* request := request_for request_id in
        do* s := get in
        do* found := lift (approval_of s request_id) in
        match found with
        | None => refuse "approval_missing"
        | Some (approval_id, a) =>
            match approval_refusal a wall with
            | Some code => refuse code
            | None =>
                do* chain := lift (verify_deletion_chain s request a.(da_approved_by_user_id) (Some u) wall (Some a)) in
                match List.find (λ x : uuid * LedgerExecutionAuthorization,
                        is_live_authorization approval_id x.2 && bool_decide (x.2.(ea_authorized_by_user_id) = u) &&
                        same_act s x.2.(ea_authorized_by_platform_audit_id) u reason (action_of op)) (map_to_list s.(gs_authorizations)) with
                | Some x =>
                    do* _ := audit_replay u op request_id reason session_id in
                    ret (mkAuthorizationView x.1 x.2 true)
                | None =>
                    do* _ := refuse_if (exists_row s.(gs_authorizations) (is_live_authorization approval_id)) "execution_already_authorized" in
                    match chain.(vc_authorizer_entry) with
                    | None => throw GAssertionError
                    | Some _ =>
                        do* audit_id := gdraw uuid4 in
                        do* id := gdraw uuid4 in
                        do* x := insert_authorization id (mkAuthorization approval_id u wall wall audit_id open_record) in
                        do* _ := audit_request u op request_id reason session_id audit_id in
                        do* _ := require_audit_row now audit_id (Some u) [op] in
                        ret (mkAuthorizationView id x false)
                    end
                end
            end
        end)).

(** ** expiry.py *)

Record ExpiredLedgerTenant : Type := mkExpired {
  xt_tenant_id : uuid;
  xt_ledger_rows : nat;
  xt_purged_at : datetime;
  xt_expires_at : datetime;
}.

(** The scope of a report or an expiry run. *)
Definition report_scope (tenant_ids : list uuid) (all_purged : bool) (start : option uuid) (limit : Z) : result grant_error (option (list uuid)) :=
  if Bool.eqb all_purged (negb (bool_decide (tenant_ids = [])))
  then Raise (InvalidLedgerRetentionRequestError "Name the tenants or all_purged, not both.")
  else if negb ((0 <? limit) && (limit <=? Z.of_nat MAX_REPORT_TENANTS))
  then Raise (InvalidLedgerRetentionRequestError "limit must be an int from 1 to 1000.")
  else if present start && negb all_purged
  then Raise (InvalidLedgerRetentionRequestError "after is a uuid.UUID, with all_purged only.")
  else if all_purged then Ok None
  else
    let named := fromkeys tenant_ids in
    if bool_decide (MAX_REPORT_TENANTS < length named)%nat
    then Raise (InvalidLedgerRetentionRequestError "At most 1000 named tenants; use all_purged.") else Ok (Some named).

(** [_purged_tenants] *)
Definition purged_tenants (s : grant_store) (start : option uuid) (limit : nat) : list uuid * bool :=
  let ids := sorted_ids (List.filter (λ t : uuid * Tenant,
               bool_decide (t.2.(t_status) = PURGED) && match start with Some a => (a <? t.1)%N | None => true end)
               (map_to_list s.(gs_tenancy).(ts_tenants))).*1 in
  (take limit ids, bool_decide (limit < length ids)%nat).

(** [_confirmation] *)
Definition confirmation (apply : bool) (confirm_rows : option Z) (confirm_digest : option pystr) : result grant_error unit :=
  if negb apply then
    if present confirm_rows || present confirm_digest then Raise (InvalidLedgerRetentionRequestError "A confirmation goes with apply only.")
    else Ok tt
  else match confirm_rows, confirm_digest with
       | Some n, Some d =>
           if n <? 1 then Raise (InvalidLedgerRetentionRequestError "apply needs confirm_rows")
           else if is_digest d then Ok tt else Raise (InvalidLedgerRetentionRequestError "apply needs confirm_digest")
       | None, _ => Raise (InvalidLedgerRetentionRequestError "apply needs confirm_rows")
       | Some n, None => Raise (InvalidLedgerRetentionRequestError "apply needs confirm_digest")
       end.

(** [_decide]: the eligible tenants with rows, and the statuses of the others. *)
Fixpoint decide_expiry (s : grant_store) (targets : list uuid) (at_ : datetime) :
    result grant_error (list (ExpiredLedgerTenant * list uuid) * list RetentionStatus) :=
  match targets with
  | [] => Ok ([], [])
  | t :: rest =>
      let* decision := decide_tenant s t at_ in
      let* found := decide_expiry s rest at_ in
      if negb (decision_eligible decision) then Ok (found.1, decision.(rd_status) :: found.2)
      else match decision.(rd_purged_at), decision.(rd_expires_at) with
           | Some purged, Some expires =>
               let ids := ledger_row_ids s t in
               Ok (if bool_decide (ids = []) then found else ((mkExpired t (length ids) purged expires, ids) :: found.1, found.2))
           | _, _ => Raise GAssertionError
           end
  end.

Record LedgerExpiryResult : Type := mkExpiry {
  ex_eligible : list ExpiredLedgerTenant;
  ex_eligible_ledger_rows : Z;
  ex_eligible_digest : pystr;
  ex_not_eligible : list RetentionStatus;
  ex_more : bool;
}.

(** The two applying branches raise: this function reports only. *)
Definition expire_permission_grant_ledger_rows (c : caller) (reason : pystr) (tenant_ids : list uuid) (all_purged : bool)
    (start : option uuid) (limit : Z) (apply : bool) (confirm_rows : option Z) (confirm_digest : option pystr) : GM LedgerExpiryResult :=
  let op := PERMISSION_GRANT_LEDGER_EXPIRED_DELETE in
  refusals_recorded retention_or_platform c op (ledger_target None)
    (do* named := lift (report_scope tenant_ids all_purged start limit) in
     do* _ := lift (confirmation apply confirm_rows confirm_digest) in
     do* _ := valid_reason reason in
     if apply && negb deletion_enabled then throw LedgerDeletionDisabledError
     else if apply then throw (InvalidLedgerRetentionRequestError "apply needs an execution authorisation")
     else
       platform_session c op
         (do* s := get in
          let '(targets, more) := match named with None => purged_tenants s start (Z.to_nat limit) | Some l => (l, false) end in
          do* found := lift (decide_expiry s targets now) in
          let rows := (λ x : ExpiredLedgerTenant * list uuid, (x.1.(xt_tenant_id), x.2)) <$> found.1 in
          ret (mkExpiry (fst <$> found.1) (total_rows rows) (eligible_ledger_digest rows) found.2 more))).

(** [permission_grant_ledger_retention_report] *)
Record TenantLedgerRetention : Type := mkRetention {
  lr_tenant_id : uuid;
  lr_decision : RetentionDecision;
  lr_row_ids : list uuid;
  lr_active_holds : nat;
}.
Fixpoint retention_rows (s : grant_store) (targets : list uuid) (at_ : datetime) : result grant_error (list TenantLedgerRetention) :=
  match targets with
  | [] => Ok []
  | t :: rest =>
      let* decision := decide_tenant s t at_ in
      let* others := retention_rows s rest at_ in
      Ok (match tenant_status s t with
          | Some _ => mkRetention t decision (ledger_row_ids s t) (active_holds s t)
          | None => mkRetention t decision [] 0
          end :: others)
  end.
Definition eligible_rows (l : list TenantLedgerRetention) : scope_rows :=
  (λ r, (r.(lr_tenant_id), r.(lr_row_ids))) <$>
    List.filter (λ r, decision_eligible r.(lr_decision) && negb (bool_decide (r.(lr_row_ids) = []))) l.
Definition permission_grant_ledger_retention_report (c : caller) (reason : pystr) (tenant_ids : list uuid) (all_purged : bool)
    (start : option uuid) (limit : Z) (as_of : option datetime) : GM (list TenantLedgerRetention * bool * pystr) :=
  let op := PERMISSION_GRANT_LEDGER_RETENTION_REPORT in
  refusals_recorded retention_or_platform c op (ledger_target None)
    (do* named := lift (report_scope tenant_ids all_purged start limit) in
     do* reason := valid_reason reason in
     platform_session c op
       (do* s := get in
        let decided_at := match as_of with Some t => t | None => now end in
        let '(targets, more) := match named with None => purged_tenants s start (Z.to_nat limit) | Some l => (l, false) end in
        do* tenants := lift (retention_rows s targets decided_at) in
        do* _ := record_new_act uuid4 now c op (ledger_target None)
                   (match named, tenants with
                    | Some [t], r :: _ => if bool_decide (r.(lr_decision).(rd_status) = RS_TENANT_NOT_FOUND) then None else Some t
                    | _, _ => None
                    end) reason [] in
        ret (tenants, more, eligible_ledger_digest (eligible_rows tenants)))).

(** ** The execution *)

Record AuthorizedLedgerDeletionResult : Type := mkDeletion {
  dl_applied : bool;
  dl_execution_authorization_id : uuid;
  dl_approval_id : uuid;
  dl_request_id : uuid;
  dl_tenants : list ExpiredLedgerTenant;
  dl_audit_id : uuid;
}.

(** What each tenant of the scope reports. *)
Fixpoint expired_tenants (s : grant_store) (rows : scope_rows) (at_ : datetime) : result grant_error (list ExpiredLedgerTenant) :=
  match rows with
  | [] => Ok []
  | (t, ids) :: rest =>
      let* decision := retention_eligibility (tenant_status s t) (tenant_purge_completion_times s t) (active_holds s t) at_ in
      match decision.(rd_purged_at), decision.(rd_expires_at) with
      | Some purged, Some expires => let* others := expired_tenants s rest at_ in Ok (mkExpired t (length ids) purged expires :: others)
      | _, _ => Raise GAssertionError
      end
  end.

(** DELETE ... RETURNING of a tenant's rows; all of them, or the run fails. *)
Definition delete_rows (t : uuid) (ids : list uuid) : GM unit :=
  λ s, let deleted := List.filter (λ i, match s.(gs_ledger) !! i with Some a => bool_decide (a.(ga_tenant_id) = t) | None => false end)
                        (fromkeys ids) in
       if bool_decide (sorted_ids deleted = sorted_ids ids) then (Ok tt, put_ledger (foldr delete s.(gs_ledger) deleted) s)
       else (Raise GRuntimeError, s).
Fixpoint delete_scope (rows : scope_rows) : GM unit :=
  match rows with [] => ret tt | (t, ids) :: rest => do* _ := delete_rows t ids in delete_scope rest end.
Fixpoint record_tenants (u : uuid) (reason : pystr) (tenants : list ExpiredLedgerTenant) : GM unit :=
  match tenants with
  | [] => ret tt
  | t :: rest =>
      do* _ := record_new_act uuid4 now (UserCaller u) PERMISSION_GRANT_LEDGER_EXPIRED_DELETE (ledger_target (Some t.(xt_tenant_id)))
                 (Some t.(xt_tenant_id)) reason [] in
      record_tenants u reason rest
  end.

(** The approval and the authorization are consumed by the run's audit row. *)
Definition consume (approval_id authorization_id consume_id : uuid) : GM unit :=
  λ s, let new := mkFinal (Some wall) (Some consume_id) None None in
       match s.(gs_approvals) !! approval_id ≫= end_approval row_time new,
             s.(gs_authorizations) !! authorization_id ≫= end_authorization row_time new with
       | Some a, Some x =>
           if exists_row s.(gs_approvals) (λ y, bool_decide (y.(da_final).(fin_consumed_by) = Some consume_id)) ||
              exists_row s.(gs_authorizations) (λ y, bool_decide (y.(ea_approval_id) = x.(ea_approval_id)) && present y.(ea_final).(fin_consumed_at))
           then (Raise GIntegrityError, s)
           else (Ok tt, put_authorizations (<[authorization_id := x]> s.(gs_authorizations)) (put_approvals (<[approval_id := a]> s.(gs_approvals)) s))
       | _, _ => (Raise GIntegrityError, s)
       end.

Definition authorization_refusal (x : LedgerExecutionAuthorization) (at_ : datetime) : option string :=
  if present x.(ea_final).(fin_consumed_at) then Some "execution_authorization_consumed"
  else if present x.(ea_final).(fin_invalidated_at) then Some "execution_authorization_invalidated"
  else if x.(ea_expires_at) <=? at_ then Some "execution_authorization_expired" else None.

(** The refusals of the execution are recorded for the author of the authorization, if there is one. *)
Definition execution_refusals {A : Type} (authorization_id : uuid) (m : GM A) : GM A :=
  λ s, match m s with
       | (Raise e, s') =>
           match retention_or_platform e, s'.(gs_authorizations) !! authorization_id with
           | Some code, Some x =>
               (Raise e, record_refusal (UserCaller x.(ea_authorized_by_user_id)) PERMISSION_GRANT_LEDGER_EXPIRED_DELETE (ledger_target None) code s')
           | _, _ => (Raise e, s')
           end
       | ok => ok
       end.

(** The transaction of the database owner ([migrations_role_session_scope]). *)
Definition execute_body (authorization_id : uuid) (reason : pystr) (apply : bool) : GM AuthorizedLedgerDeletionResult :=
  let op := PERMISSION_GRANT_LEDGER_EXPIRED_DELETE in
  do* s := get in
  match s.(gs_authorizations) !! authorization_id with
  | None => throw (LedgerApprovalRecordNotFoundError "execution_authorization_not_found")
  | Some x =>
      match s.(gs_approvals) !! x.(ea_approval_id) with
      | None => throw GAssertionError
      | Some a =>
          match s.(gs_requests) !! a.(da_request_id) with
          | None => throw GAssertionError
          | Some request =>
              let u := x.(ea_authorized_by_user_id) in
              match authorization_refusal x wall, approval_refusal a wall with
              | Some code, _ | None, Some code => refuse code
              | None, None =>
                  do* _ := on_platform (λ p, (authorize_platform_caller p (UserCaller u) op, p)) in
                  do* chain := lift (verify_deletion_chain s request a.(da_approved_by_user_id) (Some u) wall (Some a)) in
                  do* tenants := lift (expired_tenants s chain.(vc_scope).(sc_rows) wall) in
                  if negb apply then
                    do* verify_id := gdraw uuid4 in
                    do* _ := record_act now (UserCaller u) op (ledger_target None) None reason [] verify_id in
                    ret (mkDeletion false authorization_id x.(ea_approval_id) a.(da_request_id) tenants verify_id)
                  else
                    do* _ := delete_scope chain.(vc_scope).(sc_rows) in
                    do* run_id := gdraw uuid4 in
                    do* _ := record_act now (UserCaller u) op (ledger_target None) None reason [] run_id in
                    do* _ := record_tenants u reason tenants in
                    do* consume_id := gdraw uuid4 in
                    do* _ := record_act now (UserCaller u) op
                               (TargetOther "permission_grant_ledger_deletion_approval" (Some (id_text x.(ea_approval_id)))) None reason [] consume_id in
                    do* _ := consume x.(ea_approval_id) authorization_id consume_id in
                    do* _ := require_audit_row now consume_id None [op] in
                    ret (mkDeletion true authorization_id x.(ea_approval_id) a.(da_request_id) tenants consume_id)
              end
          end
      end
  end.

Definition execute_authorized_permission_grant_ledger_deletion (authorization_id : uuid) (reason : pystr) (apply : bool) :
    GM AuthorizedLedgerDeletionResult :=
  execution_refusals authorization_id
    (do* reason := valid_reason reason in
     if apply && negb deletion_enabled then throw LedgerDeletionDisabledError
     else transaction (execute_body authorization_id reason apply)).
End Approval.

(** expiry.py: [_DELETION_ENABLED] *)
Definition DELETION_ENABLED : bool := false.
