(* ===== verification/GrantProofs.v ===== *)
(** * Permission grants: what the operations may change

    Every operation of the component changes its six tables only through the
    table operations of [GrantApply], [GrantRegister] and [GrantApproval].
    [TableSteps R] states that each of them stays within a preorder [R] on
    stores; the history lemmas below are proved against it, once, and each
    property supplies its own instance. *)

From S2P Require Import Prelude StoreLogic PyStr PyTime TenantLifecycle PlatformAuthority PlatformService TenantHierarchy RbacDecision RbacService Identity OutboxModel Webhooks GrantModel GrantApply GrantRegister GrantApproval.

(** The tables of the component. *)
Definition tables (s : grant_store) :=
  (s.(gs_ledger), s.(gs_holds), s.(gs_register), s.(gs_requests), s.(gs_approvals), s.(gs_authorizations)).

(** ** Commands *)

Record times : Type := mkTimes { tm_now : datetime; tm_wall : datetime; tm_row : datetime }.

Inductive gcommand : Type :=
| GApply (migrations : list PermissionGrantMigration) (namespace : pystr) (c : caller) (reason : pystr) (tenant_ids : list uuid) (all_tenants apply : bool)
| GPropose (subject : uuid) (c : caller) (evidence : option PlatformSessionEvidence) (designation_ref ticket_ref : pystr) (valid_until : datetime) (reason : pystr)
| GConfirm (subject proposal_id : uuid) (c : caller) (evidence : option PlatformSessionEvidence) (ticket_ref reason : pystr)
| GEnrol (subject : uuid) (c : caller) (evidence : option PlatformSessionEvidence) (person verification authorisation ticket_ref : pystr) (valid_until : datetime) (reason : pystr) (renews : option uuid)
| GRevoke (subject entry_id : uuid) (op : operation) (c : caller) (evidence : option PlatformSessionEvidence) (ticket_ref reason : pystr)
| GPlaceHold (tenant_id : uuid) (reference : pystr) (c : caller) (reason : pystr) (evidence : option PlatformSessionEvidence)
| GReleaseHold (hold_id : uuid) (c : caller) (reason : pystr) (evidence : option PlatformSessionEvidence)
| GRequest (c : caller) (evidence : option PlatformSessionEvidence) (tenant_ids : list uuid) (rows : Z) (digest reason : pystr)
| GApprove (request_id : uuid) (c : caller) (evidence : option PlatformSessionEvidence) (rows : Z) (digest reason : pystr)
| GAuthorize (request_id : uuid) (c : caller) (evidence : option PlatformSessionEvidence) (reason : pystr)
| GExpire (c : caller) (reason : pystr) (tenant_ids : list uuid) (all_purged : bool) (start : option uuid) (limit : Z) (apply : bool) (confirm_rows : option Z) (confirm_digest : option pystr)
| GReport (c : caller) (reason : pystr) (tenant_ids : list uuid) (all_purged : bool) (start : option uuid) (limit : Z) (as_of : option datetime)
| GExecute (authorization_id : uuid) (reason : pystr) (apply : bool)
| GElsewhere (tenancy : tenancy_store) (rbac : rbac_store) (sessions : gmap uuid Session) (acts : gmap uuid AuditActRecord).

(** What the other components do: the registry, the platform authority, the
    RBAC tables and the sessions change in any way, and audit rows are added. *)
Definition elsewhere (tenancy : tenancy_store) (rbac : rbac_store) (sessions : gmap uuid Session) (acts : gmap uuid AuditActRecord) (s : grant_store) :
    grant_store :=
  mkGrantStore tenancy rbac sessions (s.(gs_acts) ∪ acts) s.(gs_ledger) s.(gs_holds) s.(gs_register) s.(gs_requests) s.(gs_approvals)
    s.(gs_authorizations) s.(gs_drawn).

Section Commands.
Context (uuid4 : nat → uuid) (created_at : uuid → datetime) (sha256_hex : pystr → pystr) (deletion_enabled : bool).

Definition gexec (tc : times * gcommand) (s : grant_store) : grant_store :=
  let '(mkTimes now wall row, cmd) := tc in
  match cmd with
  | GApply ms ns c reason ts all apply => (apply_permission_grant_migrations uuid4 created_at sha256_hex now ms ns c reason ts all apply s).2
  | GPropose subject c ev d t u reason => (propose_representative_designation uuid4 now subject c ev d t u reason s).2
  | GConfirm subject p c ev t reason => (confirm_representative_designation uuid4 now subject p c ev t reason s).2
  | GEnrol subject c ev p v a t u reason renews => (enrol_approver uuid4 now subject c ev p v a t u reason renews s).2
  | GRevoke subject e op c ev t reason => (revoke_register_entry uuid4 now row subject e op c ev t reason s).2
  | GPlaceHold t ref c reason ev => (place_permission_grant_ledger_hold uuid4 now t ref c reason ev s).2
  | GReleaseHold h c reason ev => (release_permission_grant_ledger_hold uuid4 now h c reason ev s).2
  | GRequest c ev ts rows digest reason => (request_permission_grant_ledger_deletion uuid4 sha256_hex now wall row c ev ts rows digest reason s).2
  | GApprove r c ev rows digest reason => (approve_permission_grant_ledger_deletion uuid4 sha256_hex now wall row r c ev rows digest reason s).2
  | GAuthorize r c ev reason => (authorize_permission_grant_ledger_deletion_execution uuid4 sha256_hex now wall row r c ev reason s).2
  | GExpire c reason ts all start limit apply n d => (expire_permission_grant_ledger_rows sha256_hex deletion_enabled now c reason ts all start limit apply n d s).2
  | GReport c reason ts all start limit as_of => (permission_grant_ledger_retention_report uuid4 sha256_hex now c reason ts all start limit as_of s).2
  | GExecute a reason apply => (execute_authorized_permission_grant_ledger_deletion uuid4 sha256_hex deletion_enabled now wall row a reason apply s).2
  | GElsewhere t r se acts => elsewhere t r se acts s
  end.
Definition ghistory (cmds : list (times * gcommand)) (s : grant_store) : grant_store := foldl (λ s cmd, gexec cmd s) s cmds.
End Commands.

(** ** The interface *)

Class TableSteps (R : relation grant_store) : Prop := {
  table_preorder :: PreOrder R;
  table_quiet s s' : tables s = tables s' → R s s';
  table_application uuid4 row : keeps R (insert_application uuid4 row);
  table_entry now id e : keeps R (insert_entry now id e);
  table_invalidate now row us a : keeps R (invalidate now row us a);
  table_hold id h : keeps R (insert_hold id h);
  table_release now id h a : keeps R (release_hold now id h a);
  table_request sha row id r : keeps R (insert_request sha row id r);
  table_approval row id a : keeps R (insert_approval row id a);
  table_authorization row id x : keeps R (insert_authorization row id x);
}.
(** The two that only the execution of a deletion uses. *)
Class DeletionSteps (R : relation grant_store) : Prop := {
  deletion_rows t ids : keeps R (delete_rows t ids);
  deletion_consume wall row a x c : keeps R (consume wall row a x c);
}.

Create HintDb grants.

(** A computation that leaves the store alone, or the tables. *)
Definition reads {A : Type} (m : GM A) : Prop := ∀ s, (m s).2 = s.
Definition quiet {A : Type} (m : GM A) : Prop := ∀ s, tables (m s).2 = tables s.

Lemma reads_quiet {A} (m : GM A) : reads m → quiet m.
Proof. intros H s. by rewrite H. Qed.
Lemma refuse_if_reads b code : reads (refuse_if b code).
Proof. by destruct b. Qed.
Lemma refuse_holder_reads u p code : reads (refuse_holder u p code).
Proof. intros s. apply refuse_if_reads. Qed.
Lemma refuse_when_reads p code : reads (refuse_when p code).
Proof. intros s. apply refuse_if_reads. Qed.
Lemma subject_exists_reads u : reads (subject_exists u).
Proof. intros s. unfold subject_exists. by case_match. Qed.
Lemma get_entry_reads i t u : reads (get_entry i t u).
Proof. intros s. unfold get_entry. repeat case_match; done. Qed.
Lemma request_for_reads i : reads (request_for i).
Proof. intros s. unfold request_for. by case_match. Qed.
Lemma require_audit_row_reads now i a ops : reads (require_audit_row now i a ops).
Proof. intros s. unfold require_audit_row. by case_match. Qed.
Lemma verify_session_reads now c e b : reads (verify_session now c e b).
Proof. intros s. unfold verify_session, refuse, throw. repeat case_match; done. Qed.
Lemma on_platform_quiet {A} (m : PM A) : quiet (on_platform m).
Proof. intros s. unfold on_platform. by destruct (m (gs_platform s)). Qed.
Lemma on_rbac_quiet {A} (m : RM A) : quiet (on_rbac m).
Proof. intros s. unfold on_rbac. by destruct (m s.(gs_rbac)). Qed.
Lemma gdraw_quiet uuid4 : quiet (gdraw uuid4).
Proof. done. Qed.
Lemma record_act_quiet now c op t tt' reason md i : quiet (record_act now c op t tt' reason md i).
Proof.
  intros s. unfold record_act, bind. pose proof (on_platform_quiet (record_platform_event c (op_audit_action (platform_operation op)) t (Some reason)) s) as Hq.
  destruct (on_platform _ s) as [[|] s1]; [|done]. simpl in *. by case_match.
Qed.
Lemma valid_reason_reads reason : reads (valid_reason reason).
Proof. done. Qed.
Lemma require_user_reads op c : reads (require_user_caller op c).
Proof. by destruct c. Qed.
#[export] Hint Resolve refuse_if_reads refuse_holder_reads refuse_when_reads subject_exists_reads get_entry_reads request_for_reads
  require_audit_row_reads verify_session_reads valid_reason_reads require_user_reads : grants.
#[export] Hint Resolve on_platform_quiet on_rbac_quiet gdraw_quiet record_act_quiet : grants.

Section Interface.
Context (R : relation grant_store) `{!TableSteps R}.

Lemma keeps_quiet {A} (m : GM A) : quiet m → keeps R m.
Proof using Type*. intros H s. apply table_quiet. by rewrite H. Qed.
Lemma keeps_refusals {A} code c op t (m : GM A) : keeps R m → keeps R (refusals_recorded code c op t m).
Proof using Type*.
  intros H s. unfold refusals_recorded. specialize (H s). destruct (m s) as [[a|e] s'] eqn:E; [done|]. simpl in *.
  destruct (code e); [|done]. simpl. etrans; [done|]. by apply table_quiet.
Qed.
Lemma keeps_session {A} c op (m : GM A) : keeps R m → keeps R (platform_session c op m).
Proof using Type*.
  intros H. unfold platform_session. apply keeps_transaction; [apply _|]. apply keeps_commits, keeps_bind; [apply _| |done].
  apply keeps_quiet, on_platform_quiet.
Qed.
End Interface.

(** Follow an operation to its table operations. *)
Ltac quiet_step :=
  apply keeps_quiet; [apply _|]; first [solve [auto with grants nocore] | apply reads_quiet; solve [auto with grants nocore]].
Ltac table_step :=
  first [ apply table_application | apply table_entry | apply table_invalidate | apply table_hold | apply table_release
        | apply table_request | apply table_approval | apply table_authorization ].
Ltac grant_step :=
  cbv zeta;
  first [ table_step | quiet_step | apply keeps_refusals; [apply _|] | apply keeps_session; [apply _|] | keeps_step
        | apply keeps_read; apply _ ].
Ltac grant_steps := repeat grant_step.

Section Operations.
Context (R : relation grant_store) `{!TableSteps R}.
Context (uuid4 : nat → uuid) (created_at : uuid → datetime) (sha256_hex : pystr → pystr) (deletion_enabled : bool) (now wall row : datetime).

Lemma record_new_act_keeps c op t tt' reason md : keeps R (record_new_act uuid4 now c op t tt' reason md).
Proof using Type*. unfold record_new_act. grant_steps. Qed.
Lemma write_entry_keeps u op reason se id e : keeps R (write_entry now u op reason se id e).
Proof using Type*. unfold write_entry. grant_steps. Qed.
Lemma replay_entry_keeps u op reason se x : keeps R (replay_entry uuid4 now u op reason se x).
Proof using Type*. unfold replay_entry. keeps_step; [apply record_new_act_keeps|]. grant_steps. Qed.
Lemma audit_replay_keeps u op i reason se : keeps R (audit_replay uuid4 now u op i reason se).
Proof using Type*. apply record_new_act_keeps. Qed.
Lemma audit_request_keeps u op i reason se e : keeps R (audit_request now u op i reason se e).
Proof using Type*. unfold audit_request. grant_steps. Qed.
Lemma register_operation_keeps {A} op c ev check (body : pystr → uuid → uuid → GM A) :
  (∀ r u se, keeps R (body r u se)) → keeps R (register_operation now op c ev check body).
Proof using Type*. intros Hb. unfold register_operation. grant_steps. apply Hb. Qed.
Lemma record_tenants_keeps u reason ts : keeps R (record_tenants uuid4 now u reason ts).
Proof using Type*. induction ts as [|t ts IH]; simpl; [grant_steps|]. keeps_step; [apply record_new_act_keeps|apply IH]. Qed.

Ltac operation_steps :=
  repeat first [ apply record_new_act_keeps | apply write_entry_keeps | apply replay_entry_keeps | apply audit_replay_keeps
               | apply audit_request_keeps | apply record_tenants_keeps | grant_step ].

Lemma propose_keeps subject c ev d t u reason : keeps R (propose_representative_designation uuid4 now subject c ev d t u reason).
Proof using Type*. unfold propose_representative_designation. apply register_operation_keeps. intros. operation_steps. Qed.
Lemma confirm_keeps subject p c ev t reason : keeps R (confirm_representative_designation uuid4 now subject p c ev t reason).
Proof using Type*. unfold confirm_representative_designation. apply register_operation_keeps. intros. operation_steps. Qed.
Lemma enrol_keeps subject c ev p v a t u reason renews : keeps R (enrol_approver uuid4 now subject c ev p v a t u reason renews).
Proof using Type*. unfold enrol_approver. apply register_operation_keeps. intros. operation_steps. Qed.
Lemma revoke_keeps subject e op c ev t reason : keeps R (revoke_register_entry uuid4 now row subject e op c ev t reason).
Proof using Type*.
  unfold revoke_register_entry. destruct (revocation_kinds op) as [[]|]; [|operation_steps].
  apply register_operation_keeps. intros. operation_steps.
Qed.
Lemma place_hold_keeps t ref c reason ev : keeps R (place_permission_grant_ledger_hold uuid4 now t ref c reason ev).
Proof using Type*. unfold place_permission_grant_ledger_hold. operation_steps. Qed.
Lemma release_hold_keeps h c reason ev : keeps R (release_permission_grant_ledger_hold uuid4 now h c reason ev).
Proof using Type*. unfold release_permission_grant_ledger_hold. operation_steps. Qed.
Lemma request_keeps c ev ts rows digest reason : keeps R (request_permission_grant_ledger_deletion uuid4 sha256_hex now wall row c ev ts rows digest reason).
Proof using Type*. unfold request_permission_grant_ledger_deletion. operation_steps. Qed.
Lemma approve_keeps r c ev rows digest reason : keeps R (approve_permission_grant_ledger_deletion uuid4 sha256_hex now wall row r c ev rows digest reason).
Proof using Type*. unfold approve_permission_grant_ledger_deletion. operation_steps. Qed.
Lemma authorize_keeps r c ev reason : keeps R (authorize_permission_grant_ledger_deletion_execution uuid4 sha256_hex now wall row r c ev reason).
Proof using Type*. unfold authorize_permission_grant_ledger_deletion_execution. operation_steps. Qed.
Lemma expire_keeps c reason ts all start limit apply n d : keeps R (expire_permission_grant_ledger_rows sha256_hex deletion_enabled now c reason ts all start limit apply n d).
Proof using Type*. unfold expire_permission_grant_ledger_rows. operation_steps. Qed.
Lemma report_keeps c reason ts all start limit as_of : keeps R (permission_grant_ledger_retention_report uuid4 sha256_hex now c reason ts all start limit as_of).
Proof using Type*. unfold permission_grant_ledger_retention_report. operation_steps. Qed.

Lemma grant_pairs_keeps apply t role ids pairs : keeps R (grant_pairs uuid4 apply t role ids pairs).
Proof using Type*. induction pairs as [|p pairs IH]; simpl; operation_steps. apply IH. Qed.
Lemma apply_each_keeps t ns ids run ledger items k : keeps R (apply_each uuid4 now t ns ids run ledger items k).
Proof using Type*.
  revert k. induction items as [|i items IH]; intros k; simpl; [grant_steps|]. keeps_step; [|apply IH].
  unfold apply_one. operation_steps. apply grant_pairs_keeps.
Qed.
Lemma run_tenant_keeps t c ns validated ids run : keeps R (run_tenant uuid4 now t c ns validated ids run).
Proof using Type*.
  intros s. unfold run_tenant.
  match goal with |- context [refusals_recorded ?a ?b ?d ?e ?m s] => assert (keeps R (refusals_recorded a b d e m)) as Hk end.
  { operation_steps. unfold apply_in_tenant. operation_steps. apply apply_each_keeps. }
  specialize (Hk s). destruct (refusals_recorded _ _ _ _ _ s) as [[a|e] s']; [done|]. by case_match.
Qed.
Lemma run_each_keeps ts c ns validated ids run : keeps R (run_each uuid4 now ts c ns validated ids run).
Proof using Type*. induction ts as [|t ts IH]; simpl; [grant_steps|]. repeat (keeps_step; [first [apply run_tenant_keeps|apply IH]|]). grant_steps. Qed.
Lemma apply_keeps ms ns c reason ts all apply : keeps R (apply_permission_grant_migrations uuid4 created_at sha256_hex now ms ns c reason ts all apply).
Proof using Type*.
  unfold apply_permission_grant_migrations, start_run, finish_run. repeat first [apply run_each_keeps | progress operation_steps].
Qed.

Lemma execute_keeps a reason apply : apply && deletion_enabled = false ∨ DeletionSteps R →
  keeps R (execute_authorized_permission_grant_ledger_deletion uuid4 sha256_hex deletion_enabled now wall row a reason apply).
Proof using Type*.
  intros Hd. unfold execute_authorized_permission_grant_ledger_deletion. intros s.
  match goal with |- context [execution_refusals a ?m] => assert (keeps R m) as Hk end.
  { grant_step; [grant_step|]. destruct (apply && negb deletion_enabled) eqn:Ea; [grant_step|]. grant_step. unfold execute_body.
    destruct apply; cbn [negb]; [|operation_steps].
    assert (DeletionSteps R) by (destruct Hd as [Hd|Hd], deletion_enabled; done).
    operation_steps.
    - match goal with |- keeps R (delete_scope ?l) => generalize l; intros rows end.
      induction rows as [|[t ids] rows IH]; simpl; [grant_steps|].
      keeps_step; [apply deletion_rows|apply IH].
    - apply deletion_consume. }
  specialize (Hk s). unfold execution_refusals. destruct (bind _ _ s) as [[r|e] s'] eqn:E; [done|]. simpl in *.
  destruct (retention_or_platform e), (s'.(gs_authorizations) !! a); simpl; try done. etrans; [done|]. by apply table_quiet.
Qed.

End Operations.

Section Histories.
Context (R : relation grant_store) `{!TableSteps R}.
Context (uuid4 : nat → uuid) (created_at : uuid → datetime) (sha256_hex : pystr → pystr) (deletion_enabled : bool).

(** The command deletes rows, if it succeeds. *)
Definition may_delete (cmd : gcommand) : bool := match cmd with GExecute _ _ apply => apply && deletion_enabled | _ => false end.
(** The execution of a deletion is within [R] too. *)
Definition executions_keep : Prop := ∀ now wall row a reason, deletion_enabled = true →
  keeps R (execute_authorized_permission_grant_ledger_deletion uuid4 sha256_hex deletion_enabled now wall row a reason true).
Lemma deletion_steps_executions : DeletionSteps R → executions_keep.
Proof using Type*. intros Hd now wall row a reason _. apply execute_keeps; [done|by right]. Qed.
Lemma disabled_executions : deletion_enabled = false → executions_keep.
Proof using Type*. intros Hf now wall row a reason Ht. congruence. Qed.

Lemma gexec_keeps tc s : may_delete tc.2 = false ∨ executions_keep → R s (gexec uuid4 created_at sha256_hex deletion_enabled tc s).
Proof using Type*.
  intros Hd. destruct tc as [[now wall row] []]; simpl;
    first [ apply apply_keeps | apply propose_keeps | apply confirm_keeps | apply enrol_keeps | apply revoke_keeps | apply place_hold_keeps
          | apply release_hold_keeps | apply request_keeps | apply approve_keeps | apply authorize_keeps | apply expire_keeps
          | apply report_keeps | by apply table_quiet | idtac ]; try apply _.
  destruct (apply && deletion_enabled) eqn:Ea; [|by apply execute_keeps; [apply _|left]].
  apply andb_prop in Ea as [-> Ee]. destruct Hd as [Hd|Hd]; [simpl in Hd; by rewrite Ee in Hd|by apply Hd].
Qed.
Lemma ghistory_keeps cmds s : executions_keep → R s (ghistory uuid4 created_at sha256_hex deletion_enabled cmds s).
Proof using Type*.
  intros Hd. unfold ghistory. revert s. induction cmds as [|tc cmds IH]; intros s; simpl; [reflexivity|].
  etrans; [|apply IH]. apply gexec_keeps. by right.
Qed.
End Histories.
