(* ===== verification/GrantSafety.v ===== *)
(** * The register and the ledger over histories

    [register_wf]: the register is a well-formed history of two-party
    designations, enrolments and revocations, in which no account or person has
    two enrolments in force beside a renewal, and nobody is representative and
    approver at once.  [ledger_keyed]: a migration is in a tenant's ledger at
    most once.  A row leaves the ledger only through the execution of a verified
    deletion. *)

From S2P Require Import Prelude StoreLogic PyStr PyTime TenantLifecycle PlatformAuthority PlatformService TenantHierarchy RbacDecision RbacProofs RbacService RbacIntegrity RbacGuard Identity OutboxModel Webhooks GrantModel GrantApply GrantRegister GrantApproval GrantProofs.

(** ** The register in force *)

Lemma entries_elem (r : register) p i e : (i, e) ∈ entries r p ↔ r !! i = Some e ∧ p (i, e) = true.
Proof.
  unfold entries. rewrite list_elem_of_In, filter_In, <- list_elem_of_In, elem_of_map_to_list. done.
Qed.
Lemma revoked_spec (r : register) k : register_entry_revoked r k = true ↔ ∃ i e, r !! i = Some e ∧ e.(ar_revokes_entry_id) = Some k.
Proof. unfold register_entry_revoked. rewrite exists_row_spec. setoid_rewrite bool_decide_eq_true. done. Qed.
Lemma after_spec t u : after t u = true ↔ ∃ x, u = Some x ∧ t < x.
Proof. destruct u as [x|]; simpl; [rewrite Z.ltb_lt|]; naive_solver. Qed.
Lemma after_earlier t t' u : t' ≤ t → after t u = true → after t' u = true.
Proof. rewrite !after_spec. intros ? (x & -> & ?). exists x. split; [done|lia]. Qed.

Lemma designation_live_spec (r : register) t k : designation_live r t k = true ↔
  ∃ i d, k = Some i ∧ r !! i = Some d ∧ d.(ar_entry_type) = REGISTER_DESIGNATION ∧ after t d.(ar_valid_until) = true ∧
    register_entry_revoked r i = false.
Proof.
  unfold designation_live. destruct k as [i|]; [|naive_solver]. destruct (r !! i) as [d|] eqn:E; simpl; [|naive_solver].
  rewrite !andb_true_iff, bool_decide_eq_true, negb_true_iff. naive_solver.
Qed.
Lemma active_enrolment_spec (r : register) t i e : is_active_enrolment r t (i, e) = true ↔
  e.(ar_entry_type) = REGISTER_ENROLMENT ∧ after t e.(ar_valid_until) = true ∧ register_entry_revoked r i = false ∧
  designation_live r t e.(ar_authorised_by_entry_id) = true.
Proof. unfold is_active_enrolment, is_type. simpl. rewrite !andb_true_iff, bool_decide_eq_true, negb_true_iff. naive_solver. Qed.
Lemma active_designation_spec (r : register) t i d : is_active_designation r t (i, d) = true ↔
  d.(ar_entry_type) = REGISTER_DESIGNATION ∧ after t d.(ar_valid_until) = true ∧ register_entry_revoked r i = false.
Proof. unfold is_active_designation, is_type. simpl. rewrite !andb_true_iff, bool_decide_eq_true, negb_true_iff. naive_solver. Qed.

(** Nothing comes back into force: neither with time nor with new entries. *)
Lemma designation_live_earlier r t t' k : t' ≤ t → designation_live r t k = true → designation_live r t' k = true.
Proof. intros Ht. rewrite !designation_live_spec. intros (i & d & H). exists i, d. destruct_and!. eauto 10 using after_earlier. Qed.
Lemma active_enrolment_earlier r t t' i e : t' ≤ t → is_active_enrolment r t (i, e) = true → is_active_enrolment r t' (i, e) = true.
Proof. intros Ht. rewrite !active_enrolment_spec. intros H. destruct_and!. eauto 10 using after_earlier, designation_live_earlier. Qed.
Lemma active_designation_earlier r t t' i d : t' ≤ t → is_active_designation r t (i, d) = true → is_active_designation r t' (i, d) = true.
Proof. intros Ht. rewrite !active_designation_spec. intros H. destruct_and!. eauto 10 using after_earlier. Qed.

Section Grown.
Context (r : register) (id : uuid) (e0 : ApproverRegisterEntry) (Hfresh : r !! id = None).

Lemma revoked_grown k : register_entry_revoked (<[id := e0]> r) k = false → register_entry_revoked r k = false.
Proof using Type*.
  intros H. apply not_true_iff_false. intros (i & e & Hi & He)%revoked_spec. apply not_true_iff_false in H. apply H.
  apply revoked_spec. exists i, e. split; [|done]. rewrite lookup_insert_ne; [done|]. by intros ->; simplify_eq.
Qed.
Lemma designation_live_grown t k : k ≠ Some id → designation_live (<[id := e0]> r) t k = true → designation_live r t k = true.
Proof using Type*.
  intros Hk. rewrite !designation_live_spec. intros (i & d & -> & Hi & H). rewrite lookup_insert_ne in Hi by congruence. destruct_and!.
  exists i, d. repeat split; [done..|]. by apply revoked_grown.
Qed.
Lemma active_enrolment_grown t i e : e.(ar_authorised_by_entry_id) ≠ Some id →
  is_active_enrolment (<[id := e0]> r) t (i, e) = true → is_active_enrolment r t (i, e) = true.
Proof using Type*. intros Hk. rewrite !active_enrolment_spec. intros H. destruct_and!. repeat split; [done..| |]; [by apply revoked_grown|by apply designation_live_grown]. Qed.
Lemma active_designation_grown t i d :
  is_active_designation (<[id := e0]> r) t (i, d) = true → is_active_designation r t (i, d) = true.
Proof using Type*. rewrite !active_designation_spec. intros H. destruct_and!. repeat split; [done..|]. by apply revoked_grown. Qed.
End Grown.

(** ** Well-formedness *)

(** Two entries do not have the same link. *)
Definition link_unique (column : ApproverRegisterEntry → option uuid) (r : register) : Prop :=
  ∀ i j e f k, r !! i = Some e → r !! j = Some f → column e = Some k → column f = Some k → i = j.

(** A proposal is made by another, for 72 hours. *)
Definition proposal_ok (p : ApproverRegisterEntry) : Prop :=
  p.(ar_recorded_by_user_id) ≠ p.(ar_subject_user_id) ∧ p.(ar_proposal_expires_at) = Some (p.(ar_recorded_at) + PROPOSAL_VALIDITY).
(** A designation confirms a live proposal for its subject, by a third person, within what was proposed. *)
Definition designation_ok (r : register) (d : ApproverRegisterEntry) : Prop :=
  ∃ k p, d.(ar_proposal_entry_id) = Some k ∧ r !! k = Some p ∧ p.(ar_entry_type) = REGISTER_PROPOSAL ∧
    p.(ar_subject_user_id) = d.(ar_subject_user_id) ∧ d.(ar_recorded_by_user_id) ≠ p.(ar_recorded_by_user_id) ∧
    d.(ar_recorded_by_user_id) ≠ d.(ar_subject_user_id) ∧ after d.(ar_recorded_at) p.(ar_proposal_expires_at) = true ∧
    d.(ar_valid_until) = p.(ar_valid_until) ∧ d.(ar_designation_ref) = p.(ar_designation_ref).
(** An enrolment is by the representative of a designation, of another, with its delay. *)
Definition enrolment_ok (r : register) (e : ApproverRegisterEntry) : Prop :=
  ∃ k d u, e.(ar_authorised_by_entry_id) = Some k ∧ r !! k = Some d ∧ d.(ar_entry_type) = REGISTER_DESIGNATION ∧
    d.(ar_subject_user_id) = e.(ar_recorded_by_user_id) ∧ e.(ar_subject_user_id) ≠ e.(ar_recorded_by_user_id) ∧
    after e.(ar_recorded_at) d.(ar_valid_until) = true ∧
    e.(ar_eligible_from) = Some (e.(ar_recorded_at) + ELIGIBILITY_DELAY) ∧ e.(ar_valid_until) = Some u ∧
    e.(ar_recorded_at) + ELIGIBILITY_DELAY < u.
(** A revocation names an entry of its kind and subject. *)
Definition revocation_ok (r : register) (x : ApproverRegisterEntry) : Prop :=
  ∃ k e, x.(ar_revokes_entry_id) = Some k ∧ r !! k = Some e ∧ e.(ar_entry_type) = revoked_kind x.(ar_entry_type) ∧
    e.(ar_subject_user_id) = x.(ar_subject_user_id).
Definition entry_ok (r : register) (e : ApproverRegisterEntry) : Prop :=
  entry_shape e = true ∧
  match e.(ar_entry_type) with
  | REGISTER_PROPOSAL => proposal_ok e
  | REGISTER_DESIGNATION => designation_ok r e
  | REGISTER_ENROLMENT => enrolment_ok r e
  | REGISTER_DESIGNATION_REVOCATION | REGISTER_ENROLMENT_REVOCATION => revocation_ok r e
  end.

Definition same_party (e f : ApproverRegisterEntry) : Prop :=
  e.(ar_subject_user_id) = f.(ar_subject_user_id) ∨
  ∃ person, e.(ar_natural_person_ref) = Some person ∧ f.(ar_natural_person_ref) = Some person.

Record register_wf (r : register) : Prop := {
  rw_entries i e : r !! i = Some e → entry_ok r e;
  rw_confirmed_once : link_unique ar_proposal_entry_id r;
  rw_revoked_once : link_unique ar_revokes_entry_id r;
  rw_renewed_once : link_unique ar_renews_entry_id r;
  (* of two enrolments of an account or a person in force at [t], one renews the other *)
  rw_one_enrolment i j e f t : r !! i = Some e → r !! j = Some f → i ≠ j → same_party e f →
    e.(ar_recorded_at) ≤ t → f.(ar_recorded_at) ≤ t →
    is_active_enrolment r t (i, e) = true → is_active_enrolment r t (j, f) = true →
    e.(ar_renews_entry_id) = Some j ∨ f.(ar_renews_entry_id) = Some i;
  (* nobody is representative and approver at [t] *)
  rw_separate i j d e t : r !! i = Some d → r !! j = Some e → d.(ar_recorded_at) ≤ t → e.(ar_recorded_at) ≤ t →
    is_active_designation r t (i, d) = true → is_active_enrolment r t (j, e) = true →
    d.(ar_subject_user_id) ≠ e.(ar_subject_user_id);
}.

(** ** An insert keeps it *)

Lemma register_wf_empty : register_wf ∅.
Proof. split; try (intros *; by rewrite lookup_empty). all: intros i j e f k; by rewrite lookup_empty. Qed.

Lemma link_taken_false r id e0 column : link_taken r column e0 = false → link_unique column r → link_unique column (<[id := e0]> r).
Proof.
  intros Ht Hu i j f g k Hi Hj Hf Hg. unfold link_taken in Ht.
  assert (∀ j g, r !! j = Some g → column g = Some k → column e0 = Some k → False) as Hno.
  { intros j' g' Hj' Hg' H0. pose proof (exists_row_false _ _ _ _ Ht Hj') as Hx. simpl in Hx. rewrite Hg', H0 in Hx. simpl in Hx.
    by apply bool_decide_eq_false_1 in Hx. }
  apply lookup_insert_Some in Hi as [[<- <-]|[? Hi]]; apply lookup_insert_Some in Hj as [[<- <-]|[? Hj]]; [done|..].
  - by destruct (Hno _ _ Hj Hg).
  - by destruct (Hno _ _ Hi Hf).
  - by eapply Hu.
Qed.

Section Insert.
Context (p : platform_store) (r : register) (now : datetime) (id : uuid) (e e0 : ApproverRegisterEntry).
Context (Hb : register_before_insert p r now e = Some e0) (Hv : register_violation p r id e0 = false).

Lemma insert_fresh : r !! id = None.
Proof using Hv. unfold register_violation in Hv. reflect_bools. by apply eq_None_not_Some. Qed.
Lemma insert_shape : entry_shape e0 = true.
Proof using Hv. unfold register_violation in Hv. by reflect_bools. Qed.
Lemma insert_links : link_taken r ar_proposal_entry_id e0 = false ∧ link_taken r ar_revokes_entry_id e0 = false ∧
  link_taken r ar_renews_entry_id e0 = false.
Proof using Hv. unfold register_violation in Hv. by reflect_bools. Qed.

(** What the trigger has checked of the new entry. *)
Lemma insert_type : e0.(ar_entry_type) = e.(ar_entry_type).
Proof using Hb Hv.
  revert Hb. unfold register_before_insert. destruct (e.(ar_entry_type)) eqn:Et; intros H.
  all: unfold proposal_before_insert, designation_before_insert, enrolment_before_insert, revocation_before_insert in H.
  all: cbv zeta in H; case_in H; simplify_eq; done.
Qed.
Lemma insert_recorded : e0.(ar_recorded_at) = now.
Proof using Hb Hv.
  revert Hb. unfold register_before_insert. destruct (e.(ar_entry_type)) eqn:Et; intros H.
  all: unfold proposal_before_insert, designation_before_insert, enrolment_before_insert, revocation_before_insert in H.
  all: cbv zeta in H; case_in H; simplify_eq; done.
Qed.
Lemma insert_entry_ok : entry_ok r e0.
Proof using Hb Hv.
  split; [apply insert_shape|]. rewrite insert_type. revert Hb. unfold register_before_insert.
  destruct (e.(ar_entry_type)) eqn:Et; intros H.
  - unfold proposal_before_insert in H. case_in H. reflect_bools. split; simpl; [congruence|done].
  - unfold designation_before_insert in H. case_in H. reflect_bools. eexists _, _. simpl. split; [done|]. split; [done|].
    match goal with Hn : _ ∉ _ |- _ => apply not_elem_of_cons in Hn as [? [? ?]%not_elem_of_cons] end.
    repeat split; congruence.
  - unfold revocation_before_insert in H. case_in H. reflect_bools. eexists _, _. simpl. eauto.
  - unfold enrolment_before_insert in H. cbv zeta in H. case_in H. reflect_bools.
    match goal with Hl : designation_live _ _ _ = true |- _ => apply designation_live_spec in Hl as (k & d' & Hk & Hd & ? & ? & ?) end.
    destruct (e.(ar_valid_until)) as [u|] eqn:Eu; [|done]. reflect_bools. rewrite Hk in *. simplify_eq.
    eexists _, _, _. simpl. split; [done|]. split; [done|]. repeat split; try done; congruence.
  - unfold revocation_before_insert in H. case_in H. reflect_bools. eexists _, _. simpl. eauto.
Qed.
End Insert.

(** ** A new entry leaves the old ones well formed *)

Lemma entry_ok_grown r id e0 f : r !! id = None → entry_ok r f → entry_ok (<[id := e0]> r) f.
Proof.
  intros Hid [Hs Hf]. split; [done|].
  assert (∀ k g, r !! k = Some g → <[id := e0]> r !! k = Some g) as Hl.
  { intros k g Hk. rewrite lookup_insert_ne; [done|]. by intros ->; simplify_eq. }
  destruct (f.(ar_entry_type)); unfold designation_ok, enrolment_ok, revocation_ok in *; naive_solver.
Qed.
(** An entry's links are to older entries. *)
Lemma enrolment_authorised r i e k : register_wf r → r !! i = Some e → e.(ar_entry_type) = REGISTER_ENROLMENT →
  e.(ar_authorised_by_entry_id) = Some k → is_Some (r !! k).
Proof. intros Hw Hi Ht Hk. destruct (rw_entries _ Hw _ _ Hi) as [_ He]. rewrite Ht in He. unfold enrolment_ok in He. naive_solver. Qed.
Lemma old_enrolment_grown r id e0 t i e : register_wf r → r !! id = None → r !! i = Some e →
  is_active_enrolment (<[id := e0]> r) t (i, e) = true → is_active_enrolment r t (i, e) = true.
Proof.
  intros Hw Hid Hi Ha. eapply active_enrolment_grown; [done| |done]. intros Hk.
  apply active_enrolment_spec in Ha as [Ht _]. destruct (enrolment_authorised _ _ _ _ Hw Hi Ht Hk). naive_solver.
Qed.

(** The trigger's exclusions, as facts about entries in force. *)
Lemma other_active_false r now u person excluded i e : other_active_enrolment r now u person excluded = false → r !! i = Some e →
  is_active_enrolment r now (i, e) = true →
  (e.(ar_subject_user_id) = u ∨ ∃ q, e.(ar_natural_person_ref) = Some q ∧ person = Some q) → excluded = Some i.
Proof.
  intros Hf Hi Ha Hp. apply not_true_iff_false in Hf. destruct (decide (excluded = Some i)) as [|Hn]; [done|]. exfalso. apply Hf.
  apply existsb_exists. exists (i, e). split; [by apply list_elem_of_In, elem_of_map_to_list|].
  rewrite Ha, andb_true_r. rewrite (bool_decide_eq_false_2 _ Hn). simpl. rewrite andb_true_r. unfold of_subject. simpl.
  destruct Hp as [->|(q & -> & ->)]; [by rewrite bool_decide_eq_true_2|]. simpl. rewrite (bool_decide_eq_true_2 (q = q)); [|done]. apply orb_true_r.
Qed.

Section Exclusions.
Context (p : platform_store) (r : register) (now : datetime) (id : uuid) (e e0 : ApproverRegisterEntry).
Context (Hb : register_before_insert p r now e = Some e0) (Hv : register_violation p r id e0 = false).

Lemma new_enrolment_excludes i f : e0.(ar_entry_type) = REGISTER_ENROLMENT → r !! i = Some f → same_party e0 f →
  is_active_enrolment r now (i, f) = true → e0.(ar_renews_entry_id) = Some i.
Proof using Hb Hv.
  intros Ht Hi Hs Ha. rewrite (insert_type p r now id e e0 Hb Hv) in Ht. revert Hb. unfold register_before_insert. rewrite Ht.
  unfold enrolment_before_insert. cbv zeta. intros H. case_in H. reflect_bools. simpl in Hs |- *.
  eapply other_active_false; [done..|]. unfold same_party in Hs. simpl in Hs. naive_solver.
Qed.
Lemma new_enrolment_separate i d : e0.(ar_entry_type) = REGISTER_ENROLMENT → r !! i = Some d →
  is_active_designation r now (i, d) = true → d.(ar_subject_user_id) ≠ e0.(ar_subject_user_id).
Proof using Hb Hv.
  intros Ht Hi Ha Hs. rewrite (insert_type p r now id e e0 Hb Hv) in Ht. revert Hb. unfold register_before_insert. rewrite Ht.
  unfold enrolment_before_insert. cbv zeta. intros H. case_in H. reflect_bools. simpl in Hs.
  match goal with Hx : existsb _ _ = false |- _ => apply not_true_iff_false in Hx; apply Hx end.
  apply existsb_exists. exists (i, d). split; [by apply list_elem_of_In, elem_of_map_to_list|]. unfold of_subject. simpl.
  by rewrite Ha, bool_decide_eq_true_2.
Qed.
Lemma new_designation_separate i f : e0.(ar_entry_type) = REGISTER_DESIGNATION → r !! i = Some f →
  is_active_enrolment r now (i, f) = true → e0.(ar_subject_user_id) ≠ f.(ar_subject_user_id).
Proof using Hb Hv.
  intros Ht Hi Ha Hs. rewrite (insert_type p r now id e e0 Hb Hv) in Ht. revert Hb. unfold register_before_insert. rewrite Ht.
  unfold designation_before_insert. intros H. case_in H. reflect_bools. simpl in Hs.
  match goal with Hx : other_active_enrolment _ _ _ _ _ = false |- _ => pose proof (other_active_false _ _ _ _ _ _ _ Hx Hi Ha (or_introl (eq_sym Hs))) end.
  done.
Qed.

Lemma insert_wf : register_wf r → register_wf (<[id := e0]> r).
Proof using Hb Hv.
  intros Hw. pose proof (insert_fresh p r id e0 Hv) as Hid. pose proof (insert_links p r id e0 Hv) as (Hl1 & Hl2 & Hl3).
  pose proof (insert_recorded p r now id e e0 Hb Hv) as Hnow.
  split.
  - intros i f [[<- <-]|[? Hi]]%lookup_insert_Some; apply entry_ok_grown; try done; [eapply insert_entry_ok; done|by eapply rw_entries].
  - apply link_taken_false; [done|apply Hw].
  - apply link_taken_false; [done|apply Hw].
  - apply link_taken_false; [done|apply Hw].
  - intros i j f g t [[<- <-]|[Hni Hi]]%lookup_insert_Some [[<- <-]|[Hnj Hj]]%lookup_insert_Some Hij Hs Hrf Hrg Hf Hg; [done|..].
    + left. apply (new_enrolment_excludes j g); [by apply active_enrolment_spec in Hf as [? _]|done..|].
      eapply active_enrolment_earlier; [|eapply old_enrolment_grown; done]. lia.
    + right. apply (new_enrolment_excludes i f); [by apply active_enrolment_spec in Hg as [? _]|done| |].
      * unfold same_party in *. naive_solver.
      * eapply active_enrolment_earlier; [|eapply old_enrolment_grown; done]. lia.
    + eapply (rw_one_enrolment _ Hw i j f g t); try done; by eapply old_enrolment_grown.
  - intros i j d f t [[<- <-]|[Hni Hi]]%lookup_insert_Some [[<- <-]|[Hnj Hj]]%lookup_insert_Some Hrd Hrf Hd Hf.
    + apply active_designation_spec in Hd as [Hd _]. apply active_enrolment_spec in Hf as [Hf _]. congruence.
    + apply (new_designation_separate j f); [by apply active_designation_spec in Hd as [? _]|done|].
      eapply active_enrolment_earlier; [|eapply old_enrolment_grown; done]. lia.
    + apply (new_enrolment_separate i d); [by apply active_enrolment_spec in Hf as [? _]|done|].
      eapply active_designation_earlier; [|eapply active_designation_grown; done]. lia.
    + eapply (rw_separate _ Hw i j d f t); try done; [by eapply active_designation_grown|by eapply old_enrolment_grown].
Qed.
End Exclusions.

(** ** Over histories *)

(** The register grows and stays well formed. *)
Definition register_grows : relation grant_store :=
  λ s s', s.(gs_register) ⊆ s'.(gs_register) ∧ (register_wf s.(gs_register) → register_wf s'.(gs_register)).
#[export] Instance register_grows_preorder : PreOrder register_grows.
Proof.
  split; [by intros s|]. intros s1 s2 s3 [H1 H2] [H3 H4]. split; [by etrans|tauto].
Qed.
Lemma register_same s s' : s.(gs_register) = s'.(gs_register) → register_grows s s'.
Proof. intros H. unfold register_grows. by rewrite H. Qed.

(** Case analysis of a table operation. *)
Ltac table_cases := repeat (case_match; simplify_eq/=; try done).

#[export] Instance register_steps : TableSteps register_grows.
Proof.
  split.
  - apply _.
  - intros s s' H. apply register_same. by unfold tables in H; simplify_eq.
  - intros * s. apply register_same. unfold insert_application, bind, gdraw. simpl. by case_match.
  - intros now id e s. unfold insert_entry. destruct (register_before_insert _ _ _ _) as [e'|] eqn:Hb; [|by apply register_same].
    destruct (register_violation _ _ _ _) eqn:Hv; [by apply register_same|]. simpl. split.
    + apply insert_subseteq. by eapply insert_fresh.
    + by eapply insert_wf.
  - intros * s. apply register_same. unfold invalidate. case_match; [done|]. table_cases.
  - intros * s. apply register_same. unfold insert_hold. by case_match.
  - intros * s. apply register_same. unfold release_hold. by case_match.
  - intros * s. apply register_same. unfold insert_request. by case_match.
  - intros * s. apply register_same. unfold insert_approval. table_cases.
  - intros * s. apply register_same. unfold insert_authorization. table_cases.
Qed.
#[export] Instance register_deletions : DeletionSteps register_grows.
Proof.
  split; intros; intros s; apply register_same; [unfold delete_rows; by case_match|]. unfold consume. table_cases.
Qed.

(** A migration is in a tenant's ledger at most once. *)
Definition ledger_keyed (l : gmap uuid PermissionGrantApplication) : Prop :=
  ∀ i j a b, l !! i = Some a → l !! j = Some b → same_application a b → i = j.
Definition ledger_grows : relation grant_store :=
  λ s s', s.(gs_ledger) ⊆ s'.(gs_ledger) ∧ (ledger_keyed s.(gs_ledger) → ledger_keyed s'.(gs_ledger)).
#[export] Instance ledger_grows_preorder : PreOrder ledger_grows.
Proof. split; [by intros s|]. intros s1 s2 s3 [H1 H2] [H3 H4]. split; [by etrans|tauto]. Qed.
Lemma ledger_same s s' : s.(gs_ledger) = s'.(gs_ledger) → ledger_grows s s'.
Proof. intros H. unfold ledger_grows. by rewrite H. Qed.

Lemma insert_application_grows uuid4 row : keeps ledger_grows (insert_application uuid4 row).
Proof.
  intros s. unfold insert_application, bind, gdraw. simpl. case_match eqn:Hc; [by apply ledger_same|]. simpl. reflect_bools.
  match goal with H : ¬ is_Some _ |- _ => apply eq_None_not_Some in H as Hn end. split; simpl; [by apply insert_subseteq|].
  intros Hk i j a b [[<- <-]|[? Hi]]%lookup_insert_Some [[<- <-]|[? Hj]]%lookup_insert_Some Hs; [done|..].
  - match goal with He : exists_row _ _ = false |- _ => pose proof (exists_row_false _ _ _ _ He Hj) as Hx end. simpl in Hx.
    by apply bool_decide_eq_false_1 in Hx.
  - match goal with He : exists_row _ _ = false |- _ => pose proof (exists_row_false _ _ _ _ He Hi) as Hx end. simpl in Hx.
    apply bool_decide_eq_false_1 in Hx. unfold same_application in *. naive_solver.
  - by eapply Hk.
Qed.
#[export] Instance ledger_steps : TableSteps ledger_grows.
Proof.
  split.
  - apply _.
  - intros s s' H. apply ledger_same. by unfold tables in H; simplify_eq.
  - apply insert_application_grows.
  - intros * s. apply ledger_same. unfold insert_entry. table_cases.
  - intros * s. apply ledger_same. unfold invalidate. case_match; [done|]. table_cases.
  - intros * s. apply ledger_same. unfold insert_hold. by case_match.
  - intros * s. apply ledger_same. unfold release_hold. by case_match.
  - intros * s. apply ledger_same. unfold insert_request. by case_match.
  - intros * s. apply ledger_same. unfold insert_approval. table_cases.
  - intros * s. apply ledger_same. unfold insert_authorization. table_cases.
Qed.

(** ** What the verification of a deletion establishes *)

(** The enrolment of [u] counts at [t]. *)
Definition approver_in_force (r : register) (u : uuid) (t : datetime) (i : uuid) (e : ApproverRegisterEntry) : Prop :=
  r !! i = Some e ∧ e.(ar_entry_type) = REGISTER_ENROLMENT ∧ e.(ar_subject_user_id) = u ∧
  register_entry_revoked r i = false ∧ designation_live r t e.(ar_authorised_by_entry_id) = true ∧
  ∃ from until, e.(ar_eligible_from) = Some from ∧ e.(ar_valid_until) = Some until ∧ from ≤ t < until.

Lemma latest_entry_elem l x : latest_entry l = Some x → x ∈ l.
Proof.
  destruct l as [|y l]; [done|]. simpl. intros [= <-]. revert y. induction l as [|z l IH]; intros y; simpl; [set_solver|].
  case_match; [apply elem_of_cons; right; apply IH|]. specialize (IH y). set_solver.
Qed.
Lemma eligible_enrolment_spec r u t i e : eligible_enrolment r u t = Some (i, e) → approver_in_force r u t i e.
Proof.
  intros [Hi Hp]%latest_entry_elem%entries_elem. reflect_bools. unfold is_type, of_subject, state_of in *. simpl in *. reflect_bools.
  split; [done|]. unfold enrolment_state, is_type in *. simpl in *.
  match goal with H : _ = Some ES_ELIGIBLE |- _ => rename H into Hst end.
  rewrite bool_decide_eq_true_2 in Hst by done. simpl in Hst. case_in Hst. reflect_bools.
  repeat split; [done..| |eexists _, _; repeat split; [done..|lia|lia]].
  apply designation_live_spec. unfold designation_validity in *.
  destruct (e.(ar_authorised_by_entry_id)) as [k|]; [|done]. destruct (r !! k) as [d|] eqn:Ek; [|done].
  case_bool_decide; [|done]. eauto 10.
Qed.

(** The tenant's ledger may go: purged once, at a known instant, two years ago, and not held. *)
Definition retention_over (s : grant_store) (t : uuid) (at_ : datetime) : Prop :=
  ∃ tenant purged expires, s.(gs_tenancy).(ts_tenants) !! t = Some tenant ∧ tenant.(t_status) = PURGED ∧
    tenant_purge_completion_times s t = [purged] ∧ retention_expires_at purged = Some expires ∧ expires ≤ at_ ∧ active_holds s t = 0%nat.

Lemma decide_tenant_eligible s t at_ d : decide_tenant s t at_ = Ok d → decision_eligible d = true → retention_over s t at_.
Proof.
  unfold decide_tenant, tenant_status, retention_eligibility, decision_eligible. intros Hd He.
  destruct (s.(gs_tenancy).(ts_tenants) !! t) as [tenant|] eqn:Et; simpl in Hd; [|by simplify_eq].
  case_in Hd; reflect_bools; simpl in He; try done. all: repeat case_match; try done. reflect_bools.
  eexists tenant, _, _. repeat split; try done; lia.
Qed.

(** The rows of a scope. *)
Definition rows_of (s : grant_store) (tenant_ids : list uuid) : scope_rows := (λ t, (t, ledger_row_ids s t)) <$> tenant_ids.
Lemma scope_state_rows s tenant_ids at_ st : scope_state s tenant_ids at_ = Ok st → st.(sc_not_eligible) = [] →
  st.(sc_rows) = rows_of s tenant_ids ∧ Forall (λ t, retention_over s t at_) tenant_ids.
Proof.
  revert st. induction tenant_ids as [|t l IH]; intros st; simpl; [by intros [= <-]|]. unfold result_bind. intros H Hn.
  destruct (decide_tenant s t at_) as [d|] eqn:Ed; [|done]. destruct (scope_state s l at_) as [o|] eqn:Eo; [|done].
  destruct (decision_eligible d) eqn:Ee; simpl in H; [|by simplify_eq]. case_in H.
  destruct (IH _ eq_refl Hn) as [Hr Hf]. simpl. rewrite Hr. split; [done|]. constructor; [|done]. by eapply decide_tenant_eligible.
Qed.

Record deletion_verified (s : grant_store) (at_ : datetime) (request : LedgerDeletionRequest) (approver authorizer : uuid) : Prop := {
  dv_distinct : approver ≠ request.(dr_requested_by_user_id) ∧ authorizer ≠ approver;
  dv_no_owner u : u ∈ [request.(dr_requested_by_user_id); approver; authorizer] → platform_can (gs_platform s) u P_AUTHORITY_MANAGE = Ok false;
  dv_authorized u : u ∈ [approver; authorizer] → platform_can (gs_platform s) u P_SECURITY_RETENTION_REPORT = Ok true;
  dv_enrolled : ∃ i e j f, approver_in_force s.(gs_register) approver at_ i e ∧ approver_in_force s.(gs_register) authorizer at_ j f ∧
    e.(ar_natural_person_ref) ≠ f.(ar_natural_person_ref);
  dv_unlinked : provenance_linked (gs_platform s) approver request.(dr_requested_by_user_id) = false ∧
    provenance_linked (gs_platform s) authorizer approver = false;
  (* every release of a hold of the scope was an authenticated act of somebody else *)
  dv_releases i h at' audit : s.(gs_holds) !! i = Some h → h.(lh_target_tenant_id) ∈ request.(dr_tenant_ids) → h.(lh_released) = Some (at', audit) →
    ∃ act u, s.(gs_acts) !! audit = Some act ∧ authenticated_http_act act = true ∧ act_user_id act = Some u ∧ u ≠ approver ∧ u ≠ authorizer;
  dv_no_hold_manager u : u ∈ [approver; authorizer] → holds_platform_permission (gs_platform s) u P_SECURITY_RETENTION_HOLD_MANAGE = false;
  dv_scope : Forall (λ t, retention_over s t at_) request.(dr_tenant_ids);
}.

Lemma any_holds_authority_false p us : any_holds_authority p us = Ok false → ∀ u, u ∈ us → platform_can p u P_AUTHORITY_MANAGE = Ok false.
Proof.
  induction us as [|v us IH]; simpl; [set_solver|]. unfold result_bind, from_platform. intros H u Hu.
  destruct (platform_can p v P_AUTHORITY_MANAGE) as [[]|] eqn:Ev; try done. apply elem_of_cons in Hu as [->|Hu]; [done|by apply IH].
Qed.
Lemma releases_spec s ids i h at' audit : (releases_in_scope s ids).(rl_unauthenticated) = false → s.(gs_holds) !! i = Some h →
  h.(lh_target_tenant_id) ∈ ids → h.(lh_released) = Some (at', audit) →
  ∃ act u, s.(gs_acts) !! audit = Some act ∧ authenticated_http_act act = true ∧ act_user_id act = Some u ∧
    u ∈ (releases_in_scope s ids).(rl_authenticated_releasers).
Proof.
  unfold releases_in_scope. simpl. intros Hf Hi Ht Hr.
  assert (audit ∈ released_audit_ids s ids) as Ha.
  { unfold released_audit_ids. apply list_elem_of_omap. exists (i, h). split; [by apply elem_of_map_to_list|]. simpl.
    rewrite bool_decide_eq_true_2 by done. by rewrite Hr. }
  destruct (release_act s audit) as [u|] eqn:Er.
  - pose proof Er as Er'. unfold release_act in Er. case_in Er. eexists _, u. repeat split; [done..|]. apply list_elem_of_omap. eauto.
  - exfalso. apply not_true_iff_false in Hf. apply Hf. apply existsb_exists. exists audit. split; [by apply list_elem_of_In|]. by rewrite Er.
Qed.

Lemma refuse_r_if_Ok b code x : refuse_r_if b code = Ok x → b = false.
Proof. by destruct b. Qed.
Lemma let_Ok {E A B} (m : result E A) (k : A → result E B) b : result_bind m k = Ok b → ∃ a, m = Ok a ∧ k a = Ok b.
Proof. destruct m; simpl; [eauto|done]. Qed.

Section Chain.
Context (sha256_hex : pystr → pystr).

Lemma verify_chain_spec s request approver u at_ approval chain :
  verify_deletion_chain sha256_hex s request approver (Some u) at_ approval = Ok chain →
  platform_can (gs_platform s) u P_SECURITY_RETENTION_REPORT = Ok true →
  deletion_verified s at_ request approver u ∧ chain.(vc_scope).(sc_rows) = rows_of s request.(dr_tenant_ids) ∧
  total_rows (rows_of s request.(dr_tenant_ids)) = (bound_of request approval).(bs_eligible_ledger_rows) ∧
  eligible_ledger_digest sha256_hex (rows_of s request.(dr_tenant_ids)) = (bound_of request approval).(bs_eligible_digest).
Proof using Type.
  intros H Hu. unfold verify_deletion_chain in H. cbv zeta in H.
  apply let_Ok in H as (authority & Hauth & H). cbv beta in H. apply let_Ok in H as (? & ->%refuse_r_if_Ok & H). cbv beta in H.
  apply let_Ok in H as (? & Hreq%refuse_r_if_Ok & H). cbv beta in H. apply let_Ok in H as (? & Happ%refuse_r_if_Ok & H). cbv beta in H.
  apply let_Ok in H as (authorized & Hcan & H). cbv beta in H. apply let_Ok in H as (? & Hok%refuse_r_if_Ok & H). cbv beta in H.
  destruct (eligible_enrolment s.(gs_register) approver at_) as [[i e]|] eqn:Ei; [|done].
  destruct (eligible_enrolment s.(gs_register) u at_) as [[j f]|] eqn:Ej; [|done].
  apply let_Ok in H as (entry & Hentry & H). cbv beta in H.
  do 6 (let Hr := fresh "Hr" in apply let_Ok in H as (? & Hr%refuse_r_if_Ok & H); cbv beta in H).
  apply let_Ok in H as (state & Hstate & H). cbv beta in H. apply let_Ok in H as (? & Hne%refuse_r_if_Ok & H). cbv beta zeta in H.
  pose proof (any_holds_authority_false _ _ Hauth) as Hno. case_in H. unfold from_platform in Hcan. case_in Hcan. case_in Hentry. cbn [existsb] in *. reflect_bools.
  destruct (scope_state_rows _ _ _ _ Hstate Hne) as [Hrows Hover]. rewrite Hrows in *. simpl.
  split; [|done].
  apply eligible_enrolment_spec in Ei, Ej. split; try done; [naive_solver|set_solver|eexists _, _, _, _; split; [done|split; [done|]]; congruence| |].
  - intros k h at' audit Hh Ht Hrel. destruct (releases_spec s request.(dr_tenant_ids) k h at' audit) as (act & v & Hact & Hauth' & Hv & Hin); [done..|].
    exists act, v. repeat split; [done..| |]; intros ->; done.
  - intros v. rewrite !elem_of_cons. intros [->|[->|[]%elem_of_nil]]; done.
Qed.
End Chain.

(** ** The execution *)

(** The rows a scope names leave the ledger, and no others. *)
Definition without (ids : list uuid) (l : gmap uuid PermissionGrantApplication) : gmap uuid PermissionGrantApplication :=
  filter (λ x, x.1 ∉ ids) l.
Lemma without_lookup ids l j : without ids l !! j = if decide (j ∈ ids) then None else l !! j.
Proof.
  unfold without. case_decide; [apply map_lookup_filter_None; naive_solver|]. apply option_eq. intros a.
  rewrite map_lookup_filter_Some. naive_solver.
Qed.
Lemma foldr_delete_without ids l : foldr delete l ids = without ids l.
Proof.
  apply map_eq. intros j. induction ids as [|i ids IH]; simpl; [by rewrite without_lookup, decide_False by set_solver|].
  rewrite without_lookup in *. destruct (decide (i = j)) as [->|Hij].
  - rewrite lookup_delete_eq, decide_True; [done|set_solver].
  - rewrite lookup_delete_ne, IH by done. repeat case_decide; set_solver.
Qed.
Lemma sorted_ids_elem l x : x ∈ sorted_ids l ↔ x ∈ l.
Proof. unfold sorted_ids. by rewrite (merge_sort_Permutation N.le l). Qed.
Lemma without_app xs ys l : without ys (without xs l) = without (xs ++ ys) l.
Proof. apply map_eq. intros j. rewrite !without_lookup. repeat case_decide; set_solver. Qed.
Lemma without_ext xs ys l : (∀ x, x ∈ xs ↔ x ∈ ys) → without xs l = without ys l.
Proof. intros H. apply map_eq. intros j. rewrite !without_lookup. repeat case_decide; naive_solver. Qed.

Lemma delete_rows_Ok t ids s s' : delete_rows t ids s = (Ok tt, s') → s' = put_ledger (without ids s.(gs_ledger)) s.
Proof.
  unfold delete_rows. case_bool_decide as Hs; [|done]. intros [= <-]. rewrite foldr_delete_without. f_equal. apply without_ext.
  intros x. rewrite <- (sorted_ids_elem ids), <- Hs, sorted_ids_elem. done.
Qed.
Lemma delete_scope_Ok rows s s' : delete_scope rows s = (Ok tt, s') → s' = put_ledger (without (rows ≫= snd) s.(gs_ledger)) s.
Proof.
  revert s. induction rows as [|[t ids] rows IH]; intros s; simpl.
  - unfold ret. intros [= <-]. destruct s. unfold put_ledger. simpl. f_equal.
    apply map_eq. intros j. rewrite without_lookup, decide_False; [done|set_solver].
  - intros ([] & s1 & H1 & H2)%bind_Ok. apply delete_rows_Ok in H1 as ->. apply IH in H2 as ->. unfold put_ledger. simpl.
    by rewrite without_app.
Qed.

(** The rows of a scope are those of its tenants. *)
Lemma rows_of_elem s ids i : i ∈ (rows_of s ids ≫= snd) ↔ ∃ a, s.(gs_ledger) !! i = Some a ∧ a.(ga_tenant_id) ∈ ids.
Proof.
  unfold rows_of. rewrite list_elem_of_bind. setoid_rewrite list_elem_of_fmap. split.
  - intros ([t l] & Hi & (t' & [= -> ->] & Ht)). simpl in Hi. apply sorted_ids_elem, list_elem_of_fmap in Hi as ([k a] & -> & Hf).
    rewrite list_elem_of_In, filter_In, <- list_elem_of_In, elem_of_map_to_list in Hf. destruct Hf as [Hf Hb]. simpl in *. reflect_bools. subst. eauto.
  - intros (a & Ha & Ht). eexists (_, _). split; [|by exists a.(ga_tenant_id)]. simpl. apply sorted_ids_elem, list_elem_of_fmap.
    exists (i, a). split; [done|]. rewrite list_elem_of_In, filter_In, <- list_elem_of_In, elem_of_map_to_list. split; [done|].
    simpl. by apply bool_decide_eq_true_2.
Qed.

Lemma quiet_bind {A B} (m : GM A) (k : A → GM B) : quiet m → (∀ a, quiet (k a)) → quiet (bind m k).
Proof. intros Hm Hk s. unfold bind. specialize (Hm s). destruct (m s) as [[a|e] s']; simpl in *; [by rewrite Hk|done]. Qed.
Lemma record_tenants_quiet uuid4 now u reason ts : quiet (record_tenants uuid4 now u reason ts).
Proof.
  induction ts as [|t ts IH]; simpl; [done|]. apply quiet_bind; [|done]. unfold record_new_act.
  apply quiet_bind; [apply gdraw_quiet|intros; apply record_act_quiet].
Qed.
(** A step that leaves the tables alone. *)
Lemma quiet_Ok {A} (m : GM A) s a s' : quiet m → m s = (Ok a, s') → tables s' = tables s.
Proof. intros H Hm. specialize (H s). by rewrite Hm in H. Qed.

(** An authorized user holds the permission of the operation. *)
Lemma authorized_user u op permission s s' : op_permission (platform_operation op) = Some permission →
  on_platform (λ p, (authorize_platform_caller p (UserCaller u) op, p)) s = (Ok tt, s') → platform_can (gs_platform s) u permission = Ok true.
Proof.
  intros Hp. unfold on_platform, authorize_platform_caller. rewrite Hp. unfold result_bind, raise_if, from_platform.
  destruct (platform_can (gs_platform s) u permission) as [[]|]; naive_solver.
Qed.

(** The consumption of an approval and its authorization. *)
Definition consumed_by (audit : uuid) (at_ : datetime) : final_state := mkFinal (Some at_) (Some audit) None None.
Lemma one_way_consume expires row old wall audit f :
  one_way_update expires row old (mkFinal (Some wall) (Some audit) None None) = Some f → f = consumed_by audit row ∧ row < expires.
Proof. unfold one_way_update. simpl. intros H. case_in H. reflect_bools. done. Qed.
Lemma consume_Ok wall row ai xi audit s s' : consume wall row ai xi audit s = (Ok tt, s') →
  ∃ a x, s.(gs_approvals) !! ai = Some a ∧ s.(gs_authorizations) !! xi = Some x ∧ row < a.(da_expires_at) ∧ row < x.(ea_expires_at) ∧
    s' = put_authorizations (<[xi := with_authorization_final x (consumed_by audit row)]> s.(gs_authorizations))
           (put_approvals (<[ai := with_approval_final a (consumed_by audit row)]> s.(gs_approvals)) s).
Proof.
  unfold consume. destruct (s.(gs_approvals) !! ai) as [a|] eqn:Ea; simpl; [|done].
  destruct (s.(gs_authorizations) !! xi) as [x|] eqn:Ex; simpl; [|by case_match].
  unfold end_approval, end_authorization.
  destruct (one_way_update a.(da_expires_at) _ _ _) as [f|] eqn:Ef; [|done]. apply one_way_consume in Ef as [-> ?].
  destruct (final_checks a.(da_approved_at) _ _); [|done].
  destruct (one_way_update x.(ea_expires_at) _ _ _) as [f|] eqn:Ef; [|done]. apply one_way_consume in Ef as [-> ?].
  destruct (final_checks x.(ea_authorized_at) _ _); [|done]. case_match; [done|]. intros [= <-]. eauto 10.
Qed.

Section Execution.
Context (uuid4 : nat → uuid) (sha256_hex : pystr → pystr) (now wall row : datetime).

(** What an execution that deletes has verified and does. *)
Definition executed (s s' : grant_store) (xi : uuid) (x : LedgerExecutionAuthorization) (a : LedgerDeletionApproval) (request : LedgerDeletionRequest) :
    Prop :=
  s.(gs_authorizations) !! xi = Some x ∧ s.(gs_approvals) !! x.(ea_approval_id) = Some a ∧ s.(gs_requests) !! a.(da_request_id) = Some request ∧
  (* both are open and unexpired *)
  is_open x.(ea_final) = true ∧ is_open a.(da_final) = true ∧ wall < x.(ea_expires_at) ∧ wall < a.(da_expires_at) ∧
  deletion_verified s wall request a.(da_approved_by_user_id) x.(ea_authorized_by_user_id) ∧
  (* the rows deleted are those of the scope, as many as were approved and with the approved digest *)
  (∀ i, s'.(gs_ledger) !! i = match s.(gs_ledger) !! i with
                              | Some b => if decide (b.(ga_tenant_id) ∈ request.(dr_tenant_ids)) then None else Some b
                              | None => None
                              end) ∧
  total_rows (rows_of s request.(dr_tenant_ids)) = a.(da_eligible_ledger_rows) ∧
  eligible_ledger_digest sha256_hex (rows_of s request.(dr_tenant_ids)) = a.(da_eligible_digest) ∧
  (* both are consumed *)
  ∃ audit, s'.(gs_approvals) !! x.(ea_approval_id) = Some (with_approval_final a (consumed_by audit row)) ∧
    s'.(gs_authorizations) !! xi = Some (with_authorization_final x (consumed_by audit row)) ∧ row < a.(da_expires_at).

Lemma refusal_open final expires wall' c1 c2 c3 :
  (if present final.(fin_consumed_at) then Some c1 else if present final.(fin_invalidated_at) then Some c2
   else if expires <=? wall' then Some c3 else (None : option string)) = None → is_open final = true ∧ wall' < expires.
Proof using Type.
  unfold is_open, present. destruct (absent final.(fin_consumed_at)), (absent final.(fin_invalidated_at)); simpl; try done.
  destruct (expires <=? wall') eqn:E; [done|]. intros _. split; [done|]. by apply Z.leb_gt in E.
Qed.

(** The steps of an execution that deletes: the checks, the deletion, the consumption. *)
Lemma execute_body_inv xi reason s d s' : execute_body uuid4 sha256_hex now wall row xi reason true s = (Ok d, s') →
  ∃ x a request chain audit s1 s2,
    s.(gs_authorizations) !! xi = Some x ∧ s.(gs_approvals) !! x.(ea_approval_id) = Some a ∧ s.(gs_requests) !! a.(da_request_id) = Some request ∧
    authorization_refusal x wall = None ∧ approval_refusal a wall = None ∧
    platform_can (gs_platform s) x.(ea_authorized_by_user_id) P_SECURITY_RETENTION_REPORT = Ok true ∧
    verify_deletion_chain sha256_hex s request a.(da_approved_by_user_id) (Some x.(ea_authorized_by_user_id)) wall (Some a) = Ok chain ∧
    tables s1 = tables (put_ledger (without (chain.(vc_scope).(sc_rows) ≫= snd) s.(gs_ledger)) s) ∧
    consume wall row x.(ea_approval_id) xi audit s1 = (Ok tt, s2) ∧ tables s' = tables s2.
Proof using Type.
  unfold execute_body. intros (s0 & s1 & [= <- <-] & H)%bind_Ok.
  destruct (s.(gs_authorizations) !! xi) as [x|] eqn:Ex; [|done].
  destruct (s.(gs_approvals) !! x.(ea_approval_id)) as [a|] eqn:Ea; [|done].
  destruct (s.(gs_requests) !! a.(da_request_id)) as [request|] eqn:Er; [|done]. cbv zeta in H.
  destruct (authorization_refusal x wall) eqn:Erx; [done|]. destruct (approval_refusal a wall) eqn:Era; [done|].
  apply bind_Ok in H as ([] & s1 & Hauth & H). apply bind_Ok in H as (chain & s2 & Hchain & H). apply bind_Ok in H as (ts & s3 & Hts & H).
  unfold lift in Hchain, Hts. injection Hchain as Hchain <-. injection Hts as _ <-. cbn [negb] in H.
  pose proof (authorized_user _ PERMISSION_GRANT_LEDGER_EXPIRED_DELETE _ _ _ eq_refl Hauth) as Hcan.
  pose proof (quiet_Ok _ _ _ _ (on_platform_quiet _) Hauth) as Hq0.
  apply bind_Ok in H as ([] & s2 & Hdel & H). apply delete_scope_Ok in Hdel as ->.
  apply bind_Ok in H as (run & s3 & Hq3 & H). apply quiet_Ok in Hq3; [|apply gdraw_quiet].
  apply bind_Ok in H as (? & s4 & Hq4 & H). apply quiet_Ok in Hq4; [|apply record_act_quiet].
  apply bind_Ok in H as (? & s5 & Hq5 & H). apply quiet_Ok in Hq5; [|apply record_tenants_quiet].
  apply bind_Ok in H as (consume_id & s6 & Hq6 & H). apply quiet_Ok in Hq6; [|apply gdraw_quiet].
  apply bind_Ok in H as (? & s7 & Hq7 & H). apply quiet_Ok in Hq7; [|apply record_act_quiet].
  apply bind_Ok in H as ([] & s8 & Hc & H). apply bind_Ok in H as (? & s9 & Hq9 & H). unfold ret in H. injection H as _ <-.
  apply quiet_Ok in Hq9; [|apply reads_quiet, require_audit_row_reads].
  exists x, a, request, chain, consume_id, s7, s8. rewrite Hq6, Hq5, Hq4, Hq3 in Hq7. split_and!; try done.
  rewrite Hq7. unfold tables in Hq0 |- *. simpl. congruence.
Qed.

Lemma execute_body_Ok xi reason s d s' : execute_body uuid4 sha256_hex now wall row xi reason true s = (Ok d, s') →
  ∃ x a request, executed s s' xi x a request.
Proof using Type.
  intros (x & a & request & chain & audit & s1 & s2 & Ex & Ea & Er & Erx & Era & Hcan & Hchain & H1 & Hc & H2)%execute_body_inv.
  apply refusal_open in Erx as [? ?], Era as [? ?].
  destruct (verify_chain_spec _ _ _ _ _ _ _ _ Hchain Hcan) as (Hver & Hrows & Htotal & Hdigest). rewrite Hrows in H1.
  apply consume_Ok in Hc as (a' & x' & Ha' & Hx' & ? & ? & ->). unfold tables in H1, H2. simpl in H1, H2.
  injection H1 as L1 _ _ _ A1 X1. injection H2 as L2 _ _ _ A2 X2. rewrite A1, Ea in Ha'. rewrite X1, Ex in Hx'. injection Ha' as <-. injection Hx' as <-.
  exists x, a, request. unfold executed. split_and!; try done.
  - intros i. rewrite L2, L1, without_lookup. destruct (s.(gs_ledger) !! i) as [b|] eqn:Ei; [|by case_decide].
    apply decide_ext. rewrite rows_of_elem. naive_solver.
  - exists audit. by rewrite A2, X2, !lookup_insert_eq.
Qed.

(** The last step of an execution consumes; the rows apart, nothing has changed before it. *)
Lemma execute_consumes xi reason s d s' : execute_body uuid4 sha256_hex now wall row xi reason true s = (Ok d, s') →
  ∃ x audit s1 s2, s.(gs_authorizations) !! xi = Some x ∧ s1.(gs_requests) = s.(gs_requests) ∧ s1.(gs_approvals) = s.(gs_approvals) ∧
    s1.(gs_authorizations) = s.(gs_authorizations) ∧ consume wall row x.(ea_approval_id) xi audit s1 = (Ok tt, s2) ∧ tables s2 = tables s'.
Proof using Type.
  intros (x & a & request & chain & audit & s1 & s2 & Ex & _ & _ & _ & _ & _ & _ & H1 & Hc & H2)%execute_body_inv.
  unfold tables in H1. simpl in H1. injection H1 as _ _ _ Q1 A1 X1. exists x, audit, s1, s2. by split_and!.
Qed.

(** An execution that fails leaves the tables alone. *)
Lemma execute_cases xi reason s :
  let s' := (execute_authorized_permission_grant_ledger_deletion uuid4 sha256_hex true now wall row xi reason true s).2 in
  tables s' = tables s ∨ ∃ reason' d, execute_body uuid4 sha256_hex now wall row xi reason' true s = (Ok d, s').
Proof using Type.
  unfold execute_authorized_permission_grant_ledger_deletion, execution_refusals, valid_reason, bind, lift. cbn [negb andb].
  destruct (from_platform (validate_reason reason)) as [reason'|e]; simpl; [|left; repeat case_match; done].
  unfold transaction. destruct (execute_body uuid4 sha256_hex now wall row xi reason' true s) as [[d|e] s'] eqn:Ee; simpl; [right; eauto|].
  left. repeat case_match; done.
Qed.
End Execution.

(** ** The retention period *)

Definition leap (y : Z) : Z := if is_leap y then 1 else 0.
Lemma days_before_year_next y : days_before_year (y + 1) = days_before_year y + 365 + leap y.
Proof.
  unfold days_before_year, leap, is_leap. replace (y + 1 - 1) with y by lia.
  destruct (y mod 4 =? 0) eqn:E4, (y mod 100 =? 0) eqn:E100, (y mod 400 =? 0) eqn:E400; simpl; reflect_bools;
    Z.to_euclidean_division_equations; lia.
Qed.
Lemma days_before_two_years y : days_before_year (y + 2) = days_before_year y + 730 + leap y + leap (y + 1).
Proof. replace (y + 2) with (y + 1 + 1) by lia. rewrite !days_before_year_next. lia. Qed.
Lemma leap_sparse y : 0 ≤ leap y ≤ 1 ∧ leap y + leap (y + 1) ≤ 1.
Proof.
  unfold leap, is_leap. destruct (y mod 4 =? 0) eqn:E4, ((y + 1) mod 4 =? 0) eqn:E5; simpl; reflect_bools; repeat case_match;
    Z.to_euclidean_division_equations; lia.
Qed.
Lemma leap_two_years y : is_leap y = true → is_leap (y + 2) = false.
Proof.
  unfold is_leap. intros H. reflect_bools; apply andb_false_iff; left; apply Z.eqb_neq; Z.to_euclidean_division_equations; lia.
Qed.
Lemma days_before_year_mono y z : y ≤ z → days_before_year y ≤ days_before_year z.
Proof. intros H. unfold days_before_year. Z.to_euclidean_division_equations. lia. Qed.

(** Two calendar years later, at the same time of day; 29 February becomes 1 March. *)
Definition two_years_after (t : datetime) : datetime :=
  let '(y, m, d) := date_of t in
  (if (m =? 2) && (d =? 29) then ymd2ord (y + 2) 3 1 else ymd2ord (y + 2) m d) * us_per_day + t mod us_per_day.
(** The instants whose retention ends within the calendar. *)
Definition retainable (t : datetime) : Prop := 0 ≤ t < days_before_year 9998 * us_per_day.

Lemma date_of_spec t : retainable t → let '(y, m, d) := date_of t in
  1 ≤ y ≤ 9997 ∧ 1 ≤ m ≤ 12 ∧ 1 ≤ d ≤ days_in_month y m ∧ t = ymd2ord y m d * us_per_day + t mod us_per_day ∧ 0 ≤ t mod us_per_day < us_per_day.
Proof.
  unfold retainable. intros Ht. assert (0 ≤ t / us_per_day < 3651329) as Hn.
  { change (days_before_year 9998) with 3651329 in Ht. unfold us_per_day, us_per_second in *. Z.to_euclidean_division_equations. lia. }
  pose proof (ord2ymd_spec (t / us_per_day) ltac:(lia)) as H. unfold date_of. destruct (ord2ymd (t / us_per_day)) as [[y m] d].
  destruct H as (Hy & Hm & Hd & Ho). repeat split; try lia.
  - destruct (decide (y ≤ 9997)); [done|]. exfalso. pose proof (days_before_year_mono 9998 y ltac:(lia)) as Hmono.
    change (days_before_year 9998) with 3651329 in Hmono. unfold ymd2ord in Ho. unfold days_before_month in Ho.
    assert (0 ≤ (month_table m).1) by (destruct m as [|m|]; [lia| |lia]; repeat (destruct m as [m|m|]; try (simpl; lia))).
    destruct ((2 <? m) && is_leap y); lia.
  - by apply Z.mod_pos_bound.
Qed.

Lemma days_in_month_leap y z m d : 1 ≤ d ≤ days_in_month y m → (m =? 2) && (d =? 29) = false → d ≤ days_in_month z m.
Proof.
  unfold days_in_month. intros Hd Hm. destruct (m =? 2) eqn:E2; simpl in *; [|lia]. apply Z.eqb_eq in E2 as ->. simpl in *.
  apply Z.eqb_neq in Hm. destruct (is_leap y), (is_leap z); lia.
Qed.
Lemma ymd2ord_bound y m d : y ≤ 9999 → 1 ≤ m ≤ 12 → 1 ≤ d ≤ days_in_month y m → ymd2ord y m d < 3652059.
Proof.
  intros Hy Hm Hd. unfold ymd2ord. pose proof (days_before_year_mono (y + 1) 10000 ltac:(lia)) as Hmono.
  rewrite days_before_year_next in Hmono. change (days_before_year 10000) with 3652059 in Hmono.
  unfold days_before_month, days_in_month, leap in *.
  assert (m ∈ [1; 2; 3; 4; 5; 6; 7; 8; 9; 10; 11; 12]) as Hc by (rewrite !elem_of_cons; lia).
  rewrite !elem_of_cons, elem_of_nil in Hc. destruct_or! Hc; subst; try done; destruct (is_leap y); simpl in *; lia.
Qed.

Lemma retention_expires_two_years t : retainable t → retention_expires_at t = Some (two_years_after t).
Proof.
  intros Ht. pose proof (date_of_spec t Ht) as H. unfold retention_expires_at, two_years_after, RETENTION_PERIOD_YEARS.
  destruct (date_of t) as [[y m] d]. destruct H as (Hy & Hm & Hd & _ & Htod). unfold replace_date.
  assert ((1 <=? y + 2) && (y + 2 <=? 9999) = true) as -> by lia. simpl.
  destruct ((m =? 2) && (d =? 29)) eqn:Hf.
  - apply andb_prop in Hf as [->%Z.eqb_eq ->%Z.eqb_eq]. assert (is_leap y = true) as Hl.
    { unfold days_in_month in Hd. simpl in Hd. destruct (is_leap y); [done|lia]. }
    apply leap_two_years in Hl. unfold days_in_month. simpl. rewrite Hl. simpl. unfold dt_add, datetime_end.
    assert (ymd2ord (y + 2) 3 1 = ymd2ord (y + 2) 2 28 + 1) as Hs by (unfold ymd2ord, days_before_month; rewrite Hl; simpl; lia).
    pose proof (ymd2ord_bound (y + 2) 3 1 ltac:(lia) ltac:(lia) ltac:(unfold days_in_month; simpl; lia)) as Hb.
    assert (0 ≤ ymd2ord (y + 2) 2 28) as H0.
    { unfold ymd2ord, days_before_month. simpl. pose proof (days_before_year_mono 1 (y + 2) ltac:(lia)) as Hm0. change (days_before_year 1) with 0 in Hm0. lia. }
    rewrite Hs in *. unfold us_per_day, us_per_second in *.
    destruct (_ && _) eqn:Ec; [f_equal; lia|]. exfalso. apply andb_false_iff in Ec as [Ec|Ec]; [apply Z.leb_gt in Ec|apply Z.ltb_ge in Ec]; lia.
  - pose proof (days_in_month_leap y (y + 2) m d Hd Hf). assert ((1 <=? m) && (m <=? 12) && (1 <=? d) && (d <=? days_in_month (y + 2) m) = true) as Hc by lia.
    rewrite <- !andb_assoc in *. by rewrite Hc.
Qed.
Lemma two_years_length t : retainable t → 730 * us_per_day ≤ two_years_after t - t ≤ 731 * us_per_day.
Proof.
  intros Ht. pose proof (date_of_spec t Ht) as H. unfold two_years_after. destruct (date_of t) as [[y m] d].
  destruct H as (Hy & Hm & Hd & He & _). assert (730 ≤ (if (m =? 2) && (d =? 29) then ymd2ord (y + 2) 3 1 else ymd2ord (y + 2) m d) - ymd2ord y m d ≤ 731) as Hdays.
  { pose proof (leap_sparse y). pose proof (leap_sparse (y + 1)). replace (y + 1 + 1) with (y + 2) in * by lia.
    unfold ymd2ord. rewrite days_before_two_years. destruct ((m =? 2) && (d =? 29)) eqn:Hf.
    - apply andb_prop in Hf as [->%Z.eqb_eq ->%Z.eqb_eq]. assert (is_leap y = true) as Hl by (unfold days_in_month in Hd; simpl in Hd; destruct (is_leap y); [done|lia]).
      pose proof (leap_two_years y Hl) as Hl2. unfold days_before_month. rewrite Hl2. unfold leap in *. rewrite Hl, Hl2 in *. simpl. lia.
    - unfold days_before_month. unfold leap in *. destruct (2 <? m); simpl; destruct (is_leap y), (is_leap (y + 1)), (is_leap (y + 2)); lia. }
  unfold us_per_day, us_per_second in *. lia.
Qed.

Section Claims.
Context (uuid4 : nat → uuid) (created_at : uuid → datetime) (sha256_hex : pystr → pystr).

(** C20: whatever operations run on an empty register, in any order, at any times
    and for any state of the rest of the deployment, the register stays well
    formed and append-only: every designation confirms, within 72 hours, one
    proposal for its subject that two other people made and confirmed; every
    enrolment is by the subject of a designation in force, of somebody else, and
    takes 120 days to count; a proposal is confirmed, an entry revoked and an
    enrolment renewed once at most; of two enrolments of one account or one
    person that are in force at the same time one renews the other; and nobody
    is representative and approver at the same time. *)
Theorem register_integrity deletion_enabled before after_ s :
  s.(gs_register) = ∅ →
  let s1 := ghistory uuid4 created_at sha256_hex deletion_enabled before s in
  let s2 := ghistory uuid4 created_at sha256_hex deletion_enabled after_ s1 in
  register_wf s2.(gs_register) ∧ s1.(gs_register) ⊆ s2.(gs_register).
Proof using Type.
  intros H0 s1 s2. pose proof (ghistory_keeps register_grows uuid4 created_at sha256_hex deletion_enabled before s (deletion_steps_executions _ _ _ _ _)) as [_ H1].
  pose proof (ghistory_keeps register_grows uuid4 created_at sha256_hex deletion_enabled after_ s1 (deletion_steps_executions _ _ _ _ _)) as [H2 H3].
  split; [|done]. apply H3, H1. rewrite H0. apply register_wf_empty.
Qed.

(** C28: as the code stands, with deletion disabled, the ledger is append-only
    evidence: over any history of operations no row is removed or changed, not
    by an approved and authorized execution either, and a migration is recorded
    for a tenant once at most. *)
Theorem ledger_append_only cmds s :
  ledger_keyed s.(gs_ledger) →
  let s' := ghistory uuid4 created_at sha256_hex DELETION_ENABLED cmds s in
  s.(gs_ledger) ⊆ s'.(gs_ledger) ∧ ledger_keyed s'.(gs_ledger).
Proof using Type.
  intros H0 s'. pose proof (ghistory_keeps ledger_grows uuid4 created_at sha256_hex DELETION_ENABLED cmds s (disabled_executions _ _ _ _ eq_refl)) as [H1 H2].
  split; [done|by apply H2].
Qed.

(** C18: whether deletion is enabled or not, and whatever the operation: if a
    ledger row is no longer in the ledger as it was, the operation was the
    execution of a deletion, deletion was enabled, and the deletion was verified
    at that moment.  Its authorization and its approval were open and unexpired;
    the approver was not the requester and the authorizer not the approver; none
    of the three could manage authority; approver and authorizer could still
    report, were enrolled (not revoked, under a live designation, past the delay,
    within validity) as two different people, unlinked to the requester and to
    each other by provenance, neither of them a hold manager nor the releaser of
    a hold of the scope; every tenant of the scope had been purged once, at a
    known time, two years ago or more, and was under no hold.  The execution
    deleted exactly the rows of the scope's tenants, in the approved number and
    with the approved digest, and consumed the approval and the authorization. *)
Theorem ledger_deletion_verified deletion_enabled now wall row cmd s i b :
  let s' := gexec uuid4 created_at sha256_hex deletion_enabled (mkTimes now wall row, cmd) s in
  s.(gs_ledger) !! i = Some b → s'.(gs_ledger) !! i ≠ Some b →
  deletion_enabled = true ∧ ∃ xi reason x a request,
    cmd = GExecute xi reason true ∧ executed sha256_hex wall row s s' xi x a request ∧ b.(ga_tenant_id) ∈ request.(dr_tenant_ids).
Proof using Type.
  intros s' Hi Hn. destruct (may_delete deletion_enabled cmd) eqn:Hm.
  - destruct cmd; try done. simpl in Hm. reflect_bools. subst. split; [done|]. simpl in s'.
    destruct (execute_cases uuid4 sha256_hex now wall row authorization_id reason s) as [Ht|(reason' & d & He)].
    + exfalso. apply Hn. unfold tables in Ht. injection Ht as Ht _ _ _ _ _. unfold s'. by rewrite Ht.
    + destruct (execute_body_Ok _ _ _ _ _ _ _ _ _ _ He) as (x & a & request & Hx). exists authorization_id, reason, x, a, request.
      split; [done|]. split; [done|]. destruct Hx as (_ & _ & _ & _ & _ & _ & _ & _ & Hl & _). specialize (Hl i). rewrite Hi in Hl.
      case_decide; [done|]. by destruct Hn.
  - exfalso. apply Hn. pose proof (gexec_keeps ledger_grows uuid4 created_at sha256_hex deletion_enabled (mkTimes now wall row, cmd) s (or_introl Hm)) as [Hl _].
    by eapply lookup_weaken.
Qed.


End Claims.

(** C35: the retention decision of a tenant always returns, for purges the
    calendar can date two years later, and says eligible exactly when the tenant
    is purged, its purge was completed once on record, no hold is active and two
    calendar years have passed, 29 February counting to 1 March; that is 730 or
    731 days. *)
Theorem retention_exact s t at_ :
  Forall retainable (tenant_purge_completion_times s t) →
  ∃ d, decide_tenant s t at_ = Ok d ∧
    (decision_eligible d = true ↔
       ∃ tenant purged, s.(gs_tenancy).(ts_tenants) !! t = Some tenant ∧ tenant.(t_status) = PURGED ∧
         tenant_purge_completion_times s t = [purged] ∧ active_holds s t = 0%nat ∧ two_years_after purged ≤ at_) ∧
    (∀ purged, d.(rd_purged_at) = Some purged →
       d.(rd_expires_at) = Some (two_years_after purged) ∧ 730 * us_per_day ≤ two_years_after purged - purged ≤ 731 * us_per_day).
Proof.
  intros Hr. unfold decide_tenant, tenant_status, retention_eligibility, decision_eligible.
  destruct (s.(gs_tenancy).(ts_tenants) !! t) as [tenant|] eqn:Et; simpl; [|eexists; split; [done|split; [|done]]; naive_solver].
  destruct (bool_decide (tenant.(t_status) = PURGED)) eqn:Ep; simpl; reflect_bools; [|eexists; split; [done|split; [|done]]; naive_solver].
  destruct (tenant_purge_completion_times s t) as [|purged [|q l]] eqn:El; [eexists; split; [done|split; [|done]]; naive_solver| |eexists; split; [done|split; [|done]]; naive_solver].
  apply Forall_cons in Hr as [Hr _]. rewrite (retention_expires_two_years _ Hr). eexists. split; [done|]. split.
  - rewrite bool_decide_eq_true. simpl. case_bool_decide; [split; [done|naive_solver lia]|].
    destruct (at_ <? two_years_after purged) eqn:Ea; reflect_bools; [split; [done|naive_solver lia]|].
    split; [|done]. intros _. exists tenant, purged. repeat split; [done|lia|done].
  - simpl. intros ? [= <-]. split; [done|]. by apply two_years_length.
Qed.

(** * Approvals and authorizations over histories

    Requests never change; an approval or an authorization changes once at most,
    when it is consumed or invalidated.  [chain_wf]: every approval binds exactly
    its request, every authorization is within its approval, and an approval is
    consumed by one authorization at most, with the same audit row. *)

(** ** One row's end *)

(** A final state may be reached from another: an ended one stays. *)
Definition final_step (old new : final_state) : Prop := is_open old = false → new = old.
#[export] Instance final_step_preorder : PreOrder final_step.
Proof.
  split; [by intros f _|]. intros f g h H1 H2 Hf. specialize (H1 Hf) as ->. by apply H2.
Qed.

Record final_ok (start expires : datetime) (f : final_state) : Prop := {
  fo_checks : final_checks start expires f = true;
  fo_consumed t : f.(fin_consumed_at) = Some t → t < expires;
}.
Lemma open_record_ok start expires : start < expires → final_ok start expires open_record.
Proof. intros H. split; [unfold final_checks; simpl; by apply Z.ltb_lt in H as ->|done]. Qed.

Lemma one_way_ok start expires row old new f : one_way_update expires row old new = Some f → final_checks start expires f = true →
  final_ok start expires f ∧ is_open old = true.
Proof.
  unfold one_way_update, is_open, present. intros H Hc.
  destruct (absent old.(fin_consumed_at)), (absent old.(fin_invalidated_at)); simpl in H; try done. split; [|done].
  split; [done|]. case_in H; simpl; naive_solver lia.
Qed.

(** An UPDATE leaves the rows it does not select. *)
Lemma update_where_lookup {A} selected (change : A → option A) m m' n i a :
  update_where selected change m = Some (m', n) → m !! i = Some a →
  ∃ a', m' !! i = Some a' ∧ if selected a then change a = Some a' else a' = a.
Proof.
  unfold update_where. case_match eqn:Hf; [|done]. intros [= <- <-] Hi. rewrite lookup_omap, Hi. simpl.
  rewrite forallb_forall in Hf. specialize (Hf (i, a) ltac:(by apply list_elem_of_In, elem_of_map_to_list)). simpl in Hf.
  destruct (selected a); [|eauto]. simpl in Hf. unfold present in Hf. destruct (change a); naive_solver.
Qed.
Lemma update_where_None {A} selected (change : A → option A) m m' n i :
  update_where selected change m = Some (m', n) → m !! i = None → m' !! i = None.
Proof. unfold update_where. case_match; [|done]. intros [= <- <-] Hi. by rewrite lookup_omap, Hi. Qed.

(** ** How the tables evolve *)

Definition approvals_step (m m' : gmap uuid LedgerDeletionApproval) : Prop :=
  ∀ i a, m !! i = Some a → ∃ f, m' !! i = Some (with_approval_final a f) ∧ final_step a.(da_final) f.
Definition authorizations_step (m m' : gmap uuid LedgerExecutionAuthorization) : Prop :=
  ∀ i x, m !! i = Some x → ∃ f, m' !! i = Some (with_authorization_final x f) ∧ final_step x.(ea_final) f.

Lemma with_approval_id a : with_approval_final a a.(da_final) = a.
Proof. by destruct a. Qed.
Lemma with_authorization_id x : with_authorization_final x x.(ea_final) = x.
Proof. by destruct x. Qed.
#[export] Instance approvals_step_preorder : PreOrder approvals_step.
Proof.
  split; [intros m i a Hi; exists a.(da_final); by rewrite with_approval_id|]. intros m1 m2 m3 H1 H2 i a Hi.
  destruct (H1 _ _ Hi) as (f & Hf & Hs). destruct (H2 _ _ Hf) as (g & Hg & Hs'). exists g. split; [done|]. by etrans.
Qed.
#[export] Instance authorizations_step_preorder : PreOrder authorizations_step.
Proof.
  split; [intros m i a Hi; exists a.(ea_final); by rewrite with_authorization_id|]. intros m1 m2 m3 H1 H2 i a Hi.
  destruct (H1 _ _ Hi) as (f & Hf & Hs). destruct (H2 _ _ Hf) as (g & Hg & Hs'). exists g. split; [done|]. by etrans.
Qed.

(** ** Well-formedness *)

Definition approval_ok (requests : gmap uuid LedgerDeletionRequest) (a : LedgerDeletionApproval) : Prop :=
  final_ok a.(da_approved_at) a.(da_expires_at) a.(da_final) ∧ a.(da_expires_at) = a.(da_approved_at) + APPROVAL_VALIDITY ∧
  ∃ q, requests !! a.(da_request_id) = Some q ∧ bound_of q (Some a) = bound_of q None ∧
    a.(da_approved_by_user_id) ≠ q.(dr_requested_by_user_id) ∧ a.(da_approved_at) < q.(dr_expires_at).
Definition authorization_ok (approvals : gmap uuid LedgerDeletionApproval) (x : LedgerExecutionAuthorization) : Prop :=
  final_ok x.(ea_authorized_at) x.(ea_expires_at) x.(ea_final) ∧
  x.(ea_expires_at) ≤ x.(ea_authorized_at) + EXECUTION_AUTHORIZATION_VALIDITY ∧
  ∃ a, approvals !! x.(ea_approval_id) = Some a ∧ x.(ea_authorized_by_user_id) ≠ a.(da_approved_by_user_id) ∧
    x.(ea_expires_at) ≤ a.(da_expires_at) ∧
    (is_Some x.(ea_final).(fin_consumed_at) → a.(da_final) = x.(ea_final)).

Record chain_wf (s : grant_store) : Prop := {
  cw_request i q : s.(gs_requests) !! i = Some q → q.(dr_tenant_ids) = sorted_ids (fromkeys q.(dr_tenant_ids)) ∧ 0 < q.(dr_eligible_ledger_rows) ∧
    q.(dr_expires_at) = q.(dr_requested_at) + REQUEST_VALIDITY;
  cw_approval i a : s.(gs_approvals) !! i = Some a → approval_ok s.(gs_requests) a;
  cw_one_approval i j a b : s.(gs_approvals) !! i = Some a → s.(gs_approvals) !! j = Some b → a.(da_request_id) = b.(da_request_id) → i = j;
  cw_authorization i x : s.(gs_authorizations) !! i = Some x → authorization_ok s.(gs_approvals) x;
  cw_consumed_once i j x y : s.(gs_authorizations) !! i = Some x → s.(gs_authorizations) !! j = Some y →
    x.(ea_approval_id) = y.(ea_approval_id) → is_Some x.(ea_final).(fin_consumed_at) → is_Some y.(ea_final).(fin_consumed_at) → i = j;
}.

Definition chain_steps : relation grant_store := λ s s',
  s.(gs_requests) ⊆ s'.(gs_requests) ∧ approvals_step s.(gs_approvals) s'.(gs_approvals) ∧
  authorizations_step s.(gs_authorizations) s'.(gs_authorizations) ∧ (chain_wf s → chain_wf s').
#[export] Instance chain_steps_preorder : PreOrder chain_steps.
Proof.
  split; [intros s; by split_and!|]. intros s1 s2 s3 (H1 & H2 & H3 & H4) (H5 & H6 & H7 & H8). split_and!; [by etrans..|tauto].
Qed.
Lemma chain_same s s' : s.(gs_requests) = s'.(gs_requests) → s.(gs_approvals) = s'.(gs_approvals) →
  s.(gs_authorizations) = s'.(gs_authorizations) → chain_steps s s'.
Proof.
  intros H1 H2 H3. unfold chain_steps. rewrite H1, H2, H3. split_and!; [done..|]. intros [C1 C2 C3 C4 C5].
  rewrite H1, H2, H3 in *. by split.
Qed.

(** ** The inserts *)

Lemma approval_ok_grown m m' a : m ⊆ m' → approval_ok m a → approval_ok m' a.
Proof. intros Hm (H1 & H2 & q & Hq & H). split_and!; [done..|]. exists q. split; [by eapply lookup_weaken|done]. Qed.
Lemma insert_request_steps sha row id r : keeps chain_steps (insert_request sha row id r).
Proof.
  intros s. unfold insert_request. case_match eqn:Hc; [reflexivity|]. simpl. reflect_bools.
  assert (s.(gs_requests) !! id = None) as Hid by (by apply eq_None_not_Some).
  split_and!; simpl; [by apply insert_subseteq|reflexivity..|]. intros [C1 C2 C3 C4 C5]. split; simpl; try done.
  - intros i q [[<- <-]|[? Hi]]%lookup_insert_Some; [simpl; split_and!; [done|lia|done]|by eapply C1].
  - intros i a Hi. eapply approval_ok_grown; [by apply insert_subseteq|by eapply C2].
Qed.
Lemma authorization_ok_grown m m' x : m ⊆ m' → authorization_ok m x → authorization_ok m' x.
Proof. intros Hm (H1 & H2 & a & Ha & H). split_and!; [done..|]. exists a. split; [by eapply lookup_weaken|done]. Qed.
Lemma approvals_grown m m' : m ⊆ m' → approvals_step m m'.
Proof. intros Hm i a Hi. exists a.(da_final). rewrite with_approval_id. split; [by eapply lookup_weaken|done]. Qed.
Lemma authorizations_grown m m' : m ⊆ m' → authorizations_step m m'.
Proof. intros Hm i a Hi. exists a.(ea_final). rewrite with_authorization_id. split; [by eapply lookup_weaken|done]. Qed.

Lemma insert_approval_steps row id a : keeps chain_steps (insert_approval row id a).
Proof.
  intros s. unfold insert_approval. destruct (s.(gs_requests) !! a.(da_request_id)) as [q|] eqn:Eq; [|reflexivity].
  case_match eqn:Hc; [reflexivity|]. simpl. reflect_bools.
  assert (s.(gs_approvals) !! id = None) as Hid by (by apply eq_None_not_Some).
  assert (∀ m, s.(gs_approvals) ⊆ <[id := m]> s.(gs_approvals)) as Hsub by (intros; by apply insert_subseteq).
  split_and!; simpl; [done|by apply approvals_grown|reflexivity|]. intros [C1 C2 C3 C4 C5]. split; simpl; try done.
  - intros i b [[<- <-]|[? Hi]]%lookup_insert_Some; [|by eapply C2]. split_and!; simpl; [apply open_record_ok; unfold APPROVAL_VALIDITY, us_per_hour, us_per_second; lia|done|].
    exists q. split_and!; [done| |done|lia]. unfold bound_of. simpl. congruence.
  - intros i j b c [[<- <-]|[? Hi]]%lookup_insert_Some [[<- <-]|[? Hj]]%lookup_insert_Some Hr; [done|..|by eapply C3].
    all: match goal with He : exists_row _ _ = false, Hk : gs_approvals _ !! _ = Some _ |- _ => pose proof (exists_row_false _ _ _ _ He Hk) as Hx end.
    all: simpl in Hx, Hr; reflect_bools; congruence.
  - intros i x Hi. by eapply authorization_ok_grown, C4.
Qed.

Lemma insert_authorization_steps row id x : keeps chain_steps (insert_authorization row id x).
Proof.
  intros s. unfold insert_authorization. destruct (s.(gs_approvals) !! x.(ea_approval_id)) as [a|] eqn:Ea; [|reflexivity].
  case_match eqn:Hc; [reflexivity|]. simpl. reflect_bools.
  assert (s.(gs_authorizations) !! id = None) as Hid by (by apply eq_None_not_Some).
  split_and!; simpl; [done|reflexivity|by apply authorizations_grown, insert_subseteq|]. intros [C1 C2 C3 C4 C5]. split; simpl; try done.
  - intros i y [[<- <-]|[? Hi]]%lookup_insert_Some; [|by eapply C4].
    split_and!; simpl; [apply open_record_ok; unfold EXECUTION_AUTHORIZATION_VALIDITY, us_per_hour, us_per_second; lia|lia|].
    exists a. split_and!; [done..|lia|by intros [? ?]].
  - intros i j y z [[<- <-]|[? Hi]]%lookup_insert_Some [[<- <-]|[? Hj]]%lookup_insert_Some; simpl; [done|by intros _ [? ?]|by intros _ _ [? ?]|by eapply C5].
Qed.

(** ** The updates *)

Lemma end_approval_spec row new a a' : end_approval row new a = Some a' →
  ∃ f, a' = with_approval_final a f ∧ final_ok a.(da_approved_at) a.(da_expires_at) f ∧ is_open a.(da_final) = true ∧
    one_way_update a.(da_expires_at) row a.(da_final) new = Some f.
Proof.
  unfold end_approval. destruct (one_way_update _ _ _ _) as [f|] eqn:Ef; [|done]. destruct (final_checks _ _ f) eqn:Ec; [|done]. intros [= <-].
  destruct (one_way_ok _ _ _ _ _ _ Ef Ec). eauto.
Qed.
Lemma end_authorization_spec row new x x' : end_authorization row new x = Some x' →
  ∃ f, x' = with_authorization_final x f ∧ final_ok x.(ea_authorized_at) x.(ea_expires_at) f ∧ is_open x.(ea_final) = true ∧
    one_way_update x.(ea_expires_at) row x.(ea_final) new = Some f.
Proof.
  unfold end_authorization. destruct (one_way_update _ _ _ _) as [f|] eqn:Ef; [|done]. destruct (final_checks _ _ f) eqn:Ec; [|done]. intros [= <-].
  destruct (one_way_ok _ _ _ _ _ _ Ef Ec). eauto.
Qed.
Lemma final_step_open old f : is_open old = true → final_step old f.
Proof. unfold final_step. congruence. Qed.
Lemma consumed_not_open f : is_Some f.(fin_consumed_at) → is_open f = false.
Proof. intros [t Ht]. unfold is_open. by rewrite Ht. Qed.

(** An update of approvals and authorizations in which what is newly consumed
    is at most the authorization [only], together with its approval. *)
Section Update.
Context (s s' : grant_store) (only : option uuid).
Context (Hq : s'.(gs_requests) = s.(gs_requests)).
Context (Ha : ∀ i a', s'.(gs_approvals) !! i = Some a' → ∃ a, s.(gs_approvals) !! i = Some a ∧ a' = with_approval_final a a'.(da_final) ∧
  (a' = a ∨ final_ok a.(da_approved_at) a.(da_expires_at) a'.(da_final))).
Context (Hx : ∀ i x', s'.(gs_authorizations) !! i = Some x' → ∃ x, s.(gs_authorizations) !! i = Some x ∧ x' = with_authorization_final x x'.(ea_final) ∧
  (x' = x ∨ final_ok x.(ea_authorized_at) x.(ea_expires_at) x'.(ea_final)) ∧
  (is_Some x'.(ea_final).(fin_consumed_at) → x' = x ∨ only = Some i)).
Context (Hs : approvals_step s.(gs_approvals) s'.(gs_approvals)).
Context (Ho : ∀ i x' a', only = Some i → s'.(gs_authorizations) !! i = Some x' → s'.(gs_approvals) !! x'.(ea_approval_id) = Some a' →
  a'.(da_final) = x'.(ea_final) ∧
  ∀ a, s.(gs_approvals) !! x'.(ea_approval_id) = Some a → is_open a.(da_final) = true).

Lemma update_old_consumed i x x' : chain_wf s → s.(gs_authorizations) !! i = Some x → x' = x → is_Some x.(ea_final).(fin_consumed_at) →
  ∀ a', s'.(gs_approvals) !! x.(ea_approval_id) = Some a' → a'.(da_final) = x.(ea_final).
Proof using Hs.
  intros Hw Hi _ Hc a' Ha'. destruct (cw_authorization _ Hw _ _ Hi) as (_ & _ & a & Hal & _ & _ & Hf). specialize (Hf Hc).
  destruct (Hs _ _ Hal) as (f & Hf' & Hst). rewrite Hf' in Ha'. injection Ha' as <-. simpl. rewrite Hst, Hf; [done|].
  rewrite Hf. by apply consumed_not_open.
Qed.
Lemma update_authorization i x' : chain_wf s → s'.(gs_authorizations) !! i = Some x' → authorization_ok s'.(gs_approvals) x'.
Proof using Hq Ha Hx Hs Ho.
  intros Hw Hi. destruct (Hx _ _ Hi) as (x & Hxi & He & Hfin & Hnew). pose proof (cw_authorization _ Hw _ _ Hxi) as (H1 & H2 & a & Hal & H3 & H4 & H5).
  destruct (Hs _ _ Hal) as (f & Hf & Hst).
  assert (x'.(ea_approval_id) = x.(ea_approval_id) ∧ x'.(ea_expires_at) = x.(ea_expires_at) ∧ x'.(ea_authorized_at) = x.(ea_authorized_at) ∧
    x'.(ea_authorized_by_user_id) = x.(ea_authorized_by_user_id)) as (E1 & E2 & E3 & E4) by (rewrite He; done).
  unfold authorization_ok. rewrite E1, E2, E3, E4. split_and!; [destruct Hfin as [->|]; done|done|]. eexists. split; [exact Hf|]. split_and!; [done..|].
  intros Hc. destruct (Hnew Hc) as [-> | Honly].
  - by eapply (update_old_consumed i x x).
  - destruct (Ho i x' (with_approval_final a f) Honly Hi) as [Heq _]; [by rewrite E1|done].
Qed.

Lemma update_wf : chain_wf s → chain_wf s'.
Proof using Hq Ha Hx Hs Ho.
  intros Hw. split.
  - rewrite Hq. apply (cw_request _ Hw).
  - intros i a' Hi. destruct (Ha _ _ Hi) as (a & Hai & He & Hf). pose proof (cw_approval _ Hw _ _ Hai) as Hok. rewrite Hq.
    destruct Hf as [-> | Hf]; [done|]. destruct Hok as (H1 & H2 & H3). rewrite He. by split_and!.
  - intros i j a b Hi Hj. destruct (Ha _ _ Hi) as (a0 & Hai & -> & _). destruct (Ha _ _ Hj) as (b0 & Hbj & -> & _). simpl. by eapply (cw_one_approval _ Hw).
  - intros i x' Hi. by eapply update_authorization.
  - intros i j x' y' Hi Hj He Hc Hd. destruct (Hx _ _ Hi) as (x & Hxi & Ex & _ & Hnx). destruct (Hx _ _ Hj) as (y & Hyj & Ey & _ & Hny).
    assert (∀ k z l w w', only = Some k → s'.(gs_authorizations) !! k = Some z → s.(gs_authorizations) !! l = Some w → w' = w →
      w.(ea_approval_id) = z.(ea_approval_id) → is_Some w.(ea_final).(fin_consumed_at) → False) as Hno.
    { intros k z l w w' Hk Hz Hwl _ Hap Hcw. destruct (update_authorization k z Hw Hz) as (_ & _ & a' & Ha' & _).
      destruct (Ho k z a' Hk Hz Ha') as [_ Hopen]. destruct (cw_authorization _ Hw _ _ Hwl) as (_ & _ & a & Hal & _ & _ & Hf).
      rewrite Hap in Hal. specialize (Hopen _ Hal). rewrite (Hf Hcw), (consumed_not_open _ Hcw) in Hopen. done. }
    destruct (Hnx Hc) as [->|H1], (Hny Hd) as [->|H2].
    + by eapply (cw_consumed_once _ Hw i j x y).
    + exfalso. by apply (Hno j y' i x x).
    + exfalso. by apply (Hno i x' j y y).
    + congruence.
Qed.
End Update.

(** ** Invalidation *)

Lemma update_where_inv {A} selected (change : A → option A) m m' n i a' :
  update_where selected change m = Some (m', n) → m' !! i = Some a' → ∃ a, m !! i = Some a ∧ if selected a then change a = Some a' else a' = a.
Proof.
  intros Hu Hi. destruct (m !! i) as [a|] eqn:Em; [|by rewrite (update_where_None _ _ _ _ _ _ Hu Em) in Hi].
  destruct (update_where_lookup _ _ _ _ _ _ _ Hu Em) as (b & Hb & H). exists a. rewrite Hi in Hb. by injection Hb as <-.
Qed.
Lemma one_way_invalidate expires row old now audit f :
  one_way_update expires row old (mkFinal None None (Some now) (Some audit)) = Some f → f.(fin_consumed_at) = None.
Proof. unfold one_way_update. simpl. intros H. case_in H. done. Qed.

Lemma invalidate_steps now row us audit : keeps chain_steps (invalidate now row us audit).
Proof.
  intros s. unfold invalidate. case_match; [reflexivity|]. cbv zeta.
  destruct (update_where _ (end_approval _ _) _) as [[m n]|] eqn:E1; [|reflexivity].
  destruct (update_where _ (end_authorization _ _) _) as [[m' n']|] eqn:E2; [|reflexivity]. simpl.
  assert (approvals_step s.(gs_approvals) m) as Hs.
  { intros i a Hi. destruct (update_where_lookup _ _ _ _ _ _ _ E1 Hi) as (a' & Ha' & H'). case_match.
    - apply end_approval_spec in H' as (f & -> & _ & Ho & _). exists f. split; [done|by apply final_step_open].
    - subst. exists a.(da_final). by rewrite with_approval_id. }
  split_and!; simpl; [done|done| |].
  - intros i x Hi. destruct (update_where_lookup _ _ _ _ _ _ _ E2 Hi) as (x' & Hx' & H'). case_match.
    + apply end_authorization_spec in H' as (f & -> & _ & Ho & _). exists f. split; [done|by apply final_step_open].
    + subst. exists x.(ea_final). by rewrite with_authorization_id.
  - apply (update_wf s _ None); simpl; try done.
    + intros i a' Hi. destruct (update_where_inv _ _ _ _ _ _ _ E1 Hi) as (a & Ha & H'). exists a. split; [done|]. case_match.
      * apply end_approval_spec in H' as (f & -> & Hf & _). simpl. auto.
      * subst. rewrite with_approval_id. auto.
    + intros i x' Hi. destruct (update_where_inv _ _ _ _ _ _ _ E2 Hi) as (x & Hx & H'). exists x. split; [done|]. case_match.
      * apply end_authorization_spec in H' as (f & -> & Hf & _ & Hone). simpl. apply one_way_invalidate in Hone. rewrite Hone.
        split_and!; [done|auto|by intros [? ?]].
      * subst. rewrite with_authorization_id. auto.
Qed.

#[export] Instance chain_table_steps : TableSteps chain_steps.
Proof.
  split.
  - apply _.
  - intros s s' H. unfold tables in H. simplify_eq. by apply chain_same.
  - intros * s. unfold insert_application, bind, gdraw. simpl. case_match; by apply chain_same.
  - intros * s. unfold insert_entry. table_cases; by apply chain_same.
  - apply invalidate_steps.
  - intros * s. unfold insert_hold. case_match; by apply chain_same.
  - intros * s. unfold release_hold. case_match; by apply chain_same.
  - apply insert_request_steps.
  - apply insert_approval_steps.
  - apply insert_authorization_steps.
Qed.

(** ** Consumption *)

Section Consumption.
Context (uuid4 : nat → uuid) (sha256_hex : pystr → pystr) (now wall row : datetime).

Lemma consume_steps s s1 xi x audit s' : s1.(gs_requests) = s.(gs_requests) → s1.(gs_approvals) = s.(gs_approvals) →
  s1.(gs_authorizations) = s.(gs_authorizations) → s.(gs_authorizations) !! xi = Some x →
  consume wall row x.(ea_approval_id) xi audit s1 = (Ok tt, s') → chain_steps s s'.
Proof using Type.
  intros Hq Ha Hx Hxi Hc. unfold consume in Hc. rewrite Hx, Ha, Hxi in Hc. simpl in Hc.
  destruct (s.(gs_approvals) !! x.(ea_approval_id)) as [a|] eqn:Ea; simpl in Hc; [|done].
  destruct (end_approval row _ a) as [a'|] eqn:Ea'; [|done]. destruct (end_authorization row _ x) as [x'|] eqn:Ex'; [|done].
  case_match; [done|]. injection Hc as <-. apply end_approval_spec in Ea' as (f & -> & Hf & Hoa & Hfa).
  apply end_authorization_spec in Ex' as (g & -> & Hg & Hox & Hgx).
  apply one_way_consume in Hfa as [-> _]. apply one_way_consume in Hgx as [-> _].
  set (fin := consumed_by audit row) in *. rewrite ?Hx, ?Ha.
  assert (approvals_step s.(gs_approvals) (<[x.(ea_approval_id) := with_approval_final a fin]> s.(gs_approvals))) as Hs.
  { intros i b Hi. destruct (decide (i = x.(ea_approval_id))) as [->|Hne].
    - rewrite lookup_insert_eq. exists fin. simplify_eq. split; [done|by apply final_step_open].
    - rewrite lookup_insert_ne by done. exists b.(da_final). by rewrite with_approval_id. }
  split_and!; simpl; [by rewrite Hq|done| |].
  - intros i y Hi. destruct (decide (i = xi)) as [->|Hne].
    + rewrite lookup_insert_eq. exists fin. simplify_eq. split; [done|by apply final_step_open].
    + rewrite lookup_insert_ne by done. exists y.(ea_final). by rewrite with_authorization_id.
  - apply (update_wf s _ (Some xi)); simpl; try done.
    + intros i b [[<- <-]|[? Hi]]%lookup_insert_Some; [exists a; simpl; auto|]. exists b. rewrite with_approval_id. auto.
    + intros i y [[<- <-]|[? Hi]]%lookup_insert_Some; [exists x; simpl; auto|]. exists y. rewrite with_authorization_id. auto.
    + intros i y b [= <-]. rewrite lookup_insert_eq. intros [= <-]. simpl. rewrite lookup_insert_eq. intros [= <-]. simpl.
      split; [done|]. intros c Hc. by simplify_eq.
Qed.

Lemma execute_steps xi reason : keeps chain_steps (execute_authorized_permission_grant_ledger_deletion uuid4 sha256_hex true now wall row xi reason true).
Proof using Type.
  intros s. destruct (execute_cases uuid4 sha256_hex now wall row xi reason s) as [Ht|(reason' & d & He)]; [by apply table_quiet|].
  revert He. generalize (execute_authorized_permission_grant_ledger_deletion uuid4 sha256_hex true now wall row xi reason true s).2. intros s' He.
  destruct (execute_consumes _ _ _ _ _ _ _ _ _ _ He) as (x & audit & s1 & s2 & Hx & H1 & H2 & H3 & Hc & Ht).
  etrans; [by eapply consume_steps|]. by apply table_quiet.
Qed.
End Consumption.

Section ChainClaims.
Context (uuid4 : nat → uuid) (created_at : uuid → datetime) (sha256_hex : pystr → pystr).

Lemma chain_executions deletion_enabled : executions_keep chain_steps uuid4 sha256_hex deletion_enabled.
Proof using Type. intros now wall row a reason ->. apply execute_steps. Qed.

(** C27: whatever operations run, in any order and at any times, from tables
    without requests, approvals or authorizations, and whether deletion is
    enabled or not: a request never changes; an approval and an authorization
    keep every column but their end, and once consumed or invalidated they never
    change again; a request has one approval at most, which binds exactly its
    scope, count and digest, is by somebody else and expires 72 hours after; an
    authorization is by somebody other than the approver and expires within the
    hour and within its approval; nothing is consumed after its expiry; and an
    approval is consumed by one authorization at most, both by the same act. *)
Theorem approvals_final deletion_enabled before after_ s :
  s.(gs_requests) = ∅ → s.(gs_approvals) = ∅ → s.(gs_authorizations) = ∅ →
  let s1 := ghistory uuid4 created_at sha256_hex deletion_enabled before s in
  let s2 := ghistory uuid4 created_at sha256_hex deletion_enabled after_ s1 in
  chain_wf s2 ∧ s1.(gs_requests) ⊆ s2.(gs_requests) ∧ approvals_step s1.(gs_approvals) s2.(gs_approvals) ∧
  authorizations_step s1.(gs_authorizations) s2.(gs_authorizations).
Proof using Type.
  intros H1 H2 H3 s1 s2.
  pose proof (ghistory_keeps chain_steps uuid4 created_at sha256_hex deletion_enabled before s (chain_executions _)) as (_ & _ & _ & Hw).
  pose proof (ghistory_keeps chain_steps uuid4 created_at sha256_hex deletion_enabled after_ s1 (chain_executions _)) as (Hq & Ha & Hx & Hw').
  split; [|done]. apply Hw', Hw. split; intros *; rewrite ?H1, ?H2, ?H3; by rewrite lookup_empty.
Qed.
End ChainClaims.
