(* ===== verification/GrantUpgrade.v ===== *)
(** * What a run of permission grant migrations does

    [upgraded]: between two stores, the tenants, the roles and every other RBAC
    table are the same; grants and ledger rows are added and none is lost; each
    new grant is of a declared, registered permission that does not change
    authority, to the role the declaration names; each new ledger row is of a
    declared migration, in an open tenant, with the digest of its declaration. *)

From S2P Require Import Prelude StoreLogic PyStr TenantLifecycle PlatformAuthority PlatformService TenantHierarchy RbacDecision RbacProofs RbacService RbacIntegrity RbacGuard Identity OutboxModel Webhooks GrantModel GrantApply GrantProofs.

Definition rows_rbac (s : grant_store) : rbac_rows := s.(gs_rbac).(rs_rows).
Definition grants_rbac (s : grant_store) : gmap uuid RolePermission := (rows_rbac s).(rb_role_permissions).
Definition tenants_rbac (s : grant_store) : gmap uuid Tenant := s.(gs_tenancy).(ts_tenants).

Lemma rows_with_own r : with_role_permissions r.(rb_role_permissions) r = r.
Proof. by destruct r. Qed.

(** The tables a run does not touch, or touches without effect. *)
Definition noise (s s' : grant_store) : Prop :=
  tenants_rbac s' = tenants_rbac s ∧ s'.(gs_rbac).(rs_roles) = s.(gs_rbac).(rs_roles) ∧ rows_rbac s' = rows_rbac s ∧ s'.(gs_ledger) = s.(gs_ledger).
#[export] Instance noise_preorder : PreOrder noise.
Proof. split; [by intros s|]. intros s1 s2 s3 (A & B & C & D) (E & F & G & H). unfold noise. split_and!; congruence. Qed.

Section Upgraded.
Context (V : list ValidatedMigration) (ns : pystr).

(** A grant the declarations ask for. *)
Definition justified (s : grant_store) (rp : RolePermission) : Prop :=
  ∃ item pair, item ∈ V ∧ pair ∈ item.(vm_migration).(mg_permissions) ∧
    (rows_rbac s).(rb_permissions) !! rp.(rp_permission_id) = Some pair ∧ is_authority_changing pair.1 pair.2 = false ∧
    s.(gs_rbac).(rs_roles) !! rp.(rp_role_id) = Some (mkRole rp.(rp_tenant_id) item.(vm_migration).(mg_role_name)).
(** The role of a migration holds what it declares. *)
Definition holds_all (s s' : grant_store) (t : uuid) (m : PermissionGrantMigration) : Prop :=
  ∃ role, s.(gs_rbac).(rs_roles) !! role = Some (mkRole t m.(mg_role_name)) ∧
    ∀ pair, pair ∈ m.(mg_permissions) → ∃ pid j, (rows_rbac s).(rb_permissions) !! pid = Some pair ∧
      grants_rbac s' !! j = Some (mkRolePermission t role pid).
(** A row the declarations ask for. *)
Definition entered (s s' : grant_store) (a : PermissionGrantApplication) : Prop :=
  ∃ item, item ∈ V ∧ a.(ga_namespace) = ns ∧ a.(ga_migration_id) = item.(vm_migration).(mg_id) ∧ a.(ga_content_digest) = item.(vm_digest) ∧
    (∃ tenant, tenants_rbac s !! a.(ga_tenant_id) = Some tenant ∧ is_closed tenant.(t_status) = false) ∧
    match a.(ga_outcome) with
    | APPLICATION_OUTCOME_APPLIED => holds_all s s' a.(ga_tenant_id) item.(vm_migration)
    | APPLICATION_OUTCOME_ROLE_MISSING =>
        ∀ i r, s.(gs_rbac).(rs_roles) !! i = Some r → r ≠ mkRole a.(ga_tenant_id) item.(vm_migration).(mg_role_name)
    end.

Record upgraded (s s' : grant_store) : Prop := {
  up_tenants : tenants_rbac s' = tenants_rbac s;
  up_roles : s'.(gs_rbac).(rs_roles) = s.(gs_rbac).(rs_roles);
  up_rows : rows_rbac s' = with_role_permissions (grants_rbac s') (rows_rbac s);
  up_grants : grants_rbac s ⊆ grants_rbac s';
  up_justified i rp : grants_rbac s' !! i = Some rp → grants_rbac s !! i = None → justified s rp;
  up_ledger : s.(gs_ledger) ⊆ s'.(gs_ledger);
  up_entered i a : s'.(gs_ledger) !! i = Some a → s.(gs_ledger) !! i = None → entered s s' a;
}.

Lemma upgraded_permissions s s' : upgraded s s' → (rows_rbac s').(rb_permissions) = (rows_rbac s).(rb_permissions).
Proof. intros H. by rewrite (up_rows _ _ H). Qed.
Lemma noise_upgraded s s' : noise s s' → upgraded s s'.
Proof.
  intros (H1 & H2 & H3 & H4). unfold grants_rbac in *. split; unfold grants_rbac; try rewrite H1; try rewrite H2; try rewrite H3; try rewrite H4; try done.
  - destruct (rows_rbac s). done.
  - intros i rp Hi Hn. congruence.
  - intros i a Hi Hn. congruence.
Qed.
Lemma entered_later s s1 s2 a : grants_rbac s1 ⊆ grants_rbac s2 → entered s s1 a → entered s s2 a.
Proof.
  intros Hg (item & H1 & H2 & H3 & H4 & H5 & H6). exists item. split_and!; [done..|]. destruct (a.(ga_outcome)); [|done].
  destruct H6 as (role & Hr & Hp). exists role. split; [done|]. intros pair Hpair. destruct (Hp pair Hpair) as (pid & j & ? & ?).
  exists pid, j. split; [done|by eapply lookup_weaken].
Qed.
Lemma justified_earlier s s1 rp : upgraded s s1 → justified s1 rp → justified s rp.
Proof.
  intros H (item & pair & H1 & H2 & H3 & H4 & H5). rewrite (upgraded_permissions _ _ H) in H3. rewrite (up_roles _ _ H) in H5.
  by exists item, pair.
Qed.
Lemma entered_earlier s s1 s2 a : upgraded s s1 → entered s1 s2 a → entered s s2 a.
Proof.
  intros H (item & H1 & H2 & H3 & H4 & H5 & H6). rewrite (up_tenants _ _ H) in H5. exists item. split_and!; [done..|].
  destruct (a.(ga_outcome)); [|by rewrite (up_roles _ _ H) in H6]. destruct H6 as (role & Hr & Hp). rewrite (up_roles _ _ H) in Hr.
  exists role. split; [done|]. setoid_rewrite (upgraded_permissions _ _ H) in Hp. done.
Qed.
#[export] Instance upgraded_preorder : PreOrder upgraded.
Proof.
  split; [intros s; by apply noise_upgraded|]. intros s1 s2 s3 H1 H2. split.
  - rewrite (up_tenants _ _ H2). apply H1.
  - rewrite (up_roles _ _ H2). apply H1.
  - rewrite (up_rows _ _ H2) at 1. rewrite (up_rows _ _ H1). done.
  - etrans; [apply H1|apply H2].
  - intros i rp Hi Hn. destruct (grants_rbac s2 !! i) as [rp'|] eqn:E.
    + pose proof (lookup_weaken _ _ _ _ E (up_grants _ _ H2)). simplify_eq. by eapply up_justified.
    + eapply justified_earlier; [done|]. by eapply up_justified.
  - etrans; [apply H1|apply H2].
  - intros i a Hi Hn. destruct (s2.(gs_ledger) !! i) as [a'|] eqn:E.
    + pose proof (lookup_weaken _ _ _ _ E (up_ledger _ _ H2)). simplify_eq. eapply entered_later; [apply H2|]. by eapply up_entered.
    + eapply entered_earlier; [done|]. by eapply up_entered.
Qed.
End Upgraded.

(** ** Steps without effect *)

Lemma on_platform_noise {A} (m : PM A) : keeps noise (on_platform m).
Proof. intros s. unfold on_platform. by destruct (m (gs_platform s)). Qed.
Lemma gdraw_noise uuid4 : keeps noise (gdraw uuid4).
Proof. by intros s. Qed.
Lemma record_act_noise now c op t tt' reason md i : keeps noise (record_act now c op t tt' reason md i).
Proof.
  unfold record_act. keeps_step; [apply on_platform_noise|]. intros s. by case_match.
Qed.
Lemma record_refusal_noise c op t code s : noise s (record_refusal c op t code s).
Proof. done. Qed.
Lemma refusals_noise {A} R `{!PreOrder R} (HR : ∀ s s', noise s s' → R s s') code c op t (m : GM A) :
  keeps R m → keeps R (refusals_recorded code c op t m).
Proof.
  intros H s. unfold refusals_recorded. specialize (H s). destruct (m s) as [[a|e] s']; [done|]. simpl in *.
  destruct (code e); [|done]. simpl. etrans; [done|]. by apply HR.
Qed.

Lemma refusals_cases {A} code c op t (m : GM A) s r s' : refusals_recorded code c op t m s = (r, s') → ∃ s1, m s = (r, s1) ∧ noise s1 s'.
Proof.
  unfold refusals_recorded. destruct (m s) as [[a|e] s1]; [intros [= <- <-]; by exists s1|].
  destruct (code e); intros [= <- <-]; by exists s1.
Qed.
Lemma session_cases {A} c op (m : GM A) s r s' : platform_session c op m s = (r, s') →
  match r with Ok a => ∃ s0, noise s s0 ∧ m s0 = (Ok a, s') | Raise _ => s' = s end.
Proof.
  unfold platform_session, transaction. destruct (bind _ _ s) as [[a|e] s1] eqn:E; intros [= <- <-]; [|done].
  apply bind_Ok in E as (u & s0 & H1 & H2). exists s0. split; [|done]. pose proof (on_platform_noise (λ p, (authorize_platform_caller p c op, p)) s) as Hn.
  by rewrite H1 in Hn.
Qed.
Lemma noise_session {A} c op (m : GM A) : keeps noise m → keeps noise (platform_session c op m).
Proof.
  intros H s. destruct (platform_session c op m s) as [r s'] eqn:E. apply session_cases in E. destruct r as [a|e]; [|by subst].
  destruct E as (s0 & H0 & E). etrans; [exact H0|]. specialize (H s0). by rewrite E in H.
Qed.
Lemma noise_refusals {A} code c op t (m : GM A) : keeps noise m → keeps noise (refusals_recorded code c op t m).
Proof. apply refusals_noise; [apply _|done]. Qed.

(** ** One grant *)

Lemma grant_registered_spec uuid4 t role pid st b st' :
  grant_registered_permission_to_role uuid4 t role pid (SystemCaller PERMISSION_UPGRADE) st = (Ok b, st') →
  ∃ pair M, st.(rs_rows).(rb_permissions) !! pid = Some pair ∧ is_authority_changing pair.1 pair.2 = false ∧
    st'.(rs_roles) = st.(rs_roles) ∧ st'.(rs_rows) = with_role_permissions M st.(rs_rows) ∧ st.(rs_rows).(rb_role_permissions) ⊆ M ∧
    (∀ i rp, M !! i = Some rp → st.(rs_rows).(rb_role_permissions) !! i = None → rp = mkRolePermission t role pid) ∧
    ∃ i, M !! i = Some (mkRolePermission t role pid).
Proof.
  unfold grant_registered_permission_to_role. rewrite bool_decide_eq_true_2 by done. cbn [negb].
  intros (pair & s1 & H1 & H)%bind_Ok. unfold get_permission_by_id in H1. destruct (st.(rs_rows).(rb_permissions) !! pid) as [p|] eqn:Ep; [|done].
  injection H1 as <- <-. destruct (is_authority_changing p.1 p.2) eqn:Ea; [done|].
  apply bind_Ok in H as ([] & s2 & H1 & H). unfold get_role in H1. destruct (role_exists st t role); [|done]. injection H1 as <-.
  apply bind_Ok in H as (existing & s3 & H1 & H). unfold in_rows in H1. injection H1 as <- <-. exists p.
  destruct (find_row _ _) as [i|] eqn:Ef.
  - unfold ret in H. injection H as <- <-. exists st.(rs_rows).(rb_role_permissions). apply find_row_Some in Ef as (rp & Hi & Hp).
    unfold is_grant in Hp. reflect_bools. split_and!; try done; [by destruct (st.(rs_rows))|intros; congruence|].
    exists i. rewrite Hi. f_equal. destruct rp. simpl in *. congruence.
  - apply bind_Ok in H as (id & s4 & H1 & H). unfold insert_role_permission, insert_row in H1. cbv zeta in H1.
    destruct (_ || _) eqn:Hc in H1; [done|]. injection H1 as <- <-. reflect_bools.
    apply bind_Ok in H as ([] & s5 & Hrec & H). unfold record in Hrec. injection Hrec as <-. unfold ret in H. injection H as <- <-. simpl.
    eexists. split_and!; [done|done|done|done| | |eexists; by rewrite lookup_insert_eq].
    + apply insert_subseteq. by apply eq_None_not_Some.
    + intros i rp [[<- <-]|[? Hi]]%lookup_insert_Some; [done|]. congruence.
Qed.

(** The ids of the pairs are those of the registry. *)
Definition resolved (ids : gmap (string * string) uuid) (s : grant_store) : Prop :=
  ∀ p id, ids !! p = Some id → (rows_rbac s).(rb_permissions) !! id = Some p.

Section Pass.
Context (uuid4 : nat → uuid) (now : datetime) (V : list ValidatedMigration) (ns : pystr) (ids : gmap (string * string) uuid).

Lemma resolved_upgraded s s' : upgraded V ns s s' → resolved ids s → resolved ids s'.
Proof using Type. intros H Hr p id Hp. rewrite (upgraded_permissions _ _ _ _ H). by apply Hr. Qed.

Lemma grant_one_upgraded t role item s pid pair b st' : item ∈ V → pair ∈ item.(vm_migration).(mg_permissions) →
  (rows_rbac s).(rb_permissions) !! pid = Some pair →
  s.(gs_rbac).(rs_roles) !! role = Some (mkRole t item.(vm_migration).(mg_role_name)) →
  grant_registered_permission_to_role uuid4 t role pid (SystemCaller PERMISSION_UPGRADE) s.(gs_rbac) = (Ok b, st') →
  upgraded V ns s (put_rbac st' s) ∧ ∃ j, grants_rbac (put_rbac st' s) !! j = Some (mkRolePermission t role pid).
Proof using Type.
  intros HV Hpair Hpid Hrole Hg. apply grant_registered_spec in Hg as (p & M & Hp & Ha & Hroles & Hrows & Hsub & Hnew & i & Hi).
  unfold rows_rbac in Hpid. simplify_eq. split; [|exists i; unfold grants_rbac, rows_rbac; simpl; by rewrite Hrows].
  split; unfold grants_rbac, rows_rbac; simpl; try rewrite Hrows; try done.
  - intros k rp Hk Hn. simpl in Hk. rewrite (Hnew _ _ Hk Hn). exists item, pair. by split_and!.
  - intros k a Hk Hn. congruence.
Qed.

Lemma grant_pairs_spec t role item pairs s c s' : item ∈ V → (∀ p, p ∈ pairs → p ∈ item.(vm_migration).(mg_permissions)) → resolved ids s →
  s.(gs_rbac).(rs_roles) !! role = Some (mkRole t item.(vm_migration).(mg_role_name)) →
  grant_pairs uuid4 true t role ids pairs s = (Ok c, s') →
  upgraded V ns s s' ∧ s'.(gs_ledger) = s.(gs_ledger) ∧
  ∀ p, p ∈ pairs → ∃ pid j, (rows_rbac s).(rb_permissions) !! pid = Some p ∧ grants_rbac s' !! j = Some (mkRolePermission t role pid).
Proof using Type.
  intros HV. revert s c s'. induction pairs as [|p pairs IH]; intros s c s' Hin Hres Hrole; simpl.
  - unfold ret. intros [= <- <-]. split; [reflexivity|]. split; [done|]. set_solver.
  - destruct (ids !! p) as [pid|] eqn:Ep; [|done]. intros (b & s1 & H1 & H)%bind_Ok.
    unfold on_rbac in H1. destruct (grant_registered_permission_to_role _ _ _ _ _ _) as [[b'|e] st'] eqn:Eg; [|done]. injection H1 as <- <-.
    destruct (grant_one_upgraded t role item s pid p _ _ HV ltac:(set_solver) (Hres _ _ Ep) Hrole Eg) as [Hup (j & Hj)].
    apply bind_Ok in H as (c' & s2 & H2 & H). destruct c' as [added present]. unfold ret in H. injection H as _ <-.
    destruct (IH (put_rbac st' s) (added, present) s2) as (Hup2 & Hl & Hall); [set_solver|by eapply resolved_upgraded| |done|].
    { by rewrite (up_roles _ _ _ _ Hup). }
    split; [by etrans|]. split; [done|]. intros q [->|Hq]%elem_of_cons.
    + exists pid, j. split; [by apply Hres|]. eapply lookup_weaken; [done|apply Hup2].
    + destruct (Hall q Hq) as (pid' & j' & Hp' & Hj'). exists pid', j'. by rewrite <- (upgraded_permissions _ _ _ _ Hup).
Qed.

(** ** One migration *)

(** The migration is in the tenant's ledger, as declared. *)
Definition recorded (s : grant_store) (t : uuid) (item : ValidatedMigration) : Prop :=
  ∃ i a, s.(gs_ledger) !! i = Some a ∧ a.(ga_tenant_id) = t ∧ a.(ga_namespace) = ns ∧
    a.(ga_migration_id) = item.(vm_migration).(mg_id) ∧ a.(ga_content_digest) = item.(vm_digest).
Lemma recorded_later s s' t item : s.(gs_ledger) ⊆ s'.(gs_ledger) → recorded s t item → recorded s' t item.
Proof using Type. intros Hs (i & a & Hi & H). exists i, a. split; [by eapply lookup_weaken|done]. Qed.

Lemma role_named_spec s t name r : role_named s t name = Ok r →
  match r with
  | Some role => s.(gs_rbac).(rs_roles) !! role = Some (mkRole t name)
  | None => ∀ i x, s.(gs_rbac).(rs_roles) !! i = Some x → x ≠ mkRole t name
  end.
Proof using Type.
  unfold role_named. set (l := filter _ _). assert (∀ i x, (i, x) ∈ l ↔ s.(gs_rbac).(rs_roles) !! i = Some x ∧ x = mkRole t name) as Hl.
  { intros i x. unfold l. rewrite list_elem_of_filter, elem_of_map_to_list. simpl. destruct x as [t' n']. simpl. naive_solver. }
  clearbody l. destruct l as [|[i x] [|y l]]; simpl; intros [= <-].
  - intros i x Hi ->. specialize (Hl i (mkRole t name)). set_solver.
  - specialize (Hl i x). set_solver.
Qed.
Lemma insert_application_spec row s s' : insert_application uuid4 row s = (Ok tt, s') →
  ∃ id, s.(gs_ledger) !! id = None ∧ s' = put_ledger (<[id := row]> s.(gs_ledger)) (gbump s).
Proof using Type.
  unfold insert_application, bind, gdraw. simpl. case_match eqn:Hc; [done|]. intros [= <-]. reflect_bools.
  eexists. split; [|done]. by apply eq_None_not_Some.
Qed.
Lemma insert_upgraded row s s' : entered V ns s s row → insert_application uuid4 row s = (Ok tt, s') →
  upgraded V ns s s' ∧ ∃ i, s'.(gs_ledger) !! i = Some row.
Proof using Type.
  intros He (id & Hid & ->)%insert_application_spec. split; [|exists id; simpl; by rewrite lookup_insert_eq].
  split; try done; [by unfold grants_rbac, rows_rbac; simpl; rewrite rows_with_own| | |].
  - intros i rp Hi Hn. unfold grants_rbac, rows_rbac in *. simpl in *. congruence.
  - simpl. by apply insert_subseteq.
  - simpl. intros i a [[<- <-]|[? Hi]]%lookup_insert_Some Hn; [|congruence]. exact He.
Qed.

Lemma apply_one_spec t run ledger item k s k' s' : item ∈ V → resolved ids s →
  (∃ tenant, tenants_rbac s !! t = Some tenant ∧ is_closed tenant.(t_status) = false) →
  apply_one uuid4 now t ns ids (Some run) ledger item k s = (Ok k', s') →
  upgraded V ns s s' ∧ (is_Some (ledger !! item.(vm_migration).(mg_id)) ∨ recorded s' t item).
Proof using Type.
  intros HV Hres Hopen. unfold apply_one. case_bool_decide as Hin; [unfold ret; intros [= <- <-]; split; [reflexivity|by left]|].
  intros (role & s0 & Hr & H)%bind_Ok. injection Hr as Hr <-. apply role_named_spec in Hr.
  apply bind_Ok in H as ([[label added] present'] & s1 & H1 & H).
  assert (upgraded V ns s s1 ∧ s1.(gs_ledger) = s.(gs_ledger) ∧
    match label with APPLICATION_OUTCOME_APPLIED => holds_all s s1 t item.(vm_migration)
    | APPLICATION_OUTCOME_ROLE_MISSING => ∀ i r, s.(gs_rbac).(rs_roles) !! i = Some r → r ≠ mkRole t item.(vm_migration).(mg_role_name) end) as (Hup & Hl & Hlab).
  { destruct role as [role|]; [|unfold ret in H1; injection H1 as <- <- <- <-; by split; [reflexivity|]].
    apply bind_Ok in H1 as (c & s2 & H2 & H3). unfold ret in H3. injection H3 as <- _ _ <-. rewrite bool_decide_eq_true_2 in H2 by done.
    destruct (grant_pairs_spec t role item _ _ _ _ HV ltac:(done) Hres Hr H2) as (? & ? & ?). split_and!; [done..|]. by exists role. }
  apply bind_Ok in H as ([] & s2 & H2 & H). unfold ret in H. injection H as _ <-.
  eapply insert_upgraded in H2 as [Hup2 (i & Hi)].
  - split; [by etrans|]. right. eexists i, _. split; [exact Hi|done].
  - exists item. simpl. split_and!; [done..| |].
    + by rewrite (up_tenants _ _ _ _ Hup).
    + destruct label; [|by rewrite (up_roles _ _ _ _ Hup)]. destruct Hlab as (r & Hr' & Hp). exists r. rewrite (up_roles _ _ _ _ Hup).
      split; [done|]. by setoid_rewrite (upgraded_permissions _ _ _ _ Hup).
Qed.

Lemma apply_each_spec t run ledger items k s k' s' : (∀ i, i ∈ items → i ∈ V) → resolved ids s →
  (∃ tenant, tenants_rbac s !! t = Some tenant ∧ is_closed tenant.(t_status) = false) →
  apply_each uuid4 now t ns ids (Some run) ledger items k s = (Ok k', s') →
  upgraded V ns s s' ∧ ∀ i, i ∈ items → is_Some (ledger !! i.(vm_migration).(mg_id)) ∨ recorded s' t i.
Proof using Type.
  revert k s. induction items as [|item items IH]; intros k s HV Hres Hopen; simpl.
  - unfold ret. intros [= <- <-]. split; [reflexivity|set_solver].
  - intros (k1 & s1 & H1 & H)%bind_Ok. destruct (apply_one_spec _ _ _ _ _ _ _ _ (HV item ltac:(set_solver)) Hres Hopen H1) as [Hup Hr].
    destruct (IH k1 s1) as [Hup2 Hall]; [set_solver|by eapply resolved_upgraded|by rewrite (up_tenants _ _ _ _ Hup)|done|].
    split; [by etrans|]. intros i [->|Hi]%elem_of_cons; [|by apply Hall]. destruct Hr as [Hr|Hr]; [by left|right].
    eapply recorded_later; [apply Hup2|done].
Qed.

(** ** One tenant *)

Lemma ledger_of_recorded s t id d : ledger_of s t ns !! id = Some d →
  ∃ i a, s.(gs_ledger) !! i = Some a ∧ a.(ga_tenant_id) = t ∧ a.(ga_namespace) = ns ∧ a.(ga_migration_id) = id ∧ a.(ga_content_digest) = d.
Proof using Type.
  unfold ledger_of. intros H%elem_of_list_to_map_2. apply list_elem_of_fmap in H as ([i a] & [= -> ->] & Hf).
  apply list_elem_of_filter in Hf as [[H1 H2] Hi%elem_of_map_to_list]. eauto 10.
Qed.
Lemma refuse_changed_spec ledger items u : refuse_changed ledger items ns = Ok u → ∀ i d, i ∈ items →
  ledger !! i.(vm_migration).(mg_id) = Some d → d = i.(vm_digest).
Proof using Type.
  induction items as [|item items IH]; simpl; [set_solver|]. case_match eqn:Hc; [done|]. intros H i d [->|Hi]%elem_of_cons Hd; [|by eapply IH].
  rewrite Hd in Hc. by reflect_bools.
Qed.
Lemma apply_in_tenant_spec t c run s r s' : resolved ids s →
  (∃ tenant, tenants_rbac s !! t = Some tenant ∧ is_closed tenant.(t_status) = false) →
  apply_in_tenant uuid4 now t c ns V ids (Some run) s = (Ok r, s') →
  upgraded V ns s s' ∧ r.(tr_tenant_id) = t ∧ ∀ i, i ∈ V → recorded s' t i.
Proof using Type.
  intros Hres Hopen. unfold apply_in_tenant. intros (s0 & s1 & [= <- <-] & H)%bind_Ok. cbv zeta in H.
  apply bind_Ok in H as (u & s1 & H1 & H). unfold lift in H1. injection H1 as Hch <-.
  apply bind_Ok in H as (k & s1 & H1 & H). destruct (apply_each_spec t run _ V _ _ _ _ ltac:(done) Hres Hopen H1) as [Hup Hall].
  apply bind_Ok in H as ([] & s2 & H2 & H). unfold ret in H. injection H as <- <-.
  assert (noise s1 s2) as Hno.
  { case_match; [|unfold ret in H2; by injection H2 as <-]. unfold on_rbac, record in H2. simpl in H2. injection H2 as <-. done. }
  split; [etrans; [done|by apply noise_upgraded]|]. split; [done|]. intros i Hi. destruct Hno as (_ & _ & _ & Hl).
  destruct (Hall i Hi) as [[d Hd]|Hr]; [|eapply recorded_later; [|done]; by rewrite Hl].
  pose proof (refuse_changed_spec _ _ _ Hch i d Hi Hd) as ->. eapply (recorded_later s); [rewrite Hl; apply Hup|].
  destruct (ledger_of_recorded _ _ _ _ Hd) as (j & a & ?). by exists j, a.
Qed.

(** The outcomes of a tenant that is up to date. *)
Definition up_to_date (r : TenantGrantResult) : Prop := r.(tr_outcome) = TENANT_CHANGED ∨ r.(tr_outcome) = TENANT_UNCHANGED.

Lemma run_tenant_spec t c run s r s' : resolved ids s → run_tenant uuid4 now t c ns V ids (Some run) s = (r, s') →
  upgraded V ns s s' ∧ ∀ x, r = Ok x → up_to_date x → ∀ i, i ∈ V → recorded s' x.(tr_tenant_id) i.
Proof using Type.
  intros Hres. unfold run_tenant. destruct (refusals_recorded _ _ _ _ _ s) as [q s1] eqn:E.
  apply refusals_cases in E as (s2 & E%session_cases & Hno). destruct q as [x|e].
  - intros [= <- <-]. destruct E as (s0 & Hs0 & E). apply bind_Ok in E as (s0' & s3 & [= <- <-] & E).
    destruct (lock_open_tenant s0.(gs_tenancy) t) as [tenant|e] eqn:Hlock.
    + apply lock_open_tenant_Ok in Hlock. eapply apply_in_tenant_spec in E as (Hup & <- & Hall).
      * split; [etrans; [by apply noise_upgraded|]; etrans; [exact Hup|by apply noise_upgraded]|]. intros y [= <-] _ i Hi.
        eapply recorded_later; [|by apply Hall]. destruct Hno as (_ & _ & _ & ->). done.
      * eapply resolved_upgraded; [by apply noise_upgraded|done].
      * by exists tenant.
    + assert (s2 = s0 ∧ (x = bare_result t TENANT_CLOSED None ∨ x = bare_result t TENANT_NOT_FOUND None)) as [-> Hx]
        by (destruct e; unfold ret in E; injection E as <- <-; auto).
      split; [apply noise_upgraded; by etrans|]. intros y [= <-] [Hy|Hy]; destruct Hx as [-> | ->]; done.
  - subst s2. intros H. assert (s' = s1) as -> by (case_match; by injection H as <- <-). split; [by apply noise_upgraded|].
    intros x Hx [Hy|Hy]; subst r; case_match; injection H as ?; subst; done.
Qed.
Lemma run_each_spec c run ts s r s' : resolved ids s → run_each uuid4 now ts c ns V ids (Some run) s = (r, s') →
  upgraded V ns s s' ∧ ∀ rs, r = Ok rs → ∀ x, x ∈ rs → up_to_date x → ∀ i, i ∈ V → recorded s' x.(tr_tenant_id) i.
Proof using Type.
  revert s r s'. induction ts as [|t ts IH]; intros s r s' Hres; simpl.
  - unfold ret. intros [= <- <-]. split; [reflexivity|]. intros rs [= <-]. set_solver.
  - unfold bind at 1. destruct (run_tenant _ _ _ _ _ _ _ _ s) as [[x|e] s1] eqn:E; apply run_tenant_spec in E as [Hup Hx]; [|done| |done].
    2: { intros [= <- <-]. done. }
    unfold bind. destruct (run_each _ _ _ _ _ _ _ _ s1) as [[rs|e] s2] eqn:E; apply IH in E as [Hup2 Hrs]; [|by eapply resolved_upgraded| |by eapply resolved_upgraded].
    + unfold ret. intros [= <- <-]. split; [by etrans|]. intros rs' [= <-] y [->|Hy]%elem_of_cons Hd i Hi; [|by eapply Hrs].
      eapply recorded_later; [apply Hup2|by eapply Hx].
    + intros [= <- <-]. split; [by etrans|done].
Qed.

(** Without a run id nothing is written. *)
Lemma grant_pairs_dry t role pairs : keeps noise (grant_pairs uuid4 false t role ids pairs).
Proof using Type.
  induction pairs as [|p pairs IH]; simpl; [by intros s|]. destruct (ids !! p); [|by intros s].
  keeps_step; [by intros s|]. keeps_step; [done|]. case_match. by intros s.
Qed.
Lemma apply_each_dry t ledger items k : keeps noise (apply_each uuid4 now t ns ids None ledger items k).
Proof using Type.
  revert k. induction items as [|item items IH]; intros k; simpl; [by intros s|]. keeps_step; [|done].
  unfold apply_one. case_match; [by intros s|]. keeps_step; [by intros s|]. keeps_step.
  - case_match; [|by intros s]. keeps_step; [|by intros s]. rewrite bool_decide_eq_false_2 by (by intros [? ?]). apply grant_pairs_dry.
  - repeat case_match; (keeps_step; by intros s).
Qed.
Lemma run_each_dry c ts : keeps noise (run_each uuid4 now ts c ns V ids None).
Proof using Type.
  induction ts as [|t ts IH]; simpl; [by intros s|]. keeps_step; [|keeps_step; [done|by intros s]].
  assert (keeps noise (refusals_recorded platform_code c PERMISSION_GRANT_APPLY (namespace_target (Some ns)) (platform_session c PERMISSION_GRANT_APPLY
               (do* s := get in
                match lock_open_tenant s.(gs_tenancy) t with
                | Raise (TenantClosedError _ _) => ret (bare_result t TENANT_CLOSED None)
                | Raise _ => ret (bare_result t TENANT_NOT_FOUND None)
                | Ok _ => apply_in_tenant uuid4 now t c ns V ids None
                end)%store))) as H.
  { apply noise_refusals, noise_session. keeps_step; [by intros s|]. repeat (case_match; try by intros ?).
    unfold apply_in_tenant. keeps_step; [by intros ?|]. cbv zeta. keeps_step; [by intros ?|]. keeps_step; [apply apply_each_dry|].
    keeps_step; by intros ?. }
  intros s. specialize (H s). unfold run_tenant. destruct (refusals_recorded _ _ _ _ _ s) as [[x|e] s1]; [done|]. by case_match.
Qed.
End Pass.

(** ** The run *)

Section Run.
Context (uuid4 : nat → uuid) (created_at : uuid → datetime) (sha256_hex : pystr → pystr) (now : datetime).

(** What a declaration is recorded as. *)
Definition declared (m : PermissionGrantMigration) : ValidatedMigration := mkValidated m (permission_grant_migration_digest sha256_hex m).

Lemma validate_each_spec ns ms seen V : validate_each sha256_hex ns ms seen = Ok V → V = declared <$> ms.
Proof using Type.
  revert seen V. induction ms as [|m ms IH]; intros seen V; simpl; [by intros [= <-]|].
  destruct (declared_identifier _) as [id|]; [|done]. simpl. destruct (bool_decide _); [done|]. destruct (negb _); [done|].
  destruct (declared_text m.(mg_role_name) _); [|done]. simpl. destruct (declared_text _ _); [|done]. simpl.
  destruct (_ || _); [done|]. destruct (validate_pairs _ _ _); [|done]. simpl.
  destruct (validate_each _ _ _ _) eqn:E; [|done]. simpl. intros [= <-]. by rewrite (IH _ _ E).
Qed.
Lemma resolve_pairs_spec s mid pairs ids0 ids : resolved ids0 s → resolve_pairs s mid pairs ids0 = Ok ids → resolved ids s.
Proof using Type.
  revert ids0. induction pairs as [|p pairs IH]; intros ids0 H0; simpl; [by intros [= <-]|]. destruct (ids0 !! p); [by apply IH|].
  destruct (find_row _ _) as [id|] eqn:Ef; [|done]. apply IH. intros q i [[<- <-]|[_ Hq]]%lookup_insert_Some; [|by apply H0].
  apply find_row_Some in Ef as (x & Hx & Hp). unfold is_permission in Hp. reflect_bools. subst x. by destruct p.
Qed.
Lemma resolve_permissions_spec s V ids0 ids : resolved ids0 s → resolve_permissions s V ids0 = Ok ids → resolved ids s.
Proof using Type.
  revert ids0. induction V as [|i V IH]; intros ids0 H0; simpl; [by intros [= <-]|].
  destruct (resolve_pairs _ _ _ _) eqn:E; [|done]. simpl. apply IH. by eapply resolve_pairs_spec.
Qed.
Lemma start_run_spec c ns V named reason apply s r s' : start_run uuid4 created_at now c ns V named reason apply s = (r, s') →
  noise s s' ∧ ∀ ids targets run, r = Ok (ids, targets, run) → resolved ids s' ∧ (is_Some run ↔ apply = true).
Proof using Type.
  unfold start_run. intros E%session_cases. destruct r as [[[ids targets] run]|e]; [|subst; by split].
  destruct E as (s0 & H0 & E). apply bind_Ok in E as (x & s1 & [= <- <-] & E). apply bind_Ok in E as (ids' & s1 & H1 & E).
  unfold lift in H1. injection H1 as H1 <-. apply resolve_permissions_spec in H1; [|by intros p i; rewrite lookup_empty].
  cbv zeta in E. apply bind_Ok in E as (u & s1 & H2 & E). unfold lift in H2. injection H2 as _ <-.
  destruct apply.
  - apply bind_Ok in E as (rid & s1 & H3 & E). apply bind_Ok in E as (u' & s2 & H4 & E). unfold ret in E. injection E as <- <- <- <-.
    assert (noise s0 s2) as Hn.
    { etrans; [pose proof (gdraw_noise uuid4 s0) as Hg; rewrite H3 in Hg; exact Hg|].
      match type of H4 with ?m s1 = _ => assert (keeps noise m) as Hm by apply record_act_noise end. specialize (Hm s1). by rewrite H4 in Hm. }
    split; [by etrans|]. intros ? ? ? [= <- <- <-]. split; [|by split]. destruct Hn as (_ & _ & Hr & _). intros p i Hp. rewrite Hr. by apply H1.
  - unfold ret in E. injection E as <- <- <- <-. split; [done|]. intros ? ? ? [= <- <- <-]. split; [done|]. split; [by intros [? ?]|done].
Qed.
Lemma finish_run_noise c ns named reason rs : keeps noise (finish_run uuid4 now c ns named reason rs).
Proof using Type.
  apply noise_refusals, noise_session. unfold record_new_act. keeps_step; [apply gdraw_noise|]. apply record_act_noise.
Qed.

Section Checked.
Context (ns : pystr) (V : list ValidatedMigration) (apply : bool).

(** The part of a run after the declarations are accepted. *)
Definition run_effect {A} (results : A → list TenantGrantResult) (s : grant_store) (o : result grant_error A * grant_store) : Prop :=
  (if apply then upgraded V ns s o.2 else noise s o.2) ∧
  ∀ a, o.1 = Ok a → apply = true → ∀ x, x ∈ results a → up_to_date x → ∀ i, i ∈ V → recorded ns o.2 x.(tr_tenant_id) i.

Lemma effect_noise s s' : noise s s' → if apply then upgraded V ns s s' else noise s s'.
Proof using Type. destruct apply; [apply noise_upgraded|done]. Qed.
Lemma refused_effect {A} (results : A → list TenantGrantResult) s s' e : noise s s' → run_effect results s (Raise e, s').
Proof using Type. intros H. split; [by apply effect_noise|done]. Qed.
Lemma effect_before {A} (results : A → list TenantGrantResult) s s1 o : noise s s1 → run_effect results s1 o → run_effect results s o.
Proof using Type.
  intros H [H1 H2]. split; [|done]. destruct apply; [etrans; [by apply noise_upgraded|done]|by etrans].
Qed.
Lemma effect_after {A} (results : A → list TenantGrantResult) s s1 s2 r : noise s1 s2 → run_effect results s (r, s1) → run_effect results s (r, s2).
Proof using Type.
  intros H [H1 H2]. simpl in *. split; simpl.
  - destruct apply; [etrans; [done|by apply noise_upgraded]|by etrans].
  - intros a Ha Hap x Hx Hu i Hi. eapply recorded_later; [|by eapply H2]. destruct H as (_ & _ & _ & ->). done.
Qed.
Lemma effect_map {A B} (f : A → B) (ra : A → list TenantGrantResult) (rb : B → list TenantGrantResult) (m : GM A) s : (∀ a, rb (f a) = ra a) →
  run_effect ra s (m s) → run_effect rb s ((do* a := m in ret (f a))%store s).
Proof using Type.
  intros Hf. unfold bind. destruct (m s) as [[a|e] s1]; intros [Ha Hb]; (split; [exact Ha|]); simpl in *; [|done].
  intros b [= <-]. rewrite Hf. by apply Hb.
Qed.
Lemma run_each_effect c targets ids run s : resolved ids s → (is_Some run ↔ apply = true) →
  run_effect id s (run_each uuid4 now targets c ns V ids run s).
Proof using Type.
  intros Hres Hrun. destruct (run_each _ _ _ _ _ _ _ _ s) as [r s'] eqn:E. destruct run as [run|].
  - assert (apply = true) as Ha by (by apply Hrun). apply run_each_spec in E as [H1 H2]; [|done]. split; simpl; [by rewrite Ha|]. intros a -> _. by apply H2.
  - assert (apply = false) as Ha by (destruct apply; [|done]; by destruct (proj2 Hrun eq_refl)). split; simpl; rewrite Ha; [|done].
    pose proof (run_each_dry uuid4 now V ns ids c targets s) as Hd. by rewrite E in Hd.
Qed.

Lemma started_effect c named reason s :
  run_effect (λ q : option (list uuid) * pystr * option uuid * list TenantGrantResult, q.2) s
    ((do* started := refusals_recorded platform_code c PERMISSION_GRANT_APPLY (namespace_target
          (if bool_decide (0 < length ns ≤ 100)%nat then Some ns else None)) (start_run uuid4 created_at now c ns V named reason apply) in
      let '(permission_ids, targets, run_id) := started in
      do* _ := require_user_caller PERMISSION_GRANT_APPLY c in
      do* results := run_each uuid4 now targets c ns V permission_ids run_id in
      ret (named, reason, run_id, results))%store s).
Proof using Type.
  unfold bind at 1. destruct (refusals_recorded _ _ _ _ _ s) as [q s1] eqn:E. apply refusals_cases in E as (s0 & [Hs Hq]%start_run_spec & Hn).
  assert (noise s s1) as H1 by (by etrans). destruct q as [[[ids targets] run]|e]; [|by apply refused_effect].
  destruct (Hq _ _ _ eq_refl) as [Hres Hrun]. apply (effect_before _ _ _ _ H1). unfold bind at 1.
  destruct (require_user_caller _ c s1) as [[u|e] s2] eqn:Eu; destruct c; try done; unfold require_user_caller, ret, throw in Eu; injection Eu as <-; subst;
    try (by apply refused_effect).
  assert (resolved ids s2) as Hres2. { destruct Hn as (_ & _ & Hr & _). intros p i Hp. rewrite Hr. by apply Hres. }
  by apply (effect_map (λ rs, (named, reason, run, rs)) id), run_each_effect.
Qed.
End Checked.

(** C19: a run of permission grant migrations does what is declared and nothing else.  Declarations that are not
    valid are refused and change no grant, role, tenant or ledger row.  Otherwise, however the run ends and
    whichever tenants fail: tenants, roles and the other authorization tables are as they were; grants and ledger
    rows are only added, each new grant being of a declared, registered permission that does not change
    authority, to a role with the declared name, and each new ledger row being of a declared migration, with the
    digest of its declaration, in an open tenant, saying that it was applied only if the role holds every declared
    permission, and that the role is missing only if it is.  Without [apply] none is added.  In a run that
    returns, every tenant reported as changed or unchanged has every declared migration in its ledger. *)
Theorem upgrade_exact migrations ns c reason tenant_ids all_tenants apply s :
  let o := apply_permission_grant_migrations uuid4 created_at sha256_hex now migrations ns c reason tenant_ids all_tenants apply s in
  match validate_permission_grant_migrations sha256_hex migrations ns with
  | Raise e => o.1 = Raise e ∧ noise s o.2
  | Ok V => V = declared <$> migrations ∧ run_effect ns V apply run_tenants s o
  end.
Proof using Type.
  intros o. unfold o, apply_permission_grant_migrations. clear o.
  destruct (validate_permission_grant_migrations sha256_hex migrations ns) as [V|e] eqn:HV.
  2: { unfold bind, lift, refusals_recorded. simpl. by destruct (migration_code e). }
  split. { unfold validate_permission_grant_migrations in HV. destruct (declared_identifier ns) as [n|] eqn:En; [|done]. by eapply validate_each_spec. }
  unfold bind at 1. destruct (refusals_recorded _ _ _ _ _ s) as [q s1] eqn:E. apply refusals_cases in E as (s0 & E & Hn).
  assert (run_effect ns V apply (λ q : option (list uuid) * pystr * option uuid * list TenantGrantResult, q.2) s (q, s1)) as Hq.
  { apply (effect_after _ _ _ _ _ s0); [done|]. rewrite <- E. unfold bind at 1, lift at 1. unfold bind at 1, lift at 1.
    destruct (grant_scope tenant_ids all_tenants) as [named|e]; [|by apply refused_effect]. unfold bind at 1.
    unfold valid_reason, lift. destruct (from_platform _) as [reason'|e]; [|by apply refused_effect]. apply started_effect. }
  destruct q as [[[[named reason'] run] rs]|e]; [|split; [apply Hq|done]].
  assert (keeps noise (if bool_decide (is_Some run) then finish_run uuid4 now c ns named reason' rs else ret tt)) as Hf.
  { destruct (bool_decide (is_Some run)); [apply finish_run_noise|by intros ?]. }
  specialize (Hf s1). unfold bind. match type of Hf with noise s1 (?m s1).2 => destruct (m s1) as [[u|e] s2] end; simpl in Hf.
  all: destruct (effect_after _ _ _ _ _ _ _ _ Hf Hq) as [Ha Hb]; (split; [exact Ha|]); simpl; intros a Hr; try done.
  injection Hr as <-. exact (Hb (named, reason', run, rs) eq_refl).
Qed.
End Run.
