(* ===== verification/GrantDemo.v ===== *)
(** * A deployment with permission grants

    Olga (1) owns the installation, Sam (2) is of security, Rita (3) becomes the
    representative, Amy (4) and Ben (5) approvers, Quin (6) asks for a deletion.
    Acme (2000) has a role that an upgrade grants a permission; it is purged in
    2020, and in 2022, the retention being over, the deletion of its ledger row
    is requested, approved, authorized and, where deletion is enabled, executed. *)

From S2P Require Import Prelude StoreLogic PyStr PyTime PyText TenantLifecycle PlatformAuthority PlatformService TenantHierarchy RbacDecision RbacService RbacIntegrity Identity OutboxModel Webhooks GrantModel GrantApply GrantRegister GrantApproval GrantProofs GrantSafety GrantUpgrade.

Definition ldemo_uuid (n : nat) : uuid := (7000 + N.of_nat n)%N.
Definition ldemo_created (t : uuid) : datetime := Z.of_N t.
(** Sixty-four hexadecimal digits of a text. *)
Definition ldemo_sha256 (s : pystr) : pystr :=
  take 64 (((λ c, if (c mod 16 <? 10)%N then (48 + c mod 16)%N else (87 + c mod 16)%N) <$> s) ++ replicate 64 48%N).
Definition day (y m d : Z) : datetime := ymd2ord y m d * us_per_day.
Definition at_day (y m d : Z) : times := mkTimes (day y m d) (day y m d) (day y m d).

Definition operator (u : uuid) : uuid * PlatformOperator := ((10 + u)%N, mkOperator u OP_ACTIVE None 0 None).
Definition permitted (i u : uuid) (p : PlatformPermission) : uuid * PlatformGrant := (i, mkGrant (10 + u)%N p None 0 None None).
Definition ldemo_platform : platform_store :=
  mkPlatform (list_to_map ((λ u, (u, true)) <$> [1; 2; 3; 4; 5; 6]%N)) ∅ (list_to_map (operator <$> [1; 2; 3; 4; 5; 6]%N))
    (list_to_map [permitted 21 1 P_AUTHORITY_MANAGE; permitted 22 1 P_PERMISSION_GRANT_APPLY; permitted 23 2 P_SECURITY_RETENTION_HOLD_MANAGE;
                  permitted 24 3 P_SECURITY_RETENTION_REPORT; permitted 25 4 P_SECURITY_RETENTION_REPORT;
                  permitted 26 5 P_SECURITY_RETENTION_REPORT; permitted 27 6 P_SECURITY_RETENTION_REPORT]) [] 0.
Definition ldemo_tenants (status : TenantStatus) : tenancy_store :=
  mkTenancy {[ 2000%N := mkTenant (lit "acme") status None false; 2001%N := mkTenant (lit "globex") ACTIVE None false ]} ∅ ∅ ldemo_platform [] 0.
Definition ldemo_rbac : rbac_store :=
  mkRbacStore (mkRbac ∅ ∅ {[ 9001%N := ("report", "read") ]} ∅ ∅ ∅ ∅ ∅ ∅) {[ 9002%N := mkRole 2000 (lit "member") ]} [] 0.
Definition ldemo_sessions : gmap uuid Session :=
  list_to_map ((λ u, ((100 + u)%N, mkSession u [] (day 2030 1 1) None None true None)) <$> [1; 2; 3; 4; 5; 6]%N).
Definition ldemo_start : grant_store :=
  mkGrantStore (ldemo_tenants ACTIVE) ldemo_rbac ldemo_sessions ∅ ∅ ∅ ∅ ∅ ∅ ∅ 0.
Definition evidence (u : uuid) : option PlatformSessionEvidence := Some (mkEvidence (100 + u)%N true).

Definition ldemo_migration : PermissionGrantMigration :=
  mkMigration (lit "0001") (lit "reports") (lit "member") [("report", "read")] (lit "members read reports").
Definition ldemo_why : pystr := lit "planned work".
Definition ldemo_upgrade : times * gcommand :=
  (at_day 2020 1 1, GApply [ldemo_migration] (lit "reports") (UserCaller 1) ldemo_why [] true true).
(** The purge of acme, completed on 1 February 2020. *)
Definition ldemo_purge : times * gcommand :=
  (at_day 2020 2 1, GElsewhere (ldemo_tenants PURGED) ldemo_rbac ldemo_sessions
     {[ 8000%N := mkAct (SystemCaller TENANT_PURGE) (op_audit_action (platform_operation TENANT_PURGE_TRANSITION)) SUCCESS None (Some 2000%N)
                    (day 2020 2 1) [(lit "to_status", JStr (lit "purged"))] ]}).
Abbreviation ldemo_run := (ghistory ldemo_uuid ldemo_created ldemo_sha256 true).
Definition ldemo_upgraded : grant_store := ldemo_run [ldemo_upgrade] ldemo_start.

(** Rita's designation and the enrolments of Amy and Ben. *)
Definition ldemo_register : list (times * gcommand) :=
  [(at_day 2022 1 1, GPropose 3 (UserCaller 1) (evidence 1) (lit "board-1") (lit "T-1") (day 2022 12 1) ldemo_why);
   (at_day 2022 1 2, GConfirm 3 7004 (UserCaller 2) (evidence 2) (lit "T-2") ldemo_why);
   (at_day 2022 1 3, GEnrol 4 (UserCaller 3) (evidence 3) (lit "person-a") (lit "v-1") (lit "a-1") (lit "T-3") (day 2022 11 1) ldemo_why None);
   (at_day 2022 1 3, GEnrol 5 (UserCaller 3) (evidence 3) (lit "person-b") (lit "v-2") (lit "a-2") (lit "T-4") (day 2022 11 1) ldemo_why None)].
Definition ldemo_rows : list (uuid * list uuid) := [(2000%N, [7001%N])].
Definition ldemo_digest : pystr := eligible_ledger_digest ldemo_sha256 ldemo_rows.
Definition ldemo_asked : list (times * gcommand) :=
  [(at_day 2022 6 1, GRequest (UserCaller 6) (evidence 6) [2000%N] 1 ldemo_digest ldemo_why);
   (at_day 2022 6 2, GApprove 7013 (UserCaller 4) (evidence 4) 1 ldemo_digest ldemo_why);
   (at_day 2022 6 3, GAuthorize 7013 (UserCaller 5) (evidence 5) ldemo_why)].
Definition ldemo_history : list (times * gcommand) := ldemo_upgrade :: ldemo_purge :: ldemo_register ++ ldemo_asked.
Definition ldemo : grant_store := ldemo_run ldemo_history ldemo_start.

(** The theorems applied to it. *)

Lemma register_integrity_witness :
  size ldemo.(gs_register) = 4%nat ∧ register_wf (ldemo_run ldemo_asked ldemo).(gs_register) ∧
  ldemo.(gs_register) ⊆ (ldemo_run ldemo_asked ldemo).(gs_register).
Proof.
  split; [vm_compute; reflexivity|].
  apply (register_integrity ldemo_uuid ldemo_created ldemo_sha256 true ldemo_history ldemo_asked ldemo_start). reflexivity.
Defined.

Lemma no_rows_keyed : ledger_keyed ∅.
Proof. intros i j a b. by rewrite lookup_empty. Defined.
Lemma ledger_append_only_witness :
  let s' := ghistory ldemo_uuid ldemo_created ldemo_sha256 DELETION_ENABLED (ldemo_history ++ [(at_day 2022 6 3, GExecute 7017 ldemo_why true)]) ldemo_start in
  is_Some (s'.(gs_ledger) !! 7001%N) ∧ ldemo_start.(gs_ledger) ⊆ s'.(gs_ledger) ∧ ledger_keyed s'.(gs_ledger).
Proof.
  intros s'. split; [vm_compute; by eexists|].
  apply (ledger_append_only ldemo_uuid ldemo_created ldemo_sha256 (ldemo_history ++ [(at_day 2022 6 3, GExecute 7017 ldemo_why true)]) ldemo_start).
  exact no_rows_keyed.
Defined.

(** With deletion enabled, the execution deletes acme's row. *)
Definition ldemo_row : PermissionGrantApplication :=
  mkApplication 2000 (lit "reports") (lit "0001") (permission_grant_migration_digest ldemo_sha256 ldemo_migration)
    APPLICATION_OUTCOME_APPLIED 1 (day 2020 1 1) 7000.
Lemma gone_not_Some {A} (x : option A) y : x = None → x ≠ Some y.
Proof. by intros ->. Defined.
Abbreviation ldemo_executed :=
  (gexec ldemo_uuid ldemo_created ldemo_sha256 true (mkTimes (day 2022 6 3) (day 2022 6 3) (day 2022 6 3), GExecute 7017 ldemo_why true) ldemo).
Lemma ledger_deletion_verified_witness :
  ldemo.(gs_ledger) !! 7001%N = Some ldemo_row ∧ ldemo_executed.(gs_ledger) !! 7001%N = None ∧
  ∃ xi reason x a request, GExecute 7017 ldemo_why true = GExecute xi reason true ∧
    executed ldemo_sha256 (day 2022 6 3) (day 2022 6 3) ldemo ldemo_executed xi x a request ∧ 2000%N ∈ request.(dr_tenant_ids).
Proof.
  assert (ldemo.(gs_ledger) !! 7001%N = Some ldemo_row) as H1 by (vm_compute; reflexivity).
  assert (ldemo_executed.(gs_ledger) !! 7001%N = None) as H2 by (vm_compute; reflexivity).
  split; [exact H1|]. split; [exact H2|].
  exact (proj2 (ledger_deletion_verified ldemo_uuid ldemo_created ldemo_sha256 true (day 2022 6 3) (day 2022 6 3) (day 2022 6 3)
    (GExecute 7017 ldemo_why true) ldemo 7001 ldemo_row H1 (gone_not_Some _ _ H2))).
Defined.

Lemma approvals_final_witness :
  let s2 := ldemo_run [(at_day 2022 6 3, GExecute 7017 ldemo_why true)] ldemo in
  (λ a, a.(da_final).(fin_consumed_at)) <$> s2.(gs_approvals) !! 7015%N = Some (Some (day 2022 6 3)) ∧
  chain_wf s2 ∧ ldemo.(gs_requests) ⊆ s2.(gs_requests) ∧ approvals_step ldemo.(gs_approvals) s2.(gs_approvals) ∧
  authorizations_step ldemo.(gs_authorizations) s2.(gs_authorizations).
Proof.
  intros s2. split; [vm_compute; reflexivity|].
  apply (approvals_final ldemo_uuid ldemo_created ldemo_sha256 true ldemo_history [(at_day 2022 6 3, GExecute 7017 ldemo_why true)] ldemo_start);
    reflexivity.
Defined.

(** Purged on 1 February 2020, acme's rows are kept until 1 February 2022. *)
Lemma retention_exact_witness :
  tenant_purge_completion_times ldemo 2000 = [day 2020 2 1] ∧
  ∃ d, decide_tenant ldemo 2000 (day 2022 1 31) = Ok d ∧
    (decision_eligible d = true ↔
       ∃ tenant purged, ldemo.(gs_tenancy).(ts_tenants) !! 2000%N = Some tenant ∧ tenant.(t_status) = PURGED ∧
         tenant_purge_completion_times ldemo 2000 = [purged] ∧ active_holds ldemo 2000 = 0%nat ∧ two_years_after purged ≤ day 2022 1 31) ∧
    (∀ purged, d.(rd_purged_at) = Some purged →
       d.(rd_expires_at) = Some (two_years_after purged) ∧ 730 * us_per_day ≤ two_years_after purged - purged ≤ 731 * us_per_day).
Proof.
  assert (tenant_purge_completion_times ldemo 2000 = [day 2020 2 1]) as H by (vm_compute; reflexivity).
  split; [exact H|]. apply (retention_exact ldemo 2000 (day 2022 1 31)). rewrite H. constructor; [|constructor].
  split; vm_compute; done.
Defined.

(** The upgrade grants acme's members the permission, and records that globex has no such role. *)
Lemma upgrade_exact_witness :
  grants_rbac ldemo_upgraded !! 7000%N = Some (mkRolePermission 2000 9002 9001) ∧
  let o := apply_permission_grant_migrations ldemo_uuid ldemo_created ldemo_sha256 (day 2020 1 1) [ldemo_migration] (lit "reports")
             (UserCaller 1) ldemo_why [] true true ldemo_start in
  match validate_permission_grant_migrations ldemo_sha256 [ldemo_migration] (lit "reports") with
  | Raise e => o.1 = Raise e ∧ noise ldemo_start o.2
  | Ok V => V = declared ldemo_sha256 <$> [ldemo_migration] ∧ run_effect (lit "reports") V true run_tenants ldemo_start o
  end.
Proof.
  split; [vm_compute; reflexivity|].
  apply (upgrade_exact ldemo_uuid ldemo_created ldemo_sha256 (day 2020 1 1) [ldemo_migration] (lit "reports") (UserCaller 1) ldemo_why [] true true
    ldemo_start).
Defined.

(** The authorization is not refused to the requester: Ben, an approver, asks for the deletion that Amy approves and authorizes its execution. *)
Lemma requester_may_authorize :
  let s := ldemo_run (ldemo_upgrade :: ldemo_purge :: ldemo_register ++
    [(at_day 2022 6 1, GRequest (UserCaller 5) (evidence 5) [2000%N] 1 ldemo_digest ldemo_why);
     (at_day 2022 6 2, GApprove 7013 (UserCaller 4) (evidence 4) 1 ldemo_digest ldemo_why);
     (at_day 2022 6 3, GAuthorize 7013 (UserCaller 5) (evidence 5) ldemo_why)]) ldemo_start in
  dr_requested_by_user_id <$> s.(gs_requests) !! 7013%N = Some 5%N ∧ ea_authorized_by_user_id <$> s.(gs_authorizations) !! 7017%N = Some 5%N.
Proof. vm_compute. split; reflexivity. Qed.
