(* ===== verification/AuditDigest.v ===== *)
(** * Audit digests (saas_os/core/audit_digest: service.py, config.py, models.py;
    platform_authority/digest_source.py)

    The rows of the two audit tables are digested window by window, per tenant
    and for the platform; each record names the digest of the record before it
    and is written to the log, outside the database, before it is stored.  A
    verification takes the records from the log and reports every window whose
    rows are no longer those that were digested.

    The texts of a record's instants have one fixed-width format, in which the
    order of texts is that of the instants: a record has the instants.  The stored
    text of a record and the text of its log line are read back as the record.
    [sha256_hex] is [hashlib.sha256(text.encode('utf-8')).hexdigest()]. *)

From S2P Require Import Prelude PyStr PyTime PyText TenantLifecycle OutboxModel Webhooks.

(** ** Canonical JSON *)

(** [json.dumps(value, sort_keys=True, separators=(',', ':'), ensure_ascii=False)] *)
Definition canonical_char (c : N) : pystr :=
  (if c =? 34 then lit "\" ++ [34]
   else if c =? 92 then lit "\\"
   else if c =? 10 then lit "\n"
   else if c =? 13 then lit "\r"
   else if c =? 9 then lit "\t"
   else if c =? 8 then lit "\b"
   else if c =? 12 then lit "\f"
   else if c <? 32 then hex4 c
   else [c])%N.
Definition canonical_text (s : pystr) : pystr := [34%N] ++ (s ≫= canonical_char) ++ [34%N].

(** The order of texts, by code point. *)
Fixpoint str_leb (a b : pystr) : bool :=
  match a, b with
  | [], _ => true
  | _ :: _, [] => false
  | x :: a, y :: b => (x <? y)%N || ((x =? y)%N && str_leb a b)
  end.
Definition key_le {A : Type} (a b : pystr * A) : Prop := str_leb a.1 b.1 = true.
#[export] Instance key_le_dec {A} (a b : pystr * A) : Decision (key_le a b).
Proof. unfold key_le. apply _. Defined.
Definition sorted_items {A : Type} (l : list (pystr * A)) : list (pystr * A) := merge_sort key_le l.

Fixpoint canonical_json (v : json) : pystr :=
  match v with
  | JNull => lit "null"
  | JBool b => if b then lit "true" else lit "false"
  | JNum z => (if z <? 0 then lit "-" else []) ++ str_int (Z.abs z)
  | JStr s => canonical_text s
  | JList l => lit "[" ++ join (lit ",") (map canonical_json l) ++ lit "]"
  | JObj l =>
      lit "{" ++ join (lit ",") (map (λ p : pystr * pystr, canonical_text p.1 ++ lit ":" ++ p.2)
                                   (sorted_items (map (λ p : pystr * json, (p.1, canonical_json p.2)) l))) ++ lit "}"
  end.

(** [value.astimezone(UTC).isoformat(timespec='microseconds')] *)
Definition isoformat_microseconds (t : datetime) : pystr :=
  take 19 (isoformat_seconds t) ++ lit "." ++ digits 6 (t mod us_per_second) ++ lit "+00:00".

(** [_canonical_value] of the columns' types. *)
Definition uuid_value (u : uuid) : json := JStr (str_uuid u).
Definition time_value (t : datetime) : json := JStr (isoformat_microseconds t).
Definition nullable {A : Type} (value : A → json) (x : option A) : json := match x with Some a => value a | None => JNull end.

Definition canonical_row (columns : list string) (values : list json) : pystr := canonical_json (JObj (zip (lit <$> columns) values)).

(** ** The audit tables *)

Record AuditLogRow : Type := mkAuditLogRow {
  al_tenant_id : uuid;
  al_actor_type : pystr;
  al_actor_user_id : option uuid;
  al_actor_service_account_id : option uuid;
  al_acting_as_tenant_id : option uuid;
  al_delegation_grant_id : option uuid;
  al_support_access_id : option uuid;
  al_action : pystr;
  al_resource_type : pystr;
  al_resource_id : option pystr;
  al_outcome : pystr;
  al_correlation_id : option pystr;
  al_metadata : option pystr;      (* CAST(metadata AS TEXT) *)
  al_created_at : datetime;
}.
Record PlatformAuditRow : Type := mkPlatformAuditRow {
  pl_actor_type : pystr;
  pl_actor_user_id : option uuid;
  pl_system_authority : option pystr;
  pl_action : pystr;
  pl_target_type : pystr;
  pl_target_id : option pystr;
  pl_target_tenant_id : option uuid;
  pl_outcome : pystr;
  pl_reason : option pystr;
  pl_correlation_id : option pystr;
  pl_metadata : option pystr;
  pl_created_at : datetime;
}.

Definition AUDIT_LOG_COLUMNS : list string :=
  ["id"; "tenant_id"; "actor_type"; "actor_user_id"; "actor_service_account_id"; "acting_as_tenant_id"; "delegation_grant_id";
   "support_access_id"; "action"; "resource_type"; "resource_id"; "outcome"; "correlation_id"; "metadata"; "created_at"].
Definition audit_log_values (r : uuid * AuditLogRow) : list json :=
  [uuid_value r.1; uuid_value r.2.(al_tenant_id); JStr r.2.(al_actor_type); nullable uuid_value r.2.(al_actor_user_id);
   nullable uuid_value r.2.(al_actor_service_account_id); nullable uuid_value r.2.(al_acting_as_tenant_id);
   nullable uuid_value r.2.(al_delegation_grant_id); nullable uuid_value r.2.(al_support_access_id); JStr r.2.(al_action);
   JStr r.2.(al_resource_type); nullable JStr r.2.(al_resource_id); JStr r.2.(al_outcome); nullable JStr r.2.(al_correlation_id);
   nullable JStr r.2.(al_metadata); time_value r.2.(al_created_at)].
Definition PLATFORM_AUDIT_LOG_COLUMNS : list string :=
  ["id"; "actor_type"; "actor_user_id"; "system_authority"; "action"; "target_type"; "target_id"; "target_tenant_id"; "outcome";
   "reason"; "correlation_id"; "metadata"; "created_at"].
Definition platform_audit_values (r : uuid * PlatformAuditRow) : list json :=
  [uuid_value r.1; JStr r.2.(pl_actor_type); nullable uuid_value r.2.(pl_actor_user_id); nullable JStr r.2.(pl_system_authority);
   JStr r.2.(pl_action); JStr r.2.(pl_target_type); nullable JStr r.2.(pl_target_id); nullable uuid_value r.2.(pl_target_tenant_id);
   JStr r.2.(pl_outcome); nullable JStr r.2.(pl_reason); nullable JStr r.2.(pl_correlation_id); nullable JStr r.2.(pl_metadata);
   time_value r.2.(pl_created_at)].

(** ** Digests and records *)

Record ScopeDigest : Type := mkScopeDigest { sd_rows : Z; sd_sha256 : pystr }.
#[export] Instance ScopeDigest_eq_dec : EqDecision ScopeDigest.
Proof. solve_decision. Defined.
Definition scope_json (d : ScopeDigest) : json := JObj [(lit "rows", JNum d.(sd_rows)); (lit "sha256", JStr d.(sd_sha256))].

Record WindowDigest : Type := mkWindow {
  wd_window_start : datetime;
  wd_window_end : datetime;
  wd_tenants : gmap pystr ScopeDigest;
  wd_platform : ScopeDigest;
}.

Record DigestRecord : Type := mkDigestRecord {
  rec_format : pystr;
  rec_window_start : datetime;
  rec_window_end : datetime;
  rec_audit_log : ScopeDigest;
  rec_tenants : gmap pystr ScopeDigest;
  rec_platform : ScopeDigest;
  rec_previous : option pystr;
}.
#[export] Instance DigestRecord_eq_dec : EqDecision DigestRecord.
Proof. solve_decision. Defined.
Record LoggedRecord : Type := mkLogged { lg_record : DigestRecord; lg_stated_digest : option pystr }.

Definition RECORD_FORMAT : pystr := lit "saas-os-audit-digest/1".

(** The record as the JSON value it is logged as. *)
Definition record_json (r : DigestRecord) : json :=
  JObj [(lit "format", JStr r.(rec_format)); (lit "window_start", time_value r.(rec_window_start)); (lit "window_end", time_value r.(rec_window_end));
        (lit "audit_log", JObj [(lit "rows", JNum r.(rec_audit_log).(sd_rows)); (lit "sha256", JStr r.(rec_audit_log).(sd_sha256));
           (lit "tenants", JObj (map (λ p : pystr * ScopeDigest, (p.1, scope_json p.2)) (map_to_list r.(rec_tenants))))]);
        (lit "platform_audit_log", scope_json r.(rec_platform)); (lit "previous", nullable JStr r.(rec_previous))].

(** [core.audit_digests] by [window_start]. *)
Record AuditDigest : Type := mkAuditDigest { ad_window_end : datetime; ad_digest : pystr; ad_record : DigestRecord }.

Record audit_store : Type := mkAuditStore {
  as_tenants : gset uuid;                      (* core.tenants *)
  as_log : gmap uuid AuditLogRow;
  as_platform : gmap uuid PlatformAuditRow;
  as_digests : gmap datetime AuditDigest;
  as_emitted : list LoggedRecord;              (* the lines of the process log, oldest first *)
}.
Definition put_digests (m : gmap datetime AuditDigest) (s : audit_store) : audit_store :=
  mkAuditStore s.(as_tenants) s.(as_log) s.(as_platform) m s.(as_emitted).
Definition emit (l : LoggedRecord) (s : audit_store) : audit_store :=
  mkAuditStore s.(as_tenants) s.(as_log) s.(as_platform) s.(as_digests) (s.(as_emitted) ++ [l]).

(** [list index out of range] *)
Inductive digest_error : Type := DIndexError.

(** ** Rows *)

Section Rows.
Context {R : Type} (created : R → datetime).

(** ORDER BY created_at, id *)
Definition row_before (a b : uuid * R) : Prop := created a.2 < created b.2 ∨ (created a.2 = created b.2 ∧ (a.1 ≤ b.1)%N).
#[export] Instance row_before_dec a b : Decision (row_before a b).
Proof using Type*. unfold row_before. apply _. Defined.
Definition in_window (start end_ : datetime) (r : R) : Prop := start ≤ created r < end_.
#[export] Instance in_window_dec start end_ r : Decision (in_window start end_ r).
Proof using Type*. unfold in_window. apply _. Defined.
Definition rows_in (start end_ : datetime) (m : gmap uuid R) : list (uuid * R) :=
  merge_sort row_before (filter (λ r : uuid * R, in_window start end_ r.2) (map_to_list m)).
End Rows.

Definition of_tenant (tenant_id : uuid) (m : gmap uuid AuditLogRow) : gmap uuid AuditLogRow :=
  filter (λ r : uuid * AuditLogRow, r.2.(al_tenant_id) = tenant_id) m.

Definition tenant_ids (s : audit_store) : list uuid := sorted_ids (elements s.(as_tenants)).
Definition tenant_rows (s : audit_store) (tenant_id : uuid) (start end_ : datetime) : list (datetime * pystr) :=
  (λ r : uuid * AuditLogRow, (r.2.(al_created_at), canonical_row AUDIT_LOG_COLUMNS (audit_log_values r))) <$>
    rows_in al_created_at start end_ (of_tenant tenant_id s.(as_log)).
Definition platform_rows (s : audit_store) (start end_ : datetime) : list (datetime * pystr) :=
  (λ r : uuid * PlatformAuditRow, (r.2.(pl_created_at), canonical_row PLATFORM_AUDIT_LOG_COLUMNS (platform_audit_values r))) <$>
    rows_in pl_created_at start end_ s.(as_platform).

(** [_tenant_earliest], [platform_audit_earliest], [_earliest_row] *)
Definition min_time (l : list datetime) : option datetime :=
  match l with [] => None | t :: l => Some (foldl Z.min t l) end.
Definition earliest_row (s : audit_store) : option datetime :=
  let tenants := omap (λ t, min_time ((λ r : uuid * AuditLogRow, r.2.(al_created_at)) <$> map_to_list (of_tenant t s.(as_log)))) (tenant_ids s) in
  let platform := min_time ((λ r : uuid * PlatformAuditRow, r.2.(pl_created_at)) <$> map_to_list s.(as_platform)) in
  min_time (tenants ++ match platform with Some t => [t] | None => [] end).

(** [_outside_ranges] and the capped counts of rows in them. *)
Definition OUTSIDE_CAP : nat := N.to_nat 1000.
Definition outside_ranges (before after_ : datetime) (until : option datetime) : list (option datetime * datetime) :=
  (None, before) :: match until with Some u => if after_ <? u then [(Some after_, u)] else [] | None => [] end.
Definition in_range {R : Type} (created : R → datetime) (range : option datetime * datetime) (r : uuid * R) : bool :=
  (created r.2 <? range.2) && match range.1 with Some low => low <=? created r.2 | None => true end.
Definition count_in {R : Type} (created : R → datetime) (m : gmap uuid R) (range : option datetime * datetime) : nat :=
  length (take (S OUTSIDE_CAP) (List.filter (in_range created range) (map_to_list m))).

(** [_bucket]; the rows are read from the first start on, so no index is negative. *)
Definition bucket (rows : list (datetime * pystr)) (starts : list datetime) (width : timedelta) : result digest_error (list (list pystr)) :=
  let first := default 0 (head starts) in
  let index (r : datetime * pystr) := (r.1 - first) / width in
  if existsb (λ r, Z.of_nat (length starts) <=? index r) rows then Raise DIndexError
  else Ok ((λ i, snd <$> List.filter (λ r, index r =? Z.of_nat i) rows) <$> seq 0 (length starts)).

(** [floor_to_window] *)
Definition EPOCH : datetime := ymd2ord 1970 1 1 * us_per_day.
Definition floor_to_window (moment : datetime) (width : timedelta) : datetime := EPOCH + (moment - EPOCH) / width * width.

(** ** config.py *)

Record AuditDigestConfig : Type := mkDigestConfig { dc_window : timedelta; dc_settle : timedelta; dc_max_windows_per_run : nat }.
(** [AuditDigestConfig.__post_init__]; [None] is [AuditDigestConfigurationError]. *)
Definition audit_digest_config (window_seconds settle_seconds max_windows_per_run : Z) : option AuditDigestConfig :=
  if (window_seconds <? 300) || negb (86400 mod window_seconds =? 0) then None
  else if settle_seconds <? 60 then None
  else if max_windows_per_run <? 1 then None
  else Some (mkDigestConfig (window_seconds * us_per_second) (settle_seconds * us_per_second) (Z.to_nat max_windows_per_run)).

Section Digest.
Context (sha256_hex : pystr → pystr).

(** [_sha256_lines] *)
Definition lines_text (lines : list pystr) : pystr := lines ≫= λ line, line ++ [10%N].
Definition sha256_lines (lines : list pystr) : ScopeDigest := mkScopeDigest (Z.of_nat (length lines)) (sha256_hex (lines_text lines)).

(** [WindowDigest.audit_log] *)
Definition scope_line (p : pystr * ScopeDigest) : pystr := p.1 ++ lit ":" ++ str_int p.2.(sd_rows) ++ lit ":" ++ p.2.(sd_sha256).
Definition window_audit_log (w : WindowDigest) : ScopeDigest :=
  let items := map_to_list w.(wd_tenants) in
  mkScopeDigest (foldr (λ p : pystr * ScopeDigest, Z.add p.2.(sd_rows)) 0 items)
    (sha256_lines (scope_line <$> sorted_items items)).(sd_sha256).

Definition build_record (w : WindowDigest) (previous : option pystr) : DigestRecord :=
  mkDigestRecord RECORD_FORMAT w.(wd_window_start) w.(wd_window_end) (window_audit_log w) w.(wd_tenants) w.(wd_platform) previous.
Definition record_digest (r : DigestRecord) : pystr := sha256_hex (canonical_json (record_json r)).

(** ** Computing windows *)

(** The tenants' parts of the windows: the tenant's lines go into its entry of each window that has some. *)
Definition add_lines (tenant_id : uuid) (d : gmap pystr ScopeDigest * list pystr) : gmap pystr ScopeDigest :=
  if bool_decide (d.2 = []) then d.1 else <[str_uuid tenant_id := sha256_lines d.2]> d.1.
Fixpoint add_tenants (s : audit_store) (tenants : list uuid) (starts : list datetime) (width begin end_ : Z)
    (windows : list (gmap pystr ScopeDigest)) : result digest_error (list (gmap pystr ScopeDigest)) :=
  match tenants with
  | [] => Ok windows
  | t :: rest =>
      let rows := tenant_rows s t begin end_ in
      if bool_decide (rows = []) then add_tenants s rest starts width begin end_ windows
      else
        let* lines := bucket rows starts width in
        add_tenants s rest starts width begin end_ (add_lines t <$> zip windows lines)
  end.

Definition compute_windows (s : audit_store) (starts : list datetime) (width : timedelta) : result digest_error (list WindowDigest) :=
  match starts with
  | [] => Ok []
  | begin :: _ =>
      let end_ := default begin (last starts) + width in
      let* tenants := add_tenants s (tenant_ids s) starts width begin end_ (replicate (length starts) ∅) in
      let* platform := bucket (platform_rows s begin end_) starts width in
      Ok (zip_with (λ start (d : gmap pystr ScopeDigest * list pystr), mkWindow start (start + width) d.1 (sha256_lines d.2))
            starts (zip tenants platform))
  end.

(** ** The job *)

(** The last stored digest, by [window_start]. *)
Definition later_digest (a b : datetime * AuditDigest) : datetime * AuditDigest := if a.1 <? b.1 then b else a.
Definition last_stored (s : audit_store) : option AuditDigest :=
  match map_to_list s.(as_digests) with [] => None | d :: l => Some (foldl later_digest d l).2 end.

(** [settled_until] *)
Definition settled_until (cfg : AuditDigestConfig) (clock : datetime) : datetime := floor_to_window (clock - cfg.(dc_settle)) cfg.(dc_window).

(** The settled windows from [start], at most [n]. *)
Fixpoint settled_starts (cfg : AuditDigestConfig) (clock : datetime) (n : nat) (start : datetime) : list datetime :=
  match n with
  | O => []
  | S n => if start + cfg.(dc_window) + cfg.(dc_settle) <=? clock
           then start :: settled_starts cfg clock n (start + cfg.(dc_window)) else []
  end.

Record DigestRun : Type := mkDigestRun { dg_records : list DigestRecord; dg_digests : list pystr; dg_stopped_by_concurrent_run : bool }.

(** The loop over the windows: a record is logged before it is stored, and a window stored by another run ends this one. *)
Fixpoint record_windows (windows : list WindowDigest) (previous : option pystr) (run : DigestRun) (s : audit_store) : DigestRun * audit_store :=
  match windows with
  | [] => (run, s)
  | w :: rest =>
      let record := build_record w previous in
      let digest := record_digest record in
      let s := emit (mkLogged record (Some digest)) s in
      match s.(as_digests) !! w.(wd_window_start) with
      | Some _ => (mkDigestRun run.(dg_records) run.(dg_digests) true, s)
      | None =>
          record_windows rest (Some digest) (mkDigestRun (run.(dg_records) ++ [record]) (run.(dg_digests) ++ [digest]) false)
            (put_digests (<[w.(wd_window_start) := mkAuditDigest w.(wd_window_end) digest record]> s.(as_digests)) s)
      end
  end.

(** The first window of a run. *)
Definition first_window (cfg : AuditDigestConfig) (clock : datetime) (last : option AuditDigest) (earliest : option datetime) : datetime :=
  match last with
  | Some d => d.(ad_window_end)
  | None => floor_to_window (default clock earliest) cfg.(dc_window)
  end.

(** A run while nothing else happens. *)
Definition digest_settled_windows (cfg : AuditDigestConfig) (clock : datetime) (s : audit_store) : result digest_error DigestRun * audit_store :=
  let last := last_stored s in
  let starts := settled_starts cfg clock cfg.(dc_max_windows_per_run) (first_window cfg clock last (earliest_row s)) in
  let s := match starts, last with
           | _ :: _, Some d => emit (mkLogged d.(ad_record) (Some d.(ad_digest))) s
           | _, _ => s
           end in
  match compute_windows s starts cfg.(dc_window) with
  | Raise e => (Raise e, s)
  | Ok windows => let '(run, s) := record_windows windows (ad_digest <$> last) (mkDigestRun [] [] false) s in (Ok run, s)
  end.

(** ** The job, one session at a time

    A run is a sequence of transactions: the cursor; for the oldest row and for
    the windows, the list of the tenants, the rows of one tenant after the other
    and those of the platform; then one for each window that is stored.  The lines
    of the log are written between them.  Anything may happen in between, and a
    run may end anywhere. *)

(** What has been read: the tenants, the rows of those not in [gl_todo]. *)
Record glance : Type := mkGlance { gl_seen : audit_store; gl_todo : list uuid }.
Definition list_tenants (s : audit_store) : glance := mkGlance (mkAuditStore s.(as_tenants) ∅ ∅ ∅ []) (tenant_ids s).
Definition read_tenant (t : uuid) (s seen : audit_store) : audit_store :=
  mkAuditStore seen.(as_tenants) (seen.(as_log) ∪ of_tenant t s.(as_log)) seen.(as_platform) ∅ [].
Definition read_platform (s seen : audit_store) : audit_store :=
  mkAuditStore seen.(as_tenants) seen.(as_log) s.(as_platform) ∅ [].

(** Where a run is. *)
Inductive worker : Type :=
| Fresh                                                                              (* before [_cursor] *)
| Undated (clock : datetime)                                                         (* nothing stored: before [_earliest_row] *)
| Dating (clock : datetime) (g : glance)                                             (* inside it *)
| Planned (starts : list datetime) (last : option AuditDigest)                       (* the windows are chosen *)
| Listing (starts : list datetime) (previous : option pystr)                         (* before [compute_windows] *)
| Reading (starts : list datetime) (previous : option pystr) (g : glance)            (* inside it *)
| Recording (windows : list WindowDigest) (previous : option pystr)                  (* at the head of the loop *)
| Storing (w : WindowDigest) (rest : list WindowDigest) (record : DigestRecord)      (* logged, before [_store] *)
| Done.

Definition worker_step (cfg : AuditDigestConfig) (now : datetime) (p : worker) (s : audit_store) : worker * audit_store :=
  let planned clock last earliest :=
    Planned (settled_starts cfg clock cfg.(dc_max_windows_per_run) (first_window cfg clock last earliest)) last in
  match p with
  | Fresh => (match last_stored s with Some d => planned now (Some d) None | None => Undated now end, s)
  | Undated clock => (Dating clock (list_tenants s), s)
  | Dating clock (mkGlance seen (t :: todo)) => (Dating clock (mkGlance (read_tenant t s seen) todo), s)
  | Dating clock (mkGlance seen []) => (planned clock None (earliest_row (read_platform s seen)), s)
  | Planned [] _ => (Done, s)
  | Planned starts None => (Listing starts None, s)
  | Planned starts (Some d) => (Listing starts (Some d.(ad_digest)), emit (mkLogged d.(ad_record) (Some d.(ad_digest))) s)
  | Listing starts previous => (Reading starts previous (list_tenants s), s)
  | Reading starts previous (mkGlance seen (t :: todo)) => (Reading starts previous (mkGlance (read_tenant t s seen) todo), s)
  | Reading starts previous (mkGlance seen []) =>
      (match compute_windows (read_platform s seen) starts cfg.(dc_window) with Ok windows => Recording windows previous | Raise _ => Done end, s)
  | Recording [] _ => (Done, s)
  | Recording (w :: rest) previous =>
      let record := build_record w previous in
      (Storing w rest record, emit (mkLogged record (Some (record_digest record))) s)
  | Storing w rest record =>
      match s.(as_digests) !! w.(wd_window_start) with
      | Some _ => (Done, s)
      | None => (Recording rest (Some (record_digest record)),
                 put_digests (<[w.(wd_window_start) := mkAuditDigest w.(wd_window_end) (record_digest record) record]> s.(as_digests)) s)
      end
  | Done => (Done, s)
  end.

(** ** The verification *)

Inductive finding_kind : Type :=
| unknown_format | record_altered | chain_start_missing | conflicting_records | gap | chain_restarted | chain_broken
| audit_log_changed (tenant : pystr) | platform_audit_log_changed | rows_before_coverage | rows_after_coverage | no_records.
Record Finding : Type := mkFinding { fd_kind : finding_kind; fd_window_start : option datetime }.

Record Verification : Type := mkVerification {
  vf_windows : nat;
  vf_findings : list Finding;
  vf_covered_from : option datetime;
  vf_covered_until : option datetime;
}.
Definition verification_ok (v : Verification) : bool := bool_decide (0 < v.(vf_windows))%nat && match v.(vf_findings) with [] => true | _ => false end.

(** [_check_chain]: the records by digest, the first of each. *)
Fixpoint unique_records (records : list LoggedRecord) (unique : list (pystr * DigestRecord)) : list Finding * list (pystr * DigestRecord) :=
  match records with
  | [] => ([], unique)
  | l :: rest =>
      let record := l.(lg_record) in
      let window := Some record.(rec_window_start) in
      if negb (bool_decide (record.(rec_format) = RECORD_FORMAT))
      then let '(fs, u) := unique_records rest unique in (mkFinding unknown_format window :: fs, u)
      else
        let digest := record_digest record in
        if match l.(lg_stated_digest) with Some d => negb (bool_decide (d = digest)) | None => false end
        then let '(fs, u) := unique_records rest unique in (mkFinding record_altered window :: fs, u)
        else unique_records rest (if existsb (λ p : pystr * DigestRecord, bool_decide (p.1 = digest)) unique then unique else unique ++ [(digest, record)])
  end.
(** [sorted(..., key=lambda item: (item[1]['window_start'], item[0]))] *)
Definition record_before (a b : pystr * DigestRecord) : Prop :=
  a.2.(rec_window_start) < b.2.(rec_window_start) ∨ (a.2.(rec_window_start) = b.2.(rec_window_start) ∧ str_leb a.1 b.1 = true).
#[export] Instance record_before_dec a b : Decision (record_before a b).
Proof. unfold record_before. apply _. Defined.
Fixpoint link_records (prior : option (pystr * DigestRecord)) (ordered : list (pystr * DigestRecord)) : list Finding * list DigestRecord :=
  match ordered with
  | [] => ([], [])
  | (digest, record) :: rest =>
      let window := Some record.(rec_window_start) in
      match prior with
      | None =>
          let '(fs, chain) := link_records (Some (digest, record)) rest in
          ((match record.(rec_previous) with Some _ => [mkFinding chain_start_missing window] | None => [] end) ++ fs, record :: chain)
      | Some (prior_digest, prior_record) =>
          if bool_decide (prior_record.(rec_window_start) = record.(rec_window_start))
          then let '(fs, chain) := link_records prior rest in (mkFinding conflicting_records window :: fs, chain)
          else
            let '(fs, chain) := link_records (Some (digest, record)) rest in
            ((if bool_decide (prior_record.(rec_window_end) = record.(rec_window_start)) then [] else [mkFinding gap window]) ++
             (if bool_decide (record.(rec_previous) = Some prior_digest) then []
              else [mkFinding (if bool_decide (record.(rec_previous) = None) then chain_restarted else chain_broken) window]) ++ fs,
             record :: chain)
      end
  end.
Definition check_chain (records : list LoggedRecord) : list Finding * list DigestRecord :=
  let '(fs, unique) := unique_records records [] in
  let '(fs', chain) := link_records None (merge_sort record_before unique) in
  (fs ++ fs', chain).

(** [_compare] *)
Definition compare_window (record : DigestRecord) (actual : WindowDigest) : list Finding :=
  let window := Some record.(rec_window_start) in
  let keys := (sorted_items ((λ k, (k, tt)) <$> elements (dom record.(rec_tenants) ∪ dom actual.(wd_tenants)))).*1 in
  (keys ≫= λ tenant, if bool_decide (record.(rec_tenants) !! tenant = actual.(wd_tenants) !! tenant) then []
                     else [mkFinding (audit_log_changed tenant) window]) ++
  (if bool_decide (record.(rec_platform) = actual.(wd_platform)) then [] else [mkFinding platform_audit_log_changed window]).
Fixpoint compare_windows (records : list DigestRecord) (actual : list WindowDigest) : list Finding :=
  match records, actual with r :: records, a :: actual => compare_window r a ++ compare_windows records actual | _, _ => [] end.

(** [_check_coverage] *)
Definition coverage_findings (ranges : list (option datetime * datetime)) (counts : list nat) : list Finding :=
  zip ranges counts ≫= λ p, if bool_decide (p.2 = 0%nat) then []
    else [mkFinding (match p.1.1 with None => rows_before_coverage | Some _ => rows_after_coverage end) None].
Definition check_coverage (s : audit_store) (before after_ : datetime) (until : option datetime) : list Finding :=
  let ranges := outside_ranges before after_ until in
  coverage_findings ranges (count_in pl_created_at s.(as_platform) <$> ranges) ++
  (tenant_ids s ≫= λ t, coverage_findings ranges (count_in al_created_at (of_tenant t s.(as_log)) <$> ranges)).

(** The contiguous runs of records of one width, of at most [VERIFY_CHUNK]. *)
Definition VERIFY_CHUNK : nat := 168.
Definition record_width (r : DigestRecord) : timedelta := r.(rec_window_end) - r.(rec_window_start).
Definition follows (prior record : DigestRecord) : bool :=
  bool_decide (prior.(rec_window_end) = record.(rec_window_start)) && bool_decide (record_width prior = record_width record).
Fixpoint batches (batch chain : list DigestRecord) : list (list DigestRecord) :=
  match chain with
  | [] => if bool_decide (batch = []) then [] else [batch]
  | record :: rest =>
      match last batch with
      | Some prior =>
          if negb (follows prior record) || bool_decide (VERIFY_CHUNK ≤ length batch)%nat
          then batch :: batches [record] rest else batches (batch ++ [record]) rest
      | None => batches [record] rest
      end
  end.
(** [flush] of each of them. *)
Fixpoint flush_all (s : audit_store) (l : list (list DigestRecord)) : result digest_error (list Finding) :=
  match l with
  | [] => Ok []
  | batch :: rest =>
      let width := match batch with r :: _ => record_width r | [] => 0 end in
      let* actual := compute_windows s (rec_window_start <$> batch) width in
      let* others := flush_all s rest in
      Ok (compare_windows batch actual ++ others)
  end.

Definition verify_records (s : audit_store) (records : list LoggedRecord) (until : option datetime) : result digest_error Verification :=
  let '(fs, chain) := check_chain records in
  match chain with
  | [] => Ok (mkVerification 0 (fs ++ [mkFinding no_records None]) None None)
  | first :: _ =>
      let final := default first (last chain) in
      let* changed := flush_all s (batches [] chain) in
      Ok (mkVerification (length chain) (fs ++ changed ++ check_coverage s first.(rec_window_start) final.(rec_window_end) until)
            (Some first.(rec_window_start)) (Some final.(rec_window_end)))
  end.
End Digest.
