(* ===== verification/DigestProofs.v ===== *)
(** * What a verified digest proves

    Canonical lines determine rows; windows computed together are the windows
    computed one by one; a verification without findings has compared every
    record with the rows as they are and has found no row outside the windows.
    [unchanged] is the conclusion: the rows are those that were digested, or two
    different texts of them have the same SHA-256 digest. *)

From S2P Require Import Prelude PyStr PyTime PyText TenantLifecycle OutboxModel Webhooks WebhookFanout AuditDigest.

(** ** Canonical texts *)

#[local] Arguments hex_pad : simpl never.
Lemma canonical_char_inj c c' x x' : canonical_char c ++ x = canonical_char c' ++ x' → c = c' ∧ x = x'.
Proof.
  unfold canonical_char. intros H.
  repeat match type of H with context [if ?b then _ else _] => destruct b eqn:? end; unfold hex4 in *; simpl in H;
    rewrite ?N.eqb_eq, ?N.eqb_neq, ?N.ltb_lt, ?N.ltb_ge in *; subst; try (by simplify_eq); try (injection H as ? ?; subst; lia).
  apply (f_equal (drop 2)) in H. change (hex_pad 4 (Z.of_N c) ++ x = hex_pad 4 (Z.of_N c') ++ x') in H. apply app_inj_1 in H as [H ->]; [|done]. split; [|done].
  apply (f_equal parse_hex) in H. rewrite !parse_hex_pad in H by (simpl; lia). injection H as H. lia.
Qed.
Lemma canonical_char_cons c : ∃ h t, canonical_char c = h :: t ∧ h ≠ 34%N.
Proof.
  unfold canonical_char, hex4. repeat case_match; simpl; eexists _, _; (split; [reflexivity|]); try done; rewrite ?N.eqb_neq in *; lia.
Qed.
Lemma canonical_text_inj s s' x x' : canonical_text s ++ x = canonical_text s' ++ x' → s = s' ∧ x = x'.
Proof.
  unfold canonical_text. rewrite <- !app_assoc. simpl. intros [= H]. revert s' H. induction s as [|c s IH]; intros [|c' s']; simpl; intros H.
  - by simplify_eq.
  - destruct (canonical_char_cons c') as (h & t & Ec & Hh). rewrite Ec in H. simpl in H. by simplify_eq.
  - destruct (canonical_char_cons c) as (h & t & Ec & Hh). rewrite Ec in H. simpl in H. by simplify_eq.
  - rewrite <- !app_assoc in H. apply canonical_char_inj in H as [-> H]. apply IH in H as [-> ->]. done.
Qed.

(** A cell of a row: a text or null. *)
Definition is_cell (v : json) : Prop := match v with JNull | JStr _ => True | _ => False end.
Lemma cell_inj v v' x x' : is_cell v → is_cell v' → canonical_json v ++ x = canonical_json v' ++ x' → v = v' ∧ x = x'.
Proof.
  destruct v, v'; try done; intros _ _ H; simpl canonical_json in H.
  - by apply app_inv_head in H as ->.
  - apply canonical_text_inj in H as [-> ->]. done.
Qed.
Lemma canonical_char_newline c : 10%N ∉ canonical_char c.
Proof.
  unfold canonical_char, hex4. repeat case_match; rewrite ?N.eqb_eq, ?N.eqb_neq, ?N.ltb_lt, ?N.ltb_ge in *.
  8: { rewrite not_elem_of_app. split; [by apply (bool_decide_unpack _); vm_compute|]. intros Hx.
       pose proof (hex_pad_chars 4 (Z.of_N c)) as Hc. rewrite Forall_forall in Hc. apply Hc in Hx. unfold hex_char in Hx. lia. }
  8: rewrite not_elem_of_cons; split; [lia|apply not_elem_of_nil].
  all: by apply (bool_decide_unpack _); vm_compute.
Qed.
Lemma canonical_text_newline s : 10%N ∉ canonical_text s.
Proof.
  unfold canonical_text. rewrite !elem_of_app, !elem_of_cons, elem_of_nil, list_elem_of_bind. intros [[?|?]|[(c & H & _)|[?|?]]]; try done.
  by apply canonical_char_newline in H.
Qed.
Lemma cell_newline v : is_cell v → 10%N ∉ canonical_json v.
Proof. destruct v; try done; intros _; [|apply canonical_text_newline]. by apply (bool_decide_unpack _); vm_compute. Qed.

(** ** Lines *)

Lemma join_newline sep parts : 10%N ∉ sep → Forall (λ p, 10%N ∉ p) parts → 10%N ∉ join sep parts.
Proof.
  intros Hs. induction 1 as [|p parts Hp Hf IH]; [by apply not_elem_of_nil|]. destruct parts as [|q parts]; [done|].
  change (join sep (p :: q :: parts)) with (p ++ sep ++ join sep (q :: parts)). by rewrite !not_elem_of_app.
Qed.
Lemma canonical_object l : canonical_json (JObj l) =
  lit "{" ++ join (lit ",") (map (λ p : pystr * pystr, canonical_text p.1 ++ lit ":" ++ p.2)
                               (sorted_items (map (λ p : pystr * json, (p.1, canonical_json p.2)) l))) ++ lit "}".
Proof. reflexivity. Qed.
Lemma object_newline l : Forall (λ p : pystr * json, is_cell p.2) l → 10%N ∉ canonical_json (JObj l).
Proof.
  intros Hl. rewrite canonical_object. rewrite !not_elem_of_app. split; [by apply (bool_decide_unpack _); vm_compute|]. split; [|by apply (bool_decide_unpack _); vm_compute].
  apply join_newline; [by apply (bool_decide_unpack _); vm_compute|]. apply Forall_forall. intros y Hy. apply list_elem_of_fmap in Hy as ([k x] & -> & Hx). cbn [fst snd].
  unfold sorted_items in Hx. rewrite merge_sort_Permutation in Hx. apply list_elem_of_fmap in Hx as ([k' v] & [= -> ->] & Hv).
  change (lit ":") with [58%N]. rewrite !not_elem_of_app, not_elem_of_cons. split_and!; [apply canonical_text_newline|done|by apply not_elem_of_nil|]. apply cell_newline. rewrite Forall_forall in Hl. by apply (Hl (k', v)).
Qed.
Lemma lines_text_inj lines lines' : Forall (λ p, 10%N ∉ p) lines → Forall (λ p, 10%N ∉ p) lines' → lines_text lines = lines_text lines' → lines = lines'.
Proof.
  intros H. revert lines'. induction H as [|p lines Hp Hf IH]; intros [|p' lines'] H'; simpl; [done| | |].
  - intros E. by destruct p'.
  - intros E. by destruct p.
  - apply Forall_cons in H' as [Hp' Hf']. rewrite <- !app_assoc. simpl. intros E. apply (f_equal (partition 10%N)) in E.
    rewrite !partition_app in E by done. injection E as -> E. f_equal. by apply IH.
Qed.

(** ** Rows *)

Definition row_cells (values : list json) : Prop := Forall is_cell values.
Lemma audit_log_cells r : row_cells (audit_log_values r).
Proof. unfold audit_log_values, nullable. repeat constructor; repeat case_match; done. Qed.
Lemma platform_cells r : row_cells (platform_audit_values r).
Proof. unfold platform_audit_values, nullable. repeat constructor; repeat case_match; done. Qed.
Lemma canonical_row_newline columns values : row_cells values → 10%N ∉ canonical_row columns values.
Proof.
  intros H. apply object_newline, Forall_forall. intros [k v] Hv. simpl. unfold row_cells in H. rewrite Forall_forall in H.
  apply H. apply elem_of_zip_r in Hv. done.
Qed.
(** The text of an object of cells determines its members. *)
Definition member_text (p : pystr * json) : pystr := canonical_text p.1 ++ lit ":" ++ canonical_json p.2.
Lemma member_inj p p' x x' : is_cell p.2 → is_cell p'.2 → member_text p ++ x = member_text p' ++ x' → p = p' ∧ x = x'.
Proof.
  unfold member_text. rewrite <- !app_assoc. intros Hp Hp' [Hk H]%canonical_text_inj. apply app_inv_head in H.
  apply cell_inj in H as [Hv ->]; [|done..]. split; [|done]. destruct p, p'. simpl in *. congruence.
Qed.
Lemma members_inj L L' : Forall (λ p : pystr * json, is_cell p.2) L → Forall (λ p : pystr * json, is_cell p.2) L' →
  join (lit ",") (map member_text L) ++ lit "}" = join (lit ",") (map member_text L') ++ lit "}" → L = L'.
Proof.
  intros H. assert (∀ p (M : list (pystr * json)), join (lit ",") (map member_text (p :: M)) ++ lit "}" =
    member_text p ++ match M with [] => lit "}" | _ => lit "," ++ join (lit ",") (map member_text M) ++ lit "}" end) as Hj.
  { intros p [|q M]; [done|]. cbn [map]. change (join (lit ",") (member_text p :: member_text q :: map member_text M)) with
      (member_text p ++ lit "," ++ join (lit ",") (member_text q :: map member_text M)). by rewrite <- !app_assoc. }
  revert L'. induction H as [|p L Hp Hf IH]; intros [|p' L'] H'; [done| | |].
  - rewrite Hj. by intros [=].
  - rewrite Hj. by intros [=].
  - apply Forall_cons in H' as [Hp' Hf']. rewrite !Hj. intros [-> E]%member_inj; [|done..]. f_equal.
    destruct L as [|q L], L' as [|q' L']; [done|by injection E|by injection E|]. apply IH; [done|]. by apply app_inv_head in E.
Qed.
Lemma object_members l : Forall (λ p : pystr * json, is_cell p.2) l → ∃ L, L ≡ₚ l ∧ canonical_json (JObj l) = lit "{" ++ join (lit ",") (map member_text L) ++ lit "}".
Proof.
  intros _. destruct (Permutation_map_inv (λ p : pystr * json, (p.1, canonical_json p.2)) l
    (l1 := sorted_items (map (λ p : pystr * json, (p.1, canonical_json p.2)) l))) as (L & HL & HP).
  { apply merge_sort_Permutation. }
  exists L. split; [by symmetry|]. rewrite canonical_object, HL, map_map. done.
Qed.
Lemma object_inj l l' : Forall (λ p : pystr * json, is_cell p.2) l → Forall (λ p : pystr * json, is_cell p.2) l' →
  canonical_json (JObj l) = canonical_json (JObj l') → l ≡ₚ l'.
Proof.
  intros H H'. destruct (object_members l H) as (L & HL & ->), (object_members l' H') as (L' & HL' & ->). intros E%app_inv_head.
  rewrite <- HL, <- HL'. apply members_inj in E as ->; [done|by rewrite HL|by rewrite HL'].
Qed.
Lemma zip_values_inj (keys : list pystr) (vs vs' : list json) : NoDup keys → length vs = length keys → length vs' = length keys →
  zip keys vs ≡ₚ zip keys vs' → vs = vs'.
Proof.
  intros Hk. revert vs vs'. induction Hk as [|k keys Hn Hk IH]; intros [|v vs] [|v' vs']; simpl; try done. intros [= Hl] [= Hl'] HP.
  assert ((k, v) ∈ (k, v') :: zip keys vs') as Hin by (rewrite <- HP; by left).
  apply elem_of_cons in Hin as [[= ->]|Hin%elem_of_zip_l]; [|done]. f_equal. apply IH; [done..|]. by apply Permutation_cons_inv in HP.
Qed.
Lemma canonical_row_inj columns vs vs' : NoDup (lit <$> columns) → length vs = length columns → length vs' = length columns →
  row_cells vs → row_cells vs' → canonical_row columns vs = canonical_row columns vs' → vs = vs'.
Proof.
  intros Hk Hl Hl' H H' E. assert (∀ l, row_cells l → Forall (λ p : pystr * json, is_cell p.2) (zip (lit <$> columns) l)) as Hz.
  { intros l Hc. apply Forall_forall. intros [k v] Hv%elem_of_zip_r. unfold row_cells in Hc. rewrite Forall_forall in Hc. by apply Hc. }
  apply (zip_values_inj (lit <$> columns)); rewrite ?length_fmap; [done..|]. apply object_inj; auto.
Qed.

(** ** Values *)

(** Ids and times the database can hold. *)
Definition uuid_ok (u : uuid) : Prop := (u < 2 ^ 128)%N.
Definition time_ok (t : datetime) : Prop := 0 ≤ t < datetime_end.
Definition optional {A : Type} (P : A → Prop) (x : option A) : Prop := match x with Some a => P a | None => True end.

Lemma JStr_inj s t : JStr s = JStr t → s = t.
Proof. by intros [= ->]. Qed.
Lemma uuid_value_inj u v : uuid_ok u → uuid_ok v → uuid_value u = uuid_value v → u = v.
Proof. intros Hu Hv E%JStr_inj. by apply str_uuid_inj. Qed.
Lemma nullable_inj {A} (value : A → json) (P : A → Prop) x y : (∀ a, value a ≠ JNull) → (∀ a b, P a → P b → value a = value b → a = b) →
  optional P x → optional P y → nullable value x = nullable value y → x = y.
Proof. intros Hn Hi. destruct x, y; simpl; intros Hx Hy E; [f_equal; by apply Hi|by apply Hn in E|by symmetry in E; apply Hn in E|done]. Qed.
Lemma time_value_inj t u : time_ok t → time_ok u → time_value t = time_value u → t = u.
Proof.
  intros Ht Hu E%JStr_inj. unfold isoformat_microseconds in E.
  assert (∀ x, isoformat_seconds x = take 19 (isoformat_seconds x) ++ lit "+00:00" ∧ length (take 19 (isoformat_seconds x)) = 19%nat) as Hs.
  { intros x. destruct (isoformat_is_text x) as (y & mo & d & h & mi & s & ->). split; [|by rewrite length_take, iso_text_length].
    unfold iso_text. rewrite !app_assoc. rewrite take_app_le, take_ge; [done|..]; rewrite ?length_app, ?length_digits; reflexivity || (simpl; lia). }
  destruct (Hs t) as [Et Lt], (Hs u) as [Eu Lu]. apply app_inj_1 in E as [E1 E]; [|by rewrite Lt, Lu].
  apply app_inv_head in E. apply app_inj_1 in E as [E2 _]; [|by rewrite !length_digits].
  apply (f_equal parse_digits) in E2. rewrite !parse_digits_digits in E2 by (unfold us_per_second; simpl; lia). injection E2 as E2.
  rewrite E1 in Et. rewrite <- Eu in Et. apply (f_equal fromisoformat) in Et. rewrite !isoformat_roundtrip in Et by done. injection Et as Et. lia.
Qed.

Lemma cons_inv {A} (x y : A) l l' : x :: l = y :: l' → x = y ∧ l = l'.
Proof. by intros [= -> ->]. Qed.
Definition log_row_ok (r : uuid * AuditLogRow) : Prop :=
  uuid_ok r.1 ∧ uuid_ok r.2.(al_tenant_id) ∧ optional uuid_ok r.2.(al_actor_user_id) ∧ optional uuid_ok r.2.(al_actor_service_account_id) ∧
  optional uuid_ok r.2.(al_acting_as_tenant_id) ∧ optional uuid_ok r.2.(al_delegation_grant_id) ∧ optional uuid_ok r.2.(al_support_access_id) ∧
  time_ok r.2.(al_created_at).
Definition platform_row_ok (r : uuid * PlatformAuditRow) : Prop :=
  uuid_ok r.1 ∧ optional uuid_ok r.2.(pl_actor_user_id) ∧ optional uuid_ok r.2.(pl_target_tenant_id) ∧ time_ok r.2.(pl_created_at).
Ltac value_inv :=
  first [ apply JStr_inj; assumption | apply uuid_value_inj; assumption | apply time_value_inj; assumption
        | apply (nullable_inj uuid_value uuid_ok); [done|exact uuid_value_inj|assumption|assumption|assumption]
        | apply (nullable_inj JStr (λ _, True)); [done|by intros ? ? _ _ ?%JStr_inj|by unfold optional; case_match|by unfold optional; case_match|assumption] ].
Lemma audit_log_values_inj r r' : log_row_ok r → log_row_ok r' → audit_log_values r = audit_log_values r' → r = r'.
Proof.
  destruct r as [i []], r' as [i' []]. unfold log_row_ok, audit_log_values. simpl. intros (? & ? & ? & ? & ? & ? & ? & ?) (? & ? & ? & ? & ? & ? & ? & ?) E.
  repeat (apply cons_inv in E as [? E]). f_equal; [by value_inv|]. f_equal; by value_inv.
Qed.
Lemma platform_values_inj r r' : platform_row_ok r → platform_row_ok r' → platform_audit_values r = platform_audit_values r' → r = r'.
Proof.
  destruct r as [i []], r' as [i' []]. unfold platform_row_ok, platform_audit_values. simpl. intros (? & ? & ? & ?) (? & ? & ? & ?) E.
  repeat (apply cons_inv in E as [? E]). f_equal; [by value_inv|]. f_equal; by value_inv.
Qed.

(** ** Rows of a part of a window *)

Section Sorted.
Context {R : Type} (created : R → datetime).

#[local] Instance row_before_trans : Transitive (row_before created).
Proof using Type. intros a b c. unfold row_before. lia. Qed.
#[local] Instance row_before_total : Total (row_before created).
Proof using Type. intros a b. unfold row_before. lia. Qed.
Lemma filter_sorted {A} (S : relation A) (P : A → Prop) `{∀ x, Decision (P x)} l : StronglySorted S l → StronglySorted S (filter P l).
Proof using Type.
  induction 1 as [|x l Hs IH Hf]; [constructor|]. rewrite filter_cons. case_decide; [|done]. constructor; [done|].
  rewrite Forall_forall in *. intros y [_ Hy]%list_elem_of_filter. by apply Hf.
Qed.
Lemma elem_of_rows_in a b m r : r ∈ rows_in created a b m ↔ a ≤ created r.2 < b ∧ m !! r.1 = Some r.2.
Proof using Type.
  unfold rows_in. rewrite merge_sort_Permutation, list_elem_of_filter. destruct r as [i x]. by rewrite elem_of_map_to_list.
Qed.
Lemma rows_in_NoDup a b m : NoDup (rows_in created a b m).
Proof using Type. unfold rows_in. rewrite merge_sort_Permutation. apply NoDup_filter, NoDup_map_to_list. Qed.
Lemma rows_in_part a b a' b' m : a ≤ a' → b' ≤ b → filter (λ r : uuid * R, in_window created a' b' r.2) (rows_in created a b m) = rows_in created a' b' m.
Proof using Type.
  intros Ha Hb. apply (StronglySorted_unique_strong (row_before created)).
  - intros [i x] [j y] [_ Hx%elem_of_rows_in]%list_elem_of_filter Hy%elem_of_rows_in H1 H2. unfold row_before in *. simpl in *.
    assert (i = j) as -> by lia. f_equal. destruct Hx, Hy. congruence.
  - apply filter_sorted, StronglySorted_merge_sort; apply _.
  - apply StronglySorted_merge_sort; apply _.
  - apply NoDup_Permutation; [apply NoDup_filter, rows_in_NoDup|apply rows_in_NoDup|]. intros r.
    rewrite list_elem_of_filter, !elem_of_rows_in. unfold in_window. split; [tauto|]. intros [H1 H2]. split_and!; done || lia.
Qed.
Lemma rows_in_empty a b a' b' m : a ≤ a' → b' ≤ b → rows_in created a b m = [] → rows_in created a' b' m = [].
Proof using Type. intros Ha Hb E. by rewrite <- (rows_in_part a b a' b' m Ha Hb), E. Qed.
(** The same rows in the window, the same list of them. *)
Lemma rows_in_ext a b m m' : (∀ i x, a ≤ created x < b → m !! i = Some x ↔ m' !! i = Some x) → rows_in created a b m = rows_in created a b m'.
Proof using Type.
  intros H. apply (StronglySorted_unique_strong (row_before created)).
  - intros [i x] [j y] [Hx Hx']%elem_of_rows_in [Hy Hy']%elem_of_rows_in H1 H2. simpl in *. unfold row_before in *. simpl in *.
    assert (i = j) as -> by lia. apply H in Hx'; [|done]. congruence.
  - apply StronglySorted_merge_sort; apply _.
  - apply StronglySorted_merge_sort; apply _.
  - apply NoDup_Permutation; [apply rows_in_NoDup..|]. intros [i x]. rewrite !elem_of_rows_in. simpl. split; intros [H1 H2]; (split; [done|]); by apply H.
Qed.

(** The windows from [first]: the rows of each are those whose index is its. *)
Context (line : uuid * R → pystr) (width : timedelta) (Hw : 0 < width).
Definition starts_from (first : datetime) (n : nat) : list datetime := (λ i, first + Z.of_nat i * width) <$> seq 0 n.
Definition lines_in (m : gmap uuid R) (a b : datetime) : list pystr := line <$> rows_in created a b m.
Lemma bucket_spec first n m : bucket ((λ r, (created r.2, line r)) <$> rows_in created first (first + Z.of_nat n * width) m) (starts_from first n) width =
  Ok ((λ i, lines_in m (first + Z.of_nat i * width) (first + Z.of_nat i * width + width)) <$> seq 0 n).
Proof using Hw.
  unfold bucket. destruct n as [|n].
  { assert (rows_in created first (first + Z.of_nat 0 * width) m = []) as ->; [|done]. apply elem_of_nil_inv. intros r [H _]%elem_of_rows_in. lia. }
  replace (default 0 (head (starts_from first (S n)))) with first by (simpl; lia). unfold starts_from. rewrite length_fmap, length_seq.
  destruct (existsb _ _) eqn:E.
  { exfalso. apply existsb_exists in E as ([c l] & Hin%list_elem_of_In & Hi). apply list_elem_of_fmap in Hin as (r & [= -> ->] & Hr%elem_of_rows_in).
    simpl in Hi. apply Z.leb_le in Hi. assert ((created r.2 - first) / width < Z.of_nat (S n)); [|lia]. apply Z.div_lt_upper_bound; lia. }
  f_equal. apply list_fmap_ext. intros k i Hi. apply lookup_seq in Hi as [-> Hk]. simpl. unfold lines_in.
  rewrite <- (rows_in_part first (first + Z.of_nat (S n) * width) (first + Z.of_nat k * width) (first + Z.of_nat k * width + width)) by nia.
  assert (∀ r, r ∈ rows_in created first (first + Z.of_nat (S n) * width) m → first ≤ created r.2) as Hr by (intros r ?%elem_of_rows_in; lia).
  revert Hr. generalize (rows_in created first (first + Z.of_nat (S n) * width) m). intros l Hr.
  induction l as [|r l IH]; [done|]. cbn [fmap list_fmap List.filter fst]. rewrite filter_cons.
  assert (first ≤ created r.2) by (apply Hr; by left).
  assert (((created r.2 - first) / width =? Z.of_nat k) = bool_decide (in_window created (first + Z.of_nat k * width) (first + Z.of_nat k * width + width) r.2)) as ->.
  { apply eq_true_iff_eq. rewrite Z.eqb_eq, bool_decide_eq_true. unfold in_window. split.
    - intros E'. pose proof (Z.div_mod (created r.2 - first) width). pose proof (Z.mod_pos_bound (created r.2 - first) width Hw). nia.
    - intros [H1 H2]. symmetry. apply (Z.div_unique _ _ _ (created r.2 - first - Z.of_nat k * width)); lia. }
  assert (∀ r0, r0 ∈ l → first ≤ created r0.2) by (intros; apply Hr; by right).
  case_bool_decide; [rewrite decide_True by done|rewrite decide_False by done]; cbn [fmap list_fmap snd]; [f_equal|]; by apply IH.
Qed.
End Sorted.

(** ** Windows one by one *)

Section Windows.
Context (sha256_hex : pystr → pystr).

Definition tenant_lines (s : audit_store) (t : uuid) (a b : datetime) : list pystr :=
  lines_in al_created_at (λ r, canonical_row AUDIT_LOG_COLUMNS (audit_log_values r)) (of_tenant t s.(as_log)) a b.
Definition platform_lines (s : audit_store) (a b : datetime) : list pystr :=
  lines_in pl_created_at (λ r, canonical_row PLATFORM_AUDIT_LOG_COLUMNS (platform_audit_values r)) s.(as_platform) a b.

(** A window on its own. *)
Definition tenant_digests (s : audit_store) (a b : datetime) (ts : list uuid) (m : gmap pystr ScopeDigest) : gmap pystr ScopeDigest :=
  foldl (λ m t, add_lines sha256_hex t (m, tenant_lines s t a b)) m ts.
Definition window_of (s : audit_store) (width : timedelta) (start : datetime) : WindowDigest :=
  mkWindow start (start + width) (tenant_digests s start (start + width) (tenant_ids s) ∅) (sha256_lines sha256_hex (platform_lines s start (start + width))).

Lemma zip_fmap {A B C} (f : A → B) (g : A → C) l : zip (f <$> l) (g <$> l) = (λ x, (f x, g x)) <$> l.
Proof using Type. induction l as [|x l IH]; [done|]. cbn [fmap list_fmap zip_with]. by f_equal. Qed.
Lemma zip_with_fmap {A B C D} (h : B → C → D) (f : A → B) (g : A → C) l : zip_with h (f <$> l) (g <$> l) = (λ x, h (f x) (g x)) <$> l.
Proof using Type. induction l as [|x l IH]; [done|]. cbn [fmap list_fmap zip_with]. by f_equal. Qed.

Lemma replicate_fmap_seq n : (λ _ : nat, (∅ : gmap pystr ScopeDigest)) <$> seq 0 n = replicate n ∅.
Proof using Type. generalize 0%nat. induction n as [|n IH]; intros k; [done|]. cbn [seq replicate fmap list_fmap]. by f_equal. Qed.
Lemma add_tenants_spec s width first n ts : 0 < width → ∀ g : nat → gmap pystr ScopeDigest,
  add_tenants sha256_hex s ts (starts_from width first n) width first (first + Z.of_nat n * width) (g <$> seq 0 n) =
  Ok ((λ i, tenant_digests s (first + Z.of_nat i * width) (first + Z.of_nat i * width + width) ts (g i)) <$> seq 0 n).
Proof using Type.
  intros Hw. induction ts as [|t ts IH]; intros g; [done|]. cbn [add_tenants]. cbv zeta. case_bool_decide as He.
  - rewrite IH. f_equal. apply list_fmap_ext. intros k i [-> Hk]%lookup_seq. simpl. f_equal. unfold add_lines, tenant_lines, lines_in. simpl.
    unfold tenant_rows in He. apply fmap_nil_inv in He. rewrite (rows_in_empty _ first (first + Z.of_nat n * width)); [done|nia|nia|done].
  - unfold tenant_rows. rewrite (bucket_spec al_created_at (λ r, canonical_row AUDIT_LOG_COLUMNS (audit_log_values r))) by done. cbn [result_bind].
    rewrite zip_fmap, <- list_fmap_compose. by rewrite IH.
Qed.
Lemma compute_windows_spec s width first n : 0 < width →
  compute_windows sha256_hex s (starts_from width first n) width = Ok (window_of s width <$> starts_from width first n).
Proof using Type.
  intros Hw. destruct n as [|n]; [done|]. unfold compute_windows. remember (starts_from width first (S n)) as starts eqn:Es.
  assert (∃ l, starts = first :: l) as [l El] by (subst; unfold starts_from; simpl; eexists; f_equal; lia). rewrite El at 1.
  assert (default first (last starts) + width = first + Z.of_nat (S n) * width) as ->.
  { subst starts. unfold starts_from. rewrite fmap_last, seq_S, last_snoc. simpl. lia. }
  assert (length starts = S n) as Hlen by (subst starts; unfold starts_from; by rewrite length_fmap, length_seq). rewrite Hlen.
  rewrite <- (replicate_fmap_seq (S n)).
  rewrite Es at 1. rewrite add_tenants_spec by done. cbn [result_bind]. unfold platform_rows. rewrite Es at 1.
  rewrite (bucket_spec pl_created_at (λ r, canonical_row PLATFORM_AUDIT_LOG_COLUMNS (platform_audit_values r))) by done. cbn [result_bind].
  f_equal. rewrite zip_fmap, Es. unfold starts_from. rewrite zip_with_fmap, <- list_fmap_compose. done.
Qed.

Lemma tenant_digests_lookup s a b ts m t : NoDup ts → Forall uuid_ok ts → t ∈ ts →
  tenant_digests s a b ts m !! str_uuid t = if decide (tenant_lines s t a b = []) then m !! str_uuid t else Some (sha256_lines sha256_hex (tenant_lines s t a b)).
Proof using Type.
  intros Hn Hu. revert m. induction Hn as [|x ts Hx Hn IH]; intros m; [set_solver|]. apply Forall_cons in Hu as [Hux Hu].
  intros Ht. cbn [tenant_digests foldl]. fold (tenant_digests s a b ts (add_lines sha256_hex x (m, tenant_lines s x a b))).
  assert (∀ M k, (∀ u, u ∈ ts → str_uuid u ≠ k) → tenant_digests s a b ts M !! k = M !! k) as Hother.
  { clear. intros M k. unfold tenant_digests. revert M. induction ts as [|u ts IH]; intros M Hk; [done|]. cbn [foldl]. rewrite IH by set_solver.
    unfold add_lines. simpl. case_bool_decide; [done|]. apply lookup_insert_ne. set_solver. }
  apply elem_of_cons in Ht as [->|Ht].
  - rewrite Hother. { unfold add_lines. simpl. case_bool_decide; [by rewrite decide_True|]. rewrite decide_False by done. by rewrite lookup_insert_eq. }
    intros u Hu' E. rewrite Forall_forall in Hu. apply str_uuid_inj in E; [by subst|by apply Hu|done].
  - rewrite IH by done. case_decide; [|done]. unfold add_lines. simpl. case_bool_decide; [done|]. apply lookup_insert_ne. intros E.
    rewrite Forall_forall in Hu. apply str_uuid_inj in E; [by subst|done|by apply Hu].
Qed.

(** ** The chain *)

Lemma unique_records_spec records : ∀ u fs u', unique_records sha256_hex records u = (fs, u') →
  u ⊆ u' ∧ (∀ p, p ∈ u' → p ∈ u ∨ p.1 = record_digest sha256_hex p.2 ∧ ∃ l, l ∈ records ∧ l.(lg_record) = p.2) ∧
  (fs = [] → ∀ l, l ∈ records → l.(lg_record).(rec_format) = RECORD_FORMAT ∧
     ∃ r, (record_digest sha256_hex l.(lg_record), r) ∈ u').
Proof using Type.
  induction records as [|l records IH]; intros u fs u'; cbn [unique_records].
  - intros [= <- <-]. split_and!; [done|by left|]. intros _ l. set_solver.
  - cbv zeta. case_bool_decide as Hf; cbn [negb].
    2: { destruct (unique_records _ records u) as [fs0 u0] eqn:E. intros [= <- <-]. destruct (IH _ _ _ E) as (H1 & H2 & _). split_and!; [done| |done].
         intros p [?|(? & x & ? & ?)]%H2; [by left|right]. split; [done|]. exists x. split; [by right|done]. }
    case_match eqn:Hs.
    { destruct (unique_records _ records u) as [fs0 u0] eqn:E. intros [= <- <-]. destruct (IH _ _ _ E) as (H1 & H2 & _). split_and!; [done| |done].
      intros p [?|(? & x & ? & ?)]%H2; [by left|right]. split; [done|]. exists x. split; [by right|done]. }
    intros E. destruct (IH _ _ _ E) as (H1 & H2 & H3).
    assert (∃ r, (record_digest sha256_hex (lg_record l), r) ∈ u') as Hl.
    { destruct (existsb _ u) eqn:Ex.
      - apply existsb_exists in Ex as ([d r] & Hin%list_elem_of_In & Hd). apply bool_decide_eq_true in Hd. simpl in Hd. subst d. exists r. by apply H1.
      - exists (lg_record l). apply H1. set_solver. }
    split_and!.
    + destruct (existsb _ u); set_solver.
    + intros p [Hp|(? & x & ? & ?)]%H2.
      * destruct (existsb _ u); [by left|]. apply elem_of_app in Hp as [Hp|Hp%list_elem_of_singleton]; [by left|right]. subst p. split; [done|].
        exists l. split; [by left|done].
      * right. split; [done|]. exists x. split; [by right|done].
    + intros Hfs l' [->|Hl']%elem_of_cons; [done|by apply H3].
Qed.

End Windows.

(** Each record starts where the one before it ends and names its digest. *)
Fixpoint linked (prior : option (pystr * DigestRecord)) (ordered : list (pystr * DigestRecord)) : Prop :=
  match ordered with
  | [] => True
  | (digest, record) :: rest =>
      match prior with
      | None => record.(rec_previous) = None
      | Some (d, p) => p.(rec_window_start) ≠ record.(rec_window_start) ∧ p.(rec_window_end) = record.(rec_window_start) ∧ record.(rec_previous) = Some d
      end ∧ linked (Some (digest, record)) rest
  end.
Lemma link_records_spec ordered : ∀ prior, (link_records prior ordered).1 = [] ↔ linked prior ordered.
Proof.
  induction ordered as [|[d r] rest IH]; intros prior; cbn [link_records linked]; [done|]. destruct prior as [[pd pr]|].
  - case_bool_decide as Hs.
    + destruct (link_records _ rest) as [fs chain]. simpl. naive_solver.
    + specialize (IH (Some (d, r))). destruct (link_records _ rest) as [fs chain]. simpl in *. rewrite <- IH.
      repeat case_bool_decide; simpl; naive_solver.
  - specialize (IH (Some (d, r))). destruct (link_records _ rest) as [fs chain]. simpl in *. rewrite <- IH. destruct (rec_previous r); simpl; naive_solver.
Qed.
Lemma linked_chain ordered : ∀ prior, linked prior ordered → (link_records prior ordered).2 = ordered.*2.
Proof.
  induction ordered as [|[d r] rest IH]; intros prior; cbn [link_records linked]; [done|]. intros [H1 H2]. destruct prior as [[pd pr]|].
  - destruct H1 as (H1 & _). rewrite bool_decide_eq_false_2 by done. specialize (IH _ H2). destruct (link_records _ rest). simpl in *. by f_equal.
  - specialize (IH _ H2). destruct (link_records _ rest). simpl in *. by f_equal.
Qed.

(** ** Batches *)

(** Records that follow each other, of one width. *)
Fixpoint run_of (width : timedelta) (start : datetime) (batch : list DigestRecord) : Prop :=
  match batch with
  | [] => True
  | r :: rest => r.(rec_window_start) = start ∧ r.(rec_window_end) = start + width ∧ run_of width (start + width) rest
  end.
Lemma run_of_starts width batch : ∀ start, run_of width start batch → rec_window_start <$> batch = starts_from width start (length batch).
Proof.
  induction batch as [|r batch IH]; intros start; [done|]. cbn [run_of]. intros (Hs & _ & Hr). rewrite fmap_cons, (IH _ Hr), Hs. unfold starts_from.
  cbn [length]. rewrite <- cons_seq, fmap_cons, <- fmap_S_seq, <- list_fmap_compose. f_equal; [lia|]. apply list_fmap_ext. intros k i _. simpl. lia.
Qed.
Lemma run_of_snoc width batch r prior : ∀ start, run_of width start batch → last batch = Some prior → follows prior r = true → record_width r = width →
  run_of width start (batch ++ [r]).
Proof.
  induction batch as [|x batch IH]; intros start; [done|]. cbn [run_of app]. intros (Hs & He & Hr) Hl Hf Hw. split_and!; [done..|].
  destruct batch as [|y batch]; [|by apply IH]. injection Hl as ->. unfold follows, record_width in *. simpl. reflect_bools. split_and!; lia || done.
Qed.
Definition batch_width (batch : list DigestRecord) : timedelta := match batch with r :: _ => record_width r | [] => 0 end.
Definition is_run (batch : list DigestRecord) : Prop := match batch with [] => False | r :: _ => run_of (record_width r) r.(rec_window_start) batch end.
Lemma run_of_last_width width batch prior : ∀ start, run_of width start batch → last batch = Some prior → record_width prior = width.
Proof.
  induction batch as [|x batch IH]; intros start; [done|]. cbn [run_of]. intros (Hs & He & Hr) Hl.
  destruct batch as [|y batch]; [|by eapply IH]. injection Hl as ->. unfold record_width. lia.
Qed.
Lemma batches_spec chain : ∀ batch, (batch = [] ∨ is_run batch) → Forall is_run (batches batch chain) ∧ concat (batches batch chain) = batch ++ chain.
Proof.
  induction chain as [|r chain IH]; intros batch Hb; cbn [batches].
  - case_bool_decide as He; [subst; done|]. destruct Hb as [?|Hb]; [done|]. split; [by repeat constructor|]. simpl. by rewrite app_nil_r.
  - assert (is_run [r]) as Hr by (simpl; unfold record_width; split_and!; lia || done).
    destruct (last batch) as [prior|] eqn:El.
    + destruct Hb as [->|Hb]; [done|]. case_match eqn:Hc.
      * destruct (IH [r] (or_intror Hr)) as [H1 H2]. split; [by constructor|]. simpl. by rewrite H2.
      * apply orb_false_iff in Hc as [Hf%negb_false_iff _]. destruct (IH (batch ++ [r])) as [H1 H2]; [|split; [done|by rewrite H2, <- app_assoc]]. right.
        destruct batch as [|x batch]; [done|]. cbn [is_run app] in *. pose proof (run_of_last_width _ _ _ _ Hb El) as Hw.
        apply (run_of_snoc _ (x :: batch) r prior); [done..|]. unfold follows in Hf. reflect_bools. congruence.
    + apply last_None in El. subst. destruct (IH [r] (or_intror Hr)) as [H1 H2]. split; [done|]. by rewrite H2.
Qed.

(** ** The comparison *)

Lemma compare_window_spec r a : compare_window r a = [] ↔ r.(rec_tenants) = a.(wd_tenants) ∧ r.(rec_platform) = a.(wd_platform).
Proof.
  unfold compare_window. cbv zeta. split.
  - intros [H1 H2]%app_nil. split; [|by case_bool_decide]. apply map_eq. intros k.
    destruct (decide (k ∈ dom r.(rec_tenants) ∪ dom a.(wd_tenants))) as [Hk|Hk].
    + destruct (bool_decide (r.(rec_tenants) !! k = a.(wd_tenants) !! k)) eqn:E; [by apply bool_decide_eq_true in E|].
      assert (mkFinding (audit_log_changed k) (Some r.(rec_window_start)) ∈ @nil Finding) as Hin; [|by apply not_elem_of_nil in Hin].
      rewrite <- H1. apply list_elem_of_bind. exists k. rewrite E. split; [by left|]. unfold sorted_items. rewrite merge_sort_Permutation.
      rewrite <- list_fmap_compose. apply list_elem_of_fmap. exists k. split; [done|]. by apply elem_of_elements.
    + apply not_elem_of_union in Hk as [H3%not_elem_of_dom H4%not_elem_of_dom]. congruence.
  - intros [-> ->]. rewrite bool_decide_eq_true_2 by done. rewrite app_nil_r. apply elem_of_nil_inv. intros f Hf%list_elem_of_bind.
    destruct Hf as (k & Hk & _). rewrite bool_decide_eq_true_2 in Hk by done. by apply not_elem_of_nil in Hk.
Qed.

(** Nothing outside the windows. *)
Lemma count_in_zero {R} (created : R → datetime) m range i x : count_in created m range = 0%nat → m !! i = Some x → in_range created range (i, x) = false.
Proof.
  unfold count_in. intros Hc Hi. apply nil_length_inv in Hc. destruct (List.filter _ _) eqn:E; [|done]. destruct (in_range created range (i, x)) eqn:Ei; [|done].
  assert (In (i, x) []) as []. rewrite <- E. apply filter_In. split; [|done]. by apply list_elem_of_In, elem_of_map_to_list.
Qed.
Lemma coverage_findings_nil ranges counts : length ranges = length counts → coverage_findings ranges counts = [] ↔ Forall (λ n, n = 0%nat) counts.
Proof.
  unfold coverage_findings. revert counts. induction ranges as [|r ranges IH]; intros [|n counts]; try done. simpl. intros [= Hl]. rewrite Forall_cons, <- IH by done.
  case_bool_decide; simpl; naive_solver.
Qed.

Section Verified.
Context (sha256_hex : pystr → pystr).

Lemma flush_all_spec s l r findings : Forall is_run l → flush_all sha256_hex s l = Ok findings → findings = [] → r ∈ concat l → 0 < record_width r →
  compare_window r (window_of sha256_hex s (record_width r) r.(rec_window_start)) = [].
Proof using Type.
  intros Hl. revert findings. induction Hl as [|batch l Hb Hl IH]; intros findings; cbn [flush_all concat]; [set_solver|].
  destruct (compute_windows _ _ _ _) as [actual|] eqn:Ec; [|done]. cbn [result_bind]. destruct (flush_all _ s l) as [others|] eqn:Ef; [|done].
  cbn [result_bind]. intros [= <-] [H1 H2]%app_nil [Hr|Hr]%elem_of_app Hw; [|by eapply IH].
  destruct batch as [|x batch]; [done|]. cbn [is_run] in Hb. revert H1.
  assert (∀ b start, run_of (record_width x) start b → r ∈ b → record_width r = record_width x) as Hwid.
  { intros b. induction b as [|y b IHb]; intros start; [set_solver|]. cbn [run_of]. intros (E1 & E2 & E3) [->|Hin]%elem_of_cons; [unfold record_width at 1; lia|by eapply IHb]. }
  pose proof (Hwid _ _ Hb Hr) as Ew. rewrite Ew in *. rewrite (run_of_starts _ _ _ Hb), compute_windows_spec in Ec by done.
  assert (actual = window_of sha256_hex s (record_width x) <$> (rec_window_start <$> (x :: batch))) as -> by (rewrite (run_of_starts _ _ _ Hb); congruence). clear -Hr. revert Hr. generalize (x :: batch) as b. induction b as [|y b IH]; [set_solver|].
  cbn [fmap list_fmap compare_windows]. intros [->|Hr]%elem_of_cons [H1 H2]%app_nil; [done|by apply IH].
Qed.

(** What a verification without findings has established. *)
Lemma verify_records_inv s records until v : verify_records sha256_hex s records until = Ok v → verification_ok v = true →
  ∃ ordered first final findings,
    linked None ordered ∧ head ordered.*2 = Some first ∧ last ordered.*2 = Some final ∧
    (∀ p, p ∈ ordered → p.1 = record_digest sha256_hex p.2 ∧ ∃ l, l ∈ records ∧ l.(lg_record) = p.2) ∧
    (∀ l, l ∈ records → ∃ r, (record_digest sha256_hex l.(lg_record), r) ∈ ordered) ∧
    flush_all sha256_hex s (batches [] ordered.*2) = Ok findings ∧ findings = [] ∧
    check_coverage s first.(rec_window_start) final.(rec_window_end) until = [] ∧ v.(vf_covered_until) = Some final.(rec_window_end).
Proof using Type.
  unfold verify_records, check_chain. destruct (unique_records _ records []) as [fs u] eqn:Eu. set (ordered := merge_sort record_before u).
  assert (∀ p, p ∈ ordered ↔ p ∈ u) as Ho by (intros p; unfold ordered; by rewrite merge_sort_Permutation).
  destruct (unique_records_spec _ _ _ _ _ Eu) as (_ & Hu & Hr). destruct (link_records None ordered) as [fs' chain] eqn:El.
  destruct chain as [|first chain'] eqn:Ech.
  { intros [= <-]. done. }
  destruct (flush_all _ _ _) as [findings|] eqn:Ef; [|done]. cbn [result_bind]. intros [= <-]. unfold verification_ok. cbn [vf_windows vf_findings vf_covered_until].
  intros [_ Hf]%andb_prop. destruct ((fs ++ fs') ++ findings ++ check_coverage _ _ _ _) eqn:E; [|done].
  apply app_nil in E as [[E1 E2]%app_nil [E3 E4]%app_nil].
  assert (linked None ordered) as Hlk by (apply link_records_spec; by rewrite El, E2).
  pose proof (linked_chain _ _ Hlk) as Hch. rewrite El in Hch. simpl in Hch.
  exists ordered, first, (default first (last (first :: chain'))), findings. rewrite <- Hch. split_and!; try done.
  - destruct (last (first :: chain')) eqn:Elast; [done|]. by apply last_None in Elast.
  - intros p [?|?]%Ho%Hu; [set_solver|done].
  - intros l Hl. destruct (Hr E1 l Hl) as (_ & r & Hr'). exists r. by apply Ho.
Qed.

End Verified.
Lemma linked_tiles rest : ∀ d p c final, linked (Some (d, p)) rest → last (p :: rest.*2) = Some final →
  p.(rec_window_start) ≤ c < final.(rec_window_end) → ∃ r, r ∈ p :: rest.*2 ∧ r.(rec_window_start) ≤ c < r.(rec_window_end).
Proof.
  induction rest as [|[d' q] rest IH]; intros d p c final; cbn [linked].
  - intros _ [= ->] Hc. exists final. split; [by left|done].
  - intros [(_ & He & _) Hl] Hlast Hc. destruct (decide (c < p.(rec_window_end))) as [Hp|Hp]; [exists p; split; [by left|lia]|].
    destruct (IH d' q c final Hl) as (r & Hr & ?); [done|lia|]. exists r. split; [by right|done].
Qed.

(** ** What the database can hold *)

Record store_ok (s : audit_store) : Prop := {
  so_tenants t : t ∈ s.(as_tenants) → uuid_ok t;
  so_log i r : s.(as_log) !! i = Some r → log_row_ok (i, r) ∧ r.(al_tenant_id) ∈ s.(as_tenants);
  so_platform i r : s.(as_platform) !! i = Some r → platform_row_ok (i, r);
}.
Lemma elem_of_tenant_ids s t : t ∈ tenant_ids s ↔ t ∈ s.(as_tenants).
Proof. unfold tenant_ids, sorted_ids. by rewrite merge_sort_Permutation, elem_of_elements. Qed.
Lemma tenant_ids_NoDup s : NoDup (tenant_ids s).
Proof. unfold tenant_ids, sorted_ids. rewrite merge_sort_Permutation. apply NoDup_elements. Qed.
Lemma of_tenant_lookup t m i r : of_tenant t m !! i = Some r ↔ m !! i = Some r ∧ r.(al_tenant_id) = t.
Proof. unfold of_tenant. by rewrite map_lookup_filter_Some. Qed.

Lemma coverage_counts before after_ until {R} (created : R → datetime) m i x : coverage_findings (outside_ranges before after_ until) (count_in created m <$> outside_ranges before after_ until) = [] →
  m !! i = Some x → before ≤ created x ∧ (∀ u, until = Some u → created x < u → created x < after_).
Proof.
  rewrite coverage_findings_nil by (by rewrite length_fmap). rewrite Forall_fmap, Forall_forall. intros Hz Hi.
  assert (∀ range, range ∈ outside_ranges before after_ until → in_range created range (i, x) = false) as Hr.
  { intros range Hin. apply (count_in_zero _ m); [|done]. by apply Hz. }
  unfold outside_ranges in Hr. pose proof (Hr (None, before) ltac:(by left)) as H1. unfold in_range in H1. simpl in H1. rewrite andb_true_r in H1. reflect_bools.
  split; [lia|]. intros u -> Hu. destruct (after_ <? u) eqn:Ea; reflect_bools; [|lia].
  pose proof (Hr (Some after_, u) ltac:(set_solver)) as H2. unfold in_range in H2. simpl in H2. reflect_bools; lia.
Qed.
Section Coverage.
Context (s : audit_store) (before after_ : datetime) (until : option datetime).
Context (Hok : store_ok s) (Hc : check_coverage s before after_ until = []).

Lemma covered_log i r : s.(as_log) !! i = Some r → before ≤ r.(al_created_at) ∧ (∀ u, until = Some u → r.(al_created_at) < u → r.(al_created_at) < after_).
Proof using Type*.
  intros Hi. destruct (so_log _ Hok _ _ Hi) as [_ Ht]. unfold check_coverage in Hc. cbv zeta in Hc. apply app_nil in Hc as [_ H].
  apply (coverage_counts before after_ until al_created_at (of_tenant r.(al_tenant_id) s.(as_log)) i r); [|by apply of_tenant_lookup].
  apply elem_of_nil_inv. intros f Hf. assert (f ∈ @nil Finding) as Hin; [|by apply not_elem_of_nil in Hin]. rewrite <- H.
  apply list_elem_of_bind. exists r.(al_tenant_id). split; [done|]. by apply elem_of_tenant_ids.
Qed.
Lemma covered_platform i r : s.(as_platform) !! i = Some r → before ≤ r.(pl_created_at) ∧ (∀ u, until = Some u → r.(pl_created_at) < u → r.(pl_created_at) < after_).
Proof using Hc.
  intros Hi. unfold check_coverage in Hc. cbv zeta in Hc. apply app_nil in Hc as [H _]. by apply (coverage_counts before after_ until pl_created_at s.(as_platform) i r).
Qed.
End Coverage.

(** ** Tamper evidence *)

Section Evidence.
Context (sha256_hex : pystr → pystr).

(** The rows are the same, or two different texts of them have one digest. *)
Definition preserved {R : Type} (line : uuid * R → pystr) (rows rows' : list (uuid * R)) : Prop :=
  rows = rows' ∨ (lines_text (line <$> rows) ≠ lines_text (line <$> rows') ∧ sha256_hex (lines_text (line <$> rows)) = sha256_hex (lines_text (line <$> rows'))).
Definition log_line (r : uuid * AuditLogRow) : pystr := canonical_row AUDIT_LOG_COLUMNS (audit_log_values r).
Definition platform_line (r : uuid * PlatformAuditRow) : pystr := canonical_row PLATFORM_AUDIT_LOG_COLUMNS (platform_audit_values r).
Definition window_unchanged (s s' : audit_store) (a b : datetime) : Prop :=
  (∀ t, preserved log_line (rows_in al_created_at a b (of_tenant t s.(as_log))) (rows_in al_created_at a b (of_tenant t s'.(as_log)))) ∧
  preserved platform_line (rows_in pl_created_at a b s.(as_platform)) (rows_in pl_created_at a b s'.(as_platform)).

Lemma same_digest_preserved {R} (line : uuid * R → pystr) (ok : uuid * R → Prop) l l' : (∀ r, 10%N ∉ line r) →
  (∀ r r', ok r → ok r' → line r = line r' → r = r') → Forall ok l → Forall ok l' →
  sha256_lines sha256_hex (line <$> l) = sha256_lines sha256_hex (line <$> l') → preserved line l l'.
Proof using Type.
  intros Hn Hi Hl Hl' [= _ E]. destruct (decide (lines_text (line <$> l) = lines_text (line <$> l'))) as [Et|Et]; [left|by right].
  apply lines_text_inj in Et; [|apply Forall_fmap, Forall_true; intros; apply Hn..]. clear E. revert l' Hl' Et.
  induction Hl as [|r l Hr Hl IH]; intros [|r' l'] Hl' E; try done. apply Forall_cons in Hl' as [Hr' Hl']. rewrite !fmap_cons in E.
  apply cons_inv in E as [E1 E2]. f_equal; [by apply Hi|by apply IH].
Qed.
Lemma log_line_inj r r' : log_row_ok r → log_row_ok r' → log_line r = log_line r' → r = r'.
Proof using Type.
  intros H H' E. apply audit_log_values_inj; [done..|]. apply canonical_row_inj in E; [done| |done|done|apply audit_log_cells|apply audit_log_cells].
  by apply (bool_decide_unpack _); vm_compute.
Qed.
Lemma platform_line_inj r r' : platform_row_ok r → platform_row_ok r' → platform_line r = platform_line r' → r = r'.
Proof using Type.
  intros H H' E. apply platform_values_inj; [done..|]. apply canonical_row_inj in E; [done| |done|done|apply platform_cells|apply platform_cells].
  by apply (bool_decide_unpack _); vm_compute.
Qed.

Lemma tenant_digests_other s a b ts m k : (∀ u, u ∈ ts → str_uuid u ≠ k) → tenant_digests sha256_hex s a b ts m !! k = m !! k.
Proof using Type.
  unfold tenant_digests. revert m. induction ts as [|u ts IH]; intros m Hk; [done|]. cbn [foldl]. rewrite IH by set_solver.
  unfold add_lines. simpl. case_bool_decide; [done|]. apply lookup_insert_ne. set_solver.
Qed.
Lemma window_tenant s a b t : store_ok s → uuid_ok t → tenant_digests sha256_hex s a b (tenant_ids s) ∅ !! str_uuid t =
  if decide (tenant_lines s t a b = []) then None else Some (sha256_lines sha256_hex (tenant_lines s t a b)).
Proof using Type.
  intros Hok Ht. assert (Forall uuid_ok (tenant_ids s)) as Hu by (apply Forall_forall; intros u Hu%elem_of_tenant_ids; by apply (so_tenants _ Hok)).
  destruct (decide (t ∈ tenant_ids s)) as [Hin|Hin].
  - rewrite tenant_digests_lookup by (done || apply tenant_ids_NoDup). by rewrite lookup_empty.
  - rewrite tenant_digests_other, lookup_empty.
    + rewrite decide_True; [done|]. unfold tenant_lines, lines_in. match goal with |- _ <$> ?l = [] => cut (l = []); [by intros ->|] end. apply elem_of_nil_inv.
      intros [i r] [_ [Hi Ei]%of_tenant_lookup]%elem_of_rows_in. simpl in *. destruct (so_log _ Hok _ _ Hi) as [_ H]. apply Hin, elem_of_tenant_ids. congruence.
    + intros u Hu' E. rewrite Forall_forall in Hu. apply str_uuid_inj in E; [by subst|by apply Hu|done].
Qed.
Lemma window_unchanged_of s s' width start : store_ok s → store_ok s' →
  wd_tenants (window_of sha256_hex s width start) = wd_tenants (window_of sha256_hex s' width start) →
  wd_platform (window_of sha256_hex s width start) = wd_platform (window_of sha256_hex s' width start) → window_unchanged s s' start (start + width).
Proof using Type.
  intros Hs Hs' Ht Hp. cbn [window_of wd_tenants wd_platform] in *. split.
  - intros t. assert (∀ s0, store_ok s0 → Forall log_row_ok (rows_in al_created_at start (start + width) (of_tenant t s0.(as_log)))) as Hrows.
    { intros s0 H0. apply Forall_forall. intros [i r] [_ [Hi _]%of_tenant_lookup]%elem_of_rows_in. by apply (so_log _ H0). }
    assert (∀ s0, store_ok s0 → ¬ uuid_ok t → rows_in al_created_at start (start + width) (of_tenant t s0.(as_log)) = []) as Hno.
    { intros s0 H0 Hu. apply elem_of_nil_inv. intros [i r] [_ [Hi <-]%of_tenant_lookup]%elem_of_rows_in. apply Hu. destruct (so_log _ H0 _ _ Hi) as [_ ?]. by apply (so_tenants _ H0). }
    destruct (decide (t < 2 ^ 128)%N) as [Hu|Hu]; [|left; by rewrite !Hno].
    apply (f_equal (lookup (str_uuid t))) in Ht. rewrite !window_tenant in Ht by done. unfold tenant_lines, lines_in in Ht.
    destruct (decide _) as [E1|E1], (decide _) as [E2|E2] in Ht; try done.
    + left. apply fmap_nil_inv in E1, E2. congruence.
    + apply (inj Some) in Ht. apply (same_digest_preserved log_line log_row_ok); [|apply log_line_inj|by apply Hrows|by apply Hrows|exact Ht].
      intros r. apply canonical_row_newline, audit_log_cells.
  - apply (same_digest_preserved platform_line platform_row_ok); [|apply platform_line_inj| | |done].
    + intros r. apply canonical_row_newline, platform_cells.
    + apply Forall_forall. intros [i r] [_ Hi]%elem_of_rows_in. by apply (so_platform _ Hs).
    + apply Forall_forall. intros [i r] [_ Hi]%elem_of_rows_in. by apply (so_platform _ Hs').
Qed.

(** A record of a window of [s], logged. *)
Definition recorded_window (s : audit_store) (width : timedelta) (start : datetime) (previous : option pystr) : DigestRecord :=
  build_record sha256_hex (window_of sha256_hex s width start) previous.
(** Another record of the log has the digest of this one. *)
Definition record_collision (records : list LoggedRecord) (r : DigestRecord) : Prop :=
  ∃ l, l ∈ records ∧ l.(lg_record) ≠ r ∧ record_digest sha256_hex l.(lg_record) = record_digest sha256_hex r.
(** The instant lies in the window of a record. *)
Definition in_recorded (records : list LoggedRecord) (c : datetime) : Prop :=
  ∃ l, l ∈ records ∧ l.(lg_record).(rec_window_start) ≤ c < l.(lg_record).(rec_window_end).

Lemma recorded_compared s s' records until v width start previous stated : store_ok s → store_ok s' → 0 < width →
  verify_records sha256_hex s' records until = Ok v → verification_ok v = true →
  mkLogged (recorded_window s width start previous) stated ∈ records →
  record_collision records (recorded_window s width start previous) ∨ window_unchanged s s' start (start + width).
Proof using Type.
  intros Hs Hs' Hw Hv Hok Hin. destruct (verify_records_inv _ _ _ _ _ Hv Hok) as (ordered & first & final & findings & _ & _ & _ & Hor & Hall & Hf & -> & _).
  destruct (Hall _ Hin) as [r Hr]. simpl in Hr. destruct (Hor _ Hr) as [Hd (l & Hl & El)]. simpl in Hd, El.
  destruct (decide (r = recorded_window s width start previous)) as [->|Hne]; [right|left; exists l; rewrite El; by split_and!].
  destruct (batches_spec ordered.*2 [] (or_introl eq_refl)) as [Hruns Hcat].
  pose proof (flush_all_spec _ _ _ (recorded_window s width start previous) _ Hruns Hf eq_refl) as Hcmp.
  rewrite Hcat in Hcmp. unfold record_width in Hcmp. cbn [recorded_window build_record window_of wd_window_start wd_window_end rec_window_start rec_window_end] in Hcmp.
  replace (start + width - start) with width in Hcmp by lia. apply compare_window_spec in Hcmp as [Ht Hp]; [|exact (list_elem_of_fmap_2 snd _ _ Hr)|done].
  by apply window_unchanged_of.
Qed.
Lemma verified_covers s records until v c : verify_records sha256_hex s records until = Ok v → verification_ok v = true →
  (∃ u, v.(vf_covered_until) = Some u ∧ c < u) → (∀ before after_, check_coverage s before after_ until = [] → before ≤ c) → in_recorded records c.
Proof using Type.
  intros Hv Hok (u & Hu & Hc) Hb. destruct (verify_records_inv _ _ _ _ _ Hv Hok) as (ordered & first & final & findings & Hlk & Hh & Hl & Hor & _ & _ & _ & Hcov & Hun).
  rewrite Hun in Hu. injection Hu as <-. apply Hb in Hcov. destruct ordered as [|[d p] rest]; [done|]. injection Hh as ->. destruct Hlk as [_ Hlk].
  destruct (linked_tiles _ _ _ c final Hlk) as (r & Hr & Hrc); [done|done|].
  apply (list_elem_of_fmap snd ((d, first) :: rest)) in Hr as ([d' r'] & -> & Hr). destruct (Hor _ Hr) as [_ (l & ? & El)]. exists l. by rewrite El.
Qed.

(** C16: a verification that reports nothing proves the audit tables.  First, every row of the two tables that is
    dated before the end of the coverage, or before the instant up to which rows are settled, lies in the window of a
    record of the log: nothing was added outside.  Second, for every record of the log that was made of some earlier
    contents of the tables: each tenant's rows of its window, and the platform's, are now exactly what they were then,
    in every column; unless two different texts that are at hand have the same SHA-256 digest: the lines then and now,
    or the record and another of the log.  So a row that is changed, removed, added or dated otherwise is reported, as
    is the removal of a tenant that had rows. *)
Theorem verification_sound s' records until v :
  store_ok s' → verify_records sha256_hex s' records until = Ok v → verification_ok v = true →
  (∀ c, ((∃ i r, s'.(as_log) !! i = Some r ∧ r.(al_created_at) = c) ∨ (∃ i r, s'.(as_platform) !! i = Some r ∧ r.(pl_created_at) = c)) →
     (∃ u, (v.(vf_covered_until) = Some u ∨ until = Some u) ∧ c < u) → in_recorded records c) ∧
  (∀ s width start previous stated, store_ok s → 0 < width → mkLogged (recorded_window s width start previous) stated ∈ records →
     record_collision records (recorded_window s width start previous) ∨ window_unchanged s s' start (start + width)).
Proof using Type.
  intros Hs' Hv Hok. split; [|intros; by eapply recorded_compared].
  intros c Hc Hu. assert (∀ before after_, check_coverage s' before after_ until = [] → before ≤ c ∧ (∀ u, until = Some u → c < u → c < after_)) as Hcov.
  { intros before after_ H. destruct Hc as [(i & r & Hi & <-)|(i & r & Hi & <-)]; [by eapply covered_log|by eapply covered_platform]. }
  apply (verified_covers s' records until v c Hv Hok); [|intros ? ? H; by apply Hcov in H as [? _]]. destruct Hu as (u & [Hu|Hu] & Hcu); [by exists u|].
  destruct (verify_records_inv _ _ _ _ _ Hv Hok) as (ordered & first & final & findings & _ & _ & _ & _ & _ & _ & _ & Hcv & Hun).
  exists final.(rec_window_end). split; [done|]. apply Hcov in Hcv as [_ H]. by eapply H.
Qed.
End Evidence.
