(* ===== verification/DigestHistory.v ===== *)
(** * The digest job never raises a false alarm

    [reachable]: the audit tables grow by rows committed within the settle time of
    their date, and any number of runs of the job take the steps of [worker_step],
    one transaction or one line of the log each, in any interleaving; a run
    that takes no further step has crashed.  [chain_from] is the chain of records
    the tables determine; the invariant says that what is stored is a
    beginning of it, and what is logged that or one record more.  [run_alone]: a
    run that nothing interrupts is [digest_settled_windows]. *)

From S2P Require Import Prelude PyStr PyTime PyText TenantLifecycle OutboxModel Webhooks WebhookFanout AuditDigest DigestProofs.

(** Rows and tenants were added, every row dated after [bound]. *)
Record appended (bound : datetime) (s s' : audit_store) : Prop := {
  ap_tenants : s.(as_tenants) ⊆ s'.(as_tenants);
  ap_log : s.(as_log) ⊆ s'.(as_log);
  ap_log_new i r : s'.(as_log) !! i = Some r → s.(as_log) !! i = Some r ∨ bound < r.(al_created_at);
  ap_platform : s.(as_platform) ⊆ s'.(as_platform);
  ap_platform_new i r : s'.(as_platform) !! i = Some r → s.(as_platform) !! i = Some r ∨ bound < r.(pl_created_at);
}.

Lemma appended_trans b b' s1 s2 s3 : b ≤ b' → appended b s1 s2 → appended b' s2 s3 → appended b s1 s3.
Proof.
  intros Hb [H1 H2 H3 H4 H5] [K1 K2 K3 K4 K5]. split; [set_solver|by etrans| |by etrans|].
  - intros i r Hi. destruct (K3 _ _ Hi) as [Hi'|?]; [by apply H3|right; lia].
  - intros i r Hi. destruct (K5 _ _ Hi) as [Hi'|?]; [by apply H5|right; lia].
Qed.
Lemma appended_refl b s : appended b s s.
Proof. split; auto. Qed.

(** ** The earliest row *)

Lemma min_time_spec l : match min_time l with Some e => e ∈ l ∧ ∀ x, x ∈ l → e ≤ x | None => l = [] end.
Proof.
  destruct l as [|t l]; [done|]. simpl. revert t. induction l as [|x l IH]; intros t; simpl; [set_solver by lia|].
  destruct (IH (Z.min t x)) as [H1 H2]. split.
  - apply elem_of_cons in H1 as [H1|H1]; [|set_solver]. rewrite H1. destruct (Z.min_spec t x) as [[_ ->]|[_ ->]]; set_solver.
  - intros y Hy. pose proof (H2 (Z.min t x) ltac:(by left)). apply elem_of_cons in Hy as [->|[->|Hy]%elem_of_cons]; [lia|lia|]. apply H2. by right.
Qed.
Definition has_row (s : audit_store) (c : datetime) : Prop :=
  (∃ i r, s.(as_log) !! i = Some r ∧ r.(al_created_at) = c) ∨ (∃ i r, s.(as_platform) !! i = Some r ∧ r.(pl_created_at) = c).
Lemma earliest_times s : store_ok s → ∃ l, earliest_row s = min_time l ∧ (∀ c, c ∈ l → has_row s c) ∧ (∀ c, has_row s c → ∃ e, e ∈ l ∧ e ≤ c).
Proof.
  intros Hok. unfold earliest_row. eexists. split; [reflexivity|].
  assert (∀ {R} (created : R → datetime) (m : gmap uuid R), let times := (λ r : uuid * R, created r.2) <$> map_to_list m in
    (∀ c, c ∈ times ↔ ∃ i r, m !! i = Some r ∧ created r = c)) as Ht.
  { intros R created m times c. unfold times. rewrite list_elem_of_fmap. split.
    - intros ([i r] & -> & Hi%elem_of_map_to_list). by exists i, r.
    - intros (i & r & Hi & <-). exists (i, r). by rewrite elem_of_map_to_list. }
  split.
  - intros c [Hc|Hc]%elem_of_app.
    + apply list_elem_of_omap in Hc as (t & _ & Hm). left. pose proof (min_time_spec ((λ r : uuid * AuditLogRow, r.2.(al_created_at)) <$> map_to_list (of_tenant t s.(as_log)))) as Hs.
      rewrite Hm in Hs. destruct Hs as [Hs _]. apply Ht in Hs as (i & r & [Hi _]%of_tenant_lookup & <-). by exists i, r.
    + right. pose proof (min_time_spec ((λ r : uuid * PlatformAuditRow, r.2.(pl_created_at)) <$> map_to_list s.(as_platform))) as Hs.
      destruct (min_time _) as [e|] in *; [|set_solver]. apply list_elem_of_singleton in Hc as ->. destruct Hs as [Hs _]. by apply Ht in Hs.
  - intros c [(i & r & Hi & Hc)|(i & r & Hi & Hc)].
    + pose proof (min_time_spec ((λ r : uuid * AuditLogRow, r.2.(al_created_at)) <$> map_to_list (of_tenant r.(al_tenant_id) s.(as_log)))) as Hs.
      assert (c ∈ (λ r : uuid * AuditLogRow, r.2.(al_created_at)) <$> map_to_list (of_tenant r.(al_tenant_id) s.(as_log))) as Hin
        by (apply Ht; exists i, r; by rewrite of_tenant_lookup).
      destruct (min_time _) as [e|] eqn:Em in Hs; [|by rewrite Hs in Hin; apply not_elem_of_nil in Hin]. exists e. split; [|by apply Hs]. apply elem_of_app. left.
      apply list_elem_of_omap. exists r.(al_tenant_id). split; [|done]. apply elem_of_tenant_ids. by apply (so_log _ Hok _ _ Hi).
    + pose proof (min_time_spec ((λ r : uuid * PlatformAuditRow, r.2.(pl_created_at)) <$> map_to_list s.(as_platform))) as Hs.
      assert (c ∈ (λ r : uuid * PlatformAuditRow, r.2.(pl_created_at)) <$> map_to_list s.(as_platform)) as Hin by (apply Ht; by exists i, r).
      destruct (min_time _) as [e|] eqn:Em in Hs |- *; [|by rewrite Hs in Hin; apply not_elem_of_nil in Hin]. exists e. split; [|by apply Hs]. apply elem_of_app. right. by left.
Qed.
Lemma earliest_row_spec s e : store_ok s → earliest_row s = Some e ↔ has_row s e ∧ ∀ c, has_row s c → e ≤ c.
Proof.
  intros Hok. destruct (earliest_times s Hok) as (l & -> & H1 & H2). pose proof (min_time_spec l) as Hm. destruct (min_time l) as [x|].
  - destruct Hm as [Hx Hmin]. split.
    + intros [= <-]. split; [by apply H1|]. intros c (y & Hy & ?)%H2. apply Hmin in Hy. lia.
    + intros [He Hall]. f_equal. destruct (H2 e He) as (y & Hy & ?). apply Hmin in Hy. pose proof (Hall x (H1 x Hx)). lia.
  - subst. split; [done|]. intros [He _]. destruct (H2 e He) as (y & Hy & _). by apply not_elem_of_nil in Hy.
Qed.
Lemma has_row_appended bound s s' c : appended bound s s' → has_row s' c ↔ has_row s c ∨ (bound < c ∧ has_row s' c).
Proof.
  intros Ha. split.
  - intros [(i & r & Hi & <-)|(i & r & Hi & <-)].
    + destruct (ap_log_new _ _ _ Ha _ _ Hi); [left; left; by exists i, r|right]. split; [done|]. left. by exists i, r.
    + destruct (ap_platform_new _ _ _ Ha _ _ Hi); [left; right; by exists i, r|right]. split; [done|]. right. by exists i, r.
  - intros [[(i & r & Hi & <-)|(i & r & Hi & <-)]|[_ ?]]; [left|right|done]; exists i, r; (split; [|done]); eapply lookup_weaken; try done; apply Ha.
Qed.
Lemma earliest_appended bound s s' e : store_ok s → store_ok s' → appended bound s s' → earliest_row s = Some e → e ≤ bound → earliest_row s' = Some e.
Proof.
  intros Hok Hok' Ha He Hb. apply earliest_row_spec in He as [He Hmin]; [|done]. apply earliest_row_spec; [done|]. split.
  - apply (has_row_appended _ _ _ _ Ha). by left.
  - intros c [Hc|[Hc _]]%(has_row_appended _ _ _ _ Ha); [by apply Hmin|lia].
Qed.

(** ** Windows that are settled do not change *)

Lemma rows_stable {R} (created : R → datetime) a b (m m' : gmap uuid R) : m ⊆ m' → (∀ i r, m' !! i = Some r → m !! i = Some r ∨ b ≤ created r) →
  rows_in created a b m' = rows_in created a b m.
Proof.
  intros Hs Hn. apply rows_in_ext. intros i x Hx. split; [|intros; by eapply lookup_weaken]. intros Hi. destruct (Hn _ _ Hi); [done|lia].
Qed.
Lemma of_tenant_subseteq t m m' : m ⊆ m' → of_tenant t m ⊆ of_tenant t m'.
Proof.
  intros Hm. apply map_subseteq_spec. intros i r [Hi Ht]%of_tenant_lookup. apply of_tenant_lookup. split; [by eapply lookup_weaken|done].
Qed.
Lemma tenant_lines_stable bound s s' t a b : appended bound s s' → b ≤ bound → tenant_lines s' t a b = tenant_lines s t a b.
Proof.
  intros Ha Hb. unfold tenant_lines, lines_in. f_equal. apply rows_stable; [by apply of_tenant_subseteq, Ha|].
  intros i r [Hi Ht]%of_tenant_lookup. rewrite of_tenant_lookup. destruct (ap_log_new _ _ _ Ha _ _ Hi); [by left|right; lia].
Qed.

(** The order of the records. *)
Lemma str_leb_total a b : str_leb a b = true ∨ str_leb b a = true.
Proof.
  revert b. induction a as [|x a IH]; intros [|y b]; simpl; auto. destruct (N.lt_trichotomy x y) as [H|[->|H]].
  - left. by rewrite (proj2 (N.ltb_lt x y) H).
  - rewrite N.eqb_refl, N.ltb_irrefl. apply IH.
  - right. by rewrite (proj2 (N.ltb_lt y x) H).
Qed.
Lemma str_leb_trans a b c : str_leb a b = true → str_leb b c = true → str_leb a c = true.
Proof.
  revert b c. induction a as [|x a IH]; intros [|y b] [|z c]; simpl; try done. rewrite !orb_true_iff, !andb_true_iff, !N.ltb_lt, !N.eqb_eq.
  intros [H1|[-> H1]] [H2|[-> H2]]; [left; lia|by left|by left|right]. split; [done|]. by eapply IH.
Qed.
#[export] Instance record_before_trans : Transitive record_before.
Proof.
  intros a b c. unfold record_before. intros [H1|[H1 H1']] [H2|[H2 H2']]; [left; lia|left; lia|left; lia|right]. split; [congruence|by eapply str_leb_trans].
Qed.
#[export] Instance record_before_total : Total record_before.
Proof.
  intros a b. unfold record_before. destruct (Z.lt_trichotomy a.2.(rec_window_start) b.2.(rec_window_start)) as [|[E|]]; [by left; left| |by right; left].
  destruct (str_leb_total a.1 b.1); [left|right]; right; by split.
Qed.
(** Nothing outside the windows, nothing reported. *)
Lemma coverage_ok before after_ until {R} (created : R → datetime) m : (∀ i x, m !! i = Some x → before ≤ created x) → (∀ u, until = Some u → u ≤ after_) →
  coverage_findings (outside_ranges before after_ until) (count_in created m <$> outside_ranges before after_ until) = [].
Proof.
  intros Hm Hu. rewrite coverage_findings_nil by (by rewrite length_fmap). assert (outside_ranges before after_ until = [(None, before)]) as ->.
  { unfold outside_ranges. destruct until as [u|]; [|done]. specialize (Hu u eq_refl). by rewrite (proj2 (Z.ltb_ge after_ u)). }
  apply Forall_fmap, Forall_singleton. simpl. unfold count_in. destruct (List.filter _ _) as [|[i x] l] eqn:E; [by rewrite take_nil|].
  assert (In (i, x) ((i, x) :: l)) as Hin by (by left). rewrite <- E in Hin. apply filter_In in Hin as [Hin Hr].
  apply list_elem_of_In, elem_of_map_to_list, Hm in Hin. unfold in_range in Hr. simpl in Hr. rewrite andb_true_r in Hr. apply Z.ltb_lt in Hr. lia.
Qed.
Lemma check_coverage_ok s before after_ until : (∀ c, has_row s c → before ≤ c) → (∀ u, until = Some u → u ≤ after_) → check_coverage s before after_ until = [].
Proof.
  intros Hb Hu. unfold check_coverage. cbv zeta. rewrite coverage_ok; [|intros i x Hi; apply Hb; right; by exists i, x|done]. rewrite app_nil_l.
  apply elem_of_nil_inv. intros f (t & Hf & _)%list_elem_of_bind. cbv beta in Hf. rewrite coverage_ok in Hf; [by apply not_elem_of_nil in Hf| |done].
  intros i x [Hi _]%of_tenant_lookup. apply Hb. left. by exists i, x.
Qed.

Lemma unique_records_complete (sha256_hex : pystr → pystr) (P : DigestRecord → Prop) records : (∀ r r', P r → P r' → record_digest sha256_hex r = record_digest sha256_hex r' → r = r') →
  Forall (λ l : LoggedRecord, P l.(lg_record) ∧ l.(lg_record).(rec_format) = RECORD_FORMAT ∧ l.(lg_stated_digest) = Some (record_digest sha256_hex l.(lg_record))) records →
  ∀ u, Forall (λ p : pystr * DigestRecord, P p.2 ∧ p.1 = record_digest sha256_hex p.2) u → NoDup u →
  ∃ u', unique_records sha256_hex records u = ([], u') ∧ NoDup u' ∧ (∀ p, p ∈ u' ↔ p ∈ u ∨ ∃ l, l ∈ records ∧ p = (record_digest sha256_hex l.(lg_record), l.(lg_record))).
Proof.
  intros HP. induction 1 as [|l records (Hl & Hf & Hd) _ IH]; intros u Hu Hnd; cbn [unique_records]; [exists u; set_solver|].
  cbv zeta. rewrite Hf, Hd, !bool_decide_eq_true_2 by done. cbn [negb]. destruct (existsb _ u) eqn:Ex.
  - destruct (IH u Hu Hnd) as (u' & H1 & H2 & H3). exists u'. split_and!; [done|done|]. intros p. rewrite H3.
    enough ((record_digest sha256_hex (lg_record l), lg_record l) ∈ u) by set_solver.
    apply existsb_exists in Ex as (q & Hq%list_elem_of_In & E%bool_decide_eq_true). rewrite Forall_forall in Hu. destruct (Hu _ Hq) as [Hq1 Hq2].
    rewrite Hq2 in E. apply HP in E; [|done..]. destruct q as [qd qr]. simpl in *. by subst.
  - destruct (IH (u ++ [(record_digest sha256_hex (lg_record l), lg_record l)])) as (u' & H1 & H2 & H3).
    + apply Forall_app. split; [done|]. by apply Forall_singleton.
    + apply NoDup_app. split_and!; [done| |apply NoDup_singleton]. intros q Hq ->%list_elem_of_singleton.
      enough (existsb (λ p : pystr * DigestRecord, bool_decide (p.1 = record_digest sha256_hex (lg_record l))) u = true) by congruence.
      apply existsb_exists. exists (record_digest sha256_hex (lg_record l), lg_record l). split; [by apply list_elem_of_In|]. by apply bool_decide_eq_true.
    + exists u'. split_and!; [done|done|]. intros p. rewrite H3. set_solver.
Qed.
Lemma flush_all_ok (sha256_hex : pystr → pystr) s l : Forall is_run l → (∀ r, r ∈ concat l → 0 < record_width r ∧ compare_window r (window_of sha256_hex s (record_width r) r.(rec_window_start)) = []) →
  flush_all sha256_hex s l = Ok [].
Proof.
  induction 1 as [|batch l Hb _ IH]; intros Hr; cbn [flush_all]; [done|]. cbn [concat] in Hr.
  rewrite IH by (intros r Hin; apply Hr, elem_of_app; by right). destruct batch as [|x batch]; [done|]. cbn [is_run] in Hb.
  assert (∀ b start y, run_of (record_width x) start b → y ∈ b → record_width y = record_width x) as Hwid.
  { intros b. induction b as [|y b IHb]; intros start z; [set_solver|]. cbn [run_of]. intros (E1 & E2 & E3) [->|Hin]%elem_of_cons; [unfold record_width at 1; lia|by eapply IHb]. }
  pose proof (run_of_starts _ _ _ Hb) as Es. rewrite Es. rewrite compute_windows_spec by (apply Hr; by left). rewrite <- Es. cbn [result_bind]. rewrite app_nil_r. f_equal.
  assert (∀ y, y ∈ x :: batch → compare_window y (window_of sha256_hex s (record_width x) y.(rec_window_start)) = []) as Hcmp.
  { intros y Hy. rewrite <- (Hwid _ _ _ Hb Hy). apply Hr. apply elem_of_app. by left. }
  clear -Hcmp. revert Hcmp. generalize (x :: batch). intros b. induction b as [|y b IH]; intros Hcmp; [done|]. cbn [fmap list_fmap compare_windows].
  rewrite Hcmp by (by left). apply IH. intros z Hz. apply Hcmp. by right.
Qed.

(** The digest with the latest window. *)
Lemma later_digest_spec l : ∀ d, foldl later_digest d l ∈ d :: l ∧ ∀ x, x ∈ d :: l → x.1 ≤ (foldl later_digest d l).1.
Proof.
  induction l as [|y l IH]; intros d; simpl; [split; [by left|by intros x ->%list_elem_of_singleton]|]. destruct (IH (later_digest d y)) as [H1 H2].
  assert ((later_digest d y = d ∨ later_digest d y = y) ∧ d.1 ≤ (later_digest d y).1 ∧ y.1 ≤ (later_digest d y).1) as (Hc & Hd & Hy).
  { unfold later_digest. destruct (d.1 <? y.1) eqn:E; [apply Z.ltb_lt in E|apply Z.ltb_ge in E]; split_and!; (by left) || (by right) || lia. }
  pose proof (H2 (later_digest d y) ltac:(by left)) as H3. split; [destruct Hc as [E|E]; rewrite E in *; set_solver|].
  intros x [->|[->|Hx]%elem_of_cons]%elem_of_cons; [lia|lia|]. apply H2. by right.
Qed.

(** ** What a run has read *)

(** Of the rows up to [bound], those of the tenants read, and no others. *)
Record glance_ok (bound : datetime) (s : audit_store) (g : glance) : Prop := {
  go_tenants : g.(gl_seen).(as_tenants) ⊆ s.(as_tenants);
  go_seen i r : g.(gl_seen).(as_log) !! i = Some r → s.(as_log) !! i = Some r ∧ r.(al_tenant_id) ∈ g.(gl_seen).(as_tenants);
  go_rows i r : s.(as_log) !! i = Some r → r.(al_created_at) ≤ bound →
    r.(al_tenant_id) ∈ g.(gl_seen).(as_tenants) ∧ (r.(al_tenant_id) ∈ g.(gl_todo) ∨ g.(gl_seen).(as_log) !! i = Some r);
  go_todo t : t ∈ g.(gl_todo) → t ∈ g.(gl_seen).(as_tenants);
}.
Lemma list_tenants_ok bound s : store_ok s → glance_ok bound s (list_tenants s).
Proof.
  intros Hok. split; simpl; [done|by intros i r H; rewrite lookup_empty in H| |by intros t; rewrite elem_of_tenant_ids].
  intros i r Hi _. rewrite elem_of_tenant_ids. destruct (so_log _ Hok _ _ Hi) as [_ H]. auto.
Qed.
Lemma read_tenant_ok bound s seen t todo : glance_ok bound s (mkGlance seen (t :: todo)) → glance_ok bound s (mkGlance (read_tenant t s seen) todo).
Proof.
  intros [H1 H2 H3 H4]. cbn [gl_seen gl_todo] in *. split; cbn [gl_seen gl_todo read_tenant as_tenants as_log]; [done|..].
  - intros i r [Hi|[_ [Hi Ht]%of_tenant_lookup]]%lookup_union_Some_raw; [by apply H2|]. split; [done|]. rewrite Ht. apply H4. by left.
  - intros i r Hi Hb. destruct (H3 i r Hi Hb) as [Ht Hs]. split; [done|]. rewrite lookup_union_Some_raw.
    destruct (as_log seen !! i) as [r'|] eqn:E; [destruct (H2 _ _ E) as [E' _]; right; left; congruence|].
    destruct Hs as [[Hs|Hs]%elem_of_cons|Hs]; [right; right|by left|done]. by rewrite of_tenant_lookup.
  - intros u Hu. apply H4. by right.
Qed.
(** When all is read, what was not seen is dated later. *)
Lemma read_platform_ok bound s seen : store_ok s → glance_ok bound s (mkGlance seen []) →
  store_ok (read_platform s seen) ∧ appended bound (read_platform s seen) s.
Proof.
  intros Hok [H1 H2 H3 H4]. cbn [gl_seen gl_todo] in *. split; split; cbn [read_platform as_tenants as_log as_platform]; try done.
  - intros t Ht. apply (so_tenants _ Hok). set_solver.
  - intros i r Hi. destruct (H2 _ _ Hi) as [Hi' Ht]. by destruct (so_log _ Hok _ _ Hi').
  - apply Hok.
  - apply map_subseteq_spec. intros i r Hi. by apply H2.
  - intros i r Hi. destruct (decide (al_created_at r ≤ bound)) as [Hb|]; [left|right; lia]. destruct (H3 i r Hi Hb) as [_ [Hs|Hs]]; [by apply elem_of_nil in Hs|done].
  - by left.
Qed.
Lemma glance_appended bound bound' s s' g : bound ≤ bound' → store_ok s → appended bound' s s' → glance_ok bound s g → glance_ok bound s' g.
Proof.
  intros Hb Hok Ha [H1 H2 H3 H4]. split; [by etrans; [|apply Ha]|..|done].
  - intros i r Hi. destruct (H2 _ _ Hi). split; [|done]. eapply lookup_weaken; [done|apply Ha].
  - intros i r Hi Hr. destruct (ap_log_new _ _ _ Ha _ _ Hi); [by apply H3|lia].
Qed.

Section History.
Context (sha256_hex : pystr → pystr) (cfg : AuditDigestConfig).
Abbreviation width := cfg.(dc_window).

(** The digests of the tenants depend on their lines only. *)
Lemma tenant_digests_ext s s' a b : store_ok s → store_ok s' → (∀ t, tenant_lines s' t a b = tenant_lines s t a b) →
  tenant_digests sha256_hex s' a b (tenant_ids s') ∅ = tenant_digests sha256_hex s a b (tenant_ids s) ∅.
Proof using Type.
  intros Hs Hs' Hl. apply map_eq. intros k.
  destruct (decide (Exists (λ u, str_uuid u = k) (tenant_ids s ++ tenant_ids s'))) as [Hk|Hk].
  - apply Exists_exists in Hk as (u & Hu & <-). assert (uuid_ok u) as Hok.
    { apply elem_of_app in Hu as [Hu|Hu]; apply elem_of_tenant_ids in Hu; [by apply (so_tenants _ Hs)|by apply (so_tenants _ Hs')]. }
    rewrite !window_tenant by done. by rewrite Hl.
  - rewrite !tenant_digests_other; [done|..]; intros u Hu E; apply Hk, Exists_exists; exists u; set_solver.
Qed.
Lemma window_stable bound s s' start : store_ok s → store_ok s' → appended bound s s' → start + width ≤ bound →
  window_of sha256_hex s' width start = window_of sha256_hex s width start.
Proof using Type.
  intros Hs Hs' Ha Hb. unfold window_of. f_equal.
  - apply tenant_digests_ext; [done..|]. intros t. by eapply tenant_lines_stable.
  - f_equal. unfold platform_lines, lines_in. f_equal. apply rows_stable; [apply Ha|]. intros i r Hi. destruct (ap_platform_new _ _ _ Ha _ _ Hi); [by left|right; lia].
Qed.
(** What the job writes does not matter to the windows. *)
Lemma window_rows s s' start : s'.(as_tenants) = s.(as_tenants) → s'.(as_log) = s.(as_log) → s'.(as_platform) = s.(as_platform) →
  window_of sha256_hex s' width start = window_of sha256_hex s width start.
Proof using Type.
  intros H1 H2 H3. unfold window_of, tenant_digests, tenant_ids, tenant_lines, platform_lines, lines_in. by rewrite H1, H2, H3.
Qed.

(** ** The chain the tables determine *)

Fixpoint chain_from (s : audit_store) (previous : option pystr) (start : datetime) (n : nat) : list (pystr * DigestRecord) :=
  match n with
  | O => []
  | S n =>
      let r := recorded_window sha256_hex s width start previous in
      let d := record_digest sha256_hex r in
      (d, r) :: chain_from s (Some d) (start + width) n
  end.
Definition after_chain (previous : option pystr) (chain : list (pystr * DigestRecord)) : option pystr :=
  match last chain with Some p => Some p.1 | None => previous end.
Definition digest_of (p : pystr * DigestRecord) : datetime * AuditDigest := (p.2.(rec_window_start), mkAuditDigest p.2.(rec_window_end) p.1 p.2).
Definition stored (chain : list (pystr * DigestRecord)) : gmap datetime AuditDigest := list_to_map (digest_of <$> chain).
Definition logged_of (p : pystr * DigestRecord) : LoggedRecord := mkLogged p.2 (Some p.1).

Lemma chain_from_app s n m : ∀ previous start, chain_from s previous start (n + m) =
  chain_from s previous start n ++ chain_from s (after_chain previous (chain_from s previous start n)) (start + Z.of_nat n * width) m.
Proof using Type.
  induction n as [|n IH]; intros previous start.
  - simpl. f_equal. lia.
  - cbn [Nat.add chain_from app]. rewrite IH. do 2 f_equal. f_equal; [|lia]. unfold after_chain.
    set (d := record_digest sha256_hex (recorded_window sha256_hex s width start previous)).
    destruct (chain_from s (Some d) (start + width) n) as [|p l]; [done|]. rewrite !last_cons. by destruct (last l).
Qed.
Lemma chain_from_lookup s previous start n i p : chain_from s previous start n !! i = Some p →
  (i < n)%nat ∧ p.2.(rec_window_start) = start + Z.of_nat i * width ∧ p.2.(rec_window_end) = start + Z.of_nat i * width + width ∧ p.1 = record_digest sha256_hex p.2 ∧
  p.2.(rec_format) = RECORD_FORMAT ∧ ∃ previous', p.2 = recorded_window sha256_hex s width (start + Z.of_nat i * width) previous'.
Proof using Type.
  revert previous start i. induction n as [|n IH]; intros previous start i; [done|]. cbn [chain_from]. destruct i as [|i]; simpl.
  - intros [= <-]. cbn [fst snd]. replace (start + Z.of_nat 0 * width) with start by lia. split_and!; [lia|done..|by eexists].
  - intros H. apply IH in H as (H1 & H2 & H3 & H4 & H5 & q & H6). split_and!; [lia|lia|lia|done|done|]. exists q. rewrite H6. f_equal; lia.
Qed.
Lemma chain_from_length s previous start n : length (chain_from s previous start n) = n.
Proof using Type. revert previous start. induction n as [|n IH]; intros; simpl; [done|]. by rewrite IH. Qed.
Lemma chain_from_ext s s' n : ∀ previous start, (∀ i, (i < n)%nat → window_of sha256_hex s' width (start + Z.of_nat i * width) = window_of sha256_hex s width (start + Z.of_nat i * width)) →
  chain_from s' previous start n = chain_from s previous start n.
Proof using Type.
  induction n as [|n IH]; intros previous start H; [done|]. cbn [chain_from]. unfold recorded_window.
  pose proof (H 0%nat ltac:(lia)) as H0. replace (start + Z.of_nat 0 * width) with start in H0 by lia. rewrite H0. f_equal. apply IH.
  intros i Hi. specialize (H (S i) ltac:(lia)). by replace (start + width + Z.of_nat i * width) with (start + Z.of_nat (S i) * width) by lia.
Qed.

Lemma chain_from_prefix s previous start k n : (k ≤ n)%nat → chain_from s previous start k `prefix_of` chain_from s previous start n.
Proof using Type. intros H. replace n with (k + (n - k))%nat by lia. rewrite chain_from_app. by eexists. Qed.
Lemma chain_from_last s previous start n : ∃ q, last (chain_from s previous start (S n)) = Some (record_digest sha256_hex (recorded_window sha256_hex s width (start + Z.of_nat n * width) q),
  recorded_window sha256_hex s width (start + Z.of_nat n * width) q) ∧ q = after_chain previous (chain_from s previous start n).
Proof using Type.
  eexists. split; [|reflexivity]. replace (S n) with (n + 1)%nat by lia. rewrite chain_from_app. cbn [chain_from]. by rewrite last_snoc.
Qed.
Lemma chain_from_snoc s previous start n : chain_from s previous start (S n) = chain_from s previous start n ++
  [let r := recorded_window sha256_hex s width (start + Z.of_nat n * width) (after_chain previous (chain_from s previous start n)) in (record_digest sha256_hex r, r)].
Proof using Type. replace (S n) with (n + 1)%nat by lia. by rewrite chain_from_app. Qed.

(** What is stored of it. *)
Hypothesis width_pos : 0 < width.
Lemma stored_lookup s start n w : stored (chain_from s None start n) !! w = None ↔ ∀ i, (i < n)%nat → w ≠ start + Z.of_nat i * width.
Proof using Type.
  unfold stored. rewrite <- not_elem_of_list_to_map. rewrite <- list_fmap_compose. split.
  - intros H i Hi ->. apply H. apply list_elem_of_fmap. destruct (lookup_lt_is_Some_2 (chain_from s None start n) i) as [p Hp]; [by rewrite chain_from_length|].
    exists p. split; [|by eapply list_elem_of_lookup_2]. apply chain_from_lookup in Hp as (_ & Hp & _). by rewrite <- Hp.
  - intros H (p & -> & [i Hp]%list_elem_of_lookup)%list_elem_of_fmap. apply chain_from_lookup in Hp as (Hi & Hp & _). by apply (H i).
Qed.
Lemma stored_snoc s start n : let r := recorded_window sha256_hex s width (start + Z.of_nat n * width) (after_chain None (chain_from s None start n)) in
  stored (chain_from s None start (S n)) = <[start + Z.of_nat n * width := mkAuditDigest (start + Z.of_nat n * width + width) (record_digest sha256_hex r) r]> (stored (chain_from s None start n)).
Proof using width_pos.
  intros r. rewrite chain_from_snoc. unfold stored. rewrite fmap_app, list_to_map_app. fold r. cbv zeta.
  change (digest_of <$> [(record_digest sha256_hex r, r)]) with [(start + Z.of_nat n * width, mkAuditDigest (start + Z.of_nat n * width + width) (record_digest sha256_hex r) r)].
  rewrite list_to_map_cons, list_to_map_nil, insert_empty. rewrite <- (insert_union_singleton_r (stored (chain_from s None start n))); [done|].
  apply stored_lookup. intros i Hi. nia.
Qed.

Lemma last_stored_none s s' start : s'.(as_digests) = stored (chain_from s None start 0) → last_stored s' = None.
Proof using Type. unfold last_stored. intros ->. cbn [chain_from]. unfold stored. simpl. by rewrite map_to_list_empty. Qed.
Lemma last_stored_chain s s' start n : s'.(as_digests) = stored (chain_from s None start (S n)) →
  ∃ p, last (chain_from s None start (S n)) = Some p ∧ last_stored s' = Some (digest_of p).2.
Proof using width_pos.
  intros Hd. destruct (last (chain_from s None start (S n))) as [p|] eqn:Hp.
  2: { apply last_None in Hp. apply (f_equal length) in Hp. by rewrite chain_from_length in Hp. }
  exists p. split; [done|]. unfold last_stored.
  assert (s'.(as_digests) !! (digest_of p).1 = Some (digest_of p).2) as Hl.
  { rewrite Hd. unfold stored. rewrite chain_from_snoc in Hp. rewrite last_snoc in Hp. injection Hp as <-. fold (stored (chain_from s None start (S n))). rewrite stored_snoc.
    by rewrite lookup_insert_eq. }
  assert (∀ x, x ∈ map_to_list s'.(as_digests) → x.1 ≤ (digest_of p).1) as Hmax.
  { intros [w d] Hx%elem_of_map_to_list. destruct (decide (w ≤ (digest_of p).1)) as [|Hgt]; [done|]. exfalso. rewrite Hd in Hx.
    assert (stored (chain_from s None start (S n)) !! w = None) as Hn; [|by rewrite Hn in Hx]. apply stored_lookup. intros i Hi ->.
    rewrite last_lookup, chain_from_length in Hp. apply chain_from_lookup in Hp as (_ & Hp & _). unfold digest_of in Hgt. simpl in Hgt. nia. }
  destruct (map_to_list (as_digests s')) as [|d l] eqn:El.
  { apply map_to_list_empty_iff in El. rewrite El in Hl. by rewrite lookup_empty in Hl. }
  rewrite <- elem_of_map_to_list, El in Hl. destruct (later_digest_spec l d) as [Hin Hall].
  f_equal. specialize (Hall _ Hl). specialize (Hmax _ Hin). cbn [fst] in Hall.
  assert ((foldl later_digest d l).1 = (digest_of p).1) as E1 by lia. rewrite <- El in Hin, Hl. destruct (foldl later_digest d l) as [w x].
  apply elem_of_map_to_list in Hin, Hl. simpl in *. congruence.
Qed.

(** ** A run of the job *)

Definition same_rows (s s' : audit_store) : Prop := s'.(as_tenants) = s.(as_tenants) ∧ s'.(as_log) = s.(as_log) ∧ s'.(as_platform) = s.(as_platform).
(** The first [n] records are stored; those, or one more, are logged, and nothing else. *)
Record holds (s : audit_store) (start : datetime) (n l : nat) (s' : audit_store) : Prop := {
  hd_stored : s'.(as_digests) = stored (chain_from s None start n);
  hd_logged : (n ≤ l ≤ S n)%nat;
  hd_only x : x ∈ s'.(as_emitted) → ∃ p, p ∈ chain_from s None start l ∧ x = logged_of p;
  hd_all p : p ∈ chain_from s None start l → logged_of p ∈ s'.(as_emitted);
}.
Lemma starts_from_cons start n : starts_from width start (S n) = start :: starts_from width (start + width) n.
Proof using width_pos.
  unfold starts_from. rewrite <- cons_seq, fmap_cons, <- fmap_S_seq, <- list_fmap_compose. f_equal; [lia|]. apply list_fmap_ext. intros k i _. simpl. lia.
Qed.
Lemma holds_emit s start n l s' p : p ∈ chain_from s None start l → holds s start n l s' → holds s start n l (emit (logged_of p) s').
Proof using Type.
  intros Hp [H1 H2 H3 H4]. split; [done|done| |].
  - intros x [Hx|Hx%list_elem_of_singleton]%elem_of_app; [by apply H3|by exists p].
  - intros q Hq%H4. apply elem_of_app. by left.
Qed.
(** The record of window [k]. *)
Definition record_at (s : audit_store) (start : datetime) (k : nat) : DigestRecord :=
  recorded_window sha256_hex s width (start + Z.of_nat k * width) (after_chain None (chain_from s None start k)).
Lemma chain_record_at s start k : chain_from s None start (S k) = chain_from s None start k ++ [(record_digest sha256_hex (record_at s start k), record_at s start k)].
Proof using Type. apply chain_from_snoc. Qed.
Lemma record_at_elem s start k l : (k < l)%nat → (record_digest sha256_hex (record_at s start k), record_at s start k) ∈ chain_from s None start l.
Proof using Type.
  intros Hk. eapply elem_of_prefix; [|apply (chain_from_prefix _ _ _ (S k)); lia]. rewrite chain_record_at. apply elem_of_app. right. by left.
Qed.
Lemma after_record_at s start k : after_chain None (chain_from s None start (S k)) = Some (record_digest sha256_hex (record_at s start k)).
Proof using Type. unfold after_chain. by rewrite chain_record_at, last_snoc. Qed.
(** Logging the record of a window that is stored, or of the next one. *)
Lemma holds_log s start n l s' k : (k ≤ n)%nat → holds s start n l s' →
  let r := record_at s start k in
  holds s start n (Nat.max l (S k)) (emit (mkLogged r (Some (record_digest sha256_hex r))) s').
Proof using width_pos.
  intros Hk Hh r. pose proof (hd_logged _ _ _ _ _ Hh) as Hl. destruct (decide (k < l)%nat) as [Hlt|Hge].
  - replace (Nat.max l (S k)) with l by lia. by apply (holds_emit _ _ _ _ _ (record_digest sha256_hex r, r)); [apply record_at_elem|].
  - replace (Nat.max l (S k)) with (S k) by lia. assert (k = l ∧ k = n) as [-> ->] by lia. destruct Hh as [H1 _ H3 H4].
    assert (holds s start n (S n) (emit (logged_of (record_digest sha256_hex r, r)) s')) as Hh; [|exact Hh]. split; [done|lia|..].
    + intros x [(p & Hp & ->)%H3|Hx%list_elem_of_singleton]%elem_of_app; [exists p|exists (record_digest sha256_hex r, r)]; rewrite chain_record_at; set_solver.
    + intros p. rewrite chain_record_at. intros [Hp%H4|Hp%list_elem_of_singleton]%elem_of_app; apply elem_of_app; [by left|right; subst p; by left].
Qed.
(** Storing the record that is logged and not stored. *)
Lemma holds_store s start n l s' : (n < l)%nat → holds s start n l s' →
  let r := record_at s start n in let w := start + Z.of_nat n * width in
  holds s start (S n) l (put_digests (<[w := mkAuditDigest (w + width) (record_digest sha256_hex r) r]> s'.(as_digests)) s').
Proof using width_pos.
  intros Hn [H1 H2 H3 H4] r w. split; [|lia|done|done]. cbn [put_digests as_digests]. rewrite H1. symmetry. apply stored_snoc.
Qed.

Lemma settled_starts_from clock n : ∀ start, ∃ m, settled_starts cfg clock n start = starts_from width start m ∧ ((0 < m)%nat → start + Z.of_nat m * width + cfg.(dc_settle) ≤ clock).
Proof using width_pos.
  induction n as [|n IH]; intros start; cbn [settled_starts]; [exists 0%nat; split; [done|lia]|].
  destruct (_ <=? clock) eqn:E; [apply Z.leb_le in E|exists 0%nat; split; [done|lia]].
  destruct (IH (start + width)) as (m & -> & Hm). exists (S m). rewrite starts_from_cons. split; [done|]. intros _.
  destruct m as [|m]; [lia|]. specialize (Hm ltac:(lia)). lia.
Qed.
Lemma floor_bounds t : floor_to_window t width ≤ t < floor_to_window t width + width.
Proof using width_pos.
  unfold floor_to_window. pose proof (Z.mod_pos_bound (t - EPOCH) width width_pos). pose proof (Z.div_mod (t - EPOCH) width ltac:(lia)). lia.
Qed.

(** The first window of all, and the chain from it. *)
Definition first_start (s : audit_store) : datetime := floor_to_window (default 0 (earliest_row s)) width.
Abbreviation chain s n := (chain_from s None (first_start s) n).
(** There are [n] settled windows. *)
Definition settled (clock : datetime) (s : audit_store) (n : nat) : Prop :=
  is_Some (earliest_row s) ∧ first_start s + Z.of_nat n * width + cfg.(dc_settle) ≤ clock.

(** What a run writes does not matter to the chain. *)
Lemma same_rows_store s s' : same_rows s s' → store_ok s → store_ok s'.
Proof using Type. intros (E1 & E2 & E3) [H1 H2 H3]. split; rewrite ?E1, ?E2, ?E3; done. Qed.
Lemma same_rows_earliest s s' : same_rows s s' → earliest_row s' = earliest_row s.
Proof using Type. intros (E1 & E2 & E3). unfold earliest_row, tenant_ids. by rewrite E1, E2, E3. Qed.
Lemma same_rows_appended bound s s' r : same_rows s s' → appended bound r s → appended bound r s'.
Proof using Type. intros (E1 & E2 & E3) [H1 H2 H3 H4 H5]. split; rewrite ?E1, ?E2, ?E3; done. Qed.
Lemma same_rows_chain s s' n : same_rows s s' → chain s' n = chain s n.
Proof using Type.
  intros Hr. unfold first_start. rewrite (same_rows_earliest _ _ Hr). apply chain_from_ext. intros i _. by apply window_rows; apply Hr.
Qed.
Lemma same_rows_first s s' : same_rows s s' → first_start s' = first_start s.
Proof using Type. intros Hr. unfold first_start. by rewrite (same_rows_earliest _ _ Hr). Qed.
Lemma same_rows_glance bound s s' g : same_rows s s' → glance_ok bound s g → glance_ok bound s' g.
Proof using Type. intros (E1 & E2 & E3) [H1 H2 H3 H4]. split; rewrite ?E1, ?E2; done. Qed.

(** ** Where a run may be

    [n] windows are stored, [l] records logged.  A run whose next window is the
    [k]-th has its windows and the digest before them from the chain, and [k] is at
    most [n]: a run that is behind finds its window stored. *)

Definition windows_at (s : audit_store) (k m : nat) : list datetime := starts_from width (first_start s + Z.of_nat k * width) m.
Record position (clock : datetime) (s : audit_store) (n k m : nat) (previous : option pystr) : Prop := {
  po_behind : (k ≤ n)%nat;
  po_settled : settled clock s (k + m);
  po_previous : previous = after_chain None (chain s k);
}.
Definition worker_ok (clock : datetime) (s : audit_store) (n l : nat) (p : worker) : Prop :=
  match p with
  | Fresh | Done => True
  | Undated c => c ≤ clock
  | Dating c g => c ≤ clock ∧ glance_ok (c - cfg.(dc_settle)) s g
  | Planned starts last => starts = [] ∨ ∃ k m, starts = windows_at s k (S m) ∧ position clock s n k (S m) (ad_digest <$> last) ∧
      ∀ d, last = Some d → ∃ p, p ∈ chain s n ∧ mkLogged d.(ad_record) (Some d.(ad_digest)) = logged_of p
  | Listing starts previous => ∃ k m, starts = windows_at s k (S m) ∧ position clock s n k (S m) previous
  | Reading starts previous g => ∃ k m, starts = windows_at s k (S m) ∧ position clock s n k (S m) previous ∧
      glance_ok (first_start s + Z.of_nat (k + S m) * width) s g
  | Recording windows previous => windows = [] ∨ ∃ k m, windows = window_of sha256_hex s width <$> windows_at s k (S m) ∧ position clock s n k (S m) previous
  | Storing w rest record => ∃ k m, w = window_of sha256_hex s width (first_start s + Z.of_nat k * width) ∧
      rest = window_of sha256_hex s width <$> windows_at s (S k) m ∧ record = record_at s (first_start s) k ∧
      (k ≤ n)%nat ∧ (k < l)%nat ∧ settled clock s (k + S m)
  end.
Record consistent (clock : datetime) (s : audit_store) (workers : list worker) (n l : nat) : Prop := {
  co_ok : store_ok s;
  co_holds : holds s (first_start s) n l s;
  co_settled : (0 < l)%nat → settled clock s l;
  co_workers : Forall (worker_ok clock s n l) workers;
}.

Hypothesis settle_pos : 0 ≤ cfg.(dc_settle).

(** ** What changes a run's place *)

(** Nothing a run writes, but for the number of windows stored and logged. *)
Lemma same_rows_settled clock s s' n : same_rows s s' → settled clock s n → settled clock s' n.
Proof using Type. intros Hr. unfold settled. by rewrite (same_rows_earliest _ _ Hr), (same_rows_first _ _ Hr). Qed.
Lemma same_rows_position clock s s' n n' k m previous : same_rows s s' → (n ≤ n')%nat → position clock s n k m previous → position clock s' n' k m previous.
Proof using width_pos. intros Hr Hn [H1 H2 H3]. split; [lia|by eapply same_rows_settled|by rewrite (same_rows_chain _ _ _ Hr)]. Qed.
Lemma same_rows_record_at s s' k : same_rows s s' → record_at s' (first_start s') k = record_at s (first_start s) k.
Proof using Type.
  intros Hr. unfold record_at, recorded_window. rewrite (same_rows_chain _ _ _ Hr), (same_rows_first _ _ Hr). f_equal. by apply window_rows; apply Hr.
Qed.
Lemma same_rows_worker clock s s' n n' l l' p : same_rows s s' → (n ≤ n')%nat → (l ≤ l')%nat → worker_ok clock s n l p → worker_ok clock s' n' l' p.
Proof using width_pos.
  intros Hr Hn Hl. pose proof (same_rows_first _ _ Hr) as Hf.
  assert (∀ k m, windows_at s' k m = windows_at s k m) as Hw by (intros; unfold windows_at; by rewrite Hf).
  assert (∀ L, window_of sha256_hex s' width <$> L = window_of sha256_hex s width <$> L) as Hws by (intros L; apply list_fmap_ext; intros; by apply window_rows; apply Hr).
  destruct p; cbn [worker_ok]; try done.
  - intros [H1 H2]. split; [done|by eapply same_rows_glance].
  - intros [H|(k & m & H1 & H2 & H3)]; [by left|right]. exists k, m. rewrite Hw. split_and!; [done|by eapply same_rows_position|].
    intros d (p & Hp & E)%H3. exists p. split; [|done]. rewrite (same_rows_chain _ _ _ Hr). eapply elem_of_prefix; [done|by apply chain_from_prefix].
  - intros (k & m & H1 & H2). exists k, m. rewrite Hw. split; [done|by eapply same_rows_position].
  - intros (k & m & H1 & H2 & H3). exists k, m. rewrite Hw, Hf. split_and!; [done|by eapply same_rows_position|by eapply same_rows_glance].
  - intros [H|(k & m & H1 & H2)]; [by left|right]. exists k, m. rewrite Hw, Hws. split; [done|by eapply same_rows_position].
  - intros (k & m & H1 & H2 & H3 & H4 & H5 & H6). exists k, m. rewrite Hw, Hws, Hf. rewrite <-Hf at 2. rewrite (same_rows_record_at _ _ _ Hr).
    split_and!; [rewrite H1; symmetry; by apply window_rows; apply Hr|done|done|lia|lia|by eapply same_rows_settled].
Qed.

(** Nor the clock. *)
Lemma later_settled clock clock' s n : clock ≤ clock' → settled clock s n → settled clock' s n.
Proof using Type. intros Hc [H1 H2]. split; [done|lia]. Qed.
Lemma later_worker clock clock' s n l p : clock ≤ clock' → worker_ok clock s n l p → worker_ok clock' s n l p.
Proof using Type.
  intros Hc. assert (∀ k m previous, position clock s n k m previous → position clock' s n k m previous) as Hp
    by (intros k m previous [H1 H2 H3]; split; [done|by eapply later_settled|done]).
  destruct p; cbn [worker_ok]; try done; try lia.
  - intros [H1 H2]. split; [lia|done].
  - naive_solver.
  - naive_solver.
  - naive_solver.
  - naive_solver.
  - intros (k & m & H1 & H2 & H3 & H4 & H5 & H6). exists k, m. split_and!; [done..|]. by eapply later_settled.
Qed.

(** Nor rows dated after the settle time before the clock: the windows concerned are settled. *)
Section Rows.
Context (clock : datetime) (s s' : audit_store) (Hok : store_ok s) (Hok' : store_ok s') (Ha : appended (clock - cfg.(dc_settle)) s s').

Lemma settled_earliest n : (0 < n)%nat → settled clock s n → earliest_row s' = earliest_row s.
Proof using width_pos Hok Hok' Ha.
  intros Hn [[e He] Hs]. rewrite He. eapply earliest_appended; [exact Hok|done|done|done|]. unfold first_start in Hs. rewrite He in Hs. simpl in Hs.
  pose proof (floor_bounds e). nia.
Qed.
Lemma settled_first n : (0 < n)%nat → settled clock s n → first_start s' = first_start s.
Proof using width_pos Hok Hok' Ha. intros Hn Hs. unfold first_start. by rewrite (settled_earliest n). Qed.
Lemma settled_appended n : (0 < n)%nat → settled clock s n → settled clock s' n.
Proof using width_pos Hok Hok' Ha. intros Hn Hs. unfold settled. rewrite (settled_first n), (settled_earliest n) by done. done. Qed.
Lemma settled_window n k : settled clock s n → (k < n)%nat →
  window_of sha256_hex s' width (first_start s + Z.of_nat k * width) = window_of sha256_hex s width (first_start s + Z.of_nat k * width).
Proof using width_pos Hok Hok' Ha. intros [_ Hs] Hk. eapply window_stable; [done|done|exact Ha|nia]. Qed.
Lemma settled_chain n k : (0 < n)%nat → settled clock s n → (k ≤ n)%nat → chain s' k = chain s k.
Proof using width_pos Hok Hok' Ha.
  intros Hn Hs Hk. rewrite (settled_first n) by done. apply chain_from_ext. intros i Hi. apply (settled_window n); [done|lia].
Qed.
Lemma settled_windows n k m : settled clock s n → (k + m ≤ n)%nat →
  window_of sha256_hex s' width <$> windows_at s k m = window_of sha256_hex s width <$> windows_at s k m.
Proof using width_pos Hok Hok' Ha.
  intros Hs Hn. apply list_fmap_ext. intros i x Hx. unfold windows_at, starts_from in Hx. rewrite list_lookup_fmap in Hx.
  destruct (seq 0 m !! i) as [j|] eqn:E; [|done]. injection Hx as <-. apply lookup_seq in E as [-> Hi].
  replace (first_start s + Z.of_nat k * width + Z.of_nat (0 + i) * width) with (first_start s + Z.of_nat (k + i) * width) by lia.
  apply (settled_window n); [done|lia].
Qed.
Lemma appended_position n k m previous : position clock s n k (S m) previous → position clock s' n k (S m) previous.
Proof using width_pos Hok Hok' Ha.
  intros [H1 H2 H3]. split; [done|apply settled_appended; [lia|done]|]. by rewrite (settled_chain (k + S m)) by (done || lia).
Qed.
Lemma appended_windows_at n k m : (0 < n)%nat → settled clock s n → windows_at s' k m = windows_at s k m.
Proof using width_pos Hok Hok' Ha. intros Hn Hs. unfold windows_at. by rewrite (settled_first n). Qed.
Lemma appended_worker n l p : ((0 < l)%nat → settled clock s l) → (n ≤ l)%nat → worker_ok clock s n l p → worker_ok clock s' n l p.
Proof using width_pos Hok Hok' Ha.
  intros Hl Hn. destruct p; cbn [worker_ok]; try done.
  - intros [H1 H2]. split; [done|]. eapply glance_appended; [|exact Hok|exact Ha|done]. lia.
  - intros [H|(k & m & H1 & H2 & H3)]; [by left|right]. pose proof (po_settled _ _ _ _ _ _ H2) as Hs. exists k, m.
    rewrite (appended_windows_at (k + S m)) by (done || lia). split_and!; [done|by apply appended_position|].
    intros d (p & Hp & E)%H3. exists p. split; [|done]. destruct n as [|n]; [by apply elem_of_nil in Hp|]. by rewrite (settled_chain l) by (lia || (apply Hl; lia)).
  - intros (k & m & H1 & H2). pose proof (po_settled _ _ _ _ _ _ H2) as Hs. exists k, m. rewrite (appended_windows_at (k + S m)) by (done || lia).
    split; [done|by apply appended_position].
  - intros (k & m & H1 & H2 & H3). pose proof (po_settled _ _ _ _ _ _ H2) as Hs. exists k, m. rewrite (appended_windows_at (k + S m)) by (done || lia).
    rewrite (settled_first (k + S m)) by (done || lia). split_and!; [done|by apply appended_position|].
    eapply glance_appended; [|exact Hok|exact Ha|done]. destruct Hs. lia.
  - intros [H|(k & m & H1 & H2)]; [by left|right]. pose proof (po_settled _ _ _ _ _ _ H2) as Hs. exists k, m.
    rewrite (appended_windows_at (k + S m)), (settled_windows (k + S m)) by (done || lia). split; [done|by apply appended_position].
  - intros (k & m & H1 & H2 & H3 & H4 & H5 & Hs). exists k, m. unfold record_at, recorded_window.
    rewrite (appended_windows_at (k + S m)), (settled_windows (k + S m)), (settled_chain (k + S m)), (settled_first (k + S m)), (settled_window (k + S m)) by (done || lia).
    split_and!; [done..|]. apply settled_appended; [lia|done].
Qed.
Lemma appended_consistent workers n l : consistent clock s workers n l →
  s'.(as_digests) = s.(as_digests) → s'.(as_emitted) = s.(as_emitted) → consistent clock s' workers n l.
Proof using width_pos Hok Hok' Ha.
  intros [_ Hh Hs Hws] Hd He. pose proof (hd_logged _ _ _ _ _ Hh) as Hn. split; [done| |intros Hl; by apply settled_appended, Hs|].
  - assert (∀ k, (k ≤ l)%nat → chain s' k = chain s k) as Hc.
    { intros k Hk. destruct l as [|l]; [by replace k with 0%nat by lia|]. apply (settled_chain (S l)); [lia|apply Hs; lia|done]. }
    destruct Hh as [H1 H2 H3 H4]. split; rewrite ?Hc, ?Hd, ?He by lia; done.
  - eapply Forall_impl; [exact Hws|]. intros p Hp. by apply appended_worker; [|lia|].
Qed.
End Rows.

(** ** A step of a run *)

Lemma windows_at_cons s k m : windows_at s k (S m) = first_start s + Z.of_nat k * width :: windows_at s (S k) m.
Proof using width_pos. unfold windows_at. rewrite starts_from_cons. do 2 f_equal. lia. Qed.
Lemma plan_ok clock c s n k previous : c ≤ clock → (k ≤ n)%nat → previous = after_chain None (chain s k) →
  (first_start s + Z.of_nat k * width + width + cfg.(dc_settle) ≤ c → is_Some (earliest_row s)) →
  let starts := settled_starts cfg c cfg.(dc_max_windows_per_run) (first_start s + Z.of_nat k * width) in
  starts = [] ∨ ∃ m, starts = windows_at s k (S m) ∧ position clock s n k (S m) previous.
Proof using width_pos.
  intros Hc Hk Hp He. cbv zeta. destruct (settled_starts_from c cfg.(dc_max_windows_per_run) (first_start s + Z.of_nat k * width)) as (m & -> & Hm).
  destruct m as [|m]; [by left|right]. specialize (Hm ltac:(lia)). exists m. split; [done|]. split; [done| |done]. split; [apply He; nia|]. nia.
Qed.
Lemma fresh_ok clock now s workers n l : consistent clock s workers n l → now ≤ clock → worker_ok clock s n l (worker_step sha256_hex cfg now Fresh s).1.
Proof using width_pos.
  intros [Hok Hh Hs Hws] Hnow. cbn [worker_step]. cbv zeta. pose proof (hd_logged _ _ _ _ _ Hh) as Hn. destruct n as [|n].
  - rewrite (last_stored_none s s (first_start s)) by apply Hh. done.
  - destruct (last_stored_chain _ _ _ _ (hd_stored _ _ _ _ _ Hh)) as (p & Hp & ->). cbn [fst worker_ok first_window].
    assert ((digest_of p).2.(ad_window_end) = first_start s + Z.of_nat (S n) * width) as ->.
    { pose proof Hp as Hp'. rewrite last_lookup, chain_from_length in Hp'. apply chain_from_lookup in Hp' as (_ & _ & Hp' & _). simpl in *. lia. }
    destruct (plan_ok clock now s (S n) (S n) (ad_digest <$> Some (digest_of p).2)) as [H|(m & H1 & H2)]; [done|done|by unfold after_chain; rewrite Hp|..|by left|].
    { intros _. apply Hs. lia. }
    right. exists (S n), m. split_and!; [done|done|]. intros d [= <-]. exists p. split; [by apply last_Some_elem_of in Hp|done].
Qed.
Lemma dated_ok clock c s n l seen : store_ok s → c ≤ clock → glance_ok (c - cfg.(dc_settle)) s (mkGlance seen []) →
  worker_ok clock s n l (worker_step sha256_hex cfg c (Dating c (mkGlance seen [])) s).1.
Proof using width_pos settle_pos.
  intros Hok Hc Hg. destruct (read_platform_ok _ _ _ Hok Hg) as [Hv Ha]. cbn [worker_step fst worker_ok first_window]. cbv zeta.
  set (v := read_platform s seen) in *. set (start := floor_to_window (default c (earliest_row v)) width).
  destruct (decide (start + width + cfg.(dc_settle) ≤ c)) as [Hle|Hgt].
  - assert (∃ e, earliest_row v = Some e ∧ earliest_row s = Some e) as (e & Ev & Es).
    { unfold start in Hle. destruct (earliest_row v) as [e|] eqn:Ev; simpl in Hle; [|pose proof (floor_bounds c); lia].
      exists e. split; [done|]. pose proof (floor_bounds e). eapply (earliest_appended _ v s); [done|done|done|done|]. lia. }
    assert (start = first_start s + Z.of_nat 0 * width) as -> by (unfold start, first_start; rewrite Ev, Es; simpl; lia).
    destruct (plan_ok clock c s n 0 None) as [H|(m & H1 & H2)]; [done|lia|done|by eexists|by left|]. right. by exists 0%nat, m.
  - left. destruct (settled_starts_from c cfg.(dc_max_windows_per_run) start) as (m & -> & Hm). destruct m as [|m]; [done|]. specialize (Hm ltac:(lia)). nia.
Qed.
Lemma read_ok clock s n l seen starts previous : store_ok s → worker_ok clock s n l (Reading starts previous (mkGlance seen [])) →
  worker_ok clock s n l (worker_step sha256_hex cfg clock (Reading starts previous (mkGlance seen [])) s).1.
Proof using width_pos.
  intros Hok (k & m & -> & Hp & Hg). destruct (read_platform_ok _ _ _ Hok Hg) as [Hv Ha]. cbn [worker_step fst].
  unfold windows_at at 1. rewrite compute_windows_spec by done. fold (windows_at s k (S m)). right. exists k, m. split; [|done].
  apply list_fmap_ext. intros i x Hx. unfold windows_at, starts_from in Hx. rewrite list_lookup_fmap in Hx.
  destruct (seq 0 (S m) !! i) as [j|] eqn:E; [|done]. injection Hx as <-. apply lookup_seq in E as [-> Hi]. symmetry. eapply window_stable; [done..|]. nia.
Qed.

(** What a step leaves. *)
Definition advances (clock : datetime) (s : audit_store) (n l : nat) (o : worker * audit_store) : Prop :=
  ∃ n' l', (n ≤ n')%nat ∧ (l ≤ l')%nat ∧ same_rows s o.2 ∧ holds s (first_start s) n' l' o.2 ∧ ((0 < l')%nat → settled clock s l') ∧ worker_ok clock s n' l' o.1.
Lemma reads_only clock s workers n l p : consistent clock s workers n l → worker_ok clock s n l p → advances clock s n l (p, s).
Proof using Type. intros [H1 H2 H3 H4] Hp. by exists n, l. Qed.

Lemma planned_advances clock now s workers n l starts last : consistent clock s workers n l → worker_ok clock s n l (Planned starts last) →
  advances clock s n l (worker_step sha256_hex cfg now (Planned starts last) s).
Proof using width_pos.
  intros Hc Hp. destruct starts as [|x starts]; [by eapply reads_only|]. destruct Hp as [Hp|(k & m & Hs & Hp & Hl)]; [done|].
  destruct last as [d|]; cbn [worker_step]; [|eapply reads_only; [done|]; by exists k, m].
  destruct (Hl d eq_refl) as (p & Hin & ->). pose proof (co_holds _ _ _ _ _ Hc) as Hh. exists n, l. split_and!; [done|done|done| |apply Hc|by exists k, m].
  apply holds_emit; [|done]. eapply elem_of_prefix; [exact Hin|]. apply chain_from_prefix. apply Hh.
Qed.
Lemma recording_advances clock now s workers n l windows previous : consistent clock s workers n l → worker_ok clock s n l (Recording windows previous) →
  advances clock s n l (worker_step sha256_hex cfg now (Recording windows previous) s).
Proof using width_pos.
  intros Hc Hp. destruct windows as [|w rest]; [by eapply reads_only|]. destruct Hp as [Hp|(k & m & Hw & [Hk Hs Hpr])]; [done|].
  rewrite windows_at_cons in Hw. injection Hw as -> ->. cbn [worker_step]. cbv zeta. subst previous.
  change (build_record _ _ _) with (record_at s (first_start s) k). pose proof (co_holds _ _ _ _ _ Hc) as Hh.
  exists n, (Nat.max l (S k)). split_and!; [done|lia|done|by apply holds_log| |].
  - intros _. destruct (decide (S k ≤ l)%nat); [replace (Nat.max l (S k)) with l by lia; apply Hc; lia|].
    replace (Nat.max l (S k)) with (S k) by lia. destruct Hs as [He Hs]. split; [done|]. nia.
  - exists k, m. split_and!; [done..|lia|done].
Qed.
Lemma storing_advances clock now s workers n l w rest record : consistent clock s workers n l → worker_ok clock s n l (Storing w rest record) →
  advances clock s n l (worker_step sha256_hex cfg now (Storing w rest record) s).
Proof using width_pos.
  intros Hc (k & m & -> & -> & -> & Hk & Hl & Hs). pose proof (co_holds _ _ _ _ _ Hc) as Hh. cbn [worker_step].
  change (wd_window_start _) with (first_start s + Z.of_nat k * width). change (wd_window_end _) with (first_start s + Z.of_nat k * width + width).
  rewrite (hd_stored _ _ _ _ _ Hh) at 1. destruct (decide (k = n)) as [->|Hne].
  - rewrite (proj2 (stored_lookup _ _ _ _)) by (intros; nia). exists (S n), l. split_and!; [lia|done|done|by apply holds_store|apply Hc|].
    destruct m as [|m]; [by left|right]. exists (S n), m. split; [done|]. split; [done|by replace (S n + S m)%nat with (n + S (S m))%nat by lia|].
    cbn [snd]. by rewrite after_record_at.
  - destruct (stored _ !! _) eqn:El; [by eapply reads_only|]. exfalso. rewrite stored_lookup in El. apply (El k); lia.
Qed.
Lemma step_advances clock now s workers n l p : consistent clock s workers n l → now ≤ clock → worker_ok clock s n l p →
  advances clock s n l (worker_step sha256_hex cfg now p s).
Proof using width_pos settle_pos.
  intros Hc Hnow Hp. pose proof (co_ok _ _ _ _ _ Hc) as Hok. destruct p as [|c|c [seen [|t todo]]|starts last|starts previous|starts previous [seen [|t todo]]|windows previous|w rest record|].
  - pose proof (fresh_ok _ _ _ _ _ _ Hc Hnow) as Hf. cbn [worker_step] in *. eapply reads_only; [exact Hc|exact Hf].
  - eapply reads_only; [exact Hc|]. split; [exact Hp|by apply list_tenants_ok].
  - destruct Hp as [H1 H2]. pose proof (dated_ok _ _ _ n l _ Hok H1 H2) as Hd. eapply reads_only; [exact Hc|exact Hd].
  - destruct Hp as [H1 H2]. eapply reads_only; [exact Hc|]. split; [exact H1|by apply read_tenant_ok].
  - by eapply planned_advances.
  - destruct Hp as (k & m & H1 & H2). eapply reads_only; [exact Hc|]. exists k, m. split_and!; [done..|by apply list_tenants_ok].
  - pose proof (read_ok _ _ _ _ _ _ _ Hok Hp) as Hd. eapply reads_only; [exact Hc|exact Hd].
  - destruct Hp as (k & m & H1 & H2 & H3). eapply reads_only; [exact Hc|]. exists k, m. split_and!; [done..|by apply read_tenant_ok].
  - by eapply recording_advances.
  - by eapply storing_advances.
  - by eapply reads_only.
Qed.
Lemma step_consistent clock now s workers n l i p : consistent clock s workers n l → now ≤ clock → workers !! i = Some p →
  let o := worker_step sha256_hex cfg now p s in ∃ n' l', consistent clock o.2 (<[i := o.1]> workers) n' l'.
Proof using width_pos settle_pos.
  intros Hc Hnow Hi o. pose proof (co_workers _ _ _ _ _ Hc) as Hws. destruct (step_advances _ _ _ _ _ _ p Hc Hnow) as (n' & l' & Hn & Hl & Hr & Hh & Hs & Hp).
  { by eapply Forall_lookup_1. }
  fold o in Hr, Hh, Hp. exists n', l'. split; [by eapply same_rows_store, Hc| |intros H; by eapply same_rows_settled, Hs|].
  - destruct Hh as [H1 H2 H3 H4]. split; rewrite ?(same_rows_chain _ _ _ Hr); done.
  - apply Forall_insert; [eapply Forall_impl; [exact Hws|]; intros q Hq|].
    + by eapply (same_rows_worker _ s).
    + eapply (same_rows_worker _ s); [exact Hr|reflexivity|reflexivity|exact Hp].
Qed.

(** ** Histories *)

(** The clock, the tables and the runs of the job.  The digest tables start empty; rows and tenants are added, a row
    within the settle time of its date; a run starts at any time, and takes its steps at any time, other runs and
    other rows in between; one that takes no further step has crashed.  The time a run reads from the database is that of
    the start of the transaction. *)
Inductive reachable : datetime → audit_store → list worker → Prop :=
| reach_start clock s : store_ok s → s.(as_digests) = ∅ → s.(as_emitted) = [] → reachable clock s []
| reach_time clock clock' s workers : reachable clock s workers → clock ≤ clock' → reachable clock' s workers
| reach_rows clock s s' workers : reachable clock s workers → store_ok s' → appended (clock - cfg.(dc_settle)) s s' →
    s'.(as_digests) = s.(as_digests) → s'.(as_emitted) = s.(as_emitted) → reachable clock s' workers
| reach_run clock s workers : reachable clock s workers → reachable clock s (Fresh :: workers)
| reach_step clock now s workers i p p' s' : reachable clock s workers → now ≤ clock → workers !! i = Some p →
    worker_step sha256_hex cfg now p s = (p', s') → reachable clock s' (<[i := p']> workers).
Lemma reachable_consistent clock s workers : reachable clock s workers → ∃ n l, consistent clock s workers n l.
Proof using width_pos settle_pos.
  induction 1 as [clock s Hok Hd He|clock clock' s workers _ (n & l & Hc) Hle|clock s s' workers _ (n & l & Hc)|clock s workers _ (n & l & Hc)|clock now s workers i p p' s' _ (n & l & Hc) Hnow Hi Hst].
  - exists 0%nat, 0%nat. split; [done| |lia|constructor]. split; [done|lia|rewrite He; set_solver|set_solver].
  - exists n, l. destruct Hc as [H1 H2 H3 H4]. split; [done|done|intros; by eapply later_settled, H3|]. eapply Forall_impl; [exact H4|]. intros p. by apply later_worker.
  - exists n, l. eapply appended_consistent; [apply Hc|done..].
  - exists n, l. destruct Hc as [H1 H2 H3 H4]. split; [done..|]. by constructor.
  - destruct (step_consistent _ _ _ _ _ _ _ _ Hc Hnow Hi) as (n' & l' & H). rewrite Hst in H. by exists n', l'.
Qed.
(** ** The verification of what they leave *)

Abbreviation digest := (record_digest sha256_hex).
Lemma chain_sorted s previous start n : StronglySorted record_before (chain_from s previous start n).
Proof using width_pos.
  revert previous start. induction n as [|n IH]; intros previous start; cbn [chain_from]; constructor; [by apply IH|].
  apply Forall_forall. intros p [i Hp]%list_elem_of_lookup. apply chain_from_lookup in Hp as (_ & Hp & _). left. rewrite Hp. simpl. nia.
Qed.
Lemma chain_NoDup s start n : NoDup (chain_from s None start n).
Proof using width_pos.
  apply NoDup_alt. intros i j p (_ & Hi & _)%chain_from_lookup (_ & Hj & _)%chain_from_lookup. rewrite Hi in Hj. nia.
Qed.
Lemma sorted_chain s start n u : u ≡ₚ chain_from s None start n → merge_sort record_before u = chain_from s None start n.
Proof using width_pos.
  intros Hu. apply (StronglySorted_unique_strong record_before).
  - intros p q. rewrite merge_sort_Permutation, Hu. intros [i Hp]%list_elem_of_lookup [j Hq]%list_elem_of_lookup H1 H2.
    assert (i = j) as ->; [|congruence]. apply chain_from_lookup in Hp as (_ & Hp & _), Hq as (_ & Hq & _). unfold record_before in *. rewrite Hp, Hq in *. nia.
  - apply StronglySorted_merge_sort; apply _.
  - apply chain_sorted.
  - by rewrite merge_sort_Permutation.
Qed.
Lemma chain_linked s n : ∀ start d r, r.(rec_window_end) = start → r.(rec_window_start) < start → linked (Some (d, r)) (chain_from s (Some d) start n).
Proof using width_pos.
  induction n as [|n IH]; intros start d r He Hs; [done|]. cbn [chain_from linked]. split; [split_and!; [simpl; lia|done|done]|].
  apply IH; [done|]. simpl. lia.
Qed.

Lemma consistent_verifies clock s workers k n records until : consistent clock s workers k n → (∀ l, l ∈ records ↔ l ∈ s.(as_emitted)) → records ≠ [] →
  (∀ u, until = Some u → ∃ l, l ∈ records ∧ u ≤ l.(lg_record).(rec_window_end)) →
  (∀ r r', r ∈ (chain s n).*2 → r' ∈ (chain s n).*2 → digest r = digest r' → r = r') →
  ∃ v, verify_records sha256_hex s records until = Ok v ∧ verification_ok v = true.
Proof using width_pos.
  intros Hc Hrec Hne Hu Hinj. pose proof (co_holds _ _ _ _ _ Hc) as [_ _ Honly Hall].
  assert (∀ l, l ∈ records → ∃ i p, chain s n !! i = Some p ∧ l = logged_of p) as Hlog.
  { intros l (p & [i Hp]%list_elem_of_lookup & ->)%Hrec%Honly. by exists i, p. }
  assert (∃ n', n = S n') as [n' En].
  { destruct n; [|by eexists]. destruct records as [|l records]; [done|]. destruct (Hlog l ltac:(by left)) as (i & p & Hp & _). done. }
  destruct (unique_records_complete sha256_hex (λ r, r ∈ (chain s n).*2) records Hinj) with (u := @nil (pystr * DigestRecord)) as (u & Eu & Hnd & Hel); [|constructor|constructor|].
  { apply Forall_forall. intros l (i & p & Hp & ->)%Hlog. apply list_elem_of_lookup_2 in Hp as Hin. apply chain_from_lookup in Hp as (_ & _ & _ & Hd & Hf & _). simpl.
    split_and!; [by apply (list_elem_of_fmap_2 snd)|done|by rewrite Hd]. }
  assert (u ≡ₚ chain s n) as Hperm.
  { apply NoDup_Permutation; [done|apply chain_NoDup|]. intros p. rewrite Hel. split.
    - intros [Hp|(l & (i & q & Hq & ->)%Hlog & ->)]; [by apply not_elem_of_nil in Hp|]. pose proof (list_elem_of_lookup_2 _ _ _ Hq) as Hin.
      apply chain_from_lookup in Hq as (_ & _ & _ & Hd & _). simpl. rewrite <- Hd. by destruct q.
    - intros Hp. right. exists (logged_of p). split; [by apply Hrec, Hall|]. apply list_elem_of_lookup in Hp as [i Hp]. apply chain_from_lookup in Hp as (_ & _ & _ & Hd & _).
      simpl. rewrite <- Hd. by destruct p. }
  assert (linked None (chain s n)) as Hlk by (rewrite En; cbn [chain_from linked]; split; [done|]; apply chain_linked; [done|simpl; lia]).
  unfold verify_records, check_chain. rewrite Eu, (sorted_chain _ _ _ _ Hperm). pose proof (proj2 (link_records_spec _ _) Hlk) as E1. pose proof (linked_chain _ _ Hlk) as E2.
  destruct (link_records None (chain s n)) as [fs rs]. simpl in E1, E2. subst fs rs.
  assert (flush_all sha256_hex s (batches [] (chain s n).*2) = Ok []) as Hfl.
  { destruct (batches_spec (chain s n).*2 [] (or_introl eq_refl)) as [Hruns Hcat]. apply flush_all_ok; [done|]. rewrite Hcat. cbn [app].
    intros r (p & -> & [i Hp]%list_elem_of_lookup)%list_elem_of_fmap. apply chain_from_lookup in Hp as (_ & Hst & Hen & _ & _ & q & Hq). unfold record_width. rewrite Hst, Hen.
    replace (first_start s + Z.of_nat i * width + width - (first_start s + Z.of_nat i * width)) with width by lia. split; [done|]. rewrite Hq. by apply compare_window_spec. }
  destruct (chain s n).*2 as [|r rs] eqn:Ers; [by rewrite En in Ers|]. rewrite Hfl. cbn [result_bind app]. eexists. split; [reflexivity|].
  unfold verification_ok. cbn [vf_windows vf_findings]. rewrite check_coverage_ok; [done| |].
  - intros c Hrow. assert (r.(rec_window_start) = first_start s) as -> by (rewrite En in Ers; cbn [chain_from fmap list_fmap] in Ers; by injection Ers as <- _).
    destruct (co_settled _ _ _ _ _ Hc ltac:(lia)) as [[e He] _]. unfold first_start. rewrite He. apply earliest_row_spec in He as [_ He]; [|apply Hc]. apply He in Hrow.
    pose proof (floor_bounds e). simpl. lia.
  - intros u' (l & (i & p & Hp & ->)%Hlog & Hle)%Hu. apply chain_from_lookup in Hp as (Hi & _ & Hen & _). simpl in Hle. rewrite Hen in Hle.
    destruct (last (r :: rs)) as [f|] eqn:El; [|by apply last_None in El]. simpl. rewrite <- Ers, fmap_last in El.
    destruct (last (chain s n)) as [q|] eqn:Eq; [|done]. injection El as <-. rewrite last_lookup, chain_from_length in Eq. apply chain_from_lookup in Eq as (_ & _ & Eq & _). rewrite Eq. nia.
Qed.
End History.

(** ** A run that nothing interrupts *)

Section Alone.
Context (sha256_hex : pystr → pystr) (cfg : AuditDigestConfig) (now : datetime).
Fixpoint run_worker (fuel : nat) (o : worker * audit_store) : worker * audit_store :=
  match fuel with O => o | S fuel => run_worker fuel (worker_step sha256_hex cfg now o.1 o.2) end.
Definition runs_to (o o' : worker * audit_store) : Prop := ∃ fuel, run_worker fuel o = o'.
Lemma runs_step p s o' : runs_to (worker_step sha256_hex cfg now p s) o' → runs_to (p, s) o'.
Proof using Type. intros [fuel H]. by exists (S fuel). Qed.

(** Reading the tenants one after the other, from one store, is reading the store. *)
Lemma glance_complete (s : audit_store) (state : glance → worker) :
  (∀ seen t todo, worker_step sha256_hex cfg now (state (mkGlance seen (t :: todo))) s = (state (mkGlance (read_tenant t s seen) todo), s)) →
  store_ok s → ∀ o', (∀ seen, same_rows s (read_platform s seen) → runs_to (state (mkGlance seen []), s) o') → runs_to (state (list_tenants s), s) o'.
Proof using Type.
  intros Hstep Hok o' Ho. unfold list_tenants.
  enough (∀ todo seen, seen.(as_tenants) = s.(as_tenants) → glance_ok (foldr Z.max 0 ((λ r : uuid * AuditLogRow, r.2.(al_created_at)) <$> map_to_list s.(as_log))) s (mkGlance seen todo) →
    runs_to (state (mkGlance seen todo), s) o') as H by (apply H; [done|by apply list_tenants_ok]).
  intros todo. induction todo as [|t todo IH]; intros seen Ht Hg.
  - apply Ho. destruct (read_platform_ok _ _ _ Hok Hg) as [_ Ha]. split_and!; [done| |done]. apply map_eq_iff. intros i.
    cbn [read_platform as_log]. apply option_eq. intros r. split; [apply (go_seen _ _ _ Hg)|].
    intros Hi. destruct (ap_log_new _ _ _ Ha _ _ Hi) as [|Hlt]; [done|]. exfalso.
    assert (∀ l (x : datetime), x ∈ l → x ≤ foldr Z.max 0 l) as Hmax by (induction l as [|y l IHl]; intros x; [by intros ?%elem_of_nil|]; intros [->|Hx%IHl]%elem_of_cons; simpl; lia).
    apply (Z.lt_irrefl (al_created_at r)). eapply Z.le_lt_trans; [|exact Hlt]. apply Hmax, list_elem_of_fmap. exists (i, r). by rewrite elem_of_map_to_list.
  - apply runs_step. rewrite Hstep. apply IH; [done|by apply read_tenant_ok].
Qed.
Lemma recording_runs windows : ∀ previous run s,
  runs_to (Recording windows previous, s) (Done, (record_windows sha256_hex windows previous run s).2).
Proof using Type.
  induction windows as [|w rest IH]; intros previous run s; apply runs_step; cbn [worker_step record_windows]; cbv zeta; [by exists 0%nat|].
  apply runs_step. cbn [worker_step]. destruct (as_digests _ !! _); [by exists 0%nat|]. apply IH.
Qed.
Lemma computing_runs starts previous s run : 0 < cfg.(dc_window) → store_ok s → (∃ first n, starts = starts_from cfg.(dc_window) first n) →
  ∃ windows, compute_windows sha256_hex s starts cfg.(dc_window) = Ok windows ∧
    runs_to (Listing starts previous, s) (Done, (record_windows sha256_hex windows previous run s).2).
Proof using Type.
  intros Hw Hok (first & n & ->). eexists. split; [by apply compute_windows_spec|]. apply runs_step. cbn [worker_step].
  apply (glance_complete s (Reading _ previous)); [done|done|]. intros seen Hr. apply runs_step. cbn [worker_step]. rewrite compute_windows_spec by done.
  rewrite (list_fmap_ext (window_of sha256_hex (read_platform s seen) (dc_window cfg)) (window_of sha256_hex s (dc_window cfg)))
    by (intros; apply window_rows; apply Hr). apply recording_runs.
Qed.
Lemma planned_runs s : 0 < cfg.(dc_window) → store_ok s →
  runs_to (Planned (settled_starts cfg now cfg.(dc_max_windows_per_run) (first_window cfg now (last_stored s) (earliest_row s))) (last_stored s), s)
    (Done, (digest_settled_windows sha256_hex cfg now s).2).
Proof using Type.
  intros Hw Hok. unfold digest_settled_windows. cbv zeta. set (last := last_stored s). set (first := first_window _ _ _ _).
  destruct (settled_starts_from cfg Hw now cfg.(dc_max_windows_per_run) first) as (m & -> & _). destruct (starts_from _ first m) as [|x starts] eqn:Es.
  { apply runs_step. by exists 0%nat. }
  apply runs_step. destruct last as [d|]; cbn [worker_step fmap option_fmap option_map].
  - destruct (computing_runs (x :: starts) (Some d.(ad_digest)) (emit (mkLogged d.(ad_record) (Some d.(ad_digest))) s) (mkDigestRun [] [] false)) as (ws & E & H);
      [done|by destruct Hok|by exists first, m|]. rewrite E. by destruct (record_windows _ _ _ _ _) in *.
  - destruct (computing_runs (x :: starts) None s (mkDigestRun [] [] false)) as (ws & E & H); [done|done|by exists first, m|].
    rewrite E. by destruct (record_windows _ _ _ _ _) in *.
Qed.
(** A run that is alone does what [digest_settled_windows] does, in finitely many steps. *)
Lemma run_alone s : 0 < cfg.(dc_window) → store_ok s → runs_to (Fresh, s) (Done, (digest_settled_windows sha256_hex cfg now s).2).
Proof using Type.
  intros Hw Hok. pose proof (planned_runs s Hw Hok) as Hp. apply runs_step. cbn [worker_step]. cbv zeta.
  destruct (last_stored s) as [d|] eqn:El; [exact Hp|]. apply runs_step. cbn [worker_step].
  apply (glance_complete s (Dating now)); [done|done|]. intros seen Hr. apply runs_step. cbn [worker_step]. cbv zeta. by rewrite (same_rows_earliest _ _ Hr).
Qed.
End Alone.


(** ** A deployment whose audit tables are digested

    One tenant and the platform have rows.  Two runs log the first window, one
    of them stores it, the other stops; the first logs the second window and
    crashes.  A row is added, and a third run digests the second window. *)

Definition ddemo_sha256 (text : pystr) : pystr := text.
Definition ddemo_hour : timedelta := 3600 * us_per_second.
Definition ddemo_noon : datetime := ymd2ord 2026 3 1 * us_per_day + 12 * ddemo_hour.
Definition ddemo_cfg : AuditDigestConfig := mkDigestConfig ddemo_hour (60 * us_per_second) 10.
Definition ddemo_row (action : pystr) (at_ : datetime) : AuditLogRow :=
  mkAuditLogRow 7 (lit "user") (Some 21%N) None None None None action (lit "role") (Some (lit "r1")) (lit "success") None None at_.
Definition ddemo_platform : PlatformAuditRow :=
  mkPlatformAuditRow (lit "user") (Some 21%N) None (lit "tenant.suspend") (lit "tenant") (Some (lit "7")) (Some 7%N) (lit "success") (Some (lit "fraud")) None None
    (ddemo_noon + ddemo_hour + 5 * us_per_second).
Definition ddemo_rows : audit_store :=
  mkAuditStore {[ 7%N ]} (<[101%N := ddemo_row (lit "role.create") (ddemo_noon + 90 * us_per_second)]> (<[102%N := ddemo_row (lit "role.assign") (ddemo_noon + ddemo_hour)]> ∅))
    (<[201%N := ddemo_platform]> ∅) ∅ [].
Definition ddemo_clock : datetime := ddemo_noon + 3 * ddemo_hour.
(** Steps of the runs, by their numbers. *)
Fixpoint interleave (sched : list nat) (o : list worker * audit_store) : list worker * audit_store :=
  match sched with
  | [] => o
  | i :: sched =>
      match o.1 !! i with
      | Some p => let o' := worker_step ddemo_sha256 ddemo_cfg ddemo_clock p o.2 in interleave sched (<[i := o'.1]> o.1, o'.2)
      | None => o
      end
  end.
Definition ddemo_first : list worker * audit_store :=
  interleave (replicate 9 0%nat ++ replicate 10 1%nat ++ [0; 1]%nat) ([Fresh; Fresh], ddemo_rows).
(** A row is added. *)
Definition add_row (i : uuid) (r : AuditLogRow) (s : audit_store) : audit_store :=
  mkAuditStore s.(as_tenants) (<[i := r]> s.(as_log)) s.(as_platform) s.(as_digests) s.(as_emitted).
Definition ddemo_grown : audit_store := add_row 103 (ddemo_row (lit "role.delete") ddemo_clock) ddemo_first.2.
Definition ddemo_last : list worker * audit_store := interleave (replicate 8 0%nat) (Fresh :: ddemo_first.1, ddemo_grown).
Definition ddemo : audit_store := ddemo_last.2.
(** The log, its lines in another order. *)
Definition ddemo_log : list LoggedRecord := reverse ddemo.(as_emitted).

(** The same, a row removed. *)
Definition ddemo_tampered : audit_store :=
  mkAuditStore ddemo.(as_tenants) (delete 102%N ddemo.(as_log)) ddemo.(as_platform) ddemo.(as_digests) ddemo.(as_emitted).
Definition ddemo_kinds (s : audit_store) (until : datetime) : result digest_error (list finding_kind) :=
  match verify_records ddemo_sha256 s ddemo_log (Some until) with Ok v => Ok (fd_kind <$> v.(vf_findings)) | Raise e => Raise e end.

Example ddemo_stored : length (map_to_list ddemo.(as_digests)) = 2%nat ∧ length ddemo_log = 5%nat.
Proof. by vm_compute. Qed.
Example ddemo_verified : ddemo_kinds ddemo (ddemo_noon + 2 * ddemo_hour) = Ok [].
Proof. by vm_compute. Qed.
Example ddemo_removal_reported : ddemo_kinds ddemo_tampered (ddemo_noon + 2 * ddemo_hour) = Ok [audit_log_changed (str_uuid 7)].
Proof. by vm_compute. Qed.
Example ddemo_not_covered : ddemo_kinds ddemo (ddemo_clock + 1) = Ok [rows_after_coverage].
Proof. by vm_compute. Qed.

(** Its rows are such as the database holds. *)
Lemma ddemo_row_ok i action at_ : (i < 2 ^ 128)%N → time_ok at_ → log_row_ok (i, ddemo_row action at_).
Proof. intros Hi Ht. unfold log_row_ok. simpl. split_and!; done. Qed.
Lemma ddemo_rows_ok : store_ok ddemo_rows.
Proof.
  split; cbn [ddemo_rows as_tenants as_log as_platform].
  - by intros t ->%elem_of_singleton.
  - intros i r [[<- <-]|[_ [[<- <-]|[_ H]]%lookup_insert_Some]]%lookup_insert_Some; [..|by rewrite lookup_empty in H];
      (split; [by apply ddemo_row_ok; [|vm_compute]|by apply elem_of_singleton]).
  - intros i r [[<- <-]|[_ H]]%lookup_insert_Some; [|by rewrite lookup_empty in H]. unfold platform_row_ok. simpl. split_and!; by vm_compute.
Qed.
Lemma ddemo_first_rows : same_rows ddemo_rows ddemo_first.2.
Proof. by vm_compute. Qed.
Lemma ddemo_final_rows : same_rows ddemo_grown ddemo.
Proof. by vm_compute. Qed.
Lemma add_row_ok i r s : store_ok s → log_row_ok (i, r) → r.(al_tenant_id) ∈ s.(as_tenants) → store_ok (add_row i r s).
Proof. intros [H1 H2 H3] Hr Ht. split; simpl; [done| |done]. intros j x [[<- <-]|[_ H]]%lookup_insert_Some; [done|by apply H2]. Qed.
Lemma add_row_appended bound i r s : s.(as_log) !! i = None → bound < r.(al_created_at) → appended bound s (add_row i r s).
Proof.
  intros Hi Hb. split; simpl; [done|by apply insert_subseteq| |done|by left]. intros j x [[<- <-]|[_ H]]%lookup_insert_Some; [by right|by left].
Qed.
Lemma ddemo_grown_ok : store_ok ddemo_grown.
Proof.
  apply add_row_ok; [eapply same_rows_store; [exact ddemo_first_rows|exact ddemo_rows_ok]|by apply ddemo_row_ok; [|vm_compute]|].
  rewrite (proj1 ddemo_first_rows). change (7%N ∈ ({[ 7%N ]} : gset uuid)); by apply elem_of_singleton.
Qed.
Lemma ddemo_ok : store_ok ddemo.
Proof. eapply same_rows_store; [exact ddemo_final_rows|exact ddemo_grown_ok]. Qed.
Lemma ddemo_appended : appended (ddemo_clock - ddemo_cfg.(dc_settle)) ddemo_first.2 ddemo_grown.
Proof. apply add_row_appended; [rewrite (proj1 (proj2 ddemo_first_rows)); by vm_compute|by vm_compute]. Qed.
Lemma interleave_reachable sched : ∀ workers s, reachable ddemo_sha256 ddemo_cfg ddemo_clock s workers →
  reachable ddemo_sha256 ddemo_cfg ddemo_clock (interleave sched (workers, s)).2 (interleave sched (workers, s)).1.
Proof.
  induction sched as [|i sched IH]; intros workers s Hr; [done|]. cbn [interleave fst snd]. destruct (workers !! i) as [p|] eqn:Hi; [|done].
  apply IH. eapply reach_step; [exact Hr|reflexivity|exact Hi|]. by destruct (worker_step _ _ _ _ _).
Qed.
Lemma ddemo_reachable : reachable ddemo_sha256 ddemo_cfg ddemo_clock ddemo ddemo_last.1.
Proof.
  apply interleave_reachable, reach_run. apply (reach_rows _ _ _ ddemo_first.2); [|exact ddemo_grown_ok|exact ddemo_appended|reflexivity|reflexivity].
  apply interleave_reachable, reach_run, reach_run, reach_start; [exact ddemo_rows_ok|done|done].
Qed.
(** One run stopped at the window of another, one crashed before its second window was stored. *)
Example ddemo_interleaved : (match ddemo_last.1 with [Done; Done; Storing w [] _] => bool_decide (w.(wd_window_start) = ddemo_noon + ddemo_hour) | _ => false end) = true.
Proof. by vm_compute. Qed.


Lemma verification_sound_witness :
  in_recorded ddemo_log (ddemo_noon + ddemo_hour) ∧
  (record_collision ddemo_sha256 ddemo_log (recorded_window ddemo_sha256 ddemo_rows ddemo_hour ddemo_noon None) ∨
   window_unchanged ddemo_sha256 ddemo_rows ddemo ddemo_noon (ddemo_noon + ddemo_hour)).
Proof.
  destruct (verify_records ddemo_sha256 ddemo ddemo_log (Some (ddemo_noon + 2 * ddemo_hour))) as [v|] eqn:Ev.
  2: { apply (f_equal (λ r, match r with Ok _ => true | Raise _ => false end)) in Ev. vm_compute in Ev. discriminate. }
  assert (verification_ok v = true) as Hok.
  { apply (f_equal (λ r, match r with Ok v => verification_ok v | Raise _ => false end)) in Ev. vm_compute in Ev. by symmetry. }
  destruct (verification_sound ddemo_sha256 ddemo ddemo_log (Some (ddemo_noon + 2 * ddemo_hour)) v ddemo_ok Ev Hok) as [H1 H2]. split.
  - apply H1; [left|exists (ddemo_noon + 2 * ddemo_hour); split; [by right|by vm_compute]].
    exists 102%N, (ddemo_row (lit "role.assign") (ddemo_noon + ddemo_hour)). split; [|done]. rewrite (proj1 (proj2 ddemo_final_rows)). by vm_compute.
  - apply (H2 ddemo_rows ddemo_hour ddemo_noon None (Some (record_digest ddemo_sha256 (recorded_window ddemo_sha256 ddemo_rows ddemo_hour ddemo_noon None))));
      [exact ddemo_rows_ok|by vm_compute|]. apply (list_elem_of_lookup_2 _ 1). by vm_compute.
Defined.
